(* ===== verification/_CoqProject ===== *)
-Q . S2P
Prelude.v
DList.v
Qsort.v
LList.v
LListRep.v
LListThms.v
ObjectsStore.v
ObjectsStoreThms.v
HashDefs.v
HashInv.v
HashLemmas.v
HashRefine.v
HashBulk.v
HashBulkRefine.v
HashExample.v
HashThms.v
HashLifeThms.v
HashCursorThms.v
HashCopyThms.v
HashCompareThms.v
Base64.v
Base64Thms.v
UrlCode.v
QuotPrint.v
QuotPrintThms.v
Calendar.v
CalendarSpec.v
CalendarThms.v
EasterThms.v
JewishThms.v
GC.v
GCGraph.v
GCFlood.v
GCScan.v
GCCollect.v
GCRoots.v
GCThms.v
GCCycleThms.v
GCBufferThms.v
GCExample.v
ZendAlloc.v
AllocBits.v
AllocRing.v
AllocTrie.v
AllocCut.v
AllocRemove.v
AllocSearch.v
AllocFree.v
AllocTake.v
AllocPick.v
AllocMap.v
AllocLayout.v
AllocHeap.v
AllocSplit.v
AllocState.v
AllocRelease.v
AllocEfree.v
AllocEmalloc.v
AllocRealloc.v
AllocGrow.v
AllocStart.v
AllocThms.v
AllocExample.v
AllocClaims.v
TimeLib.v
TimeSpec.v
TimeEpoch.v
TimeNorm.v
TimeStamp.v
TimeRound.v
TimeDiff.v
TimeWeek.v
TimeZone.v
TimeThms.v
TzFile.v
TzFileThms.v
