(* ===== verification/Prelude.v ===== *)
(** * Prelude: a verification library for the PHP 5.6 engine in this repository

    The repository is a PHP distribution; its program is the C source under
    src/php-5.6.40-src.  This library models the parts of it that carry logic
    of their own and are not generated or bundled from elsewhere: the engine's
    data structures, its cycle collector and its memory manager (Zend/), and the
    self-contained codecs, calendar computations and date arithmetic of three
    extensions (ext/).  All paths below are relative to src/php-5.6.40-src.

    ** How the parts interact in the program

    Every array, symbol table, property table and list of the engine is a
    [HashTable] (Zend/zend_hash.c); it sorts through [zend_qsort]
    (Zend/zend_qsort.c), as do the linked lists (Zend/zend_llist.c).  Objects
    live in the objects store (Zend/zend_objects_API.c) and are named by
    handles.  Values count their references; what the counts cannot free,
    values and objects that refer to each other in a cycle, is found by the
    collector (Zend/zend_gc.c), which walks arrays and the objects of the store.
    All of them get their memory from the memory manager (Zend/zend_alloc.c),
    which cuts the segments of a storage manager into blocks.

    The date extension keeps a point in time twice, as a count of seconds and as
    fields of a date (ext/date/lib, [timelib_time]).  From seconds to fields goes
    unixtime2tm.c, from fields, in any range and with a relative time added,
    to seconds tm2unixtime.c; between the two stands the offset of a zone, which
    parse_tz.c reads from the database and looks up.  interval.c subtracts and
    adds times, dow.c counts days of the week and weeks.

    ** Files, and the source they model

    - [Prelude]: platform, machine integers, options, lists, tactics.
    - [DList]: doubly linked lists threaded through the elements of a heap
      ([dll], [linked], [threaded]), used by the hash table, the linked lists
      and the root buffer.
    - [Qsort]: Zend/zend_qsort.c, definitions and the theorem.
    - [LList], [LListRep], [LListThms]: Zend/zend_llist.c and zend_llist.h.
      [lstate] is the heap of elements and the [zend_llist] structure.
    - [ObjectsStore], [ObjectsStoreThms]: Zend/zend_objects_API.c.  [ostate] is
      [EG(objects_store)] with the address of its array, and a log of calls.
    - [HashDefs], [HashBulk]: Zend/zend_hash.c and zend_hash.h.  [hstate] is the
      heap of buckets, the [HashTable] structure and the log of destructor
      calls.  [HashInv] has the invariant [wf], the abstract ordered map
      [ordmap] and the relation [refines]; [HashLemmas] the effect of each macro
      and loop on the invariant; [HashRefine] and [HashBulkRefine] the
      simulation lemmas; [HashExample] a concrete table; [HashThms],
      [HashLifeThms], [HashCursorThms], [HashCopyThms] and [HashCompareThms] the
      theorems.
    - [Base64], [Base64Thms]: ext/standard/base64.c.
    - [UrlCode]: the coding functions of ext/standard/url.c.
    - [QuotPrint], [QuotPrintThms]: ext/standard/quot_print.c.
    - [Calendar]: ext/calendar (gregor.c, julian.c, french.c, jewish.c, dow.c,
      easter.c, cal_unix.c and the computing functions of calendar.c);
      [CalendarSpec] the rules of the solar calendars; [CalendarThms],
      [EasterThms], [JewishThms] the theorems.
    - [TimeLib]: ext/date/lib (unixtime2tm.c, tm2unixtime.c, interval.c, dow.c
      and the second half of parse_tz.c).  A [timelib_time] is a record, handed
      on from step to step.  [TimeSpec] has the calendar of the specification, days
      numbered from the epoch; [TimeEpoch] the way from seconds to fields,
      [TimeNorm] bringing fields in range, [TimeStamp] the way back to seconds,
      [TimeRound] the two together; [TimeDiff] differences, [TimeWeek] weeks,
      [TimeZone] the types of a zone and local times; [TimeThms] the theorems.
    - [TzFile], [TzFileThms]: the first half of ext/date/lib/parse_tz.c, the
      reader of the zone database.
    - [GC]: Zend/zend_gc.c and zend_gc.h.  [gc_state] is the heap of values, the
      hash tables of arrays as lists of their elements, the objects store as far
      as the collector sees it, and [GC_G].  [GCGraph] has the graph of values
      and objects; [GCFlood] the two floods (marking and restoring), proved
      once for both; [GCScan], [GCCollect] and [GCRoots] the other phases and
      the buffer; [GCThms] the loops over the roots; [GCCycleThms] the
      theorems about a run and [GCBufferThms], which uses them, those about the buffer; [GCExample] an executable check of the
      invariant, and the witnesses.
    - [ZendAlloc]: Zend/zend_alloc.c and zend_alloc.h.  [mm_heap] is the memory of
      all segments word by word and the fields of the heap structure.  The proofs
      go from the words up: [AllocBits] the bit operations, [AllocRing] circular
      lists and [AllocTrie] the tries of large blocks, [AllocCut],
      [AllocRemove], [AllocFree], [AllocTake], [AllocPick] and [AllocSearch] what adding, taking
      and searching do to all of them at once ([AllocMap]); [AllocLayout] segments
      as sequences of blocks ([layout], with the segments whose headers are not
      relied on, [Torn]), [AllocHeap] the two views together,
      [AllocSplit] cutting a block; [AllocState] adds the counters and the list
      of segments, [AllocRelease] the joining of neighbours.  On these stand the
      operations: [AllocEfree] ([heap_ok], release and the cache),
      [AllocEmalloc], [AllocRealloc], [AllocGrow], [AllocStart]; [AllocThms] hides the
      layout behind the map of the program's pointers ([holds]), which is the
      abstract specification; [AllocExample] is a storage manager and a heap in
      use, [AllocClaims] the theorems.

    ** Conventions

    Memory is a finite map from addresses to records; an access through an
    address that is not allocated, outside an array or a buffer, a signed
    overflow where C leaves it undefined, and running out of fuel are all
    [None].  A theorem that an operation returns [Some] therefore says that it
    is memory safe, has no undefined behaviour and terminates.  Fuel is never
    an argument of a modelled function of the source: loops get a bound computed
    from the state (the number of allocated buckets, elements, values or bytes),
    and the theorems show that it is enough.

    Unsigned machine integers are [Z] with the wrap-around written out
    ([to_uint], [to_ulong]); the width of [long] is a parameter ([Platform]),
    since the sources are compiled with both.  The dates are in [timelib_sll],
    64 bits everywhere; a sum or a product outside of it ([sll]) is [None].

    Code that is not in the modelled files is a parameter: allocation ([Malloc],
    [Alloc], [Realloc]: fresh addresses, arbitrary contents), destructors,
    comparison and apply callbacks, the engine's callbacks of the objects store
    ([Callbacks]) and of the collector ([GcCallbacks]), the memory manager's
    storage ([Storage]).  What the code relies on is a named hypothesis
    ([Callbacks]' rely condition, [GcCallbackLaws], [StorageOk]; [apart] of the
    keys of two tables), and each has an instance in a witness.

    ** What the theorems show

    - Hash table: the operations, from any state that represents an ordered
      map, returns and leaves a state that represents the map the abstract
      operation gives; lookups answer as the map does; destruction frees every
      bucket once; walks visit every entry once; a saved position survives;
      copies and merges are unions of maps, and comparing is 0 for equal maps; the
      unrolled hash function is DJBX33A; strings are integer keys exactly when
      they are canonical decimal numbers of a long.
    - Sorting: a sorted permutation, no overrun of the fixed-size stack.
    - Linked lists: operations against sequences.
    - Objects store: handles are fresh, counted and recycled, destructors run
      once, also when they use the store themselves, and the free function once
      after them; each call of either is stated one by one.
    - Collector: a run finds exactly the values that are reachable from a
      purple root and from nothing outside, restores all other counts, calls the
      destructors and destroys and frees what it found in the order of its list,
      whatever the destructors do within the laws, and the buffer of roots never
      loses an entry, also when a full buffer makes a run start.  Of a
      run that a destructor starts within a run only what the laws say is
      relied on: that it leaves the list of the outer run alone.
    - Memory manager: allocating, resizing and freeing are insertion, update and
      deletion in the map of the program's pointers, data kept, limit kept; a
      use of it does not corrupt the heap, also after refused requests, but for
      one: the storage manager refuses to enlarge a segment whose free block has
      been taken ([growth_refused]), after which the segment counts as [Torn] in
      the proof that the error is still reported.  In the end all memory is given
      back but the segment of the reserve.
    - Codecs: base64 is that of RFC 4648; round trips, and safety on any input.
    - Calendars: the conversions are inverse to each other and number the days
      of the civil, Republican and Jewish calendars.
    - Dates: every second of 64 bits has its date, every date in range its second,
      and they are inverse to each other, also in a zone of the database away
      from the changes of its offset; bringing fields in range and adding
      relative times ends and does not move the instant otherwise; a difference
      of times in fixed zones added to the one gives the other; a zone written in the format
      of the database is found and read back.

    Mistakes of the sources that the models show are stated as theorems or
    examples next to the definitions they concern ([del_ref_writes_freed_store],
    [sort_renumber_stale_key], [zend_llist_remove_tail_dangles],
    [jewish_last_date_overflows], [gregorian_century_overflows],
    [failed_growth_unlinks_twice], [small_block_not_found], [end_of_a_period],
    [year_minus_100], [day_of_week_before_year_0]).

    ** Not modelled

    The compiler and the virtual machine (zend_compile.c, zend_execute.c and
    what is generated from zend_vm_def.h), which need a semantics of PHP; the
    scanners and parsers, which are re2c and bison output; streams, SAPIs,
    start-up and I/O; operators and conversions of values (zend_operators.c);
    extensions that bind or bundle third-party libraries.  Of the hash table,
    merging through a checker, splicing and changing the key of an element are
    modelled without theorems.  Of the memory manager, the storage handlers (mmap, malloc,
    win32), the debugging aids and the full shutdown are left out, and the end of
    a request ([zend_mm_shutdown]) is modelled without a theorem.  Of the dates,
    the parsers of dates and intervals are re2c output, sunrise (astro.c) is
    floating point, php_date.c hands arguments over, and the fraction of a
    second, a double that the arithmetic carries along, is not kept. *)
From Stdlib Require Export ZArith Lia Sorted.
From stdpp Require Export strings option gmap list.

#[global] Open Scope Z_scope.

(** ** The data model of the target platform

    [long] is 32 bits wide on x86 and on 64-bit Windows and 64 bits wide on
    LP64 systems; the sources are compiled for all of them and test
    [SIZEOF_LONG].  The development is generic in the choice. *)
Inductive long_size := LONG32 | LONG64.

#[export] Instance long_size_eq_dec : EqDecision long_size.
Proof. solve_decision. Defined.

Class Platform := { long_kind : long_size; sizeof_voidp : Z }.

Definition SIZEOF_LONG `{Platform} : Z :=
  match long_kind with LONG32 => 4 | LONG64 => 8 end.
Definition LONG_BITS `{Platform} : Z := 8 * SIZEOF_LONG.
Definition LONG_MAX `{Platform} : Z := 2 ^ (LONG_BITS - 1) - 1.
Definition LONG_MIN `{Platform} : Z := - 2 ^ (LONG_BITS - 1).
Definition ULONG_MAX `{Platform} : Z := 2 ^ LONG_BITS - 1.

(** Conversions to [unsigned char], [uint], [ulong] and [long]. *)
Definition to_uchar (z : Z) : Z := z mod 2 ^ 8.
Definition to_uint (z : Z) : Z := z mod 2 ^ 32.
Definition to_int (z : Z) : Z := (z + 2 ^ 31) mod 2 ^ 32 - 2 ^ 31.
Definition to_ulong `{Platform} (z : Z) : Z := z mod 2 ^ LONG_BITS.
Definition to_long `{Platform} (z : Z) : Z :=
  (z + 2 ^ (LONG_BITS - 1)) mod 2 ^ LONG_BITS - 2 ^ (LONG_BITS - 1).
(** [int] is 32 bits wide everywhere. *)
Definition INT_MAX : Z := 2147483647.
Definition INT_MIN : Z := -2147483648.
(** The value of a signed expression: undefined when it does not fit. *)
Definition int_value (z : Z) : option Z :=
  if (INT_MIN <=? z) && (z <=? INT_MAX) then Some z else None.
Definition long_value `{Platform} (z : Z) : option Z :=
  if (LONG_MIN <=? z) && (z <=? LONG_MAX) then Some z else None.
(** A [char] read from memory and promoted, with [char] signed. *)
Definition schar (b : Z) : Z := if b <? 128 then b else b - 256.

(** The two platforms the engine is built for. *)
Definition LP64 : Platform := {| long_kind := LONG64; sizeof_voidp := 8 |}.
Definition ILP32 : Platform := {| long_kind := LONG32; sizeof_voidp := 4 |}.

(** Truth of a C flag test [flags & bit]. *)
Definition has_flag (flags bit : Z) : bool := negb (Z.land flags bit =? 0).

Inductive zend_result := SUCCESS | FAILURE.
#[export] Instance zend_result_eq_dec : EqDecision zend_result.
Proof. solve_decision. Defined.

(** ** Sorting

    What [zend_hash_sort] asks of the sort function it is given (a
    [sort_func_t]) and what [zend_qsort] promises: the array is permuted, and
    ordered when the comparison is a total preorder.  Arrays have fewer than
    2^32 elements. *)
Definition total_preorder {A} (cmp : A -> A -> Z) : Prop :=
  (forall x y, cmp x y <= 0 \/ cmp y x <= 0)
  /\ (forall x y z, cmp x y <= 0 -> cmp y z <= 0 -> cmp x z <= 0).
Definition sorted_by {A} (cmp : A -> A -> Z) : list A -> Prop :=
  StronglySorted (fun x y => cmp x y <= 0).
Class SortFunc {A} (sort_func : (A -> A -> Z) -> list A -> list A) : Prop := {
  sort_func_perm : forall cmp l, Z.of_nat (length l) < 2 ^ 32 -> sort_func cmp l ≡ₚ l;
  sort_func_sorted : forall cmp l, Z.of_nat (length l) < 2 ^ 32 -> total_preorder cmp ->
    sorted_by cmp (sort_func cmp l)
}.

(** ** Tactics *)

(** Case analysis on the first [match] or [if] scrutinee of the goal. *)
Ltac case_goal :=
  match goal with
  | |- context [match ?x with _ => _ end] => destruct x eqn:?
  end.

(** Turn boolean comparisons of the context into propositions. *)
Ltac reflect_bools :=
  repeat match goal with
  | H : (_ && _) = true |- _ => apply andb_true_iff in H as [? ?]
  | H : (_ || _) = false |- _ => apply orb_false_iff in H as [? ?]
  | H : negb _ = true |- _ => apply negb_true_iff in H
  | H : negb _ = false |- _ => apply negb_false_iff in H
  | H : (_ =? _) = true |- _ => apply Z.eqb_eq in H
  | H : (_ =? _) = false |- _ => apply Z.eqb_neq in H
  | H : (_ <? _) = true |- _ => apply Z.ltb_lt in H
  | H : (_ <? _) = false |- _ => apply Z.ltb_ge in H
  | H : (_ <=? _) = true |- _ => apply Z.leb_le in H
  | H : (_ <=? _) = false |- _ => apply Z.leb_gt in H
  | H : bool_decide _ = true |- _ => apply bool_decide_eq_true in H
  | H : bool_decide _ = false |- _ => apply bool_decide_eq_false in H
  end.

(** ** Integers at their width *)
Section Width.
Context `{Platform}.

Lemma LONG_BITS_cases : LONG_BITS = 32 \/ LONG_BITS = 64.
Proof. unfold LONG_BITS, SIZEOF_LONG. destruct long_kind; lia. Qed.

Lemma LONG_MAX_pos : 2 ^ 31 - 1 <= LONG_MAX.
Proof. unfold LONG_MAX. destruct LONG_BITS_cases as [-> | ->]; lia. Qed.

Lemma ulong_split : 2 ^ LONG_BITS = 2 * (LONG_MAX + 1).
Proof. unfold LONG_MAX. destruct LONG_BITS_cases as [-> | ->]; lia. Qed.

Lemma LONG_half : 2 ^ (LONG_BITS - 1) = LONG_MAX + 1.
Proof. unfold LONG_MAX. lia. Qed.

Lemma to_ulong_range z : 0 <= to_ulong z < 2 ^ LONG_BITS.
Proof.
  apply Z.mod_pos_bound. destruct LONG_BITS_cases as [-> | ->]; lia.
Qed.

Lemma to_ulong_small z : 0 <= z < 2 ^ LONG_BITS -> to_ulong z = z.
Proof. apply Z.mod_small. Qed.

Lemma to_long_small z : 0 <= z <= LONG_MAX -> to_long z = z.
Proof.
  intros Hz. unfold to_long. rewrite LONG_half, ulong_split, Z.mod_small; lia.
Qed.

Lemma to_long_big z :
  LONG_MAX < z < 2 ^ LONG_BITS -> to_long z = z - 2 ^ LONG_BITS.
Proof.
  intros Hz. unfold to_long. rewrite LONG_half. rewrite ulong_split in *.
  replace (z + (LONG_MAX + 1))
    with (z - (LONG_MAX + 1) + 1 * (2 * (LONG_MAX + 1))) by lia.
  rewrite Z.mod_add by lia. rewrite Z.mod_small; lia.
Qed.
End Width.

Lemma to_int_small z : INT_MIN <= z <= INT_MAX -> to_int z = z.
Proof. unfold INT_MIN, INT_MAX, to_int. intros Hz. rewrite Z.mod_small; lia. Qed.

Lemma int_value_ok z : INT_MIN <= z <= INT_MAX -> int_value z = Some z.
Proof. intros [H1 H2]. unfold int_value. apply Z.leb_le in H1, H2. by rewrite H1, H2. Qed.

Lemma long_value_ok `{Platform} z : LONG_MIN <= z <= LONG_MAX -> long_value z = Some z.
Proof. intros [H1 H2]. unfold long_value. apply Z.leb_le in H1, H2. by rewrite H1, H2. Qed.

Lemma to_uint_small z : 0 <= z < 2 ^ 32 -> to_uint z = z.
Proof. apply Z.mod_small. Qed.

(** [x & (2^j - 1)] is reduction modulo [2^j]. *)
Lemma land_pow2_mask x j : 0 <= j -> Z.land x (2 ^ j - 1) = x mod 2 ^ j.
Proof.
  intros Hj. rewrite <- Z.land_ones by done. f_equal.
  rewrite Z.ones_equiv. lia.
Qed.

Create HintDb php discriminated.
#[export] Hint Resolve to_ulong_range : php.

(** ** Lists *)

(** Monotonicity of [Forall2] on the elements of the first list. *)
Lemma Forall2_impl_in {A B} (P Q : A -> B -> Prop) l k :
  Forall2 P l k -> (forall x y, x ∈ l -> P x y -> Q x y) -> Forall2 Q l k.
Proof.
  induction 1 as [|x y l k Hxy Hl IH]; intros Hx; constructor.
  - apply Hx; [by left|done].
  - apply IH. intros. apply Hx; [by right|done].
Qed.
