(* ===== verification/DList.v ===== *)
(** * DList: intrusive doubly linked lists

    The engine threads its containers through pointers stored in the elements
    themselves ([pListNext]/[pListLast] and [pNext]/[pLast] of a hash bucket,
    [next]/[prev] of a [zend_llist_element]).  This file states once what it
    means for such pointers to form a list, and how the three surgeries the
    sources perform (insert between two neighbours, unlink, walk) act on it. *)
From S2P Require Import Prelude.

Abbreviation addr := positive.

(** The element before position [i]. *)
Definition prev_of {A} (l : list A) (i : nat) : option A :=
  match i with O => None | S j => l !! j end.

Section Links.
Context {A : Type} `{EqDecision A}.
Implicit Types (l : list A) (p q : A).

(** [N] and [P] read the forward and backward link of an element, [None]
    when the element is not allocated. *)
Definition dll (N P : A -> option (option A)) (l : list A) : Prop :=
  forall i p, l !! i = Some p ->
    N p = Some (l !! S i) /\ P p = Some (prev_of l i).

Lemma dll_nil N P : dll N P [].
Proof. intros i p. by rewrite lookup_nil. Qed.

Lemma dll_ext N P N' P' l :
  dll N P l ->
  (forall p, p ∈ l -> N' p = N p /\ P' p = P p) ->
  dll N' P' l.
Proof.
  intros Hd Hx i p Hi. destruct (Hd i p Hi).
  destruct (Hx p) as [-> ->]; [by eapply list_elem_of_lookup_2|done].
Qed.

Lemma prev_of_app_r l1 l2 i :
  prev_of (l1 ++ l2) (length l1 + S i) = prev_of l2 (S i).
Proof.
  replace (length l1 + S i)%nat with (S (length l1 + i)) by lia. simpl.
  rewrite lookup_app_r by lia. f_equal. lia.
Qed.

Lemma prev_of_length l1 l2 : prev_of (l1 ++ l2) (length l1) = last l1.
Proof.
  destruct l1 as [|x l1] using rev_ind; [done|].
  rewrite last_snoc, length_app, Nat.add_comm. simpl.
  rewrite <- app_assoc. rewrite lookup_app_r, Nat.sub_diag by lia. done.
Qed.

Lemma lookup_middle_next l1 p l2 :
  (l1 ++ p :: l2) !! S (length l1) = head l2.
Proof.
  rewrite lookup_app_r by lia.
  replace (S (length l1) - length l1)%nat with 1%nat by lia.
  by destruct l2.
Qed.

Lemma dll_middle N P l1 p l2 :
  dll N P (l1 ++ p :: l2) -> N p = Some (head l2) /\ P p = Some (last l1).
Proof.
  intros Hd. destruct (Hd (length l1) p) as [HN HP].
  { by rewrite list_lookup_middle. }
  by rewrite HN, HP, lookup_middle_next, prev_of_length.
Qed.

Lemma dll_singleton N P p :
  N p = Some None -> P p = Some None -> dll N P [p].
Proof.
  intros HN HP [|i] q; simpl; [|by rewrite lookup_nil].
  intros [= <-]. by rewrite HN, HP.
Qed.

(** Every position of a list is either before, at or after a split. *)
Lemma lookup_split_cases l1 p l2 i q :
  (l1 ++ p :: l2) !! i = Some q ->
  (i < length l1 /\ l1 !! i = Some q)%nat
  \/ (i = length l1 /\ q = p)
  \/ exists j, i = (length l1 + S j)%nat /\ l2 !! j = Some q.
Proof.
  intros Hi. destruct (decide (i < length l1)%nat).
  { left. split; [done|]. by rewrite lookup_app_l in Hi. }
  rewrite lookup_app_r in Hi by lia.
  destruct (i - length l1)%nat as [|j] eqn:E; simpl in Hi.
  - right; left. split; [lia|congruence].
  - right; right. exists j. split; [lia|done].
Qed.

Lemma NoDup_lookup_last_inj l1 q i :
  NoDup l1 -> l1 !! i = Some q -> last l1 = Some q -> S i = length l1.
Proof.
  intros Hnd Hi Hl. rewrite last_lookup in Hl.
  pose proof (lookup_lt_Some _ _ _ Hi).
  assert (i = pred (length l1)) by (eapply NoDup_lookup; eauto). lia.
Qed.

(** Linking [p] between its neighbours: [p] gets both links, the last of
    [l1] gets a new forward link, the first of [l2] a new backward link. *)
Lemma dll_insert N P N' P' l1 p l2 :
  NoDup (l1 ++ l2) -> p ∉ l1 ++ l2 ->
  dll N P (l1 ++ l2) ->
  N' p = Some (head l2) -> P' p = Some (last l1) ->
  (forall q, q ∈ l1 ++ l2 ->
     N' q = if decide (last l1 = Some q) then Some (Some p) else N q) ->
  (forall q, q ∈ l1 ++ l2 ->
     P' q = if decide (head l2 = Some q) then Some (Some p) else P q) ->
  dll N' P' (l1 ++ p :: l2).
Proof.
  intros Hnd Hp Hd HNp HPp HN HP i q Hi.
  pose proof Hnd as (Hnd1 & Hdis & Hnd2)%NoDup_app.
  destruct (lookup_split_cases _ _ _ _ _ Hi) as [[Hlt Hq]|[[-> ->]|(j & -> & Hq)]].
  - assert (q ∈ l1 ++ l2) as Hin
      by (apply elem_of_app; left; by eapply list_elem_of_lookup_2).
    destruct (Hd i q) as [HNq HPq]; [by rewrite lookup_app_l|].
    rewrite HN, HP by done. split.
    + case_decide as Hlast.
      * assert (S i = length l1) as -> by eauto using NoDup_lookup_last_inj.
        by rewrite list_lookup_middle.
      * rewrite HNq. f_equal.
        destruct (decide (S i < length l1)%nat); [by rewrite !lookup_app_l|].
        exfalso. apply Hlast. rewrite last_lookup.
        by replace (pred (length l1)) with i by lia.
    + case_decide as Hh.
      * exfalso. apply (Hdis q); [by eapply list_elem_of_lookup_2|].
        by apply head_Some_elem_of.
      * rewrite HPq. destruct i; [done|]. simpl.
        by rewrite !lookup_app_l by lia.
  - by rewrite HNp, HPp, lookup_middle_next, prev_of_length.
  - assert (q ∈ l1 ++ l2) as Hin
      by (apply elem_of_app; right; by eapply list_elem_of_lookup_2).
    destruct (Hd (length l1 + j)%nat q) as [HNq HPq].
    { rewrite lookup_app_r by lia. rewrite <- Hq. f_equal. lia. }
    rewrite HN, HP by done. split.
    + case_decide as Hlast.
      * exfalso. apply (Hdis q); [by apply last_Some_elem_of|by eapply list_elem_of_lookup_2].
      * rewrite HNq. f_equal. rewrite !lookup_app_r by lia.
        replace (S (length l1 + S j) - length l1)%nat with (S (S j)) by lia.
        simpl. f_equal. lia.
    + rewrite prev_of_app_r. simpl. case_decide as Hh.
      * rewrite head_lookup in Hh.
        assert (j = 0%nat) as -> by (eapply NoDup_lookup; eauto). done.
      * rewrite HPq. destruct j as [|j].
        { rewrite head_lookup in Hh. congruence. }
        rewrite prev_of_app_r. done.
Qed.

(** Unlinking [p]: its two neighbours are linked to each other. *)
Lemma dll_remove N P N' P' l1 p l2 :
  NoDup (l1 ++ p :: l2) ->
  dll N P (l1 ++ p :: l2) ->
  (forall q, q ∈ l1 ++ l2 ->
     N' q = if decide (last l1 = Some q) then Some (head l2) else N q) ->
  (forall q, q ∈ l1 ++ l2 ->
     P' q = if decide (head l2 = Some q) then Some (last l1) else P q) ->
  dll N' P' (l1 ++ l2).
Proof.
  intros Hnd Hd HN HP i q Hi.
  pose proof Hnd as (Hnd1 & Hdis & Hnd2)%NoDup_app.
  apply NoDup_cons in Hnd2 as [Hp2 Hnd2].
  assert (q ∈ l1 ++ l2) as Hin by (by eapply list_elem_of_lookup_2).
  rewrite HN, HP by done.
  destruct (decide (i < length l1)%nat) as [Hlt|Hge].
  - rewrite lookup_app_l in Hi by done.
    destruct (Hd i q) as [HNq HPq]; [by rewrite lookup_app_l|]. split.
    + case_decide as Hlast.
      * assert (S i = length l1) as -> by eauto using NoDup_lookup_last_inj.
        rewrite lookup_app_r, Nat.sub_diag by lia. by rewrite head_lookup.
      * rewrite HNq. f_equal.
        destruct (decide (S i < length l1)%nat); [by rewrite !lookup_app_l|].
        exfalso. apply Hlast. rewrite last_lookup.
        by replace (pred (length l1)) with i by lia.
    + case_decide as Hh.
      * exfalso. apply (Hdis q); [by eapply list_elem_of_lookup_2|].
        apply elem_of_cons. right. by apply head_Some_elem_of.
      * rewrite HPq. destruct i; [done|]. simpl.
        by rewrite !lookup_app_l by lia.
  - rewrite lookup_app_r in Hi by lia.
    destruct (i - length l1)%nat as [|j] eqn:E; simpl in Hi.
    all: assert (i = length l1 + (i - length l1))%nat as -> by lia; rewrite E.
    all: destruct (Hd (length l1 + S (i - length l1))%nat q) as [HNq HPq];
      [rewrite lookup_app_r by lia;
       replace (length l1 + S (i - length l1) - length l1)%nat
         with (S (i - length l1)) by lia; by rewrite E|].
    all: rewrite E in HNq, HPq.
    all: assert (last l1 <> Some q) as Hlast.
    1, 3: intros Hl; apply (Hdis q); [by apply last_Some_elem_of|];
      apply elem_of_cons; right; by eapply list_elem_of_lookup_2.
    all: rewrite (decide_False (P := last l1 = Some q)) by done; rewrite HNq.
    + split.
      * f_equal. rewrite !lookup_app_r by lia.
        replace (S (length l1 + 1) - length l1)%nat with 2%nat by lia.
        by replace (S (length l1 + 0) - length l1)%nat with 1%nat by lia.
      * rewrite decide_True by (by rewrite head_lookup).
        by rewrite Nat.add_0_r, prev_of_length.
    + split.
      * f_equal. rewrite !lookup_app_r by lia.
        replace (S (length l1 + S (S j)) - length l1)%nat with (S (S (S j))) by lia.
        by replace (S (length l1 + S j) - length l1)%nat with (S (S j)) by lia.
      * rewrite decide_False.
        { by rewrite HPq, !prev_of_app_r. }
        rewrite head_lookup. intros Hh.
        assert (0%nat = S j) by (eapply NoDup_lookup; eauto). done.
Qed.
End Links.

(** ** Link fields as finite maps

    Projecting one link field of every element of a heap gives a finite map
    from addresses to links; the assignments of the sources are insertions
    into these maps. *)

(** [if (o) o->field = x]. *)
Definition opt_insert {X} (o : option addr) (x : X) (m : gmap addr X) : gmap addr X :=
  match o with Some q => <[q := x]> m | None => m end.

Lemma lookup_opt_insert {X} o (x : X) m q :
  opt_insert o x m !! q = if decide (o = Some q) then Some x else m !! q.
Proof.
  destruct o as [r|]; simpl; [|done].
  rewrite lookup_insert. repeat case_decide; congruence.
Qed.

(** [dll] for link fields given as maps. *)
Definition linked (N P : gmap addr (option addr)) (l : list addr) : Prop :=
  dll (fun p => N !! p) (fun p => P !! p) l.

Section Linked.
Implicit Types (N P : gmap addr (option addr)) (l : list addr) (p q : addr).

Lemma linked_nil N P : linked N P [].
Proof. apply dll_nil. Qed.

Lemma linked_frame N P N' P' l :
  linked N P l -> (forall q, q ∈ l -> N' !! q = N !! q) ->
  (forall q, q ∈ l -> P' !! q = P !! q) -> linked N' P' l.
Proof. intros Hl HN HP. eapply dll_ext; [done|]. intros q Hq. auto. Qed.

Lemma linked_allocated N P l p : linked N P l -> p ∈ l -> is_Some (N !! p).
Proof.
  intros Hl [i Hi]%list_elem_of_lookup. destruct (Hl i p Hi) as [-> _]. eauto.
Qed.

Lemma linked_middle N P l1 p l2 :
  linked N P (l1 ++ p :: l2) -> N !! p = Some (head l2) /\ P !! p = Some (last l1).
Proof. apply (dll_middle (fun p => N !! p)). Qed.

Lemma linked_insert N P l1 p l2 :
  NoDup (l1 ++ l2) -> p ∉ l1 ++ l2 -> linked N P (l1 ++ l2) ->
  linked (opt_insert (last l1) (Some p) (<[p := head l2]> N))
         (opt_insert (head l2) (Some p) (<[p := last l1]> P)) (l1 ++ p :: l2).
Proof.
  intros Hnd Hp Hl.
  assert (Hl1 : last l1 <> Some p).
  { intros E. apply Hp, elem_of_app. left. by apply last_Some_elem_of. }
  assert (Hl2 : head l2 <> Some p).
  { intros E. apply Hp, elem_of_app. right. by apply head_Some_elem_of. }
  eapply dll_insert; try done.
  - rewrite lookup_opt_insert, decide_False by done. apply lookup_insert_eq.
  - rewrite lookup_opt_insert, decide_False by done. apply lookup_insert_eq.
  - intros q Hq. rewrite lookup_opt_insert. case_decide; [done|].
    rewrite lookup_insert_ne; [done|]. by intros ->.
  - intros q Hq. rewrite lookup_opt_insert. case_decide; [done|].
    rewrite lookup_insert_ne; [done|]. by intros ->.
Qed.

(** Pushing in front and appending are the two special cases in use. *)
Lemma linked_cons N P p l :
  NoDup l -> p ∉ l -> linked N P l ->
  linked (<[p := head l]> N) (opt_insert (head l) (Some p) (<[p := None]> P)) (p :: l).
Proof. apply (linked_insert N P [] p l). Qed.

Lemma linked_snoc N P p l :
  NoDup l -> p ∉ l -> linked N P l ->
  linked (opt_insert (last l) (Some p) (<[p := None]> N)) (<[p := last l]> P) (l ++ [p]).
Proof.
  intros Hnd Hp Hl. pose proof (linked_insert N P l p []) as H. simpl in H.
  rewrite app_nil_r in H. auto.
Qed.

Lemma linked_remove N P l1 p l2 :
  NoDup (l1 ++ p :: l2) -> linked N P (l1 ++ p :: l2) ->
  linked (opt_insert (last l1) (head l2) N)
         (opt_insert (head l2) (last l1) P) (l1 ++ l2).
Proof.
  intros Hnd Hl. eapply dll_remove; try done.
  - intros q Hq. by rewrite lookup_opt_insert.
  - intros q Hq. by rewrite lookup_opt_insert.
Qed.
End Linked.

(** ** Walking in one direction *)

(** Following [N] from the head of [l] visits [l] and then stops. *)
Fixpoint threaded (N : gmap addr (option addr)) (l : list addr) : Prop :=
  match l with
  | [] => True
  | p :: l => N !! p = Some (head l) /\ threaded N l
  end.

Lemma threaded_frame (N N' : gmap addr (option addr)) l :
  threaded N l -> (forall p, p ∈ l -> N' !! p = N !! p) -> threaded N' l.
Proof.
  induction l as [|p l IH]; simpl; [done|]. intros [Hp Hl] Hx. split.
  - rewrite Hx; [done|by left].
  - apply IH; [done|]. intros q Hq. apply Hx. by right.
Qed.

Lemma threaded_app_r N l1 l2 : threaded N (l1 ++ l2) -> threaded N l2.
Proof. induction l1 as [|p l1 IH]; simpl; [done|]. by intros [_ ?]; auto. Qed.

Lemma linked_threaded N P l : linked N P l -> threaded N l.
Proof.
  intros Hl. assert (H : forall l1 l2, l = l1 ++ l2 -> threaded N l2); [|by apply (H [] l)].
  intros l1 l2. revert l1. induction l2 as [|p l2 IH]; intros l1 E; simpl; [done|].
  subst l. split; [by apply linked_middle in Hl as [? _]|].
  apply (IH (l1 ++ [p])). by rewrite <- app_assoc.
Qed.

Lemma linked_threaded_rev N P l : linked N P l -> threaded P (reverse l).
Proof.
  intros Hl. assert (H : forall l1 l2, l = l1 ++ l2 -> threaded P (reverse l1)).
  2: { apply (H l []). by rewrite app_nil_r. }
  intros l1. induction l1 as [|p l1 IH] using rev_ind; intros l2 E; [done|].
  rewrite reverse_snoc. simpl. subst l. rewrite <- app_assoc in Hl. split.
  - apply linked_middle in Hl as [_ ->]. by rewrite head_reverse.
  - apply (IH ([p] ++ l2)). by rewrite <- app_assoc.
Qed.
