(* ===== verification/Qsort.v ===== *)
(** * Qsort: Zend/zend_qsort.c

    The engine's sort: quicksort on an array with an explicit stack of pending
    ranges.  The array is a list; a pointer [base + i * siz] is the index [i],
    which may leave the array as the C pointers do, but a read or a swap
    outside the array is [None], and so is a push on a full stack. *)
From S2P Require Import Prelude.

(** ** The code *)
Section Code.
Context {A : Type}.
Implicit Types (a : list A) (i j : Z).

Definition at_index a i : option A := if 0 <=? i then a !! Z.to_nat i else None.

(** [_zend_qsort_swap]: exchanges [siz] bytes, an [int] at a time and then a
    [char] at a time, that is, the two elements. *)
Definition _zend_qsort_swap i j a : option (list A) :=
  x ← at_index a i; y ← at_index a j;
  Some (<[Z.to_nat j := x]> (<[Z.to_nat i := y]> a)).

Context `{Platform} (siz : Z) (compare : A -> A -> Z).

(** [sizeof(size_t) * CHAR_BIT], [size_t] being as wide as a pointer *)
Definition QSORT_STACK_SIZE : Z := sizeof_voidp * 8.

(** [for (; seg1 < seg2 && compare(begin, seg1) > 0; seg1 += siz);] *)
Fixpoint scan_up (fuel : nat) (begin seg1 seg2 : Z) a : option Z :=
  if seg1 <? seg2 then
    x ← at_index a begin; y ← at_index a seg1;
    if 0 <? compare x y then
      match fuel with
      | O => None
      | S fuel => scan_up fuel begin (seg1 + 1) seg2 a
      end
    else Some seg1
  else Some seg1.

(** [for (; seg2 >= seg1 && compare(seg2, begin) > 0; seg2 -= siz);] *)
Fixpoint scan_down (fuel : nat) (begin seg1 seg2 : Z) a : option Z :=
  if seg1 <=? seg2 then
    x ← at_index a seg2; y ← at_index a begin;
    if 0 <? compare x y then
      match fuel with
      | O => None
      | S fuel => scan_down fuel begin seg1 (seg2 - 1) a
      end
    else Some seg2
  else Some seg2.

(** [while (1) { scan; scan; if (seg1 >= seg2) break; swap; ... }] *)
Fixpoint partition_loop (fuel : nat) (begin seg1 seg2 : Z) a : option (list A * Z) :=
  seg1 ← scan_up (length a) begin seg1 seg2 a;
  seg2 ← scan_down (length a) begin seg1 seg2 a;
  if seg2 <=? seg1 then Some (a, seg2)
  else
    a ← _zend_qsort_swap seg1 seg2 a;
    match fuel with
    | O => None
    | S fuel => partition_loop fuel begin (seg1 + 1) (seg2 - 1) a
    end.

(** [begin_stack[loop] = b; end_stack[loop++] = e;] on the stack [stk] of the
    entries below [loop], last pushed first. *)
Definition push (b e : Z) (stk : list (Z * Z)) : option (list (Z * Z)) :=
  if Z.of_nat (length stk) <? QSORT_STACK_SIZE then Some ((b, e) :: stk) else None.

(** [while (begin < end) { ... }] *)
Fixpoint range_loop (fuel : nat) (begin end_ : Z) (stk : list (Z * Z)) a :
    option (list A * list (Z * Z)) :=
  if begin <? end_ then
    match fuel with
    | O => None
    | S fuel =>
        let offset := to_uint (Z.shiftr ((end_ - begin) * siz) 1) in
        a ← _zend_qsort_swap begin (begin + (offset - offset mod siz) / siz) a;
        '(a, seg2) ← partition_loop (length a) begin (begin + 1) end_ a;
        a ← _zend_qsort_swap begin seg2 a;
        let seg2p := seg2 in
        if seg2p - begin <=? end_ - seg2p then
          stk ← (if seg2p + 1 <? end_ then push (seg2p + 1) end_ stk else Some stk);
          range_loop fuel begin (seg2p - 1) stk a
        else
          stk ← (if begin <? seg2p - 1 then push begin (seg2p - 1) stk else Some stk);
          range_loop fuel (seg2p + 1) end_ stk a
    end
  else Some (a, stk).

(** [for (loop = 0; loop >= 0; --loop)] *)
Fixpoint stack_loop (fuel : nat) (stk : list (Z * Z)) a : option (list A) :=
  match stk with
  | [] => Some a
  | (begin, end_) :: stk =>
      match fuel with
      | O => None
      | S fuel =>
          '(a, stk) ← range_loop (length a) begin end_ stk a;
          stack_loop fuel stk a
      end
  end.

Definition zend_qsort_r a : option (list A) :=
  stack_loop (S (length a)) [(0, Z.of_nat (length a) - 1)] a.
Definition zend_qsort a : option (list A) := zend_qsort_r a.
End Code.

Example zend_qsort_small :
  zend_qsort (H := LP64) 8 Z.sub [3; 1; 2; 9; 7; 3; 0; -4; 12; 5] = Some [-4; 0; 1; 2; 3; 3; 5; 7; 9; 12].
Proof. vm_compute. reflexivity. Qed.

(** ** Swapping and ranges *)
Section Ranges.
Context {A : Type}.
Implicit Types (a : list A) (i j b e : Z).

Lemma at_index_lt a i x : at_index a i = Some x -> 0 <= i < Z.of_nat (length a).
Proof.
  unfold at_index. case_goal; [|done]. reflect_bools. intros ?%lookup_lt_Some. lia.
Qed.

Lemma at_index_some a i : 0 <= i < Z.of_nat (length a) -> exists x, at_index a i = Some x.
Proof.
  intros Hi. unfold at_index. rewrite (proj2 (Z.leb_le 0 i)) by lia.
  apply lookup_lt_is_Some. lia.
Qed.

(** [a'] is [a] with the elements of [b..e] permuted. *)
Record within b e a a' : Prop := {
  wi_perm : a' ≡ₚ a;
  wi_out i : ~ (b <= i <= e) -> at_index a' i = at_index a i;
  wi_in i : b <= i <= e -> exists j, b <= j <= e /\ at_index a' i = at_index a j
}.

Lemma within_length b e a a' : within b e a a' -> length a' = length a.
Proof. intros Hw. apply Permutation_length, Hw. Qed.

Lemma within_refl b e a : within b e a a.
Proof. split; [done|done|eauto]. Qed.

Lemma within_trans b e a1 a2 a3 : within b e a1 a2 -> within b e a2 a3 -> within b e a1 a3.
Proof.
  intros [P1 O1 I1] [P2 O2 I2]. split.
  - by rewrite P2.
  - intros i Hi. by rewrite O2, O1.
  - intros i Hi. destruct (I2 i Hi) as (j & Hj & ->). by apply I1.
Qed.

Lemma within_mono b e b' e' a a' : b' <= b -> e <= e' -> within b e a a' -> within b' e' a a'.
Proof.
  intros Hb He [P O I]. split; [done|intros; apply O; lia|].
  intros i Hi. destruct (decide (b <= i <= e)) as [Hi'|Hi'].
  - destruct (I i Hi') as (j & ? & ?). exists j. split; [lia|done].
  - exists i. split; [done|]. by apply O.
Qed.

Lemma swap_spec a i j :
  0 <= i < Z.of_nat (length a) -> 0 <= j < Z.of_nat (length a) ->
  exists a', _zend_qsort_swap i j a = Some a'
    /\ (forall k, at_index a' k = at_index a (if decide (k = i) then j else if decide (k = j) then i else k))
    /\ a' ≡ₚ a.
Proof.
  intros Hi Hj. unfold _zend_qsort_swap.
  destruct (at_index_some a i Hi) as [x Hx]. destruct (at_index_some a j Hj) as [y Hy].
  rewrite Hx, Hy. simpl. eexists. split; [done|].
  unfold at_index in Hx, Hy. rewrite (proj2 (Z.leb_le 0 i)) in Hx by lia.
  rewrite (proj2 (Z.leb_le 0 j)) in Hy by lia. split.
  - intros k. unfold at_index. destruct (decide (k = i)) as [->|Hki].
    + rewrite !(proj2 (Z.leb_le 0 _)) by lia. destruct (decide (i = j)) as [->|Hij].
      * rewrite list_lookup_insert_eq by (rewrite length_insert; lia). congruence.
      * rewrite list_lookup_insert_ne by lia. rewrite list_lookup_insert_eq by lia. done.
    + destruct (decide (k = j)) as [->|Hkj].
      * rewrite !(proj2 (Z.leb_le 0 _)) by lia.
        rewrite list_lookup_insert_eq by (rewrite length_insert; lia). done.
      * case_goal; [|done]. reflect_bools. rewrite !list_lookup_insert_ne by lia. done.
  - by apply Permutation_insert_swap.
Qed.
End Ranges.

(** ** Partitioning *)
Section Partition.
Context {A : Type} `{Platform} (siz : Z) (compare : A -> A -> Z).
Implicit Types (a : list A) (i j b e : Z).

Lemma swap_within a i j b e :
  0 <= b -> e < Z.of_nat (length a) -> b <= i <= e -> b <= j <= e ->
  exists a', _zend_qsort_swap i j a = Some a' /\ within b e a a'
    /\ at_index a' i = at_index a j /\ at_index a' j = at_index a i
    /\ (forall k, k <> i -> k <> j -> at_index a' k = at_index a k).
Proof.
  intros Hb He Hi Hj. destruct (swap_spec a i j) as (a' & Hs & Hat & Hp); [lia..|].
  exists a'. split; [done|]. split; [split|].
  - done.
  - intros k Hk. rewrite Hat. rewrite !decide_False by lia. done.
  - intros k Hk. rewrite Hat. case_decide; [by exists j|]. case_decide; [by exists i|by exists k].
  - rewrite !Hat. rewrite decide_True by done. split; [done|]. split.
    + destruct (decide (j = i)) as [->|]; [done|]. by rewrite decide_True.
    + intros k Hki Hkj. rewrite Hat. by rewrite !decide_False.
Qed.

(** On which side of the pivot a scan or a swap has put an element. *)
Definition left_of (p x : A) : Prop := 0 < compare p x \/ compare x p <= 0.
Definition right_of (p x : A) : Prop := 0 < compare x p \/ compare p x <= 0.
Definition all_in a (b e : Z) (P : A -> Prop) : Prop :=
  forall i x, b <= i <= e -> at_index a i = Some x -> P x.

Lemma scan_up_spec a begin pivot (Hp : at_index a begin = Some pivot) :
  forall fuel seg1 seg2,
  0 <= seg1 -> seg2 < Z.of_nat (length a) -> seg2 - seg1 <= Z.of_nat fuel -> seg1 <= seg2 + 1 ->
  exists k, scan_up compare fuel begin seg1 seg2 a = Some k
    /\ seg1 <= k <= seg2 + 1 /\ (seg1 <= seg2 -> k <= seg2) /\ all_in a seg1 (k - 1) (left_of pivot)
    /\ (k < seg2 -> exists x, at_index a k = Some x /\ right_of pivot x).
Proof.
  induction fuel as [|fuel IH]; intros seg1 seg2 H0 H1 Hf H2; simpl; rewrite Hp; simpl.
  - destruct (Z.ltb_spec seg1 seg2); [lia|]. exists seg1.
    repeat split; try lia. intros i x Hi. lia.
  - destruct (Z.ltb_spec seg1 seg2).
    2:{ exists seg1. repeat split; try lia. intros i x Hi. lia. }
    destruct (at_index_some a seg1) as [y Hy]; [lia|]. rewrite Hy. simpl.
    destruct (Z.ltb_spec 0 (compare pivot y)) as [Hc|Hc].
    + destruct (IH (seg1 + 1) seg2) as (k & -> & Hk & Hk' & Hall & Hst); [lia..|].
      exists k. repeat split; try lia; [|done]. intros i x Hi Hx.
      destruct (decide (i = seg1)) as [->|]; [left; congruence|apply (Hall i x); [lia|done]].
    + exists seg1. repeat split; try lia.
      * intros i x Hi. lia.
      * intros _. exists y. split; [done|by right].
Qed.

Lemma scan_down_spec a begin pivot (Hp : at_index a begin = Some pivot) :
  forall fuel seg1 seg2,
  0 <= seg1 -> seg2 < Z.of_nat (length a) -> seg2 - seg1 < Z.of_nat fuel -> seg1 <= seg2 + 1 ->
  exists k, scan_down compare fuel begin seg1 seg2 a = Some k
    /\ seg1 - 1 <= k <= seg2 /\ all_in a (k + 1) seg2 (right_of pivot)
    /\ (seg1 <= k -> exists x, at_index a k = Some x /\ left_of pivot x).
Proof.
  induction fuel as [|fuel IH]; intros seg1 seg2 H0 H1 Hf H2; simpl; rewrite Hp.
  - destruct (Z.leb_spec seg1 seg2); [lia|]. exists seg2.
    repeat split; try lia. intros i x Hi. lia.
  - destruct (Z.leb_spec seg1 seg2).
    2:{ exists seg2. repeat split; try lia. intros i x Hi. lia. }
    destruct (at_index_some a seg2) as [y Hy]; [lia|]. rewrite Hy. simpl.
    destruct (Z.ltb_spec 0 (compare y pivot)) as [Hc|Hc].
    + destruct (IH seg1 (seg2 - 1)) as (k & -> & Hk & Hall & Hst); [lia..|].
      exists k. repeat split; try lia; [|done]. intros i x Hi Hx.
      destruct (decide (i = seg2)) as [->|]; [left; congruence|apply (Hall i x); [lia|done]].
    + exists seg2. repeat split; try lia.
      * intros i x Hi. lia.
      * intros _. exists y. split; [done|by right].
Qed.

Lemma partition_spec b e pivot : forall fuel seg1 seg2 a,
  0 <= b -> e < Z.of_nat (length a) -> at_index a b = Some pivot ->
  b < seg1 -> seg2 <= e -> seg1 <= seg2 + 1 -> seg2 - seg1 < Z.of_nat fuel ->
  all_in a (b + 1) (seg1 - 1) (left_of pivot) -> all_in a (seg2 + 1) e (right_of pivot) ->
  exists a' s2, partition_loop compare fuel b seg1 seg2 a = Some (a', s2)
    /\ within (b + 1) e a a' /\ b <= s2 <= e
    /\ all_in a' (b + 1) s2 (left_of pivot) /\ all_in a' (s2 + 1) e (right_of pivot).
Proof.
  induction fuel as [|fuel IH]; intros seg1 seg2 a Hb He Hp Hs1 Hs2 Hs Hf HL HR; simpl;
    (destruct (scan_up_spec a b pivot Hp (length a) seg1 seg2) as (k1 & -> & Hk1 & Hk1' & Ha1 & Hst1);
       [lia..|]; simpl;
     destruct (scan_down_spec a b pivot Hp (length a) k1 seg2) as (k2 & -> & Hk2 & Ha2 & Hst2);
       [lia..|]; simpl).
  all: assert (HL1 : all_in a (b + 1) (k1 - 1) (left_of pivot))
    by (intros i x Hi Hx; destruct (decide (i < seg1)); [apply (HL i x); [lia|done]|apply (Ha1 i x); [lia|done]]).
  all: assert (HR2 : all_in a (k2 + 1) e (right_of pivot))
    by (intros i x Hi Hx; destruct (decide (i <= seg2)); [apply (Ha2 i x); [lia|done]|apply (HR i x); [lia|done]]).
  all: destruct (Z.leb_spec k2 k1); [|try lia].
  1, 2: exists a, k2; split; [done|]; split; [apply within_refl|]; split; [lia|]; split; [|done].
  1, 2: intros i x Hi Hx; destruct (decide (i < k1)); [apply (HL1 i x); [lia|done]|].
  1, 2: destruct Hst2 as (y & Hy & Hl); [lia|]; assert (i = k2) by lia; congruence.
  destruct (swap_within a k1 k2 (b + 1) e) as (a1 & -> & Hw & E1 & E2 & Eo); [lia..|]. simpl.
  assert (k1 < seg2) as Hlt by lia. destruct (Hst1 Hlt) as (x1 & Hx1 & Hr1).
  destruct Hst2 as (x2 & Hx2 & Hl2); [lia|].
  destruct (IH (k1 + 1) (k2 - 1) a1) as (a' & s2 & -> & Hw' & Hs2' & HL' & HR'); try lia.
  - by rewrite (within_length _ _ _ _ Hw).
  - rewrite (wi_out _ _ _ _ Hw) by lia. done.
  - intros i x Hi Hx. destruct (decide (i = k1)) as [->|]; [congruence|].
    rewrite Eo in Hx by lia. apply (HL1 i x); [lia|done].
  - intros i x Hi Hx. destruct (decide (i = k2)) as [->|]; [congruence|].
    rewrite Eo in Hx by lia. apply (HR2 i x); [lia|done].
  - exists a', s2. split; [done|]. split; [by eapply within_trans|done].
Qed.
End Partition.

(** ** The pending ranges *)
Section Sorting.
Context {A : Type} `{Platform} (siz : Z) (compare : A -> A -> Z) (Hsiz : 0 < siz).
Implicit Types (a : list A) (i j b e : Z) (stk : list (Z * Z)).
Local Abbreviation left_of := (left_of compare).
Local Abbreviation right_of := (right_of compare).

Definition disj (r1 r2 : Z * Z) : Prop := r1.2 < r2.1 \/ r2.2 < r1.1.

(** The stack of an array of [n] elements: ranges inside it, disjoint, with at
    least two elements, and the range at depth [d] no longer than [n / 2^d]. *)
Fixpoint pending (n : Z) stk : Prop :=
  match stk with
  | [] => True
  | (b, e) :: stk =>
      0 <= b /\ b < e /\ e < n /\ (e - b + 1) * 2 ^ Z.of_nat (length stk) <= n
      /\ Forall (disj (b, e)) stk /\ pending n stk
  end.

(** The range being sorted, above the stack. *)
Record current (n b e : Z) stk : Prop := {
  cu_lo : 0 <= b;
  cu_hi : e < n;
  cu_len : b <= e + 1;
  cu_depth : (e - b + 1) * 2 ^ Z.of_nat (length stk) <= n;
  cu_disj : Forall (disj (b, e)) stk
}.

Definition weight stk : Z := foldr (fun r w => (r.2 - r.1 + 1) + w) 0 stk.

(** Elements that are not in a common pending range are in order. *)
Definition ordered (rs : list (Z * Z)) a : Prop :=
  forall i j x y, i < j -> at_index a i = Some x -> at_index a j = Some y ->
    (exists r, r ∈ rs /\ r.1 <= i /\ j <= r.2) \/ compare x y <= 0.

Lemma pivot_index b e :
  b < e -> let offset := to_uint (Z.shiftr ((e - b) * siz) 1) in
  b <= b + (offset - offset mod siz) / siz <= e.
Proof.
  intros Hbe offset.
  assert (0 <= offset <= (e - b) * siz) as Ho.
  { unfold offset, to_uint. rewrite Z.shiftr_div_pow2 by lia. change (2 ^ 1) with 2.
    set (q := (e - b) * siz). assert (0 < q) by (unfold q; nia).
    pose proof (Z.mod_le (q / 2) (2 ^ 32)). pose proof (Z.mod_pos_bound (q / 2) (2 ^ 32)).
    pose proof (Z.div_pos q 2). pose proof (Z.div_le_upper_bound q 2 q). lia. }
  assert ((offset - offset mod siz) / siz = offset / siz) as ->.
  { pose proof (Z.div_mod offset siz). replace (offset - offset mod siz) with (offset / siz * siz) by lia.
    apply Z.div_mul. lia. }
  pose proof (Z.div_pos offset siz). pose proof (Z.div_le_upper_bound offset siz (e - b)). lia.
Qed.

(** One round: choose a pivot, partition, put the pivot in its place. *)
Lemma round_spec a b e :
  0 <= b -> b < e -> e < Z.of_nat (length a) ->
  let offset := to_uint (Z.shiftr ((e - b) * siz) 1) in
  exists a1 a2 a3 s p,
    _zend_qsort_swap b (b + (offset - offset mod siz) / siz) a = Some a1
    /\ partition_loop compare (length a1) b (b + 1) e a1 = Some (a2, s)
    /\ _zend_qsort_swap b s a2 = Some a3
    /\ b <= s <= e /\ within b e a a3 /\ at_index a3 s = Some p
    /\ all_in a3 b (s - 1) (left_of p) /\ all_in a3 (s + 1) e (right_of p).
Proof.
  intros Hb Hbe He offset. pose proof (pivot_index b e Hbe) as Hpi. cbv zeta in Hpi. fold offset in Hpi.
  revert Hpi. generalize (b + (offset - offset mod siz) / siz). intros m Hpi.
  destruct (swap_within a b m b e) as (a1 & Hs1 & Hw1 & _); [lia..|].
  pose proof (within_length _ _ _ _ Hw1) as Hl1.
  destruct (at_index_some a1 b) as [p Hp]; [lia|].
  destruct (partition_spec compare b e p (length a1) (b + 1) e a1)
    as (a2 & s & Hrun & Hw2 & Hs & HL & HR); try lia; [done|intros i x Hi; lia|intros i x Hi; lia|].
  pose proof (within_length _ _ _ _ Hw2) as Hl2.
  destruct (swap_within a2 b s b e) as (a3 & Hs3 & Hw3 & E1 & E2 & Eo); [lia..|].
  exists a1, a2, a3, s, p. repeat (split; [done|]). split; [|split; [|split]].
  - eapply within_trans; [exact Hw1|]. eapply within_trans; [|exact Hw3].
    eapply within_mono; [| |exact Hw2]; lia.
  - rewrite E2, (wi_out _ _ _ _ Hw2) by lia. done.
  - intros i x Hi Hx. destruct (decide (i = b)) as [->|].
    + rewrite E1 in Hx. apply (HL s x); [lia|done].
    + rewrite Eo in Hx by lia. apply (HL i x); [lia|done].
  - intros i x Hi Hx. rewrite Eo in Hx by lia. apply (HR i x); [lia|done].
Qed.

Lemma ordered_round a a' b e s p rs :
  total_preorder compare -> ordered ((b, e) :: rs) a -> Forall (disj (b, e)) rs ->
  within b e a a' -> b <= s <= e -> at_index a' s = Some p ->
  all_in a' b (s - 1) (left_of p) -> all_in a' (s + 1) e (right_of p) ->
  ordered ((b, s - 1) :: (s + 1, e) :: rs) a'.
Proof.
  intros [Htot Htr] Ho Hd Hw Hs Hp HL HR i j x y Hij Hx Hy.
  rewrite Forall_forall in Hd.
  assert (HLp : forall k z, b <= k <= s -> at_index a' k = Some z -> compare z p <= 0).
  { intros k z Hk Hz. destruct (decide (k = s)) as [->|].
    - assert (z = p) as -> by congruence. destruct (Htot p p); done.
    - destruct (HL k z) as [Hc|Hc]; [lia|done| |done]. destruct (Htot z p); [done|lia]. }
  assert (HRp : forall k z, s <= k <= e -> at_index a' k = Some z -> compare p z <= 0).
  { intros k z Hk Hz. destruct (decide (k = s)) as [->|].
    - assert (z = p) as -> by congruence. destruct (Htot p p); done.
    - destruct (HR k z) as [Hc|Hc]; [lia|done| |done]. destruct (Htot z p); [lia|done]. }
  assert (Hold : forall i0 j0, i0 < j0 -> at_index a i0 = Some x -> at_index a j0 = Some y ->
    (~ (b <= i0 <= e) \/ ~ (b <= j0 <= e)) ->
    (exists r, r ∈ rs /\ r.1 <= i0 /\ j0 <= r.2 /\ ~ (b <= i0 <= e) /\ ~ (b <= j0 <= e))
    \/ compare x y <= 0).
  { intros i0 j0 Hij0 Hi0 Hj0 Hout. destruct (Ho i0 j0 x y Hij0 Hi0 Hj0) as [(r & Hr & H1 & H2)|]; [|by right].
    apply elem_of_cons in Hr as [->|Hr]; [simpl in *; lia|].
    left. exists r. repeat (split; [done|]). destruct (Hd r Hr) as [Hd'|Hd']; simpl in *; lia. }
  destruct (decide (b <= i <= e)) as [Hi|Hi], (decide (b <= j <= e)) as [Hj|Hj].
  - destruct (decide (j < s)); [left; exists (b, s - 1); split; [by left|simpl; lia]|].
    destruct (decide (s < i)); [left; exists (s + 1, e); split; [right; by left|simpl; lia]|].
    right. apply (Htr x p y); [apply (HLp i x)|apply (HRp j y)]; by (lia || done).
  - destruct (wi_in _ _ _ _ Hw i Hi) as (i0 & Hi0 & Ei). rewrite Ei in Hx.
    rewrite (wi_out _ _ _ _ Hw j Hj) in Hy.
    destruct (Hold i0 j) as [(r & Hr & _ & _ & Hn & _)|]; [lia|done|done|tauto|tauto|by right].
  - destruct (wi_in _ _ _ _ Hw j Hj) as (j0 & Hj0 & Ej). rewrite Ej in Hy.
    rewrite (wi_out _ _ _ _ Hw i Hi) in Hx.
    destruct (Hold i j0) as [(r & Hr & _ & _ & _ & Hn)|]; [lia|done|done|tauto|tauto|by right].
  - rewrite (wi_out _ _ _ _ Hw i Hi) in Hx. rewrite (wi_out _ _ _ _ Hw j Hj) in Hy.
    destruct (Hold i j) as [(r & Hr & H1 & H2 & _)|]; [done|done|done|tauto| |by right].
    left. exists r. split; [by do 2 right|done].
Qed.

Lemma ordered_drop b e rs a : e <= b -> ordered ((b, e) :: rs) a -> ordered rs a.
Proof.
  intros Hbe Ho i j x y Hij Hx Hy. destruct (Ho i j x y Hij Hx Hy) as [(r & Hr & H1 & H2)|]; [|by right].
  apply elem_of_cons in Hr as [->|Hr]; [simpl in *; lia|]. left. by exists r.
Qed.

Lemma ordered_swap r1 r2 rs a : ordered (r1 :: r2 :: rs) a -> ordered (r2 :: r1 :: rs) a.
Proof.
  intros Ho i j x y Hij Hx Hy. destruct (Ho i j x y Hij Hx Hy) as [(r & Hr & Hrs)|]; [|by right].
  left. exists r. split; [|done]. rewrite !elem_of_cons in *. tauto.
Qed.

Hypothesis Hword : 0 < sizeof_voidp.

(** Pushing the larger part leaves room on the stack. *)
Lemma push_ok n b e stk :
  n < 2 ^ QSORT_STACK_SIZE -> b < e -> (e - b + 1) * 2 ^ Z.of_nat (length stk) <= n ->
  push b e stk = Some ((b, e) :: stk).
Proof.
  intros Hn Hbe Hd. unfold push.
  destruct (Z.ltb_spec (Z.of_nat (length stk)) QSORT_STACK_SIZE) as [|Hge]; [done|].
  pose proof (Z.pow_le_mono_r 2 _ _ ltac:(lia) Hge).
  assert (0 < 2 ^ QSORT_STACK_SIZE) by (apply Z.pow_pos_nonneg; unfold QSORT_STACK_SIZE; lia). nia.
Qed.

Lemma disj_sub b e b' e' stk :
  b <= b' -> e' <= e -> Forall (disj (b, e)) stk -> Forall (disj (b', e')) stk.
Proof.
  intros Hb He Hd. eapply Forall_impl; [exact Hd|]. intros [x y]. unfold disj. simpl. lia.
Qed.

(** The two ways to go on after a round: the smaller part [(b1, e1)] now, the
    larger part [(b2, e2)] on the stack unless it is trivial. *)
Lemma split_ok n b e b1 e1 b2 e2 stk :
  n < 2 ^ QSORT_STACK_SIZE -> current n b e stk -> pending n stk ->
  b <= b1 -> e1 <= e -> b <= b2 -> e2 <= e -> b1 <= e1 + 1 ->
  2 * (e1 - b1 + 1) <= e - b + 1 -> disj (b1, e1) (b2, e2) -> (e1 - b1 + 1) + (e2 - b2 + 1) <= e - b ->
  exists stk', (if b2 <? e2 then push b2 e2 stk else Some stk) = Some stk'
    /\ current n b1 e1 stk' /\ pending n stk'
    /\ weight stk' <= weight stk + Z.max 0 (e2 - b2 + 1)
    /\ (stk' = (b2, e2) :: stk \/ (stk' = stk /\ e2 <= b2)).
Proof.
  intros Hn [H0 H1 H2 H3 H4] Hpd Hb1 He1 Hb2 He2 Hl Hhalf Hdj Hsum.
  assert (0 < 2 ^ Z.of_nat (length stk)) as Hpos by (apply Z.pow_pos_nonneg; lia).
  destruct (Z.ltb_spec b2 e2).
  - assert ((e2 - b2 + 1) * 2 ^ Z.of_nat (length stk) <= n) by nia.
    rewrite (push_ok n) by done. eexists. split; [done|]. split; [|split; [|split; [|by left]]].
    + split; try lia.
      * simpl length. rewrite Nat2Z.inj_succ, Z.pow_succ_r by lia. nia.
      * constructor; [done|]. by eapply disj_sub; [| |exact H4].
    + simpl. repeat (split; [lia|]). split; [|done]. by eapply disj_sub; [| |exact H4].
    + simpl. lia.
  - exists stk. split; [done|]. split; [|split; [done|split; [lia|by right]]].
    split; try lia; [nia|]. by eapply disj_sub; [| |exact H4].
Qed.

Lemma range_loop_spec : forall fuel b e stk a,
  Z.of_nat (length a) < 2 ^ QSORT_STACK_SIZE ->
  current (Z.of_nat (length a)) b e stk -> pending (Z.of_nat (length a)) stk ->
  e - b < Z.of_nat fuel ->
  exists a' stk', range_loop siz compare fuel b e stk a = Some (a', stk')
    /\ a' ≡ₚ a /\ pending (Z.of_nat (length a)) stk'
    /\ weight stk' <= weight stk + (if b <? e then e - b else 0)
    /\ (total_preorder compare -> ordered ((b, e) :: stk) a -> ordered stk' a').
Proof.
  induction fuel as [|fuel IH]; intros b e stk a Hn Hcu Hpd Hf; simpl;
    (destruct (Z.ltb_spec b e) as [Hbe|Hbe];
     [|exists a, stk; split; [done|]; split; [done|]; split; [done|]; split; [lia|];
       intros _; by apply ordered_drop]); [lia|].
  pose proof Hcu as [H0 H1 _ _ _].
  destruct (round_spec a b e) as (a1 & a2 & a3 & s & p & -> & Hrun & Hsw & Hs & Hw & Hp & HL & HR);
    [done..|]. simpl. rewrite Hrun. simpl. rewrite Hsw. simpl.
  pose proof (within_length _ _ _ _ Hw) as Hlen. pose proof (wi_perm _ _ _ _ Hw) as Hperm.
  assert (Ho : total_preorder compare -> ordered ((b, e) :: stk) a ->
    ordered ((b, s - 1) :: (s + 1, e) :: stk) a3).
  { intros Ht Hord. by eapply ordered_round; eauto using cu_disj. }
  destruct (Z.leb_spec (s - b) (e - s)).
  - destruct (split_ok (Z.of_nat (length a)) b e b (s - 1) (s + 1) e stk)
      as (stk' & -> & Hcu' & Hpd' & Hwt & Hst); try done; [lia..|left; simpl; lia|lia|]. simpl.
    rewrite <- Hlen in *.
    destruct (IH b (s - 1) stk' a3) as (a' & stk'' & -> & Hp' & Hpd'' & Hwt' & Hord); [done..|lia|].
    exists a', stk''. split; [done|]. split; [by rewrite Hp'|]. split; [done|]. split.
    + destruct (Z.ltb_spec b (s - 1)); lia.
    + intros Ht Hor. apply Hord; [done|]. specialize (Ho Ht Hor).
      destruct Hst as [->|[-> Htriv]]; [done|]. by apply ordered_swap, ordered_drop in Ho.
  - destruct (split_ok (Z.of_nat (length a)) b e (s + 1) e b (s - 1) stk)
      as (stk' & -> & Hcu' & Hpd' & Hwt & Hst); try done; [lia..|right; simpl; lia|lia|]. simpl.
    rewrite <- Hlen in *.
    destruct (IH (s + 1) e stk' a3) as (a' & stk'' & -> & Hp' & Hpd'' & Hwt' & Hord); [done..|lia|].
    exists a', stk''. split; [done|]. split; [by rewrite Hp'|]. split; [done|]. split.
    + destruct (Z.ltb_spec (s + 1) e); lia.
    + intros Ht Hor. apply Hord; [done|]. specialize (Ho Ht Hor).
      destruct Hst as [->|[-> Htriv]]; [by apply ordered_swap|]. by apply ordered_drop in Ho.
Qed.

Lemma pending_weight n stk : pending n stk -> 0 <= weight stk.
Proof.
  induction stk as [|[b e] stk IH]; simpl; [done|]. intros (? & ? & ? & ? & ? & Hp).
  specialize (IH Hp). lia.
Qed.

Lemma stack_loop_spec : forall fuel stk a,
  Z.of_nat (length a) < 2 ^ QSORT_STACK_SIZE -> pending (Z.of_nat (length a)) stk ->
  weight stk < Z.of_nat fuel ->
  exists a', stack_loop siz compare fuel stk a = Some a' /\ a' ≡ₚ a
    /\ (total_preorder compare -> ordered stk a -> ordered [] a').
Proof.
  induction fuel as [|fuel IH]; intros [|[b e] stk] a Hn Hpd Hw; simpl in *;
    try (exists a; done).
  { destruct Hpd as (? & ? & ? & ? & ? & Hp). apply pending_weight in Hp. lia. }
  destruct Hpd as (H0 & Hbe & H1 & Hd & Hdj & Hpd).
  destruct (range_loop_spec (length a) b e stk a) as (a1 & stk1 & -> & Hp1 & Hpd1 & Hw1 & Ho1);
    [done|by split; try lia|done|lia|]. simpl.
  pose proof (Permutation_length Hp1) as Hlen. rewrite <- Hlen in *.
  rewrite (proj2 (Z.ltb_lt b e)) in Hw1 by lia.
  destruct (IH stk1 a1) as (a' & -> & Hp' & Ho'); [done|done|lia|].
  exists a'. split; [done|]. split; [by rewrite Hp'|auto].
Qed.

Lemma ordered_sorted a : ordered [] a -> sorted_by compare a.
Proof.
  intros Ho. unfold sorted_by.
  assert (Hnat : forall (i j : nat) x y, (i < j)%nat -> a !! i = Some x -> a !! j = Some y -> compare x y <= 0).
  { intros i j x y Hij Hx Hy.
    destruct (Ho (Z.of_nat i) (Z.of_nat j) x y) as [(r & Hr%not_elem_of_nil & _)|]; [lia| | |done|done];
      unfold at_index; rewrite (proj2 (Z.leb_le _ _)) by lia; by rewrite Nat2Z.id. }
  clear Ho. induction a as [|x a IH]; constructor.
  - apply IH. intros i j y z Hij. apply (Hnat (S i) (S j)). lia.
  - apply Forall_forall. intros y [j Hj]%list_elem_of_lookup. apply (Hnat 0%nat (S j)); [lia|done|done].
Qed.

(** The sort returns for every comparison function and never leaves the array
    or its stack. *)
Lemma zend_qsort_spec a :
  Z.of_nat (length a) < 2 ^ QSORT_STACK_SIZE ->
  exists a', zend_qsort siz compare a = Some a' /\ a' ≡ₚ a
    /\ (total_preorder compare -> sorted_by compare a').
Proof.
  intros Hn. unfold zend_qsort, zend_qsort_r.
  destruct (decide (1 < Z.of_nat (length a))) as [Hl|Hl].
  - destruct (stack_loop_spec (S (length a)) [(0, Z.of_nat (length a) - 1)] a)
      as (a' & Hrun & Hp & Ho); [done|simpl; repeat (split; [lia|]); by split|simpl; lia|].
    exists a'. split; [done|]. split; [done|]. intros Ht. apply ordered_sorted, Ho; [done|].
    intros i j x y Hij Hx%at_index_lt Hy%at_index_lt. left. eexists. split; [by left|]. simpl. lia.
  - exists a. simpl. destruct a as [|x [|y a]]; simpl in *; [| |lia]; split; try done; split; try done;
      intros _; repeat constructor.
Qed.
End Sorting.

(** [zend_qsort] as a [sort_func_t]: it keeps the contract of the callers. *)
Definition zend_qsort_func {A} `{Platform} (siz : Z) (cmp : A -> A -> Z) (l : list A) : list A :=
  default l (zend_qsort siz cmp l).

#[export] Instance zend_qsort_sorts {A} (siz : Z) (Hs : TCEq (0 <? siz) true) :
  SortFunc (A := A) (zend_qsort_func (H := LP64) siz).
Proof.
  assert (0 < siz) as Hsiz by (apply Z.ltb_lt; by inversion Hs).
  split; intros cmp l Hl.
  - destruct (zend_qsort_spec (H := LP64) siz cmp Hsiz ltac:(done) l) as (a' & E & Hp & _);
      [unfold QSORT_STACK_SIZE; simpl; lia|]. unfold zend_qsort_func. by rewrite E.
  - destruct (zend_qsort_spec (H := LP64) siz cmp Hsiz ltac:(done) l) as (a' & E & _ & Ho);
      [unfold QSORT_STACK_SIZE; simpl; lia|]. unfold zend_qsort_func. rewrite E. exact Ho.
Qed.

(** ** The theorem *)

(** C19: [zend_qsort] sorts: whatever the comparison function answers (it may
    even contradict itself) the call returns, touches only elements of the
    array, keeps within its fixed stack of [QSORT_STACK_SIZE] pending ranges
    and permutes the elements; when the comparison is a total preorder the
    result is in order. *)
Theorem zend_qsort_correct {A : Type} `{Platform} (siz : Z) (compare : A -> A -> Z) (a : list A) :
  0 < siz -> 0 < sizeof_voidp -> Z.of_nat (length a) < 2 ^ QSORT_STACK_SIZE ->
  exists a', zend_qsort siz compare a = Some a' /\ a' ≡ₚ a
    /\ (total_preorder compare -> sorted_by compare a').
Proof. intros. by apply zend_qsort_spec. Qed.

Lemma zend_qsort_correct_witness :
  (exists a', zend_qsort (H := LP64) 8 Z.sub [3; 1; 2; 9; 7] = Some a' /\ a' ≡ₚ [3; 1; 2; 9; 7]
    /\ (total_preorder Z.sub -> sorted_by Z.sub a')) /\ total_preorder Z.sub.
Proof.
  split; [apply (zend_qsort_correct (H := LP64) 8 Z.sub [3; 1; 2; 9; 7]); done|].
  split; intros; lia.
Defined.
