(* ===== verification/LList.v ===== *)
(** * LList: Zend/zend_llist.c

    The engine's general-purpose doubly linked list.  Elements live at
    addresses of a heap and carry their own links; an access through a pointer
    that is not allocated, and running out of fuel, is [None]. *)
From S2P Require Import Prelude DList Qsort.

(** ** Data *)
Record zend_llist_element (V : Type) := MkElement {
  next : option addr;
  prev : option addr;
  data : V
}.
Arguments MkElement {V}. Arguments next {V}. Arguments prev {V}. Arguments data {V}.

Record zend_llist := MkLlist {
  ll_head : option addr;
  ll_tail : option addr;
  count : Z;
  ll_size : Z;
  dtor : bool;
  ll_persistent : bool;
  traverse_ptr : option addr
}.

(** The list, its elements and the data given to [dtor] so far. *)
Record lstate (V : Type) := MkLState {
  ll : zend_llist;
  elems : gmap addr (zend_llist_element V);
  ll_log : list V
}.
Arguments MkLState {V}. Arguments ll {V}. Arguments elems {V}. Arguments ll_log {V}.

(** [pemalloc] of an element: an unused address and arbitrary contents. *)
Class Alloc (E : Type) := {
  alloc : gmap addr E -> addr * E;
  alloc_fresh : forall m, m !! (alloc m).1 = None
}.

(** ** Operations *)
Section Ops.
Context `{Platform} {V : Type} `{Alloc (zend_llist_element V)}.
Implicit Types (s : lstate V) (e : zend_llist_element V).

Definition set_next (x : option addr) e := MkElement x (prev e) (data e).
Definition set_prev (x : option addr) e := MkElement (next e) x (data e).
Definition set_data (v : V) e := MkElement (next e) (prev e) v.

Definition set_head (x : option addr) (l : zend_llist) :=
  MkLlist x (ll_tail l) (count l) (ll_size l) (dtor l) (ll_persistent l) (traverse_ptr l).
Definition set_tail (x : option addr) (l : zend_llist) :=
  MkLlist (ll_head l) x (count l) (ll_size l) (dtor l) (ll_persistent l) (traverse_ptr l).
Definition set_count (x : Z) (l : zend_llist) :=
  MkLlist (ll_head l) (ll_tail l) x (ll_size l) (dtor l) (ll_persistent l) (traverse_ptr l).
Definition set_traverse (x : option addr) (l : zend_llist) :=
  MkLlist (ll_head l) (ll_tail l) (count l) (ll_size l) (dtor l) (ll_persistent l) x.

Definition on_ll (f : zend_llist -> zend_llist) s : lstate V := MkLState (f (ll s)) (elems s) (ll_log s).
Definition with_elems (m : gmap addr (zend_llist_element V)) s : lstate V := MkLState (ll s) m (ll_log s).
Definition lwrite (p : addr) (f : zend_llist_element V -> zend_llist_element V) s : option (lstate V) :=
  e ← elems s !! p; Some (with_elems (<[p := f e]> (elems s)) s).
Definition lfree (p : addr) s : option (lstate V) :=
  _ ← elems s !! p; Some (with_elems (delete p (elems s)) s).
Definition ldtor (v : V) s : lstate V :=
  if dtor (ll s) then MkLState (ll s) (elems s) (ll_log s ++ [v]) else s.

(** [size_t] arithmetic. *)
Definition to_size (z : Z) : Z := z mod 2 ^ (8 * sizeof_voidp).

(** [traverse_ptr] is not initialised: it keeps what the memory held. *)
Definition zend_llist_init (size : Z) (has_dtor pers : bool) (garbage : option addr) : lstate V :=
  MkLState (MkLlist None None 0 size has_dtor pers garbage) ∅ [].

Definition zend_llist_add_element (element : V) s : option (lstate V) :=
  let '(tmp, junk) := alloc (elems s) in
  let s := with_elems (<[tmp := set_next None (set_prev (ll_tail (ll s)) junk)]> (elems s)) s in
  s ← match ll_tail (ll s) with
      | Some t => lwrite t (set_next (Some tmp)) s
      | None => Some (on_ll (set_head (Some tmp)) s)
      end;
  let s := on_ll (set_tail (Some tmp)) s in
  s ← lwrite tmp (set_data element) s;
  Some (on_ll (fun l => set_count (to_size (count l + 1)) l) s).

Definition zend_llist_prepend_element (element : V) s : option (lstate V) :=
  let '(tmp, junk) := alloc (elems s) in
  let s := with_elems (<[tmp := set_prev None (set_next (ll_head (ll s)) junk)]> (elems s)) s in
  s ← match ll_head (ll s) with
      | Some h => lwrite h (set_prev (Some tmp)) s
      | None => Some (on_ll (set_tail (Some tmp)) s)
      end;
  let s := on_ll (set_head (Some tmp)) s in
  s ← lwrite tmp (set_data element) s;
  Some (on_ll (fun l => set_count (to_size (count l + 1)) l) s).

Definition DEL_LLIST_ELEMENT (current : addr) s : option (lstate V) :=
  e ← elems s !! current;
  s ← match prev e with
      | Some q => lwrite q (set_next (next e)) s
      | None => Some (on_ll (set_head (next e)) s)
      end;
  s ← match next e with
      | Some q => lwrite q (set_prev (prev e)) s
      | None => Some (on_ll (set_tail (prev e)) s)
      end;
  s ← lfree current (ldtor (data e) s);
  Some (on_ll (fun l => set_count (to_size (count l - 1)) l) s).

Fixpoint del_loop (fuel : nat) (compare : V -> bool) (current : option addr) s : option (lstate V) :=
  match current with
  | None => Some s
  | Some p =>
      match fuel with
      | O => None
      | S fuel =>
          e ← elems s !! p;
          if compare (data e) then DEL_LLIST_ELEMENT p s
          else del_loop fuel compare (next e) s
      end
  end.
Definition zend_llist_del_element {E} (element : E) (compare : V -> E -> Z) s : option (lstate V) :=
  del_loop (size (elems s)) (fun v => negb (compare v element =? 0)) (ll_head (ll s)) s.

Fixpoint destroy_loop (fuel : nat) (current : option addr) s : option (lstate V) :=
  match current with
  | None => Some s
  | Some p =>
      match fuel with
      | O => None
      | S fuel =>
          e ← elems s !! p;
          s ← lfree p (ldtor (data e) s);
          destroy_loop fuel (next e) s
      end
  end.
(** [head] and [tail] keep pointing to the freed elements. *)
Definition zend_llist_destroy s : option (lstate V) :=
  s ← destroy_loop (size (elems s)) (ll_head (ll s)) s; Some (on_ll (set_count 0) s).
Definition zend_llist_clean s : option (lstate V) :=
  s ← zend_llist_destroy s; Some (on_ll (fun l => set_head None (set_tail None l)) s).

(** The result points to the data of the removed element, which has been
    freed: the caller gets its address. *)
Definition zend_llist_remove_tail s : option (lstate V * option addr) :=
  match ll_tail (ll s) with
  | None => Some (s, None)
  | Some old_tail =>
      e ← elems s !! old_tail;
      s ← match prev e with
          | Some q => lwrite q (set_next None) s
          | None => Some (on_ll (set_head None) s)
          end;
      let s := on_ll (set_tail (prev e)) s in
      s ← lfree old_tail (ldtor (data e) s);
      Some (on_ll (fun l => set_count (to_size (count l - 1)) l) s, Some old_tail)
  end.

Fixpoint copy_loop (fuel : nat) (src : lstate V) (ptr : option addr) s : option (lstate V) :=
  match ptr with
  | None => Some s
  | Some p =>
      match fuel with
      | O => None
      | S fuel =>
          e ← elems src !! p;
          s ← zend_llist_add_element (data e) s;
          copy_loop fuel src (next e) s
      end
  end.
Definition zend_llist_copy (src : lstate V) (garbage : option addr) : option (lstate V) :=
  copy_loop (size (elems src)) src (ll_head (ll src))
    (zend_llist_init (ll_size (ll src)) (dtor (ll src)) (ll_persistent (ll src)) garbage).

(** Callbacks see the data, may write it, and have a state of their own. *)
Fixpoint apply_with_del_loop {U} (fuel : nat) (func : U -> V -> Z * V * U)
    (element : option addr) (u : U) s : option (lstate V * U) :=
  match element with
  | None => Some (s, u)
  | Some p =>
      match fuel with
      | O => None
      | S fuel =>
          e ← elems s !! p;
          let '(r, v, u) := func u (data e) in
          s ← lwrite p (set_data v) s;
          s ← (if r =? 0 then Some s else DEL_LLIST_ELEMENT p s);
          apply_with_del_loop fuel func (next e) u s
      end
  end.
Definition zend_llist_apply_with_del {U} (func : U -> V -> Z * V * U) (u : U) s :=
  apply_with_del_loop (size (elems s)) func (ll_head (ll s)) u s.

Fixpoint apply_loop {U} (fuel : nat) (func : U -> V -> V * U)
    (element : option addr) (u : U) s : option (lstate V * U) :=
  match element with
  | None => Some (s, u)
  | Some p =>
      match fuel with
      | O => None
      | S fuel =>
          e ← elems s !! p;
          let '(v, u) := func u (data e) in
          s ← lwrite p (set_data v) s;
          apply_loop fuel func (next e) u s
      end
  end.
Definition zend_llist_apply {U} (func : U -> V -> V * U) (u : U) s :=
  apply_loop (size (elems s)) func (ll_head (ll s)) u s.
Definition zend_llist_apply_with_argument {U A} (func : U -> V -> A -> V * U) (arg : A) (u : U) s :=
  apply_loop (size (elems s)) (fun u v => func u v arg) (ll_head (ll s)) u s.
Definition zend_llist_apply_with_arguments {U A} (func : U -> V -> Z -> list A -> V * U)
    (args : list A) (u : U) s :=
  apply_loop (size (elems s)) (fun u v => func u v (Z.of_nat (length args)) args)
    (ll_head (ll s)) u s.

(** [for (element=l->head; element; element=element->next) *ptr++ = element;] *)
Fixpoint collect (fuel : nat) (m : gmap addr (zend_llist_element V)) (element : option addr) :
    option (list (addr * V)) :=
  match element with
  | None => Some []
  | Some p =>
      match fuel with
      | O => None
      | S fuel => e ← m !! p; l ← collect fuel m (next e); Some ((p, data e) :: l)
      end
  end.

(** [elements[i]->prev = elements[i-1]; elements[i-1]->next = elements[i];] *)
Fixpoint relink_loop (last : addr) (rest : list addr) s : option (lstate V * addr) :=
  match rest with
  | [] => Some (s, last)
  | p :: rest =>
      s ← lwrite p (set_prev (Some last)) s;
      s ← lwrite last (set_next (Some p)) s;
      relink_loop p rest s
  end.

Definition zend_llist_sort (comp_func : V -> V -> Z) s : option (lstate V) :=
  if count (ll s) <=? 0 then Some s
  else
    elements ← collect (size (elems s)) (elems s) (ll_head (ll s));
    elements ← zend_qsort sizeof_voidp (fun x y => comp_func x.2 y.2) elements;
    match elements.*1 with
    | [] => None
    | first :: rest =>
        let s := on_ll (set_head (Some first)) s in
        s ← lwrite first (set_prev None) s;
        '(s, last) ← relink_loop first rest s;
        s ← lwrite last (set_next None) s;
        Some (on_ll (set_tail (Some last)) s)
    end.

Definition zend_llist_count s : Z := to_int (count (ll s)).

(** Traversal: [pos] is [None] for the list's own [traverse_ptr]; the data
    returned is given as the address of its element. *)
Definition store (pos : option (option addr)) (c : option addr) s : lstate V * option (option addr) :=
  match pos with Some _ => (s, Some c) | None => (on_ll (set_traverse c) s, None) end.
Definition current (pos : option (option addr)) s : option addr :=
  match pos with Some c => c | None => traverse_ptr (ll s) end.

Definition zend_llist_get_first_ex (pos : option (option addr)) s :
    lstate V * option (option addr) * option addr :=
  (store pos (ll_head (ll s)) s, ll_head (ll s)).
Definition zend_llist_get_last_ex (pos : option (option addr)) s :
    lstate V * option (option addr) * option addr :=
  (store pos (ll_tail (ll s)) s, ll_tail (ll s)).
Definition zend_llist_get_next_ex (pos : option (option addr)) s :
    option (lstate V * option (option addr) * option addr) :=
  match current pos s with
  | None => Some (s, pos, None)
  | Some p => e ← elems s !! p; Some (store pos (next e) s, next e)
  end.
Definition zend_llist_get_prev_ex (pos : option (option addr)) s :
    option (lstate V * option (option addr) * option addr) :=
  match current pos s with
  | None => Some (s, pos, None)
  | Some p => e ← elems s !! p; Some (store pos (prev e) s, prev e)
  end.
End Ops.
