(* ===== verification/LListRep.v ===== *)
(** * LListRep: the lists of Zend/zend_llist.c as sequences of values

    [llist_ok s l vs]: the elements at the addresses [l] form the list, in that
    order, and hold the data [vs]. *)
From S2P Require Import Prelude DList Qsort LList.

(** Equalities between maps built by insertions and deletions. *)
Ltac solve_map :=
  apply map_eq; intros ?k;
  repeat (first [rewrite lookup_opt_insert | rewrite lookup_fmap | rewrite lookup_delete
                | rewrite lookup_insert]; try done; repeat (case_decide; simplify_eq/=; try done));
  repeat match goal with H : _ !! _ = Some _ |- _ => rewrite H end; simpl; try done.

Section Rep.
Context `{Platform} {V : Type} `{!Alloc (zend_llist_element V)}.
Implicit Types (s t : lstate V) (l : list addr) (vs : list V) (p q : addr).

Record llist_ok s l vs : Prop := {
  lo_nodup : NoDup l;
  lo_dom p : is_Some (elems s !! p) <-> p ∈ l;
  lo_linked : linked (next <$> elems s) (prev <$> elems s) l;
  lo_data : Forall2 (fun p v => (data <$> elems s) !! p = Some v) l vs;
  lo_head : ll_head (ll s) = head l;
  lo_tail : ll_tail (ll s) = last l;
  lo_count : count (ll s) = Z.of_nat (length l)
}.

Lemma lo_length s l vs : llist_ok s l vs -> length l = length vs.
Proof. intros Hok. by eapply Forall2_length, lo_data. Qed.

Lemma lo_alloc s l vs p : llist_ok s l vs -> p ∈ l -> exists e, elems s !! p = Some e.
Proof. intros Hok Hp. by apply (lo_dom _ _ _ Hok) in Hp. Qed.

Lemma lo_fresh s l vs p : llist_ok s l vs -> elems s !! p = None -> p ∉ l.
Proof. intros Hok Hp Hin%(lo_dom _ _ _ Hok). rewrite Hp in Hin. by destruct Hin. Qed.

Lemma lo_fuel s l vs : llist_ok s l vs -> (length l <= size (elems s))%nat.
Proof.
  intros Hok. rewrite <- (size_list_to_set (C := gset addr) l (lo_nodup _ _ _ Hok)).
  rewrite <- (size_dom (D := gset addr)). apply subseteq_size. intros p Hp.
  apply elem_of_list_to_set in Hp. apply elem_of_dom. by apply (lo_dom _ _ _ Hok).
Qed.

Lemma to_size_small z : 0 <= z < 2 ^ (8 * sizeof_voidp) -> to_size z = z.
Proof. apply Z.mod_small. Qed.

(** The element at a split of the list. *)
Lemma lo_middle s l1 p l2 vs : llist_ok s (l1 ++ p :: l2) vs ->
  exists e vs1 vs2, elems s !! p = Some e /\ vs = vs1 ++ data e :: vs2 /\ length vs1 = length l1
    /\ next e = head l2 /\ prev e = last l1.
Proof.
  intros Hok. destruct (lo_alloc s _ _ p Hok) as [e He]; [apply elem_of_app; right; by left|].
  pose proof (lo_data _ _ _ Hok) as Hd. apply Forall2_app_inv_l in Hd as (vs1 & vs2 & H1 & H2 & ->).
  apply Forall2_cons_inv_l in H2 as (v & vs3 & Hv & _ & ->).
  rewrite lookup_fmap, He in Hv. injection Hv as <-.
  pose proof (linked_middle _ _ _ _ _ (lo_linked _ _ _ Hok)) as [HN HP].
  rewrite lookup_fmap, He in HN, HP. simpl in HN, HP. injection HN as HN. injection HP as HP.
  exists e, vs1, vs3. apply Forall2_length in H1. done.
Qed.

Lemma init_ok size has_dtor pers g :
  llist_ok (zend_llist_init (V := V) size has_dtor pers g) [] [].
Proof.
  split; simpl; try done; try apply linked_nil; [by constructor|].
  intros p. split; [by intros [? ?]|by intros ?%not_elem_of_nil].
Qed.

(** A new element at the end or in front. *)
Lemma inserted_ok s t l1 l2 vs1 vs2 p v :
  llist_ok s (l1 ++ l2) (vs1 ++ vs2) -> length vs1 = length l1 -> elems s !! p = None ->
  next <$> elems t = opt_insert (last l1) (Some p) (<[p := head l2]> (next <$> elems s)) ->
  prev <$> elems t = opt_insert (head l2) (Some p) (<[p := last l1]> (prev <$> elems s)) ->
  data <$> elems t = <[p := v]> (data <$> elems s) ->
  ll_head (ll t) = head (l1 ++ p :: l2) -> ll_tail (ll t) = last (l1 ++ p :: l2) ->
  count (ll t) = Z.of_nat (length (l1 ++ p :: l2)) ->
  llist_ok t (l1 ++ p :: l2) (vs1 ++ v :: vs2).
Proof.
  intros Hok Hl Hp HN HP HD Hh Ht Hc. pose proof (lo_fresh _ _ _ _ Hok Hp) as Hpl.
  pose proof (lo_nodup _ _ _ Hok) as Hnd. split; try done.
  - rewrite <- Permutation_middle. by constructor.
  - intros q. assert (is_Some (elems t !! q) <-> is_Some ((data <$> elems t) !! q)) as ->
      by (rewrite lookup_fmap, fmap_is_Some; done).
    rewrite HD, lookup_insert, <- Permutation_middle, elem_of_cons.
    case_decide as E; [split; [by left|by eauto]|].
    rewrite lookup_fmap, fmap_is_Some, (lo_dom _ _ _ Hok). split; [by right|intros [->|?]; done].
  - rewrite HN, HP. apply linked_insert; [done|done|apply Hok].
  - rewrite HD. pose proof (lo_data _ _ _ Hok) as Hd.
    apply Forall2_app_inv in Hd as [H1 H2]; [|by rewrite Hl].
    assert (Hfr : forall q w, q ∈ l1 ++ l2 -> (data <$> elems s) !! q = Some w ->
      <[p := v]> (data <$> elems s) !! q = Some w).
    { intros q w Hq Hw. rewrite lookup_insert_ne; [done|]. by intros ->. }
    apply Forall2_app; [|constructor; [apply lookup_insert_eq|]];
      (eapply Forall2_impl_in; [eassumption|]); intros q w Hq; apply Hfr, elem_of_app; auto.
Qed.

Lemma add_ok s l vs v : llist_ok s l vs -> Z.of_nat (S (length l)) < 2 ^ (8 * sizeof_voidp) ->
  exists t p, zend_llist_add_element v s = Some t /\ llist_ok t (l ++ [p]) (vs ++ [v])
    /\ ll_log t = ll_log s /\ dtor (ll t) = dtor (ll s).
Proof.
  intros Hok Hlt. unfold zend_llist_add_element.
  pose proof (alloc_fresh (elems s)) as Hp. destruct (alloc (elems s)) as [p junk]. simpl in *.
  rewrite (lo_tail _ _ _ Hok). destruct (last l) as [q|] eqn:El.
  - destruct (lo_alloc _ _ _ q Hok) as [e He]; [by apply last_Some_elem_of|].
    assert (p <> q) as Hne by congruence.
    unfold lwrite. simpl. rewrite lookup_insert_ne, He by done. simpl.
    rewrite lookup_insert_ne, lookup_insert_eq by done. simpl. eexists _, p. split; [done|].
    split; [|done].
    apply (inserted_ok s _ l [] vs [] p v); simpl; rewrite ?app_nil_r, ?El, ?last_snoc; try done;
      [by rewrite (lo_length _ _ _ Hok)|solve_map..| |].
    + rewrite (lo_head _ _ _ Hok). by destruct l.
    + rewrite (lo_count _ _ _ Hok), length_app, to_size_small; simpl; lia.
  - apply last_None in El as ->. unfold lwrite. simpl. rewrite lookup_insert_eq. simpl.
    eexists _, p. split; [done|]. split; [|done].
    apply (inserted_ok s _ [] [] vs [] p v); simpl; rewrite ?app_nil_r; try done;
      [by rewrite <- (lo_length _ _ _ Hok)|solve_map..|].
    rewrite (lo_count _ _ _ Hok). apply to_size_small. simpl in *. lia.
Qed.

Lemma prepend_ok s l vs v : llist_ok s l vs -> Z.of_nat (S (length l)) < 2 ^ (8 * sizeof_voidp) ->
  exists t p, zend_llist_prepend_element v s = Some t /\ llist_ok t (p :: l) (v :: vs)
    /\ ll_log t = ll_log s /\ dtor (ll t) = dtor (ll s).
Proof.
  intros Hok Hlt. unfold zend_llist_prepend_element.
  pose proof (alloc_fresh (elems s)) as Hp. destruct (alloc (elems s)) as [p junk]. simpl in *.
  pose proof (lo_count _ _ _ Hok) as Hc. rewrite (lo_head _ _ _ Hok). destruct l as [|q l]; simpl.
  - unfold lwrite. simpl. rewrite lookup_insert_eq. simpl.
    eexists _, p. split; [done|]. split; [|done].
    apply (inserted_ok s _ [] [] [] vs p v); simpl; try done; [solve_map..|].
    rewrite Hc. apply to_size_small. simpl in *. lia.
  - destruct (lo_alloc _ _ _ q Hok) as [e He]; [by left|].
    assert (p <> q) as Hne by congruence.
    unfold lwrite. simpl. rewrite lookup_insert_ne, He by done. simpl.
    rewrite lookup_insert_ne, lookup_insert_eq by done. simpl. eexists _, p. split; [done|].
    split; [|done].
    apply (inserted_ok s _ [] (q :: l) [] vs p v); simpl; try done; [solve_map..| |].
    + apply (lo_tail _ _ _ Hok).
    + rewrite Hc, to_size_small; simpl in *; lia.
Qed.

(** Taking out the element [p]. *)
Lemma removed_ok s t l1 p l2 vs1 v vs2 :
  llist_ok s (l1 ++ p :: l2) (vs1 ++ v :: vs2) -> length vs1 = length l1 ->
  next <$> elems t = delete p (opt_insert (last l1) (head l2) (next <$> elems s)) ->
  prev <$> elems t = delete p (opt_insert (head l2) (last l1) (prev <$> elems s)) ->
  data <$> elems t = delete p (data <$> elems s) ->
  ll_head (ll t) = head (l1 ++ l2) -> ll_tail (ll t) = last (l1 ++ l2) ->
  count (ll t) = Z.of_nat (length (l1 ++ l2)) ->
  llist_ok t (l1 ++ l2) (vs1 ++ vs2).
Proof.
  intros Hok Hl HN HP HD Hh Ht Hc. pose proof (lo_nodup _ _ _ Hok) as Hnd.
  assert ((p ∉ l1 ++ l2) /\ NoDup (l1 ++ l2)) as [Hp Hnd'].
  { rewrite <- Permutation_middle in Hnd. by apply NoDup_cons in Hnd. }
  assert (Hne : forall q, q ∈ l1 ++ l2 -> p <> q) by (intros q Hq ->; done).
  split; try done.
  - intros q. assert (is_Some (elems t !! q) <-> is_Some ((data <$> elems t) !! q)) as ->
      by (rewrite lookup_fmap, fmap_is_Some; done).
    rewrite HD, lookup_delete. case_decide as E.
    { subst. split; [by intros [? ?]|done]. }
    rewrite lookup_fmap, fmap_is_Some, (lo_dom _ _ _ Hok), <- Permutation_middle, elem_of_cons.
    split; [intros [->|?]; done|by right].
  - rewrite HN, HP. eapply linked_frame; [exact (linked_remove _ _ l1 p l2 Hnd (lo_linked _ _ _ Hok))|..];
      intros q Hq; by rewrite lookup_delete_ne by auto.
  - rewrite HD. pose proof (lo_data _ _ _ Hok) as Hd.
    apply Forall2_app_inv in Hd as [H1 H2]; [|by rewrite Hl].
    apply Forall2_cons in H2 as [_ H2].
    apply Forall2_app; (eapply Forall2_impl_in; [eassumption|]); intros q w Hq Hw;
      (rewrite lookup_delete_ne; [done|]); apply Hne, elem_of_app; auto.
Qed.

Lemma head_app_nil {X} (l1 l2 : list X) : last l1 = None -> head (l1 ++ l2) = head l2.
Proof. by intros ->%last_None. Qed.
Lemma last_app_nil {X} (l1 l2 : list X) : head l2 = None -> last (l1 ++ l2) = last l1.
Proof. destruct l2; [by rewrite app_nil_r|done]. Qed.
Lemma head_app_some {X} (l1 l2 l2' : list X) (q : X) : last l1 = Some q -> head (l1 ++ l2) = head (l1 ++ l2').
Proof. by destruct l1. Qed.
Lemma last_app_some {X} (l1 l1' l2 : list X) (q : X) : head l2 = Some q -> last (l1 ++ l2) = last (l1' ++ l2).
Proof. destruct l2; [done|]. intros _. rewrite !last_app, last_cons. by destruct (last l2). Qed.

Lemma del_ok s l1 p l2 vs : llist_ok s (l1 ++ p :: l2) vs ->
  Z.of_nat (length (l1 ++ p :: l2)) < 2 ^ (8 * sizeof_voidp) ->
  exists t e vs1 vs2, DEL_LLIST_ELEMENT p s = Some t /\ elems s !! p = Some e
    /\ vs = vs1 ++ data e :: vs2 /\ length vs1 = length l1
    /\ llist_ok t (l1 ++ l2) (vs1 ++ vs2) /\ dtor (ll t) = dtor (ll s)
    /\ ll_log t = ll_log s ++ (if dtor (ll s) then [data e] else []).
Proof.
  intros Hok Hb. destruct (lo_middle _ _ _ _ _ Hok) as (e & vs1 & vs2 & He & -> & Hl & Hn & Hp).
  pose proof (lo_nodup _ _ _ Hok) as Hnd. rewrite <- Permutation_middle in Hnd.
  apply NoDup_cons in Hnd as [Hpl Hnd].
  assert (Hlk : forall q, last l1 = Some q \/ head l2 = Some q -> p <> q /\ exists e', elems s !! q = Some e').
  { intros q Hq. assert (q ∈ l1 ++ l2) as Hin.
    { apply elem_of_app. destruct Hq; [left; by apply last_Some_elem_of|right; by apply head_Some_elem_of]. }
    split; [by intros ->|]. apply (lo_alloc _ _ _ q Hok).
    rewrite <- Permutation_middle. by right. }
  assert (Hdis : forall q, last l1 = Some q -> head l2 <> Some q).
  { intros q H1 H2. apply NoDup_app in Hnd as (_ & Hd & _).
    apply (Hd q); [by apply last_Some_elem_of|by apply head_Some_elem_of]. }
  unfold DEL_LLIST_ELEMENT. rewrite He. simpl. rewrite Hn, Hp.
  pose proof (lo_count _ _ _ Hok) as Hc. rewrite length_app in Hc, Hb. simpl in Hc, Hb.
  assert (Hc' : to_size (count (ll s) - 1) = Z.of_nat (length (l1 ++ l2))).
  { rewrite Hc, length_app, to_size_small; lia. }
  assert (Hhd : ll_head (ll s) = head (l1 ++ p :: l2)) by apply Hok.
  assert (Htl : ll_tail (ll s) = last (l1 ++ p :: l2)) by apply Hok.
  destruct (last l1) as [q|] eqn:E1, (head l2) as [r|] eqn:E2; unfold lwrite, lfree, ldtor; simpl;
    try (destruct (Hlk q) as (Hq & e1 & Heq); [by left|]; rewrite Heq; simpl);
    try (destruct (Hlk r) as (Hr & e2 & Her); [by right|]);
    try (assert (q <> r) as Hqr by (intros ->; by apply (Hdis r)));
    try rewrite (lookup_insert_ne _ q r) by done; try rewrite Her; simpl;
    destruct (dtor (ll s)) eqn:Ed; simpl;
    rewrite ?(lookup_insert_ne _ r p) by done; rewrite ?(lookup_insert_ne _ q p) by done;
    rewrite ?He; simpl; (eexists _, e, vs1, vs2; split; [done|]); (split; [done|]);
    (split; [done|]); (split; [done|]); (split; [|by rewrite ?app_nil_r]).
  all: eapply removed_ok; [done|done|rewrite ?E1, ?E2; solve_map..| | |exact Hc'].
  all: simpl; rewrite ?Hhd, ?Htl.
  all: try done.
  all: try by eapply head_app_some. all: try by rewrite (head_app_nil l1 l2 E1), E2.
  all: try by rewrite (last_app_nil l1 l2 E2), E1.
  all: rewrite !last_app, last_cons; by destruct l2; [|rewrite last_cons; destruct (last l2)].
Qed.
End Rep.

(** ** What the operations do to the sequence of values *)
Section Spec.
Context {V U : Type}.

(** Without the first value that passes the test. *)
Fixpoint remove_first (f : V -> bool) (vs : list V) : list V :=
  match vs with
  | [] => []
  | v :: vs => if f v then vs else v :: remove_first f vs
  end.

(** Values left, the callback's state, values destroyed. *)
Fixpoint apply_del (g : U -> V -> Z * V * U) (u : U) (vs : list V) : list V * U * list V :=
  match vs with
  | [] => ([], u, [])
  | v :: vs =>
      let '(r, v', u) := g u v in
      let '(kept, u, gone) := apply_del g u vs in
      if r =? 0 then (v' :: kept, u, gone) else (kept, u, v' :: gone)
  end.

Fixpoint apply_all (g : U -> V -> V * U) (u : U) (vs : list V) : list V * U :=
  match vs with
  | [] => ([], u)
  | v :: vs => let '(v', u) := g u v in let '(vs, u) := apply_all g u vs in (v' :: vs, u)
  end.
End Spec.

Section Loops.
Context `{Platform} {V : Type} `{!Alloc (zend_llist_element V)}.
Implicit Types (s t : lstate V) (l : list addr) (vs : list V) (p q : addr).

Definition gone_log s vs : list V := if dtor (ll s) then vs else [].

Lemma del_loop_ok (f : V -> bool) l2 : forall fuel l1 s vs1 vs2,
  llist_ok s (l1 ++ l2) (vs1 ++ vs2) -> length vs1 = length l1 -> (length l2 <= fuel)%nat ->
  Z.of_nat (length (l1 ++ l2)) < 2 ^ (8 * sizeof_voidp) ->
  exists t l', del_loop fuel f (head l2) s = Some t
    /\ llist_ok t l' (vs1 ++ remove_first f vs2)
    /\ ll_log t = ll_log s ++ gone_log s (if list_find (fun v => f v = true) vs2 is Some (_, v) then [v] else []).
Proof.
  induction l2 as [|p l2 IH]; intros fuel l1 s vs1 vs2 Hok Hl Hf Hb; simpl.
  - pose proof (lo_length _ _ _ Hok) as Hlen. rewrite !length_app in Hlen. simpl in Hlen.
    destruct vs2; simpl in Hlen; [|lia]. exists s, (l1 ++ []).
    unfold gone_log. destruct fuel; simpl; case_goal; auto using app_nil_r.
  - simpl in Hf. destruct fuel as [|fuel]; [lia|]. simpl.
    destruct (del_ok s l1 p l2 _ Hok Hb) as (t & e & vs1' & vs2' & Hrun & He & Evs & Hl' & Hok' & _ & Hlog).
    apply app_inj_1 in Evs as [-> ->]; [|congruence].
    destruct (lo_middle _ _ _ _ _ Hok) as (e' & ? & ? & He' & _ & _ & Hn & _).
    assert (e' = e) as -> by congruence. rewrite He. simpl.
    destruct (f (data e)) eqn:Ef.
    + exists t, (l1 ++ l2). by rewrite decide_True.
    + rewrite Hn. rewrite decide_False by done.
      destruct (IH fuel (l1 ++ [p]) s (vs1' ++ [data e]) vs2') as (t' & l' & -> & Hokt & Hlogt).
      * by rewrite <- !app_assoc.
      * rewrite !length_app. simpl. lia.
      * lia.
      * by rewrite <- app_assoc.
      * exists t', l'. split; [done|]. rewrite <- app_assoc in Hokt. split; [done|].
        rewrite Hlogt. by destruct (list_find _ vs2') as [[]|].
Qed.

Lemma destroy_loop_ok l : forall fuel s vs,
  threaded (next <$> elems s) l -> NoDup l -> (length l <= fuel)%nat ->
  Forall2 (fun p v => (data <$> elems s) !! p = Some v) l vs ->
  exists t, destroy_loop fuel (head l) s = Some t /\ ll t = ll s
    /\ (forall q, elems t !! q = if decide (q ∈ l) then None else elems s !! q)
    /\ ll_log t = ll_log s ++ gone_log s vs.
Proof.
  induction l as [|p l IH]; intros fuel s vs Hth Hnd Hf Hd; simpl in *.
  - inversion Hd; subst. exists s. unfold gone_log. destruct fuel; simpl; case_goal; auto using app_nil_r.
  - destruct fuel as [|fuel]; [lia|]. destruct Hth as [HN Hth].
    apply Forall2_cons_inv_l in Hd as (v & vs' & Hv & Hd & ->).
    apply NoDup_cons in Hnd as [Hp Hnd]. simpl.
    rewrite lookup_fmap in HN. rewrite lookup_fmap in Hv. destruct (elems s !! p) as [e|] eqn:He; [|done].
    simpl in *. injection HN as HN. injection Hv as <-.
    assert (Hex : lfree p (ldtor (data e) s)
      = Some (MkLState (ll s) (delete p (elems s)) (ll_log s ++ gone_log s [data e]))).
    { unfold lfree, ldtor, gone_log. destruct (dtor (ll s)); simpl; rewrite He; simpl;
        unfold with_elems; by rewrite ?app_nil_r. }
    rewrite Hex. simpl. rewrite HN.
    destruct (IH fuel (MkLState (ll s) (delete p (elems s)) (ll_log s ++ gone_log s [data e])) vs')
      as (t & Ht & Hll & Hel & Hlog); simpl; [| done | lia | |].
    + eapply threaded_frame; [exact Hth|]. intros q Hq. rewrite !lookup_fmap, lookup_delete_ne; [done|].
      by intros ->.
    + eapply Forall2_impl_in; [exact Hd|]. intros q w Hq Hw. simpl.
      rewrite lookup_fmap, lookup_delete_ne by (by intros ->). by rewrite <- lookup_fmap.
    + exists t. split; [done|]. split; [done|]. split.
      * intros q. rewrite Hel. simpl. rewrite lookup_delete. destruct (decide (p = q)) as [<-|Hpq]; [rewrite (decide_True (P := p ∈ p :: l)) by (by left); by case_decide|].
        destruct (decide (q ∈ l)) as [Hq|Hq]; [by rewrite decide_True by (by right)|].
        rewrite decide_False; [done|]. by intros [->|?]%elem_of_cons.
      * rewrite Hlog. unfold gone_log. simpl. destruct (dtor (ll s)); by rewrite <- ?app_assoc.
Qed.

Lemma copy_loop_ok src l2 : forall fuel s l vs vs2,
  threaded (next <$> elems src) l2 ->
  Forall2 (fun p v => (data <$> elems src) !! p = Some v) l2 vs2 ->
  (length l2 <= fuel)%nat -> llist_ok s l vs ->
  Z.of_nat (length l + length l2) < 2 ^ (8 * sizeof_voidp) ->
  exists t l', copy_loop fuel src (head l2) s = Some t /\ llist_ok t l' (vs ++ vs2)
    /\ ll_log t = ll_log s.
Proof.
  induction l2 as [|p l2 IH]; intros fuel s l vs vs2 Hth Hd Hf Hok Hb; simpl in *.
  - inversion Hd; subst. exists s, l. rewrite app_nil_r. by destruct fuel.
  - destruct fuel as [|fuel]; [lia|]. destruct Hth as [HN Hth].
    apply Forall2_cons_inv_l in Hd as (v & vs' & Hv & Hd & ->). simpl.
    rewrite lookup_fmap in HN. rewrite lookup_fmap in Hv. destruct (elems src !! p) as [e|] eqn:He; [|done].
    simpl in *. injection HN as HN. injection Hv as <-.
    destruct (add_ok s l vs (data e) Hok) as (t & q & -> & Hokt & Hlog & _); [lia|]. simpl.
    rewrite HN. destruct (IH fuel t (l ++ [q]) (vs ++ [data e]) vs') as (u & l' & -> & Hoku & Hlogu);
      [done|done|lia|done|rewrite length_app; simpl; lia|].
    exists u, l'. rewrite <- app_assoc in Hoku. split; [done|]. split; [done|congruence].
Qed.

(** Writing the data of one element. *)
Lemma set_data_ok s l1 p l2 vs1 v vs2 w :
  llist_ok s (l1 ++ p :: l2) (vs1 ++ v :: vs2) -> length vs1 = length l1 ->
  exists t e, lwrite p (set_data w) s = Some t /\ elems s !! p = Some e /\ data e = v
    /\ next e = head l2 /\ llist_ok t (l1 ++ p :: l2) (vs1 ++ w :: vs2)
    /\ ll t = ll s /\ ll_log t = ll_log s.
Proof.
  intros Hok Hl. destruct (lo_middle _ _ _ _ _ Hok) as (e & vs1' & vs2' & He & Evs & Hl' & Hn & _).
  apply app_inj_1 in Evs as [-> [= -> ->]]; [|congruence].
  unfold lwrite. rewrite He. simpl. eexists _, e. repeat (split; [done|]). split; [|done].
  assert (HN : next <$> <[p := set_data w e]> (elems s) = next <$> elems s) by solve_map.
  assert (HP : prev <$> <[p := set_data w e]> (elems s) = prev <$> elems s) by solve_map.
  assert (HD : data <$> <[p := set_data w e]> (elems s) = <[p := w]> (data <$> elems s)) by solve_map.
  pose proof (lo_nodup _ _ _ Hok) as Hnd.
  split; simpl; rewrite ?HN, ?HP, ?HD; try apply Hok.
  - intros q. rewrite lookup_insert. case_decide as E; [|apply Hok]. subst.
    split; [|by eauto]. intros _. apply elem_of_app. right. by left.
  - pose proof (lo_data _ _ _ Hok) as Hd. apply Forall2_app_inv in Hd as [H1 H2]; [|by rewrite Hl].
    apply Forall2_cons in H2 as [_ H2]. apply NoDup_app in Hnd as (_ & Hdis & Hnd2).
    apply NoDup_cons in Hnd2 as [Hp2 _].
    apply Forall2_app; [|constructor; [apply lookup_insert_eq|]];
      (eapply Forall2_impl_in; [eassumption|]); intros q x Hq Hx;
      (rewrite lookup_insert_ne; [done|]); intros ->.
    + apply (Hdis q); [done|by left].
    + done.
Qed.

Lemma apply_loop_ok {U} (g : U -> V -> V * U) l2 : forall fuel l1 s u vs1 vs2,
  llist_ok s (l1 ++ l2) (vs1 ++ vs2) -> length vs1 = length l1 -> (length l2 <= fuel)%nat ->
  exists t, apply_loop fuel g (head l2) u s = Some (t, (apply_all g u vs2).2)
    /\ llist_ok t (l1 ++ l2) (vs1 ++ (apply_all g u vs2).1) /\ ll_log t = ll_log s.
Proof.
  induction l2 as [|p l2 IH]; intros fuel l1 s u vs1 vs2 Hok Hl Hf; simpl.
  - pose proof (lo_length _ _ _ Hok) as Hlen. rewrite !length_app in Hlen. simpl in Hlen.
    destruct vs2; simpl in Hlen; [|lia]. exists s. by destruct fuel.
  - simpl in Hf. destruct fuel as [|fuel]; [lia|]. simpl.
    pose proof (lo_length _ _ _ Hok) as Hlen. rewrite !length_app in Hlen. simpl in Hlen.
    destruct vs2 as [|v vs2]; simpl in Hlen; [lia|]. simpl.
    destruct (g u v) as [w u1] eqn:Eg.
    destruct (set_data_ok s l1 p l2 vs1 v vs2 w Hok Hl) as (t & e & Hrun & He & Hv & Hn & Hokt & Hll & Hlog).
    rewrite He. simpl. rewrite Hv, Eg, Hrun, Hn. simpl.
    destruct (IH fuel (l1 ++ [p]) t u1 (vs1 ++ [w]) vs2) as (t' & -> & Hokt' & Hlog');
      [by rewrite <- !app_assoc|rewrite !length_app; simpl; lia|lia|].
    rewrite <- !app_assoc in Hokt'. destruct (apply_all g u1 vs2) as [vs3 u2]. simpl in *.
    exists t'. split; [done|]. split; [done|congruence].
Qed.

Lemma apply_with_del_loop_ok {U} (g : U -> V -> Z * V * U) l2 : forall fuel l1 s u vs1 vs2,
  llist_ok s (l1 ++ l2) (vs1 ++ vs2) -> length vs1 = length l1 -> (length l2 <= fuel)%nat ->
  Z.of_nat (length (l1 ++ l2)) < 2 ^ (8 * sizeof_voidp) ->
  exists t l', apply_with_del_loop fuel g (head l2) u s = Some (t, (apply_del g u vs2).1.2)
    /\ llist_ok t l' (vs1 ++ (apply_del g u vs2).1.1)
    /\ ll_log t = ll_log s ++ gone_log s (apply_del g u vs2).2 /\ dtor (ll t) = dtor (ll s).
Proof.
  induction l2 as [|p l2 IH]; intros fuel l1 s u vs1 vs2 Hok Hl Hf Hb; simpl.
  - pose proof (lo_length _ _ _ Hok) as Hlen. rewrite !length_app in Hlen. simpl in Hlen.
    destruct vs2; simpl in Hlen; [|lia]. exists s, (l1 ++ []).
    unfold gone_log. destruct fuel; simpl; case_goal; auto using app_nil_r.
  - simpl in Hf. destruct fuel as [|fuel]; [lia|]. simpl.
    pose proof (lo_length _ _ _ Hok) as Hlen. rewrite !length_app in Hlen. simpl in Hlen.
    destruct vs2 as [|v vs2]; simpl in Hlen; [lia|]. simpl.
    destruct (g u v) as [[r w] u1] eqn:Eg.
    destruct (set_data_ok s l1 p l2 vs1 v vs2 w Hok Hl) as (t & e & Hrun & He & Hv & Hn & Hokt & Hll & Hlog).
    rewrite He. simpl. rewrite Hv, Eg, Hrun, Hn. simpl.
    destruct (apply_del g u1 vs2) as [[kept u2] gone] eqn:Er.
    destruct (Z.eqb_spec r 0) as [Hr|Hr]; simpl.
    + destruct (IH fuel (l1 ++ [p]) t u1 (vs1 ++ [w]) vs2) as (t' & l' & -> & Hokt' & Hlog' & Hdt);
        [by rewrite <- !app_assoc|rewrite !length_app; simpl; lia|lia|by rewrite <- app_assoc|].
      rewrite Er in *. simpl in *. exists t', l'. rewrite <- app_assoc in Hokt'.
      unfold gone_log in *. rewrite Hll in *. split; [done|]. split; [done|]. split; [congruence|done].
    + destruct (del_ok t l1 p l2 _ Hokt Hb) as (t1 & e1 & vs1' & vs2' & -> & He1 & Evs & Hl' & Hok' & Hd1 & Hlog1).
      apply app_inj_1 in Evs as [<- [= Ew <-]]; [|congruence]. rewrite <- Ew in Hlog1. simpl.
      destruct (IH fuel l1 t1 u1 vs1 vs2) as (t' & l' & -> & Hokt' & Hlog' & Hdt);
        [done|done|lia|rewrite length_app in *; simpl in *; lia|].
      rewrite Er in *. simpl in *. exists t', l'. split; [done|]. split; [done|].
      unfold gone_log in *. rewrite Hd1, Hll in *. split; [|done].
      rewrite Hlog', Hlog1, Hlog. destruct (dtor (ll s)); by rewrite <- ?app_assoc.
Qed.
End Loops.
