(* ===== verification/LListThms.v ===== *)
(** * LListThms: what the operations of Zend/zend_llist.c do

    Sorting a list, and the theorems on the whole component. *)
From S2P Require Import Prelude DList Qsort LList LListRep.

(** ** Sorting *)
Section Sort.
Context `{Platform} {V : Type} `{!Alloc (zend_llist_element V)}.
Implicit Types (s t : lstate V) (l : list addr) (vs : list V) (p q : addr).

Lemma lwrite_some s p f e : elems s !! p = Some e ->
  lwrite p f s = Some (with_elems (<[p := f e]> (elems s)) s).
Proof. intros He. unfold lwrite. by rewrite He. Qed.

Lemma llist_collect_ok (m : gmap addr (zend_llist_element V)) l : forall fuel vs,
  threaded (next <$> m) l -> Forall2 (fun p v => (data <$> m) !! p = Some v) l vs ->
  (length l <= fuel)%nat -> collect fuel m (head l) = Some (zip l vs).
Proof.
  induction l as [|p l IH]; intros fuel vs Hth Hd Hf; simpl in *.
  - inversion Hd; subst. by destruct fuel.
  - destruct fuel as [|fuel]; [lia|]. destruct Hth as [HN Hth].
    apply Forall2_cons_inv_l in Hd as (v & vs' & Hv & Hd & ->). simpl.
    rewrite lookup_fmap in HN. rewrite lookup_fmap in Hv.
    destruct (m !! p) as [e|]; [|done]. simpl in *. injection HN as ->. injection Hv as <-.
    rewrite (IH fuel vs') by (done || lia). done.
Qed.

(** After the loop the elements are chained, but for the first backward and
    the last forward link. *)
Lemma relink_loop_ok rest : forall p s,
  NoDup (p :: rest) -> (forall q, q ∈ p :: rest -> is_Some (elems s !! q)) ->
  exists t, relink_loop p rest s = Some (t, default p (last rest)) /\ ll t = ll s /\ ll_log t = ll_log s
    /\ data <$> elems t = data <$> elems s
    /\ (forall i q r, (p :: rest) !! i = Some q -> (p :: rest) !! S i = Some r ->
          (next <$> elems t) !! q = Some (Some r) /\ (prev <$> elems t) !! r = Some (Some q))
    /\ (prev <$> elems t) !! p = (prev <$> elems s) !! p
    /\ (forall q, q ∉ p :: rest -> elems t !! q = elems s !! q).
Proof.
  induction rest as [|r rest IH]; intros p s Hnd Ha; simpl.
  - exists s. by repeat (split; [done|]).
  - apply NoDup_cons in Hnd as [Hp Hnd].
    destruct (Ha p) as [ep Hep]; [by left|]. destruct (Ha r) as [er Her]; [by right; left|].
    assert (p <> r) as Hpr by (intros ->; apply Hp; by left).
    unfold lwrite. rewrite Her. simpl. rewrite lookup_insert_ne, Hep by done. simpl.
    set (m := <[p := set_next (Some r) ep]> (<[r := set_prev (Some p) er]> (elems s))).
    destruct (IH r (MkLState (ll s) m (ll_log s)) Hnd) as (t & Ht & Hll & Hlog & HD & Hch & Hpv & Hout).
    { intros q Hq. simpl. unfold m. rewrite !lookup_insert. repeat case_decide; eauto. apply Ha. by right. }
    exists t. unfold with_elems. simpl. rewrite Ht. simpl in *. split; [by rewrite last_cons; destruct (last rest)|].
    split; [done|]. split; [done|]. split; [|split; [|split]].
    + rewrite HD. unfold m. solve_map.
    + intros [|i] q q' Hq Hq'; simpl in Hq, Hq'; [|by apply (Hch i)].
      simplify_eq. rewrite lookup_fmap, Hout, Hpv by (by intros ?).
      unfold m. rewrite lookup_insert_eq, lookup_fmap, lookup_insert_ne, lookup_insert_eq by done. done.
    + rewrite !lookup_fmap, Hout by done. unfold m. rewrite lookup_insert_eq, Hep. done.
    + intros q Hq. rewrite not_elem_of_cons in Hq. destruct Hq as [Hqp Hq]. rewrite Hout by done.
      rewrite not_elem_of_cons in Hq. destruct Hq as [Hqr _].
      unfold m. rewrite !lookup_insert_ne by done. done.
Qed.

Lemma sort_ok s l vs (cmp : V -> V -> Z) :
  llist_ok s l vs -> 0 < sizeof_voidp -> Z.of_nat (length l) < 2 ^ (8 * sizeof_voidp) ->
  exists t l' vs', zend_llist_sort cmp s = Some t /\ llist_ok t l' vs' /\ l' ≡ₚ l /\ vs' ≡ₚ vs
    /\ (total_preorder cmp -> sorted_by cmp vs') /\ ll_log t = ll_log s.
Proof.
  intros Hok Hsz Hb. unfold zend_llist_sort. rewrite (lo_count _ _ _ Hok).
  pose proof (lo_length _ _ _ Hok) as Hlen.
  destruct (Z.leb_spec (Z.of_nat (length l)) 0) as [Hz|Hz].
  { destruct vs; [|simpl in *; lia]. exists s, l, []. repeat (split; [done|]). split; [|done].
    intros _. constructor. }
  pose proof (linked_threaded _ _ _ (lo_linked _ _ _ Hok)) as Hth.
  rewrite (lo_head _ _ _ Hok).
  rewrite (llist_collect_ok _ _ _ _ Hth (lo_data _ _ _ Hok) (lo_fuel _ _ _ Hok)). simpl.
  assert (Hzl : length (zip l vs) = length l) by (rewrite length_zip_with; lia).
  destruct (zend_qsort_spec sizeof_voidp (fun x y : addr * V => cmp x.2 y.2) Hsz Hsz (zip l vs))
    as (es & -> & Hp & Hs); [unfold QSORT_STACK_SIZE; rewrite Hzl; by rewrite Z.mul_comm|]. simpl.
  assert (Hpl : es.*1 ≡ₚ l) by (rewrite Hp; by rewrite fst_zip by lia).
  assert (Hpv : es.*2 ≡ₚ vs) by (rewrite Hp; by rewrite snd_zip by lia).
  assert (Hes : forall x, x ∈ es -> (data <$> elems s) !! x.1 = Some x.2).
  { intros x Hx. rewrite Hp in Hx. apply elem_of_lookup_zip_with in Hx as (i & p & v & -> & H1 & H2).
    exact (Forall2_lookup_lr _ _ _ _ _ _ (lo_data _ _ _ Hok) H1 H2). }
  assert (Hnd : NoDup es.*1) by (rewrite Hpl; apply Hok).
  assert (Hal : forall q, q ∈ es.*1 -> is_Some (elems s !! q))
    by (intros q; rewrite Hpl; by rewrite (lo_dom _ _ _ Hok)).
  destruct es.*1 as [|first rest] eqn:Ees.
  { apply Permutation_length in Hpl. simpl in Hpl. lia. }
  destruct (Hal first) as [ef Hef]; [by left|]. rewrite (lwrite_some _ first _ ef) by done. simpl.
  set (m := <[first := set_prev None ef]> (elems s)).
  destruct (relink_loop_ok rest first (MkLState (set_head (Some first) (ll s)) m (ll_log s)) Hnd)
    as (t & Ht & Hll & Hlog & HD & Hch & Hpv1 & Hout).
  { intros q Hq. simpl. unfold m. rewrite lookup_insert. case_decide; eauto. }
  unfold with_elems, on_ll. simpl. rewrite Ht. simpl in *.
  set (lst := default first (last rest)) in *.
  assert (Hlst : last (first :: rest) = Some lst) by (unfold lst; rewrite last_cons; by destruct (last rest)).
  assert (Hdom : forall q, is_Some (elems t !! q) <-> q ∈ first :: rest).
  { intros q. assert (is_Some (elems t !! q) <-> is_Some ((data <$> elems t) !! q)) as ->
      by (rewrite lookup_fmap, fmap_is_Some; done).
    rewrite HD, lookup_fmap, fmap_is_Some. unfold m. rewrite lookup_insert.
    case_decide as E; [subst; split; [by left|by eauto]|]. rewrite (lo_dom _ _ _ Hok). by rewrite Hpl. }
  destruct (Hdom lst) as [_ [el Hel]]; [by apply last_Some_elem_of|].
  rewrite (lwrite_some _ lst _ el) by done. simpl.
  eexists _, (first :: rest), es.*2. split; [done|]. split; [|split; [done|split; [done|split; [|done]]]].
  - set (t' := with_elems (<[lst := set_next None el]> (elems t)) t).
    assert (HN : next <$> elems t' = <[lst := None]> (next <$> elems t))
      by (unfold t'; simpl; solve_map).
    assert (HP : prev <$> elems t' = prev <$> elems t) by (unfold t'; simpl; solve_map).
    assert (HD' : data <$> elems t' = data <$> elems s)
      by (transitivity (data <$> elems t); [unfold t'; simpl; solve_map|rewrite HD; unfold m; solve_map]).
    split; simpl; try done.
    + intros q. rewrite lookup_insert. case_decide as E; [|done].
      subst q. split; [intros _; by apply last_Some_elem_of|by eauto].
    + change (linked (next <$> elems t') (prev <$> elems t') (first :: rest)). rewrite HN, HP.
      intros i q Hi. split.
      * destruct ((first :: rest) !! S i) as [r|] eqn:Hr.
        -- rewrite lookup_insert_ne; [by apply (Hch i q r)|]. intros <-. rewrite last_lookup in Hlst.
           assert (i = pred (length (first :: rest))) by (eapply NoDup_lookup; eauto).
           apply lookup_lt_Some in Hr. simpl in *. lia.
        -- assert (q = lst) as ->.
           { rewrite last_lookup in Hlst. apply lookup_ge_None in Hr.
             apply lookup_lt_Some in Hi as Hlt.
             replace (pred (length (first :: rest))) with i in Hlst by (simpl in *; lia). congruence. }
           apply lookup_insert_eq.
      * destruct i as [|i]; simpl in *.
        -- simplify_eq. rewrite Hpv1. unfold m. by rewrite lookup_fmap, lookup_insert_eq.
        -- destruct (lookup_lt_is_Some_2 (first :: rest) i) as [r Hr].
           { apply lookup_lt_Some in Hi. simpl. lia. }
           destruct (Hch i r q Hr Hi) as [_ ->]. by rewrite Hr.
    + change (Forall2 (fun p v => (data <$> elems t') !! p = Some v) (first :: rest) es.*2).
      rewrite HD', <- Ees. clear -Hes. induction es as [|[p v] es IH]; simpl; constructor.
      * apply (Hes (p, v)). by left.
      * apply IH. intros x Hx. apply Hes. by right.
    + rewrite Hll. done.
    + rewrite Hll. simpl. rewrite (lo_count _ _ _ Hok). apply Permutation_length in Hpl. simpl in Hpl. lia.
  - intros Ht'. unfold sorted_by in *.
    assert (StronglySorted (fun x y : addr * V => cmp x.2 y.2 <= 0) es) as Hss.
    { apply Hs. destruct Ht' as [H1 H2]. split; eauto. }
    clear -Hss. induction Hss as [|x es Hss IH Hx]; simpl; constructor; [done|].
    by rewrite Forall_fmap.
Qed.
End Sort.

(** ** Traversal *)
Section Traverse.
Context `{Platform} {V : Type} `{!Alloc (zend_llist_element V)}.
Implicit Types (s t : lstate V) (l : list addr) (vs : list V).

(** [for (data = get_first(l, &pos); data; data = step(l, &pos))], collecting
    the data seen; [cur] is the element just returned. *)
Fixpoint visit (fuel : nat)
    (step : option (option addr) -> lstate V -> option (lstate V * option (option addr) * option addr))
    (r : lstate V * option (option addr) * option addr) : option (list V) :=
  match fuel with
  | O => None
  | S fuel =>
      let '(s, pos, cur) := r in
      match cur with
      | None => Some []
      | Some p => e ← elems s !! p; r ← step pos s; vs ← visit fuel step r; Some (data e :: vs)
      end
  end.

Lemma get_next_at s p e : elems s !! p = Some e ->
  zend_llist_get_next_ex (Some (Some p)) s = Some (s, Some (next e), next e).
Proof. intros He. unfold zend_llist_get_next_ex. simpl. by rewrite He. Qed.
Lemma get_prev_at s p e : elems s !! p = Some e ->
  zend_llist_get_prev_ex (Some (Some p)) s = Some (s, Some (prev e), prev e).
Proof. intros He. unfold zend_llist_get_prev_ex. simpl. by rewrite He. Qed.

Lemma visit_next s l1 l2 vs : forall fuel,
  llist_ok s (l1 ++ l2) vs -> (length l2 < fuel)%nat ->
  visit fuel zend_llist_get_next_ex (s, Some (head l2), head l2) = Some (drop (length l1) vs).
Proof.
  revert l1. induction l2 as [|p l2 IH]; intros l1 fuel Hok Hf; (destruct fuel as [|fuel]; [lia|]); simpl.
  - rewrite drop_ge; [done|]. rewrite <- (lo_length _ _ _ Hok), app_nil_r. lia.
  - destruct (lo_middle _ _ _ _ _ Hok) as (e & vs1 & vs2 & He & -> & Hl & Hn & _). rewrite He. simpl.
    rewrite (get_next_at _ _ _ He). simpl. rewrite Hn.
    specialize (IH (l1 ++ [p]) fuel). rewrite <- app_assoc in IH.
    rewrite IH by (done || simpl in *; lia). simpl. rewrite <- Hl, drop_app_length. do 2 f_equal.
    rewrite length_app, <- Hl. simpl. replace (vs1 ++ data e :: vs2) with ((vs1 ++ [data e]) ++ vs2)
      by (by rewrite <- app_assoc).
    replace (length vs1 + 1)%nat with (length (vs1 ++ [data e])) by (rewrite length_app; simpl; lia).
    by rewrite drop_app_length.
Qed.

Lemma visit_prev s l1 : forall l2 vs1 vs2 fuel,
  llist_ok s (l1 ++ l2) (vs1 ++ vs2) -> length vs1 = length l1 -> (length l1 < fuel)%nat ->
  visit fuel zend_llist_get_prev_ex (s, Some (last l1), last l1) = Some (reverse vs1).
Proof.
  induction l1 as [|p l1 IH] using rev_ind; intros l2 vs1 vs2 fuel Hok Hl Hf;
    (destruct fuel as [|fuel]; [lia|]); simpl.
  - by destruct vs1.
  - rewrite length_app in Hl, Hf. simpl in Hl, Hf. rewrite last_snoc. rewrite <- app_assoc in Hok.
    destruct (lo_middle _ _ _ _ _ Hok) as (e & vs3 & vs4 & He & Evs & Hl3 & _ & Hp). rewrite He. simpl.
    rewrite (get_prev_at _ _ _ He). simpl. rewrite Hp.
    destruct vs1 as [|v vs1 _] using rev_ind; [simpl in Hl; lia|].
    rewrite length_app in Hl. simpl in Hl. rewrite <- app_assoc in Evs.
    apply app_inj_1 in Evs as [<- [= -> <-]]; [|lia].
    rewrite (IH (p :: l2) vs1 (data e :: vs2) fuel); [simpl; by rewrite reverse_snoc|by rewrite <- app_assoc in Hok|lia|lia].
Qed.
End Traverse.

(** ** Theorems *)
Section Theorems.
Context `{Platform} {V : Type} `{!Alloc (zend_llist_element V)}.
Implicit Types (s t : lstate V) (l : list addr) (vs : list V).

(** [s] is a well-formed list of the values [vs], not longer than memory. *)
Definition llist_rep s vs : Prop :=
  exists l, llist_ok s l vs /\ Z.of_nat (S (length l)) < 2 ^ (8 * sizeof_voidp).

Lemma remove_tail_ok s l vs : llist_ok s l vs -> Z.of_nat (length l) < 2 ^ (8 * sizeof_voidp) ->
  match last l with
  | None => zend_llist_remove_tail s = Some (s, None)
  | Some p => exists t l0 vs0 v, zend_llist_remove_tail s = Some (t, Some p)
      /\ l = l0 ++ [p] /\ vs = vs0 ++ [v] /\ llist_ok t l0 vs0 /\ elems t !! p = None
      /\ ll_log t = ll_log s ++ gone_log s [v]
  end.
Proof.
  intros Hok Hb. unfold zend_llist_remove_tail. rewrite (lo_tail _ _ _ Hok).
  destruct l as [|p l0 _] using rev_ind; [done|]. rewrite last_snoc.
  destruct (lo_middle _ _ _ _ _ Hok) as (e & vs0 & vs2 & He & -> & Hl & Hn & Hp).
  pose proof (lo_length _ _ _ Hok) as Hlen. rewrite !length_app in Hlen. simpl in Hlen.
  destruct vs2; [|simpl in Hlen; lia]. rewrite He. simpl. rewrite Hp.
  pose proof (lo_nodup _ _ _ Hok) as Hnd. apply NoDup_app in Hnd as (Hnd & Hdis & _).
  assert (Hpl : p ∉ l0) by (intros Hin; apply (Hdis p); [done|by left]).
  pose proof (lo_count _ _ _ Hok) as Hc. rewrite length_app in Hc, Hb. simpl in Hc, Hb.
  assert (Hc' : to_size (count (ll s) - 1) = Z.of_nat (length (l0 ++ []))).
  { rewrite Hc, app_nil_r, to_size_small; lia. }
  assert (Hh : ll_head (ll s) = head (l0 ++ [p])) by apply Hok.
  destruct (last l0) as [q|] eqn:E1.
  - destruct (lo_alloc _ _ _ q Hok) as [e1 Heq]; [apply elem_of_app; left; by apply last_Some_elem_of|].
    assert (q <> p) as Hqp by (intros ->; by apply Hpl, last_Some_elem_of).
    rewrite (lwrite_some _ _ _ _ Heq). simpl. unfold lfree, ldtor, gone_log. simpl.
    destruct (dtor (ll s)); simpl; rewrite lookup_insert_ne, He by done; simpl;
      (eexists _, l0, vs0, _; split; [done|]; split; [done|]; split; [done|]; split;
       [|split; [simpl; apply lookup_delete_eq|by rewrite ?app_nil_r]]).
    all: rewrite <- (app_nil_r l0), <- (app_nil_r vs0); eapply (removed_ok s _ l0 p [] vs0 (data e) []);
      [done|done|rewrite ?E1; simpl; solve_map..| | |exact Hc'].
    all: simpl; rewrite ?app_nil_r, ?E1, ?Hh; try done; by destruct l0.
  - apply last_None in E1 as ->. simpl. unfold lfree, ldtor, gone_log. simpl.
    destruct (dtor (ll s)); simpl; rewrite He; simpl;
      (eexists _, [], vs0, _; split; [done|]; split; [done|]; split; [done|]; split;
       [|split; [simpl; apply lookup_delete_eq|by rewrite ?app_nil_r]]).
    all: destruct vs0; [|simpl in Hl; lia].
    all: eapply (removed_ok s _ [] p [] [] (data e) []); simpl; try done; solve_map.
Qed.
End Theorems.

(** ** A concrete allocator and list, for the witnesses *)
Definition junk_element : zend_llist_element Z := MkElement (Some 9%positive) (Some 8%positive) 99.
Definition test_lalloc (m : gmap addr (zend_llist_element Z)) : addr * zend_llist_element Z :=
  (fresh (dom m : gset addr), junk_element).
Lemma test_lalloc_fresh m : m !! (test_lalloc m).1 = None.
Proof. apply (not_elem_of_dom (D := gset addr)), is_fresh. Qed.
#[export] Instance test_lmalloc : Alloc (zend_llist_element Z) :=
  {| alloc := test_lalloc; alloc_fresh := test_lalloc_fresh |}.
#[export] Existing Instance LP64.

Definition list321 : lstate Z :=
  default (zend_llist_init 8 true false None)
    (s ← zend_llist_add_element 3 (zend_llist_init 8 true false None);
     s ← zend_llist_add_element 2 s; zend_llist_add_element 1 s).

Lemma list321_rep : llist_rep list321 [3; 2; 1].
Proof.
  destruct (add_ok (zend_llist_init 8 true false None) [] [] 3) as (s1 & p1 & E1 & H1 & _);
    [apply init_ok|done|].
  destruct (add_ok s1 [p1] [3] 2 H1) as (s2 & p2 & E2 & H2 & _); [done|].
  destruct (add_ok s2 [p1; p2] [3; 2] 1 H2) as (s3 & p3 & E3 & H3 & _); [done|].
  exists [p1; p2; p3]. split; [|done]. unfold list321. rewrite E1. simpl. rewrite E2. simpl.
  rewrite E3. exact H3.
Qed.

(** C21: adding at either end, deleting the first matching element, deleting
    through a callback and dropping the last element do to a [zend_llist] what
    they do to a sequence of values, with the destructor run on exactly the
    values that go, and the links, [head], [tail] and [count] consistent
    afterwards. *)
Theorem zend_llist_update_refines `{Platform} {V U E : Type} `{!Alloc (zend_llist_element V)}
    (s : lstate V) (vs : list V) (v : V) (x : E) (cmp : V -> E -> Z)
    (g : U -> V -> Z * V * U) (u : U) :
  llist_rep s vs ->
  let good t vs' gone := (exists l, llist_ok t l vs') /\ ll_log t = ll_log s ++ gone_log s gone in
  let hit w := negb (cmp w x =? 0) in
  (exists t, zend_llist_add_element v s = Some t /\ good t (vs ++ [v]) [])
  /\ (exists t, zend_llist_prepend_element v s = Some t /\ good t (v :: vs) [])
  /\ (exists t, zend_llist_del_element x cmp s = Some t
        /\ good t (remove_first hit vs)
             (if list_find (fun w => hit w = true) vs is Some (_, w) then [w] else []))
  /\ (exists t, zend_llist_apply_with_del g u s = Some (t, (apply_del g u vs).1.2)
        /\ good t (apply_del g u vs).1.1 (apply_del g u vs).2)
  /\ (exists t p, zend_llist_remove_tail s = Some (t, p)
        /\ good t (take (length vs - 1) vs) (if last vs is Some w then [w] else [])).
Proof.
  intros (l & Hok & Hb) good hit. pose proof (lo_fuel _ _ _ Hok) as Hf.
  assert (Hnil : ll_log s = ll_log s ++ gone_log s [])
    by (unfold gone_log; case_goal; by rewrite app_nil_r).
  split; [|split; [|split; [|split]]].
  - destruct (add_ok s l vs v Hok Hb) as (t & p & Hr & Hok' & Hlog & _).
    exists t. split; [done|]. split; [eauto|congruence].
  - destruct (prepend_ok s l vs v Hok Hb) as (t & p & Hr & Hok' & Hlog & _).
    exists t. split; [done|]. split; [eauto|congruence].
  - unfold zend_llist_del_element. rewrite (lo_head _ _ _ Hok). fold hit.
    destruct (del_loop_ok hit l (size (elems s)) [] s [] vs Hok) as (t & l' & -> & Hok' & Hlog);
      [done|done|change ([] ++ l) with l; lia|]. exists t. split; [done|]. split; [eauto|done].
  - unfold zend_llist_apply_with_del. rewrite (lo_head _ _ _ Hok).
    destruct (apply_with_del_loop_ok g l (size (elems s)) [] s u [] vs Hok)
      as (t & l' & -> & Hok' & Hlog & _); [done|done|simpl; lia|].
    exists t. split; [done|]. split; [eauto|done].
  - assert (Hb' : Z.of_nat (length l) < 2 ^ (8 * sizeof_voidp)) by lia.
    pose proof (remove_tail_ok s l vs Hok Hb') as Hr.
    destruct (last l) as [p|] eqn:El.
    + destruct Hr as (t & l0 & vs0 & w & Hrun & -> & -> & Hok' & _ & Hlog).
      exists t, (Some p). rewrite last_snoc, length_app. simpl.
      replace (length vs0 + 1 - 1)%nat with (length vs0) by lia. rewrite take_app_length.
      split; [done|]. split; [eauto|done].
    + apply last_None in El as ->. pose proof (lo_length _ _ _ Hok). destruct vs; [|done].
      exists s, None. split; [done|]. split; [eauto|done].
Qed.

Lemma zend_llist_update_refines_witness :
  exists t, zend_llist_add_element 7 list321 = Some t
    /\ (exists l, llist_ok t l [3; 2; 1; 7]) /\ ll_log t = ll_log list321 ++ gone_log list321 [].
Proof.
  exact (proj1 (zend_llist_update_refines list321 [3; 2; 1] 7 2 Z.sub
    (fun u v => (0, v, u)) tt list321_rep)).
Defined.

(** [zend_llist_copy] makes an equal list of new elements and runs no
    destructor; [zend_llist_clean] gives every value to the destructor once, in
    order, frees every element and leaves an empty list; [zend_llist_destroy]
    does the same but for the [head] and [tail] pointers. *)
Theorem zend_llist_copy_clean `{Platform} {V : Type} `{!Alloc (zend_llist_element V)}
    (s : lstate V) (vs : list V) (garbage : option addr) :
  llist_rep s vs ->
  (exists t, zend_llist_copy s garbage = Some t /\ llist_rep t vs /\ ll_log t = [])
  /\ (exists t, zend_llist_clean s = Some t /\ llist_rep t [] /\ elems t = ∅
        /\ ll_log t = ll_log s ++ gone_log s vs)
  /\ (exists t, zend_llist_destroy s = Some t /\ elems t = ∅
        /\ ll_log t = ll_log s ++ gone_log s vs /\ ll_head (ll t) = ll_head (ll s)).
Proof.
  intros (l & Hok & Hb). pose proof (lo_fuel _ _ _ Hok) as Hf.
  pose proof (linked_threaded _ _ _ (lo_linked _ _ _ Hok)) as Hth.
  destruct (destroy_loop_ok l (size (elems s)) s vs Hth (lo_nodup _ _ _ Hok) Hf (lo_data _ _ _ Hok))
    as (t & Hrun & Hll & Hel & Hlog).
  assert (Hemp : elems t = ∅).
  { apply map_eq. intros q. rewrite Hel, lookup_empty. case_decide as Hq; [done|].
    apply eq_None_not_Some. by rewrite (lo_dom _ _ _ Hok). }
  assert (Hdes : zend_llist_destroy s = Some (on_ll (set_count 0) t)).
  { unfold zend_llist_destroy. rewrite (lo_head _ _ _ Hok), Hrun. done. }
  split; [|split].
  - unfold zend_llist_copy. rewrite (lo_head _ _ _ Hok).
    destruct (copy_loop_ok s l (size (elems s)) (zend_llist_init (ll_size (ll s)) (dtor (ll s))
      (ll_persistent (ll s)) garbage) [] [] vs Hth (lo_data _ _ _ Hok) Hf (init_ok _ _ _ _))
      as (c & lc & -> & Hokc & Hlogc); [simpl; lia|].
    exists c. split; [done|]. split; [|done]. exists lc. split; [done|].
    pose proof (lo_length _ _ _ Hokc) as H1. pose proof (lo_length _ _ _ Hok) as H2. simpl in H1.
    rewrite H1, <- H2. done.
  - unfold zend_llist_clean. rewrite Hdes. simpl. eexists. split; [done|]. split; [|done].
    exists []. split; [|simpl length; lia]. split; simpl; rewrite ?Hemp; try done; try apply linked_nil; try apply NoDup_nil_2.
    intros p. split; [by intros [? ?]|by intros ?%not_elem_of_nil].
  - eexists. split; [exact Hdes|]. split; [done|]. split; [done|]. simpl. by rewrite Hll.
Qed.

Lemma zend_llist_copy_clean_witness :
  exists t, zend_llist_clean list321 = Some t /\ llist_rep t [] /\ elems t = ∅
        /\ ll_log t = ll_log list321 ++ gone_log list321 [3; 2; 1].
Proof. exact (proj1 (proj2 (zend_llist_copy_clean list321 [3; 2; 1] None list321_rep))). Defined.

(** [zend_llist_sort] (through [zend_qsort]) rearranges the elements into
    the order of the comparison without copying data or losing an element, and
    both traversals visit all of it: [get_first]/[get_next] forward,
    [get_last]/[get_prev] backward. *)
Theorem zend_llist_sort_traverse `{Platform} {V : Type} `{!Alloc (zend_llist_element V)}
    (s : lstate V) (vs : list V) (cmp : V -> V -> Z) (pos : option addr) :
  llist_rep s vs -> 0 < sizeof_voidp -> total_preorder cmp ->
  exists t vs', zend_llist_sort cmp s = Some t /\ vs' ≡ₚ vs /\ sorted_by cmp vs'
    /\ visit (S (length vs)) zend_llist_get_next_ex (zend_llist_get_first_ex (Some pos) t) = Some vs'
    /\ visit (S (length vs)) zend_llist_get_prev_ex (zend_llist_get_last_ex (Some pos) t)
       = Some (reverse vs')
    /\ ll_log t = ll_log s.
Proof.
  intros (l & Hok & Hb) Hsz Hcmp.
  assert (Hb' : Z.of_nat (length l) < 2 ^ (8 * sizeof_voidp)) by lia.
  destruct (sort_ok s l vs cmp Hok Hsz Hb') as (t & l' & vs' & Hrun & Hokt & Hpl & Hpv & Hs & Hlog).
  exists t, vs'. split; [done|]. split; [done|]. split; [by apply Hs|].
  pose proof (lo_length _ _ _ Hok) as H1. pose proof (Permutation_length Hpl) as H2.
  pose proof (lo_length _ _ _ Hokt) as H3.
  split; [|split; [|done]].
  - unfold zend_llist_get_first_ex. simpl store. rewrite (lo_head _ _ _ Hokt).
    rewrite (visit_next t [] l' vs') by (done || lia). done.
  - unfold zend_llist_get_last_ex. simpl store. rewrite (lo_tail _ _ _ Hokt).
    apply (visit_prev t l' [] vs' []); [by rewrite !app_nil_r|done|lia].
Qed.

Lemma zend_llist_sort_traverse_witness :
  exists t vs', zend_llist_sort Z.sub list321 = Some t /\ vs' ≡ₚ [3; 2; 1] /\ sorted_by Z.sub vs'
    /\ visit 4 zend_llist_get_next_ex (zend_llist_get_first_ex (Some None) t) = Some vs'
    /\ visit 4 zend_llist_get_prev_ex (zend_llist_get_last_ex (Some None) t) = Some (reverse vs')
    /\ ll_log t = ll_log list321.
Proof.
  refine (zend_llist_sort_traverse list321 [3; 2; 1] Z.sub None list321_rep _ _); [done|].
  split; intros; lia.
Defined.

(** [zend_llist_remove_tail] hands its caller a pointer to the data of the
    element it has just freed: on every non-empty list the result is not NULL
    and its element is no longer allocated. *)
Theorem zend_llist_remove_tail_dangles `{Platform} {V : Type} `{!Alloc (zend_llist_element V)}
    (s : lstate V) (vs : list V) :
  llist_rep s vs -> vs <> [] ->
  exists t p, zend_llist_remove_tail s = Some (t, Some p) /\ elems t !! p = None.
Proof.
  intros (l & Hok & Hb) Hne.
  assert (Hb' : Z.of_nat (length l) < 2 ^ (8 * sizeof_voidp)) by lia.
  pose proof (remove_tail_ok s l vs Hok Hb') as Hr.
  destruct (last l) as [p|] eqn:El.
  - destruct Hr as (t & l0 & vs0 & w & Hrun & _ & _ & _ & Hp & _). by exists t, p.
  - apply last_None in El as ->. pose proof (lo_length _ _ _ Hok). by destruct vs.
Qed.

Lemma zend_llist_remove_tail_dangles_witness :
  exists t p, zend_llist_remove_tail list321 = Some (t, Some p) /\ elems t !! p = None.
Proof. exact (zend_llist_remove_tail_dangles list321 [3; 2; 1] list321_rep ltac:(done)). Defined.
