(* ===== verification/ObjectsStore.v ===== *)
(** * ObjectsStore: Zend/zend_objects_API.c

    The table of PHP objects: an array of buckets indexed by the handle of the
    object, with a list of free handles threaded through the unused buckets.
    The array is reallocated when it is full, so the model keeps its address:
    a pointer to a bucket is the address of the array together with the handle,
    and following it after the array has moved is [None].  Destructors and
    [free_storage] functions are parameters: they run arbitrary code, which
    may use the store itself, and may end in a bailout. *)
From S2P Require Import Prelude.

Abbreviation fn_ptr := positive (only parsing).
Abbreviation obj_ptr := positive (only parsing).

(** The union in a bucket: [free_list.next] lies over [obj.object]. *)
Inductive store_word := WObject (object : option obj_ptr) | WNext (next : Z).

Record zend_object_store_bucket := MkBucket {
  destructor_called : bool;
  valid : bool;
  apply_count : Z;
  word : store_word;
  dtor : option fn_ptr;
  free_storage : option fn_ptr;
  clone : option fn_ptr;
  handlers : option positive;
  refcount : Z
}.

Record zend_objects_store := MkStore {
  object_buckets : option positive; (* the address of the array *)
  cells : list zend_object_store_bucket;
  top : Z;
  size : Z;
  free_list_head : Z
}.

(** Calls that leave the component. *)
Inductive event :=
| EvDtor (fn : fn_ptr) (object : option obj_ptr) (handle : nat)
| EvFree (fn : fn_ptr) (object : option obj_ptr)
| EvGcRemove (handle : nat).

Record ostate := MkOState { store : zend_objects_store; log : list event }.

(** Where [erealloc] puts the array, and what the new buckets contain. *)
Class Realloc := {
  erealloc : zend_objects_store -> positive;
  garbage : zend_object_store_bucket
}.

(** What the function pointers do: the state afterwards, and whether they
    ended in [zend_bailout]. *)
Class Callbacks := {
  run_dtor : fn_ptr -> option obj_ptr -> nat -> ostate -> option (ostate * bool);
  run_free : fn_ptr -> option obj_ptr -> ostate -> option (ostate * bool);
  run_clone : fn_ptr -> option obj_ptr -> ostate -> option (ostate * option obj_ptr)
}.

(** [zend_objects_destroy_object], the default destructor. *)
Definition zend_objects_destroy_object : fn_ptr := 1%positive.

Section Ops.
Context `{Realloc} `{Callbacks}.
Implicit Types (s : ostate) (b : zend_object_store_bucket) (handle : nat).

Definition on_store (f : zend_objects_store -> zend_objects_store) s : ostate :=
  MkOState (f (store s)) (log s).
Definition with_cells (c : list zend_object_store_bucket) (t : zend_objects_store) :=
  MkStore (object_buckets t) c (top t) (size t) (free_list_head t).
Definition emit (e : event) s : ostate := MkOState (store s) (log s ++ [e]).

(** [EG(objects_store).object_buckets[handle]]. *)
Definition bucket_at handle s : option zend_object_store_bucket :=
  _ ← object_buckets (store s); cells (store s) !! handle.
Definition set_bucket handle (f : zend_object_store_bucket -> zend_object_store_bucket) s :
    option ostate :=
  b ← bucket_at handle s;
  Some (on_store (fun t => with_cells (<[handle := f b]> (cells t)) t) s).

(** A pointer taken earlier: the address of the array then, and the handle. *)
Definition deref (base : positive) handle s : option zend_object_store_bucket :=
  if decide (object_buckets (store s) = Some base) then cells (store s) !! handle else None.
Definition write_ptr (base : positive) handle f s : option ostate :=
  _ ← deref base handle s; set_bucket handle f s.

Definition object_of b : option (option obj_ptr) :=
  match word b with WObject o => Some o | WNext _ => None end.

Definition set_destructor_called (x : bool) b :=
  MkBucket x (valid b) (apply_count b) (word b) (dtor b) (free_storage b) (clone b) (handlers b) (refcount b).
Definition set_valid (x : bool) b :=
  MkBucket (destructor_called b) x (apply_count b) (word b) (dtor b) (free_storage b) (clone b) (handlers b) (refcount b).
Definition set_word (x : store_word) b :=
  MkBucket (destructor_called b) (valid b) (apply_count b) x (dtor b) (free_storage b) (clone b) (handlers b) (refcount b).
Definition set_handlers (x : option positive) b :=
  MkBucket (destructor_called b) (valid b) (apply_count b) (word b) (dtor b) (free_storage b) (clone b) x (refcount b).
Definition set_refcount (x : Z) b :=
  MkBucket (destructor_called b) (valid b) (apply_count b) (word b) (dtor b) (free_storage b) (clone b) (handlers b) x.

(** [init_size] buckets, the first of them cleared. *)
Definition zend_objects_store_init (init_size : Z) (base : positive) : ostate :=
  MkOState
    (MkStore (Some base)
       (<[0%nat := MkBucket false false 0 (WObject None) None None None None 0]>
          (replicate (Z.to_nat init_size) garbage))
       1 init_size (-1)) [].

Definition zend_objects_store_destroy s : ostate :=
  on_store (fun t => MkStore None (cells t) (top t) (size t) (free_list_head t)) s.

(** [top == size]: the array doubles and may move. *)
Definition grow s : option ostate :=
  if top (store s) =? size (store s) then
    _ ← object_buckets (store s);
    let size' := to_uint (Z.shiftl (size (store s)) 1) in
    Some (on_store (fun t => MkStore (Some (erealloc t))
           (resize (Z.to_nat size') garbage (cells t)) (top t) size' (free_list_head t)) s)
  else Some s.

Definition take_handle s : option (ostate * nat) :=
  if negb (free_list_head (store s) =? -1) then
    let handle := Z.to_nat (free_list_head (store s)) in
    b ← bucket_at handle s;
    match word b with
    | WNext n => Some (on_store (fun t => MkStore (object_buckets t) (cells t) (top t) (size t) n) s, handle)
    | WObject _ => None
    end
  else
    s ← grow s;
    Some (on_store (fun t => MkStore (object_buckets t) (cells t) (to_uint (top t + 1)) (size t)
                               (free_list_head t)) s, Z.to_nat (top (store s))).

Definition zend_objects_store_put (object : option obj_ptr) (d f c : option fn_ptr) s :
    option (ostate * nat) :=
  '(s, handle) ← take_handle s;
  s ← set_bucket handle (fun _ =>
        MkBucket false true 0 (WObject object)
          (Some (if d is Some fn then fn else zend_objects_destroy_object)) f c None 1) s;
  Some (s, handle).

Definition zend_objects_store_get_refcount handle s : option Z :=
  b ← bucket_at handle s; Some (refcount b).
Definition zend_objects_store_add_ref_by_handle handle s : option ostate :=
  set_bucket handle (fun b => set_refcount (to_uint (refcount b + 1)) b) s.
Definition zend_objects_store_add_ref handle s : option ostate :=
  zend_objects_store_add_ref_by_handle handle s.

Definition ZEND_OBJECTS_STORE_ADD_TO_FREE_LIST handle s : option ostate :=
  s ← set_bucket handle (set_word (WNext (free_list_head (store s)))) s;
  let s := on_store (fun t => MkStore (object_buckets t) (cells t) (top t) (size t) (Z.of_nat handle)) s in
  set_bucket handle (set_valid false) s.

(** The destructor call of [del_ref]; [true] when it bailed out. *)
Definition call_dtor (base : positive) handle b (h : option positive) s : option (ostate * bool) :=
  if destructor_called b then Some (s, false)
  else
    s ← set_bucket handle (set_destructor_called true) s;
    match dtor b with
    | None => Some (s, false)
    | Some fn =>
        s ← match h, handlers b with
            | Some x, None => write_ptr base handle (set_handlers (Some x)) s
            | _, _ => Some s
            end;
        o ← object_of b;
        run_dtor fn o handle (emit (EvDtor fn o handle) s)
    end.

(** The end of the last reference; [true] when [free_storage] bailed out. *)
Definition free_object handle b s : option (ostate * bool) :=
  let s := emit (EvGcRemove handle) s in
  '(s, failure) ←
    match free_storage b with
    | None => Some (s, false)
    | Some fn => o ← object_of b; run_free fn o (emit (EvFree fn o) s)
    end;
  s ← ZEND_OBJECTS_STORE_ADD_TO_FREE_LIST handle s;
  Some (s, failure).

(** The result says whether the call ends in [zend_bailout]. *)
Definition zend_objects_store_del_ref_by_handle_ex handle (h : option positive) s :
    option (ostate * bool) :=
  match object_buckets (store s) with
  | None => Some (s, false)
  | Some base =>
      b ← deref base handle s;
      '(s, failure, base) ←
        (if valid b then
           if refcount b =? 1 then
             '(s, failed1) ← call_dtor base handle b h s;
             base ← object_buckets (store s); (* re-read *)
             b ← deref base handle s;
             if refcount b =? 1 then
               '(s, failed2) ← free_object handle b s;
               Some (s, failed1 || failed2, base)
             else Some (s, failed1, base)
           else Some (s, false, base)
         else Some (s, false, base));
      s ← write_ptr base handle (fun b => set_refcount (to_uint (refcount b - 1)) b) s;
      Some (s, failure)
  end.
Definition zend_objects_store_del_ref_by_handle handle s :=
  zend_objects_store_del_ref_by_handle_ex handle None s.

(** [zend_error(E_CORE_ERROR)] for an uncloneable object does not return:
    the second component is then [None]. *)
Definition zend_objects_store_clone_obj handle (ht : option positive) s :
    option (ostate * option nat) :=
  b ← bucket_at handle s;
  match clone b with
  | None => Some (s, None)
  | Some fn =>
      o ← object_of b;
      '(s, new_object) ← run_clone fn o s;
      b ← bucket_at handle s;
      '(s, h) ← zend_objects_store_put new_object (dtor b) (free_storage b) (clone b) s;
      s ← set_bucket handle (set_handlers ht) s;
      Some (s, Some h)
  end.

Definition zend_object_store_get_object_by_handle handle s : option (option obj_ptr) :=
  b ← bucket_at handle s; object_of b.
Definition zend_object_store_set_object handle (object : option obj_ptr) s : option ostate :=
  set_bucket handle (set_word (WObject object)) s.
Definition zend_object_store_ctor_failed handle (ht : option positive) s : option ostate :=
  s ← set_bucket handle (set_handlers ht) s; set_bucket handle (set_destructor_called true) s.

Fixpoint mark_loop (n : nat) (i : nat) s : option ostate :=
  match n with
  | O => Some s
  | S n =>
      b ← bucket_at i s;
      s ← (if valid b then set_bucket i (set_destructor_called true) s else Some s);
      mark_loop n (S i) s
  end.
Definition zend_objects_store_mark_destructed s : option ostate :=
  match object_buckets (store s) with
  | None => Some s
  | Some _ => mark_loop (Z.to_nat (top (store s)) - 1) 1 s
  end.

(** [for (i = 1; i < objects->top ; i++)], [top] being read again each time;
    the second component says whether a callback ended the loop by a bailout. *)
Fixpoint call_destructors_loop (fuel : nat) (i : nat) s : option (ostate * bool) :=
  if Z.of_nat i <? top (store s) then
    match fuel with
    | O => None
    | S fuel =>
        b ← bucket_at i s;
        '(s, bailed) ←
          (if valid b && negb (destructor_called b) then
             s ← set_bucket i (set_destructor_called true) s;
             o ← object_of b;
             match dtor b, o with
             | Some fn, Some _ =>
                 s ← set_bucket i (fun b => set_refcount (to_uint (refcount b + 1)) b) s;
                 '(s, bailed) ← run_dtor fn o i (emit (EvDtor fn o i) s);
                 if bailed : bool then Some (s, true)
                 else
                   s ← set_bucket i (fun b => set_refcount (to_uint (refcount b - 1)) b) s;
                   b ← bucket_at i s;
                   Some (if refcount b =? 0 then emit (EvGcRemove i) s else s, false)
             | _, _ => Some (s, false)
             end
           else Some (s, false));
        if bailed : bool then Some (s, true) else call_destructors_loop fuel (S i) s
    end
  else Some (s, false).
Definition zend_objects_store_call_destructors (fuel : nat) s : option (ostate * bool) :=
  call_destructors_loop fuel 1 s.

Fixpoint free_storage_loop (fuel : nat) (i : nat) s : option (ostate * bool) :=
  if Z.of_nat i <? top (store s) then
    match fuel with
    | O => None
    | S fuel =>
        b ← bucket_at i s;
        '(s, bailed) ←
          (if valid b then
             let s := emit (EvGcRemove i) s in
             s ← set_bucket i (set_valid false) s;
             match free_storage b with
             | Some fn => o ← object_of b; run_free fn o (emit (EvFree fn o) s)
             | None => Some (s, false)
             end
           else Some (s, false));
        if bailed : bool then Some (s, true) else free_storage_loop fuel (S i) s
    end
  else Some (s, false).
Definition zend_objects_store_free_object_storage (fuel : nat) s : option (ostate * bool) :=
  free_storage_loop fuel 1 s.
End Ops.

(** ** The invariant *)
Section Inv.
Implicit Types (s t : ostate) (h : nat).

(** Following [free_list.next] from [head] visits [fl] and ends at -1. *)
Fixpoint free_chain (c : list zend_object_store_bucket) (head : Z) (fl : list nat) : Prop :=
  match fl with
  | [] => head = -1
  | h :: fl => head = Z.of_nat h
      /\ exists b n, c !! h = Some b /\ word b = WNext n /\ free_chain c n fl
  end.

(** A handle in use: a valid bucket holding an object somebody refers to. *)
Definition live s h (o : option obj_ptr) (n : Z) : Prop :=
  1 <= Z.of_nat h < top (store s)
  /\ exists b, bucket_at h s = Some b /\ valid b = true /\ word b = WObject o /\ refcount b = n.

(** Every handle below [top] is either live or on the free list, once. *)
Record store_ok s (fl : list nat) : Prop := {
  so_base : is_Some (object_buckets (store s));
  so_len : Z.of_nat (length (cells (store s))) = size (store s);
  so_top : 1 <= top (store s) <= size (store s);
  so_size : size (store s) < 2 ^ 31;
  so_nodup : NoDup fl;
  so_chain : free_chain (cells (store s)) (free_list_head (store s)) fl;
  so_free h : h ∈ fl -> 1 <= Z.of_nat h < top (store s)
    /\ exists b, cells (store s) !! h = Some b /\ valid b = false;
  so_live h : 1 <= Z.of_nat h < top (store s) -> h ∉ fl ->
    exists o n, live s h o n /\ 1 <= n < 2 ^ 32
}.
Definition wf s : Prop := exists fl, store_ok s fl.
End Inv.
