(* ===== verification/ObjectsStoreThms.v ===== *)
(** * ObjectsStoreThms: handles are allocated, counted and freed correctly *)
From S2P Require Import Prelude ObjectsStore.

Section Lemmas.
Context `{Realloc}.
Implicit Types (s t : ostate) (h : nat) (b : zend_object_store_bucket) (fl : list nat).

Lemma free_chain_frame c c' head fl :
  free_chain c head fl -> (forall h, h ∈ fl -> c' !! h = c !! h) -> free_chain c' head fl.
Proof.
  revert head. induction fl as [|h fl IH]; intros head; simpl; [done|].
  intros [-> (b & n & Hb & Hw & Hc)] Hx. split; [done|]. exists b, n.
  rewrite Hx by (by left). repeat (split; [done|]). apply IH; [done|]. intros. apply Hx. by right.
Qed.

Lemma bucket_at_cells s h : is_Some (object_buckets (store s)) -> bucket_at h s = cells (store s) !! h.
Proof. intros [b E]. unfold bucket_at. by rewrite E. Qed.

Lemma ok_bucket s fl h : store_ok s fl -> bucket_at h s = cells (store s) !! h.
Proof. intros Hok. apply bucket_at_cells, Hok. Qed.

Lemma ok_cell s fl h : store_ok s fl -> Z.of_nat h < top (store s) -> is_Some (cells (store s) !! h).
Proof. intros Hok Hh. apply lookup_lt_is_Some. pose proof (so_len _ _ Hok). pose proof (so_top _ _ Hok). lia. Qed.

(** A live handle is not free, and a free one not live. *)
Lemma live_not_free s fl h o n : store_ok s fl -> live s h o n -> h ∉ fl.
Proof.
  intros Hok (_ & b & Hb & Hv & _) Hin. destruct (so_free _ _ Hok h Hin) as (_ & b' & Hb' & Hv').
  rewrite (ok_bucket s fl h Hok) in Hb. congruence.
Qed.

(** Changing one bucket. *)
Lemma set_bucket_spec s h f b :
  bucket_at h s = Some b ->
  exists t, set_bucket h f s = Some t
    /\ store t = with_cells (<[h := f b]> (cells (store s))) (store s) /\ log t = log s
    /\ bucket_at h t = Some (f b) /\ (forall h', h' <> h -> bucket_at h' t = bucket_at h' s).
Proof.
  intros Hb. unfold set_bucket. rewrite Hb. simpl. eexists. split; [done|]. split; [done|].
  split; [done|]. unfold bucket_at in *. simpl.
  destruct (object_buckets (store s)); [|done]. simpl in *. split.
  - apply list_lookup_insert_eq. by eapply lookup_lt_Some.
  - intros h' Hne. by rewrite list_lookup_insert_ne.
Qed.

(** A store whose bucket [h] was replaced, and that was fine elsewhere. *)
Lemma update_live_ok s t fl h b b' o n :
  store_ok s fl -> bucket_at h s = Some b -> live s h o n ->
  store t = with_cells (<[h := b']> (cells (store s))) (store s) ->
  valid b' = true -> word b' = word b -> 1 <= refcount b' < 2 ^ 32 ->
  store_ok t fl /\ live t h o (refcount b').
Proof.
  intros Hok Hb Hl Est Hv Hw Hr. pose proof (live_not_free _ _ _ _ _ Hok Hl) as Hnf.
  assert (Hlk : cells (store s) !! h = Some b) by (by rewrite <- (ok_bucket s fl)).
  assert (Hlt : (h < length (cells (store s)))%nat) by (by eapply lookup_lt_Some).
  assert (Hat : forall h', bucket_at h' t = if decide (h' = h) then Some b' else bucket_at h' s).
  { intros h'. unfold bucket_at. rewrite Est. simpl. destruct (so_base _ _ Hok) as [base ->]. simpl.
    case_decide as E; [subst; by rewrite list_lookup_insert_eq|by rewrite list_lookup_insert_ne]. }
  destruct Hl as (Hh & b0 & Hb0 & Hv0 & Hw0 & Hr0). assert (b0 = b) as -> by congruence.
  assert (Hlive : live t h o (refcount b')).
  { split; [by rewrite Est|]. exists b'. rewrite Hat, decide_True by done. repeat split; congruence. }
  split; [|done]. split; rewrite ?Est; simpl; try apply Hok.
  - rewrite length_insert. apply Hok.
  - eapply free_chain_frame; [apply Hok|]. intros h' Hin. rewrite list_lookup_insert_ne; [done|].
    by intros ->.
  - intros h' Hin. rewrite list_lookup_insert_ne by (by intros ->). by apply (so_free _ _ Hok).
  - intros h' Hh' Hn. destruct (decide (h' = h)) as [->|Hne]; [by exists o, (refcount b')|].
    destruct (so_live _ _ Hok h' Hh' Hn) as (o' & n' & (Hx & b1 & Hb1 & Hr1) & Hn').
    exists o', n'. split; [|done]. split; [by rewrite Est|]. exists b1. by rewrite Hat, decide_False.
Qed.

(** The side conditions of a new handle. *)
Local Ltac side :=
  first [done | lia | apply not_elem_of_nil | apply NoDup_nil_2 | right; lia | by eexists | intros; lia].

(** Taking a handle: from the free list, or the next new one. *)
Lemma take_handle_ok s fl :
  store_ok s fl -> 2 * size (store s) < 2 ^ 31 ->
  exists t h fl' , take_handle s = Some (t, h) /\ log t = log s
    /\ 1 <= Z.of_nat h < top (store t) /\ ~ h ∈ fl'
    /\ (h ∈ fl \/ Z.of_nat h = top (store s))
    /\ is_Some (object_buckets (store t)) /\ Z.of_nat (length (cells (store t))) = size (store t)
    /\ top (store t) <= size (store t) /\ size (store t) < 2 ^ 31 /\ top (store s) <= top (store t)
    /\ NoDup fl' /\ free_chain (cells (store t)) (free_list_head (store t)) fl'
    /\ (forall i, i ∈ fl' <-> i ∈ fl /\ i <> h)
    /\ (forall i, Z.of_nat i < top (store t) -> i <> h -> Z.of_nat i < top (store s))
    /\ (forall i, Z.of_nat i < top (store s) -> cells (store t) !! i = cells (store s) !! i).
Proof.
  intros Hok Hsz. unfold take_handle. pose proof (so_top _ _ Hok) as Ht. pose proof (so_len _ _ Hok) as Hl.
  pose proof (so_chain _ _ Hok) as Hc. destruct fl as [|h fl]; simpl in Hc.
  - rewrite Hc. simpl. unfold grow. destruct (so_base _ _ Hok) as [base Eb].
    assert (Hfree : forall i : nat, i ∈ [] <-> i ∈ [] /\ i <> Z.to_nat (top (store s)))
      by (intros i; rewrite !elem_of_nil; tauto).
    destruct (Z.eqb_spec (top (store s)) (size (store s))) as [E|E].
    + rewrite Eb. simpl. rewrite Z.shiftl_mul_pow2 by lia. change (2 ^ 1) with 2.
      rewrite (to_uint_small (size (store s) * 2)) by lia.
      eexists _, (Z.to_nat (top (store s))), []. split; [done|]. simpl.
      rewrite to_uint_small by lia. rewrite length_resize.
      repeat (split; [side|]). intros i Hi. by rewrite lookup_resize by lia.
    + eexists _, (Z.to_nat (top (store s))), []. split; [done|]. simpl.
      rewrite to_uint_small by lia. repeat (split; [side|]). done.
  - destruct Hc as [Eh (b & n & Hb & Hw & Hc)]. rewrite Eh.
    destruct (Z.eqb_spec (Z.of_nat h) (-1)) as [E|_]; [lia|]. simpl. rewrite Nat2Z.id.
    rewrite (ok_bucket s _ h Hok), Hb. simpl. rewrite Hw.
    destruct (so_free _ _ Hok h) as [Hh _]; [by left|].
    pose proof (so_nodup _ _ Hok) as [Hn Hnd]%NoDup_cons.
    eexists _, h, fl. split; [done|]. simpl. split; [done|]. split; [done|]. split; [done|].
    split; [left; by left|]. split; [apply Hok|]. split; [done|]. split; [lia|].
    split; [apply Hok|]. split; [lia|]. split; [done|]. split; [done|].
    split; [|split; [done|done]]. intros i. rewrite elem_of_cons. split; [|tauto].
    intros Hi. split; [by right|]. by intros ->.
Qed.
End Lemmas.

Section Put.
Context `{Realloc}.
Implicit Types (s t : ostate) (h : nat) (b : zend_object_store_bucket) (fl : list nat).

Lemma put_ok s fl object d f c :
  store_ok s fl -> 2 * size (store s) < 2 ^ 31 ->
  exists t h fl', zend_objects_store_put object d f c s = Some (t, h) /\ store_ok t fl'
    /\ (forall o n, ~ live s h o n) /\ live t h object 1
    /\ (forall h' o n, h' <> h -> live t h' o n <-> live s h' o n) /\ log t = log s.
Proof.
  intros Hok Hsz.
  destruct (take_handle_ok s fl Hok Hsz) as (u & h & fl' & Htk & Hlog & Hh & Hnf & Hor & Hb & Hlen
    & Htop & Hsize & Hgrow & Hnd & Hch & Hfl & Hlt & Hsame).
  unfold zend_objects_store_put. rewrite Htk. simpl.
  assert (is_Some (cells (store u) !! h)) as [b0 Hb0] by (apply lookup_lt_is_Some; lia).
  assert (Hbu : bucket_at h u = Some b0) by (by rewrite bucket_at_cells).
  set (nb := MkBucket _ _ _ _ _ _ _ _ _).
  destruct (set_bucket_spec u h (fun _ => nb) b0 Hbu) as (t & -> & Est & Hlogt & Hat & Hato). simpl.
  assert (Hbase : is_Some (object_buckets (store t))) by (by rewrite Est).
  assert (Hold : forall i, i <> h -> Z.of_nat i < top (store s) -> bucket_at i t = bucket_at i s).
  { intros i Hi Hlt'. rewrite Hato by done. rewrite bucket_at_cells by done.
    rewrite Hsame by done. by rewrite (ok_bucket s fl). }
  assert (Hlive : forall h' o n, h' <> h -> live t h' o n <-> live s h' o n).
  { intros h' o n Hne. unfold live. rewrite Est. simpl. split.
    - intros (Hr & b & Hb1 & Hrest). assert (Z.of_nat h' < top (store s)) as Hlt' by (apply Hlt; [lia|done]).
      split; [lia|]. exists b. by rewrite <- Hold.
    - intros (Hr & b & Hb1 & Hrest). split; [lia|]. exists b. by rewrite Hold by (done || lia). }
  assert (Hnew : live t h object 1).
  { split; [by rewrite Est|]. exists nb. by rewrite Hat. }
  exists t, h, fl'. split; [done|].
  split; [|split; [|split; [done|split; [done|congruence]]]].
  - split; rewrite ?Est; simpl; try done; try lia.
    + by rewrite length_insert.
    + eapply free_chain_frame; [exact Hch|]. intros i Hi. rewrite list_lookup_insert_ne; [done|].
      intros ->. done.
    + intros i [Hi Hne]%Hfl. destruct (so_free _ _ Hok i Hi) as (Hr & b & Hb1 & Hv). split; [lia|].
      exists b. rewrite list_lookup_insert_ne by done. rewrite Hsame by lia. done.
    + intros i Hi Hni. destruct (decide (i = h)) as [->|Hne]; [by exists object, 1|].
      destruct (so_live _ _ Hok i) as (o & n & Hl & Hn).
      * split; [lia|]. apply Hlt; [lia|done].
      * intros Hin. apply Hni. by apply Hfl.
      * exists o, n. split; [by apply Hlive|done].
  - intros o n Hl. destruct Hor as [Hin|Htp]; [by eapply live_not_free|]. destruct Hl as [Hr _]. lia.
Qed.
End Put.

(** ** Releasing a reference *)
Section Release.
Context `{Realloc} `{Callbacks}.
Implicit Types (s t : ostate) (h : nat) (b : zend_object_store_bucket) (fl : list nat).

(** What other code may do to the store while we hold a reference to [h]: it
    keeps the store well formed and leaves us our object, whose destructor stays
    marked as called. *)
Definition rely h s t : Prop :=
  wf t /\ exists b b', bucket_at h s = Some b /\ bucket_at h t = Some b'
    /\ Z.of_nat h < top (store t) /\ valid b' = true /\ word b' = word b
    /\ (destructor_called b = true -> destructor_called b' = true)
    /\ 1 <= refcount b' < 2 ^ 32.

(** The bucket [h] alone has become [b], and nothing was called. *)
Definition rewritten h b s t : Prop :=
  log t = log s /\ bucket_at h t = Some b /\ (forall h', h' <> h -> bucket_at h' t = bucket_at h' s).
(** The handlers that the destructor of an object without any is given. *)
Definition with_handlers (hs : option positive) b : zend_object_store_bucket :=
  match hs, handlers b with Some x, None => set_handlers (Some x) b | _, _ => b end.

(** What the destructor does when the last reference goes: nothing when it was
    called before; otherwise the object is marked first, and the function, when
    there is one, is called once with the object. *)
Inductive destructor_run hs h (o : option obj_ptr) b s : ostate -> bool -> Prop :=
| dr_called : destructor_called b = true -> destructor_run hs h o b s s false
| dr_none t : destructor_called b = false -> dtor b = None ->
    rewritten h (set_destructor_called true b) s t -> destructor_run hs h o b s t false
| dr_call fn t u failed : destructor_called b = false -> dtor b = Some fn ->
    rewritten h (with_handlers hs (set_destructor_called true b)) s t ->
    run_dtor fn o h (emit (EvDtor fn o h) t) = Some (u, failed) -> destructor_run hs h o b s u failed.
(** The object leaves the buffer of the collector, and the free function, when
    there is one, is called once with it. *)
Inductive storage_freed h (o : option obj_ptr) b s : ostate -> bool -> Prop :=
| sf_none : free_storage b = None -> storage_freed h o b s (emit (EvGcRemove h) s) false
| sf_call fn t failed : free_storage b = Some fn ->
    run_free fn o (emit (EvFree fn o) (emit (EvGcRemove h) s)) = Some (t, failed) ->
    storage_freed h o b s t failed.

(** The contract of the callbacks.  A destructor may do anything other code
    may do, also take new references to the object; [free_storage] of an
    object with one reference left may not, and does not make the array move. *)
Class CallbacksOk : Prop := {
  dtor_ok : forall fn o h n s, wf s -> live s h o n ->
    exists t failed, run_dtor fn o h s = Some (t, failed) /\ rely h s t;
  free_ok : forall fn o h s, wf s -> live s h o 1 ->
    exists t failed, run_free fn o s = Some (t, failed) /\ rely h s t /\ live t h o 1
      /\ object_buckets (store t) = object_buckets (store s)
}.

Lemma live_bucket s h o n : live s h o n ->
  exists b base, bucket_at h s = Some b /\ object_buckets (store s) = Some base
    /\ deref base h s = Some b /\ valid b = true /\ word b = WObject o /\ refcount b = n
    /\ 1 <= Z.of_nat h < top (store s).
Proof.
  intros (Hh & b & Hb & Hv & Hw & Hr). pose proof Hb as Hb'. unfold bucket_at in Hb'.
  destruct (object_buckets (store s)) as [base|] eqn:E; [|done]. exists b, base.
  unfold deref. rewrite E, decide_True by done. done.
Qed.

Lemma live_count s h o n : wf s -> live s h o n -> 1 <= n < 2 ^ 32.
Proof.
  intros (fl & Hok) Hl. pose proof Hl as (Hr & b & Hb & _ & _ & <-).
  destruct (so_live _ _ Hok h Hr (live_not_free _ _ _ _ _ Hok Hl)) as (o' & n' & (_ & b' & Hb' & _ & _ & <-) & Hn).
  assert (b' = b) as -> by congruence. done.
Qed.

Lemma wf_emit e s : wf s -> wf (emit e s).
Proof. intros (fl & Hok). exists fl. by destruct Hok. Qed.
Lemma live_emit e s h o n : live s h o n -> live (emit e s) h o n.
Proof. done. Qed.

Lemma rely_live h s t o n : live s h o n -> rely h s t -> exists m, live t h o m /\ 1 <= m < 2 ^ 32.
Proof.
  intros (Hh & b & Hb & _ & Hw & _) (_ & b0 & b' & Hb0 & Hb' & Htop & Hv & Hw' & _ & Hr).
  exists (refcount b'). split; [|done]. split; [lia|]. exists b'. repeat split; congruence.
Qed.

(** Flags and handlers of a live bucket may be written at any time. *)
Lemma set_live s h o n f : wf s -> live s h o n ->
  (forall b, valid (f b) = valid b /\ word (f b) = word b /\ refcount (f b) = refcount b) ->
  exists t, set_bucket h f s = Some t /\ wf t /\ live t h o n /\ log t = log s
    /\ object_buckets (store t) = object_buckets (store s)
    /\ (forall b, bucket_at h s = Some b -> bucket_at h t = Some (f b))
    /\ (forall h', h' <> h -> bucket_at h' t = bucket_at h' s).
Proof.
  intros (fl & Hok) Hl Hf. pose proof Hl as (b & base & Hb & Hbase & _ & Hv & Hw & Hr & _)%live_bucket.
  destruct (set_bucket_spec s h f b Hb) as (t & Hs & Est & Hlog & Hat & Hato).
  destruct (Hf b) as (F1 & F2 & F3).
  pose proof (live_count s h o n ltac:(by exists fl) Hl) as Hn.
  destruct (update_live_ok s t fl h b (f b) o n Hok Hb Hl Est) as [Hok' Hl'];
    [congruence|done|lia|].
  exists t. split; [done|]. split; [by exists fl|]. split; [congruence|]. split; [done|].
  split; [by rewrite Est|]. split; [intros b1 Hb1; congruence|done].
Qed.

Lemma call_dtor_ok `{!CallbacksOk} s h o n b base hs :
  wf s -> live s h o n -> bucket_at h s = Some b -> object_buckets (store s) = Some base ->
  exists t failed, call_dtor base h b hs s = Some (t, failed) /\ destructor_run hs h o b s t failed /\ wf t
    /\ exists m b', live t h o m /\ 1 <= m < 2 ^ 32 /\ bucket_at h t = Some b'
       /\ destructor_called b' = true.
Proof.
  intros Hwf Hl Hb Hbase. unfold call_dtor.
  pose proof Hl as (b0 & base0 & Hb0 & _ & _ & Hv & Hw & Hr & _)%live_bucket.
  assert (b0 = b) as -> by congruence.
  destruct (destructor_called b) eqn:Ed.
  { exists s, false. split; [done|]. split; [by constructor|]. split; [done|]. exists n, b. split; [done|].
    split; [by eapply live_count|done]. }
  destruct (set_live s h o n (set_destructor_called true) Hwf Hl) as (s1 & -> & Hwf1 & Hl1 & Hlog1 & Hb1 & Hat1 & Hato1);
    [done|]. specialize (Hat1 b Hb). simpl.
  destruct (dtor b) as [fn|] eqn:Ef.
  2:{ exists s1, false. split; [done|]. split; [by apply dr_none|]. split; [done|]. eexists n, _. split; [done|].
      split; [by eapply live_count|done]. }
  assert (exists s2, match hs, handlers b with
            | Some x, None => write_ptr base h (set_handlers (Some x)) s1
            | _, _ => Some s1
            end = Some s2 /\ wf s2 /\ live s2 h o n
            /\ rewritten h (with_handlers hs (set_destructor_called true b)) s s2)
    as (s2 & -> & Hwf2 & Hl2 & Hrw).
  { unfold with_handlers. cbn [handlers set_destructor_called].
    destruct hs as [x|], (handlers b) eqn:Eh; try (exists s1; by repeat (split; [done|])).
    unfold write_ptr. pose proof Hl1 as (b1 & base1 & _ & Eb & Hd & _)%live_bucket.
    assert (base1 = base) as -> by congruence. rewrite Hd. simpl.
    destruct (set_live s1 h o n (set_handlers (Some x)) Hwf1 Hl1) as (s2 & -> & Hwf2 & Hl2 & Hlog2 & _ & Hat2 & Hato2);
      [done|]. exists s2. split; [done|]. split; [done|]. split; [done|]. split; [congruence|].
    split; [exact (Hat2 _ Hat1)|]. intros h' Hne. by rewrite Hato2, Hato1. }
  simpl. unfold object_of. rewrite Hw. simpl.
  destruct (dtor_ok fn o h n (emit (EvDtor fn o h) s2)) as (t & failed & E & Hrely);
    [by apply wf_emit|done|]. rewrite E.
  exists t, failed. split; [done|]. split; [by eapply dr_call|]. split; [apply Hrely|].
  destruct (rely_live h _ t o n (live_emit _ _ _ _ _ Hl2) Hrely) as (m & Hlm & Hm).
  destruct Hrely as (_ & b3 & b' & Hb3 & Hb' & _ & _ & _ & Hd & _).
  exists m, b'. split; [done|]. split; [done|]. split; [done|]. apply Hd.
  destruct Hrw as (_ & Hb2 & _). change (bucket_at h s2 = Some b3) in Hb3. rewrite Hb2 in Hb3. injection Hb3 as <-.
  unfold with_handlers. by destruct hs, (handlers (set_destructor_called true b)).
Qed.

(** Putting a live handle on the free list. *)
Lemma add_to_free_ok s h o n : wf s -> live s h o n ->
  exists t b', ZEND_OBJECTS_STORE_ADD_TO_FREE_LIST h s = Some t /\ wf t
    /\ object_buckets (store t) = object_buckets (store s)
    /\ bucket_at h t = Some b' /\ valid b' = false /\ word b' = WNext (free_list_head (store s))
    /\ free_list_head (store t) = Z.of_nat h /\ log t = log s
    /\ (forall h', h' <> h -> bucket_at h' t = bucket_at h' s) /\ top (store t) = top (store s).
Proof.
  intros (fl & Hok) Hl. pose proof (live_not_free _ _ _ _ _ Hok Hl) as Hnf.
  pose proof Hl as (b & base & Hb & Hbase & _ & Hv & Hw & Hr & Hh)%live_bucket.
  unfold ZEND_OBJECTS_STORE_ADD_TO_FREE_LIST.
  destruct (set_bucket_spec s h (set_word (WNext (free_list_head (store s)))) b Hb)
    as (s1 & -> & Est1 & Hlog1 & Hat1 & Hato1). simpl.
  set (s2 := on_store _ s1).
  assert (Hat2 : forall i, bucket_at i s2 = bucket_at i s1) by done.
  destruct (set_bucket_spec s2 h (set_valid false) _ (eq_trans (Hat2 h) Hat1))
    as (t & -> & Est & Hlog & Hat & Hato).
  eexists t, _. split; [done|]. split; [|split; [by rewrite Est; simpl; rewrite Est1|]].
  2:{ split; [exact Hat|]. split; [done|]. split; [done|]. rewrite Est. simpl. split; [done|].
      split; [by rewrite Hlog|]. split; [|by rewrite Est1].
      intros h' Hne. rewrite Hato, Hat2, Hato1 by done. done. }
  assert (Hcells : forall i, cells (store t) !! i = bucket_at i t).
  { intros i. rewrite bucket_at_cells; [done|]. rewrite Est. simpl. rewrite Est1. simpl. apply Hok. }
  assert (Hc : forall i, i <> h -> cells (store t) !! i = cells (store s) !! i).
  { intros i Hne. rewrite Hcells, Hato, Hat2, Hato1 by done. by rewrite (ok_bucket s fl). }
  assert (Hlen : length (cells (store t)) = length (cells (store s))).
  { rewrite Est. simpl. rewrite length_insert, Est1. simpl. by rewrite length_insert. }
  assert (Htop : top (store t) = top (store s)) by (rewrite Est; simpl; by rewrite Est1).
  assert (Hsize : size (store t) = size (store s)) by (rewrite Est; simpl; by rewrite Est1).
  exists (h :: fl). split; rewrite ?Htop, ?Hsize, ?Hlen; try apply Hok.
  - rewrite Est. simpl. rewrite Est1. apply Hok.
  - constructor; [done|apply Hok].
  - simpl. split; [by rewrite Est|]. eexists _, _. rewrite Hcells, Hat. split; [done|]. split; [done|].
    eapply free_chain_frame; [apply Hok|]. intros i Hi. apply Hc. by intros ->.
  - intros i [->|Hi]%elem_of_cons.
    + split; [done|]. eexists. rewrite Hcells, Hat. done.
    + destruct (so_free _ _ Hok i Hi) as (Hri & bi & Hbi & Hvi). split; [done|]. exists bi.
      by rewrite Hc by (by intros ->).
  - intros i Hi [Hne Hni]%not_elem_of_cons.
    destruct (so_live _ _ Hok i Hi Hni) as (o' & n' & (Hri & bi & Hbi & Hrest) & Hn').
    exists o', n'. split; [|done]. split; [by rewrite Htop|]. exists bi.
    by rewrite <- Hcells, Hc, <- (ok_bucket s fl).
Qed.

(** Lowering the count through a pointer taken before. *)
Lemma drop_ref_ok s h o n base : wf s -> live s h o n -> 1 < n ->
  object_buckets (store s) = Some base ->
  exists t, write_ptr base h (fun b => set_refcount (to_uint (refcount b - 1)) b) s = Some t
    /\ wf t /\ live t h o (n - 1) /\ log t = log s
    /\ (forall h', h' <> h -> bucket_at h' t = bucket_at h' s)
    /\ (forall b, bucket_at h s = Some b -> exists b', bucket_at h t = Some b'
          /\ destructor_called b' = destructor_called b).
Proof.
  intros Hwf Hl Hn Hbase. pose proof (live_count _ _ _ _ Hwf Hl) as Hc. destruct Hwf as (fl & Hok).
  pose proof Hl as (b & base' & Hb & Eb & Hd & Hv & Hw & Hr & Hh)%live_bucket.
  assert (base' = base) as -> by congruence. unfold write_ptr. rewrite Hd. simpl.
  destruct (set_bucket_spec s h (fun b => set_refcount (to_uint (refcount b - 1)) b) b Hb)
    as (t & -> & Est & Hlog & Hat & Hato).
  destruct (update_live_ok s t fl h b _ o n Hok Hb Hl Est) as [Hok' Hl']; simpl; [done|done| |].
  { rewrite to_uint_small; lia. }
  simpl in Hl'. rewrite to_uint_small, Hr in Hl' by lia.
  exists t. split; [done|]. split; [by exists fl|]. split; [done|]. split; [done|]. split; [done|].
  intros b1 Hb1. eexists. split; [exact Hat|]. simpl. congruence.
Qed.

(** The count of a free bucket is of no consequence. *)
Lemma drop_free_ok s h b base : wf s -> bucket_at h s = Some b -> valid b = false ->
  object_buckets (store s) = Some base ->
  exists t, write_ptr base h (fun b => set_refcount (to_uint (refcount b - 1)) b) s = Some t
    /\ wf t /\ log t = log s /\ free_list_head (store t) = free_list_head (store s)
    /\ (exists b', bucket_at h t = Some b' /\ valid b' = false)
    /\ (forall h', h' <> h -> bucket_at h' t = bucket_at h' s).
Proof.
  intros (fl & Hok) Hb Hv Hbase. unfold write_ptr, deref. rewrite decide_True by done.
  rewrite (ok_bucket s fl h Hok) in Hb. rewrite Hb. simpl. rewrite <- (ok_bucket s fl h Hok) in Hb.
  destruct (set_bucket_spec s h (fun b => set_refcount (to_uint (refcount b - 1)) b) b Hb)
    as (t & -> & Est & Hlog & Hat & Hato).
  set (nb := set_refcount _ b) in *.
  assert (Hlk : cells (store s) !! h = Some b) by (by rewrite <- (ok_bucket s fl)).
  assert (Hlt : (h < length (cells (store s)))%nat) by (by eapply lookup_lt_Some).
  exists t. split; [done|].
  split; [|split; [done|split; [by rewrite Est|split; [by exists nb|done]]]].
  exists fl. split; rewrite ?Est; simpl; try apply Hok.
  - rewrite length_insert. apply Hok.
  - pose proof (so_chain _ _ Hok) as Hc. revert Hc. generalize (free_list_head (store s)). clear -Hlk Hlt.
    induction fl as [|i fl IH]; intros hd; simpl; [done|]. intros [-> (bi & n & Hbi & Hw & Hc)].
    split; [done|]. destruct (decide (i = h)) as [->|Hne].
    + exists nb, n. rewrite list_lookup_insert_eq by done. split; [done|]. split; [|by apply IH].
      simpl. congruence.
    + exists bi, n. rewrite list_lookup_insert_ne by done. split; [done|]. split; [done|by apply IH].
  - intros i Hi. destruct (so_free _ _ Hok i Hi) as (Hr & bi & Hbi & Hvi). split; [done|].
    destruct (decide (i = h)) as [->|Hne].
    + exists nb. by rewrite list_lookup_insert_eq.
    + exists bi. by rewrite list_lookup_insert_ne.
  - intros i Hi Hn. destruct (so_live _ _ Hok i Hi Hn) as (o & m & (Hr & bi & Hbi & Hvi & Hrest) & Hm).
    exists o, m. split; [|done]. split; [by rewrite Est|]. exists bi.
    rewrite Hato; [done|]. intros ->. congruence.
Qed.

Lemma free_object_ok `{!CallbacksOk} s h o b : wf s -> live s h o 1 -> bucket_at h s = Some b ->
  exists u t failed b', free_object h b s = Some (t, failed) /\ storage_freed h o b s u failed /\ wf t
    /\ object_buckets (store t) = object_buckets (store s)
    /\ bucket_at h t = Some b' /\ valid b' = false /\ free_list_head (store t) = Z.of_nat h
    /\ log t = log u /\ (forall h', h' <> h -> bucket_at h' t = bucket_at h' u).
Proof.
  intros Hwf Hl Hb. unfold free_object.
  pose proof Hl as (b0 & base & Hb0 & _ & _ & _ & Hw & _)%live_bucket.
  assert (b0 = b) as -> by congruence.
  assert (exists s1 failed, match free_storage b with
      | None => Some (emit (EvGcRemove h) s, false)
      | Some fn => o ← object_of b; run_free fn o (emit (EvFree fn o) (emit (EvGcRemove h) s))
      end = Some (s1, failed) /\ storage_freed h o b s s1 failed /\ wf s1 /\ live s1 h o 1
      /\ object_buckets (store s1) = object_buckets (store s)) as (s1 & failed & Hrun & Hsf & Hwf1 & Hl1 & Eb1).
  { destruct (free_storage b) as [fn|] eqn:Ef.
    - unfold object_of. rewrite Hw. simpl.
      destruct (free_ok fn o h (emit (EvFree fn o) (emit (EvGcRemove h) s)))
        as (s1 & failed & E & Hrely & Hl1 & Eb); [by do 2 apply wf_emit|done|].
      exists s1, failed. split; [done|]. split; [by eapply sf_call|]. split; [apply Hrely|done].
    - eexists _, _. split; [done|]. split; [by apply sf_none|]. split; [by apply wf_emit|done]. }
  rewrite Hrun. simpl.
  destruct (add_to_free_ok s1 h o 1 Hwf1 Hl1) as (t & b' & -> & Hwft & Ebt & Hbt & Hvt & _ & Hft & Hlog & Hato & _).
  exists s1, t, failed, b'. split; [done|]. split; [done|]. split; [done|]. split; [congruence|done].
Qed.
End Release.

(** ** Theorems *)

Lemma store_init_ok `{Realloc} init_size base :
  1 <= init_size < 2 ^ 31 -> store_ok (zend_objects_store_init init_size base) [].
Proof.
  intros Hs. split; simpl; try done; try lia.
  - rewrite length_insert, length_replicate. lia.
  - apply NoDup_nil_2.
  - by intros h ?%not_elem_of_nil.
Qed.

(** Callbacks that touch nothing, and an array that moves when it grows. *)
Definition blank : zend_object_store_bucket := MkBucket true true 7 (WNext 5) None None None None 9.
#[export] Instance moving_realloc : Realloc :=
  {| erealloc t := Pos.succ (default 1%positive (object_buckets t)); garbage := blank |}.
Definition quiet : Callbacks :=
  {| run_dtor _ _ _ s := Some (s, false); run_free _ _ s := Some (s, false);
     run_clone _ o s := Some (s, o) |}.

Lemma rely_refl h s o n : wf s -> live s h o n -> rely h s s.
Proof.
  intros Hwf Hl. pose proof (live_count _ _ _ _ Hwf Hl) as Hc.
  destruct Hl as (Hh & b & Hb & Hv & Hw & Hr). split; [done|]. exists b, b.
  repeat split; try done; lia.
Qed.

Lemma quiet_ok : CallbacksOk (H0 := quiet).
Proof.
  split.
  - intros fn o h n s Hwf Hl. exists s, false. split; [done|]. by eapply rely_refl.
  - intros fn o h s Hwf Hl. exists s, false. split; [done|]. split; [by eapply rely_refl|done].
Qed.

(** A store of two buckets holding the object 40 under handle 1. *)
Definition store1 : ostate :=
  default (zend_objects_store_init 2 1)
    (fst <$> zend_objects_store_put (Some 40%positive) None (Some 2%positive) None (zend_objects_store_init 2 1)).

Lemma store1_ok : wf store1 /\ live store1 1 (Some 40%positive) 1.
Proof.
  destruct (put_ok (zend_objects_store_init 2 1) [] (Some 40%positive) None (Some 2%positive) None)
    as (t & h & fl & E & Hok & _ & Hl & _); [by apply store_init_ok|done|].
  assert (h = 1%nat) as ->.
  { assert (E' : snd <$> zend_objects_store_put (Some 40%positive) None (Some 2%positive) None
      (zend_objects_store_init 2 1) = Some 1%nat) by (by vm_compute).
    rewrite E in E'. by injection E'. }
  unfold store1. rewrite E. simpl. split; [by exists fl|done].
Qed.

(** C22: [zend_objects_store_put] gives every object a handle of its own: the
    handle is not 0, was not in use, and now names the object with one
    reference; every other live object keeps its handle, its reference count
    and its place, whether the handle came from the free list or the array had
    to grow and move. *)
Theorem zend_objects_store_put_fresh `{Realloc} (s : ostate) (object : option obj_ptr)
    (d f c : option fn_ptr) :
  wf s -> 2 * size (store s) < 2 ^ 31 ->
  exists t h, zend_objects_store_put object d f c s = Some (t, h) /\ wf t /\ h <> 0%nat
    /\ (forall o n, ~ live s h o n) /\ live t h object 1
    /\ (forall h' o n, h' <> h -> live t h' o n <-> live s h' o n).
Proof.
  intros (fl & Hok) Hs. destruct (put_ok s fl object d f c Hok Hs) as (t & h & fl' & -> & Hok' & Hn & Hl & Ho & _).
  exists t, h. split; [done|]. split; [by exists fl'|]. split; [|done].
  destruct Hl as [Hh _]. lia.
Qed.

Lemma zend_objects_store_put_fresh_witness :
  exists t h, zend_objects_store_put (Some 50%positive) None None None store1 = Some (t, h) /\ wf t
    /\ h <> 0%nat /\ (forall o n, ~ live store1 h o n) /\ live t h (Some 50%positive) 1
    /\ (forall h' o n, h' <> h -> live t h' o n <-> live store1 h' o n).
Proof.
  refine (zend_objects_store_put_fresh store1 (Some 50%positive) None None None _ _).
  - apply store1_ok.
  - by vm_compute.
Defined.

(** Dropping a reference that is not the last one only lowers the count:
    no callback runs, and nothing else in the store changes. *)
Theorem zend_objects_store_del_ref_shared `{Realloc} `{Callbacks} (s : ostate) (h : nat)
    (hs : option positive) (o : option obj_ptr) (n : Z) :
  wf s -> live s h o n -> 1 < n ->
  exists t, zend_objects_store_del_ref_by_handle_ex h hs s = Some (t, false) /\ wf t
    /\ live t h o (n - 1) /\ log t = log s
    /\ (forall h', h' <> h -> bucket_at h' t = bucket_at h' s).
Proof.
  intros Hwf Hl Hn. pose proof Hl as (b & base & Hb & Eb & Hd & Hv & Hw & Hr & _)%live_bucket.
  unfold zend_objects_store_del_ref_by_handle_ex. rewrite Eb, Hd. simpl. rewrite Hv, Hr.
  destruct (Z.eqb_spec n 1); [lia|]. simpl.
  destruct (drop_ref_ok s h o n base Hwf Hl Hn Eb) as (t & -> & Hwft & Hlt & Hlog & Ho & _).
  by exists t.
Qed.

Definition store2 : ostate := default store1 (zend_objects_store_add_ref_by_handle 1 store1).

Lemma store2_ok : wf store2 /\ live store2 1 (Some 40%positive) 2.
Proof.
  destruct store1_ok as [(fl & Hok) Hl].
  pose proof Hl as (b & base & Hb & _ & _ & Hv & Hw & Hr & _)%live_bucket.
  destruct (set_bucket_spec store1 1 (fun b => set_refcount (to_uint (refcount b + 1)) b) b Hb)
    as (t & Hs & Est & _).
  destruct (update_live_ok store1 t fl 1 b _ _ _ Hok Hb Hl Est) as [Hok' Hl']; simpl; [done|done| |].
  { by rewrite Hr. }
  unfold store2, zend_objects_store_add_ref_by_handle. rewrite Hs. simpl in *. rewrite Hr in Hl'.
  split; [by exists fl|exact Hl'].
Qed.

Lemma zend_objects_store_del_ref_shared_witness :
  exists t, zend_objects_store_del_ref_by_handle_ex (H0 := quiet) 1 None store2 = Some (t, false) /\ wf t
    /\ live t 1 (Some 40%positive) 1 /\ log t = log store2
    /\ (forall h', h' <> 1%nat -> bucket_at h' t = bucket_at h' store2).
Proof.
  exact (zend_objects_store_del_ref_shared (H0 := quiet) store2 1 None (Some 40%positive) 2
    (proj1 store2_ok) (proj2 store2_ok) eq_refl).
Defined.

(** What dropping the last reference ends in, after the destructor has left
    the store [s1]: the free function has run once and the handle is the first
    free one, or the object lives on with the references taken. *)
Definition object_freed `{Realloc} `{Callbacks} (h : nat) (o : option obj_ptr) (s1 : ostate) (failed1 : bool)
    (t : ostate) (failed : bool) : Prop :=
  exists b1 s2 failed2, live s1 h o 1 /\ bucket_at h s1 = Some b1 /\ destructor_called b1 = true
    /\ storage_freed h o b1 s1 s2 failed2 /\ failed = failed1 || failed2
    /\ log t = log s2 /\ (forall h', h' <> h -> bucket_at h' t = bucket_at h' s2)
    /\ (forall o' n, ~ live t h o' n) /\ free_list_head (store t) = Z.of_nat h.
Definition object_kept (h : nat) (o : option obj_ptr) (s1 : ostate) (failed1 : bool)
    (t : ostate) (failed : bool) : Prop :=
  exists m b', 1 < m /\ live s1 h o m /\ live t h o (m - 1) /\ bucket_at h t = Some b'
    /\ destructor_called b' = true /\ failed = failed1
    /\ log t = log s1 /\ (forall h', h' <> h -> bucket_at h' t = bucket_at h' s1).

(** C23: dropping the last reference runs the destructor (unless it has run
    before): the object is marked, and its function called once with it, while a
    reference is still held.  If the destructor has left the object with that one
    reference, the free function is called, once and after it, with the object,
    and the handle becomes the first on the free list; if the destructor has
    stored the object somewhere (resurrection), it stays alive with the
    references taken, no free function is called, and its destructor is marked as
    called, so that it never runs again.  Nothing else is called and no other
    bucket written than by these functions, the store is well formed again, and
    the call ends in a bailout when and only when one of them did. *)
Theorem zend_objects_store_del_ref_last `{Realloc} `{Callbacks} `{!CallbacksOk} (s : ostate) (h : nat)
    (hs : option positive) (o : option obj_ptr) :
  wf s -> live s h o 1 ->
  exists b s1 failed1 t failed,
    bucket_at h s = Some b /\ destructor_run hs h o b s s1 failed1
    /\ zend_objects_store_del_ref_by_handle_ex h hs s = Some (t, failed) /\ wf t
    /\ (object_freed h o s1 failed1 t failed \/ object_kept h o s1 failed1 t failed).
Proof.
  intros Hwf Hl. pose proof Hl as (b & base & Hb & Eb & Hd & Hv & Hw & Hr & _)%live_bucket.
  unfold zend_objects_store_del_ref_by_handle_ex. rewrite Eb, Hd. simpl. rewrite Hv, Hr. simpl.
  destruct (call_dtor_ok s h o 1 b base hs Hwf Hl Hb Eb)
    as (s1 & failed1 & Hcd & Hrun & Hwf1 & m & b1 & Hl1 & Hm & Hb1 & Hdc). rewrite Hcd. simpl.
  pose proof Hl1 as (b1' & base1 & Hb1' & Eb1 & Hd1 & Hv1 & Hw1 & Hr1 & _)%live_bucket.
  assert (b1' = b1) as -> by congruence. rewrite Eb1. simpl. rewrite Hd1. simpl. rewrite Hr1.
  destruct (Z.eqb_spec m 1) as [->|Hm1]; simpl.
  - destruct (free_object_ok s1 h o b1 Hwf1 Hl1 Hb1) as (u & s2 & failed2 & b2 & -> & Hsf & Hwf2 & Eb2 & Hb2 & Hv2 & Hf2 & Hlog2 & Hato2).
    simpl. destruct (drop_free_ok s2 h b2 base1 Hwf2 Hb2 Hv2) as (t & -> & Hwft & Hlogt & Hft & (b3 & Hb3 & Hv3) & Hatot);
      [congruence|]. simpl.
    exists b, s1, failed1, t, (failed1 || failed2). repeat (split; [done|]). left.
    exists b1, u, failed2. repeat (split; [done|]). split; [congruence|]. split; [|split; [|congruence]].
    + intros h' Hne. by rewrite Hatot, Hato2.
    + intros o' n (_ & b4 & Hb4 & Hv4 & _). congruence.
  - destruct (drop_ref_ok s1 h o m base1 Hwf1 Hl1) as (t & -> & Hwft & Hlt & Hlogt & Hatot & Hdt); [lia|done|]. simpl.
    destruct (Hdt b1 Hb1) as (b2 & Hb2 & Hd2).
    exists b, s1, failed1, t, failed1. repeat (split; [done|]).
    right. exists m, b2. split; [lia|]. repeat (split; [done|]). split; [congruence|done].
Qed.

Lemma zend_objects_store_del_ref_last_witness :
  exists b s1 failed1 t failed,
    bucket_at 1 store1 = Some b /\ destructor_run (H0 := quiet) None 1 (Some 40%positive) b store1 s1 failed1
    /\ zend_objects_store_del_ref_by_handle_ex (H0 := quiet) 1 None store1 = Some (t, failed) /\ wf t
    /\ (object_freed (H0 := quiet) 1 (Some 40%positive) s1 failed1 t failed
        \/ object_kept 1 (Some 40%positive) s1 failed1 t failed).
Proof.
  exact (zend_objects_store_del_ref_last (H0 := quiet) (H1 := quiet_ok) store1 1 None
    (Some 40%positive) (proj1 store1_ok) (proj2 store1_ok)).
Defined.
(** [store1] has no destructor and a free function; an object with both: each is
    called once, in this order. *)
Example both_called : (log ∘ fst) <$> (zend_objects_store_put (Some 50%positive) (Some 3%positive) (Some 2%positive) None store1
    ≫= fun r => zend_objects_store_del_ref_by_handle_ex (H0 := quiet) r.2 None r.1)
  = Some [EvDtor 3 (Some 50%positive) 2; EvGcRemove 2; EvFree 2 (Some 50%positive)].
Proof. vm_compute. reflexivity. Qed.

(** A [free_storage] that, while it tears the object down, makes the program
    create another one (a property whose own destructor says [new]). *)
Definition creating : Callbacks :=
  {| run_dtor _ _ _ s := Some (s, false);
     run_free _ _ s := (fun r => (r.1, false)) <$> zend_objects_store_put (Some 60%positive) None None None s;
     run_clone _ o s := Some (s, o) |}.

(** After [free_storage] has run, [zend_objects_store_del_ref_by_handle_ex]
    still decrements the count through the pointer it took before.  When
    [free_storage] makes the full store grow, the array has moved and that is a
    write into freed memory: on a well-formed store of two buckets with one
    object the call has no defined result. *)
Example del_ref_writes_freed_store :
  wf store1 /\ live store1 1 (Some 40%positive) 1
  /\ zend_objects_store_del_ref_by_handle_ex (H0 := creating) 1 None store1 = None
  /\ exists t, zend_objects_store_del_ref_by_handle_ex (H0 := quiet) 1 None store1 = Some (t, false).
Proof.
  split; [apply store1_ok|]. split; [apply store1_ok|]. split; [by vm_compute|].
  eexists. vm_compute. reflexivity.
Qed.
