(* ===== verification/HashDefs.v ===== *)
(** * HashDefs: the data and the operations of Zend/zend_hash.c

    A [HashTable] is an array of collision chains threaded through its buckets
    ([pNext]/[pLast]) plus one insertion-ordered list of all buckets
    ([pListNext]/[pListLast]).  The model keeps the pointers: a bucket lives at
    an address of a heap, every operation is the sequence of reads and writes
    of the C function, and a read or a write through a pointer that is not
    allocated, or an index outside [arBuckets], makes the operation return
    [None].  Loops take the number of allocated buckets as fuel, and running
    out of fuel is [None] as well, so a theorem that an operation returns
    [Some] says that it is memory safe and terminates. *)
From S2P Require Import Prelude DList.

(** ** Keys *)

(** Where a [char *] key points: into the interned-string area, to a buffer of
    the caller, or just behind a bucket ([(const char* )(p + 1)]). *)
Inductive char_addr :=
| KNull
| KInterned (a : addr)
| KHeap (a : addr)
| KBucket (p : addr).

#[export] Instance char_addr_eq_dec : EqDecision char_addr.
Proof. solve_decision. Defined.

(** A [const char *]: the address and the bytes (0..255) readable there. *)
Record char_ptr := CharPtr { cp_addr : char_addr; cp_bytes : list Z }.

Definition null_ptr : char_ptr := CharPtr KNull [].

(** [IS_INTERNED(s)] tests whether the address lies in the interned area. *)
Definition IS_INTERNED (s : char_ptr) : bool :=
  match cp_addr s with KInterned _ => true | _ => false end.

(** The sign of [memcmp]. *)
Fixpoint memcmp (n : nat) (a b : list Z) : Z :=
  match n, a, b with
  | S n, x :: a, y :: b =>
      if x <? y then -1 else if y <? x then 1 else memcmp n a b
  | _, _, _ => 0
  end.

(** ** Buckets and tables *)

(** [pData] together with [pDataPtr]: data of pointer size is stored in
    [pDataPtr] itself and [pData == &pDataPtr]; other data is in a block of
    its own, which only this bucket refers to, and [pDataPtr == NULL]. *)
Inductive data_loc (V : Type) := DInline (v : V) | DBlock (v : V).
Arguments DInline {V} v.
Arguments DBlock {V} v.

Definition data_of {V} (d : data_loc V) : V :=
  match d with DInline v | DBlock v => v end.

Record Bucket (V : Type) := MkBucket {
  h : Z;
  nKeyLength : Z;
  pData : data_loc V;
  pListNext : option addr;
  pListLast : option addr;
  pNext : option addr;
  pLast : option addr;
  arKey : char_ptr
}.
Arguments MkBucket {V}.
Arguments h {V}. Arguments nKeyLength {V}. Arguments pData {V}.
Arguments pListNext {V}. Arguments pListLast {V}.
Arguments pNext {V}. Arguments pLast {V}. Arguments arKey {V}.

Record HashTable := MkHashTable {
  nTableSize : Z;
  nTableMask : Z;
  nNumOfElements : Z;
  nNextFreeElement : Z;
  pInternalPointer : option addr;
  pListHead : option addr;
  pListTail : option addr;
  arBuckets : list (option addr);
  pDestructor : bool;
  persistent : bool;
  nApplyCount : Z;
  bApplyProtection : bool
}.

(** Field assignments. *)
Section Setters.
Context {V : Type}.
Implicit Type b : Bucket V.
Definition set_h (x : Z) b := MkBucket x (nKeyLength b) (pData b) (pListNext b) (pListLast b) (pNext b) (pLast b) (arKey b).
Definition set_nKeyLength (x : Z) b := MkBucket (h b) x (pData b) (pListNext b) (pListLast b) (pNext b) (pLast b) (arKey b).
Definition set_pData (x : data_loc V) b := MkBucket (h b) (nKeyLength b) x (pListNext b) (pListLast b) (pNext b) (pLast b) (arKey b).
Definition set_pListNext (x : option addr) b := MkBucket (h b) (nKeyLength b) (pData b) x (pListLast b) (pNext b) (pLast b) (arKey b).
Definition set_pListLast (x : option addr) b := MkBucket (h b) (nKeyLength b) (pData b) (pListNext b) x (pNext b) (pLast b) (arKey b).
Definition set_pNext (x : option addr) b := MkBucket (h b) (nKeyLength b) (pData b) (pListNext b) (pListLast b) x (pLast b) (arKey b).
Definition set_pLast (x : option addr) b := MkBucket (h b) (nKeyLength b) (pData b) (pListNext b) (pListLast b) (pNext b) x (arKey b).
Definition set_arKey (x : char_ptr) b := MkBucket (h b) (nKeyLength b) (pData b) (pListNext b) (pListLast b) (pNext b) (pLast b) x.
End Setters.

Section TableSetters.
Implicit Type t : HashTable.
Definition set_nNumOfElements (x : Z) t := MkHashTable (nTableSize t) (nTableMask t) x (nNextFreeElement t) (pInternalPointer t) (pListHead t) (pListTail t) (arBuckets t) (pDestructor t) (persistent t) (nApplyCount t) (bApplyProtection t).
Definition set_nNextFreeElement (x : Z) t := MkHashTable (nTableSize t) (nTableMask t) (nNumOfElements t) x (pInternalPointer t) (pListHead t) (pListTail t) (arBuckets t) (pDestructor t) (persistent t) (nApplyCount t) (bApplyProtection t).
Definition set_pInternalPointer (x : option addr) t := MkHashTable (nTableSize t) (nTableMask t) (nNumOfElements t) (nNextFreeElement t) x (pListHead t) (pListTail t) (arBuckets t) (pDestructor t) (persistent t) (nApplyCount t) (bApplyProtection t).
Definition set_pListHead (x : option addr) t := MkHashTable (nTableSize t) (nTableMask t) (nNumOfElements t) (nNextFreeElement t) (pInternalPointer t) x (pListTail t) (arBuckets t) (pDestructor t) (persistent t) (nApplyCount t) (bApplyProtection t).
Definition set_pListTail (x : option addr) t := MkHashTable (nTableSize t) (nTableMask t) (nNumOfElements t) (nNextFreeElement t) (pInternalPointer t) (pListHead t) x (arBuckets t) (pDestructor t) (persistent t) (nApplyCount t) (bApplyProtection t).
Definition set_arBuckets (x : list (option addr)) t := MkHashTable (nTableSize t) (nTableMask t) (nNumOfElements t) (nNextFreeElement t) (pInternalPointer t) (pListHead t) (pListTail t) x (pDestructor t) (persistent t) (nApplyCount t) (bApplyProtection t).
Definition set_nTableSize (x : Z) t := MkHashTable x (nTableMask t) (nNumOfElements t) (nNextFreeElement t) (pInternalPointer t) (pListHead t) (pListTail t) (arBuckets t) (pDestructor t) (persistent t) (nApplyCount t) (bApplyProtection t).
Definition set_nTableMask (x : Z) t := MkHashTable (nTableSize t) x (nNumOfElements t) (nNextFreeElement t) (pInternalPointer t) (pListHead t) (pListTail t) (arBuckets t) (pDestructor t) (persistent t) (nApplyCount t) (bApplyProtection t).
Definition set_nApplyCount (x : Z) t := MkHashTable (nTableSize t) (nTableMask t) (nNumOfElements t) (nNextFreeElement t) (pInternalPointer t) (pListHead t) (pListTail t) (arBuckets t) (pDestructor t) (persistent t) x (bApplyProtection t).
Definition set_bApplyProtection (x : bool) t := MkHashTable (nTableSize t) (nTableMask t) (nNumOfElements t) (nNextFreeElement t) (pInternalPointer t) (pListHead t) (pListTail t) (arBuckets t) (pDestructor t) (persistent t) (nApplyCount t) x.
End TableSetters.

(** A table, the heap its buckets live in, and the values [pDestructor] has
    been called on, oldest first. *)
Record hstate (V : Type) := MkState {
  ht : HashTable;
  heap : gmap addr (Bucket V);
  dtor_log : list V
}.
Arguments MkState {V}. Arguments ht {V}. Arguments heap {V}. Arguments dtor_log {V}.

(** [pemalloc] of a bucket: an address that is not in use and the arbitrary
    contents of the block.  It does not return on exhaustion. *)
Class Malloc (V : Type) := {
  pemalloc : gmap addr (Bucket V) -> addr * Bucket V;
  pemalloc_fresh : forall m, m !! (pemalloc m).1 = None
}.

(** ** Constants of zend_hash.h *)
Definition HASH_KEY_IS_STRING : Z := 1.
Definition HASH_KEY_IS_LONG : Z := 2.
Definition HASH_KEY_NON_EXISTENT : Z := 3.
Definition HASH_UPDATE : Z := 1.
Definition HASH_ADD : Z := 2.
Definition HASH_NEXT_INSERT : Z := 4.
Inductive del_flag := HASH_DEL_KEY | HASH_DEL_INDEX | HASH_DEL_KEY_QUICK.
Definition HASH_UPDATE_KEY_IF_NONE : Z := 0.
Definition HASH_UPDATE_KEY_IF_BEFORE : Z := 1.
Definition HASH_UPDATE_KEY_IF_AFTER : Z := 2.
Definition HASH_UPDATE_KEY_ANYWAY : Z := 3.
Definition ZEND_HASH_APPLY_KEEP : Z := 0.
Definition ZEND_HASH_APPLY_REMOVE : Z := 1.
Definition ZEND_HASH_APPLY_STOP : Z := 2.

(** ** The hash function: DJBX33A, unrolled eight times in the source *)
Section HashFunc.
Context `{Platform}.

(** [hash = ((hash << 5) + hash) + *arKey++], with [char] signed. *)
Definition hash_step (hash c : Z) : Z :=
  to_ulong (to_ulong (Z.shiftl hash 5) + hash + schar c).

(** The body of the loop over blocks of eight characters. *)
Definition hash_block8 (hash : Z) (b : list Z) : Z :=
  match b with
  | [c1; c2; c3; c4; c5; c6; c7; c8] =>
      let hash := hash_step hash c1 in
      let hash := hash_step hash c2 in
      let hash := hash_step hash c3 in
      let hash := hash_step hash c4 in
      let hash := hash_step hash c5 in
      let hash := hash_step hash c6 in
      let hash := hash_step hash c7 in
      hash_step hash c8
  | _ => hash
  end.

(** The fallthrough [switch] on the remaining zero to seven characters. *)
Definition hash_switch (hash : Z) (b : list Z) : Z :=
  match b with
  | [c1; c2; c3; c4; c5; c6; c7] =>
      hash_step (hash_step (hash_step (hash_step (hash_step (hash_step
        (hash_step hash c1) c2) c3) c4) c5) c6) c7
  | [c1; c2; c3; c4; c5; c6] =>
      hash_step (hash_step (hash_step (hash_step (hash_step
        (hash_step hash c1) c2) c3) c4) c5) c6
  | [c1; c2; c3; c4; c5] =>
      hash_step (hash_step (hash_step (hash_step
        (hash_step hash c1) c2) c3) c4) c5
  | [c1; c2; c3; c4] =>
      hash_step (hash_step (hash_step (hash_step hash c1) c2) c3) c4
  | [c1; c2; c3] => hash_step (hash_step (hash_step hash c1) c2) c3
  | [c1; c2] => hash_step (hash_step hash c1) c2
  | [c1] => hash_step hash c1
  | _ => hash
  end.

(** [for (; nKeyLength >= 8; nKeyLength -= 8)], [n] being the number of
    complete blocks. *)
Fixpoint zend_inline_hash_loop (n : nat) (hash : Z) (arKey : list Z) : Z :=
  match n with
  | O => hash_switch hash arKey
  | S n => zend_inline_hash_loop n (hash_block8 hash (take 8 arKey)) (drop 8 arKey)
  end.

Definition zend_inline_hash_func (arKey : list Z) (nKeyLength : Z) : Z :=
  zend_inline_hash_loop (Z.to_nat (nKeyLength / 8)) 5381
    (take (Z.to_nat nKeyLength) arKey).

Definition zend_hash_func (arKey : list Z) (nKeyLength : Z) : Z :=
  zend_inline_hash_func arKey nKeyLength.
End HashFunc.

(** ** Operations *)
Section Ops.
Context `{Platform} {V : Type} `{Malloc V}.
Implicit Types (s : hstate V) (p q : addr).

Definition on_ht (f : HashTable -> HashTable) s : hstate V :=
  MkState (f (ht s)) (heap s) (dtor_log s).
Definition with_heap (m : gmap addr (Bucket V)) s : hstate V :=
  MkState (ht s) m (dtor_log s).

(** [p->field = ...]: undefined unless [p] is allocated. *)
Definition write p (f : Bucket V -> Bucket V) s : option (hstate V) :=
  b ← heap s !! p; Some (with_heap (<[p := f b]> (heap s)) s).
Definition pefree p s : option (hstate V) :=
  _ ← heap s !! p; Some (with_heap (delete p (heap s)) s).
(** [if (ht->pDestructor) ht->pDestructor(data)]; destructors do not call
    back into the table they are run for. *)
Definition call_dtor (v : V) s : hstate V :=
  if pDestructor (ht s) then MkState (ht s) (heap s) (dtor_log s ++ [v]) else s.

(** [h & ht->nTableMask], reading and writing [ht->arBuckets[nIndex]]. *)
Definition slot (hv : Z) s : nat := Z.to_nat (Z.land hv (nTableMask (ht s))).
Definition get_slot (i : nat) s : option (option addr) := arBuckets (ht s) !! i.
Definition put_slot (i : nat) (x : option addr) s : option (hstate V) :=
  _ ← arBuckets (ht s) !! i;
  Some (on_ht (set_arBuckets (<[i := x]> (arBuckets (ht s)))) s).

Definition CONNECT_TO_BUCKET_DLLIST p (list_head : option addr) s : option (hstate V) :=
  s ← write p (fun b => set_pLast None (set_pNext list_head b)) s;
  match list_head with
  | Some q => write q (set_pLast (Some p)) s
  | None => Some s
  end.

Definition CONNECT_TO_GLOBAL_DLLIST_EX p (last next : option addr) s : option (hstate V) :=
  s ← write p (fun b => set_pListNext next (set_pListLast last b)) s;
  s ← match last with
      | Some q => write q (set_pListNext (Some p)) s
      | None => Some (on_ht (set_pListHead (Some p)) s)
      end;
  match next with
  | Some q => write q (set_pListLast (Some p)) s
  | None => Some (on_ht (set_pListTail (Some p)) s)
  end.

Definition CONNECT_TO_GLOBAL_DLLIST p s : option (hstate V) :=
  s ← CONNECT_TO_GLOBAL_DLLIST_EX p (pListTail (ht s)) None s;
  Some (match pInternalPointer (ht s) with
        | None => on_ht (set_pInternalPointer (Some p)) s
        | Some _ => s
        end).

(** Storing [nDataSize] bytes: inline when they are one pointer wide. *)
Definition UPDATE_DATA (v : V) (nDataSize : Z) (d : data_loc V) : data_loc V :=
  if nDataSize =? sizeof_voidp then DInline v
  else match d with
       | DInline _ => DBlock v (* pemalloc_rel, pDataPtr = NULL *)
       | DBlock _ => DBlock v  (* perealloc_rel *)
       end.
Definition INIT_DATA (v : V) (nDataSize : Z) : data_loc V :=
  if nDataSize =? sizeof_voidp then DInline v else DBlock v.

Definition CHECK_INIT s : hstate V :=
  if nTableMask (ht s) =? 0 then
    on_ht (fun t => set_nTableMask (nTableSize t - 1)
               (set_arBuckets (replicate (Z.to_nat (nTableSize t)) None) t)) s
  else s.

Definition i_zend_hash_bucket_delete p s : option (hstate V) :=
  b ← heap s !! p;
  s ← match pLast b with
      | Some q => write q (set_pNext (pNext b)) s
      | None => put_slot (slot (h b) s) (pNext b) s
      end;
  s ← match pNext b with
      | Some q => write q (set_pLast (pLast b)) s
      | None => Some s
      end;
  s ← match pListLast b with
      | Some q => write q (set_pListNext (pListNext b)) s
      | None => Some (on_ht (set_pListHead (pListNext b)) s)
      end;
  s ← match pListNext b with
      | Some q => write q (set_pListLast (pListLast b)) s
      | None => Some (on_ht (set_pListTail (pListLast b)) s)
      end;
  let s := if decide (pInternalPointer (ht s) = Some p)
           then on_ht (set_pInternalPointer (pListNext b)) s else s in
  let s := on_ht (fun t => set_nNumOfElements (to_uint (nNumOfElements t - 1)) t) s in
  let s := call_dtor (data_of (pData b)) s in
  pefree p s.

Definition zend_hash_bucket_delete p s : option (hstate V) :=
  i_zend_hash_bucket_delete p s.

(** [while ((1U << i) < nSize) i++] *)
Fixpoint init_shift (fuel : nat) (i nSize : Z) : Z :=
  match fuel with
  | O => i
  | S fuel => if to_uint (Z.shiftl 1 i) <? nSize then init_shift fuel (i + 1) nSize else i
  end.

Definition _zend_hash_init (nSize : Z) (dtor pers : bool) : hstate V :=
  let size := if 0x80000000 <=? nSize then 0x80000000
              else to_uint (Z.shiftl 1 (init_shift 32 3 nSize)) in
  MkState
    {| nTableSize := size; nTableMask := 0; nNumOfElements := 0;
       nNextFreeElement := 0; pInternalPointer := None; pListHead := None;
       pListTail := None; arBuckets := [None]; pDestructor := dtor;
       persistent := pers; nApplyCount := 0; bApplyProtection := true |}
    ∅ [].

Definition _zend_hash_init_ex (nSize : Z) (dtor pers prot : bool) : hstate V :=
  on_ht (set_bApplyProtection prot) (_zend_hash_init nSize dtor pers).

Definition zend_hash_set_apply_protection (prot : bool) s : hstate V :=
  on_ht (set_bApplyProtection prot) s.

(** Walking a collision chain until a bucket passes the test. *)
Fixpoint chain_find (fuel : nat) (m : gmap addr (Bucket V))
    (test : addr -> Bucket V -> bool) (p : option addr) : option (option addr) :=
  match p with
  | None => Some None
  | Some a =>
      match fuel with
      | O => None
      | S fuel =>
          b ← m !! a;
          if test a b then Some (Some a) else chain_find fuel m test (pNext b)
      end
  end.

(** [while (p != NULL) { if (test) ...; p = p->pNext; }] from
    [ht->arBuckets[h & ht->nTableMask]]. *)
Definition search_chain (hv : Z) (test : addr -> Bucket V -> bool) s : option (option addr) :=
  p ← get_slot (slot hv s) s; chain_find (size (heap s)) (heap s) test p.

(** [p->arKey == arKey || (p->h == h && p->nKeyLength == nKeyLength &&
    !memcmp(p->arKey, arKey, nKeyLength))] *)
Definition key_match (k : char_ptr) (len hv : Z) (_ : addr) (b : Bucket V) : bool :=
  bool_decide (cp_addr (arKey b) = cp_addr k)
  || ((h b =? hv) && (nKeyLength b =? len)
      && (memcmp (Z.to_nat len) (cp_bytes (arKey b)) (cp_bytes k) =? 0)).

(** [(p->nKeyLength == 0) && (p->h == h)] *)
Definition index_match (hv : Z) (_ : addr) (b : Bucket V) : bool :=
  (nKeyLength b =? 0) && (h b =? hv).

(** [for (p = ht->pListHead; p != NULL; p = p->pListNext)] re-threading the
    collision chains; [f] renumbers a bucket, [acc] is [offset]. *)
Fixpoint rehash_loop (fuel : nat) (f : Z -> Bucket V -> Z * Bucket V) (acc : Z)
    (p : option addr) s : option (hstate V * Z) :=
  match p with
  | None => Some (s, acc)
  | Some a =>
      match fuel with
      | O => None
      | S fuel =>
          b ← heap s !! a;
          let '(acc, b) := f acc b in
          s ← write a (fun _ => b) s;
          let nIndex := slot (h b) s in
          hd ← get_slot nIndex s;
          s ← CONNECT_TO_BUCKET_DLLIST a hd s;
          s ← put_slot nIndex (Some a) s;
          rehash_loop fuel f acc (pListNext b) s
      end
  end.

Definition clear_slots s : hstate V :=
  on_ht (fun t => set_arBuckets (replicate (Z.to_nat (nTableSize t)) None) t) s.

Definition zend_hash_rehash s : option (hstate V) :=
  if nNumOfElements (ht s) =? 0 then Some s
  else
    let s := clear_slots s in
    '(s, _) ← rehash_loop (size (heap s)) (fun acc b => (acc, b)) 0 (pListHead (ht s)) s;
    Some s.

(** One step of [zend_hash_reindex] before the chain is rebuilt. *)
Definition reindex_bucket (only_integer_keys : bool) (offset : Z) (b : Bucket V) : Z * Bucket V :=
  if negb only_integer_keys || (nKeyLength b =? 0)
  then (to_ulong (offset + 1), set_nKeyLength 0 (set_h offset b))
  else (offset, b).

Definition zend_hash_reindex (only_integer_keys : bool) s : option (hstate V) :=
  if nNumOfElements (ht s) =? 0 then Some (on_ht (set_nNextFreeElement 0) s)
  else
    let s := clear_slots s in
    '(s, offset) ← rehash_loop (size (heap s)) (reindex_bucket only_integer_keys) 0
                     (pListHead (ht s)) s;
    Some (on_ht (set_nNextFreeElement offset) s).

(** The slots [perealloc] adds are overwritten by the [memset] of
    [zend_hash_rehash], which runs because the table is not empty. *)
Definition zend_hash_do_resize s : option (hstate V) :=
  let doubled := to_uint (Z.shiftl (nTableSize (ht s)) 1) in
  if 0 <? doubled then
    zend_hash_rehash
      (on_ht (fun t => set_nTableMask (doubled - 1) (set_nTableSize doubled
           (set_arBuckets (resize (Z.to_nat doubled) None (arBuckets t)) t))) s)
  else Some s.

Definition ZEND_HASH_IF_FULL_DO_RESIZE s : option (hstate V) :=
  if nTableSize (ht s) <? nNumOfElements (ht s) then zend_hash_do_resize s else Some s.

(** The bucket allocated for a string key: an interned key is shared, any
    other is copied behind the bucket. *)
Definition new_str_bucket (k : char_ptr) (len hv : Z) (v : V) (nDataSize : Z)
    (p : addr) (b : Bucket V) : Bucket V :=
  let key := if IS_INTERNED k then k
             else CharPtr (KBucket p) (take (Z.to_nat len) (cp_bytes k)) in
  set_h hv (set_pData (INIT_DATA v nDataSize) (set_nKeyLength len (set_arKey key b))).

(** Storing into a bucket that already has the key. *)
Definition update_bucket p (v : V) (nDataSize : Z) s : option (hstate V) :=
  b ← heap s !! p;
  let s := call_dtor (data_of (pData b)) s in
  write p (set_pData (UPDATE_DATA v nDataSize (pData b))) s.

Definition _zend_hash_add_or_update (k : char_ptr) (len : Z) (v : V) (nDataSize flag : Z) s :
    option (hstate V * zend_result * option addr) :=
  let s := CHECK_INIT s in
  let hv := zend_inline_hash_func (cp_bytes k) len in
  let nIndex := slot hv s in
  r ← search_chain hv (key_match k len hv) s;
  match r with
  | Some p =>
      if has_flag flag HASH_ADD then Some (s, FAILURE, None)
      else s ← update_bucket p v nDataSize s; Some (s, SUCCESS, Some p)
  | None =>
      let '(p, junk) := pemalloc (heap s) in
      let s := with_heap (<[p := new_str_bucket k len hv v nDataSize p junk]> (heap s)) s in
      hd ← get_slot nIndex s;
      s ← CONNECT_TO_BUCKET_DLLIST p hd s;
      s ← CONNECT_TO_GLOBAL_DLLIST p s;
      s ← put_slot nIndex (Some p) s;
      let s := on_ht (fun t => set_nNumOfElements (to_uint (nNumOfElements t + 1)) t) s in
      s ← ZEND_HASH_IF_FULL_DO_RESIZE s;
      Some (s, SUCCESS, Some p)
  end.

Definition _zend_hash_quick_add_or_update (k : char_ptr) (len hv : Z) (v : V)
    (nDataSize flag : Z) s : option (hstate V * zend_result * option addr) :=
  let s := CHECK_INIT s in
  let nIndex := slot hv s in
  r ← search_chain hv (key_match k len hv) s;
  match r with
  | Some p =>
      if has_flag flag HASH_ADD then Some (s, FAILURE, None)
      else s ← update_bucket p v nDataSize s; Some (s, SUCCESS, Some p)
  | None =>
      let '(p, junk) := pemalloc (heap s) in
      let s := with_heap (<[p := new_str_bucket k len hv v nDataSize p junk]> (heap s)) s in
      hd ← get_slot nIndex s;
      s ← CONNECT_TO_BUCKET_DLLIST p hd s;
      s ← put_slot nIndex (Some p) s;
      s ← CONNECT_TO_GLOBAL_DLLIST p s;
      let s := on_ht (fun t => set_nNumOfElements (to_uint (nNumOfElements t + 1)) t) s in
      s ← ZEND_HASH_IF_FULL_DO_RESIZE s;
      Some (s, SUCCESS, Some p)
  end.

Definition zend_hash_update (k : char_ptr) (len : Z) (v : V) (nDataSize : Z) s :=
  _zend_hash_add_or_update k len v nDataSize HASH_UPDATE s.
Definition zend_hash_add (k : char_ptr) (len : Z) (v : V) (nDataSize : Z) s :=
  _zend_hash_add_or_update k len v nDataSize HASH_ADD s.
Definition zend_hash_quick_update (k : char_ptr) (len hv : Z) (v : V) (nDataSize : Z) s :=
  _zend_hash_quick_add_or_update k len hv v nDataSize HASH_UPDATE s.
(** [dummy] is the pointer value [(void * ) 1]. *)
Definition zend_hash_add_empty_element (dummy : V) (k : char_ptr) (len : Z) s :=
  zend_hash_add k len dummy sizeof_voidp s.

(** The bucket allocated for a numeric key. *)
Definition new_index_bucket (hv : Z) (v : V) (nDataSize : Z) (b : Bucket V) : Bucket V :=
  set_pData (INIT_DATA v nDataSize) (set_h hv (set_nKeyLength 0 (set_arKey null_ptr b))).

(** [if ((long)h >= (long)ht->nNextFreeElement)
       ht->nNextFreeElement = h < LONG_MAX ? h + 1 : LONG_MAX;] *)
Definition bump_next_free (hv : Z) (t : HashTable) : HashTable :=
  if to_long (nNextFreeElement t) <=? to_long hv
  then set_nNextFreeElement (if hv <? LONG_MAX then hv + 1 else LONG_MAX) t
  else t.

Definition _zend_hash_index_update_or_next_insert (hv : Z) (v : V) (nDataSize flag : Z) s :
    option (hstate V * zend_result * option addr) :=
  let s := CHECK_INIT s in
  let hv := if has_flag flag HASH_NEXT_INSERT then nNextFreeElement (ht s) else hv in
  let nIndex := slot hv s in
  r ← search_chain hv (index_match hv) s;
  match r with
  | Some p =>
      if has_flag flag HASH_NEXT_INSERT || has_flag flag HASH_ADD
      then Some (s, FAILURE, None)
      else s ← update_bucket p v nDataSize s; Some (s, SUCCESS, Some p)
  | None =>
      let '(p, junk) := pemalloc (heap s) in
      let s := with_heap (<[p := new_index_bucket hv v nDataSize junk]> (heap s)) s in
      hd ← get_slot nIndex s;
      s ← CONNECT_TO_BUCKET_DLLIST p hd s;
      s ← put_slot nIndex (Some p) s;
      s ← CONNECT_TO_GLOBAL_DLLIST p s;
      let s := on_ht (bump_next_free hv) s in
      let s := on_ht (fun t => set_nNumOfElements (to_uint (nNumOfElements t + 1)) t) s in
      s ← ZEND_HASH_IF_FULL_DO_RESIZE s;
      Some (s, SUCCESS, Some p)
  end.

Definition zend_hash_index_update (hv : Z) (v : V) (nDataSize : Z) s :=
  _zend_hash_index_update_or_next_insert hv v nDataSize HASH_UPDATE s.
Definition zend_hash_next_index_insert (v : V) (nDataSize : Z) s :=
  _zend_hash_index_update_or_next_insert 0 v nDataSize HASH_NEXT_INSERT s.

Definition zend_hash_del_key_or_index (k : char_ptr) (len hv : Z) (flag : del_flag) s :
    option (hstate V * zend_result) :=
  let hv := match flag with
            | HASH_DEL_KEY => zend_inline_hash_func (cp_bytes k) len
            | _ => hv
            end in
  r ← search_chain hv (fun _ b =>
        (h b =? hv) && (nKeyLength b =? len)
        && ((nKeyLength b =? 0)
            || (memcmp (Z.to_nat len) (cp_bytes (arKey b)) (cp_bytes k) =? 0))) s;
  match r with
  | Some p => s ← i_zend_hash_bucket_delete p s; Some (s, SUCCESS)
  | None => Some (s, FAILURE)
  end.

Definition zend_hash_del (k : char_ptr) (len : Z) s :=
  zend_hash_del_key_or_index k len 0 HASH_DEL_KEY s.
Definition zend_hash_quick_del (k : char_ptr) (len hv : Z) s :=
  zend_hash_del_key_or_index k len hv HASH_DEL_KEY_QUICK s.
Definition zend_hash_index_del (hv : Z) s :=
  zend_hash_del_key_or_index null_ptr 0 hv HASH_DEL_INDEX s.

(** [while (p != NULL) { q = p; p = p->pListNext; dtor(q->pData); pefree(q); }] *)
Fixpoint free_list (fuel : nat) (p : option addr) s : option (hstate V) :=
  match p with
  | None => Some s
  | Some q =>
      match fuel with
      | O => None
      | S fuel =>
          b ← heap s !! q;
          s ← pefree q (call_dtor (data_of (pData b)) s);
          free_list fuel (pListNext b) s
      end
  end.

(** [if (ht->nTableMask) pefree(ht->arBuckets)] *)
Definition free_slots s : hstate V :=
  if nTableMask (ht s) =? 0 then s else on_ht (set_arBuckets []) s.

Definition zend_hash_destroy s : option (hstate V) :=
  s ← free_list (size (heap s)) (pListHead (ht s)) s;
  Some (free_slots s).

Definition zend_hash_clean s : option (hstate V) :=
  let p := pListHead (ht s) in
  let s := if nTableMask (ht s) =? 0 then s else clear_slots s in
  let s := on_ht (fun t =>
    set_pInternalPointer None (set_nNextFreeElement 0 (set_nNumOfElements 0
      (set_pListTail None (set_pListHead None t))))) s in
  free_list (size (heap s)) p s.

Fixpoint graceful_loop (fuel : nat) (pick : HashTable -> option addr) s : option (hstate V) :=
  match pick (ht s) with
  | None => Some s
  | Some p =>
      match fuel with
      | O => None
      | S fuel => s ← zend_hash_bucket_delete p s; graceful_loop fuel pick s
      end
  end.

Definition zend_hash_graceful_destroy s : option (hstate V) :=
  s ← graceful_loop (size (heap s)) pListHead s; Some (free_slots s).
Definition zend_hash_graceful_reverse_destroy s : option (hstate V) :=
  s ← graceful_loop (size (heap s)) pListTail s; Some (free_slots s).

(** ** Lookup *)

(** [Some p] is [SUCCESS] with [*pData = p->pData], [None] is [FAILURE]. *)
Definition zend_hash_find (k : char_ptr) (len : Z) s : option (option addr) :=
  let hv := zend_inline_hash_func (cp_bytes k) len in
  search_chain hv (key_match k len hv) s.
Definition zend_hash_quick_find (k : char_ptr) (len hv : Z) s : option (option addr) :=
  search_chain hv (key_match k len hv) s.
Definition zend_hash_exists (k : char_ptr) (len : Z) s : option bool :=
  let hv := zend_inline_hash_func (cp_bytes k) len in
  r ← search_chain hv (key_match k len hv) s;
  Some (if r is Some _ then true else false).
Definition zend_hash_quick_exists (k : char_ptr) (len hv : Z) s : option bool :=
  r ← search_chain hv (key_match k len hv) s;
  Some (if r is Some _ then true else false).
Definition zend_hash_index_find (hv : Z) s : option (option addr) :=
  search_chain hv (index_match hv) s.
Definition zend_hash_index_exists (hv : Z) s : option bool :=
  r ← search_chain hv (index_match hv) s;
  Some (if r is Some _ then true else false).

Definition zend_hash_num_elements s : Z := to_int (nNumOfElements (ht s)).
Definition zend_hash_next_free_element s : Z := nNextFreeElement (ht s).

(** ** Traversal.  [pos] is [None] for the table's internal pointer and
    [Some c] for an external position holding [c]. *)
Definition zend_hash_internal_pointer_reset_ex (pos : option (option addr)) s :
    hstate V * option (option addr) :=
  match pos with
  | Some _ => (s, Some (pListHead (ht s)))
  | None => (on_ht (fun t => set_pInternalPointer (pListHead t) t) s, None)
  end.
Definition zend_hash_internal_pointer_end_ex (pos : option (option addr)) s :
    hstate V * option (option addr) :=
  match pos with
  | Some _ => (s, Some (pListTail (ht s)))
  | None => (on_ht (fun t => set_pInternalPointer (pListTail t) t) s, None)
  end.

Definition current_pos (pos : option (option addr)) s : option addr :=
  match pos with Some c => c | None => pInternalPointer (ht s) end.
Definition store_pos (pos : option (option addr)) (c : option addr) s :
    hstate V * option (option addr) :=
  match pos with
  | Some _ => (s, Some c)
  | None => (on_ht (set_pInternalPointer c) s, None)
  end.

Definition zend_hash_move_forward_ex (pos : option (option addr)) s :
    option (hstate V * option (option addr) * zend_result) :=
  match current_pos pos s with
  | Some p => b ← heap s !! p;
              let '(s, pos) := store_pos pos (pListNext b) s in Some (s, pos, SUCCESS)
  | None => Some (s, pos, FAILURE)
  end.
Definition zend_hash_move_backwards_ex (pos : option (option addr)) s :
    option (hstate V * option (option addr) * zend_result) :=
  match current_pos pos s with
  | Some p => b ← heap s !! p;
              let '(s, pos) := store_pos pos (pListLast b) s in Some (s, pos, SUCCESS)
  | None => Some (s, pos, FAILURE)
  end.

(** [HASH_KEY_IS_STRING] with the string and its length, [HASH_KEY_IS_LONG]
    with the number, or [HASH_KEY_NON_EXISTENT].  [duplicate] copies the key
    without its terminating byte. *)
Inductive cur_key :=
| CurString (str_index : list Z) (str_length : Z)
| CurLong (num_index : Z)
| CurNone.

Definition zend_hash_get_current_key_ex (duplicate : bool) (pos : option (option addr)) s :
    option cur_key :=
  match current_pos pos s with
  | Some p =>
      b ← heap s !! p;
      Some (if nKeyLength b =? 0 then CurLong (h b)
            else CurString
                   (if duplicate
                    then take (Z.to_nat (nKeyLength b - 1)) (cp_bytes (arKey b))
                    else cp_bytes (arKey b))
                   (nKeyLength b))
  | None => Some CurNone
  end.
Definition zend_hash_get_current_key_type_ex (pos : option (option addr)) s : option Z :=
  match current_pos pos s with
  | Some p => b ← heap s !! p;
              Some (if nKeyLength b =? 0 then HASH_KEY_IS_LONG else HASH_KEY_IS_STRING)
  | None => Some HASH_KEY_NON_EXISTENT
  end.
(** [Some p] is [SUCCESS] with [*pData = p->pData]. *)
Definition zend_hash_get_current_data_ex (pos : option (option addr)) s :
    option (option addr) :=
  match current_pos pos s with
  | Some p => _ ← heap s !! p; Some (Some p)
  | None => Some None
  end.

(** [HashPointer]: a saved position. *)
Record HashPointer := MkHashPointer { hp_pos : option addr; hp_h : Z }.

Definition zend_hash_get_pointer s : option (HashPointer * bool) :=
  match pInternalPointer (ht s) with
  | Some p => b ← heap s !! p; Some (MkHashPointer (Some p) (h b), true)
  | None => Some (MkHashPointer None 0, false)
  end.

Definition zend_hash_set_pointer (ptr : HashPointer) s : option (hstate V * bool) :=
  match hp_pos ptr with
  | None => Some (on_ht (set_pInternalPointer None) s, true)
  | Some pos =>
      if decide (pInternalPointer (ht s) = Some pos) then Some (s, true)
      else
        r ← search_chain (hp_h ptr) (fun p _ => bool_decide (p = pos)) s;
        match r with
        | Some p => Some (on_ht (set_pInternalPointer (Some p)) s, true)
        | None => Some (s, false)
        end
  end.
End Ops.
