(* ===== verification/HashInv.v ===== *)
(** * HashInv: what a well-formed hash table is, and what it represents

    [wf] is the representation invariant of Zend/zend_hash.c.  The table
    represents an ordered map: its entries in insertion order, the position of
    the internal pointer and the next free numeric index ([ordmap]); [refines]
    relates the two. *)
From S2P Require Import Prelude DList HashDefs.

(** A key as PHP sees it: an integer, or a byte string with its final NUL. *)
Inductive hkey := KInt (i : Z) | KStr (s : list Z).
#[export] Instance hkey_eq_dec : EqDecision hkey.
Proof. solve_decision. Defined.

(** ** The abstract ordered map *)
Record ordmap (V : Type) := OrdMap {
  om_entries : list (hkey * V);
  om_cursor : option nat;
  om_next : Z
}.
Arguments OrdMap {V}. Arguments om_entries {V}.
Arguments om_cursor {V}. Arguments om_next {V}.

Section Inv.
Context `{Platform} {V : Type}.
Implicit Types (s : hstate V) (b : Bucket V) (m : gmap addr (Bucket V)).

(** Everything in a bucket but its links. *)
Definition core b := (h b, nKeyLength b, pData b, arKey b).

Definition bkey b : hkey :=
  if nKeyLength b =? 0 then KInt (h b)
  else KStr (take (Z.to_nat (nKeyLength b)) (cp_bytes (arKey b))).
Definition entry b : hkey * V := (bkey b, data_of (pData b)).
Definition view m (l : list addr) : list (hkey * V) :=
  omap (fun p => entry <$> m !! p) l.

(** Field ranges; the hash of a string key is the hash of its bytes. *)
Record bucket_ok b : Prop := {
  bk_h : 0 <= h b < 2 ^ LONG_BITS;
  bk_len : 0 <= nKeyLength b < 2 ^ 32;
  bk_key : nKeyLength b <> 0 ->
    nKeyLength b <= Z.of_nat (length (cp_bytes (arKey b)))
    /\ h b = zend_inline_hash_func (cp_bytes (arKey b)) (nKeyLength b)
}.

(** The global list. *)
Record glob_ok s (l : list addr) : Prop := {
  gl_nodup : NoDup l;
  gl_linked : linked (pListNext <$> heap s) (pListLast <$> heap s) l;
  gl_head : pListHead (ht s) = head l;
  gl_tail : pListTail (ht s) = last l
}.

(** The collision chains, [cs !! k] hanging off slot [k], of the buckets of
    [D]. *)
Record chains_ok s (D : list addr) (cs : list (list addr)) : Prop := {
  ch_len : length cs = length (arBuckets (ht s));
  ch_head k c : cs !! k = Some c -> arBuckets (ht s) !! k = Some (head c);
  ch_nodup k c : cs !! k = Some c -> NoDup c;
  ch_linked k c : cs !! k = Some c ->
    linked (pNext <$> heap s) (pLast <$> heap s) c;
  ch_mem k c p : cs !! k = Some c ->
    p ∈ c <-> p ∈ D /\ exists b, heap s !! p = Some b /\ slot (h b) s = k
}.

(** Sizes: a power of two of slots once initialised, one NULL slot before. *)
Record sizes_ok s : Prop := {
  sz_size : exists j, 3 <= j <= 31 /\ nTableSize (ht s) = 2 ^ j;
  sz_slots : Z.of_nat (length (arBuckets (ht s))) = nTableMask (ht s) + 1;
  sz_mask : nTableMask (ht s) = 0 \/ nTableMask (ht s) = nTableSize (ht s) - 1
}.

Record wf s (l : list addr) (cs : list (list addr)) : Prop := {
  wf_glob : glob_ok s l;
  wf_dom p : is_Some (heap s !! p) <-> p ∈ l;
  wf_chains : chains_ok s l cs;
  wf_sizes : sizes_ok s;
  wf_init : nTableMask (ht s) = 0 -> l = [];
  wf_num : nNumOfElements (ht s) = Z.of_nat (length l);
  wf_small : Z.of_nat (length l) < 2 ^ 32;
  wf_ok p b : heap s !! p = Some b -> bucket_ok b;
  wf_keys p q b b' : heap s !! p = Some b -> heap s !! q = Some b' ->
    bkey b = bkey b' -> p = q;
  wf_next_range : 0 <= nNextFreeElement (ht s) <= LONG_MAX;
  wf_next p b : heap s !! p = Some b -> nKeyLength b = 0 ->
    to_long (h b) < nNextFreeElement (ht s) \/ nNextFreeElement (ht s) = LONG_MAX;
  wf_cur p : pInternalPointer (ht s) = Some p -> p ∈ l
}.

(** [s] implements the ordered map [a]. *)
Definition refines s (a : ordmap V) : Prop :=
  exists l cs, wf s l cs
    /\ view (heap s) l = om_entries a
    /\ pInternalPointer (ht s) = om_cursor a ≫= (fun i => l !! i)
    /\ (forall i, om_cursor a = Some i -> (i < length l)%nat)
    /\ nNextFreeElement (ht s) = om_next a.

(** A caller's key pointer may be compared by address only if a bucket that
    holds the same pointer holds the same key. *)
Definition ptr_coherent (k : char_ptr) (len : Z) s : Prop :=
  forall p b, heap s !! p = Some b -> cp_addr (arKey b) = cp_addr k ->
    bkey b = KStr (take (Z.to_nat len) (cp_bytes k)).

(** The argument of a string-keyed operation. *)
Record key_arg_ok (k : char_ptr) (len : Z) s : Prop := {
  ka_len : 0 < len < 2 ^ 32;
  ka_readable : len <= Z.of_nat (length (cp_bytes k));
  ka_coherent : ptr_coherent k len s
}.
End Inv.

#[global] Arguments view : simpl never.

(** ** The operations of the ordered map *)
Section Spec.
Context `{Platform} {V : Type}.
Implicit Types (a : ordmap V) (k : hkey) (v : V).

Definition find_idx k (l : list (hkey * V)) : option nat :=
  fst <$> list_find (fun e => e.1 = k) l.
Definition om_lookup k a : option V :=
  snd ∘ snd <$> list_find (fun e => e.1 = k) (om_entries a).

(** Append an entry; an unset cursor moves to it. *)
Definition om_append k v (nf : Z) a : ordmap V :=
  {| om_entries := om_entries a ++ [(k, v)];
     om_cursor := match om_cursor a with
                  | None => Some (length (om_entries a))
                  | c => c
                  end;
     om_next := nf |}.
Definition om_replace (i : nat) k v a : ordmap V :=
  {| om_entries := <[i := (k, v)]> (om_entries a);
     om_cursor := om_cursor a; om_next := om_next a |}.
(** Remove the entry at position [i]; a cursor on it moves to its successor. *)
Definition om_remove (i : nat) a : ordmap V :=
  {| om_entries := delete i (om_entries a);
     om_cursor :=
       match om_cursor a with
       | Some c =>
           if (c <? i)%nat then Some c
           else if (i <? c)%nat then Some (pred c)
           else if (S i <? length (om_entries a))%nat then Some i else None
       | None => None
       end;
     om_next := om_next a |}.

Definition next_after (i : Z) (nf : Z) : Z :=
  if nf <=? to_long i then (if i <? LONG_MAX then i + 1 else LONG_MAX) else nf.

(** Insert or overwrite. *)
Definition om_update k v a : ordmap V :=
  match find_idx k (om_entries a) with
  | Some i => om_replace i k v a
  | None => om_append k v (match k with
                           | KInt i => next_after i (om_next a)
                           | KStr _ => om_next a
                           end) a
  end.
Definition om_delete k a : ordmap V :=
  match find_idx k (om_entries a) with
  | Some i => om_remove i a
  | None => a
  end.
End Spec.
