(* ===== verification/HashLemmas.v ===== *)
(** * HashLemmas: how the pointer surgery of zend_hash.c acts on the invariant

    Each macro and loop of the source is described by its effect on the
    projections of the heap: [core] (key, hash and data) and the four link
    fields. *)
From S2P Require Import Prelude DList HashDefs HashInv.

Section Writes.
Context `{Platform} {V : Type}.
Implicit Types (s t : hstate V) (b : Bucket V) (p q : addr).

Lemma write_total s p f : is_Some (heap s !! p) -> exists t, write p f s = Some t.
Proof. intros [b Hb]. unfold write. rewrite Hb. eexists; reflexivity. Qed.

Lemma write_inv s p f t :
  write p f s = Some t ->
  exists b, heap s !! p = Some b /\ t = with_heap (<[p := f b]> (heap s)) s.
Proof.
  unfold write. intros Hw. apply bind_Some in Hw as (b & Hb & Ht). by simplify_eq; eauto.
Qed.

(** A field the assignment does not touch. *)
Lemma write_keeps {X} (g : Bucket V -> X) s p f t :
  write p f s = Some t -> (forall b, g (f b) = g b) -> g <$> heap t = g <$> heap s.
Proof.
  intros (b & Hb & ->)%write_inv Hg. simpl. rewrite fmap_insert, Hg.
  apply insert_id. by rewrite lookup_fmap, Hb.
Qed.

(** The field it assigns. *)
Lemma write_sets {X} (g : Bucket V -> X) x s p f t :
  write p f s = Some t -> (forall b, g (f b) = x) ->
  g <$> heap t = <[p := x]> (g <$> heap s).
Proof. intros (b & Hb & ->)%write_inv Hg. simpl. by rewrite fmap_insert, Hg. Qed.

Lemma write_ht s p f t : write p f s = Some t -> ht t = ht s /\ dtor_log t = dtor_log s.
Proof. by intros (b & _ & ->)%write_inv. Qed.

Lemma write_dom s p f t q :
  write p f s = Some t -> is_Some (heap t !! q) <-> is_Some (heap s !! q).
Proof.
  intros (b & Hb & ->)%write_inv. simpl. rewrite lookup_insert.
  case_decide; subst; [|done]. rewrite Hb. split; eauto.
Qed.

Lemma fmap_eq_dom {X} (g : Bucket V -> X) (m m' : gmap addr (Bucket V)) p :
  g <$> m' = g <$> m -> is_Some (m' !! p) <-> is_Some (m !! p).
Proof.
  intros E. apply (f_equal (lookup p)) in E. rewrite !lookup_fmap in E.
  destruct (m' !! p), (m !! p); simplify_eq/=; split; eauto using is_Some_None.
  all: intros []; done.
Qed.
End Writes.

(** The effect of assignments on every projection of the heap. *)
Ltac write_effects H :=
  let t := lazymatch type of H with write _ _ _ = Some ?t => t end in
  pose proof (write_ht _ _ _ _ H) as [? ?];
  first [pose proof (write_keeps core _ _ _ _ H (fun b => eq_refl))
        | pose proof (write_sets core _ _ _ _ _ H (fun b => eq_refl))];
  first [pose proof (write_keeps pListNext _ _ _ _ H (fun b => eq_refl))
        | pose proof (write_sets pListNext _ _ _ _ _ H (fun b => eq_refl))];
  first [pose proof (write_keeps pListLast _ _ _ _ H (fun b => eq_refl))
        | pose proof (write_sets pListLast _ _ _ _ _ H (fun b => eq_refl))];
  first [pose proof (write_keeps pNext _ _ _ _ H (fun b => eq_refl))
        | pose proof (write_sets pNext _ _ _ _ _ H (fun b => eq_refl))];
  first [pose proof (write_keeps pLast _ _ _ _ H (fun b => eq_refl))
        | pose proof (write_sets pLast _ _ _ _ _ H (fun b => eq_refl))].

(** Execute the next assignment of the goal. *)
Ltac do_write :=
  lazymatch goal with
  | |- context [write ?p ?f ?s] =>
      let t := fresh "t" in let E := fresh "Ew" in
      destruct (write_total s p f) as [t E];
      [ | rewrite E; simpl; write_effects E ]
  end.

Section Surgery.
Context `{Platform} {V : Type}.
Implicit Types (s t : hstate V) (b : Bucket V) (p q : addr).

(** What an operation that only relinks leaves alone. *)
Record relinked s t : Prop := {
  rl_core : core <$> heap t = core <$> heap s;
  rl_log : dtor_log t = dtor_log s
}.

Lemma relinked_dom s t p : relinked s t -> is_Some (heap t !! p) <-> is_Some (heap s !! p).
Proof. intros [Hc _]. by apply (fmap_eq_dom core). Qed.

Lemma connect_bucket_effect s p hd :
  is_Some (heap s !! p) -> (forall q, hd = Some q -> is_Some (heap s !! q)) ->
  exists t, CONNECT_TO_BUCKET_DLLIST p hd s = Some t
    /\ relinked s t /\ ht t = ht s
    /\ pListNext <$> heap t = pListNext <$> heap s
    /\ pListLast <$> heap t = pListLast <$> heap s
    /\ pNext <$> heap t = <[p := hd]> (pNext <$> heap s)
    /\ pLast <$> heap t = opt_insert hd (Some p) (<[p := None]> (pLast <$> heap s)).
Proof.
  intros Hp Hhd. unfold CONNECT_TO_BUCKET_DLLIST. do_write; [done|].
  destruct hd as [q|].
  - do_write.
    { apply (write_dom _ _ _ _ q Ew). eauto. }
    eexists; split; [done|]. simpl.
    split; [split; congruence|]. repeat split; congruence.
  - eexists; split; [done|]. simpl.
    split; [split; congruence|]. repeat split; congruence.
Qed.

Lemma connect_global_effect s p last next :
  is_Some (heap s !! p) ->
  (forall q, last = Some q -> is_Some (heap s !! q)) ->
  (forall q, next = Some q -> is_Some (heap s !! q)) ->
  exists t, CONNECT_TO_GLOBAL_DLLIST_EX p last next s = Some t
    /\ relinked s t
    /\ ht t = (if next is Some _ then id else set_pListTail (Some p))
                ((if last is Some _ then id else set_pListHead (Some p)) (ht s))
    /\ pNext <$> heap t = pNext <$> heap s
    /\ pLast <$> heap t = pLast <$> heap s
    /\ pListNext <$> heap t = opt_insert last (Some p) (<[p := next]> (pListNext <$> heap s))
    /\ pListLast <$> heap t = opt_insert next (Some p) (<[p := last]> (pListLast <$> heap s)).
Proof.
  intros Hp Hl Hn. unfold CONNECT_TO_GLOBAL_DLLIST_EX. do_write; [done|].
  assert (Hdom : forall q, is_Some (heap t !! q) <-> is_Some (heap s !! q))
    by (intros q; eapply write_dom; eauto).
  destruct last as [q|]; simpl; [do_write; [by apply Hdom, Hl|]|].
  - assert (Hdom0 : forall q, is_Some (heap t0 !! q) <-> is_Some (heap s !! q)).
    { intros r. rewrite (write_dom _ _ _ _ r Ew0). apply Hdom. }
    destruct next as [r|]; simpl; [do_write; [by apply Hdom0, Hn|]|].
    all: eexists; split; [done|]; simpl.
    all: split; [split; simpl; congruence|]; repeat split; simpl; congruence.
  - destruct next as [r|]; simpl; [do_write; [by apply Hdom, Hn|]|].
    all: eexists; split; [done|]; simpl in *.
    all: split; [split; simpl; congruence|]; repeat split; simpl; congruence.
Qed.
End Surgery.

(** ** Searching a chain *)
Section Search.
Context `{Platform} {V : Type}.
Implicit Types (s : hstate V) (b : Bucket V) (m : gmap addr (Bucket V)) (c l : list addr).

Lemma memcmp_eq n a1 a2 :
  (n <= length a1)%nat -> (n <= length a2)%nat ->
  memcmp n a1 a2 = 0 <-> take n a1 = take n a2.
Proof.
  revert a1 a2. induction n as [|n IH]; intros [|x a1] [|y a2] H1 H2;
    simpl in *; try lia; try done.
  case_goal; reflect_bools; [split; [done|intros [= ->]; lia]|].
  case_goal; reflect_bools; [split; [done|intros [= ->]; lia]|].
  assert (x = y) as -> by lia. rewrite IH by lia. split; congruence.
Qed.

Fixpoint first_match m (test : addr -> Bucket V -> bool) c : option addr :=
  match c with
  | [] => None
  | p :: c =>
      match m !! p with
      | Some b => if test p b then Some p else first_match m test c
      | None => None
      end
  end.

Lemma chain_find_linked m P test c1 c2 fuel :
  linked (pNext <$> m) P (c1 ++ c2) -> (length c2 <= fuel)%nat ->
  chain_find fuel m test (head c2) = Some (first_match m test c2).
Proof.
  revert c1 fuel. induction c2 as [|p c2 IH]; intros c1 fuel Hl Hf; simpl in *;
    [by destruct fuel|].
  destruct fuel as [|fuel]; simpl; [lia|].
  pose proof (linked_middle _ _ _ _ _ Hl) as [HN _].
  rewrite lookup_fmap in HN. destruct (m !! p) as [b|]; simplify_eq/=.
  case_goal; [done|]. rewrite HN. apply (IH (c1 ++ [p])); [by rewrite <- app_assoc|lia].
Qed.

Lemma NoDup_length_heap {X} (m : gmap addr X) l :
  NoDup l -> (forall p, p ∈ l -> is_Some (m !! p)) -> (length l <= size m)%nat.
Proof.
  intros Hnd Hin. rewrite <- (size_list_to_set (C := gset addr)) by done.
  rewrite <- (size_dom (D := gset addr)). apply subseteq_size. intros p.
  rewrite elem_of_list_to_set, elem_of_dom. auto.
Qed.

Lemma first_match_Some m test c p :
  first_match m test c = Some p ->
  p ∈ c /\ exists b, m !! p = Some b /\ test p b = true.
Proof.
  induction c as [|q c IH]; simpl; [done|].
  destruct (m !! q) as [b|] eqn:Hb; [|done]. case_goal.
  - intros [= ->]. split; [by left|eauto].
  - intros [??]%IH. split; [by right|done].
Qed.

Lemma first_match_None m test c p b :
  first_match m test c = None -> (forall q, q ∈ c -> is_Some (m !! q)) ->
  p ∈ c -> m !! p = Some b -> test p b = false.
Proof.
  induction c as [|q c IH]; simpl; [set_solver|]. intros Hf Ha [->|Hp]%elem_of_cons Hb.
  - rewrite Hb in Hf. by destruct (test q b).
  - destruct (Ha q) as [b' Hb']; [set_solver|]. rewrite Hb' in Hf.
    destruct (test q b'); [done|]. apply IH; try done. set_solver.
Qed.

Lemma slot_in_range s hv :
  sizes_ok s -> 0 <= hv -> (slot hv s < length (arBuckets (ht s)))%nat.
Proof.
  intros [(j & Hj & Hsz) Hlen Hm] Hhv. unfold slot.
  apply Nat2Z.inj_lt. rewrite Hlen.
  destruct Hm as [Hm|Hm]; rewrite Hm.
  - rewrite Z.land_0_r. lia.
  - rewrite Hsz, land_pow2_mask by lia.
    pose proof (Z.mod_pos_bound hv (2 ^ j) ltac:(lia)). lia.
Qed.

Lemma chain_allocated s l cs k c p :
  chains_ok s l cs -> cs !! k = Some c -> p ∈ c -> is_Some (heap s !! p).
Proof.
  intros Hc Hk Hp. apply (ch_mem _ _ _ Hc k c p Hk) in Hp as (_ & b & -> & _). eauto.
Qed.

Lemma search_chain_spec s l cs test hv :
  chains_ok s l cs -> sizes_ok s -> 0 <= hv ->
  exists c, cs !! slot hv s = Some c
    /\ search_chain hv test s = Some (first_match (heap s) test c).
Proof.
  intros Hc Hs Hhv. pose proof (slot_in_range s hv Hs Hhv) as Hr.
  rewrite <- (ch_len _ _ _ Hc) in Hr.
  destruct (lookup_lt_is_Some_2 cs (slot hv s) Hr) as [c Hk].
  exists c. split; [done|]. unfold search_chain, get_slot.
  rewrite (ch_head _ _ _ Hc _ _ Hk). simpl.
  apply (chain_find_linked _ (pLast <$> heap s) _ []); [by eapply ch_linked|].
  apply NoDup_length_heap; [by eapply ch_nodup|].
  intros p Hp. by eapply chain_allocated.
Qed.

(** Searching with a test that decides a key, in a chain every bucket with
    that key would be in. *)
Lemma search_key_spec s l cs test hv (k : hkey) :
  wf s l cs -> 0 <= hv ->
  (forall p b, heap s !! p = Some b -> test p b = bool_decide (bkey b = k)) ->
  (forall b, bucket_ok b -> bkey b = k -> h b = hv) ->
  exists r, search_chain hv test s = Some r /\
    match r with
    | Some p => exists b, heap s !! p = Some b /\ bkey b = k
    | None => forall p b, heap s !! p = Some b -> bkey b <> k
    end.
Proof.
  intros Hwf Hhv Htest Hh.
  destruct (search_chain_spec s l cs test hv) as (c & Hk & ->);
    [apply Hwf|apply Hwf|done|].
  eexists; split; [done|].
  destruct (first_match (heap s) test c) as [p|] eqn:Hf.
  - apply first_match_Some in Hf as (_ & b & Hb & Ht). exists b. split; [done|].
    rewrite (Htest _ _ Hb) in Ht. by reflect_bools.
  - intros p b Hb Hkey.
    assert (test p b = false) as Ht.
    { eapply first_match_None; [done| |..].
      - intros q Hq. eapply chain_allocated; [apply Hwf|done|done].
      - apply (ch_mem _ _ _ (wf_chains _ _ _ Hwf) _ _ p Hk). split.
        + apply (wf_dom _ _ _ Hwf). rewrite Hb. eauto.
        + exists b. split; [done|]. by rewrite (Hh b) by eauto using wf_ok.
      - done. }
    rewrite (Htest _ _ Hb) in Ht. by reflect_bools.
Qed.
End Search.

(** ** Reading through [core] *)
Section Core.
Context `{Platform} {V : Type}.
Implicit Types (s t : hstate V) (b : Bucket V) (m : gmap addr (Bucket V)).

Lemma core_lookup m m' p b' :
  core <$> m' = core <$> m -> m' !! p = Some b' ->
  exists b, m !! p = Some b /\ core b = core b'.
Proof.
  intros E Hb. apply (f_equal (lookup p)) in E. rewrite !lookup_fmap, Hb in E.
  destruct (m !! p) as [b|]; [|done]. exists b. split; [done|].
  simpl in E. congruence.
Qed.

Lemma core_h b b' : core b = core b' -> h b = h b'.
Proof. unfold core. congruence. Qed.
Lemma core_len b b' : core b = core b' -> nKeyLength b = nKeyLength b'.
Proof. unfold core. congruence. Qed.
Lemma core_key b b' : core b = core b' -> bkey b = bkey b'.
Proof. unfold core, bkey. intros [= -> -> _ ->]. done. Qed.
Lemma core_entry b b' : core b = core b' -> entry b = entry b'.
Proof. intros E. unfold entry. rewrite (core_key _ _ E). unfold core in E. congruence. Qed.
Lemma core_ok b b' : core b = core b' -> bucket_ok b -> bucket_ok b'.
Proof.
  unfold core. intros [= E1 E2 _ E3] [H1 H2 H3]. rewrite E1 in *. rewrite E2 in *.
  rewrite E3 in *. by split.
Qed.

Lemma view_core m m' l : core <$> m' = core <$> m -> view m' l = view m l.
Proof.
  intros E. unfold view. apply list_omap_ext, Forall2_same_length_lookup_2; [done|].
  intros i p q Hp Hq. assert (p = q) as -> by congruence.
  apply (f_equal (lookup q)) in E.
  rewrite !lookup_fmap in E.
  destruct (m !! q), (m' !! q); try done. simpl in *. f_equal. apply core_entry. congruence.
Qed.

Lemma core_slot_iff s t p k :
  core <$> heap t = core <$> heap s -> nTableMask (ht t) = nTableMask (ht s) ->
  (exists b, heap t !! p = Some b /\ slot (h b) t = k)
  <-> (exists b, heap s !! p = Some b /\ slot (h b) s = k).
Proof.
  intros E Em. unfold slot. rewrite Em. split; intros (b & Hb & Hs).
  - destruct (core_lookup _ _ _ _ E Hb) as (b' & Hb' & Hc).
    exists b'. by rewrite (core_h _ _ Hc).
  - symmetry in E. destruct (core_lookup _ _ _ _ E Hb) as (b' & Hb' & Hc).
    exists b'. by rewrite (core_h _ _ Hc).
Qed.
End Core.

(** ** Rebuilding chains *)
Section Chains.
Context `{Platform} {V : Type}.
Implicit Types (s t : hstate V) (b : Bucket V) (D c : list addr) (cs : list (list addr)).

(** Two different slots share no bucket. *)
Lemma chains_disjoint s D cs k k' c c' p :
  chains_ok s D cs -> cs !! k = Some c -> cs !! k' = Some c' ->
  p ∈ c -> p ∈ c' -> k = k'.
Proof.
  intros Hc Hk Hk' Hp Hp'.
  apply (ch_mem _ _ _ Hc _ _ _ Hk) in Hp as (_ & b & Hb & <-).
  apply (ch_mem _ _ _ Hc _ _ _ Hk') in Hp' as (_ & b' & Hb' & <-). congruence.
Qed.

(** A bucket [p] outside the chains becomes the head of its chain. *)
Lemma chains_push s t D cs p b c :
  chains_ok s D cs -> p ∉ D -> heap s !! p = Some b ->
  cs !! slot (h b) s = Some c ->
  core <$> heap t = core <$> heap s ->
  pNext <$> heap t = <[p := head c]> (pNext <$> heap s) ->
  pLast <$> heap t = opt_insert (head c) (Some p) (<[p := None]> (pLast <$> heap s)) ->
  arBuckets (ht t) = <[slot (h b) s := Some p]> (arBuckets (ht s)) ->
  nTableMask (ht t) = nTableMask (ht s) ->
  chains_ok t (D ++ [p]) (<[slot (h b) s := p :: c]> cs).
Proof.
  intros Hc Hp Hb Hk Ecore EN EP Ear Em.
  pose proof (lookup_lt_Some _ _ _ Hk) as Hlt.
  assert (Hpc : forall k' c', cs !! k' = Some c' -> p ∉ c').
  { intros k' c' Hk' Hin. by apply (ch_mem _ _ _ Hc _ _ _ Hk') in Hin as [? _]. }
  split.
  - rewrite Ear, !length_insert. apply Hc.
  - intros k' c' Hk'. rewrite Ear. apply list_lookup_insert_Some in Hk'
      as [(<- & <- & _)|[Hne Hk']].
    + rewrite list_lookup_insert_eq; [done|]. by rewrite <- (ch_len _ _ _ Hc).
    + rewrite list_lookup_insert_ne by done. by eapply ch_head.
  - intros k' c' Hk'. apply list_lookup_insert_Some in Hk' as [(<- & <- & _)|[Hne Hk']].
    + apply NoDup_cons. split; [by eapply Hpc|by eapply ch_nodup].
    + by eapply ch_nodup.
  - intros k' c' Hk'. rewrite EN, EP.
    apply list_lookup_insert_Some in Hk' as [(<- & <- & _)|[Hne Hk']].
    + apply linked_cons; [by eapply ch_nodup|by eapply Hpc|by eapply ch_linked].
    + eapply linked_frame; [by eapply (ch_linked _ _ _ Hc)|..]; intros q Hq.
      * rewrite lookup_insert_ne; [done|]. intros ->. by eapply Hpc.
      * rewrite lookup_opt_insert, decide_False.
        { rewrite lookup_insert_ne; [done|]. intros ->. by eapply Hpc. }
        intros Hh%head_Some_elem_of. apply Hne. by eapply chains_disjoint.
  - intros k' c' q Hk'. rewrite (core_slot_iff s t q k' Ecore Em).
    rewrite elem_of_app, list_elem_of_singleton.
    apply list_lookup_insert_Some in Hk' as [(<- & <- & _)|[Hne Hk']].
    + rewrite elem_of_cons, (ch_mem _ _ _ Hc _ _ q Hk). split.
      * intros [->|[? ?]]; [eauto|auto].
      * intros [[?| ->] ?]; auto.
    + rewrite (ch_mem _ _ _ Hc _ _ q Hk'). split; [intros [? ?]; auto|].
      intros [[?| ->] (b' & Hb' & Hs)]; [eauto|]. by simplify_eq.
Qed.

(** Writing a bucket that is in no chain. *)
Lemma chains_outside s D cs p b' :
  chains_ok s D cs -> p ∉ D ->
  chains_ok (with_heap (<[p := b']> (heap s)) s) D cs.
Proof.
  intros [H1 H2 H3 H4 H5] Hp. split; try done.
  - intros k c Hk. eapply linked_frame; [by apply (H4 k)|..]; intros q Hq;
      simpl; rewrite fmap_insert, lookup_insert_ne; try done; intros ->;
      by apply (H5 k c q Hk) in Hq as [? _].
  - intros k c q Hk. rewrite (H5 k c q Hk). simpl.
    split; intros [Hq Hex]; split; try done.
    + rewrite lookup_insert_ne; [done|]. by intros ->.
    + rewrite lookup_insert_ne in Hex; [done|]. by intros ->.
Qed.

(** Only the links of the chains, the slots and [core] matter. *)
Lemma chains_frame s t D cs :
  chains_ok s D cs -> core <$> heap t = core <$> heap s ->
  pNext <$> heap t = pNext <$> heap s -> pLast <$> heap t = pLast <$> heap s ->
  arBuckets (ht t) = arBuckets (ht s) -> nTableMask (ht t) = nTableMask (ht s) ->
  chains_ok t D cs.
Proof.
  intros [H1 H2 H3 H4 H5] E1 E2 E3 E4 E5. split; rewrite ?E2, ?E3, ?E4; try done.
  intros k c p Hk. rewrite (core_slot_iff s t p k E1 E5). by apply H5.
Qed.
End Chains.

(** ** [zend_hash_rehash] and [zend_hash_reindex] *)
Section Rehash.
Context `{Platform} {V : Type}.
Implicit Types (s t : hstate V) (b : Bucket V) (m : gmap addr (Bucket V)).
Implicit Types (D l c : list addr) (cs : list (list addr)).

(** What the renumbering step of the loop may do to a bucket. *)
Record renum_ok (f : Z -> Bucket V -> Z * Bucket V) : Prop := {
  rn_next acc b : pListNext (f acc b).2 = pListNext b;
  rn_last acc b : pListLast (f acc b).2 = pListLast b;
  rn_range acc b : 0 <= acc -> 0 <= h b -> 0 <= (f acc b).1 /\ 0 <= h (f acc b).2;
  rn_core acc b b' : core b = core b' ->
    (f acc b).1 = (f acc b').1 /\ core (f acc b).2 = core (f acc b').2
}.

(** The keys after the loop, without the links. *)
Fixpoint renumber (f : Z -> Bucket V -> Z * Bucket V) (acc : Z) m l :
    gmap addr (Bucket V) * Z :=
  match l with
  | [] => (m, acc)
  | p :: l =>
      match m !! p with
      | Some b => renumber f (f acc b).1 (<[p := (f acc b).2]> m) l
      | None => (m, acc)
      end
  end.

Lemma renumber_core f acc m m' l :
  renum_ok f -> core <$> m' = core <$> m ->
  core <$> (renumber f acc m' l).1 = core <$> (renumber f acc m l).1
  /\ (renumber f acc m' l).2 = (renumber f acc m l).2.
Proof.
  intros Hf. revert acc m m'. induction l as [|p l IH]; intros acc m m' E; simpl; [done|].
  pose proof (f_equal (lookup p) E) as Ep. rewrite !lookup_fmap in Ep.
  destruct (m !! p) as [b|], (m' !! p) as [b'|]; try done. simpl in Ep.
  assert (core b' = core b) as Ec by congruence.
  destruct (rn_core _ Hf acc _ _ Ec) as [-> Eb]. apply IH.
  by rewrite !fmap_insert, Eb, E.
Qed.

Lemma renumber_fresh f acc m l p b :
  p ∉ l -> m !! p = Some b -> (renumber f acc m l).1 !! p = Some b.
Proof.
  revert acc m. induction l as [|q l IH]; intros acc m Hp Hb; simpl; [done|].
  apply not_elem_of_cons in Hp as [Hne Hp].
  destruct (m !! q) as [b'|]; [|done]. apply IH; [done|]. by rewrite lookup_insert_ne.
Qed.

(** One iteration: give [p] its new key and push it on its chain. *)
Lemma rehash_step s D cs p b b' :
  chains_ok s D cs -> sizes_ok s -> p ∉ D -> heap s !! p = Some b ->
  pListNext b' = pListNext b -> pListLast b' = pListLast b -> 0 <= h b' ->
  exists hd s1 t cs', write p (fun _ => b') s = Some s1
    /\ get_slot (slot (h b') s1) s1 = Some hd
    /\ (s2 ← CONNECT_TO_BUCKET_DLLIST p hd s1; put_slot (slot (h b') s1) (Some p) s2) = Some t
    /\ chains_ok t (D ++ [p]) cs'
    /\ core <$> heap t = core <$> <[p := b']> (heap s)
    /\ pListNext <$> heap t = pListNext <$> heap s
    /\ pListLast <$> heap t = pListLast <$> heap s
    /\ dtor_log t = dtor_log s
    /\ exists ar, ht t = set_arBuckets ar (ht s) /\ length ar = length (arBuckets (ht s)).
Proof.
  intros Hc Hs Hp Hb En El Hh.
  destruct (write_total s p (fun _ => b')) as [s1 Hw]; [eauto|].
  pose proof (write_inv _ _ _ _ Hw) as (b0 & Hb0 & Es1). simplify_eq.
  set (s1 := with_heap (<[p:=b']> (heap s)) s) in *.
  pose proof (chains_outside s D cs p b' Hc Hp) as Hc1. fold s1 in Hc1.
  assert (Hsl : (slot (h b') s1 < length cs)%nat).
  { rewrite (ch_len _ _ _ Hc). by apply (slot_in_range s). }
  destruct (lookup_lt_is_Some_2 _ _ Hsl) as [c Hk].
  assert (Hb1 : heap s1 !! p = Some b') by (apply lookup_insert_eq).
  destruct (connect_bucket_effect s1 p (head c))
    as (t & Ht & [Ecore Elog] & Eht & ELn & ELl & EN & EP); [eauto|..].
  { intros q Hq%head_Some_elem_of. eapply chain_allocated; [exact Hc1|exact Hk|done]. }
  pose proof (ch_head _ _ _ Hc1 _ _ Hk) as Hslot.
  exists (head c), s1,
    (on_ht (set_arBuckets (<[slot (h b') s1 := Some p]> (arBuckets (ht s)))) t),
    (<[slot (h b') s1 := p :: c]> cs).
  split; [done|]. split; [done|]. split.
  { rewrite Ht. simpl. unfold put_slot. rewrite Eht, Hslot. done. }
  split; [by eapply (chains_push s1); simpl; rewrite ?Eht|].
  simpl in *. rewrite Ecore, ELn, ELl, !fmap_insert, En, El.
  split; [done|].
  split; [apply insert_id; by rewrite lookup_fmap, Hb|].
  split; [apply insert_id; by rewrite lookup_fmap, Hb|].
  split; [done|]. unfold on_ht. simpl. rewrite Eht.
  eexists; split; [done|]. apply length_insert.
Qed.

Lemma sizes_ok_set_arBuckets s t ar :
  sizes_ok s -> ht t = set_arBuckets ar (ht s) -> length ar = length (arBuckets (ht s)) ->
  sizes_ok t.
Proof. intros [H1 H2 H3] E El. split; rewrite E; simpl; [done|lia|done]. Qed.

Lemma rehash_loop_spec f l2 : forall fuel s acc D cs l1,
  renum_ok f -> chains_ok s D cs -> sizes_ok s -> 0 <= acc ->
  linked (pListNext <$> heap s) (pListLast <$> heap s) (l1 ++ l2) ->
  NoDup l2 -> (forall p, p ∈ l2 -> p ∉ D) ->
  (forall p b, heap s !! p = Some b -> 0 <= h b) ->
  (length l2 <= fuel)%nat ->
  exists t acc' cs', rehash_loop fuel f acc (head l2) s = Some (t, acc')
    /\ chains_ok t (D ++ l2) cs'
    /\ core <$> heap t = core <$> (renumber f acc (heap s) l2).1
    /\ acc' = (renumber f acc (heap s) l2).2
    /\ pListNext <$> heap t = pListNext <$> heap s
    /\ pListLast <$> heap t = pListLast <$> heap s
    /\ dtor_log t = dtor_log s
    /\ exists ar, ht t = set_arBuckets ar (ht s) /\ length ar = length (arBuckets (ht s)).
Proof.
  induction l2 as [|p l2 IH]; intros fuel s acc D cs l1 Hf Hc Hs Hacc Hl Hnd Hdis Hh Hfuel.
  { exists s, acc, cs. rewrite app_nil_r. simpl. destruct fuel; simpl.
    all: repeat (split; [done|]); exists (arBuckets (ht s)); by destruct (ht s). }
  destruct fuel as [|fuel]; simpl in *; [lia|].
  pose proof (linked_middle _ _ _ _ _ Hl) as [HN _]. rewrite lookup_fmap in HN.
  destruct (heap s !! p) as [b|] eqn:Hb; [|done]. simpl in HN. simpl.
  destruct (f acc b) as [acc1 b'] eqn:Hfb.
  pose proof (rn_range _ Hf acc b Hacc (Hh _ _ Hb)) as [Hacc1 Hh1].
  pose proof (rn_next _ Hf acc b) as Hn1. pose proof (rn_last _ Hf acc b) as Hl1.
  rewrite Hfb in *. simpl in *. apply NoDup_cons in Hnd as [Hp Hnd].
  destruct (rehash_step s D cs p b b') as
    (hd & s1 & t & cs' & -> & Hsl & Hrun & Hc' & Ecore & ELn & ELl & Elog & ar & Eht & Elen);
    try done. { apply Hdis. by left. }
  simpl. rewrite Hsl. simpl.
  destruct (CONNECT_TO_BUCKET_DLLIST p hd s1) as [s2|]; [|done]. simpl in *.
  rewrite Hrun. simpl. rewrite Hn1.
  replace (pListNext b) with (head l2) by congruence.
  destruct (IH fuel t acc1 (D ++ [p]) cs' (l1 ++ [p])) as
    (t' & acc' & cs'' & -> & Hc'' & Ecore' & Eacc & ELn' & ELl' & Elog' & ar' & Eht' & Elen');
    try done; try lia.
  - by eapply sizes_ok_set_arBuckets.
  - rewrite ELn, ELl, <- app_assoc. done.
  - intros q Hq. rewrite elem_of_app, list_elem_of_singleton. intros [?| ->]; [|done].
    apply (Hdis q); [by right|done].
  - intros q bq Hq. destruct (core_lookup _ _ _ _ Ecore Hq) as (b0 & Hb0 & Ec).
    rewrite <- (core_h _ _ Ec). rewrite lookup_insert in Hb0.
    case_decide; simplify_eq; eauto.
  - exists t', acc', cs''. split; [done|]. rewrite <- app_assoc in Hc''. split; [done|].
    destruct (renumber_core f acc1 _ _ l2 Hf Ecore) as [E1 E2].
    rewrite <- E1, <- E2. split; [done|]. split; [done|].
    split; [congruence|]. split; [congruence|]. split; [congruence|].
    exists ar'. rewrite Eht', Eht. split; [done|]. by rewrite Elen', Eht.
Qed.

(** Slots cleared by [memset]: no bucket is in any chain. *)
Lemma clear_slots_chains s :
  chains_ok (clear_slots s) [] (replicate (Z.to_nat (nTableSize (ht s))) []).
Proof.
  split; simpl.
  - by rewrite !length_replicate.
  - intros k c [-> Hk]%lookup_replicate. by rewrite lookup_replicate_2.
  - intros k c [-> _]%lookup_replicate. constructor.
  - intros k c [-> _]%lookup_replicate. apply linked_nil.
  - intros k c p [-> _]%lookup_replicate. split; [|intros [? _]]; by intros ?%not_elem_of_nil || done.
Qed.

Lemma clear_slots_sizes s :
  sizes_ok s -> nTableMask (ht s) <> 0 -> sizes_ok (clear_slots s).
Proof.
  intros [(j & Hj & Hsz) H2 H3] Hm. split; simpl; [eauto| |done].
  rewrite length_replicate, Z2Nat.id; [lia|]. rewrite Hsz. lia.
Qed.
End Rehash.

(** ** Growing *)
Section Resize.
Context `{Platform} {V : Type}.
Implicit Types (s t : hstate V) (b : Bucket V) (l : list addr) (cs : list (list addr)).

(** The fields of a table that the chains do not depend on. *)
Record same_table s t : Prop := {
  st_core : core <$> heap t = core <$> heap s;
  st_ln : pListNext <$> heap t = pListNext <$> heap s;
  st_ll : pListLast <$> heap t = pListLast <$> heap s;
  st_head : pListHead (ht t) = pListHead (ht s);
  st_tail : pListTail (ht t) = pListTail (ht s);
  st_num : nNumOfElements (ht t) = nNumOfElements (ht s);
  st_next : nNextFreeElement (ht t) = nNextFreeElement (ht s);
  st_cur : pInternalPointer (ht t) = pInternalPointer (ht s);
  st_dtor : pDestructor (ht t) = pDestructor (ht s);
  st_log : dtor_log t = dtor_log s
}.

Lemma same_table_refl s : same_table s s.
Proof. by split. Qed.

Lemma same_table_trans s t u : same_table s t -> same_table t u -> same_table s u.
Proof. intros [] []. split; congruence. Qed.

Lemma wf_rechained s t l cs cs' :
  wf s l cs -> same_table s t -> chains_ok t l cs' -> sizes_ok t ->
  (nTableMask (ht t) = 0 -> l = []) -> wf t l cs'.
Proof.
  intros Hwf [Ec ELn ELl Eh Et Enum Enx Ecur _ _] Hc Hs Hi. split; try done.
  - destruct (wf_glob _ _ _ Hwf). by split; rewrite ?ELn, ?ELl, ?Eh, ?Et.
  - intros p. rewrite (fmap_eq_dom core (heap s) (heap t) p Ec). by apply Hwf.
  - rewrite Enum. apply Hwf.
  - apply Hwf.
  - intros p b' Hb'. destruct (core_lookup _ _ _ _ Ec Hb') as (b & Hb & E).
    eapply core_ok; [done|]. by eapply wf_ok.
  - intros p q b1 b2 H1 H2 Hk.
    destruct (core_lookup _ _ _ _ Ec H1) as (b1' & Hb1 & E1).
    destruct (core_lookup _ _ _ _ Ec H2) as (b2' & Hb2 & E2).
    eapply (wf_keys _ _ _ Hwf); [done..|].
    by rewrite (core_key _ _ E1), (core_key _ _ E2).
  - rewrite Enx. apply Hwf.
  - intros p b' Hb' Hlen. destruct (core_lookup _ _ _ _ Ec Hb') as (b & Hb & E).
    rewrite Enx, <- (core_h _ _ E). eapply wf_next; [done..|].
    by rewrite (core_len _ _ E).
  - intros p. rewrite Ecur. apply Hwf.
Qed.

Lemma rehash_effect s l :
  glob_ok s l -> (forall p, is_Some (heap s !! p) <-> p ∈ l) ->
  (forall p b, heap s !! p = Some b -> 0 <= h b) ->
  sizes_ok s -> nTableMask (ht s) <> 0 -> nNumOfElements (ht s) <> 0 ->
  exists t cs, zend_hash_rehash s = Some t /\ same_table s t
    /\ chains_ok t l cs /\ sizes_ok t /\ nTableMask (ht t) = nTableMask (ht s).
Proof.
  intros Hg Hdom Hh Hs Hm Hn. unfold zend_hash_rehash.
  rewrite (proj2 (Z.eqb_neq _ _) Hn). cbv zeta.
  set (f := fun (acc : Z) (b : Bucket V) => (acc, b)).
  assert (Hf : renum_ok f) by (split; simpl; try done; intros; split; done).
  assert (Hid : forall l acc m, core <$> (renumber f acc m l).1 = core <$> m).
  { induction l0 as [|p l' IH]; intros acc m; simpl; [done|].
    destruct (m !! p) as [b|] eqn:Hb; [|done]. by rewrite IH, insert_id. }
  replace (pListHead (ht (clear_slots s))) with (head l) by (symmetry; apply Hg).
  destruct (rehash_loop_spec f l (size (heap (clear_slots s))) (clear_slots s) 0 []
    (replicate (Z.to_nat (nTableSize (ht s))) []) []) as
    (t & acc & cs & Hrun & Hc & Ec & _ & ELn & ELl & Elog & ar & Eht & Elen);
    try done; try apply Hg; try lia.
  - apply clear_slots_chains.
  - by apply clear_slots_sizes.
  - intros p _. apply not_elem_of_nil.
  - apply NoDup_length_heap; [apply Hg|]. intros p. apply Hdom.
  - rewrite Hrun. simpl in *. rewrite Hid in Ec.
    exists t, cs. split; [done|]. split.
    { split; rewrite ?Eht; done. }
    split; [done|]. split; [|by rewrite Eht].
    eapply (sizes_ok_set_arBuckets (clear_slots s)); [by apply clear_slots_sizes|done..].
Qed.

Lemma resize_spec s l cs :
  wf s l cs -> nTableMask (ht s) <> 0 -> l <> [] ->
  exists t cs', zend_hash_do_resize s = Some t /\ wf t l cs' /\ same_table s t
    /\ nTableMask (ht t) <> 0.
Proof.
  intros Hwf Hm Hl. unfold zend_hash_do_resize. cbv zeta.
  destruct (sz_size _ (wf_sizes _ _ _ Hwf)) as (j & Hj & Hsz).
  destruct (0 <? to_uint (Z.shiftl (nTableSize (ht s)) 1)) eqn:E; reflect_bools;
    [|exists s, cs; auto using same_table_refl].
  assert (j <> 31) as Hj31. { intros ->. rewrite Hsz in E. vm_compute in E. done. }
  assert (Ed : to_uint (Z.shiftl (nTableSize (ht s)) 1) = 2 ^ (j + 1)).
  { rewrite Hsz, Z.shiftl_mul_pow2, <- Z.pow_add_r by lia. apply to_uint_small.
    split; [lia|]. apply Z.pow_lt_mono_r; lia. }
  rewrite Ed. set (s' := on_ht _ s).
  assert (Hp : 0 < 2 ^ (j + 1)) by lia.
  assert (Hs' : sizes_ok s').
  { split; simpl; [exists (j + 1); split; [lia|done]| |by right].
    rewrite length_resize, Z2Nat.id; lia. }
  assert (1 < 2 ^ (j + 1)) by (apply Z.pow_gt_1; lia).
  destruct (rehash_effect s' l) as (t & cs' & -> & Hst & Hc & Hst' & Em).
  - destruct (wf_glob _ _ _ Hwf). by split.
  - apply Hwf.
  - intros p b Hb. apply (wf_ok _ _ _ Hwf _ _ Hb).
  - done.
  - simpl. lia.
  - simpl. rewrite (wf_num _ _ _ Hwf). destruct l; simpl; [done|lia].
  - assert (Hst2 : same_table s t).
    { eapply same_table_trans; [|exact Hst]. by split. }
    exists t, cs'. split; [done|]. split.
    + apply (wf_rechained s t l cs cs' Hwf Hst2 Hc Hst').
      intros E0. rewrite Em in E0. simpl in E0. lia.
    + split; [done|]. rewrite Em. simpl. lia.
Qed.

Lemma if_full_spec s l cs :
  wf s l cs -> nTableMask (ht s) <> 0 -> l <> [] ->
  exists t cs', ZEND_HASH_IF_FULL_DO_RESIZE s = Some t /\ wf t l cs' /\ same_table s t.
Proof.
  intros Hwf Hm Hl. unfold ZEND_HASH_IF_FULL_DO_RESIZE. case_goal.
  - destruct (resize_spec s l cs) as (t & cs' & ? & ? & ? & _); eauto.
  - exists s, cs. auto using same_table_refl.
Qed.
End Resize.

(** ** Adding a bucket *)
Section Append.
Context `{Platform} {V : Type}.
Implicit Types (s t u : hstate V) (b : Bucket V) (l : list addr) (cs : list (list addr)).

Lemma check_init_spec s l cs :
  wf s l cs -> exists cs', wf (CHECK_INIT s) l cs' /\ same_table s (CHECK_INIT s)
    /\ nTableMask (ht (CHECK_INIT s)) <> 0.
Proof.
  intros Hwf. unfold CHECK_INIT. case_goal; reflect_bools.
  2: { exists cs. auto using same_table_refl. }
  pose proof (wf_init _ _ _ Hwf ltac:(done)) as ->.
  destruct (sz_size _ (wf_sizes _ _ _ Hwf)) as (j & Hj & Hsz).
  assert (8 <= nTableSize (ht s)).
  { rewrite Hsz. change 8 with (2 ^ 3). apply Z.pow_le_mono_r; lia. }
  set (t := on_ht _ s). assert (same_table s t) as Hst by by split.
  exists (replicate (Z.to_nat (nTableSize (ht s))) []).
  split; [|split; [done|simpl; lia]].
  eapply wf_rechained; [done..| | |simpl; lia].
  - destruct (clear_slots_chains s) as [H1 H2 H3 H4 H5]. split; try done.
    intros k c p Hk. rewrite (H5 k c p Hk). split; by intros [?%not_elem_of_nil _].
  - split; simpl; [eauto| |by right]. rewrite length_replicate, Z2Nat.id; lia.
Qed.

(** [ht] after [CONNECT_TO_GLOBAL_DLLIST(p, ht)]. *)
Definition table_append (p : addr) (t : HashTable) : HashTable :=
  let t := set_pListTail (Some p)
             ((if pListTail t is Some _ then id else set_pListHead (Some p)) t) in
  if pInternalPointer t is None then set_pInternalPointer (Some p) t else t.

Lemma table_append_slots p (t : HashTable) : arBuckets (table_append p t) = arBuckets t.
Proof. by destruct t as [? ? ? ? [] ? [] ? ? ? ? ?]. Qed.

Lemma connect_tail_effect s p :
  is_Some (heap s !! p) -> (forall q, pListTail (ht s) = Some q -> is_Some (heap s !! q)) ->
  exists t, CONNECT_TO_GLOBAL_DLLIST p s = Some t
    /\ relinked s t /\ ht t = table_append p (ht s)
    /\ pNext <$> heap t = pNext <$> heap s
    /\ pLast <$> heap t = pLast <$> heap s
    /\ pListNext <$> heap t
         = opt_insert (pListTail (ht s)) (Some p) (<[p := None]> (pListNext <$> heap s))
    /\ pListLast <$> heap t = <[p := pListTail (ht s)]> (pListLast <$> heap s).
Proof.
  intros Hp Ht. unfold CONNECT_TO_GLOBAL_DLLIST.
  destruct (connect_global_effect s p (pListTail (ht s)) None)
    as (t & -> & [Ec El] & Eht & E1 & E2 & E3 & E4); try done.
  simpl. destruct (pInternalPointer (ht t)) eqn:Ep.
  all: eexists; split; [done|]; simpl; split; [by split|].
  all: split; [|done]; unfold table_append; simpl in *.
  all: rewrite Eht in *; simpl in *; rewrite Ep; done.
Qed.

(** The new bucket [nb] at [p] linked into the chain of its slot and at the
    end of the global list. *)
Record appended s p (nb : Bucket V) (hd : option addr) u : Prop := {
  ap_core : core <$> heap u = <[p := core nb]> (core <$> heap s);
  ap_next : pNext <$> heap u = <[p := hd]> (pNext <$> heap s);
  ap_last : pLast <$> heap u = opt_insert hd (Some p) (<[p := None]> (pLast <$> heap s));
  ap_lnext : pListNext <$> heap u
    = opt_insert (pListTail (ht s)) (Some p) (<[p := None]> (pListNext <$> heap s));
  ap_llast : pListLast <$> heap u = <[p := pListTail (ht s)]> (pListLast <$> heap s);
  ap_ht : ht u = set_arBuckets (<[slot (h nb) s := Some p]> (arBuckets (ht s)))
                   (table_append p (ht s));
  ap_log : dtor_log u = dtor_log s
}.

Lemma append_runs s l cs p nb :
  wf s l cs -> nTableMask (ht s) <> 0 -> heap s !! p = None -> 0 <= h nb ->
  let s0 := with_heap (<[p := nb]> (heap s)) s in
  exists hd u u', get_slot (slot (h nb) s) s0 = Some hd
    /\ (s1 ← CONNECT_TO_BUCKET_DLLIST p hd s0; s2 ← CONNECT_TO_GLOBAL_DLLIST p s1;
        put_slot (slot (h nb) s) (Some p) s2) = Some u
    /\ (s1 ← CONNECT_TO_BUCKET_DLLIST p hd s0; s2 ← put_slot (slot (h nb) s) (Some p) s1;
        CONNECT_TO_GLOBAL_DLLIST p s2) = Some u'
    /\ appended s p nb hd u /\ appended s p nb hd u'.
Proof.
  intros Hwf Hm Hp Hh s0.
  pose proof (slot_in_range s (h nb) (wf_sizes _ _ _ Hwf) Hh) as Hsl.
  rewrite <- (ch_len _ _ _ (wf_chains _ _ _ Hwf)) in Hsl.
  destruct (lookup_lt_is_Some_2 _ _ Hsl) as [c Hk].
  pose proof (ch_head _ _ _ (wf_chains _ _ _ Hwf) _ _ Hk) as Hslot.
  assert (Hal : forall q, is_Some (heap s !! q) -> is_Some (heap s0 !! q)).
  { intros q Hq. simpl. rewrite lookup_insert. case_decide; [eauto|done]. }
  destruct (connect_bucket_effect s0 p (head c))
    as (s1 & Hrun1 & [Ec1 Elog1] & Eht1 & ELn1 & ELl1 & EN1 & EP1).
  { simpl. rewrite lookup_insert_eq. eauto. }
  { intros q Hq%head_Some_elem_of. eapply Hal, chain_allocated; [apply Hwf|done..]. }
  assert (Hal1 : forall q, is_Some (heap s0 !! q) -> is_Some (heap s1 !! q)).
  { intros q. by apply (fmap_eq_dom core). }
  assert (Htl : forall q, pListTail (ht s) = Some q -> is_Some (heap s1 !! q)).
  { intros q Hq. apply Hal1, Hal, (wf_dom _ _ _ Hwf).
    rewrite (gl_tail _ _ (wf_glob _ _ _ Hwf)) in Hq. by apply last_Some_elem_of. }
  assert (Hp1 : is_Some (heap s1 !! p)).
  { apply Hal1. simpl. rewrite lookup_insert_eq. eauto. }
  destruct (connect_tail_effect s1 p) as (u & Hrun2 & [Ec2 El2] & Eht2 & E1 & E2 & E3 & E4);
    [done|by rewrite Eht1|].
  set (s2 := on_ht (set_arBuckets (<[slot (h nb) s := Some p]> (arBuckets (ht s1)))) s1).
  destruct (connect_tail_effect s2 p)
    as (u' & Hrun3 & [Ec3 El3] & Eht3 & F1 & F2 & F3 & F4);
    [done|by simpl; rewrite Eht1|].
  simpl in *. rewrite Eht1 in *. rewrite fmap_insert in *. simpl in *.
  exists (head c), (on_ht (set_arBuckets (<[slot (h nb) s := Some p]>
    (arBuckets (ht s)))) u), u'.
  split; [done|]. rewrite Hrun1. simpl. rewrite Hrun2. simpl. split.
  { unfold put_slot. by rewrite Eht2, table_append_slots, Hslot. }
  split. { unfold put_slot. rewrite Eht1, Hslot. simpl. by rewrite <- Eht1. }
  split; split; simpl; rewrite ?Ec3, ?Ec2, ?Ec1, ?E1, ?E2, ?E3, ?E4, ?F1, ?F2, ?F3, ?F4,
    ?EN1, ?EP1, ?ELn1, ?ELl1, ?fmap_insert, ?insert_insert_eq; try done.
  - by rewrite Eht2.
  - congruence.
  - rewrite Eht3. unfold table_append. by destruct (ht s) as [? ? ? ? [] ? [] ? ? ? ? ?].
  - congruence.
Qed.

Lemma appended_glob s l cs p nb hd u :
  wf s l cs -> heap s !! p = None -> appended s p nb hd u -> glob_ok u (l ++ [p]).
Proof.
  intros Hwf Hp [_ _ _ ELn ELl Eht _].
  destruct (wf_glob _ _ _ Hwf) as [Hnd Hl Hhd Htl].
  assert (p ∉ l) as Hpl. { intros [b Hb]%(wf_dom _ _ _ Hwf). congruence. }
  split.
  - apply NoDup_app. split; [done|]. split; [|apply NoDup_singleton].
    intros q Hq ->%list_elem_of_singleton. done.
  - rewrite ELn, ELl, Htl. by apply linked_snoc.
  - rewrite Eht. unfold table_append. simpl. rewrite Htl.
    destruct l as [|x l']; [by case_goal|].
    destruct (last (x :: l')) eqn:El; [simpl; by case_goal|].
    by apply last_None in El.
  - rewrite Eht, last_snoc. unfold table_append. simpl. by case_goal.
Qed.

Lemma core_insert_lookup (m m' : gmap addr (Bucket V)) p nb q b :
  core <$> m' = <[p := core nb]> (core <$> m) -> m' !! q = Some b ->
  (q = p /\ core b = core nb) \/ (q <> p /\ exists b0, m !! q = Some b0 /\ core b0 = core b).
Proof.
  intros E Hb. apply (f_equal (lookup q)) in E. rewrite lookup_fmap, Hb in E. simpl in E.
  rewrite lookup_insert in E. case_decide; [left; split; [done|congruence]|right].
  split; [done|]. rewrite lookup_fmap in E.
  destruct (m !! q) as [b0|]; [|done]. exists b0. split; [done|]. simpl in E. congruence.
Qed.

Lemma appended_chains s l cs p nb hd u :
  wf s l cs -> heap s !! p = None -> 0 <= h nb ->
  get_slot (slot (h nb) s) s = Some hd -> appended s p nb hd u ->
  exists cs', chains_ok u (l ++ [p]) cs'.
Proof.
  intros Hwf Hp Hh Hsl [Ec EN EP _ _ Eht _].
  assert (p ∉ l) as Hpl. { intros [b Hb]%(wf_dom _ _ _ Hwf). congruence. }
  pose proof (wf_chains _ _ _ Hwf) as Hc.
  pose proof (slot_in_range s (h nb) (wf_sizes _ _ _ Hwf) Hh) as Hr.
  rewrite <- (ch_len _ _ _ Hc) in Hr. apply lookup_lt_is_Some_2 in Hr as [c Hk].
  assert (hd = head c) as ->.
  { pose proof (ch_head _ _ _ Hc _ _ Hk). unfold get_slot in Hsl. congruence. }
  eexists. apply (chains_push (with_heap (<[p := nb]> (heap s)) s) u l cs p nb c);
    simpl; rewrite ?fmap_insert, ?insert_insert_eq; try done.
  - by apply chains_outside.
  - apply lookup_insert_eq.
  - by rewrite Eht.
  - rewrite Eht. by destruct (ht s) as [? ? ? ? [] ? [] ? ? ? ? ?].
Qed.

(** The table with the new element counted, and [nf] as next free index. *)
Definition counted (num nf : Z) (u : hstate V) : hstate V :=
  on_ht (fun x => set_nNumOfElements num (set_nNextFreeElement nf x)) u.

Lemma appended_wf s l cs p nb hd u nf :
  wf s l cs -> nTableMask (ht s) <> 0 -> heap s !! p = None -> bucket_ok nb ->
  (forall q b, heap s !! q = Some b -> bkey b <> bkey nb) ->
  get_slot (slot (h nb) s) s = Some hd -> appended s p nb hd u ->
  nNextFreeElement (ht s) <= nf <= LONG_MAX ->
  (nKeyLength nb = 0 -> to_long (h nb) < nf \/ nf = LONG_MAX) ->
  Z.of_nat (S (length l)) < 2 ^ 32 ->
  exists cs', wf (counted (Z.of_nat (S (length l))) nf u) (l ++ [p]) cs'.
Proof.
  intros Hwf Hm Hp Hok Hkey Hsl Hap Hnf Hnew Hsm.
  assert (0 <= h nb) as Hh by apply Hok.
  destruct (appended_chains s l cs p nb hd u) as [cs' Hc']; try done.
  pose proof (appended_glob s l cs p nb hd u Hwf Hp Hap) as Hg.
  pose proof (ap_core _ _ _ _ _ Hap) as Ec. pose proof (ap_ht _ _ _ _ _ Hap) as Eht.
  assert (Ef : nTableSize (ht u) = nTableSize (ht s) /\ nTableMask (ht u) = nTableMask (ht s)
    /\ arBuckets (ht u) = <[slot (h nb) s := Some p]> (arBuckets (ht s))).
  { rewrite Eht. by destruct (ht s) as [? ? ? ? [] ? [] ? ? ? ? ?]. }
  destruct Ef as (Esz & Em & Ear).
  exists cs'. split; simpl.
  - destruct Hg. by split.
  - intros q. rewrite elem_of_app, list_elem_of_singleton, <- (wf_dom _ _ _ Hwf q).
    rewrite <- (fmap_is_Some core (heap u !! q)), <- lookup_fmap, Ec, lookup_insert.
    case_decide as E; [subst; split; eauto|].
    rewrite lookup_fmap, fmap_is_Some. split; [auto|]. intros [?| ->]; done.
  - eapply chains_frame; [exact Hc'|done..].
  - destruct (wf_sizes _ _ _ Hwf) as [H1 H2 H3]. split; simpl; rewrite ?Esz, ?Em; try done.
    by rewrite Ear, length_insert.
  - by rewrite Em.
  - rewrite length_app. simpl. lia.
  - rewrite length_app. simpl. lia.
  - intros q b Hb. destruct (core_insert_lookup _ _ _ _ _ _ Ec Hb) as [[_ E]|(_ & b0 & H0 & E)].
    + eapply core_ok; [symmetry; exact E|done].
    + eapply core_ok; [exact E|]. by eapply wf_ok.
  - intros q r b b' Hb Hb' E.
    destruct (core_insert_lookup _ _ _ _ _ _ Ec Hb) as [[-> E1]|(N1 & b1 & H1 & E1)];
    destruct (core_insert_lookup _ _ _ _ _ _ Ec Hb') as [[-> E2]|(N2 & b2 & H2 & E2)]; [done|..].
    + exfalso. apply (Hkey r b2 H2). by rewrite (core_key _ _ E2), <- E, (core_key _ _ E1).
    + exfalso. apply (Hkey q b1 H1). by rewrite (core_key _ _ E1), E, (core_key _ _ E2).
    + eapply (wf_keys _ _ _ Hwf); [done..|]. by rewrite (core_key _ _ E1), (core_key _ _ E2).
  - pose proof (wf_next_range _ _ _ Hwf). lia.
  - intros q b Hb Hl.
    destruct (core_insert_lookup _ _ _ _ _ _ Ec Hb) as [[-> E]|(_ & b0 & H0 & E)].
    + rewrite (core_h _ _ E). apply Hnew. by rewrite <- (core_len _ _ E).
    + rewrite <- (core_h _ _ E).
      destruct (wf_next _ _ _ Hwf q b0 H0); [by rewrite (core_len _ _ E)|lia|lia].
  - intros q Hq. rewrite Eht in Hq. apply elem_of_app. rewrite list_elem_of_singleton.
    unfold table_append in Hq. simpl in Hq.
    destruct (pInternalPointer (ht s)) as [r|] eqn:Er.
    + left. apply (wf_cur _ _ _ Hwf).
      by destruct (ht s) as [? ? ? ? [] ? [] ? ? ? ? ?]; simplify_eq/=.
    + right. by destruct (ht s) as [? ? ? ? [] ? [] ? ? ? ? ?]; simplify_eq/=.
Qed.

(** The view and the cursor after an append. *)
Lemma view_snoc_lookup (m : gmap addr (Bucket V)) l p :
  view m (l ++ [p]) = view m l ++ match m !! p with Some b => [entry b] | None => [] end.
Proof.
  unfold view. rewrite omap_app. f_equal. simpl. by destruct (m !! p).
Qed.

Lemma view_ext (m m' : gmap addr (Bucket V)) l :
  (forall p, p ∈ l -> entry <$> m' !! p = entry <$> m !! p) -> view m' l = view m l.
Proof.
  intros Hx. unfold view. apply list_omap_ext, Forall_Forall2_diag, Forall_forall. auto.
Qed.

Lemma length_view (s : hstate V) l cs : wf s l cs -> length (view (heap s) l) = length l.
Proof.
  intros Hwf. unfold view.
  assert (forall p, p ∈ l -> is_Some (heap s !! p)) as Ha by (intros; by apply Hwf).
  clear Hwf. induction l as [|p l IH]; [done|]. simpl.
  destruct (Ha p) as [b ->]; [by left|]. simpl. f_equal. apply IH.
  intros. apply Ha. by right.
Qed.

Lemma appended_view s l cs p nb hd u :
  wf s l cs -> heap s !! p = None -> appended s p nb hd u ->
  view (heap u) (l ++ [p]) = view (heap s) l ++ [entry nb].
Proof.
  intros Hwf Hp Hap. pose proof (ap_core _ _ _ _ _ Hap) as Ec.
  rewrite view_snoc_lookup. f_equal.
  - apply view_ext. intros q Hq. apply (f_equal (lookup q)) in Ec.
    rewrite lookup_insert_ne, !lookup_fmap in Ec.
    2: { intros ->. apply (wf_dom _ _ _ Hwf) in Hq. rewrite Hp in Hq. by destruct Hq. }
    destruct (heap u !! q), (heap s !! q); try done. simpl in *. f_equal.
    apply core_entry. congruence.
  - apply (f_equal (lookup p)) in Ec. rewrite lookup_insert_eq, lookup_fmap in Ec.
    destruct (heap u !! p) as [b|]; [|done]. simpl in Ec. rewrite (core_entry b nb); congruence.
Qed.
End Append.

(** ** Removing a bucket *)
Section Remove.
Context `{Platform} {V : Type}.
Implicit Types (s t u : hstate V) (b : Bucket V) (l : list addr) (cs : list (list addr)).

Lemma elem_of_middle (q p : addr) l1 l2 :
  q ∈ l1 ++ p :: l2 <-> q ∈ l1 ++ l2 \/ q = p.
Proof. rewrite !elem_of_app, elem_of_cons. tauto. Qed.

(** [if (o) o->field = ...; else ht->field = ...] *)
Lemma opt_write_effect s (o : option addr) f k :
  (forall q, o = Some q -> is_Some (heap s !! q)) ->
  exists t, match o with Some q => write q f s | None => Some (on_ht k s) end = Some t
    /\ ht t = (if o is Some _ then id else k) (ht s)
    /\ dtor_log t = dtor_log s
    /\ (forall X (g : Bucket V -> X), (forall b, g (f b) = g b) ->
          g <$> heap t = g <$> heap s)
    /\ (forall X (g : Bucket V -> X) x, (forall b, g (f b) = x) ->
          g <$> heap t = opt_insert o x (g <$> heap s)).
Proof.
  intros Ho. destruct o as [q|].
  - destruct (write_total s q f) as [t Hw]; [eauto|]. exists t.
    destruct (write_ht _ _ _ _ Hw). split; [done|]. split; [done|]. split; [done|].
    split; intros; [by eapply write_keeps|by eapply write_sets].
  - eexists; split; [done|]. done.
Qed.

(** [ht] after the two lists are unlinked and the pointer is moved. *)
Record unlinked s p b t : Prop := {
  ul_core : core <$> heap t = delete p (core <$> heap s);
  ul_next : pNext <$> heap t = delete p (opt_insert (pLast b) (pNext b) (pNext <$> heap s));
  ul_last : pLast <$> heap t = delete p (opt_insert (pNext b) (pLast b) (pLast <$> heap s));
  ul_lnext : pListNext <$> heap t
    = delete p (opt_insert (pListLast b) (pListNext b) (pListNext <$> heap s));
  ul_llast : pListLast <$> heap t
    = delete p (opt_insert (pListNext b) (pListLast b) (pListLast <$> heap s));
  ul_slots : arBuckets (ht t) = if pLast b is Some _ then arBuckets (ht s)
                                else <[slot (h b) s := pNext b]> (arBuckets (ht s));
  ul_head : pListHead (ht t) = if pListLast b is Some _ then pListHead (ht s) else pListNext b;
  ul_tail : pListTail (ht t) = if pListNext b is Some _ then pListTail (ht s) else pListLast b;
  ul_cur : pInternalPointer (ht t) = if decide (pInternalPointer (ht s) = Some p)
                                     then pListNext b else pInternalPointer (ht s);
  ul_num : nNumOfElements (ht t) = to_uint (nNumOfElements (ht s) - 1);
  ul_size : nTableSize (ht t) = nTableSize (ht s);
  ul_mask : nTableMask (ht t) = nTableMask (ht s);
  ul_free : nNextFreeElement (ht t) = nNextFreeElement (ht s);
  ul_dtor : pDestructor (ht t) = pDestructor (ht s);
  ul_apply : nApplyCount (ht t) = nApplyCount (ht s);
  ul_prot : bApplyProtection (ht t) = bApplyProtection (ht s);
  ul_log : dtor_log t = if pDestructor (ht s) then dtor_log s ++ [data_of (pData b)]
                        else dtor_log s
}.

Lemma delete_runs s p b :
  heap s !! p = Some b -> (slot (h b) s < length (arBuckets (ht s)))%nat ->
  (forall q, q ∈ [pNext b; pLast b; pListNext b; pListLast b] ->
     forall r, q = Some r -> is_Some (heap s !! r)) ->
  exists t, i_zend_hash_bucket_delete p s = Some t /\ unlinked s p b t.
Proof.
  intros Hb Hsl Hal. unfold i_zend_hash_bucket_delete. rewrite Hb. simpl.
  destruct (lookup_lt_is_Some_2 _ _ Hsl) as [x Hx].
  destruct (opt_write_effect s (pLast b) (set_pNext (pNext b))
    (set_arBuckets (<[slot (h b) s := pNext b]> (arBuckets (ht s)))))
    as (s1 & Hr1 & Eh1 & El1 & K1 & S1); [intros r Hr; by eapply (Hal (pLast b)); [repeat constructor|]|].
  unfold put_slot. rewrite Hx. simpl. rewrite Hr1. simpl.
  assert (D1 : forall r, is_Some (heap s1 !! r) <-> is_Some (heap s !! r)).
  { intros r. apply (fmap_eq_dom core). by apply K1. }
  destruct (opt_write_effect s1 (pNext b) (set_pLast (pLast b)) id)
    as (s2 & Hr2 & Eh2 & El2 & K2 & S2); [intros r Hr; apply D1; eapply (Hal (pNext b)); [repeat constructor|done]|].
  replace (Some s1) with (Some (on_ht id s1)) by by destruct s1. rewrite Hr2. simpl.
  assert (D2 : forall r, is_Some (heap s2 !! r) <-> is_Some (heap s !! r)).
  { intros r. rewrite <- D1. apply (fmap_eq_dom core). by apply K2. }
  destruct (opt_write_effect s2 (pListLast b) (set_pListNext (pListNext b))
    (set_pListHead (pListNext b)))
    as (s3 & Hr3 & Eh3 & El3 & K3 & S3); [intros r Hr; apply D2; eapply (Hal (pListLast b)); [repeat constructor|done]|].
  rewrite Hr3. simpl.
  assert (D3 : forall r, is_Some (heap s3 !! r) <-> is_Some (heap s !! r)).
  { intros r. rewrite <- D2. apply (fmap_eq_dom core). by apply K3. }
  destruct (opt_write_effect s3 (pListNext b) (set_pListLast (pListLast b))
    (set_pListTail (pListLast b)))
    as (s4 & Hr4 & Eh4 & El4 & K4 & S4); [intros r Hr; apply D3; eapply (Hal (pListNext b)); [repeat constructor|done]|].
  rewrite Hr4. simpl.
  assert (D4 : is_Some (heap s4 !! p)).
  { apply (fmap_eq_dom core (heap s3)); [by apply K4|]. apply D3. rewrite Hb. eauto. }
  destruct D4 as [b4 Hb4]. clear Hr1 Hr2 Hr3 Hr4 D1 D2 D3.
  set (sA := if decide (pInternalPointer (ht s4) = Some p) then _ else s4).
  set (sB := on_ht _ sA). unfold pefree.
  assert (heap (call_dtor (data_of (pData b)) sB) = heap s4) as Eheap.
  { unfold call_dtor. subst sB sA. case_decide; simpl; by case_goal. }
  rewrite Eheap, Hb4. simpl. eexists; split; [done|].
  assert (Hproj : forall X (g : Bucket V -> X),
    g <$> heap (with_heap (delete p (heap s4)) (call_dtor (data_of (pData b)) sB))
    = delete p (g <$> heap s4)) by (intros; simpl; apply fmap_delete).
  assert (Eht : ht (with_heap (delete p (heap s4)) (call_dtor (data_of (pData b)) sB)) = ht sB).
  { simpl. unfold call_dtor. by case_goal. }
  assert (EsB : ht sB = set_nNumOfElements (to_uint (nNumOfElements (ht s4) - 1))
    (set_pInternalPointer (if decide (pInternalPointer (ht s4) = Some p) then pListNext b
       else pInternalPointer (ht s4)) (ht s4))).
  { subst sB sA. case_decide; simpl; [done|]. by destruct (ht s4). }
  assert (ElogB : dtor_log sB = dtor_log s4).
  { subst sB sA. by case_decide. }
  assert (EdtB : pDestructor (ht sB) = pDestructor (ht s)).
  { rewrite EsB. simpl. rewrite Eh4, Eh3, Eh2, Eh1. by repeat case_goal. }
  split; rewrite ?Hproj, ?Eht, ?EsB; simpl.
  6-16: rewrite Eh4, Eh3, Eh2, Eh1;
    by destruct (pLast b), (pNext b), (pListLast b), (pListNext b).
  - by rewrite (K4 _ core), (K3 _ core), (K2 _ core), (K1 _ core).
  - by rewrite (K4 _ pNext), (K3 _ pNext), (K2 _ pNext), (S1 _ pNext (pNext b)).
  - by rewrite (K4 _ pLast), (K3 _ pLast), (S2 _ pLast (pLast b)), (K1 _ pLast).
  - by rewrite (K4 _ pListNext), (S3 _ pListNext (pListNext b)), (K2 _ pListNext),
      (K1 _ pListNext).
  - by rewrite (S4 _ pListLast (pListLast b)), (K3 _ pListLast), (K2 _ pListLast),
      (K1 _ pListLast).
  - unfold call_dtor. rewrite EdtB.
    destruct (pDestructor (ht s)); cbn [dtor_log with_heap]; rewrite ElogB; congruence.
Qed.

Lemma unlinked_glob s l1 p l2 b t :
  glob_ok s (l1 ++ p :: l2) -> heap s !! p = Some b -> unlinked s p b t ->
  glob_ok t (l1 ++ l2) /\ pListNext b = head l2 /\ pListLast b = last l1.
Proof.
  intros [Hnd Hl Hh Ht] Hb Hu.
  pose proof (linked_middle _ _ _ _ _ Hl) as [HN HP].
  rewrite lookup_fmap, Hb in HN, HP. simpl in HN, HP.
  assert (En : pListNext b = head l2) by congruence.
  assert (Ep : pListLast b = last l1) by congruence.
  split; [|done].
  assert (Hp : p ∉ l1 ++ l2).
  { apply NoDup_app in Hnd as (_ & Hd & Hc). apply NoDup_cons in Hc as [Hp _].
    rewrite elem_of_app. intros [Hin|]; [|done]. apply (Hd p Hin). by left. }
  split.
  - apply NoDup_app in Hnd as (H1 & H2 & [_ H3]%NoDup_cons). apply NoDup_app.
    split; [done|]. split; [|done]. intros q Hq Hq'. apply (H2 q Hq). by right.
  - rewrite (ul_lnext _ _ _ _ Hu), (ul_llast _ _ _ _ Hu), En, Ep.
    eapply linked_frame; [exact (linked_remove _ _ _ _ _ Hnd Hl)|..]; intros q Hq;
      apply lookup_delete_ne; by intros ->.
  - rewrite (ul_head _ _ _ _ Hu), Ep, En, Hh. destruct l1 as [|x l1]; [done|].
    by destruct (last (x :: l1)) eqn:E; [|apply last_None in E].
  - rewrite (ul_tail _ _ _ _ Hu), Ep, En, Ht. destruct l2 as [|x l2]; simpl.
    + by rewrite app_nil_r.
    + rewrite !last_app. simpl. by destruct (last (x :: l2)) eqn:E; [|apply last_None in E].
Qed.

Lemma unlinked_chains s l1 p l2 cs b t :
  chains_ok s (l1 ++ p :: l2) cs -> p ∉ l1 ++ l2 -> heap s !! p = Some b ->
  (slot (h b) s < length (arBuckets (ht s)))%nat -> unlinked s p b t ->
  exists cs', chains_ok t (l1 ++ l2) cs'.
Proof.
  intros Hc Hp Hb Hsl Hu.
  rewrite <- (ch_len _ _ _ Hc) in Hsl. destruct (lookup_lt_is_Some_2 _ _ Hsl) as [c Hk].
  assert (p ∈ c) as Hpc.
  { apply (ch_mem _ _ _ Hc _ _ p Hk). split; [|eauto]. apply elem_of_app. right. by left. }
  apply list_elem_of_split in Hpc as (c1 & c2 & ->).
  pose proof (ch_linked _ _ _ Hc _ _ Hk) as Hl. pose proof (ch_nodup _ _ _ Hc _ _ Hk) as Hnd.
  pose proof (linked_middle _ _ _ _ _ Hl) as [HN HP].
  rewrite lookup_fmap, Hb in HN, HP. simpl in HN, HP.
  assert (En : pNext b = head c2) by congruence.
  assert (Ep : pLast b = last c1) by congruence.
  pose proof Hnd as (Hnd1 & Hnd2 & [Hp2 Hnd3]%NoDup_cons)%NoDup_app.
  assert (Hp1 : p ∉ c1). { intros Hin. apply (Hnd2 p Hin). by left. }
  assert (Hdis : forall k' c' q, k' <> slot (h b) s -> cs !! k' = Some c' -> q ∈ c' ->
    q <> p /\ last c1 <> Some q /\ head c2 <> Some q).
  { intros k' c' q Hne Hk' Hq.
    assert (q ∉ c1 ++ p :: c2). { intros Hq'. apply Hne. by eapply chains_disjoint. }
    repeat split; [intros ->|intros ?%last_Some_elem_of|intros ?%head_Some_elem_of]; set_solver. }
  exists (<[slot (h b) s := c1 ++ c2]> cs). split.
  - rewrite length_insert, (ul_slots _ _ _ _ Hu), (ch_len _ _ _ Hc).
    by destruct (pLast b); rewrite ?length_insert.
  - intros k' c' Hk'. rewrite (ul_slots _ _ _ _ Hu), En, Ep.
    apply list_lookup_insert_Some in Hk' as [(<- & <- & _)|[Hne Hk']].
    + pose proof (ch_head _ _ _ Hc _ _ Hk) as Hhd. destruct c1 as [|x c1]; simpl.
      * by rewrite list_lookup_insert_eq by (by eapply lookup_lt_Some).
      * by destruct (last (x :: c1)) eqn:E; [|apply last_None in E].
    + destruct (last c1); [by eapply ch_head|].
      rewrite list_lookup_insert_ne by done. by eapply ch_head.
  - intros k' c' Hk'. apply list_lookup_insert_Some in Hk' as [(<- & <- & _)|[Hne Hk']];
      [|by eapply ch_nodup]. apply NoDup_app. split; [done|]. split; [|done].
    intros q Hq Hq'. apply (Hnd2 q Hq). by right.
  - intros k' c' Hk'. rewrite (ul_next _ _ _ _ Hu), (ul_last _ _ _ _ Hu), En, Ep.
    apply list_lookup_insert_Some in Hk' as [(<- & <- & _)|[Hne Hk']].
    + eapply linked_frame; [exact (linked_remove _ _ _ _ _ Hnd Hl)|..]; intros q Hq;
        apply lookup_delete_ne; intros ->; apply elem_of_app in Hq as []; done.
    + eapply linked_frame; [by eapply (ch_linked _ _ _ Hc)|..]; intros q Hq;
        destruct (Hdis k' c' q) as (? & ? & ?); try done;
        by rewrite lookup_delete_ne, lookup_opt_insert, decide_False by done.
  - intros k' c' q Hk'.
    assert (Hcore : q <> p ->
      (exists b, heap t !! q = Some b /\ slot (h b) t = k')
      <-> (exists b, heap s !! q = Some b /\ slot (h b) s = k')).
    { intros Hq. pose proof (f_equal (lookup q) (ul_core _ _ _ _ Hu)) as E.
      rewrite lookup_delete_ne, !lookup_fmap in E by done. unfold slot.
      rewrite (ul_mask _ _ _ _ Hu).
      destruct (heap t !! q) as [bt|], (heap s !! q) as [bs|]; try done; simpl in E.
      assert (h bt = h bs) as Eh by (apply core_h; congruence).
      split; intros (b0 & [= <-] & Hs); eexists; split; try done; congruence. }
    apply list_lookup_insert_Some in Hk' as [(<- & <- & _)|[Hne Hk']].
    + pose proof (ch_mem _ _ _ Hc _ _ q Hk) as Hm. rewrite !elem_of_middle in Hm.
      destruct (decide (q = p)) as [->|Hq].
      * split; [|by intros [? _]]. intros []%elem_of_app; done.
      * rewrite Hcore by done. clear - Hm Hq. tauto.
    + pose proof (ch_mem _ _ _ Hc _ _ q Hk') as Hm. rewrite elem_of_middle in Hm.
      destruct (decide (q = p)) as [->|Hq].
      * split; [|by intros [? _]]. intros (_ & b0 & Hb0 & Hs)%Hm. congruence.
      * rewrite Hcore by done. clear - Hm Hq. tauto.
Qed.

Lemma unlinked_lookup s p b t q b' :
  unlinked s p b t -> heap t !! q = Some b' ->
  q <> p /\ exists b0, heap s !! q = Some b0 /\ core b0 = core b'.
Proof.
  intros Hu Hq. pose proof (f_equal (lookup q) (ul_core _ _ _ _ Hu)) as E.
  rewrite lookup_fmap, Hq, lookup_delete in E. case_decide; [done|]. split; [done|].
  rewrite lookup_fmap in E. destruct (heap s !! q) as [b0|]; [|done].
  exists b0. split; [done|]. simpl in E. congruence.
Qed.

Lemma unlinked_wf s l1 p l2 cs b t :
  wf s (l1 ++ p :: l2) cs -> heap s !! p = Some b -> unlinked s p b t ->
  exists cs', wf t (l1 ++ l2) cs'.
Proof.
  intros Hwf Hb Hu. pose proof (wf_small _ _ _ Hwf) as Hlt.
  destruct (unlinked_glob s l1 p l2 b t (wf_glob _ _ _ Hwf) Hb Hu) as (Hg & En & Ep).
  pose proof (gl_nodup _ _ (wf_glob _ _ _ Hwf)) as (Hnd1 & Hnd2 & [Hp2 _]%NoDup_cons)%NoDup_app.
  assert (Hp : p ∉ l1 ++ l2).
  { rewrite elem_of_app. intros [Hin|]; [|done]. apply (Hnd2 p Hin). by left. }
  assert (Hh : 0 <= h b) by apply (wf_ok _ _ _ Hwf _ _ Hb).
  destruct (unlinked_chains s l1 p l2 cs b t) as [cs' Hc']; try done;
    [apply Hwf|by apply slot_in_range; [apply Hwf|]|].
  exists cs'. split; try done.
  - intros q. rewrite <- (fmap_is_Some core (heap t !! q)), <- lookup_fmap,
      (ul_core _ _ _ _ Hu), lookup_delete.
    case_decide as E; [subst; split; [by intros []|done]|].
    rewrite lookup_fmap, fmap_is_Some, (wf_dom _ _ _ Hwf), !elem_of_app, elem_of_cons.
    split; [intros [?|[?|?]]; auto; by subst|tauto].
  - destruct (wf_sizes _ _ _ Hwf) as [H1 H2 H3].
    split; rewrite ?(ul_size _ _ _ _ Hu), ?(ul_mask _ _ _ _ Hu); try done.
    rewrite (ul_slots _ _ _ _ Hu). destruct (pLast b); by rewrite ?length_insert.
  - rewrite (ul_mask _ _ _ _ Hu). intros E. pose proof (wf_init _ _ _ Hwf E). by destruct l1.
  - rewrite (ul_num _ _ _ _ Hu). rewrite (wf_num _ _ _ Hwf) in *.
    rewrite !length_app in *. simpl in *. rewrite to_uint_small; lia.
  - rewrite !length_app in *. simpl in *. lia.
  - intros q b' Hq. destruct (unlinked_lookup _ _ _ _ _ _ Hu Hq) as (_ & b0 & H0 & E).
    eapply core_ok; [exact E|]. by eapply wf_ok.
  - intros q r b1 b2 H1 H2 E.
    destruct (unlinked_lookup _ _ _ _ _ _ Hu H1) as (_ & b1' & H1' & E1).
    destruct (unlinked_lookup _ _ _ _ _ _ Hu H2) as (_ & b2' & H2' & E2).
    eapply (wf_keys _ _ _ Hwf); [done..|]. by rewrite (core_key _ _ E1), (core_key _ _ E2).
  - rewrite (ul_free _ _ _ _ Hu). apply Hwf.
  - intros q b' Hq Hlen. destruct (unlinked_lookup _ _ _ _ _ _ Hu Hq) as (_ & b0 & H0 & E).
    rewrite (ul_free _ _ _ _ Hu), <- (core_h _ _ E). eapply wf_next; [done..|].
    by rewrite (core_len _ _ E).
  - intros q. rewrite (ul_cur _ _ _ _ Hu), En. case_decide as E.
    + intros ?%head_Some_elem_of. apply elem_of_app. by right.
    + intros Hq. pose proof (wf_cur _ _ _ Hwf _ Hq) as Hin.
      rewrite elem_of_app, elem_of_cons in Hin. rewrite elem_of_app.
      destruct Hin as [|[->|]]; auto. done.
Qed.
End Remove.
