(* ===== verification/HashRefine.v ===== *)
(** * HashRefine: the operations of zend_hash.c implement an ordered map

    The simulation lemmas behind the theorems on the hash table: every
    operation, run on a table that represents an abstract ordered map, returns
    (no invalid pointer is followed, every loop ends) and the resulting table
    represents the map the abstract operation gives. *)
From S2P Require Import Prelude DList HashDefs HashInv HashLemmas.

(** ** Keys and positions *)
Section Positions.
Context `{Platform} {V : Type}.
Implicit Types (s t : hstate V) (b : Bucket V) (l : list addr) (cs : list (list addr)).

Lemma view_lookup s l cs i :
  wf s l cs -> view (heap s) l !! i = l !! i ≫= (fun p => entry <$> heap s !! p).
Proof.
  intros Hwf. assert (forall p, p ∈ l -> is_Some (heap s !! p)) as Ha by (intros; by apply Hwf).
  clear Hwf. revert i. unfold view. induction l as [|p l IH]; intros i; [done|]. simpl.
  destruct (Ha p) as [b Hb]; [by left|]. rewrite Hb. simpl.
  destruct i as [|i]; simpl; [by rewrite Hb|]. apply IH. intros. apply Ha. by right.
Qed.

(** Two entries of a table have different keys. *)
Lemma wf_unique s l cs i j p q b b' :
  wf s l cs -> l !! i = Some p -> l !! j = Some q ->
  heap s !! p = Some b -> heap s !! q = Some b' -> bkey b = bkey b' -> i = j.
Proof.
  intros Hwf Hi Hj Hb Hb' E.
  assert (p = q) as -> by (eapply (wf_keys _ _ _ Hwf); eauto).
  eapply NoDup_lookup; [apply (gl_nodup _ _ (wf_glob _ _ _ Hwf))|done..].
Qed.

Lemma find_idx_found s l cs i p b :
  wf s l cs -> l !! i = Some p -> heap s !! p = Some b ->
  find_idx (bkey b) (view (heap s) l) = Some i.
Proof.
  intros Hwf Hi Hb. unfold find_idx.
  assert (list_find (fun e => e.1 = bkey b) (view (heap s) l) = Some (i, entry b)) as ->; [|done].
  apply list_find_Some. rewrite (view_lookup s l cs) by done. rewrite Hi. simpl. rewrite Hb.
  split; [done|]. split; [done|]. intros j y Hj Hlt E.
  rewrite (view_lookup s l cs) in Hj by done.
  destruct (l !! j) as [q|] eqn:Hq; [|done]. simpl in Hj.
  destruct (heap s !! q) as [b'|] eqn:Hb'; [|done]. simpl in Hj. simplify_eq. simpl in E.
  assert (j = i) by (eapply wf_unique; eauto). lia.
Qed.

Lemma find_idx_absent s l cs k :
  wf s l cs -> (forall p b, heap s !! p = Some b -> bkey b <> k) ->
  find_idx k (view (heap s) l) = None.
Proof.
  intros Hwf Hk. unfold find_idx. rewrite (proj2 (list_find_None _ _)); [done|].
  apply Forall_lookup. intros i e He.
  rewrite (view_lookup s l cs) in He by done.
  destruct (l !! i) as [p|]; [|done]. simpl in He.
  destruct (heap s !! p) as [b|] eqn:Hb; [|done]. simpl in He. simplify_eq. simpl. eauto.
Qed.

Lemma om_lookup_idx k (a : ordmap V) :
  om_lookup k a = find_idx k (om_entries a) ≫= (fun i => snd <$> om_entries a !! i).
Proof.
  unfold om_lookup, find_idx.
  destruct (list_find (fun e => e.1 = k) (om_entries a)) as [[i e]|] eqn:E; simpl; [|done].
  apply list_find_Some in E as (-> & _). done.
Qed.

(** The address of an allocated bucket is in the list. *)
Lemma wf_position s l cs p b :
  wf s l cs -> heap s !! p = Some b -> exists i, l !! i = Some p.
Proof.
  intros Hwf Hb. apply list_elem_of_lookup, (wf_dom _ _ _ Hwf). rewrite Hb. eauto.
Qed.
End Positions.

(** ** Finding *)
Section Finding.
Context `{Platform} {V : Type}.
Implicit Types (s t : hstate V) (b : Bucket V) (l : list addr) (cs : list (list addr)).

Lemma hash_range bytes len : 0 <= zend_inline_hash_func bytes len < 2 ^ LONG_BITS.
Proof.
  unfold zend_inline_hash_func.
  assert (Hst : forall x c, 0 <= hash_step x c < 2 ^ LONG_BITS) by (intros; apply to_ulong_range).
  assert (Hsw : forall x r, 0 <= x < 2 ^ LONG_BITS -> 0 <= hash_switch x r < 2 ^ LONG_BITS).
  { intros x r Hx. unfold hash_switch. do 8 (destruct r as [|? r]; auto). }
  assert (Hb8 : forall x r, 0 <= x < 2 ^ LONG_BITS -> 0 <= hash_block8 x r < 2 ^ LONG_BITS).
  { intros x r Hx. unfold hash_block8. do 9 (destruct r as [|? r]; auto). }
  assert (H0 : 0 <= 5381 < 2 ^ LONG_BITS) by (destruct LONG_BITS_cases as [-> | ->]; lia).
  revert H0. generalize 5381. generalize (take (Z.to_nat len) bytes).
  induction (Z.to_nat (len / 8)) as [|n IH]; intros k x Hx; simpl; auto.
Qed.

Lemma hash_take bytes len n :
  len <= Z.of_nat n -> zend_inline_hash_func (take n bytes) len = zend_inline_hash_func bytes len.
Proof.
  intros Hn. unfold zend_inline_hash_func. rewrite take_take. do 2 f_equal. lia.
Qed.

(** The hash is a function of the key alone. *)
Lemma bkey_hash b bytes len :
  bucket_ok b -> 0 < len -> len <= Z.of_nat (length bytes) ->
  bkey b = KStr (take (Z.to_nat len) bytes) ->
  h b = zend_inline_hash_func bytes len.
Proof.
  intros [_ Hl Hk] Hlen Hr. unfold bkey. case_goal; [done|]. reflect_bools.
  destruct (Hk ltac:(done)) as [Hr' ->]. intros [= E].
  assert (nKeyLength b = len) as E'.
  { apply (f_equal length) in E. rewrite !length_take in E. lia. }
  rewrite E' in *. rewrite <- (hash_take bytes len (Z.to_nat len)) by lia.
  rewrite <- E. by rewrite hash_take by lia.
Qed.

Lemma key_match_spec s k len p b :
  key_arg_ok k len s -> bucket_ok b -> heap s !! p = Some b ->
  key_match k len (zend_inline_hash_func (cp_bytes k) len) p b
  = bool_decide (bkey b = KStr (take (Z.to_nat len) (cp_bytes k))).
Proof.
  intros [Hlen Hr Hco] Hok Hb. unfold key_match.
  destruct (bool_decide (cp_addr (arKey b) = cp_addr k)) eqn:Ea; reflect_bools; simpl.
  { rewrite bool_decide_eq_true_2; [done|]. by eapply Hco. }
  apply Bool.eq_iff_eq_true. rewrite bool_decide_eq_true, !andb_true_iff, !Z.eqb_eq.
  split.
  - intros [[E1 E2] E3]. unfold bkey. rewrite E2.
    rewrite (proj2 (Z.eqb_neq _ _)) by lia. f_equal.
    destruct (bk_key _ Hok) as [Hr' _]; [lia|]. apply memcmp_eq; [lia..|done].
  - intros E. pose proof (bkey_hash b (cp_bytes k) len Hok ltac:(lia) Hr E) as ->.
    unfold bkey in E. revert E. case_goal; [done|]. reflect_bools. intros [= E].
    destruct (bk_key _ Hok ltac:(done)) as [Hr' _]. pose proof (bk_len _ Hok).
    assert (nKeyLength b = len) as E'.
    { apply (f_equal length) in E. rewrite !length_take in E. lia. }
    rewrite E' in *. split; [done|]. apply memcmp_eq; [lia..|done].
Qed.

Lemma search_str s l cs k len :
  wf s l cs -> key_arg_ok k len s ->
  let hv := zend_inline_hash_func (cp_bytes k) len in
  exists r, search_chain hv (key_match k len hv) s = Some r /\
    match r with
    | Some p => exists b, heap s !! p = Some b
        /\ bkey b = KStr (take (Z.to_nat len) (cp_bytes k))
    | None => forall p b, heap s !! p = Some b ->
        bkey b <> KStr (take (Z.to_nat len) (cp_bytes k))
    end.
Proof.
  intros Hwf Hk hv. eapply search_key_spec; [done|apply hash_range|..].
  - intros p b Hb. apply (key_match_spec s); [done| |done]. by eapply wf_ok.
  - intros b Hok E. apply bkey_hash; try done; apply Hk.
Qed.

Lemma search_index s l cs hv :
  wf s l cs -> 0 <= hv ->
  exists r, search_chain hv (index_match hv) s = Some r /\
    match r with
    | Some p => exists b, heap s !! p = Some b /\ bkey b = KInt hv
    | None => forall p b, heap s !! p = Some b -> bkey b <> KInt hv
    end.
Proof.
  intros Hwf Hh. eapply search_key_spec; [done|done|..].
  - intros p b Hb. unfold index_match, bkey. apply Bool.eq_iff_eq_true.
    rewrite bool_decide_eq_true. case_goal; reflect_bools; simpl; [|done].
    rewrite Z.eqb_eq. split; congruence.
  - intros b _. unfold bkey. case_goal; congruence.
Qed.

(** Coherence only looks at keys, so it survives initialisation. *)
Lemma key_arg_same_table s t k len :
  same_table s t -> key_arg_ok k len s -> key_arg_ok k len t.
Proof.
  intros Hst [H1 H2 H3]. split; try done. intros p b Hb Ea.
  destruct (core_lookup _ _ _ _ (st_core _ _ Hst) Hb) as (b0 & Hb0 & E).
  rewrite <- (core_key _ _ E). apply (H3 p b0 Hb0). unfold core in E. congruence.
Qed.
End Finding.

(** ** Storing *)
Section Storing.
Context `{Platform} {V : Type} `{!Malloc V}.
Implicit Types (s t : hstate V) (b : Bucket V) (l : list addr) (cs : list (list addr)).
Implicit Types (a : ordmap V) (k : hkey) (v : V).

(** The values a destructor is run on when [v] replaces the entry of [k]. *)
Definition released k s a : list V :=
  if pDestructor (ht s) then (if om_lookup k a is Some v0 then [v0] else []) else [].

(** Result and map of [add]/[update]. *)
Definition om_put (refuse : bool) k v a : zend_result * ordmap V :=
  match find_idx k (om_entries a) with
  | Some _ => if refuse then (FAILURE, a) else (SUCCESS, om_update k v a)
  | None => (SUCCESS, om_update k v a)
  end.

Lemma wf_set_data s l cs p b d t :
  wf s l cs -> heap s !! p = Some b ->
  heap t = <[p := set_pData d b]> (heap s) -> ht t = ht s -> wf t l cs.
Proof.
  intros Hwf Hb Eh Et.
  assert (Hpr : forall X (g : Bucket V -> X), g (set_pData d b) = g b ->
    g <$> heap t = g <$> heap s).
  { intros X g Hg. rewrite Eh, fmap_insert, Hg. apply insert_id. by rewrite lookup_fmap, Hb. }
  assert (Hlk : forall q bq, heap t !! q = Some bq -> exists b0, heap s !! q = Some b0
    /\ h b0 = h bq /\ nKeyLength b0 = nKeyLength bq /\ arKey b0 = arKey bq).
  { intros q bq. rewrite Eh, lookup_insert. case_decide; [intros [= <-]; subst; eauto|eauto]. }
  assert (Hk : forall (b1 b2 : Bucket V), h b1 = h b2 -> nKeyLength b1 = nKeyLength b2 ->
    arKey b1 = arKey b2 -> bkey b1 = bkey b2)
    by (intros ? ? E1 E2 E3; unfold bkey; by rewrite E1, E2, E3).
  destruct Hwf as [[G1 G2 G3 G4] Wd [C1 C2 C3 C4 C5] [Z1 Z2 Z3] Wi Wn Ws Wo Wk Wr Wx Wc].
  split; rewrite ?Et; try done.
  - split; rewrite ?Et, ?(Hpr _ pListNext), ?(Hpr _ pListLast); done.
  - intros q. rewrite (fmap_eq_dom (fun b => h b) (heap s)); [done|]. by apply Hpr.
  - split; rewrite ?Et, ?(Hpr _ pNext), ?(Hpr _ pLast); try done.
    intros k c q Hc. rewrite (C5 k c q Hc). unfold slot. rewrite Et.
    split; intros [? (b0 & Hb0 & Hs)]; (split; [done|]).
    + pose proof (f_equal (lookup q) (Hpr _ (fun b => h b) eq_refl)) as E.
      rewrite !lookup_fmap, Hb0 in E. destruct (heap t !! q) as [b1|]; [|done].
      exists b1. split; [done|]. simpl in E. congruence.
    + destruct (Hlk _ _ Hb0) as (b1 & ? & ? & _). exists b1. split; [done|]. congruence.
  - split; rewrite ?Et; done.
  - intros q bq Hq. destruct (Hlk _ _ Hq) as (b0 & Hb0 & E1 & E2 & E3).
    destruct (Wo q b0 Hb0). rewrite E1, E2, E3 in *. by split.
  - intros q r b1 b2 H1 H2 E.
    destruct (Hlk _ _ H1) as (b3 & ? & ? & ? & ?). destruct (Hlk _ _ H2) as (b4 & ? & ? & ? & ?).
    eapply Wk; [done..|]. rewrite (Hk b3 b1), (Hk b4 b2); done.
  - intros q bq Hq Hl. destruct (Hlk _ _ Hq) as (b0 & ? & <- & ? & ?).
    eapply Wx; [done|congruence].
Qed.

Lemma view_set_data s l cs i p b d t :
  wf s l cs -> l !! i = Some p -> heap s !! p = Some b ->
  heap t = <[p := set_pData d b]> (heap s) -> wf t l cs ->
  view (heap t) l = <[i := (bkey b, data_of d)]> (view (heap s) l).
Proof.
  intros Hwf Hi Hb Eh Hwft. apply list_eq. intros j.
  rewrite (view_lookup t l cs) by done. rewrite list_lookup_insert.
  rewrite (view_lookup s l cs) by done. rewrite (length_view s l cs) by done.
  case_decide as E.
  - destruct E as [<- _]. rewrite Hi. simpl. by rewrite Eh, lookup_insert_eq.
  - destruct (l !! j) as [q|] eqn:Hj; [|done]. simpl. rewrite Eh, lookup_insert_ne; [done|].
    intros ->. apply E. split; [|by eapply lookup_lt_Some].
    eapply NoDup_lookup; [apply (gl_nodup _ _ (wf_glob _ _ _ Hwf))|done..].
Qed.

Lemma data_UPDATE v n (d : data_loc V) : data_of (UPDATE_DATA v n d) = v.
Proof. unfold UPDATE_DATA. case_goal; [done|]. by destruct d. Qed.
Lemma data_INIT v n : data_of (INIT_DATA v n) = v.
Proof. unfold INIT_DATA. by case_goal. Qed.

(** Overwriting the value of an entry. *)
Lemma update_bucket_refines s a l cs p b v n :
  wf s l cs -> view (heap s) l = om_entries a ->
  pInternalPointer (ht s) = om_cursor a ≫= (fun i => l !! i) ->
  (forall i, om_cursor a = Some i -> (i < length l)%nat) ->
  nNextFreeElement (ht s) = om_next a ->
  heap s !! p = Some b ->
  exists t, update_bucket p v n s = Some t
    /\ refines t (om_update (bkey b) v a)
    /\ (entry <$> heap t !! p) = Some (bkey b, v)
    /\ dtor_log t = dtor_log s ++ released (bkey b) s a
    /\ pDestructor (ht t) = pDestructor (ht s).
Proof.
  intros Hwf Hv Hcur Hcr Hnx Hb. unfold update_bucket, write. rewrite Hb. simpl.
  assert (Hc : heap (call_dtor (data_of (pData b)) s) = heap s
    /\ ht (call_dtor (data_of (pData b)) s) = ht s) by (unfold call_dtor; by case_goal).
  destruct Hc as [Eh Et]. rewrite Eh, Hb. simpl.
  destruct (wf_position _ _ _ _ _ Hwf Hb) as [i Hi].
  pose proof (find_idx_found _ _ _ _ _ _ Hwf Hi Hb) as Hf.
  eexists; split; [done|]. set (t := with_heap _ _).
  assert (Hwft : wf t l cs) by (eapply wf_set_data; done).
  assert (Hlk : om_lookup (bkey b) a = Some (data_of (pData b))).
  { rewrite om_lookup_idx, <- Hv, Hf. simpl. rewrite (view_lookup s l cs) by done.
    rewrite Hi. simpl. by rewrite Hb. }
  assert (Hvt : view (heap t) l = <[i := (bkey b, v)]> (view (heap s) l)).
  { rewrite (view_set_data s l cs i p b (UPDATE_DATA v n (pData b)) t);
      [by rewrite data_UPDATE|done..]. }
  split; [|split; [|split]].
  - exists l, cs. split; [done|]. unfold om_update. rewrite Hv in Hf. rewrite Hf.
    split; [by rewrite Hvt, Hv|]. simpl. by rewrite Et.
  - simpl. rewrite lookup_insert_eq. simpl. unfold entry. simpl. by rewrite data_UPDATE.
  - unfold released. rewrite Hlk. simpl. unfold call_dtor.
    case_goal; simpl; [done|by rewrite app_nil_r].
  - simpl. by rewrite Et.
Qed.

(** [refines] is insensitive to a rebuild of the chains. *)
Lemma refines_same_table s t l cs cs' a :
  wf s l cs -> wf t l cs' -> same_table s t -> view (heap s) l = om_entries a ->
  pInternalPointer (ht s) = om_cursor a ≫= (fun i => l !! i) ->
  (forall i, om_cursor a = Some i -> (i < length l)%nat) ->
  nNextFreeElement (ht s) = om_next a ->
  view (heap t) l = om_entries a
  /\ pInternalPointer (ht t) = om_cursor a ≫= (fun i => l !! i)
  /\ nNextFreeElement (ht t) = om_next a.
Proof.
  intros _ _ Hst Hv Hc _ Hn. rewrite (view_core (heap s)) by apply Hst.
  rewrite (st_cur _ _ Hst), (st_next _ _ Hst). done.
Qed.

(** [s], with list [l] and chains [cs], implements [a]. *)
Record implements s l cs a : Prop := {
  im_wf : wf s l cs;
  im_view : view (heap s) l = om_entries a;
  im_cur : pInternalPointer (ht s) = om_cursor a ≫= (fun i => l !! i);
  im_cur_range i : om_cursor a = Some i -> (i < length l)%nat;
  im_next : nNextFreeElement (ht s) = om_next a
}.

Lemma refines_implements s a : refines s a <-> exists l cs, implements s l cs a.
Proof.
  split; intros (l & cs & Hr); exists l, cs.
  - destruct Hr as (? & ? & ? & ? & ?). by split.
  - by destruct Hr.
Qed.

Lemma implements_same_table s t l cs cs' a :
  implements s l cs a -> wf t l cs' -> same_table s t -> implements t l cs' a.
Proof.
  intros [Hwf Hv Hc Hr Hn] Hwft Hst.
  destruct (refines_same_table s t l cs cs' a) as (? & ? & ?); try done.
Qed.

Lemma implements_length s l cs a : implements s l cs a -> length (om_entries a) = length l.
Proof. intros [Hwf <- _ _ _]. by eapply length_view. Qed.

(** A table that got a new last bucket implements the map with one more
    entry, also after it has grown. *)
Lemma appended_refines s l cs a p nb hd u nf :
  implements s l cs a -> nTableMask (ht s) <> 0 -> heap s !! p = None -> bucket_ok nb ->
  (forall q b, heap s !! q = Some b -> bkey b <> bkey nb) ->
  get_slot (slot (h nb) s) s = Some hd -> appended s p nb hd u ->
  nNextFreeElement (ht s) <= nf <= LONG_MAX ->
  (nKeyLength nb = 0 -> to_long (h nb) < nf \/ nf = LONG_MAX) ->
  Z.of_nat (S (length l)) < 2 ^ 32 ->
  exists t, ZEND_HASH_IF_FULL_DO_RESIZE (counted (Z.of_nat (S (length l))) nf u) = Some t
    /\ refines t (om_append (bkey nb) (data_of (pData nb)) nf a)
    /\ entry <$> heap t !! p = Some (entry nb)
    /\ dtor_log t = dtor_log s /\ pDestructor (ht t) = pDestructor (ht s).
Proof.
  intros Him Hm Hp Hok Hkey Hsl Hap Hnf Hnew Hsm. pose proof (im_wf _ _ _ _ Him) as Hwf.
  destruct (appended_wf s l cs p nb hd u nf) as [cs' Hwf']; try done.
  set (c := counted _ nf u) in *.
  pose proof (ap_ht _ _ _ _ _ Hap) as Eht.
  destruct (if_full_spec c (l ++ [p]) cs') as (t & cs'' & Ht & Hwft & Hst); [done| |by destruct l|].
  { simpl. rewrite Eht. by destruct (ht s) as [? ? ? ? [] ? [] ? ? ? ? ?]. }
  exists t. split; [done|].
  assert (Him' : implements c (l ++ [p]) cs' (om_append (bkey nb) (data_of (pData nb)) nf a)).
  { split; simpl; try done.
    - rewrite (appended_view s l cs p nb hd u) by done. by rewrite (im_view _ _ _ _ Him).
    - assert (Ec : pInternalPointer (ht u) = match pInternalPointer (ht s) with
                   | None => Some p | c => c end).
      { rewrite Eht. by destruct (ht s) as [? ? ? ? [] ? [] ? ? ? ? ?]. }
      rewrite Ec, (im_cur _ _ _ _ Him), (implements_length _ _ _ _ Him).
      destruct (om_cursor a) as [i|] eqn:Ei; simpl.
      + pose proof (im_cur_range _ _ _ _ Him i Ei) as Hlt. rewrite lookup_app_l by done.
        by destruct (lookup_lt_is_Some_2 _ _ Hlt) as [q ->].
      + by rewrite lookup_app_r, Nat.sub_diag by lia.
    - intros i. rewrite length_app, (implements_length _ _ _ _ Him). simpl.
      destruct (om_cursor a) as [j|] eqn:Ej; intros [= <-]; [|lia].
      pose proof (im_cur_range _ _ _ _ Him j Ej). lia. }
  split; [apply refines_implements; eauto using implements_same_table|]. split; [|split].
  - pose proof (f_equal (lookup p) (st_core _ _ Hst)) as E. simpl in E.
    rewrite (ap_core _ _ _ _ _ Hap), lookup_insert_eq, lookup_fmap in E.
    destruct (heap t !! p) as [b|]; [|done]. simpl in *. f_equal. apply core_entry. congruence.
  - rewrite (st_log _ _ Hst). simpl. apply Hap.
  - rewrite (st_dtor _ _ Hst). simpl. rewrite Eht.
    by destruct (ht s) as [? ? ? ? [] ? [] ? ? ? ? ?].
Qed.

(** The outcome of storing [v] under [key]. *)
Definition put_outcome (refuse : bool) key v s a
    (r : option (hstate V * zend_result * option addr)) : Prop :=
  exists t res dest, r = Some (t, res, dest)
    /\ res = (om_put refuse key v a).1
    /\ refines t (om_put refuse key v a).2
    /\ (res = SUCCESS -> exists p, dest = Some p /\ entry <$> heap t !! p = Some (key, v))
    /\ dtor_log t = dtor_log s ++ (if decide (res = SUCCESS) then released key s a else [])
    /\ pDestructor (ht t) = pDestructor (ht s).

(** After [CHECK_INIT], which changes nothing the map depends on. *)
Lemma check_init_implements s l cs a :
  implements s l cs a -> exists cs', implements (CHECK_INIT s) l cs' a
    /\ same_table s (CHECK_INIT s) /\ nTableMask (ht (CHECK_INIT s)) <> 0.
Proof.
  intros Him. destruct (check_init_spec s l cs) as (cs' & Hwf & Hst & Hm); [apply Him|].
  exists cs'. eauto using implements_same_table.
Qed.

Lemma released_same_table s t key a :
  same_table s t -> released key t a = released key s a.
Proof. intros Hst. unfold released. by rewrite (st_dtor _ _ Hst). Qed.

(** The branch in which the key is already present. *)
Lemma put_found s0 s l cs a p b v n refuse :
  same_table s0 s -> implements s l cs a -> heap s !! p = Some b ->
  put_outcome refuse (bkey b) v s0 a
    (if refuse then Some (s, FAILURE, None)
     else t ← update_bucket p v n s; Some (t, SUCCESS, Some p)).
Proof.
  intros Hst [Hwf Hv Hc Hr Hn] Hb.
  destruct (wf_position _ _ _ _ _ Hwf Hb) as [i Hi].
  pose proof (find_idx_found _ _ _ _ _ _ Hwf Hi Hb) as Hf. rewrite Hv in Hf.
  unfold put_outcome, om_put. rewrite Hf. destruct refuse.
  - exists s, FAILURE, None. split; [done|]. split; [done|].
    split; [apply refines_implements; exists l, cs; by split|]. split; [done|].
    simpl. by rewrite app_nil_r, (st_log _ _ Hst), (st_dtor _ _ Hst).
  - destruct (update_bucket_refines s a l cs p b v n) as (t & -> & Href & He & Hlog & Hd);
      try done.
    simpl. exists t, SUCCESS, (Some p). split; [done|]. split; [done|]. split; [done|].
    split; [eauto|]. simpl.
    by rewrite Hlog, (released_same_table _ _ _ _ Hst), (st_log _ _ Hst), Hd, (st_dtor _ _ Hst).
Qed.

(** The branch in which a bucket has been allocated and linked. *)
Lemma put_new s0 s l cs a p nb hd u nf refuse :
  same_table s0 s -> implements s l cs a -> nTableMask (ht s) <> 0 ->
  heap s !! p = None -> bucket_ok nb ->
  (forall q b, heap s !! q = Some b -> bkey b <> bkey nb) ->
  get_slot (slot (h nb) s) s = Some hd -> appended s p nb hd u ->
  nf = match bkey nb with KInt i => next_after i (om_next a) | KStr _ => om_next a end ->
  nNextFreeElement (ht s) <= nf <= LONG_MAX ->
  (nKeyLength nb = 0 -> to_long (h nb) < nf \/ nf = LONG_MAX) ->
  Z.of_nat (S (length l)) < 2 ^ 32 ->
  put_outcome refuse (bkey nb) (data_of (pData nb)) s0 a
    (t ← ZEND_HASH_IF_FULL_DO_RESIZE (counted (Z.of_nat (S (length l))) nf u);
     Some (t, SUCCESS, Some p)).
Proof.
  intros Hst Him Hm Hp Hok Hkey Hsl Hap Hnfe Hnf Hnew Hsm.
  pose proof (find_idx_absent s l cs (bkey nb) (im_wf _ _ _ _ Him) Hkey) as Hf.
  rewrite (im_view _ _ _ _ Him) in Hf.
  destruct (appended_refines s l cs a p nb hd u nf) as (t & -> & Href & He & Hlog & Hd);
    try done. simpl.
  unfold put_outcome, om_put. rewrite Hf.
  exists t, SUCCESS, (Some p). split; [done|]. split; [done|].
  split. { simpl. unfold om_update. rewrite Hf, <- Hnfe. done. }
  split; [eauto|]. simpl.
  assert (released (bkey nb) s0 a = []) as ->.
  { unfold released. rewrite om_lookup_idx, Hf. simpl. by case_goal. }
  by rewrite app_nil_r, Hlog, Hd, (st_log _ _ Hst), (st_dtor _ _ Hst).
Qed.

(** Restate the outcome through the key and the data of the new bucket. *)
Ltac outcome_of nb Ekey Edat :=
  match goal with
  | |- put_outcome ?r _ _ ?s ?a ?x =>
      let Hpn := fresh in
      enough (put_outcome r (bkey nb) (data_of (pData nb)) s a x) as Hpn
        by (by rewrite Ekey, Edat in Hpn)
  end.

Lemma counted_plain s l cs p nb hd u :
  wf s l cs -> appended s p nb hd u -> Z.of_nat (S (length l)) < 2 ^ 32 ->
  on_ht (fun x => set_nNumOfElements (to_uint (nNumOfElements x + 1)) x) u
  = counted (Z.of_nat (S (length l))) (nNextFreeElement (ht s)) u.
Proof.
  intros Hwf Hap Hlt. unfold counted, on_ht. f_equal. rewrite (ap_ht _ _ _ _ _ Hap).
  pose proof (wf_num _ _ _ Hwf) as Hn.
  destruct (ht s) as [? ? n ? [] ? [] ? ? ? ? ?]; simpl in *; subst n; unfold table_append;
    simpl; unfold set_nNumOfElements, set_nNextFreeElement; simpl; f_equal;
    rewrite to_uint_small; lia.
Qed.

Lemma new_str_bucket_ok (k : char_ptr) len v n p junk s :
  key_arg_ok k len s ->
  let nb := new_str_bucket k len (zend_inline_hash_func (cp_bytes k) len) v n p junk in
  bucket_ok (V := V) nb /\ bkey nb = KStr (take (Z.to_nat len) (cp_bytes k))
  /\ data_of (pData nb) = v /\ h nb = zend_inline_hash_func (cp_bytes k) len
  /\ nKeyLength nb <> 0.
Proof.
  intros [Hl Hr _] nb. split; [|split; [|split; [|split; [done|simpl; lia]]]].
  - split; simpl; [apply hash_range|lia|]. intros _. destruct (IS_INTERNED k); simpl; [done|].
    rewrite length_take, hash_take by lia. split; [lia|done].
  - unfold bkey. simpl. rewrite (proj2 (Z.eqb_neq _ _)) by lia. f_equal.
    destruct (IS_INTERNED k); simpl; [done|]. by rewrite take_take, Nat.min_id.
  - simpl. apply data_INIT.
Qed.

Lemma quick_put_refines s a (k : char_ptr) len v n flag :
  refines s a -> key_arg_ok k len s -> Z.of_nat (S (length (om_entries a))) < 2 ^ 32 ->
  put_outcome (has_flag flag HASH_ADD) (KStr (take (Z.to_nat len) (cp_bytes k))) v s a
    (_zend_hash_quick_add_or_update k len (zend_inline_hash_func (cp_bytes k) len) v n flag s).
Proof.
  intros (l & cs0 & Him0)%refines_implements Hk Hlt.
  destruct (check_init_implements s l cs0 a Him0) as (cs & Him & Hst & Hm).
  rewrite (implements_length _ _ _ _ Him) in Hlt.
  unfold _zend_hash_quick_add_or_update. cbv zeta.
  pose proof (key_arg_same_table _ _ _ _ Hst Hk) as Hk1.
  set (s1 := CHECK_INIT s) in *. set (hv := zend_inline_hash_func (cp_bytes k) len).
  destruct (search_str s1 l cs k len (im_wf _ _ _ _ Him) Hk1) as (r & Hsr & Hr).
  fold hv in Hsr. rewrite Hsr. simpl.
  destruct r as [p|].
  { destruct Hr as (b & Hb & <-). by eapply put_found. }
  destruct (pemalloc (heap s1)) as [p junk] eqn:Hp.
  assert (Hfresh : heap s1 !! p = None) by (pose proof (pemalloc_fresh (heap s1)); by rewrite Hp in *).
  set (nb := new_str_bucket k len hv v n p junk).
  destruct (new_str_bucket_ok k len v n p junk s1 Hk1) as (Hok & Ekey & Edat & Eh & Enz).
  fold hv in Hok, Ekey, Edat, Enz. fold nb in Hok, Ekey, Edat, Enz.
  destruct (append_runs s1 l cs p nb (im_wf _ _ _ _ Him) Hm Hfresh ltac:(apply Hok))
    as (hd & _ & u & Hsl & _ & Hrun & _ & Hap).
  change (slot (h nb) s1) with (slot hv s1) in *. rewrite Hsl. simpl.
  destruct (CONNECT_TO_BUCKET_DLLIST p hd _) as [s2|]; simpl in Hrun; [|done]. simpl.
  destruct (put_slot (slot hv s1) (Some p) s2) as [s3|]; simpl in Hrun; [|done]. simpl.
  rewrite Hrun. simpl. rewrite (counted_plain s1 l cs p nb hd u) by (done || apply Him).
  outcome_of nb Ekey Edat. rewrite <- Ekey in Hr.
  pose proof (wf_next_range _ _ _ (im_wf _ _ _ _ Him)).
  eapply put_new; try done.
  - rewrite Ekey. apply Him.
  - lia.
Qed.

Lemma put_refines s a (k : char_ptr) len v n flag :
  refines s a -> key_arg_ok k len s -> Z.of_nat (S (length (om_entries a))) < 2 ^ 32 ->
  put_outcome (has_flag flag HASH_ADD) (KStr (take (Z.to_nat len) (cp_bytes k))) v s a
    (_zend_hash_add_or_update k len v n flag s).
Proof.
  intros (l & cs0 & Him0)%refines_implements Hk Hlt.
  destruct (check_init_implements s l cs0 a Him0) as (cs & Him & Hst & Hm).
  rewrite (implements_length _ _ _ _ Him) in Hlt.
  unfold _zend_hash_add_or_update. cbv zeta.
  pose proof (key_arg_same_table _ _ _ _ Hst Hk) as Hk1.
  set (s1 := CHECK_INIT s) in *. set (hv := zend_inline_hash_func (cp_bytes k) len).
  destruct (search_str s1 l cs k len (im_wf _ _ _ _ Him) Hk1) as (r & Hsr & Hr).
  fold hv in Hsr. rewrite Hsr. simpl.
  destruct r as [p|].
  { destruct Hr as (b & Hb & <-). by eapply put_found. }
  destruct (pemalloc (heap s1)) as [p junk] eqn:Hp.
  assert (Hfresh : heap s1 !! p = None) by (pose proof (pemalloc_fresh (heap s1)); by rewrite Hp in *).
  set (nb := new_str_bucket k len hv v n p junk).
  destruct (new_str_bucket_ok k len v n p junk s1 Hk1) as (Hok & Ekey & Edat & Eh & Enz).
  fold hv in Hok, Ekey, Edat, Enz. fold nb in Hok, Ekey, Edat, Enz.
  destruct (append_runs s1 l cs p nb (im_wf _ _ _ _ Him) Hm Hfresh ltac:(apply Hok))
    as (hd & u & _ & Hsl & Hrun & _ & Hap & _).
  change (slot (h nb) s1) with (slot hv s1) in *. rewrite Hsl. simpl.
  destruct (CONNECT_TO_BUCKET_DLLIST p hd _) as [s2|]; simpl in Hrun; [|done]. simpl.
  destruct (CONNECT_TO_GLOBAL_DLLIST p s2) as [s3|]; simpl in Hrun; [|done]. simpl.
  rewrite Hrun. simpl. rewrite (counted_plain s1 l cs p nb hd u) by (done || apply Him).
  outcome_of nb Ekey Edat. rewrite <- Ekey in Hr.
  pose proof (wf_next_range _ _ _ (im_wf _ _ _ _ Him)).
  eapply put_new; try done.
  - rewrite Ekey. apply Him.
  - lia.
Qed.

Lemma bump_is_next_after hv (t : HashTable) :
  0 <= nNextFreeElement t <= LONG_MAX ->
  bump_next_free hv t = set_nNextFreeElement (next_after hv (nNextFreeElement t)) t.
Proof.
  intros Hr. unfold bump_next_free, next_after. rewrite (to_long_small (nNextFreeElement t)) by done.
  case_goal; [done|]. by destruct t.
Qed.

(** What the next-free counter guarantees after an index is stored. *)
Lemma next_after_spec hv nf :
  0 <= nf <= LONG_MAX -> 0 <= hv < 2 ^ LONG_BITS ->
  nf <= next_after hv nf <= LONG_MAX
  /\ (to_long hv < next_after hv nf \/ next_after hv nf = LONG_MAX).
Proof.
  intros Hnf Hh. unfold next_after.
  destruct (decide (hv <= LONG_MAX)).
  - rewrite to_long_small by lia. case_goal; reflect_bools; [case_goal; reflect_bools|]; lia.
  - rewrite to_long_big by lia. pose proof ulong_split. pose proof LONG_MAX_pos.
    case_goal; reflect_bools; lia.
Qed.

Lemma index_put_refines s a hv v n flag :
  refines s a -> 0 <= hv < 2 ^ LONG_BITS ->
  Z.of_nat (S (length (om_entries a))) < 2 ^ 32 ->
  let idx := if has_flag flag HASH_NEXT_INSERT then om_next a else hv in
  put_outcome (has_flag flag HASH_NEXT_INSERT || has_flag flag HASH_ADD) (KInt idx) v s a
    (_zend_hash_index_update_or_next_insert hv v n flag s).
Proof.
  intros (l & cs0 & Him0)%refines_implements Hhv Hlt idx.
  destruct (check_init_implements s l cs0 a Him0) as (cs & Him & Hst & Hm).
  rewrite (implements_length _ _ _ _ Him) in Hlt.
  unfold _zend_hash_index_update_or_next_insert. cbv zeta.
  set (s1 := CHECK_INIT s) in *. rewrite (im_next _ _ _ _ Him). fold idx.
  pose proof (wf_next_range _ _ _ (im_wf _ _ _ _ Him)) as Hnr.
  rewrite (im_next _ _ _ _ Him) in Hnr.
  assert (Hidx : 0 <= idx < 2 ^ LONG_BITS).
  { subst idx. case_goal; [|done]. pose proof ulong_split. lia. }
  destruct (search_index s1 l cs idx (im_wf _ _ _ _ Him) ltac:(lia)) as (r & -> & Hr). simpl.
  destruct r as [p|].
  { destruct Hr as (b & Hb & <-). by eapply put_found. }
  destruct (pemalloc (heap s1)) as [p junk] eqn:Hp.
  assert (Hfresh : heap s1 !! p = None) by (pose proof (pemalloc_fresh (heap s1)); by rewrite Hp in *).
  set (nb := new_index_bucket idx v n junk).
  assert (Hok : bucket_ok nb) by (split; simpl; [done|lia|done]).
  assert (Ekey : bkey nb = KInt idx) by done.
  assert (Edat : data_of (pData nb) = v) by apply data_INIT.
  destruct (append_runs s1 l cs p nb (im_wf _ _ _ _ Him) Hm Hfresh ltac:(simpl; lia))
    as (hd & _ & u & Hsl & _ & Hrun & _ & Hap).
  change (slot (h nb) s1) with (slot idx s1) in *. rewrite Hsl. simpl.
  destruct (CONNECT_TO_BUCKET_DLLIST p hd _) as [s2|]; simpl in Hrun; [|done]. simpl.
  destruct (put_slot (slot idx s1) (Some p) s2) as [s3|]; simpl in Hrun; [|done]. simpl.
  rewrite Hrun. simpl.
  assert (Enf : nNextFreeElement (ht u) = om_next a).
  { rewrite <- (im_next _ _ _ _ Him), (ap_ht _ _ _ _ _ Hap).
    by destruct (ht s1) as [? ? ? ? [] ? [] ? ? ? ? ?]. }
  destruct (next_after_spec idx (om_next a)) as [Hn1 Hn2]; [done..|].
  match goal with |- context [ZEND_HASH_IF_FULL_DO_RESIZE ?x] =>
    replace x with (counted (Z.of_nat (S (length l))) (next_after idx (om_next a)) u) end.
  - outcome_of nb Ekey Edat. rewrite <- Ekey in Hr.
    eapply put_new; try done. by rewrite (im_next _ _ _ _ Him).
  - unfold counted, on_ht. simpl. f_equal. rewrite bump_is_next_after by (rewrite Enf; lia).
    rewrite Enf. simpl. unfold set_nNumOfElements. simpl. f_equal.
    rewrite (ap_ht _ _ _ _ _ Hap). pose proof (wf_num _ _ _ (im_wf _ _ _ _ Him)) as Hn.
    rewrite to_uint_small; destruct (ht s1) as [? ? ? ? [] ? [] ? ? ? ? ?]; simpl in *; lia.
Qed.
End Storing.

(** ** Removing *)
Section Removing.
Context `{Platform} {V : Type}.
Implicit Types (s t : hstate V) (b : Bucket V) (l : list addr) (cs : list (list addr)).
Implicit Types (a : ordmap V).

Lemma view_app (m : gmap addr (Bucket V)) l1 l2 : view m (l1 ++ l2) = view m l1 ++ view m l2.
Proof. apply omap_app. Qed.

Lemma view_cons (m : gmap addr (Bucket V)) p b l :
  m !! p = Some b -> view m (p :: l) = entry b :: view m l.
Proof. intros Hb. unfold view. simpl. by rewrite Hb. Qed.

Lemma length_view_alloc (m : gmap addr (Bucket V)) l :
  (forall p, p ∈ l -> is_Some (m !! p)) -> length (view m l) = length l.
Proof.
  intros Ha. induction l as [|p l IH]; [done|].
  destruct (Ha p) as [b Hb]; [by left|]. rewrite (view_cons _ _ b) by done. simpl.
  rewrite IH; [done|]. intros. apply Ha. by right.
Qed.

Lemma delete_middle_lookup {A} (l1 l2 : list A) p i :
  (l1 ++ l2) !! i
  = if decide (i < length l1)%nat then (l1 ++ p :: l2) !! i else (l1 ++ p :: l2) !! S i.
Proof.
  case_decide; [by rewrite !lookup_app_l|]. rewrite !lookup_app_r by lia.
  replace (S i - length l1)%nat with (S (i - length l1)) by lia. done.
Qed.

Lemma unlinked_view s l1 p l2 b t :
  (forall q, q ∈ l1 ++ p :: l2 -> is_Some (heap s !! q)) -> p ∉ l1 ++ l2 ->
  heap s !! p = Some b -> unlinked s p b t ->
  view (heap t) (l1 ++ l2) = delete (length l1) (view (heap s) (l1 ++ p :: l2)).
Proof.
  intros Ha Hp Hb Hu. rewrite (view_ext (heap s)).
  - rewrite !view_app, (view_cons _ _ b) by done.
    rewrite <- (length_view_alloc (heap s) l1).
    + by rewrite delete_middle.
    + intros q Hq. apply Ha, elem_of_app. by left.
  - intros q Hq. pose proof (f_equal (lookup q) (ul_core _ _ _ _ Hu)) as E.
    rewrite lookup_delete_ne, !lookup_fmap in E by (by intros ->).
    destruct (heap t !! q), (heap s !! q); try done. simpl in *. f_equal.
    apply core_entry. congruence.
Qed.

(** Unlinking the bucket at position [i] removes entry [i]. *)
Lemma delete_refines s cs l1 p l2 a :
  implements s (l1 ++ p :: l2) cs a ->
  exists b t cs', heap s !! p = Some b
    /\ i_zend_hash_bucket_delete p s = Some t
    /\ implements t (l1 ++ l2) cs' (om_remove (length l1) a)
    /\ unlinked s p b t
    /\ dtor_log t = dtor_log s ++ (if pDestructor (ht s) then [data_of (pData b)] else []).
Proof.
  intros Him. pose proof (im_wf _ _ _ _ Him) as Hwf.
  assert (Ha : forall q, q ∈ l1 ++ p :: l2 -> is_Some (heap s !! q)) by (intros; by apply Hwf).
  destruct (Ha p) as [b Hb]; [apply elem_of_app; right; by left|].
  assert (Hh : 0 <= h b) by apply (wf_ok _ _ _ Hwf _ _ Hb).
  pose proof (slot_in_range s (h b) (wf_sizes _ _ _ Hwf) Hh) as Hsl.
  pose proof (gl_nodup _ _ (wf_glob _ _ _ Hwf)) as Hnd.
  assert (Hp : p ∉ l1 ++ l2).
  { apply NoDup_app in Hnd as (_ & Hd & [Hp _]%NoDup_cons).
    rewrite elem_of_app. intros [Hin|]; [|done]. apply (Hd p Hin). by left. }
  assert (Hlinks : forall o, o ∈ [pNext b; pLast b; pListNext b; pListLast b] ->
     forall r, o = Some r -> is_Some (heap s !! r)).
  { pose proof (linked_middle _ _ _ _ _ (gl_linked _ _ (wf_glob _ _ _ Hwf))) as [HN HP].
    rewrite lookup_fmap, Hb in HN, HP. simpl in HN, HP.
    assert (Hc : exists c1 c2, cs !! slot (h b) s = Some (c1 ++ p :: c2)).
    { destruct (lookup_lt_is_Some_2 cs (slot (h b) s)) as [c Hc].
      { by rewrite (ch_len _ _ _ (wf_chains _ _ _ Hwf)). }
      assert (p ∈ c) as (c1 & c2 & ->)%list_elem_of_split; [|eauto].
      apply (ch_mem _ _ _ (wf_chains _ _ _ Hwf) _ _ p Hc). split; [by apply (wf_dom _ _ _ Hwf); eauto|eauto]. }
    destruct Hc as (c1 & c2 & Hc).
    pose proof (linked_middle _ _ _ _ _ (ch_linked _ _ _ (wf_chains _ _ _ Hwf) _ _ Hc)) as [HN' HP'].
    rewrite lookup_fmap, Hb in HN', HP'. simpl in HN', HP'.
    assert (Hcc : forall r, r ∈ c1 ++ p :: c2 -> is_Some (heap s !! r))
      by (intros r Hr; eapply chain_allocated; [apply Hwf|exact Hc|done]).
    intros o Ho r ->.
    repeat (apply elem_of_cons in Ho as [Ho|Ho]); [..|by apply not_elem_of_nil in Ho].
    - apply Hcc, elem_of_app. right. right. apply head_Some_elem_of. congruence.
    - apply Hcc, elem_of_app. left. apply last_Some_elem_of. congruence.
    - apply Ha, elem_of_app. right. right. apply head_Some_elem_of. congruence.
    - apply Ha, elem_of_app. left. apply last_Some_elem_of. congruence. }
  destruct (delete_runs s p b Hb Hsl Hlinks) as (t & Ht & Hu).
  destruct (unlinked_wf s l1 p l2 cs b t Hwf Hb Hu) as [cs' Hwft].
  exists b, t, cs'. split; [done|]. split; [done|]. split; [|split; [done|]].
  2: { rewrite (ul_log _ _ _ _ Hu). case_goal; [done|by rewrite app_nil_r]. }
  destruct (unlinked_glob s l1 p l2 b t (wf_glob _ _ _ Hwf) Hb Hu) as (_ & En & _).
  assert (Hlen : length (om_entries a) = length (l1 ++ p :: l2)) by by eapply implements_length.
  pose proof (im_cur_range _ _ _ _ Him) as Hrng.
  split; [done|..]; simpl.
  - rewrite <- (im_view _ _ _ _ Him). by apply (unlinked_view s l1 p l2 b).
  - rewrite (ul_cur _ _ _ _ Hu), (im_cur _ _ _ _ Him), En, Hlen.
    destruct (om_cursor a) as [c|] eqn:Ec; simpl; [|done].
    specialize (Hrng c eq_refl).
    destruct (decide (c = length l1)) as [->|Hne].
    + rewrite list_lookup_middle, decide_True by done. rewrite Nat.ltb_irrefl, length_app.
      destruct l2 as [|x l2]; simpl.
      * rewrite (proj2 (Nat.ltb_ge _ _)) by lia. done.
      * rewrite (proj2 (Nat.ltb_lt _ _)) by lia. simpl. by rewrite list_lookup_middle.
    + rewrite decide_False.
      2: { intros E. apply Hne. eapply NoDup_lookup; [exact Hnd|done|]. by rewrite list_lookup_middle. }
      destruct (Nat.ltb_spec c (length l1)); simpl.
      * by rewrite (delete_middle_lookup l1 l2 p), decide_True.
      * rewrite (proj2 (Nat.ltb_lt _ _)) by lia. simpl.
        rewrite (delete_middle_lookup l1 l2 p), decide_False by lia. f_equal. lia.
  - intros i. rewrite length_app in *. simpl in *. rewrite Hlen.
    destruct (om_cursor a) as [c|] eqn:Ec; [|done]. specialize (Hrng c eq_refl).
    destruct (Nat.ltb_spec c (length l1)); [intros [= <-]; lia|].
    destruct (Nat.ltb_spec (length l1) c); [intros [= <-]; lia|].
    destruct (Nat.ltb_spec (S (length l1)) (length l1 + S (length l2))); [intros [= <-]|done]. lia.
  - rewrite (ul_free _ _ _ _ Hu). apply Him.
Qed.
End Removing.

(** ** Deleting by key, emptying and walking *)
Section Deleting.
Context `{Platform} {V : Type}.
Implicit Types (s t : hstate V) (b : Bucket V) (l : list addr) (cs : list (list addr)).
Implicit Types (a : ordmap V).

(** The outcome of deleting [key]. *)
Definition del_outcome (key : hkey) s a (r : option (hstate V * zend_result)) : Prop :=
  exists t, r = Some (t, if om_lookup key a is Some _ then SUCCESS else FAILURE)
    /\ refines t (om_delete key a)
    /\ dtor_log t = dtor_log s ++
         (if pDestructor (ht s) then (if om_lookup key a is Some v then [v] else []) else []).

Lemma del_found s l cs a p b :
  implements s l cs a -> heap s !! p = Some b ->
  del_outcome (bkey b) s a (t ← i_zend_hash_bucket_delete p s; Some (t, SUCCESS)).
Proof.
  intros Him Hb. pose proof (im_wf _ _ _ _ Him) as Hwf.
  destruct (wf_position _ _ _ _ _ Hwf Hb) as [i Hi].
  pose proof (find_idx_found _ _ _ _ _ _ Hwf Hi Hb) as Hf.
  assert (Hlk : om_lookup (bkey b) a = Some (data_of (pData b))).
  { rewrite om_lookup_idx, <- (im_view _ _ _ _ Him), Hf. simpl.
    rewrite (view_lookup s l cs) by done. rewrite Hi. simpl. by rewrite Hb. }
  rewrite (im_view _ _ _ _ Him) in Hf.
  apply list_elem_of_split_length in Hi as (l1 & l2 & -> & ->).
  destruct (delete_refines s cs l1 p l2 a Him) as (b' & t & cs' & Hb' & -> & Him' & _ & Hlog).
  simplify_eq. exists t. rewrite Hlk. split; [done|]. split; [|done].
  apply refines_implements. unfold om_delete. rewrite Hf. eauto.
Qed.

Lemma del_absent s l cs a key :
  implements s l cs a -> (forall p b, heap s !! p = Some b -> bkey b <> key) ->
  del_outcome key s a (Some (s, FAILURE)).
Proof.
  intros Him Hk. pose proof (find_idx_absent s l cs key (im_wf _ _ _ _ Him) Hk) as Hf.
  rewrite (im_view _ _ _ _ Him) in Hf. exists s. rewrite om_lookup_idx, Hf. simpl.
  split; [done|]. split.
  - apply refines_implements. unfold om_delete. rewrite Hf. eauto.
  - case_goal; by rewrite app_nil_r.
Qed.

Lemma del_str_refines s a (k : char_ptr) len hv flag :
  refines s a -> 0 < len < 2 ^ 32 -> len <= Z.of_nat (length (cp_bytes k)) ->
  match flag with
  | HASH_DEL_KEY => True
  | HASH_DEL_INDEX => False
  | HASH_DEL_KEY_QUICK => hv = zend_inline_hash_func (cp_bytes k) len
  end ->
  del_outcome (KStr (take (Z.to_nat len) (cp_bytes k))) s a
    (zend_hash_del_key_or_index k len hv flag s).
Proof.
  intros (l & cs & Him)%refines_implements Hlen Hr Hflag.
  unfold zend_hash_del_key_or_index.
  assert (match flag with
          | HASH_DEL_KEY => zend_inline_hash_func (cp_bytes k) len
          | _ => hv
          end = zend_inline_hash_func (cp_bytes k) len) as -> by by destruct flag.
  set (hs := zend_inline_hash_func (cp_bytes k) len).
  set (key := KStr (take (Z.to_nat len) (cp_bytes k))).
  destruct (search_key_spec s l cs (fun _ b =>
        (h b =? hs) && (nKeyLength b =? len)
        && ((nKeyLength b =? 0)
            || (memcmp (Z.to_nat len) (cp_bytes (arKey b)) (cp_bytes k) =? 0))) hs key)
    as (r & -> & Hres); [apply Him|apply hash_range|..].
  - intros p b Hb.
    pose (k' := CharPtr (KBucket p) (cp_bytes k)).
    (* a pointer no bucket holds: the address test is then always false *)
    pose (b' := set_arKey (CharPtr KNull (cp_bytes (arKey b))) b).
    pose (s' := MkState (ht s) {[p := b']} (dtor_log s)).
    assert (key_arg_ok k' len s') as Hk'.
    { split; try done. intros q bq Hq Ea. simpl in Hq. by apply lookup_singleton_Some in Hq as [<- <-]. }
    assert (bucket_ok b') as Hok.
    { destruct (wf_ok _ _ _ (im_wf _ _ _ _ Him) _ _ Hb) as [H1 H2 H3]. by split. }
    pose proof (key_match_spec s' k' len p b' Hk' Hok (lookup_singleton_eq _ _)) as Hm.
    unfold key_match in Hm. simpl in Hm. unfold bkey in Hm. simpl in Hm.
    fold hs key (bkey b) in Hm. rewrite <- Hm.
    destruct (nKeyLength b =? len) eqn:El; [|by rewrite !andb_false_r].
    reflect_bools. rewrite (proj2 (Z.eqb_neq (nKeyLength b) 0)) by lia. done.
  - intros b Hok E. apply bkey_hash; [done|lia|done|done].
  - simpl. destruct r as [p|]; [|by eapply del_absent].
    destruct Hres as (b & Hb & <-). by eapply del_found.
Qed.

Lemma del_index_refines s a hv :
  refines s a -> 0 <= hv -> del_outcome (KInt hv) s a (zend_hash_index_del hv s).
Proof.
  intros (l & cs & Him)%refines_implements Hh.
  unfold zend_hash_index_del, zend_hash_del_key_or_index.
  destruct (search_key_spec s l cs (fun _ b =>
        (h b =? hv) && (nKeyLength b =? 0)
        && ((nKeyLength b =? 0)
            || (memcmp (Z.to_nat 0) (cp_bytes (arKey b)) (cp_bytes null_ptr) =? 0))) hv (KInt hv))
    as (r & -> & Hres); [apply Him|done|..].
  - intros p b Hb. apply Bool.eq_iff_eq_true. rewrite bool_decide_eq_true. unfold bkey.
    case_goal; simpl; [|by rewrite andb_false_r].
    rewrite !andb_true_r, Z.eqb_eq. split; congruence.
  - intros b _. unfold bkey. case_goal; congruence.
  - simpl. destruct r as [p|]; [|by eapply del_absent].
    destruct Hres as (b & Hb & <-). by eapply del_found.
Qed.

(** Freeing along the global list. *)
Lemma free_list_spec l : forall fuel s,
  threaded (pListNext <$> heap s) l -> NoDup l -> (length l <= fuel)%nat ->
  exists t, free_list fuel (head l) s = Some t /\ ht t = ht s
    /\ (forall q, heap t !! q = if decide (q ∈ l) then None else heap s !! q)
    /\ dtor_log t = dtor_log s ++ (if pDestructor (ht s) then (view (heap s) l).*2 else []).
Proof.
  induction l as [|p l IH]; intros fuel s Hl Hnd Hf; simpl in *.
  { exists s. destruct fuel; simpl; (split; [done|]); (split; [done|]); (split; [done|]);
      case_goal; by rewrite app_nil_r. }
  destruct fuel as [|fuel]; simpl; [lia|]. destruct Hl as [HN Hl].
  rewrite lookup_fmap in HN. destruct (heap s !! p) as [b|] eqn:Hb; [|done]. simpl in *.
  assert (Hc : heap (call_dtor (data_of (pData b)) s) = heap s
    /\ ht (call_dtor (data_of (pData b)) s) = ht s) by (unfold call_dtor; by case_goal).
  destruct Hc as [Eh Et]. unfold pefree. rewrite Eh, Hb. simpl.
  apply NoDup_cons in Hnd as [Hp Hnd].
  replace (pListNext b) with (head l) by congruence.
  set (s1 := with_heap (delete p (heap s)) (call_dtor (data_of (pData b)) s)).
  destruct (IH fuel s1) as (t & Ht & Eht & Ehp & Elog); try done; [|lia|].
  { eapply threaded_frame; [done|]. intros q Hq. simpl.
    rewrite fmap_delete, lookup_delete_ne; [done|]. by intros ->. }
  exists t. split; [done|]. rewrite Eht, Elog. split; [done|]. split.
  - intros q. rewrite Ehp. simpl. repeat case_decide; try done.
    + exfalso. rewrite elem_of_cons in *. tauto.
    + assert (q = p) as -> by (rewrite elem_of_cons in *; tauto). apply lookup_delete_eq.
    + rewrite lookup_delete_ne; [done|]. intros ->. rewrite elem_of_cons in *. tauto.
  - rewrite (view_cons _ _ b) by done. simpl. rewrite Et.
    rewrite (view_ext (heap s) (delete p (heap s))).
    + unfold call_dtor. destruct (pDestructor (ht s)); simpl; [|done].
      by rewrite <- app_assoc.
    + intros q Hq. by rewrite lookup_delete_ne by (by intros ->).
Qed.
End Deleting.

(** ** Creating a table *)
Section Creating.
Context `{Platform} {V : Type}.

Lemma init_shift_spec fuel i nSize :
  3 <= i <= 31 -> 0 <= nSize < 2 ^ 31 -> (31 - i < Z.of_nat fuel) ->
  i <= init_shift fuel i nSize <= 31
  /\ nSize <= 2 ^ (init_shift fuel i nSize)
  /\ (init_shift fuel i nSize = i \/ 2 ^ (init_shift fuel i nSize - 1) < nSize).
Proof.
  revert i. induction fuel as [|fuel IH]; intros i Hi Hn Hf; [lia|]. simpl.
  rewrite Z.shiftl_mul_pow2 by lia. rewrite to_uint_small.
  2: { split; [lia|]. rewrite Z.mul_1_l. apply Z.pow_lt_mono_r; lia. }
  rewrite Z.mul_1_l. destruct (Z.ltb_spec (2 ^ i) nSize) as [Hlt|Hge]; [|lia].
  assert (i <> 31) by (intros ->; lia).
  destruct (IH (i + 1)) as (H1 & H2 & H3); [lia..|].
  split; [lia|]. split; [done|]. right. destruct H3 as [->|]; [|done].
  by replace (i + 1 - 1) with i by lia.
Qed.

Lemma init_size nSize dtor pers :
  0 <= nSize < 2 ^ 32 ->
  exists j, 3 <= j <= 31 /\ nTableSize (ht (_zend_hash_init (V := V) nSize dtor pers)) = 2 ^ j
    /\ (nSize <= 2 ^ 31 -> nSize <= 2 ^ j)
    /\ (j = 3 \/ 2 ^ (j - 1) < nSize).
Proof.
  intros Hn. unfold _zend_hash_init. cbn [ht nTableSize].
  destruct (Z.leb_spec 0x80000000 nSize) as [Hge|Hlt].
  { exists 31. lia. }
  destruct (init_shift_spec 32 3 nSize) as (H1 & H2 & H3); [lia..|].
  exists (init_shift 32 3 nSize). split; [done|]. split.
  { rewrite Z.shiftl_mul_pow2, Z.mul_1_l by lia. apply to_uint_small.
    split; [lia|]. apply Z.pow_lt_mono_r; lia. }
  done.
Qed.

Lemma init_refines nSize dtor pers :
  0 <= nSize < 2 ^ 32 -> refines (V := V) (_zend_hash_init nSize dtor pers) (OrdMap [] None 0).
Proof.
  intros Hn. destruct (init_size nSize dtor pers Hn) as (j & Hj & Hsz & _).
  pose proof LONG_MAX_pos. exists [], [[]]. split; [|done].
  split; simpl; try done; try lia.
  - split; [constructor|apply linked_nil|done|done].
  - intros p. rewrite lookup_empty. split; [by intros []|by intros ?%not_elem_of_nil].
  - split; simpl; try done.
    + intros [|k] c; simpl; [by intros [= <-]|by rewrite lookup_nil].
    + intros [|k] c; simpl; [intros [= <-]; constructor|by rewrite lookup_nil].
    + intros [|k] c; simpl; [intros [= <-]; apply linked_nil|by rewrite lookup_nil].
    + intros [|k] c p; simpl; [intros [= <-]|by rewrite lookup_nil].
      split; [by intros ?%not_elem_of_nil|by intros [?%not_elem_of_nil _]].
  - split; simpl; [|done|by left]. exists j. by split.
Qed.
End Creating.
