(* ===== verification/HashBulk.v ===== *)
(** * HashBulk: the operations of zend_hash.c on whole tables

    Applying a callback, copying, merging, sorting, comparing, splicing and
    changing the key of an element, and the symbol-table wrappers of
    zend_hash.h that turn decimal strings into integer keys.  Callbacks are
    parameters: they see and may change the data they are given and a state of
    their own, and do not call back into the table. *)
From S2P Require Import Prelude DList HashDefs.

(** A call that returns, or ends the request in [zend_error(E_ERROR)]. *)
Inductive outcome (A : Type) := Done (x : A) | Bailout.
Arguments Done {A} x.
Arguments Bailout {A}.

Section Bulk.
Context `{Platform} {V : Type} `{Malloc V}.
Implicit Types (s : hstate V) (p q : addr) (b : Bucket V).

(** [HASH_PROTECT_RECURSION]: [None] when the nesting limit is exceeded, after
    the count has been raised; [nApplyCount] is an [unsigned char]. *)
Definition HASH_PROTECT_RECURSION s : hstate V * bool :=
  if bApplyProtection (ht s) then
    (on_ht (fun t => set_nApplyCount (to_uchar (nApplyCount t + 1)) t) s,
     3 <=? nApplyCount (ht s))
  else (s, false).
Definition HASH_UNPROTECT_RECURSION s : hstate V :=
  if bApplyProtection (ht s) then
    on_ht (fun t => set_nApplyCount (to_uchar (nApplyCount t - 1)) t) s
  else s.

(** The data a callback wrote through [pData]. *)
Definition set_data (v : V) b : Bucket V :=
  set_pData (match pData b with DInline _ => DInline v | DBlock _ => DBlock v end) b.

(** The loop shared by the apply functions; [next] is [pListNext], or
    [pListLast] in [zend_hash_reverse_apply]. *)
Fixpoint apply_loop {U} (fuel : nat) (f : U -> Bucket V -> Z * V * U)
    (next : Bucket V -> option addr) (p : option addr) (u : U) s : option (hstate V * U) :=
  match p with
  | None => Some (s, u)
  | Some a =>
      match fuel with
      | O => None
      | S fuel =>
          b ← heap s !! a;
          let '(result, v, u) := f u b in
          s ← write a (set_data v) s;
          let p_next := next b in
          s ← (if has_flag result ZEND_HASH_APPLY_REMOVE
               then zend_hash_bucket_delete a s else Some s);
          if has_flag result ZEND_HASH_APPLY_STOP then Some (s, u)
          else apply_loop fuel f next p_next u s
      end
  end.

Definition protected_apply {U} (f : U -> Bucket V -> Z * V * U)
    (start : HashTable -> option addr) (next : Bucket V -> option addr) (u : U) s :
    option (outcome U * hstate V) :=
  let '(s, deep) := HASH_PROTECT_RECURSION s in
  if deep : bool then Some (Bailout, s)
  else
    '(s, u) ← apply_loop (size (heap s)) f next (start (ht s)) u s;
    Some (Done u, HASH_UNPROTECT_RECURSION s).

Definition zend_hash_apply {U} (apply_func : U -> V -> Z * V * U) (u : U) s :=
  protected_apply (fun u b => apply_func u (data_of (pData b))) pListHead pListNext u s.

Definition zend_hash_apply_with_argument {U A} (apply_func : U -> V -> A -> Z * V * U)
    (argument : A) (u : U) s :=
  protected_apply (fun u b => apply_func u (data_of (pData b)) argument)
    pListHead pListNext u s.

(** [zend_hash_key]: the key as the callback sees it. *)
Record zend_hash_key := MkHashKey { hk_arKey : char_ptr; hk_nKeyLength : Z; hk_h : Z }.
Definition key_of b : zend_hash_key := MkHashKey (arKey b) (nKeyLength b) (h b).

Definition zend_hash_apply_with_arguments {U A}
    (apply_func : U -> V -> A -> zend_hash_key -> Z * V * U) (args : A) (u : U) s :=
  protected_apply (fun u b => apply_func u (data_of (pData b)) args (key_of b))
    pListHead pListNext u s.

Definition zend_hash_reverse_apply {U} (apply_func : U -> V -> Z * V * U) (u : U) s :=
  protected_apply (fun u b => apply_func u (data_of (pData b))) pListTail pListLast u s.

(** [if (pCopyConstructor) pCopyConstructor(new_entry)] *)
Definition copy_construct (ctor : option (V -> V)) (dest : option addr) s : option (hstate V) :=
  match ctor, dest with
  | Some c, Some p => write p (fun b => set_data (c (data_of (pData b))) b) s
  | _, _ => Some s
  end.

Fixpoint copy_loop (fuel : nat) (source : hstate V) (setTargetPointer : bool)
    (ctor : option (V -> V)) (size : Z) (p : option addr) s : option (hstate V) :=
  match p with
  | None => Some s
  | Some a =>
      match fuel with
      | O => None
      | S fuel =>
          b ← heap source !! a;
          let s := if setTargetPointer && bool_decide (pInternalPointer (ht source) = Some a)
                   then on_ht (set_pInternalPointer None) s else s in
          '(s, _, dest) ←
            (if nKeyLength b =? 0 then zend_hash_index_update (h b) (data_of (pData b)) size s
             else zend_hash_quick_update (arKey b) (nKeyLength b) (h b) (data_of (pData b)) size s);
          s ← copy_construct ctor dest s;
          copy_loop fuel source setTargetPointer ctor size (pListNext b) s
      end
  end.

Definition zend_hash_copy (source : hstate V) (ctor : option (V -> V)) (sz : Z) s :
    option (hstate V) :=
  let setTargetPointer := if pInternalPointer (ht s) is None then true else false in
  s ← copy_loop (size (heap source)) source setTargetPointer ctor sz (pListHead (ht source)) s;
  Some (match pInternalPointer (ht s) with
        | None => on_ht (fun t => set_pInternalPointer (pListHead t) t) s
        | Some _ => s
        end).

Fixpoint merge_loop (fuel : nat) (source : hstate V) (mode : Z)
    (ctor : option (V -> V)) (sz : Z) (p : option addr) s : option (hstate V) :=
  match p with
  | None => Some s
  | Some a =>
      match fuel with
      | O => None
      | S fuel =>
          b ← heap source !! a;
          s ← (if 0 <? nKeyLength b then
                 '(s, r, dest) ← _zend_hash_quick_add_or_update (arKey b) (nKeyLength b) (h b)
                                   (data_of (pData b)) sz mode s;
                 if decide (r = SUCCESS) then copy_construct ctor dest s else Some s
               else
                 skip ← (if mode =? HASH_UPDATE then Some false
                         else zend_hash_index_exists (h b) s);
                 if skip : bool then Some s
                 else
                   '(s, r, dest) ← zend_hash_index_update (h b) (data_of (pData b)) sz s;
                   if decide (r = SUCCESS) then copy_construct ctor dest s else Some s);
          merge_loop fuel source mode ctor sz (pListNext b) s
      end
  end.

Definition _zend_hash_merge (source : hstate V) (ctor : option (V -> V)) (sz : Z)
    (overwrite : bool) s : option (hstate V) :=
  let mode := if overwrite then HASH_UPDATE else HASH_ADD in
  s ← merge_loop (size (heap source)) source mode ctor sz (pListHead (ht source)) s;
  Some (on_ht (fun t => set_pInternalPointer (pListHead t) t) s).

Definition zend_hash_replace_checker_wrapper (target : hstate V) b
    (merge_checker_func : hstate V -> V -> zend_hash_key -> bool) : bool :=
  merge_checker_func target (data_of (pData b)) (key_of b).

Fixpoint merge_ex_loop (fuel : nat) (source : hstate V)
    (pMergeSource : hstate V -> V -> zend_hash_key -> bool)
    (ctor : option (V -> V)) (sz : Z) (p : option addr) s : option (hstate V) :=
  match p with
  | None => Some s
  | Some a =>
      match fuel with
      | O => None
      | S fuel =>
          b ← heap source !! a;
          s ← (if zend_hash_replace_checker_wrapper s b pMergeSource then
                 '(s, r, dest) ← zend_hash_quick_update (arKey b) (nKeyLength b) (h b)
                                   (data_of (pData b)) sz s;
                 if decide (r = SUCCESS) then copy_construct ctor dest s else Some s
               else Some s);
          merge_ex_loop fuel source pMergeSource ctor sz (pListNext b) s
      end
  end.

Definition zend_hash_merge_ex (source : hstate V) (ctor : option (V -> V)) (sz : Z)
    (pMergeSource : hstate V -> V -> zend_hash_key -> bool) s : option (hstate V) :=
  s ← merge_ex_loop (size (heap source)) source pMergeSource ctor sz (pListHead (ht source)) s;
  Some (on_ht (fun t => set_pInternalPointer (pListHead t) t) s).

(** [arTmp]: the buckets in list order. *)
Fixpoint collect (fuel : nat) (m : gmap addr (Bucket V)) (p : option addr) :
    option (list (addr * Bucket V)) :=
  match p with
  | None => Some []
  | Some a =>
      match fuel with
      | O => None
      | S fuel => b ← m !! a; l ← collect fuel m (pListNext b); Some ((a, b) :: l)
      end
  end.

(** [arTmp[j]->pListLast = arTmp[j-1]; arTmp[j]->pListNext = arTmp[j+1]],
    with [NULL] at both ends. *)
Fixpoint relink (prev : option addr) (l : list addr) s : option (hstate V) :=
  match l with
  | [] => Some s
  | p :: l =>
      s ← write p (fun b => set_pListNext (head l) (set_pListLast prev b)) s;
      relink (Some p) l s
  end.

Definition zend_hash_sort
    (sort_func : (addr * Bucket V -> addr * Bucket V -> Z) ->
                 list (addr * Bucket V) -> list (addr * Bucket V))
    (compar : Bucket V -> Bucket V -> Z) (renumber : bool) s : option (hstate V) :=
  let n := nNumOfElements (ht s) in
  if negb (1 <? n) && negb (renumber && (0 <? n)) then Some s
  else
    arTmp ← collect (size (heap s)) (heap s) (pListHead (ht s));
    let arTmp := (sort_func (fun x y => compar x.2 y.2) arTmp).*1 in
    let s := on_ht (fun t => set_pInternalPointer (head arTmp)
                      (set_pListTail None (set_pListHead (head arTmp) t))) s in
    s ← relink None arTmp s;
    let s := on_ht (set_pListTail (last arTmp)) s in
    if renumber then zend_hash_reindex false s else Some s.

(** [p1], and [p2] when [ordered], run over the two tables. *)
Fixpoint compare_loop (fuel : nat) (m1 : gmap addr (Bucket V)) (s2 : hstate V)
    (compar : V -> V -> Z) (ordered : bool) (p1 p2 : option addr) : option Z :=
  match p1 with
  | None => Some 0
  | Some a1 =>
      match fuel with
      | O => None
      | S fuel =>
          b1 ← m1 !! a1;
          if ordered then
            match p2 with
            | None => Some 1
            | Some a2 =>
                b2 ← heap s2 !! a2;
                let keys :=
                  if (nKeyLength b1 =? 0) && (nKeyLength b2 =? 0) then
                    if h b1 =? h b2 then 0 else if h b2 <? h b1 then 1 else -1
                  else
                    let d := to_int (nKeyLength b1 - nKeyLength b2) in
                    if d =? 0 then
                      memcmp (Z.to_nat (nKeyLength b1)) (cp_bytes (arKey b1)) (cp_bytes (arKey b2))
                    else d in
                if keys =? 0 then
                  let r := compar (data_of (pData b1)) (data_of (pData b2)) in
                  if r =? 0 then compare_loop fuel m1 s2 compar ordered (pListNext b1) (pListNext b2)
                  else Some r
                else Some keys
            end
          else
            found ← (if nKeyLength b1 =? 0 then zend_hash_index_find (h b1) s2
                     else zend_hash_quick_find (arKey b1) (nKeyLength b1) (h b1) s2);
            match found with
            | None => Some 1
            | Some a2 =>
                b2 ← heap s2 !! a2;
                let r := compar (data_of (pData b1)) (data_of (pData b2)) in
                if r =? 0 then compare_loop fuel m1 s2 compar ordered (pListNext b1) p2
                else Some r
            end
      end
  end.

Definition zend_hash_compare (s1 s2 : hstate V) (compar : V -> V -> Z) (ordered : bool) :
    option (outcome Z * hstate V * hstate V) :=
  let '(s1, deep1) := HASH_PROTECT_RECURSION s1 in
  if deep1 : bool then Some (Bailout, s1, s2)
  else
    let '(s2, deep2) := HASH_PROTECT_RECURSION s2 in
    if deep2 : bool then Some (Bailout, s1, s2)
    else
      let result := to_int (nNumOfElements (ht s1) - nNumOfElements (ht s2)) in
      r ← (if result =? 0 then
             compare_loop (size (heap s1)) (heap s1) s2 compar ordered (pListHead (ht s1))
               (if ordered then pListHead (ht s2) else None)
           else Some result);
      Some (Done r, HASH_UNPROTECT_RECURSION s1, HASH_UNPROTECT_RECURSION s2).

Fixpoint minmax_loop (fuel : nat) (m : gmap addr (Bucket V))
    (compar : Bucket V -> Bucket V -> Z) (flag : bool)
    (res : addr * Bucket V) (p : option addr) : option addr :=
  match p with
  | None => Some res.1
  | Some a =>
      match fuel with
      | O => None
      | S fuel =>
          b ← m !! a;
          let c := compar res.2 b in
          minmax_loop fuel m compar flag
            (if (if flag then c <? 0 else 0 <? c) then (a, b) else res) (pListNext b)
      end
  end.

(** [Some p] is [SUCCESS] with [*pData = p->pData]. *)
Definition zend_hash_minmax (compar : Bucket V -> Bucket V -> Z) (flag : bool) s :
    option (option addr) :=
  if nNumOfElements (ht s) =? 0 then Some None
  else
    p ← pListHead (ht s);
    b ← heap s !! p;
    r ← minmax_loop (size (heap s)) (heap s) compar flag (p, b) (pListNext b);
    Some (Some r).
End Bulk.

(** ** Changing the key of an element *)
Section UpdateKey.
Context `{Platform} {V : Type} `{Malloc V}.
(** [INTERNED_HASH]: the hash stored with an interned string. *)
Context (INTERNED_HASH : char_ptr -> Z).
Implicit Types (s : hstate V) (p q : addr) (b : Bucket V).

(** [while (r) { if (r == q) break; r = r->pListLast; }] *)
Fixpoint precedes (fuel : nat) (m : gmap addr (Bucket V)) q (r : option addr) : option bool :=
  match r with
  | None => Some false
  | Some x =>
      match fuel with
      | O => None
      | S fuel =>
          if decide (x = q) then Some true
          else b ← m !! x; precedes fuel m q (pListLast b)
      end
  end.

(** The test for a bucket that already has the new key: [inl] when the
    function returns at once, else the string length, the hash and the other
    bucket. *)
Definition find_new_key (key_type : Z) (str_index : char_ptr) (str_length num_index : Z) b s :
    option (zend_result + Z * Z * option addr) :=
  if key_type =? HASH_KEY_IS_LONG then
    if (nKeyLength b =? 0) && (h b =? num_index) then Some (inl SUCCESS)
    else q ← search_chain num_index (index_match num_index) s;
         Some (inr (0, num_index, q))
  else if key_type =? HASH_KEY_IS_STRING then
    let hv := if IS_INTERNED str_index then INTERNED_HASH str_index
              else zend_inline_hash_func (cp_bytes str_index) str_length in
    if bool_decide (cp_addr (arKey b) = cp_addr str_index)
       || ((nKeyLength b =? str_length) && (h b =? hv)
           && (memcmp (Z.to_nat str_length) (cp_bytes (arKey b)) (cp_bytes str_index) =? 0))
    then Some (inl SUCCESS)
    else q ← search_chain hv (key_match str_index str_length hv) s;
         Some (inr (str_length, hv, q))
  else Some (inl FAILURE).

(** Unlink [p] from its chain and, when the key does not fit in the block,
    move it to a new one; [(p, pos)] after the move. *)
Definition move_bucket p (str_index : char_ptr) (str_length : Z)
    (pos : option (option addr)) s : option (hstate V * addr * option (option addr)) :=
  b ← heap s !! p;
  s ← match pNext b with
      | Some n => write n (set_pLast (pLast b)) s
      | None => Some s
      end;
  s ← match pLast b with
      | Some q => write q (set_pNext (pNext b)) s
      | None => put_slot (slot (h b) s) (pNext b) s
      end;
  if negb (bool_decide (IS_INTERNED (arKey b) = IS_INTERNED str_index))
     || (negb (IS_INTERNED (arKey b)) && negb (nKeyLength b =? str_length))
  then
    let '(q, junk) := pemalloc (heap s) in
    let s := with_heap (<[q := set_pData (pData b) (set_nKeyLength str_length junk)]> (heap s)) s in
    s ← CONNECT_TO_GLOBAL_DLLIST_EX q (pListLast b) (pListNext b) s;
    let s := if decide (pInternalPointer (ht s) = Some p)
             then on_ht (set_pInternalPointer (Some q)) s else s in
    s ← pefree p s;
    Some (s, q, if pos is Some _ then Some (Some q) else None)
  else Some (s, p, pos).

Definition zend_hash_update_current_key_ex (key_type : Z) (str_index : char_ptr)
    (str_length num_index mode : Z) (pos : option (option addr)) s :
    option (hstate V * option (option addr) * zend_result) :=
  match current_pos pos s with
  | None => Some (s, pos, FAILURE)
  | Some p =>
      b ← heap s !! p;
      found ← find_new_key key_type str_index str_length num_index b s;
      match found with
      | inl r => Some (s, pos, r)
      | inr (str_length, hv, q) =>
          refused ←
            match q with
            | Some q =>
                if mode =? HASH_UPDATE_KEY_ANYWAY then Some false
                else
                  before ← precedes (size (heap s)) (heap s) q (pListLast b);
                  Some (has_flag mode (if before : bool then HASH_UPDATE_KEY_IF_AFTER
                                       else HASH_UPDATE_KEY_IF_BEFORE))
            | None => Some false
            end;
          if refused : bool then
            s ← zend_hash_bucket_delete p s; Some (s, pos, FAILURE)
          else
            s ← (if q is Some q then zend_hash_bucket_delete q s else Some s);
            '(s, p, pos) ← move_bucket p str_index str_length pos s;
            s ← (if key_type =? HASH_KEY_IS_LONG then
                   s ← write p (set_h num_index) s; Some (on_ht (bump_next_free num_index) s)
                 else
                   let key := if IS_INTERNED str_index then str_index
                              else CharPtr (KBucket p)
                                     (take (Z.to_nat str_length) (cp_bytes str_index)) in
                   write p (fun b => set_arKey key (set_nKeyLength str_length (set_h hv b))) s);
            let nIndex := slot hv s in
            hd ← get_slot nIndex s;
            s ← CONNECT_TO_BUCKET_DLLIST p hd s;
            s ← put_slot nIndex (Some p) s;
            Some (s, pos, SUCCESS)
      end
  end.
End UpdateKey.

(** ** Splicing *)
Section Splice.
Context `{Platform} {V : Type} `{Malloc V}.
Implicit Types (s : hstate V) (p q : addr) (b : Bucket V).

(** [for (pos = 0, p = ht->pListHead; pos < offset && p; pos++, p = p->pListNext)] *)
Fixpoint splice_skip (fuel : nat) (m : gmap addr (Bucket V)) (pos offset : Z)
    (p : option addr) : option (Z * option addr) :=
  if pos <? offset then
    match p with
    | None => Some (pos, None)
    | Some a =>
        match fuel with
        | O => None
        | S fuel => b ← m !! a; splice_skip fuel m (pos + 1) offset (pListNext b)
        end
    end
  else Some (pos, p).

(** Deleting the elements before [limit], each copied to [removed] first. *)
Fixpoint splice_remove (fuel : nat) (ctor : option (V -> V)) (pos limit : Z)
    (p : option addr) (removed : option (hstate V)) s :
    option (hstate V * option (hstate V) * option addr) :=
  if pos <? limit then
    match p with
    | None => Some (s, removed, None)
    | Some a =>
        match fuel with
        | O => None
        | S fuel =>
            b ← heap s !! a;
            removed ←
              match removed with
              | None => Some None
              | Some r =>
                  '(r, _, dest) ←
                    (if nKeyLength b =? 0
                     then zend_hash_next_index_insert (data_of (pData b)) sizeof_voidp r
                     else zend_hash_quick_update (arKey b) (nKeyLength b) (h b)
                            (data_of (pData b)) sizeof_voidp r);
                  r ← match ctor, dest with
                      | Some c, Some d =>
                          write d (fun b => set_data (c (data_of (pData b))) b) r
                      | _, _ => Some r
                      end;
                  Some (Some r)
              end;
            s ← zend_hash_bucket_delete a s;
            splice_remove fuel ctor (pos + 1) limit (pListNext b) removed s
        end
    end
  else Some (s, removed, p).

(** New elements go before [p], into the global list only. *)
Fixpoint splice_insert (ctor : option (V -> V)) (nDataSize : Z) (p : option addr)
    (list : list V) s : option (hstate V) :=
  match list with
  | [] => Some s
  | v :: list =>
      let '(q, junk) := pemalloc (heap s) in
      let s := with_heap (<[q := new_index_bucket 0 v nDataSize junk]> (heap s)) s in
      last ← match p with
             | Some a => b ← heap s !! a; Some (pListLast b)
             | None => Some (pListTail (ht s))
             end;
      s ← CONNECT_TO_GLOBAL_DLLIST_EX q last p s;
      let s := on_ht (fun t => set_nNumOfElements (to_uint (nNumOfElements t + 1)) t) s in
      s ← match ctor with
          | Some c => write q (fun b => set_data (c (data_of (pData b))) b) s
          | None => Some s
          end;
      splice_insert ctor nDataSize p list s
  end.

Definition _zend_hash_splice (nDataSize : Z) (ctor : option (V -> V)) (offset len : Z)
    (list : option (list V)) (removed : option (hstate V)) s :
    option (hstate V * option (hstate V)) :=
  let s := CHECK_INIT s in
  '(pos, p) ← splice_skip (size (heap s)) (heap s) 0 offset (pListHead (ht s));
  '(s, removed, p) ← splice_remove (size (heap s)) ctor pos (to_uint (offset + len)) p removed s;
  s ← match list with
      | Some list => s ← splice_insert ctor nDataSize p list s; ZEND_HASH_IF_FULL_DO_RESIZE s
      | None => Some s
      end;
  s ← zend_hash_reindex true s;
  Some (s, removed).
End Splice.

(** ** Symbol tables: decimal strings are integer keys *)
Section Symtable.
Context `{Platform} {V : Type} `{Malloc V}.
Implicit Types (s : hstate V).

Definition MAX_LENGTH_OF_LONG : Z := match long_kind with LONG32 => 11 | LONG64 => 20 end.

Definition is_digit (c : Z) : bool := (48 <=? c) && (c <=? 57).

(** [while (++tmp != end && *tmp >= '0' && *tmp <= '9') idx = idx*10 + ...]:
    [rest] are the bytes between [tmp] and [end]; the remaining bytes are
    returned with [idx]. *)
Fixpoint numeric_loop (idx : Z) (rest : list Z) : Z * list Z :=
  match rest with
  | c :: rest' =>
      if is_digit c then numeric_loop (to_ulong (to_ulong (idx * 10) + (c - 48))) rest'
      else (idx, rest)
  | [] => (idx, [])
  end.

(** [ZEND_HANDLE_NUMERIC_EX]: [Some idx] when [func] is run with [idx].
    [length] counts the terminating NUL. *)
Definition ZEND_HANDLE_NUMERIC_EX (key : list Z) (length : Z) : option Z :=
  let neg := match key with c :: _ => c =? 45 | [] => false end in
  let tmp := if neg then 1%nat else 0%nat in
  match drop tmp key with
  | [] => None
  | c :: _ =>
      if is_digit c then
        let dist := length - 1 - Z.of_nat tmp in (* end - tmp *)
        if negb (default (-1) (key !! Z.to_nat (length - 1)) =? 0)
           || ((c =? 48) && (2 <? length))
           || (MAX_LENGTH_OF_LONG - 1 <? dist)
           || ((SIZEOF_LONG =? 4) && (dist =? MAX_LENGTH_OF_LONG - 1) && (50 <? c))
        then None
        else
          let '(idx, rest) :=
            numeric_loop (c - 48)
              (take (Z.to_nat (length - 1) - S tmp) (drop (S tmp) key)) in
          match rest with
          | [] =>
              if neg then
                if LONG_MAX <? to_ulong (idx - 1) then None else Some (to_ulong (0 - idx))
              else if LONG_MAX <? idx then None else Some idx
          | _ => None
          end
      else None
  end.

Definition zend_symtable_update (k : char_ptr) (len : Z) (v : V) (nDataSize : Z) s :=
  match ZEND_HANDLE_NUMERIC_EX (cp_bytes k) len with
  | Some idx => zend_hash_index_update idx v nDataSize s
  | None => zend_hash_update k len v nDataSize s
  end.
Definition zend_symtable_del (k : char_ptr) (len : Z) s :=
  match ZEND_HANDLE_NUMERIC_EX (cp_bytes k) len with
  | Some idx => zend_hash_index_del idx s
  | None => zend_hash_del k len s
  end.
Definition zend_symtable_find (k : char_ptr) (len : Z) s :=
  match ZEND_HANDLE_NUMERIC_EX (cp_bytes k) len with
  | Some idx => zend_hash_index_find idx s
  | None => zend_hash_find k len s
  end.
Definition zend_symtable_exists (k : char_ptr) (len : Z) s :=
  match ZEND_HANDLE_NUMERIC_EX (cp_bytes k) len with
  | Some idx => zend_hash_index_exists idx s
  | None => zend_hash_exists k len s
  end.
End Symtable.
