(* ===== verification/HashBulkRefine.v ===== *)
(** * HashBulkRefine: whole-table operations against the ordered map *)
From S2P Require Import Prelude DList HashDefs HashInv HashLemmas HashRefine HashBulk.

(** ** Applying a callback to every entry *)
Section ApplySpec.
Context `{Platform} {V U : Type}.

(** What a callback [g] does to a list of entries: the entries left, the
    callback's state, the values released. *)
Fixpoint apply_entries (g : U -> hkey * V -> Z * V * U) (u : U) (l : list (hkey * V)) :
    list (hkey * V) * U * list V :=
  match l with
  | [] => ([], u, [])
  | (k, v) :: l =>
      let '(r, v', u) := g u (k, v) in
      let keep := if has_flag r ZEND_HASH_APPLY_REMOVE then [] else [(k, v')] in
      let gone := if has_flag r ZEND_HASH_APPLY_REMOVE then [v'] else [] in
      if has_flag r ZEND_HASH_APPLY_STOP then (keep ++ l, u, gone)
      else
        let '(l', u', g') := apply_entries g u l in (keep ++ l', u', gone ++ g')
  end.
End ApplySpec.

Section Apply.
Context `{Platform} {V : Type} `{!Malloc V}.
Implicit Types (s t : hstate V) (b : Bucket V) (l : list addr) (cs : list (list addr)).
Implicit Types (a : ordmap V).

Lemma data_set_data v b : data_of (pData (set_data v b)) = v.
Proof. unfold set_data. simpl. by destruct (pData b). Qed.

(** A callback writing through [pData] keeps the map but for one value. *)
Lemma write_data_implements s l1 p l2 cs a v :
  implements s (l1 ++ p :: l2) cs a ->
  exists b t, heap s !! p = Some b
    /\ write p (set_data v) s = Some t /\ heap t = <[p := set_data v b]> (heap s)
    /\ ht t = ht s /\ dtor_log t = dtor_log s
    /\ implements t (l1 ++ p :: l2) cs (om_replace (length l1) (bkey b) v a).
Proof.
  intros Him. pose proof (im_wf _ _ _ _ Him) as Hwf.
  assert (is_Some (heap s !! p)) as [b Hb].
  { apply (wf_dom _ _ _ Hwf), elem_of_app. right. by left. }
  exists b. unfold write. rewrite Hb. simpl. eexists; split; [done|]. split; [done|].
  simpl. split; [done|]. split; [done|]. split; [done|].
  assert (Hwf' : wf (with_heap (<[p:=set_data v b]> (heap s)) s) (l1 ++ p :: l2) cs)
    by (by eapply wf_set_data).
  split; [done| |apply Him|apply Him|apply Him]. simpl.
  rewrite <- (im_view _ _ _ _ Him).
  pose proof (view_set_data s (l1 ++ p :: l2) cs (length l1) p b _
    (with_heap (<[p:=set_data v b]> (heap s)) s) Hwf
    ltac:(by rewrite list_lookup_middle) Hb eq_refl Hwf') as Hv.
  simpl in Hv. rewrite Hv. do 2 f_equal. by destruct (pData b).
Qed.

Lemma apply_loop_spec {U} (f : U -> Bucket V -> Z * V * U) (g : U -> hkey * V -> Z * V * U)
    (l2 : list addr) : forall fuel s l1 cs a u,
  (forall u b, f u b = g u (entry b)) ->
  implements s (l1 ++ l2) cs a -> (length l2 <= fuel)%nat ->
  exists t u' gone rest l cs' a',
    apply_loop fuel f pListNext (head l2) u s = Some (t, u')
    /\ apply_entries g u (view (heap s) l2) = (rest, u', gone)
    /\ implements t l cs' a'
    /\ om_entries a' = view (heap s) l1 ++ rest /\ om_next a' = om_next a
    /\ dtor_log t = dtor_log s ++ (if pDestructor (ht s) then gone else [])
    /\ nApplyCount (ht t) = nApplyCount (ht s)
    /\ bApplyProtection (ht t) = bApplyProtection (ht s).
Proof.
  induction l2 as [|p l2 IH]; intros fuel s l1 cs a u Hfg Him Hfuel; simpl in *.
  { exists s, u, [], [], (l1 ++ []), cs, a. rewrite !app_nil_r in *.
    destruct fuel; simpl; rewrite (im_view _ _ _ _ Him); case_goal; auto 10 using app_nil_r. }
  destruct fuel as [|fuel]; simpl; [lia|].
  pose proof (linked_middle _ _ _ _ _ (gl_linked _ _ (wf_glob _ _ _ (im_wf _ _ _ _ Him))))
    as [HN _].
  rewrite lookup_fmap in HN. destruct (heap s !! p) as [b|] eqn:Hb; [|done]. simpl in *.
  injection HN as HN. rewrite (view_cons _ _ b) by done. simpl.
  rewrite (Hfg u b). unfold entry.
  destruct (g u (bkey b, data_of (pData b))) as [[r v'] u1] eqn:Hg.
  destruct (write_data_implements s l1 p l2 cs a v' Him)
    as (b' & s1 & Hb' & -> & Eh1 & Et1 & El1 & Him1). simplify_eq. simpl.
  assert (Hv1 : forall l', p ∉ l' -> view (heap s1) l' = view (heap s) l').
  { intros l' Hp. apply view_ext. intros q Hq. rewrite Eh1, lookup_insert_ne; [done|].
    by intros ->. }
  pose proof (gl_nodup _ _ (wf_glob _ _ _ (im_wf _ _ _ _ Him)))
    as (_ & Hnd2 & [Hp2 _]%NoDup_cons)%NoDup_app.
  assert (Hp1 : p ∉ l1). { intros Hin. apply (Hnd2 p Hin). by left. }
  destruct (has_flag r ZEND_HASH_APPLY_REMOVE).
  - destruct (delete_refines s1 cs l1 p l2 _ Him1)
      as (b1 & s2 & cs2 & Hb1 & Hdel & Him2 & Hul & Hlog2).
    unfold zend_hash_bucket_delete. rewrite Hdel. simpl.
    assert (Hb1d : data_of (pData b1) = v').
    { rewrite Eh1, lookup_insert_eq in Hb1. simplify_eq. apply data_set_data. }
    assert (Hv2 : forall l', p ∉ l' -> view (heap s2) l' = view (heap s) l').
    { intros l' Hp. rewrite <- Hv1 by done. apply view_ext. intros q Hq.
      pose proof (f_equal (lookup q) (ul_core _ _ _ _ Hul)) as E.
      rewrite lookup_delete_ne, !lookup_fmap in E by (by intros ->).
      destruct (heap s2 !! q), (heap s1 !! q); try done. simpl in *. f_equal.
      apply core_entry. congruence. }
    rewrite Et1 in Hlog2. rewrite Hb1d, El1 in Hlog2.
    pose proof (ul_dtor _ _ _ _ Hul) as Ed. pose proof (ul_apply _ _ _ _ Hul) as Ea.
    pose proof (ul_prot _ _ _ _ Hul) as Ep. rewrite Et1 in Ed, Ea, Ep.
    destruct (has_flag r ZEND_HASH_APPLY_STOP).
    + exists s2, u1, [v'], (view (heap s) l2), (l1 ++ l2), cs2; eexists.
      split; [done|]. split; [done|]. split; [exact Him2|].
      split; [|done]. rewrite <- (im_view _ _ _ _ Him2), view_app, !Hv2; done.
    + destruct (IH fuel s2 l1 cs2 _ u1 Hfg Him2) as
        (t & u' & gone & rest & l & cs' & a' & Hrun & Hsp & Him' & He & Hnx & Hlg & Hac & Hpr);
        [lia|].
      rewrite HN, Hrun. rewrite Hv2 in Hsp, He by done. rewrite Hsp.
      exists t, u', (v' :: gone), rest, l, cs', a'. split; [done|]. split; [done|].
      split; [done|]. split; [done|]. split; [done|].
      rewrite Hlg, Hlog2, Ed, Hac, Hpr. split; [|done].
      destruct (pDestructor (ht s)); [by rewrite <- app_assoc|by rewrite !app_nil_r].
  - simpl. destruct (has_flag r ZEND_HASH_APPLY_STOP).
    + exists s1, u1, [], ((bkey b, v') :: view (heap s) l2), (l1 ++ p :: l2), cs; eexists.
      split; [done|]. split; [done|]. split; [exact Him1|].
      split; [|rewrite Et1, El1; case_goal; by rewrite app_nil_r].
      rewrite <- (im_view _ _ _ _ Him1), view_app, (view_cons _ p (set_data v' b)), !Hv1; try done.
      * unfold entry. by rewrite data_set_data.
      * by rewrite Eh1, lookup_insert_eq.
    + assert (Him1' : implements s1 ((l1 ++ [p]) ++ l2) cs (om_replace (length l1) (bkey b) v' a))
        by (by rewrite <- app_assoc).
      destruct (IH fuel s1 (l1 ++ [p]) cs _ u1 Hfg Him1') as
        (t & u' & gone & rest & l & cs' & a' & Hrun & Hsp & Him' & He & Hnx & Hlg & Hac & Hpr);
        [lia|].
      rewrite HN, Hrun. rewrite Hv1 in Hsp by done. rewrite Hsp.
      exists t, u', gone, ((bkey b, v') :: rest), l, cs', a'. split; [done|]. split; [done|].
      split; [done|]. rewrite He, Hnx, Hlg, Hac, Hpr, Et1, El1. split; [|done].
      rewrite view_app, (view_cons _ p (set_data v' b)), Hv1 by (done || by rewrite Eh1, lookup_insert_eq).
      rewrite <- app_assoc. simpl. unfold entry. by rewrite data_set_data.
Qed.
End Apply.

(** ** Renumbering *)
Section ReindexSpec.
Context {V : Type}.

(** Integer keys (all keys, unless [only]) become [off], [off + 1], ... *)
Fixpoint reindex_entries (only : bool) (off : Z) (l : list (hkey * V)) : list (hkey * V) :=
  match l with
  | [] => []
  | (k, v) :: l =>
      match k, only with
      | KStr s, true => (KStr s, v) :: reindex_entries only off l
      | _, _ => (KInt off, v) :: reindex_entries only (off + 1) l
      end
  end.

(** The number of keys given out. *)
Fixpoint reindex_count (only : bool) (l : list (hkey * V)) : Z :=
  match l with
  | [] => 0
  | (k, _) :: l =>
      match k, only with
      | KStr _, true => reindex_count only l
      | _, _ => 1 + reindex_count only l
      end
  end.

Lemma reindex_count_bounds only l : 0 <= reindex_count only l <= Z.of_nat (length l).
Proof. induction l as [|[[] v] l IH]; destruct only; simpl; lia. Qed.

Lemma reindex_keys only off l k :
  k ∈ (reindex_entries only off l).*1 ->
  match k with
  | KInt i => off <= i < off + reindex_count only l
  | KStr s => only = true /\ k ∈ l.*1
  end.
Proof.
  revert off. induction l as [|[k0 v] l IH]; intros off; simpl; [by intros ?%not_elem_of_nil|].
  pose proof (reindex_count_bounds only l).
  destruct k0 as [i0|s0], only; simpl; intros [->|Hin]%elem_of_cons; try lia;
    try (apply IH in Hin; destruct k; [lia|]; destruct Hin; split; [done|by right]).
  split; [done|by left].
Qed.

Lemma reindex_nodup only off l :
  NoDup l.*1 -> NoDup (reindex_entries only off l).*1.
Proof.
  revert off. induction l as [|[k0 v] l IH]; intros off Hnd; simpl in *; [done|].
  apply NoDup_cons in Hnd as [Hk Hnd].
  assert (Hint : KInt off ∉ (reindex_entries only (off + 1) l).*1).
  { intros Hin%reindex_keys. lia. }
  destruct k0 as [i0|s0], only; simpl; apply NoDup_cons; split; auto.
  intros [_ Hin]%reindex_keys. done.
Qed.
End ReindexSpec.

Section Reindex.
Context `{Platform} {V : Type}.
Implicit Types (s t : hstate V) (b : Bucket V) (l : list addr) (cs : list (list addr)).
Implicit Types (m : gmap addr (Bucket V)).

Lemma reindex_bucket_ok only : renum_ok (V := V) (reindex_bucket only).
Proof.
  split; intros acc b; unfold reindex_bucket.
  1, 2: by case_goal.
  - intros Ha Hh. case_goal; simpl; [|done]. split; [apply to_ulong_range|done].
  - intros b' E. rewrite (core_len _ _ E). case_goal; [|done]. split; [done|].
    unfold core in *. simpl. congruence.
Qed.

Lemma reindex_bucket_entry only off b :
  0 <= off -> off + 1 < 2 ^ LONG_BITS ->
  reindex_entries only off [entry b] = [entry (reindex_bucket only off b).2]
  /\ (reindex_bucket only off b).1 = off + reindex_count only [entry b].
Proof.
  intros H0 H1. unfold reindex_bucket, entry, bkey.
  assert (to_ulong (off + 1) = off + 1) as -> by (apply to_ulong_small; lia).
  destruct (nKeyLength b =? 0) eqn:E, only; simpl; rewrite ?E; simpl; split; (done || lia).
Qed.

Lemma reindex_cons only off (e : hkey * V) (l : list (hkey * V)) :
  reindex_entries only off (e :: l)
  = reindex_entries only off [e] ++ reindex_entries only (off + reindex_count only [e]) l.
Proof.
  destruct e as [[] v], only; simpl; do 2 f_equal; lia || (by rewrite Z.add_0_r).
Qed.

Lemma reindex_count_cons only (e : hkey * V) (l : list (hkey * V)) :
  reindex_count only (e :: l) = reindex_count only [e] + reindex_count only l.
Proof. destruct e as [[] v], only; simpl; lia. Qed.

Lemma renumber_spec only l : forall m off,
  NoDup l -> (forall p, p ∈ l -> is_Some (m !! p)) ->
  0 <= off -> off + Z.of_nat (length l) < 2 ^ LONG_BITS ->
  (forall p b, m !! p = Some b -> bucket_ok b) ->
  let r := renumber (reindex_bucket only) off m l in
  view r.1 l = reindex_entries only off (view m l)
  /\ r.2 = off + reindex_count only (view m l)
  /\ (forall p, is_Some (r.1 !! p) <-> is_Some (m !! p))
  /\ (forall p b, r.1 !! p = Some b -> bucket_ok b).
Proof.
  induction l as [|p l IH]; intros m off Hnd Ha H0 H1 Hok; simpl in *.
  { split; [done|]. split; [unfold view; simpl; lia|done]. }
  apply NoDup_cons in Hnd as [Hp Hnd]. destruct (Ha p) as [b Hb]; [by left|]. rewrite Hb.
  destruct (reindex_bucket_entry only off b) as [He Hc]; [lia..|].
  set (b' := (reindex_bucket only off b).2) in *. rewrite Hc.
  pose proof (reindex_count_bounds only [entry b]) as Hcb.
  change (length [entry b]) with 1%nat in Hcb.
  set (m' := <[p := b']> m).
  assert (Hm' : forall q, is_Some (m' !! q) <-> is_Some (m !! q)).
  { intros q. unfold m'. rewrite lookup_insert. case_decide; subst; [|done].
    rewrite Hb. split; eauto. }
  assert (Hok' : bucket_ok b').
  { pose proof (Hok p b Hb) as [K1 K2 K3]. subst b'. unfold reindex_bucket.
    case_goal; simpl; [|by split]. split; simpl; [lia|lia|done]. }
  destruct (IH m' (off + reindex_count only [entry b])) as (Hv & Hr & Hd & Ho); try done.
  - intros q Hq. apply Hm', Ha. by right.
  - lia.
  - lia.
  - intros q bq. unfold m'. rewrite lookup_insert. case_decide; [congruence|apply Hok].
  - assert (Evl : view m' l = view m l).
    { apply view_ext. intros q Hq. unfold m'. rewrite lookup_insert_ne; [done|]. by intros ->. }
    rewrite Evl in Hv, Hr. rewrite (view_cons m p b) by done.
    rewrite (view_cons _ p b').
    2: { apply renumber_fresh; [done|]. apply lookup_insert_eq. }
    split; [by rewrite reindex_cons, He, Hv|].
    split; [rewrite (reindex_count_cons only (entry b) (view m l)); lia|].
    split; [|done]. intros q. by rewrite Hd.
Qed.

(** Distinct keys in the view are distinct buckets. *)
Lemma keys_of_view (m : gmap addr (Bucket V)) l p q b b' :
  NoDup (view m l).*1 -> (forall p, p ∈ l -> is_Some (m !! p)) -> p ∈ l -> q ∈ l ->
  m !! p = Some b -> m !! q = Some b' -> bkey b = bkey b' -> p = q.
Proof.
  intros Hnd Ha. induction l as [|x l IH]; [by intros ?%not_elem_of_nil|].
  destruct (Ha x) as [bx Hx]; [by left|]. rewrite (view_cons m x bx) in Hnd by done.
  simpl in Hnd. apply NoDup_cons in Hnd as [Hk Hnd].
  assert (Hin : forall y by', y ∈ l -> m !! y = Some by' -> bkey by' ∈ (view m l).*1).
  { intros y by' Hy Hby. apply list_elem_of_fmap. exists (entry by'). split; [done|].
    unfold view. apply list_elem_of_omap. exists y. by rewrite Hby. }
  intros [->|Hp]%elem_of_cons [->|Hq]%elem_of_cons Hb Hb' E; simplify_eq; [done|..].
  - exfalso. apply Hk. rewrite E. eauto.
  - exfalso. apply Hk. rewrite <- E. eauto.
  - apply IH; try done. intros y Hy. apply Ha. by right.
Qed.

Lemma view_keys_nodup s l cs : wf s l cs -> NoDup (view (heap s) l).*1.
Proof.
  intros Hwf. apply NoDup_alt. intros i j k.
  rewrite !list_lookup_fmap, !(view_lookup s l cs) by done.
  destruct (l !! i) as [p|] eqn:Hi; [|done]. destruct (l !! j) as [q|] eqn:Hj; [|done].
  simpl. destruct (heap s !! p) as [b|] eqn:Hb; [|done].
  destruct (heap s !! q) as [b'|] eqn:Hb'; [|done]. simpl. intros [= <-] [= E].
  by eapply wf_unique.
Qed.

(** What [zend_hash_reindex] needs: everything but the collision chains and
    the distinctness of the keys it replaces. *)
Record reindexable only s l : Prop := {
  rx_glob : glob_ok s l;
  rx_dom p : is_Some (heap s !! p) <-> p ∈ l;
  rx_ok p b : heap s !! p = Some b -> bucket_ok b;
  rx_sizes : sizes_ok s;
  rx_num : nNumOfElements (ht s) = Z.of_nat (length l);
  rx_mask : l <> [] -> nTableMask (ht s) <> 0;
  rx_empty : l = [] -> exists cs, chains_ok s [] cs;
  rx_small : Z.of_nat (length l) <= LONG_MAX /\ Z.of_nat (length l) < 2 ^ 32;
  rx_keys : NoDup (reindex_entries only 0 (view (heap s) l)).*1;
  rx_cur p : pInternalPointer (ht s) = Some p -> p ∈ l
}.

Lemma wf_reindexable only s l cs :
  wf s l cs -> Z.of_nat (length l) <= LONG_MAX -> reindexable only s l.
Proof.
  intros Hwf Hl. split; try apply Hwf.
  - intros Hne Hm. apply Hne. by apply (wf_init _ _ _ Hwf).
  - intros ->. exists cs. apply Hwf.
  - split; [done|apply Hwf].
  - apply reindex_nodup. by eapply view_keys_nodup.
Qed.

Lemma reindex_effect only s l :
  reindexable only s l ->
  exists t cs, zend_hash_reindex only s = Some t /\ wf t l cs
    /\ view (heap t) l = reindex_entries only 0 (view (heap s) l)
    /\ nNextFreeElement (ht t) = reindex_count only (view (heap s) l)
    /\ pInternalPointer (ht t) = pInternalPointer (ht s)
    /\ pDestructor (ht t) = pDestructor (ht s)
    /\ dtor_log t = dtor_log s.
Proof.
  intros [Hg Hdom Hok Hs Hn Hm He [Hl1 Hl2] Hk Hc]. unfold zend_hash_reindex. rewrite Hn.
  destruct (decide (l = [])) as [->|Hne].
  { simpl. destruct (He eq_refl) as [cs Hch].
    exists (on_ht (set_nNextFreeElement 0) s), cs. split; [done|].
    assert (Hno : forall p b, heap s !! p = Some b -> False).
    { intros p b Hb. apply (not_elem_of_nil p), Hdom. eauto. }
    pose proof LONG_MAX_pos.
    split; [|done]. split; simpl; try done; try (by intros; exfalso; eauto); try lia.
    - by destruct Hg.
    - by destruct Hch.
    - by destruct Hs. }
  rewrite (proj2 (Z.eqb_neq _ _)) by (destruct l; simpl; [done|lia]).
  specialize (Hm Hne). cbv zeta.
  replace (pListHead (ht (clear_slots s))) with (head l) by (symmetry; apply Hg).
  destruct (rehash_loop_spec (reindex_bucket only) l (size (heap (clear_slots s)))
    (clear_slots s) 0 [] (replicate (Z.to_nat (nTableSize (ht s))) []) []) as
    (t & off & cs & Hrun & Hch & Ec & Eoff & ELn & ELl & Elog & ar & Eht & Elen);
    try done; try apply Hg.
  - apply reindex_bucket_ok.
  - apply clear_slots_chains.
  - by apply clear_slots_sizes.
  - intros p _. apply not_elem_of_nil.
  - intros p b Hb. apply (Hok p b Hb).
  - apply NoDup_length_heap; [apply Hg|]. intros p. apply Hdom.
  - rewrite Hrun. simpl in *.
    pose proof ulong_split as Hus. pose proof LONG_MAX_pos as Hlp.
    destruct (renumber_spec only l (heap s) 0) as (Hv & Hr & Hd & Ho); try done;
      [apply Hg|intros p; apply Hdom|lia|].
    set (r := renumber (reindex_bucket only) 0 (heap s) l) in *.
    assert (Hvt : view (heap t) l = reindex_entries only 0 (view (heap s) l))
      by (rewrite <- Hv; by apply view_core).
    exists (on_ht (set_nNextFreeElement off) t), cs. split; [done|]. simpl. rewrite Eht. simpl.
    split; [|split; [done|]; split; [lia|done]].
    assert (Hdt : forall p, is_Some (heap t !! p) <-> p ∈ l).
    { intros p. rewrite (fmap_eq_dom core _ _ p Ec), Hd. apply Hdom. }
    pose proof (reindex_count_bounds only (view (heap s) l)) as Hcb.
    rewrite length_view_alloc in Hcb by (intros p; apply Hdom).
    split; simpl; rewrite ?Eht; simpl; try done.
    + destruct Hg as [G1 G2 G3 G4]. split; simpl; rewrite ?Eht, ?ELn, ?ELl; done.
    + eapply chains_frame; [exact Hch|done..].
    + assert (sizes_ok t) as [S1 S2 S3]; [|by split].
      by eapply (sizes_ok_set_arBuckets (clear_slots s)); [apply clear_slots_sizes|..].
    + intros p b Hb. destruct (core_lookup _ _ _ _ Ec Hb) as (b0 & Hb0 & E).
      eapply core_ok; [exact E|]. by eapply Ho.
    + intros p q b b' Hb Hb' E. eapply (keys_of_view (heap t) l); try done.
      * by rewrite Hvt.
      * intros y Hy. by apply Hdt.
      * apply Hdt. eauto.
      * apply Hdt. eauto.
    + lia.
    + intros p b Hb Hz. left.
      assert (Hin : KInt (h b) ∈ (view (heap t) l).*1).
      { apply list_elem_of_fmap. exists (entry b). split.
        - unfold entry, bkey. by rewrite Hz.
        - unfold view. apply list_elem_of_omap. exists p. rewrite Hb. split; [|done].
          apply Hdt. eauto. }
      rewrite Hvt in Hin. apply reindex_keys in Hin. rewrite to_long_small; lia.
Qed.
End Reindex.

(** ** Sorting *)
Section Sort.
Context `{Platform} {V : Type}.
Implicit Types (s t : hstate V) (b : Bucket V) (l : list addr) (cs : list (list addr)).
Implicit Types (m : gmap addr (Bucket V)) (a : ordmap V).

Definition buckets m l : list (addr * Bucket V) := omap (fun p => pair p <$> m !! p) l.

Lemma collect_spec m l : forall fuel,
  threaded (pListNext <$> m) l -> (length l <= fuel)%nat ->
  collect fuel m (head l) = Some (buckets m l).
Proof.
  induction l as [|p l IH]; intros fuel Hl Hf; simpl in *; [by destruct fuel|].
  destruct fuel as [|fuel]; [lia|]. simpl. destruct Hl as [HN Hl].
  rewrite lookup_fmap in HN. unfold buckets. simpl.
  destruct (m !! p) as [b|]; [|done]. simpl in *. injection HN as ->.
  rewrite IH by (done || lia). done.
Qed.

Lemma buckets_fst m l : (forall p, p ∈ l -> is_Some (m !! p)) -> (buckets m l).*1 = l.
Proof.
  intros Ha. unfold buckets. induction l as [|p l IH]; [done|]. simpl.
  destruct (Ha p) as [b ->]; [by left|]. simpl. f_equal. apply IH. intros. apply Ha. by right.
Qed.

Lemma buckets_view m l : view m l = (fun x => entry x.2) <$> buckets m l.
Proof.
  unfold view, buckets. induction l as [|p l IH]; [done|]. simpl.
  destruct (m !! p); simpl; [f_equal|]; done.
Qed.

Lemma buckets_lookup m l x : x ∈ buckets m l -> m !! x.1 = Some x.2.
Proof.
  unfold buckets. rewrite list_elem_of_omap. intros (p & _ & E).
  destruct (m !! p) eqn:Hb; simplify_eq/=. done.
Qed.

(** The view in another order. *)
Lemma view_pairs m (ps : list (addr * Bucket V)) :
  (forall x, x ∈ ps -> m !! x.1 = Some x.2) -> view m ps.*1 = (fun x => entry x.2) <$> ps.
Proof.
  intros Hp. unfold view. induction ps as [|x ps IH]; [done|]. simpl.
  rewrite (Hp x) by (by left). simpl. f_equal. apply IH. intros. apply Hp. by right.
Qed.

Lemma relink_spec l : forall s prev,
  NoDup l -> (forall p, p ∈ l -> is_Some (heap s !! p)) ->
  exists t, relink prev l s = Some t /\ ht t = ht s /\ dtor_log t = dtor_log s
    /\ core <$> heap t = core <$> heap s
    /\ pNext <$> heap t = pNext <$> heap s /\ pLast <$> heap t = pLast <$> heap s
    /\ (forall q, q ∉ l -> heap t !! q = heap s !! q)
    /\ (forall i p, l !! i = Some p ->
          (pListNext <$> heap t) !! p = Some (l !! S i)
          /\ (pListLast <$> heap t) !! p = Some (if i is S j then l !! j else prev)).
Proof.
  induction l as [|p l IH]; intros s prev Hnd Ha; simpl.
  { exists s. repeat (split; [done|]). done. }
  apply NoDup_cons in Hnd as [Hp Hnd].
  do_write; [apply Ha; by left|]. rename t into s1.
  assert (Hd : forall q, is_Some (heap s1 !! q) <-> is_Some (heap s !! q))
    by (intros q; by eapply write_dom).
  destruct (IH s1 (Some p)) as (t & -> & Eht & Elog & Ec & EN & EP & Hout & Hin); [done|..].
  { intros q Hq. apply Hd, Ha. by right. }
  exists t. split; [done|].
  split; [congruence|]. split; [congruence|]. split; [congruence|].
  split; [congruence|]. split; [congruence|]. split.
  - intros q Hq. apply not_elem_of_cons in Hq as [Hne Hq]. rewrite Hout by done.
    apply write_inv in Ew as (b & _ & ->). simpl. by rewrite lookup_insert_ne.
  - intros [|i] q Hi; simpl in Hi.
    + injection Hi as ->. rewrite !lookup_fmap, Hout, <- !lookup_fmap by done.
      match goal with
      | HN : pListNext <$> heap s1 = _, HL : pListLast <$> heap s1 = _ |- _ => rewrite HN, HL
      end.
      rewrite !lookup_insert_eq, head_lookup. done.
    + destruct (Hin i q Hi) as [-> ->]. split; [done|]. by destruct i.
Qed.

(** Re-threading the global list in the order [l']. *)
Lemma relink_wf s l cs l' :
  wf s l cs -> l' ≡ₚ l ->
  let s0 := on_ht (fun x => set_pInternalPointer (head l')
                   (set_pListTail None (set_pListHead (head l') x))) s in
  exists t, relink None l' s0 = Some t
    /\ wf (on_ht (set_pListTail (last l')) t) l' cs
    /\ core <$> heap t = core <$> heap s
    /\ pInternalPointer (ht t) = head l' /\ nNextFreeElement (ht t) = nNextFreeElement (ht s)
    /\ pDestructor (ht t) = pDestructor (ht s) /\ dtor_log t = dtor_log s.
Proof.
  intros Hwf Hperm s0.
  assert (Hnd : NoDup l') by (rewrite Hperm; apply (wf_glob _ _ _ Hwf)).
  assert (Hmem : forall p, p ∈ l' <-> p ∈ l) by (intros p; by rewrite Hperm).
  destruct (relink_spec l' s0 None Hnd) as (t & Ht & Eht & Elog & Ec & EN & EP & _ & Hin).
  { intros p Hp. apply (wf_dom _ _ _ Hwf). by apply Hmem. }
  exists t. split; [done|]. rewrite Eht. simpl. split; [|done].
  split; simpl; rewrite ?Eht; simpl; try apply Hwf.
  - split; simpl; rewrite ?Eht; done.
  - intros p. rewrite (fmap_eq_dom core _ _ p Ec), Hmem. apply Hwf.
  - destruct (wf_chains _ _ _ Hwf) as [C1 C2 C3 C4 C5].
    split; simpl; rewrite ?Eht, ?EN, ?EP; try done.
    intros k c p Hk. rewrite (C5 k c p Hk), Hmem.
    rewrite (core_slot_iff s (on_ht (set_pListTail (last l')) t)); [done|done|].
    simpl. by rewrite Eht.
  - destruct (wf_sizes _ _ _ Hwf). split; simpl; rewrite ?Eht; done.
  - intros E. pose proof (wf_init _ _ _ Hwf E) as ->. by apply Permutation_nil_r.
  - rewrite Hperm. apply Hwf.
  - rewrite Hperm. apply Hwf.
  - intros p b Hb. destruct (core_lookup _ _ _ _ Ec Hb) as (b0 & Hb0 & E).
    eapply core_ok; [exact E|]. by eapply (wf_ok _ _ _ Hwf).
  - intros p q b b' Hb Hb' E. destruct (core_lookup _ _ _ _ Ec Hb) as (b0 & Hb0 & E0).
    destruct (core_lookup _ _ _ _ Ec Hb') as (b1 & Hb1 & E1).
    eapply (wf_keys _ _ _ Hwf); [done..|]. by rewrite (core_key _ _ E0), (core_key _ _ E1).
  - intros p b Hb Hz. destruct (core_lookup _ _ _ _ Ec Hb) as (b0 & Hb0 & E0).
    rewrite <- (core_h _ _ E0). eapply (wf_next _ _ _ Hwf); [done|].
    by rewrite (core_len _ _ E0).
  - intros p. apply head_Some_elem_of.
Qed.
End Sort.
