(* ===== verification/HashExample.v ===== *)
(** * HashExample: a concrete allocator and a small table

    The table built by three calls of zend_hash.c's own operations, on which
    the theorems of the hash-table files are instantiated. *)
From S2P Require Import Prelude DList HashDefs HashInv HashLemmas HashRefine.

(** ** A concrete allocator and table, for the witnesses *)
Section Concrete.
Definition junk_bucket : Bucket Z :=
  MkBucket 77 3 (DInline 99) (Some 5%positive) (Some 6%positive) (Some 7%positive)
    (Some 8%positive) (CharPtr (KInterned 9) [1; 2; 3]).

Definition test_alloc (m : gmap addr (Bucket Z)) : addr * Bucket Z :=
  (fresh (dom m : gset addr), junk_bucket).

Lemma test_alloc_fresh m : m !! (test_alloc m).1 = None.
Proof. apply (not_elem_of_dom (D := gset addr)), is_fresh. Qed.

#[export] Instance test_malloc : Malloc Z :=
  {| pemalloc := test_alloc; pemalloc_fresh := test_alloc_fresh |}.

#[export] Existing Instance LP64.

(** A string key with its terminating NUL in a buffer of the caller. *)
Definition str_key (a : addr) (s : list Z) : char_ptr := CharPtr (KHeap a) (s ++ [0]).

Definition ok_or {A} (d : A) (o : option A) : A := if o is Some x then x else d.

(** [zend_hash_init(&t, 8, ...)], then ["ab" => 10], [7 => 20], [8 => 30]. *)
Definition t0 : hstate Z := _zend_hash_init 8 true false.
Definition t1 : hstate Z :=
  ok_or t0 ((fun r => r.1.1) <$> zend_hash_update (str_key 1 [97; 98]) 3 10 8 t0).
Definition t2 : hstate Z :=
  ok_or t0 ((fun r => r.1.1) <$> zend_hash_index_update 7 20 8 t1).
Definition t3 : hstate Z :=
  ok_or t0 ((fun r => r.1.1) <$> zend_hash_next_index_insert 30 8 t2).
Definition a3 : ordmap Z :=
  OrdMap [(KStr [97; 98; 0], 10); (KInt 7, 20); (KInt 8, 30)] (Some 0%nat) 9.
End Concrete.

Example t3_contents :
  view (heap t3) [1; 2; 3]%positive = om_entries a3
  /\ nNextFreeElement (ht t3) = 9 /\ nNumOfElements (ht t3) = 3.
Proof. vm_compute. done. Qed.

(** ** The example table represents the example map *)
(** No bucket holds the pointer [KHeap a]. *)
Definition unused_ptr (a : addr) (s : hstate Z) : bool :=
  forallb (fun x => bool_decide (cp_addr (arKey x.2) <> KHeap a)) (map_to_list (heap s)).

Lemma fresh_ptr_arg (a : addr) (bytes : list Z) (s : hstate Z) :
  unused_ptr a s = true -> Z.of_nat (length bytes) < 2 ^ 32 - 1 ->
  key_arg_ok (str_key a bytes) (Z.of_nat (length bytes) + 1) s.
Proof.
  intros Hn Hl. split; [lia|unfold str_key; simpl; rewrite length_app; simpl; lia|].
  intros p b Hb E. unfold unused_ptr in Hn. rewrite forallb_forall in Hn.
  specialize (Hn (p, b)). rewrite <- list_elem_of_In, elem_of_map_to_list in Hn.
  specialize (Hn Hb). simpl in Hn. by apply bool_decide_eq_true in Hn.
Qed.

Lemma t0_refines : refines t0 (OrdMap [] None 0).
Proof. by apply init_refines. Qed.

Lemma t1_refines : refines t1 (om_update (KStr [97; 98; 0]) 10 (OrdMap [] None 0)).
Proof.
  destruct (put_refines t0 (OrdMap [] None 0) (str_key 1 [97; 98]) 3 10 8 HASH_UPDATE)
    as (t & r & d & Hr & _ & Href & _); [apply t0_refines| |done|].
  { by apply (fresh_ptr_arg 1 [97; 98]). }
  unfold t1, zend_hash_update. rewrite Hr. exact Href.
Qed.

Lemma t2_refines : refines t2 (om_update (KInt 7) 20 (om_update (KStr [97; 98; 0]) 10 (OrdMap [] None 0))).
Proof.
  destruct (index_put_refines t1 _ 7 20 8 HASH_UPDATE t1_refines)
    as (t & r & d & Hr & _ & Href & _); [done|done|].
  unfold t2, zend_hash_index_update. rewrite Hr. exact Href.
Qed.

Lemma t3_refines : refines t3 a3.
Proof.
  destruct (index_put_refines t2 _ 0 30 8 HASH_NEXT_INSERT t2_refines)
    as (t & r & d & Hr & _ & Href & _); [done|done|].
  unfold t3, zend_hash_next_index_insert. rewrite Hr. exact Href.
Qed.

