(* ===== verification/HashThms.v ===== *)
(** * HashThms: storing, deleting and finding in Zend/zend_hash.c

    Every theorem is stated for a table in any state that represents an
    ordered map ([refines]), whatever the platform and the allocator. *)
From S2P Require Import Prelude DList HashDefs HashInv HashLemmas HashRefine HashExample.

(** ** Storing *)

(** C10: [_zend_hash_add_or_update] and [_zend_hash_quick_add_or_update] (given
    the hash of the key) store a value under a string key exactly as an
    insertion-ordered map does: with [HASH_ADD] an existing key is refused and
    nothing changes; otherwise the value of an existing key is replaced in
    place, after the destructor has run on the old value only, and a new key is
    appended at the end, the internal pointer moving to it only when it was
    unset.  The call returns (no invalid pointer is followed and the loops end)
    and the table is well formed again, also when it had to be initialised or
    grown. *)
Theorem zend_hash_add_or_update_refines `{Platform} {V : Type} `{!Malloc V}
    (s : hstate V) (a : ordmap V) (k : char_ptr) (len : Z) (v : V) (nDataSize flag : Z) :
  refines s a -> key_arg_ok k len s -> Z.of_nat (S (length (om_entries a))) < 2 ^ 32 ->
  let key := KStr (take (Z.to_nat len) (cp_bytes k)) in
  let refuse := has_flag flag HASH_ADD in
  put_outcome refuse key v s a (_zend_hash_add_or_update k len v nDataSize flag s)
  /\ put_outcome refuse key v s a
       (_zend_hash_quick_add_or_update k len (zend_inline_hash_func (cp_bytes k) len)
          v nDataSize flag s).
Proof. intros. split; [by apply put_refines|by apply quick_put_refines]. Qed.

Lemma zend_hash_add_or_update_refines_witness :
  put_outcome true (KStr [97; 98; 0]) 11 t3 a3
    (_zend_hash_add_or_update (str_key 2 [97; 98]) 3 11 8 HASH_ADD t3)
  /\ _zend_hash_add_or_update (str_key 2 [97; 98]) 3 11 8 HASH_ADD t3 = Some (t3, FAILURE, None).
Proof.
  split; [|by vm_compute].
  refine (proj1 (zend_hash_add_or_update_refines t3 a3 (str_key 2 [97; 98]) 3 11 8 HASH_ADD
    t3_refines _ _)).
  - apply (fresh_ptr_arg 2 [97; 98]); [by vm_compute|done].
  - done.
Defined.

(** C11: [_zend_hash_index_update_or_next_insert] stores under an integer key in
    the same way; with [HASH_NEXT_INSERT] the key is [nNextFreeElement], and the
    call fails when that key is taken. *)
Theorem zend_hash_index_update_refines `{Platform} {V : Type} `{!Malloc V}
    (s : hstate V) (a : ordmap V) (hv : Z) (v : V) (nDataSize flag : Z) :
  refines s a -> 0 <= hv < 2 ^ LONG_BITS -> Z.of_nat (S (length (om_entries a))) < 2 ^ 32 ->
  put_outcome (has_flag flag HASH_NEXT_INSERT || has_flag flag HASH_ADD)
    (KInt (if has_flag flag HASH_NEXT_INSERT then om_next a else hv)) v s a
    (_zend_hash_index_update_or_next_insert hv v nDataSize flag s).
Proof. apply index_put_refines. Qed.

Lemma zend_hash_index_update_refines_witness :
  put_outcome false (KInt 7) 21 t3 a3 (_zend_hash_index_update_or_next_insert 7 21 8 HASH_UPDATE t3).
Proof. by apply (zend_hash_index_update_refines t3 a3 7 21 8 HASH_UPDATE t3_refines). Defined.

(** What PHP programs see of [$a[] = v]: [zend_hash_next_index_insert]
    either appends [v] under an index that is larger (as a signed [long]) than
    every integer key of the table, or it fails; it fails only when the index
    [LONG_MAX] is in use. *)
Theorem zend_hash_next_index_insert_fresh `{Platform} {V : Type} `{!Malloc V}
    (s : hstate V) (a : ordmap V) (v : V) (nDataSize : Z) :
  refines s a -> Z.of_nat (S (length (om_entries a))) < 2 ^ 32 ->
  exists t res dest, zend_hash_next_index_insert v nDataSize s = Some (t, res, dest)
    /\ match res with
       | SUCCESS => exists i, 0 <= i <= LONG_MAX
           /\ refines t (om_update (KInt i) v a)
           /\ (forall j w, (KInt j, w) ∈ om_entries a -> to_long j < i \/ i = LONG_MAX)
           /\ om_lookup (KInt i) a = None
       | FAILURE => refines t a /\ is_Some (om_lookup (KInt LONG_MAX) a)
       end.
Proof.
  intros Href Hlt. pose proof LONG_MAX_pos. pose proof ulong_split.
  destruct (index_put_refines s a 0 v nDataSize HASH_NEXT_INSERT Href)
    as (t & res & dest & Hrun & Hres & Ht & _); [lia|done|].
  exists t, res, dest. split; [done|]. subst res.
  destruct (refines_implements s a) as [(l & cs & Him) _]; [done|].
  pose proof (im_wf _ _ _ _ Him) as Hwf. pose proof (wf_next_range _ _ _ Hwf) as Hr.
  assert (Hbound : forall j w, (KInt j, w) ∈ om_entries a ->
    to_long j < om_next a \/ om_next a = LONG_MAX).
  { intros j w Hin. rewrite <- (im_view _ _ _ _ Him) in Hin.
    unfold view in Hin. apply list_elem_of_omap in Hin as (p & Hp & He).
    destruct (heap s !! p) as [b|] eqn:Hb; [|done]. simpl in He. injection He as Hk _.
    unfold bkey in Hk. destruct (Z.eqb_spec (nKeyLength b) 0); [|done]. injection Hk as <-.
    rewrite <- (im_next _ _ _ _ Him). by eapply wf_next. }
  rewrite (im_next _ _ _ _ Him) in Hr. unfold om_put in *. simpl in *.
  destruct (find_idx (KInt (om_next a)) (om_entries a)) as [i|] eqn:Hf; simpl in *.
  - split; [done|].
    assert (om_next a = LONG_MAX) as <-.
    { unfold find_idx in Hf.
      destruct (list_find _ (om_entries a)) as [[i' [k w]]|] eqn:El; [|done].
      apply list_find_Some in El as (El & Ek & _). simpl in Ek. subst k.
      destruct (Hbound (om_next a) w) as [Hb|Hb]; [by eapply list_elem_of_lookup_2| |done].
      rewrite to_long_small in Hb by lia. lia. }
    rewrite om_lookup_idx, Hf. simpl. unfold find_idx in Hf.
    destruct (list_find _ (om_entries a)) as [[i' e]|] eqn:El; [|done]. simplify_eq/=.
    apply list_find_Some in El as (-> & _). by eexists.
  - exists (om_next a). split; [done|]. split; [done|]. split; [done|].
    rewrite om_lookup_idx, Hf. done.
Qed.

Lemma zend_hash_next_index_insert_fresh_witness :
  exists t res dest, zend_hash_next_index_insert 30 8 t3 = Some (t, res, dest)
    /\ match res with
       | SUCCESS => exists i, 0 <= i <= LONG_MAX
           /\ refines t (om_update (KInt i) 30 a3)
           /\ (forall j w, (KInt j, w) ∈ om_entries a3 -> to_long j < i \/ i = LONG_MAX)
           /\ om_lookup (KInt i) a3 = None
       | FAILURE => refines t a3 /\ is_Some (om_lookup (KInt LONG_MAX) a3)
       end.
Proof. apply (zend_hash_next_index_insert_fresh t3 a3 30 8 t3_refines). done. Defined.

(** ** Deleting and finding *)

(** C12: [zend_hash_del_key_or_index] removes exactly the entry of the key and
    keeps the order of the others; the destructor runs on the removed value
    only, a cursor on the removed entry moves to its successor, and a key that
    is not there gives [FAILURE] and leaves the map as it was. *)
Theorem zend_hash_del_refines `{Platform} {V : Type} `{!Malloc V}
    (s : hstate V) (a : ordmap V) (k : char_ptr) (len hv : Z) :
  refines s a -> 0 < len < 2 ^ 32 -> len <= Z.of_nat (length (cp_bytes k)) -> 0 <= hv ->
  let key := KStr (take (Z.to_nat len) (cp_bytes k)) in
  del_outcome key s a (zend_hash_del k len s)
  /\ del_outcome key s a (zend_hash_quick_del k len (zend_inline_hash_func (cp_bytes k) len) s)
  /\ del_outcome (KInt hv) s a (zend_hash_index_del hv s).
Proof.
  intros Href Hlen Hread Hhv key. split; [|split].
  - by apply (del_str_refines s a k len 0 HASH_DEL_KEY).
  - by apply (del_str_refines s a k len _ HASH_DEL_KEY_QUICK).
  - by apply del_index_refines.
Qed.

Lemma zend_hash_del_refines_witness :
  del_outcome (KStr [97; 98; 0]) t3 a3 (zend_hash_del (str_key 2 [97; 98]) 3 t3)
  /\ om_delete (KStr [97; 98; 0]) a3 = OrdMap [(KInt 7, 20); (KInt 8, 30)] (Some 0%nat) 9.
Proof.
  split; [|by vm_compute].
  refine (proj1 (zend_hash_del_refines t3 a3 (str_key 2 [97; 98]) 3 0 t3_refines _ _ _)); done.
Defined.

(** What a lookup of [key] may answer: the address of a bucket that holds the
    key with the value the map gives it, or nothing when the map has no such
    key. *)
Definition find_outcome `{Platform} {V : Type} (key : hkey) (s : hstate V) (a : ordmap V)
    (r : option (option addr)) : Prop :=
  match om_lookup key a with
  | Some v => exists p, r = Some (Some p) /\ entry <$> heap s !! p = Some (key, v)
  | None => r = Some None
  end.

Section FindLemmas.
Context `{Platform} {V : Type} `{!Malloc V}.
Implicit Types (s t : hstate V) (a : ordmap V).

Lemma lookup_entry s l cs a p b :
  implements s l cs a -> heap s !! p = Some b ->
  om_lookup (bkey b) a = Some (data_of (pData b)).
Proof.
  intros Him Hb. pose proof (im_wf _ _ _ _ Him) as Hwf.
  destruct (wf_position _ _ _ _ _ Hwf Hb) as [i Hi].
  rewrite om_lookup_idx, <- (im_view _ _ _ _ Him), (find_idx_found _ _ _ _ _ _ Hwf Hi Hb).
  simpl. rewrite (view_lookup s l cs), Hi by done. simpl. by rewrite Hb.
Qed.

Lemma lookup_absent s l cs a key :
  implements s l cs a -> (forall p b, heap s !! p = Some b -> bkey b <> key) ->
  om_lookup key a = None.
Proof.
  intros Him Hn. rewrite om_lookup_idx, <- (im_view _ _ _ _ Him).
  by rewrite (find_idx_absent _ _ _ _ (im_wf _ _ _ _ Him) Hn).
Qed.

Lemma search_outcome s l cs a key (r : option addr) :
  implements s l cs a ->
  match r with
  | Some p => exists b, heap s !! p = Some b /\ bkey b = key
  | None => forall p b, heap s !! p = Some b -> bkey b <> key
  end -> find_outcome key s a (Some r).
Proof.
  intros Him Hr. unfold find_outcome. destruct r as [p|].
  - destruct Hr as (b & Hb & <-). rewrite (lookup_entry _ _ _ _ _ _ Him Hb).
    exists p. by rewrite Hb.
  - by rewrite (lookup_absent _ _ _ _ _ Him Hr).
Qed.

Lemma find_str s a k len :
  refines s a -> key_arg_ok k len s ->
  find_outcome (KStr (take (Z.to_nat len) (cp_bytes k))) s a (zend_hash_find k len s).
Proof.
  intros (l & cs & Him)%refines_implements Hk. unfold zend_hash_find.
  destruct (search_str s l cs k len (im_wf _ _ _ _ Him) Hk) as (r & -> & Hr).
  by eapply search_outcome.
Qed.

Lemma find_index s a hv :
  refines s a -> 0 <= hv -> find_outcome (KInt hv) s a (zend_hash_index_find hv s).
Proof.
  intros (l & cs & Him)%refines_implements Hh. unfold zend_hash_index_find.
  destruct (search_index s l cs hv (im_wf _ _ _ _ Him) Hh) as (r & -> & Hr).
  by eapply search_outcome.
Qed.

Lemma find_outcome_exists s a key r :
  find_outcome key s a r ->
  (x ← r; Some (if x is Some _ then true else false))
  = Some (if om_lookup key a is Some _ then true else false).
Proof. unfold find_outcome. destruct (om_lookup key a); [intros (p & -> & _)|intros ->]; done. Qed.

(** Lookup in an updated map. *)
Lemma om_lookup_update k k' v a :
  om_lookup k' (om_update k v a) = if decide (k' = k) then Some v else om_lookup k' a.
Proof.
  unfold om_lookup, om_update, find_idx.
  destruct (list_find (fun e => e.1 = k) (om_entries a)) as [[i e]|] eqn:E; simpl.
  - revert i e E. induction (om_entries a) as [|[k0 v0] l IH]; intros i e E; simpl in *; [done|].
    destruct (decide (k0 = k)) as [->|Hne]; simplify_eq/=.
    + by destruct (decide (k = k')), (decide (k' = k)); simplify_eq.
    + destruct (list_find _ l) as [[j e']|]; simplify_eq/=. specialize (IH j e eq_refl).
      destruct (decide (k0 = k')), (decide (k' = k)); simplify_eq/=; try done.
      all: destruct (list_find _ (<[j:=(_, _)]> l)); simplify_eq/=; try done;
        destruct (list_find (fun e => e.1 = k') l); simplify_eq/=; congruence.
  - induction (om_entries a) as [|[k0 v0] l IH]; simpl in *.
    + by destruct (decide (k = k')), (decide (k' = k)); simplify_eq.
    + destruct (decide (k0 = k)) as [->|Hne]; simplify_eq/=.
      destruct (list_find (fun e => e.1 = k) l) eqn:E'; [done|]. specialize (IH eq_refl).
      destruct (decide (k0 = k')), (decide (k' = k)); simplify_eq/=; try done.
      all: destruct (list_find _ (l ++ _)); simplify_eq/=; try done;
        destruct (list_find (fun e => e.1 = k') l); simplify_eq/=; congruence.
Qed.
End FindLemmas.

(** C13: every lookup function finds exactly the keys of the map: by string, by
    string with the hash given, by index; a hit is the address of a bucket that
    holds the key and its value, and the [exists] functions say whether there
    is one. *)
Theorem zend_hash_find_refines `{Platform} {V : Type} `{!Malloc V}
    (s : hstate V) (a : ordmap V) (k : char_ptr) (len hv : Z) :
  refines s a -> key_arg_ok k len s -> 0 <= hv ->
  let key := KStr (take (Z.to_nat len) (cp_bytes k)) in
  let hash := zend_inline_hash_func (cp_bytes k) len in
  let present key := if om_lookup key a is Some _ then true else false in
  find_outcome key s a (zend_hash_find k len s)
  /\ find_outcome key s a (zend_hash_quick_find k len hash s)
  /\ find_outcome (KInt hv) s a (zend_hash_index_find hv s)
  /\ zend_hash_exists k len s = Some (present key)
  /\ zend_hash_quick_exists k len hash s = Some (present key)
  /\ zend_hash_index_exists hv s = Some (present (KInt hv)).
Proof.
  intros Href Hk Hh key hash present.
  pose proof (find_str s a k len Href Hk) as Hs. pose proof (find_index s a hv Href Hh) as Hi.
  split; [done|]. split; [done|]. split; [done|].
  split; [|split]; by eapply (find_outcome_exists s).
Qed.

Lemma zend_hash_find_refines_witness :
  find_outcome (KStr [97; 98; 0]) t3 a3 (zend_hash_find (str_key 2 [97; 98]) 3 t3)
  /\ om_lookup (KStr [97; 98; 0]) a3 = Some 10
  /\ zend_hash_find (str_key 2 [97; 98]) 3 t3 = Some (Some 1%positive).
Proof.
  split; [|by vm_compute].
  refine (proj1 (zend_hash_find_refines t3 a3 (str_key 2 [97; 98]) 3 0 t3_refines _ _)); [|done].
  apply (fresh_ptr_arg 2 [97; 98]); [by vm_compute|done].
Defined.

(** Insert/lookup round trip, across the growth of the table: after
    [zend_hash_update] the new table gives back the stored value under the key,
    and every other string or integer key is found, or not, as before. *)
Theorem zend_hash_update_find `{Platform} {V : Type} `{!Malloc V}
    (s : hstate V) (a : ordmap V) (k : char_ptr) (len : Z) (v : V) (nDataSize : Z) :
  refines s a -> key_arg_ok k len s -> Z.of_nat (S (length (om_entries a))) < 2 ^ 32 ->
  exists t dest, zend_hash_update k len v nDataSize s = Some (t, SUCCESS, dest)
    /\ (forall k' len', key_arg_ok k' len' t ->
         take (Z.to_nat len') (cp_bytes k') = take (Z.to_nat len) (cp_bytes k) ->
         exists p b, zend_hash_find k' len' t = Some (Some p) /\ heap t !! p = Some b
           /\ data_of (pData b) = v)
    /\ (forall k' len', key_arg_ok k' len' t -> key_arg_ok k' len' s ->
         take (Z.to_nat len') (cp_bytes k') <> take (Z.to_nat len) (cp_bytes k) ->
         zend_hash_exists k' len' t = zend_hash_exists k' len' s)
    /\ (forall i, 0 <= i -> zend_hash_index_exists i t = zend_hash_index_exists i s).
Proof.
  intros Href Hk Hlt.
  destruct (put_refines s a k len v nDataSize HASH_UPDATE Href Hk Hlt)
    as (t & res & dest & Hrun & -> & Ht & _).
  set (key := KStr (take (Z.to_nat len) (cp_bytes k))) in *.
  assert (om_put (has_flag HASH_UPDATE HASH_ADD) key v a = (SUCCESS, om_update key v a)) as E
    by (unfold om_put; by destruct (find_idx key (om_entries a))).
  rewrite E in Hrun, Ht. simpl in *. exists t, dest. split; [done|].
  assert (Hex : forall k' len' (u : hstate V) (c : ordmap V), refines u c -> key_arg_ok k' len' u -> zend_hash_exists k' len' u
    = Some (if om_lookup (KStr (take (Z.to_nat len') (cp_bytes k'))) c is Some _ then true else false)).
  { intros k' len' u c Hu Hk'. by eapply (find_outcome_exists u), find_str. }
  assert (Hix : forall i (u : hstate V) (c : ordmap V), refines u c -> 0 <= i -> zend_hash_index_exists i u
    = Some (if om_lookup (KInt i) c is Some _ then true else false)).
  { intros i u c Hu Hi. by eapply (find_outcome_exists u), find_index. }
  split; [|split].
  - intros k' len' Hk' Ek. pose proof (find_str t _ k' len' Ht Hk') as Hf.
    unfold find_outcome in Hf. rewrite om_lookup_update, Ek, decide_True in Hf by done.
    destruct Hf as (p & -> & He). destruct (heap t !! p) as [b|] eqn:Hb; [|done].
    exists p, b. injection He as _ <-. done.
  - intros k' len' Hk' Hks Hne.
    rewrite (Hex k' len' t _ Ht Hk'), (Hex k' len' s _ Href Hks), om_lookup_update.
    rewrite decide_False; [done|]. unfold key. congruence.
  - intros i Hi. by rewrite (Hix i t _ Ht Hi), (Hix i s _ Href Hi), om_lookup_update.
Qed.

Lemma zend_hash_update_find_witness :
  exists t dest, zend_hash_update (str_key 2 [99]) 2 40 8 t3 = Some (t, SUCCESS, dest)
    /\ forall i, 0 <= i -> zend_hash_index_exists i t = zend_hash_index_exists i t3.
Proof.
  destruct (zend_hash_update_find t3 a3 (str_key 2 [99]) 2 40 8 t3_refines) as (t & d & Hr & _ & _ & Hi).
  - apply (fresh_ptr_arg 2 [99]); [by vm_compute|done].
  - done.
  - exists t, d. split; [exact Hr|exact Hi].
Defined.
