(* ===== verification/HashLifeThms.v ===== *)
(** * HashLifeThms: the life of a table, and its whole-table operations

    Creating, emptying and destroying a table of Zend/zend_hash.c, applying a
    callback to its entries, renumbering and sorting it. *)
From S2P Require Import Prelude DList HashDefs HashInv HashLemmas HashRefine HashBulk HashBulkRefine HashExample Qsort.

(** ** Emptying and destroying *)
Section Freeing.
Context `{Platform} {V : Type} `{!Malloc V}.
Implicit Types (s t : hstate V) (a : ordmap V).

(** The values the destructor is to see when the whole table goes. *)
Definition all_released s (vs : list V) : list V := if pDestructor (ht s) then vs else [].

Lemma wf_threaded s l cs : wf s l cs -> threaded (pListNext <$> heap s) l.
Proof. intros Hwf. eapply linked_threaded. apply (gl_linked _ _ (wf_glob _ _ _ Hwf)). Qed.

Lemma wf_fuel s l cs : wf s l cs -> (length l <= size (heap s))%nat.
Proof.
  intros Hwf. pose proof (gl_nodup _ _ (wf_glob _ _ _ Hwf)) as Hnd.
  rewrite <- (size_list_to_set (C := gset addr) l Hnd), <- (size_dom (D := gset addr)).
  apply subseteq_size. intros p Hp. apply elem_of_list_to_set in Hp.
  apply elem_of_dom. by apply (wf_dom _ _ _ Hwf).
Qed.

Lemma wf_nil_heap s cs : wf s [] cs -> heap s = ∅.
Proof.
  intros Hwf. apply map_eq. intros q. rewrite lookup_empty. apply eq_None_not_Some.
  rewrite (wf_dom _ _ _ Hwf). apply not_elem_of_nil.
Qed.

(** A table without buckets whose slots are all [NULL]. *)
Lemma emptied_wf s :
  heap s = ∅ -> sizes_ok s -> (forall i x, arBuckets (ht s) !! i = Some x -> x = None) ->
  pListHead (ht s) = None -> pListTail (ht s) = None -> nNumOfElements (ht s) = 0 ->
  pInternalPointer (ht s) = None -> nNextFreeElement (ht s) = 0 ->
  wf s [] (replicate (length (arBuckets (ht s))) []).
Proof.
  intros Hh Hs Hslots Hhd Htl Hn Hp Hf. pose proof LONG_MAX_pos.
  split; rewrite ?Hh, ?Hhd, ?Htl, ?Hn, ?Hp, ?Hf; try done; try lia.
  - split; [constructor|apply linked_nil|done|done].
  - intros p. rewrite lookup_empty. split; [by intros [? ?]|by intros ?%not_elem_of_nil].
  - split; [by rewrite length_replicate|..].
    + intros k c [-> Hk]%lookup_replicate.
      destruct (lookup_lt_is_Some_2 _ _ Hk) as [x Hx]. by rewrite Hx, (Hslots _ _ Hx).
    + intros k c [-> _]%lookup_replicate. constructor.
    + intros k c [-> _]%lookup_replicate. apply linked_nil.
    + intros k c p [-> _]%lookup_replicate. split; [by intros ?%not_elem_of_nil|].
      intros [?%not_elem_of_nil _]. done.
Qed.

Lemma wf_nil_slots s cs i x : wf s [] cs -> arBuckets (ht s) !! i = Some x -> x = None.
Proof.
  intros Hwf Hx. pose proof (wf_chains _ _ _ Hwf) as Hc.
  assert (is_Some (cs !! i)) as [c Hci].
  { apply lookup_lt_is_Some. rewrite (ch_len _ _ _ Hc). by eapply lookup_lt_Some. }
  rewrite (ch_head _ _ _ Hc _ _ Hci) in Hx. injection Hx as <-. destruct c as [|p c]; [done|].
  assert (p ∈ p :: c) as Hp by (by left).
  apply (ch_mem _ _ _ Hc _ _ _ Hci) in Hp as [Hp%not_elem_of_nil _]. done.
Qed.

(** The sizes depend on three fields only. *)
Lemma sizes_same s t :
  sizes_ok s -> nTableSize (ht t) = nTableSize (ht s) -> nTableMask (ht t) = nTableMask (ht s) ->
  length (arBuckets (ht t)) = length (arBuckets (ht s)) -> sizes_ok t.
Proof. intros [] E1 E2 E3. split; by rewrite ?E1, ?E2, ?E3. Qed.

Lemma cleared_length s :
  sizes_ok s ->
  length (arBuckets (ht (if nTableMask (ht s) =? 0 then s else clear_slots s)))
  = length (arBuckets (ht s)).
Proof.
  intros [(j & _ & Hj) Hl Hm]. destruct (Z.eqb_spec (nTableMask (ht s)) 0); [done|]. simpl.
  rewrite length_replicate. lia.
Qed.

Lemma free_all s t l cs fuel :
  wf s l cs -> heap t = heap s -> dtor_log t = dtor_log s -> (length l <= fuel)%nat ->
  exists u, free_list fuel (head l) t = Some u /\ ht u = ht t /\ heap u = ∅
    /\ dtor_log u = dtor_log s ++ (if pDestructor (ht t) then (view (heap s) l).*2 else []).
Proof.
  intros Hwf Eh Elog Hf.
  destruct (free_list_spec l fuel t) as (u & Hrun & Hht & Hheap & Hlog); [| |done|].
  - rewrite Eh. by eapply wf_threaded.
  - apply (gl_nodup _ _ (wf_glob _ _ _ Hwf)).
  - exists u. split; [done|]. split; [done|]. split; [|by rewrite Hlog, Elog, Eh].
    apply map_eq. intros p. rewrite Hheap, lookup_empty, Eh. case_decide as Hp; [done|].
    apply eq_None_not_Some. by rewrite (wf_dom _ _ _ Hwf).
Qed.

(** Deleting from one end until the list is empty. *)
Lemma graceful_head_spec l : forall fuel s cs a,
  implements s l cs a -> (length l <= fuel)%nat ->
  exists t, graceful_loop fuel pListHead s = Some t /\ heap t = ∅
    /\ pDestructor (ht t) = pDestructor (ht s)
    /\ dtor_log t = dtor_log s ++ all_released s ((om_entries a).*2).
Proof.
  induction l as [|p l IH]; intros fuel s cs a Him Hf;
    pose proof (im_wf _ _ _ _ Him) as Hwf; simpl in *.
  - exists s. rewrite <- (im_view _ _ _ _ Him). unfold all_released.
    assert (pListHead (ht s) = None) as E by (by rewrite (gl_head _ _ (wf_glob _ _ _ Hwf))).
    split; [destruct fuel; simpl; by rewrite E|].
    split; [by eapply wf_nil_heap|by destruct (pDestructor (ht s)); rewrite app_nil_r].
  - destruct fuel as [|fuel]; simpl; [lia|]. rewrite (gl_head _ _ (wf_glob _ _ _ Hwf)). simpl.
    destruct (delete_refines s cs [] p l a Him) as (b & t & cs' & Hb & Hrun & Him' & Hun & Hlog).
    unfold zend_hash_bucket_delete. rewrite Hrun. simpl.
    destruct (IH fuel t cs' _ Him') as (u & Hu & Hheap & Hd & Hlog'); [lia|].
    exists u. split; [done|]. split; [done|].
    assert (pDestructor (ht t) = pDestructor (ht s)) as Hdt by apply Hun.
    split; [congruence|]. rewrite Hlog', Hlog. unfold all_released. rewrite Hdt.
    rewrite <- (im_view _ _ _ _ Him). simpl. rewrite <- (im_view _ _ _ _ Him).
    rewrite (view_cons _ _ b) by done. simpl.
    destruct (pDestructor (ht s)); by rewrite <- ?app_assoc, ?app_nil_r.
Qed.

Lemma graceful_tail_spec l : forall fuel s cs a,
  implements s l cs a -> (length l <= fuel)%nat ->
  exists t, graceful_loop fuel pListTail s = Some t /\ heap t = ∅
    /\ pDestructor (ht t) = pDestructor (ht s)
    /\ dtor_log t = dtor_log s ++ all_released s (reverse ((om_entries a).*2)).
Proof.
  induction l as [|p l IH] using rev_ind; intros fuel s cs a Him Hf;
    pose proof (im_wf _ _ _ _ Him) as Hwf.
  - exists s. rewrite <- (im_view _ _ _ _ Him). unfold all_released.
    assert (pListTail (ht s) = None) as E by (by rewrite (gl_tail _ _ (wf_glob _ _ _ Hwf))).
    split; [destruct fuel; simpl; by rewrite E|].
    split; [by eapply wf_nil_heap|by destruct (pDestructor (ht s)); rewrite app_nil_r].
  - rewrite length_app in Hf. simpl in Hf.
    destruct fuel as [|fuel]; simpl; [lia|].
    rewrite (gl_tail _ _ (wf_glob _ _ _ Hwf)), last_snoc.
    destruct (delete_refines s cs l p [] a Him) as (b & t & cs' & Hb & Hrun & Him' & Hun & Hlog).
    unfold zend_hash_bucket_delete. rewrite Hrun. rewrite app_nil_r in Him'. simpl.
    destruct (IH fuel t cs' _ Him') as (u & Hu & Hheap & Hd & Hlog'); [lia|].
    exists u. split; [done|]. split; [done|].
    assert (pDestructor (ht t) = pDestructor (ht s)) as Hdt by apply Hun.
    split; [congruence|]. rewrite Hlog', Hlog. unfold all_released. rewrite Hdt.
    pose proof (im_view _ _ _ _ Him) as Hv. simpl. rewrite <- Hv, view_app, (view_cons _ _ b) by done.
    rewrite <- (length_view_alloc (heap s) l), delete_middle, app_nil_r.
    + rewrite fmap_app, reverse_app. simpl.
      destruct (pDestructor (ht s)); by rewrite <- ?app_assoc, ?app_nil_r.
    + intros q Hq. apply (wf_dom _ _ _ Hwf), elem_of_app. by left.
Qed.
End Freeing.

(** [_zend_hash_init] and [_zend_hash_init_ex] give an empty table for
    every requested size: the number of slots is the least power of two that is
    at least 8 and at least the request, clamped to 2^31. *)
Theorem zend_hash_init_refines `{Platform} {V : Type} (nSize : Z) (dtor pers prot : bool) :
  0 <= nSize < 2 ^ 32 ->
  refines (V := V) (_zend_hash_init_ex nSize dtor pers prot) (OrdMap [] None 0)
  /\ exists j, 3 <= j <= 31
     /\ nTableSize (ht (_zend_hash_init_ex (V := V) nSize dtor pers prot)) = 2 ^ j
     /\ (nSize <= 2 ^ 31 -> nSize <= 2 ^ j) /\ (j = 3 \/ 2 ^ (j - 1) < nSize).
Proof.
  intros Hn. split; [|by apply init_size].
  destruct (init_refines (V := V) nSize dtor pers Hn) as (l & cs & Hwf & _).
  exists [], [[]]. split; [|done].
  apply (emptied_wf (_zend_hash_init_ex nSize dtor pers prot)); try done.
  - by apply (sizes_same (_zend_hash_init nSize dtor pers)); [apply Hwf|..].
  - intros [|i] x Hx; by simplify_eq/=.
Qed.

Lemma zend_hash_init_refines_witness :
  refines (_zend_hash_init_ex (V := Z) 100 true false true) (OrdMap [] None 0)
  /\ nTableSize (ht (_zend_hash_init_ex (V := Z) 100 true false true)) = 128.
Proof.
  split; [|by vm_compute]. refine (proj1 (zend_hash_init_refines 100 true false true _)). done.
Defined.

(** [zend_hash_clean] empties the table and keeps it usable: every value is
    given to the destructor once, in list order, every bucket is freed, and the
    table is the empty map again (also its next free index is 0). *)
Theorem zend_hash_clean_refines `{Platform} {V : Type} `{!Malloc V}
    (s : hstate V) (a : ordmap V) :
  refines s a ->
  exists t, zend_hash_clean s = Some t /\ refines t (OrdMap [] None 0) /\ heap t = ∅
    /\ dtor_log t = dtor_log s ++ all_released s ((om_entries a).*2).
Proof.
  intros (l & cs & Him)%refines_implements. pose proof (im_wf _ _ _ _ Him) as Hwf.
  unfold zend_hash_clean. rewrite (gl_head _ _ (wf_glob _ _ _ Hwf)).
  set (s1 := if nTableMask (ht s) =? 0 then s else clear_slots s).
  set (s2 := on_ht _ s1).
  assert (Hh : heap s2 = heap s) by (unfold s2, s1; by case_goal).
  destruct (free_all s s2 l cs (size (heap s2))) as (t & Hrun & Hht & Hheap & Hlog); [done|done| | |].
  { unfold s2, s1; by case_goal. } { rewrite Hh. by eapply wf_fuel. }
  exists t. split; [done|]. split; [|split; [done|]].
  - exists [], (replicate (length (arBuckets (ht t))) []). simpl.
    split; [|by rewrite Hht].
    apply emptied_wf; rewrite ?Hht; try done.
    + apply (sizes_same s); rewrite ?Hht; [apply Hwf| | |]; unfold s2, s1; try by case_goal.
      apply cleared_length, Hwf.
    + unfold s2, s1. intros i x. destruct (Z.eqb_spec (nTableMask (ht s)) 0) as [Hm|Hm]; simpl.
      * intros Hx. pose proof (wf_init _ _ _ Hwf Hm) as ->. by eapply wf_nil_slots.
      * by intros [-> _]%lookup_replicate.
  - rewrite Hlog, (im_view _ _ _ _ Him). unfold all_released, s2, s1. by destruct (nTableMask (ht s) =? 0).
Qed.

Lemma zend_hash_clean_refines_witness :
  exists t, zend_hash_clean t3 = Some t /\ refines t (OrdMap [] None 0) /\ heap t = ∅
    /\ dtor_log t = dtor_log t3 ++ all_released t3 [10; 20; 30].
Proof. exact (zend_hash_clean_refines t3 a3 t3_refines). Defined.

(** C14: the three destructors of a table release everything and nothing twice:
    no bucket is left, the destructor has seen every value exactly once, in
    list order ([zend_hash_destroy], [zend_hash_graceful_destroy]) or in
    reverse ([zend_hash_graceful_reverse_destroy]), and none of them follows a
    dangling pointer. *)
Theorem zend_hash_destroy_releases `{Platform} {V : Type} `{!Malloc V}
    (s : hstate V) (a : ordmap V) :
  refines s a ->
  let vs := (om_entries a).*2 in
  let ends (r : option (hstate V)) (vs : list V) :=
    exists t, r = Some t /\ heap t = ∅ /\ dtor_log t = dtor_log s ++ all_released s vs in
  ends (zend_hash_destroy s) vs
  /\ ends (zend_hash_graceful_destroy s) vs
  /\ ends (zend_hash_graceful_reverse_destroy s) (reverse vs).
Proof.
  intros (l & cs & Him)%refines_implements vs ends. pose proof (im_wf _ _ _ _ Him) as Hwf.
  pose proof (wf_fuel _ _ _ Hwf) as Hfuel.
  assert (Hfree : forall t : hstate V, heap (free_slots t) = heap t /\ dtor_log (free_slots t) = dtor_log t)
    by (intros t; unfold free_slots; by case_goal).
  split; [|split].
  - unfold ends, zend_hash_destroy. rewrite (gl_head _ _ (wf_glob _ _ _ Hwf)).
    destruct (free_all s s l cs (size (heap s))) as (t & -> & _ & Hheap & Hlog); [done..|].
    exists (free_slots t). destruct (Hfree t) as [-> ->]. rewrite Hlog, (im_view _ _ _ _ Him). done.
  - unfold ends, zend_hash_graceful_destroy.
    destruct (graceful_head_spec l (size (heap s)) s cs a Him Hfuel) as (t & -> & Hheap & _ & Hlog).
    exists (free_slots t). destruct (Hfree t) as [-> ->]. done.
  - unfold ends, zend_hash_graceful_reverse_destroy.
    destruct (graceful_tail_spec l (size (heap s)) s cs a Him Hfuel) as (t & -> & Hheap & _ & Hlog).
    exists (free_slots t). destruct (Hfree t) as [-> ->]. done.
Qed.

Lemma zend_hash_destroy_releases_witness :
  exists t, zend_hash_graceful_reverse_destroy t3 = Some t /\ heap t = ∅
    /\ dtor_log t = dtor_log t3 ++ all_released t3 [30; 20; 10].
Proof. exact (proj2 (proj2 (zend_hash_destroy_releases t3 a3 t3_refines))). Defined.

(** ** Applying a callback *)
Section ApplyCount.
Context `{Platform} {V : Type} `{!Malloc V}.
Implicit Types (s t : hstate V) (a : ordmap V).

Lemma implements_apply_count s l cs a n :
  implements s l cs a -> implements (on_ht (set_nApplyCount n) s) l cs a.
Proof.
  intros [[Hg Hd Hc Hs Hi Hn Hsm Hok Hk Hnr Hnx Hcur] Hv Hp Hr Hf]. split; [|done..].
  split; [destruct Hg; by split|done|destruct Hc; by split|destruct Hs; by split|done..].
Qed.

(** The outcome of a pass over the table that was not refused. *)
Definition applied {U} (g : U -> hkey * V -> Z * V * U) (u : U) s a
    (r : option (outcome U * hstate V)) : Prop :=
  exists t u' rest gone a', r = Some (Done u', t)
    /\ apply_entries g u (om_entries a) = (rest, u', gone)
    /\ refines t a' /\ om_entries a' = rest /\ om_next a' = om_next a
    /\ dtor_log t = dtor_log s ++ all_released s gone
    /\ nApplyCount (ht t) = nApplyCount (ht s).

Lemma protected_apply_spec {U} (f : U -> Bucket V -> Z * V * U) g u s a :
  (forall u b, f u b = g u (entry b)) -> refines s a ->
  0 <= nApplyCount (ht s) < 3 ->
  applied g u s a (protected_apply f pListHead pListNext u s).
Proof.
  intros Hfg (l & cs & Him)%refines_implements Hc.
  unfold protected_apply, HASH_PROTECT_RECURSION, HASH_UNPROTECT_RECURSION.
  assert (Hgo : forall n, exists s0, s0 = (if bApplyProtection (ht s)
      then on_ht (fun x => set_nApplyCount (n x) x) s else s)
      /\ implements s0 l cs a /\ heap s0 = heap s /\ dtor_log s0 = dtor_log s
      /\ pListHead (ht s0) = pListHead (ht s)
      /\ pDestructor (ht s0) = pDestructor (ht s)
      /\ bApplyProtection (ht s0) = bApplyProtection (ht s)
      /\ nApplyCount (ht s0) = if bApplyProtection (ht s) then n (ht s) else nApplyCount (ht s)).
  { intros n. eexists. split; [done|]. case_goal; [|done].
    split; [by apply (implements_apply_count s l cs a (n (ht s)))|done]. }
  destruct (Hgo (fun x => to_uchar (nApplyCount x + 1)))
    as (s0 & E0 & Him0 & Hh0 & Hl0 & Hp0 & Hd0 & Hb0 & Hn0).
  assert (Efst : (if bApplyProtection (ht s)
      then (on_ht (fun x => set_nApplyCount (to_uchar (nApplyCount x + 1)) x) s,
            3 <=? nApplyCount (ht s)) else (s, false)) = (s0, false)).
  { rewrite E0. destruct (bApplyProtection (ht s)); [|done]. f_equal. apply Z.leb_gt. lia. }
  rewrite Efst. clear Efst E0 Hgo. pose proof (im_wf _ _ _ _ Him0) as Hwf0.
  rewrite (gl_head _ _ (wf_glob _ _ _ Hwf0)).
  destruct (apply_loop_spec f g l (size (heap s0)) s0 [] cs a u Hfg Him0 (wf_fuel _ _ _ Hwf0))
    as (t & u' & gone & rest & l' & cs' & a' & -> & Hent & Himt & Ha' & Hnx & Hlog & Hct & Hbt).
  exists (HASH_UNPROTECT_RECURSION t), u', rest, gone, a'. split; [done|].
  rewrite <- (im_view _ _ _ _ Him0). split; [done|].
  assert (Hlogs : dtor_log (HASH_UNPROTECT_RECURSION t) = dtor_log t)
    by (unfold HASH_UNPROTECT_RECURSION; by case_goal).
  rewrite Hlogs, Hlog, Hl0, Hd0. unfold HASH_UNPROTECT_RECURSION. rewrite Hbt, Hb0.
  split; [|split; [done|split; [done|split; [done|]]]].
  - apply refines_implements. exists l', cs'. case_goal; [|done].
    by apply (implements_apply_count t l' cs' a' (to_uchar (nApplyCount (ht t) - 1))).
  - destruct (bApplyProtection (ht s)); simpl; rewrite Hct, Hn0; [|done].
    unfold to_uchar. rewrite !Z.mod_small; [lia|lia|rewrite Z.mod_small; lia].
Qed.
End ApplyCount.

(** C15: [zend_hash_apply] and [zend_hash_apply_with_argument] run the callback
    on every entry in list order until it answers [ZEND_HASH_APPLY_STOP]: the
    entries it answers [ZEND_HASH_APPLY_REMOVE] for go (and only their values,
    as the callback left them, are given to the destructor), the others stay in
    order with the values the callback wrote, and [nApplyCount] is back at its
    old value. *)
Theorem zend_hash_apply_refines `{Platform} {V U A : Type} `{!Malloc V}
    (s : hstate V) (a : ordmap V) (u : U) (arg : A)
    (f : U -> V -> Z * V * U) (f1 : U -> V -> A -> Z * V * U) :
  refines s a -> 0 <= nApplyCount (ht s) < 3 ->
  applied (fun u e => f u e.2) u s a (zend_hash_apply f u s)
  /\ applied (fun u e => f1 u e.2 arg) u s a (zend_hash_apply_with_argument f1 arg u s).
Proof. intros Href Hc. split; by apply protected_apply_spec. Qed.

(** Add up the values, remove those that are 20. *)
Definition drop20 (sum v : Z) : Z * Z * Z :=
  (if v =? 20 then ZEND_HASH_APPLY_REMOVE else ZEND_HASH_APPLY_KEEP, v, sum + v).

Lemma zend_hash_apply_refines_witness :
  applied (fun u e => drop20 u e.2) 0 t3 a3 (zend_hash_apply drop20 0 t3)
  /\ apply_entries (fun u e => drop20 u e.2) 0 (om_entries a3)
     = ([(KStr [97; 98; 0], 10); (KInt 8, 30)], 60, [20]).
Proof.
  split; [|by vm_compute].
  refine (proj1 (zend_hash_apply_refines t3 a3 0 tt drop20 (fun u v _ => drop20 u v) t3_refines _)).
  by vm_compute.
Defined.

(** Runaway recursion is cut off: with protection on, a pass that would be the
    fourth nested one on the same table ends in [E_ERROR] before any callback
    runs, with no change but the raised count. *)
Lemma zend_hash_apply_nesting `{Platform} {V U : Type} `{!Malloc V}
    (s : hstate V) (u : U) (f : U -> V -> Z * V * U) :
  bApplyProtection (ht s) = true -> 3 <= nApplyCount (ht s) ->
  let t := on_ht (set_nApplyCount (to_uchar (nApplyCount (ht s) + 1))) s in
  zend_hash_apply f u s = Some (Bailout, t) /\ zend_hash_reverse_apply f u s = Some (Bailout, t).
Proof.
  intros Hp Hc t. unfold zend_hash_apply, zend_hash_reverse_apply, protected_apply,
    HASH_PROTECT_RECURSION. rewrite Hp.
  apply Z.leb_le in Hc. rewrite Hc. done.
Qed.

(** ** Renumbering and sorting *)

(** [zend_hash_reindex] gives the integer keys (all keys, unless
    [only_integer_keys]) the numbers 0, 1, 2, ... in list order, keeps values,
    order and the other keys, rebuilds the collision chains for the new hashes
    and sets the next free index to the number of keys given out. *)
Theorem zend_hash_reindex_refines `{Platform} {V : Type} `{!Malloc V}
    (s : hstate V) (a : ordmap V) (only : bool) :
  refines s a -> Z.of_nat (length (om_entries a)) <= LONG_MAX ->
  exists t, zend_hash_reindex only s = Some t
    /\ refines t (OrdMap (reindex_entries only 0 (om_entries a)) (om_cursor a)
                    (reindex_count only (om_entries a)))
    /\ dtor_log t = dtor_log s.
Proof.
  intros (l & cs & Him)%refines_implements Hl. rewrite (implements_length _ _ _ _ Him) in Hl.
  destruct (reindex_effect only s l (wf_reindexable only s l cs (im_wf _ _ _ _ Him) Hl))
    as (t & cs' & -> & Hwf & Hv & Hn & Hc & _ & Hlog).
  rewrite (im_view _ _ _ _ Him) in Hv, Hn.
  exists t. split; [done|]. split; [|done]. apply refines_implements. exists l, cs'.
  split; simpl; [done|done| | |done].
  - rewrite Hc. apply (im_cur _ _ _ _ Him).
  - apply (im_cur_range _ _ _ _ Him).
Qed.

Lemma zend_hash_reindex_refines_witness :
  exists t, zend_hash_reindex true t3 = Some t
    /\ refines t (OrdMap [(KStr [97; 98; 0], 10); (KInt 0, 20); (KInt 1, 30)] (Some 0%nat) 2)
    /\ dtor_log t = dtor_log t3.
Proof. refine (zend_hash_reindex_refines t3 a3 true t3_refines _). by vm_compute. Defined.

Section SortLemmas.
Context `{Platform} {V : Type}.
Implicit Types (s t : hstate V) (a : ordmap V).

Lemma sorted_fmap {A B} (f : A -> B) (cmp : B -> B -> Z) (cmp' : A -> A -> Z) l :
  (forall x y, cmp' x y = cmp (f x) (f y)) -> sorted_by cmp' l -> sorted_by cmp (f <$> l).
Proof.
  intros Hc. unfold sorted_by. induction 1 as [|x l Hs IH Hx]; simpl; constructor; [done|].
  rewrite Forall_fmap. eapply Forall_impl; [exact Hx|]. intros y Hy. simpl. by rewrite <- Hc.
Qed.

Lemma core_view (m m' : gmap addr (Bucket V)) l : core <$> m' = core <$> m -> view m' l = view m l.
Proof.
  intros Hc. apply view_ext. intros p _. apply (f_equal (lookup p)) in Hc.
  rewrite !lookup_fmap in Hc. destruct (m' !! p) as [b'|], (m !! p) as [b|]; [|done..].
  simpl in *. f_equal. apply core_entry. congruence.
Qed.

Lemma sorted_short {A} (cmp : A -> A -> Z) l : (length l <= 1)%nat -> sorted_by cmp l.
Proof.
  destruct l as [|x [|y l]]; simpl; intros; [constructor| |lia]. repeat constructor.
Qed.

Lemma total_preorder_map {A B} (f : A -> B) (cmp : B -> B -> Z) (cmp' : A -> A -> Z) :
  (forall x y, cmp' x y = cmp (f x) (f y)) -> total_preorder cmp -> total_preorder cmp'.
Proof. intros Hc [H1 H2]. split; intros *; rewrite !Hc; eauto. Qed.

(** The buckets the sort function is given and what it makes of them. *)
Lemma sort_buckets s l cs sort_func (compar : Bucket V -> Bucket V -> Z)
    (c : hkey * V -> hkey * V -> Z) :
  wf s l cs -> SortFunc sort_func -> total_preorder c ->
  (forall x y, compar x y = c (entry x) (entry y)) ->
  let ps := sort_func (fun x y : addr * Bucket V => compar x.2 y.2) (buckets (heap s) l) in
  ps.*1 ≡ₚ l /\ sorted_by c (view (heap s) ps.*1) /\ view (heap s) ps.*1 ≡ₚ view (heap s) l.
Proof.
  intros Hwf [Hp Hs] Hc Hcmp ps.
  assert (Hbl : Z.of_nat (length (buckets (heap s) l)) < 2 ^ 32).
  { rewrite <- (length_fmap fst), buckets_fst; [apply Hwf|]. intros p. by rewrite (wf_dom _ _ _ Hwf). }
  specialize (Hp (fun x y => compar x.2 y.2) (buckets (heap s) l) Hbl).
  fold ps in Hp. set (f := fun x : addr * Bucket V => entry x.2).
  assert (Hf : forall x y : addr * Bucket V, compar x.2 y.2 = c (f x) (f y)) by (intros; apply Hcmp).
  assert (Hps : view (heap s) ps.*1 = f <$> ps).
  { apply view_pairs. intros x Hx. apply (buckets_lookup _ l). by rewrite <- Hp. }
  split; [|split].
  - rewrite Hp, buckets_fst; [done|]. intros p. by rewrite (wf_dom _ _ _ Hwf).
  - rewrite Hps. eapply sorted_fmap; [exact Hf|]. apply Hs; [done|]. by eapply total_preorder_map.
  - rewrite Hps, buckets_view. by rewrite Hp.
Qed.
End SortLemmas.

(** C16: [zend_hash_sort] with a sort function that keeps its contract: the
    entries of the result are the old entries, each exactly once, in the order
    of the comparison; without [renumber] every key keeps its value and is still
    found through its collision chain, with [renumber] the keys are 0, 1, 2, ...
    in that order. *)
Theorem zend_hash_sort_refines `{Platform} {V : Type} `{!Malloc V}
    (s : hstate V) (a : ordmap V) (renumber : bool)
    (sort_func : (addr * Bucket V -> addr * Bucket V -> Z) ->
                 list (addr * Bucket V) -> list (addr * Bucket V))
    (compar : Bucket V -> Bucket V -> Z) (c : hkey * V -> hkey * V -> Z) :
  refines s a -> SortFunc sort_func -> total_preorder c ->
  (forall x y, compar x y = c (entry x) (entry y)) ->
  Z.of_nat (length (om_entries a)) <= LONG_MAX ->
  exists t a' es, zend_hash_sort sort_func compar renumber s = Some t /\ refines t a'
    /\ es ≡ₚ om_entries a /\ sorted_by c es
    /\ om_entries a' = (if renumber then reindex_entries false 0 es else es)
    /\ ((1 < length es)%nat -> om_cursor a' = Some 0%nat)
    /\ dtor_log t = dtor_log s.
Proof.
  intros Href Hsort Hc Hcmp Hl. pose proof Href as (l & cs & Him)%refines_implements.
  pose proof (im_wf _ _ _ _ Him) as Hwf. rewrite (implements_length _ _ _ _ Him) in Hl.
  unfold zend_hash_sort. rewrite (wf_num _ _ _ Hwf).
  destruct (negb (1 <? Z.of_nat (length l)) && negb (renumber && (0 <? Z.of_nat (length l)))) eqn:E.
  { apply andb_true_iff in E as [E1%negb_true_iff%Z.ltb_ge E2%negb_true_iff].
    exists s, a, (om_entries a). rewrite (implements_length _ _ _ _ Him).
    split; [done|]. split; [done|]. split; [done|].
    split; [apply sorted_short; rewrite (implements_length _ _ _ _ Him); lia|].
    split; [|split; [lia|done]]. destruct renumber; [|done]. simpl in E2. apply Z.ltb_ge in E2.
    destruct (om_entries a) eqn:Ee; [done|].
    pose proof (implements_length _ _ _ _ Him) as El. rewrite Ee in El. simpl in El. lia. }
  rewrite (gl_head _ _ (wf_glob _ _ _ Hwf)).
  rewrite collect_spec by (by eapply wf_threaded || by eapply wf_fuel). simpl.
  destruct (sort_buckets s l cs sort_func compar c Hwf Hsort Hc Hcmp) as (Hpl & Hps & Hpv).
  set (l' := (sort_func _ _).*1) in *.
  destruct (relink_wf s l cs l' Hwf Hpl) as (t & Hrun & Hwft & Hcore & Hcur & Hnx & Hd & Hlog).
  simpl in Hrun. rewrite Hrun. simpl. set (u := on_ht (set_pListTail (last l')) t) in *.
  assert (Hview : view (heap u) l' = view (heap s) l') by (by apply core_view).
  assert (Himu : implements u l' cs (OrdMap (view (heap s) l') (if l' is [] then None else Some 0%nat)
    (om_next a))).
  { split; simpl; [done|done| | |].
    - rewrite Hcur. by destruct l'.
    - destruct l'; intros i Hi; simplify_eq/=. lia.
    - rewrite Hnx. apply (im_next _ _ _ _ Him). }
  rewrite (im_view _ _ _ _ Him) in Hpv. pose proof (im_wf _ _ _ _ Himu) as Hwfu.
  assert (Hlen : length (view (heap s) l') = length l') by (rewrite <- Hview; by eapply length_view).
  destruct renumber.
  - destruct (reindex_effect false u l') as (v & cs' & -> & Hwfv & Hvv & Hnv & Hcv & _ & Hlv).
    { eapply wf_reindexable; [done|]. by rewrite Hpl. }
    rewrite Hview in Hvv, Hnv.
    exists v, (OrdMap (reindex_entries false 0 (view (heap s) l'))
      (if l' is [] then None else Some 0%nat) (reindex_count false (view (heap s) l'))), (view (heap s) l').
    split; [done|]. split; [|split; [done|split; [done|split; [done|split; [|]]]]].
    + apply refines_implements. exists l', cs'. split; simpl; [done|done| | |done].
      * rewrite Hcv. apply (im_cur _ _ _ _ Himu).
      * apply (im_cur_range _ _ _ _ Himu).
    + rewrite Hlen. destruct l'; simpl; [lia|done].
    + by rewrite Hlv.
  - eexists u, _, (view (heap s) l'). split; [done|].
    split; [apply refines_implements; by exists l', cs|].
    split; [done|]. split; [done|]. split; [done|]. split; [|done].
    simpl. rewrite Hlen. destruct l'; simpl; [lia|done].
Qed.

(** Descending by value. *)
Definition by_value_desc (x y : hkey * Z) : Z := y.2 - x.2.

Lemma zend_hash_sort_refines_witness :
  (exists t a' es,
    zend_hash_sort (zend_qsort_func 8) (fun x y => by_value_desc (entry x) (entry y)) true t3 = Some t
    /\ refines t a' /\ es ≡ₚ om_entries a3 /\ sorted_by by_value_desc es
    /\ om_entries a' = reindex_entries false 0 es
    /\ ((1 < length es)%nat -> om_cursor a' = Some 0%nat)
    /\ dtor_log t = dtor_log t3)
  /\ (fun t => view (heap t) [3; 2; 1]%positive)
      <$> zend_hash_sort (zend_qsort_func 8) (fun x y => by_value_desc (entry x) (entry y)) true t3
     = Some [(KInt 0, 30); (KInt 1, 20); (KInt 2, 10)].
Proof.
  split; [|by vm_compute].
  refine (zend_hash_sort_refines t3 a3 true (zend_qsort_func 8) _ by_value_desc t3_refines _ _ _ _).
  - unfold by_value_desc. split; intros; lia.
  - done.
  - by vm_compute.
Defined.

(** ** Renumbering and interned keys *)

(** The interned string "c" with its NUL, and a table holding only it. *)
Definition key_c : char_ptr := CharPtr (KInterned 5) [99; 0].
Definition tc : hstate Z := ok_or t0 ((fun r => r.1.1) <$> zend_hash_update key_c 2 1 8 t0).

(** Renumbering forgets to clear [arKey].  In a table that holds only the
    interned key "c", [zend_hash_sort] with [renumber] (PHP's [sort()]) makes
    the key the integer 0, as it should; but the bucket still points to the
    interned string, lookups compare that pointer before they look at the key
    length, and "c" hashes to the slot of 0: the table still answers that it
    has the key "c". *)
Theorem sort_renumber_stale_key :
  refines tc (OrdMap [(KStr [99; 0], 1)] (Some 0%nat) 0)
  /\ zend_hash_sort (zend_qsort_func 8) (fun x y => by_value_desc (entry x) (entry y)) true tc
     = zend_hash_reindex false tc
  /\ exists t, zend_hash_reindex false tc = Some t
     /\ refines t (OrdMap [(KInt 0, 1)] (Some 0%nat) 1)
     /\ zend_hash_exists key_c 2 t = Some true.
Proof.
  assert (Htc : refines tc (OrdMap [(KStr [99; 0], 1)] (Some 0%nat) 0)).
  { destruct (put_refines t0 (OrdMap [] None 0) key_c 2 1 8 HASH_UPDATE)
      as (t & r & d & Hr & _ & Href & _); [apply t0_refines|split; try done|done|].
    unfold tc, zend_hash_update. rewrite Hr. exact Href. }
  split; [done|]. split; [by vm_compute|].
  pose proof Htc as (l & cs & Him)%refines_implements.
  destruct (reindex_effect false tc l) as (t & cs' & Hrun & Hwf & Hv & Hn & Hc & _).
  { eapply wf_reindexable; [apply Him|]. by rewrite <- (implements_length _ _ _ _ Him). }
  exists t. split; [done|]. split.
  - rewrite (im_view _ _ _ _ Him) in Hv, Hn. apply refines_implements. exists l, cs'.
    split; simpl; [done|done| | |done].
    + rewrite Hc. apply (im_cur _ _ _ _ Him).
    + apply (im_cur_range _ _ _ _ Him).
  - assert (E : (t ← zend_hash_reindex false tc; zend_hash_exists key_c 2 t) = Some true)
      by (by vm_compute).
    rewrite Hrun in E. exact E.
Qed.
