(* ===== verification/HashCursorThms.v ===== *)
(** * HashCursorThms: walking a table, saved positions, the hash function

    The internal pointer of Zend/zend_hash.c as a cursor on the ordered map,
    the position [foreach] saves, the unrolled hash function, and the decimal
    strings the symbol-table functions of zend_hash.h treat as integers. *)
From S2P Require Import Prelude DList HashDefs HashInv HashLemmas HashRefine HashBulk HashExample.

(** ** The cursor of the ordered map *)
Section CursorSpec.
Context {V : Type}.
Implicit Types (a : ordmap V).

Definition om_at (c : option nat) a : ordmap V := OrdMap (om_entries a) c (om_next a).
Definition om_first a : option nat := if om_entries a is [] then None else Some 0%nat.
Definition om_last a : option nat :=
  match length (om_entries a) with O => None | S n => Some n end.
Definition om_succ a (i : nat) : option nat :=
  if (S i <? length (om_entries a))%nat then Some (S i) else None.
Definition om_pred (i : nat) : option nat := match i with O => None | S j => Some j end.
Definition om_current a : option (hkey * V) := om_cursor a ≫= (fun i => om_entries a !! i).
End CursorSpec.

Section CursorLemmas.
Context `{Platform} {V : Type} `{!Malloc V}.
Implicit Types (s t : hstate V) (a : ordmap V) (l : list addr).

Lemma implements_at s l cs a (c : option nat) (p : option addr) :
  implements s l cs a -> p = c ≫= (fun i => l !! i) ->
  (forall i, c = Some i -> (i < length l)%nat) ->
  implements (on_ht (set_pInternalPointer p) s) l cs (om_at c a).
Proof.
  intros [[Hg Hd Hc Hs Hi Hn Hsm Hok Hk Hnr Hnx Hcur] Hv Hp Hr Hf] -> Hrange. split; [|done..].
  split; [destruct Hg; by split|done|destruct Hc; by split|destruct Hs; by split|done..|].
  simpl. intros p Hlk. destruct c as [i|]; [|done]. by eapply list_elem_of_lookup_2.
Qed.

Lemma refines_at s l cs a (c : option nat) (p : option addr) :
  implements s l cs a -> p = c ≫= (fun i => l !! i) ->
  (forall i, c = Some i -> (i < length l)%nat) ->
  refines (on_ht (set_pInternalPointer p) s) (om_at c a).
Proof. intros. apply refines_implements. exists l, cs. by apply implements_at. Qed.

(** The bucket under the cursor, with its neighbours. *)
Lemma cursor_bucket s l cs a i :
  implements s l cs a -> (i < length l)%nat ->
  exists p b, l !! i = Some p /\ heap s !! p = Some b
    /\ om_entries a !! i = Some (entry b)
    /\ pListNext b = l !! S i
    /\ pListLast b = om_pred i ≫= (fun j => l !! j).
Proof.
  intros Him Hi. pose proof (im_wf _ _ _ _ Him) as Hwf.
  destruct (lookup_lt_is_Some_2 _ _ Hi) as [p Hp].
  assert (is_Some (heap s !! p)) as [b Hb]
    by (apply (wf_dom _ _ _ Hwf); by eapply list_elem_of_lookup_2).
  exists p, b. split; [done|]. split; [done|].
  rewrite <- (im_view _ _ _ _ Him), (view_lookup s l cs) by done. rewrite Hp. simpl. rewrite Hb.
  split; [done|]. pose proof (gl_linked _ _ (wf_glob _ _ _ Hwf)) as Hlk.
  apply list_elem_of_split_length in Hp as (l1 & l2 & -> & ->).
  apply linked_middle in Hlk as [HN HL]. rewrite !lookup_fmap, Hb in HN, HL.
  simpl in HN, HL. injection HN as ->. injection HL as ->. split.
  - rewrite lookup_app_r by lia. replace (S (length l1) - length l1)%nat with 1%nat by lia.
    by destruct l2.
  - rewrite last_lookup. destruct (length l1) as [|n] eqn:E; simpl.
    + by destruct l1.
    + rewrite lookup_app_l by lia. done.
Qed.
End CursorLemmas.

(** C40: the internal pointer is a cursor on the map: reset and end put it on
    the first and last entry, forward and backward move it by one entry and
    unset it past either end, moving an unset pointer fails; the entries are
    never changed, and a move always succeeds in following the list. *)
Theorem zend_hash_cursor_refines `{Platform} {V : Type} `{!Malloc V}
    (s : hstate V) (a : ordmap V) :
  refines s a ->
  let moved := if om_cursor a is Some _ then SUCCESS else FAILURE in
  refines (zend_hash_internal_pointer_reset_ex None s).1 (om_at (om_first a) a)
  /\ refines (zend_hash_internal_pointer_end_ex None s).1 (om_at (om_last a) a)
  /\ (exists t, zend_hash_move_forward_ex None s = Some (t, None, moved)
        /\ refines t (om_at (om_cursor a ≫= om_succ a) a))
  /\ (exists t, zend_hash_move_backwards_ex None s = Some (t, None, moved)
        /\ refines t (om_at (om_cursor a ≫= om_pred) a)).
Proof.
  intros (l & cs & Him)%refines_implements moved. pose proof (im_wf _ _ _ _ Him) as Hwf.
  pose proof (implements_length _ _ _ _ Him) as Hlen.
  assert (Hcur : om_cursor a = None -> refines s (om_at None a)).
  { intros E. apply refines_implements. exists l, cs.
    destruct Him as [? ? Hc ? ?]. rewrite E in Hc. by split. }
  split; [|split; [|split]].
  - simpl. apply (refines_at s l cs a _ (pListHead (ht s)) Him); unfold om_first.
    + rewrite (gl_head _ _ (wf_glob _ _ _ Hwf)). by destruct (om_entries a), l.
    + destruct (om_entries a); intros i Hi; simplify_eq/=. lia.
  - simpl. apply (refines_at s l cs a _ (pListTail (ht s)) Him); unfold om_last; rewrite Hlen.
    + rewrite (gl_tail _ _ (wf_glob _ _ _ Hwf)), last_lookup. by destruct l.
    + destruct (length l); intros i Hi; simplify_eq/=. lia.
  - unfold zend_hash_move_forward_ex, current_pos, moved. rewrite (im_cur _ _ _ _ Him).
    destruct (om_cursor a) as [i|] eqn:Ei; simpl; [|by eauto].
    destruct (cursor_bucket s l cs a i Him) as (p & b & Hp & Hb & He & Hn & _);
      [by eapply im_cur_range|].
    rewrite Hp, Hb. simpl. eexists. split; [done|]. apply (refines_at s l cs a _ _ Him); unfold om_succ.
    + rewrite Hn, Hlen. destruct (Nat.ltb_spec (S i) (length l)); [done|]. by apply lookup_ge_None.
    + rewrite Hlen. destruct (Nat.ltb_spec (S i) (length l)); intros j [= <-]. done.
  - unfold zend_hash_move_backwards_ex, current_pos, moved. rewrite (im_cur _ _ _ _ Him).
    destruct (om_cursor a) as [i|] eqn:Ei; simpl; [|by eauto].
    pose proof (im_cur_range _ _ _ _ Him _ Ei) as Hi.
    destruct (cursor_bucket s l cs a i Him Hi) as (p & b & Hp & Hb & He & _ & Hl).
    rewrite Hp, Hb. simpl. eexists. split; [done|]. apply (refines_at s l cs a _ _ Him); [done|].
    destruct i; intros j Hj; simplify_eq/=. lia.
Qed.

Lemma zend_hash_cursor_refines_witness :
  exists t, zend_hash_move_forward_ex None t3 = Some (t, None, SUCCESS)
    /\ refines t (OrdMap (om_entries a3) (Some 1%nat) 9).
Proof. exact (proj1 (proj2 (proj2 (zend_hash_cursor_refines t3 a3 t3_refines)))). Defined.

(** What a caller is told about the key of an entry. *)
Definition key_told {V} (duplicate : bool) (e : option (hkey * V)) (r : cur_key) : Prop :=
  match e with
  | None => r = CurNone
  | Some (KInt i, _) => r = CurLong i
  | Some (KStr k, _) => exists str, r = CurString str (Z.of_nat (length k))
      /\ if duplicate then str = take (length k - 1) k else take (length k) str = k
  end.

(** [zend_hash_get_current_data_ex], [_key_ex] and [_key_type_ex] report
    the entry under the cursor: its value, its key (a string key with its
    length, copied without the terminating byte when [duplicate]), its kind,
    and that there is none when the pointer is unset. *)
Theorem zend_hash_get_current_refines `{Platform} {V : Type} `{!Malloc V}
    (s : hstate V) (a : ordmap V) (duplicate : bool) :
  refines s a ->
  (exists r, zend_hash_get_current_data_ex None s = Some r
     /\ match om_current a with
        | Some e => exists p, r = Some p /\ entry <$> heap s !! p = Some e
        | None => r = None
        end)
  /\ (exists k, zend_hash_get_current_key_ex duplicate None s = Some k
        /\ key_told duplicate (om_current a) k)
  /\ zend_hash_get_current_key_type_ex None s
     = Some (match om_current a with
             | Some (KInt _, _) => HASH_KEY_IS_LONG
             | Some (KStr _, _) => HASH_KEY_IS_STRING
             | None => HASH_KEY_NON_EXISTENT
             end).
Proof.
  intros (l & cs & Him)%refines_implements. pose proof (im_wf _ _ _ _ Him) as Hwf.
  unfold zend_hash_get_current_data_ex, zend_hash_get_current_key_ex,
    zend_hash_get_current_key_type_ex, current_pos, om_current. rewrite (im_cur _ _ _ _ Him).
  destruct (om_cursor a) as [i|] eqn:Ei; simpl; [|by eauto 10].
  destruct (cursor_bucket s l cs a i Him) as (p & b & Hp & Hb & He & _ & _);
    [by eapply im_cur_range|].
  rewrite Hp, Hb, He. simpl. pose proof (wf_ok _ _ _ Hwf _ _ Hb) as [_ Hl Hk].
  split; [by eexists; split; [done|]; exists p; rewrite Hb|].
  unfold entry, bkey. destruct (Z.eqb_spec (nKeyLength b) 0) as [E|E]; simpl; [by eauto|].
  split; [|done]. eexists. split; [done|]. destruct (Hk E) as [Hr _].
  assert (Hlen : length (take (Z.to_nat (nKeyLength b)) (cp_bytes (arKey b))) = Z.to_nat (nKeyLength b))
    by (rewrite length_take; lia).
  rewrite Hlen. eexists. split; [f_equal; lia|]. destruct duplicate; [|done].
  rewrite take_take. f_equal. lia.
Qed.

Lemma zend_hash_get_current_refines_witness :
  exists k, zend_hash_get_current_key_ex true None t3 = Some k
    /\ key_told true (om_current a3) k.
Proof. exact (proj1 (proj2 (zend_hash_get_current_refines t3 a3 true t3_refines))). Defined.

(** ** Walking the whole table with a position of the caller *)
Section Walk.
Context `{Platform} {V : Type} `{!Malloc V}.
Implicit Types (s t : hstate V) (a : ordmap V).

(** [while (zend_hash_get_current_data_ex(ht, &data, &pos) == SUCCESS) { ...;
    move(ht, &pos); }], collecting the entries seen. *)
Fixpoint walk (fuel : nat)
    (move : option (option addr) -> hstate V ->
            option (hstate V * option (option addr) * zend_result))
    (pos : option (option addr)) s : option (hstate V * list (hkey * V)) :=
  match fuel with
  | O => None
  | S fuel =>
      cur ← zend_hash_get_current_data_ex pos s;
      match cur with
      | None => Some (s, [])
      | Some p =>
          b ← heap s !! p;
          '(s, pos, _) ← move pos s;
          '(s, seen) ← walk fuel move pos s;
          Some (s, entry b :: seen)
      end
  end.

Lemma data_at s p b :
  heap s !! p = Some b -> zend_hash_get_current_data_ex (Some (Some p)) s = Some (Some p).
Proof. intros Hb. unfold zend_hash_get_current_data_ex. simpl. by rewrite Hb. Qed.
Lemma forward_at s p b : heap s !! p = Some b ->
  zend_hash_move_forward_ex (Some (Some p)) s = Some (s, Some (pListNext b), SUCCESS).
Proof. intros Hb. unfold zend_hash_move_forward_ex. simpl. by rewrite Hb. Qed.
Lemma backward_at s p b : heap s !! p = Some b ->
  zend_hash_move_backwards_ex (Some (Some p)) s = Some (s, Some (pListLast b), SUCCESS).
Proof. intros Hb. unfold zend_hash_move_backwards_ex. simpl. by rewrite Hb. Qed.

Lemma walk_forward s l cs a : implements s l cs a -> forall l2 l1 fuel,
  l = l1 ++ l2 -> (length l2 < fuel)%nat ->
  walk fuel zend_hash_move_forward_ex (Some (head l2)) s = Some (s, view (heap s) l2).
Proof.
  intros Him. induction l2 as [|p l2 IH]; intros l1 fuel -> Hf; (destruct fuel as [|fuel]; [lia|]);
    simpl; [done|].
  destruct (cursor_bucket s _ cs a (length l1) Him) as (p' & b & Hp & Hb & _ & Hn & _).
  { rewrite length_app. simpl. lia. }
  rewrite list_lookup_middle in Hp by done. injection Hp as <-.
  rewrite (data_at _ _ _ Hb), (forward_at _ _ _ Hb). simpl. rewrite Hb. simpl.
  assert (pListNext b = head l2) as ->.
  { rewrite Hn, lookup_app_r by lia. replace (S (length l1) - length l1)%nat with 1%nat by lia.
    by destruct l2. }
  rewrite (IH (l1 ++ [p]) fuel) by (rewrite <- ?app_assoc; done || simpl in *; lia).
  simpl. by rewrite (view_cons _ _ b).
Qed.

Lemma walk_backward s l cs a : implements s l cs a -> forall l1 l2 fuel,
  l = l1 ++ l2 -> (length l1 < fuel)%nat ->
  walk fuel zend_hash_move_backwards_ex (Some (last l1)) s = Some (s, reverse (view (heap s) l1)).
Proof.
  intros Him. induction l1 as [|p l1 IH] using rev_ind; intros l2 fuel -> Hf;
    (destruct fuel as [|fuel]; [lia|]); simpl; [done|].
  rewrite last_snoc. rewrite <- app_assoc in Him. simpl in Him.
  destruct (cursor_bucket s _ cs a (length l1) Him) as (p' & b & Hp & Hb & _ & _ & Hl).
  { rewrite length_app. simpl. lia. }
  rewrite list_lookup_middle in Hp by done. injection Hp as <-.
  rewrite (data_at _ _ _ Hb), (backward_at _ _ _ Hb). simpl. rewrite Hb. simpl.
  assert (pListLast b = last l1) as ->.
  { rewrite Hl, last_lookup. destruct (length l1) as [|n] eqn:E; simpl; [by destruct l1|].
    by rewrite lookup_app_l by lia. }
  rewrite length_app in Hf. simpl in Hf.
  rewrite (IH (p :: l2) fuel) by (rewrite <- ?app_assoc; done || lia).
  simpl. rewrite view_app, (view_cons _ _ b) by done. by rewrite reverse_app.
Qed.
End Walk.

(** The loop every caller of zend_hash.c writes visits each entry exactly
    once: from [reset] forward in insertion order, from [end] backward in
    reverse order, without touching the table. *)
Theorem zend_hash_walk `{Platform} {V : Type} `{!Malloc V}
    (s : hstate V) (a : ordmap V) (pos : option addr) (fuel : nat) :
  refines s a -> (length (om_entries a) < fuel)%nat ->
  let first := zend_hash_internal_pointer_reset_ex (Some pos) s in
  let final := zend_hash_internal_pointer_end_ex (Some pos) s in
  walk fuel zend_hash_move_forward_ex first.2 first.1 = Some (s, om_entries a)
  /\ walk fuel zend_hash_move_backwards_ex final.2 final.1 = Some (s, reverse (om_entries a)).
Proof.
  intros (l & cs & Him)%refines_implements Hf. simpl.
  pose proof (wf_glob _ _ _ (im_wf _ _ _ _ Him)) as Hg.
  rewrite (implements_length _ _ _ _ Him) in Hf.
  rewrite <- (im_view _ _ _ _ Him), (gl_head _ _ Hg), (gl_tail _ _ Hg). split.
  - by apply (walk_forward s l cs a Him l []).
  - apply (walk_backward s l cs a Him l []); [by rewrite app_nil_r|done].
Qed.

Lemma zend_hash_walk_witness :
  walk 4 zend_hash_move_backwards_ex
    (zend_hash_internal_pointer_end_ex (Some None) t3).2
    (zend_hash_internal_pointer_end_ex (Some None) t3).1 = Some (t3, reverse (om_entries a3)).
Proof.
  refine (proj2 (zend_hash_walk t3 a3 None 4 t3_refines _)). simpl. lia.
Defined.

(** ** Saved positions *)

(** [foreach] saves the position with [zend_hash_get_pointer] and restores
    it with [zend_hash_set_pointer] after arbitrary code has changed the table.
    If the saved bucket is still in the table under the same hash, the pointer
    is on it again; if the bucket is gone, the call answers 0 and leaves the
    table alone, and it never dereferences the saved pointer. *)
Theorem zend_hash_set_pointer_restores `{Platform} {V : Type} `{!Malloc V}
    (s t : hstate V) (a a' : ordmap V) (ptr : HashPointer) :
  refines s a -> zend_hash_get_pointer s = Some (ptr, true) -> refines t a' ->
  exists p, hp_pos ptr = Some p /\ pInternalPointer (ht s) = Some p
  /\ (forall b, heap t !! p = Some b -> h b = hp_h ptr ->
        exists t' i, zend_hash_set_pointer ptr t = Some (t', true)
          /\ refines t' (om_at (Some i) a') /\ om_entries a' !! i = Some (entry b))
  /\ (heap t !! p = None -> zend_hash_set_pointer ptr t = Some (t, false)).
Proof.
  intros (ls & css & Hs)%refines_implements Hget (l & cs & Him)%refines_implements.
  pose proof (im_wf _ _ _ _ Him) as Hwf. unfold zend_hash_get_pointer in Hget.
  destruct (pInternalPointer (ht s)) as [p|] eqn:Ep; [|done].
  destruct (heap s !! p) as [b0|] eqn:Hb0; [|done]. simpl in Hget. injection Hget as <-.
  pose proof (bk_h _ (wf_ok _ _ _ (im_wf _ _ _ _ Hs) _ _ Hb0)) as Hh0.
  exists p. split; [done|]. split; [done|]. unfold zend_hash_set_pointer. simpl.
  destruct (search_chain_spec t l cs (fun q _ => bool_decide (q = p)) (h b0)
    (wf_chains _ _ _ Hwf) (wf_sizes _ _ _ Hwf) ltac:(lia)) as (c & Hc & ->).
  pose proof (ch_mem _ _ _ (wf_chains _ _ _ Hwf) _ _ p Hc) as Hmem.
  split.
  - intros b Hb Hh. destruct (wf_position _ _ _ _ _ Hwf Hb) as [i Hi].
    assert (Hrange : forall j, Some i = Some j -> (j < length l)%nat).
    { intros j [= <-]. by eapply lookup_lt_Some. }
    exists (on_ht (set_pInternalPointer (Some p)) t), i.
    rewrite <- (im_view _ _ _ _ Him), (view_lookup t l cs), Hi by done. simpl. rewrite Hb.
    split; [|split; [apply (refines_at t l cs a' (Some i)); by rewrite ?Hi|done]].
    case_decide as Ecur.
    { do 2 f_equal. destruct t as [x ? ?]. unfold on_ht. simpl in *. f_equal.
      destruct x. simpl in *. by rewrite Ecur. }
    assert (Hin : p ∈ c).
    { apply Hmem. split; [by eapply list_elem_of_lookup_2|]. exists b. by rewrite Hh. }
    destruct (first_match (heap t) _ c) as [q|] eqn:Hf; simpl.
    + apply first_match_Some in Hf as (_ & bq & _ & Hq). reflect_bools. by subst.
    + pose proof (first_match_None (heap t) _ c p b Hf
        (fun q Hq => chain_allocated t l cs _ c q (wf_chains _ _ _ Hwf) Hc Hq) Hin Hb) as E.
      by apply bool_decide_eq_false in E.
  - intros Hb. rewrite decide_False.
    2:{ intros Hcur%(wf_cur _ _ _ Hwf)%(wf_dom _ _ _ Hwf). rewrite Hb in Hcur. by destruct Hcur. }
    destruct (first_match (heap t) _ c) as [q|] eqn:Hf; simpl; [|done].
    apply first_match_Some in Hf as (_ & bq & Hbq & Hq). reflect_bools. congruence.
Qed.

Definition ptr3 : HashPointer :=
  MkHashPointer (Some 1%positive) (zend_inline_hash_func [97; 98; 0] 3).

Lemma zend_hash_set_pointer_restores_witness :
  zend_hash_get_pointer t3 = Some (ptr3, true)
  /\ exists p, hp_pos ptr3 = Some p /\ pInternalPointer (ht t3) = Some p
     /\ (heap t2 !! p = None -> zend_hash_set_pointer ptr3 t2 = Some (t2, false)).
Proof.
  split; [by vm_compute|].
  destruct (zend_hash_set_pointer_restores t3 t2 a3 (om_update (KInt 7) 20 (om_update (KStr [97; 98; 0]) 10 (OrdMap [] None 0))) ptr3 t3_refines) as (p & H1 & H2 & _ & H3).
  - by vm_compute.
  - exact t2_refines.
  - exists p. split; [exact H1|split; [exact H2|exact H3]].
Defined.

(** ** The hash function *)
Section HashFunction.
Context `{Platform}.

(** One step of DJBX33A in closed form. *)
Definition djbx33a (hash c : Z) : Z := (33 * hash + schar c) mod 2 ^ LONG_BITS.

Lemma hash_step_djbx33a hash c : hash_step hash c = djbx33a hash c.
Proof.
  unfold hash_step, djbx33a, to_ulong. rewrite Z.shiftl_mul_pow2 by lia.
  pose proof ulong_split. pose proof LONG_MAX_pos.
  rewrite <- Z.add_assoc, Zplus_mod_idemp_l. f_equal. lia.
Qed.

Lemma hash_switch_fold hash b : (length b < 8)%nat -> hash_switch hash b = fold_left hash_step b hash.
Proof.
  intros Hl. unfold hash_switch. generalize hash_step. intros f.
  do 8 (destruct b as [|? b]; [reflexivity|]). exfalso. simpl in Hl. lia.
Qed.

Lemma hash_block8_fold hash b : length b = 8%nat -> hash_block8 hash b = fold_left hash_step b hash.
Proof.
  intros Hl. unfold hash_block8. generalize hash_step. intros f.
  do 8 (destruct b as [|? b]; [discriminate Hl|]). destruct b; [reflexivity|discriminate Hl].
Qed.

Lemma hash_loop_fold n : forall hash b, (length b < 8 * S n)%nat -> (8 * n <= length b)%nat ->
  zend_inline_hash_loop n hash b = fold_left hash_step b hash.
Proof.
  induction n as [|n IH]; intros hash b Hl Hu; simpl zend_inline_hash_loop.
  - apply hash_switch_fold. lia.
  - rewrite hash_block8_fold by (rewrite length_take; lia).
    rewrite IH by (rewrite length_drop; lia). rewrite <- fold_left_app. by rewrite take_drop.
Qed.
End HashFunction.

(** the hash function, unrolled eight times with a fall-through [switch]
    for the rest, computes Bernstein's hash ([h = 33 h + c] from 5381, modulo
    the width of [ulong]) over exactly the first [nKeyLength] bytes. *)
Theorem zend_inline_hash_func_djbx33a `{Platform} (arKey : list Z) (nKeyLength : Z) :
  nKeyLength <= Z.of_nat (length arKey) ->
  zend_inline_hash_func arKey nKeyLength
  = fold_left djbx33a (take (Z.to_nat nKeyLength) arKey) 5381.
Proof.
  intros Hl. unfold zend_inline_hash_func.
  assert (Hlen : length (take (Z.to_nat nKeyLength) arKey) = Z.to_nat nKeyLength)
    by (rewrite length_take; lia).
  rewrite hash_loop_fold.
  - generalize 5381. generalize (take (Z.to_nat nKeyLength) arKey). clear.
    induction l as [|c l IH]; intros x; [done|]. simpl. rewrite hash_step_djbx33a. apply IH.
  - rewrite Hlen. pose proof (Z.div_mod nKeyLength 8). pose proof (Z.mod_pos_bound nKeyLength 8). lia.
  - rewrite Hlen. pose proof (Z.div_mod nKeyLength 8). pose proof (Z.mod_pos_bound nKeyLength 8). lia.
Qed.

Lemma zend_inline_hash_func_djbx33a_witness :
  zend_inline_hash_func [104; 101; 108; 108; 111; 95; 119; 111; 114; 108; 100; 0] 12
  = fold_left djbx33a (take 12 [104; 101; 108; 108; 111; 95; 119; 111; 114; 108; 100; 0]) 5381.
Proof. by apply (zend_inline_hash_func_djbx33a _ 12). Defined.

(** ** Decimal strings as integer keys *)
Section Numeric.
Context `{Platform}.

(** The value of a string of decimal digits. *)
Definition digits_value (x : Z) (ds : list Z) : Z := fold_left (fun v c => v * 10 + (c - 48)) ds x.

(** [c :: ds] are the digits of a number without leading zeros. *)
Definition plain_digits (c : Z) (ds : list Z) : Prop :=
  Forall (fun c => is_digit c = true) (c :: ds) /\ (c <> 48 \/ ds = []).

(** [s] is how PHP prints the integer [z]. *)
Inductive canonical : list Z -> Z -> Prop :=
| canonical_pos c ds : plain_digits c ds -> canonical (c :: ds) (digits_value (c - 48) ds)
| canonical_neg c ds : plain_digits c ds -> c <> 48 ->
    canonical (45 :: c :: ds) (- digits_value (c - 48) ds).

Lemma digit_range c : is_digit c = true <-> 48 <= c <= 57.
Proof. unfold is_digit. rewrite andb_true_iff, !Z.leb_le. done. Qed.

Lemma digits_value_bounds ds x : 0 <= x -> Forall (fun c => is_digit c = true) ds ->
  x * 10 ^ Z.of_nat (length ds) <= digits_value x ds < (x + 1) * 10 ^ Z.of_nat (length ds).
Proof.
  intros Hx Hd. revert x Hx. induction Hd as [|c ds Hc Hd IH]; intros x Hx; simpl length.
  - simpl. lia.
  - apply digit_range in Hc. rewrite Nat2Z.inj_succ, Z.pow_succ_r by lia.
    simpl. specialize (IH (x * 10 + (c - 48)) ltac:(lia)).
    assert (0 < 10 ^ Z.of_nat (length ds)) by (apply Z.pow_pos_nonneg; lia). nia.
Qed.

Lemma numeric_loop_digits ds x : Forall (fun c => is_digit c = true) ds -> 0 <= x ->
  digits_value x ds < 2 ^ LONG_BITS -> numeric_loop x ds = (digits_value x ds, []).
Proof.
  intros Hd. revert x. induction Hd as [|c ds Hc Hd IH]; intros x Hx Hv; simpl; [done|].
  rewrite Hc. apply digit_range in Hc as Hc'. simpl in Hv.
  pose proof (digits_value_bounds ds (x * 10 + (c - 48)) ltac:(lia) Hd) as Hb.
  assert (0 < 10 ^ Z.of_nat (length ds)) by (apply Z.pow_pos_nonneg; lia).
  assert (x * 10 + (c - 48) < 2 ^ LONG_BITS) by nia.
  rewrite (to_ulong_small (x * 10)) by lia. rewrite to_ulong_small by lia. apply IH; [lia|done].
Qed.

Lemma numeric_loop_rest ds x y : numeric_loop x ds = (y, []) -> Forall (fun c => is_digit c = true) ds.
Proof.
  revert x. induction ds as [|c ds IH]; intros x; simpl; [constructor|].
  destruct (is_digit c) eqn:E; [|done]. intros Hl. constructor; [done|]. by eapply IH.
Qed.

(** The limits on the number of digits exclude every overflow of [idx], and
    exclude no [long]. *)
Definition length_ok (c : Z) (ds : list Z) : Prop :=
  Z.of_nat (length (c :: ds)) <= MAX_LENGTH_OF_LONG - 1
  /\ ~ (SIZEOF_LONG = 4 /\ Z.of_nat (length (c :: ds)) = MAX_LENGTH_OF_LONG - 1 /\ 50 < c).

Lemma length_ok_value c ds : plain_digits c ds ->
  (length_ok c ds -> digits_value (c - 48) ds < 2 ^ LONG_BITS)
  /\ (digits_value (c - 48) ds <= LONG_MAX + 1 -> length_ok c ds).
Proof.
  intros [Hall Hz]. inversion Hall as [|? ? Hc Hd]; subst. apply digit_range in Hc.
  pose proof (digits_value_bounds ds (c - 48) ltac:(lia) Hd) as Hb.
  unfold length_ok, MAX_LENGTH_OF_LONG, LONG_MAX, LONG_BITS, SIZEOF_LONG. simpl length.
  rewrite Nat2Z.inj_succ. set (n := Z.of_nat (length ds)) in *.
  assert (0 <= n) by lia.
  destruct long_kind; split.
  - intros [H1 H2]. change (2 ^ (8 * 4)) with 4294967296.
    destruct (decide (n = 9)) as [E|].
    + rewrite E in Hb. change (10 ^ 9) with 1000000000 in Hb. lia.
    + pose proof (Z.pow_le_mono_r 10 n 8 ltac:(lia) ltac:(lia)). change (10 ^ 8) with 100000000 in *. nia.
  - change (2 ^ (8 * 4 - 1)) with 2147483648. intros Hv. split.
    + destruct (decide (Z.succ n <= 11 - 1)); [done|].
      destruct Hz as [Hz| ->]; [|simpl in *; lia].
      pose proof (Z.pow_le_mono_r 10 10 n ltac:(lia) ltac:(lia)). change (10 ^ 10) with 10000000000 in *. nia.
    + intros (_ & E & Hc'). assert (n = 9) as E' by lia. rewrite E' in Hb.
      change (10 ^ 9) with 1000000000 in Hb. lia.
  - intros [H1 _]. pose proof (Z.pow_le_mono_r 10 n 18 ltac:(lia) ltac:(lia)).
    change (10 ^ 18) with 1000000000000000000 in *. change (2 ^ (8 * 8)) with 18446744073709551616. nia.
  - change (2 ^ (8 * 8 - 1)) with 9223372036854775808. intros Hv. split; [|lia].
    destruct (decide (Z.succ n <= 20 - 1)); [done|].
    destruct Hz as [Hz| ->]; [|simpl in *; lia].
    pose proof (Z.pow_le_mono_r 10 19 n ltac:(lia) ltac:(lia)).
    change (10 ^ 19) with 10000000000000000000 in *. nia.
Qed.

Lemma first_digit_value c ds : plain_digits c ds ->
  0 <= digits_value (c - 48) ds /\ (c <> 48 -> 1 <= digits_value (c - 48) ds).
Proof.
  intros [Hall _]. inversion Hall as [|? ? Hc Hd]; subst. apply digit_range in Hc.
  pose proof (digits_value_bounds ds (c - 48) ltac:(lia) Hd).
  assert (0 < 10 ^ Z.of_nat (length ds)) by (apply Z.pow_pos_nonneg; lia). split; nia.
Qed.

(** The part of the macro after the sign: digits, limits and value. *)
Definition scan_digits (neg : bool) (c : Z) (ds : list Z) : option Z :=
  let dist := Z.of_nat (length (c :: ds)) in
  if is_digit c then
    if ((c =? 48) && (neg || negb (dist =? 1))) || (MAX_LENGTH_OF_LONG - 1 <? dist)
       || ((SIZEOF_LONG =? 4) && (dist =? MAX_LENGTH_OF_LONG - 1) && (50 <? c))
    then None
    else let '(idx, rest) := numeric_loop (c - 48) ds in
         match rest with [] => Some idx | _ => None end
  else None.

Lemma scan_digits_spec neg c ds idx :
  scan_digits neg c ds = Some idx <->
  plain_digits c ds /\ (neg = true -> c <> 48) /\ length_ok c ds /\ idx = digits_value (c - 48) ds.
Proof.
  unfold scan_digits, length_ok. split.
  - destruct (is_digit c) eqn:Hc; [|done].
    match goal with |- context [if ?x then _ else _] => destruct x eqn:E; [done|] end.
    apply orb_false_iff in E as [[E1 E2]%orb_false_iff E3].
    apply Z.ltb_ge in E2.
    destruct (numeric_loop (c - 48) ds) as [y rest] eqn:El. destruct rest; [|done]. intros [= ->].
    pose proof (numeric_loop_rest _ _ _ El) as Hd.
    assert (Hpl : plain_digits c ds).
    { split; [by constructor|]. destruct (Z.eqb_spec c 48); [|by left]. right.
      destruct ds as [|d ds]; [done|]. exfalso. destruct neg; [done|]. apply negb_false_iff in E1.
      apply Z.eqb_eq in E1. simpl length in E1. lia. }
    assert (Hlen : length_ok c ds).
    { split; [done|]. intros (Ea & Eb & Hc50%Z.ltb_lt). by rewrite Hc50, Ea, Eb, !Z.eqb_refl in E3. }
    split; [done|]. split; [|split; [done|]].
    + intros ->. destruct (Z.eqb_spec c 48); [done|done].
    + apply digit_range in Hc. rewrite numeric_loop_digits in El;
        [congruence|done|lia|by apply length_ok_value].
  - intros ([Hall Hz] & Hneg & [Hl Hn] & ->). inversion Hall as [|? ? Hc Hd]; subst. rewrite Hc.
    match goal with |- context [if ?x then _ else _] => assert (x = false) as -> end.
    { apply orb_false_iff. split; [apply orb_false_iff; split|].
      - destruct (Z.eqb_spec c 48); [|done]. simpl. destruct Hz as [| ->]; [done|].
        destruct neg; [by destruct (Hneg eq_refl)|done].
      - apply Z.ltb_ge. done.
      - apply not_true_iff_false. intros [[?%Z.eqb_eq ?%Z.eqb_eq]%andb_true_iff ?%Z.ltb_lt]%andb_true_iff.
        by apply Hn. }
    apply digit_range in Hc. rewrite numeric_loop_digits; [done|done|lia|].
    apply length_ok_value; [by split|by split].
Qed.

Lemma handle_numeric_eq s :
  ZEND_HANDLE_NUMERIC_EX (s ++ [0]) (Z.of_nat (length s) + 1) =
  match s with
  | [] => None
  | c :: ds =>
      if c =? 45 then
        match ds with
        | [] => None
        | c :: ds =>
            idx ← scan_digits true c ds;
            if LONG_MAX <? to_ulong (idx - 1) then None else Some (to_ulong (0 - idx))
        end
      else idx ← scan_digits false c ds; if LONG_MAX <? idx then None else Some idx
  end.
Proof.
  destruct s as [|c0 s]; [done|].
  assert (Hend : ((c0 :: s) ++ [0]) !! Z.to_nat (Z.of_nat (length (c0 :: s)) + 1 - 1) = Some 0).
  { replace (Z.to_nat _) with (length (c0 :: s)) by lia. by apply list_lookup_middle. }
  unfold ZEND_HANDLE_NUMERIC_EX. rewrite Hend. simpl app. simpl default. cbv zeta.
  destruct (c0 =? 45).
  - destruct s as [|c ds]; [done|]. simpl drop. unfold scan_digits.
    destruct (is_digit c); [|done].
    replace (Z.of_nat (length (c0 :: c :: ds)) + 1 - 1 - Z.of_nat 1)
      with (Z.of_nat (length (c :: ds))) by (simpl length; lia).
    assert ((2 <? Z.of_nat (length (c0 :: c :: ds)) + 1) = true) as ->
      by (apply Z.ltb_lt; simpl length; lia).
    replace (Z.to_nat _ - 2)%nat with (length ds) by (simpl length; lia).
    rewrite drop_0, take_app_length. cbn [Z.eqb negb orb]. case_goal; [done|].
    destruct (numeric_loop (c - 48) ds) as [idx [|]]; done.
  - simpl drop. unfold scan_digits. destruct (is_digit c0); [|done].
    replace (Z.of_nat (length (c0 :: s)) + 1 - 1 - Z.of_nat 0)
      with (Z.of_nat (length (c0 :: s))) by lia.
    assert ((2 <? Z.of_nat (length (c0 :: s)) + 1) = negb (Z.of_nat (length (c0 :: s)) =? 1)) as ->.
    { simpl length. destruct (Z.eqb_spec (Z.of_nat (S (length s))) 1) as [E|E]; simpl negb;
        [apply Z.ltb_ge|apply Z.ltb_lt]; lia. }
    replace (Z.to_nat _ - 1)%nat with (length s) by (simpl length; lia).
    rewrite drop_0, take_app_length. cbn [Z.eqb negb orb]. case_goal; [done|].
    destruct (numeric_loop (c0 - 48) s) as [idx [|]]; done.
Qed.
End Numeric.

(** C20: the symbol-table functions treat a string as an integer key exactly
    when it is the decimal spelling PHP itself would print for a [long] (no
    leading zero, no "+", no "-0", in range), and the key is then that number
    as an [ulong]; the digit counting never lets the accumulator wrap, on
    either width of [long]. *)
Theorem ZEND_HANDLE_NUMERIC_canonical `{Platform} (s : list Z) (i : Z) :
  ZEND_HANDLE_NUMERIC_EX (s ++ [0]) (Z.of_nat (length s) + 1) = Some i
  <-> exists z, canonical s z /\ LONG_MIN <= z <= LONG_MAX /\ i = to_ulong z.
Proof.
  rewrite handle_numeric_eq. pose proof ulong_split as Hul. pose proof LONG_MAX_pos as Hlm.
  assert (LONG_MIN = - LONG_MAX - 1) as Hmin by (unfold LONG_MIN, LONG_MAX; lia).
  split.
  - destruct s as [|c ds]; [done|]. destruct (Z.eqb_spec c 45) as [->|Hc].
    + destruct ds as [|c ds]; [done|]. destruct (scan_digits true c ds) as [idx|] eqn:Es; [|done].
      apply scan_digits_spec in Es as (Hp & Hn & Hl & ->). simpl.
      pose proof (first_digit_value c ds Hp) as [Hv0 Hv1]. specialize (Hv1 (Hn eq_refl)).
      pose proof (proj1 (length_ok_value c ds Hp) Hl) as Hv.
      rewrite (to_ulong_small (_ - 1)) by lia. case_goal; [done|]. reflect_bools. intros [= <-].
      eexists. split; [by apply canonical_neg, (Hn eq_refl)|]. split; [lia|done].
    + destruct (scan_digits false c ds) as [idx|] eqn:Es; [|done].
      apply scan_digits_spec in Es as (Hp & _ & Hl & ->). simpl.
      pose proof (first_digit_value c ds Hp) as [Hv0 _].
      case_goal; [done|]. reflect_bools. intros [= <-].
      eexists. split; [by apply canonical_pos|]. split; [lia|]. rewrite to_ulong_small; lia.
  - intros (z & Hcan & Hz & ->). destruct Hcan as [c ds Hp|c ds Hp Hc0].
    + pose proof (first_digit_value c ds Hp) as [Hv0 _].
      assert (c <> 45) as Hc by (destruct Hp as [Hp _]; inversion Hp as [|? ? Hd]; apply digit_range in Hd; lia).
      apply Z.eqb_neq in Hc. rewrite Hc.
      assert (Es : scan_digits false c ds = Some (digits_value (c - 48) ds)).
      { apply scan_digits_spec. split; [done|]. split; [done|]. split; [|done].
        apply length_ok_value; [done|lia]. }
      rewrite Es. simpl. rewrite (proj2 (Z.ltb_ge _ _)) by lia. rewrite to_ulong_small; [done|lia].
    + pose proof (first_digit_value c ds Hp) as [Hv0 Hv1]. specialize (Hv1 Hc0).
      rewrite Z.eqb_refl.
      assert (Es : scan_digits true c ds = Some (digits_value (c - 48) ds)).
      { apply scan_digits_spec. split; [done|]. split; [done|]. split; [|done].
        apply length_ok_value; [done|lia]. }
      rewrite Es. simpl. rewrite (to_ulong_small (_ - 1)) by lia.
      rewrite (proj2 (Z.ltb_ge _ _)) by lia. done.
Qed.
