(* ===== verification/HashCopyThms.v ===== *)
(** * HashCopyThms: copying and merging the tables of Zend/zend_hash.c

    The loops of [zend_hash_copy] and [_zend_hash_merge] store the entries of a
    source table into a target.  A key is compared by its address first, so the
    addresses of the keys of both tables are part of what must be kept
    ([keys]); the maps are those of HashInv. *)
From S2P Require Import Prelude DList HashDefs HashInv HashLemmas HashRefine HashBulk HashBulkRefine HashExample HashThms HashLifeThms HashCursorThms.

(** ** The keys of a table *)
Section Keys.
Context `{Platform} {V : Type} `{!Malloc V}.
Implicit Types (s t : hstate V) (b : Bucket V) (p q : addr).
Context (P : char_addr -> hkey -> Prop).

(** Every bucket has an address of its key and a key that belong together. *)
Definition keys s : Prop := forall q b, heap s !! q = Some b -> P (cp_addr (arKey b)) (bkey b).
Definition same_key b b' : Prop := arKey b' = arKey b /\ bkey b' = bkey b.

Lemma keys_write p f s t : write p f s = Some t -> (forall b, same_key b (f b)) -> keys s -> keys t.
Proof.
  intros (b & Hb & ->)%write_inv Hf Hs q b'. simpl. rewrite lookup_insert. case_decide as E; [|apply Hs].
  intros [= <-]. subst q. destruct (Hf b) as [-> ->]. by eapply Hs.
Qed.
Lemma keys_put_slot i x s t : put_slot i x s = Some t -> keys s -> keys t.
Proof. unfold put_slot. by intros (? & _ & [= <-])%bind_Some. Qed.
Lemma keys_connect_bucket p hd s t : CONNECT_TO_BUCKET_DLLIST p hd s = Some t -> keys s -> keys t.
Proof.
  unfold CONNECT_TO_BUCKET_DLLIST. intros (s1 & E1 & E)%bind_Some Hs. eapply keys_write in E1; [|done|done].
  destruct hd; [by eapply keys_write in E|by injection E as <-].
Qed.
Lemma keys_connect_global p s t : CONNECT_TO_GLOBAL_DLLIST p s = Some t -> keys s -> keys t.
Proof.
  unfold CONNECT_TO_GLOBAL_DLLIST, CONNECT_TO_GLOBAL_DLLIST_EX. intros (s3 & (s1 & E1 & (s2 & E2 & E3)%bind_Some)%bind_Some & [= <-])%bind_Some Hs.
  eapply keys_write in E1; [|done|done]. injection E3 as <-.
  assert (keys s2) by (destruct (pListTail (ht s)); [by eapply keys_write in E2|by injection E2 as <-]). by destruct (pInternalPointer _).
Qed.
Lemma keys_rehash_loop fuel : forall (acc : Z) (o : option addr) s t (acc' : Z), rehash_loop fuel (fun acc b => (acc, b)) acc o s = Some (t, acc') -> keys s -> keys t.
Proof.
  induction fuel as [|fuel IH]; intros acc [p|] s t acc'; simpl; [done|by intros [= <- _]| |by intros [= <- _]].
  intros (b & Hb & (s1 & E1 & (hd & _ & (s2 & E2 & (s3 & E3 & E)%bind_Some)%bind_Some)%bind_Some)%bind_Some)%bind_Some Hs.
  eapply IH; [exact E|]. eapply keys_put_slot; [exact E3|]. eapply keys_connect_bucket; [exact E2|].
  apply write_inv in E1 as (b0 & Hb0 & ->). intros q b'. simpl. rewrite lookup_insert. case_decide as Eq; [|apply Hs]. intros [= <-]. subst q. by eapply Hs.
Qed.
Lemma keys_resize s t : ZEND_HASH_IF_FULL_DO_RESIZE s = Some t -> keys s -> keys t.
Proof.
  unfold ZEND_HASH_IF_FULL_DO_RESIZE, zend_hash_do_resize, zend_hash_rehash. destruct (_ <? _); [|by intros [= <-]]. destruct (0 <? _); [|by intros [= <-]]. destruct (_ =? _); [by intros [= <-]|].
  intros ([u acc] & E & [= <-])%bind_Some Hs. by eapply (keys_rehash_loop _ _ _ _ _ _ E).
Qed.
Lemma keys_update_bucket p v n s t : update_bucket p v n s = Some t -> keys s -> keys t.
Proof.
  unfold update_bucket. intros (b & _ & E)%bind_Some Hs. eapply keys_write in E; [done|done|]. unfold call_dtor. by case_goal.
Qed.
Lemma keys_new p b s : P (cp_addr (arKey b)) (bkey b) -> keys s -> keys (with_heap (<[p := b]> (heap s)) s).
Proof. intros Hb Hs q b'. simpl. rewrite lookup_insert. case_decide; [by intros [= <-]|apply Hs]. Qed.
Lemma keys_check_init s : keys s -> keys (CHECK_INIT s).
Proof. unfold CHECK_INIT. by case_goal. Qed.

Lemma keys_quick_put k len hv v n flag s t r d : _zend_hash_quick_add_or_update k len hv v n flag s = Some (t, r, d) ->
  0 < len -> P (if IS_INTERNED k then cp_addr k else KBucket (pemalloc (heap s)).1) (KStr (take (Z.to_nat len) (cp_bytes k))) -> keys s -> keys t.
Proof.
  unfold _zend_hash_quick_add_or_update. intros ([q|] & _ & E)%bind_Some Hl Hnew Hs%keys_check_init.
  - destruct (has_flag flag HASH_ADD); [by injection E as <- _ _|]. apply bind_Some in E as (u & E & [= <- _ _]). by eapply keys_update_bucket in E.
  - assert (Eh : heap (CHECK_INIT s) = heap s) by (unfold CHECK_INIT; by case_goal). rewrite Eh in E. destruct (pemalloc (heap s)) as [p junk]. cbn [fst] in Hnew.
    apply bind_Some in E as (hd & _ & (s1 & E1 & (s2 & E2 & (s3 & E3 & (s4 & E4 & [= <- _ _])%bind_Some)%bind_Some)%bind_Some)%bind_Some).
    eapply keys_resize; [exact E4|]. eapply (keys_connect_global p s2 s3); [exact E3|]. eapply keys_put_slot; [exact E2|]. eapply keys_connect_bucket; [exact E1|].
    rewrite <- Eh. apply keys_new; [|done]. unfold new_str_bucket, bkey. cbn. rewrite (proj2 (Z.eqb_neq len 0)) by lia. destruct (IS_INTERNED k); [done|]. cbn. by rewrite take_take, Nat.min_id.
Qed.
Lemma keys_index_put hv v n s t r d : zend_hash_index_update hv v n s = Some (t, r, d) -> P KNull (KInt hv) -> keys s -> keys t.
Proof.
  unfold zend_hash_index_update, _zend_hash_index_update_or_next_insert. change (has_flag HASH_UPDATE HASH_NEXT_INSERT) with false. cbv iota zeta.
  intros ([q|] & _ & E)%bind_Some Hnew Hs%keys_check_init.
  - cbn [orb] in E. change (has_flag HASH_UPDATE HASH_ADD) with false in E. cbv iota in E. apply bind_Some in E as (u & E & [= <- _ _]). by eapply keys_update_bucket in E.
  - destruct (pemalloc (heap (CHECK_INIT s))) as [p junk].
    apply bind_Some in E as (hd & _ & (s1 & E1 & (s2 & E2 & (s3 & E3 & (s4 & E4 & [= <- _ _])%bind_Some)%bind_Some)%bind_Some)%bind_Some).
    eapply keys_resize; [exact E4|]. assert (keys s3).
    { eapply (keys_connect_global p s2 s3); [exact E3|]. eapply keys_put_slot; [exact E2|]. eapply keys_connect_bucket; [exact E1|]. by apply keys_new. }
    unfold bump_next_free. cbn. by case_goal.
Qed.
Lemma keys_copy_construct ctor dest s t : copy_construct ctor dest s = Some t -> keys s -> keys t.
Proof. unfold copy_construct. destruct ctor, dest; [intros E Hs; by eapply keys_write in E|by intros [= <-]..]. Qed.
End Keys.

(** ** The maps *)
Section CopySpec.
Context `{Platform} {V : Type}.
Implicit Types (a src : ordmap V) (k : hkey) (v w : V) (ctor : option (V -> V)).

Definition om_rewound a : ordmap V := om_at (om_first a) a.
Definition constructed ctor v : V := match ctor with Some c => c v | None => v end.
(** Storing a copy of an entry; with the values that were there before. *)
Definition om_store ctor (e : hkey * V) (r : ordmap V * list V) : ordmap V * list V :=
  (om_update e.1 (constructed ctor e.2) r.1, r.2 ++ (if om_lookup e.1 r.1 is Some v then [v] else [])).
(** [zend_hash_copy]: a target whose position is not set gets that of the
    source, if the entry there is new to it. *)
Fixpoint om_copy_entries ctor (cursor : option nat) (i : nat) (es : list (hkey * V)) (r : ordmap V * list V) : ordmap V * list V :=
  match es with
  | [] => r
  | e :: es => om_copy_entries ctor cursor (S i) es (om_store ctor e (if decide (cursor = Some i) then om_at None r.1 else r.1, r.2))
  end.
Definition om_copy ctor src a : ordmap V * list V :=
  let cursor := if om_cursor a is None then om_cursor src else None in
  let r := om_copy_entries ctor cursor 0 (om_entries src) (a, []) in
  (if om_cursor r.1 is None then om_rewound r.1 else r.1, r.2).
(** [_zend_hash_merge]: what is there is overwritten or kept. *)
Definition om_merge_entry ctor (overwrite : bool) (r : ordmap V * list V) (e : hkey * V) : ordmap V * list V :=
  if negb overwrite && (if om_lookup e.1 r.1 is Some _ then true else false) then r else om_store ctor e r.
Definition om_merge ctor (overwrite : bool) src a : ordmap V * list V :=
  let r := foldl (om_merge_entry ctor overwrite) (a, []) (om_entries src) in (om_rewound r.1, r.2).

Lemma find_idx_app k (l : list (hkey * V)) v : find_idx k l = None -> find_idx k (l ++ [(k, v)]) = Some (length l).
Proof.
  unfold find_idx. induction l as [|[k0 v0] l IH]; cbn; [by rewrite decide_True|].
  destruct (decide (k0 = k)); [done|]. destruct (list_find _ l) as [[i e]|]; [done|]. intros _. specialize (IH eq_refl). by destruct (list_find _ (l ++ _)) as [[i e]|]; simplify_eq/=.
Qed.
Lemma find_idx_insert k (l : list (hkey * V)) i v : find_idx k l = Some i -> find_idx k (<[i := (k, v)]> l) = Some i.
Proof.
  unfold find_idx. revert i. induction l as [|[k0 v0] l IH]; intros i; cbn; [done|].
  destruct (decide (k0 = k)); [intros [= <-]; cbn; by rewrite decide_True|]. destruct (list_find _ l) as [[j e]|]; [|done]. intros [= <-]. specialize (IH j eq_refl). cbn.
  rewrite decide_False by done. by destruct (list_find _ (<[j:=_]> l)) as [[j' e']|]; simplify_eq/=.
Qed.
Lemma om_replace_update k v w a i : find_idx k (om_entries (om_update k v a)) = Some i -> om_replace i k w (om_update k v a) = om_update k w a.
Proof.
  unfold om_update. destruct (find_idx k (om_entries a)) as [j|] eqn:E; cbn [om_entries om_replace om_append].
  - rewrite (find_idx_insert _ _ _ _ E). intros [= <-]. unfold om_replace. cbn. by rewrite list_insert_insert_eq.
  - rewrite (find_idx_app _ _ _ E). intros [= <-]. unfold om_replace, om_append. cbn. by rewrite insert_app_r_alt, Nat.sub_diag by lia.
Qed.
Lemma length_om_update k v a : (length (om_entries (om_update k v a)) <= S (length (om_entries a)))%nat.
Proof. unfold om_update. destruct (find_idx _ _); cbn; [rewrite length_insert; lia|rewrite length_app; cbn; lia]. Qed.
End CopySpec.

(** ** One entry *)
Section Store.
Context `{Platform} {V : Type} `{!Malloc V}.
Implicit Types (s t source : hstate V) (b : Bucket V) (a : ordmap V) (ctor : option (V -> V)).

(** Two string keys of the source, or of the source and the target, are at one
    address only if they are equal; the buckets of the source are allocated, so
    that none of its keys lies behind a bucket that is allocated later. *)
Record apart source s : Prop := {
  ap_self p q b b' : heap source !! p = Some b -> heap source !! q = Some b' -> nKeyLength b <> 0 -> nKeyLength b' <> 0 -> cp_addr (arKey b) = cp_addr (arKey b') -> bkey b = bkey b';
  ap_other p q b b' : heap s !! p = Some b -> heap source !! q = Some b' -> nKeyLength b' <> 0 -> cp_addr (arKey b) = cp_addr (arKey b') -> bkey b = bkey b';
  ap_null p b : heap source !! p = Some b -> nKeyLength b <> 0 -> cp_addr (arKey b) <> KNull;
  ap_fresh p b m : heap source !! p = Some b -> nKeyLength b <> 0 -> cp_addr (arKey b) <> KBucket (pemalloc m).1
}.
(** A key at an address where the source has a string key is that key. *)
Definition source_key source (ad : char_addr) (k : hkey) : Prop :=
  forall q b, heap source !! q = Some b -> nKeyLength b <> 0 -> ad = cp_addr (arKey b) -> k = bkey b.

Lemma apart_keys source s : apart source s -> keys (source_key source) s.
Proof. intros Hap q b Hb q' b' Hb' Hn E. by apply (ap_other _ _ Hap q q' b b'). Qed.

Lemma copy_construct_refines ctor s a k v p : refines s (om_update k v a) -> entry <$> heap s !! p = Some (k, v) ->
  exists t, copy_construct ctor (Some p) s = Some t /\ refines t (om_update k (constructed ctor v) a) /\ dtor_log t = dtor_log s /\ pDestructor (ht t) = pDestructor (ht s).
Proof.
  intros Href He. destruct ctor as [c|]; [|by exists s]. cbn [copy_construct constructed].
  apply refines_implements in Href as (l & cs & Him). destruct (heap s !! p) as [b|] eqn:Hb; [|done]. injection He as Hk Hv.
  assert (p ∈ l) as (l1 & l2 & ->)%list_elem_of_split by (apply (wf_dom _ _ _ (im_wf _ _ _ _ Him)); by rewrite Hb).
  destruct (write_data_implements s l1 p l2 cs _ (c v) Him) as (b' & t & Hb' & Hw & _ & Et & El & Himt). simplify_eq.
  exists t. split; [|split; [|by rewrite Et]].
  - unfold write in *. rewrite Hb in *. exact Hw.
  - apply refines_implements. exists (l1 ++ p :: l2), cs. erewrite <- om_replace_update; [exact Himt|].
    rewrite <- (im_view _ _ _ _ Him). eapply find_idx_found; [apply Him| |done]. by apply list_lookup_middle.
Qed.

Lemma source_key_arg source s p b : keys (source_key source) s -> heap source !! p = Some b -> bucket_ok b -> nKeyLength b <> 0 ->
  key_arg_ok (arKey b) (nKeyLength b) s /\ bkey b = KStr (take (Z.to_nat (nKeyLength b)) (cp_bytes (arKey b))).
Proof.
  intros Hs Hb Hok Hn. destruct Hok as [_ Hl Hk]. destruct (Hk Hn) as [Hr _].
  assert (Ek : bkey b = KStr (take (Z.to_nat (nKeyLength b)) (cp_bytes (arKey b)))) by (unfold bkey; by rewrite (proj2 (Z.eqb_neq _ _) Hn)).
  split; [|done]. split; [lia|done|]. intros q b' Hb' Ea. rewrite <- Ek. by apply (Hs q b' Hb' p b).
Qed.

(** What storing a value must give, however it is stored. *)
Definition put_in source s a (k : hkey) (v : V) (r : option (hstate V * zend_result * option addr)) : Prop :=
  exists t d, r = Some (t, SUCCESS, d) /\ keys (source_key source) t /\ refines t (om_update k v a) /\ (exists q, d = Some q /\ entry <$> heap t !! q = Some (k, v))
    /\ dtor_log t = dtor_log s ++ released k s a /\ pDestructor (ht t) = pDestructor (ht s).
Lemma put_outcome_in source s a k v (refuse : bool) r : put_outcome refuse k v s a r -> (refuse = true -> find_idx k (om_entries a) = None) ->
  (forall t c d, r = Some (t, c, d) -> keys (source_key source) t) -> put_in source s a k v r.
Proof.
  intros (t & c & d & -> & -> & Ht & Hd & Hlog & Hp) Hre Hr. pose proof (Hr _ _ _ eq_refl) as Hk. unfold om_put in *.
  destruct refuse; [rewrite Hre in * by done|destruct (find_idx k (om_entries a))]; cbn in *; exists t, d; repeat split; try done; by apply Hd.
Qed.
Lemma put_in_constructed source s a k v ctor r : put_in source s a k v r ->
  exists t t' d, r = Some (t, SUCCESS, d) /\ copy_construct ctor d t = Some t' /\ refines t' (om_update k (constructed ctor v) a) /\ keys (source_key source) t'
    /\ dtor_log t' = dtor_log s ++ released k s a /\ pDestructor (ht t') = pDestructor (ht s).
Proof.
  intros (t & d & -> & Hk & Ht & (q & -> & Hq) & Hlog & Hp). destruct (copy_construct_refines ctor t a k v q Ht Hq) as (t' & Ec & Hr & El & Ed).
  exists t, t', (Some q). split; [done|]. split; [done|]. split; [done|]. split; [by eapply keys_copy_construct in Ec|]. by rewrite El, Ed.
Qed.
Section Bucket.
Context (source s0 s : hstate V) (a : ordmap V) (n : Z) (p : addr) (b : Bucket V).
Hypotheses (Hap : apart source s0) (Href : refines s a) (Hs : keys (source_key source) s).
Hypotheses (Hb : heap source !! p = Some b) (Hok : bucket_ok b) (Hlt : Z.of_nat (S (length (om_entries a))) < 2 ^ 32).
Let v := data_of (pData b).
Lemma put_index_in : nKeyLength b = 0 -> put_in source s a (bkey b) v (zend_hash_index_update (h b) v n s).
Proof using Hap Href Hs Hb Hok Hlt.
  intros Hn. assert (Ek : bkey b = KInt (h b)) by (unfold bkey; by rewrite Hn). rewrite Ek. apply (put_outcome_in source s a (KInt (h b)) v false); [|done|].
  - apply (index_put_refines s a (h b) v n HASH_UPDATE Href (bk_h _ Hok) Hlt).
  - intros t c d E. eapply keys_index_put; [exact E| |done]. intros q b' Hb' Hn' Ea. by destruct (ap_null _ _ Hap q b' Hb' Hn').
Qed.
Lemma quick_put_source flag : nKeyLength b <> 0 -> put_outcome (has_flag flag HASH_ADD) (bkey b) v s a (_zend_hash_quick_add_or_update (arKey b) (nKeyLength b) (h b) v n flag s)
  /\ (forall t c d, _zend_hash_quick_add_or_update (arKey b) (nKeyLength b) (h b) v n flag s = Some (t, c, d) -> keys (source_key source) t).
Proof using Hap Href Hs Hb Hok Hlt.
  intros Hn. destruct (source_key_arg source s p b Hs Hb Hok Hn) as [Harg Ek]. destruct (bk_key _ Hok Hn) as [_ Eh]. split.
  - rewrite Ek, Eh. apply (quick_put_refines s a (arKey b) (nKeyLength b) v n flag Href Harg Hlt).
  - intros t c d E. eapply keys_quick_put; [exact E|apply Harg| |done]. rewrite <- Ek. intros q b' Hb' Hn'. destruct (IS_INTERNED (arKey b)).
    + intros Ea. by apply (ap_self _ _ Hap p q).
    + intros Ea. by destruct (ap_fresh _ _ Hap q b' (heap s) Hb' Hn').
Qed.
Lemma put_string_in flag : nKeyLength b <> 0 -> (has_flag flag HASH_ADD = true -> find_idx (bkey b) (om_entries a) = None) ->
  put_in source s a (bkey b) v (_zend_hash_quick_add_or_update (arKey b) (nKeyLength b) (h b) v n flag s).
Proof using Hap Href Hs Hb Hok Hlt. intros Hn Hre. destruct (quick_put_source flag Hn) as [Ho Hk]. by eapply put_outcome_in. Qed.
End Bucket.
End Store.

(** ** The loops *)
Section Loops.
Context `{Platform} {V : Type} `{!Malloc V}.
Implicit Types (s t source : hstate V) (b : Bucket V) (a src : ordmap V) (ctor : option (V -> V)) (l : list addr).

Lemma refines_rewound s a : refines s a -> refines (on_ht (fun x : HashTable => set_pInternalPointer (pListHead x) x) s) (om_rewound a).
Proof.
  intros (l & cs & Him)%refines_implements. apply (refines_at s l cs a (om_first a) (pListHead (ht s)) Him).
  - rewrite (gl_head _ _ (wf_glob _ _ _ (im_wf _ _ _ _ Him))). unfold om_first. pose proof (implements_length _ _ _ _ Him). by destruct (om_entries a), l.
  - unfold om_first. pose proof (implements_length _ _ _ _ Him). destruct (om_entries a); intros i Hi; simplify_eq/=. lia.
Qed.
Lemma refines_unset s a : refines s a -> refines (on_ht (set_pInternalPointer None) s) (om_at None a).
Proof. intros (l & cs & Him)%refines_implements. by apply (refines_at s l cs a None None Him). Qed.

(** What a loop has done: the map and the values replaced. *)
Definition stored source (s0 : hstate V) s (r : ordmap V * list V) : Prop :=
  refines s r.1 /\ keys (source_key source) s /\ dtor_log s = dtor_log s0 ++ all_released s0 r.2 /\ pDestructor (ht s) = pDestructor (ht s0).

Lemma stored_put source (s0 : hstate V) s r ctor b q : stored source s0 s r -> put_in source s r.1 (bkey b) (data_of (pData b)) q ->
  exists t t' d, q = Some (t, SUCCESS, d) /\ copy_construct ctor d t = Some t' /\ stored source s0 t' (om_store ctor (entry b) r).
Proof.
  intros (Hr & Hk & Hlog & Hd) (t & t' & d & E & Ec & Ht & Hk' & El & Ed)%(put_in_constructed _ _ _ _ _ ctor). exists t, t', d. split; [done|]. split; [done|]. split; [done|]. split; [done|].
  rewrite El, Ed, Hlog. split; [|done]. cbn [om_store snd]. unfold released, all_released. rewrite Hd. destruct (pDestructor (ht s0)); rewrite <- ?app_assoc; done.
Qed.
Lemma stored_step source (s0 : hstate V) s r ctor n p b : apart source s0 -> stored source s0 s r -> heap source !! p = Some b -> bucket_ok b ->
  Z.of_nat (S (length (om_entries r.1))) < 2 ^ 32 ->
  exists t t' d, (if nKeyLength b =? 0 then zend_hash_index_update (h b) (data_of (pData b)) n s
       else zend_hash_quick_update (arKey b) (nKeyLength b) (h b) (data_of (pData b)) n s) = Some (t, SUCCESS, d)
    /\ copy_construct ctor d t = Some t' /\ stored source s0 t' (om_store ctor (entry b) r).
Proof.
  intros Hap Hst Hb Hok Hlt. pose proof Hst as (Hr & Hk & _). apply (stored_put _ _ _ _ _ _ _ Hst). destruct (Z.eqb_spec (nKeyLength b) 0) as [Hn|Hn].
  - by eapply put_index_in.
  - eapply (put_string_in source s0 s r.1 n p b Hap Hr Hk Hb Hok Hlt HASH_UPDATE); done.
Qed.
Lemma length_om_store ctor e r : (length (om_entries (om_store ctor e r).1) <= S (length (om_entries r.1)))%nat.
Proof. apply length_om_update. Qed.

(** The next bucket of the source. *)
Lemma source_bucket source ls cs src l1 p l2 : implements source ls cs src -> ls = l1 ++ p :: l2 ->
  exists b, heap source !! p = Some b /\ bucket_ok b /\ pListNext b = head l2 /\ view (heap source) (p :: l2) = entry b :: view (heap source) l2.
Proof.
  intros Him ->. pose proof (im_wf _ _ _ _ Him) as Hwf. destruct (cursor_bucket source _ cs src (length l1) Him ltac:(rewrite length_app; cbn; lia)) as (q & b & Hq & Hb & _ & Hn & _).
  rewrite list_lookup_middle in Hq by done. injection Hq as <-. exists b. split; [done|]. split; [by eapply wf_ok|]. split; [|by apply view_cons].
  rewrite Hn, lookup_app_r by lia. replace (S (length l1) - length l1)%nat with 1%nat by lia. by destruct l2.
Qed.

Lemma copy_loop_spec source ls cs src (s0 : hstate V) ctor n (sett : bool) : implements source ls cs src -> apart source s0 -> forall l2 fuel l1 s r, ls = l1 ++ l2 -> (length l2 <= fuel)%nat ->
  stored source s0 s r -> Z.of_nat (length (om_entries r.1) + length l2) < 2 ^ 32 ->
  exists t, copy_loop fuel source sett ctor n (head l2) s = Some t
    /\ stored source s0 t (om_copy_entries ctor (if sett then om_cursor src else None) (length l1) (view (heap source) l2) r).
Proof.
  intros Him Hap. induction l2 as [|p l2 IH]; intros fuel l1 s r El Hf Hs Hlt; [exists s; by destruct fuel|]. destruct fuel as [|fuel]; [cbn in Hf; lia|].
  destruct (source_bucket source ls cs src l1 p l2 Him El) as (b & Hb & Hok & Hn & Hv). cbn [head copy_loop]. rewrite Hb. cbn [mbind option_bind]. rewrite Hv. cbn [om_copy_entries].
  set (cursor := if sett then om_cursor src else None).
  assert (Ecur : sett && bool_decide (pInternalPointer (ht source) = Some p) = bool_decide (cursor = Some (length l1))).
  { unfold cursor. destruct sett; [|done]. cbn [andb]. apply bool_decide_ext. rewrite (im_cur _ _ _ _ Him). split.
    - destruct (om_cursor src) as [i|]; [|done]. cbn. intros Hi. f_equal. subst ls. eapply NoDup_lookup; [apply (gl_nodup _ _ (wf_glob _ _ _ (im_wf _ _ _ _ Him)))|done|]. by apply list_lookup_middle.
    - intros ->. cbn. subst ls. by apply list_lookup_middle. }
  rewrite Ecur. set (s' := if bool_decide _ then _ else _). set (r' := ((if decide _ then _ else _), r.2)).
  assert (Hs' : stored source s0 s' r').
  { subst s' r'. destruct Hs as (H1 & H2 & H3 & H4). rewrite bool_decide_decide. destruct (decide _); [split; [by apply refines_unset|]|]; done. }
  assert (Elen : om_entries r'.1 = om_entries r.1) by (unfold r'; cbn; by destruct (decide _)).
  destruct (stored_step source s0 s' r' ctor n p b Hap Hs' Hb Hok ltac:(rewrite Elen; cbn [length] in Hlt; lia)) as (t & t' & d & E & Ec & Ht).
  rewrite E. cbn [mbind option_bind]. rewrite Ec. cbn [mbind option_bind]. rewrite Hn.
  destruct (IH fuel (l1 ++ [p]) t' (om_store ctor (entry b) r')) as (u & Hu & Hstored); [by rewrite <- app_assoc|cbn in Hf; lia|done| |].
  - pose proof (length_om_store ctor (entry b) r'). rewrite Elen in *. cbn [length] in Hlt. lia.
  - exists u. split; [done|]. rewrite length_app, Nat.add_1_r in Hstored. exact Hstored.
Qed.

(** One turn of the loop of [_zend_hash_merge]. *)
Lemma merge_step source (s0 : hstate V) s r ctor n p b (overwrite : bool) : apart source s0 -> stored source s0 s r -> heap source !! p = Some b -> bucket_ok b ->
  Z.of_nat (S (length (om_entries r.1))) < 2 ^ 32 ->
  let mode := if overwrite then HASH_UPDATE else HASH_ADD in
  exists t, (if 0 <? nKeyLength b then
               '(s, c, dest) ← _zend_hash_quick_add_or_update (arKey b) (nKeyLength b) (h b) (data_of (pData b)) n mode s;
               if decide (c = SUCCESS) then copy_construct ctor dest s else Some s
             else
               skip ← (if mode =? HASH_UPDATE then Some false else zend_hash_index_exists (h b) s);
               if skip : bool then Some s
               else '(s, c, dest) ← zend_hash_index_update (h b) (data_of (pData b)) n s;
                    if decide (c = SUCCESS) then copy_construct ctor dest s else Some s) = Some t
    /\ stored source s0 t (om_merge_entry ctor overwrite r (entry b)).
Proof.
  intros Hap Hst Hb Hok Hlt mode. pose proof Hst as (Hr & Hk & Hlog & Hd). unfold om_merge_entry. cbn [entry fst].
  assert (Hdo : forall q, put_in source s r.1 (bkey b) (data_of (pData b)) q ->
    exists t, ('(s, c, dest) ← q; if decide (c = SUCCESS) then copy_construct ctor dest s else Some s) = Some t /\ stored source s0 t (om_store ctor (entry b) r)).
  { intros q Hq. destruct (stored_put source s0 s r ctor b q Hst Hq) as (t & t' & d & -> & Ec & Ht). exists t'. by split. }
  pose proof (bk_len _ Hok) as Hlen. pose proof (om_lookup_idx (bkey b) r.1) as Elk. destruct (Z.ltb_spec 0 (nKeyLength b)) as [Hn|Hn].
  - destruct (negb overwrite && _) eqn:Eskip.
    + destruct overwrite; [done|]. cbn [negb andb] in Eskip. subst mode. destruct (quick_put_source source s0 s r.1 n p b Hap Hr Hk Hb Hok Hlt HASH_ADD ltac:(lia)) as [(t & c & d & E & Ec & Ht & _ & El & Ed) Hkt].
      rewrite E. cbn [mbind option_bind]. change (has_flag HASH_ADD HASH_ADD) with true in *. unfold om_put in *. destruct (find_idx (bkey b) (om_entries r.1)); [|by rewrite Elk in Eskip].
      cbn [fst snd] in Ec, Ht. subst c. destruct (decide (FAILURE = SUCCESS)); [done|]. exists t. split; [done|]. split; [done|]. split; [by eapply Hkt|]. by rewrite El, Ed, app_nil_r.
    + apply Hdo. apply (put_string_in source s0 s r.1 n p b Hap Hr Hk Hb Hok Hlt); [lia|]. subst mode. destruct overwrite; [done|]. intros _. cbn [negb andb] in Eskip.
      destruct (find_idx (bkey b) (om_entries r.1)) as [i|] eqn:Ef; [|done]. exfalso. destruct (om_lookup (bkey b) r.1) eqn:E; [done|].
      symmetry in Elk. cbn in Elk. unfold find_idx in Ef. destruct (list_find _ _) as [[j e]|] eqn:El; [|done]. unfold om_lookup in E. by rewrite El in E.
  - assert (E0 : nKeyLength b = 0) by lia. assert (Ek : bkey b = KInt (h b)) by (unfold bkey; by rewrite E0).
    assert (Ex : zend_hash_index_exists (h b) s = Some (if om_lookup (bkey b) r.1 is Some _ then true else false)).
    { rewrite Ek. eapply (find_outcome_exists s), find_index; [done|]. by destruct (bk_h _ Hok). }
    subst mode. destruct overwrite; cbn [negb andb].
    + change (HASH_UPDATE =? HASH_UPDATE) with true. cbv iota. cbn [mbind option_bind]. apply Hdo. by eapply put_index_in.
    + change (HASH_ADD =? HASH_UPDATE) with false. cbv iota. rewrite Ex. cbn [mbind option_bind]. destruct (om_lookup (bkey b) r.1); [by exists s|]. apply Hdo. by eapply put_index_in.
Qed.
Lemma length_om_merge_entry ctor overwrite e r : (length (om_entries (om_merge_entry ctor overwrite r e).1) <= S (length (om_entries r.1)))%nat.
Proof. unfold om_merge_entry. destruct (_ && _); [lia|apply length_om_store]. Qed.

Lemma merge_loop_spec source ls cs src (s0 : hstate V) ctor n (overwrite : bool) : implements source ls cs src -> apart source s0 -> forall l2 fuel l1 s r, ls = l1 ++ l2 -> (length l2 <= fuel)%nat ->
  stored source s0 s r -> Z.of_nat (length (om_entries r.1) + length l2) < 2 ^ 32 ->
  exists t, merge_loop fuel source (if overwrite then HASH_UPDATE else HASH_ADD) ctor n (head l2) s = Some t
    /\ stored source s0 t (foldl (om_merge_entry ctor overwrite) r (view (heap source) l2)).
Proof.
  intros Him Hap. induction l2 as [|p l2 IH]; intros fuel l1 s r El Hf Hs Hlt; [exists s; by destruct fuel|]. destruct fuel as [|fuel]; [cbn in Hf; lia|].
  destruct (source_bucket source ls cs src l1 p l2 Him El) as (b & Hb & Hok & Hn & Hv). cbn [head merge_loop]. rewrite Hb. cbn [mbind option_bind]. rewrite Hv. cbn [foldl].
  destruct (merge_step source s0 s r ctor n p b overwrite Hap Hs Hb Hok ltac:(cbn [length] in Hlt; lia)) as (t & E & Ht). rewrite E. cbn [mbind option_bind]. rewrite Hn.
  apply (IH fuel (l1 ++ [p])); [by rewrite <- app_assoc|cbn in Hf; lia|done|]. pose proof (length_om_merge_entry ctor overwrite (entry b) r). cbn [length] in Hlt. lia.
Qed.
End Loops.

(** ** What is found in a copy *)
Section Contents.
Context `{Platform} {V : Type}.
Implicit Types (a src : ordmap V) (k : hkey) (v : V) (ctor : option (V -> V)) (es : list (hkey * V)) (r : ordmap V * list V).

(** The value of a key in both tables. *)
Definition merged (overwrite : bool) (old new : option V) : option V :=
  match old, new with
  | Some v, Some w => Some (if overwrite then w else v)
  | Some v, None => Some v
  | None, new => new
  end.
Definition value_in k es : option V := snd ∘ snd <$> list_find (fun e => e.1 = k) es.

#[local] Arguments value_in : simpl never.
Lemma value_in_cons k e es : value_in k (e :: es) = if decide (e.1 = k) then Some e.2 else value_in k es.
Proof. unfold value_in. cbn [list_find]. destruct (decide (e.1 = k)); [done|]. by destruct (list_find _ es) as [[i x]|]. Qed.
Lemma value_in_absent k es : k ∉ es.*1 -> value_in k es = None.
Proof. induction es as [|e es IH]; [done|]. rewrite fmap_cons, not_elem_of_cons. intros [Hk Hes]. rewrite value_in_cons, decide_False by done. by apply IH. Qed.
Lemma keys_update k v a : (om_entries (om_update k v a)).*1 = (om_entries a).*1 ++ (if value_in k (om_entries a) is Some _ then [] else [k]).
Proof.
  unfold om_update, value_in, find_idx. destruct (list_find _ (om_entries a)) as [[i e]|] eqn:E; cbn.
  - apply list_find_Some in E as (Hi & <- & _). rewrite app_nil_r. rewrite list_fmap_insert. apply list_insert_id. by rewrite list_lookup_fmap, Hi.
  - by rewrite fmap_app.
Qed.
Lemma update_entries k v a a' : om_entries a = om_entries a' -> om_entries (om_update k v a) = om_entries (om_update k v a').
Proof. intros E. unfold om_update. rewrite E. destruct (find_idx _ _); cbn; by rewrite E. Qed.
Lemma copy_is_merge ctor cursor es : forall i r r', om_entries r.1 = om_entries r'.1 ->
  om_entries (om_copy_entries ctor cursor i es r).1 = om_entries (foldl (om_merge_entry ctor true) r' es).1.
Proof. induction es as [|e es IH]; intros i r r' E; [done|]. cbn. apply IH. cbn. apply update_entries. by destruct (decide _). Qed.

Lemma filter_not_in (l l' : list hkey) k : k ∉ l -> filter (fun x => x ∉ l' ++ [k]) l = filter (fun x => x ∉ l') l.
Proof.
  induction l as [|x l IH]; [done|]. rewrite not_elem_of_cons. intros [Hx Hl]. rewrite !filter_cons, IH by done.
  destruct (decide (x ∉ l')) as [H1|H1]; [rewrite decide_True by set_solver|rewrite decide_False by set_solver]; done.
Qed.
Lemma merge_contents ctor overwrite es : forall r, NoDup es.*1 ->
  let m := (foldl (om_merge_entry ctor overwrite) r es).1 in
  (forall k, om_lookup k m = merged overwrite (om_lookup k r.1) (constructed ctor <$> value_in k es))
  /\ (om_entries m).*1 = (om_entries r.1).*1 ++ filter (fun k => k ∉ (om_entries r.1).*1) es.*1.
Proof.
  induction es as [|e es IH]; intros r Hnd; cbn; [split; [intros k; by destruct (om_lookup k r.1)|by rewrite app_nil_r]|].
  cbn in Hnd. apply NoDup_cons in Hnd as [He Hnd]. destruct (IH (om_merge_entry ctor overwrite r e) Hnd) as [Hl Hk].
  assert (Hin : om_lookup e.1 r.1 = None <-> e.1 ∉ (om_entries r.1).*1).
  { split; [|apply value_in_absent]. unfold om_lookup. destruct (list_find _ _) as [[i x]|] eqn:E; [done|]. intros _ Hx. apply list_find_None in E. rewrite Forall_forall in E.
    apply list_elem_of_fmap in Hx as (x & Ex & Hx). by destruct (E x Hx). }
  assert (Hone : (forall k, om_lookup k (om_merge_entry ctor overwrite r e).1 = merged overwrite (om_lookup k r.1) (if decide (e.1 = k) then Some (constructed ctor e.2) else None))
    /\ (om_entries (om_merge_entry ctor overwrite r e).1).*1 = (om_entries r.1).*1 ++ (if om_lookup e.1 r.1 is Some _ then [] else [e.1])).
  { unfold om_merge_entry. destruct (negb overwrite && _) eqn:Es.
    - destruct overwrite; [done|]. cbn in Es. destruct (om_lookup e.1 r.1) eqn:E; [|done]. split; [|by rewrite app_nil_r]. intros k. destruct (decide (e.1 = k)) as [<-|]; [by rewrite E|]. by destruct (om_lookup k r.1).
    - cbn [om_store fst]. split; [|apply keys_update]. intros k. rewrite om_lookup_update. destruct (decide (k = e.1)) as [->|Hne].
      + rewrite decide_True by done. destruct overwrite, (om_lookup e.1 r.1); done.
      + rewrite decide_False by congruence. by destruct (om_lookup k r.1). }
  destruct Hone as [Hl1 Hk1]. split.
  - intros k. rewrite Hl, Hl1, value_in_cons. destruct (decide (e.1 = k)) as [<-|]; [|by destruct (om_lookup k r.1)].
    rewrite (value_in_absent e.1 es He). cbn. by destruct (om_lookup e.1 r.1), overwrite.
  - rewrite Hk, Hk1, <- app_assoc. f_equal. destruct (om_lookup e.1 r.1) as [w|] eqn:E.
    + rewrite decide_False by (intros Hx; apply Hin in Hx; congruence). rewrite app_nil_r. done.
    + rewrite decide_True by (by apply Hin). cbn [app]. f_equal. by apply filter_not_in.
Qed.

(** The keys of [a] in their order and the new ones of [src] behind them; for
    each its value in the one, or in the other. *)
Definition union_of (overwrite : bool) ctor src a (m : ordmap V) : Prop :=
  (forall k, om_lookup k m = merged overwrite (om_lookup k a) (constructed ctor <$> om_lookup k src))
  /\ (om_entries m).*1 = (om_entries a).*1 ++ filter (fun k => k ∉ (om_entries a).*1) (om_entries src).*1.
Lemma union_of_entries overwrite ctor src a m m' : om_entries m = om_entries m' -> union_of overwrite ctor src a m -> union_of overwrite ctor src a m'.
Proof. unfold union_of, om_lookup. by intros ->. Qed.
Lemma om_merge_union ctor overwrite src a : NoDup (om_entries src).*1 -> union_of overwrite ctor src a (om_merge ctor overwrite src a).1.
Proof. intros Hnd. apply (union_of_entries _ _ _ _ (foldl (om_merge_entry ctor overwrite) (a, []) (om_entries src)).1); [done|]. by apply (merge_contents ctor overwrite (om_entries src) (a, [])). Qed.
Lemma om_copy_union ctor src a : NoDup (om_entries src).*1 -> union_of true ctor src a (om_copy ctor src a).1.
Proof.
  intros Hnd. apply (union_of_entries _ _ _ _ (om_merge ctor true src a).1); [|by apply om_merge_union]. unfold om_copy, om_merge. cbn [fst].
  set (r := om_copy_entries _ _ _ _ _). transitivity (om_entries r.1); [|by destruct (om_cursor r.1)]. symmetry. by apply copy_is_merge.
Qed.
End Contents.

(** ** Copying and merging *)

(** What an operation on a table [s] with the map [a] gives: the map and the
    values that its destructor has been run on. *)
Definition gives `{Platform} {V : Type} (s : hstate V) (r : ordmap V * list V) (out : option (hstate V)) : Prop :=
  exists t, out = Some t /\ refines t r.1 /\ dtor_log t = dtor_log s ++ all_released s r.2.

(** C17: copying and merging store the entries of the source in its order, as
    [zend_hash_update] does, each with the copy constructor run on the stored
    value, and for what is replaced the destructor; merging without
    overwriting leaves alone what the target has.  So afterwards the keys are
    those of the target and behind them the new ones of the source, each found
    with its value in the one or, if overwritten, the other.  A target without
    a position gets that of the source when copied into, and merging sets it
    to the first entry.  Both return, also when the target has to grow. *)
Theorem zend_hash_copy_merge_refines `{Platform} {V : Type} `{!Malloc V} (source s : hstate V) (src a : ordmap V) (ctor : option (V -> V)) (sz : Z) (overwrite : bool)
    (Hsrc : refines source src) (Href : refines s a) (Hap : apart source s)
    (Hlt : Z.of_nat (length (om_entries a) + length (om_entries src)) < 2 ^ 32) :
  gives s (om_copy ctor src a) (zend_hash_copy source ctor sz s)
  /\ union_of true ctor src a (om_copy ctor src a).1
  /\ gives s (om_merge ctor overwrite src a) (_zend_hash_merge source ctor sz overwrite s)
  /\ union_of overwrite ctor src a (om_merge ctor overwrite src a).1.
Proof.
  apply refines_implements in Hsrc as (ls & cs & Him). pose proof (im_wf _ _ _ _ Him) as Hwf. pose proof (implements_length _ _ _ _ Him) as Hlen.
  assert (Hnd : NoDup (om_entries src).*1) by (rewrite <- (im_view _ _ _ _ Him); by eapply view_keys_nodup).
  assert (Hs : stored source s s (a, [])).
  { split; [done|]. split; [by apply apart_keys|split; [unfold all_released; by destruct (pDestructor _); rewrite app_nil_r|done]]. }
  split; [|split; [by apply om_copy_union|split; [|by apply om_merge_union]]].
  - pose proof Href as (l & cs' & Ha)%refines_implements. unfold zend_hash_copy.
    assert (Eset : (if pInternalPointer (ht s) is None then true else false) = (if om_cursor a is None then true else false)).
    { rewrite (im_cur _ _ _ _ Ha). destruct (om_cursor a) as [i|] eqn:E; [|done]. cbn. by destruct (lookup_lt_is_Some_2 l i (im_cur_range _ _ _ _ Ha i E)) as [q ->]. }
    cbv zeta. rewrite Eset, (gl_head _ _ (wf_glob _ _ _ Hwf)).
    destruct (copy_loop_spec source ls cs src s ctor sz (if om_cursor a is None then true else false) Him Hap ls (size (heap source)) [] s (a, [])) as (t & E & Hr & _ & Hlog & _);
      [done|by eapply wf_fuel|done|cbn [fst]; lia|].
    rewrite E. cbn [mbind option_bind]. rewrite (im_view _ _ _ _ Him) in Hr, Hlog. cbn [length] in Hr, Hlog. eexists. split; [done|]. unfold om_copy.
    assert (Ec : (if (if om_cursor a is None then true else false) then om_cursor src else None) = (if om_cursor a is None then om_cursor src else None)) by by destruct (om_cursor a).
    rewrite Ec in Hr, Hlog. set (r := om_copy_entries _ _ _ _ _) in *. cbn [fst snd].
    assert (Ecur : pInternalPointer (ht t) = None <-> om_cursor r.1 = None).
    { pose proof Hr as (lt & cst & Ht)%refines_implements. rewrite (im_cur _ _ _ _ Ht). destruct (om_cursor r.1) as [i|] eqn:Ei; [|done]. cbn. by destruct (lookup_lt_is_Some_2 lt i (im_cur_range _ _ _ _ Ht i Ei)) as [q ->]. }
    destruct (pInternalPointer (ht t)) as [q|], (om_cursor r.1) as [i|]; [by split|naive_solver|naive_solver|]. split; [by apply refines_rewound|done].
  - unfold _zend_hash_merge. cbv zeta. rewrite (gl_head _ _ (wf_glob _ _ _ Hwf)).
    destruct (merge_loop_spec source ls cs src s ctor sz overwrite Him Hap ls (size (heap source)) [] s (a, [])) as (t & E & Hr & _ & Hlog & _); [done|by eapply wf_fuel|done|cbn [fst]; lia|].
    rewrite E. cbn [mbind option_bind]. rewrite (im_view _ _ _ _ Him) in Hr, Hlog. eexists. split; [done|]. split; [by apply refines_rewound|done].
Qed.

(** ** A copy of the example table *)

(** [apart], but for the allocator, decided. *)
Definition apart_check (source s : hstate Z) : bool :=
  let string_keys m := filter (fun x : addr * Bucket Z => nKeyLength x.2 <> 0) (map_to_list m) in
  let same_at (x y : addr * Bucket Z) := bool_decide (cp_addr (arKey x.2) = cp_addr (arKey y.2) -> bkey x.2 = bkey y.2) in
  forallb (fun y => forallb (fun x => same_at x y) (string_keys (heap source) ++ map_to_list (heap s))
    && bool_decide (cp_addr (arKey y.2) <> KNull)
    && match cp_addr (arKey y.2) with KBucket p => bool_decide (is_Some (heap source !! p)) | _ => true end) (string_keys (heap source)).

(** Addresses that are new to the source too. *)
Definition alloc_beside (source : hstate Z) (m : gmap addr (Bucket Z)) : addr * Bucket Z := (fresh (dom m ∪ dom (heap source) : gset addr), junk_bucket).
Lemma alloc_beside_fresh source m : m !! (alloc_beside source m).1 = None.
Proof. apply (not_elem_of_dom (D := gset addr)). intros Hx. apply (is_fresh (dom m ∪ dom (heap source) : gset addr)). set_solver. Qed.
Definition malloc_beside source : Malloc Z := {| pemalloc := alloc_beside source; pemalloc_fresh := alloc_beside_fresh source |}.

Lemma apart_checked source s : apart_check source s = true -> apart (Malloc0 := malloc_beside source) source s.
Proof.
  unfold apart_check. intros Hc. rewrite forallb_forall in Hc.
  assert (Hin : forall q b, heap source !! q = Some b -> nKeyLength b <> 0 -> (q, b) ∈ filter (fun x : addr * Bucket Z => nKeyLength x.2 <> 0) (map_to_list (heap source))).
  { intros q b Hb Hn. apply list_elem_of_filter. split; [done|]. by apply elem_of_map_to_list. }
  assert (Hall : forall q b, heap source !! q = Some b -> nKeyLength b <> 0 ->
    (forall x, x ∈ filter (fun x : addr * Bucket Z => nKeyLength x.2 <> 0) (map_to_list (heap source)) ++ map_to_list (heap s) -> cp_addr (arKey x.2) = cp_addr (arKey b) -> bkey x.2 = bkey b)
    /\ cp_addr (arKey b) <> KNull /\ forall p, cp_addr (arKey b) = KBucket p -> is_Some (heap source !! p)).
  { intros q b Hb Hn. specialize (Hc (q, b) (proj1 (list_elem_of_In _ _) (Hin q b Hb Hn))). apply andb_true_iff in Hc as [[Hc1 Hc2]%andb_true_iff Hc3].
    split; [|split; [by apply bool_decide_eq_true in Hc2|]].
    - intros x Hx. rewrite forallb_forall in Hc1. apply list_elem_of_In in Hx. by specialize (Hc1 x Hx); apply bool_decide_eq_true in Hc1.
    - intros p E. cbn in Hc3. rewrite E in Hc3. by apply bool_decide_eq_true in Hc3. }
  split.
  - intros p q b b' Hb Hb' Hn Hn'. apply (proj1 (Hall q b' Hb' Hn') (p, b)). apply elem_of_app. left. by apply Hin.
  - intros p q b b' Hb Hb' Hn'. apply (proj1 (Hall q b' Hb' Hn') (p, b)). apply elem_of_app. right. by apply elem_of_map_to_list.
  - intros p b Hb Hn. apply (Hall p b Hb Hn).
  - intros p b m Hb Hn E. destruct (proj2 (proj2 (Hall p b Hb Hn)) _ E) as [x Hx]. cbn in Hx. apply (is_fresh (dom m ∪ dom (heap source) : gset addr)).
    apply elem_of_union_r. by apply (elem_of_dom_2 (D := gset addr)) in Hx.
Qed.

(** ["ab" => 1, "c" => 2], the second key interned. *)
Definition u1 : hstate Z := ok_or t0 ((fun r => r.1.1) <$> zend_hash_update (H0 := malloc_beside t3) (str_key 1 [97; 98]) 3 1 8 t0).
Definition u2 : hstate Z := ok_or t0 ((fun r => r.1.1) <$> zend_hash_update (H0 := malloc_beside t3) key_c 2 2 8 u1).
Definition b2 : ordmap Z := OrdMap [(KStr [97; 98; 0], 1); (KStr [99; 0], 2)] (Some 0%nat) 0.
Lemma u2_refines : refines u2 b2.
Proof.
  assert (H1 : refines u1 (OrdMap [(KStr [97; 98; 0], 1)] (Some 0%nat) 0)).
  { destruct (put_refines (Malloc0 := malloc_beside t3) t0 (OrdMap [] None 0) (str_key 1 [97; 98]) 3 1 8 HASH_UPDATE t0_refines) as (t & r & d & Hr & _ & Href & _);
      [by apply (fresh_ptr_arg 1 [97; 98])|done|]. unfold u1, zend_hash_update. rewrite Hr. exact Href. }
  destruct (put_refines (Malloc0 := malloc_beside t3) u1 _ key_c 2 2 8 HASH_UPDATE H1) as (t & r & d & Hr & _ & Href & _); [|done|unfold u2, zend_hash_update; rewrite Hr; exact Href].
  split; [done|done|]. intros p b Hb. assert (Ef : forallb (fun x => bool_decide (cp_addr (arKey x.2) <> cp_addr key_c)) (map_to_list (heap u1)) = true) by by vm_compute.
  rewrite forallb_forall in Ef. specialize (Ef (p, b)). rewrite <- list_elem_of_In, elem_of_map_to_list in Ef. specialize (Ef Hb). intros E. by destruct (bool_decide_eq_true_1 _ Ef).
Qed.
Definition plus100 : option (Z -> Z) := Some (fun v => v + 100).
Lemma zend_hash_copy_merge_refines_witness :
  gives u2 (OrdMap [(KStr [97; 98; 0], 110); (KStr [99; 0], 2); (KInt 7, 120); (KInt 8, 130)] (Some 0%nat) 9, [1]) (zend_hash_copy (H0 := malloc_beside t3) t3 plus100 8 u2)
  /\ gives u2 (OrdMap [(KStr [97; 98; 0], 1); (KStr [99; 0], 2); (KInt 7, 120); (KInt 8, 130)] (Some 0%nat) 9, []) (_zend_hash_merge (H0 := malloc_beside t3) t3 plus100 8 false u2).
Proof.
  destruct (zend_hash_copy_merge_refines (Malloc0 := malloc_beside t3) t3 u2 a3 b2 plus100 8 false t3_refines u2_refines) as (Hc & _ & Hm & _);
    [apply apart_checked; by vm_compute|done|]. split; [exact Hc|exact Hm].
Defined.
