(* ===== verification/HashCompareThms.v ===== *)
(** * HashCompareThms: comparing the tables of Zend/zend_hash.c, and the
    greatest and the least element *)
From S2P Require Import Prelude DList HashDefs HashInv HashLemmas HashRefine HashBulk HashBulkRefine HashExample HashThms HashLifeThms HashCursorThms HashCopyThms.

(** ** Comparing as maps *)
Section CompareSpec.
Context `{Platform} {V : Type}.
Implicit Types (a : ordmap V) (k : hkey) (v w : V) (es : list (hkey * V)) (compar : V -> V -> Z).

Definition first_nonzero (l : list Z) : Z := default 0 (list_find (fun x => x <> 0) l ≫= fun r => Some r.2).
Definition key_bytes k : list Z := match k with KInt _ => [] | KStr s => s end.
(** Indexes by their size; else the shorter key first, an index as the shortest,
    and keys of one length by their bytes. *)
Definition key_order k k' : Z :=
  match k, k' with
  | KInt i, KInt j => if i =? j then 0 else if j <? i then 1 else -1
  | _, _ =>
      let d := to_int (Z.of_nat (length (key_bytes k)) - Z.of_nat (length (key_bytes k'))) in
      if d =? 0 then memcmp (length (key_bytes k)) (key_bytes k) (key_bytes k') else d
  end.
Definition entry_order compar (e e' : hkey * V) : Z := if key_order e.1 e'.1 =? 0 then compar e.2 e'.2 else key_order e.1 e'.1.
Definition value_order compar a (e : hkey * V) : Z := match om_lookup e.1 a with Some w => compar e.2 w | None => 1 end.
(** Fewer entries first; then the first difference, in the order of both or for
    each entry of the first. *)
Definition om_compare compar (ordered : bool) a a' : Z :=
  let d := to_int (Z.of_nat (length (om_entries a)) - Z.of_nat (length (om_entries a'))) in
  if d =? 0 then first_nonzero (if ordered then zip_with (entry_order compar) (om_entries a) (om_entries a') else value_order compar a' <$> om_entries a) else d.

(** The same keys with equal values; in the same order. *)
Definition same_map compar a a' : Prop :=
  forall k, match om_lookup k a, om_lookup k a' with Some v, Some w => compar v w = 0 | None, None => True | _, _ => False end.
Definition same_list compar es es' : Prop := Forall2 (fun e e' => e.1 = e'.1 /\ compar e.2 e'.2 = 0) es es'.

Lemma first_nonzero_cons x l : first_nonzero (x :: l) = if x =? 0 then first_nonzero l else x.
Proof.
  unfold first_nonzero. cbn. destruct (Z.eqb_spec x 0) as [->|E]; [|by rewrite decide_True]. rewrite decide_False by lia. by destruct (list_find _ l) as [[i y]|].
Qed.
Lemma first_nonzero_0 l : first_nonzero l = 0 <-> Forall (fun x => x = 0) l.
Proof. induction l as [|x l IH]; [done|]. rewrite first_nonzero_cons, Forall_cons. destruct (Z.eqb_spec x 0); naive_solver. Qed.
Lemma to_int_0 z : - 2 ^ 32 < z < 2 ^ 32 -> to_int z = 0 <-> z = 0.
Proof. unfold to_int. change (2 ^ 32) with 4294967296. intros Hz. Z.to_euclidean_division_equations. lia. Qed.

Definition key_small k : Prop := Z.of_nat (length (key_bytes k)) < 2 ^ 32 /\ (key_bytes k = [] -> exists i, k = KInt i).
Lemma key_order_0 k k' : key_small k -> key_small k' -> key_order k k' = 0 <-> k = k'.
Proof.
  intros [H1 H2] [H3 H4]. unfold key_order.
  assert (Hd : to_int (Z.of_nat (length (key_bytes k)) - Z.of_nat (length (key_bytes k'))) = 0 <-> length (key_bytes k) = length (key_bytes k')) by (rewrite to_int_0 by lia; lia).
  destruct k as [i|s], k' as [j|s']; cbn [key_bytes] in *.
  - destruct (Z.eqb_spec i j) as [->|E]; [done|]. destruct (j <? i); split; congruence.
  - destruct (Z.eqb_spec (to_int (Z.of_nat (length (@nil Z)) - Z.of_nat (length s'))) 0) as [E|E]; [|split; [done|congruence]].
    apply Hd in E. destruct s'; [|done]. by destruct (H4 eq_refl) as [? ?].
  - destruct (Z.eqb_spec (to_int (Z.of_nat (length s) - Z.of_nat (length (@nil Z)))) 0) as [E|E]; [|split; [done|congruence]].
    apply Hd in E. destruct s; [|done]. by destruct (H2 eq_refl) as [? ?].
  - destruct (Z.eqb_spec (to_int (Z.of_nat (length s) - Z.of_nat (length s'))) 0) as [E|E].
    + apply Hd in E. rewrite memcmp_eq by lia. rewrite E at 2. rewrite !firstn_all. split; congruence.
    + split; [done|]. intros [= ->]. destruct E. by apply Hd.
Qed.

Lemma value_in_some k es v : NoDup es.*1 -> value_in k es = Some v <-> (k, v) ∈ es.
Proof.
  intros Hnd. induction es as [|e es IH]; [cbn; split; [done|intros []%elem_of_nil]|]. rewrite value_in_cons, elem_of_cons. cbn in Hnd. apply NoDup_cons in Hnd as [He Hnd].
  destruct e as [k' v']. cbn [fst snd] in *. destruct (decide (k' = k)) as [->|Hne].
  - split; [intros [= <-]; by left|]. intros [[= <-]|Hin]; [done|]. destruct He. apply list_elem_of_fmap. by exists (k, v).
  - rewrite IH by done. split; [by right|]. by intros [[= -> ->]|].
Qed.
Lemma unordered_0 compar a a' : NoDup (om_entries a).*1 -> NoDup (om_entries a').*1 -> length (om_entries a) = length (om_entries a') ->
  first_nonzero (value_order compar a' <$> om_entries a) = 0 <-> same_map compar a a'.
Proof.
  intros Hnd Hnd' Hlen. rewrite first_nonzero_0, Forall_fmap, Forall_forall. change (om_lookup (V := V)) with (fun k a => value_in (V := V) k (om_entries a)) in *. unfold same_map, value_order.
  split.
  - intros Hall. change (forall k, match value_in k (om_entries a), value_in k (om_entries a') with Some v, Some w => compar v w = 0 | None, None => True | _, _ => False end).
    change (forall e, e ∈ om_entries a -> match value_in e.1 (om_entries a') with Some w => compar e.2 w | None => 1 end = 0) in Hall.
    assert (Hkeys : (om_entries a).*1 ≡ₚ (om_entries a').*1).
    { apply submseteq_length_Permutation; [|by rewrite !length_fmap, Hlen]. apply NoDup_submseteq; [done|]. intros k Hk. apply list_elem_of_fmap in Hk as (e & -> & He). specialize (Hall e He).
      destruct (value_in e.1 (om_entries a')) as [w|] eqn:E; [|done]. apply value_in_some in E; [|done]. apply list_elem_of_fmap. by exists (e.1, w). }
    intros k. destruct (value_in k (om_entries a)) as [v|] eqn:E.
    + apply value_in_some in E; [|done]. specialize (Hall _ E). cbn in Hall. destruct (value_in k (om_entries a')); [done|lia].
    + destruct (value_in k (om_entries a')) as [w|] eqn:E'; [|done]. apply value_in_some in E'; [|done].
      assert (Hk : k ∈ (om_entries a).*1) by (rewrite Hkeys; apply list_elem_of_fmap; by exists (k, w)). apply list_elem_of_fmap in Hk as ([k' v] & Ek & He). cbn in Ek. subst k'.
      apply value_in_some in He; [congruence|done].
  - intros Hsame e He. specialize (Hsame e.1). change (om_lookup e.1 a) with (value_in e.1 (om_entries a)) in Hsame. rewrite (proj2 (value_in_some e.1 (om_entries a) e.2 Hnd)) in Hsame by by destruct e.
    change (match value_in e.1 (om_entries a') with Some w => compar e.2 w | None => 1 end = 0). change (om_lookup e.1 a') with (value_in e.1 (om_entries a')) in Hsame.
    by destruct (value_in e.1 (om_entries a')).
Qed.
Lemma ordered_0 compar es : forall es', length es = length es' -> Forall key_small es.*1 -> Forall key_small es'.*1 ->
  first_nonzero (zip_with (entry_order compar) es es') = 0 <-> same_list compar es es'.
Proof.
  induction es as [|e es IH]; intros [|e' es'] Hl Hk Hk'; try done; [split; [constructor|done]|]. cbn in Hk, Hk'. apply Forall_cons in Hk as [H1 Hk]. apply Forall_cons in Hk' as [H1' Hk'].
  cbn [zip_with]. rewrite first_nonzero_cons. unfold same_list. rewrite Forall2_cons. 
  assert (Ee : entry_order compar e e' = 0 <-> e.1 = e'.1 /\ compar e.2 e'.2 = 0).
  { unfold entry_order. rewrite <- (key_order_0 e.1 e'.1 H1 H1'). destruct (Z.eqb_spec (key_order e.1 e'.1) 0) as [E|E]; split; [done|by intros [_ ?]|done|by intros [? _]]. }
  cbn in Hl. specialize (IH es' ltac:(lia) Hk Hk'). unfold same_list in IH. destruct (Z.eqb_spec (entry_order compar e e') 0) as [E|E]; tauto.
Qed.
End CompareSpec.

(** ** The loop *)
Section CompareLoop.
Context `{Platform} {V : Type} `{!Malloc V}.
Implicit Types (s t : hstate V) (b : Bucket V) (a : ordmap V) (l : list addr) (compar : V -> V -> Z).

Lemma bucket_key_small b : bucket_ok b -> key_small (bkey b).
Proof.
  intros [_ Hl Hk]. unfold bkey, key_small. destruct (Z.eqb_spec (nKeyLength b) 0) as [E|E]; cbn [key_bytes]; [split; [done|by eexists]|].
  destruct (Hk E) as [Hr _]. rewrite length_take. split; [lia|]. intros Hnil%(f_equal length). rewrite length_take in Hnil. cbn in Hnil. lia.
Qed.
Lemma memcmp_take n x y : memcmp n (take n x) (take n y) = memcmp n x y.
Proof. revert x y. induction n as [|n IH]; intros [|c x] [|d y]; cbn; try done. destruct (c <? d); [done|]. destruct (d <? c); [done|]. apply IH. Qed.
Lemma length_bkey b : bucket_ok b -> Z.of_nat (length (key_bytes (bkey b))) = nKeyLength b.
Proof.
  intros [_ Hl Hk]. unfold bkey. destruct (Z.eqb_spec (nKeyLength b) 0) as [E|E]; [by rewrite E|]. cbn. destruct (Hk E). rewrite length_take. lia.
Qed.
Lemma bucket_order b b' : bucket_ok b -> bucket_ok b' ->
  (if (nKeyLength b =? 0) && (nKeyLength b' =? 0) then if h b =? h b' then 0 else if h b' <? h b then 1 else -1
   else let d := to_int (nKeyLength b - nKeyLength b') in
        if d =? 0 then memcmp (Z.to_nat (nKeyLength b)) (cp_bytes (arKey b)) (cp_bytes (arKey b')) else d) = key_order (bkey b) (bkey b').
Proof.
  intros Hok Hok'. pose proof (length_bkey b Hok) as El. pose proof (length_bkey b' Hok') as El'. pose proof (bk_len _ Hok). pose proof (bk_len _ Hok').
  unfold bkey in *. destruct (Z.eqb_spec (nKeyLength b) 0) as [E|E], (Z.eqb_spec (nKeyLength b') 0) as [E'|E']; cbn [andb]; [done|..]; unfold key_order; cbv zeta; rewrite El, El'.
  all: destruct (Z.eqb_spec (to_int (nKeyLength b - nKeyLength b')) 0) as [Ed|Ed]; [|done].
  - rewrite to_int_0 in Ed by lia. lia.
  - rewrite to_int_0 in Ed by lia. lia.
  - rewrite to_int_0 in Ed by lia. cbn [key_bytes] in *. replace (nKeyLength b') with (nKeyLength b) by lia.
    replace (length (take (Z.to_nat (nKeyLength b)) (cp_bytes (arKey b)))) with (Z.to_nat (nKeyLength b)) by lia. by rewrite memcmp_take.
Qed.

Lemma compare_ordered_spec s s' ls ls' cs cs' a a' compar : implements s ls cs a -> implements s' ls' cs' a' -> forall l l' fuel p p', ls = p ++ l -> ls' = p' ++ l' ->
  length l = length l' -> (length l <= fuel)%nat ->
  compare_loop fuel (heap s) s' compar true (head l) (head l') = Some (first_nonzero (zip_with (entry_order compar) (view (heap s) l) (view (heap s') l'))).
Proof.
  intros Him Him'. induction l as [|x l IH]; intros [|x' l'] fuel p p' El El' Hlen Hf; try done; [by destruct fuel|]. destruct fuel as [|fuel]; [cbn in Hf; lia|].
  destruct (source_bucket s ls cs a p x l Him El) as (b & Hb & Hok & Hn & Hv). destruct (source_bucket s' ls' cs' a' p' x' l' Him' El') as (b' & Hb' & Hok' & Hn' & Hv').
  cbn [head compare_loop]. rewrite Hb. cbn [mbind option_bind]. rewrite Hb'. cbn [mbind option_bind]. cbv zeta. rewrite Hv, Hv'. cbn [zip_with]. rewrite first_nonzero_cons.
  pose proof (bucket_order b b' Hok Hok') as Eo. cbv zeta in Eo. rewrite Eo. unfold entry_order at 1 3. cbn [entry fst snd].
  destruct (Z.eqb_spec (key_order (bkey b) (bkey b')) 0) as [E|E]; [|by rewrite (proj2 (Z.eqb_neq _ _) E)].
  destruct (compar _ _ =? 0); [|done]. rewrite Hn, Hn'. cbn in Hlen, Hf. apply (IH l' fuel (p ++ [x]) (p' ++ [x'])); [by rewrite <- app_assoc..|lia|lia].
Qed.

Lemma compare_unordered_spec s s' ls cs a a' compar : implements s ls cs a -> refines s' a' -> keys (source_key s) s' -> forall l fuel p o, ls = p ++ l -> (length l <= fuel)%nat ->
  compare_loop fuel (heap s) s' compar false (head l) o = Some (first_nonzero (value_order compar a' <$> view (heap s) l)).
Proof.
  intros Him Href Hk. induction l as [|x l IH]; intros fuel p o El Hf; [by destruct fuel|]. destruct fuel as [|fuel]; [cbn in Hf; lia|].
  destruct (source_bucket s ls cs a p x l Him El) as (b & Hb & Hok & Hn & Hv).
  cbn [head compare_loop]. rewrite Hb. cbn [mbind option_bind]. rewrite Hv. rewrite fmap_cons, first_nonzero_cons. unfold value_order at 1 3. cbn [entry fst snd].
  assert (Hfind : find_outcome (bkey b) s' a' (if nKeyLength b =? 0 then zend_hash_index_find (h b) s' else zend_hash_quick_find (arKey b) (nKeyLength b) (h b) s')).
  { destruct (Z.eqb_spec (nKeyLength b) 0) as [E|E].
    - unfold bkey. rewrite E. apply find_index; [done|apply (bk_h _ Hok)].
    - destruct (source_key_arg s s' x b Hk Hb Hok E) as [Harg Ek]. destruct (bk_key _ Hok E) as [_ Eh]. rewrite Ek, Eh. by apply find_str. }
  unfold find_outcome in Hfind. destruct (om_lookup (bkey b) a') as [w|].
  - destruct Hfind as (q & -> & Hq). cbn [mbind option_bind]. destruct (heap s' !! q) as [b'|]; [|done]. cbn [mbind option_bind]. injection Hq as _ <-.
    destruct (compar _ _ =? 0); [|done]. rewrite Hn. cbn in Hf. apply (IH fuel (p ++ [x])); [by rewrite <- app_assoc|lia].
  - by rewrite Hfind.
Qed.
End CompareLoop.

(** ** Comparing *)

(** The nesting count is raised and lowered again. *)
Lemma protected_twice `{Platform} {V : Type} (s : hstate V) : 0 <= nApplyCount (ht s) < 3 ->
  HASH_PROTECT_RECURSION s = (on_ht (set_nApplyCount (if bApplyProtection (ht s) then nApplyCount (ht s) + 1 else nApplyCount (ht s))) s, false)
  /\ HASH_UNPROTECT_RECURSION (on_ht (set_nApplyCount (if bApplyProtection (ht s) then nApplyCount (ht s) + 1 else nApplyCount (ht s))) s) = s.
Proof.
  intros Hn. unfold HASH_PROTECT_RECURSION, HASH_UNPROTECT_RECURSION, on_ht. destruct s as [[? ? ? ? ? ? ? ? ? ? n pr] hp lg]. cbn in *.
  destruct pr; cbn; [|done]. rewrite (proj2 (Z.leb_gt 3 n)) by lia. unfold to_uchar. rewrite (Z.mod_small (n + 1)) by lia. split; [done|]. unfold set_nApplyCount. cbn.
  replace ((n + 1 - 1) mod 2 ^ 8) with n by (rewrite Z.mod_small; lia). done.
Qed.

(** C18: comparing two tables gives their order as maps: fewer entries first,
    then the first difference between them; so it is 0 exactly if they have the
    same keys with equal values, and, when the order counts, in the same
    order.  Neither table is changed, and the comparison ends. *)
Theorem zend_hash_compare_correct `{Platform} {V : Type} `{!Malloc V} (s s' : hstate V) (a a' : ordmap V) (compar : V -> V -> Z) (ordered : bool)
    (Href : refines s a) (Href' : refines s' a') (Hn : 0 <= nApplyCount (ht s) < 3) (Hn' : 0 <= nApplyCount (ht s') < 3) (Hk : keys (source_key s) s') :
  zend_hash_compare s s' compar ordered = Some (Done (om_compare compar ordered a a'), s, s')
  /\ (om_compare compar ordered a a' = 0 <->
       if ordered then same_list compar (om_entries a) (om_entries a') else length (om_entries a) = length (om_entries a') /\ same_map compar a a').
Proof.
  destruct (protected_twice s Hn) as [Ep Eu]. destruct (protected_twice s' Hn') as [Ep' Eu'].
  apply refines_implements in Href as (l & cs & Him). apply refines_implements in Href' as (l' & cs' & Him'). pose proof (im_wf _ _ _ _ Him) as Hwf. pose proof (im_wf _ _ _ _ Him') as Hwf'.
  pose proof (implements_length _ _ _ _ Him) as El. pose proof (implements_length _ _ _ _ Him') as El'. pose proof (wf_small _ _ _ Hwf). pose proof (wf_small _ _ _ Hwf').
  assert (Hd : to_int (Z.of_nat (length (om_entries a)) - Z.of_nat (length (om_entries a'))) = 0 <-> length (om_entries a) = length (om_entries a')) by (rewrite to_int_0 by lia; lia).
  assert (Hsmall : forall (u : hstate V) lu cu au, implements u lu cu au -> NoDup (om_entries au).*1 /\ Forall key_small (om_entries au).*1).
  { intros u lu cu au Hu. rewrite <- (im_view _ _ _ _ Hu). split; [eapply view_keys_nodup; apply Hu|]. apply Forall_forall. intros k Hin. apply list_elem_of_fmap in Hin as (e & -> & He).
    apply list_elem_of_omap in He as (q & _ & Hq). destruct (heap u !! q) as [b|] eqn:Hb; [|done]. injection Hq as <-. apply bucket_key_small. eapply wf_ok; [apply Hu|done]. }
  destruct (Hsmall s l cs a Him) as [Hnd Hks]. destruct (Hsmall s' l' cs' a' Him') as [Hnd' Hks']. split.
  - unfold zend_hash_compare. rewrite Ep, Ep'. cbv zeta. set (n := if bApplyProtection (ht s) then _ else _) in *. set (n' := if bApplyProtection (ht s') then _ else _) in *.
    pose proof (implements_apply_count s l cs a n Him) as Hp. pose proof (implements_apply_count s' l' cs' a' n' Him') as Hp'. pose proof (wf_num _ _ _ Hwf) as En. pose proof (wf_num _ _ _ Hwf') as En'.
    cbn [on_ht ht set_nApplyCount nNumOfElements pListHead]. rewrite En, En', <- El, <- El'. unfold om_compare. cbv zeta.
    destruct (Z.eqb_spec (to_int (Z.of_nat (length (om_entries a)) - Z.of_nat (length (om_entries a')))) 0) as [E|E]; [|cbn [mbind option_bind]; by rewrite Eu, Eu'].
    apply Hd in E. rewrite (gl_head _ _ (wf_glob _ _ _ Hwf)), (gl_head _ _ (wf_glob _ _ _ Hwf')).
    assert (Hrun : compare_loop (size (heap s)) (heap s) (on_ht (set_nApplyCount n') s') compar ordered (head l) (if ordered then head l' else None)
      = Some (first_nonzero (if ordered then zip_with (entry_order compar) (om_entries a) (om_entries a') else value_order compar a' <$> om_entries a))).
    { rewrite <- (im_view _ _ _ _ Him). destruct ordered.
      - rewrite <- (im_view _ _ _ _ Hp'). apply (compare_ordered_spec s _ l l' cs cs' a a' compar Him Hp' l l' _ [] []); [done|done|lia|by eapply wf_fuel].
      - apply (compare_unordered_spec s _ l cs a a' compar Him ltac:(apply refines_implements; by exists l', cs') Hk l _ []); [done|by eapply wf_fuel]. }
    change (heap (on_ht (set_nApplyCount n) s)) with (heap s). rewrite Hrun. cbn [mbind option_bind]. by rewrite Eu, Eu'.
  - unfold om_compare. cbv zeta. destruct (Z.eqb_spec (to_int (Z.of_nat (length (om_entries a)) - Z.of_nat (length (om_entries a')))) 0) as [E|E].
    + apply Hd in E. destruct ordered; [by apply ordered_0|]. rewrite (unordered_0 compar a a' Hnd Hnd' E). tauto.
    + split; [done|]. intros Hs. destruct E. apply Hd. destruct ordered; [by apply Forall2_length in Hs|apply Hs].
Qed.

(** The example table and a copy of it, with one key in another place. *)
Definition t4 : hstate Z := ok_or t0 ((fun r => r.1.1) <$> zend_hash_update (H0 := malloc_beside t3) (str_key 1 [97; 98]) 3 10 8
  (ok_or t0 ((fun r => r.1.1) <$> zend_hash_index_update (H0 := malloc_beside t3) 8 30 8 (ok_or t0 ((fun r => r.1.1) <$> zend_hash_index_update (H0 := malloc_beside t3) 7 20 8 t0))))).
Definition a4 : ordmap Z := OrdMap [(KInt 7, 20); (KInt 8, 30); (KStr [97; 98; 0], 10)] (Some 0%nat) 9.
(** The map computed. *)
Ltac outcome_map H a' := match type of H with refines ?x ?m => assert (Em : m = a') by (vm_compute; reflexivity); rewrite Em in H; clear Em end.
Lemma t4_refines : refines t4 a4.
Proof.
  pose proof (index_put_refines (Malloc0 := malloc_beside t3) t0 (OrdMap [] None 0) 7 20 8 HASH_UPDATE t0_refines ltac:(clear; done) ltac:(clear; done)) as (x1 & c1 & d1 & E1 & _ & H1 & _).
  outcome_map H1 (OrdMap [(KInt 7, 20)] (Some 0%nat) 8).
  pose proof (index_put_refines (Malloc0 := malloc_beside t3) x1 _ 8 30 8 HASH_UPDATE H1 ltac:(clear; done) ltac:(clear; done)) as (x2 & c2 & d2 & E2 & _ & H2 & _).
  outcome_map H2 (OrdMap [(KInt 7, 20); (KInt 8, 30)] (Some 0%nat) 9).
  assert (Ex : x2 = ok_or t0 ((fun r => r.1.1) <$> zend_hash_index_update (H0 := malloc_beside t3) 8 30 8 (ok_or t0 ((fun r => r.1.1) <$> zend_hash_index_update (H0 := malloc_beside t3) 7 20 8 t0)))).
  { unfold zend_hash_index_update. rewrite E1. cbn [fmap option_fmap option_map ok_or fst]. rewrite E2. reflexivity. }
  assert (Ha : key_arg_ok (str_key 1 [97; 98]) 3 x2) by (rewrite Ex; apply (fresh_ptr_arg 1 [97; 98]); [by vm_compute|clear; done]).
  pose proof (put_refines (Malloc0 := malloc_beside t3) x2 _ (str_key 1 [97; 98]) 3 10 8 HASH_UPDATE H2 Ha ltac:(clear; done)) as (x3 & c3 & d3 & E3 & _ & H3 & _).
  outcome_map H3 a4. unfold t4. rewrite <- Ex. unfold zend_hash_update. rewrite E3. exact H3.
Qed.
Lemma zend_hash_compare_correct_witness :
  zend_hash_compare t3 t4 Z.sub false = Some (Done 0, t3, t4) /\ same_map Z.sub a3 a4 /\ zend_hash_compare t3 t4 Z.sub true = Some (Done 3, t3, t4).
Proof.
  assert (N3 : 0 <= nApplyCount (ht t3) < 3) by (vm_compute; split; [discriminate|reflexivity]).
  assert (N4 : 0 <= nApplyCount (ht t4) < 3) by (vm_compute; split; [discriminate|reflexivity]).
  assert (Hk : keys (source_key t3) t4) by (apply (apart_keys (Malloc0 := malloc_beside t3)), apart_checked; vm_compute; reflexivity).
  destruct (zend_hash_compare_correct t3 t4 a3 a4 Z.sub false t3_refines t4_refines N3 N4 Hk) as [Hf Hz].
  destruct (zend_hash_compare_correct t3 t4 a3 a4 Z.sub true t3_refines t4_refines N3 N4 Hk) as [Ht _].
  split; [exact Hf|]. split; [by apply Hz|exact Ht].
Defined.

(** ** The greatest and the least element *)
Lemma reversed_lt (flag : bool) x : (0 <? (if flag then - x else x)) = (if flag then x <? 0 else 0 <? x).
Proof. destruct flag; [|done]. destruct (Z.ltb_spec 0 (- x)), (Z.ltb_spec x 0); lia. Qed.
Section MinMax.
Context `{Platform} {V : Type} `{!Malloc V}.
Implicit Types (s : hstate V) (b : Bucket V) (a : ordmap V) (l : list addr).
Context (cmp : hkey * V -> hkey * V -> Z) (compar : Bucket V -> Bucket V -> Z) (flag : bool).
Hypothesis Hcmp : forall b b', compar b b' = cmp (entry b) (entry b').
(** The order in which the least is looked for. *)
Let c e e' := if flag then - cmp e e' else cmp e e'.
Hypothesis Hc : total_preorder c.

(** The first of the entries that are before all others. *)
Definition first_least (es : list (hkey * V)) (e : hkey * V) : Prop :=
  exists i, es !! i = Some e /\ forall j e', es !! j = Some e' -> c e e' <= 0 /\ ((j < i)%nat -> 0 < c e' e).

Lemma first_least_snoc es e e' : first_least es e -> first_least (es ++ [e']) (if 0 <? c e e' then e' else e).
Proof.
  destruct Hc as [Htot Htr]. intros (i & Hi & Hall). pose proof (lookup_lt_Some _ _ _ Hi) as Hlt. destruct (Z.ltb_spec 0 (c e e')) as [Hlte|Hge].
  - exists (length es). split; [by rewrite lookup_app_r, Nat.sub_diag by lia|]. intros j x Hj.
    assert (He' : c e' e <= 0) by (destruct (Htot e e'); [lia|done]).
    destruct (decide (j < length es)%nat) as [Hjl|Hjl].
    + rewrite lookup_app_l in Hj by done. destruct (Hall j x Hj) as [Hex _]. split; [by apply (Htr _ e)|]. intros _. destruct (Z_lt_le_dec 0 (c x e')) as [|Hx]; [done|]. pose proof (Htr _ _ _ Hex Hx). lia.
    + rewrite lookup_app_r in Hj by lia. apply list_lookup_singleton_Some in Hj as [Hj <-]. split; [|lia]. by destruct (Htot e' e').
  - exists i. split; [by rewrite lookup_app_l by done|]. intros j x Hj. destruct (decide (j < length es)%nat) as [Hjl|Hjl].
    + rewrite lookup_app_l in Hj by done. by apply Hall.
    + rewrite lookup_app_r in Hj by lia. apply list_lookup_singleton_Some in Hj as [Hj <-]. split; [done|lia].
Qed.

Lemma minmax_loop_spec s ls cs a : implements s ls cs a -> forall l fuel p r b, ls = p ++ l -> (length l <= fuel)%nat -> heap s !! r = Some b -> first_least (view (heap s) p) (entry b) ->
  exists r' b', minmax_loop fuel (heap s) compar flag (r, b) (head l) = Some r' /\ heap s !! r' = Some b' /\ first_least (om_entries a) (entry b').
Proof.
  intros Him. induction l as [|x l IH]; intros fuel p r b El Hf Hb Hl.
  { rewrite app_nil_r in El. subst p. exists r, b. split; [by destruct fuel|]. split; [done|]. by rewrite <- (im_view _ _ _ _ Him). }
  destruct fuel as [|fuel]; [cbn in Hf; lia|]. destruct (source_bucket s ls cs a p x l Him El) as (b' & Hb' & _ & Hn & Hv). cbn [head minmax_loop]. rewrite Hb'. cbn [mbind option_bind snd]. cbv zeta. rewrite Hcmp, Hn.
  pose proof (first_least_snoc _ _ (entry b') Hl) as Hl'. assert (Ex : view (heap s) (p ++ [x]) = view (heap s) p ++ [entry b']) by (by rewrite view_app, (view_cons _ x b' [] Hb')).
  rewrite <- Ex in Hl'. unfold c in Hl' at 1.
  rewrite reversed_lt in Hl'. destruct (if flag then _ else _); apply (IH fuel (p ++ [x])); try done; try (by rewrite <- app_assoc); cbn in Hf; lia.
Qed.

(** [zend_hash_minmax] gives the first of the greatest elements, or of the least. *)
Theorem zend_hash_minmax_correct s a : refines s a ->
  match om_entries a with
  | [] => zend_hash_minmax compar flag s = Some None
  | _ => exists p b, zend_hash_minmax compar flag s = Some (Some p) /\ heap s !! p = Some b /\ first_least (om_entries a) (entry b)
  end.
Proof.
  intros (l & cs & Him)%refines_implements. pose proof (im_wf _ _ _ _ Him) as Hwf. pose proof (implements_length _ _ _ _ Him) as El. unfold zend_hash_minmax. rewrite (wf_num _ _ _ Hwf), (gl_head _ _ (wf_glob _ _ _ Hwf)).
  destruct l as [|p l]; [by destruct (om_entries a)|]. destruct (source_bucket s _ cs a [] p l Him eq_refl) as (b & Hb & _ & Hn & Hv). cbn [head]. rewrite (proj2 (Z.eqb_neq _ _)) by (cbn; lia).
  cbn [mbind option_bind]. rewrite Hb. cbn [mbind option_bind]. rewrite Hn.
  destruct (minmax_loop_spec s _ cs a Him l (size (heap s)) [p] p b eq_refl) as (r & b' & E & Hr & Hl); [pose proof (wf_fuel _ _ _ Hwf); cbn in *; lia|done| |].
  - rewrite (view_cons _ p b [] Hb). exists O. split; [done|]. intros [|j] e [= <-]. split; [by destruct (proj1 Hc (entry b) (entry b))|lia].
  - rewrite E. cbn [mbind option_bind]. destruct (om_entries a); [done|]. by exists r, b'.
Qed.
End MinMax.
