(* ===== verification/Base64.v ===== *)
(** * Base64: ext/standard/base64.c

    Bytes are numbers 0..255.  The source string is given with the NUL that
    follows it; reading past it, or writing past the [length + 1] bytes of the
    result buffer, is [None].  [Some None] is a NULL result. *)
From S2P Require Import Prelude.

Definition base64_table : list Z :=
  [65; 66; 67; 68; 69; 70; 71; 72; 73; 74; 75; 76; 77;
   78; 79; 80; 81; 82; 83; 84; 85; 86; 87; 88; 89; 90;
   97; 98; 99; 100; 101; 102; 103; 104; 105; 106; 107; 108; 109;
   110; 111; 112; 113; 114; 115; 116; 117; 118; 119; 120; 121; 122;
   48; 49; 50; 51; 52; 53; 54; 55; 56; 57; 43; 47; 0].

Definition base64_pad : Z := 61.

Definition base64_reverse_table : list Z :=
  [-2; -2; -2; -2; -2; -2; -2; -2; -2; -1; -1; -2; -2; -1; -2; -2;
   -2; -2; -2; -2; -2; -2; -2; -2; -2; -2; -2; -2; -2; -2; -2; -2;
   -1; -2; -2; -2; -2; -2; -2; -2; -2; -2; -2; 62; -2; -2; -2; 63;
   52; 53; 54; 55; 56; 57; 58; 59; 60; 61; -2; -2; -2; -2; -2; -2;
   -2;  0;  1;  2;  3;  4;  5;  6;  7;  8;  9; 10; 11; 12; 13; 14;
   15; 16; 17; 18; 19; 20; 21; 22; 23; 24; 25; -2; -2; -2; -2; -2;
   -2; 26; 27; 28; 29; 30; 31; 32; 33; 34; 35; 36; 37; 38; 39; 40;
   41; 42; 43; 44; 45; 46; 47; 48; 49; 50; 51; -2; -2; -2; -2; -2]
  ++ replicate 128 (-2).


Definition enc (i : Z) : Z := nth (Z.to_nat i) base64_table 0.

(** The loop over complete groups and the one or two bytes left. *)
Fixpoint encode_loop (current : list Z) : list Z :=
  match current with
  | c0 :: c1 :: c2 :: current =>
      enc (Z.shiftr c0 2)
      :: enc (Z.shiftl (Z.land c0 0x03) 4 + Z.shiftr c1 4)
      :: enc (Z.shiftl (Z.land c1 0x0f) 2 + Z.shiftr c2 6)
      :: enc (Z.land c2 0x3f)
      :: encode_loop current
  | [c0; c1] =>
      [enc (Z.shiftr c0 2); enc (Z.shiftl (Z.land c0 0x03) 4 + Z.shiftr c1 4);
       enc (Z.shiftl (Z.land c1 0x0f) 2); base64_pad]
  | [c0] =>
      [enc (Z.shiftr c0 2); enc (Z.shiftl (Z.land c0 0x03) 4); base64_pad; base64_pad]
  | [] => []
  end.

(** [None] is NULL: a negative length, or a result longer than an [int]. *)
Definition php_base64_encode (str : list Z) (length : Z) : option (list Z) :=
  if length <? 0 then None
  else if INT_MAX / 4 <? (length + 2) / 3 then None
  else Some (encode_loop (take (Z.to_nat length) str)).

(** [isspace] in the C locale. *)
Definition isspace (c : Z) : bool := ((9 <=? c) && (c <=? 13)) || (c =? 32).

(** [while (isspace( *(++current)));] from a [current] that is at the head of
    [rest]: the bytes from the new [current] on. *)
Fixpoint skip_spaces (rest : list Z) : option (list Z) :=
  match rest with
  | [] => None
  | _ :: rest' =>
      match rest' with
      | [] => None
      | c :: _ => if isspace c then skip_spaces rest' else Some rest'
      end
  end.

(** How the loop ends: NULL is returned, or it is left with the last
    character read, [i], the finished bytes and [result[j]]. *)
Inductive decoded := DNull | DEnd (ch i : Z) (out : list Z) (acc : Z).

(** [cap] is the size of the buffer; [result[j]] may be written when
    [j < cap].  [out] are the bytes [result[0..j-1]], [acc] is [result[j]]. *)
Fixpoint decode_loop (fuel : nat) (strict : bool) (cap : Z) (current : list Z) (length i : Z)
    (out : list Z) (acc : Z) : option decoded :=
  match fuel, current with
  | O, _ | _, [] => None
  | S fuel, ch :: current =>
      if (ch =? 0) || negb (0 <? length) then Some (DEnd ch i out acc)
      else
        let length := length - 1 in
        if ch =? base64_pad then
          match current with
          | [] => None
          | next :: _ =>
              if negb (next =? base64_pad) && ((i mod 4 =? 1) || (strict && (0 <? length))) then
                if i mod 4 =? 1 then Some DNull
                else
                  current ← skip_spaces current;
                  match current with
                  | 0 :: _ => decode_loop fuel strict cap current length i out acc
                  | _ => Some DNull
                  end
              else decode_loop fuel strict cap current length i out acc
          end
        else
          let ch := nth (Z.to_nat ch) base64_reverse_table (-2) in
          if (negb strict && (ch <? 0)) || (ch =? -1) then
            decode_loop fuel strict cap current length i out acc
          else if ch =? -2 then Some DNull
          else
            let j := Z.of_nat (List.length out) in
            match i mod 4 with
            | 0 =>
                if j <? cap then
                  decode_loop fuel strict cap current length (i + 1) out (to_uchar (Z.shiftl ch 2))
                else None
            | 1 =>
                if j + 1 <? cap then
                  decode_loop fuel strict cap current length (i + 1)
                    (out ++ [Z.lor acc (Z.shiftr ch 4)]) (to_uchar (Z.shiftl (Z.land ch 0x0f) 4))
                else None
            | 2 =>
                if j + 1 <? cap then
                  decode_loop fuel strict cap current length (i + 1)
                    (out ++ [Z.lor acc (Z.shiftr ch 2)]) (to_uchar (Z.shiftl (Z.land ch 0x03) 6))
                else None
            | _ =>
                if j <? cap then
                  decode_loop fuel strict cap current length (i + 1) (out ++ [Z.lor acc ch]) acc
                else None
            end
  end.

(** The result is [result[0..j-1]]; [result[k] = 0] and [result[j] = 0] are
    behind it. *)
Definition php_base64_decode_ex (str : list Z) (length : Z) (strict : bool) : option (option (list Z)) :=
  r ← decode_loop (S (List.length str)) strict (length + 1) str length 0 [] 0;
  match r with
  | DNull => Some None
  | DEnd ch i out acc =>
      let j := Z.of_nat (List.length out) in
      if (ch =? base64_pad) && (i mod 4 =? 1) then Some None
      else
        let k := if (ch =? base64_pad) && (i mod 4 =? 2) then j + 1 else j in
        if (k <? length + 1) && (j <? length + 1) then Some (Some out) else None
  end.
Definition php_base64_decode (str : list Z) (length : Z) : option (option (list Z)) :=
  php_base64_decode_ex str length false.

Example base64_hello :
  php_base64_encode [104; 101; 108; 108; 111] 5 = Some [97; 71; 86; 115; 98; 71; 56; 61]
  /\ php_base64_decode_ex [97; 71; 86; 115; 98; 71; 56; 61; 0] 8 true
     = Some (Some [104; 101; 108; 108; 111]).
Proof. vm_compute. done. Qed.
