(* ===== verification/Base64Thms.v ===== *)
(** * Base64Thms: ext/standard/base64.c encodes and decodes correctly *)
From S2P Require Import Prelude Base64.

(** ** Facts decided by going through all bytes *)
Definition bytes : list Z := Z.of_nat <$> seq 0 256.

Lemma elem_bytes c : 0 <= c < 256 -> c ∈ bytes.
Proof.
  intros Hc. apply list_elem_of_fmap. exists (Z.to_nat c). split; [lia|].
  apply elem_of_seq. lia.
Qed.

Lemma all_bytes (f : Z -> bool) : forallb f bytes = true -> forall c, 0 <= c < 256 -> f c = true.
Proof. rewrite forallb_forall. intros Hf c Hc. by apply Hf, list_elem_of_In, elem_bytes. Qed.

Lemma all_pairs (f : Z -> Z -> bool) :
  forallb (fun a => forallb (f a) bytes) bytes = true ->
  forall a b, 0 <= a < 256 -> 0 <= b < 256 -> f a b = true.
Proof. intros Hf a b Ha Hb. exact (all_bytes (f a) (all_bytes _ Hf a Ha) b Hb). Qed.

(** The sextets of a group of three bytes. *)
Definition s0 (c0 : Z) : Z := Z.shiftr c0 2.
Definition s1 (c0 c1 : Z) : Z := Z.shiftl (Z.land c0 0x03) 4 + Z.shiftr c1 4.
Definition s2 (c1 c2 : Z) : Z := Z.shiftl (Z.land c1 0x0f) 2 + Z.shiftr c2 6.
Definition s3 (c2 : Z) : Z := Z.land c2 0x3f.

Definition pair_facts (a b : Z) : bool :=
  (0 <=? s1 a b) && (s1 a b <? 64) && (0 <=? s2 a b) && (s2 a b <? 64)
  && (Z.lor (to_uchar (Z.shiftl (s0 a) 2)) (Z.shiftr (s1 a b) 4) =? a)
  && (Z.land (s1 a b) 0x0f =? Z.shiftr b 4)
  && (Z.lor (to_uchar (Z.shiftl (Z.shiftr a 4) 4)) (Z.shiftr (s2 a b) 2) =? a)
  && (Z.land (s2 a b) 0x03 =? Z.shiftr b 6).
Definition byte_facts (c : Z) : bool :=
  (0 <=? s0 c) && (s0 c <? 64) && (0 <=? s3 c) && (s3 c <? 64)
  && (Z.lor (to_uchar (Z.shiftl (Z.shiftr c 6) 6)) (s3 c) =? c).
Definition sextet_facts (x : Z) : bool :=
  if x <? 64 then
    (nth (Z.to_nat (enc x)) base64_reverse_table (-2) =? x)
    && negb (enc x =? 0) && negb (enc x =? base64_pad)
  else true.

Lemma pair_facts_all a b : 0 <= a < 256 -> 0 <= b < 256 -> pair_facts a b = true.
Proof. apply all_pairs. vm_compute. reflexivity. Qed.
Lemma byte_facts_all c : 0 <= c < 256 -> byte_facts c = true.
Proof. apply all_bytes. vm_compute. reflexivity. Qed.
Lemma sextet_facts_all x : 0 <= x < 64 ->
  nth (Z.to_nat (enc x)) base64_reverse_table (-2) = x /\ enc x <> 0 /\ enc x <> base64_pad.
Proof.
  intros Hx. assert (Hf : sextet_facts x = true).
  { assert (Hall : forallb sextet_facts bytes = true) by (vm_compute; reflexivity).
    apply (all_bytes _ Hall). lia. }
  unfold sextet_facts in Hf. rewrite (proj2 (Z.ltb_lt x 64)) in Hf by lia.
  apply andb_true_iff in Hf as [[H1%Z.eqb_eq H2%negb_true_iff%Z.eqb_neq]%andb_true_iff
    H3%negb_true_iff%Z.eqb_neq]. done.
Qed.

(** ** One character *)
Lemma decode_char fuel strict cap x rest length i out acc :
  0 <= x < 64 -> 0 < length ->
  decode_loop (S fuel) strict cap (enc x :: rest) length i out acc =
  let j := Z.of_nat (List.length out) in
  match i mod 4 with
  | 0 => if j <? cap then
           decode_loop fuel strict cap rest (length - 1) (i + 1) out (to_uchar (Z.shiftl x 2))
         else None
  | 1 => if j + 1 <? cap then
           decode_loop fuel strict cap rest (length - 1) (i + 1)
             (out ++ [Z.lor acc (Z.shiftr x 4)]) (to_uchar (Z.shiftl (Z.land x 0x0f) 4))
         else None
  | 2 => if j + 1 <? cap then
           decode_loop fuel strict cap rest (length - 1) (i + 1)
             (out ++ [Z.lor acc (Z.shiftr x 2)]) (to_uchar (Z.shiftl (Z.land x 0x03) 6))
         else None
  | _ => if j <? cap then
           decode_loop fuel strict cap rest (length - 1) (i + 1) (out ++ [Z.lor acc x]) acc
         else None
  end.
Proof.
  intros Hx Hl. destruct (sextet_facts_all x Hx) as (Hr & H0 & Hp).
  cbn [decode_loop]. rewrite (proj2 (Z.eqb_neq _ _) H0), (proj2 (Z.eqb_neq _ _) Hp).
  rewrite (proj2 (Z.ltb_lt 0 length)) by done. cbn [orb negb]. cbv zeta. rewrite Hr.
  rewrite (proj2 (Z.ltb_ge x 0)) by lia.
  rewrite (proj2 (Z.eqb_neq x (-1))), (proj2 (Z.eqb_neq x (-2))) by lia.
  rewrite andb_false_r. done.
Qed.

Lemma mod4_add i r : i mod 4 = 0 -> 0 <= r < 4 -> (i + r) mod 4 = r.
Proof. intros Hi Hr. rewrite <- Zplus_mod_idemp_l, Hi. simpl. by apply Z.mod_small. Qed.

(** The four sextets [x0 .. x3] of a group give three bytes. *)
Lemma decode_two fuel strict cap x0 x1 rest length i out acc :
  0 <= x0 < 64 -> 0 <= x1 < 64 -> 2 <= length -> i mod 4 = 0 ->
  Z.of_nat (List.length out) + 1 < cap ->
  decode_loop (S (S fuel)) strict cap (enc x0 :: enc x1 :: rest) length i out acc =
  decode_loop fuel strict cap rest (length - 2) (i + 2)
    (out ++ [Z.lor (to_uchar (Z.shiftl x0 2)) (Z.shiftr x1 4)]) (to_uchar (Z.shiftl (Z.land x1 0x0f) 4)).
Proof.
  intros H0 H1 Hl Hi Hc. rewrite decode_char by lia. cbv zeta. rewrite Hi.
  rewrite (proj2 (Z.ltb_lt _ cap)) by lia. rewrite decode_char by lia. cbv zeta.
  rewrite (mod4_add i 1) by lia. rewrite (proj2 (Z.ltb_lt _ cap)) by lia.
  replace (length - 1 - 1) with (length - 2) by lia. by replace (i + 1 + 1) with (i + 2) by lia.
Qed.

Lemma decode_third fuel strict cap x rest length i out acc :
  0 <= x < 64 -> 0 < length -> i mod 4 = 0 -> Z.of_nat (List.length out) + 1 < cap ->
  decode_loop (S fuel) strict cap (enc x :: rest) length (i + 2) out acc =
  decode_loop fuel strict cap rest (length - 1) (i + 3)
    (out ++ [Z.lor acc (Z.shiftr x 2)]) (to_uchar (Z.shiftl (Z.land x 0x03) 6)).
Proof.
  intros Hx Hl Hi Hc. rewrite decode_char by lia. cbv zeta. rewrite (mod4_add i 2) by lia.
  rewrite (proj2 (Z.ltb_lt _ cap)) by lia. by replace (i + 2 + 1) with (i + 3) by lia.
Qed.

Lemma decode_fourth fuel strict cap x rest length i out acc :
  0 <= x < 64 -> 0 < length -> i mod 4 = 0 -> Z.of_nat (List.length out) < cap ->
  decode_loop (S fuel) strict cap (enc x :: rest) length (i + 3) out acc =
  decode_loop fuel strict cap rest (length - 1) (i + 4) (out ++ [Z.lor acc x]) acc.
Proof.
  intros Hx Hl Hi Hc. rewrite decode_char by lia. cbv zeta. rewrite (mod4_add i 3) by lia.
  rewrite (proj2 (Z.ltb_lt _ cap)) by lia. by replace (i + 3 + 1) with (i + 4) by lia.
Qed.

(** Trailing padding and the terminating NUL. *)
Lemma decode_end fuel strict cap length i out acc :
  decode_loop (S fuel) strict cap [0] length i out acc = Some (DEnd 0 i out acc).
Proof. done. Qed.

Lemma decode_pad fuel strict cap i r out acc : i mod 4 = 0 -> 2 <= r < 4 ->
  decode_loop (S (S fuel)) strict cap [base64_pad; 0] 1 (i + r) out acc = Some (DEnd 0 (i + r) out acc).
Proof.
  intros Hi Hr. cbn [decode_loop]. rewrite (mod4_add i r) by lia.
  assert ((r =? 1) = false) as -> by (apply Z.eqb_neq; lia). simpl. by rewrite andb_false_r.
Qed.

Lemma decode_pads fuel strict cap i out acc : i mod 4 = 0 ->
  decode_loop (S (S (S fuel))) strict cap [base64_pad; base64_pad; 0] 2 (i + 2) out acc
  = Some (DEnd 0 (i + 2) out acc).
Proof. intros Hi. exact (decode_pad fuel strict cap i 2 out acc Hi ltac:(lia)). Qed.

(** ** Round trip *)
Ltac byte_solve :=
  repeat match goal with
  | H : pair_facts _ _ = true |- _ => unfold pair_facts in H
  | H : byte_facts _ = true |- _ => unfold byte_facts in H
  | H : (_ && _) = true |- _ => apply andb_true_iff in H as [? ?]
  | H : (_ <=? _) = true |- _ => apply Z.leb_le in H
  | H : (_ <? _) = true |- _ => apply Z.ltb_lt in H
  | H : (_ =? _) = true |- _ => apply Z.eqb_eq in H
  end.

Lemma three_ind (P : list Z -> Prop) :
  P [] -> (forall a, P [a]) -> (forall a b, P [a; b]) ->
  (forall a b c l, P l -> P (a :: b :: c :: l)) -> forall l, P l.
Proof.
  intros H0 H1 H2 H3. fix IH 1. intros [|a [|b [|c l]]]; [exact H0|apply H1|apply H2|apply H3, IH].
Qed.

Definition is_byte (c : Z) : Prop := 0 <= c < 256.

(** ** The encoding of RFC 4648

    Table 1 of its section 4: [A]-[Z], [a]-[z], [0]-[9], [+] and [/]. *)
Definition rfc4648_char (x : Z) : Z :=
  if x <? 26 then 65 + x
  else if x <? 52 then 97 + (x - 26)
  else if x <? 62 then 48 + (x - 52)
  else if x =? 62 then 43 else 47.
(** The [k]th group of 6 bits, from the right, of the number [n]. *)
Definition sextet (n k : Z) : Z := rfc4648_char (n / 64 ^ k mod 64).
(** Three bytes are a number of 24 bits and four characters; of the last group
    the missing bits are 0, and the missing characters are padding. *)
Fixpoint rfc4648_encode (s : list Z) : list Z :=
  match s with
  | a :: b :: c :: s =>
      let n := a * 65536 + b * 256 + c in
      sextet n 3 :: sextet n 2 :: sextet n 1 :: sextet n 0 :: rfc4648_encode s
  | [a; b] => let n := a * 65536 + b * 256 in [sextet n 3; sextet n 2; sextet n 1; 61]
  | [a] => let n := a * 65536 in [sextet n 3; sextet n 2; 61; 61]
  | [] => []
  end.

Lemma enc_char x : 0 <= x < 64 -> enc x = rfc4648_char x.
Proof.
  intros Hx. assert (Hf : (if x <? 64 then enc x =? rfc4648_char x else true) = true).
  { apply (all_bytes (fun x => if x <? 64 then enc x =? rfc4648_char x else true)); [vm_compute; reflexivity|lia]. }
  rewrite (proj2 (Z.ltb_lt x 64)) in Hf by lia. by apply Z.eqb_eq in Hf.
Qed.
(** What the shifts and masks of the source compute. *)
Lemma sextets_arith a b c : is_byte a -> is_byte b -> is_byte c -> let n := a * 65536 + b * 256 + c in
  s0 a = n / 64 ^ 3 mod 64 /\ s1 a b = n / 64 ^ 2 mod 64 /\ s2 b c = n / 64 ^ 1 mod 64 /\ s3 c = n / 64 ^ 0 mod 64.
Proof.
  intros Ha Hb Hc n. unfold is_byte, s0, s1, s2, s3 in *.
  change (64 ^ 3) with 262144. change (64 ^ 2) with 4096. change (64 ^ 1) with 64. change (64 ^ 0) with 1.
  rewrite !Z.shiftr_div_pow2, !Z.shiftl_mul_pow2 by lia.
  change 0x03 with (Z.ones 2). change 0x0f with (Z.ones 4). change 0x3f with (Z.ones 6). rewrite !Z.land_ones by lia.
  change (2 ^ 2) with 4. change (2 ^ 4) with 16. change (2 ^ 6) with 64. unfold n.
  pose proof (Z.div_mod a 4 ltac:(lia)) as Da. pose proof (Z.mod_pos_bound a 4 ltac:(lia)) as Ra.
  pose proof (Z.div_mod b 16 ltac:(lia)) as Db. pose proof (Z.mod_pos_bound b 16 ltac:(lia)) as Rb.
  pose proof (Z.div_mod c 64 ltac:(lia)) as Dc. pose proof (Z.mod_pos_bound c 64 ltac:(lia)) as Rc.
  set (a1 := a / 4) in *. set (a0 := a mod 4) in *. set (b1 := b / 16) in *. set (b0 := b mod 16) in *.
  set (c1 := c / 64) in *. set (c0 := c mod 64) in *. clearbody a1 a0 b1 b0 c1 c0.
  assert (Hd : forall q m r, 0 <= r < m -> 0 < m -> 0 <= q -> (m * q + r) / m = q) by (intros q m r Hr Hm _; symmetry; by apply (Z.div_unique_pos _ _ q r)).
  assert (Hm : forall q r, 0 <= r < 64 -> (64 * q + r) mod 64 = r) by (intros q r Hr; symmetry; by apply (Z.mod_unique_pos _ _ q r)).
  split; [|split; [|split]].
  - replace (a * 65536 + b * 256 + c) with (262144 * (64 * 0 + a1) + (a0 * 65536 + b * 256 + c)) by lia. rewrite Hd, Hm by lia. done.
  - replace (a * 65536 + b * 256 + c) with (4096 * (64 * a1 + (a0 * 16 + b1)) + (b0 * 256 + c)) by lia. rewrite Hd, Hm by lia. done.
  - replace (a * 65536 + b * 256 + c) with (64 * (64 * (a * 16 + b1) + (b0 * 4 + c1)) + c0) by lia. rewrite Hd, Hm by lia. done.
  - replace (a * 65536 + b * 256 + c) with (1 * (64 * (a * 1024 + b * 4 + c1) + c0) + 0) by lia. rewrite Hd, Hm by lia. done.
Qed.
Lemma sextets_encode a b c : is_byte a -> is_byte b -> is_byte c -> let n := a * 65536 + b * 256 + c in
  enc (s0 a) = sextet n 3 /\ enc (s1 a b) = sextet n 2 /\ enc (s2 b c) = sextet n 1 /\ enc (s3 c) = sextet n 0.
Proof.
  intros Ha Hb Hc n. destruct (sextets_arith a b c Ha Hb Hc) as (-> & -> & -> & ->). unfold sextet. fold n.
  repeat split; apply enc_char, Z.mod_pos_bound; lia.
Qed.
(** A missing byte counts as 0. *)
Lemma s1_last a : s1 a 0 = Z.shiftl (Z.land a 0x03) 4.
Proof. unfold s1. rewrite Z.shiftr_0_l. apply Z.add_0_r. Qed.
Lemma s2_last b : s2 b 0 = Z.shiftl (Z.land b 0x0f) 2.
Proof. unfold s2. rewrite Z.shiftr_0_l. apply Z.add_0_r. Qed.
Lemma encode_loop_rfc4648 s : Forall is_byte s -> encode_loop s = rfc4648_encode s.
Proof.
  assert (H0 : is_byte 0) by (unfold is_byte; lia).
  induction s as [|a|a b|a b c s IH] using three_ind; intros Hf; [done|..];
    apply Forall_cons in Hf as [Ha Hf]; [|apply Forall_cons in Hf as [Hb _]|apply Forall_cons in Hf as [Hb [Hc Hs]%Forall_cons]].
  - destruct (sextets_encode a 0 0 Ha H0 H0) as (E0 & E1 & _). cbn [encode_loop rfc4648_encode]. cbv zeta.
    rewrite <- s1_last. change (Z.shiftr a 2) with (s0 a). rewrite E0, E1.
    replace (a * 65536 + 0 * 256 + 0) with (a * 65536) by lia. done.
  - destruct (sextets_encode a b 0 Ha Hb H0) as (E0 & E1 & E2 & _). cbn [encode_loop rfc4648_encode]. cbv zeta.
    rewrite <- s2_last. change (Z.shiftr a 2) with (s0 a). fold (s1 a b). rewrite E0, E1, E2.
    replace (a * 65536 + b * 256 + 0) with (a * 65536 + b * 256) by lia. done.
  - destruct (sextets_encode a b c Ha Hb Hc) as (E0 & E1 & E2 & E3). cbn [encode_loop rfc4648_encode]. cbv zeta.
    change (Z.shiftr a 2) with (s0 a). fold (s1 a b) (s2 b c) (s3 c). by rewrite E0, E1, E2, E3, (IH Hs).
Qed.


Lemma decode_encode s : forall fuel strict cap i out acc,
  Forall is_byte s -> i mod 4 = 0 -> Z.of_nat (List.length out) <= i ->
  cap = i + Z.of_nat (List.length (encode_loop s)) + 1 ->
  (List.length (encode_loop s) < fuel)%nat ->
  exists i' acc', decode_loop fuel strict cap (encode_loop s ++ [0])
    (Z.of_nat (List.length (encode_loop s))) i out acc = Some (DEnd 0 i' (out ++ s) acc').
Proof.
  induction s as [|a|a b|a b c s IH] using three_ind; intros fuel strict cap i out acc Hb Hi Hj -> Hf;
    simpl in Hf |- *.
  - destruct fuel; [lia|]. exists i, acc. by rewrite app_nil_r.
  - apply Forall_cons in Hb as [Ha _].
    pose proof (pair_facts_all a 0 Ha ltac:(lia)). pose proof (byte_facts_all a Ha). byte_solve.
    replace (Z.shiftl (Z.land a 3) 4) with (s1 a 0) by (unfold s1; rewrite Z.shiftr_0_l; apply Z.add_0_r).
    change (Z.shiftr a 2) with (s0 a).
    do 5 (destruct fuel as [|fuel]; [lia|]).
    rewrite decode_two by (done || lia).
    replace (4 - 2) with 2 by lia. rewrite decode_pads by done.
    eexists _, _. do 3 f_equal. congruence.
  - apply Forall_cons in Hb as [Ha Hb]. apply Forall_cons in Hb as [Hb _].
    pose proof (pair_facts_all a b Ha Hb). pose proof (byte_facts_all a Ha).
    pose proof (pair_facts_all b 0 Hb ltac:(lia)). byte_solve.
    replace (Z.shiftl (Z.land b 15) 2) with (s2 b 0) by (unfold s2; rewrite Z.shiftr_0_l; apply Z.add_0_r).
    change (Z.shiftl (Z.land a 3) 4 + Z.shiftr b 4) with (s1 a b). change (Z.shiftr a 2) with (s0 a).
    do 5 (destruct fuel as [|fuel]; [lia|]).
    rewrite decode_two by (done || lia).
    rewrite decode_third by (done || rewrite length_app; simpl; lia).
    replace (4 - 2 - 1) with 1 by lia. rewrite (decode_pad _ _ _ i 3) by (done || lia).
    eexists _, _. rewrite <- app_assoc. do 3 f_equal. simpl. f_equal; [congruence|].
    f_equal. congruence.
  - apply Forall_cons in Hb as [Ha Hb]. apply Forall_cons in Hb as [Hb Hc].
    apply Forall_cons in Hc as [Hc Hs].
    pose proof (pair_facts_all a b Ha Hb). pose proof (byte_facts_all a Ha).
    pose proof (pair_facts_all b c Hb Hc). pose proof (byte_facts_all c Hc). byte_solve.
    change (Z.shiftl (Z.land b 15) 2 + Z.shiftr c 6) with (s2 b c). change (Z.land c 63) with (s3 c).
    change (Z.shiftl (Z.land a 3) 4 + Z.shiftr b 4) with (s1 a b). change (Z.shiftr a 2) with (s0 a).
    do 4 (destruct fuel as [|fuel]; [lia|]). set (n := List.length (encode_loop s)) in *.
    rewrite decode_two by (done || lia).
    rewrite decode_third by (done || rewrite ?length_app; simpl; lia).
    rewrite decode_fourth by (done || rewrite ?length_app; simpl; lia).
    destruct (IH fuel strict (i + 4 + Z.of_nat n + 1) (i + 4)
      (out ++ [a; b; c]) (to_uchar (Z.shiftl (Z.land (s2 b c) 3) 6))) as (i' & acc' & E);
      [done|by rewrite <- Zplus_mod_idemp_r, Z.add_0_r|rewrite length_app; simpl; lia|done|lia|].
    exists i', acc'. rewrite <- app_assoc in E. simpl in E. rewrite <- E.
    rewrite <- !app_assoc. simpl app.
    f_equal; try lia. do 2 f_equal; [congruence|]. f_equal; [congruence|]. f_equal. congruence.
Qed.

Lemma length_encode s : Z.of_nat (List.length (encode_loop s)) = 4 * ((Z.of_nat (List.length s) + 2) / 3).
Proof.
  induction s as [|a|a b|a b c s IH] using three_ind; [done..|].
  simpl List.length. rewrite !Nat2Z.inj_succ, IH.
  replace (Z.succ (Z.succ (Z.succ (Z.of_nat (List.length s)))) + 2)
    with (Z.of_nat (List.length s) + 2 + 1 * 3) by lia.
  rewrite Z.div_add by lia. lia.
Qed.

(** C25: base64 encodes and decodes as RFC 4648 says: [php_base64_encode] gives,
    for every byte string it accepts, the characters of the standard's table for
    its groups of 6 bits and the padding, [4 * ceil(n / 3)] characters in all, and
    [php_base64_decode_ex] turns them back into the same bytes, in strict mode and
    not. *)
Theorem base64_roundtrip (s : list Z) (strict : bool) :
  Forall is_byte s -> (Z.of_nat (List.length s) + 2) / 3 <= INT_MAX / 4 ->
  php_base64_encode s (Z.of_nat (List.length s)) = Some (rfc4648_encode s)
  /\ Z.of_nat (List.length (rfc4648_encode s)) = 4 * ((Z.of_nat (List.length s) + 2) / 3)
  /\ php_base64_decode_ex (rfc4648_encode s ++ [0]) (Z.of_nat (List.length (rfc4648_encode s))) strict = Some (Some s).
Proof.
  intros Hb Hl. rewrite <- (encode_loop_rfc4648 s Hb). split; [|split; [apply length_encode|]].
  - unfold php_base64_encode. rewrite (proj2 (Z.ltb_ge _ 0)) by lia.
    rewrite (proj2 (Z.ltb_ge _ _)) by lia. rewrite Nat2Z.id, firstn_all. done.
  - unfold php_base64_decode_ex. rewrite length_app. simpl List.length.
    destruct (decode_encode s (S (List.length (encode_loop s) + 1)) strict
      (Z.of_nat (List.length (encode_loop s)) + 1) 0 [] 0) as (i' & acc' & ->); [done|done|done|done|lia|].
    simpl. rewrite length_encode. pose proof (Z.div_mod (Z.of_nat (List.length s) + 2) 3 ltac:(lia)).
    pose proof (Z.mod_pos_bound (Z.of_nat (List.length s) + 2) 3 ltac:(lia)).
    rewrite (proj2 (Z.ltb_lt _ _)) by lia. done.
Qed.

Lemma base64_roundtrip_witness :
  php_base64_encode [0; 255; 16; 7] 4 = Some (rfc4648_encode [0; 255; 16; 7])
  /\ Z.of_nat (List.length (rfc4648_encode [0; 255; 16; 7])) = 4 * ((4 + 2) / 3)
  /\ php_base64_decode_ex (rfc4648_encode [0; 255; 16; 7] ++ [0]) (Z.of_nat (List.length (rfc4648_encode [0; 255; 16; 7]))) true
     = Some (Some [0; 255; 16; 7]).
Proof.
  apply (base64_roundtrip [0; 255; 16; 7] true); [|done].
  repeat constructor; done.
Defined.
(** The first test vectors of section 10 of the standard are "f" and "foobar". *)
Example rfc4648_vectors : rfc4648_encode [102] = [90; 103; 61; 61]
  /\ rfc4648_encode [102; 111; 111; 98; 97; 114] = [90; 109; 57; 118; 89; 109; 70; 121].
Proof. vm_compute. split; reflexivity. Qed.

(** ** Memory safety of the decoder *)

Lemma skip_spaces_ok l : l <> [] -> exists r, skip_spaces (l ++ [0]) = Some r /\ r <> []
  /\ (List.length r <= List.length l)%nat.
Proof.
  induction l as [|x l IH]; [done|]. intros _. simpl. destruct l as [|y l].
  - simpl. exists [0]. split; [done|]. split; [done|]. simpl. lia.
  - simpl app. destruct (isspace y) eqn:Es.
    + destruct IH as (r & Hr & Hne & Hlr); [done|]. exists r. rewrite Es. split; [exact Hr|]. split; [done|].
      simpl in *. lia.
    + eexists. rewrite Es. split; [done|]. split; [done|]. simpl. rewrite length_app. simpl. lia.
Qed.

Lemma decode_safe total : forall fuel strict l i out acc,
  (List.length l < fuel)%nat -> 0 <= i -> 4 * Z.of_nat (List.length out) <= 3 * i ->
  i + Z.of_nat (List.length l) <= total ->
  exists r, decode_loop fuel strict (total + 1) (l ++ [0]) (Z.of_nat (List.length l)) i out acc = Some r
    /\ match r with
       | DNull => True
       | DEnd ch i' out' _ => ch = 0 /\ Z.of_nat (List.length out') <= total
       end.
Proof.
  induction fuel as [|fuel IH]; intros strict l i out acc Hf Hi Hj Ht; [lia|].
  destruct l as [|ch l]; simpl app; cbn [decode_loop].
  { eexists. split; [done|]. simpl in *. split; [done|lia]. }
  simpl List.length in *. destruct (Z.eqb_spec ch 0) as [->|Hch]; cbn [orb negb].
  { eexists. split; [done|]. split; [done|lia]. }
  rewrite (proj2 (Z.ltb_lt 0 _)) by lia. cbn [negb]. cbv zeta.
  replace (Z.of_nat (S (List.length l)) - 1) with (Z.of_nat (List.length l)) by lia.
  destruct (ch =? base64_pad).
  - destruct (l ++ [0]) as [|next rest] eqn:El; [by destruct l|]. rewrite <- El.
    destruct (negb (next =? base64_pad) && ((i mod 4 =? 1) || strict && (0 <? Z.of_nat (List.length l)))) eqn:Ec.
    + destruct (i mod 4 =? 1) eqn:Ei; [by exists DNull|].
      apply andb_true_iff in Ec as [_ [_ Hl%Z.ltb_lt]%andb_true_iff].
      destruct (skip_spaces_ok l) as (r & -> & Hne & Hlr); [intros ->; simpl in Hl; lia|]. simpl.
      destruct r as [|[| |] r]; [done| |by exists DNull..].
      destruct fuel as [|fuel]; [lia|]. cbn [decode_loop]. eexists. split; [done|]. split; [done|lia].
    + apply IH; lia.
  - destruct ((negb strict && (nth (Z.to_nat ch) base64_reverse_table (-2) <? 0))
      || (nth (Z.to_nat ch) base64_reverse_table (-2) =? -1)); [apply IH; lia|].
    destruct (nth (Z.to_nat ch) base64_reverse_table (-2) =? -2); [by exists DNull|].
    pose proof (Z.mod_pos_bound i 4 ltac:(lia)) as Hm. pose proof (Z.div_mod i 4 ltac:(lia)) as Hd.
    destruct (i mod 4) as [|[p|[p|p|]|]|] eqn:Em; try lia;
      rewrite (proj2 (Z.ltb_lt _ (total + 1))) by lia;
      apply IH; rewrite ?length_app; simpl List.length; lia.
Qed.

(** [php_base64_decode_ex] is safe on every input: whatever the bytes
    (embedded NULs and stray padding included), it reads only the string and its
    terminator, never writes outside its [length + 1] bytes, terminates, and
    what it returns is no longer than the input. *)
Theorem base64_decode_safe (s : list Z) (strict : bool) :
  exists r, php_base64_decode_ex (s ++ [0]) (Z.of_nat (List.length s)) strict = Some r
    /\ match r with Some out => (List.length out <= List.length s)%nat | None => True end.
Proof.
  unfold php_base64_decode_ex. rewrite length_app.
  destruct (decode_safe (Z.of_nat (List.length s)) (S (List.length s + List.length [0])) strict s 0 [] 0)
    as (r & -> & Hr); [simpl; lia..|]. simpl.
  destruct r as [|ch i out acc]; [by exists None|]. destruct Hr as [-> Hl]. simpl.
  rewrite (proj2 (Z.ltb_lt _ _)) by lia. exists (Some out). split; [done|lia].
Qed.
