(* ===== verification/UrlCode.v ===== *)
(** * UrlCode: URL encoding in ext/standard/url.c

    [php_url_encode]/[php_url_decode] and the raw variants.  The encoders write
    to a buffer of [3 * len + 1] bytes; the decoders work in place, on the
    buffer they read, so the model keeps that buffer and both cursors.  A read
    or write outside a buffer is [None]. *)
From S2P Require Import Prelude Base64 Base64Thms.

(** ** Code *)
Definition hexchars : list Z := [48; 49; 50; 51; 52; 53; 54; 55; 56; 57; 65; 66; 67; 68; 69; 70].
Definition hexchar (i : Z) : Z := nth (Z.to_nat i) hexchars 0.

(** The characters [php_url_encode] escapes (a space has been dealt with). *)
Definition url_unsafe (c : Z) : bool :=
  ((c <? 48) && negb (c =? 45) && negb (c =? 46))
  || ((c <? 65) && (57 <? c))
  || ((90 <? c) && (c <? 97) && negb (c =? 95))
  || (122 <? c).
Definition raw_url_unsafe (c : Z) : bool :=
  ((c <? 48) && negb (c =? 45) && negb (c =? 46))
  || ((c <? 65) && (57 <? c))
  || ((90 <? c) && (c <? 97) && negb (c =? 95))
  || ((122 <? c) && negb (c =? 126)).

(** [*to++ = x] for every [x] of [xs], in a buffer of [cap] bytes. *)
Definition emit (cap : Z) (xs : list Z) (to : list Z) : option (list Z) :=
  if Z.of_nat (length to + length xs) <=? cap then Some (to ++ xs) else None.

Definition escape (c : Z) : list Z := [37; hexchar (Z.shiftr c 4); hexchar (Z.land c 15)].

Fixpoint url_encode_loop (cap : Z) (from to : list Z) : option (list Z) :=
  match from with
  | [] => Some to
  | c :: from =>
      to ← emit cap (if c =? 32 then [43] else if url_unsafe c then escape c else [c]) to;
      url_encode_loop cap from to
  end.
(** The encoded string, without its terminating NUL, or the fatal error both
    encoders raise when it does not fit in an [int]. *)
Inductive encoded := Encoded (to : list Z) | StringOverflow.
Definition check_length (to : list Z) : encoded :=
  if INT_MAX <? Z.of_nat (length to) then StringOverflow else Encoded to.

Definition php_url_encode (s : list Z) : option encoded :=
  let cap := 3 * Z.of_nat (length s) + 1 in
  to ← url_encode_loop cap s [];
  match check_length to with
  | StringOverflow => Some StringOverflow
  | Encoded to => _ ← emit cap [0] to; Some (Encoded to)
  end.

Fixpoint raw_url_encode_loop (cap : Z) (s str : list Z) : option (list Z) :=
  match s with
  | [] => Some str
  | c :: s =>
      str ← emit cap (if raw_url_unsafe c then escape c else [c]) str;
      raw_url_encode_loop cap s str
  end.
Definition php_raw_url_encode (s : list Z) : option encoded :=
  let cap := 3 * Z.of_nat (length s) + 1 in
  str ← raw_url_encode_loop cap s [];
  _ ← emit cap [0] str;
  Some (check_length str).

(** [isxdigit], [isupper], [tolower] in the C locale. *)
Definition isxdigit (c : Z) : bool :=
  ((48 <=? c) && (c <=? 57)) || ((65 <=? c) && (c <=? 70)) || ((97 <=? c) && (c <=? 102)).
Definition isupper (c : Z) : bool := (65 <=? c) && (c <=? 90).
Definition tolower (c : Z) : Z := if isupper c then c + 32 else c.

Definition hex_digit (c : Z) : Z :=
  let c := if isupper c then tolower c else c in
  if (48 <=? c) && (c <=? 57) then c - 48 else c - 97 + 10.
Definition php_htoi (c0 c1 : Z) : Z := hex_digit c0 * 16 + hex_digit c1.

(** [while (len--)] on the buffer [str]; [plus] for the variant that turns
    "+" into a space.  The result is the buffer and [dest - str]. *)
Fixpoint url_decode_loop (fuel : nat) (plus : bool) (str : list Z) (data dest : nat) (len : Z) :
    option (list Z * nat) :=
  if len =? 0 then _ ← str !! dest; Some (<[dest := 0]> str, dest)
  else
    match fuel with
    | O => None
    | S fuel =>
        let len := len - 1 in
        c ← str !! data;
        _ ← str !! dest;
        if plus && (c =? 43) then url_decode_loop fuel plus (<[dest := 32]> str) (S data) (S dest) len
        else
          hex ← (if (c =? 37) && (2 <=? len) then
                   c1 ← str !! S data;
                   if isxdigit c1 then
                     c2 ← str !! S (S data);
                     Some (if isxdigit c2 then Some (php_htoi c1 c2) else None)
                   else Some None
                 else Some None);
          match hex with
          | Some v => url_decode_loop fuel plus (<[dest := to_uchar v]> str) (data + 3) (S dest) (len - 2)
          | None => url_decode_loop fuel plus (<[dest := c]> str) (S data) (S dest) len
          end
    end.
Definition php_url_decode (str : list Z) (len : Z) : option (list Z * nat) :=
  url_decode_loop (Z.to_nat len) true str 0 0 len.
Definition php_raw_url_decode (str : list Z) (len : Z) : option (list Z * nat) :=
  url_decode_loop (Z.to_nat len) false str 0 0 len.

(** ** What decoding means, without a buffer *)
Fixpoint decode_spec (plus : bool) (l : list Z) : list Z :=
  match l with
  | [] => []
  | c :: l' =>
      if plus && (c =? 43) then 32 :: decode_spec plus l'
      else match l' with
           | c1 :: c2 :: l'' =>
               if (c =? 37) && isxdigit c1 && isxdigit c2
               then php_htoi c1 c2 :: decode_spec plus l''
               else c :: decode_spec plus l'
           | _ => c :: decode_spec plus l'
           end
  end.

Lemma decode_spec_ind (P : list Z -> Prop) :
  P [] -> (forall c, P [c]) -> (forall c c1, P [c1] -> P [c; c1]) ->
  (forall c c1 c2 l, P (c1 :: c2 :: l) -> P l -> P (c :: c1 :: c2 :: l)) -> forall l, P l.
Proof.
  intros H0 H1 H2 H3 l. enough (H : P l /\ (forall c, P (c :: l)) /\ (forall c c1, P (c :: c1 :: l))) by apply H.
  induction l as [|x l (IH1 & IH2 & IH3)]; [repeat split; auto|].
  split; [apply (IH2 x)|]. split; [exact (fun c => IH3 c x)|].
  intros c c1. exact (H3 c c1 x l (IH3 c1 x) IH1).
Qed.

Lemma decode_spec_cons3 plus c c1 c2 l :
  decode_spec plus (c :: c1 :: c2 :: l) =
  if plus && (c =? 43) then 32 :: decode_spec plus (c1 :: c2 :: l)
  else if (c =? 37) && isxdigit c1 && isxdigit c2 then php_htoi c1 c2 :: decode_spec plus l
  else c :: decode_spec plus (c1 :: c2 :: l).
Proof. done. Qed.

Lemma htoi_range c1 c2 : isxdigit c1 = true -> isxdigit c2 = true -> 0 <= php_htoi c1 c2 < 256.
Proof.
  assert (Hd : forall c, isxdigit c = true -> 0 <= hex_digit c < 16).
  { intros c Hc. unfold isxdigit in Hc. unfold hex_digit, tolower, isupper.
    repeat (case_goal; reflect_bools); lia || (exfalso; revert Hc; repeat case_goal; reflect_bools; done || lia). }
  intros H1%Hd H2%Hd. unfold php_htoi. lia.
Qed.

(** ** Decoding in place *)
Lemma drop_insert_lt {A} (l : list A) i j x : (i < j)%nat -> drop j (<[i := x]> l) = drop j l.
Proof. intros Hij. apply list_eq. intros k. rewrite !lookup_drop. apply list_lookup_insert_ne. lia. Qed.

Lemma take_insert_snoc {A} (l : list A) i x : (i < length l)%nat ->
  take (S i) (<[i := x]> l) = take i l ++ [x].
Proof.
  intros Hi. rewrite (take_S_r _ _ x) by (by rewrite list_lookup_insert_eq).
  f_equal. apply take_insert_ge. lia.
Qed.

Lemma drop_lookup_cons {A} (l : list A) i x r : drop i l = x :: r ->
  l !! i = Some x /\ drop (S i) l = r /\ (i < length l)%nat.
Proof.
  intros Hd. assert (Hx : l !! i = Some x).
  { replace i with (i + 0)%nat at 1 by lia. rewrite <- lookup_drop, Hd. done. }
  split; [done|]. split; [|by eapply lookup_lt_Some].
  replace (S i) with (i + 1)%nat by lia. rewrite <- drop_drop, Hd. done.
Qed.

Definition in_place_ok (plus : bool) (rest : list Z) : Prop :=
  forall fuel str data dest tail,
  (dest <= data)%nat -> drop data str = rest ++ 0 :: tail -> (length rest <= fuel)%nat ->
  exists str', url_decode_loop fuel plus str data dest (Z.of_nat (length rest))
      = Some (str', (dest + length (decode_spec plus rest))%nat)
    /\ length str' = length str
    /\ take (dest + length (decode_spec plus rest)) str' = take dest str ++ decode_spec plus rest.

(** One step: [x] is stored, [n] bytes have been read. *)
Lemma in_place_step plus x rest fuel str data data' dest tail :
  in_place_ok plus rest -> (dest <= data)%nat -> (data < data')%nat -> (dest < length str)%nat ->
  drop data' str = rest ++ 0 :: tail -> (length rest <= fuel)%nat ->
  exists str', url_decode_loop fuel plus (<[dest := x]> str) data' (S dest) (Z.of_nat (length rest))
      = Some (str', (dest + length (x :: decode_spec plus rest))%nat)
    /\ length str' = length str
    /\ take (dest + length (x :: decode_spec plus rest)) str' = take dest str ++ x :: decode_spec plus rest.
Proof.
  intros IH Hd Hd' Hl Hdrop Hf.
  destruct (IH fuel (<[dest := x]> str) data' (S dest) tail) as (str' & -> & Hlen & Htake);
    [lia|by rewrite drop_insert_lt by lia|done|].
  exists str'. rewrite length_insert in Hlen. simpl length.
  replace (dest + S (length (decode_spec plus rest)))%nat
    with (S dest + length (decode_spec plus rest))%nat by lia.
  split; [done|]. split; [done|]. rewrite Htake, take_insert_snoc by done. by rewrite <- app_assoc.
Qed.

Lemma in_place_all plus rest : in_place_ok plus rest.
Proof.
  induction rest as [|c|c c1 IH|c c1 c2 rest IH IHh] using decode_spec_ind;
    intros fuel str data dest tail Hdd Hdrop Hf; simpl app in Hdrop;
    pose proof (drop_lookup_cons _ _ _ _ Hdrop) as (Hx & Hdrop1 & Hlt).
  - exists (<[dest := 0]> str). simpl. rewrite Nat.add_0_r, app_nil_r.
    assert (is_Some (str !! dest)) as [y Hy] by (apply lookup_lt_is_Some; lia).
    rewrite length_insert. destruct fuel; simpl; rewrite Hy; simpl; (split; [done|]); (split; [done|]);
      by rewrite take_insert_ge by lia.
  - assert (is_Some (str !! dest)) as [y Hy] by (apply lookup_lt_is_Some; lia).
    destruct fuel as [|fuel]; [simpl in Hf; lia|].
    assert (Hgo : forall x, exists str', url_decode_loop fuel plus (<[dest := x]> str) (S data) (S dest) 0
      = Some (str', (dest + 1)%nat) /\ length str' = length str /\ take (dest + 1) str' = take dest str ++ [x]).
    { intros x. refine (in_place_step plus x [] fuel str data (S data) dest tail _ _ _ _ _ _);
        [|lia|lia|lia|done|simpl; lia].
      intros fuel' str0 data0 dest0 tail0 H1 H2 _. exists (<[dest0 := 0]> str0). simpl.
      pose proof (drop_lookup_cons _ _ _ _ H2) as (_ & _ & Hlt0).
      assert (is_Some (str0 !! dest0)) as [y0 Hy0] by (apply lookup_lt_is_Some; lia).
      rewrite Nat.add_0_r, app_nil_r, length_insert. destruct fuel'; simpl; rewrite Hy0; simpl;
        (split; [done|]); (split; [done|]); by rewrite take_insert_ge by lia. }
    cbn [url_decode_loop length]. change (Z.of_nat 1 =? 0) with false. cbv zeta. rewrite Hx, Hy. cbn [mbind option_bind].
    change (Z.of_nat 1 - 1) with 0. change (2 <=? 0) with false. rewrite andb_false_r. simpl.
    destruct (plus && (c =? 43)); apply Hgo.
  - assert (is_Some (str !! dest)) as [y Hy] by (apply lookup_lt_is_Some; lia).
    destruct fuel as [|fuel]; [simpl in Hf; lia|].
    assert (Hgo : forall x, exists str', url_decode_loop fuel plus (<[dest := x]> str) (S data) (S dest) 1
      = Some (str', (dest + length (x :: decode_spec plus [c1]))%nat) /\ length str' = length str
      /\ take (dest + length (x :: decode_spec plus [c1])) str' = take dest str ++ x :: decode_spec plus [c1]).
    { intros x. apply (in_place_step plus x [c1] fuel str data (S data) dest tail);
        [done|lia|lia|lia|done|simpl in *; lia]. }
    cbn [url_decode_loop length]. change (Z.of_nat 2 =? 0) with false. cbv zeta. rewrite Hx, Hy. cbn [mbind option_bind].
    change (Z.of_nat 2 - 1) with 1. change (2 <=? 1) with false. rewrite andb_false_r.
    change (decode_spec plus [c; c1]) with
      (if plus && (c =? 43) then 32 :: decode_spec plus [c1] else c :: decode_spec plus [c1]).
    simpl mbind. destruct (plus && (c =? 43)); apply Hgo.
  - assert (is_Some (str !! dest)) as [y Hy] by (apply lookup_lt_is_Some; lia).
    destruct fuel as [|fuel]; [simpl in Hf; lia|]. simpl length in Hf.
    pose proof (drop_lookup_cons _ _ _ _ Hdrop1) as (Hx1 & Hdrop2 & _). simpl app in Hdrop2.
    pose proof (drop_lookup_cons _ _ _ _ Hdrop2) as (Hx2 & Hdrop3 & _).
    pose proof (fun x => in_place_step plus x (c1 :: c2 :: rest) fuel str data (S data) dest tail IH
      ltac:(lia) ltac:(lia) ltac:(lia) Hdrop1 ltac:(simpl; lia)) as Hgo.
    pose proof (fun x => in_place_step plus x rest fuel str data (data + 3) dest tail IHh
      ltac:(lia) ltac:(lia) ltac:(lia) ltac:(by replace (data + 3)%nat with (S (S (S data))) by lia)
      ltac:(lia)) as Hgo3.
    cbn [url_decode_loop]. rewrite decode_spec_cons3. rewrite (proj2 (Z.eqb_neq _ 0)) by (simpl length; lia). cbv zeta.
    rewrite Hx, Hy. cbn [mbind option_bind].
    replace (Z.of_nat (length (c :: c1 :: c2 :: rest)) - 1) with (Z.of_nat (length (c1 :: c2 :: rest)))
      by (simpl length; lia).
    destruct (plus && (c =? 43)); [apply Hgo|].
    rewrite (proj2 (Z.leb_le 2 _)) by (simpl length; lia). rewrite andb_true_r.
    destruct (c =? 37); [|apply Hgo]. rewrite Hx1. cbn [mbind option_bind].
    destruct (isxdigit c1) eqn:E1; [|apply Hgo]. rewrite Hx2. cbn [mbind option_bind].
    destruct (isxdigit c2) eqn:E2; [|apply Hgo]. simpl andb. cbn [mbind option_bind].
    replace (Z.of_nat (length (c1 :: c2 :: rest)) - 2) with (Z.of_nat (length rest)) by (simpl length; lia).
    assert (to_uchar (php_htoi c1 c2) = php_htoi c1 c2) as ->; [|apply Hgo3].
    apply Z.mod_small. pose proof (htoi_range c1 c2 E1 E2). lia.
Qed.

(** ** Round trip *)

(** What the encoders write for one character. *)
Definition url_piece (plus : bool) (c : Z) : list Z :=
  if plus then (if c =? 32 then [43] else if url_unsafe c then escape c else [c])
  else if raw_url_unsafe c then escape c else [c].

Lemma url_encode_loop_spec cap s : forall to,
  3 * Z.of_nat (length s) + Z.of_nat (length to) <= cap ->
  url_encode_loop cap s to = Some (to ++ concat (url_piece true <$> s))
  /\ raw_url_encode_loop cap s to = Some (to ++ concat (url_piece false <$> s)).
Proof.
  induction s as [|c s IH]; intros to Hc; simpl; [by rewrite app_nil_r|].
  simpl length in Hc.
  assert (Hp : forall plus, (length (url_piece plus c) <= 3)%nat)
    by (intros plus; unfold url_piece; repeat case_goal; simpl; lia).
  assert (He : forall plus, emit cap (url_piece plus c) to = Some (to ++ url_piece plus c)).
  { intros plus. unfold emit. rewrite (proj2 (Z.leb_le _ _)); [done|]. specialize (Hp plus). lia. }
  pose proof (He true) as H1. pose proof (He false) as H2. unfold url_piece in H1, H2.
  rewrite H1, H2. simpl. fold (url_piece true c) (url_piece false c).
  destruct (IH (to ++ url_piece true c)) as [-> _]; [rewrite length_app; specialize (Hp true); lia|].
  destruct (IH (to ++ url_piece false c)) as [_ ->]; [rewrite length_app; specialize (Hp false); lia|].
  by rewrite <- !app_assoc.
Qed.

Definition piece_facts (c : Z) : bool :=
  let ok plus :=
    match url_piece plus c with
    | [37; h; l] => isxdigit h && isxdigit l && (php_htoi h l =? c)
    | [43] => plus && (c =? 32)
    | [x] => (x =? c) && negb (c =? 37) && negb (plus && (c =? 43))
    | _ => false
    end in
  ok true && ok false.

Lemma piece_facts_all c : 0 <= c < 256 -> piece_facts c = true.
Proof. apply all_bytes. vm_compute. reflexivity. Qed.

Lemma decode_plain plus c l : c <> 37 -> plus && (c =? 43) = false ->
  decode_spec plus (c :: l) = c :: decode_spec plus l.
Proof.
  intros H1 H2. cbn [decode_spec]. rewrite H2, (proj2 (Z.eqb_neq c 37)) by done. simpl.
  by destruct l as [|? [|? ?]].
Qed.

Lemma decode_piece plus c l : 0 <= c < 256 ->
  decode_spec plus (url_piece plus c ++ l) = c :: decode_spec plus l.
Proof.
  intros Hc%piece_facts_all. unfold piece_facts in Hc. apply andb_true_iff in Hc as [Ht Hf].
  assert (Hok : match url_piece plus c with
    | [37; h; l] => isxdigit h && isxdigit l && (php_htoi h l =? c)
    | [43] => plus && (c =? 32)
    | [x] => (x =? c) && negb (c =? 37) && negb (plus && (c =? 43))
    | _ => false
    end = true) by (destruct plus; done). clear Ht Hf.
  unfold url_piece, escape in *. revert Hok.
  assert (Hone : match [c] with
    | [37; h; l] => isxdigit h && isxdigit l && (php_htoi h l =? c)
    | [43] => plus && (c =? 32)
    | [x] => (x =? c) && negb (c =? 37) && negb (plus && (c =? 43))
    | _ => false
    end = true -> decode_spec plus ([c] ++ l) = c :: decode_spec plus l).
  { intros Hok. destruct (Z.eq_dec c 43) as [->|]; [by destruct plus|].
    apply decode_plain; [intros ->; done|].
    destruct plus; [|done]. by apply Z.eqb_neq. }
  assert (Hesc : isxdigit (hexchar (Z.shiftr c 4)) && isxdigit (hexchar (Z.land c 15))
      && (php_htoi (hexchar (Z.shiftr c 4)) (hexchar (Z.land c 15)) =? c) = true ->
    decode_spec plus ([37; hexchar (Z.shiftr c 4); hexchar (Z.land c 15)] ++ l) = c :: decode_spec plus l).
  { intros [[H1 H2]%andb_true_iff H3%Z.eqb_eq]%andb_true_iff. simpl app. rewrite decode_spec_cons3.
    change (37 =? 43) with false. rewrite andb_false_r, H1, H2, H3. done. }
  destruct plus.
  - destruct (Z.eqb_spec c 32) as [->|]; [done|]. destruct (url_unsafe c); auto.
  - destruct (raw_url_unsafe c); auto.
Qed.

Lemma decode_pieces plus s : Forall is_byte s -> decode_spec plus (concat (url_piece plus <$> s)) = s.
Proof.
  induction 1 as [|c s Hc Hs IH]; [done|].
  change (decode_spec plus (url_piece plus c ++ concat (url_piece plus <$> s)) = c :: s).
  rewrite decode_piece by done. by f_equal.
Qed.

Lemma take_decoded {A} (str' d : list A) : take (0 + length d) str' = [] ++ d ->
  take (length d) str' = d.
Proof. done. Qed.

(** C26: decoding in place is safe and does what it means to: on a string of
    any bytes with its terminating NUL, [php_url_decode] and
    [php_raw_url_decode] neither read nor write outside the buffer, although
    they overwrite what they read, leave the buffer as long as it was, and
    return the length of the decoded string, which is the buffer's prefix.
    The decoded string is never longer than the input. *)
Theorem php_url_decode_in_place (s tail : list Z) :
  let len := Z.of_nat (length s) in
  (exists str', php_url_decode (s ++ 0 :: tail) len = Some (str', length (decode_spec true s))
     /\ length str' = (length s + S (length tail))%nat
     /\ take (length (decode_spec true s)) str' = decode_spec true s)
  /\ (exists str', php_raw_url_decode (s ++ 0 :: tail) len = Some (str', length (decode_spec false s))
     /\ length str' = (length s + S (length tail))%nat
     /\ take (length (decode_spec false s)) str' = decode_spec false s)
  /\ (forall plus, (length (decode_spec plus s) <= length s)%nat).
Proof.
  cbv zeta.
  assert (H : forall plus, exists str',
    url_decode_loop (length s) plus (s ++ 0 :: tail) 0%nat 0%nat (Z.of_nat (length s))
      = Some (str', length (decode_spec plus s))
    /\ length str' = (length s + S (length tail))%nat
    /\ take (length (decode_spec plus s)) str' = decode_spec plus s).
  { intros plus. destruct (in_place_all plus s (length s) (s ++ 0 :: tail) 0%nat 0%nat tail)
      as (str' & H1 & H2 & H3); [lia|done|lia|].
    exists str'. rewrite length_app in H2. split; [exact H1|]. split; [exact H2|]. exact (take_decoded _ _ H3). }
  unfold php_url_decode, php_raw_url_decode. rewrite Nat2Z.id.
  split; [exact (H true)|]. split; [exact (H false)|].
  clear H. intros plus. induction s as [|c|c c1 IH|c c1 c2 s IH IHh] using decode_spec_ind;
    [simpl; repeat case_goal; simpl; lia ..| |].
  - simpl. repeat case_goal; simpl; lia.
  - rewrite decode_spec_cons3. simpl length in *. repeat case_goal; simpl length in *; lia.
Qed.

(** C27: decoding what was encoded gives the string back, byte for byte, in
    both variants, and the encoders stay inside the [3 * len + 1] bytes they
    allocate: what they write is at most three times as long as the string.
    They raise their error exactly when it is longer than [INT_MAX]. *)
Theorem php_url_encode_roundtrip (s : list Z) :
  Forall is_byte s ->
  (exists e str', php_url_encode s = Some (check_length e) /\ (length e <= 3 * length s)%nat
     /\ php_url_decode (e ++ [0]) (Z.of_nat (length e)) = Some (str', length s)
     /\ take (length s) str' = s)
  /\ (exists e str', php_raw_url_encode s = Some (check_length e) /\ (length e <= 3 * length s)%nat
     /\ php_raw_url_decode (e ++ [0]) (Z.of_nat (length e)) = Some (str', length s)
     /\ take (length s) str' = s).
Proof.
  intros Hs.
  assert (Hlen : forall plus, (length (concat (url_piece plus <$> s)) <= 3 * length s)%nat).
  { intros plus. clear Hs. induction s as [|c s IH]; [done|].
    change (length (url_piece plus c ++ concat (url_piece plus <$> s)) <= 3 * S (length s))%nat.
    rewrite length_app.
    assert (length (url_piece plus c) <= 3)%nat by (unfold url_piece; repeat case_goal; simpl; lia). lia. }
  assert (Hdec : forall plus, exists str',
    url_decode_loop (length (concat (url_piece plus <$> s))) plus (concat (url_piece plus <$> s) ++ [0]) 0%nat 0%nat
      (Z.of_nat (length (concat (url_piece plus <$> s)))) = Some (str', length s)
    /\ take (length s) str' = s).
  { intros plus. destruct (in_place_all plus (concat (url_piece plus <$> s)) (length (concat (url_piece plus <$> s)))
      (concat (url_piece plus <$> s) ++ [0]) 0%nat 0%nat []) as (str' & H1 & _ & H3); [lia|done|lia|].
    rewrite decode_pieces in H1, H3 by done. exists str'. split; [exact H1|exact H3]. }
  assert (Henc : forall to, (length to <= 3 * length s)%nat ->
    emit (3 * Z.of_nat (length s) + 1) [0] to = Some (to ++ [0])).
  { intros to Ht. unfold emit. rewrite (proj2 (Z.leb_le _ _)); [done|]. simpl length. lia. }
  destruct (url_encode_loop_spec (3 * Z.of_nat (length s) + 1) s []) as [E1 E2]; [simpl; lia|].
  unfold php_url_encode, php_raw_url_encode, php_url_decode, php_raw_url_decode.
  split.
  - destruct (Hdec true) as (str' & H1 & H2). exists (concat (url_piece true <$> s)), str'. cbv zeta.
    rewrite E1, Nat2Z.id. cbn [mbind option_bind]. rewrite app_nil_l. repeat split; [|apply Hlen|exact H1|exact H2].
    unfold check_length. destruct (INT_MAX <? _); [done|]. by rewrite Henc by apply Hlen.
  - destruct (Hdec false) as (str' & H1 & H2). exists (concat (url_piece false <$> s)), str'. cbv zeta.
    rewrite E2, Nat2Z.id. cbn [mbind option_bind]. rewrite app_nil_l.
    repeat split; [|apply Hlen|exact H1|exact H2]. by rewrite Henc by apply Hlen.
Qed.

(** The string "a b%~". *)
Lemma php_url_encode_roundtrip_witness :
  php_url_encode [97; 32; 98; 37; 126] = Some (Encoded [97; 43; 98; 37; 50; 53; 37; 55; 69])
  /\ php_raw_url_encode [97; 32; 98; 37; 126] = Some (Encoded [97; 37; 50; 48; 98; 37; 50; 53; 126])
  /\ (exists e str', php_url_encode [97; 32; 98; 37; 126] = Some (check_length e) /\ (length e <= 15)%nat
     /\ php_url_decode (e ++ [0]) (Z.of_nat (length e)) = Some (str', 5%nat)
     /\ take 5 str' = [97; 32; 98; 37; 126]).
Proof.
  split; [reflexivity|]. split; [reflexivity|].
  apply (php_url_encode_roundtrip [97; 32; 98; 37; 126]).
  repeat constructor; unfold is_byte; lia.
Defined.
