(* ===== verification/QuotPrint.v ===== *)
(** * QuotPrint: quoted-printable coding in ext/standard/quot_print.c

    The encoder [php_quot_print_encode], the library decoder
    [php_quot_print_decode] and the decoder inside the PHP function
    [quoted_printable_decode].

    A pointer into the (NUL-terminated) input is the part of the buffer it has
    in front of it: reading through it at the end of the buffer is [None].  An
    output pointer is what has been written, in a buffer of known size: writing
    past its end is [None] too ([emit]). *)
From S2P Require Import Prelude Base64 Base64Thms UrlCode.

(** ** Decoder with a buffer it measures first *)
Definition hexval_tbl : list Z :=
  [64; 64; 64; 64; 64; 64; 64; 64; 64; 32; 16; 64; 64; 16; 64; 64;
   64; 64; 64; 64; 64; 64; 64; 64; 64; 64; 64; 64; 64; 64; 64; 64;
   32; 64; 64; 64; 64; 64; 64; 64; 64; 64; 64; 64; 64; 64; 64; 64;
    0;  1;  2;  3;  4;  5;  6;  7;  8;  9; 64; 64; 64; 64; 64; 64;
   64; 10; 11; 12; 13; 14; 15; 64; 64; 64; 64; 64; 64; 64; 64; 64;
   64; 64; 64; 64; 64; 64; 64; 64; 64; 64; 64; 64; 64; 64; 64; 64;
   64; 10; 11; 12; 13; 14; 15; 64; 64; 64; 64; 64; 64; 64; 64; 64;
   64; 64; 64; 64; 64; 64; 64; 64; 64; 64; 64; 64; 64; 64; 64; 64]
  ++ replicate 128 64.
Definition hexval (c : Z) : Z := nth (Z.to_nat c) hexval_tbl 64.

(** [while (i > 1 && *p1 != '\0')]: the first pass.  [buf_size] is unsigned; a
    subtraction below 0 is [None]. *)
Fixpoint measure_loop (fuel : nat) (i : Z) (p1 : list Z) (buf_size : Z) : option Z :=
  if 1 <? i then
    match fuel with
    | O => None
    | S fuel =>
        c ← head p1;
        if c =? 0 then Some buf_size
        else if c =? 61 then
          if buf_size <? 2 then None
          else measure_loop fuel (i - 2) (drop 2 p1) (buf_size - 2)
        else measure_loop fuel (i - 1) (drop 1 p1) buf_size
    end
  else Some buf_size.

(** [NULL], or the decoded string. *)
Inductive qp_result := QPNull | QPDecoded (retval : list Z).

(** [while (h_nbl == 32)]: [Some None] is [return NULL]. *)
Fixpoint blanks_loop (fuel : nat) (h_nbl i : Z) (p1 : list Z) : option (option (Z * list Z)) :=
  if h_nbl =? 32 then
    match fuel with
    | O => None
    | S fuel =>
        let i := i - 1 in
        if i =? 0 then Some None
        else
          let p1 := drop 1 p1 in
          c ← head p1;
          let h_nbl := hexval c in
          if h_nbl =? 64 then Some None else blanks_loop fuel h_nbl i p1
    end
  else Some (Some (i, p1)).

(** [*p2 = '\0'; return retval]. *)
Definition finish (cap : Z) (p2 : list Z) : option qp_result :=
  _ ← emit cap [0] p2; Some (QPDecoded p2).

Fixpoint qp_decode_loop (fuel : nat) (cap us i : Z) (p1 p2 : list Z) : option qp_result :=
  if 0 <? i then
    match fuel with
    | O => None
    | S fuel =>
        c ← head p1;
        if c =? 0 then finish cap p2
        else if c =? 61 then
          let i := i - 1 in let p1 := drop 1 p1 in
          if i =? 0 then finish cap p2
          else
            c ← head p1;
            if c =? 0 then finish cap p2
            else
              let h_nbl := hexval c in
              if h_nbl <? 16 then
                let i := i - 1 in
                if i =? 0 then Some QPNull
                else
                  let p1 := drop 1 p1 in
                  c ← head p1;
                  let l_nbl := hexval c in
                  if 16 <=? l_nbl then Some QPNull
                  else
                    p2 ← emit cap [Z.lor (Z.shiftl h_nbl 4) l_nbl] p2;
                    qp_decode_loop fuel cap us (i - 1) (drop 1 p1) p2
              else if h_nbl <? 64 then
                found ← blanks_loop (length p1) h_nbl i p1;
                match found with
                | None => Some QPNull
                | Some (i, p1) =>
                    c ← head p1;
                    crlf ← (if (c =? 13) && (2 <=? i)
                            then c1 ← head (drop 1 p1); Some (c1 =? 10) else Some false);
                    if crlf : bool
                    then qp_decode_loop fuel cap us (i - 2) (drop 2 p1) p2
                    else qp_decode_loop fuel cap us (i - 1) (drop 1 p1) p2
                end
              else Some QPNull
        else
          p2 ← emit cap [if us =? c then 32 else c] p2;
          qp_decode_loop fuel cap us (i - 1) (drop 1 p1) p2
    end
  else finish cap p2.

(** [i] is an [unsigned int]. *)
Definition php_quot_print_decode (str : list Z) (len : Z) (replace_us_by_ws : bool) :
    option qp_result :=
  let us := if replace_us_by_ws then 95 else 0 in
  let i := to_uint len in
  buf_size ← measure_loop (length str) i str len;
  qp_decode_loop (length str) (buf_size + 1) us i str [].

(** ** Encoder *)
Definition PHP_QPRINT_MAXL : Z := 75.
Definition iscntrl (c : Z) : bool := (c <? 32) || (c =? 127).

(** The condition for "=0D=0A": a soft line break before the escape. *)
Definition break_before_escape (c lp : Z) : bool :=
  ((PHP_QPRINT_MAXL <? lp) && (c <=? 127))
  || ((127 <? c) && (c <=? 223) && (PHP_QPRINT_MAXL <? lp + 3))
  || ((223 <? c) && (c <=? 239) && (PHP_QPRINT_MAXL <? lp + 6))
  || ((239 <? c) && (c <=? 244) && (PHP_QPRINT_MAXL <? lp + 9)).

Section Encode.
Context `{Platform}.

(** [while (length--)]; [lp] is an [unsigned long]. *)
Fixpoint qp_encode_loop (fuel : nat) (cap len : Z) (str d : list Z) (lp : Z) : option (list Z) :=
  if len =? 0 then _ ← emit cap [0] d; Some d
  else
    match fuel with
    | O => None
    | S fuel =>
        let len := len - 1 in
        c ← head str;
        let str := drop 1 str in
        crlf ← (if c =? 13 then n ← head str; Some ((n =? 10) && (0 <? len)) else Some false);
        if crlf : bool then
          n ← head str;
          d ← emit cap [13; n] d;
          qp_encode_loop fuel cap (len - 1) (drop 1 str) d 0
        else
          esc ← (if iscntrl c || (c =? 127) || negb (Z.land c 128 =? 0) || (c =? 61) then Some true
                 else if c =? 32 then n ← head str; Some (n =? 13)
                 else Some false);
          if esc : bool then
            let lp := to_ulong (lp + 3) in
            let brk := break_before_escape c lp in
            d ← emit cap (if brk then [61; 13; 10] else []) d;
            d ← emit cap (61 :: [hexchar (Z.shiftr c 4); hexchar (Z.land c 15)]) d;
            qp_encode_loop fuel cap len str d (if brk then 3 else lp)
          else
            let lp := to_ulong (lp + 1) in
            let brk := PHP_QPRINT_MAXL <? lp in
            d ← emit cap (if brk then [61; 13; 10] else []) d;
            d ← emit cap [c] d;
            qp_encode_loop fuel cap len str d (if brk then 1 else lp)
    end.

(** [safe_emalloc(3, length + (((3 * length)/(PHP_QPRINT_MAXL-9)) + 1), 1)] *)
Definition php_quot_print_encode (str : list Z) (len : Z) : option (list Z) :=
  let cap := 3 * (len + ((3 * len) / (PHP_QPRINT_MAXL - 9) + 1)) + 1 in
  qp_encode_loop (length str) cap len str [] 0.

(** The PHP function: [Some None] is the warning and [false]. *)
Definition quoted_printable_encode (str : list Z) (str_len : Z) : option (option (list Z)) :=
  if str_len =? 0 then Some (Some [])
  else
    new_str ← php_quot_print_encode str str_len;
    Some (if INT_MAX <? Z.of_nat (length new_str) then None else Some new_str).
End Encode.

(** ** The PHP function [quoted_printable_decode] *)
Definition php_hex2int (c : Z) : Z :=
  if (48 <=? c) && (c <=? 57) then c - 48
  else if (65 <=? c) && (c <=? 70) then c - 65 + 10
  else if (97 <=? c) && (c <=? 102) then c - 97 + 10
  else -1.

(** [while (str_in[i + k] && (... == 32 || ... == 9)) k++] *)
Fixpoint skip_blanks (p : list Z) : list Z :=
  match p with
  | c :: p' => if (c =? 32) || (c =? 9) then skip_blanks p' else p
  | [] => []
  end.

Fixpoint qpd_loop (fuel : nat) (cap : Z) (p str_out : list Z) : option (list Z) :=
  match fuel with
  | O => None
  | S fuel =>
      c ← head p;
      if c =? 0 then _ ← emit cap [0] str_out; Some str_out
      else if c =? 61 then
        c1 ← head (drop 1 p);
        hex ← (if c1 =? 0 then Some None
               else
                 c2 ← head (drop 2 p);
                 Some (if negb (c2 =? 0) && isxdigit c1 && isxdigit c2
                       then Some (to_uchar (Z.shiftl (php_hex2int c1) 4 + php_hex2int c2))
                       else None));
        match hex with
        | Some v => str_out ← emit cap [v] str_out; qpd_loop fuel cap (drop 3 p) str_out
        | None =>
            let q := skip_blanks (drop 1 p) in
            c ← head q;
            if c =? 0 then qpd_loop fuel cap q str_out
            else
              crlf ← (if c =? 13 then c1 ← head (drop 1 q); Some (c1 =? 10) else Some false);
              if crlf : bool then qpd_loop fuel cap (drop 2 q) str_out
              else if (c =? 13) || (c =? 10) then qpd_loop fuel cap (drop 1 q) str_out
              else str_out ← emit cap [61] str_out; qpd_loop fuel cap (drop 1 p) str_out
        end
      else str_out ← emit cap [c] str_out; qpd_loop fuel cap (drop 1 p) str_out
  end.

Definition quoted_printable_decode (arg1 : list Z) (arg1_len : Z) : option (list Z) :=
  if arg1_len =? 0 then Some []
  else qpd_loop (length arg1) (arg1_len + 1) arg1 [].

(** "a=b" and a soft line break. *)
Example quot_print_example :
  php_quot_print_encode (H := LP64) [97; 61; 98; 0] 3 = Some [97; 61; 51; 68; 98]
  /\ php_quot_print_decode [97; 61; 51; 68; 61; 13; 10; 98; 0] 8 false = Some (QPDecoded [97; 61; 98])
  /\ quoted_printable_decode [97; 61; 51; 68; 61; 13; 10; 98; 0] 8 = Some [97; 61; 98].
Proof. repeat split; vm_compute; reflexivity. Qed.
