(* ===== verification/QuotPrintThms.v ===== *)
(** * QuotPrintThms: quoted-printable coding stays in its buffers and loses nothing *)
From S2P Require Import Prelude Base64 Base64Thms UrlCode QuotPrint.

(** Reading through a pointer whose next byte is known. *)
Ltac qp_step := simpl app; repeat (cbn [head mbind option_bind drop]; rewrite ?drop_0).

(** ** Bounded output *)
Lemma emit_fits cap xs d : Z.of_nat (length d + length xs) <= cap -> emit cap xs d = Some (d ++ xs).
Proof. intros Hc. unfold emit. by rewrite (proj2 (Z.leb_le _ _)). Qed.

Lemma emit_some cap xs d d' : emit cap xs d = Some d' ->
  d' = d ++ xs /\ Z.of_nat (length d + length xs) <= cap.
Proof. unfold emit. case_goal; [|done]. intros [= <-]. by reflect_bools. Qed.

Lemma emit_mono cap cap' xs d d' : cap <= cap' -> emit cap xs d = Some d' -> emit cap' xs d = Some d'.
Proof. intros Hc [-> H]%emit_some. apply emit_fits. lia. Qed.

(** ** The decoder's buffer is large enough *)

(** What the first pass takes off the length for the escapes it sees. *)
Fixpoint saved (rest : list Z) : Z :=
  match rest with
  | c :: ((d :: rest'') as rest') =>
      if c =? 0 then 0 else if c =? 61 then 2 + saved rest'' else saved rest'
  | _ => 0
  end.

Lemma two_step_ind (P : list Z -> Prop) :
  P [] -> (forall c, P [c]) -> (forall c d l, P l -> P (d :: l) -> P (c :: d :: l)) -> forall l, P l.
Proof.
  intros H0 H1 H2 l. enough (H : P l /\ forall c, P (c :: l)) by apply H.
  induction l as [|x l [IH1 IH2]]; split; auto.
Qed.

Lemma saved_cons2 c d l :
  saved (c :: d :: l) = if c =? 0 then 0 else if c =? 61 then 2 + saved l else saved (d :: l).
Proof. done. Qed.

Lemma saved_bounds rest : 0 <= saved rest <= Z.of_nat (length rest).
Proof.
  induction rest as [|c|c d l IH1 IH2] using two_step_ind; [simpl; lia..|].
  rewrite saved_cons2. simpl length in *. repeat case_goal; lia.
Qed.

(** A character that is neither "=" nor NUL does not change the saving. *)
Lemma saved_skip c rest : c <> 0 -> c <> 61 -> saved (c :: rest) = saved rest.
Proof.
  intros H0 H1. destruct rest as [|d rest]; [done|].
  rewrite saved_cons2. by rewrite (proj2 (Z.eqb_neq c 0)), (proj2 (Z.eqb_neq c 61)) by done.
Qed.

Lemma measure_ok rest : forall fuel buf, (length rest <= fuel)%nat -> saved rest <= buf ->
  measure_loop fuel (Z.of_nat (length rest)) (rest ++ [0]) buf = Some (buf - saved rest).
Proof.
  induction rest as [|c|c d l IH1 IH2] using two_step_ind; intros fuel buf Hf Hs.
  - destruct fuel; simpl; f_equal; lia.
  - destruct fuel; simpl; f_equal; lia.
  - destruct fuel as [|fuel]; [simpl in Hf; lia|]. rewrite saved_cons2 in *. cbn [measure_loop].
    rewrite (proj2 (Z.ltb_lt 1 _)) by (simpl length; lia). qp_step.
    simpl length in Hf.
    destruct (c =? 0); [f_equal; lia|]. destruct (c =? 61).
    + pose proof (saved_bounds l). rewrite (proj2 (Z.ltb_ge buf 2)) by lia.
      replace (Z.of_nat (length (c :: d :: l)) - 2) with (Z.of_nat (length l)) by (simpl length; lia).
      rewrite IH1 by lia. f_equal; lia.
    + replace (Z.of_nat (length (c :: d :: l)) - 1) with (Z.of_nat (length (d :: l))) by (simpl length; lia).
      apply IH2; [simpl; lia|lia].
Qed.

Definition hexval_facts (c : Z) : bool :=
  let h := hexval c in
  (0 <=? h) && (h <=? 64) && ((h =? 64) || negb ((c =? 0) || (c =? 61)))
  && (negb (c =? 13) || (h =? 16)).
Lemma hexval_all c : 0 <= c < 256 -> hexval_facts c = true.
Proof. apply all_bytes. vm_compute. reflexivity. Qed.

Lemma hexval_plain c : is_byte c -> hexval c <> 64 -> c <> 0 /\ c <> 61.
Proof.
  intros Hc%hexval_all Hh. unfold hexval_facts in Hc. repeat rewrite andb_true_iff in Hc.
  destruct Hc as [[_ Hc] _]. rewrite (proj2 (Z.eqb_neq _ 64)) in Hc by done. simpl in Hc.
  apply negb_true_iff, orb_false_iff in Hc as [H1 H2]. by apply Z.eqb_neq in H1, H2.
Qed.

(** Skipping the blanks of a soft line break: [return NULL], or a pointer to a
    character that is not a blank, with the saving unchanged. *)
Lemma blanks_ok rest : forall fuel h, Forall is_byte rest -> (length rest <= fuel)%nat ->
  (exists c rest', rest = c :: rest' /\ h = hexval c /\ hexval c <> 64) ->
  blanks_loop fuel h (Z.of_nat (length rest)) (rest ++ [0]) = Some None
  \/ exists c rest', blanks_loop fuel h (Z.of_nat (length rest)) (rest ++ [0])
       = Some (Some (Z.of_nat (S (length rest')), c :: rest' ++ [0]))
     /\ Forall is_byte (c :: rest') /\ (length (c :: rest') <= length rest)%nat
     /\ hexval c <> 64 /\ hexval c <> 32 /\ saved (c :: rest') = saved rest.
Proof.
  induction rest as [|c rest IH]; intros fuel h Hb Hf (c0 & rest0 & [= <- <-] & -> & H64).
  destruct fuel as [|fuel]; [simpl in Hf; lia|]. cbn [blanks_loop].
  apply Forall_cons in Hb as [Hc Hb].
  destruct (hexval_plain c Hc H64) as [Hc0 Hc61].
  destruct (Z.eqb_spec (hexval c) 32) as [E32|E32].
  - replace (Z.of_nat (length (c :: rest)) - 1) with (Z.of_nat (length rest)) by (simpl length; lia).
    qp_step. destruct rest as [|c1 rest]; [by left|].
    rewrite (proj2 (Z.eqb_neq _ 0)) by (simpl length; lia). qp_step.
    destruct (Z.eqb_spec (hexval c1) 64) as [E64|E64]; [by left|].
    destruct (IH fuel (hexval c1) Hb) as [Hn|(c2 & r2 & Hr & Hb2 & Hl2 & Ha & Hb' & Hs)];
      [simpl in *; lia|by exists c1, rest|by left|].
    right. exists c2, r2. split; [done|]. split; [done|]. split; [simpl in *; lia|].
    split; [done|]. split; [done|]. rewrite Hs. symmetry. by apply saved_skip.
  - right. exists c, rest. split; [done|]. split; [by constructor|]. done.
Qed.

(** The decoder reads and writes inside its buffers and ends, on every input. *)
Lemma decode_loop_ok rest : forall fuel cap us p2, Forall is_byte rest -> (length rest <= fuel)%nat ->
  Z.of_nat (length p2) + Z.of_nat (length rest) - saved rest + 1 <= cap ->
  exists r, qp_decode_loop fuel cap us (Z.of_nat (length rest)) (rest ++ [0]) p2 = Some r
    /\ match r with
       | QPNull => True
       | QPDecoded out => Z.of_nat (length out) + 1 <= cap
       end.
Proof.
  remember (length rest) as n eqn:Hn. revert rest Hn.
  induction n as [n IH] using lt_wf_ind. intros rest -> fuel cap us p2 Hb Hf Hcap.
  pose proof (saved_bounds rest) as Hsb.
  assert (Hfin : exists r, finish cap p2 = Some r
    /\ match r with QPNull => True | QPDecoded out => Z.of_nat (length out) + 1 <= cap end).
  { unfold finish. rewrite emit_fits by (simpl; lia). eexists. split; [done|]. simpl. lia. }
  destruct rest as [|c rest]; [destruct fuel; exact Hfin|].
  destruct fuel as [|fuel]; [simpl in Hf; lia|]. cbn [qp_decode_loop]. simpl length in Hf.
  rewrite (proj2 (Z.ltb_lt 0 _)) by (simpl length; lia). qp_step.
  apply Forall_cons in Hb as [Hc Hb].
  destruct (Z.eqb_spec c 0) as [->|Hc0]; [exact Hfin|].
  replace (Z.of_nat (length (c :: rest)) - 1) with (Z.of_nat (length rest)) by (simpl length; lia).
  destruct (Z.eqb_spec c 61) as [->|Hc61].
  2:{ rewrite saved_skip in Hcap by done. simpl length in Hcap.
      rewrite emit_fits by (pose proof (saved_bounds rest); simpl; lia). qp_step.
      apply IH; [simpl; lia|done|done|lia|rewrite length_app; simpl; lia]. }
  destruct rest as [|c1 rest]; [exact Hfin|].
  rewrite (proj2 (Z.eqb_neq _ 0)) by (simpl length; lia). qp_step.
  apply Forall_cons in Hb as [Hc1 Hb]. simpl length in Hf.
  destruct (Z.eqb_spec c1 0) as [->|Hc10]; [exact Hfin|].
  rewrite saved_cons2 in Hcap. change (61 =? 0) with false in Hcap. change (61 =? 61) with true in Hcap.
  cbn match in Hcap. simpl length in Hcap.
  destruct (Z.ltb_spec (hexval c1) 16) as [Hh|Hh].
  - replace (Z.of_nat (length (c1 :: rest)) - 1) with (Z.of_nat (length rest)) by (simpl length; lia).
    destruct rest as [|c2 rest]; [by exists QPNull|].
    rewrite (proj2 (Z.eqb_neq _ 0)) by (simpl length; lia). qp_step.
    apply Forall_cons in Hb as [Hc2 Hb].
    destruct (Z.leb_spec 16 (hexval c2)) as [Hl|Hl]; [by exists QPNull|].
    destruct (hexval_plain c2 Hc2) as [Hc20 Hc261]; [lia|].
    rewrite saved_skip in Hcap by done. simpl length in Hcap, Hf.
    replace (Z.of_nat (length (c2 :: rest)) - 1) with (Z.of_nat (length rest)) by (simpl length; lia).
    rewrite emit_fits by (pose proof (saved_bounds rest); simpl; lia). qp_step.
    apply IH; [simpl; lia|done|done|lia|rewrite length_app; simpl; lia].
  - destruct (Z.ltb_spec (hexval c1) 64) as [H64|H64]; [|by exists QPNull].
    destruct (blanks_ok (c1 :: rest) (length ((c1 :: rest) ++ [0])) (hexval c1))
      as [Hn|(c2 & r2 & Hr & Hb2 & Hl2 & Ha & Hb' & Hs)];
      [by constructor|rewrite length_app; simpl; lia|exists c1, rest; split; [done|]; split; [done|lia]
      |simpl app in Hn; rewrite Hn; by exists QPNull|].
    simpl app in Hr. rewrite Hr. qp_step.
    apply Forall_cons in Hb2 as [Hc2 Hb2]. simpl length in Hl2.
    destruct (hexval_plain c1 Hc1) as [_ Hc161]; [lia|].
    destruct (hexval_plain c2 Hc2 Ha) as [Hc20 Hc261].
    rewrite !saved_skip in Hs by done.
    replace (Z.of_nat (S (length r2)) - 1) with (Z.of_nat (length r2)) by lia.
    destruct ((c2 =? 13) && (2 <=? Z.of_nat (S (length r2)))) eqn:Ecr.
    + apply andb_true_iff in Ecr as [_ Hi%Z.leb_le]. destruct r2 as [|c3 r3]; [simpl in Hi; lia|].
      qp_step.
      apply Forall_cons in Hb2 as [Hc3 Hb3]. simpl length in Hl2.
      destruct (Z.eqb_spec c3 10) as [->|_].
      * rewrite saved_skip in Hs by done.
        replace (Z.of_nat (S (length (10 :: r3))) - 2) with (Z.of_nat (length r3)) by (simpl length; lia).
        apply IH; [simpl; lia|done|done|lia|lia].
      * apply (IH (length (c3 :: r3)) ltac:(simpl in *; lia) (c3 :: r3) eq_refl);
          [by constructor|simpl in *; lia|simpl length in *; lia].
    + qp_step. apply IH; [simpl in *; lia|done|done|lia|lia].
Qed.

(** The decoder of the PHP function, which stops at the first NUL. *)
Lemma skip_blanks_app rest : exists k, skip_blanks (rest ++ [0]) = drop k rest ++ [0] /\ (k <= length rest)%nat.
Proof.
  induction rest as [|c rest (k & IH & Hk)]; [by exists 0%nat|]. simpl.
  destruct ((c =? 32) || (c =? 9)); [exists (S k)|exists 0%nat]; simpl; split; done || lia.
Qed.

Lemma qpd_loop_ok n : forall rest fuel cap out, (length rest <= n)%nat -> (length rest < fuel)%nat ->
  Z.of_nat (length out) + Z.of_nat (length rest) + 1 <= cap ->
  exists out', qpd_loop fuel cap (rest ++ [0]) out = Some out' /\ Z.of_nat (length out') + 1 <= cap.
Proof.
  induction n as [|n IH]; intros rest fuel cap out Hn Hf Hcap.
  all: destruct fuel as [|fuel]; [lia|].
  all: assert (Hfin : exists out', (_ ← emit cap [0] out; Some out) = Some out' /\ Z.of_nat (length out') + 1 <= cap)
    by (rewrite emit_fits by (simpl; lia); eexists; split; [done|lia]).
  all: destruct rest as [|c rest]; [exact Hfin|].
  { simpl in Hn; lia. }
  cbn [qpd_loop]. qp_step. simpl length in *.
  assert (Hput : forall x r, (length r <= length rest)%nat ->
    exists out', (str_out ← emit cap [x] out; qpd_loop fuel cap (r ++ [0]) str_out) = Some out'
      /\ Z.of_nat (length out') + 1 <= cap).
  { intros x r Hr. rewrite emit_fits by (simpl; lia). qp_step. apply IH; [lia|lia|]. rewrite length_app. simpl. lia. }
  destruct (c =? 0); [exact Hfin|]. destruct (c =? 61); [|by apply Hput].
  assert (Hsoft : exists out',
    (let q := skip_blanks (rest ++ [0]) in
     c ← head q;
     if c =? 0 then qpd_loop fuel cap q out
     else
       crlf ← (if c =? 13 then c1 ← head (drop 1 q); Some (c1 =? 10) else Some false);
       if crlf : bool then qpd_loop fuel cap (drop 2 q) out
       else if (c =? 13) || (c =? 10) then qpd_loop fuel cap (drop 1 q) out
       else str_out ← emit cap [61] out; qpd_loop fuel cap (rest ++ [0]) str_out) = Some out'
    /\ Z.of_nat (length out') + 1 <= cap).
  { cbv zeta. destruct (skip_blanks_app rest) as (k & -> & Hk).
    pose proof (length_drop rest k) as Hd. destruct (drop k rest) as [|d r]; simpl length in Hd.
    - qp_step. apply (IH [] fuel cap out); simpl; lia.
    - qp_step. destruct (d =? 0); [apply (IH (d :: r)); simpl; lia|].
      destruct (d =? 13) eqn:E13.
      + destruct r as [|d1 r]; simpl length in Hd; qp_step.
        * change (0 =? 10) with false. cbn [orb]. apply (IH [] fuel cap out); simpl; lia.
        * cbn [orb]. destruct (d1 =? 10); [apply IH; lia|apply (IH (d1 :: r)); simpl; lia].
      + qp_step. destruct (false || (d =? 10)); [apply IH; lia|by apply Hput]. }
  destruct rest as [|c1 rest]; qp_step; [exact Hsoft|].
  destruct (c1 =? 0); [exact Hsoft|].
  destruct rest as [|c2 rest]; qp_step; [exact Hsoft|].
  destruct (negb (c2 =? 0) && isxdigit c1 && isxdigit c2); [|exact Hsoft].
  apply Hput. simpl. lia.
Qed.

(** ** The encoder *)

(** [e] is a quoted-printable form of [s]. *)
Inductive encodes : list Z -> list Z -> Prop :=
| enc_nil : encodes [] []
| enc_soft s e : encodes s e -> encodes s (61 :: 13 :: 10 :: e)
| enc_esc c s e : is_byte c -> encodes s e ->
    encodes (c :: s) (61 :: hexchar (Z.shiftr c 4) :: hexchar (Z.land c 15) :: e)
| enc_lit c s e : c <> 0 -> c <> 61 -> encodes s e -> encodes (c :: s) (c :: e).

(** Every line of [e] has at most 76 characters, [col] of the first being
    there already. *)
Fixpoint lines_ok (col : Z) (e : list Z) : bool :=
  match e with
  | [] => col <=? 76
  | c :: e' =>
      match e' with
      | d :: e'' => if (c =? 13) && (d =? 10) then (col <=? 76) && lines_ok 0 e''
                    else lines_ok (col + 1) e'
      | [] => col + 1 <=? 76
      end
  end.

Lemma lines_ok_lit c col e : c <> 13 -> lines_ok col (c :: e) = lines_ok (col + 1) e.
Proof. intros Hc. simpl. destruct e; [done|]. by rewrite (proj2 (Z.eqb_neq c 13)). Qed.

Definition hexchar_facts (c : Z) : bool :=
  let h := hexchar (Z.shiftr c 4) in let l := hexchar (Z.land c 15) in
  (Z.lor (Z.shiftl (hexval h) 4) (hexval l) =? c) && (hexval h <? 16) && (hexval l <? 16)
  && isxdigit h && isxdigit l
  && (to_uchar (Z.shiftl (php_hex2int h) 4 + php_hex2int l) =? c)
  && negb (h =? 0) && negb (l =? 0) && negb (l =? 61) && negb (h =? 13) && negb (l =? 13)
  && (iscntrl c || (c =? 127) || negb (Z.land c 128 =? 0) || (c <=? 127)).
Lemma hexchar_all c : 0 <= c < 256 -> hexchar_facts c = true.
Proof. apply all_bytes. vm_compute. reflexivity. Qed.

Record hexed (c h l : Z) : Prop := {
  hx_val : Z.lor (Z.shiftl (hexval h) 4) (hexval l) = c;
  hx_h : hexval h < 16; hx_l : hexval l < 16;
  hx_xh : isxdigit h = true; hx_xl : isxdigit l = true;
  hx_fn : to_uchar (Z.shiftl (php_hex2int h) 4 + php_hex2int l) = c;
  hx_h0 : h <> 0; hx_l0 : l <> 0; hx_l61 : l <> 61; hx_h13 : h <> 13; hx_l13 : l <> 13
}.
Lemma hexchar_hexed c : is_byte c -> hexed c (hexchar (Z.shiftr c 4)) (hexchar (Z.land c 15)).
Proof.
  intros Hc%hexchar_all. unfold hexchar_facts in Hc. repeat rewrite andb_true_iff in Hc.
  rewrite !negb_true_iff, !Z.eqb_neq, !Z.eqb_eq, !Z.ltb_lt in Hc. destruct_and! Hc. by split.
Qed.

Section EncodeThms.
Context `{Platform}.

Lemma to_ulong_le z : 0 <= z -> 0 <= to_ulong z <= z.
Proof. intros Hz. pose proof (to_ulong_range z). split; [lia|]. apply Z.mod_le; [lia|]. destruct LONG_BITS_cases as [-> | ->]; lia. Qed.

Lemma small_ulong z : 0 <= z <= 2 ^ 31 -> to_ulong z = z.
Proof. intros Hz. apply to_ulong_small. destruct LONG_BITS_cases as [-> | ->]; lia. Qed.

Lemma break_needs c lp : break_before_escape c lp = true -> 67 <= lp.
Proof.
  unfold break_before_escape, PHP_QPRINT_MAXL.
  destruct (Z.ltb_spec 75 lp); [lia|]. cbn [andb orb].
  destruct (Z.ltb_spec 75 (lp + 3)); [lia|]. rewrite andb_false_r. cbn [orb].
  destruct (Z.ltb_spec 75 (lp + 6)); [lia|]. rewrite andb_false_r. cbn [orb].
  destruct (Z.ltb_spec 75 (lp + 9)); [lia|]. by rewrite andb_false_r.
Qed.

Lemma break_on_time c lp : 0 <= c <= 244 -> break_before_escape c lp = false -> lp <= 75.
Proof.
  intros Hc. unfold break_before_escape, PHP_QPRINT_MAXL.
  destruct (Z.ltb_spec 75 lp) as [Hlp|]; [|lia].
  rewrite !(proj2 (Z.ltb_lt 75 _)) by lia. rewrite !andb_true_r.
  destruct (Z.leb_spec c 127); [done|]. rewrite (proj2 (Z.ltb_lt 127 c)) by lia. cbn [andb orb].
  destruct (Z.leb_spec c 223); [done|]. rewrite (proj2 (Z.ltb_lt 223 c)) by lia. cbn [andb orb].
  destruct (Z.leb_spec c 239); [done|]. rewrite (proj2 (Z.ltb_lt 239 c)) by lia. cbn [andb orb].
  destruct (Z.leb_spec c 244); [done|]. lia.
Qed.

(** [m] characters have been written since the last soft line break: there is
    room for one break in 22 characters. *)
Definition room (m n : Z) : Z := 3 * n + 3 * ((m + n) / 22).

Lemma room_next m n : room (m + 1) n + 3 = room m (n + 1).
Proof. unfold room. replace (m + 1 + n) with (m + (n + 1)) by lia. lia. Qed.
Lemma room_break m n : 0 <= n -> 21 <= m -> room 0 n + 6 <= room m (n + 1).
Proof. intros Hn Hm. unfold room. Z.to_euclidean_division_equations. lia. Qed.
Lemma room_reset m n : 0 <= m -> 0 <= n -> room 0 n + 6 <= room m (n + 2).
Proof. intros Hm Hn. unfold room. Z.to_euclidean_division_equations. lia. Qed.
Lemma room_nonneg m n : 0 <= m -> 0 <= n -> 0 <= room m n.
Proof. intros Hm Hn. unfold room. Z.to_euclidean_division_equations. lia. Qed.

Definition encoded_ok (lp bound : Z) (s : list Z) (e : list Z) : Prop :=
  encodes s e /\ Z.of_nat (length e) <= bound
  /\ (Forall (fun c => c <= 244) s -> lp <= 75 -> lines_ok lp e = true).

(** Writing the code [x] of a character, after a soft line break if [brk]. *)
Lemma encoded_step (brk : bool) (x : list Z) c s e lp lp' m n :
  (forall e, encodes s e -> encodes (c :: s) (x ++ e)) ->
  (forall col e, lines_ok col (x ++ e) = lines_ok (col + Z.of_nat (length x)) e) ->
  (length x <= 3)%nat -> 0 <= n -> (brk = true -> 21 <= m) ->
  (lp <= 75 -> c <= 244 -> lp' = (if brk then 0 else lp) + Z.of_nat (length x) /\ lp' <= 75) ->
  encoded_ok lp' (room (if brk then 0 else m + 1) n) s e ->
  encoded_ok lp (room m (n + 1)) (c :: s) ((if brk then [61; 13; 10] else []) ++ x ++ e).
Proof.
  intros Henc Hlines Hx Hn Hm Hlp (He & Hl & Hli). split; [|split].
  - destruct brk; simpl; [apply enc_soft|]; by apply Henc.
  - rewrite !length_app. pose proof (room_next m n). destruct brk; simpl length; [|lia].
    pose proof (room_break m n Hn (Hm eq_refl)). lia.
  - intros [Hc Hs]%Forall_cons Hle. destruct (Hlp Hle Hc) as [-> H75]. specialize (Hli Hs H75).
    destruct brk; simpl app; [|by rewrite Hlines].
    rewrite lines_ok_lit by done. cbn [lines_ok]. change ((13 =? 13) && (10 =? 10)) with true. cbn match.
    rewrite Hlines, Hli, (proj2 (Z.leb_le _ _)) by lia. done.
Qed.

(** The loop on [s], from any output position and column. *)
Definition loop_ok (fuel : nat) (s : list Z) : Prop :=
  forall cap d lp m, 0 <= m -> 0 <= lp <= 3 * m + 3 ->
  Z.of_nat (length d) + room m (Z.of_nat (length s)) + 1 <= cap ->
  exists e, qp_encode_loop fuel cap (Z.of_nat (length s)) (s ++ [0]) d lp = Some (d ++ e)
    /\ encoded_ok lp (room m (Z.of_nat (length s))) s e.

Lemma emit_char fuel (brk : bool) (x : list Z) c s cap d lp lp' m :
  loop_ok fuel s ->
  (forall e, encodes s e -> encodes (c :: s) (x ++ e)) ->
  (forall col e, lines_ok col (x ++ e) = lines_ok (col + Z.of_nat (length x)) e) ->
  (length x <= 3)%nat -> 0 <= m -> (brk = true -> 21 <= m) ->
  (lp <= 75 -> c <= 244 -> lp' = (if brk then 0 else lp) + Z.of_nat (length x) /\ lp' <= 75) ->
  0 <= lp' <= 3 * (if brk then 0 else m + 1) + 3 ->
  Z.of_nat (length d) + room m (Z.of_nat (length s) + 1) + 1 <= cap ->
  exists e, (d ← emit cap (if brk then [61; 13; 10] else []) d; d ← emit cap x d;
    qp_encode_loop fuel cap (Z.of_nat (length s)) (s ++ [0]) d lp') = Some (d ++ e)
    /\ encoded_ok lp (room m (Z.of_nat (length s) + 1)) (c :: s) e.
Proof.
  intros IH H1 H2 H3 Hm H4 H5 H6 Hcap. set (sb := if brk then [61; 13; 10] else []).
  set (m' := if brk then 0 else m + 1).
  assert (Hroom : room m' (Z.of_nat (length s)) + Z.of_nat (length sb) + 3 <= room m (Z.of_nat (length s) + 1)).
  { pose proof (room_next m (Z.of_nat (length s))). unfold m', sb. destruct brk; simpl length; [|lia].
    pose proof (room_break m (Z.of_nat (length s)) ltac:(lia) (H4 eq_refl)). lia. }
  assert (Hm' : 0 <= m') by (unfold m'; destruct brk; lia).
  pose proof (room_nonneg m' (Z.of_nat (length s)) Hm' ltac:(lia)).
  rewrite emit_fits by lia. qp_step. rewrite emit_fits by (rewrite length_app; lia). qp_step.
  destruct (IH cap ((d ++ sb) ++ x) lp' m') as (e & -> & He); [done|done|rewrite !length_app; lia|].
  exists (sb ++ x ++ e). split; [by rewrite <- !app_assoc|].
  apply (encoded_step brk x c s e lp lp'); auto; lia.
Qed.

Lemma emit_crlf fuel s cap d lp m :
  loop_ok fuel s -> 0 <= m ->
  Z.of_nat (length d) + room m (Z.of_nat (length s) + 2) + 1 <= cap ->
  exists e, (d ← emit cap [13; 10] d;
    qp_encode_loop fuel cap (Z.of_nat (length s)) (s ++ [0]) d 0) = Some (d ++ e)
    /\ encoded_ok lp (room m (Z.of_nat (length s) + 2)) (13 :: 10 :: s) e.
Proof.
  intros IH Hm Hcap. pose proof (room_reset m (Z.of_nat (length s)) Hm ltac:(lia)) as Hr.
  pose proof (room_nonneg 0 (Z.of_nat (length s)) ltac:(lia) ltac:(lia)).
  rewrite emit_fits by (simpl; lia). qp_step.
  destruct (IH cap (d ++ [13; 10]) 0 0) as (e & -> & He & Hl & Hli); [lia|lia|rewrite length_app; simpl; lia|].
  exists (13 :: 10 :: e). split; [by rewrite <- app_assoc|]. split; [by repeat constructor|].
  split; [simpl length; lia|]. intros [_ [_ Hs]%Forall_cons]%Forall_cons Hle. cbn [lines_ok].
  change ((13 =? 13) && (10 =? 10)) with true. cbn match. rewrite (proj2 (Z.leb_le _ _)) by lia.
  apply Hli; [done|lia].
Qed.

Lemma emit_escape fuel c s cap d lp m :
  loop_ok fuel s -> is_byte c -> 0 <= m -> 0 <= lp <= 3 * m + 3 ->
  Z.of_nat (length d) + room m (Z.of_nat (length s) + 1) + 1 <= cap ->
  let lp' := to_ulong (lp + 3) in
  let brk := break_before_escape c lp' in
  exists e, (d ← emit cap (if brk then [61; 13; 10] else []) d;
    d ← emit cap (61 :: [hexchar (Z.shiftr c 4); hexchar (Z.land c 15)]) d;
    qp_encode_loop fuel cap (Z.of_nat (length s)) (s ++ [0]) d (if brk then 3 else lp')) = Some (d ++ e)
    /\ encoded_ok lp (room m (Z.of_nat (length s) + 1)) (c :: s) e.
Proof.
  intros IH Hc Hm Hlp Hcap lp' brk. pose proof (hexchar_hexed c Hc) as Hx.
  pose proof (to_ulong_le (lp + 3) ltac:(lia)) as Hu. fold lp' in Hu.
  apply emit_char; try done; try (simpl; lia).
  - intros e He. by apply enc_esc.
  - intros col e. cbn [app length]. rewrite !lines_ok_lit by (done || apply Hx). f_equal. lia.
  - intros Hbrk%break_needs. lia.
  - intros H75 H244. simpl length. subst brk. destruct (break_before_escape c lp') eqn:E; [lia|].
    apply break_on_time in E; [|unfold is_byte in Hc; lia]. assert (lp' = lp + 3) by (apply small_ulong; lia). lia.
  - destruct brk; lia.
Qed.

Lemma emit_plain fuel c s cap d lp m :
  loop_ok fuel s -> c <> 0 -> c <> 13 -> c <> 61 -> 0 <= m -> 0 <= lp <= 3 * m + 3 ->
  Z.of_nat (length d) + room m (Z.of_nat (length s) + 1) + 1 <= cap ->
  let lp' := to_ulong (lp + 1) in
  let brk := PHP_QPRINT_MAXL <? lp' in
  exists e, (d ← emit cap (if brk then [61; 13; 10] else []) d; d ← emit cap [c] d;
    qp_encode_loop fuel cap (Z.of_nat (length s)) (s ++ [0]) d (if brk then 1 else lp')) = Some (d ++ e)
    /\ encoded_ok lp (room m (Z.of_nat (length s) + 1)) (c :: s) e.
Proof.
  intros IH Hc0 Hc13 Hc61 Hm Hlp Hcap lp' brk.
  pose proof (to_ulong_le (lp + 1) ltac:(lia)) as Hu. fold lp' in Hu.
  apply emit_char; try done; try (simpl; lia).
  - intros e He. by apply enc_lit.
  - intros col e. cbn [app length]. by rewrite lines_ok_lit.
  - intros Hbrk%Z.ltb_lt. unfold PHP_QPRINT_MAXL in Hbrk. lia.
  - intros H75 _. simpl length. unfold brk, PHP_QPRINT_MAXL. destruct (Z.ltb_spec 75 lp'); [lia|].
    assert (lp' = lp + 1) by (apply small_ulong; lia). lia.
  - destruct brk; lia.
Qed.

Lemma encode_loop_ok n : forall s fuel, (length s <= n)%nat -> Forall is_byte s ->
  (length s <= fuel)%nat -> loop_ok fuel s.
Proof.
  induction n as [|n IH]; intros s fuel Hn Hb Hf cap d lp m Hm Hlp Hcap.
  all: pose proof (room_nonneg m (Z.of_nat (length s)) Hm ltac:(lia)) as Hr0.
  all: destruct s as [|c s].
  1, 3: exists []; rewrite app_nil_r; split; [destruct fuel; simpl; by rewrite emit_fits by (simpl; lia)|];
    split; [constructor|]; split; [simpl in *; lia|]; intros _ Hle; simpl; apply Z.leb_le; lia.
  { simpl in Hn. lia. }
  destruct fuel as [|fuel]; [simpl in Hf; lia|]. simpl length in *.
  apply Forall_cons in Hb as [Hc Hb]. cbn [qp_encode_loop]. qp_step.
  rewrite (proj2 (Z.eqb_neq _ 0)) by lia.
  replace (Z.of_nat (S (length s)) - 1) with (Z.of_nat (length s)) by lia.
  replace (Z.of_nat (S (length s))) with (Z.of_nat (length s) + 1) in * by lia.
  assert (Hs : loop_ok fuel s) by (apply IH; [lia|done|lia]).
  pose proof (emit_escape fuel c s cap d lp m Hs Hc Hm Hlp Hcap) as Hesc.
  destruct (Z.eqb_spec c 13) as [->|Hc13].
  - destruct s as [|c1 s]; qp_step; [exact Hesc|].
    rewrite (proj2 (Z.ltb_lt 0 _)) by (simpl; lia). rewrite andb_true_r.
    destruct (Z.eqb_spec c1 10) as [->|]; [|exact Hesc].
    replace (Z.of_nat (length (10 :: s)) - 1) with (Z.of_nat (length s)) by (simpl; lia).
    replace (Z.of_nat (length (10 :: s)) + 1) with (Z.of_nat (length s) + 2) in * by (simpl; lia).
    apply Forall_cons in Hb as [_ Hb].
    apply emit_crlf; [apply IH; [simpl in *; lia|done|simpl in *; lia]|done|done].
  - qp_step.
    destruct (iscntrl c || (c =? 127) || negb (Z.land c 128 =? 0) || (c =? 61)) eqn:Eesc; qp_step; [exact Hesc|].
    apply orb_false_iff in Eesc as [Eesc Hc61%Z.eqb_neq].
    apply orb_false_iff in Eesc as [Eesc _]. apply orb_false_iff in Eesc as [Ecntrl _].
    assert (Hplain : c <> 0) by (intros ->; done).
    pose proof (emit_plain fuel c s cap d lp m Hs Hplain Hc13 Hc61 Hm Hlp Hcap) as Hpl.
    destruct (c =? 32); [|exact Hpl].
    destruct s as [|c1 s]; qp_step; [exact Hpl|]. destruct (c1 =? 13); [exact Hesc|exact Hpl].
Qed.
End EncodeThms.

(** ** Round trip *)
Lemma decode_encodes s e : encodes s e -> forall fuel cap p2, (length e <= fuel)%nat ->
  Z.of_nat (length p2) + Z.of_nat (length e) - saved e + 1 <= cap ->
  qp_decode_loop fuel cap 0 (Z.of_nat (length e)) (e ++ [0]) p2 = Some (QPDecoded (p2 ++ s)).
Proof.
  induction 1 as [|s e He IH|c s e Hc He IH|c s e Hc0 Hc61 He IH]; intros fuel cap p2 Hf Hcap.
  - rewrite app_nil_r. simpl in Hcap. destruct fuel; simpl; unfold finish; by rewrite emit_fits by (simpl; lia).
  - destruct fuel as [|fuel]; [simpl in Hf; lia|]. simpl length in *. cbn [qp_decode_loop]. qp_step.
    rewrite (proj2 (Z.ltb_lt 0 _)), (proj2 (Z.eqb_neq (Z.of_nat _ - 1) 0)) by lia.
    change (61 =? 0) with false. change (61 =? 61) with true. change (13 =? 0) with false. cbn match.
    change (hexval 13) with 16. change (16 <? 16) with false. change (16 <? 64) with true. cbn match.
    simpl length. cbn [blanks_loop]. change (16 =? 32) with false. qp_step.
    change (13 =? 13) with true. rewrite (proj2 (Z.leb_le 2 _)) by lia. qp_step.
    change (10 =? 10) with true. cbn match. cbn [andb]. qp_step.
    replace (Z.of_nat (S (S (S (length e)))) - 1 - 2) with (Z.of_nat (length e)) by lia.
    apply IH; [lia|]. rewrite saved_cons2 in Hcap. change (61 =? 0) with false in Hcap.
    change (61 =? 61) with true in Hcap. cbn match in Hcap. rewrite saved_skip in Hcap by done. lia.
  - pose proof (hexchar_hexed c Hc) as [Hv Hh Hl _ _ _ Hh0 Hl0 Hl61 _ _].
    set (h := hexchar (Z.shiftr c 4)) in *. set (l := hexchar (Z.land c 15)) in *.
    rewrite saved_cons2 in Hcap. change (61 =? 0) with false in Hcap.
    change (61 =? 61) with true in Hcap. cbn match in Hcap. rewrite saved_skip in Hcap by done.
    pose proof (saved_bounds e).
    destruct fuel as [|fuel]; [simpl in Hf; lia|]. simpl length in *. cbn [qp_decode_loop]. qp_step.
    rewrite (proj2 (Z.ltb_lt 0 _)), !(proj2 (Z.eqb_neq (Z.of_nat _ - 1) 0)) by lia.
    change (61 =? 0) with false. change (61 =? 61) with true. cbn match.
    rewrite (proj2 (Z.eqb_neq h 0)), (proj2 (Z.ltb_lt (hexval h) 16)) by done.
    rewrite (proj2 (Z.eqb_neq (_ - 1 - 1) 0)) by lia. rewrite (proj2 (Z.leb_gt 16 (hexval l))) by done.
    rewrite Hv, emit_fits by (simpl; lia). qp_step.
    replace (Z.of_nat (S (S (S (length e)))) - 1 - 1 - 1) with (Z.of_nat (length e)) by lia.
    rewrite IH; [by rewrite <- app_assoc|lia|rewrite length_app; simpl; lia].
  - rewrite saved_skip in Hcap by done. pose proof (saved_bounds e).
    destruct fuel as [|fuel]; [simpl in Hf; lia|]. simpl length in *. cbn [qp_decode_loop]. qp_step.
    rewrite (proj2 (Z.ltb_lt 0 _)), (proj2 (Z.eqb_neq c 0)), (proj2 (Z.eqb_neq c 61)) by (done || lia).
    rewrite (proj2 (Z.eqb_neq 0 c)) by done. rewrite emit_fits by (simpl; lia). qp_step.
    replace (Z.of_nat (S (length e)) - 1) with (Z.of_nat (length e)) by lia.
    rewrite IH; [by rewrite <- app_assoc|lia|rewrite length_app; simpl; lia].
Qed.

Lemma qpd_encodes s e : encodes s e -> forall fuel cap out, (length e < fuel)%nat ->
  Z.of_nat (length out) + Z.of_nat (length e) + 1 <= cap ->
  qpd_loop fuel cap (e ++ [0]) out = Some (out ++ s).
Proof.
  induction 1 as [|s e He IH|c s e Hc He IH|c s e Hc0 Hc61 He IH]; intros fuel cap out Hf Hcap;
    (destruct fuel as [|fuel]; [simpl in Hf; lia|]); simpl length in *; cbn [qpd_loop]; qp_step.
  - change (0 =? 0) with true. cbn match. rewrite emit_fits by (simpl; lia). by rewrite app_nil_r.
  - change (61 =? 0) with false. change (61 =? 61) with true. change (13 =? 0) with false. cbn match. qp_step.
    change (isxdigit 13) with false. rewrite andb_false_r. cbn [andb]. cbn [skip_blanks].
    change ((13 =? 32) || (13 =? 9)) with false. qp_step. change (13 =? 0) with false.
    change (13 =? 13) with true. cbn match. qp_step. change (10 =? 10) with true. cbn match.
    apply IH; lia.
  - pose proof (hexchar_hexed c Hc) as [_ _ _ Hxh Hxl Hv Hh0 Hl0 _ _ _].
    change (61 =? 0) with false. change (61 =? 61) with true. cbn match.
    rewrite (proj2 (Z.eqb_neq _ 0) Hh0). qp_step. rewrite (proj2 (Z.eqb_neq _ 0) Hl0), Hxh, Hxl, Hv. cbn [andb negb].
    rewrite emit_fits by (simpl; lia). qp_step.
    rewrite IH; [by rewrite <- app_assoc|lia|rewrite length_app; simpl; lia].
  - rewrite (proj2 (Z.eqb_neq c 0)), (proj2 (Z.eqb_neq c 61)) by done.
    rewrite emit_fits by (simpl; lia). qp_step.
    rewrite IH; [by rewrite <- app_assoc|lia|rewrite length_app; simpl; lia].
Qed.

(** Both quoted-printable decoders are safe on every string: they end, read
    only the string and its terminating NUL, and write only inside the buffer
    they allocate, although [php_quot_print_decode] makes it two bytes shorter
    for each "=" it counts in a first pass, that is, before it knows which of
    them are escapes and which are soft line breaks.  What they return is at
    most as long as the string. *)
Theorem quot_print_decode_safe (s : list Z) (us : bool) :
  Forall is_byte s -> Z.of_nat (length s) < 2 ^ 32 ->
  (exists r, php_quot_print_decode (s ++ [0]) (Z.of_nat (length s)) us = Some r
     /\ match r with QPNull => True | QPDecoded out => (length out <= length s)%nat end)
  /\ (exists out, quoted_printable_decode (s ++ [0]) (Z.of_nat (length s)) = Some out
     /\ (length out <= length s)%nat).
Proof.
  intros Hs Hl. split.
  - unfold php_quot_print_decode. rewrite to_uint_small by lia. pose proof (saved_bounds s).
    rewrite measure_ok by (rewrite ?length_app; simpl; lia). qp_step.
    destruct (decode_loop_ok s (length (s ++ [0])) (Z.of_nat (length s) - saved s + 1) (if us then 95 else 0) [])
      as (r & -> & Hr); [done|rewrite length_app; simpl; lia|simpl; lia|].
    exists r. split; [done|]. destruct r; [done|lia].
  - unfold quoted_printable_decode. destruct (Z.eqb_spec (Z.of_nat (length s)) 0); [exists []; split; [done|simpl; lia]|].
    destruct (qpd_loop_ok (length s) s (length (s ++ [0])) (Z.of_nat (length s) + 1) [])
      as (out & -> & Ho); [lia|rewrite length_app; simpl; lia|simpl; lia|].
    exists out. split; [done|lia].
Qed.

(** The string "=" , blanks, "41" and the string "=5=": the second is refused. *)
Lemma quot_print_decode_safe_witness :
  (exists r, php_quot_print_decode ([61; 32; 10; 61; 52; 49] ++ [0]) 6 true = Some r
     /\ match r with QPNull => True | QPDecoded out => (length out <= 6)%nat end)
  /\ php_quot_print_decode ([61; 32; 10; 61; 52; 49] ++ [0]) 6 true = Some (QPDecoded [65])
  /\ php_quot_print_decode [61; 53; 61; 0] 3 true = Some QPNull.
Proof.
  split; [|split; vm_compute; reflexivity].
  apply (quot_print_decode_safe [61; 32; 10; 61; 52; 49] true); [repeat constructor; unfold is_byte; lia|].
  vm_compute. reflexivity.
Defined.

(** C28: quoted-printable round trip: [php_quot_print_encode] stays inside the
    buffer it allocates for every string, both decoders give the string back
    from what it writes, whatever the string contains (NUL, "=", CRLF, bytes
    above 127), and no line of it is longer than the 76 characters of RFC 2045
    as long as no byte is above 0xF4. *)
Theorem quot_print_roundtrip `{Platform} (s : list Z) :
  Forall is_byte s -> 3 * Z.of_nat (length s) + 3 * (Z.of_nat (length s) / 22) < 2 ^ 32 ->
  exists e, php_quot_print_encode (s ++ [0]) (Z.of_nat (length s)) = Some e
    /\ Z.of_nat (length e) <= 3 * Z.of_nat (length s) + 3 * (Z.of_nat (length s) / 22)
    /\ php_quot_print_decode (e ++ [0]) (Z.of_nat (length e)) false = Some (QPDecoded s)
    /\ quoted_printable_decode (e ++ [0]) (Z.of_nat (length e)) = Some s
    /\ (Forall (fun c => c <= 244) s -> lines_ok 0 e = true).
Proof.
  intros Hs Hl.
  assert (Hroom : room 0 (Z.of_nat (length s)) = 3 * Z.of_nat (length s) + 3 * (Z.of_nat (length s) / 22))
    by done.
  destruct (encode_loop_ok (length s) s (length (s ++ [0])) ltac:(lia) Hs ltac:(rewrite length_app; simpl; lia)
    (3 * (Z.of_nat (length s) + ((3 * Z.of_nat (length s)) / (PHP_QPRINT_MAXL - 9) + 1)) + 1) [] 0 0)
    as (e & He & Henc & Hle & Hli); [lia|lia| |].
  { rewrite Hroom. change (PHP_QPRINT_MAXL - 9) with 66. simpl length. Z.to_euclidean_division_equations. lia. }
  rewrite Hroom in Hle. exists e. split; [exact He|]. split; [exact Hle|]. pose proof (saved_bounds e).
  split; [|split; [|intros H244; apply Hli; [done|lia]]].
  - unfold php_quot_print_decode. rewrite to_uint_small by lia.
    rewrite measure_ok by (rewrite ?length_app; simpl; lia). qp_step.
    by rewrite (decode_encodes s e) by (done || (rewrite ?length_app; simpl; lia)).
  - unfold quoted_printable_decode. destruct (Z.eqb_spec (Z.of_nat (length e)) 0) as [E|].
    + destruct e; [|simpl in E; lia]. by inversion Henc.
    + by rewrite (qpd_encodes s e) by (done || (rewrite ?length_app; simpl; lia)).
Qed.

(** A space before CRLF is escaped; CRLF itself is not. *)
Lemma quot_print_roundtrip_witness :
  php_quot_print_encode (H := LP64) ([97; 32; 13; 10; 0; 61; 200] ++ [0]) 7
  = Some [97; 61; 50; 48; 13; 10; 61; 48; 48; 61; 51; 68; 61; 67; 56]
  /\ exists e, php_quot_print_encode (H := LP64) ([97; 32; 13; 10; 0; 61; 200] ++ [0]) 7 = Some e
    /\ quoted_printable_decode (e ++ [0]) (Z.of_nat (length e)) = Some [97; 32; 13; 10; 0; 61; 200]
    /\ lines_ok 0 e = true.
Proof.
  split; [vm_compute; reflexivity|].
  destruct (quot_print_roundtrip (H := LP64) [97; 32; 13; 10; 0; 61; 200]) as (e & H1 & _ & _ & H2 & H3);
    [repeat constructor; unfold is_byte; lia|vm_compute; reflexivity|].
  exists e. split; [exact H1|]. split; [exact H2|]. apply H3. repeat constructor; lia.
Defined.

(** Bytes above 0xF4 are never broken over lines: 26 of them give a line of 78
    characters. *)
Example quot_print_long_line :
  exists e, php_quot_print_encode (H := LP64) (replicate 26 255 ++ [0]) 26 = Some e
    /\ length e = 78%nat /\ lines_ok 0 e = false.
Proof. eexists. split; [vm_compute; reflexivity|]. split; vm_compute; reflexivity. Qed.
