(* ===== verification/Calendar.v ===== *)
(** * Calendar: ext/calendar, conversions between calendars and serial day numbers

    gregor.c, julian.c, french.c, jewish.c, dow.c, easter.c and the functions
    of calendar.c and cal_unix.c that work through them.  [int] and [long]
    expressions are computed at their width: an overflow of a signed expression
    is undefined, [None]; a conversion from [long] to [int] wraps.  C division
    truncates: [Z.quot] and [Z.rem]. *)
From S2P Require Import Prelude.

(** [*pYear], [*pMonth], [*pDay]. *)
Definition date : Type := (Z * Z * Z)%type.
Definition no_date : date := (0, 0, 0).

Section Conversions.
Context `{Platform}.

(** ** gregor.c *)
Definition GREGOR_SDN_OFFSET : Z := 32045.
Definition DAYS_PER_5_MONTHS : Z := 153.
Definition DAYS_PER_4_YEARS : Z := 1461.
Definition DAYS_PER_400_YEARS : Z := 146097.

(** The last part of both [SdnToGregorian] and [SdnToJulian]: from the day of
    a year that starts in March to month and day, and from years that start in
    March 4801 B.C. to the numbering without a year 0. *)
Definition finish_date (year dayOfYear : Z) : option date :=
  let temp := dayOfYear * 5 - 3 in
  let month := to_int (Z.quot temp DAYS_PER_5_MONTHS) in
  let day := to_int (Z.quot (Z.rem temp DAYS_PER_5_MONTHS) 5 + 1) in
  '(year, month) ← (if month <? 10 then Some (year, month + 3)
                    else year ← int_value (year + 1); Some (year, month - 9));
  year ← int_value (year - 4800);
  year ← (if year <=? 0 then int_value (year - 1) else Some year);
  Some (year, month, day).

Definition SdnToGregorian (sdn : Z) : option date :=
  if (sdn <=? 0) || (Z.quot (LONG_MAX - 4 * GREGOR_SDN_OFFSET) 4 <? sdn) then Some no_date
  else
    temp ← long_value ((sdn + GREGOR_SDN_OFFSET) * 4 - 1);
    let century := to_int (Z.quot temp DAYS_PER_400_YEARS) in
    let temp := Z.quot (Z.rem temp DAYS_PER_400_YEARS) 4 * 4 + 3 in
    hundreds ← int_value (century * 100);
    let year := to_int (hundreds + Z.quot temp DAYS_PER_4_YEARS) in
    let dayOfYear := to_int (Z.quot (Z.rem temp DAYS_PER_4_YEARS) 4 + 1) in
    finish_date year dayOfYear.

(** "Make year always a positive number" and "Adjust the start of the year",
    common to [GregorianToSdn] and [JulianToSdn]. *)
Definition march_year (inputYear inputMonth : Z) : option (Z * Z) :=
  year ← int_value (if inputYear <? 0 then inputYear + 4801 else inputYear + 4800);
  Some (if 2 <? inputMonth then (year, inputMonth - 3) else (year - 1, inputMonth + 9)).

Definition GregorianToSdn (inputYear inputMonth inputDay : Z) : option Z :=
  if (inputYear =? 0) || (inputYear <? -4714) || (inputMonth <=? 0) || (12 <? inputMonth)
     || (inputDay <=? 0) || (31 <? inputDay) then Some 0
  else if (inputYear =? -4714) && ((inputMonth <? 11) || ((inputMonth =? 11) && (inputDay <? 25)))
  then Some 0
  else
    '(year, month) ← march_year inputYear inputMonth;
    centuries ← int_value (Z.quot year 100 * DAYS_PER_400_YEARS);
    int_value (Z.quot centuries 4
               + Z.quot (Z.rem year 100 * DAYS_PER_4_YEARS) 4
               + Z.quot (month * DAYS_PER_5_MONTHS + 2) 5
               + inputDay - GREGOR_SDN_OFFSET).

(** ** julian.c *)
Definition JULIAN_SDN_OFFSET : Z := 32083.

Definition SdnToJulian (sdn : Z) : option date :=
  if sdn <=? 0 then Some no_date
  else if (Z.quot (LONG_MAX - JULIAN_SDN_OFFSET * 4 + 1) 4 <? sdn) || (sdn <? Z.quot LONG_MIN 4)
  then Some no_date
  else
    temp ← long_value (sdn * 4 + (JULIAN_SDN_OFFSET * 4 - 1));
    let yearl := Z.quot temp DAYS_PER_4_YEARS in
    if (INT_MAX <? yearl) || (yearl <? INT_MIN) then Some no_date
    else
      let dayOfYear := to_int (Z.quot (Z.rem temp DAYS_PER_4_YEARS) 4 + 1) in
      finish_date yearl dayOfYear.

Definition JulianToSdn (inputYear inputMonth inputDay : Z) : option Z :=
  if (inputYear =? 0) || (inputYear <? -4713) || (inputMonth <=? 0) || (12 <? inputMonth)
     || (inputDay <=? 0) || (31 <? inputDay) then Some 0
  else if (inputYear =? -4713) && ((inputMonth =? 1) && (inputDay =? 1)) then Some 0
  else
    '(year, month) ← march_year inputYear inputMonth;
    days4 ← int_value (year * DAYS_PER_4_YEARS);
    int_value (Z.quot days4 4
               + Z.quot (month * DAYS_PER_5_MONTHS + 2) 5
               + inputDay - JULIAN_SDN_OFFSET).

(** ** french.c *)
Definition FRENCH_SDN_OFFSET : Z := 2375474.
Definition DAYS_PER_MONTH : Z := 30.
Definition FIRST_VALID : Z := 2375840.
Definition LAST_VALID : Z := 2380952.

Definition SdnToFrench (sdn : Z) : option date :=
  if (sdn <? FIRST_VALID) || (LAST_VALID <? sdn) then Some no_date
  else
    let temp := (sdn - FRENCH_SDN_OFFSET) * 4 - 1 in
    let year := Z.quot temp DAYS_PER_4_YEARS in
    let dayOfYear := Z.quot (Z.rem temp DAYS_PER_4_YEARS) 4 in
    Some (year, Z.quot dayOfYear DAYS_PER_MONTH + 1, Z.rem dayOfYear DAYS_PER_MONTH + 1).

Definition FrenchToSdn (year month day : Z) : option Z :=
  if (year <? 1) || (14 <? year) || (month <? 1) || (13 <? month) || (day <? 1) || (30 <? day)
  then Some 0
  else Some (Z.quot (year * DAYS_PER_4_YEARS) 4 + (month - 1) * DAYS_PER_MONTH + day
             + FRENCH_SDN_OFFSET).

(** ** dow.c *)
Definition DayOfWeek (sdn : Z) : option Z :=
  n ← long_value (sdn + 1);
  let dow := Z.rem n 7 in
  Some (if 0 <=? dow then dow else dow + 7).
End Conversions.

(** ** jewish.c *)
Section Jewish.
Context `{Platform}.

Definition HALAKIM_PER_HOUR : Z := 1080.
Definition HALAKIM_PER_DAY : Z := 25920.
Definition HALAKIM_PER_LUNAR_CYCLE : Z := 29 * HALAKIM_PER_DAY + 13753.
Definition HALAKIM_PER_METONIC_CYCLE : Z := HALAKIM_PER_LUNAR_CYCLE * (12 * 19 + 7).
Definition JEWISH_SDN_OFFSET : Z := 347997.
Definition JEWISH_SDN_MAX : Z := 324542846.
Definition NEW_MOON_OF_CREATION : Z := 31524.
Definition SUNDAY : Z := 0.
Definition MONDAY : Z := 1.
Definition TUESDAY : Z := 2.
Definition WEDNESDAY : Z := 3.
Definition FRIDAY : Z := 5.
Definition NOON : Z := 18 * HALAKIM_PER_HOUR.
Definition AM3_11_20 : Z := 9 * HALAKIM_PER_HOUR + 204.
Definition AM9_32_43 : Z := 15 * HALAKIM_PER_HOUR + 589.

Definition monthsPerYear : list Z :=
  [12; 12; 13; 12; 12; 13; 12; 13; 12; 12; 13; 12; 12; 13; 12; 12; 13; 12; 13].
Definition yearOffset : list Z :=
  [0; 12; 24; 37; 49; 61; 74; 86; 99; 111; 123; 136; 148; 160; 173; 185; 197; 210; 222].

(** [monthsPerYear[i]]: reading outside the array is undefined. *)
Definition months_in (i : Z) : option Z := if i <? 0 then None else monthsPerYear !! Z.to_nat i.
Definition months_before (i : Z) : option Z := if i <? 0 then None else yearOffset !! Z.to_nat i.

Definition Tishri1 (metonicYear moladDay moladHalakim : Z) : Z :=
  let tishri1 := moladDay in
  let dow := Z.rem tishri1 7 in
  let leapYear := (metonicYear =? 2) || (metonicYear =? 5) || (metonicYear =? 7)
    || (metonicYear =? 10) || (metonicYear =? 13) || (metonicYear =? 16) || (metonicYear =? 18) in
  let lastWasLeapYear := (metonicYear =? 3) || (metonicYear =? 6) || (metonicYear =? 8)
    || (metonicYear =? 11) || (metonicYear =? 14) || (metonicYear =? 17) || (metonicYear =? 0) in
  let '(tishri1, dow) :=
    if (NOON <=? moladHalakim)
       || (negb leapYear && (dow =? TUESDAY) && (AM3_11_20 <=? moladHalakim))
       || (lastWasLeapYear && (dow =? MONDAY) && (AM9_32_43 <=? moladHalakim))
    then (tishri1 + 1, if dow + 1 =? 7 then 0 else dow + 1)
    else (tishri1, dow) in
  if (dow =? WEDNESDAY) || (dow =? FRIDAY) || (dow =? SUNDAY) then tishri1 + 1 else tishri1.

(** [r1], [r2], [d1] and [d2] are [unsigned long]; the products with
    [metonicCycle] are [int] products. *)
Definition MoladOfMetonicCycle (metonicCycle : Z) : option (Z * Z) :=
  low ← int_value (metonicCycle * Z.land HALAKIM_PER_METONIC_CYCLE 65535);
  let r1 := to_ulong (NEW_MOON_OF_CREATION + low) in
  high ← int_value (metonicCycle * Z.land (Z.shiftr HALAKIM_PER_METONIC_CYCLE 16) 65535);
  let r2 := to_ulong (Z.shiftr r1 16 + high) in
  let d2 := r2 / HALAKIM_PER_DAY in
  let r2 := to_ulong (r2 - d2 * HALAKIM_PER_DAY) in
  let r1 := Z.lor (to_ulong (Z.shiftl r2 16)) (Z.land r1 65535) in
  let d1 := r1 / HALAKIM_PER_DAY in
  let r1 := to_ulong (r1 - d1 * HALAKIM_PER_DAY) in
  Some (to_long (Z.lor (to_ulong (Z.shiftl d2 16)) d1), to_long r1).

(** [moladHalakim += n; moladDay += moladHalakim / HALAKIM_PER_DAY;
    moladHalakim = moladHalakim % HALAKIM_PER_DAY] *)
Definition add_halakim (n moladDay moladHalakim : Z) : option (Z * Z) :=
  moladHalakim ← long_value (moladHalakim + n);
  moladDay ← long_value (moladDay + Z.quot moladHalakim HALAKIM_PER_DAY);
  Some (moladDay, Z.rem moladHalakim HALAKIM_PER_DAY).

(** [while (moladDay < inputDay - 6940 + 310)] *)
Fixpoint cycle_loop (fuel : nat) (inputDay metonicCycle moladDay moladHalakim : Z) :
    option (Z * Z * Z) :=
  if moladDay <? inputDay - 6940 + 310 then
    match fuel with
    | O => None
    | S fuel =>
        metonicCycle ← int_value (metonicCycle + 1);
        '(moladDay, moladHalakim) ← add_halakim HALAKIM_PER_METONIC_CYCLE moladDay moladHalakim;
        cycle_loop fuel inputDay metonicCycle moladDay moladHalakim
    end
  else Some (metonicCycle, moladDay, moladHalakim).

(** [for (metonicYear = 0; metonicYear < 18; metonicYear++)]: [n] iterations
    are left. *)
Fixpoint year_loop (n : nat) (inputDay metonicYear moladDay moladHalakim : Z) :
    option (Z * Z * Z) :=
  match n with
  | O => Some (metonicYear, moladDay, moladHalakim)
  | S n =>
      if inputDay - 74 <? moladDay then Some (metonicYear, moladDay, moladHalakim)
      else
        months ← months_in metonicYear;
        '(moladDay, moladHalakim) ← add_halakim (HALAKIM_PER_LUNAR_CYCLE * months) moladDay moladHalakim;
        year_loop n inputDay (metonicYear + 1) moladDay moladHalakim
  end.

(** [(metonicCycle, metonicYear, moladDay, moladHalakim)].  Each round of the
    [while] loop adds at least 6939 days to [moladDay], which starts at 0 or
    above: there are at most [inputDay / 6939 + 1] rounds. *)
Definition FindTishriMolad (inputDay : Z) : option (Z * Z * Z * Z) :=
  let metonicCycle := to_int (Z.quot (inputDay + 310) 6940) in
  '(moladDay, moladHalakim) ← MoladOfMetonicCycle metonicCycle;
  '(metonicCycle, moladDay, moladHalakim) ←
    cycle_loop (Z.to_nat (inputDay / 6939 + 1)) inputDay metonicCycle moladDay moladHalakim;
  '(metonicYear, moladDay, moladHalakim) ← year_loop 18 inputDay 0 moladDay moladHalakim;
  Some (metonicCycle, metonicYear, moladDay, moladHalakim).

(** [(metonicYear, moladDay, moladHalakim, tishri1)] *)
Definition FindStartOfYear (year : Z) : option (Z * Z * Z * Z) :=
  year1 ← int_value (year - 1);
  let metonicCycle := Z.quot year1 19 in
  let metonicYear := Z.rem year1 19 in
  '(moladDay, moladHalakim) ← MoladOfMetonicCycle metonicCycle;
  offset ← months_before metonicYear;
  '(moladDay, moladHalakim) ← add_halakim (HALAKIM_PER_LUNAR_CYCLE * offset) moladDay moladHalakim;
  Some (metonicYear, moladDay, moladHalakim, to_int (Tishri1 metonicYear moladDay moladHalakim)).

(** The end of [SdnToJewish]: Heshvan or Kislev, by the length of the year. *)
Definition heshvan_or_kislev (year yearLength day : Z) : date :=
  let heshvan := if (yearLength =? 355) || (yearLength =? 385) then 30 else 29 in
  if day <=? heshvan then (year, 2, to_int day) else (year, 3, to_int (day - heshvan)).

(** Tevet to Adar of a year that ends before [tishri1]; [None] when the day
    lies before Tevet. *)
Definition tevet_to_adar (leap : bool) (year day : Z) : option date :=
  if 0 <? day then Some (year, 7, day)
  else
    let '(month, day) :=
      if leap then
        let '(month, day) := (6, day + 30) in
        if 0 <? day then (month, day) else (month - 1, day + 30)
      else (5, day + 30) in
    if 0 <? day then Some (year, month, day)
    else
      let '(month, day) := (month - 1, day + 29) in
      if 0 <? day then Some (year, month, day) else None.

Definition SdnToJewish (sdn : Z) : option date :=
  if (sdn <=? JEWISH_SDN_OFFSET) || (JEWISH_SDN_MAX <? sdn) then Some no_date
  else
    let inputDay := sdn - JEWISH_SDN_OFFSET in
    '(metonicCycle, metonicYear, day, halakim) ← FindTishriMolad inputDay;
    let tishri1 := to_int (Tishri1 metonicYear day halakim) in
    if tishri1 <=? inputDay then
      year ← int_value (metonicCycle * 19 + metonicYear + 1);
      if inputDay <? tishri1 + 59 then
        if inputDay <? tishri1 + 30 then Some (year, 1, to_int (inputDay - tishri1 + 1))
        else Some (year, 2, to_int (inputDay - tishri1 - 29))
      else
        months ← months_in metonicYear;
        '(day, halakim) ← add_halakim (HALAKIM_PER_LUNAR_CYCLE * months) day halakim;
        let tishri1After := to_int (Tishri1 (Z.rem (metonicYear + 1) 19) day halakim) in
        Some (heshvan_or_kislev year (tishri1After - tishri1) (inputDay - tishri1 - 29))
    else
      year ← int_value (metonicCycle * 19 + metonicYear);
      if tishri1 - 177 <=? inputDay then
        Some (if tishri1 - 30 <? inputDay then (year, 13, to_int (inputDay - tishri1 + 30))
              else if tishri1 - 60 <? inputDay then (year, 12, to_int (inputDay - tishri1 + 60))
              else if tishri1 - 89 <? inputDay then (year, 11, to_int (inputDay - tishri1 + 89))
              else if tishri1 - 119 <? inputDay then (year, 10, to_int (inputDay - tishri1 + 119))
              else if tishri1 - 148 <? inputDay then (year, 9, to_int (inputDay - tishri1 + 148))
              else (year, 8, to_int (inputDay - tishri1 + 178)))
      else
        months ← months_in (Z.rem (year - 1) 19);
        match tevet_to_adar (months =? 13) year (to_int (inputDay - tishri1 + 207)) with
        | Some d => Some d
        | None =>
            let tishri1After := tishri1 in
            '(metonicCycle, metonicYear, day, halakim) ← FindTishriMolad (day - 365);
            let tishri1 := to_int (Tishri1 metonicYear day halakim) in
            Some (heshvan_or_kislev year (tishri1After - tishri1) (inputDay - tishri1 - 29))
        end.

Definition JewishToSdn (year month day : Z) : option Z :=
  if (year <=? 0) || (day <=? 0) || (30 <? day) then Some 0
  else
    sdn ←
      (if (month =? 1) || (month =? 2) then
         '(metonicYear, moladDay, moladHalakim, tishri1) ← FindStartOfYear year;
         Some (Some (if month =? 1 then tishri1 + day - 1 else tishri1 + day + 29))
       else if month =? 3 then
         '(metonicYear, moladDay, moladHalakim, tishri1) ← FindStartOfYear year;
         months ← months_in metonicYear;
         '(moladDay, moladHalakim) ←
           add_halakim (HALAKIM_PER_LUNAR_CYCLE * months) moladDay moladHalakim;
         let tishri1After := to_int (Tishri1 (Z.rem (metonicYear + 1) 19) moladDay moladHalakim) in
         let yearLength := tishri1After - tishri1 in
         Some (Some (if (yearLength =? 355) || (yearLength =? 385) then tishri1 + day + 59
                     else tishri1 + day + 58))
       else if (month =? 4) || (month =? 5) || (month =? 6) then
         year1 ← int_value (year + 1);
         '(metonicYear, moladDay, moladHalakim, tishri1After) ← FindStartOfYear year1;
         months ← months_in (Z.rem (year - 1) 19);
         let lengthOfAdarIAndII := if months =? 12 then 29 else 59 in
         Some (Some (if month =? 4 then tishri1After + day - lengthOfAdarIAndII - 237
                     else if month =? 5 then tishri1After + day - lengthOfAdarIAndII - 208
                     else tishri1After + day - lengthOfAdarIAndII - 178))
       else
         year1 ← int_value (year + 1);
         '(metonicYear, moladDay, moladHalakim, tishri1After) ← FindStartOfYear year1;
         Some (if month =? 7 then Some (tishri1After + day - 207)
               else if month =? 8 then Some (tishri1After + day - 178)
               else if month =? 9 then Some (tishri1After + day - 148)
               else if month =? 10 then Some (tishri1After + day - 119)
               else if month =? 11 then Some (tishri1After + day - 89)
               else if month =? 12 then Some (tishri1After + day - 60)
               else if month =? 13 then Some (tishri1After + day - 30)
               else None));
    match sdn with
    | None => Some 0
    | Some sdn => sdn ← int_value sdn; Some (sdn + JEWISH_SDN_OFFSET)
    end.
End Jewish.

(** ** calendar.c *)
Section Functions.
Context `{Platform}.

Inductive cal_name_type_t := CAL_GREGORIAN | CAL_JULIAN | CAL_JEWISH | CAL_FRENCH.

Record cal_entry_t := CalEntry {
  to_jd : Z -> Z -> Z -> option Z;
  from_jd : Z -> option date;
  num_months : Z;
  max_days_in_month : Z
}.

Definition cal_conversion_table (cal : cal_name_type_t) : cal_entry_t :=
  match cal with
  | CAL_GREGORIAN => CalEntry GregorianToSdn SdnToGregorian 12 31
  | CAL_JULIAN => CalEntry JulianToSdn SdnToJulian 12 31
  | CAL_JEWISH => CalEntry JewishToSdn SdnToJewish 13 30
  | CAL_FRENCH => CalEntry FrenchToSdn SdnToFrench 13 30
  end.

(** The PHP functions take [long] arguments; [to_jd] takes [int]s.  [inl] is
    the warning and [false]. *)
Definition cal_to_jd (cal : cal_name_type_t) (month day year : Z) : option Z :=
  to_jd (cal_conversion_table cal) (to_int year) (to_int month) (to_int day).

Definition cal_days_in_month (cal : cal_name_type_t) (month year : Z) : option (unit + Z) :=
  let calendar := cal_conversion_table cal in
  sdn_start ← to_jd calendar (to_int year) (to_int month) 1;
  if sdn_start =? 0 then Some (inl ())
  else
    month1 ← long_value (1 + month);
    sdn_next ← to_jd calendar (to_int year) (to_int month1) 1;
    sdn_next ←
      (if sdn_next =? 0 then
         if year =? -1 then to_jd calendar 1 1 1
         else
           year1 ← long_value (year + 1);
           sdn_next ← to_jd calendar (to_int year1) 1 1;
           Some (match cal with
                 | CAL_FRENCH => if sdn_next =? 0 then 2380953 else sdn_next
                 | _ => sdn_next
                 end)
       else Some sdn_next);
    Some (inr (sdn_next - sdn_start)).

(** [heb_number_to_chars] writes into [char old[18]]. *)
Definition alef_bet : list Z :=
  [48; 224; 225; 226; 227; 228; 229; 230; 231; 232; 233; 235; 236; 238; 240; 241; 242; 244; 246;
   247; 248; 249; 250; 0; 0].
Definition letter (i : Z) : option Z := if i <? 0 then None else alef_bet !! Z.to_nat i.
Definition CAL_JEWISH_ADD_ALAFIM_GERESH : Z := 2.
Definition CAL_JEWISH_ADD_ALAFIM : Z := 4.
Definition CAL_JEWISH_ADD_GERESHAYIM : Z := 8.

(** [*p++ = c] for each [c]. *)
Definition put_old (cs old : list Z) : option (list Z) :=
  if (length old + length cs <=? 18)%nat then Some (old ++ cs) else None.

(** [while (n >= 400)] *)
Fixpoint tav_loop (fuel : nat) (n : Z) (p : list Z) : option (Z * list Z) :=
  if 400 <=? n then
    match fuel with
    | O => None
    | S fuel => c ← letter 22; p ← put_old [c] p; tav_loop fuel (n - 400) p
    end
  else Some (n, p).

(** The thousands: [(n, p, endofalafim - old)]. *)
Definition put_alafim (n fl : Z) : option (Z * list Z * nat) :=
  if Z.quot n 1000 =? 0 then Some (n, [], 0%nat)
  else
    c ← letter (Z.quot n 1000);
    p ← put_old [c] [];
    p ← (if has_flag CAL_JEWISH_ADD_ALAFIM_GERESH fl then put_old [39] p else Some p);
    p ← (if has_flag CAL_JEWISH_ADD_ALAFIM fl then
           q ← put_old [32; 224; 236; 244; 233; 237; 32] p;
           _ ← put_old [0] q;
           Some q
         else Some p);
    Some (Z.rem n 1000, p, length p).

(** Hundreds below 400, tens and ones. *)
Definition put_rest (n : Z) (p : list Z) : option (list Z) :=
  '(n, p) ← (if 100 <=? n then c ← letter (18 + Z.quot n 100); p ← put_old [c] p; Some (Z.rem n 100, p)
             else Some (n, p));
  if (n =? 15) || (n =? 16) then c ← letter 9; d ← letter (n - 9); put_old [c; d] p
  else
    '(n, p) ← (if 10 <=? n then c ← letter (9 + Z.quot n 10); p ← put_old [c] p; Some (Z.rem n 10, p)
               else Some (n, p));
    if 0 <? n then c ← letter n; put_old [c] p else Some p.

(** [NULL], or the string without its terminator; [estrndup] copies one byte
    more, the terminator. *)
Definition heb_number_to_chars (n fl : Z) : option (option (list Z)) :=
  if (9999 <? n) || (n <? 1) then Some None
  else
    '(n, p, endofalafim) ← put_alafim n fl;
    '(n, p) ← tav_loop 3 n p;
    p ← put_rest n p;
    p ← (if has_flag CAL_JEWISH_ADD_GERESHAYIM fl then
           match (length p - endofalafim)%nat with
           | O => Some p
           | 1%nat => put_old [39] p
           | _ => c ← last p; put_old [34; c] (take (length p - 1) p)
           end
         else Some p);
    _ ← put_old [0] p;
    Some (Some p).

(** ** easter.c and cal_unix.c *)
Definition CAL_EASTER_DEFAULT : Z := 0.
Definition CAL_EASTER_ROMAN : Z := 1.
Definition CAL_EASTER_ALWAYS_GREGORIAN : Z := 2.
Definition CAL_EASTER_ALWAYS_JULIAN : Z := 3.

Definition wrap_neg (x m : Z) : Z := if x <? 0 then x + m else x.

Definition use_julian (year method : Z) : bool :=
  ((year <=? 1582) && negb (method =? CAL_EASTER_ALWAYS_GREGORIAN))
  || ((1583 <=? year) && (year <=? 1752) && negb (method =? CAL_EASTER_ROMAN)
      && negb (method =? CAL_EASTER_ALWAYS_GREGORIAN))
  || (method =? CAL_EASTER_ALWAYS_JULIAN).

(** Days after March 21: [easter_days]; [_cal_easter] with [gm] not set. *)
Definition easter_days (year method : Z) : option Z :=
  let golden := Z.rem year 19 + 1 in
  '(dom, pfm) ←
    (if use_julian year method then
       sum ← long_value (year + Z.quot year 4 + 5);
       Some (wrap_neg (Z.rem sum 7) 7, wrap_neg (Z.rem (3 - 11 * golden - 7) 30) 30)
     else
       sum ← long_value (year + Z.quot year 4);
       _ ← long_value (year - 1600);
       let sum := sum - Z.quot year 100 + Z.quot year 400 in
       let solar := Z.quot (year - 1600) 100 - Z.quot (year - 1600) 400 in
       let lunar := Z.quot (Z.quot (year - 1400) 100 * 8) 25 in
       Some (wrap_neg (Z.rem sum 7) 7, wrap_neg (Z.rem (3 - 11 * golden + solar - lunar) 30) 30));
  let pfm := if (pfm =? 29) || ((pfm =? 28) && (11 <? golden)) then pfm - 1 else pfm in
  let tmp := wrap_neg (Z.rem (4 - pfm - dom) 7) 7 in
  Some (pfm + tmp + 1).

(** [(tm_mon, tm_mday)] as [easter_date] gives them to [mktime]; [None] inside
    is the warning for years it does not cover. *)
Definition easter_date_tm (year method : Z) : option (option (Z * Z)) :=
  if (year <? 1970) || (2037 <? year) then Some None
  else
    easter ← easter_days year method;
    Some (Some (if easter <? 11 then (2, easter + 21) else (3, easter - 10))).

(** [Some None] is [false]. *)
Definition jdtounix (uday : Z) : option (option Z) :=
  uday ← long_value (uday - 2440588);
  Some (if (uday <? 0) || (24755 <? uday) then None else Some (uday * 24 * 3600)).
End Functions.

Example calendar_examples :
  SdnToGregorian (H := LP64) 2460000 = Some (2023, 2, 24)
  /\ SdnToJulian (H := LP64) 2460000 = Some (2023, 2, 11)
  /\ SdnToJewish (H := LP64) 2460000 = Some (5783, 7, 3)
  /\ SdnToFrench 2376000 = Some (1, 6, 11)
  /\ DayOfWeek (H := LP64) 2460000 = Some 5
  /\ easter_days (H := LP64) 2023 CAL_EASTER_DEFAULT = Some 19
  /\ cal_days_in_month (H := LP64) CAL_GREGORIAN 2 2000 = Some (inr 29)
  /\ heb_number_to_chars 5776 (2 + 8) = Some (Some [228; 39; 250; 249; 242; 34; 229]).
Proof. repeat split; vm_compute; reflexivity. Qed.
