(* ===== verification/CalendarSpec.v ===== *)
(** * CalendarSpec: solar calendars by their rules

    What the Gregorian and the Julian calendar are: a leap-year rule, month
    lengths and the successor of a day.  The counting of days that gregor.c and
    julian.c share (years from March, days by the formula (153 m + 2) / 5) is
    related to the rules here, once, for any leap-year rule [leap] and any
    formula [G] for the days before a year that follows it. *)
From S2P Require Import Prelude Calendar.

(** ** The rules *)

(** Astronomical year numbers: 1 B.C. is year 0. *)
Definition astro (y : Z) : Z := if y <? 0 then y + 1 else y.
Definition gregorian_leap (a : Z) : bool :=
  (a mod 4 =? 0) && (negb (a mod 100 =? 0) || (a mod 400 =? 0)).
Definition julian_leap (a : Z) : bool := a mod 4 =? 0.

Definition month_length (leap : bool) (m : Z) : Z :=
  if m =? 2 then (if leap then 29 else 28)
  else if (m =? 4) || (m =? 6) || (m =? 9) || (m =? 11) then 30 else 31.

Definition valid_date (leap : Z -> bool) (dt : date) : Prop :=
  let '(y, m, d) := dt in
  y <> 0 /\ 1 <= m <= 12 /\ 1 <= d <= month_length (leap (astro y)) m.

(** The day after; there is no year 0. *)
Definition next_day (leap : Z -> bool) (dt : date) : date :=
  let '(y, m, d) := dt in
  if d <? month_length (leap (astro y)) m then (y, m, d + 1)
  else if m <? 12 then (y, m + 1, 1)
  else (if y =? -1 then 1 else y + 1, 1, 1).

(** A calendar as the [cal_entry_t] of calendar.c has it, [to] and [from]:
    days 1, 2, ..., [last] are the dates from [first] on, each the successor of
    the one before, and the two functions are inverse to each other on the
    dates that exist. *)
Class SolarCalendar (to : Z -> Z -> Z -> option Z) (from : Z -> option date)
    (leap : Z -> bool) (first : date) (last : Z) : Prop := {
  cal_first : from 1 = Some first;
  cal_next : forall n, 1 <= n < last -> from (n + 1) = next_day leap <$> from n;
  cal_to_from : forall n, 1 <= n <= last ->
    exists y m d, from n = Some (y, m, d) /\ valid_date leap (y, m, d) /\ to y m d = Some n;
  cal_from_to : forall y m d n, valid_date leap (y, m, d) -> to y m d = Some n ->
    1 <= n <= last -> from n = Some (y, m, d);
  cal_months : forall y m d, ~ (1 <= m <= 12) -> to y m d = Some 0
}.

(** ** Years that start in March *)
Definition march_month (m : Z) : Z := if 2 <? m then m - 3 else m + 9.
Definition march_start (y m : Z) : Z := astro y + 4800 - (if 2 <? m then 0 else 1).
Definition before_month (M : Z) : Z := (153 * M + 2) / 5.
Definition month_of (doy : Z) : Z := (5 * doy - 3) / 153.
Definition day_of (doy : Z) : Z := ((5 * doy - 3) mod 153) / 5 + 1.

(** The date of day [doy] of the year from March of year [Y - 4800]. *)
Definition civil (Y doy : Z) : date :=
  let M := month_of doy in
  let '(Y, m) := if M <? 10 then (Y, M + 3) else (Y + 1, M - 9) in
  (if Y - 4800 <=? 0 then Y - 4800 - 1 else Y - 4800, m, day_of doy).

Lemma month_split doy : 1 <= doy <= 366 ->
  0 <= month_of doy <= 11 /\ 1 <= day_of doy <= 31 /\ before_month (month_of doy) + day_of doy = doy.
Proof. unfold month_of, day_of, before_month. Z.to_euclidean_division_equations. lia. Qed.

(** The longest a month can be, counted from March. *)
Definition march_length (leap : bool) (M : Z) : Z := month_length leap (if M <? 10 then M + 3 else M - 9).

Lemma march_range M : 0 <= M <= 11 ->
  M = 0 \/ M = 1 \/ M = 2 \/ M = 3 \/ M = 4 \/ M = 5 \/ M = 6 \/ M = 7 \/ M = 8 \/ M = 9 \/ M = 10 \/ M = 11.
Proof. lia. Qed.

(** A case for each month, [H : 0 <= M <= 11]. *)
Ltac each_month H :=
  destruct (march_range _ H) as [E|[E|[E|[E|[E|[E|[E|[E|[E|[E|[E|E]]]]]]]]]]].

Lemma month_join leap M d : 0 <= M <= 11 -> 1 <= d <= march_length leap M ->
  month_of (before_month M + d) = M /\ day_of (before_month M + d) = d
  /\ 1 <= before_month M + d <= 365 + (if leap then 1 else 0).
Proof.
  intros HM Hd. unfold month_of, day_of.
  each_month HM; subst M; unfold march_length, month_length in Hd; simpl in Hd; destruct leap; unfold before_month; Z.to_euclidean_division_equations; lia.
Qed.

Lemma month_fits (leap : bool) doy : 1 <= doy <= 365 + (if leap then 1 else 0) ->
  1 <= day_of doy <= march_length leap (month_of doy).
Proof.
  intros Hd. destruct (month_split doy) as (HM & H1 & Heq); [destruct leap; lia|].
  split; [lia|]. revert Heq. generalize (day_of doy) as d. intros d Heq.
  each_month HM; rewrite E in Heq |- *; unfold before_month in Heq; unfold month_of in E;
    destruct leap; unfold march_length, month_length; simpl; Z.to_euclidean_division_equations; lia.
Qed.

Section Solar.
Context (leap : Z -> bool) (G : Z -> Z) (offset : Z).
Hypothesis G_step : forall Y, 0 <= Y -> G (Y + 1) = G Y + 365 + (if leap (Y + 1 - 4800) then 1 else 0).

Definition sdn_of (dt : date) : Z :=
  let '(y, m, d) := dt in
  G (march_start y m) + before_month (march_month m) + d - offset.

(** Day [doy] is a day of the year from March of [Y - 4800]. *)
Definition in_year (Y doy : Z) : Prop :=
  0 <= Y /\ 1 <= doy <= 365 + (if leap (Y + 1 - 4800) then 1 else 0).

Lemma astro_civil a : astro (if a <=? 0 then a - 1 else a) = a.
Proof. unfold astro. destruct (Z.leb_spec a 0); repeat case_goal; reflect_bools; lia. Qed.

Lemma civil_valid Y doy : in_year Y doy ->
  valid_date leap (civil Y doy) /\ sdn_of (civil Y doy) = G Y + doy - offset.
Proof.
  intros [HY Hd]. pose proof (month_fits _ _ Hd) as Hfit.
  destruct (month_split doy) as (HM & H1 & Heq); [case_match; lia|].
  unfold civil. unfold march_length in Hfit. destruct (Z.ltb_spec (month_of doy) 10) as [HM10|HM10].
  - assert (H2 : (2 <? month_of doy + 3) = true) by (apply Z.ltb_lt; lia). split.
    + split; [case_goal; reflect_bools; lia|]. split; [lia|]. rewrite astro_civil.
      unfold month_length in *. rewrite (proj2 (Z.eqb_neq (month_of doy + 3) 2)) in * by lia. exact Hfit.
    + unfold sdn_of, march_start, march_month. rewrite astro_civil, H2.
      replace (month_of doy + 3 - 3) with (month_of doy) by lia.
      replace (Y - 4800 + 4800 - 0) with Y by lia. lia.
  - assert (H2 : (2 <? month_of doy - 9) = false) by (apply Z.ltb_ge; lia). split.
    + split; [case_goal; reflect_bools; lia|]. split; [lia|]. by rewrite astro_civil.
    + unfold sdn_of, march_start, march_month. rewrite astro_civil, H2.
      replace (month_of doy - 9 + 9) with (month_of doy) by lia.
      replace (Y + 1 - 4800 + 4800 - 1) with Y by lia. lia.
Qed.

Lemma civil_astro y : y <> 0 -> (if astro y <=? 0 then astro y - 1 else astro y) = y.
Proof. unfold astro. intros Hy. repeat case_goal; reflect_bools; lia. Qed.

(** Every date from 4801 B.C. on is such a day. *)
Lemma valid_civil y m d : valid_date leap (y, m, d) -> -4800 <= y ->
  in_year (march_start y m) (before_month (march_month m) + d)
  /\ civil (march_start y m) (before_month (march_month m) + d) = (y, m, d).
Proof.
  intros (Hy & Hm & Hd) Hlo.
  assert (Hlen : march_length (leap (march_start y m + 1 - 4800)) (march_month m)
    = month_length (leap (astro y)) m /\ 0 <= march_month m <= 11).
  { unfold march_length, march_month, march_start. destruct (Z.ltb_spec 2 m).
    - rewrite (proj2 (Z.ltb_lt (m - 3) 10)) by lia. replace (m - 3 + 3) with m by lia. split; [|lia].
      unfold month_length. by rewrite (proj2 (Z.eqb_neq m 2)) by lia.
    - rewrite (proj2 (Z.ltb_ge (m + 9) 10)) by lia. replace (m + 9 - 9) with m by lia. split; [|lia].
      do 2 f_equal. lia. }
  destruct Hlen as [Hlen HM]. rewrite <- Hlen in Hd.
  destruct (month_join _ _ _ HM Hd) as (E1 & E2 & Hr).
  assert (HY : 0 <= march_start y m).
  { unfold march_start, astro. repeat case_goal; reflect_bools; lia. }
  split; [by split|]. unfold civil. rewrite E1, E2.
  unfold march_month, march_start in *. destruct (Z.ltb_spec 2 m).
  - rewrite (proj2 (Z.ltb_lt (m - 3) 10)) by lia.
    replace (astro y + 4800 - 0 - 4800) with (astro y) by lia. rewrite civil_astro by done.
    do 2 f_equal. lia.
  - rewrite (proj2 (Z.ltb_ge (m + 9) 10)) by lia.
    replace (astro y + 4800 - 1 + 1 - 4800) with (astro y) by lia. rewrite civil_astro by done.
    do 2 f_equal. lia.
Qed.

Lemma G_mono k : forall Y, 0 <= Y -> G Y + 365 * Z.of_nat k <= G (Y + Z.of_nat k).
Proof.
  induction k as [|k IH]; intros Y HY; [replace (Y + Z.of_nat 0) with Y by lia; lia|].
  replace (Y + Z.of_nat (S k)) with (Y + Z.of_nat k + 1) by lia.
  rewrite G_step by lia. specialize (IH Y HY). case_match; lia.
Qed.

Lemma year_unique Y doy Y' doy' : in_year Y doy -> in_year Y' doy' ->
  G Y + doy = G Y' + doy' -> Y = Y' /\ doy = doy'.
Proof.
  assert (Hlt : forall Y doy Y' doy', in_year Y doy -> in_year Y' doy' -> Y < Y' -> G Y + doy < G Y' + doy').
  { intros A a B b [HA Ha] [HB Hb] Hl. pose proof (G_mono (Z.to_nat (B - (A + 1))) (A + 1) ltac:(lia)) as Hm.
    replace (A + 1 + Z.of_nat (Z.to_nat (B - (A + 1)))) with B in Hm by lia.
    rewrite G_step in Hm by done. lia. }
  intros H1 H2 Heq. destruct (Z.lt_total Y Y') as [Hl|[->|Hl]].
  - pose proof (Hlt _ _ _ _ H1 H2 Hl). lia.
  - split; [done|lia].
  - pose proof (Hlt _ _ _ _ H2 H1 Hl). lia.
Qed.

Lemma sdn_unique y m d Y doy : valid_date leap (y, m, d) -> -4800 <= y -> in_year Y doy ->
  sdn_of (y, m, d) = G Y + doy - offset -> civil Y doy = (y, m, d).
Proof.
  intros Hv Hlo Hin Heq. destruct (valid_civil y m d Hv Hlo) as [Hin' Hc].
  destruct (year_unique _ _ _ _ Hin' Hin) as [E1 E2]; [simpl in Heq; lia|].
  by rewrite <- E1, <- E2.
Qed.

Lemma next_valid dt : valid_date leap dt -> valid_date leap (next_day leap dt).
Proof.
  destruct dt as [[y m] d]. intros (Hy & Hm & Hd). unfold next_day.
  assert (Hlen : forall b k, 28 <= month_length b k) by (intros [] k; unfold month_length; repeat case_goal; lia).
  destruct (Z.ltb_spec d (month_length (leap (astro y)) m)); [split; [done|]; split; [done|]; lia|].
  destruct (Z.ltb_spec m 12); (split; [try case_goal; reflect_bools; lia|]); (split; [lia|]);
    match goal with |- _ <= _ <= month_length ?b ?k => specialize (Hlen b k) end; lia.
Qed.

Lemma next_sdn y m d : valid_date leap (y, m, d) -> -4800 <= y ->
  sdn_of (next_day leap (y, m, d)) = sdn_of (y, m, d) + 1.
Proof.
  intros (Hy & Hm & Hd) Hlo. unfold next_day.
  destruct (Z.ltb_spec d (month_length (leap (astro y)) m)) as [Hl|Hl]; [simpl; lia|].
  assert (d = month_length (leap (astro y)) m) as -> by lia. clear Hd Hl.
  destruct (Z.ltb_spec m 12) as [H12|H12].
  - destruct (Z.eq_dec m 2) as [->|Hm2].
    + unfold sdn_of. change (march_month (2 + 1)) with 0. change (march_month 2) with 11.
      unfold march_start. change (2 <? 2 + 1) with true. change (2 <? 2) with false. cbn match.
      replace (astro y + 4800 - 0) with (astro y + 4800 - 1 + 1) by lia.
      assert (0 <= astro y + 4800 - 1) by (unfold astro; case_goal; reflect_bools; lia).
      rewrite G_step by done. replace (astro y + 4800 - 1 + 1 - 4800) with (astro y) by lia.
      change (before_month 0) with 0. change (before_month 11) with 337.
      unfold month_length. simpl. destruct (leap (astro y)); lia.
    + assert (Hb : before_month (march_month (m + 1)) = before_month (march_month m)
        + month_length (leap (astro y)) m /\ march_start y (m + 1) = march_start y m).
      { assert (m = 1 \/ m = 3 \/ m = 4 \/ m = 5 \/ m = 6 \/ m = 7 \/ m = 8 \/ m = 9 \/ m = 10 \/ m = 11)
          as Hms by lia.
        split; [|unfold march_start; do 2 f_equal; destruct (Z.ltb_spec 2 m), (Z.ltb_spec 2 (m + 1)); lia].
        destruct_or! Hms; subst m; by destruct (leap (astro y)). }
      destruct Hb as [Hb1 Hb2]. simpl. rewrite Hb1, Hb2. lia.
  - assert (m = 12) as -> by lia. unfold sdn_of.
    replace (march_start (if y =? -1 then 1 else y + 1) 1) with (march_start y 12).
    + change (before_month (march_month 1)) with 306. change (before_month (march_month 12)) with 275.
      unfold month_length. simpl. lia.
    + unfold march_start, astro. simpl. repeat case_goal; reflect_bools; lia.
Qed.

(** The two functions of a calendar follow the rules if they compute the
    formulas. *)
Lemma solar_calendar (to : Z -> Z -> Z -> option Z) (from : Z -> option date) first last :
  from 1 = Some first ->
  (forall n, 1 <= n <= last -> exists Y doy, in_year Y doy /\ G Y + doy - offset = n
     /\ from n = Some (civil Y doy) /\ -4800 <= (civil Y doy).1.1) ->
  (forall y m d, valid_date leap (y, m, d) -> 1 <= sdn_of (y, m, d) <= last -> -4800 <= y ->
     to y m d = Some (sdn_of (y, m, d))) ->
  (forall y m d n, valid_date leap (y, m, d) -> to y m d = Some n -> n <> 0 ->
     n = sdn_of (y, m, d) /\ -4800 <= y) ->
  (forall y m d, ~ (1 <= m <= 12) -> to y m d = Some 0) ->
  SolarCalendar to from leap first last.
Proof.
  intros Hfirst Hfrom Hto Hto' Hmonths. split; [done|..].
  - intros n Hn. destruct (Hfrom n) as (Y & doy & Hin & Heq & -> & Hlo); [lia|].
    destruct (Hfrom (n + 1)) as (Y' & doy' & Hin' & Heq' & -> & _); [lia|]. simpl. f_equal.
    destruct (civil_valid Y doy Hin) as [Hv Hs]. destruct (civil Y doy) as [[y m] d]. simpl in Hlo.
    pose proof (next_sdn y m d Hv Hlo) as Hn1. pose proof (next_valid _ Hv) as Hv1.
    assert (-4800 <= (next_day leap (y, m, d)).1.1) as Hlo1
      by (unfold next_day; repeat case_goal; reflect_bools; simpl; lia).
    destruct (next_day leap (y, m, d)) as [[y1 m1] d1]. apply sdn_unique; [done|done|done|lia].
  - intros n Hn. destruct (Hfrom n) as (Y & doy & Hin & Heq & -> & Hlo); [lia|].
    destruct (civil_valid Y doy Hin) as [Hv Hs]. destruct (civil Y doy) as [[y m] d].
    exists y, m, d. split; [done|]. split; [done|]. rewrite Hto; [f_equal; lia|done|lia|done].
  - intros y m d n Hv Ht Hn. destruct (Hto' y m d n Hv Ht) as [-> Hlo]; [lia|].
    destruct (Hfrom (sdn_of (y, m, d))) as (Y & doy & Hin & Heq & -> & _); [lia|]. f_equal.
    apply sdn_unique; [done|done|done|lia].
  - exact Hmonths.
Qed.
End Solar.

(** ** What a client can conclude from the rules *)
Section Client.
Context {to : Z -> Z -> Z -> option Z} {from : Z -> option date} {leap : Z -> bool}
  {first : date} {last : Z} `{!SolarCalendar to from leap first last}.

Lemma month_length_bounds b m : 28 <= month_length b m <= 31.
Proof. unfold month_length. repeat case_goal; lia. Qed.

(** Walking through a month. *)
Lemma month_days k y m n : valid_date leap (y, m, 1) -> from n = Some (y, m, 1) -> 1 <= n ->
  Z.of_nat k < month_length (leap (astro y)) m -> n + Z.of_nat k <= last ->
  from (n + Z.of_nat k) = Some (y, m, 1 + Z.of_nat k).
Proof.
  intros Hv Hn H1. induction k as [|k IH]; intros Hk Hl; [by replace (n + Z.of_nat 0) with n by lia|].
  replace (n + Z.of_nat (S k)) with (n + Z.of_nat k + 1) by lia.
  rewrite (cal_next (SolarCalendar := SolarCalendar0)), IH by lia. simpl.
  rewrite (proj2 (Z.ltb_lt _ _)) by lia. do 2 f_equal. lia.
Qed.

(** The first day of the next month comes [month_length] days later. *)
Lemma next_month y m n : valid_date leap (y, m, 1) -> to y m 1 = Some n -> 1 <= n -> n + 31 <= last ->
  let '(y', m', _) := next_day leap (y, m, month_length (leap (astro y)) m) in
  to y' m' 1 = Some (n + month_length (leap (astro y)) m).
Proof.
  intros Hv Hn H1 Hl. set (len := month_length (leap (astro y)) m).
  pose proof (month_length_bounds (leap (astro y)) m) as Hlen. fold len in Hlen.
  assert (Hfrom : from n = Some (y, m, 1))
    by (apply (cal_from_to (SolarCalendar := SolarCalendar0)); [done|done|lia]).
  pose proof (month_days (Z.to_nat (len - 1)) y m n Hv Hfrom H1) as Hd.
  replace (Z.of_nat (Z.to_nat (len - 1))) with (len - 1) in Hd by lia.
  specialize (Hd ltac:(lia) ltac:(lia)).
  pose proof (cal_next (SolarCalendar := SolarCalendar0) (n + (len - 1)) ltac:(lia)) as Hnx.
  rewrite Hd in Hnx. replace (1 + (len - 1)) with len in Hnx by lia.
  replace (n + (len - 1) + 1) with (n + len) in Hnx by lia. simpl fmap in Hnx.
  destruct (cal_to_from (SolarCalendar := SolarCalendar0) (n + len) ltac:(lia)) as (y1 & m1 & d1 & Hf & _ & Ht).
  rewrite Hnx in Hf. injection Hf as Hf. unfold next_day in *. fold len in Hf |- *.
  rewrite Z.ltb_irrefl in *. destruct (m <? 12); by simplify_eq.
Qed.
End Client.
