(* ===== verification/CalendarThms.v ===== *)
(** * CalendarThms: ext/calendar follows the calendars' rules *)
From S2P Require Import Prelude Calendar CalendarSpec.

(** ** Gregorian and Julian *)
Definition gregorian_days (Y : Z) : Z := (Y / 100 * 146097) / 4 + (Y mod 100 * 1461) / 4.
Definition julian_days (Y : Z) : Z := (Y * 1461) / 4.
(** Up to these days the [int] arithmetic of the conversions does not
    overflow; they are the last ones a 32-bit [long] admits. *)
Definition GREGORIAN_LAST : Z := 536838866.
Definition JULIAN_LAST : Z := 536838829.

Lemma gregorian_step Y : 0 <= Y ->
  gregorian_days (Y + 1) = gregorian_days Y + 365 + (if gregorian_leap (Y + 1 - 4800) then 1 else 0).
Proof.
  intros HY. unfold gregorian_days, gregorian_leap.
  destruct (Z.eqb_spec ((Y + 1 - 4800) mod 4) 0), (Z.eqb_spec ((Y + 1 - 4800) mod 100) 0),
    (Z.eqb_spec ((Y + 1 - 4800) mod 400) 0); cbn [negb andb orb];
    Z.to_euclidean_division_equations; lia.
Qed.

Lemma julian_step Y : 0 <= Y ->
  julian_days (Y + 1) = julian_days Y + 365 + (if julian_leap (Y + 1 - 4800) then 1 else 0).
Proof.
  intros HY. unfold julian_days, julian_leap.
  destruct (Z.eqb_spec ((Y + 1 - 4800) mod 4) 0); Z.to_euclidean_division_equations; lia.
Qed.

(** Taking a day count apart, the way [SdnToGregorian] does. *)
Lemma gregorian_split N c yy doy t2 : 1 <= N -> c = (4 * N - 1) / 146097 ->
  t2 = ((4 * N - 1) mod 146097) / 4 * 4 + 3 -> yy = t2 / 1461 -> doy = (t2 mod 1461) / 4 + 1 ->
  in_year gregorian_leap (c * 100 + yy) doy /\ gregorian_days (c * 100 + yy) + doy = N
  /\ 0 <= yy <= 99 /\ 1 <= doy <= 366.
Proof.
  intros HN Ec Et Ey Ed.
  assert (Hc : 0 <= c) by (Z.to_euclidean_division_equations; lia).
  assert (Hyy : 0 <= yy <= 99) by (Z.to_euclidean_division_equations; lia).
  assert (Hd : 1 <= doy <= 366) by (Z.to_euclidean_division_equations; lia).
  assert (Hdiv : forall k, 0 <= k <= 99 -> (c * 100 + k) / 100 = c /\ (c * 100 + k) mod 100 = k)
    by (intros k Hk; Z.to_euclidean_division_equations; lia).
  assert (Hg : forall k, 0 <= k <= 99 -> gregorian_days (c * 100 + k) = (c * 146097) / 4 + (k * 1461) / 4).
  { intros k Hk. unfold gregorian_days. by destruct (Hdiv k Hk) as [-> ->]. }
  assert (Hsum : gregorian_days (c * 100 + yy) + doy = N)
    by (rewrite Hg by done; clear Hg Hdiv; Z.to_euclidean_division_equations; lia).
  split; [|done]. split; [lia|]. split; [lia|].
  pose proof (gregorian_step (c * 100 + yy) ltac:(lia)) as Hs.
  enough (N <= gregorian_days (c * 100 + yy + 1)) by lia. clear Hs Hsum.
  destruct (Z.eq_dec yy 99) as [E|].
  - replace (c * 100 + yy + 1) with ((c + 1) * 100 + 0) by lia. unfold gregorian_days.
    replace (((c + 1) * 100 + 0) / 100) with (c + 1) by (Z.to_euclidean_division_equations; lia).
    replace (((c + 1) * 100 + 0) mod 100) with 0 by (Z.to_euclidean_division_equations; lia).
    clear Hg Hdiv. Z.to_euclidean_division_equations; lia.
  - replace (c * 100 + yy + 1) with (c * 100 + (yy + 1)) by lia. rewrite Hg by lia.
    clear Hg Hdiv. Z.to_euclidean_division_equations; lia.
Qed.

Lemma julian_split N Y doy : 1 <= N -> Y = (4 * N - 1) / 1461 -> doy = ((4 * N - 1) mod 1461) / 4 + 1 ->
  in_year julian_leap Y doy /\ julian_days Y + doy = N /\ 1 <= doy <= 366.
Proof.
  intros HN EY Ed.
  assert (HY : 0 <= Y) by (Z.to_euclidean_division_equations; lia).
  assert (Hd : 1 <= doy <= 366) by (Z.to_euclidean_division_equations; lia).
  assert (Hsum : julian_days Y + doy = N) by (unfold julian_days; Z.to_euclidean_division_equations; lia).
  split; [|done]. split; [done|]. split; [lia|].
  pose proof (julian_step Y HY) as Hs. enough (N <= julian_days (Y + 1)) by lia. clear Hs Hsum.
  unfold julian_days. Z.to_euclidean_division_equations; lia.
Qed.

(** The year of a day after 4714 B.C. *)
Lemma civil_late Y doy : 80 <= Y -> 1 <= doy <= 366 -> -4800 <= (civil Y doy).1.1.
Proof. intros HY _. unfold civil. destruct (month_of doy <? 10); cbn; case_match; lia. Qed.

(** The bounds of [int] and [long] as numbers. *)
Ltac int_bounds := unfold INT_MIN, INT_MAX in *; lia.

Section Proofs.
Context `{Platform}.

Lemma long_covers : 2 ^ 31 - 1 <= LONG_MAX /\ LONG_MIN <= - 2 ^ 31.
Proof. unfold LONG_MAX, LONG_MIN. destruct LONG_BITS_cases as [-> | ->]; lia. Qed.

Lemma finish_civil Y doy : 0 <= Y < INT_MAX -> 1 <= doy <= 366 -> finish_date Y doy = Some (civil Y doy).
Proof.
  intros HY Hd. destruct (month_split doy Hd) as (HM & H1 & _). unfold INT_MAX in HY.
  unfold finish_date, civil. change DAYS_PER_5_MONTHS with 153.
  replace (doy * 5 - 3) with (5 * doy - 3) by lia.
  rewrite Z.rem_mod_nonneg by lia.
  rewrite !Z.quot_div_nonneg by (pose proof (Z.mod_pos_bound (5 * doy - 3) 153); lia).
  fold (month_of doy) (day_of doy). rewrite !to_int_small by (unfold INT_MIN, INT_MAX; lia).
  destruct (month_of doy <? 10); [|rewrite (int_value_ok (Y + 1)) by (unfold INT_MIN, INT_MAX; lia)];
    cbn [mbind option_bind]; rewrite int_value_ok by (unfold INT_MIN, INT_MAX; lia);
    cbn [mbind option_bind]; (case_match; [rewrite int_value_ok by (unfold INT_MIN, INT_MAX; lia)|]); done.
Qed.

Lemma from_gregorian n : 1 <= n <= GREGORIAN_LAST ->
  exists Y doy, in_year gregorian_leap Y doy /\ gregorian_days Y + doy - GREGOR_SDN_OFFSET = n
    /\ SdnToGregorian n = Some (civil Y doy) /\ -4800 <= (civil Y doy).1.1.
Proof.
  unfold GREGORIAN_LAST. intros Hn. pose proof long_covers as HL.
  set (N := n + 32045). set (c := (4 * N - 1) / 146097). set (r := (4 * N - 1) mod 146097).
  set (t2 := r / 4 * 4 + 3). set (yy := t2 / 1461). set (doy := (t2 mod 1461) / 4 + 1).
  destruct (gregorian_split N c yy doy t2) as (Hin & Hsum & Hyy & Hd); [unfold N; lia|done..|].
  assert (Hc : 0 <= c <= 14699) by (unfold c, N; Z.to_euclidean_division_equations; lia).
  assert (Hr : 0 <= r < 146097) by (apply Z.mod_pos_bound; lia).
  assert (Ht2 : 0 <= t2 mod 1461 < 1461) by (apply Z.mod_pos_bound; lia).
  assert (H2 : 3 <= t2) by (unfold t2; Z.to_euclidean_division_equations; lia).
  exists (c * 100 + yy), doy. split; [done|]. split; [unfold GREGOR_SDN_OFFSET, N in *; lia|]. split.
  - unfold SdnToGregorian. rewrite (proj2 (Z.leb_gt n 0)) by lia. cbn [orb].
    rewrite (proj2 (Z.ltb_ge _ n)); cycle 1.
    { unfold GREGOR_SDN_OFFSET. rewrite Z.quot_div_nonneg by lia. Z.to_euclidean_division_equations; lia. }
    replace ((n + GREGOR_SDN_OFFSET) * 4 - 1) with (4 * N - 1) by (unfold N, GREGOR_SDN_OFFSET; lia).
    rewrite long_value_ok by (unfold N; lia). cbn [mbind option_bind].
    change DAYS_PER_400_YEARS with 146097. change DAYS_PER_4_YEARS with 1461.
    rewrite (Z.rem_mod_nonneg (4 * N - 1)), (Z.quot_div_nonneg (4 * N - 1)) by (unfold N; lia). fold c r.
    rewrite (Z.quot_div_nonneg r) by lia. fold t2.
    rewrite (Z.rem_mod_nonneg t2), (Z.quot_div_nonneg t2), Z.quot_div_nonneg by lia. fold yy doy.
    rewrite (to_int_small c) by int_bounds. rewrite int_value_ok by int_bounds. cbn [mbind option_bind].
    rewrite !to_int_small by int_bounds. apply finish_civil; [int_bounds|done].
  - apply civil_late; [|done]. destruct (Z.le_gt_cases 80 (c * 100 + yy)) as [|Hl]; [done|exfalso].
    assert (c = 0) by lia. unfold gregorian_days in Hsum.
    rewrite (Z.div_small (c * 100 + yy)), (Z.mod_small (c * 100 + yy)) in Hsum by lia.
    unfold N in Hsum. Z.to_euclidean_division_equations; lia.
Qed.

Lemma from_julian n : 1 <= n <= JULIAN_LAST ->
  exists Y doy, in_year julian_leap Y doy /\ julian_days Y + doy - JULIAN_SDN_OFFSET = n
    /\ SdnToJulian n = Some (civil Y doy) /\ -4800 <= (civil Y doy).1.1.
Proof.
  unfold JULIAN_LAST. intros Hn. pose proof long_covers as HL.
  set (N := n + 32083). set (Y := (4 * N - 1) / 1461). set (doy := ((4 * N - 1) mod 1461) / 4 + 1).
  destruct (julian_split N Y doy) as (Hin & Hsum & Hd); [unfold N; lia|done..|].
  assert (HY : 80 <= Y <= 1469872) by (unfold Y, N; Z.to_euclidean_division_equations; lia).
  exists Y, doy. split; [done|]. split; [unfold JULIAN_SDN_OFFSET, N in *; lia|].
  split; [|by apply civil_late; [lia|]].
  unfold SdnToJulian. rewrite (proj2 (Z.leb_gt n 0)) by lia.
  rewrite (proj2 (Z.ltb_ge _ n)), (proj2 (Z.ltb_ge n _)); cycle 1.
  { transitivity 0; [|lia]. rewrite <- (Z.opp_involutive LONG_MIN), Z.quot_opp_l by lia.
    assert (0 <= Z.quot (- LONG_MIN) 4) by (apply Z.quot_pos; lia). lia. }
  { unfold JULIAN_SDN_OFFSET. rewrite Z.quot_div_nonneg by lia. Z.to_euclidean_division_equations; lia. }
  cbn [orb]. replace (n * 4 + (JULIAN_SDN_OFFSET * 4 - 1)) with (4 * N - 1) by (unfold N, JULIAN_SDN_OFFSET; lia).
  rewrite long_value_ok by (unfold N; lia). cbn [mbind option_bind]. change DAYS_PER_4_YEARS with 1461.
  rewrite Z.rem_mod_nonneg by (unfold N; lia).
  rewrite !Z.quot_div_nonneg by (pose proof (Z.mod_pos_bound (4 * N - 1) 1461); unfold N in *; lia).
  fold Y doy. rewrite (proj2 (Z.ltb_ge INT_MAX Y)), (proj2 (Z.ltb_ge Y INT_MIN)) by int_bounds. cbn [orb].
  rewrite to_int_small by int_bounds. apply finish_civil; [int_bounds|done].
Qed.

Lemma int_value_some z v : int_value z = Some v -> v = z /\ INT_MIN <= z <= INT_MAX.
Proof. unfold int_value. case_match; [|done]. intros [= <-]. by reflect_bools. Qed.

Lemma march_year_cases y m : y <> 0 -> -4800 <= y ->
  march_year y m = Some (march_start y m, march_month m)
  \/ march_year y m = None /\ 1470000 <= march_start y m.
Proof.
  intros Hy0 Hy. unfold march_year, march_start, march_month, astro.
  set (v := if y <? 0 then y + 4801 else y + 4800).
  assert (Hv : v = (if y <? 0 then y + 1 else y) + 4800 /\ 0 <= v) by (unfold v; destruct (Z.ltb_spec y 0); lia).
  destruct Hv as [Hv Hv0]. rewrite <- Hv. destruct (Z.le_gt_cases v INT_MAX) as [Hl|Hl].
  - left. rewrite int_value_ok by int_bounds. cbn [mbind option_bind]. destruct (2 <? m); do 2 f_equal; lia.
  - right. unfold int_value. rewrite (proj2 (Z.leb_gt v INT_MAX)), andb_false_r by done. split; [done|].
    unfold INT_MAX in Hl. destruct (2 <? m); lia.
Qed.

Lemma march_start_bounds y m :
  march_start y m = astro y + (if 2 <? m then 4800 else 4799)
  /\ (y < 0 -> astro y = y + 1) /\ (0 <= y -> astro y = y).
Proof. unfold march_start, astro. destruct (Z.ltb_spec 2 m), (Z.ltb_spec y 0); lia. Qed.

(** The checks at the start of both functions, on a date of the calendar. *)
Lemma valid_guards leap y m d : valid_date leap (y, m, d) ->
  (m <=? 0) = false /\ (12 <? m) = false /\ (d <=? 0) = false /\ (31 <? d) = false
  /\ (y =? 0) = false /\ 0 <= march_month m <= 11 /\ d <= 31.
Proof.
  intros (Hy & Hm & Hd).
  assert (month_length (leap (astro y)) m <= 31) by (unfold month_length; repeat case_goal; lia).
  unfold march_month. rewrite !Z.leb_gt, !Z.ltb_ge, Z.eqb_neq. case_match; reflect_bools; lia.
Qed.

Lemma before_month_bounds M : 0 <= M <= 11 ->
  0 <= before_month M <= 337 /\ (M <= 9 -> before_month M <= 275).
Proof. intros HM. unfold before_month. Z.to_euclidean_division_equations; lia. Qed.

(** The C formula, once the checks have passed. *)
Lemma gregorian_formula Y M d : 0 <= Y -> 0 <= M <= 11 -> 1 <= d <= 31 ->
  (centuries ← int_value (Z.quot Y 100 * DAYS_PER_400_YEARS);
   int_value (Z.quot centuries 4 + Z.quot (Z.rem Y 100 * DAYS_PER_4_YEARS) 4
     + Z.quot (M * DAYS_PER_5_MONTHS + 2) 5 + d - GREGOR_SDN_OFFSET))
  = (if Y <? 1470000 then Some (gregorian_days Y + before_month M + d - GREGOR_SDN_OFFSET) else None).
Proof.
  intros HY HM Hd. change DAYS_PER_400_YEARS with 146097. change DAYS_PER_4_YEARS with 1461.
  change DAYS_PER_5_MONTHS with 153. unfold gregorian_days, before_month.
  replace (M * 153 + 2) with (153 * M + 2) by lia.
  assert (Hr : 0 <= Y mod 100 < 100) by (apply Z.mod_pos_bound; lia).
  assert (Hq : 0 <= Y / 100) by (apply Z.div_pos; lia).
  rewrite (Z.rem_mod_nonneg Y), (Z.quot_div_nonneg Y) by lia.
  destruct (Z.ltb_spec Y 1470000) as [Hl|Hl].
  - assert (Y / 100 <= 14699) by (Z.to_euclidean_division_equations; lia).
    rewrite int_value_ok by int_bounds. cbn [mbind option_bind]. rewrite !Z.quot_div_nonneg by lia.
    apply int_value_ok. unfold INT_MIN, INT_MAX, GREGOR_SDN_OFFSET. Z.to_euclidean_division_equations; lia.
  - assert (14700 <= Y / 100) by (Z.to_euclidean_division_equations; lia).
    unfold int_value. rewrite andb_comm, (proj2 (Z.leb_gt _ INT_MAX)) by int_bounds. done.
Qed.

Lemma julian_formula Y M d : 0 <= Y -> 0 <= M <= 11 -> 1 <= d <= 31 ->
  (days4 ← int_value (Y * DAYS_PER_4_YEARS);
   int_value (Z.quot days4 4 + Z.quot (M * DAYS_PER_5_MONTHS + 2) 5 + d - JULIAN_SDN_OFFSET))
  = (if Y <? 1469873 then Some (julian_days Y + before_month M + d - JULIAN_SDN_OFFSET) else None).
Proof.
  intros HY HM Hd. change DAYS_PER_4_YEARS with 1461. change DAYS_PER_5_MONTHS with 153.
  unfold julian_days, before_month. replace (M * 153 + 2) with (153 * M + 2) by lia.
  destruct (Z.ltb_spec Y 1469873) as [Hl|Hl].
  - rewrite int_value_ok by int_bounds. cbn [mbind option_bind]. rewrite !Z.quot_div_nonneg by lia.
    apply int_value_ok. unfold INT_MIN, INT_MAX, JULIAN_SDN_OFFSET. Z.to_euclidean_division_equations; lia.
  - unfold int_value. rewrite andb_comm, (proj2 (Z.leb_gt _ INT_MAX)) by int_bounds. done.
Qed.

(** A case for each civil month, [H : 1 <= m <= 12]. *)
Ltac each_civil m H :=
  let Hms := fresh in
  assert (m = 1 \/ m = 2 \/ m = 3 \/ m = 4 \/ m = 5 \/ m = 6 \/ m = 7 \/ m = 8 \/ m = 9 \/ m = 10 \/ m = 11
    \/ m = 12) as Hms by lia;
  destruct_or! Hms; subst m.

(** The check for dates before the first day is exact. *)
Lemma gregorian_first y m d : -4714 <= y -> y <> 0 -> 1 <= m <= 12 -> 1 <= d <= 31 ->
  (y =? -4714) && ((m <? 11) || ((m =? 11) && (d <? 25)))
  = (sdn_of gregorian_days GREGOR_SDN_OFFSET (y, m, d) <? 1).
Proof.
  intros Hy Hy0 Hm Hd. unfold sdn_of, GREGOR_SDN_OFFSET.
  destruct (Z.eqb_spec y (-4714)) as [->|Hne]; cbn [andb].
  - each_civil m Hm;
      match goal with |- _ = (?a + d - _ <? _) =>
        let v := eval vm_compute in a in change a with v end; cbn [Z.ltb Z.eqb Z.compare Pos.compare Pos.compare_cont
          Pos.eqb orb andb]; destruct (Z.ltb_spec d 25); symmetry; (apply Z.ltb_lt || apply Z.ltb_ge); lia.
  - symmetry. apply Z.ltb_ge. unfold march_start, march_month, astro, gregorian_days, before_month.
    destruct (Z.ltb_spec 2 m), (Z.ltb_spec y 0); Z.to_euclidean_division_equations; lia.
Qed.

Lemma julian_first y m d : -4713 <= y -> y <> 0 -> 1 <= m <= 12 -> 1 <= d <= 31 ->
  (y =? -4713) && ((m =? 1) && (d =? 1)) = (sdn_of julian_days JULIAN_SDN_OFFSET (y, m, d) <? 1).
Proof.
  intros Hy Hy0 Hm Hd. unfold sdn_of, JULIAN_SDN_OFFSET.
  destruct (Z.eqb_spec y (-4713)) as [->|Hne]; cbn [andb].
  - each_civil m Hm;
      match goal with |- _ = (?a + d - _ <? _) =>
        let v := eval vm_compute in a in change a with v end; cbn [Z.eqb Pos.eqb andb];
      try destruct (Z.eqb_spec d 1); symmetry; (apply Z.ltb_lt || apply Z.ltb_ge); lia.
  - symmetry. apply Z.ltb_ge. unfold march_start, march_month, astro, julian_days, before_month.
    destruct (Z.ltb_spec 2 m), (Z.ltb_spec y 0); Z.to_euclidean_division_equations; lia.
Qed.

(** [GregorianToSdn] on a date of the calendar, in full: 0 before the first
    day, undefined from March 1465200 on. *)
Lemma to_gregorian y m d : valid_date gregorian_leap (y, m, d) ->
  let n := sdn_of gregorian_days GREGOR_SDN_OFFSET (y, m, d) in
  GregorianToSdn y m d =
    if (y <? -4714) || (n <? 1) then Some 0
    else if march_start y m <? 1470000 then Some n else None.
Proof.
  intros Hv. pose proof (valid_guards _ _ _ _ Hv) as (G1 & G2 & G3 & G4 & G5 & HM & H31).
  destruct Hv as (Hy0 & Hm & Hd). cbv zeta. unfold GregorianToSdn.
  rewrite G1, G2, G3, G4, G5. cbn [orb]. destruct (Z.ltb_spec y (-4714)) as [|Hlo]; [done|]. cbn [orb].
  set (n := sdn_of _ _ _).
  pose proof (march_start_bounds y m) as HY. assert (85 <= march_start y m) by (case_match; lia).
  pose proof (gregorian_first y m d Hlo Hy0 Hm ltac:(lia)) as Hfirst. fold n in Hfirst.
  rewrite Hfirst. destruct (n <? 1); [done|].
  destruct (march_year_cases y m Hy0 ltac:(lia)) as [-> | [-> Hbig]]; cbn [mbind option_bind].
  - apply gregorian_formula; [lia|done|lia].
  - by rewrite (proj2 (Z.ltb_ge _ 1470000)) by lia.
Qed.

(** The same for [JulianToSdn]. *)
Lemma to_julian y m d : valid_date julian_leap (y, m, d) ->
  let n := sdn_of julian_days JULIAN_SDN_OFFSET (y, m, d) in
  JulianToSdn y m d =
    if (y <? -4713) || (n <? 1) then Some 0
    else if march_start y m <? 1469873 then Some n else None.
Proof.
  intros Hv. pose proof (valid_guards _ _ _ _ Hv) as (G1 & G2 & G3 & G4 & G5 & HM & H31).
  destruct Hv as (Hy0 & Hm & Hd). cbv zeta. unfold JulianToSdn.
  rewrite G1, G2, G3, G4, G5. cbn [orb]. destruct (Z.ltb_spec y (-4713)) as [|Hlo]; [done|]. cbn [orb].
  set (n := sdn_of _ _ _).
  pose proof (march_start_bounds y m) as HY. assert (85 <= march_start y m) by (case_match; lia).
  pose proof (julian_first y m d Hlo Hy0 Hm ltac:(lia)) as Hfirst. fold n in Hfirst.
  rewrite Hfirst. destruct (n <? 1); [done|].
  destruct (march_year_cases y m Hy0 ltac:(lia)) as [-> | [-> Hbig]]; cbn [mbind option_bind].
  - apply julian_formula; [lia|done|lia].
  - by rewrite (proj2 (Z.ltb_ge _ 1469873)) by lia.
Qed.

(** The days of years before the first one, and of years too far ahead. *)
Lemma sdn_year_bounds (G : Z -> Z) leap off y m d : valid_date leap (y, m, d) ->
  G (march_start y m) - off < sdn_of G off (y, m, d) <= G (march_start y m) + (if 2 <? m then 306 else 368) - off.
Proof.
  intros Hv. pose proof (valid_guards _ _ _ _ Hv) as (_ & _ & _ & _ & _ & HM & H31).
  destruct Hv as (_ & Hm & Hd). pose proof (before_month_bounds _ HM) as [Hb Hb'].
  unfold sdn_of, march_month in *. destruct (2 <? m) eqn:E2; reflect_bools; lia.
Qed.

Lemma gregorian_months y m d : ~ (1 <= m <= 12) -> GregorianToSdn y m d = Some 0.
Proof.
  intros Hm. unfold GregorianToSdn. destruct (Z.leb_spec m 0), (Z.ltb_spec 12 m); [..|lia];
    by rewrite ?orb_true_r, ?orb_false_r.
Qed.

Lemma julian_months y m d : ~ (1 <= m <= 12) -> JulianToSdn y m d = Some 0.
Proof.
  intros Hm. unfold JulianToSdn. destruct (Z.leb_spec m 0), (Z.ltb_spec 12 m); [..|lia];
    by rewrite ?orb_true_r, ?orb_false_r.
Qed.

#[export] Instance gregorian_calendar :
  SolarCalendar GregorianToSdn SdnToGregorian gregorian_leap (-4714, 11, 25) GREGORIAN_LAST.
Proof.
  apply (solar_calendar gregorian_leap gregorian_days GREGOR_SDN_OFFSET gregorian_step).
  - unfold SdnToGregorian. pose proof long_covers. rewrite (proj2 (Z.ltb_ge _ 1)); cycle 1.
    { unfold GREGOR_SDN_OFFSET. rewrite Z.quot_div_nonneg by lia. Z.to_euclidean_division_equations; lia. }
    rewrite long_value_ok by (unfold GREGOR_SDN_OFFSET; lia). vm_compute. reflexivity.
  - exact from_gregorian.
  - intros y m d Hv Hn Hy. rewrite to_gregorian by done. cbv zeta.
    pose proof (sdn_year_bounds gregorian_days gregorian_leap GREGOR_SDN_OFFSET y m d Hv) as Hb.
    revert Hb Hn. generalize (sdn_of gregorian_days GREGOR_SDN_OFFSET (y, m, d)). intros n Hb Hn.
    unfold GREGORIAN_LAST, GREGOR_SDN_OFFSET, gregorian_days in Hb, Hn. pose proof (march_start_bounds y m).
    destruct (2 <? m); (rewrite (proj2 (Z.ltb_ge y _)), (proj2 (Z.ltb_ge _ 1)), (proj2 (Z.ltb_lt _ 1470000));
      [done|Z.to_euclidean_division_equations; lia ..]).
  - intros y m d n Hv. rewrite to_gregorian by done. cbv zeta.
    destruct (Z.ltb_spec y (-4714)); [by intros [= <-]|]. cbn [orb].
    destruct (_ <? 1); [by intros [= <-]|]. case_match; [|done]. intros [= <-] _. split; [done|lia].
  - exact gregorian_months.
Qed.

#[export] Instance julian_calendar :
  SolarCalendar JulianToSdn SdnToJulian julian_leap (-4713, 1, 2) JULIAN_LAST.
Proof.
  apply (solar_calendar julian_leap julian_days JULIAN_SDN_OFFSET julian_step).
  - destruct (from_julian 1) as (Y & doy & Hin & Heq & -> & _); [unfold JULIAN_LAST; lia|]. f_equal.
    assert (Y = 87 /\ doy = 308) as [-> ->]; [|done].
    destruct Hin as [HY Hd]. unfold julian_days, JULIAN_SDN_OFFSET in Heq.
    assert (doy <= 366) by (case_match; lia). Z.to_euclidean_division_equations; lia.
  - exact from_julian.
  - intros y m d Hv Hn Hy. rewrite to_julian by done. cbv zeta.
    pose proof (sdn_year_bounds julian_days julian_leap JULIAN_SDN_OFFSET y m d Hv) as Hb.
    revert Hb Hn. generalize (sdn_of julian_days JULIAN_SDN_OFFSET (y, m, d)). intros n Hb Hn.
    unfold JULIAN_LAST, JULIAN_SDN_OFFSET, julian_days in Hb, Hn. pose proof (march_start_bounds y m).
    destruct (2 <? m); (rewrite (proj2 (Z.ltb_ge y _)), (proj2 (Z.ltb_ge _ 1)), (proj2 (Z.ltb_lt _ 1469873));
      [done|Z.to_euclidean_division_equations; lia ..]).
  - intros y m d n Hv. rewrite to_julian by done. cbv zeta.
    destruct (Z.ltb_spec y (-4713)); [by intros [= <-]|]. cbn [orb].
    destruct (_ <? 1); [by intros [= <-]|]. case_match; [|done]. intros [= <-] _. split; [done|lia].
  - exact julian_months.
Qed.
End Proofs.

(** C29: [SdnToGregorian]/[GregorianToSdn] and [SdnToJulian]/[JulianToSdn] are
    the Gregorian and the Julian calendar, on both sizes of [long], for the
    first 1.46 million years (every day a 32-bit [long] can hold): day 1 is
    November 25, 4714 B.C. in one and January 2, 4713 B.C. in the other, every
    day is the successor of the day before by the leap-year rule and the month
    lengths, every number is converted to a date that exists and back to the
    same number, every date that exists is converted to a number and back to
    the same date, no [int] or [long] expression overflows, and a month that
    does not exist gives 0. *)
Theorem solar_calendars_correct `{Platform} :
  SolarCalendar GregorianToSdn SdnToGregorian gregorian_leap (-4714, 11, 25) GREGORIAN_LAST
  /\ SolarCalendar JulianToSdn SdnToJulian julian_leap (-4713, 1, 2) JULIAN_LAST.
Proof. split; [exact gregorian_calendar|exact julian_calendar]. Qed.

(** ** [cal_days_in_month], through the interface *)
Lemma days_in_month_solar `{Platform} cal leap first last y m n :
  let e := cal_conversion_table cal in
  SolarCalendar (to_jd e) (from_jd e) leap first last -> cal <> CAL_FRENCH ->
  valid_date leap (y, m, 1) -> INT_MIN <= y < INT_MAX -> to_jd e y m 1 = Some n -> 1 <= n -> n + 31 <= last ->
  cal_days_in_month cal m y = Some (inr (month_length (leap (astro y)) m)).
Proof.
  intros e He Hcal Hv Hy Hn H1 Hl. pose proof (next_month y m n Hv Hn H1 Hl) as Hnext.
  pose proof (month_length_bounds (leap (astro y)) m) as Hlen. destruct Hv as (Hy0 & Hm & _).
  pose proof long_covers as HL.
  unfold cal_days_in_month. fold e. rewrite !(to_int_small y), !(to_int_small m) by int_bounds.
  rewrite Hn. cbn [mbind option_bind]. rewrite (proj2 (Z.eqb_neq n 0)) by lia.
  rewrite (long_value_ok (1 + m)) by int_bounds. cbn [mbind option_bind]. rewrite (to_int_small (1 + m)) by int_bounds.
  unfold next_day in Hnext. rewrite Z.ltb_irrefl in Hnext. replace (1 + m) with (m + 1) by lia.
  destruct (Z.ltb_spec m 12) as [H12|H12].
  - rewrite Hnext. cbn [mbind option_bind]. rewrite (proj2 (Z.eqb_neq _ 0)) by lia. cbn [mbind option_bind].
    do 2 f_equal. lia.
  - rewrite (cal_months (SolarCalendar := He) y (m + 1) 1) by lia. cbn [mbind option_bind]. change (0 =? 0) with true. cbn match.
    destruct (Z.eqb_spec y (-1)) as [->|Hy1].
    + rewrite Hnext. cbn [mbind option_bind]. do 2 f_equal. lia.
    + rewrite (long_value_ok (y + 1)) by int_bounds. cbn [mbind option_bind].
      rewrite (to_int_small (y + 1)) by int_bounds. rewrite Hnext. cbn [mbind option_bind]. destruct cal; try done; cbn [mbind option_bind]; do 2 f_equal; lia.
Qed.

(** [cal_days_in_month] gives the length of the month by the leap-year
    rule, in the Gregorian and the Julian calendar, also for December and over
    the turn from 1 B.C. to 1 A.D., where there is no year 0. *)
Theorem cal_days_in_month_correct `{Platform} (y m n : Z) :
  INT_MIN <= y < INT_MAX -> 1 <= n <= JULIAN_LAST - 31 ->
  (valid_date gregorian_leap (y, m, 1) -> GregorianToSdn y m 1 = Some n ->
     cal_days_in_month CAL_GREGORIAN m y = Some (inr (month_length (gregorian_leap (astro y)) m)))
  /\ (valid_date julian_leap (y, m, 1) -> JulianToSdn y m 1 = Some n ->
     cal_days_in_month CAL_JULIAN m y = Some (inr (month_length (julian_leap (astro y)) m))).
Proof.
  unfold JULIAN_LAST. intros Hy Hn. split; intros Hv Hto.
  - apply (days_in_month_solar CAL_GREGORIAN gregorian_leap (-4714, 11, 25) GREGORIAN_LAST y m n);
      [exact gregorian_calendar|done|done|done|done|lia|unfold GREGORIAN_LAST; lia].
  - apply (days_in_month_solar CAL_JULIAN julian_leap (-4713, 1, 2) JULIAN_LAST y m n);
      [exact julian_calendar|done|done|done|done|lia|unfold JULIAN_LAST; lia].
Qed.

(** December of 1 B.C. and February of 1 B.C., a leap year. *)
Lemma cal_days_in_month_correct_witness :
  cal_days_in_month (H := LP64) CAL_GREGORIAN 12 (-1) = Some (inr 31)
  /\ cal_days_in_month (H := LP64) CAL_JULIAN 2 (-1) = Some (inr 29).
Proof.
  split.
  - refine (proj1 (cal_days_in_month_correct (H := LP64) (-1) 12 1721395 _ _) _ _);
      [int_bounds|unfold JULIAN_LAST; lia|repeat split; vm_compute; congruence|vm_compute; reflexivity].
  - refine (proj2 (cal_days_in_month_correct (H := LP64) (-1) 2 1721089 _ _) _ _);
      [int_bounds|unfold JULIAN_LAST; lia|repeat split; vm_compute; congruence|vm_compute; reflexivity].
Defined.

(** With 64-bit longs [SdnToGregorian] multiplies a century by 100 beyond the
    range of [int], where [SdnToJulian] answers that there is no date. *)
Example gregorian_century_overflows :
  SdnToGregorian (H := LP64) (10 ^ 12) = None /\ SdnToJulian (H := LP64) (10 ^ 12) = Some no_date.
Proof. split; vm_compute; reflexivity. Qed.
