(* ===== verification/EasterThms.v ===== *)
(** * EasterThms: the French calendar, Easter and Hebrew numerals of ext/calendar *)
From stdpp Require Import list_numbers.
From S2P Require Import Prelude Calendar CalendarSpec CalendarThms.

(** A boolean property of a range, by evaluation. *)
Lemma all_range (P : Z -> bool) lo n z :
  forallb P (seqZ lo n) = true -> lo <= z < lo + n -> P z = true.
Proof. rewrite forallb_forall. intros H Hz. apply H, list_elem_of_In, elem_of_seqZ. lia. Qed.

(** ** French: 12 months of 30 days and 5 or 6 days at the end of the year *)
Definition french_leap (y : Z) : bool := y mod 4 =? 3.
Definition french_length (y m : Z) : Z := if m =? 13 then (if french_leap y then 6 else 5) else 30.
Definition valid_french (dt : date) : bool :=
  let '(y, m, d) := dt in
  (1 <=? y) && (y <=? 14) && (1 <=? m) && (m <=? 13) && (1 <=? d) && (d <=? french_length y m).
Definition next_french (dt : date) : date :=
  let '(y, m, d) := dt in
  if d <? french_length y m then (y, m, d + 1)
  else if m <? 13 then (y, m + 1, 1) else (y + 1, 1, 1).

Definition french_day_ok (n : Z) : bool :=
  match SdnToFrench n with
  | Some (y, m, d) =>
      valid_french (y, m, d) && bool_decide (FrenchToSdn y m d = Some n)
      && ((n =? LAST_VALID) || bool_decide (SdnToFrench (n + 1) = Some (next_french (y, m, d))))
  | None => false
  end.
Definition french_date_ok (y m d : Z) : bool :=
  negb (valid_french (y, m, d))
  || match FrenchToSdn y m d with
     | Some n => (FIRST_VALID <=? n) && (n <=? LAST_VALID) && bool_decide (SdnToFrench n = Some (y, m, d))
     | None => false
     end.

(** [SdnToFrench] and [FrenchToSdn] are the French republican calendar
    from 1 Vendemiaire 1 to the end of the year 14: every day is the successor
    of the day before, and the two functions are inverse to each other on the
    dates that exist. *)
Theorem french_calendar_correct :
  SdnToFrench FIRST_VALID = Some (1, 1, 1)
  /\ (forall n, FIRST_VALID <= n <= LAST_VALID ->
        exists y m d, SdnToFrench n = Some (y, m, d) /\ valid_french (y, m, d) = true
          /\ FrenchToSdn y m d = Some n
          /\ (n < LAST_VALID -> SdnToFrench (n + 1) = Some (next_french (y, m, d))))
  /\ (forall y m d, valid_french (y, m, d) = true ->
        exists n, FrenchToSdn y m d = Some n /\ FIRST_VALID <= n <= LAST_VALID
          /\ SdnToFrench n = Some (y, m, d)).
Proof.
  split; [done|]. split.
  - intros n Hn. assert (Hok : french_day_ok n = true).
    { apply (all_range french_day_ok FIRST_VALID 5113); [vm_compute; reflexivity|].
      unfold FIRST_VALID, LAST_VALID in *. lia. }
    unfold french_day_ok in Hok. destruct (SdnToFrench n) as [[[y m] d]|]; [|done].
    apply andb_true_iff in Hok as [Hok Hnext]. apply andb_true_iff in Hok as [Hv Hto].
    exists y, m, d. split; [done|]. split; [done|]. split; [by apply bool_decide_eq_true in Hto|].
    intros Hl. apply orb_true_iff in Hnext as [Hn'%Z.eqb_eq|Hn'%bool_decide_eq_true]; [lia|done].
  - intros y m d Hv. assert (Hb : 1 <= y < 1 + 14 /\ 1 <= m < 1 + 13 /\ 1 <= d < 1 + 30).
    { unfold valid_french in Hv. reflect_bools. unfold french_length in *. repeat case_match; lia. }
    destruct Hb as (By & Bm & Bd).
    assert (Hok : forallb (fun y => forallb (fun m => forallb (french_date_ok y m) (seqZ 1 30)) (seqZ 1 13)) (seqZ 1 14) = true)
      by (vm_compute; reflexivity).
    pose proof (all_range _ 1 14 y Hok By) as Hok1. pose proof (all_range _ 1 13 m Hok1 Bm) as Hok2.
    pose proof (all_range _ 1 30 d Hok2 Bd) as Hok3. clear Hok Hok1 Hok2. unfold french_date_ok in Hok3. rewrite Hv in Hok3. simpl negb in Hok3.
    cbn [orb] in Hok3. destruct (FrenchToSdn y m d) as [n|]; [|done].
    apply andb_true_iff in Hok3 as [Hr Hs%bool_decide_eq_true]. reflect_bools. by exists n.
Qed.

(** ** Easter *)
Lemma wrap_neg_mod x m : 0 < m -> wrap_neg (Z.rem x m) m = x mod m.
Proof.
  intros Hm. unfold wrap_neg. destruct (Z.le_gt_cases 0 x) as [Hx|Hx].
  - rewrite Z.rem_mod_nonneg by lia. pose proof (Z.mod_pos_bound x m). by rewrite (proj2 (Z.ltb_ge _ 0)) by lia.
  - pose proof (Z.rem_opp_l' (- x) m) as Ho. rewrite Z.opp_involutive in Ho. rewrite Ho.
    rewrite Z.rem_mod_nonneg by lia. pose proof (Z.mod_pos_bound (- x) m Hm) as Hb.
    destruct (Z.eq_dec ((- x) mod m) 0) as [E|E].
    + rewrite E. change (- 0 <? 0) with false. cbn match.
      symmetry. rewrite <- (Z.opp_involutive x). by apply Z.mod_opp_l_z; [lia|].
    + rewrite (proj2 (Z.ltb_lt _ 0)) by lia. symmetry. rewrite <- (Z.opp_involutive x) at 1.
      rewrite Z.mod_opp_l_nz by (lia || done). lia.
Qed.

(** The days before a year, the way calendars are explained. *)
Lemma gregorian_days_365 Y : gregorian_days Y = 365 * Y + Y / 4 - Y / 100 + Y / 400.
Proof. unfold gregorian_days. Z.to_euclidean_division_equations; lia. Qed.
Lemma julian_days_365 Y : julian_days Y = 365 * Y + Y / 4.
Proof. unfold julian_days. Z.to_euclidean_division_equations; lia. Qed.

(** [easter_days] without the overflow checks: the number of days after March
    21, from the Paschal full moon [pfm] and the Sunday number [dom]. *)
Definition full_moon (julian : bool) (year : Z) : Z :=
  let golden := Z.rem year 19 + 1 in
  let pfm :=
    if julian then (3 - 11 * golden - 7) mod 30
    else (3 - 11 * golden + (Z.quot (year - 1600) 100 - Z.quot (year - 1600) 400)
          - Z.quot (Z.quot (year - 1400) 100 * 8) 25) mod 30 in
  if (pfm =? 29) || ((pfm =? 28) && (11 <? golden)) then pfm - 1 else pfm.
Definition sunday_number (julian : bool) (year : Z) : Z :=
  if julian then (year + year / 4 + 5) mod 7 else (year + year / 4 - year / 100 + year / 400) mod 7.
Definition easter (julian : bool) (year : Z) : Z :=
  let pfm := full_moon julian year in pfm + (4 - pfm - sunday_number julian year) mod 7 + 1.

Lemma easter_days_eq `{Platform} year method : 0 <= year <= 1000000 ->
  easter_days year method = Some (easter (use_julian year method) year).
Proof.
  intros Hy. pose proof long_covers. unfold easter_days, easter, full_moon, sunday_number.
  rewrite !Z.quot_div_nonneg by lia.
  assert (0 <= year / 4 <= year) by (Z.to_euclidean_division_equations; lia).
  destruct (use_julian year method).
  - rewrite long_value_ok by lia. cbn [mbind option_bind]. by rewrite !wrap_neg_mod by lia.
  - rewrite (long_value_ok (year + year / 4)) by lia. cbn [mbind option_bind].
    rewrite (long_value_ok (year - 1600)) by lia. cbn [mbind option_bind]. by rewrite !wrap_neg_mod by lia.
Qed.

Lemma full_moon_bounds julian year : 0 <= year -> 0 <= full_moon julian year <= 28.
Proof.
  intros Hy. unfold full_moon. set (x := if julian then _ else _).
  assert (0 <= x < 30) by (unfold x; destruct julian; apply Z.mod_pos_bound; lia).
  destruct (Z.eqb_spec x 29), (Z.eqb_spec x 28); cbn [orb andb]; [lia..| |lia].
  case_match; lia.
Qed.

(** Easter is a Sunday. *)
Lemma easter_sunday_gregorian y : 0 <= y ->
  (gregorian_days (y + 4800) + 21 - 32045 + easter false y + 1) mod 7 = 0.
Proof.
  intros Hy. unfold easter. generalize (full_moon false y). intros pfm.
  unfold sunday_number. rewrite gregorian_days_365. Z.to_euclidean_division_equations; lia.
Qed.
Lemma easter_sunday_julian y : 0 <= y ->
  (julian_days (y + 4800) + 21 - 32083 + easter true y + 1) mod 7 = 0.
Proof.
  intros Hy. unfold easter. generalize (full_moon true y). intros pfm.
  unfold sunday_number. rewrite julian_days_365. Z.to_euclidean_division_equations; lia.
Qed.

(** March 21 as a day number. *)
Lemma march_21_julian `{Platform} year : 1 <= year <= 1000000 ->
  let n := julian_days (year + 4800) + 21 - 32083 in JulianToSdn year 3 21 = Some n /\ 0 <= n <= 10 ^ 9.
Proof.
  intros Hy n. assert (Hn : 1 <= n <= 10 ^ 9) by (unfold n, julian_days; Z.to_euclidean_division_equations; lia).
  split; [|lia]. rewrite to_julian by (repeat split; unfold month_length; simpl; lia).
  unfold sdn_of, march_start, astro. rewrite !(proj2 (Z.ltb_ge year _)) by lia.
  change (before_month (march_month 3)) with 0. change (2 <? 3) with true. cbn match.
  replace (year + 4800 - 0) with (year + 4800) by lia. rewrite (proj2 (Z.ltb_lt _ 1469873)) by lia.
  replace (julian_days (year + 4800) + 0 + 21 - JULIAN_SDN_OFFSET) with n by (unfold n, JULIAN_SDN_OFFSET; lia).
  by rewrite (proj2 (Z.ltb_ge n 1)) by lia.
Qed.
Lemma march_21_gregorian `{Platform} year : 1 <= year <= 1000000 ->
  let n := gregorian_days (year + 4800) + 21 - 32045 in GregorianToSdn year 3 21 = Some n /\ 0 <= n <= 10 ^ 9.
Proof.
  intros Hy n. assert (Hn : 1 <= n <= 10 ^ 9) by (unfold n, gregorian_days; Z.to_euclidean_division_equations; lia).
  split; [|lia]. rewrite to_gregorian by (repeat split; unfold month_length; simpl; lia).
  unfold sdn_of, march_start, astro. rewrite !(proj2 (Z.ltb_ge year _)) by lia.
  change (before_month (march_month 3)) with 0. change (2 <? 3) with true. cbn match.
  replace (year + 4800 - 0) with (year + 4800) by lia. rewrite (proj2 (Z.ltb_lt _ 1470000)) by lia.
  replace (gregorian_days (year + 4800) + 0 + 21 - GREGOR_SDN_OFFSET) with n by (unfold n, GREGOR_SDN_OFFSET; lia).
  by rewrite (proj2 (Z.ltb_ge n 1)) by lia.
Qed.

(** The anonymous Gregorian algorithm, as printed by Meeus: days after March 21. *)
Definition computus (Y : Z) : Z :=
  let a := Y mod 19 in let b := Y / 100 in let c := Y mod 100 in
  let d := b / 4 in let e := b mod 4 in let f := (b + 8) / 25 in
  let g := (b - f + 1) / 3 in let h := (19 * a + b - d - g + 15) mod 30 in
  let i := c / 4 in let k := c mod 4 in let l := (32 + 2 * e + 2 * i - h - k) mod 7 in
  let m := (a + 11 * h + 22 * l) / 451 in
  let month := (h + l - 7 * m + 114) / 31 in
  let day := (h + l - 7 * m + 114) mod 31 + 1 in
  if month =? 3 then day - 21 else day + 10.

(** [easter_days] (and [easter_date], through it): for every year up to a
    million and every method the result is 1 to 35 days after March 21, in the
    calendar the method selects, and it is a Sunday by [DayOfWeek]; from the
    year 1583 to 4099 the Gregorian result is the date of the anonymous
    algorithm.  [easter_date] turns it into the same day of March or April. *)
Theorem easter_days_correct `{Platform} (year method : Z) :
  1 <= year <= 1000000 ->
  exists e n, easter_days year method = Some e /\ 1 <= e <= 35
    /\ (if use_julian year method then JulianToSdn else GregorianToSdn) year 3 21 = Some n
    /\ DayOfWeek (n + e) = Some 0
    /\ (use_julian year method = false -> 1583 <= year <= 4099 -> e = computus year)
    /\ (1970 <= year <= 2037 -> exists mon mday, easter_date_tm year method = Some (Some (mon, mday))
          /\ ((mon = 2 /\ 22 <= mday <= 31 /\ mday - 21 = e) \/ (mon = 3 /\ 1 <= mday <= 25 /\ mday + 10 = e))).
Proof.
  intros Hy. pose proof long_covers as HL. pose proof (easter_days_eq year method ltac:(lia)) as He.
  pose proof (full_moon_bounds (use_julian year method) year ltac:(lia)) as Hm.
  pose proof (Z.mod_pos_bound (4 - full_moon (use_julian year method) year
    - sunday_number (use_julian year method) year) 7 ltac:(lia)) as Ht.
  assert (Hb : 1 <= easter (use_julian year method) year <= 35) by (unfold easter; lia).
  assert (Hd : exists n, (if use_julian year method then JulianToSdn else GregorianToSdn) year 3 21 = Some n
    /\ 0 <= n <= 10 ^ 9 /\ (n + easter (use_julian year method) year + 1) mod 7 = 0).
  { destruct (use_julian year method).
    - destruct (march_21_julian year Hy) as [H1 H2]. eexists. split; [exact H1|]. split; [exact H2|].
      apply easter_sunday_julian. lia.
    - destruct (march_21_gregorian year Hy) as [H1 H2]. eexists. split; [exact H1|]. split; [exact H2|].
      apply easter_sunday_gregorian. lia. }
  destruct Hd as (n & Hn & Hnb & Hs). exists (easter (use_julian year method) year), n.
  split; [done|]. split; [done|]. split; [done|]. split; [|split].
  - unfold DayOfWeek. rewrite long_value_ok by lia. cbn [mbind option_bind].
    rewrite Z.rem_mod_nonneg, Hs by lia. done.
  - intros -> Hr. apply Z.eqb_eq.
    apply (all_range (fun y => easter false y =? computus y) 1583 2517); [vm_compute; reflexivity|lia].
  - intros Hr. unfold easter_date_tm. rewrite (proj2 (Z.ltb_ge year _)), (proj2 (Z.ltb_ge 2037 year)) by lia.
    cbn [orb]. rewrite He. cbn [mbind option_bind].
    destruct (Z.ltb_spec (easter (use_julian year method) year) 11); eexists _, _; (split; [done|]); lia.
Qed.

Lemma easter_days_correct_witness :
  easter_days (H := LP64) 2000 CAL_EASTER_DEFAULT = Some 33
  /\ exists e n, easter_days (H := LP64) 2000 CAL_EASTER_DEFAULT = Some e
    /\ GregorianToSdn 2000 3 21 = Some n /\ DayOfWeek (H := LP64) (n + e) = Some 0 /\ e = computus 2000.
Proof.
  split; [vm_compute; reflexivity|].
  destruct (easter_days_correct (H := LP64) 2000 CAL_EASTER_DEFAULT) as (e & n & H1 & _ & H2 & H3 & H4 & _); [lia|].
  exists e, n. split; [exact H1|]. split; [exact H2|]. split; [exact H3|]. apply H4; [reflexivity|lia].
Defined.

(** ** Hebrew numerals *)

(** The number a letter of [alef_bet] stands for. *)
Definition letter_value (c : Z) : Z :=
  match list_find (fun x => x = c) alef_bet with
  | Some (i, _) =>
      let i := Z.of_nat i in
      if i <=? 9 then i else if i <=? 18 then 10 * (i - 9) else 100 * (i - 18)
  | None => 0
  end.
Definition hebrew_value (p : list Z) : Z := foldr (fun c acc => letter_value c + acc) 0 p.

Definition hebrew_ok (n : Z) : bool :=
  match heb_number_to_chars n 0 with Some (Some p) => hebrew_value p =? n | _ => false end.

Lemma put_old_ok cs old : (length old + length cs <= 18)%nat -> put_old cs old = Some (old ++ cs).
Proof. intros Hl. unfold put_old. by rewrite (proj2 (Nat.leb_le _ _)). Qed.

Lemma letter_some i : 0 <= i < 25 -> is_Some (letter i).
Proof.
  intros Hi. unfold letter. rewrite (proj2 (Z.ltb_ge i 0)) by lia. apply lookup_lt_is_Some. simpl. lia.
Qed.

(** [c ← letter i; put_old [c] p] in a buffer that is not full. *)
Lemma put_letter i p : 0 <= i < 25 -> (length p < 18)%nat ->
  exists c, (c ← letter i; put_old [c] p) = Some (p ++ [c]).
Proof.
  intros [c Hc]%letter_some Hp. exists c. rewrite Hc. cbn [mbind option_bind]. apply put_old_ok. simpl. lia.
Qed.

Lemma tav_loop_ok fuel : forall n p, 0 <= n < 400 * (Z.of_nat fuel + 1) -> (length p + fuel <= 18)%nat ->
  exists n' q, tav_loop fuel n p = Some (n', q) /\ 0 <= n' < 400 /\ (length p <= length q <= length p + fuel)%nat.
Proof.
  induction fuel as [|fuel IH]; intros n p Hn Hp; simpl; destruct (Z.leb_spec 400 n); try lia;
    [by exists n, p; split; [done|lia]| |by exists n, p; split; [done|lia]].
  rewrite put_old_ok by (simpl; lia). cbn [mbind option_bind].
  destruct (IH (n - 400) (p ++ [250])) as (n' & q & -> & Hn' & Hq); [lia|rewrite length_app; simpl; lia|].
  rewrite length_app in Hq. simpl in Hq. exists n', q. split; [done|]. lia.
Qed.

Lemma put_rest_ok n p : 0 <= n < 400 -> (length p <= 15)%nat ->
  exists q, put_rest n p = Some q /\ (length p <= length q <= length p + 3)%nat.
Proof.
  intros Hn Hp.
  assert (Hhundreds : exists n' q, (if 100 <=? n then c ← letter (18 + Z.quot n 100);
      p ← put_old [c] p; Some (Z.rem n 100, p) else Some (n, p)) = Some (n', q)
    /\ 0 <= n' < 100 /\ (length p <= length q <= length p + 1)%nat).
  { destruct (Z.leb_spec 100 n); [|exists n, p; split; [done|lia]].
    assert (Hi : 0 <= 18 + Z.quot n 100 < 25) by (rewrite Z.quot_div_nonneg by lia; Z.to_euclidean_division_equations; lia).
    destruct (letter_some _ Hi) as [c ->]. cbn [mbind option_bind]. rewrite put_old_ok by (simpl; lia).
    cbn [mbind option_bind]. exists (Z.rem n 100), (p ++ [c]). rewrite length_app, Z.rem_mod_nonneg by lia. split; [done|].
    pose proof (Z.mod_pos_bound n 100). simpl. lia. }
  unfold put_rest. destruct Hhundreds as (n1 & q1 & -> & Hn1 & Hq1). cbn [mbind option_bind].
  destruct ((n1 =? 15) || (n1 =? 16)) eqn:E15.
  - assert (n1 = 15 \/ n1 = 16) as Hn15 by (apply orb_true_iff in E15 as [E%Z.eqb_eq|E%Z.eqb_eq]; lia).
    destruct (letter_some 9 ltac:(lia)) as [c ->], (letter_some (n1 - 9) ltac:(lia)) as [d ->]. cbn [mbind option_bind].
    rewrite put_old_ok by (simpl; lia). eexists. split; [done|]. rewrite length_app. simpl. lia.
  - assert (Htens : exists n' q, (if 10 <=? n1 then c ← letter (9 + Z.quot n1 10);
        p ← put_old [c] q1; Some (Z.rem n1 10, p) else Some (n1, q1)) = Some (n', q)
      /\ 0 <= n' < 10 /\ (length q1 <= length q <= length q1 + 1)%nat).
    { destruct (Z.leb_spec 10 n1); [|exists n1, q1; split; [done|lia]].
      assert (Hi : 0 <= 9 + Z.quot n1 10 < 25) by (rewrite Z.quot_div_nonneg by lia; Z.to_euclidean_division_equations; lia).
      destruct (letter_some _ Hi) as [c ->]. cbn [mbind option_bind]. rewrite put_old_ok by (simpl; lia).
      cbn [mbind option_bind]. exists (Z.rem n1 10), (q1 ++ [c]). rewrite length_app, Z.rem_mod_nonneg by lia. split; [done|].
      pose proof (Z.mod_pos_bound n1 10). simpl. lia. }
    destruct Htens as (n2 & q2 & -> & Hn2 & Hq2). cbn [mbind option_bind].
    destruct (Z.ltb_spec 0 n2); [|exists q2; split; [done|lia]].
    destruct (put_letter n2 q2 ltac:(lia) ltac:(lia)) as [c Hc]. rewrite Hc. eexists. split; [done|].
    rewrite length_app. simpl. lia.
Qed.

Lemma put_alafim_ok n fl : 1 <= n <= 9999 ->
  exists n' p k, put_alafim n fl = Some (n', p, k) /\ 0 <= n' < 1000 /\ length p = k /\ (k <= 9)%nat.
Proof.
  intros Hn. unfold put_alafim. rewrite Z.quot_div_nonneg by lia.
  destruct (Z.eqb_spec (n / 1000) 0) as [E|E].
  { exists n, [], 0%nat. split; [done|]. split; [|simpl; lia]. Z.to_euclidean_division_equations; lia. }
  assert (Hi : 0 <= n / 1000 < 25) by (Z.to_euclidean_division_equations; lia).
  destruct (letter_some _ Hi) as [c ->]. cbn [mbind option_bind]. rewrite put_old_ok by (simpl; lia).
  cbn [mbind option_bind]. rewrite Z.rem_mod_nonneg by lia. pose proof (Z.mod_pos_bound n 1000 ltac:(lia)).
  destruct (has_flag CAL_JEWISH_ADD_ALAFIM_GERESH fl), (has_flag CAL_JEWISH_ADD_ALAFIM fl);
    cbn [mbind option_bind]; repeat (rewrite put_old_ok by (rewrite ?length_app; simpl; lia); cbn [mbind option_bind]);
    eexists _, _, _; (split; [done|]); (split; [done|]); (split; [done|]); rewrite ?length_app; simpl; lia.
Qed.

(** [heb_number_to_chars] never writes past its 18-byte buffer: for every
    number from 1 to 9999 and every value of the flags it returns a string that
    leaves room for the terminator; without flags the letters of a number below
    1000 add up to the number (15 and 16 included, which have letters of their
    own); other numbers give [NULL]. *)
Theorem heb_number_to_chars_safe (n fl : Z) :
  (1 <= n <= 9999 -> exists p, heb_number_to_chars n fl = Some (Some p) /\ (length p <= 17)%nat)
  /\ (1 <= n <= 999 -> exists p, heb_number_to_chars n 0 = Some (Some p) /\ hebrew_value p = n)
  /\ (~ (1 <= n <= 9999) -> heb_number_to_chars n fl = Some None).
Proof.
  split; [|split].
  - intros Hn. unfold heb_number_to_chars. rewrite (proj2 (Z.ltb_ge 9999 n)), (proj2 (Z.ltb_ge n 1)) by lia. cbn [orb].
    destruct (put_alafim_ok n fl Hn) as (n1 & p1 & k & -> & Hn1 & Hk & Hk9). cbn [mbind option_bind].
    destruct (tav_loop_ok 3 n1 p1) as (n2 & p2 & -> & Hn2 & Hp2); [lia|lia|]. cbn [mbind option_bind].
    destruct (put_rest_ok n2 p2) as (p3 & -> & Hp3); [lia|lia|]. cbn [mbind option_bind].
    assert (Hfin : forall p, (length p <= 17)%nat -> exists p', (_ ← put_old [0] p; Some (Some p)) = Some (Some p')
      /\ (length p' <= 17)%nat) by (intros p Hp; rewrite put_old_ok by (simpl; lia); by exists p).
    destruct (has_flag CAL_JEWISH_ADD_GERESHAYIM fl); cbn [mbind option_bind]; [|apply Hfin; lia].
    destruct (length p3 - k)%nat as [|[|j]] eqn:Ej; cbn [mbind option_bind]; [apply Hfin; lia|..].
    + rewrite put_old_ok by (simpl; lia). cbn [mbind option_bind]. apply Hfin. rewrite length_app. simpl. lia.
    + destruct (last p3) as [c|] eqn:El; [|by apply last_None in El; subst p3].
      cbn [mbind option_bind]. rewrite put_old_ok by (rewrite length_take; simpl; lia). cbn [mbind option_bind].
      apply Hfin. rewrite length_app, length_take. simpl. lia.
  - intros Hn. assert (Hok : hebrew_ok n = true)
      by (apply (all_range hebrew_ok 1 999); [vm_compute; reflexivity|lia]).
    unfold hebrew_ok in Hok. destruct (heb_number_to_chars n 0) as [[p|]|]; [|done..].
    exists p. split; [done|]. by apply Z.eqb_eq.
  - intros Hn. unfold heb_number_to_chars. destruct (Z.ltb_spec 9999 n), (Z.ltb_spec n 1); done || lia.
Qed.

(** 9999 with all flags, the longest numeral. *)
Lemma heb_number_to_chars_safe_witness :
  exists p, heb_number_to_chars 9999 14 = Some (Some p) /\ (length p <= 17)%nat.
Proof. exact (proj1 (heb_number_to_chars_safe 9999 14) ltac:(lia)). Defined.
