(* ===== verification/JewishThms.v ===== *)
(** * JewishThms: the Jewish calendar of ext/calendar/jewish.c

    The molad (new moon) of Tishri of year [Y] is [molad Y] halakim after the
    epoch; everything the code computes by cycles and loops is related to this
    one function. *)
From S2P Require Import Prelude Calendar CalendarSpec CalendarThms.

(** ** The calendar in closed form *)
Definition cycle_year (Y : Z) : Z := (Y - 1) mod 19.
Definition months_of (i : Z) : Z := nth (Z.to_nat i) monthsPerYear 0.
Definition offset_of (i : Z) : Z := nth (Z.to_nat i) yearOffset 0.
Definition molad (Y : Z) : Z := 31524 + 765433 * (235 * ((Y - 1) / 19) + offset_of (cycle_year Y)).
Definition mday (Y : Z) : Z := molad Y / 25920.
Definition mhal (Y : Z) : Z := molad Y mod 25920.
(** Rosh Ha-Shanah. *)
Definition tishri (Y : Z) : Z := Tishri1 (cycle_year Y) (mday Y) (mhal Y).
Definition leap_year (Y : Z) : bool := months_of (cycle_year Y) =? 13.

Lemma cycle_range Y : 0 <= cycle_year Y <= 18.
Proof. unfold cycle_year. pose proof (Z.mod_pos_bound (Y - 1) 19). lia. Qed.

(** A case for each year of the cycle, [H : 0 <= i <= 18]. *)
Ltac each_year i H :=
  let Hi := fresh in
  assert (i = 0 \/ i = 1 \/ i = 2 \/ i = 3 \/ i = 4 \/ i = 5 \/ i = 6 \/ i = 7 \/ i = 8 \/ i = 9 \/ i = 10
    \/ i = 11 \/ i = 12 \/ i = 13 \/ i = 14 \/ i = 15 \/ i = 16 \/ i = 17 \/ i = 18) as Hi by lia;
  destruct_or! Hi; subst i.

Lemma offset_step i : 0 <= i <= 18 ->
  (if i =? 18 then 235 else offset_of (i + 1)) = offset_of i + months_of i
  /\ (months_of i = 12 \/ months_of i = 13) /\ 0 <= offset_of i <= 222.
Proof. intros Hi. each_year i Hi; vm_compute; intuition congruence. Qed.

Lemma months_in_ok i : 0 <= i <= 18 -> months_in i = Some (months_of i).
Proof. intros Hi. each_year i Hi; reflexivity. Qed.
Lemma months_before_ok i : 0 <= i <= 18 -> months_before i = Some (offset_of i).
Proof. intros Hi. each_year i Hi; reflexivity. Qed.

Lemma cycle_year_next Y : 1 <= Y ->
  cycle_year (Y + 1) = (if cycle_year Y =? 18 then 0 else cycle_year Y + 1)
  /\ Y / 19 = (Y - 1) / 19 + (if cycle_year Y =? 18 then 1 else 0).
Proof.
  intros HY. unfold cycle_year. replace (Y + 1 - 1) with Y by lia.
  destruct (Z.eqb_spec ((Y - 1) mod 19) 18); Z.to_euclidean_division_equations; lia.
Qed.

(** A year has 12 or 13 lunar months. *)
Lemma molad_next Y : 1 <= Y -> molad (Y + 1) = molad Y + 765433 * months_of (cycle_year Y).
Proof.
  intros HY. unfold molad. destruct (cycle_year_next Y HY) as [-> Hd].
  replace (Y + 1 - 1) with Y by lia. rewrite Hd.
  destruct (offset_step (cycle_year Y) (cycle_range Y)) as [Ho _].
  destruct (cycle_year Y =? 18); [change (offset_of 0) with 0; lia|lia].
Qed.

Lemma molad_pos Y : 1 <= Y -> 31524 <= molad Y.
Proof.
  intros HY. unfold molad. destruct (offset_step (cycle_year Y) (cycle_range Y)) as (_ & _ & Ho).
  assert (0 <= (Y - 1) / 19) by (apply Z.div_pos; lia). lia.
Qed.

Lemma molad_cycle_start c : molad (19 * c + 1) = 31524 + c * 179876755.
Proof.
  unfold molad, cycle_year. replace (19 * c + 1 - 1) with (c * 19) by lia.
  rewrite Z.div_mul, Z.mod_mul by lia. change (offset_of 0) with 0. lia.
Qed.

(** Years apart, in days: 354 or 355, 383 or 384. *)
Lemma mday_next Y : 1 <= Y ->
  (months_of (cycle_year Y) = 12 /\ mday Y + 354 <= mday (Y + 1) <= mday Y + 355)
  \/ (months_of (cycle_year Y) = 13 /\ mday Y + 383 <= mday (Y + 1) <= mday Y + 384).
Proof.
  intros HY. unfold mday. rewrite molad_next by done.
  destruct (offset_step (cycle_year Y) (cycle_range Y)) as (_ & [E|E] & _); rewrite E; [left|right];
    (split; [done|]); Z.to_euclidean_division_equations; lia.
Qed.

(** ** The four postponements *)

(** By how many days a new year is put off: [w] is the day of the week of the
    molad and [h] its time, [lp] says that the year is a leap year, [lw] that
    the year before was one. *)
Definition postponed (lp lw : bool) (w h : Z) : Z :=
  let b := (19440 <=? h) || (negb lp && (w =? 2) && (9924 <=? h)) || (lw && (w =? 1) && (16789 <=? h)) in
  let w := if b then (if w + 1 =? 7 then 0 else w + 1) else w in
  (if b then 1 else 0) + (if (w =? 3) || (w =? 5) || (w =? 0) then 1 else 0).
Definition is_leap (i : Z) : bool := months_of i =? 13.
Definition after_leap (i : Z) : bool := months_of (if i =? 0 then 18 else i - 1) =? 13.

Lemma Tishri1_postponed i D h : 0 <= i <= 18 -> 0 <= D ->
  Tishri1 i D h = D + postponed (is_leap i) (after_leap i) (D mod 7) h.
Proof.
  intros Hi HD. unfold Tishri1. rewrite Z.rem_mod_nonneg by lia. unfold postponed, SUNDAY, MONDAY, TUESDAY,
    WEDNESDAY, FRIDAY. change NOON with 19440. change AM3_11_20 with 9924. change AM9_32_43 with 16789.
  generalize (D mod 7) as w. intros w.
  assert (Hl : ((i =? 2) || (i =? 5) || (i =? 7) || (i =? 10) || (i =? 13) || (i =? 16) || (i =? 18)) = is_leap i
    /\ ((i =? 3) || (i =? 6) || (i =? 8) || (i =? 11) || (i =? 14) || (i =? 17) || (i =? 0)) = after_leap i)
    by (each_year i Hi; done).
  destruct Hl as [-> ->]. destruct (_ || _ || _); cbn match; case_match; lia.
Qed.

Lemma postponed_bounds lp lw w h : 0 <= postponed lp lw w h <= 2.
Proof. unfold postponed. do 2 case_match; lia. Qed.

(** The rules keep every common year at 353 to 355 days and every leap year at
    383 to 385. *)
Ltac weekday w H :=
  let Hw := fresh in
  assert (w = 0 \/ w = 1 \/ w = 2 \/ w = 3 \/ w = 4 \/ w = 5 \/ w = 6) as Hw by lia;
  destruct_or! Hw; subst w.
Ltac eval_mod :=
  match goal with |- context [?x mod 7] => let v := eval vm_compute in (x mod 7) in change (x mod 7) with v end.
Ltac compare_times :=
  repeat match goal with |- context [Z.leb ?a ?h] => destruct (Z.leb_spec a h) end.

(** Either the times contradict each other or the goal can be evaluated. *)
Ltac closed_case := first [exfalso; lia | vm_compute; split; discriminate].

Lemma common_length lp' lw w h carry h' : 0 <= w <= 6 -> 0 <= h < 25920 -> 0 <= carry <= 1 ->
  h' = h + 9516 - 25920 * carry -> 0 <= h' < 25920 ->
  -1 <= carry + postponed lp' false ((w + 4 + carry) mod 7) h' - postponed false lw w h <= 1.
Proof.
  intros Hw Hh Hc -> Hh'. assert (carry = 0 \/ carry = 1) as [-> | ->] by lia;
    weekday w Hw; eval_mod; unfold postponed; cbn -[Z.leb Z.add Z.sub Z.mul]; compare_times;
    destruct lp', lw; closed_case.
Qed.

Lemma leap_length lw w h carry h' : 0 <= w <= 6 -> 0 <= h < 25920 -> 0 <= carry <= 1 ->
  h' = h + 23269 - 25920 * carry -> 0 <= h' < 25920 ->
  0 <= carry + postponed false true ((w + 5 + carry) mod 7) h' - postponed true lw w h <= 2.
Proof.
  intros Hw Hh Hc -> Hh'. assert (carry = 0 \/ carry = 1) as [-> | ->] by lia;
    weekday w Hw; eval_mod; unfold postponed; cbn -[Z.leb Z.add Z.sub Z.mul]; compare_times;
    destruct lw; closed_case.
Qed.

Definition next_index (i : Z) : Z := if i =? 18 then 0 else i + 1.

Lemma leap_pattern i : 0 <= i <= 18 ->
  after_leap (next_index i) = is_leap i /\ (is_leap i = true -> is_leap (next_index i) = false)
  /\ months_of i = (if is_leap i then 13 else 12).
Proof. intros Hi. each_year i Hi; done. Qed.

Lemma mday_pos Y : 1 <= Y -> 1 <= mday Y.
Proof. intros HY. unfold mday. pose proof (molad_pos Y HY). Z.to_euclidean_division_equations; lia. Qed.
Lemma mhal_range Y : 0 <= mhal Y < 25920.
Proof. apply Z.mod_pos_bound. lia. Qed.
Lemma molad_split Y : molad Y = 25920 * mday Y + mhal Y.
Proof. apply Z.div_mod. lia. Qed.

(** A year later: the molad moves on by 354 days and 9516 halakim, or by 383
    days and 23269. *)
Lemma molad_carry Y : 1 <= Y -> exists carry, 0 <= carry <= 1
  /\ mday (Y + 1) = mday Y + (if is_leap (cycle_year Y) then 383 else 354) + carry
  /\ mhal (Y + 1) = mhal Y + (if is_leap (cycle_year Y) then 23269 else 9516) - 25920 * carry.
Proof.
  intros HY. pose proof (molad_next Y HY) as Hn. destruct (leap_pattern _ (cycle_range Y)) as (_ & _ & Hm).
  rewrite Hm, !molad_split in Hn. pose proof (mhal_range Y). pose proof (mhal_range (Y + 1)).
  destruct (is_leap (cycle_year Y));
    [exists (mday (Y + 1) - mday Y - 383)|exists (mday (Y + 1) - mday Y - 354)]; lia.
Qed.

Lemma tishri_eq Y : 1 <= Y -> tishri Y =
  mday Y + postponed (is_leap (cycle_year Y)) (after_leap (cycle_year Y)) (mday Y mod 7) (mhal Y).
Proof. intros HY. apply Tishri1_postponed; [apply cycle_range|]. pose proof (mday_pos Y HY). lia. Qed.

Lemma tishri_bounds Y : 1 <= Y -> mday Y <= tishri Y <= mday Y + 2.
Proof. intros HY. rewrite tishri_eq by done. match goal with |- context [postponed ?a ?b ?c ?d] =>
  pose proof (postponed_bounds a b c d) end. lia. Qed.

Lemma year_length Y : 1 <= Y ->
  if is_leap (cycle_year Y) then 383 <= tishri (Y + 1) - tishri Y <= 385
  else 353 <= tishri (Y + 1) - tishri Y <= 355.
Proof.
  intros HY. rewrite !tishri_eq by lia. destruct (molad_carry Y HY) as (k & Hk & Hd & Hh).
  destruct (cycle_year_next Y HY) as [Hnext _]. fold (next_index (cycle_year Y)) in Hnext. rewrite Hnext.
  destruct (leap_pattern _ (cycle_range Y)) as (Ha & Hl & _). rewrite Ha.
  pose proof (mhal_range Y) as R. pose proof (mhal_range (Y + 1)) as R'.
  assert (W : 0 <= mday Y mod 7 <= 6) by (pose proof (Z.mod_pos_bound (mday Y) 7); lia).
  assert (Hw : forall d, mday (Y + 1) = mday Y + d + k ->
    mday (Y + 1) mod 7 = (mday Y mod 7 + d mod 7 + k) mod 7).
  { intros d ->. rewrite <- (Z.add_mod_idemp_l (mday Y mod 7 + d mod 7)), <- Z.add_mod, Z.add_mod_idemp_l by lia. done. }
  destruct (is_leap (cycle_year Y)).
  - rewrite (Hl eq_refl), (Hw 383 Hd). change (383 mod 7) with 5.
    pose proof (leap_length (after_leap (cycle_year Y)) (mday Y mod 7) (mhal Y) k (mhal (Y + 1)) W R Hk Hh R'). lia.
  - rewrite (Hw 354 Hd). change (354 mod 7) with 4.
    pose proof (common_length (is_leap (next_index (cycle_year Y))) (after_leap (cycle_year Y)) (mday Y mod 7)
      (mhal Y) k (mhal (Y + 1)) W R Hk Hh R'). lia.
Qed.

(** Putting two 16-bit halves together. *)
Lemma lor_halves a b : 0 <= b < 65536 -> Z.lor (a * 65536) b = a * 65536 + b.
Proof.
  intros Hb. rewrite <- Z.add_lor_land. enough (Z.land (a * 65536) b = 0) by lia.
  apply Z.bits_inj'. intros n Hn. rewrite Z.land_spec, Z.bits_0. change 65536 with (2 ^ 16).
  destruct (Z.lt_ge_cases n 16); [by rewrite Z.mul_pow2_bits_low|].
  rewrite <- (Z.mod_small b (2 ^ 16)), Z.mod_pow2_bits_high by lia. apply andb_false_r.
Qed.

(** ** What the functions of jewish.c compute *)
Section Code.
Context `{Platform}.

(** The largest cycle whose number [MoladOfMetonicCycle] can multiply. *)
Definition CYCLE_MAX : Z := 46713.

Lemma metonic_cycle_ok c : 0 <= c <= CYCLE_MAX ->
  MoladOfMetonicCycle c = Some (mday (19 * c + 1), mhal (19 * c + 1)).
Proof.
  unfold CYCLE_MAX. intros Hc. unfold MoladOfMetonicCycle, mday, mhal. rewrite molad_cycle_start.
  change (Z.land HALAKIM_PER_METONIC_CYCLE 65535) with 45971.
  change (Z.land (Z.shiftr HALAKIM_PER_METONIC_CYCLE 16) 65535) with 2744.
  change HALAKIM_PER_DAY with 25920. unfold NEW_MOON_OF_CREATION.
  rewrite !int_value_ok by int_bounds. cbn [mbind option_bind].
  assert (Hsmall : forall z, 0 <= z < 2 ^ 32 -> to_ulong z = z).
  { intros z Hz. apply to_ulong_small. destruct LONG_BITS_cases as [-> | ->]; lia. }
  rewrite (Hsmall (31524 + c * 45971)) by lia.
  set (r1 := 31524 + c * 45971). change 65535 with (2 ^ 16 - 1). rewrite land_pow2_mask, Z.shiftr_div_pow2 by lia.
  set (lo := r1 mod 2 ^ 16). set (hi := r1 / 2 ^ 16).
  assert (Hr1 : r1 = 65536 * hi + lo /\ 0 <= lo < 65536 /\ 0 <= hi < 65536)
    by (unfold hi, lo, r1; change (2 ^ 16) with 65536; Z.to_euclidean_division_equations; lia).
  rewrite (Hsmall (hi + c * 2744)) by lia. set (r2 := hi + c * 2744).
  set (d2 := r2 / 25920). set (m2 := r2 - d2 * 25920).
  assert (Hd2 : 0 <= m2 < 25920 /\ 0 <= d2 < 6000)
    by (unfold m2, d2, r2; Z.to_euclidean_division_equations; lia).
  rewrite (Hsmall m2) by lia. rewrite !Z.shiftl_mul_pow2 by lia. change (2 ^ 16) with 65536.
  rewrite (Hsmall (m2 * 65536)) by lia.
  rewrite lor_halves by lia. set (x := m2 * 65536 + lo). set (d1 := x / 25920).
  assert (Hd1 : 0 <= d1 < 65536 /\ 0 <= x - d1 * 25920 < 25920)
    by (unfold d1, x; Z.to_euclidean_division_equations; lia).
  rewrite (Hsmall (d2 * 65536)), (Hsmall (x - d1 * 25920)), lor_halves by lia.
  assert (HT : 31524 + c * 179876755 = 25920 * (d2 * 65536 + d1) + (x - d1 * 25920)).
  { unfold x, m2, r2, r1 in *. lia. }
  pose proof long_covers. rewrite !to_long_small by lia. rewrite HT. do 2 f_equal.
  - apply (Z.div_unique _ _ _ (x - d1 * 25920)); lia.
  - apply (Z.mod_unique _ _ (d2 * 65536 + d1)); lia.
Qed.

Lemma add_halakim_ok t n : 0 <= t <= 2 ^ 44 -> 0 <= n <= 2 ^ 28 ->
  add_halakim n (t / 25920) (t mod 25920) = Some ((t + n) / 25920, (t + n) mod 25920).
Proof.
  intros Ht Hn. pose proof long_covers. pose proof (Z.mod_pos_bound t 25920 ltac:(lia)) as Hm.
  unfold add_halakim. change HALAKIM_PER_DAY with 25920.
  rewrite long_value_ok by lia. cbn [mbind option_bind]. rewrite Z.quot_div_nonneg, Z.rem_mod_nonneg by lia.
  assert (E : t / 25920 + (t mod 25920 + n) / 25920 = (t + n) / 25920 /\ (t mod 25920 + n) mod 25920 = (t + n) mod 25920)
    by (Z.to_euclidean_division_equations; lia).
  destruct E as [-> ->]. rewrite long_value_ok; [done|]. Z.to_euclidean_division_equations; lia.
Qed.

(** One year on. *)
Lemma add_year Y : 1 <= Y <= 10 ^ 6 ->
  add_halakim (HALAKIM_PER_LUNAR_CYCLE * months_of (cycle_year Y)) (mday Y) (mhal Y)
  = Some (mday (Y + 1), mhal (Y + 1)).
Proof.
  intros HY. change HALAKIM_PER_LUNAR_CYCLE with 765433.
  destruct (offset_step (cycle_year Y) (cycle_range Y)) as (_ & Hm & Ho).
  unfold mday, mhal. rewrite add_halakim_ok; [by rewrite molad_next by lia| |lia].
  pose proof (molad_pos Y). split; [lia|]. unfold molad.
  assert (0 <= (Y - 1) / 19 <= 60000) by (Z.to_euclidean_division_equations; lia). lia.
Qed.

Lemma add_cycle c : 0 <= c <= 50000 ->
  add_halakim HALAKIM_PER_METONIC_CYCLE (mday (19 * c + 1)) (mhal (19 * c + 1))
  = Some (mday (19 * (c + 1) + 1), mhal (19 * (c + 1) + 1)).
Proof.
  intros Hc. change HALAKIM_PER_METONIC_CYCLE with 179876755. unfold mday, mhal.
  rewrite !molad_cycle_start, add_halakim_ok by lia.
  by replace (31524 + c * 179876755 + 179876755) with (31524 + (c + 1) * 179876755) by lia.
Qed.

(** The start of a cycle, in days. *)
Lemma cycle_day c : 0 <= c -> 6939 * c + 1 <= mday (19 * c + 1) <= 6940 * c + 1
  /\ (1 <= c -> mday (19 * c + 1) <= 6940 * c)
  /\ mday (19 * c + 1) + 6939 <= mday (19 * (c + 1) + 1) <= mday (19 * c + 1) + 6940.
Proof. intros Hc. unfold mday. rewrite !molad_cycle_start. Z.to_euclidean_division_equations; lia. Qed.

(** The [while] loop finds the cycle. *)
Lemma cycle_loop_ok fuel : forall x c, 0 <= c -> x <= 325000000 ->
  x <= mday (19 * c + 1) + 6630 + 6939 * Z.of_nat fuel -> mday (19 * c + 1) <= x + 311 ->
  exists c', cycle_loop fuel x c (mday (19 * c + 1)) (mhal (19 * c + 1))
      = Some (c', mday (19 * c' + 1), mhal (19 * c' + 1))
    /\ c <= c' /\ x - 6630 <= mday (19 * c' + 1) <= x + 311.
Proof.
  induction fuel as [|fuel IH]; intros x c Hc Hf Hx Hlo; simpl cycle_loop;
    destruct (Z.ltb_spec (mday (19 * c + 1)) (x - 6940 + 310)) as [Hl|Hl]; try lia;
    [by exists c; split; [done|lia]| |by exists c; split; [done|lia]].
  pose proof (cycle_day c Hc) as (Hcd & _ & Hs).
  rewrite int_value_ok by int_bounds. cbn [mbind option_bind]. rewrite add_cycle by lia. cbn [mbind option_bind].
  destruct (IH x (c + 1)) as (c' & E & Hc' & Hx'); [lia..|]. exists c'. split; [exact E|lia].
Qed.

Lemma year_loop_ok n : forall i Y x, i + Z.of_nat n = 18 -> 0 <= i -> cycle_year Y = i ->
  1 <= Y -> Y + Z.of_nat n <= 950000 ->
  exists j, let Z := Y + (j - i) in
    year_loop n x i (mday Y) (mhal Y) = Some (j, mday Z, mhal Z)
    /\ i <= j <= 18 /\ cycle_year Z = j /\ (j = 18 \/ x - 74 < mday Z) /\ (j = i \/ mday (Z - 1) <= x - 74).
Proof.
  induction n as [|n IH]; intros i Y x Hn Hi HY H1 Hr.
  - exists i. replace (Y + (i - i)) with Y by lia. simpl. repeat split; auto; lia.
  - cbn [year_loop]. destruct (Z.ltb_spec (x - 74) (mday Y)) as [Hl|Hl].
    { exists i. replace (Y + (i - i)) with Y by lia. repeat split; auto; lia. }
    rewrite months_in_ok by lia. cbn [mbind option_bind]. rewrite <- HY, add_year by lia. cbn [mbind option_bind].
    destruct (cycle_year_next Y ltac:(lia)) as [Hc _]. rewrite HY, (proj2 (Z.eqb_neq i 18)) in Hc by lia.
    destruct (IH (i + 1) (Y + 1) x) as (j & E & Hj & Hcj & Ha & Hb); [lia..|].
    replace (Y + 1 + (j - (i + 1))) with (Y + (j - i)) in * by lia.
    exists j. rewrite HY. split; [exact E|]. split; [lia|]. split; [done|]. split; [done|]. right.
    destruct Hb as [-> |Hb]; [|done]. by replace (Y + (i + 1 - i) - 1) with Y by lia.
Qed.

(** The year [FindTishriMolad] picks for the day [x]: [x] lies after the first
    72 days of the year before and before the 76th day of the year itself. *)
Record tishri_found (x Y : Z) : Prop := {
  tf_year : 1 <= Y <= 900000;
  tf_lo : x <= mday Y + 75;
  tf_hi : mday Y <= x + 311;
  tf_prev : Y = 1 \/ mday (Y - 1) <= x - 72
}.

Lemma find_molad_ok x : -310 <= x <= JEWISH_SDN_MAX - JEWISH_SDN_OFFSET ->
  exists Y, FindTishriMolad x = Some ((Y - 1) / 19, cycle_year Y, mday Y, mhal Y) /\ tishri_found x Y.
Proof.
  unfold JEWISH_SDN_MAX, JEWISH_SDN_OFFSET. intros Hx. unfold FindTishriMolad.
  rewrite Z.quot_div_nonneg by lia. set (c := (x + 310) / 6940).
  assert (Hc : 0 <= c <= 46713 /\ 6940 * c <= x + 310)
    by (unfold c; Z.to_euclidean_division_equations; lia).
  rewrite to_int_small by int_bounds. rewrite metonic_cycle_ok by (unfold CYCLE_MAX; lia).
  cbn [mbind option_bind]. pose proof (cycle_day c ltac:(lia)) as (Hcd & Hc1 & _).
  destruct (cycle_loop_ok (Z.to_nat (x / 6939 + 1)) x c) as (c' & -> & Hc' & Hx'); [lia|lia| | |].
  { destruct (Z.le_gt_cases 0 (x / 6939 + 1)); [rewrite Z2Nat.id by lia|]; Z.to_euclidean_division_equations; lia. }
  { destruct (Z.eq_dec c 0) as [E|]; [rewrite E in Hcd |- *|]; lia. }
  cbn [mbind option_bind]. pose proof (cycle_day c' ltac:(lia)) as (Hcd' & _ & _).
  assert (Hcy : cycle_year (19 * c' + 1) = 0)
    by (unfold cycle_year; replace (19 * c' + 1 - 1) with (c' * 19) by lia; by rewrite Z.mod_mul).
  destruct (year_loop_ok 18 0 (19 * c' + 1) x) as (j & E & Hj & Hcj & Ha & Hb); [done|lia|done|lia|lia|].
  rewrite E. cbn [mbind option_bind]. replace (19 * c' + 1 + (j - 0)) with (19 * c' + 1 + j) in * by lia.
  set (Y := 19 * c' + 1 + j) in *. exists Y. split.
  { rewrite Hcj. assert ((Y - 1) / 19 = c') as -> by (unfold Y; Z.to_euclidean_division_equations; lia). done. }
  assert (Hprev : Y <> 1 -> j = 0 -> mday (Y - 1) + 383 <= mday Y).
  { intros HY1 ->. assert (HY2 : 1 <= Y - 1) by lia. destruct (mday_next (Y - 1) HY2) as [[Hm _]|[_ Hm]].
    - exfalso. destruct (cycle_year_next (Y - 1) HY2) as [Hn _]. replace (Y - 1 + 1) with Y in Hn by lia.
      rewrite Hcj in Hn. destruct (Z.eqb_spec (cycle_year (Y - 1)) 18) as [E18|]; [by rewrite E18 in Hm|].
      pose proof (cycle_range (Y - 1)). lia.
    - replace (Y - 1 + 1) with Y in Hm by lia. lia. }
  assert (Hj0 : j = 0 -> mday Y = mday (19 * c' + 1)) by (intros ->; unfold Y; f_equal; lia).
  split; [lia|..].
  - destruct Ha as [-> |]; [|lia].
    assert (mday (19 * c' + 1) + 6555 <= mday Y); [|lia]. unfold mday, Y. rewrite molad_cycle_start.
    unfold molad, cycle_year. replace (19 * c' + 1 + 18 - 1) with (18 + c' * 19) by lia.
    rewrite Z.div_add, Z.mod_add by lia. change (18 / 19) with 0. change (18 mod 19) with 18.
    change (offset_of 18) with 222. Z.to_euclidean_division_equations; lia.
  - destruct Hb as [->|Hb]; [rewrite Hj0 by done; lia|].
    destruct (Z.eq_dec j 0) as [->|]; [rewrite Hj0 by done; lia|].
    destruct (mday_next (Y - 1)) as [[_ Hm]|[_ Hm]]; [lia|replace (Y - 1 + 1) with Y in Hm by lia; lia..].
  - destruct (Z.eq_dec Y 1); [by left|right]. destruct Hb as [-> |Hb]; [|lia].
    specialize (Hprev ltac:(done) eq_refl). rewrite Hj0 in Hprev by done. lia.
Qed.

Lemma start_of_year_ok Y : 1 <= Y -> (Y - 1) / 19 <= CYCLE_MAX ->
  FindStartOfYear Y = Some (cycle_year Y, mday Y, mhal Y, tishri Y).
Proof.
  unfold CYCLE_MAX. intros HY Hc. unfold FindStartOfYear.
  assert (Y <= 887566) by (Z.to_euclidean_division_equations; lia).
  rewrite int_value_ok by int_bounds. cbn [mbind option_bind].
  rewrite Z.quot_div_nonneg, Z.rem_mod_nonneg by lia. fold (cycle_year Y).
  assert (0 <= (Y - 1) / 19) by (apply Z.div_pos; lia).
  rewrite metonic_cycle_ok by (unfold CYCLE_MAX; lia). cbn [mbind option_bind].
  rewrite months_before_ok by apply cycle_range. cbn [mbind option_bind].
  change HALAKIM_PER_LUNAR_CYCLE with 765433.
  destruct (offset_step (cycle_year Y) (cycle_range Y)) as (_ & _ & Ho).
  unfold mday, mhal. rewrite molad_cycle_start, add_halakim_ok by lia. cbn [mbind option_bind].
  replace (31524 + (Y - 1) / 19 * 179876755 + 765433 * offset_of (cycle_year Y)) with (molad Y) by (unfold molad; lia).
  fold (mday Y) (mhal Y) (tishri Y). rewrite to_int_small; [done|].
  pose proof (tishri_bounds Y HY). pose proof (mday_pos Y HY).
  assert (mday Y <= 10 ^ 9); [|int_bounds]. unfold mday, molad. Z.to_euclidean_division_equations; lia.
Qed.
End Code.

(** ** Months *)
Definition year_days (Y : Z) : Z := tishri (Y + 1) - tishri Y.
Definition heshvan_length (Y : Z) : Z :=
  if (year_days Y =? 355) || (year_days Y =? 385) then 30 else 29.
Definition jewish_leap (Y : Z) : bool := is_leap (cycle_year Y).

(** The first day of a month: Tishri to Kislev from the start of the year, the
    others from its end. *)
Definition month_start (Y m : Z) : Z :=
  if m =? 1 then tishri Y
  else if m =? 2 then tishri Y + 30
  else if m =? 3 then tishri Y + 30 + heshvan_length Y
  else if m =? 4 then tishri (Y + 1) - (if jewish_leap Y then 295 else 265)
  else if m =? 5 then tishri (Y + 1) - (if jewish_leap Y then 266 else 236)
  else if m =? 6 then tishri (Y + 1) - (if jewish_leap Y then 236 else 206)
  else if m =? 7 then tishri (Y + 1) - 206
  else if m =? 8 then tishri (Y + 1) - 177
  else if m =? 9 then tishri (Y + 1) - 147
  else if m =? 10 then tishri (Y + 1) - 118
  else if m =? 11 then tishri (Y + 1) - 88
  else if m =? 12 then tishri (Y + 1) - 59
  else tishri (Y + 1) - 29.
Definition jewish_month_length (Y m : Z) : Z :=
  if m =? 2 then heshvan_length Y
  else if m =? 3 then year_days Y - (if jewish_leap Y then 325 else 295) - heshvan_length Y
  else if m =? 6 then (if jewish_leap Y then 30 else 0)
  else if (m =? 4) || (m =? 7) || (m =? 9) || (m =? 11) || (m =? 13) then 29 else 30.
Definition valid_jewish (Y m d : Z) : Prop :=
  1 <= Y /\ 1 <= m <= 13 /\ 1 <= d <= jewish_month_length Y m.
(** The number of a day of the calendar. *)
Definition jewish_sdn (Y m d : Z) : Z := month_start Y m + d - 1 + JEWISH_SDN_OFFSET.

Lemma year_days_ok Y : 1 <= Y -> if jewish_leap Y then 383 <= year_days Y <= 385 else 353 <= year_days Y <= 355.
Proof. intros HY. exact (year_length Y HY). Qed.

(** Heshvan and Kislev have 29 or 30 days. *)
Lemma kislev_length Y : 1 <= Y -> 29 <= heshvan_length Y <= 30 /\ 29 <= jewish_month_length Y 3 <= 30.
Proof.
  intros HY. pose proof (year_days_ok Y HY) as Hl. unfold jewish_month_length, heshvan_length. simpl.
  destruct (jewish_leap Y), (Z.eqb_spec (year_days Y) 355), (Z.eqb_spec (year_days Y) 385); cbn [orb]; lia.
Qed.

Ltac each_jmonth m H :=
  let Hms := fresh in
  assert (m = 1 \/ m = 2 \/ m = 3 \/ m = 4 \/ m = 5 \/ m = 6 \/ m = 7 \/ m = 8 \/ m = 9 \/ m = 10 \/ m = 11
    \/ m = 12 \/ m = 13) as Hms by lia;
  destruct_or! Hms; subst m.

(** The months of a year follow one another without gaps. *)
Lemma month_follows Y m : 1 <= Y -> 1 <= m <= 13 ->
  month_start Y m + jewish_month_length Y m = if m =? 13 then tishri (Y + 1) else month_start Y (m + 1).
Proof.
  intros HY Hm. unfold year_days. each_jmonth m Hm; unfold month_start, jewish_month_length, year_days; simpl;
    destruct (jewish_leap Y); lia.
Qed.

Lemma month_length_jewish Y m : 1 <= Y -> 1 <= m <= 13 -> 0 <= jewish_month_length Y m <= 30.
Proof.
  intros HY Hm. destruct (kislev_length Y HY) as [H2 H3]. each_jmonth m Hm;
    try (change (0 <= 30 <= 30); lia); try (change (0 <= 29 <= 30); lia).
  - change (0 <= heshvan_length Y <= 30). lia.
  - lia.
  - change (0 <= (if jewish_leap Y then 30 else 0) <= 30). case_match; lia.
Qed.

Lemma month_order Y k : forall m, 1 <= Y -> 1 <= m -> m + Z.of_nat k <= 12 ->
  month_start Y m + jewish_month_length Y m <= month_start Y (m + 1 + Z.of_nat k).
Proof.
  induction k as [|k IH]; intros m HY Hm Hk.
  - pose proof (month_follows Y m HY ltac:(lia)) as E. rewrite (proj2 (Z.eqb_neq m 13)) in E by lia.
    replace (m + 1 + Z.of_nat 0) with (m + 1) by lia. lia.
  - specialize (IH m HY Hm ltac:(lia)).
    pose proof (month_follows Y (m + 1 + Z.of_nat k) HY ltac:(lia)) as E.
    rewrite (proj2 (Z.eqb_neq _ 13)) in E by lia.
    pose proof (month_length_jewish Y (m + 1 + Z.of_nat k) HY ltac:(lia)).
    replace (m + 1 + Z.of_nat (S k)) with (m + 1 + Z.of_nat k + 1) by lia. lia.
Qed.

Lemma month_before Y m m' : 1 <= Y -> 1 <= m -> m < m' -> m' <= 13 ->
  month_start Y m + jewish_month_length Y m <= month_start Y m'.
Proof.
  intros HY Hm Hlt Hm'. pose proof (month_order Y (Z.to_nat (m' - (m + 1))) m HY Hm ltac:(lia)) as E.
  by replace (m + 1 + Z.of_nat (Z.to_nat (m' - (m + 1)))) with m' in E by lia.
Qed.

(** A date lies inside its year. *)
Lemma date_in_year Y m d : valid_jewish Y m d ->
  tishri Y <= month_start Y m + d - 1 < tishri (Y + 1).
Proof.
  intros (HY & Hm & Hd). pose proof (month_follows Y 13 HY ltac:(lia)) as E13. simpl in E13. split.
  - destruct (Z.eq_dec m 1) as [->|]; [change (month_start Y 1) with (tishri Y); lia|].
    pose proof (month_before Y 1 m HY ltac:(lia) ltac:(lia) ltac:(lia)) as H1.
    change (month_start Y 1) with (tishri Y) in H1. change (jewish_month_length Y 1) with 30 in H1. lia.
  - destruct (Z.eq_dec m 13) as [->|]; [lia|].
    pose proof (month_before Y m 13 HY ltac:(lia) ltac:(lia) ltac:(lia)) as H1.
    change (jewish_month_length Y 13) with 29 in E13. lia.
Qed.

Lemma tishri_mono k : forall Y, 1 <= Y -> tishri Y + 353 * Z.of_nat k <= tishri (Y + Z.of_nat k).
Proof.
  induction k as [|k IH]; intros Y HY; [replace (Y + Z.of_nat 0) with Y by lia; lia|].
  specialize (IH Y HY). pose proof (year_days_ok (Y + Z.of_nat k) ltac:(lia)) as Hl. unfold year_days in Hl.
  replace (Y + Z.of_nat (S k)) with (Y + Z.of_nat k + 1) by lia. case_match; lia.
Qed.

(** Different dates have different numbers. *)
Lemma jewish_unique Y m d Y' m' d' : valid_jewish Y m d -> valid_jewish Y' m' d' ->
  jewish_sdn Y m d = jewish_sdn Y' m' d' -> (Y, m, d) = (Y', m', d').
Proof.
  unfold jewish_sdn. intros H H' E. pose proof (date_in_year _ _ _ H) as R. pose proof (date_in_year _ _ _ H') as R'.
  assert (Y = Y') as <-.
  { destruct (Z.lt_total Y Y') as [Hlt|[?|Hlt]]; [|done|]; exfalso.
    - pose proof (tishri_mono (Z.to_nat (Y' - (Y + 1))) (Y + 1) ltac:(destruct H; lia)) as M.
      replace (Y + 1 + Z.of_nat (Z.to_nat (Y' - (Y + 1)))) with Y' in M by lia. lia.
    - pose proof (tishri_mono (Z.to_nat (Y - (Y' + 1))) (Y' + 1) ltac:(destruct H'; lia)) as M.
      replace (Y' + 1 + Z.of_nat (Z.to_nat (Y - (Y' + 1)))) with Y in M by lia. lia. }
  destruct H as (HY & Hm & Hd), H' as (_ & Hm' & Hd').
  assert (m = m') as <-; [|do 2 f_equal; lia].
  destruct (Z.lt_total m m') as [Hlt|[?|Hlt]]; [|done|]; exfalso.
  - pose proof (month_before Y m m' HY ltac:(lia) Hlt ltac:(lia)). lia.
  - pose proof (month_before Y m' m HY ltac:(lia) Hlt ltac:(lia)). lia.
Qed.

(** ** The conversions *)
Section Conversions.
Context `{Platform}.

Lemma mday_mono k : forall Y, 1 <= Y -> mday Y + 354 * Z.of_nat k <= mday (Y + Z.of_nat k).
Proof.
  induction k as [|k IH]; intros Y HY; [replace (Y + Z.of_nat 0) with Y by lia; lia|].
  specialize (IH Y HY). replace (Y + Z.of_nat (S k)) with (Y + Z.of_nat k + 1) by lia.
  destruct (mday_next (Y + Z.of_nat k)); lia.
Qed.
Lemma mday_apart Y Y' : 1 <= Y -> Y <= Y' -> mday Y + 354 * (Y' - Y) <= mday Y'.
Proof.
  intros HY Hle. pose proof (mday_mono (Z.to_nat (Y' - Y)) Y HY) as M.
  replace (Y + Z.of_nat (Z.to_nat (Y' - Y))) with Y' in M by lia. lia.
Qed.
Lemma mday_small Y : 1 <= Y <= 950000 -> 1 <= mday Y <= 500000000.
Proof.
  intros HY. pose proof (mday_pos Y). split; [lia|]. unfold mday, molad.
  destruct (offset_step (cycle_year Y) (cycle_range Y)) as (_ & _ & Ho). Z.to_euclidean_division_equations; lia.
Qed.
Lemma tishri_small Y : 1 <= Y <= 950000 -> 1 <= tishri Y <= 500000002.
Proof. intros HY. pose proof (mday_small Y HY). pose proof (tishri_bounds Y ltac:(lia)). lia. Qed.

Lemma tishri_to_int Y : 1 <= Y <= 950000 -> to_int (Tishri1 (cycle_year Y) (mday Y) (mhal Y)) = tishri Y.
Proof. intros HY. fold (tishri Y). pose proof (tishri_small Y HY). apply to_int_small. int_bounds. Qed.

Lemma next_cycle_year Y : 1 <= Y -> Z.rem (cycle_year Y + 1) 19 = cycle_year (Y + 1).
Proof.
  intros HY. destruct (cycle_year_next Y HY) as [-> _]. pose proof (cycle_range Y).
  destruct (Z.eqb_spec (cycle_year Y) 18) as [->|]; [done|]. apply Z.rem_small. lia.
Qed.

(** The months of a year. *)
Lemma months_of_year Y : 1 <= Y ->
  months_in (Z.rem (Y - 1) 19) = Some (if jewish_leap Y then 13 else 12).
Proof.
  intros HY. rewrite Z.rem_mod_nonneg by lia. fold (cycle_year Y). rewrite months_in_ok by apply cycle_range.
  by destruct (leap_pattern _ (cycle_range Y)) as (_ & _ & ->).
Qed.

(** [JewishToSdn] numbers the valid dates up to the last year whose end
    [MoladOfMetonicCycle] can compute. *)
Lemma jewish_to_sdn_ok Y m d : valid_jewish Y m d -> Y / 19 <= CYCLE_MAX ->
  JewishToSdn Y m d = Some (jewish_sdn Y m d).
Proof.
  unfold CYCLE_MAX. intros (HY & Hm & Hd) Hc. pose proof (month_length_jewish Y m HY Hm) as Hl.
  assert (Hr : Y <= 900000) by (Z.to_euclidean_division_equations; lia).
  pose proof (tishri_small Y ltac:(lia)). pose proof (tishri_small (Y + 1) ltac:(lia)).
  assert (S0 : FindStartOfYear Y = Some (cycle_year Y, mday Y, mhal Y, tishri Y)).
  { apply start_of_year_ok; [done|]. unfold CYCLE_MAX. Z.to_euclidean_division_equations; lia. }
  assert (S1 : FindStartOfYear (Y + 1) = Some (cycle_year (Y + 1), mday (Y + 1), mhal (Y + 1), tishri (Y + 1))).
  { apply start_of_year_ok; [lia|]. unfold CYCLE_MAX. replace (Y + 1 - 1) with Y by lia. lia. }
  unfold JewishToSdn. rewrite (proj2 (Z.leb_gt Y 0)), (proj2 (Z.leb_gt d 0)), (proj2 (Z.ltb_ge 30 d)) by lia.
  cbn [orb]. rewrite (int_value_ok (Y + 1)) by int_bounds. cbn [mbind option_bind].
  rewrite S0, S1, (months_of_year Y HY). unfold jewish_sdn.
  each_jmonth m Hm; cbn [Z.eqb Pos.eqb orb mbind option_bind]; try
    (rewrite int_value_ok by int_bounds; cbn [mbind option_bind]; f_equal; unfold month_start; cbn [Z.eqb Pos.eqb]; lia).
  all: try (destruct (jewish_leap Y) eqn:El; cbn [Z.eqb Pos.eqb]; rewrite int_value_ok by int_bounds;
    cbn [mbind option_bind]; f_equal; unfold month_start; cbn [Z.eqb Pos.eqb]; rewrite El; lia).
  rewrite (months_in_ok (cycle_year Y)) by apply cycle_range. cbn [mbind option_bind]. rewrite add_year by lia.
  cbn [mbind option_bind]. rewrite next_cycle_year, tishri_to_int by lia. fold (year_days Y).
  change (month_start Y 3) with (tishri Y + 30 + heshvan_length Y). unfold heshvan_length.
  case_match; rewrite int_value_ok by int_bounds; cbn [mbind option_bind]; f_equal; lia.
Qed.

(** The two ends of [SdnToJewish]. *)
Lemma heshvan_or_kislev_ok Y day : 1 <= Y -> 1 <= day <= heshvan_length Y + jewish_month_length Y 3 ->
  exists m d, heshvan_or_kislev Y (year_days Y) day = (Y, m, d) /\ valid_jewish Y m d
    /\ month_start Y m + d - 1 = tishri Y + 29 + day.
Proof.
  intros HY Hd. destruct (kislev_length Y HY) as [H2 H3]. unfold heshvan_or_kislev. fold (heshvan_length Y).
  destruct (Z.leb_spec day (heshvan_length Y)); rewrite to_int_small by int_bounds.
  - exists 2, day. split; [done|]. split.
    + split; [done|]. split; [lia|]. change (1 <= day <= heshvan_length Y). lia.
    + change (month_start Y 2) with (tishri Y + 30). lia.
  - exists 3, (day - heshvan_length Y). split; [done|]. split; [split; [done|]; lia|].
    change (month_start Y 3) with (tishri Y + 30 + heshvan_length Y). lia.
Qed.

Lemma tevet_to_adar_ok Y day : 1 <= Y -> day <= 29 ->
  match tevet_to_adar (jewish_leap Y) Y day with
  | Some (y, m, d) => y = Y /\ valid_jewish Y m d /\ month_start Y m + d = tishri (Y + 1) - 206 + day
  | None => tishri (Y + 1) - 207 + day < month_start Y 4
  end.
Proof.
  intros HY Hd. unfold tevet_to_adar, valid_jewish, month_start, jewish_month_length.
  destruct (jewish_leap Y) eqn:El; repeat (case_match; simplify_eq); try (cbn [Z.eqb Pos.eqb orb]; lia).
Qed.

(** The year before: what the second call of [FindTishriMolad] finds. *)
Lemma previous_year_found Y : 2 <= Y <= 900000 ->
  mday Y - 365 <= JEWISH_SDN_MAX - JEWISH_SDN_OFFSET ->
  FindTishriMolad (mday Y - 365) = Some ((Y - 1 - 1) / 19, cycle_year (Y - 1), mday (Y - 1), mhal (Y - 1)).
Proof.
  intros HY Hx. pose proof (mday_apart 1 Y ltac:(lia) ltac:(lia)) as H1. change (mday 1) with 1 in H1.
  destruct (find_molad_ok (mday Y - 365)) as (Z0 & -> & [Hz Hlo Hhi _]); [lia|].
  assert (Z0 = Y - 1) as ->; [|done].
  destruct (Z.le_gt_cases Y Z0) as [Hle|Hgt].
  - pose proof (mday_apart Y Z0 ltac:(lia) Hle). lia.
  - pose proof (mday_apart Z0 Y ltac:(lia) ltac:(lia)). lia.
Qed.

(** A day of the last six months of a year. *)
Lemma nisan_to_elul_ok P x : 1 <= P -> let t := tishri (P + 1) in t - 177 <= x < t ->
  exists m d, (if t - 30 <? x then (P, 13, to_int (x - t + 30))
      else if t - 60 <? x then (P, 12, to_int (x - t + 60))
      else if t - 89 <? x then (P, 11, to_int (x - t + 89))
      else if t - 119 <? x then (P, 10, to_int (x - t + 119))
      else if t - 148 <? x then (P, 9, to_int (x - t + 148))
      else (P, 8, to_int (x - t + 178))) = (P, m, d)
    /\ valid_jewish P m d /\ month_start P m + d - 1 = x.
Proof.
  intros HP t Hx.
  repeat match goal with |- context [if ?a <? x then _ else _] => destruct (Z.ltb_spec a x) end;
    rewrite to_int_small by int_bounds; do 2 eexists; (split; [reflexivity|]);
    unfold valid_jewish, month_start, jewish_month_length; cbn [Z.eqb Pos.eqb orb]; fold t; lia.
Qed.

(** A day of the months before, the year found being the year after [P]. *)
Lemma before_nisan_ok P x : 1 <= P < 900000 -> 1 <= x <= JEWISH_SDN_MAX - JEWISH_SDN_OFFSET ->
  x < tishri (P + 1) - 177 -> mday P <= x - 72 -> mday (P + 1) <= x + 311 ->
  let tishri1 := tishri (P + 1) in
  exists m d,
    match tevet_to_adar ((if jewish_leap P then 13 else 12) =? 13) P (to_int (x - tishri1 + 207)) with
    | Some d => Some d
    | None =>
        let tishri1After := tishri1 in
        '(metonicCycle, metonicYear, day, halakim) ← FindTishriMolad (mday (P + 1) - 365);
        let tishri1 := to_int (Tishri1 metonicYear day halakim) in
        Some (heshvan_or_kislev P (tishri1After - tishri1) (x - tishri1 - 29))
    end = Some (P, m, d)
    /\ valid_jewish P m d /\ month_start P m + d - 1 = x.
Proof.
  intros HP Hx Hearly Hprev Hhi tishri1. pose proof (tishri_small (P + 1) ltac:(lia)) as Ht. subst tishri1.
  replace ((if jewish_leap P then 13 else 12) =? 13) with (jewish_leap P) by (by destruct (jewish_leap P)).
  rewrite to_int_small by (unfold JEWISH_SDN_MAX, JEWISH_SDN_OFFSET in *; int_bounds).
  pose proof (tevet_to_adar_ok P (x - tishri (P + 1) + 207) ltac:(lia) ltac:(lia)) as Hta.
  destruct (tevet_to_adar _ _ _) as [[[y m] d]|].
  - destruct Hta as (-> & Hv & E). exists m, d. split; [done|]. split; [done|lia].
  - rewrite previous_year_found by lia. replace (P + 1 - 1) with P by lia. cbn [mbind option_bind].
    rewrite tishri_to_int by lia. cbv zeta. fold (year_days P). pose proof (tishri_bounds P ltac:(lia)).
    pose proof (month_follows P 3 ltac:(lia) ltac:(lia)) as E3. change (3 =? 13) with false in E3.
    change (month_start P 3) with (tishri P + 30 + heshvan_length P) in E3. change (3 + 1) with 4 in E3. cbv iota in E3.
    destruct (heshvan_or_kislev_ok P (x - tishri P - 29)) as (m & d & -> & Hv & E); [lia|lia|].
    exists m, d. split; [done|]. split; [done|lia].
Qed.

Lemma sdn_to_jewish_ok sdn : JEWISH_SDN_OFFSET < sdn <= JEWISH_SDN_MAX ->
  exists Y m d, SdnToJewish sdn = Some (Y, m, d) /\ valid_jewish Y m d /\ jewish_sdn Y m d = sdn.
Proof.
  intros Hs. unfold SdnToJewish, jewish_sdn.
  rewrite (proj2 (Z.leb_gt sdn _)), (proj2 (Z.ltb_ge _ sdn)) by lia. cbn [orb].
  set (x := sdn - JEWISH_SDN_OFFSET). assert (Hsx : sdn = x + JEWISH_SDN_OFFSET) by (unfold x; lia).
  assert (Hx : 1 <= x <= JEWISH_SDN_MAX - JEWISH_SDN_OFFSET) by lia. clearbody x. subst sdn. clear Hs.
  destruct (find_molad_ok x ltac:(lia)) as (Y & -> & [HY Hlo Hhi Hprev]). cbn [mbind option_bind].
  rewrite tishri_to_int by lia. pose proof (tishri_small Y ltac:(lia)) as Ht.
  pose proof (tishri_bounds Y ltac:(lia)) as Hb.
  assert (HYc : (Y - 1) / 19 * 19 + cycle_year Y = Y - 1) by (unfold cycle_year; Z.to_euclidean_division_equations; lia).
  destruct (Z.leb_spec (tishri Y) x) as [Hin|Hout].
  - rewrite HYc. replace (Y - 1 + 1) with Y by lia. rewrite int_value_ok by int_bounds. cbn [mbind option_bind].
    destruct (kislev_length Y ltac:(lia)) as [Hh Hk].
    destruct (Z.ltb_spec x (tishri Y + 59)); [destruct (Z.ltb_spec x (tishri Y + 30))|].
    + rewrite to_int_small by int_bounds. exists Y, 1, (x - tishri Y + 1). split; [done|].
      change (month_start Y 1) with (tishri Y). split; [|lia].
      split; [lia|]. split; [lia|]. change (1 <= x - tishri Y + 1 <= 30). lia.
    + rewrite to_int_small by int_bounds. exists Y, 2, (x - tishri Y - 29). split; [done|].
      change (month_start Y 2) with (tishri Y + 30). split; [|lia].
      split; [lia|]. split; [lia|]. change (1 <= x - tishri Y - 29 <= heshvan_length Y). lia.
    + rewrite months_in_ok by apply cycle_range. cbn [mbind option_bind]. rewrite add_year by lia.
      cbn [mbind option_bind]. rewrite next_cycle_year, tishri_to_int by lia. fold (year_days Y).
      destruct (heshvan_or_kislev_ok Y (x - tishri Y - 29)) as (m & d & -> & Hv & E); [lia|lia|].
      exists Y, m, d. split; [done|]. split; [done|lia].
  - assert (HY1 : Y <> 1) by (intros ->; change (tishri 1) with 1 in Hout; lia).
    destruct Hprev as [?|Hprev]; [done|]. set (P := Y - 1) in *. assert (HYP : Y = P + 1) by lia. clearbody P. subst Y.
    rewrite HYc, int_value_ok by int_bounds. cbn [mbind option_bind].
    destruct (Z.leb_spec (tishri (P + 1) - 177) x) as [Hlate|Hearly].
    + destruct (nisan_to_elul_ok P x ltac:(lia) ltac:(lia)) as (m & d & -> & Hv & E).
      exists P, m, d. split; [done|]. split; [done|lia].
    + rewrite months_of_year by lia. cbn [mbind option_bind].
      destruct (before_nisan_ok P x) as (m & d & E0 & Hv & E); [lia..|].
      cbv zeta in E0 |- *. rewrite E0. exists P, m, d. split; [done|]. split; [done|lia].
Qed.

(** C30: the Jewish calendar.  [SdnToJewish] gives every day from the epoch to
    [JEWISH_SDN_MAX] a date that exists in the calendar of molads and
    postponements, and [JewishToSdn] takes every date up to the year 887565 to
    its number: the two are inverse to each other, months and years follow each
    other without gaps, and a year has 353, 354 or 355 days, or, when it is a
    leap year, 383, 384 or 385. *)
Theorem jewish_calendar_correct :
  (forall sdn, JEWISH_SDN_OFFSET < sdn <= JEWISH_SDN_MAX ->
    exists Y m d, SdnToJewish sdn = Some (Y, m, d) /\ valid_jewish Y m d /\ jewish_sdn Y m d = sdn
      /\ (Y / 19 <= CYCLE_MAX -> JewishToSdn Y m d = Some sdn))
  /\ (forall Y m d, valid_jewish Y m d -> Y / 19 <= CYCLE_MAX ->
    JewishToSdn Y m d = Some (jewish_sdn Y m d)
    /\ (jewish_sdn Y m d <= JEWISH_SDN_MAX -> SdnToJewish (jewish_sdn Y m d) = Some (Y, m, d)))
  /\ (forall Y m, 1 <= Y -> 1 <= m <= 13 ->
    month_start Y m + jewish_month_length Y m = (if m =? 13 then tishri (Y + 1) else month_start Y (m + 1)))
  /\ (forall Y, 1 <= Y -> if jewish_leap Y then 383 <= year_days Y <= 385 else 353 <= year_days Y <= 355).
Proof.
  split_and!; [| |exact month_follows|exact year_days_ok].
  - intros sdn Hs. destruct (sdn_to_jewish_ok sdn Hs) as (Y & m & d & E & Hv & En).
    exists Y, m, d. split_and!; [done..|]. intros Hc. by rewrite jewish_to_sdn_ok, En.
  - intros Y m d Hv Hc. split; [by apply jewish_to_sdn_ok|]. intros Hmax.
    destruct (sdn_to_jewish_ok (jewish_sdn Y m d)) as (Y' & m' & d' & -> & Hv' & En); [split; [|done]|].
    + pose proof (date_in_year _ _ _ Hv). destruct Hv as (HY & _). pose proof (tishri_bounds Y HY).
      pose proof (mday_pos Y HY). unfold jewish_sdn. lia.
    + f_equal. by apply jewish_unique.
Qed.
End Conversions.

Lemma jewish_calendar_correct_witness :
  JewishToSdn (H := LP64) 5783 7 3 = Some 2460000 /\ SdnToJewish (H := LP64) 2460000 = Some (5783, 7, 3).
Proof.
  destruct (jewish_calendar_correct (H := LP64)) as (_ & Hto & _).
  assert (Hv : valid_jewish 5783 7 3) by (vm_compute; intuition discriminate).
  destruct (Hto 5783 7 3 Hv ltac:(vm_compute; discriminate)) as [E F].
  split; [exact E|]. apply F. vm_compute. discriminate.
Defined.

(** The last date of the range [SdnToJewish] accepts: [JewishToSdn] overflows
    an [int] on the way back. *)
Example jewish_last_date_overflows :
  SdnToJewish (H := LP64) JEWISH_SDN_MAX = Some (887605, 12, 13)
  /\ JewishToSdn (H := LP64) 887605 12 13 = None.
Proof. split; vm_compute; reflexivity. Qed.
