(* ===== verification/GC.v ===== *)
(** * GC: Zend/zend_gc.c, the collector of cyclic garbage

    Values ([zval]) and objects carry a reference count.  A value whose count
    is lowered but not to zero may be the entry into a garbage cycle: it is
    coloured purple and put into a buffer of possible roots.  A run of the
    collector subtracts, from the counts of everything reachable from the
    roots, the references inside that graph ([gc_mark_roots]); what still has a
    positive count is referenced from outside and is restored with all it
    reaches ([gc_scan_roots]); the rest is put on a list to be freed
    ([gc_collect_roots]).

    The functions of the source call themselves for every element but the last
    and jump back to their first line ([goto tail_call]) for the last one,
    where the call would be followed by a return; the model calls itself for
    all of them.  The trailing empty slots of a property table, which the
    source skips so as to know which element is the last, are skipped here like
    every empty slot. *)
From S2P Require Import Prelude DList.

(** ** Data *)
Inductive gc_color := GC_BLACK | GC_WHITE | GC_GREY | GC_PURPLE.

#[export] Instance gc_color_eq_dec : EqDecision gc_color.
Proof. solve_decision. Defined.

(** What the upper bits of [u.buffered] and [u.next] can hold: a null pointer,
    a pointer to an entry of the root buffer, or, in the union's other
    member, the next value of the list to free ([None] is [FREE_LIST_END]). *)
Inductive gc_address := NULL | ROOT (r : addr) | NEXT (z : option addr).

#[export] Instance gc_address_eq_dec : EqDecision gc_address.
Proof. solve_decision. Defined.

(** The word [buffered]: pointers are aligned, so that their two lower bits are
    free for the colour; a link of the list to free has the colour black. *)
Record gcword := Word { w_address : gc_address; w_color : gc_color }.

#[export] Instance gcword_eq_dec : EqDecision gcword.
Proof. solve_decision. Defined.

Definition GC_SET_ADDRESS (a : gc_address) (v : gcword) : gcword := Word a (w_color v).
Definition GC_SET_COLOR (c : gc_color) (v : gcword) : gcword := Word (w_address v) c.

Inductive zvalue := IS_NULL | IS_SCALAR | IS_ARRAY (ht : positive) | IS_OBJECT (handle : positive).

#[export] Instance zvalue_eq_dec : EqDecision zvalue.
Proof. solve_decision. Defined.

(** [zval_gc_info]: the value, its count and the word. *)
Record zval := Zval { z_value : zvalue; refcount__gc : Z; z_u : gcword }.

(** [zend_object_store_bucket] as far as the collector uses it.  [o_get_gc] is
    what the object's [get_gc] handler answers, the slots of the property table
    and the values of the property hash, or [None] when there is no handler. *)
Record gc_object := GcObject {
  o_valid : bool;
  o_destructor_called : bool;
  o_has_dtor : bool;
  o_get_gc : option (list (option addr) * option (list addr));
  o_refcount : Z;
  o_buffered : gcword
}.

(** An entry of the root buffer; [handle] is 0 for a value.  In an entry of the
    list of roots [None] stands for [&GC_G(roots)], in an unused one for a null
    pointer. *)
Inductive gc_root := ROOT_ZVAL (pz : addr) | ROOT_OBJECT (handle : positive).
Record gc_root_buffer := RootBuffer {
  r_prev : option addr;
  r_next : option addr;
  r_u : gc_root
}.

(** [free_list] and the like: [None] is a null pointer, [Some None] is
    [FREE_LIST_END]. *)
Record zend_gc_globals := GcGlobals {
  gc_enabled : bool;
  gc_active : bool;
  buf : gmap addr gc_root_buffer;
  roots_next : option addr;
  roots_prev : option addr;
  unused : option addr;
  first_unused : option addr;
  last_unused : option addr;
  zval_to_free : option (option addr);
  free_list : option (option addr);
  next_to_free : option (option addr);
  gc_runs : Z;
  collected : Z
}.

(** The part of the engine the collector works on; [object_buckets] is [None]
    when the objects store is gone. *)
Record gc_state := GcState {
  zvals : gmap addr zval;
  tables : gmap positive (list addr);
  symbol_table : positive;
  object_buckets : option (gmap positive gc_object);
  gc : zend_gc_globals
}.

Definition on_gc (f : zend_gc_globals -> zend_gc_globals) (s : gc_state) : gc_state :=
  GcState (zvals s) (tables s) (symbol_table s) (object_buckets s) (f (gc s)).
Definition with_zvals (m : gmap addr zval) (s : gc_state) : gc_state :=
  GcState m (tables s) (symbol_table s) (object_buckets s) (gc s).
Definition with_objects (m : gmap positive gc_object) (s : gc_state) : gc_state :=
  GcState (zvals s) (tables s) (symbol_table s) (Some m) (gc s).

Definition set_active (b : bool) (g : zend_gc_globals) :=
  GcGlobals (gc_enabled g) b (buf g) (roots_next g) (roots_prev g) (unused g) (first_unused g)
    (last_unused g) (zval_to_free g) (free_list g) (next_to_free g) (gc_runs g) (collected g).
Definition set_buf m (g : zend_gc_globals) :=
  GcGlobals (gc_enabled g) (gc_active g) m (roots_next g) (roots_prev g) (unused g) (first_unused g)
    (last_unused g) (zval_to_free g) (free_list g) (next_to_free g) (gc_runs g) (collected g).
Definition set_roots_next x (g : zend_gc_globals) :=
  GcGlobals (gc_enabled g) (gc_active g) (buf g) x (roots_prev g) (unused g) (first_unused g)
    (last_unused g) (zval_to_free g) (free_list g) (next_to_free g) (gc_runs g) (collected g).
Definition set_roots_prev x (g : zend_gc_globals) :=
  GcGlobals (gc_enabled g) (gc_active g) (buf g) (roots_next g) x (unused g) (first_unused g)
    (last_unused g) (zval_to_free g) (free_list g) (next_to_free g) (gc_runs g) (collected g).
Definition set_unused x (g : zend_gc_globals) :=
  GcGlobals (gc_enabled g) (gc_active g) (buf g) (roots_next g) (roots_prev g) x (first_unused g)
    (last_unused g) (zval_to_free g) (free_list g) (next_to_free g) (gc_runs g) (collected g).
Definition set_first_unused x (g : zend_gc_globals) :=
  GcGlobals (gc_enabled g) (gc_active g) (buf g) (roots_next g) (roots_prev g) (unused g) x
    (last_unused g) (zval_to_free g) (free_list g) (next_to_free g) (gc_runs g) (collected g).
Definition set_last_unused x (g : zend_gc_globals) :=
  GcGlobals (gc_enabled g) (gc_active g) (buf g) (roots_next g) (roots_prev g) (unused g) (first_unused g)
    x (zval_to_free g) (free_list g) (next_to_free g) (gc_runs g) (collected g).
Definition set_zval_to_free x (g : zend_gc_globals) :=
  GcGlobals (gc_enabled g) (gc_active g) (buf g) (roots_next g) (roots_prev g) (unused g) (first_unused g)
    (last_unused g) x (free_list g) (next_to_free g) (gc_runs g) (collected g).
Definition set_free_list x (g : zend_gc_globals) :=
  GcGlobals (gc_enabled g) (gc_active g) (buf g) (roots_next g) (roots_prev g) (unused g) (first_unused g)
    (last_unused g) (zval_to_free g) x (next_to_free g) (gc_runs g) (collected g).
Definition set_next_to_free x (g : zend_gc_globals) :=
  GcGlobals (gc_enabled g) (gc_active g) (buf g) (roots_next g) (roots_prev g) (unused g) (first_unused g)
    (last_unused g) (zval_to_free g) (free_list g) x (gc_runs g) (collected g).
Definition set_runs x (g : zend_gc_globals) :=
  GcGlobals (gc_enabled g) (gc_active g) (buf g) (roots_next g) (roots_prev g) (unused g) (first_unused g)
    (last_unused g) (zval_to_free g) (free_list g) (next_to_free g) x (collected g).
Definition set_collected x (g : zend_gc_globals) :=
  GcGlobals (gc_enabled g) (gc_active g) (buf g) (roots_next g) (roots_prev g) (unused g) (first_unused g)
    (last_unused g) (zval_to_free g) (free_list g) (next_to_free g) (gc_runs g) x.

(** Assignments through a [zval] or an object; [None]: there is none. *)
Definition upd_zval (z : addr) (f : zval -> zval) (s : gc_state) : option gc_state :=
  v ← zvals s !! z; Some (with_zvals (<[z := f v]> (zvals s)) s).
Definition upd_object (h : positive) (f : gc_object -> gc_object) (s : gc_state) : option gc_state :=
  m ← object_buckets s; o ← m !! h; Some (with_objects (<[h := f o]> m) s).
Definition upd_root (r : addr) (f : gc_root_buffer -> gc_root_buffer) (s : gc_state) : option gc_state :=
  e ← buf (gc s) !! r; Some (on_gc (set_buf (<[r := f e]> (buf (gc s)))) s).

Definition on_u (f : gcword -> gcword) (v : zval) : zval := Zval (z_value v) (refcount__gc v) (f (z_u v)).
Definition on_count (f : Z -> Z) (v : zval) : zval := Zval (z_value v) (f (refcount__gc v)) (z_u v).
Definition on_buffered (f : gcword -> gcword) (o : gc_object) : gc_object :=
  GcObject (o_valid o) (o_destructor_called o) (o_has_dtor o) (o_get_gc o) (o_refcount o) (f (o_buffered o)).
Definition on_refcount (f : Z -> Z) (o : gc_object) : gc_object :=
  GcObject (o_valid o) (o_destructor_called o) (o_has_dtor o) (o_get_gc o) (f (o_refcount o)) (o_buffered o).

(** [for] and [while] loops over the elements of a container. *)
Fixpoint each {A} (f : A -> gc_state -> option gc_state) (l : list A) (s : gc_state) : option gc_state :=
  match l with
  | [] => Some s
  | x :: l => s ← f x s; each f l s
  end.

(** [if (table[i])] *)
Definition slot (f : addr -> gc_state -> option gc_state) (x : option addr) (s : gc_state) :
    option gc_state :=
  match x with Some c => f c s | None => Some s end.

(** [Z_TYPE_P(pz) != IS_ARRAY || Z_ARRVAL_P(pz) != &EG(symbol_table)] does not
    hold. *)
Definition is_symbol_table (s : gc_state) (v : zval) : bool :=
  match z_value v with IS_ARRAY t => bool_decide (t = symbol_table s) | _ => false end.

(** [pz->refcount__gc++] and [pz->refcount__gc--], guarded as everywhere in the
    source. *)
Definition addref (z : addr) (s : gc_state) : option gc_state :=
  v ← zvals s !! z;
  if is_symbol_table s v then Some s else upd_zval z (on_count (fun n => to_uint (n + 1))) s.
Definition delref (z : addr) (s : gc_state) : option gc_state :=
  v ← zvals s !! z;
  if is_symbol_table s v then Some s else upd_zval z (on_count (fun n => to_uint (n - 1))) s.

Definition z_color (z : addr) (s : gc_state) : option gc_color := v ← zvals s !! z; Some (w_color (z_u v)).
Definition z_word (z : addr) (s : gc_state) : option gcword := v ← zvals s !! z; Some (z_u v).
Definition GC_ZVAL_SET_COLOR (z : addr) (c : gc_color) (s : gc_state) : option gc_state :=
  upd_zval z (on_u (GC_SET_COLOR c)) s.
Definition GC_ZVAL_SET_ADDRESS (z : addr) (a : gc_address) (s : gc_state) : option gc_state :=
  upd_zval z (on_u (GC_SET_ADDRESS a)) s.
Definition obj_set_color (h : positive) (c : gc_color) (s : gc_state) : option gc_state :=
  upd_object h (on_buffered (GC_SET_COLOR c)) s.
Definition obj_set_address (h : positive) (a : gc_address) (s : gc_state) : option gc_state :=
  upd_object h (on_buffered (GC_SET_ADDRESS a)) s.
Definition object_at (h : positive) (s : gc_state) : option gc_object :=
  m ← object_buckets s; m !! h.

(** The object is valid and has a [get_gc] handler: the slots it reports, and
    then the values of the property hash, if there is one. *)
Definition each_property (f : addr -> gc_state -> option gc_state) (o : gc_object) (s : gc_state) :
    option gc_state :=
  if o_valid o then
    match o_get_gc o with
    | Some (table, props) =>
        s ← each (slot f) table s;
        match props with
        | Some l => each f l s
        | None => Some s
        end
    | None => Some s
    end
  else Some s.

(** ** Restoring what is referenced from outside *)
Fixpoint zval_scan_black (fuel : nat) (pz : addr) (s : gc_state) : option gc_state :=
  match fuel with
  | O => None
  | S fuel =>
      let visit c s :=
        s ← addref c s;
        col ← z_color c s;
        if decide (col = GC_BLACK) then Some s else zval_scan_black fuel c s in
      s ← GC_ZVAL_SET_COLOR pz GC_BLACK s;
      v ← zvals s !! pz;
      match z_value v, object_buckets s with
      | IS_OBJECT h, Some _ =>
          s ← upd_object h (on_refcount (fun n => to_uint (n + 1))) s;
          o ← object_at h s;
          if decide (w_color (o_buffered o) = GC_BLACK) then Some s
          else s ← obj_set_color h GC_BLACK s; each_property visit o s
      | IS_ARRAY t, _ =>
          if decide (t = symbol_table s) then Some s
          else l ← tables s !! t; each visit l s
      | _, _ => Some s
      end
  end.

Definition zobj_scan_black (fuel : nat) (h : positive) (s : gc_state) : option gc_state :=
  s ← obj_set_color h GC_BLACK s;
  o ← object_at h s;
  each_property (fun c s =>
    s ← addref c s;
    col ← z_color c s;
    if decide (col = GC_BLACK) then Some s else zval_scan_black fuel c s) o s.

(** ** Subtracting internal references *)
Fixpoint zval_mark_grey (fuel : nat) (pz : addr) (s : gc_state) : option gc_state :=
  match fuel with
  | O => None
  | S fuel =>
      let visit c s := s ← delref c s; zval_mark_grey fuel c s in
      col ← z_color pz s;
      if decide (col = GC_GREY) then Some s
      else
        s ← GC_ZVAL_SET_COLOR pz GC_GREY s;
        v ← zvals s !! pz;
        match z_value v, object_buckets s with
        | IS_OBJECT h, Some _ =>
            s ← upd_object h (on_refcount (fun n => to_uint (n - 1))) s;
            o ← object_at h s;
            if decide (w_color (o_buffered o) = GC_GREY) then Some s
            else s ← obj_set_color h GC_GREY s; each_property visit o s
        | IS_ARRAY t, _ =>
            if decide (t = symbol_table s) then GC_ZVAL_SET_COLOR pz GC_BLACK s
            else l ← tables s !! t; each visit l s
        | _, _ => Some s
        end
  end.

Definition zobj_mark_grey (fuel : nat) (h : positive) (s : gc_state) : option gc_state :=
  o ← object_at h s;
  if decide (w_color (o_buffered o) = GC_GREY) then Some s
  else
    s ← obj_set_color h GC_GREY s;
    each_property (fun c s => s ← delref c s; zval_mark_grey fuel c s) o s.

(** ** The buffer of roots *)
Definition set_r_prev x (e : gc_root_buffer) := RootBuffer x (r_next e) (r_u e).
Definition set_r_next x (e : gc_root_buffer) := RootBuffer (r_prev e) x (r_u e).

(** [p->prev = x] and [p->next = x] where [p] is an entry or [&GC_G(roots)]. *)
Definition assign_prev (p x : option addr) (s : gc_state) : option gc_state :=
  match p with
  | Some r => upd_root r (set_r_prev x) s
  | None => Some (on_gc (set_roots_prev x) s)
  end.
Definition assign_next (p x : option addr) (s : gc_state) : option gc_state :=
  match p with
  | Some r => upd_root r (set_r_next x) s
  | None => Some (on_gc (set_roots_next x) s)
  end.

Definition gc_remove_from_buffer (root : addr) (s : gc_state) : option gc_state :=
  e ← buf (gc s) !! root;
  s ← assign_prev (r_next e) (r_prev e) s;
  e ← buf (gc s) !! root;
  s ← assign_next (r_prev e) (r_next e) s;
  s ← upd_root root (set_r_prev (unused (gc s))) s;
  Some (on_gc (set_unused (Some root)) s).

(** The number of values and objects bounds the depth of the recursions. *)
Definition depth (s : gc_state) : nat :=
  S (size (zvals s) + match object_buckets s with Some m => size m | None => 0 end).

Definition mark_root (fuel : nat) (r : addr) (e : gc_root_buffer) (s : gc_state) : option gc_state :=
  match r_u e with
  | ROOT_OBJECT h =>
      match object_buckets s with
      | Some _ =>
          o ← object_at h s;
          if decide (w_color (o_buffered o) = GC_PURPLE) then zobj_mark_grey fuel h s
          else s ← obj_set_address h NULL s; gc_remove_from_buffer r s
      | None => Some s
      end
  | ROOT_ZVAL z =>
      col ← z_color z s;
      if decide (col = GC_PURPLE) then zval_mark_grey fuel z s
      else s ← GC_ZVAL_SET_ADDRESS z NULL s; gc_remove_from_buffer r s
  end.

(** [while (current != &GC_G(roots)) { ...; current = current->next; }] *)
Fixpoint roots_loop (fuel : nat) (body : addr -> gc_root_buffer -> gc_state -> option gc_state)
    (current : option addr) (s : gc_state) : option gc_state :=
  match current with
  | None => Some s
  | Some r =>
      match fuel with
      | O => None
      | S fuel =>
          e ← buf (gc s) !! r;
          s ← body r e s;
          e ← buf (gc s) !! r;
          roots_loop fuel body (r_next e) s
      end
  end.

Definition gc_mark_roots (s : gc_state) : option gc_state :=
  roots_loop (size (buf (gc s))) (mark_root (depth s)) (roots_next (gc s)) s.

(** ** Telling garbage from the rest *)
Fixpoint zval_scan (fuel : nat) (pz : addr) (s : gc_state) : option gc_state :=
  match fuel with
  | O => None
  | S fuel' =>
      v ← zvals s !! pz;
      if decide (w_color (z_u v) = GC_GREY) then
        if 0 <? refcount__gc v then zval_scan_black (depth s) pz s
        else
          s ← GC_ZVAL_SET_COLOR pz GC_WHITE s;
          match z_value v, object_buckets s with
          | IS_OBJECT h, Some _ =>
              o ← object_at h s;
              if decide (w_color (o_buffered o) = GC_GREY) then
                if 0 <? o_refcount o then zobj_scan_black (depth s) h s
                else s ← obj_set_color h GC_WHITE s; each_property (zval_scan fuel') o s
              else Some s
          | IS_ARRAY t, _ =>
              if decide (t = symbol_table s) then GC_ZVAL_SET_COLOR pz GC_BLACK s
              else l ← tables s !! t; each (zval_scan fuel') l s
          | _, _ => Some s
          end
      else Some s
  end.

Definition zobj_scan (fuel : nat) (h : positive) (s : gc_state) : option gc_state :=
  match object_buckets s with
  | Some _ =>
      o ← object_at h s;
      if decide (w_color (o_buffered o) = GC_GREY) then
        if 0 <? o_refcount o then zobj_scan_black (depth s) h s
        else s ← obj_set_color h GC_WHITE s; each_property (zval_scan fuel) o s
      else Some s
  | None => Some s
  end.

Definition scan_root (fuel : nat) (r : addr) (e : gc_root_buffer) (s : gc_state) : option gc_state :=
  match r_u e with
  | ROOT_OBJECT h => zobj_scan fuel h s
  | ROOT_ZVAL z => zval_scan fuel z s
  end.

Definition gc_scan_roots (s : gc_state) : option gc_state :=
  roots_loop (size (buf (gc s))) (scan_root (depth s)) (roots_next (gc s)) s.

(** ** Collecting *)

(** "restore refcount and put into list to free" *)
Definition to_free (z : addr) (s : gc_state) : option gc_state :=
  s ← upd_zval z (on_count (fun n => to_uint (n + 1))) s;
  head ← zval_to_free (gc s);
  s ← upd_zval z (on_u (fun _ => Word (NEXT head) GC_BLACK)) s;
  Some (on_gc (set_zval_to_free (Some (Some z))) s).

Fixpoint zval_collect_white (fuel : nat) (pz : addr) (s : gc_state) : option gc_state :=
  match fuel with
  | O => None
  | S fuel =>
      let visit c s := s ← addref c s; zval_collect_white fuel c s in
      w ← z_word pz s;
      if decide (w = Word NULL GC_WHITE) then
        s ← GC_ZVAL_SET_COLOR pz GC_BLACK s;
        v ← zvals s !! pz;
        match z_value v, object_buckets s with
        | IS_OBJECT h, Some _ =>
            o ← object_at h s;
            if decide (o_buffered o = Word NULL GC_WHITE) then
              s ← obj_set_color h GC_PURPLE s;
              match o_valid o, o_get_gc o with
              | true, Some (table, None) => s ← to_free pz s; each (slot visit) table s
              | true, Some (table, Some l) =>
                  s ← each (slot visit) table s; s ← to_free pz s; each visit l s
              | _, _ => to_free pz s
              end
            else to_free pz s
        | IS_ARRAY t, _ => l ← tables s !! t; s ← to_free pz s; each visit l s
        | _, _ => to_free pz s
        end
      else Some s
  end.

Definition zobj_collect_white (fuel : nat) (h : positive) (s : gc_state) : option gc_state :=
  match object_buckets s with
  | Some _ =>
      o ← object_at h s;
      if decide (o_buffered o = Word NULL GC_WHITE) then
        s ← obj_set_color h GC_PURPLE s;
        each_property (fun c s => s ← addref c s; zval_collect_white fuel c s) o s
      else Some s
  | None => Some s
  end.

Definition collect_root (fuel : nat) (r : addr) (e : gc_root_buffer) (s : gc_state) : option gc_state :=
  s ← match r_u e with
      | ROOT_OBJECT h =>
          match object_buckets s with
          | Some _ => s ← obj_set_address h NULL s; zobj_collect_white fuel h s
          | None => Some s
          end
      | ROOT_ZVAL z => s ← GC_ZVAL_SET_ADDRESS z NULL s; zval_collect_white fuel z s
      end;
  gc_remove_from_buffer r s.

Definition gc_collect_roots (s : gc_state) : option gc_state :=
  roots_loop (size (buf (gc s))) (collect_root (depth s)) (roots_next (gc s)) s.

(** The three phases of a run. *)
Definition find_garbage (s : gc_state) : option gc_state :=
  s ← gc_mark_roots s;
  s ← gc_scan_roots s;
  gc_collect_roots s.

(** ** [gc_collect_cycles] *)

(** What a run calls besides: the destructor of an object, dropping the last
    reference to one, destroying an array and a scalar.  They run code of the
    program and of other parts of the engine. *)
Class GcCallbacks := {
  object_dtor : positive -> gc_state -> option gc_state;
  store_del_ref : positive -> gc_state -> option gc_state;
  hash_destroy : positive -> gc_state -> option gc_state;
  zval_dtor : addr -> gc_state -> option gc_state
}.

Section Cycles.
Context `{GcCallbacks}.

(** [p->u.next] *)
Definition u_next (p : addr) (s : gc_state) : option (option addr) :=
  w ← z_word p s;
  match w_address w with NEXT n => Some n | _ => None end.

Definition set_type (ty : zvalue) (v : zval) : zval := Zval ty (refcount__gc v) (z_u v).
Definition set_dtor_called (o : gc_object) : gc_object :=
  GcObject (o_valid o) true (o_has_dtor o) (o_get_gc o) (o_refcount o) (o_buffered o).

(** "First call destructors" *)
Fixpoint destructors_loop (fuel : nat) (p : option addr) (count : Z) (s : gc_state) : option (gc_state * Z) :=
  match p with
  | None => Some (s, count)
  | Some z =>
      match fuel with
      | O => None
      | S fuel =>
          v ← zvals s !! z;
          s ← match z_value v, object_buckets s with
              | IS_OBJECT h, Some m =>
                  o ← m !! h;
                  if o_valid o && (o_refcount o <=? 0) && o_has_dtor o && negb (o_destructor_called o) then
                    s ← upd_object h set_dtor_called s;
                    s ← upd_object h (on_refcount (fun n => to_uint (n + 1))) s;
                    s ← object_dtor h s;
                    upd_object h (on_refcount (fun n => to_uint (n - 1))) s
                  else Some s
              | _, _ => Some s
              end;
          n ← u_next z s;
          destructors_loop fuel n (count + 1) s
      end
  end.

(** "Destroy zvals" *)
Fixpoint destroy_loop (fuel : nat) (p : option addr) (s : gc_state) : option gc_state :=
  match p with
  | None => Some s
  | Some z =>
      match fuel with
      | O => None
      | S fuel =>
          n ← u_next z s;
          let s := on_gc (set_next_to_free (Some n)) s in
          v ← zvals s !! z;
          s ← match z_value v with
              | IS_OBJECT h =>
                  match object_buckets s with
                  | Some m =>
                      o ← m !! h;
                      if o_valid o && (o_refcount o <=? 0) then
                        s ← upd_object h (on_refcount (fun _ => 1)) s;
                        s ← upd_zval z (set_type IS_NULL) s;
                        store_del_ref h s
                      else Some s
                  | None => Some s
                  end
              | IS_ARRAY t => s ← upd_zval z (set_type IS_NULL) s; hash_destroy t s
              | _ => s ← zval_dtor z s; upd_zval z (set_type IS_NULL) s
              end;
          p ← next_to_free (gc s);
          destroy_loop fuel p s
      end
  end.

(** "Free zvals" *)
Fixpoint free_loop (fuel : nat) (p : option addr) (s : gc_state) : option gc_state :=
  match p with
  | None => Some s
  | Some z =>
      match fuel with
      | O => None
      | S fuel => q ← u_next z s; free_loop fuel q (with_zvals (delete z (zvals s)) s)
      end
  end.

(** The loops run over the values that were found: there are no more than there
    are values when the run starts. *)
Definition gc_collect_cycles (s : gc_state) : option (gc_state * Z) :=
  match roots_next (gc s) with
  | None => Some (s, 0)
  | Some _ =>
      if gc_active (gc s) then Some (s, 0)
      else
        let fuel := S (size (zvals s)) in
        let s := on_gc (fun g => set_runs (to_uint (gc_runs g + 1)) g) s in
        let s := on_gc (set_zval_to_free (Some None)) s in
        let s := on_gc (set_active true) s in
        s ← find_garbage s;
        let orig_free_list := free_list (gc s) in
        let orig_next_to_free := next_to_free (gc s) in
        let found := zval_to_free (gc s) in
        let s := on_gc (set_free_list found) s in
        let s := on_gc (set_zval_to_free None) s in
        let s := on_gc (set_active false) s in
        p ← found;
        '(s, count) ← destructors_loop fuel p 0 s;
        p ← free_list (gc s);
        s ← destroy_loop fuel p s;
        p ← free_list (gc s);
        s ← free_loop fuel p s;
        let s := on_gc (fun g => set_collected (to_uint (collected g + count)) g) s in
        let s := on_gc (set_free_list orig_free_list) s in
        Some (on_gc (set_next_to_free orig_next_to_free) s, count)
  end.

(** ** Possible roots *)

(** [GC_ZVAL_ADDRESS(zv) < GC_G(buf) || GC_ZVAL_ADDRESS(zv) >= GC_G(last_unused)]
    for an address that is not null. *)
Definition outside_buffer (a : gc_address) : bool := match a with ROOT _ => false | _ => true end.

(** "The given zval is a garbage that is going to be deleted by currently
    running GC" *)
Definition being_freed (s : gc_state) (w : gcword) : bool :=
  bool_decide (free_list (gc s) <> None) && bool_decide (w_color w = GC_BLACK) && outside_buffer (w_address w).

(** An unused entry of the buffer, if need be after a run of the collector
    during which [zv] is kept; [None] inside: there is none. *)
Definition new_root (zv : addr) (s : gc_state) : option (gc_state * option addr) :=
  match unused (gc s) with
  | Some r => e ← buf (gc s) !! r; Some (on_gc (set_unused (r_prev e)) s, Some r)
  | None =>
      if decide (first_unused (gc s) <> last_unused (gc s)) then
        r ← first_unused (gc s);
        Some (on_gc (set_first_unused (Some (Pos.succ r))) s, Some r)
      else if negb (gc_enabled (gc s)) then Some (s, None)
      else
        s ← upd_zval zv (on_count (fun n => to_uint (n + 1))) s;
        '(s, _) ← gc_collect_cycles s;
        s ← upd_zval zv (on_count (fun n => to_uint (n - 1))) s;
        match unused (gc s) with
        | Some r => e ← buf (gc s) !! r; Some (on_gc (set_unused (r_prev e)) s, Some r)
        | None => Some (s, None)
        end
  end.

(** The entry becomes the first of the list of roots and stands for [u]. *)
Definition link_root (r : addr) (u : gc_root) (s : gc_state) : option gc_state :=
  s ← upd_root r (set_r_next (roots_next (gc s))) s;
  s ← upd_root r (set_r_prev None) s;
  s ← assign_prev (roots_next (gc s)) (Some r) s;
  let s := on_gc (set_roots_next (Some r)) s in
  upd_root r (fun e => RootBuffer (r_prev e) (r_next e) u) s.

Definition gc_zobj_possible_root (zv : addr) (h : positive) (s : gc_state) : option gc_state :=
  match object_buckets s with
  | None => Some s
  | Some m =>
      o ← m !! h;
      match o_get_gc o with
      | None => Some s
      | Some _ =>
          if decide (w_color (o_buffered o) = GC_PURPLE) then Some s
          else if decide (w_address (o_buffered o) = NULL) then
            '(s, newRoot) ← new_root zv s;
            match newRoot with
            | None => Some s
            | Some r =>
                s ← obj_set_color h GC_PURPLE s;
                s ← link_root r (ROOT_OBJECT h) s;
                obj_set_address h (ROOT r) s
            end
          else Some s
      end
  end.

Definition gc_zval_possible_root (zv : addr) (s : gc_state) : option gc_state :=
  v ← zvals s !! zv;
  if bool_decide (w_address (z_u v) <> NULL) && being_freed s (z_u v) then Some s
  else
    match z_value v with
    | IS_OBJECT h =>
        match object_buckets s with
        | None => Some s
        | Some m => o ← m !! h; if o_valid o then gc_zobj_possible_root zv h s else Some s
        end
    | _ =>
        if decide (w_color (z_u v) = GC_PURPLE) then Some s
        else if decide (w_address (z_u v) = NULL) then
          '(s, newRoot) ← new_root zv s;
          match newRoot with
          | None => Some s
          | Some r =>
              s ← GC_ZVAL_SET_COLOR zv GC_PURPLE s;
              s ← link_root r (ROOT_ZVAL zv) s;
              GC_ZVAL_SET_ADDRESS zv (ROOT r) s
          end
        else Some s
    end.

(** [gc_zval_check_possible_root] of zend_gc.h. *)
Definition gc_zval_check_possible_root (z : addr) (s : gc_state) : option gc_state :=
  v ← zvals s !! z;
  match z_value v with
  | IS_ARRAY _ | IS_OBJECT _ => gc_zval_possible_root z s
  | _ => Some s
  end.

(** Called when the address is not null. *)
Definition gc_remove_zval_from_buffer (zv : addr) (s : gc_state) : option gc_state :=
  v ← zvals s !! zv;
  if being_freed s (z_u v) then
    if decide (next_to_free (gc s) = Some (Some zv)) then n ← u_next zv s; Some (on_gc (set_next_to_free (Some n)) s)
    else Some s
  else
    match w_address (z_u v) with
    | ROOT r => s ← gc_remove_from_buffer r s; upd_zval zv (on_u (fun _ => Word NULL GC_BLACK)) s
    | _ => None
    end.
(** Before the memory of a value is freed. *)
Definition GC_REMOVE_ZVAL_FROM_BUFFER (z : addr) (s : gc_state) : option gc_state :=
  w ← z_word z s;
  if decide (w_address w = NULL) then Some s else gc_remove_zval_from_buffer z s.

(** Before the objects store frees an object. *)
Definition GC_REMOVE_ZOBJ_FROM_BUFFER (h : positive) (s : gc_state) : option gc_state :=
  o ← object_at h s;
  match w_address (o_buffered o) with
  | NULL => Some s
  | ROOT r =>
      if gc_active (gc s) then Some s
      else s ← gc_remove_from_buffer r s; upd_object h (on_buffered (fun _ => Word NULL GC_BLACK)) s
  | NEXT _ => None
  end.
End Cycles.

(** ** Setting up *)

(** [first_unused] and [last_unused] are not set. *)
Definition gc_globals_ctor_ex (g : zend_gc_globals) : zend_gc_globals :=
  GcGlobals false false ∅ None None None (first_unused g) (last_unused g) None None None 0 0.

(** [free] *)
Definition root_buffer_dtor (g : zend_gc_globals) : zend_gc_globals :=
  if decide (buf g = ∅) then g else set_buf ∅ g.

Definition GC_ROOT_BUFFER_MAX_ENTRIES : Z := 10000.

Definition gc_reset (s : gc_state) : gc_state :=
  let s := on_gc (set_collected 0) (on_gc (set_runs 0) s) in
  let s := on_gc (set_roots_prev None) (on_gc (set_roots_next None) s) in
  let s := on_gc (set_unused None) s in
  if decide (buf (gc s) = ∅) then on_gc (set_last_unused None) (on_gc (set_first_unused None) s)
  else on_gc (set_zval_to_free None) (on_gc (set_first_unused (Some 1%positive)) s).

(** [malloc] gives the array of entries, with arbitrary contents; the entry
    [buf[i]] has the address [i + 1]. *)
Definition gc_init (entries : gmap addr gc_root_buffer) (s : gc_state) : gc_state :=
  if decide (buf (gc s) = ∅ /\ gc_enabled (gc s) = true) then
    let s := on_gc (set_buf entries) s in
    let s := on_gc (set_last_unused (Some (Z.to_pos (GC_ROOT_BUFFER_MAX_ENTRIES + 1)))) s in
    gc_reset s
  else s.
