(* ===== verification/GCGraph.v ===== *)
(** * GCGraph: the graph zend_gc.c walks, and how its assignments act on it

    Values and objects are the nodes of a graph; the elements of an array and
    the object of a value are its edges, and each edge is one reference.  The
    value of the global symbol table is not followed and references to it are
    not counted: it is [pinned]. *)
From S2P Require Import Prelude DList GC.

Abbreviation node := (addr + positive)%type.

(** ** What does not change during a run *)
Record graph := Graph {
  g_value : gmap addr zvalue;
  g_tables : gmap positive (list addr);
  g_symbol_table : positive;
  g_objects : option (gmap positive (list addr))
}.

(** The values an object reports. *)
Definition reported (o : gc_object) : list addr :=
  if o_valid o then
    match o_get_gc o with
    | Some (table, props) => omap id table ++ default [] props
    | None => []
    end
  else [].

Definition graph_of (s : gc_state) : graph :=
  Graph (z_value <$> zvals s) (tables s) (symbol_table s) ((fun m : gmap positive gc_object => reported <$> m) <$> object_buckets s).

Definition pinned (G : graph) (n : node) : Prop :=
  exists z, n = inl z /\ g_value G !! z = Some (IS_ARRAY (g_symbol_table G)).
#[export] Instance pinned_dec G n : Decision (pinned G n).
Proof.
  destruct n as [z|h]; [destruct (decide (g_value G !! z = Some (IS_ARRAY (g_symbol_table G))))|].
  - left. by exists z.
  - right. intros (z' & E & ?). congruence.
  - right. intros (z' & E & ?). congruence.
Defined.

Definition counted (G : graph) (l : list addr) : list node :=
  filter (fun n => ~ pinned G n) (inl <$> l).

Definition succ (G : graph) (n : node) : list node :=
  match n with
  | inl z =>
      match g_value G !! z, g_objects G with
      | Some (IS_OBJECT h), Some _ => [inr h]
      | Some (IS_ARRAY t), _ =>
          if decide (t = g_symbol_table G) then [] else counted G (default [] (g_tables G !! t))
      | _, _ => []
      end
  | inr h => counted G (default [] (m ← g_objects G; m !! h))
  end.

Definition present (G : graph) (n : node) : Prop :=
  match n with
  | inl z => is_Some (g_value G !! z)
  | inr h => exists m, g_objects G = Some m /\ is_Some (m !! h)
  end.

(** No pointer leads out of the heap. *)
Record graph_ok (G : graph) : Prop := {
  go_array : forall z t, g_value G !! z = Some (IS_ARRAY t) -> t <> g_symbol_table G ->
    exists l, g_tables G !! t = Some l /\ forall c, c ∈ l -> present G (inl c);
  go_object : forall z h m, g_value G !! z = Some (IS_OBJECT h) -> g_objects G = Some m -> is_Some (m !! h);
  go_reported : forall h m l, g_objects G = Some m -> m !! h = Some l -> forall c, c ∈ l -> present G (inl c)
}.

Definition all_nodes (G : graph) : list node :=
  (inl <$> (map_to_list (g_value G)).*1)
  ++ (inr <$> match g_objects G with Some m => (map_to_list m).*1 | None => [] end).

Lemma all_nodes_present G n : n ∈ all_nodes G <-> present G n.
Proof.
  unfold all_nodes, present. rewrite elem_of_app, !list_elem_of_fmap. split.
  - intros [(z & -> & Hz)|(h & -> & Hh)].
    + apply list_elem_of_fmap in Hz as ([z' v] & -> & Hz%elem_of_map_to_list). eauto.
    + destruct (g_objects G) as [m|]; [|by apply not_elem_of_nil in Hh].
      apply list_elem_of_fmap in Hh as ([h' v] & -> & Hh%elem_of_map_to_list). eauto.
  - destruct n as [z|h].
    + intros [v Hv]. left. exists z. split; [done|]. apply list_elem_of_fmap. exists (z, v).
      by rewrite elem_of_map_to_list.
    + intros (m & -> & [v Hv]). right. exists h. split; [done|]. apply list_elem_of_fmap. exists (h, v).
      by rewrite elem_of_map_to_list.
Qed.

Lemma all_nodes_NoDup G : NoDup (all_nodes G).
Proof.
  unfold all_nodes. apply NoDup_app. split; [|split].
  - apply (NoDup_fmap_2 _). apply NoDup_fst_map_to_list.
  - intros x (z & -> & _)%list_elem_of_fmap (h & ? & _)%list_elem_of_fmap. done.
  - apply (NoDup_fmap_2 _). destruct (g_objects G); [apply NoDup_fst_map_to_list|constructor].
Qed.

Lemma all_nodes_length s : (length (all_nodes (graph_of s)) < depth s)%nat.
Proof.
  unfold all_nodes, depth. rewrite length_app, !length_fmap. simpl.
  rewrite length_map_to_list, map_size_fmap.
  destruct (object_buckets s) as [m|]; simpl; [rewrite length_fmap, length_map_to_list, map_size_fmap|]; lia.
Qed.

Lemma succ_present G n c : graph_ok G -> c ∈ succ G n -> present G c /\ ~ pinned G c.
Proof.
  intros [Ha Ho Hr] Hc.
  assert (Hcount : forall l, (forall c, c ∈ l -> present G (inl c)) -> c ∈ counted G l -> present G c /\ ~ pinned G c).
  { intros l Hl [Hp (z & -> & Hz)%list_elem_of_fmap]%list_elem_of_filter. auto. }
  destruct n as [z|h]; simpl in Hc.
  - destruct (g_value G !! z) as [[| |t|h]|] eqn:Ev; try (by apply not_elem_of_nil in Hc).
    + case_decide as Ht; [by apply not_elem_of_nil in Hc|].
      destruct (Ha z t Ev Ht) as (l & El & Hl). rewrite El in Hc. eauto.
    + destruct (g_objects G) as [m|] eqn:Em; [|by apply not_elem_of_nil in Hc].
      apply list_elem_of_singleton in Hc as ->. split; [exists m; eauto|]. intros (? & ? & _). done.
  - destruct (g_objects G) as [m|] eqn:Em; simpl in Hc; [|by apply not_elem_of_nil in Hc].
    destruct (m !! h) as [l|] eqn:El; [|by apply not_elem_of_nil in Hc]. eauto.
Qed.

(** ** Counting edges *)
Fixpoint occ (n : node) (l : list node) : Z :=
  match l with
  | [] => 0
  | x :: l => (if decide (x = n) then 1 else 0) + occ n l
  end.
Fixpoint edges (G : graph) (X : list node) (n : node) : Z :=
  match X with
  | [] => 0
  | x :: X => occ n (succ G x) + edges G X n
  end.

Lemma occ_app n l l' : occ n (l ++ l') = occ n l + occ n l'.
Proof. induction l as [|x l IH]; simpl; [done|]. rewrite IH. lia. Qed.
Lemma occ_nonneg n l : 0 <= occ n l.
Proof. induction l; simpl; [done|]. case_decide; lia. Qed.
Lemma occ_pos n l : n ∈ l <-> 0 < occ n l.
Proof.
  induction l as [|x l IH]; simpl; [split; [by intros ?%not_elem_of_nil|done]|].
  rewrite elem_of_cons, IH. pose proof (occ_nonneg n l). case_decide as E; split; intros; try lia; auto.
  destruct H0; [congruence|lia].
Qed.

Lemma edges_app G X Y n : edges G (X ++ Y) n = edges G X n + edges G Y n.
Proof. induction X as [|x X IH]; simpl; [done|]. rewrite IH. lia. Qed.
Lemma edges_nonneg G X n : 0 <= edges G X n.
Proof. induction X as [|x X IH]; simpl; [done|]. pose proof (occ_nonneg n (succ G x)). lia. Qed.
Lemma edges_pos G X n : 0 < edges G X n <-> exists x, x ∈ X /\ n ∈ succ G x.
Proof.
  induction X as [|x X IH]; simpl.
  - split; [done|]. by intros (? & ?%not_elem_of_nil & _).
  - pose proof (occ_nonneg n (succ G x)) as H1. pose proof (edges_nonneg G X n) as H2. split.
    + intros H. destruct (decide (0 < occ n (succ G x))) as [Ho|Ho].
      * exists x. split; [by left|by apply occ_pos].
      * destruct (proj1 IH ltac:(lia)) as (y & Hy & ?). exists y. split; [by right|done].
    + intros (y & [->|Hy]%elem_of_cons & Hn); [apply occ_pos in Hn; lia|].
      assert (0 < edges G X n) by (apply IH; eauto). lia.
Qed.
Lemma edges_perm G X Y n : Permutation X Y -> edges G X n = edges G Y n.
Proof. induction 1; simpl; lia. Qed.
Lemma edges_partition G (P : node -> Prop) `{!forall x, Decision (P x)} X n :
  edges G X n = edges G (filter P X) n + edges G (filter (fun x => ~ P x) X) n.
Proof.
  induction X as [|x X IH]; [done|]. rewrite !filter_cons. simpl. destruct (decide (P x)).
  - rewrite decide_False by (intros ?; done). simpl. lia.
  - rewrite decide_True by done. simpl. lia.
Qed.
Lemma filter_all (P : node -> Prop) `{!forall x, Decision (P x)} (l : list node) :
  (forall x, x ∈ l -> P x) -> filter P l = l.
Proof.
  induction l as [|x l IH]; intros Hl; [done|]. rewrite filter_cons, decide_True by (apply Hl; by left).
  f_equal. apply IH. intros y Hy. apply Hl. by right.
Qed.
Lemma edges_sub G X Y n : NoDup X -> (forall x, x ∈ X -> x ∈ Y) -> edges G X n <= edges G Y n.
Proof.
  intros Hnd. revert Y. induction Hnd as [|x X Hx Hnd IH]; intros Y Hsub; simpl; [apply edges_nonneg|].
  destruct (list_elem_of_split Y x) as (Y1 & Y2 & ->); [apply Hsub; by left|].
  rewrite (edges_perm G (Y1 ++ x :: Y2) (x :: Y1 ++ Y2)) by (by rewrite Permutation_middle). simpl.
  specialize (IH (Y1 ++ Y2)). assert (edges G X n <= edges G (Y1 ++ Y2) n); [|lia].
  apply IH. intros y Hy. assert (Hy' : y ∈ Y1 ++ x :: Y2) by (apply Hsub; by right). set_solver.
Qed.

(** ** Reaching a node *)
Inductive reach (G : graph) : node -> node -> Prop :=
  | reach_refl n : reach G n n
  | reach_step n c m : c ∈ succ G n -> reach G c m -> reach G n m.

Lemma reach_trans G a b c : reach G a b -> reach G b c -> reach G a c.
Proof. induction 1; [done|]. intros. eapply reach_step; eauto. Qed.
Lemma reach_last G a b c : reach G a b -> c ∈ succ G b -> reach G a c.
Proof. intros Ha Hc. eapply reach_trans; [done|]. eapply reach_step; [done|constructor]. Qed.
Lemma reach_closed G (P : node -> Prop) a b :
  (forall n c, P n -> c ∈ succ G n -> P c) -> reach G a b -> P a -> P b.
Proof. intros HP. induction 1; eauto. Qed.
