(* ===== verification/GCFlood.v ===== *)
(** * GCFlood: marking and restoring, the two floods of zend_gc.c

    [zval_mark_grey] and [zval_scan_black] both visit everything that can be
    reached from a node and does not have their colour yet, and change the
    count of every node by the edges they follow.  [flooded] says what such a
    visit does, for any colour and either sign, so that the two are proved in
    the same way. *)
From S2P Require Import Prelude DList GC GCGraph.

(** ** The state as functions of the nodes *)
Definition word (s : gc_state) (n : node) : gcword :=
  match n with
  | inl z => match zvals s !! z with Some v => z_u v | None => Word NULL GC_BLACK end
  | inr h => match object_at h s with Some o => o_buffered o | None => Word NULL GC_BLACK end
  end.
Definition cnt (s : gc_state) (n : node) : Z :=
  match n with
  | inl z => match zvals s !! z with Some v => refcount__gc v | None => 0 end
  | inr h => match object_at h s with Some o => o_refcount o | None => 0 end
  end.
Definition adr (s : gc_state) (n : node) : gc_address := w_address (word s n).
(** A pinned node counts as black whatever its word says. *)
Definition col (s : gc_state) (n : node) : gc_color :=
  if decide (pinned (graph_of s) n) then GC_BLACK else w_color (word s n).
Definition in_range (s : gc_state) : Prop := forall n, 0 <= cnt s n < 2 ^ 32.

Lemma present_zval s z : present (graph_of s) (inl z) <-> is_Some (zvals s !! z).
Proof. simpl. rewrite lookup_fmap. by rewrite fmap_is_Some. Qed.
Lemma present_object s h : present (graph_of s) (inr h) <-> is_Some (object_at h s).
Proof.
  unfold object_at. simpl. destruct (object_buckets s) as [m|]; simpl.
  - split; [intros (m' & [= <-] & H)|intros H; eexists; split; [done|]];
      rewrite lookup_fmap, fmap_is_Some in *; done.
  - split; [by intros (? & ? & _)|by intros [? ?]].
Qed.

(** [s'] differs from [s] in words and counts only. *)
Definition same (s s' : gc_state) : Prop := graph_of s' = graph_of s /\ gc s' = gc s.

Lemma graph_upd_zval s z v f : zvals s !! z = Some v -> z_value (f v) = z_value v ->
  same s (with_zvals (<[z := f v]> (zvals s)) s).
Proof.
  intros Hv Hf. split; [|done]. unfold graph_of; simpl. f_equal.
  rewrite fmap_insert, Hf. apply insert_id. by rewrite lookup_fmap, Hv.
Qed.
Lemma graph_upd_object s m h o f : object_buckets s = Some m -> m !! h = Some o -> reported (f o) = reported o ->
  same s (with_objects (<[h := f o]> m) s).
Proof.
  intros Hm Ho Hf. split; [|done]. unfold graph_of; simpl. rewrite Hm. simpl. do 2 f_equal.
  rewrite fmap_insert, Hf. apply insert_id. by rewrite lookup_fmap, Ho.
Qed.

(** The four kinds of assignment. *)
Lemma zval_word_ok z f s : present (graph_of s) (inl z) -> exists s', upd_zval z (on_u f) s = Some s' /\ same s s'
  /\ (forall n, word s' n = if decide (n = inl z) then f (word s n) else word s n) /\ forall n, cnt s' n = cnt s n.
Proof.
  rewrite present_zval. intros [v Hv]. unfold upd_zval. rewrite Hv. simpl. eexists. split; [done|].
  split; [by apply graph_upd_zval|].
  split; (intros [y|h]; simpl; [|done]); rewrite lookup_insert; destruct (decide (z = y)) as [<-|Hne].
  - rewrite Hv, decide_True by done. done.
  - rewrite decide_False by congruence. done.
  - by rewrite Hv.
  - done.
Qed.
Lemma zval_count_ok z f s : present (graph_of s) (inl z) -> exists s', upd_zval z (on_count f) s = Some s' /\ same s s'
  /\ (forall n, word s' n = word s n) /\ forall n, cnt s' n = if decide (n = inl z) then f (cnt s n) else cnt s n.
Proof.
  rewrite present_zval. intros [v Hv]. unfold upd_zval. rewrite Hv. simpl. eexists. split; [done|].
  split; [by apply graph_upd_zval|].
  split; (intros [y|h]; simpl; [|done]); rewrite lookup_insert; destruct (decide (z = y)) as [<-|Hne].
  - by rewrite Hv.
  - done.
  - rewrite Hv, decide_True by done. done.
  - rewrite decide_False by congruence. done.
Qed.
Lemma object_word_ok h f s : present (graph_of s) (inr h) ->
  exists s', upd_object h (on_buffered f) s = Some s' /\ same s s'
  /\ (forall n, word s' n = if decide (n = inr h) then f (word s n) else word s n) /\ forall n, cnt s' n = cnt s n.
Proof.
  rewrite present_object. unfold object_at, upd_object.
  intros [o Ho]. destruct (object_buckets s) as [m|] eqn:Em; simpl in Ho |- *; [|done].
  rewrite Ho. simpl. eexists. split; [done|]. split; [by apply graph_upd_object|].
  split; (intros [z|y]; simpl; [done|]); unfold object_at; simpl; rewrite Em; simpl; rewrite lookup_insert;
    destruct (decide (h = y)) as [<-|Hne].
  - rewrite Ho, decide_True by done. done.
  - rewrite decide_False by congruence. done.
  - by rewrite Ho.
  - done.
Qed.
Lemma object_count_ok h f s : present (graph_of s) (inr h) ->
  exists s', upd_object h (on_refcount f) s = Some s' /\ same s s'
  /\ (forall n, word s' n = word s n) /\ forall n, cnt s' n = if decide (n = inr h) then f (cnt s n) else cnt s n.
Proof.
  rewrite present_object. unfold object_at, upd_object.
  intros [o Ho]. destruct (object_buckets s) as [m|] eqn:Em; simpl in Ho |- *; [|done].
  rewrite Ho. simpl. eexists. split; [done|]. split; [by apply graph_upd_object|].
  split; (intros [z|y]; simpl; [done|]); unfold object_at; simpl; rewrite Em; simpl; rewrite lookup_insert;
    destruct (decide (h = y)) as [<-|Hne].
  - by rewrite Ho.
  - done.
  - rewrite Ho, decide_True by done. done.
  - rewrite decide_False by congruence. done.
Qed.

(** ** Reading the state *)
Lemma lookup_value s z v : zvals s !! z = Some v -> g_value (graph_of s) !! z = Some (z_value v).
Proof. intros H. simpl. by rewrite lookup_fmap, H. Qed.

Lemma is_symbol_table_pinned s z v : zvals s !! z = Some v ->
  is_symbol_table s v = bool_decide (pinned (graph_of s) (inl z)).
Proof.
  intros Hv. unfold is_symbol_table. pose proof (lookup_value _ _ _ Hv) as Hg. symmetry.
  destruct (z_value v) as [| |t|h]; simpl in Hg.
  1, 2, 4: apply bool_decide_eq_false_2; intros (z' & [= <-] & E); simpl in E; congruence.
  apply bool_decide_ext. split.
  - intros (z' & [= <-] & E). simpl in E. congruence.
  - intros ->. exists z. done.
Qed.

Lemma word_zval s z v : zvals s !! z = Some v -> word s (inl z) = z_u v /\ cnt s (inl z) = refcount__gc v.
Proof. intros H. simpl. by rewrite H. Qed.
Lemma word_object s h o : object_at h s = Some o -> word s (inr h) = o_buffered o /\ cnt s (inr h) = o_refcount o.
Proof. intros H. simpl. by rewrite H. Qed.

Lemma each_app {A} (f : A -> gc_state -> option gc_state) l l' s :
  each f (l ++ l') s = s' ← each f l s; each f l' s'.
Proof. revert s. induction l as [|x l IH]; intros s; simpl; [done|]. destruct (f x s); simpl; [apply IH|done]. Qed.
Lemma each_slot f table s : each (slot f) table s = each f (omap id table) s.
Proof.
  revert s. induction table as [|[c|] table IH]; intros s; simpl; [done| |apply IH].
  destruct (f c s); simpl; [apply IH|done].
Qed.
Lemma each_property_reported f o s : each_property f o s = each f (reported o) s.
Proof.
  unfold each_property, reported. destruct (o_valid o); [|done].
  destruct (o_get_gc o) as [[table [l|]]|]; [| |done]; rewrite each_slot; simpl.
  - by rewrite each_app.
  - rewrite app_nil_r. by destruct (each f (omap id table) s).
Qed.
Lemma succ_object s h o : object_at h s = Some o -> succ (graph_of s) (inr h) = counted (graph_of s) (reported o).
Proof.
  unfold object_at. simpl. destruct (object_buckets s) as [m|]; simpl; [|done]. intros H.
  by rewrite lookup_fmap, H.
Qed.

(** ** Floods *)
Section Flood.
Variable G : graph.
(** The colour the flood gives, and what it does to a count for each edge. *)
Variables (K : gc_color) (δ : Z).

(** From [s] to [s'] the flood started at the nodes [S], followed the edges
    [E] to them, and gave its colour to the nodes [X]. *)
Record tinted (S E : list node) (s s' : gc_state) (X : list node) : Prop := {
  ti_graph : graph_of s' = graph_of s;
  ti_nodup : NoDup X;
  ti_new : forall n, n ∈ X -> present G n /\ ~ pinned G n /\ col s n <> K;
  ti_col : forall n, col s' n = if decide (n ∈ X) then K else col s n;
  ti_cnt : forall n, cnt s' n = to_uint (cnt s n + δ * (occ n E + edges G X n));
  ti_pin : forall n, pinned G n -> w_color (word s' n) = w_color (word s n) \/ w_color (word s' n) = GC_BLACK;
  ti_start : forall n, n ∈ S -> col s' n = K;
  ti_closed : forall x c, x ∈ X -> c ∈ succ G x -> col s' c = K;
  ti_reach : forall x, x ∈ X -> exists r, r ∈ S /\ reach G r x
}.
(** A flood leaves addresses and the buffer alone. *)
Record flooded (S E : list node) (s s' : gc_state) (X : list node) : Prop := {
  fl_tint : tinted S E s s' X;
  fl_gc : gc s' = gc s;
  fl_adr : forall n, adr s' n = adr s n
}.

Lemma to_uint_add a b : to_uint (to_uint a + b) = to_uint (a + b).
Proof. unfold to_uint. apply Zplus_mod_idemp_l. Qed.
Lemma to_uint_id a : 0 <= a < 2 ^ 32 -> to_uint a = a.
Proof. intros. unfold to_uint. by apply Z.mod_small. Qed.

Lemma flooded_range S E s s' X : tinted S E s s' X -> in_range s'.
Proof. intros F n. rewrite (ti_cnt _ _ _ _ _ F). unfold to_uint. apply Z.mod_pos_bound. lia. Qed.
Lemma flooded_stays S E s s' X n : tinted S E s s' X -> col s n = K -> col s' n = K.
Proof. intros F Hn. rewrite (ti_col _ _ _ _ _ F). by case_decide. Qed.

(** A change that is not part of the flood. *)
Lemma tinted_quiet s s' : in_range s -> graph_of s' = graph_of s -> (forall n, col s' n = col s n) ->
  (forall n, cnt s' n = cnt s n) ->
  (forall n, pinned G n -> w_color (word s' n) = w_color (word s n) \/ w_color (word s' n) = GC_BLACK) ->
  tinted [] [] s s' [].
Proof.
  intros Hr Hg Hcol Hcnt Hpin. split; try done; try (intros ? Hx; by apply not_elem_of_nil in Hx).
  - constructor.
  - intros n. rewrite Hcnt. simpl. rewrite Z.mul_0_r, Z.add_0_r, to_uint_id; [done|apply Hr].
  - intros x c Hx. by apply not_elem_of_nil in Hx.
Qed.
Lemma tinted_nil s : in_range s -> tinted [] [] s s [].
Proof. intros Hr. apply tinted_quiet; auto. Qed.
Lemma tinted_here s n : in_range s -> col s n = K -> tinted [n] [] s s [].
Proof.
  intros Hr Hn. destruct (tinted_nil s Hr). split; try done; [by intros m ->%list_elem_of_singleton|].
  intros x Hx. by apply not_elem_of_nil in Hx.
Qed.

Lemma tinted_app S1 E1 S2 E2 s s1 s2 X1 X2 :
  tinted S1 E1 s s1 X1 -> tinted S2 E2 s1 s2 X2 -> tinted (S1 ++ S2) (E1 ++ E2) s s2 (X1 ++ X2).
Proof.
  intros F1 F2. assert (Hdis : forall n, n ∈ X1 -> n ∈ X2 -> False).
  { intros n H1 H2. apply (ti_new _ _ _ _ _ F2 n H2). rewrite (ti_col _ _ _ _ _ F1). by rewrite decide_True. }
  split.
  - rewrite (ti_graph _ _ _ _ _ F2). apply F1.
  - apply NoDup_app. split; [apply F1|]. split; [done|apply F2].
  - intros n [Hn|Hn]%elem_of_app; [by apply F1|]. destruct (ti_new _ _ _ _ _ F2 n Hn) as (? & ? & Hc).
    rewrite (ti_col _ _ _ _ _ F1) in Hc. split_and!; [done..|]. by case_decide.
  - intros n. rewrite (ti_col _ _ _ _ _ F2), (ti_col _ _ _ _ _ F1).
    destruct (decide (n ∈ X1 ++ X2)) as [[?|?]%elem_of_app|[? ?]%not_elem_of_app]; by repeat case_decide.
  - intros n. rewrite (ti_cnt _ _ _ _ _ F2), (ti_cnt _ _ _ _ _ F1), to_uint_add, occ_app, edges_app. f_equal. lia.
  - intros n Hp. destruct (ti_pin _ _ _ _ _ F2 n Hp) as [->|]; [by apply (ti_pin _ _ _ _ _ F1)|by right].
  - intros n [Hn|Hn]%elem_of_app; [|by apply (ti_start _ _ _ _ _ F2)].
    eapply flooded_stays; [done|by apply (ti_start _ _ _ _ _ F1)].
  - intros x c [Hx|Hx]%elem_of_app Hc; [|by eapply (ti_closed _ _ _ _ _ F2)].
    eapply flooded_stays; [done|by eapply (ti_closed _ _ _ _ _ F1)].
  - intros x [Hx|Hx]%elem_of_app; [destruct (ti_reach _ _ _ _ _ F1 x Hx) as (r & ? & ?)
      |destruct (ti_reach _ _ _ _ _ F2 x Hx) as (r & ? & ?)]; exists r; rewrite elem_of_app; auto.
Qed.

(** Following an edge changes one count. *)
Lemma tinted_edge S E s s0 s' X n : same s s0 -> (forall m, word s0 m = word s m) ->
  (forall m, cnt s0 m = if decide (m = n) then to_uint (cnt s m + δ) else cnt s m) ->
  graph_of s = G ->
  tinted S E s0 s' X -> tinted S (n :: E) s s' X.
Proof.
  intros [Hg Hgc] Hw Hc HsG F.
  assert (Hcol : forall m, col s0 m = col s m) by (intros m; unfold col; by rewrite Hg, Hw).
  destruct F as [? ? Hnew HXc HXn Hpin Hst Hcl Hre]. split; try done.
  - congruence.
  - intros m Hm. rewrite <- Hcol. by apply Hnew.
  - intros m. rewrite HXc. case_decide; [done|apply Hcol].
  - intros m. rewrite HXn, Hc. simpl. destruct (decide (m = n)) as [->|].
    + rewrite decide_True, to_uint_add by done. f_equal. lia.
    + rewrite decide_False by congruence. f_equal.
  - intros m Hm. rewrite <- Hw. by apply Hpin.
Qed.

(** Visiting a node that does not have the colour yet. *)
Lemma tinted_node s s0 s' X n : same s s0 -> graph_of s = G -> in_range s ->
  (forall m, word s0 m = if decide (m = n) then GC_SET_COLOR K (word s m) else word s m) ->
  (forall m, cnt s0 m = cnt s m) -> present G n -> ~ pinned G n -> col s n <> K ->
  tinted (succ G n) (succ G n) s0 s' X -> tinted [n] [] s s' (n :: X).
Proof.
  intros [Hg Hgc] HsG Hr Hw Hc Hn Hp Hk F.
  assert (Hcol : forall m, col s0 m = if decide (m = n) then K else col s m).
  { intros m. unfold col. rewrite Hg, HsG, Hw. destruct (decide (m = n)) as [->|]; [|done].
    by rewrite decide_False. }
  assert (HnX : n ∉ X).
  { intros Hx. apply (ti_new _ _ _ _ _ F n Hx). by rewrite Hcol, decide_True. }
  assert (Hn' : col s' n = K) by (eapply flooded_stays; [done|]; by rewrite Hcol, decide_True).
  split.
  - rewrite (ti_graph _ _ _ _ _ F). done.
  - constructor; [done|apply F].
  - intros m [->|Hm]%elem_of_cons; [done|]. destruct (ti_new _ _ _ _ _ F m Hm) as (? & ? & Hm').
    rewrite Hcol in Hm'. split_and!; [done..|]. by case_decide.
  - intros m. rewrite (ti_col _ _ _ _ _ F), Hcol.
    destruct (decide (m ∈ n :: X)) as [[->|?]%elem_of_cons|[? ?]%not_elem_of_cons]; by repeat case_decide.
  - intros m. rewrite (ti_cnt _ _ _ _ _ F), Hc. simpl. f_equal.
  - intros m Hm. destruct (ti_pin _ _ _ _ _ F m Hm) as [->|]; [|by right]. rewrite Hw.
    destruct (decide (m = n)) as [->|]; [done|by left].
  - by intros m ->%list_elem_of_singleton.
  - intros x c [->|Hx]%elem_of_cons Hsucc; [by apply (ti_start _ _ _ _ _ F)|by eapply (ti_closed _ _ _ _ _ F)].
  - intros x Hx. exists n. split; [by left|]. apply elem_of_cons in Hx as [->|Hx]; [constructor|].
    destruct (ti_reach _ _ _ _ _ F x Hx) as (r & Hr' & ?). by eapply reach_step.
Qed.

(** The same rules for floods. *)
Lemma flooded_nil s : in_range s -> flooded [] [] s s [].
Proof. intros Hr. split; [by apply tinted_nil|done..]. Qed.
Lemma flooded_here s n : in_range s -> col s n = K -> flooded [n] [] s s [].
Proof. intros Hr Hn. split; [by apply tinted_here|done..]. Qed.
Lemma flooded_app S1 E1 S2 E2 s s1 s2 X1 X2 :
  flooded S1 E1 s s1 X1 -> flooded S2 E2 s1 s2 X2 -> flooded (S1 ++ S2) (E1 ++ E2) s s2 (X1 ++ X2).
Proof.
  intros [T1 H1 A1] [T2 H2 A2]. split; [by eapply tinted_app|congruence|]. intros n. by rewrite A2, A1.
Qed.
Lemma flooded_edge S E s s0 s' X n : same s s0 -> (forall m, word s0 m = word s m) ->
  (forall m, cnt s0 m = if decide (m = n) then to_uint (cnt s m + δ) else cnt s m) ->
  graph_of s = G -> flooded S E s0 s' X -> flooded S (n :: E) s s' X.
Proof.
  intros [Hg Hgc] Hw Hc HsG [T ? A]. split; [by eapply tinted_edge|congruence|].
  intros m. rewrite A. unfold adr. by rewrite Hw.
Qed.
Lemma flooded_node s s0 s' X n : same s s0 -> graph_of s = G -> in_range s ->
  (forall m, word s0 m = if decide (m = n) then GC_SET_COLOR K (word s m) else word s m) ->
  (forall m, cnt s0 m = cnt s m) -> present G n -> ~ pinned G n -> col s n <> K ->
  flooded (succ G n) (succ G n) s0 s' X -> flooded [n] [] s s' (n :: X).
Proof.
  intros Hsame HsG Hr Hw Hc Hn Hp Hk [T Hgc A]. split; [by eapply tinted_node|rewrite Hgc; apply Hsame|].
  intros m. rewrite A. unfold adr. rewrite Hw. by case_decide.
Qed.

(** ** How much is left to flood *)
Definition left_over (s : gc_state) : nat :=
  length (filter (fun n => ~ pinned G n /\ col s n <> K) (all_nodes G)).

Lemma filter_length_mono (P Q : node -> Prop) `{!forall x, Decision (P x), !forall x, Decision (Q x)} l :
  (forall x, x ∈ l -> P x -> Q x) -> (length (filter P l) <= length (filter Q l))%nat.
Proof.
  induction l as [|x l IH]; intros Hs; [done|]. rewrite !filter_cons.
  assert (length (filter P l) <= length (filter Q l))%nat by (apply IH; intros y Hy; apply Hs; by right).
  destruct (decide (P x)); [rewrite decide_True by (apply Hs; [by left|done]); simpl; lia|].
  case_decide; simpl; lia.
Qed.
Lemma filter_length_strict (P Q : node -> Prop) `{!forall x, Decision (P x), !forall x, Decision (Q x)} l n :
  (forall x, x ∈ l -> P x -> Q x) -> n ∈ l -> Q n -> ~ P n -> (length (filter P l) < length (filter Q l))%nat.
Proof.
  intros Hs Hn HQ HP. apply list_elem_of_split in Hn as (l1 & l2 & ->).
  rewrite !filter_app, !length_app, !(filter_cons _ n), decide_False, decide_True by done. simpl.
  pose proof (filter_length_mono P Q l1 ltac:(set_solver)). pose proof (filter_length_mono P Q l2 ltac:(set_solver)).
  lia.
Qed.

Lemma flooded_left S E s s' X : tinted S E s s' X -> (left_over s' <= left_over s)%nat.
Proof.
  intros F. apply filter_length_mono. intros x _ [Hp Hx]. split; [done|]. intros E'. apply Hx.
  by eapply flooded_stays.
Qed.
Lemma left_node s s0 n : graph_of s = G -> graph_of s0 = G ->
  (forall m, word s0 m = if decide (m = n) then GC_SET_COLOR K (word s m) else word s m) ->
  present G n -> ~ pinned G n -> col s n <> K -> (left_over s0 < left_over s)%nat.
Proof.
  intros Hs Hs0 Hw Hn Hp Hk. apply (filter_length_strict _ _ _ n).
  - intros x _ [Hpx Hx]. split; [done|]. unfold col in *. rewrite Hs, Hs0, Hw in *.
    destruct (decide (pinned G x)); [done|]. by destruct (decide (x = n)).
  - by apply all_nodes_present.
  - done.
  - intros [_ Hc]. apply Hc. unfold col. rewrite Hs0, Hw, decide_False, decide_True by done. done.
Qed.

(** ** Loops over elements *)
Definition visits (fuel : nat) (f : addr -> gc_state -> option gc_state) : Prop :=
  forall c s, graph_of s = G -> in_range s -> present G (inl c) -> (left_over s < fuel)%nat ->
    exists s' X, f c s = Some s' /\ flooded (counted G [c]) (counted G [c]) s s' X.

Lemma counted_app l l' : counted G (l ++ l') = counted G l ++ counted G l'.
Proof. unfold counted. by rewrite fmap_app, filter_app. Qed.

Lemma each_visits fuel f l : visits fuel f -> forall s, graph_of s = G -> in_range s ->
  (forall c, c ∈ l -> present G (inl c)) -> (left_over s < fuel)%nat ->
  exists s' X, each f l s = Some s' /\ flooded (counted G l) (counted G l) s s' X.
Proof.
  intros Hf. induction l as [|c l IH]; intros s Hs Hr Hl Hfuel; simpl.
  - exists s, []. split; [done|]. by apply flooded_nil.
  - destruct (Hf c s Hs Hr ltac:(apply Hl; by left) Hfuel) as (s1 & X1 & -> & F1). simpl.
    destruct (IH s1) as (s2 & X2 & -> & F2).
    + rewrite <- Hs. apply F1.
    + eapply flooded_range, F1.
    + intros c' Hc'. apply Hl. by right.
    + pose proof (flooded_left _ _ _ _ _ (fl_tint _ _ _ _ _ F1)). lia.
    + exists s2, (X1 ++ X2). split; [done|]. change (c :: l) with ([c] ++ l). rewrite counted_app.
      by eapply flooded_app.
Qed.
End Flood.

(** ** The functions of the source *)
Section Code.
Variable G : graph.
Hypothesis HG : graph_ok G.

Definition bump (δ : Z) (z : addr) (s : gc_state) : option gc_state :=
  v ← zvals s !! z;
  if is_symbol_table s v then Some s else upd_zval z (on_count (fun n => to_uint (n + δ))) s.

Lemma bump_ok δ z s : graph_of s = G -> present G (inl z) -> exists s0, bump δ z s = Some s0
  /\ ((pinned G (inl z) /\ s0 = s)
    \/ (~ pinned G (inl z) /\ same s s0 /\ (forall m, word s0 m = word s m)
        /\ forall m, cnt s0 m = if decide (m = inl z) then to_uint (cnt s m + δ) else cnt s m)).
Proof.
  intros <- Hz. unfold bump. pose proof Hz as [v Hv]%present_zval. rewrite Hv. simpl.
  rewrite (is_symbol_table_pinned _ _ _ Hv). case_bool_decide as Hp; [by exists s; auto|].
  destruct (zval_count_ok z (fun n => to_uint (n + δ)) s Hz) as (s0 & -> & ? & ? & ?). exists s0.
  split; [done|]. right. done.
Qed.

Lemma counted_one z : counted G [z] = if decide (pinned G (inl z)) then [] else [inl z].
Proof. unfold counted. simpl. rewrite filter_cons. simpl. by destruct (decide (pinned G (inl z))); repeat case_decide. Qed.

(** An edge and the visit of its target. *)
Lemma visit_ok K δ z s f : graph_of s = G -> in_range s -> present G (inl z) ->
  (pinned G (inl z) -> exists s' X, f s = Some s' /\ flooded G K δ [] [] s s' X) ->
  (~ pinned G (inl z) -> forall s0, graph_of s0 = G -> in_range s0 -> left_over G K s0 = left_over G K s ->
    exists s' X, f s0 = Some s' /\ flooded G K δ [inl z] [] s0 s' X) ->
  exists s' X, (s0 ← bump δ z s; f s0) = Some s' /\ flooded G K δ (counted G [z]) (counted G [z]) s s' X.
Proof.
  intros Hs Hr Hz Hpin Hf. destruct (bump_ok δ z s Hs Hz) as (s0 & -> & [[Hp ->]|(Hp & Hsame & Hw & Hc)]); simpl.
  - destruct (Hpin Hp) as (s' & X & -> & F). exists s', X. split; [done|]. by rewrite counted_one, decide_True.
  - destruct Hsame as [Hg Hgc]. destruct (Hf Hp s0) as (s' & X & -> & F).
    + congruence.
    + intros m. rewrite Hc. case_decide; [unfold to_uint; apply Z.mod_pos_bound; lia|apply Hr].
    + unfold left_over, col. rewrite Hg. f_equal. apply list_filter_iff. intros m. by rewrite Hw.
    + exists s', X. split; [done|]. rewrite counted_one, decide_False by done.
      by eapply flooded_edge.
Qed.

(** Following the properties of an object. *)
Lemma object_flood K δ fuel f h s : visits G K δ fuel f -> graph_of s = G -> in_range s ->
  present G (inr h) -> col s (inr h) <> K -> (left_over G K s <= fuel)%nat ->
  exists o s0 s' X, object_at h s = Some o /\ obj_set_color h K s = Some s0
    /\ (exists o', object_at h s0 = Some o' /\ reported o' = reported o)
    /\ each f (reported o) s0 = Some s' /\ flooded G K δ [inr h] [] s s' X.
Proof.
  intros Hf Hs Hr Hh Hk Hfuel. rewrite <- Hs in Hh. pose proof Hh as [o Ho]%present_object. exists o.
  destruct (object_word_ok h (GC_SET_COLOR K) s Hh) as (s0 & E0 & Hsame & Hw & Hc). exists s0.
  assert (Hp : ~ pinned G (inr h)) by (by intros (? & ? & _)). pose proof (proj1 Hsame) as Hg. rewrite Hs in Hh.
  assert (Hsucc : succ G (inr h) = counted G (reported o)) by (rewrite <- Hs; by apply succ_object).
  assert (Ho' : exists o', object_at h s0 = Some o' /\ reported o' = reported o).
  { revert E0 Ho. unfold obj_set_color, upd_object, object_at. destruct (object_buckets s) as [m|]; simpl; [|done].
    intros E0 Ho. rewrite Ho in E0. simplify_eq/=. rewrite lookup_insert_eq. eexists. done. }
  destruct (each_visits G K δ fuel f (reported o) Hf s0) as (s' & X & E & F).
  - congruence.
  - intros m. rewrite Hc. apply Hr.
  - destruct HG as [_ _ Hrep]. rewrite <- Hs in *. unfold object_at in Ho. simpl in *.
    destruct (object_buckets s) as [m|]; simpl in *; [|done].
    eapply (Hrep h); [done|]. by rewrite lookup_fmap, Ho.
  - assert (left_over G K s0 < left_over G K s)%nat; [|lia]. eapply left_node; try done; congruence.
  - exists s', (inr h :: X). split_and!; [done..|]. rewrite <- Hsucc in F.
    eapply flooded_node; try done.
Qed.

Lemma object_color s h o : object_at h s = Some o -> col s (inr h) = w_color (o_buffered o).
Proof.
  intros Ho. unfold col. rewrite decide_False by (by intros (? & ? & _)). by destruct (word_object s h o Ho) as [-> _].
Qed.
Lemma zval_color s z v : graph_of s = G -> zvals s !! z = Some v -> ~ pinned G (inl z) ->
  col s (inl z) = w_color (z_u v).
Proof. intros <- Hv Hp. unfold col. rewrite decide_False by done. by destruct (word_zval s z v Hv) as [-> _]. Qed.

(** The edge from a value to its object. *)
Lemma object_edge K δ fuel f h s : visits G K δ fuel f -> graph_of s = G -> in_range s ->
  present G (inr h) -> (left_over G K s <= fuel)%nat ->
  exists s' X,
    (s ← upd_object h (on_refcount (fun n => to_uint (n + δ))) s;
     o ← object_at h s;
     if decide (w_color (o_buffered o) = K) then Some s
     else s ← obj_set_color h K s; each_property f o s) = Some s'
    /\ flooded G K δ [inr h] [inr h] s s' X.
Proof.
  intros Hf Hs Hr Hh Hfuel.
  destruct (object_count_ok h (fun n => to_uint (n + δ)) s) as (s0 & -> & [Hg Hgc] & Hw & Hc); [congruence|].
  cbn [mbind option_bind].
  assert (Hr0 : in_range s0)
    by (intros m; rewrite Hc; case_decide; [unfold to_uint; apply Z.mod_pos_bound; lia|apply Hr]).
  assert (Hl0 : left_over G K s0 = left_over G K s)
    by (unfold left_over, col; rewrite Hg; f_equal; apply list_filter_iff; intros m; by rewrite Hw).
  assert (H0 : present (graph_of s0) (inr h)) by congruence. apply present_object in H0 as [o Ho]. rewrite Ho.
  cbn [mbind option_bind]. rewrite <- (object_color s0 h o Ho). destruct (decide (col s0 (inr h) = K)) as [Hk|Hk].
  - exists s0, []. split; [done|].
    refine (flooded_edge G K δ _ _ s s0 _ _ _ (conj Hg Hgc) Hw Hc Hs _). by apply flooded_here.
  - destruct (object_flood K δ fuel f h s0) as (o' & s1 & s' & X & Eo & -> & _ & E & F); try done; [congruence|lia|].
    assert (o' = o) as -> by congruence. cbn [mbind option_bind]. rewrite each_property_reported, E.
    exists s', X. split; [done|]. refine (flooded_edge G K δ _ _ s s0 _ _ _ (conj Hg Hgc) Hw Hc Hs _). done.
Qed.

(** The elements of an array that is not pinned. *)
Lemma array_flood K δ fuel f z t s0 : visits G K δ fuel f -> graph_of s0 = G -> in_range s0 ->
  g_value G !! z = Some (IS_ARRAY t) -> t <> g_symbol_table G -> (left_over G K s0 < fuel)%nat ->
  exists s' X, (l ← tables s0 !! t; each f l s0) = Some s'
    /\ flooded G K δ (succ G (inl z)) (succ G (inl z)) s0 s' X.
Proof.
  intros Hf Hs Hr Hz Ht Hfuel. destruct (go_array G HG z t Hz Ht) as (l & El & Hl).
  replace (tables s0) with (g_tables G) by (by rewrite <- Hs). rewrite El. cbn [mbind option_bind].
  destruct (each_visits G K δ fuel f l Hf s0 Hs Hr Hl Hfuel) as (s' & X & -> & F). exists s', X.
  split; [done|]. simpl. by rewrite Hz, decide_False, El.
Qed.

(** What a visit of a value does once the value has its colour. *)
Definition spread (K : gc_color) (δ : Z) (f : addr -> gc_state -> option gc_state)
    (e : gc_state -> option gc_state) (v : zval) (s : gc_state) : option gc_state :=
  match z_value v, object_buckets s with
  | IS_OBJECT h, Some _ =>
      s ← upd_object h (on_refcount (fun n => to_uint (n + δ))) s;
      o ← object_at h s;
      if decide (w_color (o_buffered o) = K) then Some s
      else s ← obj_set_color h K s; each_property f o s
  | IS_ARRAY t, _ => if decide (t = symbol_table s) then e s else l ← tables s !! t; each f l s
  | _, _ => Some s
  end.

Lemma spread_ok K δ fuel f e z v s0 : visits G K δ fuel f -> graph_of s0 = G -> in_range s0 ->
  g_value G !! z = Some (z_value v) -> ~ pinned G (inl z) -> (left_over G K s0 < fuel)%nat ->
  exists s' X, spread K δ f e v s0 = Some s' /\ flooded G K δ (succ G (inl z)) (succ G (inl z)) s0 s' X.
Proof.
  intros Hf Hs Hr Hz Hp Hfuel. unfold spread.
  assert (Hnil : succ G (inl z) = [] -> exists s' X, Some s0 = Some s'
    /\ flooded G K δ (succ G (inl z)) (succ G (inl z)) s0 s' X).
  { intros ->. exists s0, []. split; [done|]. by apply flooded_nil. }
  destruct (z_value v) as [| |t|h]; [by apply Hnil; simpl; rewrite Hz..| |].
  - replace (symbol_table s0) with (g_symbol_table G) by (by rewrite <- Hs).
    assert (Ht : t <> g_symbol_table G) by (intros ->; apply Hp; by exists z).
    rewrite decide_False by done. by apply (array_flood K δ fuel f z t s0).
  - destruct (object_buckets s0) as [m|] eqn:Em.
    + assert (HGm : g_objects G = Some (reported <$> m)) by (rewrite <- Hs; simpl; by rewrite Em).
      assert (Es : succ G (inl z) = [inr h]) by (simpl; by rewrite Hz, HGm). rewrite Es.
      apply (object_edge K δ fuel f h s0 Hf Hs Hr); [|lia].
      exists (reported <$> m). split; [done|]. by eapply go_object.
    + apply Hnil. assert (HGm : g_objects G = None) by (rewrite <- Hs; simpl; by rewrite Em).
      simpl. by rewrite Hz, HGm.
Qed.

(** Giving a value the colour and visiting what it holds. *)
Lemma color_and_spread K δ fuel f e z s : visits G K δ fuel f -> graph_of s = G -> in_range s ->
  present G (inl z) -> ~ pinned G (inl z) -> col s (inl z) <> K -> (left_over G K s <= fuel)%nat ->
  exists s0 v s' X, GC_ZVAL_SET_COLOR z K s = Some s0 /\ zvals s0 !! z = Some v
    /\ spread K δ f e v s0 = Some s' /\ flooded G K δ [inl z] [] s s' X.
Proof.
  intros Hf Hs Hr Hz Hp Hk Hfuel.
  destruct (zval_word_ok z (GC_SET_COLOR K) s) as (s0 & E0 & Hsame & Hw & Hc); [congruence|].
  pose proof (proj1 Hsame) as Hg. assert (Hs0 : graph_of s0 = G) by congruence.
  assert (Hz0 : present (graph_of s0) (inl z)) by congruence. apply present_zval in Hz0 as [v Hv].
  destruct (spread_ok K δ fuel f e z v s0) as (s' & X & E & F); try done.
  - intros m. rewrite Hc. apply Hr.
  - rewrite <- Hs0. by apply lookup_value.
  - assert (left_over G K s0 < left_over G K s)%nat; [|lia]. by eapply left_node.
  - exists s0, v, s', (inl z :: X). split_and!; [done..|]. by eapply flooded_node.
Qed.

(** A pinned value only becomes black. *)
Lemma flooded_pinned K δ z s s' : graph_of s = G -> in_range s -> pinned G (inl z) -> same s s' ->
  (forall n, word s' n = if decide (n = inl z) then GC_SET_COLOR GC_BLACK (word s n) else word s n) ->
  (forall n, cnt s' n = cnt s n) -> flooded G K δ [] [] s s' [].
Proof.
  intros Hs Hr Hp Hsame Hw Hc. split; [|apply Hsame|intros n; unfold adr; rewrite Hw; by case_decide].
  apply tinted_quiet; [done|apply Hsame| |done|].
  - intros n. unfold col. rewrite (proj1 Hsame), Hs, Hw.
    destruct (decide (n = inl z)) as [->|]; [by rewrite !decide_True|done].
  - intros n _. rewrite Hw. case_decide; [by right|by left].
Qed.

Lemma pinned_value s z v : graph_of s = G -> zvals s !! z = Some v -> pinned G (inl z) ->
  z_value v = IS_ARRAY (symbol_table s).
Proof. intros <- Hv (z' & [= <-] & E). pose proof (lookup_value _ _ _ Hv). simpl in *. congruence. Qed.

Lemma set_twice z c1 c2 s s1 : graph_of s = G -> GC_ZVAL_SET_COLOR z c1 s = Some s1 ->
  GC_ZVAL_SET_COLOR z c2 s1 = GC_ZVAL_SET_COLOR z c2 s.
Proof.
  unfold GC_ZVAL_SET_COLOR, upd_zval. intros _. destruct (zvals s !! z) as [v|]; simpl; [|done].
  intros [= <-]. simpl. rewrite lookup_insert_eq. simpl. unfold with_zvals. simpl. by rewrite insert_insert_eq.
Qed.

(** ** [zval_mark_grey] and [zobj_mark_grey] *)
Definition marks (fuel : nat) : Prop := forall z s, graph_of s = G -> in_range s -> present G (inl z) ->
  (left_over G GC_GREY s < fuel)%nat ->
  exists s' X, zval_mark_grey fuel z s = Some s' /\ flooded G GC_GREY (-1) (counted G [z]) [] s s' X.

Lemma mark_visits fuel : marks fuel ->
  visits G GC_GREY (-1) fuel (fun c s => s ← delref c s; zval_mark_grey fuel c s).
Proof.
  intros IH c s1 Hs1 Hr1 Hc1 Hl1. apply (visit_ok GC_GREY (-1) c s1 (zval_mark_grey fuel c)); try done.
  - intros Hp. destruct (IH c s1 Hs1 Hr1 Hc1 Hl1) as (s' & X & E & F).
    rewrite counted_one, decide_True in F by done. eauto.
  - intros Hp s2 Hs2 Hr2 Hl2. destruct (IH c s2 Hs2 Hr2 Hc1 ltac:(lia)) as (s' & X & E & F).
    rewrite counted_one, decide_False in F by done. eauto.
Qed.

Lemma zval_mark_grey_ok fuel : marks fuel.
Proof.
  induction fuel as [|fuel IH]; intros z s Hs Hr Hz Hfuel; [lia|]. pose proof (mark_visits fuel IH) as Hvis.
  assert (Hz1 : present (graph_of s) (inl z)) by congruence. pose proof Hz1 as [v Hv]%present_zval.
  cbn [zval_mark_grey]. unfold z_color at 1. rewrite Hv. cbn [mbind option_bind]. rewrite counted_one.
  destruct (decide (w_color (z_u v) = GC_GREY)) as [Hk|Hk]; case_decide as Hp.
  - exists s, []. split; [done|]. by apply flooded_nil.
  - exists s, []. split; [done|]. apply flooded_here; [done|]. by rewrite (zval_color s z v).
  - destruct (zval_word_ok z (GC_SET_COLOR GC_GREY) s Hz1) as (s0 & E0 & Hsame & _).
    change (GC_ZVAL_SET_COLOR z GC_GREY s = Some s0) in E0. rewrite E0. cbn [mbind option_bind].
    assert (Hs0 : graph_of s0 = G) by (rewrite <- Hs; apply Hsame).
    assert (Hz0 : present (graph_of s0) (inl z)) by congruence. apply present_zval in Hz0 as [v0 Hv0].
    rewrite Hv0. cbn [mbind option_bind]. rewrite (pinned_value s0 z v0 Hs0 Hv0 Hp), decide_True by done.
    rewrite (set_twice z GC_GREY GC_BLACK s s0 Hs E0).
    destruct (zval_word_ok z (GC_SET_COLOR GC_BLACK) s Hz1) as (s1 & E1 & Hsame1 & Hw1 & Hc1).
    exists s1, []. split; [done|]. by eapply flooded_pinned.
  - destruct (color_and_spread GC_GREY (-1) fuel _ (GC_ZVAL_SET_COLOR z GC_BLACK) z s Hvis Hs Hr Hz Hp)
      as (s0 & v0 & s' & X & -> & Hv0 & E & F); [by rewrite (zval_color s z v)|lia|].
    cbn [mbind option_bind]. rewrite Hv0. exists s', X. split; [exact E|done].
Qed.

Lemma zobj_mark_grey_ok fuel h s : graph_of s = G -> in_range s -> present G (inr h) ->
  (left_over G GC_GREY s <= fuel)%nat ->
  exists s' X, zobj_mark_grey fuel h s = Some s' /\ flooded G GC_GREY (-1) [inr h] [] s s' X.
Proof.
  intros Hs Hr Hh Hfuel. unfold zobj_mark_grey.
  assert (H0 : present (graph_of s) (inr h)) by congruence. apply present_object in H0 as [o Ho]. rewrite Ho.
  cbn [mbind option_bind]. rewrite <- (object_color s h o Ho). destruct (decide _) as [Hk|Hk].
  - exists s, []. split; [done|]. by apply flooded_here.
  - destruct (object_flood GC_GREY (-1) fuel _ h s (mark_visits fuel (zval_mark_grey_ok fuel)))
      as (o' & s1 & s' & X & Eo & -> & _ & E & F); try done.
    assert (o' = o) as -> by congruence. cbn [mbind option_bind]. rewrite each_property_reported, E. eauto.
Qed.

(** ** [zval_scan_black] and [zobj_scan_black] *)
Definition blackens (fuel : nat) : Prop := forall z s, graph_of s = G -> in_range s -> present G (inl z) ->
  (pinned G (inl z) \/ col s (inl z) <> GC_BLACK) -> (left_over G GC_BLACK s < fuel)%nat ->
  exists s' X, zval_scan_black fuel z s = Some s' /\ flooded G GC_BLACK 1 (counted G [z]) [] s s' X.

Lemma black_visits fuel : blackens fuel ->
  visits G GC_BLACK 1 fuel (fun c s => s ← addref c s; col ← z_color c s;
    if decide (col = GC_BLACK) then Some s else zval_scan_black fuel c s).
Proof.
  intros IH c s1 Hs1 Hr1 Hc1 Hl1.
  assert (Hnext : forall s2, graph_of s2 = G -> in_range s2 -> left_over G GC_BLACK s2 = left_over G GC_BLACK s1 ->
    exists s' X, (col ← z_color c s2; if decide (col = GC_BLACK) then Some s2 else zval_scan_black fuel c s2) = Some s'
      /\ flooded G GC_BLACK 1 (counted G [c]) [] s2 s' X).
  { intros s2 Hs2 Hr2 Hl2. assert (Hc2 : present (graph_of s2) (inl c)) by congruence.
    apply present_zval in Hc2 as [v Hv]. unfold z_color. rewrite Hv. cbn [mbind option_bind].
    destruct (decide (w_color (z_u v) = GC_BLACK)) as [Hb|Hb].
    - exists s2, []. split; [done|]. rewrite counted_one. case_decide; [by apply flooded_nil|].
      apply flooded_here; [done|]. by rewrite (zval_color s2 c v).
    - apply IH; try done; [|lia]. destruct (decide (pinned G (inl c))); [by left|right].
      by rewrite (zval_color s2 c v). }
  apply (visit_ok GC_BLACK 1 c s1
    (fun s => col ← z_color c s; if decide (col = GC_BLACK) then Some s else zval_scan_black fuel c s)); try done.
  - intros Hp. destruct (Hnext s1 Hs1 Hr1 eq_refl) as (s' & X & E & F).
    rewrite counted_one, decide_True in F by done. eauto.
  - intros Hp s2 Hs2 Hr2 Hl2. destruct (Hnext s2 Hs2 Hr2 Hl2) as (s' & X & E & F).
    rewrite counted_one, decide_False in F by done. eauto.
Qed.

Lemma zval_scan_black_ok fuel : blackens fuel.
Proof.
  induction fuel as [|fuel IH]; intros z s Hs Hr Hz Hk Hfuel; [lia|]. pose proof (black_visits fuel IH) as Hvis.
  assert (Hz1 : present (graph_of s) (inl z)) by congruence.
  cbn [zval_scan_black]. rewrite counted_one. case_decide as Hp.
  - destruct (zval_word_ok z (GC_SET_COLOR GC_BLACK) s Hz1) as (s0 & E0 & Hsame & Hw & Hc).
    change (GC_ZVAL_SET_COLOR z GC_BLACK s = Some s0) in E0. rewrite E0. cbn [mbind option_bind].
    assert (Hs0 : graph_of s0 = G) by (rewrite <- Hs; apply Hsame).
    assert (Hz0 : present (graph_of s0) (inl z)) by congruence. apply present_zval in Hz0 as [v0 Hv0].
    rewrite Hv0. cbn [mbind option_bind]. rewrite (pinned_value s0 z v0 Hs0 Hv0 Hp), decide_True by done.
    exists s0, []. split; [done|]. by eapply flooded_pinned.
  - destruct Hk as [?|Hk]; [done|].
    destruct (color_and_spread GC_BLACK 1 fuel _ Some z s Hvis Hs Hr Hz Hp Hk)
      as (s0 & v0 & s' & X & -> & Hv0 & E & F); [lia|].
    cbn [mbind option_bind]. rewrite Hv0. exists s', X. split; [exact E|done].
Qed.

Lemma zobj_scan_black_ok fuel h s : graph_of s = G -> in_range s -> present G (inr h) ->
  col s (inr h) <> GC_BLACK -> (left_over G GC_BLACK s <= fuel)%nat ->
  exists s' X, zobj_scan_black fuel h s = Some s' /\ flooded G GC_BLACK 1 [inr h] [] s s' X.
Proof.
  intros Hs Hr Hh Hk Hfuel. unfold zobj_scan_black.
  destruct (object_flood GC_BLACK 1 fuel _ h s (black_visits fuel (zval_scan_black_ok fuel)))
    as (o & s1 & s' & X & Eo & -> & (o' & Ho' & Hrep) & E & F); try done.
  cbn [mbind option_bind]. rewrite Ho'. cbn [mbind option_bind]. rewrite each_property_reported, Hrep, E. eauto.
Qed.
End Code.
