(* ===== verification/GCScan.v ===== *)
(** * GCScan: telling garbage from what is referenced from outside

    After [gc_mark_roots] the candidates [D] are grey and every reference
    between them is subtracted.  [zval_scan] turns a grey node white when its
    count is 0 and restores it, with all it reaches, when it is not. *)
From S2P Require Import Prelude DList GC GCGraph GCFlood.

Section Scan.
Variable G : graph.
Hypothesis HG : graph_ok G.
(** The candidates and the counts before the run. *)
Variables (D : list node) (c0 : node -> Z).
Hypothesis D_nodup : NoDup D.
Hypothesis D_nodes : forall n, n ∈ D -> present G n /\ ~ pinned G n.
Hypothesis D_closed : forall n c, n ∈ D -> c ∈ succ G n -> c ∈ D.
Hypothesis c0_range : forall n, edges G D n <= c0 n < 2 ^ 32.

(** Held from outside the candidates, directly or through other nodes. *)
Definition held (n : node) : Prop := exists a, a ∈ D /\ edges G D a < c0 a /\ reach G a n.

Definition pins_ok (s : gc_state) : Prop :=
  forall n, pinned G n -> w_color (word s n) <> GC_GREY /\ w_color (word s n) <> GC_WHITE.

Definition unrestored (s : gc_state) : list node := filter (fun d => col s d <> GC_BLACK) D.

Record scan_inv (s : gc_state) : Prop := {
  si_graph : graph_of s = G;
  si_pins : pins_ok s;
  si_cnt : forall n, cnt s n = c0 n - edges G (unrestored s) n;
  si_black : forall b c, b ∈ D -> col s b = GC_BLACK -> c ∈ succ G b -> col s c = GC_BLACK;
  si_col : forall n, n ∈ D -> col s n <> GC_PURPLE;
  si_out : forall n, n ∉ D -> col s n <> GC_GREY /\ col s n <> GC_WHITE;
  si_held : forall b, b ∈ D -> col s b = GC_BLACK -> held b;
  si_white : forall w, col s w = GC_WHITE -> cnt s w = 0
}.

(** From [s] to [s'] the nodes [S] have been scanned. *)
Record scanned (S : list node) (s s' : gc_state) : Prop := {
  sc_inv : scan_inv s';
  sc_gc : gc s' = gc s;
  sc_adr : forall n, adr s' n = adr s n;
  sc_grey : forall n, col s' n = GC_GREY -> col s n = GC_GREY;
  sc_start : forall n, n ∈ S -> col s' n <> GC_GREY;
  sc_white : forall w, col s' w = GC_WHITE -> col s w = GC_WHITE \/ forall c, c ∈ succ G w -> col s' c <> GC_GREY
}.

Lemma unrestored_sub s n : edges G (unrestored s) n <= edges G D n.
Proof. apply edges_sub; [by apply NoDup_filter|]. intros x [_ Hx]%list_elem_of_filter. done. Qed.
Lemma scan_range s : scan_inv s -> in_range s.
Proof.
  intros Hi n. rewrite (si_cnt s Hi). pose proof (unrestored_sub s n). pose proof (c0_range n).
  pose proof (edges_nonneg G (unrestored s) n). lia.
Qed.
Lemma grey_in s n : scan_inv s -> col s n = GC_GREY -> n ∈ D.
Proof. intros Hi Hg. destruct (decide (n ∈ D)) as [|Hn]; [done|]. by destruct (si_out s Hi n Hn). Qed.
Lemma white_in s n : scan_inv s -> col s n = GC_WHITE -> n ∈ D.
Proof. intros Hi Hg. destruct (decide (n ∈ D)) as [|Hn]; [done|]. by destruct (si_out s Hi n Hn). Qed.

Lemma scanned_nil s : scan_inv s -> scanned [] s s.
Proof. intros Hi. split; auto. intros n Hn. by apply not_elem_of_nil in Hn. Qed.
Lemma scanned_here s n : scan_inv s -> col s n <> GC_GREY -> scanned [n] s s.
Proof. intros Hi Hn. split; auto. by intros m ->%list_elem_of_singleton. Qed.

Lemma scanned_app S1 S2 s s1 s2 : scanned S1 s s1 -> scanned S2 s1 s2 -> scanned (S1 ++ S2) s s2.
Proof.
  intros C1 C2. split.
  - apply C2.
  - rewrite (sc_gc _ _ _ C2). apply C1.
  - intros n. rewrite (sc_adr _ _ _ C2). apply C1.
  - intros n Hn. by apply (sc_grey _ _ _ C1), (sc_grey _ _ _ C2).
  - intros n [Hn|Hn]%elem_of_app; [|by apply (sc_start _ _ _ C2)].
    intros Hg%(sc_grey _ _ _ C2). by apply (sc_start _ _ _ C1 n Hn).
  - intros w Hw. destruct (sc_white _ _ _ C2 w Hw) as [Hw1|]; [|by right].
    destruct (sc_white _ _ _ C1 w Hw1) as [|Hc]; [by left|right].
    intros c Hs Hg%(sc_grey _ _ _ C2). by apply (Hc c Hs).
Qed.

(** A grey node with a count is held from outside. *)
Lemma grey_held s n : scan_inv s -> col s n = GC_GREY -> 0 < cnt s n -> edges G D n < c0 n.
Proof.
  intros Hi Hg Hc. rewrite (si_cnt s Hi) in Hc.
  rewrite (edges_partition G (fun d => col s d <> GC_BLACK) D). fold (unrestored s).
  assert (edges G (filter (fun d => ~ col s d <> GC_BLACK) D) n <= 0); [|lia].
  apply Z.nlt_ge. intros (b & [Hb HbD]%list_elem_of_filter & Hn)%edges_pos.
  assert (Hblack : col s b = GC_BLACK) by (destruct (decide (col s b = GC_BLACK)); [done|by exfalso]).
  rewrite (si_black s Hi b n HbD Hblack Hn) in Hg. done.
Qed.

(** Restoring keeps the invariant. *)
Lemma restored s s' n X : scan_inv s -> col s n = GC_GREY -> 0 < cnt s n ->
  flooded G GC_BLACK 1 [n] [] s s' X -> scanned [n] s s'.
Proof.
  intros Hi Hg Hc [F Fgc Fadr]. pose proof (grey_in s n Hi Hg) as HnD.
  assert (HXD : forall x, x ∈ X -> x ∈ D).
  { intros x Hx. destruct (ti_reach _ _ _ _ _ _ _ _ F x Hx) as (r & ->%list_elem_of_singleton & Hr).
    by eapply (reach_closed G (fun m => m ∈ D)). }
  assert (Hn' : col s' n = GC_BLACK) by (apply (ti_start _ _ _ _ _ _ _ _ F); by left).
  assert (HXc : forall m, col s' m = if decide (m ∈ X) then GC_BLACK else col s m) by apply F.
  assert (Hperm : Permutation (unrestored s) (X ++ unrestored s')).
  { apply NoDup_Permutation; [by apply NoDup_filter| |].
    - apply NoDup_app. split; [apply F|]. split; [|by apply NoDup_filter].
      intros x Hx [Hc' _]%list_elem_of_filter. apply Hc'. by rewrite HXc, decide_True.
    - intros x. unfold unrestored. rewrite elem_of_app, !list_elem_of_filter, HXc.
      destruct (decide (x ∈ X)) as [Hx|Hx]; [|split; [by right|by intros [?|?]]].
      pose proof (ti_new _ _ _ _ _ _ _ _ F x Hx) as (_ & _ & ?). split; [by left|]. intros _. split; [done|by apply HXD]. }
  assert (Hcnt : forall m, cnt s' m = c0 m - edges G (unrestored s') m).
  { intros m. rewrite (ti_cnt _ _ _ _ _ _ _ _ F), (si_cnt s Hi), (edges_perm _ _ _ _ Hperm), edges_app.
    cbn [occ]. pose proof (unrestored_sub s' m). pose proof (c0_range m). pose proof (edges_nonneg G (unrestored s') m).
    rewrite to_uint_id; lia. }
  assert (Hgraph : graph_of s' = G) by (rewrite <- (si_graph s Hi); apply F).
  assert (Hwhite : forall w, col s' w = GC_WHITE -> col s w = GC_WHITE)
    by (intros w; rewrite HXc; by case_decide).
  split.
  - split; try done.
    + intros m Hm. destruct (ti_pin _ _ _ _ _ _ _ _ F m Hm) as [-> | ->]; [by apply (si_pins s Hi)|done].
    + intros b c Hb Hblack Hc'. rewrite HXc in Hblack. case_decide as Hbx.
      * by eapply (ti_closed _ _ _ _ _ _ _ _ F).
      * rewrite HXc. case_decide; [done|]. by eapply (si_black s Hi b).
    + intros m Hm. rewrite HXc. case_decide; [done|by apply (si_col s Hi)].
    + intros m Hm. rewrite HXc. case_decide; [done|by apply (si_out s Hi)].
    + intros b Hb. rewrite HXc. case_decide as Hbx; [|by apply (si_held s Hi)]. intros _.
      exists n. split; [done|]. split; [by apply (grey_held s)|].
      by destruct (ti_reach _ _ _ _ _ _ _ _ F b Hbx) as (r & ->%list_elem_of_singleton & ?).
    + intros w Hw. pose proof (si_white s Hi w (Hwhite w Hw)) as E0. rewrite Hcnt.
      rewrite (si_cnt s Hi), (edges_perm _ _ _ _ Hperm), edges_app in E0.
      assert (edges G X w <= 0); [|pose proof (edges_nonneg G X w); lia].
      apply Z.nlt_ge. intros (x & Hx & Hwx)%edges_pos.
      rewrite (ti_closed _ _ _ _ _ _ _ _ F x w Hx Hwx) in Hw. done.
  - done.
  - done.
  - intros m. rewrite HXc. by case_decide.
  - intros m ->%list_elem_of_singleton. by rewrite Hn'.
  - intros w Hw. left. auto.
Qed.

(** ** Turning a node white *)
Lemma whitened s s0 n : scan_inv s -> col s n = GC_GREY -> ~ 0 < cnt s n -> same s s0 ->
  (forall m, word s0 m = if decide (m = n) then GC_SET_COLOR GC_WHITE (word s m) else word s m) ->
  (forall m, cnt s0 m = cnt s m) ->
  scan_inv s0 /\ (forall m, col s0 m = if decide (m = n) then GC_WHITE else col s m)
  /\ (forall m, adr s0 m = adr s m).
Proof.
  intros Hi Hg Hc Hsame Hw Hcnt. pose proof (grey_in s n Hi Hg) as HnD. destruct (D_nodes n HnD) as [_ Hp].
  assert (Hs0 : graph_of s0 = G) by (rewrite <- (si_graph s Hi); apply Hsame).
  assert (Hcol : forall m, col s0 m = if decide (m = n) then GC_WHITE else col s m).
  { intros m. unfold col. rewrite Hs0, (si_graph s Hi), Hw. destruct (decide (m = n)) as [->|]; [|done].
    by rewrite decide_False. }
  split; [|split; [done|]].
  - assert (Hun : unrestored s0 = unrestored s).
    { apply list_filter_iff. intros m. rewrite Hcol. destruct (decide (m = n)) as [->|]; [|done]. by rewrite Hg. }
    pose proof (scan_range s Hi n) as Hr.
    split; try done.
    + intros m Hm. rewrite Hw. destruct (decide (m = n)) as [->|]; [done|by apply (si_pins s Hi)].
    + intros m. rewrite Hcnt, Hun. apply Hi.
    + intros b c Hb. rewrite !Hcol. destruct (decide (b = n)); [done|]. intros Hblack Hc'.
      pose proof (si_black s Hi b c Hb Hblack Hc') as E. destruct (decide (c = n)) as [->|]; [congruence|done].
    + intros m Hm. rewrite Hcol. case_decide; [done|by apply (si_col s Hi)].
    + intros m Hm. rewrite Hcol. case_decide; [by subst|by apply (si_out s Hi)].
    + intros b Hb. rewrite Hcol. case_decide; [done|by apply (si_held s Hi)].
    + intros w. rewrite Hcol, Hcnt. case_decide as E; [subst; lia|apply (si_white s Hi)].
  - intros m. unfold adr. rewrite Hw. by case_decide.
Qed.

(** A white node is scanned when its successors are. *)
Lemma scanned_node s s0 s' n : scan_inv s -> col s n = GC_GREY -> gc s0 = gc s ->
  (forall m, col s0 m = if decide (m = n) then GC_WHITE else col s m) ->
  (forall m, adr s0 m = adr s m) -> scanned (succ G n) s0 s' -> scanned [n] s s'.
Proof.
  intros Hi Hg Hgc Hcol Hadr C. split.
  - apply C.
  - rewrite (sc_gc _ _ _ C). done.
  - intros m. rewrite (sc_adr _ _ _ C). done.
  - intros m Hm%(sc_grey _ _ _ C). rewrite Hcol in Hm. by case_decide.
  - intros m ->%list_elem_of_singleton Hm%(sc_grey _ _ _ C). by rewrite Hcol, decide_True in Hm.
  - intros w Hw. destruct (sc_white _ _ _ C w Hw) as [Hw0|]; [|by right]. rewrite Hcol in Hw0.
    case_decide as E; [|by left]. subst w. right. apply C.
Qed.

(** ** The functions *)
Definition grey_left (s : gc_state) : nat := length (filter (fun n => col s n = GC_GREY) D).

Lemma scanned_left S s s' : scanned S s s' -> (grey_left s' <= grey_left s)%nat.
Proof. intros C. apply filter_length_mono. intros x _. apply C. Qed.
Lemma whitened_left s s0 n : scan_inv s -> col s n = GC_GREY ->
  (forall m, col s0 m = if decide (m = n) then GC_WHITE else col s m) -> (grey_left s0 < grey_left s)%nat.
Proof.
  intros Hi Hg Hcol. apply (filter_length_strict _ _ _ n); [|by eapply grey_in|done|].
  - intros x _. rewrite Hcol. by case_decide.
  - rewrite Hcol, decide_True by done. done.
Qed.

Lemma black_depth s : graph_of s = G -> (left_over G GC_BLACK s < depth s)%nat.
Proof.
  intros <-. eapply Nat.le_lt_trans; [apply length_filter|apply all_nodes_length].
Qed.

Definition scans (fuel : nat) (f : addr -> gc_state -> option gc_state) : Prop :=
  forall z s, scan_inv s -> present G (inl z) -> (grey_left s < fuel)%nat ->
    exists s', f z s = Some s' /\ scanned (counted G [z]) s s'.

Lemma each_scans fuel f l : scans fuel f -> forall s, scan_inv s ->
  (forall c, c ∈ l -> present G (inl c)) -> (grey_left s < fuel)%nat ->
  exists s', each f l s = Some s' /\ scanned (counted G l) s s'.
Proof.
  intros Hf. induction l as [|c l IH]; intros s Hi Hl Hfuel; simpl.
  - exists s. split; [done|]. by apply scanned_nil.
  - destruct (Hf c s Hi ltac:(apply Hl; by left) Hfuel) as (s1 & -> & C1). simpl.
    destruct (IH s1) as (s2 & -> & C2); [apply C1|intros c' Hc'; apply Hl; by right|apply scanned_left in C1; lia|].
    exists s2. split; [done|]. change (c :: l) with ([c] ++ l). rewrite counted_app. by eapply scanned_app.
Qed.

(** Scanning an object. *)
Lemma object_scan fuel f h s : scans fuel f -> scan_inv s -> present G (inr h) -> (grey_left s <= fuel)%nat ->
  exists s', (o ← object_at h s;
      if decide (w_color (o_buffered o) = GC_GREY) then
        if 0 <? o_refcount o then zobj_scan_black (depth s) h s
        else s ← obj_set_color h GC_WHITE s; each_property f o s
      else Some s) = Some s' /\ scanned [inr h] s s'.
Proof.
  intros Hf Hi Hh Hfuel. pose proof (si_graph s Hi) as Hs.
  assert (H0 : present (graph_of s) (inr h)) by congruence. pose proof H0 as [o Ho]%present_object. rewrite Ho.
  cbn [mbind option_bind]. rewrite <- (object_color s h o Ho). destruct (decide _) as [Hg|Hg].
  2: { exists s. split; [done|]. by apply scanned_here. }
  destruct (word_object s h o Ho) as [_ <-]. destruct (Z.ltb_spec 0 (cnt s (inr h))) as [Hc|Hc].
  - destruct (zobj_scan_black_ok G HG (depth s) h s Hs) as (s' & X & E & F); try done.
    + by apply scan_range.
    + by rewrite Hg.
    + pose proof (black_depth s Hs). lia.
    + exists s'. split; [done|]. by eapply restored.
  - destruct (object_word_ok h (GC_SET_COLOR GC_WHITE) s H0) as (s0 & E0 & Hsame & Hw & Hcnt).
    change (obj_set_color h GC_WHITE s = Some s0) in E0. rewrite E0. cbn [mbind option_bind].
    destruct (whitened s s0 (inr h) Hi Hg ltac:(lia) Hsame Hw Hcnt) as (Hi0 & Hcol & Hadr).
    pose proof (whitened_left s s0 _ Hi Hg Hcol). rewrite each_property_reported.
    destruct (each_scans fuel f (reported o) Hf s0 Hi0) as (s' & -> & C); [|lia|].
    + destruct HG as [_ _ Hrep]. rewrite <- Hs in *. unfold object_at in Ho. simpl in *.
      destruct (object_buckets s) as [m|]; simpl in *; [|done].
      eapply (Hrep h); [done|]. by rewrite lookup_fmap, Ho.
    + exists s'. split; [done|]. eapply (scanned_node s s0); try done; [apply Hsame|].
      assert (succ G (inr h) = counted G (reported o)) as -> by (rewrite <- Hs; by apply succ_object). done.
Qed.

Lemma zval_scan_ok fuel : scans fuel (zval_scan fuel).
Proof.
  induction fuel as [|fuel IH]; intros z s Hi Hz Hfuel; [lia|]. pose proof (si_graph s Hi) as Hs.
  assert (H0 : present (graph_of s) (inl z)) by congruence. pose proof H0 as [v Hv]%present_zval.
  cbn [zval_scan]. rewrite Hv. cbn [mbind option_bind]. rewrite counted_one. destruct (decide (pinned G (inl z))) as [Hp|Hp].
  { destruct (si_pins s Hi (inl z) Hp) as [Hg _]. destruct (word_zval s z v Hv) as [E _]. rewrite E in Hg.
    rewrite decide_False by done. exists s. split; [done|]. by apply scanned_nil. }
  rewrite <- (zval_color G HG s z v Hs Hv Hp). destruct (decide _) as [Hg|Hg].
  2: { exists s. split; [done|]. by apply scanned_here. }
  destruct (word_zval s z v Hv) as [_ <-]. destruct (Z.ltb_spec 0 (cnt s (inl z))) as [Hc|Hc].
  - destruct (zval_scan_black_ok G HG (depth s) z s Hs) as (s' & X & E & F); try done.
    + by apply scan_range.
    + right. by rewrite Hg.
    + by apply black_depth.
    + exists s'. split; [done|]. rewrite counted_one, decide_False in F by done. by eapply restored.
  - destruct (zval_word_ok z (GC_SET_COLOR GC_WHITE) s H0) as (s0 & E0 & Hsame & Hw & Hcnt).
    change (GC_ZVAL_SET_COLOR z GC_WHITE s = Some s0) in E0. rewrite E0. cbn [mbind option_bind].
    destruct (whitened s s0 (inl z) Hi Hg ltac:(lia) Hsame Hw Hcnt) as (Hi0 & Hcol & Hadr).
    pose proof (whitened_left s s0 _ Hi Hg Hcol) as Hleft. pose proof (si_graph s0 Hi0) as Hs0.
    assert (Hgv : g_value G !! z = Some (z_value v)) by (rewrite <- Hs; by apply lookup_value).
    enough (exists s', (match z_value v, object_buckets s0 with
       | IS_OBJECT h, Some _ =>
           o ← object_at h s0;
           if decide (w_color (o_buffered o) = GC_GREY) then
             if 0 <? o_refcount o then zobj_scan_black (depth s0) h s0
             else s ← obj_set_color h GC_WHITE s0; each_property (zval_scan fuel) o s
           else Some s0
       | IS_ARRAY t, _ =>
           if decide (t = symbol_table s0) then GC_ZVAL_SET_COLOR z GC_BLACK s0
           else l ← tables s0 !! t; each (zval_scan fuel) l s0
       | _, _ => Some s0
       end) = Some s' /\ scanned (succ G (inl z)) s0 s') as (s' & E & C).
    { exists s'. split; [exact E|]. by eapply (scanned_node s s0); [..|apply Hsame| | |]. }
    assert (Hnil : succ G (inl z) = [] -> exists s', Some s0 = Some s' /\ scanned (succ G (inl z)) s0 s').
    { intros ->. exists s0. split; [done|]. by apply scanned_nil. }
    destruct (z_value v) as [| |t|h]; [by apply Hnil; simpl; rewrite Hgv..| |].
    + replace (symbol_table s0) with (g_symbol_table G) by (by rewrite <- Hs0).
      assert (Ht : t <> g_symbol_table G) by (intros ->; apply Hp; by exists z). rewrite decide_False by done.
      destruct (go_array G HG z t Hgv Ht) as (l & El & Hl).
      replace (tables s0) with (g_tables G) by (by rewrite <- Hs0). rewrite El. cbn [mbind option_bind].
      destruct (each_scans fuel _ l IH s0 Hi0 Hl ltac:(lia)) as (s' & -> & C). exists s'. split; [done|].
      simpl. by rewrite Hgv, decide_False, El.
    + destruct (object_buckets s0) as [m|] eqn:Em.
      * assert (HGm : g_objects G = Some (reported <$> m)) by (rewrite <- Hs0; simpl; by rewrite Em).
        assert (Es : succ G (inl z) = [inr h]) by (simpl; by rewrite Hgv, HGm). rewrite Es.
        apply (object_scan fuel); [done|done| |lia]. exists (reported <$> m). split; [done|]. by eapply go_object.
      * apply Hnil. assert (HGm : g_objects G = None) by (rewrite <- Hs0; simpl; by rewrite Em).
        simpl. by rewrite Hgv, HGm.
Qed.

Lemma zobj_scan_ok fuel h s : scan_inv s -> present G (inr h) -> (grey_left s <= fuel)%nat ->
  exists s', zobj_scan fuel h s = Some s' /\ scanned [inr h] s s'.
Proof.
  intros Hi Hh Hfuel. unfold zobj_scan.
  destruct (object_buckets s) as [m|] eqn:Em.
  - apply (object_scan fuel); [apply zval_scan_ok|done..].
  - exfalso. pose proof (si_graph s Hi) as Hs. rewrite <- Hs in Hh. simpl in Hh. rewrite Em in Hh.
    by destruct Hh as (m & ? & _).
Qed.

(** ** When everything has been scanned *)
Lemma scan_complete s (S : list node) : scan_inv s -> (forall n, n ∈ D -> exists r, r ∈ S /\ reach G r n) ->
  (forall r, r ∈ S -> r ∈ D /\ col s r <> GC_GREY) ->
  (forall w, col s w = GC_WHITE -> forall c, c ∈ succ G w -> col s c <> GC_GREY) ->
  forall n, n ∈ D -> (col s n = GC_BLACK <-> held n) /\ (col s n = GC_WHITE <-> ~ held n).
Proof.
  intros Hi Hreach HS Hwh.
  assert (Hno : forall n, n ∈ D -> col s n = GC_BLACK \/ col s n = GC_WHITE).
  { intros n Hn. destruct (Hreach n Hn) as (r & Hr & Hrn). destruct (HS r Hr) as [HrD Hrg].
    assert (n ∈ D /\ col s n <> GC_GREY) as [_ Hg].
    { eapply (reach_closed G (fun m => m ∈ D /\ col s m <> GC_GREY)); [|done|done].
      intros m c [Hm Hmg] Hc. split; [by eapply D_closed|].
      destruct (col s m) eqn:Em; [by rewrite (si_black s Hi m c)|by eapply Hwh|done|].
      by destruct (si_col s Hi m Hm). }
    pose proof (si_col s Hi n Hn). destruct (col s n); auto; done. }
  assert (Hblack : forall n, n ∈ D -> held n -> col s n = GC_BLACK).
  { intros n Hn (a & HaD & Hac & Han).
    assert (Ha : col s a = GC_BLACK).
    { destruct (Hno a HaD) as [|Hw]; [done|exfalso]. pose proof (si_white s Hi a Hw) as E.
      rewrite (si_cnt s Hi) in E. pose proof (unrestored_sub s a). lia. }
    eapply (reach_closed G (fun m => m ∈ D /\ col s m = GC_BLACK)); [|done|done].
    intros m c [Hm Hmb] Hc. split; [by eapply D_closed|by eapply (si_black s Hi m)]. }
  intros n Hn. split; split.
  - by apply (si_held s Hi).
  - by apply Hblack.
  - intros Hw Hh. rewrite (Hblack n Hn Hh) in Hw. done.
  - intros Hh. destruct (Hno n Hn) as [Hb|]; [|done]. by destruct Hh; apply (si_held s Hi).
Qed.
End Scan.
