(* ===== verification/GCCollect.v ===== *)
(** * GCCollect: putting the white nodes on the list to free

    [zval_collect_white] takes every white node that no entry of the root
    buffer refers to, follows its references once more to restore the counts,
    and links the values into the list of [zval_to_free]. *)
From S2P Require Import Prelude DList GC GCGraph GCFlood.

(** A white node not in the buffer: one [zval_collect_white] takes. *)
Abbreviation NW := (Word NULL GC_WHITE).

Section Collect.
Variable G : graph.
Hypothesis HG : graph_ok G.

(** The values of [F] are linked in this order and followed by [head0]. *)
Fixpoint links (s : gc_state) (F : list addr) (head0 : option addr) : Prop :=
  match F with
  | [] => True
  | z :: F => word s (inl z) = Word (NEXT (match F with y :: _ => Some y | [] => head0 end)) GC_BLACK
              /\ links s F head0
  end.
Definition first (F : list addr) (head0 : option addr) : option addr :=
  match F with z :: _ => Some z | [] => head0 end.
Definition one (b : bool) : Z := if b then 1 else 0.

(** From [s] to [s'] the nodes [C] were taken, the values [F] put on the list
    and the edges [E] followed. *)
Record gathered (head0 : option addr) (E : list node) (s s' : gc_state) (C : list node) (F : list addr) : Prop := {
  ga_graph : graph_of s' = graph_of s;
  ga_gc : gc s' = set_zval_to_free (Some (first F head0)) (gc s);
  ga_C : NoDup C;
  ga_F : NoDup F;
  ga_new : forall n, n ∈ C -> present G n /\ word s n = NW;
  ga_put : forall z, z ∈ F -> present G (inl z) /\ (inl z ∈ C \/ word s (inl z) = Word NULL GC_BLACK);
  ga_word : forall n, n ∉ C -> (forall z, n = inl z -> z ∉ F) -> word s' n = word s n;
  ga_object : forall h, inr h ∈ C -> word s' (inr h) = Word NULL GC_PURPLE;
  ga_taken : forall z, inl z ∈ C -> z ∉ F -> word s' (inl z) = Word NULL GC_BLACK;
  ga_links : links s' F head0;
  ga_zcnt : forall z, cnt s' (inl z) = to_uint (cnt s (inl z) + occ (inl z) E + one (bool_decide (z ∈ F)));
  ga_ocnt : forall h, cnt s' (inr h) = cnt s (inr h)
}.

Lemma links_word s F head0 z : links s F head0 -> z ∈ F -> exists n, word s (inl z) = Word (NEXT n) GC_BLACK.
Proof.
  induction F as [|y F IH]; [by intros _ ?%not_elem_of_nil|]. intros [Hy Hl] [->|Hz]%elem_of_cons; [by eexists|auto].
Qed.
Lemma links_frame s s' F head0 : links s F head0 -> (forall z, z ∈ F -> word s' (inl z) = word s (inl z)) ->
  links s' F head0.
Proof.
  induction F as [|y F IH]; [done|]. intros [Hy Hl] Hw. split.
  - rewrite <- Hy. apply Hw. by left.
  - apply IH; [done|]. intros z Hz. apply Hw. by right.
Qed.
Lemma links_app s F1 F2 head0 : links s F1 head0 -> links s F2 (first F1 head0) -> links s (F2 ++ F1) head0.
Proof.
  intros H1. induction F2 as [|y F2 IH]; [done|]. intros [Hy Hl]. split; [|by apply IH].
  destruct F2; [|done]. done.
Qed.
Lemma first_app F1 F2 head0 : first (F2 ++ F1) head0 = first F2 (first F1 head0).
Proof. by destruct F2. Qed.

(** Where the words of the nodes can go. *)
Lemma gathered_not_NW head0 E s s' C F n : gathered head0 E s s' C F -> word s n <> NW -> word s' n <> NW.
Proof.
  intros A Hn Hn'. destruct (decide (n ∈ C)) as [HC|HC]; [by destruct (ga_new _ _ _ _ _ _ A n HC)|].
  destruct n as [z|h].
  - destruct (decide (z ∈ F)) as [HF|HF].
    + destruct (links_word _ _ _ _ (ga_links _ _ _ _ _ _ A) HF) as [? E']. rewrite E' in Hn'. done.
    + rewrite (ga_word _ _ _ _ _ _ A) in Hn' by (try done; by intros ? [= <-]). done.
  - by rewrite (ga_word _ _ _ _ _ _ A) in Hn'.
Qed.
Lemma gathered_taken head0 E s s' C F n : gathered head0 E s s' C F -> n ∈ C -> word s' n <> NW.
Proof.
  intros A HC. destruct n as [z|h]; [|by rewrite (ga_object _ _ _ _ _ _ A)].
  destruct (decide (z ∈ F)) as [HF|HF]; [|by rewrite (ga_taken _ _ _ _ _ _ A)].
  destruct (links_word _ _ _ _ (ga_links _ _ _ _ _ _ A) HF) as [? ->]. done.
Qed.
Lemma gathered_range head0 E s s' C F : gathered head0 E s s' C F -> in_range s -> in_range s'.
Proof.
  intros A Hr [z|h]; [rewrite (ga_zcnt _ _ _ _ _ _ A); apply Z.mod_pos_bound; lia|].
  rewrite (ga_ocnt _ _ _ _ _ _ A). apply Hr.
Qed.

Lemma gathered_nil head0 s : in_range s -> zval_to_free (gc s) = Some head0 -> gathered head0 [] s s [] [].
Proof.
  intros Hr Hh. split; try done; try (intros ? Hx; by apply not_elem_of_nil in Hx); try constructor.
  - unfold first. rewrite <- Hh. by destruct s as [? ? ? ? []].
  - intros z. rewrite bool_decide_eq_false_2 by apply not_elem_of_nil. cbn [one occ].
    rewrite !Z.add_0_r, to_uint_id; [done|apply Hr].
Qed.

Lemma gathered_app head0 E1 E2 s s1 s2 C1 C2 F1 F2 :
  gathered head0 E1 s s1 C1 F1 -> gathered (first F1 head0) E2 s1 s2 C2 F2 ->
  gathered head0 (E1 ++ E2) s s2 (C1 ++ C2) (F2 ++ F1).
Proof.
  intros A1 A2.
  assert (HC : forall n, n ∈ C1 -> n ∈ C2 -> False).
  { intros n H1 H2. by apply (gathered_taken _ _ _ _ _ _ _ A1 H1), (ga_new _ _ _ _ _ _ A2). }
  assert (HFN : forall z, z ∈ F1 -> exists n, word s1 (inl z) = Word (NEXT n) GC_BLACK)
    by (intros z; apply (links_word _ _ head0), A1).
  assert (HF1 : forall z, z ∈ F1 -> (inl z ∉ C2) /\ (z ∉ F2)).
  { intros z [n Hn]%HFN. split.
    - intros [_ H2]%(ga_new _ _ _ _ _ _ A2). congruence.
    - intros [_ [[_ H2]%(ga_new _ _ _ _ _ _ A2)|H2]]%(ga_put _ _ _ _ _ _ A2); congruence. }
  assert (Hw2 : forall z, z ∈ F1 -> word s2 (inl z) = word s1 (inl z)).
  { intros z Hz. destruct (HF1 z Hz). apply (ga_word _ _ _ _ _ _ A2); [done|]. by intros ? [= <-]. }
  split.
  - rewrite (ga_graph _ _ _ _ _ _ A2). apply A1.
  - rewrite (ga_gc _ _ _ _ _ _ A2), (ga_gc _ _ _ _ _ _ A1), first_app. done.
  - apply NoDup_app. split; [apply A1|]. split; [eauto|apply A2].
  - apply NoDup_app. split; [apply A2|]. split; [|apply A1]. intros z H2 H1. by destruct (HF1 z H1).
  - intros n [Hn|Hn]%elem_of_app; [by apply (ga_new _ _ _ _ _ _ A1)|].
    destruct (ga_new _ _ _ _ _ _ A2 n Hn) as [Hp Hn2]. split; [done|].
    destruct (decide (word s n = NW)) as [|Hne]; [done|]. by destruct (gathered_not_NW _ _ _ _ _ _ n A1).
  - intros z [Hz|Hz]%elem_of_app.
    + destruct (ga_put _ _ _ _ _ _ A2 z Hz) as [Hp [H2|H2]]; (split; [done|]); [left; apply elem_of_app; by right|].
      destruct (decide (inl z ∈ C1)) as [|Hn]; [left; apply elem_of_app; by left|right].
      rewrite <- H2. symmetry. apply (ga_word _ _ _ _ _ _ A1); [done|]. intros ? [= <-] Hz1.
      by destruct (HF1 z Hz1).
    + destruct (ga_put _ _ _ _ _ _ A1 z Hz) as [Hp [H2|H2]]; (split; [done|]); [left; apply elem_of_app; by left|by right].
  - intros n [Hn1 Hn2]%not_elem_of_app Hz. rewrite (ga_word _ _ _ _ _ _ A2), (ga_word _ _ _ _ _ _ A1); try done.
    + intros z Ez Hz'. apply (Hz z Ez), elem_of_app. by right.
    + intros z Ez Hz'. apply (Hz z Ez), elem_of_app. by left.
  - intros h [Hh|Hh]%elem_of_app; [|by apply (ga_object _ _ _ _ _ _ A2)].
    rewrite (ga_word _ _ _ _ _ _ A2); [by apply (ga_object _ _ _ _ _ _ A1)|by intros ?; eapply HC|done].
  - intros z Hz [Hz2 Hz1]%not_elem_of_app. apply elem_of_app in Hz as [Hz|Hz]; [|by apply (ga_taken _ _ _ _ _ _ A2)].
    rewrite (ga_word _ _ _ _ _ _ A2); [by apply (ga_taken _ _ _ _ _ _ A1)|by intros ?; eapply HC|by intros ? [= <-]].
  - apply links_app; [|apply A2]. eapply links_frame; [apply A1|done].
  - intros z. rewrite (ga_zcnt _ _ _ _ _ _ A2), (ga_zcnt _ _ _ _ _ _ A1), <- Z.add_assoc, to_uint_add, occ_app. f_equal.
    assert (one (bool_decide (z ∈ F2 ++ F1)) = one (bool_decide (z ∈ F2)) + one (bool_decide (z ∈ F1))); [|lia].
    destruct (decide (z ∈ F1)) as [H1|H1].
    + destruct (HF1 z H1) as [_ H2]. rewrite !bool_decide_decide, decide_True, decide_False, decide_True; [done|done|done|].
      apply elem_of_app. by right.
    + rewrite (bool_decide_eq_false_2 (z ∈ F1)) by done.
      rewrite (bool_decide_ext _ (z ∈ F2)); [simpl; lia|]. rewrite elem_of_app.
      split; [by intros [?|?]|by left].
  - intros h. rewrite (ga_ocnt _ _ _ _ _ _ A2). apply A1.
Qed.

(** ** The single steps *)
Lemma set_same_free head0 s s0 : gc s0 = gc s -> zval_to_free (gc s) = Some head0 ->
  gc s0 = set_zval_to_free (Some head0) (gc s).
Proof. intros -> Hh. rewrite <- Hh. by destruct (gc s). Qed.

Lemma gathered_claim head0 s s0 n w : zval_to_free (gc s) = Some head0 -> in_range s -> same s s0 ->
  present G n -> word s n = NW -> w = Word NULL (match n with inl _ => GC_BLACK | inr _ => GC_PURPLE end) ->
  (forall m, word s0 m = if decide (m = n) then w else word s m) -> (forall m, cnt s0 m = cnt s m) ->
  gathered head0 [] s s0 [n] [].
Proof.
  intros Hh Hr [Hg Hgc] Hp Hn -> Hw Hc. split; try done; try (intros ? Hx; by apply not_elem_of_nil in Hx).
  - by apply set_same_free.
  - apply NoDup_singleton.
  - constructor.
  - by intros m ->%list_elem_of_singleton.
  - intros m Hm _. rewrite Hw, decide_False; [done|]. intros ->. apply Hm. by left.
  - intros h E%list_elem_of_singleton. rewrite Hw, decide_True by done. by destruct E.
  - intros z E%list_elem_of_singleton _. rewrite Hw, decide_True by done. by destruct E.
  - intros z. rewrite Hc, bool_decide_eq_false_2 by apply not_elem_of_nil. cbn [one occ].
    rewrite !Z.add_0_r, to_uint_id; [done|apply Hr].
Qed.

Lemma claim_zval head0 z s : zval_to_free (gc s) = Some head0 -> in_range s -> graph_of s = G -> present G (inl z) ->
  word s (inl z) = NW -> exists s0, GC_ZVAL_SET_COLOR z GC_BLACK s = Some s0 /\ gathered head0 [] s s0 [inl z] [].
Proof.
  intros Hh Hr Hs Hz Hw. destruct (zval_word_ok z (GC_SET_COLOR GC_BLACK) s) as (s0 & E & Hsame & Hw0 & Hc); [congruence|].
  exists s0. split; [done|]. eapply gathered_claim; try done. intros m. rewrite Hw0. case_decide; [|done]. subst m. by rewrite Hw.
Qed.
Lemma claim_object head0 h s : zval_to_free (gc s) = Some head0 -> in_range s -> graph_of s = G -> present G (inr h) ->
  word s (inr h) = NW -> exists s0, obj_set_color h GC_PURPLE s = Some s0 /\ gathered head0 [] s s0 [inr h] [].
Proof.
  intros Hh Hr Hs Hz Hw. destruct (object_word_ok h (GC_SET_COLOR GC_PURPLE) s) as (s0 & E & Hsame & Hw0 & Hc); [congruence|].
  exists s0. split; [done|]. eapply gathered_claim; try done. intros m. rewrite Hw0. case_decide; [|done]. subst m. by rewrite Hw.
Qed.

Lemma to_free_ok head0 z s : zval_to_free (gc s) = Some head0 -> in_range s -> graph_of s = G -> present G (inl z) ->
  word s (inl z) = Word NULL GC_BLACK -> exists s', to_free z s = Some s' /\ gathered head0 [] s s' [] [z].
Proof.
  intros Hh Hr Hs Hz Hw. unfold to_free.
  destruct (zval_count_ok z (fun n => to_uint (n + 1)) s) as (s1 & -> & [Hg1 Hgc1] & Hw1 & Hc1); [congruence|].
  cbn [mbind option_bind]. rewrite Hgc1, Hh. cbn [mbind option_bind].
  destruct (zval_word_ok z (fun _ => Word (NEXT head0) GC_BLACK) s1) as (s2 & -> & [Hg2 Hgc2] & Hw2 & Hc2); [congruence|].
  cbn [mbind option_bind]. eexists. split; [done|].
  assert (Hw3 : forall n, word (on_gc (set_zval_to_free (Some (Some z))) s2) n = word s2 n) by (by intros [?|?]).
  assert (Hc3 : forall n, cnt (on_gc (set_zval_to_free (Some (Some z))) s2) n = cnt s2 n) by (by intros [?|?]).
  split; try (intros ? Hx; by apply not_elem_of_nil in Hx).
  - change (graph_of s2 = graph_of s). congruence.
  - simpl. by rewrite Hgc2, Hgc1.
  - constructor.
  - apply NoDup_singleton.
  - intros y ->%list_elem_of_singleton. auto.
  - intros n _ Hn. rewrite Hw3, Hw2, decide_False; [apply Hw1|]. intros ->. apply (Hn z); [done|by left].
  - split; [|done]. by rewrite Hw3, Hw2, decide_True.
  - intros y. rewrite Hc3, Hc2, Hc1. cbn [occ]. destruct (decide (y = z)) as [->|Hne].
    + rewrite decide_True, bool_decide_eq_true_2 by (done || by left). f_equal. simpl. lia.
    + rewrite decide_False, bool_decide_eq_false_2; [|by intros ->%list_elem_of_singleton|congruence].
      cbn [one]. rewrite !Z.add_0_r, to_uint_id; [done|apply Hr].
  - intros h. by rewrite Hc3, Hc2, Hc1.
Qed.

Lemma addref_ok head0 z s : zval_to_free (gc s) = Some head0 -> in_range s -> graph_of s = G -> present G (inl z) ->
  exists s', addref z s = Some s' /\ gathered head0 (counted G [z]) s s' [] [] /\ (forall n, word s' n = word s n).
Proof.
  intros Hh Hr Hs Hz. destruct (bump_ok G HG 1 z s Hs Hz) as (s0 & E & [[Hp ->]|(Hp & Hsame & Hw & Hc)]);
    change (addref z s = Some s0) in E || change (addref z s = Some s) in E; rewrite E, counted_one.
  - exists s. rewrite decide_True by done. split; [done|]. split; [by apply gathered_nil|done].
  - exists s0. rewrite decide_False by done. split; [done|]. split; [|done].
    split; try done; try (intros ? Hx; by apply not_elem_of_nil in Hx); try constructor.
    + apply Hsame.
    + apply set_same_free; [apply Hsame|done].
    + intros y. rewrite Hc, bool_decide_eq_false_2 by apply not_elem_of_nil. cbn [occ one].
      destruct (decide (inl z = inl y :> node)) as [E'|E'].
      * rewrite decide_True by done. f_equal. lia.
      * rewrite decide_False by done. rewrite !Z.add_0_r, to_uint_id; [done|apply Hr].
Qed.

(** ** Everything reached is taken *)

(** The nodes [S] and all successors of taken nodes are no longer waiting; the
    values taken are those on the list; each edge of a taken node was followed
    once. *)
Record taken (head0 : option addr) (S E0 : list node) (s s' : gc_state) (C : list node) (F : list addr) : Prop := {
  ta_gathered : exists E, gathered head0 E s s' C F
    /\ forall z, occ (inl z) E = occ (inl z) E0 + edges G C (inl z);
  ta_start : forall n, n ∈ S -> word s' n <> NW;
  ta_swept : forall x c, x ∈ C -> c ∈ succ G x -> word s' c <> NW;
  ta_complete : forall z, inl z ∈ C <-> z ∈ F
}.

Lemma taken_app head0 S1 S2 E1 E2 s s1 s2 C1 C2 F1 F2 :
  taken head0 S1 E1 s s1 C1 F1 -> taken (first F1 head0) S2 E2 s1 s2 C2 F2 ->
  taken head0 (S1 ++ S2) (E1 ++ E2) s s2 (C1 ++ C2) (F2 ++ F1).
Proof.
  intros [(E1' & A1 & HE1) HS1 HC1 HF1] [(E2' & A2 & HE2) HS2 HC2 HF2]. split.
  - exists (E1' ++ E2'). split; [by eapply gathered_app|]. intros z. rewrite !occ_app, edges_app, HE1, HE2. lia.
  - intros n [Hn|Hn]%elem_of_app; [|auto]. eapply gathered_not_NW; eauto.
  - intros x c [Hx|Hx]%elem_of_app Hc; [|eauto]. eapply gathered_not_NW; eauto.
  - intros z. rewrite !elem_of_app, HF1, HF2. tauto.
Qed.
Lemma taken_none head0 S E s s' : gathered head0 E s s' [] [] -> (forall n, n ∈ S -> word s' n <> NW) ->
  taken head0 S E s s' [] [].
Proof.
  intros A HS. split; try done.
  - exists E. split; [done|]. intros z. simpl. lia.
  - intros x c Hx. by apply not_elem_of_nil in Hx.
  - intros z. split; intros Hz; by apply not_elem_of_nil in Hz.
Qed.

Definition white_left (s : gc_state) : nat := length (filter (fun n => word s n = NW) (all_nodes G)).

Lemma gathered_left head0 E s s' C F : gathered head0 E s s' C F -> (white_left s' <= white_left s)%nat.
Proof.
  intros A. apply filter_length_mono. intros x _ Hx. destruct (decide (word s x = NW)) as [|Hn]; [done|].
  by destruct (gathered_not_NW _ _ _ _ _ _ x A Hn).
Qed.
Lemma gathered_left_strict head0 E s s' n C F : gathered head0 E s s' (n :: C) F -> (white_left s' < white_left s)%nat.
Proof.
  intros A. destruct (ga_new _ _ _ _ _ _ A n ltac:(by left)) as [Hp Hn]. apply (filter_length_strict _ _ _ n); [| |done|].
  - intros x _ Hx. destruct (decide (word s x = NW)) as [|Hx']; [done|].
    by destruct (gathered_not_NW _ _ _ _ _ _ x A Hx').
  - by apply all_nodes_present.
  - apply (gathered_taken _ _ _ _ _ _ _ A). by left.
Qed.

(** What a run starts from and keeps. *)
Record collectable (head0 : option addr) (s : gc_state) : Prop := {
  co_graph : graph_of s = G;
  co_range : in_range s;
  co_pins : forall n, pinned G n -> word s n <> NW;
  co_head : zval_to_free (gc s) = Some head0
}.
Lemma collectable_next head0 E s s' C F : collectable head0 s -> gathered head0 E s s' C F ->
  collectable (first F head0) s'.
Proof.
  intros [Hs Hr Hp Hh] A. split.
  - rewrite (ga_graph _ _ _ _ _ _ A). done.
  - by eapply gathered_range.
  - intros n Hn. eapply gathered_not_NW; eauto.
  - by rewrite (ga_gc _ _ _ _ _ _ A).
Qed.

Definition collects (fuel : nat) (E : addr -> list node) (f : addr -> gc_state -> option gc_state) : Prop :=
  forall z s head0, collectable head0 s -> present G (inl z) -> (white_left s < fuel)%nat ->
    exists s' C F, f z s = Some s' /\ taken head0 (counted G [z]) (E z) s s' C F.

Lemma each_collects fuel f l : collects fuel (fun c => counted G [c]) f -> forall s head0, collectable head0 s ->
  (forall c, c ∈ l -> present G (inl c)) -> (white_left s < fuel)%nat ->
  exists s' C F, each f l s = Some s' /\ taken head0 (counted G l) (counted G l) s s' C F.
Proof.
  intros Hf. induction l as [|c l IH]; intros s head0 Hco Hl Hfuel; simpl.
  - exists s, [], []. split; [done|]. apply taken_none; [by apply gathered_nil; apply Hco|].
    intros n Hn. by apply not_elem_of_nil in Hn.
  - destruct (Hf c s head0 Hco ltac:(apply Hl; by left) Hfuel) as (s1 & C1 & F1 & -> & T1). simpl.
    destruct (ta_gathered _ _ _ _ _ _ _ T1) as (E1 & A1 & _).
    destruct (IH s1 (first F1 head0)) as (s2 & C2 & F2 & -> & T2).
    + by eapply collectable_next.
    + intros c' Hc'. apply Hl. by right.
    + apply gathered_left in A1. lia.
    + exists s2, (C1 ++ C2), (F2 ++ F1). split; [done|]. change (c :: l) with ([c] ++ l). rewrite counted_app.
      by eapply taken_app.
Qed.

Lemma collect_visits fuel : collects fuel (fun _ => []) (zval_collect_white fuel) ->
  collects fuel (fun c => counted G [c]) (fun c s => s ← addref c s; zval_collect_white fuel c s).
Proof.
  intros Hf z s head0 Hco Hz Hfuel. destruct Hco as [Hs Hr Hp Hh] eqn:Eco. clear Eco.
  destruct (addref_ok head0 z s Hh Hr Hs Hz) as (s1 & -> & A1 & Hw). cbn [mbind option_bind].
  assert (Hco1 : collectable head0 s1) by (by eapply (collectable_next head0 _ s s1 [] [])).
  destruct (Hf z s1 head0 Hco1 Hz) as (s2 & C & F & -> & T).
  { apply gathered_left in A1. lia. }
  exists s2, C, F. split; [done|]. rewrite <- (app_nil_r F). change C with ([] ++ C).
  change (counted G [z]) with ([] ++ counted G [z]) at 1. rewrite <- (app_nil_r (counted G [z])) at 2.
  eapply taken_app; [|done]. apply taken_none; [done|]. intros n Hn. by apply not_elem_of_nil in Hn.
Qed.

(** Nodes [H] are taken and then what they lead to. *)
Lemma taken_group head0 H FH S E0 s s1 s' C F : gathered head0 [] s s1 H FH ->
  taken (first FH head0) S E0 s1 s' C F -> (forall z, inl z ∈ H <-> z ∈ FH) ->
  (forall x c, x ∈ H -> c ∈ succ G x -> c ∈ S \/ c ∈ H \/ word s1 c <> NW) ->
  (forall z, occ (inl z) E0 = edges G H (inl z)) ->
  taken head0 H [] s s' (H ++ C) (F ++ FH).
Proof.
  intros A [(E & A' & HE) HS HC HF] HH Hsucc HE0. pose proof (gathered_app _ _ _ _ _ _ _ _ _ _ A A') as B.
  assert (HHw : forall n, n ∈ H -> word s' n <> NW)
    by (intros n Hn; eapply (gathered_taken _ _ _ _ _ _ _ B), elem_of_app; by left).
  split.
  - exists E. split; [exact B|]. intros z. rewrite HE, HE0, edges_app. simpl. lia.
  - done.
  - intros x c [Hx|Hx]%elem_of_app Hc; [|eauto]. destruct (Hsucc x c Hx Hc) as [?|[?|Hw]]; [auto..|].
    by apply (gathered_not_NW _ _ _ _ _ _ c A').
  - intros z. rewrite !elem_of_app, HF, HH. tauto.
Qed.

Lemma taken_nothing head0 s : collectable head0 s -> taken head0 [] [] s s [] [].
Proof.
  intros Hco. apply taken_none; [by apply gathered_nil; apply Hco|]. intros n Hn. by apply not_elem_of_nil in Hn.
Qed.

(** Taking a value and putting it on the list at once. *)
Lemma claim_and_put head0 z s : collectable head0 s -> present G (inl z) -> word s (inl z) = NW ->
  exists s0 s1, GC_ZVAL_SET_COLOR z GC_BLACK s = Some s0 /\ to_free z s0 = Some s1
    /\ gathered head0 [] s s0 [inl z] [] /\ gathered head0 [] s s1 [inl z] [z].
Proof.
  intros Hco Hz Hw. destruct (claim_zval head0 z s) as (s0 & E0 & A0); try done; try apply Hco.
  pose proof (collectable_next _ _ _ _ _ _ Hco A0) as Hco0. simpl in Hco0.
  destruct (to_free_ok head0 z s0) as (s1 & E1 & A1); try done; try apply Hco0.
  { apply (ga_taken _ _ _ _ _ _ A0); [by left|apply not_elem_of_nil]. }
  exists s0, s1. split_and!; try done. apply (gathered_app head0 [] [] s s0 s1 [inl z] [] [] [z]); done.
Qed.

(** The object of a value that is taken is taken with it. *)
Lemma object_put head0 z h s0 s : gathered head0 [] s s0 [inl z] [] -> collectable head0 s0 ->
  present G (inl z) -> present G (inr h) -> word s0 (inr h) = NW ->
  exists s1, obj_set_color h GC_PURPLE s0 = Some s1 /\ gathered head0 [] s s1 [inl z; inr h] []
    /\ collectable head0 s1.
Proof.
  intros A0 Hco0 Hz Hh Hw. destruct (claim_object head0 h s0) as (s1 & E1 & A1); try done; try apply Hco0.
  exists s1. split; [done|]. split; [apply (gathered_app head0 [] [] s s0 s1 [inl z] [inr h] [] []); done|].
  by apply (collectable_next _ _ _ _ _ _ Hco0 A1).
Qed.

(** The properties in the table come before the value is put on the list, the
    ones in the hash after it. *)
Lemma taken_split head0 z h s s1 s2 s3 s' C1 F1 C2 F2 l1 l2 :
  gathered head0 [] s s1 [inl z; inr h] [] -> taken head0 l1 l1 s1 s2 C1 F1 ->
  gathered (first F1 head0) [] s2 s3 [] [z] -> taken (Some z) l2 l2 s3 s' C2 F2 ->
  succ G (inl z) = [inr h] -> succ G (inr h) = l1 ++ l2 ->
  taken head0 [inl z] [] s s' (inl z :: inr h :: C1 ++ C2) (F2 ++ z :: F1).
Proof.
  intros A0 [(E1 & A1 & HE1) HS1 HC1 HF1] A2 [(E2 & A3 & HE2) HS2 HC2 HF2] Hz Hh.
  pose proof (gathered_app _ _ _ _ _ _ _ _ _ _ A0 A1) as B1. rewrite app_nil_r in B1.
  pose proof (gathered_app _ _ _ _ _ _ _ _ _ _ B1 A2) as B2. rewrite !app_nil_r in B2.
  pose proof (gathered_app _ _ _ _ _ _ _ _ _ _ B2 A3) as B3. simpl in B3.
  pose proof (gathered_app _ _ _ _ _ _ _ _ _ _ A2 A3) as B4.
  assert (Hx : forall x, x ∈ [inl z; inr h] -> word s' x <> NW).
  { intros x Hx. apply (gathered_taken _ _ _ _ _ _ _ B3). set_solver +Hx. }
  split.
  - exists (E1 ++ E2). split; [exact B3|]. intros y. rewrite occ_app, HE1, HE2. cbn [edges occ].
    rewrite Hz, Hh, edges_app, occ_app. cbn [occ]. rewrite decide_False by done. lia.
  - intros n ->%list_elem_of_singleton. apply Hx. by left.
  - intros x c [->|[->|[Hx1|Hx2]%elem_of_app]%elem_of_cons]%elem_of_cons Hc.
    + rewrite Hz in Hc. apply list_elem_of_singleton in Hc as ->. apply Hx. by right; left.
    + rewrite Hh in Hc. apply elem_of_app in Hc as [Hc|Hc]; [|by apply HS2].
      by apply (gathered_not_NW _ _ _ _ _ _ c B4), HS1.
    + apply (gathered_not_NW _ _ _ _ _ _ c B4). by eapply HC1.
    + by eapply HC2.
  - intros y. rewrite !elem_of_cons, !elem_of_app, elem_of_cons, HF1, HF2. naive_solver.
Qed.

(** ** [zval_collect_white] *)
Lemma value_alone (y z : addr) : (inl y : node) ∈ [inl z] <-> y ∈ [z].
Proof. rewrite !list_elem_of_singleton. split; congruence. Qed.
Lemma value_and_object (y z : addr) (h : positive) : (inl y : node) ∈ [inl z; inr h] <-> y ∈ [z].
Proof.
  rewrite list_elem_of_singleton. split.
  - intros [[= ->]|[?|[]%not_elem_of_nil]%elem_of_cons]%elem_of_cons; done.
  - intros ->. by left.
Qed.

Lemma reported_present s h o c : graph_of s = G -> object_at h s = Some o -> c ∈ reported o -> present G (inl c).
Proof.
  intros Hs Ho Hc. destruct HG as [_ _ Hrep]. rewrite <- Hs in *. unfold object_at in Ho. simpl in *.
  destruct (object_buckets s) as [m|]; simpl in *; [|done].
  eapply (Hrep h); [done| |done]. by rewrite lookup_fmap, Ho.
Qed.

(** A value whose object waits to be taken. *)
Lemma collect_object fuel f z h o head0 s s0 s1 : collects fuel (fun c => counted G [c]) f ->
  gathered head0 [] s s1 [inl z; inr h] [] -> collectable head0 s1 -> graph_of s0 = G -> present G (inl z) ->
  object_at h s0 = Some o -> succ G (inl z) = [inr h] -> (white_left s1 < fuel)%nat ->
  exists s' C F, (match o_valid o, o_get_gc o with
      | true, Some (table, None) => s ← to_free z s1; each (slot f) table s
      | true, Some (table, Some l) => s ← each (slot f) table s1; s ← to_free z s; each f l s
      | _, _ => to_free z s1
      end) = Some s' /\ taken head0 [inl z] [] s s' C F.
Proof.
  intros Hf A0 Hco Hs0 Hz Ho Hsz Hfuel.
  assert (Hsh : succ G (inr h) = counted G (reported o)) by (rewrite <- Hs0; by apply succ_object).
  pose proof (reported_present s0 h o) as Hrep.
  assert (Hput : exists s2, to_free z s1 = Some s2 /\ gathered head0 [] s s2 [inl z; inr h] [z] /\ collectable (Some z) s2
    /\ (white_left s2 < fuel)%nat).
  { destruct (to_free_ok head0 z s1) as (s2 & E2 & A2); try done; try apply Hco.
    { apply (ga_taken _ _ _ _ _ _ A0); [by left|apply not_elem_of_nil]. }
    exists s2. split; [done|]. split; [apply (gathered_app head0 [] [] s s1 s2 [inl z; inr h] [] [] [z]); done|].
    split; [apply (collectable_next _ _ _ _ _ _ Hco A2)|]. apply gathered_left in A2. lia. }
  assert (Hgroup : forall s2 s' C F l, gathered head0 [] s s2 [inl z; inr h] [z] -> taken (Some z) l l s2 s' C F ->
    l = succ G (inr h) -> taken head0 [inl z] [] s s' ([inl z; inr h] ++ C) (F ++ [z])).
  { intros s2 s' C F l A2 T ->. destruct (taken_group head0 _ _ _ _ s s2 s' C F A2 T) as [? Hst ? ?].
    - intros y. apply value_and_object.
    - intros x c [->|[->|?%not_elem_of_nil]%elem_of_cons]%elem_of_cons Hc; [|by left|done].
      rewrite Hsz in Hc. apply list_elem_of_singleton in Hc as ->. right. left. by right; left.
    - intros y. cbn [edges]. rewrite Hsz. cbn [occ]. rewrite decide_False by done. lia.
    - split; try done. intros n ->%list_elem_of_singleton. apply Hst. by left. }
  assert (Hnone : succ G (inr h) = [] -> exists s' C F, to_free z s1 = Some s' /\ taken head0 [inl z] [] s s' C F).
  { intros Hnil. destruct Hput as (s2 & -> & A2 & Hco2 & _). eexists s2, _, _. split; [done|].
    eapply Hgroup; [done|by apply taken_nothing|done]. }
  unfold reported in Hsh, Hrep. destruct (o_valid o); [|by apply Hnone].
  destruct (o_get_gc o) as [[table [l|]]|]; [| |by apply Hnone].
  - destruct (each_collects fuel f (omap id table) Hf s1 head0 Hco) as (s2 & C1 & F1 & E1 & T1); [|done|].
    { intros c Hc. apply Hrep; [done..|]. apply elem_of_app. by left. }
    rewrite each_slot, E1. cbn [mbind option_bind]. destruct (ta_gathered _ _ _ _ _ _ _ T1) as (E & A1 & _).
    pose proof (collectable_next _ _ _ _ _ _ Hco A1) as Hco2.
    destruct (to_free_ok (first F1 head0) z s2) as (s3 & -> & A3); try done; try apply Hco2.
    { rewrite (ga_word _ _ _ _ _ _ A1).
      - apply (ga_taken _ _ _ _ _ _ A0); [by left|apply not_elem_of_nil].
      - intros [_ Hn]%(ga_new _ _ _ _ _ _ A1). by eapply (gathered_taken _ _ _ _ _ _ (inl z) A0); [left|].
      - intros y [= <-] [_ Hn]%(ta_complete _ _ _ _ _ _ _ T1)%(ga_new _ _ _ _ _ _ A1).
        by eapply (gathered_taken _ _ _ _ _ _ (inl z) A0); [left|]. }
    cbn [mbind option_bind]. pose proof (collectable_next _ _ _ _ _ _ Hco2 A3) as Hco3.
    destruct (each_collects fuel f l Hf s3 (Some z) Hco3) as (s' & C2 & F2 & -> & T2).
    + intros c Hc. apply Hrep; [done..|]. apply elem_of_app. by right.
    + apply gathered_left in A1, A3. lia.
    + eexists s', _, _. split; [done|]. eapply taken_split; try done. by rewrite Hsh, counted_app.
  - destruct Hput as (s2 & -> & A2 & Hco2 & Hl2). cbn [mbind option_bind]. rewrite each_slot.
    simpl in Hsh, Hrep. rewrite app_nil_r in Hsh, Hrep.
    destruct (each_collects fuel f (omap id table) Hf s2 (Some z) Hco2) as (s' & C & F & -> & T); [|done|].
    { intros c Hc. by apply Hrep. }
    eexists s', _, _. split; [done|]. by eapply Hgroup.
Qed.

Lemma zval_collect_white_ok fuel : collects fuel (fun _ => []) (zval_collect_white fuel).
Proof.
  induction fuel as [|fuel IH]; intros z s head0 Hco Hz Hfuel; [lia|]. pose proof (collect_visits fuel IH) as Hvis.
  pose proof (co_graph _ _ Hco) as Hs.
  assert (H0 : present (graph_of s) (inl z)) by congruence. pose proof H0 as [v Hv]%present_zval.
  cbn [zval_collect_white]. unfold z_word. rewrite Hv. cbn [mbind option_bind].
  destruct (word_zval s z v Hv) as [<- _]. destruct (decide (word s (inl z) = NW)) as [Hw|Hw].
  2: { exists s, [], []. split; [done|]. apply taken_none; [apply gathered_nil; apply Hco|].
       rewrite counted_one by done. case_decide; [intros n Hn; by apply not_elem_of_nil in Hn|].
       by intros n ->%list_elem_of_singleton. }
  assert (Hp : ~ pinned G (inl z)) by (intros Hp; by apply (co_pins _ _ Hco (inl z) Hp)).
  rewrite counted_one, decide_False by done.
  destruct (claim_and_put head0 z s Hco Hz Hw) as (s0 & s1 & -> & E1 & A0 & A1). cbn [mbind option_bind].
  pose proof (collectable_next _ _ _ _ _ _ Hco A0) as Hco0. simpl in Hco0.
  pose proof (collectable_next _ _ _ _ _ _ Hco A1) as Hco1. simpl in Hco1.
  pose proof (gathered_left_strict _ _ _ _ _ _ _ A0). pose proof (gathered_left_strict _ _ _ _ _ _ _ A1).
  pose proof (co_graph _ _ Hco0) as Hs0.
  assert (Hz0 : present (graph_of s0) (inl z)) by congruence. apply present_zval in Hz0 as [v0 Hv0].
  rewrite Hv0. cbn [mbind option_bind].
  assert (Hgv : g_value G !! z = Some (z_value v0)) by (rewrite <- Hs0; by apply lookup_value).
  assert (Halone : (forall c, c ∈ succ G (inl z) -> word s1 c <> NW) -> (forall y, occ (inl y) (succ G (inl z)) = 0) ->
    exists s' C F, to_free z s0 = Some s' /\ taken head0 [inl z] [] s s' C F).
  { intros Hsucc Hocc. eexists s1, _, _. split; [done|].
    eapply (taken_group head0 [inl z] [z] [] []); [done|by apply taken_nothing| | |].
    - intros y. apply value_alone.
    - intros x c ->%list_elem_of_singleton Hc. right. right. by apply Hsucc.
    - intros y. cbn [edges occ]. rewrite Hocc. lia. }
  assert (Hnil : succ G (inl z) = [] -> exists s' C F, to_free z s0 = Some s' /\ taken head0 [inl z] [] s s' C F).
  { intros Hnil. apply Halone; rewrite Hnil; [intros c Hc; by apply not_elem_of_nil in Hc|done]. }
  destruct (z_value v0) as [| |t|h]; [by apply Hnil; simpl; rewrite Hgv..| |].
  - assert (Ht : t <> g_symbol_table G) by (intros ->; apply Hp; by exists z).
    destruct (go_array G HG z t Hgv Ht) as (l & El & Hl).
    replace (tables s0) with (g_tables G) by (by rewrite <- Hs0). rewrite El, E1. cbn [mbind option_bind].
    destruct (each_collects fuel _ l Hvis s1 (Some z) Hco1 Hl ltac:(lia)) as (s' & C & F & -> & T).
    eexists s', _, _. split; [done|]. eapply (taken_group head0 [inl z] [z]); [done|exact T| | |].
    + intros y. apply value_alone.
    + intros x c ->%list_elem_of_singleton Hc. left. simpl in Hc. by rewrite Hgv, decide_False, El in Hc.
    + intros y. cbn [edges succ]. rewrite Hgv, decide_False, El by done. simpl. lia.
  - destruct (object_buckets s0) as [m|] eqn:Em.
    + assert (HGm : g_objects G = Some (reported <$> m)) by (rewrite <- Hs0; simpl; by rewrite Em).
      assert (Es : succ G (inl z) = [inr h]) by (simpl; by rewrite Hgv, HGm).
      assert (Hh : present G (inr h)) by (exists (reported <$> m); split; [done|]; by eapply go_object).
      assert (Hh0 : present (graph_of s0) (inr h)) by congruence. apply present_object in Hh0 as [o Ho].
      rewrite Ho. cbn [mbind option_bind]. destruct (word_object s0 h o Ho) as [<- _].
      destruct (decide (word s0 (inr h) = NW)) as [Hwh|Hwh].
      * destruct (object_put head0 z h s0 s A0 Hco0 Hz Hh Hwh) as (s2 & -> & A2 & Hco2). cbn [mbind option_bind].
        pose proof (gathered_left_strict _ _ _ _ _ _ _ A2).
        by eapply (collect_object fuel _ z h o head0 s s0 s2); try done; lia.
      * apply Halone; rewrite Es; [|done]. intros c ->%list_elem_of_singleton.
        rewrite (ga_word _ _ _ _ _ _ A1); [|set_solver +|done].
        by rewrite (ga_word _ _ _ _ _ _ A0) in Hwh; [|set_solver +|done].
    + apply Hnil. assert (HGm : g_objects G = None) by (rewrite <- Hs0; simpl; by rewrite Em).
      simpl. by rewrite Hgv, HGm.
Qed.

Lemma zobj_collect_white_ok fuel h s head0 : collectable head0 s -> present G (inr h) -> (white_left s <= fuel)%nat ->
  exists s' C F, zobj_collect_white fuel h s = Some s' /\ taken head0 [inr h] [] s s' C F.
Proof.
  intros Hco Hh Hfuel. pose proof (co_graph _ _ Hco) as Hs. unfold zobj_collect_white.
  assert (Hh0 : present (graph_of s) (inr h)) by congruence. apply present_object in Hh0 as [o Ho]. rewrite Ho.
  destruct (object_buckets s) as [m|] eqn:Em; [|by unfold object_at in Ho; rewrite Em in Ho].
  cbn [mbind option_bind]. destruct (word_object s h o Ho) as [<- _].
  destruct (decide (word s (inr h) = NW)) as [Hw|Hw].
  2: { exists s, [], []. split; [done|]. apply taken_none; [apply gathered_nil; apply Hco|].
       by intros n ->%list_elem_of_singleton. }
  destruct (claim_object head0 h s) as (s1 & -> & A1); try done; try apply Hco. cbn [mbind option_bind].
  pose proof (collectable_next _ _ _ _ _ _ Hco A1) as Hco1. simpl in Hco1.
  pose proof (gathered_left_strict _ _ _ _ _ _ _ A1). rewrite each_property_reported.
  assert (Hsh : succ G (inr h) = counted G (reported o)) by (rewrite <- Hs; by apply succ_object).
  destruct (each_collects fuel _ (reported o) (collect_visits fuel (zval_collect_white_ok fuel)) s1 head0 Hco1)
    as (s' & C & F & -> & T); [|lia|].
  { intros c. by apply (reported_present s h o). }
  eexists s', _, _. split; [done|]. eapply (taken_group head0 [inr h] []); [done|exact T| | |].
  - intros y. split; [by intros ?%list_elem_of_singleton|by intros ?%not_elem_of_nil].
  - intros x c ->%list_elem_of_singleton Hc. left. by rewrite <- Hsh.
  - intros y. cbn [edges]. rewrite Hsh. lia.
Qed.
End Collect.
