(* ===== verification/GCRoots.v ===== *)
(** * GCRoots: the buffer of possible roots of zend_gc.c *)
From S2P Require Import Prelude DList GC GCGraph GCFlood.

Definition root_node (u : gc_root) : node :=
  match u with ROOT_ZVAL z => inl z | ROOT_OBJECT h => inr h end.

(** The entries [L] are the list of roots, in this order. *)
Record links_ok (g : zend_gc_globals) (L : list addr) : Prop := {
  lo_nodup : NoDup L;
  lo_linked : linked (r_next <$> buf g) (r_prev <$> buf g) L;
  lo_head : roots_next g = head L;
  lo_tail : roots_prev g = last L
}.

(** The fields the list operations do not touch. *)
Definition rest (g : zend_gc_globals) :=
  (gc_enabled g, gc_active g, first_unused g, last_unused g, zval_to_free g, free_list g, next_to_free g,
   gc_runs g, collected g).

Lemma fmap_insert_same {X} (f : gc_root_buffer -> X) (m : gmap addr gc_root_buffer) q e e' :
  m !! q = Some e -> f e' = f e -> f <$> <[q := e']> m = f <$> m.
Proof. intros Hq Hf. rewrite fmap_insert, Hf. apply insert_id. by rewrite lookup_fmap, Hq. Qed.

Definition relinked (g g' : zend_gc_globals) N P : Prop :=
  r_next <$> buf g' = N /\ r_prev <$> buf g' = P /\ r_u <$> buf g' = r_u <$> buf g /\ rest g' = rest g
  /\ unused g' = unused g.

Lemma assign_prev_ok p x s : (forall q, p = Some q -> is_Some (buf (gc s) !! q)) ->
  exists g', assign_prev p x s = Some (on_gc (fun _ => g') s)
    /\ relinked (gc s) g' (r_next <$> buf (gc s)) (opt_insert p x (r_prev <$> buf (gc s)))
    /\ roots_next g' = roots_next (gc s)
    /\ roots_prev g' = match p with Some _ => roots_prev (gc s) | None => x end.
Proof.
  intros Hp. destruct p as [q|]; simpl.
  - destruct (Hp q eq_refl) as [e He]. unfold upd_root. rewrite He. cbn [mbind option_bind].
    exists (set_buf (<[q := set_r_prev x e]> (buf (gc s))) (gc s)). split; [done|]. split; [|done].
    split_and!; try done; [by eapply fmap_insert_same| |by eapply fmap_insert_same]. simpl. by rewrite fmap_insert.
  - exists (set_roots_prev x (gc s)). done.
Qed.
Lemma assign_next_ok p x s : (forall q, p = Some q -> is_Some (buf (gc s) !! q)) ->
  exists g', assign_next p x s = Some (on_gc (fun _ => g') s)
    /\ relinked (gc s) g' (opt_insert p x (r_next <$> buf (gc s))) (r_prev <$> buf (gc s))
    /\ roots_next g' = match p with Some _ => roots_next (gc s) | None => x end
    /\ roots_prev g' = roots_prev (gc s).
Proof.
  intros Hp. destruct p as [q|]; simpl.
  - destruct (Hp q eq_refl) as [e He]. unfold upd_root. rewrite He. cbn [mbind option_bind].
    exists (set_buf (<[q := set_r_next x e]> (buf (gc s))) (gc s)). split; [done|]. split; [|done].
    split_and!; try done; [|by eapply fmap_insert_same..]. simpl. by rewrite fmap_insert.
  - exists (set_roots_next x (gc s)). done.
Qed.

Lemma linked_cell g L q : linked (r_next <$> buf g) (r_prev <$> buf g) L -> q ∈ L -> is_Some (buf g !! q).
Proof. intros Hl Hq. pose proof (linked_allocated _ _ _ _ Hl Hq) as H. by rewrite lookup_fmap, fmap_is_Some in H. Qed.

Lemma cell_of_next (b b' : gmap addr gc_root_buffer) q : r_u <$> b' = r_u <$> b -> is_Some (b !! q) -> is_Some (b' !! q).
Proof.
  intros E H. rewrite <- (fmap_is_Some r_u), <- lookup_fmap in H. rewrite <- E, lookup_fmap, fmap_is_Some in H. done.
Qed.

(** Taking an entry out of the list: it goes to the unused ones, and its own
    forward link still leads to the entry after it. *)
Lemma gc_remove_from_buffer_ok L1 r L2 s : links_ok (gc s) (L1 ++ r :: L2) ->
  exists g', gc_remove_from_buffer r s = Some (on_gc (fun _ => g') s) /\ links_ok g' (L1 ++ L2)
    /\ r_u <$> buf g' = r_u <$> buf (gc s) /\ rest g' = rest (gc s) /\ unused g' = Some r
    /\ exists e, buf g' !! r = Some e /\ r_next e = head L2
      /\ r_prev <$> buf g' = <[r := unused (gc s)]> (opt_insert (head L2) (last L1) (r_prev <$> buf (gc s))).
Proof.
  intros [Hnd Hl Hh Ht]. destruct (linked_middle _ _ _ _ _ Hl) as [HN HP].
  pose proof Hnd as (Hnd1 & Hdis & Hnd2)%NoDup_app. apply NoDup_cons in Hnd2 as [Hr2 Hnd2].
  assert (Hr1 : r ∉ L1) by (intros H; apply (Hdis r H); by left).
  assert (Hcell : forall q, q ∈ L1 ++ r :: L2 -> is_Some (buf (gc s) !! q)) by (intros q; by apply linked_cell).
  destruct (Hcell r) as [e He]; [set_solver +|]. rewrite lookup_fmap, He in HN, HP. injection HN as HN. injection HP as HP.
  unfold gc_remove_from_buffer. rewrite He. cbn [mbind option_bind]. rewrite HN, HP.
  destruct (assign_prev_ok (head L2) (last L1) s) as (g1 & -> & (N1 & P1 & U1 & R1 & W1) & Hn1 & Hp1).
  { intros q Hq%head_Some_elem_of. apply Hcell. set_solver +Hq. }
  cbn [mbind option_bind]. simpl. destruct (cell_of_next (buf (gc s)) (buf g1) r U1) as [e1 He1]; [eauto|].
  rewrite He1. cbn [mbind option_bind].
  assert (Hne : head L2 <> Some r) by (intros H%head_Some_elem_of; done).
  assert (Hne' : last L1 <> Some r) by (intros H%last_Some_elem_of; done).
  assert (E1 : r_next e1 = head L2 /\ r_prev e1 = last L1).
  { pose proof (lookup_fmap r_next (buf g1) r) as A. pose proof (lookup_fmap r_prev (buf g1) r) as B.
    rewrite N1, lookup_fmap, He, He1 in A. rewrite P1, lookup_opt_insert, decide_False, lookup_fmap, He, He1 in B by done.
    simpl in A, B. split; congruence. }
  destruct E1 as [En1 Ep1]. rewrite En1, Ep1.
  destruct (assign_next_ok (last L1) (head L2) (on_gc (fun _ => g1) s)) as (g2 & -> & (N2 & P2 & U2 & R2 & W2) & Hn2 & Hp2).
  { intros q Hq%last_Some_elem_of. simpl. apply (cell_of_next (buf (gc s))); [done|]. apply Hcell. set_solver +Hq. }
  simpl in *. cbn [mbind option_bind]. destruct (cell_of_next (buf g1) (buf g2) r U2) as [e2 He2]; [eauto|].
  unfold upd_root. simpl. rewrite He2. cbn [mbind option_bind]. eexists. split; [reflexivity|]. simpl.
  assert (E2 : r_next e2 = head L2).
  { pose proof (lookup_fmap r_next (buf g2) r) as A.
    rewrite N2, lookup_opt_insert, decide_False, lookup_fmap, He1, He2 in A by done. simpl in A. congruence. }
  split; [|split; [|split; [|split]]].
  - split; simpl.
    + apply NoDup_app. split; [done|]. split; [|done]. intros x Hx Hx2. apply (Hdis x Hx). by right.
    + eapply linked_frame; [exact (linked_remove _ _ _ _ _ Hnd Hl)| |].
      * intros q Hq. rewrite (fmap_insert_same _ _ _ e2) by done. by rewrite N2, N1.
      * intros q Hq. rewrite fmap_insert, lookup_insert_ne by (intros ->; set_solver +Hq Hr1 Hr2). by rewrite P2, P1.
    + rewrite Hn2, Hn1, Hh. destruct L1 as [|x L1]; [done|].
      by destruct (last (x :: L1)) eqn:E; [|apply last_None in E].
    + rewrite Hp2, Hp1, Ht. rewrite !last_app. destruct L2 as [|y L2]; simpl; [done|].
      destruct (last (y :: L2)) eqn:E; [|by apply last_None in E]. by destruct L2.
  - rewrite (fmap_insert_same _ _ _ e2) by done. by rewrite U2.
  - unfold rest in *. simpl. congruence.
  - done.
  - eexists. rewrite lookup_insert_eq. split; [done|]. simpl. split; [done|].
    rewrite fmap_insert, P2, P1. simpl. congruence.
Qed.

(** ** The buffer and the nodes *)
Section Buffer.
Variable G : graph.
(** What the entries of the buffer stand for. *)
Variable U : gmap addr gc_root.

Definition rnode (r : addr) : node := match U !! r with Some u => root_node u | None => inl 1%positive end.

(** The entries [L] are the list of roots, and exactly their nodes, with the
    exception of [C], have an address in their word. *)
Record buffered_ok (C : list node) (s : gc_state) (L : list addr) : Prop := {
  bo_graph : graph_of s = G;
  bo_links : links_ok (gc s) L;
  bo_cells : r_u <$> buf (gc s) = U;
  bo_named : forall r, r ∈ L -> present G (rnode r) /\ adr s (rnode r) = ROOT r;
  bo_adr : forall n, n ∉ C -> adr s n = NULL \/ exists r, r ∈ L /\ rnode r = n /\ adr s n = ROOT r
}.

Lemma buffered_cell C s L r : buffered_ok C s L -> r ∈ L ->
  exists e, buf (gc s) !! r = Some e /\ U !! r = Some (r_u e) /\ rnode r = root_node (r_u e).
Proof.
  intros B Hr. destruct (linked_cell _ _ _ (lo_linked _ _ (bo_links _ _ _ B)) Hr) as [e He]. exists e.
  assert (U !! r = Some (r_u e)) as HU by (rewrite <- (bo_cells _ _ _ B), lookup_fmap, He; done).
  unfold rnode. by rewrite HU.
Qed.
Lemma buffered_next C s L1 r L2 e : buffered_ok C s (L1 ++ r :: L2) -> buf (gc s) !! r = Some e -> r_next e = head L2.
Proof.
  intros B He. destruct (linked_middle _ _ _ _ _ (lo_linked _ _ (bo_links _ _ _ B))) as [HN _].
  rewrite lookup_fmap, He in HN. by injection HN.
Qed.
Lemma buffered_same C s s' L : buffered_ok C s L -> graph_of s' = G -> gc s' = gc s -> (forall n, adr s' n = adr s n) ->
  buffered_ok C s' L.
Proof.
  intros B Hg Hgc Ha. split; [done|rewrite Hgc; apply B..| |].
  - intros r Hr. rewrite Ha. by apply B.
  - intros n Hn. rewrite Ha. by apply B.
Qed.

Lemma on_gc_view f s : graph_of (on_gc f s) = graph_of s /\ (forall n, word (on_gc f s) n = word s n)
  /\ (forall n, cnt (on_gc f s) n = cnt s n).
Proof. split; [done|]. split; by intros [?|?]. Qed.

(** The entry [r], whose node no longer has an address, leaves the list. *)
Lemma remove_buffered C s s1 L1 r L2 : buffered_ok C s (L1 ++ r :: L2) -> graph_of s1 = G ->
  buf (gc s1) = buf (gc s) -> roots_next (gc s1) = roots_next (gc s) -> roots_prev (gc s1) = roots_prev (gc s) ->
  forall C', (forall n, n ∉ C' -> n ∉ C) ->
  (forall n, n ∉ C' -> adr s1 n = if decide (n = rnode r) then NULL else adr s n) ->
  (forall q, q ∈ L1 ++ L2 -> rnode q ∉ C') ->
  exists s', gc_remove_from_buffer r s1 = Some s' /\ buffered_ok C' s' (L1 ++ L2)
    /\ (forall n, word s' n = word s1 n) /\ (forall n, cnt s' n = cnt s1 n)
    /\ rest (gc s') = rest (gc s1) /\ exists e, buf (gc s') !! r = Some e /\ r_next e = head L2.
Proof.
  intros B Hg Hbuf Hrn Hrp C' HC Hadr HL.
  pose proof (bo_links _ _ _ B) as [Hnd Hlk Hh Ht].
  destruct (gc_remove_from_buffer_ok L1 r L2 s1) as (g' & E & Hl & Hu & Hrest & _ & e & He & Hn & _).
  { split; [done|by rewrite Hbuf|congruence..]. }
  exists (on_gc (fun _ => g') s1). destruct (on_gc_view (fun _ => g') s1) as (Hg' & Hw' & Hc').
  split; [done|]. split; [|split_and!; [done..|by eexists]].
  assert (Hdiff : forall q, q ∈ L1 ++ L2 -> rnode q <> rnode r).
  { intros q Hq Heq. assert (Hq' : q ∈ L1 ++ r :: L2) by set_solver +Hq.
    destruct (bo_named _ _ _ B q Hq') as [_ A1]. destruct (bo_named _ _ _ B r) as [_ A2]; [set_solver +|].
    rewrite Heq, A2 in A1. injection A1 as ->.
    apply NoDup_app in Hnd as (_ & Hdis & [Hx _]%NoDup_cons). apply elem_of_app in Hq as [Hq|Hq]; [|done].
    apply (Hdis q Hq). by left. }
  split; simpl; try done.
  - rewrite Hu, Hbuf. apply B.
  - intros q Hq. assert (Hq' : q ∈ L1 ++ r :: L2) by set_solver +Hq. destruct (bo_named _ _ _ B q Hq') as [Hp A].
    split; [done|]. unfold adr. rewrite Hw'. change (adr s1 (rnode q) = ROOT q).
    rewrite Hadr, decide_False by auto. done.
  - intros n Hn'. unfold adr. rewrite Hw'. change (adr s1 n = NULL \/ exists r0, r0 ∈ L1 ++ L2 /\ rnode r0 = n /\ adr s1 n = ROOT r0).
    rewrite Hadr by done. destruct (decide (n = rnode r)) as [->|Hne]; [by left|].
    destruct (bo_adr _ _ _ B n (HC n Hn')) as [?|(q & Hq & Hqn & ?)]; [by left|right]. exists q. split; [|done].
    apply elem_of_app in Hq as [Hq|[->|Hq]%elem_of_cons]; [set_solver +Hq| |set_solver +Hq]. congruence.
Qed.

(** Clearing the address of a root. *)
Definition set_address (n : node) (s : gc_state) : option gc_state :=
  match n with inl z => GC_ZVAL_SET_ADDRESS z NULL s | inr h => obj_set_address h NULL s end.
Lemma set_address_ok n s : present (graph_of s) n -> exists s', set_address n s = Some s' /\ same s s'
  /\ (forall m, word s' m = if decide (m = n) then Word NULL (w_color (word s m)) else word s m)
  /\ (forall m, cnt s' m = cnt s m).
Proof.
  intros Hn. destruct n as [z|h]; simpl.
  - destruct (zval_word_ok z (GC_SET_ADDRESS NULL) s Hn) as (s' & E & ? & ? & ?). exists s'. done.
  - destruct (object_word_ok h (GC_SET_ADDRESS NULL) s Hn) as (s' & E & ? & ? & ?). exists s'. done.
Qed.
End Buffer.

(** ** The entries that are not in use *)

(** The entries below [first_unused] are either roots ([L]) or on the list of
    unused ones ([Us]), none is lost, and the buffer reaches to [last_unused]. *)
Record pool_ok (g : zend_gc_globals) (L Us : list addr) : Prop := {
  po_unused : threaded (r_prev <$> buf g) Us;
  po_head : unused g = head Us;
  po_nodup : NoDup (L ++ Us);
  po_split : exists f l, first_unused g = Some f /\ last_unused g = Some l /\ (f <= l)%positive
    /\ (forall p, p ∈ L ++ Us <-> (p < f)%positive) /\ forall p, (p < l)%positive -> is_Some (buf g !! p)
}.

Lemma pool_allocated g L Us r : pool_ok g L Us -> r ∈ L ++ Us -> is_Some (buf g !! r).
Proof. intros [_ _ _ (f & l & _ & _ & Hfl & Hp & Hc)] Hr%Hp. apply Hc. lia. Qed.

(** Linking an entry as the first root. *)
Lemma link_root_ok r u s L : links_ok (gc s) L -> r ∉ L -> is_Some (buf (gc s) !! r) ->
  exists g', link_root r u s = Some (on_gc (fun _ => g') s) /\ links_ok g' (r :: L)
    /\ r_u <$> buf g' = <[r := u]> (r_u <$> buf (gc s)) /\ rest g' = rest (gc s) /\ unused g' = unused (gc s)
    /\ r_prev <$> buf g' = opt_insert (head L) (Some r) (<[r := None]> (r_prev <$> buf (gc s))).
Proof.
  intros [Hnd Hl Hh Ht] Hr [e He]. unfold link_root, upd_root. rewrite He. cbn [mbind option_bind]. simpl.
  rewrite lookup_insert_eq. cbn [mbind option_bind]. simpl. rewrite Hh.
  set (b2 := <[r := _]> (<[r := _]> (buf (gc s)))).
  assert (Hb2 : b2 = <[r := RootBuffer None (head L) (r_u e)]> (buf (gc s))) by (unfold b2; apply insert_insert_eq).
  assert (Hne : head L <> Some r) by (intros ?%head_Some_elem_of; done).
  match goal with |- context [assign_prev _ _ ?t] => set (s2 := t) end.
  destruct (assign_prev_ok (head L) (Some r) s2) as (g3 & -> & (N3 & P3 & U3 & R3 & W3) & Hn3 & Hp3).
  { intros q Hq%head_Some_elem_of. unfold s2; simpl. rewrite Hb2.
    destruct (decide (q = r)) as [->|]; [rewrite lookup_insert_eq; eauto|]. rewrite lookup_insert_ne by done.
    by eapply linked_cell. }
  unfold s2 in *. simpl in *. rewrite Hb2, fmap_insert in N3. rewrite Hb2, fmap_insert in P3.
  rewrite Hb2, fmap_insert in U3.
  cbn [mbind option_bind]. simpl.
  destruct (cell_of_next (<[r := RootBuffer None (head L) (r_u e)]> (buf (gc s))) (buf g3) r) as [e3 He3].
  { by rewrite fmap_insert. } { rewrite lookup_insert_eq. eauto. }
  rewrite He3. cbn [mbind option_bind]. eexists. split; [reflexivity|]. simpl.
  assert (Hnx : r_next <$> <[r := RootBuffer (r_prev e3) (r_next e3) u]> (buf g3) = r_next <$> buf g3)
    by (by apply (fmap_insert_same _ _ _ e3)).
  assert (Hpv : r_prev <$> <[r := RootBuffer (r_prev e3) (r_next e3) u]> (buf g3) = r_prev <$> buf g3)
    by (by apply (fmap_insert_same _ _ _ e3)).
  split_and!.
  - split; simpl.
    + by constructor.
    + rewrite Hnx, Hpv, N3, P3. by apply linked_cons.
    + done.
    + rewrite Hp3. destruct L as [|x L]; [done|]. simpl. rewrite Ht. by destruct L.
  - rewrite fmap_insert, U3. simpl. apply insert_insert_eq.
  - unfold rest in *. simpl in *. congruence.
  - done.
  - rewrite Hpv, P3. done.
Qed.

(** Taking an entry for a new root while there is one. *)
Lemma new_root_ok `{GcCallbacks} zv s L Us : links_ok (gc s) L -> pool_ok (gc s) L Us ->
  Us <> [] \/ first_unused (gc s) <> last_unused (gc s) ->
  exists r g Us', new_root zv s = Some (on_gc (fun _ => g) s, Some r) /\ buf g = buf (gc s) /\ links_ok g L
    /\ r ∉ L ++ Us' /\ is_Some (buf g !! r) /\ zval_to_free g = zval_to_free (gc s) /\ free_list g = free_list (gc s)
    /\ threaded (r_prev <$> buf g) Us' /\ unused g = head Us' /\ NoDup (L ++ Us')
    /\ exists f l, first_unused g = Some f /\ last_unused g = Some l /\ (f <= l)%positive
      /\ (forall p, p ∈ r :: L ++ Us' <-> (p < f)%positive) /\ forall p, (p < l)%positive -> is_Some (buf g !! p).
Proof.
  intros Hl P Hfree. pose proof P as [Hth Hu Hnd (f & l & Hf & Hla & Hfl & Hp & Hc)]. unfold new_root. rewrite Hu.
  destruct Us as [|r Us]; simpl.
  - destruct Hfree as [?|Hfree]; [done|]. rewrite decide_True by done. rewrite Hf. cbn [mbind option_bind].
    rewrite app_nil_r in *. exists f. eexists _, []. split; [done|]. simpl. rewrite app_nil_r.
    assert (Hlt : (f < l)%positive) by (assert (f <> l) by congruence; lia).
    split_and!; try done; [by split; apply Hl|rewrite Hp; lia|by apply Hc|].
    exists (Pos.succ f), l. split_and!; try done; [lia|]. intros p. rewrite elem_of_cons, Hp. lia.
  - destruct (pool_allocated _ _ _ r P) as [e He]; [set_solver +|]. rewrite He. cbn [mbind option_bind].
    exists r. eexists _, Us. split; [done|]. simpl. simpl in Hth. destruct Hth as [Hr Hth].
    rewrite lookup_fmap, He in Hr. injection Hr as Hr.
    assert (Hnd' : NoDup (r :: L ++ Us)) by (by rewrite Permutation_middle).
    apply NoDup_cons in Hnd' as [Hr' Hnd'].
    split_and!; try done; [by split; apply Hl|].
    exists f, l. split_and!; try done. intros p. rewrite <- Hp. rewrite !elem_of_cons, !elem_of_app, elem_of_cons. tauto.
Qed.
