(* ===== verification/GCThms.v ===== *)
(** * GCThms: the loops over the roots, and the garbage they find

    [gc_ready] is the state a run starts from; marking, scanning and collecting
    every root, one after the other, leaves exactly the garbage on the list. *)
From S2P Require Import Prelude DList GC GCGraph GCFlood GCScan GCCollect GCRoots.

(** A state in which a run can start: pointers lead to allocated memory, every
    count covers the references there are, nothing is marked, and the buffer
    of roots, with the entries [L], is in order. *)
Record gc_ready (s : gc_state) (L : list addr) : Prop := {
  gr_graph : graph_ok (graph_of s);
  gr_count : forall n, edges (graph_of s) (all_nodes (graph_of s)) n <= cnt s n < 2 ^ 32 - 1;
  gr_color : forall n, w_color (word s n) <> GC_GREY /\ w_color (word s n) <> GC_WHITE;
  gr_buffer : buffered_ok (graph_of s) (r_u <$> buf (gc s)) [] s L
}.

Section Run.
Variables (s0 : gc_state) (L0 : list addr).
Hypothesis ready : gc_ready s0 L0.

Let G := graph_of s0.
Let U := r_u <$> buf (gc s0).
Lemma HG : graph_ok G.
Proof. apply ready. Qed.
Abbreviation node_of := (rnode U).
Definition unpinned (l : list node) : list node := filter (fun n => ~ pinned G n) l.

Lemma col_word s n : graph_of s = G -> ~ pinned G n -> col s n = w_color (word s n).
Proof. intros Hs Hp. unfold col. by rewrite Hs, decide_False. Qed.
Lemma ready_range : in_range s0.
Proof.
  intros n. pose proof (gr_count _ _ ready n). pose proof (edges_nonneg G (all_nodes G) n). unfold G in *. lia.
Qed.
Lemma ready_col n : col s0 n <> GC_GREY /\ col s0 n <> GC_WHITE.
Proof. unfold col. case_decide; [done|apply ready]. Qed.
Lemma depth_nodes s : graph_of s = G -> (length (all_nodes G) < depth s)%nat.
Proof. intros Hs. rewrite <- Hs. apply all_nodes_length. Qed.
Lemma left_depth K s t : graph_of s = G -> (left_over G K t < depth s)%nat.
Proof. intros Hs. eapply Nat.le_lt_trans; [apply length_filter|by apply depth_nodes]. Qed.

(** ** [gc_mark_roots] *)
Record mark_inv (s : gc_state) (L1 L2 : list addr) (X : list node) : Prop := {
  mi_buffer : buffered_ok G U [] s (L1 ++ L2);
  mi_tint : tinted G GC_GREY (-1) (unpinned (node_of <$> L1)) [] s0 s X;
  mi_rest : rest (gc s) = rest (gc s0);
  mi_kept : forall r, r ∈ L1 -> r ∈ L0 /\ w_color (word s0 (node_of r)) = GC_PURPLE;
  mi_done : forall r, r ∈ L0 -> r ∉ L2 -> ~ pinned G (node_of r) -> col s0 (node_of r) = GC_PURPLE -> node_of r ∈ X
}.

(** A root that is still purple. *)
Lemma mark_purple u s d : graph_of s = G -> in_range s -> present G (root_node u) -> (length (all_nodes G) < d)%nat ->
  exists s' X, match u with ROOT_ZVAL z => zval_mark_grey d z s | ROOT_OBJECT h => zobj_mark_grey d h s end = Some s'
    /\ flooded G GC_GREY (-1) (unpinned [root_node u]) [] s s' X.
Proof.
  intros Hs Hr Hu Hd. assert (Hl : (left_over G GC_GREY s < d)%nat).
  { eapply Nat.le_lt_trans; [apply length_filter|done]. }
  destruct u as [z|h]; simpl in *.
  - exact (zval_mark_grey_ok G HG d z s Hs Hr Hu Hl).
  - destruct (zobj_mark_grey_ok G HG d h s Hs Hr Hu ltac:(lia)) as (s' & X & E & F). exists s', X. split; [done|].
    unfold unpinned. rewrite filter_cons, decide_True by (by intros (? & ? & _)). done.
Qed.

(** What [mark_root] does, whatever the kind of the root. *)
Lemma mark_root_eq d r e s : graph_of s = G -> present G (root_node (r_u e)) ->
  mark_root d r e s =
    if decide (w_color (word s (root_node (r_u e))) = GC_PURPLE)
    then match r_u e with ROOT_ZVAL z => zval_mark_grey d z s | ROOT_OBJECT h => zobj_mark_grey d h s end
    else s ← set_address (root_node (r_u e)) s; gc_remove_from_buffer r s.
Proof.
  intros Hs Hu. unfold mark_root. rewrite <- Hs in Hu. destruct (r_u e) as [z|h]; cbn [root_node set_address] in *.
  - pose proof Hu as [v Hv]%present_zval. unfold z_color. rewrite Hv. cbn [mbind option_bind].
    by destruct (word_zval s z v Hv) as [-> _].
  - pose proof Hu as [o Ho]%present_object. rewrite Ho. unfold object_at in Ho.
    destruct (object_buckets s) as [m|] eqn:Em; [|done]. cbn [mbind option_bind].
    destruct (word_object s h o) as [-> _]; [|done]. unfold object_at. by rewrite Em.
Qed.

Lemma mark_step d r L1 L2 s X : (length (all_nodes G) < d)%nat -> NoDup L0 -> (forall q, q ∈ r :: L2 -> q ∈ L0) ->
  mark_inv s L1 (r :: L2) X -> exists e s' L1' X', buf (gc s) !! r = Some e /\ mark_root d r e s = Some s'
    /\ mark_inv s' L1' L2 X' /\ exists e', buf (gc s') !! r = Some e' /\ r_next e' = head L2.
Proof.
  intros Hd Hnd Hin [B T Hrest Hkept Hdone]. pose proof (bo_graph _ _ _ _ _ B) as Hs.
  destruct (buffered_cell _ _ _ _ _ r B) as (e & He & HU & Hn); [set_solver +|].
  destruct (bo_named _ _ _ _ _ B r) as [Hpres Hadr]; [set_solver +|]. exists e. rewrite Hn in Hpres.
  rewrite (mark_root_eq d r e s Hs Hpres). destruct (decide _) as [Hpur|Hpur].
  - destruct (mark_purple (r_u e) s d Hs) as (s' & Xr & -> & [F Fgc Fadr]); [exact (flooded_range _ _ _ _ _ _ _ _ T)|done|done|].
    exists s', (L1 ++ [r]), (X ++ Xr). split; [done|]. split; [done|].
    assert (Hs' : graph_of s' = G) by (rewrite <- Hs; apply F).
    assert (B' : buffered_ok G U [] s' (L1 ++ r :: L2)) by (by eapply buffered_same).
    assert (T' : tinted G GC_GREY (-1) (unpinned (node_of <$> L1 ++ [r])) [] s0 s' (X ++ Xr)).
    { unfold unpinned. rewrite fmap_app, filter_app. change (node_of <$> [r]) with [node_of r]. rewrite Hn.
      eapply (tinted_app G GC_GREY (-1) _ [] _ []); done. }
    assert (Hpur0 : w_color (word s0 (node_of r)) = GC_PURPLE).
    { rewrite Hn. destruct (decide (pinned G (root_node (r_u e)))) as [Hp|Hp].
      - destruct (ti_pin _ _ _ _ _ _ _ _ T _ Hp) as [E|E]; congruence.
      - pose proof (ti_col _ _ _ _ _ _ _ _ T (root_node (r_u e))) as E. rewrite (col_word s) in E by done.
        rewrite (col_word s0) in E by done. case_decide; congruence. }
    split; [|exists e; split; [congruence|exact (buffered_next G U [] s L1 r L2 e B He)]].
    split; [by rewrite <- app_assoc|done|congruence| |].
    + intros q [Hq| ->%list_elem_of_singleton]%elem_of_app; [by apply Hkept|]. split; [apply Hin; by left|done].
    + intros q Hq Hq2 Hp Hc. destruct (decide (q = r)) as [->|Hne].
      * destruct (decide (node_of r ∈ X ++ Xr)) as [|Hnin]; [done|exfalso].
        pose proof (ti_col _ _ _ _ _ _ _ _ T' (node_of r)) as E. rewrite decide_False in E by done.
        assert (Hst : col s' (node_of r) = GC_GREY).
        { apply (ti_start _ _ _ _ _ _ _ _ F). rewrite Hn in Hp |- *. unfold unpinned. rewrite filter_cons, decide_True by done. by left. }
        congruence.
      * apply elem_of_app. left. apply Hdone; try done. by intros [?|?]%elem_of_cons.
  - rewrite <- Hn in *. destruct (set_address_ok (node_of r) s) as (s1 & -> & [Hg1 Hgc1] & Hw1 & Hc1); [congruence|].
    cbn [mbind option_bind].
    destruct (remove_buffered G U [] s s1 L1 r L2 B) with (C' := @nil node) as (s' & -> & B' & Hw' & Hc' & Hrest' & Hnext);
      [congruence|by rewrite Hgc1..|done| |intros q _; apply not_elem_of_nil|].
    { intros n _. unfold adr. rewrite Hw1. by case_decide. }
    exists s', L1, X. split; [done|]. split; [done|]. split; [|done].
    assert (Hs' : graph_of s' = G) by apply B'.
    assert (Hcol : forall n, w_color (word s' n) = w_color (word s n)) by (intros n; rewrite Hw', Hw1; by case_decide).
    assert (T' : tinted G GC_GREY (-1) [] [] s s' []).
    { apply tinted_quiet; [exact (flooded_range _ _ _ _ _ _ _ _ T)|congruence| |intros n; by rewrite Hc'|intros n _; by left].
      intros n. unfold col. rewrite Hs', Hs, Hcol. done. }
    pose proof (tinted_app _ _ _ _ _ _ _ _ _ _ _ _ T T') as T2. rewrite !app_nil_r in T2.
    split; [done|done|congruence|done|].
    intros q Hq Hq2 Hp Hc. destruct (decide (q = r)) as [->|Hne]; [|apply Hdone; try done; by intros [?|?]%elem_of_cons].
    pose proof (ti_col _ _ _ _ _ _ _ _ T (node_of r)) as E. rewrite (col_word s) in E by done.
    destruct (decide (node_of r ∈ X)); [done|]. congruence.
Qed.

Lemma mark_loop d L2 : forall L1 s X fuel, (length (all_nodes G) < d)%nat -> NoDup L0 ->
  (forall q, q ∈ L2 -> q ∈ L0) -> mark_inv s L1 L2 X -> (length L2 <= fuel)%nat ->
  exists s' L' X', roots_loop fuel (mark_root d) (head L2) s = Some s' /\ mark_inv s' L' [] X'.
Proof.
  induction L2 as [|r L2 IH]; intros L1 s X fuel Hd Hnd Hin Hi Hf.
  - exists s, L1, X. destruct fuel; done.
  - destruct fuel as [|fuel]; simpl in Hf; [lia|].
    destruct (mark_step d r L1 L2 s X Hd Hnd Hin Hi) as (e & s1 & L1' & X1 & He & E & Hi1 & e' & He' & Hnext).
    simpl. rewrite He. cbn [mbind option_bind]. rewrite E. cbn [mbind option_bind]. rewrite He'. cbn [mbind option_bind].
    rewrite Hnext. apply (IH L1' s1 X1); try done; [|lia]. intros q Hq. apply Hin. by right.
Qed.

Lemma mark_start : mark_inv s0 [] L0 [].
Proof.
  split; simpl; [apply ready|apply tinted_nil, ready_range|done| |done].
  intros r Hr. by apply not_elem_of_nil in Hr.
Qed.

(** ** [gc_scan_roots] *)
Section Marked.
Variables (s1 : gc_state) (L1 : list addr) (D : list node).
Hypothesis M : mark_inv s1 L1 [] D.
Abbreviation c0 := (cnt s0).
Abbreviation starts := (unpinned (node_of <$> L1)).

Lemma M_graph : graph_of s1 = G.
Proof. apply (bo_graph _ _ _ _ _ (mi_buffer _ _ _ _ M)). Qed.
Lemma M_buffer : buffered_ok G U [] s1 L1.
Proof. pose proof (mi_buffer _ _ _ _ M) as B. by rewrite app_nil_r in B. Qed.
Lemma D_col n : col s1 n = if decide (n ∈ D) then GC_GREY else col s0 n.
Proof. apply (ti_col _ _ _ _ _ _ _ _ (mi_tint _ _ _ _ M)). Qed.
Lemma D_nodup : NoDup D.
Proof. apply (ti_nodup _ _ _ _ _ _ _ _ (mi_tint _ _ _ _ M)). Qed.
Lemma D_nodes n : n ∈ D -> present G n /\ ~ pinned G n.
Proof. intros Hn. by destruct (ti_new _ _ _ _ _ _ _ _ (mi_tint _ _ _ _ M) n Hn) as (? & ? & _). Qed.
Lemma D_grey n : col s1 n = GC_GREY <-> n ∈ D.
Proof. rewrite D_col. case_decide; [done|]. split; [|done]. intros Hc. by destruct (ready_col n). Qed.
Lemma D_closed n c : n ∈ D -> c ∈ succ G n -> c ∈ D.
Proof. intros Hn Hc. apply D_grey. by eapply (ti_closed _ _ _ _ _ _ _ _ (mi_tint _ _ _ _ M)). Qed.
Lemma D_sub n : edges G D n <= edges G (all_nodes G) n.
Proof. apply edges_sub; [apply D_nodup|]. intros x Hx. by apply all_nodes_present, D_nodes. Qed.
Lemma c0_range n : edges G D n <= c0 n < 2 ^ 32.
Proof. pose proof (gr_count _ _ ready n). pose proof (D_sub n). unfold G in *. lia. Qed.
Lemma D_starts r : r ∈ starts -> r ∈ D.
Proof. intros Hr. apply D_grey. by apply (ti_start _ _ _ _ _ _ _ _ (mi_tint _ _ _ _ M)). Qed.
Lemma D_reach n : n ∈ D -> exists r, r ∈ starts /\ reach G r n.
Proof. apply (ti_reach _ _ _ _ _ _ _ _ (mi_tint _ _ _ _ M)). Qed.

Lemma scan_start : scan_inv G D c0 s1.
Proof.
  assert (Hun : unrestored D s1 = D).
  { unfold unrestored. apply filter_all. intros n Hn%D_grey. by rewrite Hn. }
  assert (Hblack : forall n, n ∈ D -> col s1 n <> GC_BLACK) by (intros n Hn%D_grey; by rewrite Hn).
  split.
  - apply M_graph.
  - intros n Hp. destruct (ti_pin _ _ _ _ _ _ _ _ (mi_tint _ _ _ _ M) n Hp) as [-> | ->]; [apply ready|done].
  - intros n. rewrite Hun, (ti_cnt _ _ _ _ _ _ _ _ (mi_tint _ _ _ _ M)). cbn [occ].
    pose proof (c0_range n). pose proof (edges_nonneg G D n). rewrite to_uint_id; lia.
  - intros b c Hb Hc. by destruct (Hblack b).
  - intros n Hn%D_grey. by rewrite Hn.
  - intros n Hn. rewrite D_col, decide_False by done. apply ready_col.
  - intros b Hb Hc. by destruct (Hblack b).
  - intros w. rewrite D_col. case_decide; [done|]. intros Hw. by destruct (ready_col w).
Qed.

Lemma grey_depth d s : (length (all_nodes G) < d)%nat -> (grey_left D s < d)%nat.
Proof.
  intros Hd. eapply Nat.le_lt_trans; [apply length_filter|]. eapply Nat.le_lt_trans; [|done].
  apply submseteq_length, NoDup_submseteq; [apply D_nodup|]. intros x Hx. by apply all_nodes_present, D_nodes.
Qed.

Lemma scan_step d r e s : (length (all_nodes G) < d)%nat -> scan_inv G D c0 s -> present G (root_node (r_u e)) ->
  exists s', scan_root d r e s = Some s' /\ scanned G D c0 (unpinned [root_node (r_u e)]) s s'.
Proof.
  intros Hd Hi Hp. unfold scan_root. pose proof (grey_depth d s Hd). destruct (r_u e) as [z|h]; simpl in *.
  - apply (zval_scan_ok G HG D c0 D_nodup D_nodes D_closed c0_range d z s Hi Hp). done.
  - destruct (zobj_scan_ok G HG D c0 D_nodup D_nodes D_closed c0_range d h s Hi Hp) as (s' & E & C); [lia|].
    exists s'. split; [done|]. unfold unpinned. rewrite filter_cons, decide_True by (by intros (? & ? & _)). done.
Qed.

Lemma scan_loop d L2 : forall La s fuel, (length (all_nodes G) < d)%nat -> L1 = La ++ L2 ->
  scan_inv G D c0 s -> buffered_ok G U [] s L1 -> (length L2 <= fuel)%nat ->
  exists s', roots_loop fuel (scan_root d) (head L2) s = Some s'
    /\ scanned G D c0 (unpinned (node_of <$> L2)) s s'.
Proof.
  induction L2 as [|r L2 IH]; intros La s fuel Hd HL Hi B Hf.
  - exists s. split; [by destruct fuel|]. by apply scanned_nil.
  - destruct fuel as [|fuel]; simpl in Hf; [lia|].
    destruct (buffered_cell _ _ _ _ _ r B) as (e & He & HU & Hn); [rewrite HL; set_solver +|].
    destruct (bo_named _ _ _ _ _ B r) as [Hpres _]; [rewrite HL; set_solver +|]. rewrite Hn in Hpres.
    destruct (scan_step d r e s Hd Hi Hpres) as (s2 & E & C).
    simpl. rewrite He. cbn [mbind option_bind]. rewrite E. cbn [mbind option_bind].
    rewrite (sc_gc _ _ _ _ _ _ C), He. cbn [mbind option_bind].
    rewrite HL in B. rewrite (buffered_next _ _ _ _ _ _ _ _ B He). rewrite <- HL in B.
    destruct (IH (La ++ [r]) s2 fuel) as (s' & E' & C'); try done.
    + by rewrite <- app_assoc.
    + apply C.
    + eapply buffered_same; [done|apply C|apply C|apply C].
    + lia.
    + exists s'. split; [done|]. change (scanned G D c0 (unpinned ([node_of r] ++ (node_of <$> L2))) s s').
      unfold unpinned. rewrite Hn, filter_app. by eapply scanned_app.
Qed.

(** ** [gc_collect_roots] *)
Section Scanned.
Variable s2 : gc_state.
Hypothesis C2 : scanned G D c0 starts s1 s2.
Hypothesis head_end : zval_to_free (gc s0) = Some None.

Lemma S_inv : scan_inv G D c0 s2.
Proof. apply C2. Qed.
Lemma S_buffer : buffered_ok G U [] s2 L1.
Proof. eapply buffered_same; [apply M_buffer|apply S_inv|apply C2|apply C2]. Qed.
Lemma S_head : zval_to_free (gc s2) = Some None.
Proof.
  rewrite (sc_gc _ _ _ _ _ _ C2). pose proof (mi_rest _ _ _ _ M) as H. unfold rest in H. congruence.
Qed.
Lemma S_final n : n ∈ D -> (col s2 n = GC_BLACK <-> held G D c0 n) /\ (col s2 n = GC_WHITE <-> ~ held G D c0 n).
Proof.
  intros Hn. apply (scan_complete G D c0 D_nodup D_closed s2 starts S_inv); try done.
  - apply D_reach.
  - intros r Hr. split; [by apply D_starts|by apply (sc_start _ _ _ _ _ _ C2)].
  - intros w Hw. destruct (sc_white _ _ _ _ _ _ C2 w Hw) as [Hw1|]; [|done].
    rewrite D_col in Hw1. case_decide; [done|]. by destruct (ready_col w).
Qed.
Lemma S_white n : w_color (word s2 n) = GC_WHITE -> n ∈ D /\ ~ pinned G n /\ present G n /\ ~ held G D c0 n.
Proof.
  intros Hw. destruct (decide (pinned G n)) as [Hp|Hp]; [by destruct (si_pins _ _ _ _ S_inv n Hp)|].
  rewrite <- (col_word s2 n (si_graph _ _ _ _ S_inv) Hp) in Hw. pose proof (white_in G D c0 s2 n S_inv Hw) as Hn.
  split_and!; [done..|by apply D_nodes|by apply S_final].
Qed.
Lemma S_raw n : n ∈ D -> ~ held G D c0 n -> w_color (word s2 n) = GC_WHITE.
Proof.
  intros Hn Hh. destruct (D_nodes n Hn) as [_ Hp]. rewrite <- (col_word s2 n (si_graph _ _ _ _ S_inv) Hp). by apply S_final.
Qed.

(** During the loop: the entries [L2] are left, [C] has been taken and the
    values [F] are on the list. *)
Record collect_inv (s : gc_state) (L2 : list addr) (C : list node) (F : list addr) : Prop := {
  ci_buffer : buffered_ok G U C s L2;
  ci_range : in_range s;
  ci_C : NoDup C;
  ci_white : forall n, n ∈ C -> w_color (word s2 n) = GC_WHITE;
  ci_color : forall n, n ∉ C -> w_color (word s n) = w_color (word s2 n);
  ci_object : forall h, inr h ∈ C -> word s (inr h) = Word NULL GC_PURPLE;
  ci_F : NoDup F;
  ci_complete : forall z, inl z ∈ C <-> z ∈ F;
  ci_list : links s F None;
  ci_head : zval_to_free (gc s) = Some (first F None);
  ci_zcnt : forall z, cnt s (inl z) = to_uint (cnt s2 (inl z) + edges G C (inl z) + one (bool_decide (z ∈ F)));
  ci_ocnt : forall h, cnt s (inr h) = cnt s2 (inr h);
  ci_swept : forall x c, x ∈ C -> c ∈ succ G x -> word s c <> NW;
  ci_roots : forall r, r ∈ L1 -> r ∉ L2 -> word s (node_of r) <> NW
}.

Lemma taken_word s L2 C F n : collect_inv s L2 C F -> n ∈ C -> w_color (word s n) <> GC_WHITE /\ forall r, adr s n <> ROOT r.
Proof.
  intros Hi Hn. unfold adr. destruct n as [z|h]; [|by rewrite (ci_object _ _ _ _ Hi h Hn)].
  apply (ci_complete _ _ _ _ Hi) in Hn. by destruct (links_word _ _ _ _ (ci_list _ _ _ _ Hi) Hn) as [? ->].
Qed.

Lemma collect_start : collect_inv s2 L1 [] [].
Proof.
  split; try done; try (intros ? Hx; by apply not_elem_of_nil in Hx); try apply NoDup_nil_2.
  - apply S_buffer.
  - apply (scan_range G D c0 D_nodup c0_range s2 S_inv).
  - intros z. split; intros Hz; by apply not_elem_of_nil in Hz.
  - apply S_head.
  - intros z. rewrite bool_decide_eq_false_2 by apply not_elem_of_nil. cbn [one edges].
    rewrite !Z.add_0_r, to_uint_id; [done|]. apply (scan_range G D c0 D_nodup c0_range s2 S_inv).
  - intros x c Hx. by apply not_elem_of_nil in Hx.
Qed.

(** One root: its address is cleared and what it leads to is taken. *)
Lemma collect_one d r s L2 C F : (length (all_nodes G) < d)%nat -> collect_inv s (r :: L2) C F ->
  exists sa s' C' F', set_address (node_of r) s = Some sa
    /\ match node_of r with inl z => zval_collect_white d z sa | inr h => zobj_collect_white d h sa end = Some s'
    /\ same s sa /\ (forall m, word sa m = if decide (m = node_of r) then Word NULL (w_color (word s m)) else word s m)
    /\ (forall m, cnt sa m = cnt s m) /\ taken G (first F None) (unpinned [node_of r]) [] sa s' C' F'.
Proof.
  intros Hd Hi. destruct (bo_named _ _ _ _ _ (ci_buffer _ _ _ _ Hi) r) as [Hp Ha]; [by left|].
  pose proof (bo_graph _ _ _ _ _ (ci_buffer _ _ _ _ Hi)) as Hs.
  destruct (set_address_ok (node_of r) s) as (sa & E & Hsame & Hw & Hc); [congruence|].
  assert (Hco : collectable G (first F None) sa).
  { split.
    - rewrite <- Hs. apply Hsame.
    - intros n. rewrite Hc. apply (ci_range _ _ _ _ Hi).
    - intros n Hn Hnw. assert (HnC : n ∉ C).
      { intros HnC. by destruct (S_white n (ci_white _ _ _ _ Hi n HnC)) as (_ & ? & _). }
      assert (w_color (word s n) = GC_WHITE) as Hwh by (rewrite Hw in Hnw; case_decide; [by injection Hnw|by rewrite Hnw]).
      rewrite (ci_color _ _ _ _ Hi n HnC) in Hwh. by destruct (S_white n Hwh) as (_ & ? & _).
    - rewrite (proj2 Hsame). apply Hi. }
  assert (Hl : (white_left G sa < d)%nat) by (eapply Nat.le_lt_trans; [apply length_filter|done]).
  exists sa. destruct (node_of r) as [z|h] eqn:En.
  - destruct (zval_collect_white_ok G HG d z sa _ Hco Hp Hl) as (s' & C' & F' & E' & T). exists s', C', F'. done.
  - destruct (zobj_collect_white_ok G HG d h sa _ Hco Hp) as (s' & C' & F' & E' & T); [lia|]. exists s', C', F'. done.
Qed.

Lemma collect_root_eq d r e s : graph_of s = G -> U !! r = Some (r_u e) -> present G (node_of r) ->
  collect_root d r e s =
    s1 ← (sa ← set_address (node_of r) s;
          match node_of r with inl z => zval_collect_white d z sa | inr h => zobj_collect_white d h sa end);
    gc_remove_from_buffer r s1.
Proof.
  intros Hs HU Hp. unfold collect_root. unfold rnode in *. rewrite HU in *. rewrite <- Hs in Hp.
  destruct (r_u e) as [z|h]; cbn [root_node set_address] in *; [done|].
  apply present_object in Hp as [o Ho]. unfold object_at in Ho. by destruct (object_buckets s).
Qed.

Lemma collect_step d r s L2 C F : (length (all_nodes G) < d)%nat -> collect_inv s (r :: L2) C F ->
  exists e s' C' F', buf (gc s) !! r = Some e /\ collect_root d r e s = Some s' /\ collect_inv s' L2 C' F'
    /\ exists e', buf (gc s') !! r = Some e' /\ r_next e' = head L2.
Proof.
  intros Hd Hi. pose proof (ci_buffer _ _ _ _ Hi) as B. pose proof (bo_graph _ _ _ _ _ B) as Hs.
  destruct (buffered_cell _ _ _ _ _ r B) as (e & He & HU & Hn); [by left|].
  destruct (bo_named _ _ _ _ _ B r) as [Hp Ha]; [by left|].
  destruct (collect_one d r s L2 C F Hd Hi) as (sa & sb & C' & F' & Ea & Eb & [Hga Hgca] & Hwa & Hca & T).
  exists e. rewrite (collect_root_eq d r e s Hs HU Hp), Ea. cbn [mbind option_bind]. rewrite Eb. cbn [mbind option_bind].
  set (n := node_of r) in *. destruct T as [(E & A & HE) HS Hsw HFC].
  assert (HnC : n ∉ C) by (intros HnC; destruct (taken_word _ _ _ _ n Hi HnC) as [_ Hno]; by apply (Hno r)).
  assert (Hcol : forall m, w_color (word sa m) = w_color (word s m)) by (intros m; rewrite Hwa; by case_decide).
  assert (Hdis : forall m, m ∈ C -> m ∉ C').
  { intros m HmC HmC'. destruct (taken_word _ _ _ _ m Hi HmC) as [Hw _]. apply Hw. rewrite <- Hcol.
    by destruct (ga_new _ _ _ _ _ _ _ A m HmC') as [_ ->]. }
  assert (Hold : forall m, m ∈ C -> word sb m = word s m).
  { intros m HmC. rewrite (ga_word _ _ _ _ _ _ _ A); [|by apply Hdis|].
    - rewrite Hwa, decide_False; [done|]. by intros ->.
    - intros z -> Hz%HFC. by apply (Hdis (inl z)). }
  assert (Hnew : forall m, m ∉ C -> m ∉ C' -> word sb m = word sa m).
  { intros m HmC HmC'. apply (ga_word _ _ _ _ _ _ _ A); [done|]. intros z -> Hz%HFC. done. }
  assert (Hlater : forall q, q ∈ L2 -> node_of q ∉ C ++ C').
  { intros q Hq. destruct (bo_named _ _ _ _ _ B q) as [_ Hqa]; [by right|].
    assert (Hqr : node_of q <> n).
    { intros Eq. rewrite Eq, Ha in Hqa. injection Hqa as ->.
      by pose proof (lo_nodup _ _ (bo_links _ _ _ _ _ B)) as [Hx _]%NoDup_cons. }
    apply not_elem_of_app. split.
    - intros HC. destruct (taken_word _ _ _ _ _ Hi HC) as [_ Hno]. by apply (Hno q).
    - intros [_ HC]%(ga_new _ _ _ _ _ _ _ A). rewrite Hwa, decide_False in HC by done.
      unfold adr in Hqa. by rewrite HC in Hqa. }
  assert (Hgb : gc sb = set_zval_to_free (Some (first F' (first F None))) (gc s)) by (rewrite <- Hgca; apply A).
  destruct (remove_buffered G U C s sb [] r L2 B) with (C' := C ++ C')
    as (s' & -> & B' & Hw' & Hc' & Hrest' & Hnext).
  { rewrite (ga_graph _ _ _ _ _ _ _ A). congruence. }
  { by rewrite Hgb. } { by rewrite Hgb. } { by rewrite Hgb. }
  { intros m [Hm _]%not_elem_of_app. done. }
  { intros m [Hm1 Hm2]%not_elem_of_app. unfold adr. rewrite Hnew, Hwa by done. fold n. by case_decide. }
  { done. }
  exists s', (C ++ C'), (F' ++ F). split; [done|]. split; [done|]. split; [|done].
  assert (HFdis : forall z, z ∈ F' -> z ∉ F).
  { intros z Hz%HFC Hz'%(ci_complete _ _ _ _ Hi). by apply (Hdis (inl z)). }
  split.
  - exact B'.
  - intros m. rewrite Hc'. apply (gathered_range _ _ _ _ _ _ _ A). intros x. rewrite Hca. apply Hi.
  - apply NoDup_app. split; [apply Hi|]. split; [done|apply A].
  - intros m [Hm|Hm]%elem_of_app; [by apply (ci_white _ _ _ _ Hi)|].
    assert (m ∉ C) as HmC by (intros ?; by apply (Hdis m)).
    destruct (ga_new _ _ _ _ _ _ _ A m Hm) as [_ Hw]. rewrite <- (ci_color _ _ _ _ Hi), <- Hcol by done. by rewrite Hw.
  - intros m [Hm1 Hm2]%not_elem_of_app. rewrite Hw', Hnew, Hcol by done. by apply (ci_color _ _ _ _ Hi).
  - intros h [Hh|Hh]%elem_of_app; rewrite Hw'; [rewrite Hold by done; by apply (ci_object _ _ _ _ Hi)|].
    by apply (ga_object _ _ _ _ _ _ _ A).
  - apply NoDup_app. split; [apply A|]. split; [done|apply Hi].
  - intros z. rewrite !elem_of_app, (ci_complete _ _ _ _ Hi), HFC. tauto.
  - apply links_app.
    + eapply links_frame; [apply (ci_list _ _ _ _ Hi)|]. intros z Hz%(ci_complete _ _ _ _ Hi). rewrite Hw'. by apply Hold.
    + eapply links_frame; [apply (ga_links _ _ _ _ _ _ _ A)|]. intros z _. apply Hw'.
  - unfold rest in Hrest'. rewrite Hgb in Hrest'. simpl in Hrest'. rewrite first_app. congruence.
  - intros z. rewrite Hc', (ga_zcnt _ _ _ _ _ _ _ A), Hca, (ci_zcnt _ _ _ _ Hi), HE. cbn [occ].
    rewrite <- Z.add_assoc, to_uint_add, edges_app. f_equal.
    rewrite (bool_decide_ext (z ∈ F' ++ F) (z ∈ F' \/ z ∈ F)) by apply elem_of_app.
    destruct (decide (z ∈ F')) as [H1|H1].
    + pose proof (HFdis z H1) as H2. rewrite (bool_decide_eq_true_2 (_ \/ _)) by auto.
      rewrite (bool_decide_eq_true_2 (z ∈ F')), (bool_decide_eq_false_2 (z ∈ F)) by done. simpl. lia.
    + rewrite (bool_decide_ext (_ \/ _) (z ∈ F)) by tauto. rewrite (bool_decide_eq_false_2 (z ∈ F')) by done. simpl. lia.
  - intros h. rewrite Hc', (ga_ocnt _ _ _ _ _ _ _ A), Hca. apply Hi.
  - assert (Hroot : ~ pinned G n -> word sb n <> NW).
    { intros Hpn. apply HS. unfold unpinned. rewrite filter_cons, decide_True by done. by left. }
    intros x c [Hx|Hx]%elem_of_app Hc; rewrite Hw'; [|by eapply Hsw].
    destruct (decide (c = n)) as [->|Hcn]; [apply Hroot; by apply (succ_present G x n HG)|].
    apply (gathered_not_NW _ _ _ _ _ _ _ c A). rewrite Hwa, decide_False by done. by eapply (ci_swept _ _ _ _ Hi).
  - intros q Hq Hq2. rewrite Hw'. destruct (decide (node_of q = n)) as [->|Hne].
    + intros Hnw. destruct (decide (pinned G n)) as [Hpn|Hpn].
      * rewrite Hnew in Hnw; [|done|].
        -- assert (w_color (word s2 n) = GC_WHITE) as Hwh.
           { rewrite <- (ci_color _ _ _ _ Hi), <- Hcol, Hnw by done. done. }
           by destruct (S_white n Hwh) as (_ & ? & _).
        -- intros [_ Hw]%(ga_new _ _ _ _ _ _ _ A).
           assert (w_color (word s2 n) = GC_WHITE) as Hwh.
           { rewrite <- (ci_color _ _ _ _ Hi), <- Hcol, Hw by done. done. }
           by destruct (S_white n Hwh) as (_ & ? & _).
      * revert Hnw. apply HS. unfold unpinned. rewrite filter_cons, decide_True by done. by left.
    + apply (gathered_not_NW _ _ _ _ _ _ _ (node_of q) A). rewrite Hwa, decide_False by done.
      apply (ci_roots _ _ _ _ Hi); [done|]. intros [->|?]%elem_of_cons; done.
Qed.

Lemma collect_loop d L2 : forall s C F fuel, (length (all_nodes G) < d)%nat -> collect_inv s L2 C F ->
  (length L2 <= fuel)%nat ->
  exists s' C' F', roots_loop fuel (collect_root d) (head L2) s = Some s' /\ collect_inv s' [] C' F'.
Proof.
  induction L2 as [|r L2 IH]; intros s C F fuel Hd Hi Hf.
  - exists s, C, F. split; [by destruct fuel|done].
  - destruct fuel as [|fuel]; simpl in Hf; [lia|].
    destruct (collect_step d r s L2 C F Hd Hi) as (e & s' & C' & F' & He & E & Hi' & e' & He' & Hnext).
    simpl. rewrite He. cbn [mbind option_bind]. rewrite E. cbn [mbind option_bind]. rewrite He'. cbn [mbind option_bind].
    rewrite Hnext. apply (IH s' C' F'); [done|done|lia].
Qed.

(** At the end everything white has been taken. *)
Lemma collect_all s C F n : collect_inv s [] C F -> n ∈ C <-> n ∈ D /\ ~ held G D c0 n.
Proof.
  intros Hi. split.
  - intros Hn%(ci_white _ _ _ _ Hi)%S_white. by destruct Hn as (? & _ & _ & ?).
  - intros [HnD Hh]. pose proof (S_raw n HnD Hh) as Hw.
    assert (Hend : forall m, w_color (word s2 m) = GC_WHITE -> word s m <> NW -> m ∈ C).
    { intros m Hm Hnw. destruct (decide (m ∈ C)) as [|HmC]; [done|]. destruct Hnw.
      destruct (bo_adr _ _ _ _ _ (ci_buffer _ _ _ _ Hi) m HmC) as [Ha|(r & Hr & _)]; [|by apply not_elem_of_nil in Hr].
      pose proof (ci_color _ _ _ _ Hi m HmC) as Hc. unfold adr in Ha.
      destruct (word s m) as [a c]. simpl in *. congruence. }
    destruct (D_reach n HnD) as (r & Hr & Hrn).
    assert (n ∈ D /\ (w_color (word s2 n) = GC_WHITE -> n ∈ C)) as [_ HP]; [|by apply HP].
    eapply (reach_closed G (fun m => m ∈ D /\ (w_color (word s2 m) = GC_WHITE -> m ∈ C))); [|done|].
    + intros m c [Hm HmC] Hc. pose proof (D_closed m c Hm Hc) as HcD. split; [done|]. intros Hcw.
      apply Hend; [done|]. apply (ci_swept _ _ _ _ Hi m); [|done]. apply HmC, S_raw; [done|].
      intros Hheld. apply S_white in Hcw as (_ & _ & _ & []). destruct Hheld as (a & Ha & Hac & Ham).
      exists a. split_and!; [done..|]. by eapply reach_last.
    + split; [by apply D_starts|]. intros Hrw. apply Hend; [done|].
      unfold unpinned in Hr. apply list_elem_of_filter in Hr as [_ (q & -> & Hq)%list_elem_of_fmap].
      apply (ci_roots _ _ _ _ Hi); [done|apply not_elem_of_nil].
Qed.

Lemma collect_counts s C F : collect_inv s [] C F ->
  (forall z, cnt s (inl z) = c0 (inl z) + one (bool_decide (z ∈ F)))
  /\ (forall h, cnt s (inr h) = c0 (inr h) - edges G C (inr h)).
Proof.
  intros Hi. assert (Hperm : Permutation (unrestored D s2) C).
  { apply NoDup_Permutation; [apply NoDup_filter, D_nodup|apply Hi|]. intros n.
    rewrite (collect_all s C F n Hi). unfold unrestored. rewrite list_elem_of_filter. split.
    - intros [Hn HnD]. split; [done|]. intros Hh. by apply Hn, S_final.
    - intros [HnD Hh]. split; [|done]. intros Hb%S_final; done. }
  split.
  - intros z. rewrite (ci_zcnt _ _ _ _ Hi), (si_cnt _ _ _ _ S_inv), (edges_perm _ _ _ _ Hperm).
    pose proof (gr_count _ _ ready (inl z)) as Hr. pose proof (edges_nonneg G (all_nodes G) (inl z)). unfold G in *.
    rewrite to_uint_id; [lia|]. unfold one. destruct (bool_decide _); lia.
  - intros h. by rewrite (ci_ocnt _ _ _ _ Hi), (si_cnt _ _ _ _ S_inv), (edges_perm _ _ _ _ Hperm).
Qed.

Lemma collect_colors s C F n : collect_inv s [] C F -> n ∉ C ->
  w_color (word s n) <> GC_GREY /\ w_color (word s n) <> GC_WHITE /\ adr s n = NULL.
Proof.
  intros Hi Hn.
  assert (Ha : adr s n = NULL).
  { destruct (bo_adr _ _ _ _ _ (ci_buffer _ _ _ _ Hi) n Hn) as [|(r & Hr & _)]; [done|]. by apply not_elem_of_nil in Hr. }
  rewrite (ci_color _ _ _ _ Hi n Hn). destruct (decide (pinned G n)) as [Hp|Hp].
  { by destruct (si_pins _ _ _ _ S_inv n Hp). }
  rewrite <- (col_word s2 n (si_graph _ _ _ _ S_inv) Hp). destruct (decide (n ∈ D)) as [HnD|HnD].
  - destruct (decide (col s2 n = GC_BLACK)) as [->|Hb]; [done|]. destruct Hn. apply (collect_all s C F n Hi).
    split; [done|]. intros Hh. by apply Hb, S_final.
  - by destruct (si_out _ _ _ _ S_inv n HnD).
Qed.
End Scanned.
End Marked.
End Run.

(** ** What a run finds *)

(** References that come from elsewhere: variables, the stack, resources. *)
Definition external (s : gc_state) (n : node) : Z :=
  cnt s n - edges (graph_of s) (all_nodes (graph_of s)) n.
(** Reachable from a purple root. *)
Definition candidate (s : gc_state) (L : list addr) (n : node) : Prop :=
  exists r, r ∈ L /\ let x := rnode (r_u <$> buf (gc s)) r in
    ~ pinned (graph_of s) x /\ w_color (word s x) = GC_PURPLE /\ reach (graph_of s) x n.

Lemma candidate_D s0 L0 s1 L1 D n : gc_ready s0 L0 -> mark_inv s0 L0 s1 L1 [] D -> candidate s0 L0 n <-> n ∈ D.
Proof.
  intros R M. split.
  - intros (r & Hr & Hp & Hc & Hn). eapply (reach_closed _ (fun m => m ∈ D)); [|exact Hn|].
    + intros m c. by eapply (D_closed s0 L0 R s1 L1 D M).
    + apply (mi_done _ _ _ _ _ _ M); [done|apply not_elem_of_nil|done|]. by rewrite (col_word s0 s0).
  - intros Hn. destruct (D_reach s0 L0 s1 L1 D M n Hn) as (x & Hx & Hxn).
    apply list_elem_of_filter in Hx as [Hp (r & -> & Hr)%list_elem_of_fmap].
    destruct (mi_kept _ _ _ _ _ _ M r Hr) as [Hr0 Hc]. by exists r.
Qed.

(** A path into a set enters it somewhere. *)
Lemma reach_enters G (D : list node) a n : reach G a n -> a ∉ D -> n ∈ D ->
  exists b c, b ∉ D /\ c ∈ D /\ c ∈ succ G b /\ reach G c n.
Proof.
  induction 1 as [m|m c n Hc Hr IH]; intros Ha Hn; [done|]. destruct (decide (c ∈ D)) as [HcD|HcD]; [|auto].
  by exists m, c.
Qed.
Lemma succ_here G n c : c ∈ succ G n -> present G n.
Proof.
  destruct n as [z|h]; simpl.
  - destruct (g_value G !! z); [by eexists|by intros ?%not_elem_of_nil].
  - destruct (g_objects G) as [m|]; simpl; [|by intros ?%not_elem_of_nil]. intros Hc. exists m. split; [done|].
    destruct (m !! h); [by eexists|by apply not_elem_of_nil in Hc].
Qed.

(** Held from outside: by an external reference or by a node that is no
    candidate. *)
Lemma held_iff s0 L0 s1 L1 D n : gc_ready s0 L0 -> mark_inv s0 L0 s1 L1 [] D -> n ∈ D ->
  held (graph_of s0) D (cnt s0) n <->
  exists a, (0 < external s0 a \/ a ∉ D) /\ reach (graph_of s0) a n.
Proof.
  intros R M HnD. set (G := graph_of s0). pose proof (D_sub s0 L0 s1 L1 D M) as Hsub. fold G in Hsub. split.
  - intros (a & HaD & Hac & Han). destruct (decide (0 < external s0 a)) as [He|He]; [by exists a; auto|].
    unfold external in He. fold G in He. rewrite (edges_partition G (fun x => x ∈ D) (all_nodes G)) in He.
    assert (edges G (filter (fun x => x ∈ D) (all_nodes G)) a <= edges G D a).
    { apply edges_sub; [apply NoDup_filter, all_nodes_NoDup|]. by intros x [Hx _]%list_elem_of_filter. }
    assert (0 < edges G (filter (fun x => ~ x ∈ D) (all_nodes G)) a) as (b & [Hb _]%list_elem_of_filter & Hba)%edges_pos by lia.
    exists b. split; [by right|]. by eapply reach_step.
  - intros (a & Ha & Han). destruct (decide (a ∈ D)) as [HaD|HaD].
    + destruct Ha as [Ha|Ha]; [|done]. exists a. split_and!; [done| |done]. unfold external in Ha. fold G in Ha.
      specialize (Hsub a). lia.
    + destruct (reach_enters G D a n Han HaD HnD) as (b & c & Hb & Hc & Hbc & Hcn). exists c. split_and!; [done| |done].
      pose proof (gr_count _ _ R c) as [Hcnt _]. fold G in Hcnt.
      assert (edges G (b :: D) c <= edges G (all_nodes G) c) as Hle.
      { apply edges_sub; [by constructor; [|apply (D_nodup s0 L0 s1 L1 D M)]|].
        intros x [->|Hx]%elem_of_cons; apply all_nodes_present; [by eapply succ_here|].
        by apply (D_nodes s0 L0 s1 L1 D M). }
      simpl in Hle. pose proof (proj1 (occ_pos c (succ G b)) Hbc). lia.
Qed.

(** The references of collected objects lead to values only. *)
Definition is_value (n : node) : bool := match n with inl _ => true | inr _ => false end.
Lemma edges_values G (C : list node) (F : list addr) h : NoDup C -> NoDup F -> (forall z, inl z ∈ C <-> z ∈ F) ->
  edges G C (inr h) = edges G (inl <$> F) (inr h).
Proof.
  intros HC HF HCF. rewrite (edges_partition G (fun x => is_value x = true) C).
  assert (Hobj : edges G (filter (fun x => ~ is_value x = true) C) (inr h) <= 0).
  { apply Z.nlt_ge. intros ([z|k] & [Hx _]%list_elem_of_filter & Hn)%edges_pos; [by destruct Hx|].
    simpl in Hn. by apply list_elem_of_filter in Hn as [_ (? & ? & _)%list_elem_of_fmap]. }
  pose proof (edges_nonneg G (filter (fun x => ~ is_value x = true) C) (inr h)).
  rewrite (edges_perm G (filter (fun x => is_value x = true) C) (inl <$> F)); [lia|].
  apply NoDup_Permutation; [by apply NoDup_filter|by apply (NoDup_fmap_2 _)|].
  intros x. rewrite list_elem_of_filter, list_elem_of_fmap. split.
  - intros [Hv Hx]. destruct x as [z|]; [|done]. exists z. split; [done|by apply HCF].
  - intros (z & -> & Hz). split; [done|by apply HCF].
Qed.

(** The list of values to free after the three phases of a run: once each,
    exactly the candidates that nothing outside holds. *)
Definition garbage_list (s : gc_state) (L F : list addr) : Prop :=
  NoDup F /\ forall z, z ∈ F <-> candidate s L (inl z)
    /\ forall a, 0 < external s a \/ ~ candidate s L a -> ~ reach (graph_of s) a (inl z).

Lemma find_garbage_ok (s : gc_state) (L : list addr) :
  gc_ready s L -> zval_to_free (gc s) = Some None ->
  exists s' F, find_garbage s = Some s' /\ graph_of s' = graph_of s
    /\ zval_to_free (gc s') = Some (first F None) /\ links s' F None 
    /\ garbage_list s L F
    /\ (forall z, cnt s' (inl z) = cnt s (inl z) + one (bool_decide (z ∈ F)))
    /\ (forall h, cnt s' (inr h) = cnt s (inr h) - edges (graph_of s) (inl <$> F) (inr h))
    /\ (forall z, z ∉ F -> w_color (word s' (inl z)) <> GC_GREY /\ w_color (word s' (inl z)) <> GC_WHITE
          /\ adr s' (inl z) = NULL)
    /\ links_ok (gc s') [].
Proof.
  intros R Hh. pose proof (bo_links _ _ _ _ _ (gr_buffer _ _ R)) as Hl.
  assert (Hlen : forall t L', links_ok (gc t) L' -> (length L' <= size (buf (gc t)))%nat).
  { intros t L' Hl'. rewrite <- size_dom, <- (size_list_to_set (C := gset addr) L') by apply Hl'.
    apply subseteq_size. intros q Hq%elem_of_list_to_set. apply elem_of_dom.
    by eapply linked_cell; [apply Hl'|]. }
  destruct (mark_loop s L R (depth s) L [] s [] (size (buf (gc s)))) as (s1 & L1 & D & E1 & M).
  { by apply depth_nodes. } { apply Hl. } { done. } { exact (mark_start s L R). } { by apply Hlen. }
  pose proof (M_graph s L s1 L1 D M) as Hg1. pose proof (M_buffer s L s1 L1 D M) as B1.
  destruct (scan_loop s L R s1 L1 D M (depth s1) L1 [] s1 (size (buf (gc s1)))) as (s2 & E2 & C2).
  { by apply depth_nodes. } { done. } { exact (scan_start s L R s1 L1 D M). } { done. } { apply Hlen, B1. }
  pose proof (S_buffer s L s1 L1 D M s2 C2) as B2.
  destruct (collect_loop s L R s1 L1 D M s2 C2 (depth s2) L1 s2 [] [] (size (buf (gc s2)))) as (s' & C & F & E3 & I3).
  { apply depth_nodes, C2. } { exact (collect_start s L R s1 L1 D M s2 C2 Hh). } { apply Hlen, B2. }
  exists s', F. unfold find_garbage, gc_mark_roots, gc_scan_roots, gc_collect_roots.
  rewrite (lo_head _ _ Hl), E1. cbn [mbind option_bind]. rewrite (lo_head _ _ (bo_links _ _ _ _ _ B1)), E2.
  cbn [mbind option_bind]. rewrite (lo_head _ _ (bo_links _ _ _ _ _ B2)), E3.
  destruct (collect_counts s L R s1 L1 D M s2 C2 s' C F I3) as [Hz Ho].
  assert (HC : forall n, n ∈ C <-> n ∈ D /\ ~ held (graph_of s) D (cnt s) n)
    by (intros n; exact (collect_all s L R s1 L1 D M s2 C2 s' C F n I3)).
  pose proof (ci_complete _ _ _ _ _ _ _ I3) as HCF.
  split_and!; [done|apply I3|apply I3|apply I3| |done| | |apply I3].
  - split; [apply I3|]. intros z. rewrite <- HCF, HC, (candidate_D s L s1 L1 D (inl z) R M). split.
    + intros [HzD Hheld]. split; [done|]. intros a Ha Hr. apply Hheld, (held_iff s L s1 L1 D _ R M HzD).
      exists a. split; [|done]. by rewrite (candidate_D s L s1 L1 D a R M) in Ha.
    + intros [HzD Hno]. split; [done|]. intros (a & Ha & Hr)%(held_iff s L s1 L1 D _ R M HzD).
      apply (Hno a); [|done]. by rewrite (candidate_D s L s1 L1 D a R M).
  - intros h. rewrite Ho, (edges_values _ C F); [done|apply I3|apply I3|done].
  - intros z Hz'. apply (collect_colors s L R s1 L1 D M s2 C2 s' C F (inl z) I3). by rewrite HCF.
Qed.
