(* ===== verification/GCCycleThms.v ===== *)
(** * GCCycleThms: what a run of the cycle collector finds and frees

    The three phases find the garbage ([GCThms.find_garbage_ok]); this file
    follows the list through the three loops of [gc_collect_cycles] that call
    the destructors, destroy the values and free them. *)
From S2P Require Import Prelude DList GC GCGraph GCFlood GCScan GCCollect GCRoots GCThms.

(** ** What the three phases leave alone *)
Definition side (g : zend_gc_globals) := (gc_enabled g, gc_active g, free_list g, next_to_free g, gc_runs g, collected g).
Definition aside (f : gc_state -> option gc_state) : Prop := forall s s', f s = Some s' -> side (gc s') = side (gc s).

Create HintDb gc_aside discriminated.

Lemma aside_upd_zval z f : aside (upd_zval z f).
Proof. intros s s'. unfold upd_zval. destruct (zvals s !! z); simpl; [|done]. by intros [= <-]. Qed.
Lemma aside_upd_object h f : aside (upd_object h f).
Proof.
  intros s s'. unfold upd_object. destruct (object_buckets s) as [m|]; simpl; [|done].
  destruct (m !! h); simpl; [|done]. by intros [= <-].
Qed.
Lemma aside_upd_root r f : aside (upd_root r f).
Proof. intros s s'. unfold upd_root. destruct (buf (gc s) !! r); simpl; [|done]. by intros [= <-]. Qed.
Lemma aside_each {A} (f : A -> gc_state -> option gc_state) l : (forall x, aside (f x)) -> aside (each f l).
Proof.
  intros Hf. induction l as [|x l IH]; intros s s'; simpl; [by intros [= <-]|].
  destruct (f x s) as [t|] eqn:E; simpl; [|done]. intros ->%IH. by apply (Hf x).
Qed.
Lemma aside_slot f x : (forall z, aside (f z)) -> aside (slot f x).
Proof. intros Hf s s'. destruct x; simpl; [apply Hf|by intros [= <-]]. Qed.
#[export] Hint Resolve aside_upd_zval aside_upd_object aside_upd_root aside_each aside_slot : gc_aside.

(** Follow one execution, one assignment at a time. *)
Ltac follow :=
  repeat match goal with
  | H : Some _ = Some _ |- _ => injection H as <-
  | H : None = Some _ |- _ => discriminate H
  | H : _ ≫= _ = Some _ |- _ => apply bind_Some in H as (? & ? & H)
  | H : (if ?b then _ else _) = Some _ |- _ => destruct b
  | H : match ?x with _ => _ end = Some _ |- _ => destruct x
  end.
(** Every step of an execution kept the fields of [side]. *)
Ltac aside_steps :=
  repeat match goal with
  | |- ?a = ?a => reflexivity
  | |- side (gc (on_gc _ ?t)) = ?r => change (side (gc t) = r)
  | H : ?f ?s = Some ?t |- side (gc ?t) = _ =>
      transitivity (side (gc s)); [assert (aside f) as Ha by eauto 6 with gc_aside; exact (Ha s t H)|]; clear H
  end.

Lemma aside_addref z : aside (addref z).
Proof. intros s s' E. unfold addref in E. follow; by aside_steps. Qed.
Lemma aside_delref z : aside (delref z).
Proof. intros s s' E. unfold delref in E. follow; by aside_steps. Qed.
#[export] Hint Resolve aside_addref aside_delref : gc_aside.
#[export] Hint Extern 1 (aside (GC_ZVAL_SET_COLOR _ _)) => apply aside_upd_zval : gc_aside.
#[export] Hint Extern 1 (aside (GC_ZVAL_SET_ADDRESS _ _)) => apply aside_upd_zval : gc_aside.
#[export] Hint Extern 1 (aside (obj_set_color _ _)) => apply aside_upd_object : gc_aside.
#[export] Hint Extern 1 (aside (obj_set_address _ _)) => apply aside_upd_object : gc_aside.

Lemma aside_property f o : (forall z, aside (f z)) -> aside (each_property f o).
Proof. intros Hf s s' E. unfold each_property in E. follow; by aside_steps. Qed.
#[export] Hint Resolve aside_property : gc_aside.

Lemma aside_scan_black d : forall z, aside (zval_scan_black d z).
Proof.
  induction d as [|d IH]; intros z s s' E; simpl in E; [done|].
  assert (Hv : forall c, aside (fun s => s ← addref c s; col ← z_color c s;
    if decide (col = GC_BLACK) then Some s else zval_scan_black d c s)).
  { intros c t t' Et. follow; by aside_steps. }
  follow; by aside_steps.
Qed.
#[export] Hint Resolve aside_scan_black : gc_aside.
Lemma aside_obj_scan_black d h : aside (zobj_scan_black d h).
Proof.
  intros s s' E. unfold zobj_scan_black in E.
  assert (Hv : forall c, aside (fun s => s ← addref c s; col ← z_color c s;
    if decide (col = GC_BLACK) then Some s else zval_scan_black d c s)).
  { intros c t t' Et. follow; by aside_steps. }
  follow; by aside_steps.
Qed.
Lemma aside_mark_grey d : forall z, aside (zval_mark_grey d z).
Proof.
  induction d as [|d IH]; intros z s s' E; simpl in E; [done|].
  assert (Hv : forall c, aside (fun s => s ← delref c s; zval_mark_grey d c s)).
  { intros c t t' Et. follow; by aside_steps. }
  follow; by aside_steps.
Qed.
#[export] Hint Resolve aside_obj_scan_black aside_mark_grey : gc_aside.
Lemma aside_scan d : forall z, aside (zval_scan d z).
Proof. induction d as [|d IH]; intros z s s' E; cbn [zval_scan] in E; [done|]. follow; by aside_steps. Qed.
Lemma aside_to_free z : aside (to_free z).
Proof. intros s s' E. unfold to_free in E. follow. by aside_steps. Qed.
#[export] Hint Resolve aside_scan aside_to_free : gc_aside.
Lemma aside_collect d : forall z, aside (zval_collect_white d z).
Proof.
  induction d as [|d IH]; intros z s s' E; simpl in E; [done|].
  assert (Hv : forall c, aside (fun s => s ← addref c s; zval_collect_white d c s)).
  { intros c t t' Et. follow; by aside_steps. }
  follow; by aside_steps.
Qed.
#[export] Hint Resolve aside_collect : gc_aside.
Lemma aside_assign_prev p x : aside (assign_prev p x).
Proof. intros s s' E. unfold assign_prev in E. follow; by aside_steps. Qed.
Lemma aside_assign_next p x : aside (assign_next p x).
Proof. intros s s' E. unfold assign_next in E. follow; by aside_steps. Qed.
#[export] Hint Resolve aside_assign_prev aside_assign_next : gc_aside.
Lemma aside_remove r : aside (gc_remove_from_buffer r).
Proof. intros s s' E. unfold gc_remove_from_buffer in E. follow. by aside_steps. Qed.
#[export] Hint Resolve aside_remove : gc_aside.

Lemma aside_mark_root d r e : aside (mark_root d r e).
Proof.
  intros s s' E. unfold mark_root, zobj_mark_grey in E.
  assert (Hv : forall c, aside (fun s => s ← delref c s; zval_mark_grey d c s)).
  { intros c t t' Et. follow; by aside_steps. }
  follow; by aside_steps.
Qed.
Lemma aside_scan_root d r e : aside (scan_root d r e).
Proof. intros s s' E. unfold scan_root, zobj_scan in E. follow; by aside_steps. Qed.
Lemma aside_collect_root d r e : aside (collect_root d r e).
Proof.
  intros s s' E. unfold collect_root, zobj_collect_white in E.
  assert (Hv : forall c, aside (fun s => s ← addref c s; zval_collect_white d c s)).
  { intros c t t' Et. follow; by aside_steps. }
  apply bind_Some in E as (t & Et & E). transitivity (side (gc t)); [by aside_steps|]. clear E. follow; by aside_steps.
Qed.
Lemma aside_roots_loop body fuel : (forall r e, aside (body r e)) -> forall p, aside (roots_loop fuel body p).
Proof.
  intros Hb. induction fuel as [|fuel IH]; intros [r|] s s' E; simpl in E; follow; by aside_steps.
Qed.
Lemma find_garbage_aside : aside find_garbage.
Proof.
  intros s s' E. unfold find_garbage, gc_mark_roots, gc_scan_roots, gc_collect_roots in E.
  pose proof (fun n d => aside_roots_loop _ n (aside_mark_root d)).
  pose proof (fun n d => aside_roots_loop _ n (aside_scan_root d)).
  pose proof (fun n d => aside_roots_loop _ n (aside_collect_root d)).
  follow; by aside_steps.
Qed.

(** C1: the cycle collector.  Whatever the graph of values and objects, as
    long as the counts cover the references there are, the three phases of
    [gc_collect_cycles] return (no pointer is lost, the recursions and loops
    end) and the list they leave holds, once each, exactly the values that can
    be reached from a purple root and from nothing that is referenced
    externally or lies outside of what the purple roots reach.  Every count is
    what it was, one more for the values on the list, and for an object less
    the references the values on the list hold to it; nothing else is left
    marked, and the buffer of roots is empty. *)
Theorem gc_finds_garbage (s : gc_state) (L : list addr) :
  gc_ready s L -> zval_to_free (gc s) = Some None ->
  exists s' F, find_garbage s = Some s' /\ graph_of s' = graph_of s
    /\ zval_to_free (gc s') = Some (first F None) /\ links s' F None
    /\ garbage_list s L F
    /\ (forall z, cnt s' (inl z) = cnt s (inl z) + one (bool_decide (z ∈ F)))
    /\ (forall h, cnt s' (inr h) = cnt s (inr h) - edges (graph_of s) (inl <$> F) (inr h))
    /\ (forall z, z ∉ F -> w_color (word s' (inl z)) <> GC_GREY /\ w_color (word s' (inl z)) <> GC_WHITE
          /\ adr s' (inl z) = NULL)
    /\ links_ok (gc s') [].
Proof. apply find_garbage_ok. Qed.

(** ** Destructors, destroying, freeing *)

(** The values [F] are the list to free, and those that are objects have one. *)
Record garbage_ok (s : gc_state) (F : list addr) : Prop := {
  gb_links : links s F None;
  gb_object : forall z v h m, z ∈ F -> zvals s !! z = Some v -> z_value v = IS_OBJECT h -> object_buckets s = Some m ->
    is_Some (m !! h)
}.

(** *** The calls of a run

    What the two loops do with the values of the list, as steps: [destructor_step z n s s']
    and [destroy_step z n s s'] take the value [z], which [n] follows on the list, from [s] to [s']. *)
Section Steps.
Context `{GcCallbacks}.
Definition put_object (h : positive) (o : gc_object) (s : gc_state) : gc_state :=
  match object_buckets s with Some m => with_objects (<[h := o]> m) s | None => s end.
Definition unreferenced (o : gc_object) : Prop := o_valid o = true /\ o_refcount o <= 0.
Definition destructor_due (o : gc_object) : Prop := unreferenced o /\ o_has_dtor o = true /\ o_destructor_called o = false.

(** The destructor of an unreferenced object is called, with the object marked
    and one reference held, when there is one that has not been called. *)
Inductive destructor_step (z : addr) (n : option addr) (s : gc_state) : gc_state -> Prop :=
| ds_call v h o s1 s' : zvals s !! z = Some v -> z_value v = IS_OBJECT h -> object_at h s = Some o -> destructor_due o ->
    object_dtor h (put_object h (GcObject true true true (o_get_gc o) (to_uint (o_refcount o + 1)) (o_buffered o)) s) = Some s1 ->
    upd_object h (on_refcount (fun n => to_uint (n - 1))) s1 = Some s' -> destructor_step z n s s'
| ds_object v h o : zvals s !! z = Some v -> z_value v = IS_OBJECT h -> object_at h s = Some o -> ~ destructor_due o ->
    destructor_step z n s s
| ds_no_object v : zvals s !! z = Some v -> (forall h, z_value v = IS_OBJECT h -> object_buckets s = None) ->
    destructor_step z n s s.

(** The object of a value gives up its last reference, unless it has been
    resurrected; an array is destroyed after the value has become null, a scalar
    before. *)
Inductive destroy_step (z : addr) (n : option addr) (s : gc_state) : gc_state -> Prop :=
| ys_object v h o t s' : zvals s !! z = Some v -> z_value v = IS_OBJECT h -> object_at h s = Some o -> unreferenced o ->
    upd_zval z (set_type IS_NULL) (put_object h (on_refcount (fun _ => 1) o) (on_gc (set_next_to_free (Some n)) s)) = Some t ->
    store_del_ref h t = Some s' -> destroy_step z n s s'
| ys_kept v h o : zvals s !! z = Some v -> z_value v = IS_OBJECT h -> object_at h s = Some o -> ~ unreferenced o ->
    destroy_step z n s (on_gc (set_next_to_free (Some n)) s)
| ys_no_object v h : zvals s !! z = Some v -> z_value v = IS_OBJECT h -> object_buckets s = None ->
    destroy_step z n s (on_gc (set_next_to_free (Some n)) s)
| ys_array v ht t s' : zvals s !! z = Some v -> z_value v = IS_ARRAY ht ->
    upd_zval z (set_type IS_NULL) (on_gc (set_next_to_free (Some n)) s) = Some t -> hash_destroy ht t = Some s' ->
    destroy_step z n s s'
| ys_scalar v t s' : zvals s !! z = Some v -> z_value v = IS_NULL \/ z_value v = IS_SCALAR ->
    zval_dtor z (on_gc (set_next_to_free (Some n)) s) = Some t -> upd_zval z (set_type IS_NULL) t = Some s' ->
    destroy_step z n s s'.

(** One step for every value of a list, in its order. *)
Inductive turns (step : addr -> option addr -> gc_state -> gc_state -> Prop) : list addr -> gc_state -> gc_state -> Prop :=
| turns_nil s : turns step [] s s
| turns_cons z F s s1 s' : step z (head F) s s1 -> turns step F s1 s' -> turns step (z :: F) s s'.

(** The states a run starts the three phases in and the first loop in. *)
Definition run_started (s : gc_state) : gc_state :=
  on_gc (fun g => set_active true (set_zval_to_free (Some None) (set_runs (to_uint (gc_runs g + 1)) g))) s.
Definition list_taken (F : list addr) (s : gc_state) : gc_state :=
  on_gc (fun g => set_active false (set_zval_to_free None (set_free_list (Some (head F)) g))) s.
(** The values [F] are freed, and the globals set, after the second loop has left [t]. *)
Definition run_ended (s : gc_state) (F : list addr) (t s' : gc_state) : Prop :=
  (forall z, zvals s' !! z = if decide (z ∈ F) then None else zvals t !! z)
  /\ tables s' = tables t /\ symbol_table s' = symbol_table t /\ object_buckets s' = object_buckets t
  /\ gc s' = set_next_to_free (next_to_free (gc s)) (set_free_list (free_list (gc s))
       (set_collected (to_uint (collected (gc t) + Z.of_nat (length F))) (gc t))).
End Steps.

(** Code that runs during a collection and leaves the list to free alone: the
    links of its values, and [free_list] and [next_to_free], which a collection
    that is started meanwhile saves and puts back.  The buckets of the objects
    store stay where they are. *)
Definition keeps (f : gc_state -> option gc_state) : Prop :=
  forall s F, garbage_ok s F -> exists s', f s = Some s' /\ garbage_ok s' F /\ free_list (gc s') = free_list (gc s)
    /\ next_to_free (gc s') = next_to_free (gc s) /\ forall h, is_Some (object_at h s) -> is_Some (object_at h s').

(** What the collector expects of the code it calls. *)
Class GcCallbackLaws `{GcCallbacks} : Prop := {
  dtor_keeps h : keeps (object_dtor h);
  del_ref_keeps h : keeps (store_del_ref h);
  destroy_keeps t : keeps (hash_destroy t);
  zval_dtor_keeps z : keeps (zval_dtor z)
}.

Lemma keeps_Some : keeps Some.
Proof. intros s F HF. by exists s. Qed.
Lemma keeps_bind f g : keeps f -> keeps g -> keeps (fun s => s ← f s; g s).
Proof.
  intros Hf Hg s F HF. destruct (Hf s F HF) as (t & -> & HFt & E1 & E2 & Ho). destruct (Hg t F HFt) as (s' & E & ? & ? & ? & ?).
  exists s'. split; [done|]. split_and!; [done|congruence..|auto].
Qed.

Lemma garbage_words s s' F : garbage_ok s F -> (forall z, word s' (inl z) = word s (inl z)) ->
  (forall z v h, zvals s' !! z = Some v -> z_value v = IS_OBJECT h -> exists v0, zvals s !! z = Some v0 /\ z_value v0 = IS_OBJECT h) ->
  (forall m', object_buckets s' = Some m' -> exists m, object_buckets s = Some m /\ forall h, is_Some (m !! h) -> is_Some (m' !! h)) ->
  garbage_ok s' F.
Proof.
  intros [Hl Ho] Hw Hv Hm. split; [by eapply links_frame|]. intros z v h m Hz Hzv Hh Hm'.
  destruct (Hv _ _ _ Hzv Hh) as (v0 & ? & ?). destruct (Hm _ Hm') as (m0 & ? & Hdom). apply Hdom. by eapply Ho.
Qed.

Lemma set_type_keeps z s F : garbage_ok s F -> is_Some (zvals s !! z) ->
  exists s', upd_zval z (set_type IS_NULL) s = Some s' /\ garbage_ok s' F /\ gc s' = gc s /\ object_buckets s' = object_buckets s.
Proof.
  intros HF [v Hv]. unfold upd_zval. rewrite Hv. cbn [mbind option_bind]. eexists. split; [done|]. split_and!; [|done..].
  apply (garbage_words s); [done| | |].
  - intros y. simpl. rewrite lookup_insert. case_decide as E; [|done]. subst y. by rewrite Hv.
  - intros y u h. simpl. rewrite lookup_insert. case_decide; [by intros [= <-]|by eauto].
  - intros m' Hm'. by exists m'.
Qed.
Lemma upd_object_keeps h f s F : garbage_ok s F -> is_Some (object_at h s) ->
  exists s', upd_object h f s = Some s' /\ garbage_ok s' F /\ gc s' = gc s /\ zvals s' = zvals s
    /\ forall k, is_Some (object_at k s) -> is_Some (object_at k s').
Proof.
  unfold object_at, upd_object. intros HF [o Ho].
  destruct (object_buckets s) as [m|] eqn:Em; cbn [mbind option_bind] in Ho |- *; [|done]. rewrite Ho.
  cbn [mbind option_bind]. eexists. split; [done|]. simpl.
  assert (Hdom : forall k, is_Some (m !! k) -> is_Some (<[h := f o]> m !! k)).
  { intros k Hk. rewrite lookup_insert. case_decide; eauto. }
  split_and!; [|done..]. apply (garbage_words s); [done|done|by eauto|]. intros m' [= <-]. by exists m.
Qed.

Lemma links_at s F1 z F2 : links s (F1 ++ z :: F2) None -> exists v, zvals s !! z = Some v /\ z_u v = Word (NEXT (head F2)) GC_BLACK.
Proof.
  induction F1 as [|y F1 IH]; simpl.
  - intros [Hw _]. destruct (zvals s !! z) as [v|]; [|done]. exists v. split; [done|]. by destruct F2.
  - intros [_ Hl]. auto.
Qed.
Lemma garbage_at s F1 z F2 : garbage_ok s (F1 ++ z :: F2) -> is_Some (zvals s !! z) /\ u_next z s = Some (head F2).
Proof.
  intros [Hl _]. destruct (links_at _ _ _ _ Hl) as (v & Hv & Hw). unfold u_next, z_word. rewrite Hv. cbn [mbind option_bind].
  rewrite Hw. split; [by eexists|done].
Qed.

Section Laws.
Context `{GcCallbackLaws}.

Lemma upd_object_put h f s o : object_at h s = Some o -> upd_object h f s = Some (put_object h (f o) s).
Proof.
  unfold object_at, upd_object, put_object. destruct (object_buckets s) as [m|]; [|done]. cbn [mbind option_bind]. intros ->. done.
Qed.
Lemma object_at_put h o s : is_Some (object_buckets s) -> object_at h (put_object h o s) = Some o.
Proof. unfold object_at, put_object. intros [m ->]. simpl. by rewrite lookup_insert_eq. Qed.
Lemma put_put h o o' s : put_object h o' (put_object h o s) = put_object h o' s.
Proof. unfold put_object. destruct (object_buckets s) eqn:E; simpl; [|by rewrite E]. unfold with_objects. simpl. by rewrite insert_insert_eq. Qed.
Lemma unreferencedb o : o_valid o && (o_refcount o <=? 0) = true <-> unreferenced o.
Proof. by rewrite andb_true_iff, Z.leb_le. Qed.
Lemma destructor_dueb o :
  o_valid o && (o_refcount o <=? 0) && o_has_dtor o && negb (o_destructor_called o) = true <-> destructor_due o.
Proof. unfold destructor_due. rewrite <- unreferencedb, !andb_true_iff, negb_true_iff. tauto. Qed.

(** One turn of the first loop. *)
Lemma destructor_turn s F z n v : garbage_ok s F -> z ∈ F -> zvals s !! z = Some v ->
  exists s', match z_value v, object_buckets s with
      | IS_OBJECT h, Some m =>
          o ← m !! h;
          if o_valid o && (o_refcount o <=? 0) && o_has_dtor o && negb (o_destructor_called o) then
            s ← upd_object h set_dtor_called s;
            s ← upd_object h (on_refcount (fun n => to_uint (n + 1))) s;
            s ← object_dtor h s;
            upd_object h (on_refcount (fun n => to_uint (n - 1))) s
          else Some s
      | _, _ => Some s
      end = Some s' /\ destructor_step z n s s'
    /\ garbage_ok s' F /\ free_list (gc s') = free_list (gc s) /\ next_to_free (gc s') = next_to_free (gc s).
Proof.
  intros HF Hz Hv. destruct (z_value v) as [| |t|h] eqn:Ev; try by (exists s; split_and!; [|by eapply ds_no_object; [|intros k; rewrite Ev]|..]).
  destruct (object_buckets s) as [m|] eqn:Em; [|by (exists s; split_and!; [|by eapply ds_no_object|..])].
  destruct (gb_object _ _ HF z v h m Hz Hv Ev Em) as [o Ho]. rewrite Ho. cbn [mbind option_bind].
  assert (Eo : object_at h s = Some o) by (unfold object_at; by rewrite Em). pose proof (destructor_dueb o) as Hdue.
  case_match; [|by (exists s; split_and!; [|by eapply ds_object; [..|rewrite <- Hdue]|..])].
  assert (Hat : is_Some (object_at h s)) by by eexists.
  destruct (upd_object_keeps h set_dtor_called s F HF Hat) as (s1 & E1 & HF1 & G1 & _ & O1). rewrite E1. cbn [mbind option_bind].
  destruct (upd_object_keeps h (on_refcount (fun n => to_uint (n + 1))) s1 F HF1 (O1 h Hat)) as (s2 & E2 & HF2 & G2 & _ & O2). rewrite E2.
  cbn [mbind option_bind]. destruct (dtor_keeps h s2 F HF2) as (s3 & E3 & HF3 & A3 & B3 & O3). rewrite E3. cbn [mbind option_bind].
  destruct (upd_object_keeps h (on_refcount (fun n => to_uint (n - 1))) s3 F HF3) as (s4 & E4 & HF4 & G4 & _); [by auto|].
  exists s4. split_and!; [done| |done|congruence..]. apply proj1 in Hdue. specialize (Hdue eq_refl).
  eapply ds_call; [done..| |exact E4]. rewrite (upd_object_put _ _ _ _ Eo) in E1. injection E1 as <-.
  rewrite (upd_object_put _ _ _ _ (object_at_put _ _ _ ltac:(by eexists))), put_put in E2. injection E2 as <-.
  destruct Hdue as ((Ev1 & _) & Ev2 & _), o. simpl in Ev1, Ev2. subst. exact E3.
Qed.

Lemma garbage_destructors_ok F2 : forall F1 count s fuel, garbage_ok s (F1 ++ F2) -> (length F2 <= fuel)%nat ->
  exists s', destructors_loop fuel (head F2) count s = Some (s', count + Z.of_nat (length F2)) /\ turns destructor_step F2 s s'
    /\ garbage_ok s' (F1 ++ F2) /\ free_list (gc s') = free_list (gc s) /\ next_to_free (gc s') = next_to_free (gc s).
Proof.
  induction F2 as [|z F2 IH]; intros F1 count s fuel HF Hf.
  - exists s. split; [destruct fuel; simpl; by rewrite Z.add_0_r|]. split; [constructor|done].
  - destruct fuel as [|fuel]; simpl in Hf; [lia|]. cbn [destructors_loop head].
    destruct (garbage_at _ _ _ _ HF) as [[v Hv] _]. rewrite Hv. cbn [mbind option_bind].
    destruct (destructor_turn s _ z (head F2) v HF ltac:(set_solver +) Hv) as (s1 & E & Hst & HF1 & A1 & B1).
    cbn [mbind option_bind] in E. rewrite E.
    destruct (garbage_at _ _ _ _ HF1) as [_ Hn]. cbn [mbind option_bind]. rewrite Hn. cbn [mbind option_bind].
    rewrite cons_middle, app_assoc in HF1 |- *. destruct (IH _ (count + 1) s1 fuel HF1 ltac:(lia)) as (s' & -> & ? & ? & ? & ?).
    exists s'. split; [|split_and!; [by eapply turns_cons|done|congruence..]]. do 2 f_equal. simpl. lia.
Qed.

(** One turn of the second loop, [next_to_free] set. *)
Lemma destroy_turn s0 F z n v : let s := on_gc (set_next_to_free (Some n)) s0 in garbage_ok s F -> z ∈ F -> zvals s !! z = Some v ->
  exists s', match z_value v with
      | IS_OBJECT h =>
          match object_buckets s with
          | Some m =>
              o ← m !! h;
              if o_valid o && (o_refcount o <=? 0) then
                s ← upd_object h (on_refcount (fun _ => 1)) s;
                s ← upd_zval z (set_type IS_NULL) s;
                store_del_ref h s
              else Some s
          | None => Some s
          end
      | IS_ARRAY t => s ← upd_zval z (set_type IS_NULL) s; hash_destroy t s
      | _ => s ← zval_dtor z s; upd_zval z (set_type IS_NULL) s
      end = Some s' /\ destroy_step z n s0 s'
    /\ garbage_ok s' F /\ free_list (gc s') = free_list (gc s) /\ next_to_free (gc s') = next_to_free (gc s).
Proof.
  intros s HF Hz Hv.
  assert (Hscalar : z_value v = IS_NULL \/ z_value v = IS_SCALAR ->
    exists s', (s ← zval_dtor z s; upd_zval z (set_type IS_NULL) s) = Some s' /\ destroy_step z n s0 s'
    /\ garbage_ok s' F /\ free_list (gc s') = free_list (gc s) /\ next_to_free (gc s') = next_to_free (gc s)).
  { intros Hsc. destruct (zval_dtor_keeps z s F HF) as (s1 & E1 & HF1 & A1 & B1 & _). rewrite E1. cbn [mbind option_bind].
    apply list_elem_of_split in Hz as (F1 & F2 & ->). destruct (garbage_at _ _ _ _ HF1) as [Hz _].
    destruct (set_type_keeps z s1 _ HF1 Hz) as (s2 & E2 & HF2 & G2 & _). rewrite E2.
    exists s2. split_and!; [done|by eapply ys_scalar|done|congruence..]. }
  destruct (z_value v) as [| |t|h] eqn:Ev; [by apply Hscalar; left|by apply Hscalar; right| |].
  - destruct (set_type_keeps z s F HF ltac:(by eexists)) as (s1 & E1 & HF1 & G1 & _). rewrite E1. cbn [mbind option_bind].
    destruct (destroy_keeps t s1 F HF1) as (s2 & E2 & HF2 & A2 & B2 & _). rewrite E2.
    exists s2. split_and!; [done|by eapply ys_array|done|congruence..].
  - destruct (object_buckets s) as [m|] eqn:Em; [|by (exists s; split_and!; [|by eapply ys_no_object|..])].
    destruct (gb_object _ _ HF z v h m Hz Hv Ev Em) as [o Ho]. rewrite Ho. cbn [mbind option_bind].
    assert (Eo : object_at h s = Some o) by (unfold object_at; by rewrite Em). pose proof (unreferencedb o) as Hun.
    case_match; [|by (exists s; split_and!; [|by eapply ys_kept; [..|rewrite <- Hun]|..])].
    destruct (upd_object_keeps h (on_refcount (fun _ => 1)) s F HF ltac:(by eexists)) as (s1 & E1 & HF1 & G1 & Z1 & O1).
    rewrite E1. cbn [mbind option_bind].
    destruct (set_type_keeps z s1 F HF1 ltac:(rewrite Z1; by eexists)) as (s2 & E2 & HF2 & G2 & _). rewrite E2. cbn [mbind option_bind].
    destruct (del_ref_keeps h s2 F HF2) as (s3 & E3 & HF3 & A3 & B3 & _). rewrite E3.
    exists s3. split_and!; [done| |done|congruence..].
    rewrite (upd_object_put _ _ _ _ Eo) in E1. injection E1 as <-. eapply ys_object; [done..|by apply Hun|exact E2|exact E3].
Qed.

Lemma garbage_destroy_ok F2 : forall F1 s fuel, garbage_ok s (F1 ++ F2) -> (length F2 <= fuel)%nat ->
  exists s', destroy_loop fuel (head F2) s = Some s' /\ turns destroy_step F2 s s' /\ garbage_ok s' (F1 ++ F2)
    /\ free_list (gc s') = free_list (gc s).
Proof.
  induction F2 as [|z F2 IH]; intros F1 s fuel HF Hf.
  - exists s. split; [by destruct fuel|]. split; [constructor|done].
  - destruct fuel as [|fuel]; simpl in Hf; [lia|]. cbn [destroy_loop head].
    destruct (garbage_at _ _ _ _ HF) as [[v Hv] ->]. cbn [mbind option_bind].
    assert (HFt : garbage_ok (on_gc (set_next_to_free (Some (head F2))) s) (F1 ++ z :: F2))
      by (apply (garbage_words s); [done|done|by eauto|]; intros m Hm; by exists m).
    destruct (destroy_turn s _ z (head F2) v HFt ltac:(set_solver +) Hv) as (s1 & E & Hst & HF1 & A1 & B1).
    set (t := on_gc (set_next_to_free (Some (head F2))) s) in *. change (zvals t !! z) with (zvals s !! z). rewrite Hv.
    cbn [mbind option_bind] in E |- *. rewrite E. cbn [mbind option_bind]. simpl in B1. rewrite B1. cbn [mbind option_bind].
    rewrite cons_middle, app_assoc in HF1 |- *. destruct (IH _ s1 fuel HF1 ltac:(lia)) as (s' & -> & ? & ? & E').
    exists s'. split_and!; [done|by eapply turns_cons|done|]. by rewrite E'.
Qed.
End Laws.

Lemma garbage_free_ok F : forall s fuel, links s F None -> NoDup F -> (length F <= fuel)%nat ->
  exists s', free_loop fuel (head F) s = Some s' /\ gc s' = gc s
    /\ (tables s' = tables s /\ symbol_table s' = symbol_table s /\ object_buckets s' = object_buckets s)
    /\ (forall z, zvals s' !! z = if decide (z ∈ F) then None else zvals s !! z).
Proof.
  induction F as [|z F IH]; intros s fuel HF Hnd Hf.
  - exists s. by destruct fuel.
  - destruct fuel as [|fuel]; simpl in Hf; [lia|]. cbn [free_loop head]. apply NoDup_cons in Hnd as [Hz Hnd].
    destruct (links_at s [] z F HF) as (v & Hv & Hw). unfold u_next, z_word. rewrite Hv. cbn [mbind option_bind]. rewrite Hw.
    cbn [w_address mbind option_bind]. set (t := with_zvals _ s). destruct HF as [_ HF]. destruct (IH t fuel) as (s' & -> & Hg & Hrest & Hzv); [|done|lia|].
    { eapply links_frame; [done|]. intros y Hy. simpl. by rewrite lookup_delete_ne by (by intros ->). }
    exists s'. split; [done|]. split; [done|]. split; [done|]. intros y. rewrite Hzv. simpl.
    destruct (decide (y = z)) as [->|Hne].
    + rewrite lookup_delete_eq, (decide_True (P := z ∈ z :: F)) by (by left). by case_decide.
    + rewrite lookup_delete_ne by done. destruct (decide (y ∈ F)) as [Hy|Hy].
      * by rewrite decide_True by (by right).
      * rewrite decide_False; [done|]. by intros [->|?]%elem_of_cons.
Qed.

(** ** The whole run *)
Lemma ready_on_gc s g L : gc_ready s L -> buf g = buf (gc s) -> roots_next g = roots_next (gc s) ->
  roots_prev g = roots_prev (gc s) -> gc_ready (on_gc (fun _ => g) s) L.
Proof.
  intros [Hg Hc Hcol [Hgr [Hnd Hlk Hh Ht] _ Hn Ha]] Hb Hrn Hrp. destruct (on_gc_view (fun _ => g) s) as (_ & Hw & Hcnt).
  split; [done|by intros n; rewrite Hcnt|by intros n; rewrite Hw|].
  split; [done| |done| |]; simpl; rewrite ?Hb; [by split; simpl; rewrite ?Hb, ?Hrn, ?Hrp| |].
  - intros r Hr. unfold adr. rewrite Hw. by apply Hn.
  - intros n Hn'. unfold adr. rewrite Hw. by apply Ha.
Qed.
Lemma garbage_on_gc s g L F : buf g = buf (gc s) -> garbage_list (on_gc (fun _ => g) s) L F -> garbage_list s L F.
Proof.
  intros Hb. destruct (on_gc_view (fun _ => g) s) as (_ & Hw & Hcnt).
  assert (Hcand : forall n, candidate (on_gc (fun _ => g) s) L n <-> candidate s L n).
  { intros n. unfold candidate. simpl. rewrite Hb. by setoid_rewrite Hw. }
  intros [Hnd HF]. split; [done|]. intros z. rewrite HF, Hcand. unfold external. change (graph_of (on_gc (fun _ => g) s)) with (graph_of s).
  split; (intros [HC HA]; split; [done|]; intros a Ha; apply HA); [rewrite Hcand, Hcnt|rewrite Hcand, Hcnt in Ha]; done.
Qed.
Lemma garbage_length s F : garbage_ok s F -> NoDup F -> (length F <= size (zvals s))%nat.
Proof.
  intros HF Hnd. rewrite <- size_dom, <- (size_list_to_set (C := gset addr) F) by done.
  apply subseteq_size. intros z Hz%elem_of_list_to_set. apply elem_of_dom.
  apply list_elem_of_split in Hz as (F1 & F2 & ->). by apply (garbage_at s F1 z F2).
Qed.

(** The garbage that was found is a list the loops can run over. *)
Lemma found_garbage_ok s s' F g : graph_ok (graph_of s) -> graph_of s' = graph_of s -> links s' F None ->
  garbage_ok (on_gc g s') F.
Proof.
  intros Hg Hgr Hl. split.
  - eapply links_frame; [done|]. by intros z _; apply on_gc_view.
  - intros z v h m Hz Hv Hh Hm. simpl in *. rewrite <- Hgr in Hg.
    destruct (go_object _ Hg z h (reported <$> m)) as [l E].
    + by rewrite (lookup_value s' z v Hv), Hh.
    + simpl. by rewrite Hm.
    + rewrite lookup_fmap in E. by destruct (m !! h).
Qed.

Lemma collect_cycles_ok `{GcCallbackLaws} (s : gc_state) (L : list addr) :
  gc_ready s L -> gc_active (gc s) = false ->
  exists s' F, gc_collect_cycles s = Some (s', Z.of_nat (length F)) /\ garbage_list s L F
    /\ (forall z, z ∈ F -> zvals s' !! z = None)
    /\ free_list (gc s') = free_list (gc s) /\ next_to_free (gc s') = next_to_free (gc s)
    /\ (roots_next (gc s) = None /\ s' = s /\ F = []
        \/ exists s1 s2 s3, find_garbage (run_started s) = Some s1 /\ links s1 F None
             /\ turns destructor_step F (list_taken F s1) s2 /\ turns destroy_step F s2 s3 /\ run_ended s F s3 s').
Proof.
  intros R Hact. pose proof (lo_head _ _ (bo_links _ _ _ _ _ (gr_buffer _ _ R))) as Hhead.
  unfold gc_collect_cycles. destruct (roots_next (gc s)) as [r0|] eqn:Hr0.
  2:{ exists s, []. split_and!; [done| |by intros z ?%not_elem_of_nil|done..|by left]. split; [constructor|].
      intros z. split; [by intros ?%not_elem_of_nil|]. intros [(r & Hr & _) _]. destruct L; [by apply not_elem_of_nil in Hr|done]. }
  rewrite Hact. change (on_gc (set_active true) _) with (run_started s). cbv zeta.
  assert (Rt : gc_ready (run_started s) L) by (by apply (ready_on_gc s (gc (run_started s)))).
  destruct (find_garbage_ok (run_started s) L Rt eq_refl) as (s1 & F & E & Hgr & Hz & Hl & HF & _).
  rewrite E. pose proof (find_garbage_aside _ _ E) as Ha. cbn [mbind option_bind gc on_gc set_zval_to_free set_free_list set_active zval_to_free].
  assert (Efirst : first F None = head F) by (by destruct F). rewrite Hz, Efirst.
  change (on_gc (set_active false) _) with (list_taken F s1). cbn [mbind option_bind].
  assert (HF1 : garbage_ok (list_taken F s1) F) by exact (found_garbage_ok s s1 F _ (gr_graph _ _ R) Hgr Hl).
  assert (Hlen : (length F <= S (size (zvals s)))%nat).
  { pose proof (garbage_length _ F HF1 (proj1 HF)) as Hle. change (zvals (list_taken F s1)) with (zvals s1) in Hle.
    assert (size (zvals s1) = size (zvals s)); [|lia].
    rewrite <- (map_size_fmap z_value), <- (map_size_fmap z_value (zvals s)). f_equal. by injection Hgr. }
  set (fuel := S (size (zvals s))) in *. clearbody fuel.
  destruct (garbage_destructors_ok F [] 0 (list_taken F s1) fuel HF1 Hlen) as (t2 & -> & T2 & HF2 & Hfl2 & _).
  cbn [mbind option_bind]. rewrite Hfl2. change (free_list (gc (list_taken F s1))) with (Some (head F)). cbn [mbind option_bind].
  destruct (garbage_destroy_ok F [] t2 fuel HF2 Hlen) as (t3 & -> & T3 & HF3 & Hfl3).
  cbn [mbind option_bind]. rewrite Hfl3, Hfl2. change (free_list (gc (list_taken F s1))) with (Some (head F)). cbn [mbind option_bind].
  destruct (garbage_free_ok F t3 fuel (gb_links _ _ HF3) (proj1 HF) Hlen) as (t4 & -> & Hg4 & (Ht4 & Hst4 & Ho4) & Hzv).
  cbn [mbind option_bind]. eexists _, F. split; [reflexivity|]. injection Ha as _ _ Hfl Hnf _ _.
  split_and!; [by apply (garbage_on_gc s (gc (run_started s)))|by intros z Hz'; simpl; rewrite Hzv, decide_True|done|done|].
  right. exists s1, t2, t3. split_and!; [done..|]. split_and!; [done..|]. simpl. by rewrite Hg4, Hfl, Hnf.
Qed.
Lemma gc_collect_cycles_ok `{GcCallbackLaws} s L : gc_ready s L -> gc_active (gc s) = false ->
  exists t k, gc_collect_cycles s = Some (t, k).
Proof. intros R Ha. destruct (collect_cycles_ok s L R Ha) as (t & F & E & _). by eexists _, _. Qed.

(** C2: a whole run of the collector.  [gc_collect_cycles], called when no run is
    at its first part, returns the number of garbage values, whatever the
    destructors and the rest of the code it calls do as long as they leave the list
    to free alone.  Exactly the values that can be reached from a purple root and
    from nothing outside are on that list.  In its order, the destructor of every
    object without references that has one not called before is called, once, with
    the object marked and a reference held; then, in the same order, every object
    still without references is given up, every array and every other value
    destroyed, [next_to_free] standing at the value after it; then each value of
    the list is freed.  Nothing else is called or written: [free_list] and
    [next_to_free] are afterwards what they were. *)
Theorem gc_collect_cycles_frees `{GcCallbackLaws} (s : gc_state) (L : list addr) :
  gc_ready s L -> gc_active (gc s) = false ->
  exists s' F, gc_collect_cycles s = Some (s', Z.of_nat (length F)) /\ garbage_list s L F
    /\ (forall z, z ∈ F -> zvals s' !! z = None)
    /\ free_list (gc s') = free_list (gc s) /\ next_to_free (gc s') = next_to_free (gc s)
    /\ (roots_next (gc s) = None /\ s' = s /\ F = []
        \/ exists s1 s2 s3, find_garbage (run_started s) = Some s1 /\ links s1 F None
             /\ turns destructor_step F (list_taken F s1) s2 /\ turns destroy_step F s2 s3 /\ run_ended s F s3 s').
Proof. apply collect_cycles_ok. Qed.
