(* ===== verification/GCBufferThms.v ===== *)
(** * GCBufferThms: the buffer of possible roots is kept in order

    [gc_zval_possible_root] and [gc_zobj_possible_root] put a value or an object
    into the buffer, [gc_remove_zval_from_buffer] takes one out; the state stays
    one in which a run of the collector can start. *)
From S2P Require Import Prelude DList GC GCGraph GCFlood GCScan GCCollect GCRoots GCThms GCCycleThms.

Section Adding.
Context `{GcCallbacks}.

Lemma ready_added s s' L r u n : gc_ready s L -> graph_of s' = graph_of s ->
  (forall m, word s' m = if decide (m = n) then Word (ROOT r) GC_PURPLE else word s m) ->
  (forall m, cnt s' m = cnt s m) -> links_ok (gc s') (r :: L) ->
  r_u <$> buf (gc s') = <[r := u]> (r_u <$> buf (gc s)) -> root_node u = n -> present (graph_of s) n ->
  adr s n = NULL -> r ∉ L -> gc_ready s' (r :: L).
Proof.
  intros [Hg Hc Hcol B] Hgr Hw Hcnt Hl Hu Hn Hp Hadr Hr.
  assert (Hnode : forall q, q ∈ L -> rnode (r_u <$> buf (gc s')) q = rnode (r_u <$> buf (gc s)) q).
  { intros q Hq. unfold rnode. rewrite Hu, lookup_insert_ne; [done|]. by intros ->. }
  assert (Hrn : rnode (r_u <$> buf (gc s')) r = n) by (unfold rnode; by rewrite Hu, lookup_insert_eq).
  split.
  - by rewrite Hgr.
  - intros m. rewrite Hgr, Hcnt. apply Hc.
  - intros m. rewrite Hw. case_decide; [done|apply Hcol].
  - split; [done|done|done| |].
    + intros q [->|Hq]%elem_of_cons; unfold adr.
      * rewrite Hrn, Hw, decide_True, Hgr by done. done.
      * rewrite Hnode, Hgr by done. destruct (bo_named _ _ _ _ _ B q Hq) as [Hpq Haq]. split; [done|].
        rewrite Hw, decide_False; [done|]. intros E. by rewrite E, Hadr in Haq.
    + intros m _. unfold adr. rewrite Hw. destruct (decide (m = n)) as [->|Hne].
      * right. exists r. split; [by left|done].
      * destruct (bo_adr _ _ _ _ _ B m ltac:(apply not_elem_of_nil)) as [|(q & Hq & Hqm & ?)]; [by left|right].
        exists q. rewrite Hnode by done. split; [by right|done].
Qed.

Lemma pool_added g g' L r u Us f l : r ∉ L ++ Us -> NoDup L ->
  r_u <$> buf g' = <[r := u]> (r_u <$> buf g) -> rest g' = rest g -> unused g' = unused g ->
  r_prev <$> buf g' = opt_insert (head L) (Some r) (<[r := None]> (r_prev <$> buf g)) ->
  is_Some (buf g !! r) -> threaded (r_prev <$> buf g) Us -> unused g = head Us -> NoDup (L ++ Us) ->
  first_unused g = Some f -> last_unused g = Some l -> (f <= l)%positive ->
  (forall p, p ∈ r :: L ++ Us <-> (p < f)%positive) -> (forall p, (p < l)%positive -> is_Some (buf g !! p)) ->
  pool_ok g' (r :: L) Us.
Proof.
  intros Hr HL Hu Hrest Hun Hprev Hcell Hth Hh Hnd Hf Hl Hfl Hp Hc. split.
  - eapply threaded_frame; [done|]. intros q Hq. rewrite Hprev, lookup_opt_insert, decide_False, lookup_insert_ne; [done| |].
    + intros ->. apply Hr, elem_of_app. by right.
    + intros Hq'%head_Some_elem_of. apply NoDup_app in Hnd as (_ & Hdis & _). by apply (Hdis q).
  - congruence.
  - simpl. by constructor.
  - unfold rest in Hrest. exists f, l. split_and!; [congruence|congruence|done|done|].
    intros p Hpl%Hc. destruct (decide (p = r)) as [->|Hne].
    + rewrite <- (fmap_is_Some r_u), <- lookup_fmap, Hu, lookup_insert_eq. eauto.
    + rewrite <- (fmap_is_Some r_u), <- lookup_fmap, Hu, lookup_insert_ne, lookup_fmap, fmap_is_Some by done. done.
Qed.

(** A new root [n]: the colour, the entry, the address. *)
Lemma add_root s L Us n u zv f1 f2 : gc_ready s L -> pool_ok (gc s) L Us ->
  Us <> [] \/ first_unused (gc s) <> last_unused (gc s) -> root_node u = n -> present (graph_of s) n -> adr s n = NULL ->
  (forall t, present (graph_of t) n -> exists t', f1 t = Some t' /\ same t t'
    /\ (forall m, word t' m = if decide (m = n) then GC_SET_COLOR GC_PURPLE (word t m) else word t m)
    /\ forall m, cnt t' m = cnt t m) ->
  (forall r t, present (graph_of t) n -> exists t', f2 r t = Some t' /\ same t t'
    /\ (forall m, word t' m = if decide (m = n) then GC_SET_ADDRESS (ROOT r) (word t m) else word t m)
    /\ forall m, cnt t' m = cnt t m) ->
  exists s' r Us', ('(s, newRoot) ← new_root zv s;
      match newRoot with
      | None => Some s
      | Some r => s ← f1 s; s ← link_root r u s; f2 r s
      end) = Some s'
    /\ gc_ready s' (r :: L) /\ pool_ok (gc s') (r :: L) Us' /\ graph_of s' = graph_of s
    /\ (forall m, word s' m = if decide (m = n) then Word (ROOT r) GC_PURPLE else word s m)
    /\ forall m, cnt s' m = cnt s m.
Proof.
  intros R P Hfree Hn Hp Ha Hf1 Hf2. pose proof (bo_links _ _ _ _ _ (gr_buffer _ _ R)) as Hl.
  destruct (new_root_ok zv s L Us Hl P Hfree)
    as (r & g & Us' & -> & Hbuf & Hlg & Hr & Hcell & Hzf & Hfl & Hth & Hun & Hnd & f & l & Hf & Hla & Hle & Hp' & Hc).
  cbn [mbind option_bind]. destruct (on_gc_view (fun _ => g) s) as (Hg0 & Hw0 & Hc0).
  destruct (Hf1 (on_gc (fun _ => g) s)) as (t1 & -> & [Hg1 Hgc1] & Hw1 & Hc1); [congruence|].
  cbn [mbind option_bind]. assert (HrL : r ∉ L) by (intros ?; apply Hr, elem_of_app; by left).
  destruct (link_root_ok r u t1 L) as (g2 & -> & Hl2 & Hu2 & Hrest2 & Hun2 & Hpv2); [by rewrite Hgc1|done|by rewrite Hgc1|].
  cbn [mbind option_bind]. destruct (on_gc_view (fun _ => g2) t1) as (Hg2 & Hw2 & Hc2).
  destruct (Hf2 r (on_gc (fun _ => g2) t1)) as (s' & -> & [Hg3 Hgc3] & Hw3 & Hc3); [congruence|].
  rewrite Hgc1 in Hu2, Hrest2, Hun2, Hpv2. simpl in *.
  assert (Hw : forall m, word s' m = if decide (m = n) then Word (ROOT r) GC_PURPLE else word s m).
  { intros m. rewrite Hw3, Hw2, Hw1, Hw0. by case_decide. }
  assert (Hcnt : forall m, cnt s' m = cnt s m) by (intros m; by rewrite Hc3, Hc2, Hc1, Hc0).
  exists s', r, Us'. split; [done|]. rewrite Hgc3. simpl. split_and!; [| |congruence|done|done].
  - eapply (ready_added s s' L r u n); try done; [congruence|by rewrite Hgc3|]. rewrite Hgc3. simpl. by rewrite Hu2, Hbuf.
  - eapply (pool_added g g2 L r u Us' f l); try done. apply Hlg.
Qed.
End Adding.

(** ** Possible roots *)
Section Possible.
Context `{GcCallbackLaws}.

(** What a value is buffered as: itself, or the object it refers to, if that is
    valid and has a [get_gc] handler. *)
Definition target (s : gc_state) (zv : addr) (v : zval) : option node :=
  match z_value v with
  | IS_OBJECT h =>
      o ← object_at h s;
      if o_valid o then match o_get_gc o with Some _ => Some (inr h) | None => None end else None
  | _ => Some (inl zv)
  end.

(** The call returned [s'], in which [n] is a root and nothing else changed. *)
Definition buffered_as (s : gc_state) (L : list addr) (n : node) (s' : gc_state) : Prop :=
  exists r Us', gc_ready s' (r :: L) /\ pool_ok (gc s') (r :: L) Us' /\ graph_of s' = graph_of s
    /\ (forall m, word s' m = if decide (m = n) then Word (ROOT r) GC_PURPLE else word s m)
    /\ forall m, cnt s' m = cnt s m.

(** The run for which [zv] is held, by one more reference, returned [t]; with the
    reference given back, [w] is a state that is in order and in which [n] is still
    to be buffered: then it is, or, when the run has given no entry back, [w] is
    returned. *)
Definition buffered_after_run (s : gc_state) (zv : addr) (n : node) (res : option gc_state) : Prop :=
  exists u t k, upd_zval zv (on_count (fun c => to_uint (c + 1))) s = Some u /\ gc_collect_cycles u = Some (t, k)
    /\ forall w L Us, upd_zval zv (on_count (fun c => to_uint (c - 1))) t = Some w -> gc_ready w L -> pool_ok (gc w) L Us ->
         present (graph_of w) n -> adr w n = NULL ->
         if decide (Us = []) then res = Some w else exists s', res = Some s' /\ buffered_as w L n s'.

(** What [gc_zval_possible_root] does with the target. *)
Definition possible_root_of (s : gc_state) (L Us : list addr) (zv : addr) (n : node) (res : option gc_state) : Prop :=
  if decide (w_color (word s n) = GC_PURPLE \/ adr s n <> NULL) then res = Some s
  else if decide (Us = [] /\ first_unused (gc s) = last_unused (gc s)) then
    if gc_enabled (gc s) then
      gc_active (gc s) = false -> cnt s (inl zv) < 2 ^ 32 - 2 -> buffered_after_run s zv n res
    else res = Some s
  else exists s', res = Some s' /\ buffered_as s L n s'.

Lemma new_root_full zv s L : pool_ok (gc s) L [] -> first_unused (gc s) = last_unused (gc s) ->
  gc_enabled (gc s) = false -> new_root zv s = Some (s, None).
Proof. intros P Hf He. unfold new_root. by rewrite (po_head _ _ _ P), He, decide_False by auto. Qed.

(** One more reference to a value. *)
Lemma held_ready s L zv v : gc_ready s L -> zvals s !! zv = Some v -> cnt s (inl zv) < 2 ^ 32 - 2 ->
  exists u, upd_zval zv (on_count (fun c => to_uint (c + 1))) s = Some u /\ gc_ready u L /\ gc u = gc s.
Proof.
  intros [Hg Hc Hcol [_ Hlk _ Hn Ha]] Hv Hlt. unfold upd_zval. rewrite Hv. cbn [mbind option_bind].
  set (u := with_zvals _ s). exists u. split; [done|]. split; [|done].
  assert (Hgr : graph_of u = graph_of s).
  { unfold graph_of. f_equal. simpl. apply map_eq. intros y. rewrite !lookup_fmap, lookup_insert. case_decide as E; [|done].
    subst y. by rewrite Hv. }
  assert (Hw : forall m, word u m = word s m).
  { intros [y|h]; [|done]. simpl. rewrite lookup_insert. case_decide as E; [|done]. subst y. by rewrite Hv. }
  assert (Hcu : forall m, cnt u m = cnt s m + (if decide (m = inl zv) then 1 else 0)).
  { intros [y|h]; [|rewrite decide_False by done; apply eq_sym, Z.add_0_r]. simpl. rewrite lookup_insert. case_decide as E.
    - subst y. rewrite decide_True by done. rewrite Hv. simpl. specialize (Hc (inl zv)). simpl in Hc. rewrite Hv in Hc.
      pose proof (edges_nonneg (graph_of s) (all_nodes (graph_of s)) (inl zv)).
      apply to_uint_small. lia.
    - rewrite decide_False by congruence. by rewrite Z.add_0_r. }
  split.
  - by rewrite Hgr.
  - intros m. rewrite Hgr, Hcu. specialize (Hc m). case_decide; [subst m|]; lia.
  - intros m. by rewrite Hw.
  - split; [done|done|done| |].
    + intros r Hr. unfold adr. rewrite Hw, Hgr. by apply Hn.
    + intros m Hm. unfold adr. rewrite Hw. by apply Ha.
Qed.
(** In a full buffer the entry is one that the run gives back. *)
Lemma new_root_run zv s L u t k w : pool_ok (gc s) L [] -> first_unused (gc s) = last_unused (gc s) -> gc_enabled (gc s) = true ->
  upd_zval zv (on_count (fun c => to_uint (c + 1))) s = Some u -> gc_collect_cycles u = Some (t, k) ->
  upd_zval zv (on_count (fun c => to_uint (c - 1))) t = Some w ->
  new_root zv s = match unused (gc w) with Some _ => new_root zv w | None => Some (w, None) end.
Proof.
  intros P Hf He Eu Et Ew. unfold new_root at 1. rewrite (po_head _ _ _ P), He, decide_False by auto. cbn [negb]. simpl head.
  rewrite Eu. cbn [mbind option_bind]. rewrite Et. cbn [mbind option_bind]. rewrite Ew. cbn [mbind option_bind].
  unfold new_root. by destruct (unused (gc w)).
Qed.

(** The common part of [gc_zval_possible_root] and [gc_zobj_possible_root]. *)
Lemma possible_root_ok s L Us n u zv f1 f2 : gc_ready s L -> pool_ok (gc s) L Us -> root_node u = n ->
  present (graph_of s) n -> is_Some (zvals s !! zv) ->
  (forall t, present (graph_of t) n -> exists t', f1 t = Some t' /\ same t t'
    /\ (forall m, word t' m = if decide (m = n) then GC_SET_COLOR GC_PURPLE (word t m) else word t m)
    /\ forall m, cnt t' m = cnt t m) ->
  (forall r t, present (graph_of t) n -> exists t', f2 r t = Some t' /\ same t t'
    /\ (forall m, word t' m = if decide (m = n) then GC_SET_ADDRESS (ROOT r) (word t m) else word t m)
    /\ forall m, cnt t' m = cnt t m) ->
  possible_root_of s L Us zv n
    (if decide (w_color (word s n) = GC_PURPLE) then Some s
     else if decide (adr s n = NULL) then
       '(s, newRoot) ← new_root zv s;
       match newRoot with
       | None => Some s
       | Some r => s ← f1 s; s ← link_root r u s; f2 r s
       end
     else Some s).
Proof.
  intros R P Hn Hp [v Hv] Hf1 Hf2. unfold possible_root_of.
  destruct (decide (w_color (word s n) = GC_PURPLE)) as [Hc|Hc]; [by rewrite decide_True by auto|].
  destruct (decide (adr s n = NULL)) as [Ha|Ha]; [|by rewrite decide_True by auto].
  rewrite decide_False by tauto. case_decide as Hfull.
  - destruct Hfull as [-> Hf]. destruct (gc_enabled (gc s)) eqn:He; [|by rewrite (new_root_full zv s L)].
    intros Hact Hlt. destruct (held_ready s L zv v R Hv Hlt) as (s1 & E1 & R1 & G1).
    destruct (gc_collect_cycles_ok s1 L R1 ltac:(by rewrite G1)) as (t & k & Et).
    exists s1, t, k. split; [done|]. split; [done|]. intros w L1 Us1 Ew Rw Pw Hpw Haw.
    rewrite (new_root_run zv s L s1 t k w P Hf He E1 Et Ew). case_decide as HU.
    + subst Us1. by rewrite (po_head _ _ _ Pw).
    + assert (is_Some (unused (gc w))) as [r0 Er0] by (rewrite (po_head _ _ _ Pw); destruct Us1; [done|by eexists]). rewrite Er0.
      destruct (add_root w L1 Us1 n u zv f1 f2) as (s' & r & Us' & E & Hb); try done; [by left|].
      exists s'. split; [exact E|]. by exists r, Us'.
  - destruct (add_root s L Us n u zv f1 f2) as (s' & r & Us' & E & Hb); try done.
    { destruct (decide (Us = [])); [right|by left]. tauto. }
    exists s'. split; [exact E|]. by exists r, Us'.
Qed.

Lemma gc_zobj_possible_root_ok zv h s L Us m o : gc_ready s L -> pool_ok (gc s) L Us -> is_Some (zvals s !! zv) ->
  object_buckets s = Some m -> m !! h = Some o ->
  match o_get_gc o with
  | Some _ => possible_root_of s L Us zv (inr h) (gc_zobj_possible_root zv h s)
  | None => gc_zobj_possible_root zv h s = Some s
  end.
Proof.
  intros R P Hz Hm Ho. unfold gc_zobj_possible_root. rewrite Hm, Ho. cbn [mbind option_bind].
  assert (Hat : object_at h s = Some o) by (unfold object_at; rewrite Hm; done).
  destruct (o_get_gc o) as [x|]; [|done].
  rewrite <- (proj1 (word_object s h o Hat)). change (w_address (word s (inr h))) with (adr s (inr h)).
  apply (possible_root_ok s L Us (inr h) (ROOT_OBJECT h) zv); try done.
  - rewrite present_object. by eexists.
  - intros t Ht. by apply (object_word_ok h (GC_SET_COLOR GC_PURPLE)).
  - intros r t Ht. by apply (object_word_ok h (GC_SET_ADDRESS (ROOT r))).
Qed.

(** C24: buffering a possible root.  [gc_zval_possible_root] leaves everything as
    it is for a value that a run is about to free.  In a state in which a run can
    start it leaves everything as it is when the value needs no entry (an object
    that is gone or has no [get_gc] handler, a value or object that is purple or has
    an entry already), or when the buffer is full and the collector switched off.
    When there is an entry to be had it colours exactly the value, or the object it
    refers to, purple, makes it point to an entry that was not in use, puts that in
    front of the list of roots, and leaves a state in which a run can start and in
    which no entry of the buffer has been lost.  When the buffer is full, the
    collector switched on and no run at its first part, a run is made while one more
    reference to the value (which has less than 2^32 - 2) is held, and the value is
    buffered after it in the same way if the run has given an entry back, as long as
    the code that the run called has left a state in order in which the value has no
    entry yet. *)
Theorem gc_possible_root_buffered (s : gc_state) (zv : addr) (v : zval) : zvals s !! zv = Some v ->
  (forall n, z_u v = Word (NEXT n) GC_BLACK -> free_list (gc s) <> None -> gc_zval_possible_root zv s = Some s)
  /\ forall L Us, gc_ready s L -> pool_ok (gc s) L Us ->
       match target s zv v with
       | None => gc_zval_possible_root zv s = Some s
       | Some n => possible_root_of s L Us zv n (gc_zval_possible_root zv s)
       end.
Proof.
  intros Hv. unfold gc_zval_possible_root. rewrite Hv. cbn [mbind option_bind]. split.
  { intros n Hw Hfl. unfold being_freed. rewrite Hw. simpl. by rewrite !bool_decide_eq_true_2 by done. }
  intros L Us R P.
  assert (bool_decide (w_address (z_u v) <> NULL) && being_freed s (z_u v) = false) as ->.
  { pose proof (bo_adr _ _ _ _ _ (gr_buffer _ _ R) (inl zv) ltac:(apply not_elem_of_nil)) as Ha. unfold adr in Ha. simpl in Ha. rewrite Hv in Ha.
    unfold being_freed. destruct Ha as [-> | (r & _ & _ & ->)]; [done|apply andb_false_r || by rewrite andb_false_r, andb_false_r]. }
  unfold target, object_at.
  assert (Hval : possible_root_of s L Us zv (inl zv)
    (if decide (w_color (z_u v) = GC_PURPLE) then Some s
     else if decide (w_address (z_u v) = NULL) then
       '(s, newRoot) ← new_root zv s;
       match newRoot with
       | None => Some s
       | Some r => s ← GC_ZVAL_SET_COLOR zv GC_PURPLE s; s ← link_root r (ROOT_ZVAL zv) s; GC_ZVAL_SET_ADDRESS zv (ROOT r) s
       end
     else Some s)).
  { rewrite <- (proj1 (word_zval s zv v Hv)). change (w_address (word s (inl zv))) with (adr s (inl zv)).
    apply (possible_root_ok s L Us (inl zv) (ROOT_ZVAL zv) zv); try done.
    - rewrite present_zval. by eexists.
    - intros t Ht. by apply (zval_word_ok zv (GC_SET_COLOR GC_PURPLE)).
    - intros r t Ht. by apply (zval_word_ok zv (GC_SET_ADDRESS (ROOT r))). }
  destruct (z_value v) as [| |t|h] eqn:Ev; try exact Hval.
  destruct (object_buckets s) as [m|] eqn:Hm; simpl; [|done].
  destruct (go_object _ (gr_graph _ _ R) zv h (reported <$> m)) as [l Hl].
  { by rewrite (lookup_value s zv v Hv), Ev. } { unfold graph_of; simpl. by rewrite Hm. }
  rewrite lookup_fmap in Hl. destruct (m !! h) as [o|] eqn:Ho; [|done]. cbn [mbind option_bind].
  destruct (o_valid o); [|done].
  pose proof (gc_zobj_possible_root_ok zv h s L Us m o R P ltac:(by eexists) Hm Ho) as Hz. by destruct (o_get_gc o).
Qed.
End Possible.

(** ** Removing a root *)
Lemma pool_removed g g' L1 r L2 Us : NoDup (L1 ++ r :: L2) -> pool_ok g (L1 ++ r :: L2) Us ->
  r_u <$> buf g' = r_u <$> buf g -> rest g' = rest g -> unused g' = Some r ->
  r_prev <$> buf g' = <[r := unused g]> (opt_insert (head L2) (last L1) (r_prev <$> buf g)) ->
  pool_ok g' (L1 ++ L2) (r :: Us).
Proof.
  intros HL [Hth Hh Hnd (f & l & Hf & Hl & Hfl & Hp & Hc)] Hu Hrest Hun Hpv.
  pose proof Hnd as (_ & Hdis & _)%NoDup_app.
  assert (HrU : r ∉ Us) by (apply Hdis; set_solver +).
  assert (Hperm : (L1 ++ L2) ++ r :: Us ≡ₚ (L1 ++ r :: L2) ++ Us)
    by (by rewrite <- (Permutation_middle L1), <- (Permutation_middle (L1 ++ L2))).
  split.
  - rewrite Hpv, Hh. split; [by rewrite lookup_insert_eq|]. eapply threaded_frame; [done|]. intros q Hq.
    rewrite lookup_insert_ne by (by intros ->). rewrite lookup_opt_insert, decide_False; [done|].
    intros Hq'%head_Some_elem_of. apply (Hdis q); [set_solver +Hq'|done].
  - done.
  - by rewrite Hperm.
  - unfold rest in Hrest. exists f, l. split_and!; [congruence..|done| |].
    + intros p. by rewrite Hperm.
    + intros p Hpl%Hc. by apply (cell_of_next (buf g)).
Qed.

(** The call returned [s'], in which the entry [r] of [n] is not used any more. *)
Definition removed (s : gc_state) (L1 : list addr) (r : addr) (L2 Us : list addr) (n : node) (s' : gc_state) : Prop :=
  gc_ready s' (L1 ++ L2) /\ pool_ok (gc s') (L1 ++ L2) (r :: Us) /\ graph_of s' = graph_of s
  /\ (forall m, word s' m = if decide (m = n) then Word NULL GC_BLACK else word s m)
  /\ forall m, cnt s' m = cnt s m.

(** Unlinking the entry and clearing the word, for values and for objects. *)
Lemma root_removed s L1 r L2 Us n f : gc_ready s (L1 ++ r :: L2) -> pool_ok (gc s) (L1 ++ r :: L2) Us ->
  adr s n = ROOT r -> present (graph_of s) n ->
  (forall t, present (graph_of t) n -> exists t', f t = Some t' /\ same t t'
    /\ (forall m, word t' m = if decide (m = n) then Word NULL GC_BLACK else word t m) /\ forall m, cnt t' m = cnt t m) ->
  exists s', (s ← gc_remove_from_buffer r s; f s) = Some s' /\ removed s L1 r L2 Us n s'.
Proof.
  intros [Hg Hc Hcol B] P Ha Hpres Hf. pose proof (bo_links _ _ _ _ _ B) as Hlk. pose proof (lo_nodup _ _ Hlk) as Hnd.
  assert (Hnode : rnode (r_u <$> buf (gc s)) r = n).
  { destruct (bo_adr _ _ _ _ _ B n ltac:(apply not_elem_of_nil)) as [E|(q & _ & Hqn & E)]; rewrite Ha in E; [done|].
    by injection E as ->. }
  destruct (gc_remove_from_buffer_ok L1 r L2 s Hlk) as (g' & -> & Hlk' & Hu & Hrest & Hun & e & _ & _ & Hpv).
  cbn [mbind option_bind]. set (t := on_gc (fun _ => g') s). destruct (on_gc_view (fun _ => g') s) as (Hg1 & Hw1 & Hc1).
  destruct (Hf t Hpres) as (s' & -> & [Hg2 Hgc] & Hw2 & Hc2).
  assert (Hw : forall m, word s' m = if decide (m = n) then Word NULL GC_BLACK else word s m).
  { intros m. rewrite Hw2. case_decide; [done|apply Hw1]. }
  assert (Hcnt : forall m, cnt s' m = cnt s m) by (intros m; by rewrite Hc2, Hc1).
  assert (Hgr : graph_of s' = graph_of s) by (by rewrite Hg2).
  exists s'. split; [done|]. split_and!; try done.
  2:{ rewrite Hgc. by apply (pool_removed (gc s)). }
  split.
  - by rewrite Hgr.
  - intros m. rewrite Hgr, Hcnt. apply Hc.
  - intros m. rewrite Hw. case_decide; [done|apply Hcol].
  - rewrite Hgc. unfold t. simpl. rewrite Hu, Hgr.
    apply NoDup_app in Hnd as (Hnd1 & Hdis & [Hr2 Hnd2]%NoDup_cons).
    assert (Hsub : forall q, q ∈ L1 ++ L2 -> q ∈ L1 ++ r :: L2) by (intros q; rewrite !elem_of_app, elem_of_cons; tauto).
    assert (Hr : r ∉ L1 ++ L2) by (intros [H|H]%elem_of_app; [apply (Hdis r H); by left|done]).
    split; [done|by rewrite Hgc|by rewrite Hgc| |].
    + intros q Hq. destruct (bo_named _ _ _ _ _ B q (Hsub q Hq)) as [Hp Haq]. split; [done|].
      unfold adr. rewrite Hw, decide_False; [done|]. intros E. rewrite E, Ha in Haq. by simplify_eq.
    + intros m Hm. unfold adr. rewrite Hw. case_decide as E; [by left|].
      destruct (bo_adr _ _ _ _ _ B m Hm) as [|(q & Hq & Hqm & Haq)]; [by left|right]. exists q. split; [|done].
      apply elem_of_app in Hq as [Hq|[->|Hq]%elem_of_cons]; apply elem_of_app; [by left| |by right]. congruence.
Qed.

(** Taking a value out of the buffer.  When a value that is a root is
    about to be freed, [gc_remove_zval_from_buffer] unlinks its entry from
    wherever it is in the list of roots, puts it in front of the unused ones,
    and clears the word of that value and of no other; the other roots keep
    their order, a run can start, and no entry of the buffer is lost. *)
Theorem gc_removed_from_buffer (s : gc_state) (L1 L2 Us : list addr) (r zv : addr) :
  gc_ready s (L1 ++ r :: L2) -> pool_ok (gc s) (L1 ++ r :: L2) Us -> adr s (inl zv) = ROOT r ->
  exists s', GC_REMOVE_ZVAL_FROM_BUFFER zv s = Some s' /\ gc_remove_zval_from_buffer zv s = Some s'
    /\ removed s L1 r L2 Us (inl zv) s'.
Proof.
  intros R P Ha.
  assert (Hv : exists v, zvals s !! zv = Some v /\ w_address (z_u v) = ROOT r).
  { unfold adr, word in Ha. destruct (zvals s !! zv) as [v|]; [by exists v|done]. }
  destruct Hv as (v & Hv & Hav).
  destruct (root_removed s L1 r L2 Us (inl zv) (upd_zval zv (on_u (fun _ => Word NULL GC_BLACK))) R P Ha) as (s' & E & Hs').
  { apply present_zval. by eexists. } { intros t. apply zval_word_ok. }
  assert (gc_remove_zval_from_buffer zv s = Some s') as E'.
  { unfold gc_remove_zval_from_buffer. rewrite Hv. cbn [mbind option_bind].
    assert (being_freed s (z_u v) = false) as -> by (unfold being_freed; rewrite Hav; apply andb_false_r).
    by rewrite Hav. }
  exists s'. split; [|done]. unfold GC_REMOVE_ZVAL_FROM_BUFFER, z_word. rewrite Hv. cbn [mbind option_bind].
  by rewrite Hav, decide_False.
Qed.

(** Objects leave the buffer in the same way. *)
Lemma zobj_removed_from_buffer (s : gc_state) (L1 L2 Us : list addr) (r : addr) (h : positive) :
  gc_ready s (L1 ++ r :: L2) -> pool_ok (gc s) (L1 ++ r :: L2) Us -> adr s (inr h) = ROOT r -> gc_active (gc s) = false ->
  exists s', GC_REMOVE_ZOBJ_FROM_BUFFER h s = Some s' /\ removed s L1 r L2 Us (inr h) s'.
Proof.
  intros R P Ha Hact.
  assert (Ho : exists o, object_at h s = Some o /\ w_address (o_buffered o) = ROOT r).
  { unfold adr, word in Ha. destruct (object_at h s) as [o|]; [by exists o|done]. }
  destruct Ho as (o & Ho & Hao). unfold GC_REMOVE_ZOBJ_FROM_BUFFER. rewrite Ho. cbn [mbind option_bind]. rewrite Hao, Hact.
  apply (root_removed s L1 r L2 Us (inr h) _ R P Ha); [apply present_object; by eexists|].
  intros t. apply object_word_ok.
Qed.

(** The buffer that [gc_init] sets up has no roots and all its entries free. *)
Lemma gc_init_ok entries s : buf (gc s) = ∅ -> gc_enabled (gc s) = true ->
  (forall p, (p < Z.to_pos (GC_ROOT_BUFFER_MAX_ENTRIES + 1))%positive <-> is_Some (entries !! p)) ->
  links_ok (gc (gc_init entries s)) [] /\ pool_ok (gc (gc_init entries s)) [] []
  /\ first_unused (gc (gc_init entries s)) <> last_unused (gc (gc_init entries s)).
Proof.
  intros Hb He Hent. unfold gc_init, gc_reset. rewrite decide_True by done. simpl.
  assert (entries <> ∅) as Hne.
  { intros ->. destruct (proj1 (Hent 1%positive) ltac:(done)) as [? E]. by rewrite lookup_empty in E. }
  rewrite decide_False by done. split; [split; simpl; [constructor|apply linked_nil|done|done]|]. split; [|done].
  split; simpl; [done|done|constructor|]. exists 1%positive, (Z.to_pos (GC_ROOT_BUFFER_MAX_ENTRIES + 1)).
  split_and!; [done|done|lia| |].
  - intros p. split; [by intros ?%not_elem_of_nil|lia].
  - intros p Hp. by apply Hent.
Qed.
