(* ===== verification/GCExample.v ===== *)
(** * GCExample: an executable check of [gc_ready], and a heap with a cycle

    [ready_check] decides, for a given heap, that a run can start in it.  The
    heap of the example has an array that refers to an object which refers back
    to the array, and to a second array that is also referenced from outside. *)
From S2P Require Import Prelude DList GC GCGraph GCFlood GCScan GCCollect GCRoots GCThms GCBufferThms GCCycleThms.

(** ** Checking *)
Definition all_values (G : graph) (l : list addr) : bool :=
  forallb (fun c => bool_decide (is_Some (g_value G !! c))) l.
Definition value_okb (G : graph) (v : zvalue) : bool :=
  match v with
  | IS_ARRAY t =>
      bool_decide (t = g_symbol_table G)
      || match g_tables G !! t with Some l => all_values G l | None => false end
  | IS_OBJECT h => match g_objects G with Some m => bool_decide (is_Some (m !! h)) | None => true end
  | _ => true
  end.
Definition graph_okb (G : graph) : bool :=
  forallb (fun p => value_okb G p.2) (map_to_list (g_value G))
  && match g_objects G with Some m => forallb (fun p => all_values G p.2) (map_to_list m) | None => true end.
Definition node_okb (s : gc_state) (n : node) : bool :=
  (edges (graph_of s) (all_nodes (graph_of s)) n <=? cnt s n) && (cnt s n <? 2 ^ 32 - 1)
  && bool_decide (w_color (word s n) <> GC_GREY) && bool_decide (w_color (word s n) <> GC_WHITE).
Definition ready_check (s : gc_state) : bool :=
  graph_okb (graph_of s) && forallb (node_okb s) (all_nodes (graph_of s)).

Lemma all_values_ok G l c : all_values G l = true -> c ∈ l -> present G (inl c).
Proof. unfold all_values. rewrite forallb_forall. intros H Hc.
  specialize (H c (proj1 (list_elem_of_In _ _) Hc)). by apply bool_decide_eq_true in H.
Qed.
Lemma graph_okb_ok G : graph_okb G = true -> graph_ok G.
Proof.
  unfold graph_okb. rewrite andb_true_iff, forallb_forall. intros [Hv Ho].
  assert (Hval : forall z v, g_value G !! z = Some v -> value_okb G v = true).
  { intros z v Hz. apply (Hv (z, v)). by apply list_elem_of_In, elem_of_map_to_list. }
  split.
  - intros z t Hz Ht. specialize (Hval z _ Hz). simpl in Hval. rewrite bool_decide_eq_false_2 in Hval by done. simpl in Hval.
    destruct (g_tables G !! t) as [l|]; [|done]. exists l. split; [done|]. intros c. by apply all_values_ok.
  - intros z h m Hz Hm. specialize (Hval z _ Hz). simpl in Hval. rewrite Hm in Hval. by apply bool_decide_eq_true in Hval.
  - intros h m l Hm Hl c. rewrite Hm in Ho. apply all_values_ok. rewrite forallb_forall in Ho.
    apply (Ho (h, l)). by apply list_elem_of_In, elem_of_map_to_list.
Qed.

Lemma absent_node s n : ~ present (graph_of s) n -> cnt s n = 0 /\ word s n = Word NULL GC_BLACK.
Proof.
  destruct n as [z|h].
  - rewrite present_zval. simpl. intros H. destruct (zvals s !! z); [|done]. destruct H. by eexists.
  - rewrite present_object. simpl. intros H. destruct (object_at h s); [|done]. destruct H. by eexists.
Qed.
Lemma ready_check_ok s L : ready_check s = true -> buffered_ok (graph_of s) (r_u <$> buf (gc s)) [] s L -> gc_ready s L.
Proof.
  unfold ready_check. rewrite andb_true_iff, forallb_forall. intros [Hg%graph_okb_ok Hn] B.
  assert (Hall : forall n, present (graph_of s) n -> node_okb s n = true).
  { intros n Hp%all_nodes_present. by apply Hn, list_elem_of_In. }
  assert (Hdec : forall n, node_okb s n = true \/ ~ present (graph_of s) n).
  { intros n. destruct (decide (n ∈ all_nodes (graph_of s))) as [H|H]; rewrite all_nodes_present in H; auto. }
  split; [done| | |done]; intros n; destruct (Hdec n) as [H|H].
  - unfold node_okb in H. rewrite !andb_true_iff in H. destruct H as [[[H1 H2] _] _]. lia.
  - destruct (absent_node s n H) as [-> _]. split; [|lia]. apply Z.nlt_ge. intros (a & _ & Ha)%edges_pos.
    by apply (succ_present _ a n Hg) in Ha as [? _].
  - unfold node_okb in H. rewrite !andb_true_iff, !bool_decide_eq_true in H. tauto.
  - by destruct (absent_node s n H) as [_ ->].
Qed.

(** ** A heap with a cycle *)
Definition cyclic : gc_state :=
  GcState
    {[ 1%positive := Zval (IS_ARRAY 10) 1 (Word (ROOT 1) GC_PURPLE);
       2%positive := Zval (IS_ARRAY 11) 2 (Word NULL GC_BLACK);
       3%positive := Zval (IS_OBJECT 5) 1 (Word NULL GC_BLACK) ]}
    {[ 10%positive := [3; 2]%positive; 11%positive := [] ]}
    99%positive
    (Some {[ 5%positive := GcObject true false true (Some ([Some 1%positive; None], None)) 1 (Word NULL GC_BLACK) ]})
    (GcGlobals true false
      {[ 1%positive := RootBuffer None None (ROOT_ZVAL 1); 2%positive := RootBuffer None None (ROOT_OBJECT 7) ]}
      (Some 1%positive) (Some 1%positive) None (Some 2%positive) (Some 3%positive) (Some None) None None 0 0).

Lemma cyclic_ready : gc_ready cyclic [1%positive].
Proof.
  apply ready_check_ok; [by vm_compute|]. split; [done| |done| |].
  - split; [apply NoDup_singleton| |done|done]. 
    intros [|i] q Hq; [|done]. injection Hq as <-. done.
  - intros r ->%list_elem_of_singleton. split; [|done]. simpl. by eexists.
  - intros n _. destruct (decide (n = inl 1%positive)) as [->|Hn].
    + right. exists 1%positive. split; [by left|done].
    + left. destruct (decide (n ∈ all_nodes (graph_of cyclic))) as [H|H].
      * assert (forallb (fun n => bool_decide (n = inl 1%positive \/ adr cyclic n = NULL)) (all_nodes (graph_of cyclic)) = true) as Hall
          by (by vm_compute).
        rewrite forallb_forall in Hall. specialize (Hall n (proj1 (list_elem_of_In _ _) H)).
        apply bool_decide_eq_true in Hall. tauto.
      * rewrite all_nodes_present in H. unfold adr. by destruct (absent_node cyclic n H) as [_ ->].
Qed.
Lemma cyclic_pool : pool_ok (gc cyclic) [1%positive] [].
Proof.
  split; [done|done|apply NoDup_singleton|]. exists 2%positive, 3%positive. split_and!; [done..| |].
  - intros p. simpl. rewrite list_elem_of_singleton. lia.
  - intros p Hp. assert (p = 1 \/ p = 2)%positive as [-> | ->] by lia; by eexists.
Qed.

Lemma gc_finds_garbage_witness : gc_ready cyclic [1%positive] /\ zval_to_free (gc cyclic) = Some None
  /\ exists s' F, find_garbage cyclic = Some s' /\ garbage_list cyclic [1%positive] F.
Proof.
  split; [exact cyclic_ready|]. split; [reflexivity|].
  destruct (gc_finds_garbage cyclic [1%positive] cyclic_ready eq_refl) as (s' & F & E & _ & _ & _ & HF & _).
  exists s', F. exact (conj E HF).
Defined.

(** What it finds: the first array and the value that holds the object. *)
Example cyclic_garbage : (s ← find_garbage cyclic; zval_to_free (gc s)) = Some (Some 3%positive)
  /\ (s ← find_garbage cyclic; u_next 3 s) = Some (Some 1%positive)
  /\ (s ← find_garbage cyclic; u_next 1 s) = Some None
  /\ (s ← find_garbage cyclic; z_word 2 s) = Some (Word NULL GC_BLACK).
Proof. by vm_compute. Qed.

(** Code that only lets go of what it is called for: the object is no longer
    valid, the array is gone. *)
#[local] Instance letting_go : GcCallbacks := {
  object_dtor _ s := Some s;
  store_del_ref h s :=
    Some match object_buckets s with
    | Some m =>
        match m !! h with
        | Some o => with_objects (<[h := GcObject false true (o_has_dtor o) (o_get_gc o) 0 (o_buffered o)]> m) s
        | None => s
        end
    | None => s
    end;
  hash_destroy t s := Some (GcState (zvals s) (delete t (tables s)) (symbol_table s) (object_buckets s) (gc s));
  zval_dtor _ s := Some s
}.
Lemma letting_go_laws : GcCallbackLaws.
Proof.
  split; intros x s F HF; (eexists; split; [reflexivity|]); [by split_and!| | |by split_and!].
  - destruct (object_buckets s) as [m|] eqn:Em; [|by split_and!]. destruct (m !! x) as [o|] eqn:Eo; [|by split_and!].
    assert (Hdom : forall h v, is_Some (m !! h) -> is_Some (<[x := v]> m !! h)) by (intros h v ?; rewrite lookup_insert; case_decide; eauto).
    split_and!; [|done..|].
    + apply (garbage_words s); [done|done|by eauto|]. intros m' [= <-]. exists m. split; [done|]. intros h. apply Hdom.
    + unfold object_at. simpl. rewrite Em. simpl. intros h. apply Hdom.
  - split_and!; [|done..]. apply (garbage_words s); [done|done|by eauto|]. intros m Hm. by exists m.
Qed.

Lemma gc_collect_cycles_frees_witness : gc_ready cyclic [1%positive] /\ gc_active (gc cyclic) = false /\ GcCallbackLaws
  /\ exists s' F, gc_collect_cycles cyclic = Some (s', Z.of_nat (length F)) /\ forall z, z ∈ F -> zvals s' !! z = None.
Proof.
  split; [exact cyclic_ready|]. split; [reflexivity|]. split; [exact letting_go_laws|].
  destruct (@gc_collect_cycles_frees letting_go letting_go_laws cyclic [1%positive] cyclic_ready eq_refl)
    as (s' & F & E & _ & Hz & _).
  exists s', F. exact (conj E Hz).
Defined.
Example cyclic_collected : snd <$> gc_collect_cycles cyclic = Some 2
  /\ ((fun p => zvals (fst p)) <$> gc_collect_cycles cyclic) = Some {[ 2%positive := Zval (IS_ARRAY 11) 2 (Word NULL GC_BLACK) ]}.
Proof. by vm_compute. Qed.

(** The object of value 3 is a possible root as well.  In [full], the same heap
    with a buffer of one entry, a run is made while value 3 is held: nothing is
    garbage then, the entry is given back, and the object gets it. *)
Definition full : gc_state := on_gc (set_last_unused (Some 2%positive)) cyclic.
Definition released : gc_state :=
  GcState
    {[ 1%positive := Zval (IS_ARRAY 10) 1 (Word NULL GC_BLACK);
       2%positive := Zval (IS_ARRAY 11) 2 (Word NULL GC_BLACK);
       3%positive := Zval (IS_OBJECT 5) 1 (Word NULL GC_BLACK) ]}
    (tables cyclic) 99%positive
    (Some {[ 5%positive := GcObject true false true (Some ([Some 1%positive; None], None)) 1 (Word NULL GC_BLACK) ]})
    (GcGlobals true false
      {[ 1%positive := RootBuffer None None (ROOT_ZVAL 1); 2%positive := RootBuffer None None (ROOT_OBJECT 7) ]}
      None None (Some 1%positive) (Some 2%positive) (Some 2%positive) None None None 1 0).
Lemma unbuffered_ready s : ready_check s = true -> roots_next (gc s) = None -> roots_prev (gc s) = None ->
  forallb (fun n => bool_decide (adr s n = NULL)) (all_nodes (graph_of s)) = true -> gc_ready s [].
Proof.
  intros Hr Hn Hp Hall. apply ready_check_ok; [done|]. split; [done|by split; [apply NoDup_nil_2|apply linked_nil|..]|done| |].
  - by intros r ?%not_elem_of_nil.
  - intros n _. left. destruct (decide (n ∈ all_nodes (graph_of s))) as [H|H].
    + rewrite forallb_forall in Hall. specialize (Hall n (proj1 (list_elem_of_In _ _) H)). by apply bool_decide_eq_true in Hall.
    + rewrite all_nodes_present in H. unfold adr. by destruct (absent_node s n H) as [_ ->].
Qed.
Lemma released_ready : gc_ready released [].
Proof. by apply unbuffered_ready; vm_compute. Qed.
Lemma released_pool : pool_ok (gc released) [] [1%positive].
Proof.
  split; [by vm_compute|done|apply NoDup_singleton|]. exists 2%positive, 2%positive. split_and!; [done..| |].
  - intros p. simpl. rewrite list_elem_of_singleton. lia.
  - intros p Hp. assert (p = 1)%positive as -> by lia. by eexists.
Qed.
Lemma full_pool : pool_ok (gc full) [1%positive] [].
Proof.
  split; [done|done|apply NoDup_singleton|]. exists 2%positive, 2%positive. split_and!; [done..| |].
  - intros p. simpl. rewrite list_elem_of_singleton. lia.
  - intros p Hp. assert (p = 1)%positive as -> by lia. by eexists.
Qed.
Lemma full_ready : gc_ready full [1%positive].
Proof. by apply (ready_on_gc cyclic (gc full) _ cyclic_ready). Qed.
Lemma full_released : (u ← upd_zval 3 (on_count (fun c => to_uint (c + 1))) full; r ← gc_collect_cycles u;
  upd_zval 3 (on_count (fun c => to_uint (c - 1))) r.1) = Some released.
Proof. vm_compute. reflexivity. Qed.

Lemma gc_possible_root_buffered_witness : gc_ready cyclic [1%positive] /\ pool_ok (gc cyclic) [1%positive] []
  /\ (exists s', gc_zval_possible_root 3 cyclic = Some s' /\ buffered_as cyclic [1%positive] (inr 5%positive) s')
  /\ exists s', gc_zval_possible_root 3 full = Some s' /\ buffered_as released [] (inr 5%positive) s'.
Proof.
  split; [exact cyclic_ready|]. split; [exact cyclic_pool|]. split.
  { destruct (@gc_possible_root_buffered letting_go letting_go_laws cyclic 3 _ eq_refl) as [_ Hb].
    exact (Hb [1%positive] [] cyclic_ready cyclic_pool). }
  destruct (@gc_possible_root_buffered letting_go letting_go_laws full 3 _ eq_refl) as [_ Hb].
  destruct (Hb [1%positive] [] full_ready full_pool eq_refl eq_refl) as (u & t & k & Eu & Et & Hw).
  pose proof full_released as E. rewrite Eu in E. cbn [mbind option_bind] in E. rewrite Et in E.
  assert (Hp : present (graph_of released) (inr 5%positive)) by (apply present_object; eexists; reflexivity).
  exact (Hw released [] [1%positive] E released_ready released_pool Hp eq_refl).
Defined.
(** A value that a run is about to free is left alone, whatever its object is. *)
Example about_to_be_freed : gc_zval_possible_root 3 (on_gc (set_free_list (Some (Some 3%positive)))
    (with_zvals (<[3%positive := Zval (IS_OBJECT 5) 1 (Word (NEXT None) GC_BLACK)]> (zvals cyclic)) cyclic))
  = Some (on_gc (set_free_list (Some (Some 3%positive)))
    (with_zvals (<[3%positive := Zval (IS_OBJECT 5) 1 (Word (NEXT None) GC_BLACK)]> (zvals cyclic)) cyclic)).
Proof. vm_compute. reflexivity. Qed.

Lemma gc_removed_from_buffer_witness : gc_ready cyclic ([] ++ 1%positive :: []) /\ adr cyclic (inl 1%positive) = ROOT 1
  /\ exists s', gc_remove_zval_from_buffer 1 cyclic = Some s' /\ removed cyclic [] 1 [] [] (inl 1%positive) s'.
Proof.
  split; [exact cyclic_ready|]. split; [reflexivity|].
  destruct (gc_removed_from_buffer cyclic [] [] [] 1 1 cyclic_ready cyclic_pool eq_refl) as (s' & _ & E & R).
  exists s'. exact (conj E R).
Defined.
