(* ===== verification/ZendAlloc.v ===== *)
(** * ZendAlloc: Zend/zend_alloc.c, the memory manager

    [emalloc] and [efree].  Memory comes from the storage manager in segments;
    a segment is cut into blocks, each with a header that holds its own size
    and type and those of the block before it.  Free blocks are kept in one
    circular list per size (small blocks), in one binary trie per power of two
    (large blocks) or in a list of rests; a cache holds small blocks that have
    been given back.

    Memory is a map from the addresses of words to their values, the headers,
    the links of the free blocks and the data of the program alike, together
    with the three arrays of list heads of the heap structure, because the
    source takes their addresses.  A read or a write outside of that, freeing a
    segment that was not handed out, and the panic on a corrupted heap are
    [None].  The configuration is that of a release build: ZEND_DEBUG,
    ZEND_MM_HEAP_PROTECTION and ZEND_MM_COOKIES are 0, ZEND_MM_SAFE_UNLINKING
    and ZEND_MM_CACHE are 1; ZEND_MM_ALIGNMENT is 8. *)
From S2P Require Import Prelude.

(** ** Sizes *)
Class SizeT := { size_kind : long_size }.

Section Sizes.
Context `{SizeT}.

Definition SIZEOF_SIZE_T : Z := match size_kind with LONG32 => 4 | LONG64 => 8 end.
Definition ZEND_MM_NUM_BUCKETS : Z := Z.shiftl SIZEOF_SIZE_T 3.
Definition size_t (z : Z) : Z := z mod 2 ^ ZEND_MM_NUM_BUCKETS.

Definition ZEND_MM_ALIGNMENT : Z := 8.
Definition ZEND_MM_ALIGNMENT_LOG2 : Z := 3.
Definition ZEND_MM_ALIGNED_SIZE (size : Z) : Z :=
  Z.land (size_t (size + ZEND_MM_ALIGNMENT - 1)) (Z.lnot (ZEND_MM_ALIGNMENT - 1)).

(** [zend_mm_block_info] has two words, [zend_mm_small_free_block] two more,
    [zend_mm_segment] two. *)
Definition END_MAGIC_SIZE : Z := 0.
Definition ZEND_MM_ALIGNED_HEADER_SIZE : Z := ZEND_MM_ALIGNED_SIZE (2 * SIZEOF_SIZE_T).
Definition ZEND_MM_ALIGNED_FREE_HEADER_SIZE : Z := ZEND_MM_ALIGNED_SIZE (4 * SIZEOF_SIZE_T).
Definition ZEND_MM_MIN_ALLOC_BLOCK_SIZE : Z := ZEND_MM_ALIGNED_SIZE (ZEND_MM_ALIGNED_HEADER_SIZE + END_MAGIC_SIZE).
Definition ZEND_MM_ALIGNED_MIN_HEADER_SIZE : Z :=
  if ZEND_MM_ALIGNED_FREE_HEADER_SIZE <? ZEND_MM_MIN_ALLOC_BLOCK_SIZE then ZEND_MM_MIN_ALLOC_BLOCK_SIZE
  else ZEND_MM_ALIGNED_FREE_HEADER_SIZE.
Definition ZEND_MM_ALIGNED_SEGMENT_SIZE : Z := ZEND_MM_ALIGNED_SIZE (2 * SIZEOF_SIZE_T).
Definition ZEND_MM_MIN_SIZE : Z :=
  if ZEND_MM_ALIGNED_HEADER_SIZE + END_MAGIC_SIZE <? ZEND_MM_ALIGNED_MIN_HEADER_SIZE
  then ZEND_MM_ALIGNED_MIN_HEADER_SIZE - (ZEND_MM_ALIGNED_HEADER_SIZE + END_MAGIC_SIZE) else 0.
Definition ZEND_MM_MAX_SMALL_SIZE : Z :=
  Z.shiftl ZEND_MM_NUM_BUCKETS ZEND_MM_ALIGNMENT_LOG2 + ZEND_MM_ALIGNED_MIN_HEADER_SIZE.

Definition ZEND_MM_TRUE_SIZE (size : Z) : Z :=
  if size <? ZEND_MM_MIN_SIZE then ZEND_MM_ALIGNED_MIN_HEADER_SIZE
  else ZEND_MM_ALIGNED_SIZE (size + ZEND_MM_ALIGNED_HEADER_SIZE + END_MAGIC_SIZE).
Definition ZEND_MM_BUCKET_INDEX (true_size : Z) : Z :=
  size_t (Z.shiftr true_size ZEND_MM_ALIGNMENT_LOG2 - Z.shiftr ZEND_MM_ALIGNED_MIN_HEADER_SIZE ZEND_MM_ALIGNMENT_LOG2).
Definition ZEND_MM_SMALL_SIZE (true_size : Z) : bool := true_size <? ZEND_MM_MAX_SMALL_SIZE.

(** The portable versions of [zend_mm_high_bit] and [zend_mm_low_bit]; a word
    has [ZEND_MM_NUM_BUCKETS] bits. *)
Fixpoint high_bit_loop (fuel : nat) (_size n : Z) : option Z :=
  if _size =? 0 then Some n
  else match fuel with O => None | S fuel => high_bit_loop fuel (Z.shiftr _size 1) (n + 1) end.
Definition zend_mm_high_bit (_size : Z) : option Z :=
  n ← high_bit_loop (Z.to_nat ZEND_MM_NUM_BUCKETS) _size 0; Some (to_uint (n - 1)).

Definition offset : list Z := [4;0;1;0;2;0;1;0;3;0;1;0;2;0;1;0].
Fixpoint low_bit_loop (fuel : nat) (_size n index : Z) : option Z :=
  if n =? 4 then
    match fuel with
    | O => None
    | S fuel =>
        let _size := Z.shiftr _size 4 in
        let index := index + n in
        n ← offset !! Z.to_nat (Z.land _size 15);
        low_bit_loop fuel _size n index
    end
  else Some (index + n).
Definition zend_mm_low_bit (_size : Z) : option Z :=
  n ← offset !! Z.to_nat (Z.land _size 15);
  low_bit_loop (Z.to_nat ZEND_MM_NUM_BUCKETS) _size n 0.

Definition ZEND_MM_LARGE_BUCKET_INDEX (S : Z) : option Z := zend_mm_high_bit S.
End Sizes.

(** ** The state *)

(** [struct _zend_mm_heap], the memory, and what the storage manager knows: the
    segments it has handed out, with their sizes.  [buckets] is the address of
    [free_buckets]; [large_free_buckets] and [rest_buckets] follow it.  A cache
    is the address of its first block, or 0. *)
Record mm_heap := MmHeap {
  mem : gmap Z Z;
  regions : gmap Z Z;
  buckets : Z;
  free_bitmap : Z;
  large_free_bitmap : Z;
  block_size : Z;
  compact_size : Z;
  segments_list : Z;
  real_size : Z;
  real_peak : Z;
  limit : Z;
  size : Z;
  peak : Z;
  reserve_size : Z;
  reserve : Z;
  overflow : Z;
  cached : Z;
  cache : list Z;
  rest_count : Z
}.

Definition set_mem x h := MmHeap x (regions h) (buckets h) (free_bitmap h) (large_free_bitmap h) (block_size h)
  (compact_size h) (segments_list h) (real_size h) (real_peak h) (limit h) (size h) (peak h) (reserve_size h)
  (reserve h) (overflow h) (cached h) (cache h) (rest_count h).
Definition set_regions x h := MmHeap (mem h) x (buckets h) (free_bitmap h) (large_free_bitmap h) (block_size h)
  (compact_size h) (segments_list h) (real_size h) (real_peak h) (limit h) (size h) (peak h) (reserve_size h)
  (reserve h) (overflow h) (cached h) (cache h) (rest_count h).
Definition set_free_bitmap x h := MmHeap (mem h) (regions h) (buckets h) x (large_free_bitmap h) (block_size h)
  (compact_size h) (segments_list h) (real_size h) (real_peak h) (limit h) (size h) (peak h) (reserve_size h)
  (reserve h) (overflow h) (cached h) (cache h) (rest_count h).
Definition set_large_free_bitmap x h := MmHeap (mem h) (regions h) (buckets h) (free_bitmap h) x (block_size h)
  (compact_size h) (segments_list h) (real_size h) (real_peak h) (limit h) (size h) (peak h) (reserve_size h)
  (reserve h) (overflow h) (cached h) (cache h) (rest_count h).
Definition set_segments_list x h := MmHeap (mem h) (regions h) (buckets h) (free_bitmap h) (large_free_bitmap h)
  (block_size h) (compact_size h) x (real_size h) (real_peak h) (limit h) (size h) (peak h) (reserve_size h)
  (reserve h) (overflow h) (cached h) (cache h) (rest_count h).
Definition set_real_size x h := MmHeap (mem h) (regions h) (buckets h) (free_bitmap h) (large_free_bitmap h)
  (block_size h) (compact_size h) (segments_list h) x (real_peak h) (limit h) (size h) (peak h) (reserve_size h)
  (reserve h) (overflow h) (cached h) (cache h) (rest_count h).
Definition set_real_peak x h := MmHeap (mem h) (regions h) (buckets h) (free_bitmap h) (large_free_bitmap h)
  (block_size h) (compact_size h) (segments_list h) (real_size h) x (limit h) (size h) (peak h) (reserve_size h)
  (reserve h) (overflow h) (cached h) (cache h) (rest_count h).
Definition set_limit x h := MmHeap (mem h) (regions h) (buckets h) (free_bitmap h) (large_free_bitmap h)
  (block_size h) (compact_size h) (segments_list h) (real_size h) (real_peak h) x (size h) (peak h) (reserve_size h)
  (reserve h) (overflow h) (cached h) (cache h) (rest_count h).
Definition set_size x h := MmHeap (mem h) (regions h) (buckets h) (free_bitmap h) (large_free_bitmap h)
  (block_size h) (compact_size h) (segments_list h) (real_size h) (real_peak h) (limit h) x (peak h) (reserve_size h)
  (reserve h) (overflow h) (cached h) (cache h) (rest_count h).
Definition set_peak x h := MmHeap (mem h) (regions h) (buckets h) (free_bitmap h) (large_free_bitmap h)
  (block_size h) (compact_size h) (segments_list h) (real_size h) (real_peak h) (limit h) (size h) x (reserve_size h)
  (reserve h) (overflow h) (cached h) (cache h) (rest_count h).
Definition set_reserve x h := MmHeap (mem h) (regions h) (buckets h) (free_bitmap h) (large_free_bitmap h)
  (block_size h) (compact_size h) (segments_list h) (real_size h) (real_peak h) (limit h) (size h) (peak h)
  (reserve_size h) x (overflow h) (cached h) (cache h) (rest_count h).
Definition set_overflow x h := MmHeap (mem h) (regions h) (buckets h) (free_bitmap h) (large_free_bitmap h)
  (block_size h) (compact_size h) (segments_list h) (real_size h) (real_peak h) (limit h) (size h) (peak h)
  (reserve_size h) (reserve h) x (cached h) (cache h) (rest_count h).
Definition set_cached x h := MmHeap (mem h) (regions h) (buckets h) (free_bitmap h) (large_free_bitmap h)
  (block_size h) (compact_size h) (segments_list h) (real_size h) (real_peak h) (limit h) (size h) (peak h)
  (reserve_size h) (reserve h) (overflow h) x (cache h) (rest_count h).
Definition set_cache x h := MmHeap (mem h) (regions h) (buckets h) (free_bitmap h) (large_free_bitmap h)
  (block_size h) (compact_size h) (segments_list h) (real_size h) (real_peak h) (limit h) (size h) (peak h)
  (reserve_size h) (reserve h) (overflow h) (cached h) x (rest_count h).
Definition set_rest_count x h := MmHeap (mem h) (regions h) (buckets h) (free_bitmap h) (large_free_bitmap h)
  (block_size h) (compact_size h) (segments_list h) (real_size h) (real_peak h) (limit h) (size h) (peak h)
  (reserve_size h) (reserve h) (overflow h) (cached h) (cache h) x.

Definition load (a : Z) (h : mm_heap) : option Z := mem h !! a.
Definition store (a v : Z) (h : mm_heap) : option mm_heap :=
  _ ← mem h !! a; Some (set_mem (<[a := v]> (mem h)) h).

(** ** Blocks *)
Section Ops.
Context `{SizeT}.

Definition NULL : Z := 0.
Definition W : Z := SIZEOF_SIZE_T.

(** The addresses of the fields of [zend_mm_block], [zend_mm_free_block] and
    [zend_mm_segment]. *)
Definition f_size (b : Z) : Z := b.
Definition f_prev (b : Z) : Z := b + W.
Definition f_prev_free (b : Z) : Z := b + 2 * W.
Definition f_next_free (b : Z) : Z := b + 3 * W.
Definition f_parent (b : Z) : Z := b + 4 * W.
Definition f_child (b i : Z) : Z := b + 5 * W + i * W.
Definition seg_size (s : Z) : Z := s.
Definition seg_next (s : Z) : Z := s + W.

Definition ZEND_MM_TYPE_MASK : Z := 3.
Definition ZEND_MM_FREE_BLOCK : Z := 0.
Definition ZEND_MM_USED_BLOCK : Z := 1.
Definition ZEND_MM_GUARD_BLOCK : Z := 3.

Definition ZEND_MM_BLOCK (b type size : Z) (h : mm_heap) : option mm_heap :=
  h ← store (f_size b) (Z.lor type size) h;
  store (f_prev (b + size)) (Z.lor type size) h.
Definition ZEND_MM_LAST_BLOCK (b : Z) (h : mm_heap) : option mm_heap :=
  store (f_size b) (Z.lor ZEND_MM_GUARD_BLOCK ZEND_MM_ALIGNED_HEADER_SIZE) h.
Definition ZEND_MM_BLOCK_SIZE (b : Z) (h : mm_heap) : option Z :=
  x ← load (f_size b) h; Some (Z.land x (Z.lnot ZEND_MM_TYPE_MASK)).
Definition ZEND_MM_IS_FREE_BLOCK (b : Z) (h : mm_heap) : option bool :=
  x ← load (f_size b) h; Some (Z.land x ZEND_MM_USED_BLOCK =? 0).
Definition ZEND_MM_IS_GUARD_BLOCK (b : Z) (h : mm_heap) : option bool :=
  x ← load (f_size b) h; Some (Z.land x ZEND_MM_TYPE_MASK =? ZEND_MM_GUARD_BLOCK).
Definition ZEND_MM_NEXT_BLOCK (b : Z) (h : mm_heap) : option Z :=
  n ← ZEND_MM_BLOCK_SIZE b h; Some (b + n).
Definition ZEND_MM_PREV_BLOCK (b : Z) (h : mm_heap) : option Z :=
  x ← load (f_prev b) h; Some (b - Z.land x (Z.lnot ZEND_MM_TYPE_MASK)).
Definition ZEND_MM_PREV_BLOCK_IS_FREE (b : Z) (h : mm_heap) : option bool :=
  x ← load (f_prev b) h; Some (Z.land x ZEND_MM_USED_BLOCK =? 0).
Definition ZEND_MM_MARK_FIRST_BLOCK (b : Z) (h : mm_heap) : option mm_heap := store (f_prev b) ZEND_MM_GUARD_BLOCK h.
Definition ZEND_MM_IS_FIRST_BLOCK (b : Z) (h : mm_heap) : option bool :=
  x ← load (f_prev b) h; Some (x =? ZEND_MM_GUARD_BLOCK).
Definition ZEND_MM_FREE_BLOCK_SIZE (b : Z) (h : mm_heap) : option Z := load (f_size b) h.
Definition ZEND_MM_DATA_OF (p : Z) : Z := p + ZEND_MM_ALIGNED_HEADER_SIZE.
Definition ZEND_MM_HEADER_OF (blk : Z) : Z := blk - ZEND_MM_ALIGNED_HEADER_SIZE.

(** [None]: [zend_mm_panic] *)
Definition ZEND_MM_CHECK (ok : bool) (h : mm_heap) : option mm_heap := if ok then Some h else None.
Definition ZEND_MM_CHECK_BLOCK_LINKAGE (b : Z) (h : mm_heap) : option mm_heap :=
  size ← load (f_size b) h;
  n ← ZEND_MM_FREE_BLOCK_SIZE b h;
  next_prev ← load (f_prev (b + n)) h;
  first ← ZEND_MM_IS_FIRST_BLOCK b h;
  h ← ZEND_MM_CHECK (size =? next_prev) h;
  if (first : bool) then Some h
  else
    p ← ZEND_MM_PREV_BLOCK b h;
    prev_size ← load (f_size p) h;
    prev ← load (f_prev b) h;
    ZEND_MM_CHECK (prev_size =? prev) h.
Definition ZEND_MM_CHECK_TREE (b : Z) (h : mm_heap) : option mm_heap :=
  p ← load (f_parent b) h; x ← load p h; ZEND_MM_CHECK (x =? b) h.

(** ** The lists of free blocks *)

(** A list head overlaps with a block whose two links it is. *)
Definition free_buckets (h : mm_heap) (i : Z) : Z := buckets h + i * W.
Definition large_free_buckets (h : mm_heap) (i : Z) : Z := buckets h + 2 * ZEND_MM_NUM_BUCKETS * W + i * W.
Definition rest_buckets (h : mm_heap) (i : Z) : Z := buckets h + 3 * ZEND_MM_NUM_BUCKETS * W + i * W.
Definition ZEND_MM_SMALL_FREE_BUCKET (h : mm_heap) (index : Z) : Z := free_buckets h (index * 2) + W * 2 - 4 * W.
Definition ZEND_MM_REST_BUCKET (h : mm_heap) : Z := rest_buckets h 0 + W * 2 - 4 * W.
Definition ZEND_MM_REST_BLOCK : Z := 1.
Definition ZEND_MM_MAX_REST_BLOCKS : Z := 16.

Definition set_bit (index b : Z) : Z := Z.lor b (Z.shiftl 1 index).
Definition clear_bit (index b : Z) : Z := Z.ldiff b (Z.shiftl 1 index).

(** [mm_block] between [prev] and [next] *)
Definition link_between (prev mm_block next : Z) (h : mm_heap) : option mm_heap :=
  h ← store (f_prev_free mm_block) prev h;
  h ← store (f_next_free mm_block) next h;
  h ← store (f_prev_free next) mm_block h;
  store (f_next_free prev) mm_block h.

(** The block is the first one of its size. *)
Definition single_node (p mm_block : Z) (h : mm_heap) : option mm_heap :=
  h ← store p mm_block h;
  h ← store (f_parent mm_block) p h;
  h ← store (f_next_free mm_block) mm_block h;
  store (f_prev_free mm_block) mm_block h.

(** [m >> (ZEND_MM_NUM_BUCKETS-1)) & 1] *)
Definition top_bit (m : Z) : Z := Z.land (Z.shiftr m (ZEND_MM_NUM_BUCKETS - 1)) 1.

Fixpoint trie_insert (fuel : nat) (mm_block size m p : Z) (h : mm_heap) : option mm_heap :=
  match fuel with
  | O => None
  | S fuel =>
      prev ← load p h;
      prev_size ← ZEND_MM_FREE_BLOCK_SIZE prev h;
      if negb (prev_size =? size) then
        let p := f_child prev (top_bit m) in
        x ← load p h;
        if x =? NULL then single_node p mm_block h
        else trie_insert fuel mm_block size (size_t (Z.shiftl m 1)) p h
      else
        next ← load (f_next_free prev) h;
        h ← store (f_prev_free next) mm_block h;
        h ← store (f_next_free prev) mm_block h;
        h ← store (f_next_free mm_block) next h;
        h ← store (f_prev_free mm_block) prev h;
        store (f_parent mm_block) NULL h
  end.

(** A trie is no deeper than a word has bits. *)
Definition zend_mm_add_to_free_list (mm_block : Z) (h : mm_heap) : option mm_heap :=
  size ← ZEND_MM_FREE_BLOCK_SIZE mm_block h;
  if negb (ZEND_MM_SMALL_SIZE size) then
    index ← ZEND_MM_LARGE_BUCKET_INDEX size;
    let p := large_free_buckets h index in
    h ← store (f_child mm_block 1) NULL h;
    h ← store (f_child mm_block 0) NULL h;
    x ← load p h;
    if x =? NULL then
      h ← single_node p mm_block h;
      Some (set_large_free_bitmap (set_bit index (large_free_bitmap h)) h)
    else
      trie_insert (Z.to_nat ZEND_MM_NUM_BUCKETS) mm_block size (size_t (Z.shiftl size (ZEND_MM_NUM_BUCKETS - index))) p h
  else
    let index := ZEND_MM_BUCKET_INDEX size in
    let prev := ZEND_MM_SMALL_FREE_BUCKET h index in
    pp ← load (f_prev_free prev) h;
    let h := if pp =? prev then set_free_bitmap (set_bit index (free_bitmap h)) h else h in
    next ← load (f_next_free prev) h;
    link_between prev mm_block next h.

(** [while ((cp = &(prev->child[prev->child[1] != NULL]))[0] != NULL)]: the leaf
    below [prev] and the place that points to it. *)
Fixpoint find_leaf (fuel : nat) (prev rp : Z) (h : mm_heap) : option (Z * Z) :=
  match fuel with
  | O => None
  | S fuel =>
      c1 ← load (f_child prev 1) h;
      let cp := f_child prev (if c1 =? NULL then 0 else 1) in
      c ← load cp h;
      if c =? NULL then Some (prev, rp) else find_leaf fuel c cp h
  end.

(** [if ((prev->child[i] = mm_block->child[i])) ...] *)
Definition adopt_child (prev mm_block i : Z) (h : mm_heap) : option mm_heap :=
  c ← load (f_child mm_block i) h;
  h ← store (f_child prev i) c h;
  if c =? NULL then Some h
  else h ← ZEND_MM_CHECK_TREE c h; store (f_parent c) (f_child prev i) h.

(** [subst_block]: [prev] takes the place of [mm_block] in the trie. *)
Definition subst_block (prev mm_block : Z) (h : mm_heap) : option mm_heap :=
  h ← ZEND_MM_CHECK_TREE mm_block h;
  p ← load (f_parent mm_block) h;
  h ← store p prev h;
  h ← store (f_parent prev) p h;
  h ← adopt_child prev mm_block 0 h;
  adopt_child prev mm_block 1 h.

Definition zend_mm_remove_from_free_list (mm_block : Z) (h : mm_heap) : option mm_heap :=
  prev ← load (f_prev_free mm_block) h;
  next ← load (f_next_free mm_block) h;
  if prev =? mm_block then
    h ← ZEND_MM_CHECK (next =? mm_block) h;
    c1 ← load (f_child mm_block 1) h;
    let rp := f_child mm_block (if c1 =? NULL then 0 else 1) in
    prev ← load rp h;
    if prev =? NULL then
      size ← ZEND_MM_FREE_BLOCK_SIZE mm_block h;
      index ← ZEND_MM_LARGE_BUCKET_INDEX size;
      h ← ZEND_MM_CHECK_TREE mm_block h;
      p ← load (f_parent mm_block) h;
      h ← store p NULL h;
      if p =? large_free_buckets h index then
        Some (set_large_free_bitmap (clear_bit index (large_free_bitmap h)) h)
      else Some h
    else
      '(prev, rp) ← find_leaf (Z.to_nat ZEND_MM_NUM_BUCKETS) prev rp h;
      h ← store rp NULL h;
      subst_block prev mm_block h
  else
    pn ← load (f_next_free prev) h;
    h ← ZEND_MM_CHECK (pn =? mm_block) h;
    np ← load (f_prev_free next) h;
    h ← ZEND_MM_CHECK (np =? mm_block) h;
    h ← store (f_next_free prev) next h;
    h ← store (f_prev_free next) prev h;
    size ← ZEND_MM_FREE_BLOCK_SIZE mm_block h;
    if ZEND_MM_SMALL_SIZE size then
      if prev =? next then
        let index := ZEND_MM_BUCKET_INDEX size in
        x ← load (free_buckets h (index * 2)) h;
        y ← load (free_buckets h (index * 2 + 1)) h;
        if x =? y then Some (set_free_bitmap (clear_bit index (free_bitmap h)) h) else Some h
      else Some h
    else
      parent ← load (f_parent mm_block) h;
      if parent =? ZEND_MM_REST_BLOCK then Some (set_rest_count (rest_count h - 1) h)
      else if negb (parent =? NULL) then subst_block prev mm_block h
      else Some h.

(** [while (heap->rest_count >= ZEND_MM_MAX_REST_BLOCKS)]; a turn takes a block
    out of the list, which has no more blocks than the memory has words. *)
Fixpoint shrink_rest_list (fuel : nat) (h : mm_heap) : option mm_heap :=
  if ZEND_MM_MAX_REST_BLOCKS <=? rest_count h then
    match fuel with
    | O => None
    | S fuel =>
        p ← load (rest_buckets h 1) h;
        size ← ZEND_MM_FREE_BLOCK_SIZE p h;
        let h := if negb (ZEND_MM_SMALL_SIZE size) then set_rest_count (rest_count h - 1) h else h in
        prev ← load (f_prev_free p) h;
        next ← load (f_next_free p) h;
        h ← store (f_next_free prev) next h;
        h ← store (f_prev_free next) prev h;
        h ← zend_mm_add_to_free_list p h;
        shrink_rest_list fuel h
    end
  else Some h.

Definition zend_mm_add_to_rest_list (mm_block : Z) (h : mm_heap) : option mm_heap :=
  h ← shrink_rest_list (base.size (mem h)) h;
  size ← ZEND_MM_FREE_BLOCK_SIZE mm_block h;
  h ← (if negb (ZEND_MM_SMALL_SIZE size) then
         h ← store (f_parent mm_block) ZEND_MM_REST_BLOCK h;
         Some (set_rest_count (rest_count h + 1) h)
       else Some h);
  prev ← load (rest_buckets h 0) h;
  next ← load (f_next_free prev) h;
  link_between prev mm_block next h.

(** [for (i = 0; i < ZEND_MM_NUM_BUCKETS; i++)] *)
Fixpoint init_buckets (n : nat) (i p : Z) (h : mm_heap) : option mm_heap :=
  match n with
  | O => Some h
  | S n =>
      h ← store (f_next_free p) p h;
      h ← store (f_prev_free p) p h;
      h ← store (large_free_buckets h i) NULL h;
      init_buckets n (i + 1) (p + W * 2) h
  end.
Definition zend_mm_init (h : mm_heap) : option mm_heap :=
  let h := set_large_free_bitmap 0 (set_free_bitmap 0 h) in
  let h := set_cache (replicate (Z.to_nat ZEND_MM_NUM_BUCKETS) NULL) (set_cached 0 h) in
  h ← init_buckets (Z.to_nat ZEND_MM_NUM_BUCKETS) 0 (ZEND_MM_SMALL_FREE_BUCKET h 0) h;
  h ← store (rest_buckets h 1) (ZEND_MM_REST_BUCKET h) h;
  h ← store (rest_buckets h 0) (ZEND_MM_REST_BUCKET h) h;
  Some (set_rest_count 0 h).

(** ** Segments *)

(** The words of a segment of [n] bytes, with the contents [f]. *)
Definition region (a n : Z) (f : Z -> Z) : gmap Z Z :=
  list_to_map ((fun i : nat => (a + W * Z.of_nat i, f (a + W * Z.of_nat i))) <$> seq 0 (Z.to_nat (n / W))).
Definition add_region (a n : Z) (f : Z -> Z) (h : mm_heap) : mm_heap :=
  set_regions (<[a := n]> (regions h)) (set_mem (region a n f ∪ mem h) h).
Definition drop_region (a : Z) (h : mm_heap) : option mm_heap :=
  n ← regions h !! a;
  Some (set_regions (delete a (regions h))
    (set_mem (filter (fun p : Z * Z => ~ (a <= p.1 < a + n)) (mem h)) h)).

(** The storage manager's [_alloc] and [_realloc] (an address and what the
    fresh memory holds, or [None] for a null pointer), and [zend_error] of a
    fatal error, which may run code of the program. *)
Class Storage := {
  storage_alloc : Z -> mm_heap -> option (Z * (Z -> Z));
  storage_realloc : Z -> Z -> mm_heap -> option (Z * (Z -> Z));
  zend_error_noreturn : mm_heap -> option mm_heap
}.
Context `{Storage}.

Definition ZEND_MM_STORAGE_ALLOC (n : Z) (h : mm_heap) : option (Z * mm_heap) :=
  '(a, f) ← storage_alloc n h; Some (a, add_region a n f h).
Definition ZEND_MM_STORAGE_FREE (a : Z) (h : mm_heap) : option mm_heap := drop_region a h.

(** What the segment held is copied, as far as there is room. *)
Definition moved (a old b n : Z) (h : mm_heap) (f : Z -> Z) (x : Z) : Z :=
  if x - b <? Z.min old n then default (f x) (mem h !! (x - b + a)) else f x.
Definition ZEND_MM_STORAGE_REALLOC (a n : Z) (h : mm_heap) : option (option (Z * mm_heap)) :=
  old ← regions h !! a;
  match storage_realloc a n h with
  | None => Some None
  | Some (b, f) => h' ← drop_region a h; Some (Some (b, add_region b n (moved a old b n h f) h'))
  end.

(** A variable of type [zend_mm_segment**]: [None] is [&heap->segments_list]. *)
Definition segment_link (p : option Z) (h : mm_heap) : option Z :=
  match p with None => Some (segments_list h) | Some s => load (seg_next s) h end.
Definition set_segment_link (p : option Z) (x : Z) (h : mm_heap) : option mm_heap :=
  match p with None => Some (set_segments_list x h) | Some s => store (seg_next s) x h end.
Fixpoint find_segment (fuel : nat) (segment : Z) (p : option Z) (h : mm_heap) : option (option Z) :=
  x ← segment_link p h;
  if x =? segment then Some p
  else match fuel with O => None | S fuel => find_segment fuel segment (Some x) h end.

Definition zend_mm_del_segment (segment : Z) (h : mm_heap) : option mm_heap :=
  p ← find_segment (base.size (regions h)) segment None h;
  next ← load (seg_next segment) h;
  h ← set_segment_link p next h;
  n ← load (seg_size segment) h;
  ZEND_MM_STORAGE_FREE segment (set_real_size (size_t (real_size h - n)) h).

(** ** The cache *)
Definition ZEND_MM_CACHE_SIZE : Z := ZEND_MM_NUM_BUCKETS * 4 * 1024.

(** One block of a list of the cache becomes free. *)
Definition uncache (mm_block : Z) (h : mm_heap) : option mm_heap :=
  size ← ZEND_MM_BLOCK_SIZE mm_block h;
  next_block ← ZEND_MM_NEXT_BLOCK mm_block h;
  let h := set_cached (to_uint (cached h - size)) h in
  prev_free ← ZEND_MM_PREV_BLOCK_IS_FREE mm_block h;
  '(mm_block, size, h) ←
    (if (prev_free : bool) then
       mm_block ← ZEND_MM_PREV_BLOCK mm_block h;
       n ← ZEND_MM_FREE_BLOCK_SIZE mm_block h;
       h ← zend_mm_remove_from_free_list mm_block h;
       Some (mm_block, size_t (size + n), h)
     else Some (mm_block, size, h));
  next_free ← ZEND_MM_IS_FREE_BLOCK next_block h;
  '(size, h) ←
    (if (next_free : bool) then
       n ← ZEND_MM_FREE_BLOCK_SIZE next_block h;
       h ← zend_mm_remove_from_free_list next_block h;
       Some (size_t (size + n), h)
     else Some (size, h));
  h ← ZEND_MM_BLOCK mm_block ZEND_MM_FREE_BLOCK size h;
  first ← ZEND_MM_IS_FIRST_BLOCK mm_block h;
  next ← ZEND_MM_NEXT_BLOCK mm_block h;
  guard ← ZEND_MM_IS_GUARD_BLOCK next h;
  if (first : bool) && (guard : bool) then zend_mm_del_segment (mm_block - ZEND_MM_ALIGNED_SEGMENT_SIZE) h
  else zend_mm_add_to_free_list mm_block h.

Fixpoint uncache_list (fuel : nat) (mm_block : Z) (h : mm_heap) : option mm_heap :=
  if mm_block =? NULL then Some h
  else
    match fuel with
    | O => None
    | S fuel => q ← load (f_prev_free mm_block) h; h ← uncache mm_block h; uncache_list fuel q h
    end.
Fixpoint free_cache_loop (n : nat) (i : nat) (h : mm_heap) : option mm_heap :=
  match n with
  | O => Some h
  | S n =>
      mm_block ← cache h !! i;
      h ← (if mm_block =? NULL then Some h
           else h ← uncache_list (base.size (mem h)) mm_block h; Some (set_cache (<[i := NULL]> (cache h)) h));
      free_cache_loop n (S i) h
  end.
Definition zend_mm_free_cache (h : mm_heap) : option mm_heap :=
  free_cache_loop (Z.to_nat ZEND_MM_NUM_BUCKETS) 0 h.

(** ** Giving memory back *)
Definition _zend_mm_free_int (p : Z) (h : mm_heap) : option mm_heap :=
  if p =? NULL then Some h
  else
    let mm_block := ZEND_MM_HEADER_OF p in
    size ← ZEND_MM_BLOCK_SIZE mm_block h;
    if ZEND_MM_SMALL_SIZE size && (cached h <? ZEND_MM_CACHE_SIZE) then
      let index := ZEND_MM_BUCKET_INDEX size in
      c ← cache h !! Z.to_nat index;
      h ← store (f_prev_free mm_block) c h;
      Some (set_cached (to_uint (cached h + size)) (set_cache (<[Z.to_nat index := mm_block]> (cache h)) h))
    else
      let h := set_size (size_t (ZendAlloc.size h - size)) h in
      let next_block := mm_block + size in
      next_free ← ZEND_MM_IS_FREE_BLOCK next_block h;
      '(size, h) ←
        (if (next_free : bool) then
           h ← zend_mm_remove_from_free_list next_block h;
           n ← ZEND_MM_FREE_BLOCK_SIZE next_block h;
           Some (size_t (size + n), h)
         else Some (size, h));
      prev_free ← ZEND_MM_PREV_BLOCK_IS_FREE mm_block h;
      '(mm_block, size, h) ←
        (if (prev_free : bool) then
           mm_block ← ZEND_MM_PREV_BLOCK mm_block h;
           h ← zend_mm_remove_from_free_list mm_block h;
           n ← ZEND_MM_FREE_BLOCK_SIZE mm_block h;
           Some (mm_block, size_t (size + n), h)
         else Some (mm_block, size, h));
      first ← ZEND_MM_IS_FIRST_BLOCK mm_block h;
      guard ← ZEND_MM_IS_GUARD_BLOCK (mm_block + size) h;
      if (first : bool) && (guard : bool) then zend_mm_del_segment (mm_block - ZEND_MM_ALIGNED_SEGMENT_SIZE) h
      else
        h ← ZEND_MM_BLOCK mm_block ZEND_MM_FREE_BLOCK size h;
        zend_mm_add_to_free_list mm_block h.

(** ** Running out of memory *)
Inductive result := Returned (p : Z) (h : mm_heap) | Bailout (h : mm_heap).

Definition zend_mm_safe_error (h : mm_heap) : option result :=
  h ← (if reserve h =? NULL then Some h
       else h' ← _zend_mm_free_int (reserve h) h; Some (set_reserve NULL h'));
  h ← (if overflow h =? 0 then zend_error_noreturn (set_overflow 1 h) else Some (set_overflow 2 h));
  Some (Bailout h).

(** ** Allocating *)

(** The way down the trie: the blocks met on it, and the last subtree on the
    right that was passed by. *)
Inductive found := Exactly (b : Z) | Best (best_fit best_size rst : Z).
Fixpoint search_path (fuel : nat) (true_size m p best_fit best_size rst : Z) (h : mm_heap) : option found :=
  match fuel with
  | O => None
  | S fuel =>
      n ← ZEND_MM_FREE_BLOCK_SIZE p h;
      if n =? true_size then b ← load (f_next_free p) h; Some (Exactly b)
      else
        let better := (true_size <=? n) && (n <? best_size) in
        let best_size := if better then n else best_size in
        let best_fit := if better then p else best_fit in
        if Z.land m (Z.shiftl 1 (ZEND_MM_NUM_BUCKETS - 1)) =? 0 then
          c1 ← load (f_child p 1) h;
          let rst := if c1 =? NULL then rst else c1 in
          c0 ← load (f_child p 0) h;
          if c0 =? NULL then Some (Best best_fit best_size rst)
          else search_path fuel true_size (size_t (Z.shiftl m 1)) c0 best_fit best_size rst h
        else
          c1 ← load (f_child p 1) h;
          if c1 =? NULL then Some (Best best_fit best_size rst)
          else search_path fuel true_size (size_t (Z.shiftl m 1)) c1 best_fit best_size rst h
  end.

(** [for (p = rst; p; p = p->child[p->child[0] != NULL])] *)
Fixpoint search_rst (fuel : nat) (true_size p best_fit best_size : Z) (h : mm_heap) : option found :=
  if p =? NULL then Some (Best best_fit best_size NULL)
  else
    match fuel with
    | O => None
    | S fuel =>
        n ← ZEND_MM_FREE_BLOCK_SIZE p h;
        if n =? true_size then b ← load (f_next_free p) h; Some (Exactly b)
        else
          let better := (true_size <? n) && (n <? best_size) in
          let best_size := if better then n else best_size in
          let best_fit := if better then p else best_fit in
          c0 ← load (f_child p 0) h;
          c ← load (f_child p (if c0 =? NULL then 0 else 1)) h;
          search_rst fuel true_size c best_fit best_size h
    end.

(** [while ((p = p->child[p->child[0] != NULL]))] *)
Fixpoint search_smallest (fuel : nat) (p best_fit : Z) (h : mm_heap) : option Z :=
  match fuel with
  | O => None
  | S fuel =>
      c0 ← load (f_child p 0) h;
      p ← load (f_child p (if c0 =? NULL then 0 else 1)) h;
      if p =? NULL then Some best_fit
      else
        n ← ZEND_MM_FREE_BLOCK_SIZE p h;
        best ← ZEND_MM_FREE_BLOCK_SIZE best_fit h;
        search_smallest fuel p (if n <? best then p else best_fit) h
  end.

(** "Search for smallest large free block" *)
Definition search_above (index bitmap : Z) (h : mm_heap) : option Z :=
  low ← zend_mm_low_bit bitmap;
  p ← load (large_free_buckets h (index + low)) h;
  best_fit ← search_smallest (Z.to_nat ZEND_MM_NUM_BUCKETS) p p h;
  load (f_next_free best_fit) h.

Definition zend_mm_search_large_block (true_size : Z) (h : mm_heap) : option Z :=
  index ← ZEND_MM_LARGE_BUCKET_INDEX true_size;
  let bitmap := Z.shiftr (large_free_bitmap h) index in
  if bitmap =? 0 then Some NULL
  else if negb (Z.land bitmap 1 =? 0) then
    p ← load (large_free_buckets h index) h;
    r ← search_path (Z.to_nat ZEND_MM_NUM_BUCKETS) true_size (size_t (Z.shiftl true_size (ZEND_MM_NUM_BUCKETS - index)))
          p NULL (size_t (-1)) NULL h;
    r ← match r with
        | Exactly b => Some (Exactly b)
        | Best best_fit best_size rst =>
            search_rst (Z.to_nat ZEND_MM_NUM_BUCKETS) true_size rst best_fit best_size h
        end;
    match r with
    | Exactly b => Some b
    | Best best_fit _ _ =>
        if negb (best_fit =? NULL) then load (f_next_free best_fit) h
        else
          let bitmap := Z.shiftr bitmap 1 in
          if bitmap =? 0 then Some NULL else search_above (index + 1) bitmap h
    end
  else search_above index bitmap h.

(** The list of rests is searched only when no segment may be added. *)
Fixpoint search_rest (fuel : nat) (true_size p best_fit best_size : Z) (h : mm_heap) : option Z :=
  if p =? ZEND_MM_REST_BUCKET h then Some best_fit
  else
    match fuel with
    | O => None
    | S fuel =>
        n ← ZEND_MM_FREE_BLOCK_SIZE p h;
        if n =? true_size then Some p
        else
          let better := (true_size <? n) && (n <? best_size) in
          q ← load (f_prev_free p) h;
          search_rest fuel true_size q (if better then p else best_fit) (if better then n else best_size) h
    end.

(** A free block for [true_size] bytes, or 0. *)
Definition search_block (true_size : Z) (h : mm_heap) : option Z :=
  let index := ZEND_MM_BUCKET_INDEX true_size in
  let bitmap := Z.shiftr (free_bitmap h) index in
  if ZEND_MM_SMALL_SIZE true_size && negb (bitmap =? 0) then
    low ← zend_mm_low_bit bitmap;
    load (free_buckets h ((index + low) * 2)) h
  else
    best_fit ← zend_mm_search_large_block true_size h;
    if (best_fit =? NULL) && (size_t (limit h - block_size h) <=? real_size h) then
      p ← load (rest_buckets h 0) h;
      search_rest (base.size (mem h)) true_size p NULL (size_t (-1)) h
    else Some best_fit.

(** The [true_size] bytes at the start of [b] are used, the rest of its
    [block_size] bytes becomes free if it can be a block: [add] puts it into a
    list.  The number of bytes used. *)
Definition split_block (b block_size true_size : Z) (add : Z -> Z -> mm_heap -> option mm_heap) (h : mm_heap) :
    option (mm_heap * Z) :=
  let remaining_size := size_t (block_size - true_size) in
  if remaining_size <? ZEND_MM_ALIGNED_MIN_HEADER_SIZE then
    h ← ZEND_MM_BLOCK b ZEND_MM_USED_BLOCK block_size h; Some (h, block_size)
  else
    h ← ZEND_MM_BLOCK b ZEND_MM_USED_BLOCK true_size h;
    let new_free_block := b + true_size in
    h ← ZEND_MM_BLOCK new_free_block ZEND_MM_FREE_BLOCK remaining_size h;
    h ← add new_free_block remaining_size h;
    Some (h, true_size).

Definition count_used (n : Z) (h : mm_heap) : mm_heap :=
  let h := set_size n h in if peak h <? ZendAlloc.size h then set_peak (ZendAlloc.size h) h else h.
Definition count_real (n : Z) (h : mm_heap) : mm_heap :=
  let h := set_real_size n h in if real_peak h <? real_size h then set_real_peak (real_size h) h else h.

(** The size of a segment for a block of [true_size] bytes, and whether the
    block needs one of its own. *)
Definition segment_size (true_size : Z) (h : mm_heap) : Z * bool :=
  if size_t (block_size h - (ZEND_MM_ALIGNED_SEGMENT_SIZE + ZEND_MM_ALIGNED_HEADER_SIZE)) <? true_size then
    let n := size_t (true_size + ZEND_MM_ALIGNED_SEGMENT_SIZE + ZEND_MM_ALIGNED_HEADER_SIZE) in
    (Z.land (size_t (n + (block_size h - 1))) (size_t (Z.lnot (block_size h - 1))), true)
  else (block_size h, false).

(** [segment_size - ZEND_MM_ALIGNED_SEGMENT_SIZE - ZEND_MM_ALIGNED_HEADER_SIZE] *)
Definition segment_room (n : Z) : Z := size_t (n - ZEND_MM_ALIGNED_SEGMENT_SIZE - ZEND_MM_ALIGNED_HEADER_SIZE).

(** A new segment becomes the first of the list, its memory a single block. *)
Definition open_segment (segment n : Z) (h : mm_heap) : option (Z * Z * mm_heap) :=
  let h := count_real (size_t (real_size h + n)) h in
  h ← store (seg_size segment) n h;
  h ← store (seg_next segment) (segments_list h) h;
  let h := set_segments_list segment h in
  let best_fit := segment + ZEND_MM_ALIGNED_SEGMENT_SIZE in
  h ← ZEND_MM_MARK_FIRST_BLOCK best_fit h;
  h ← ZEND_MM_LAST_BLOCK (best_fit + segment_room n) h;
  Some (best_fit, segment_room n, h).

Definition out_of_memory (h : mm_heap) : option result := zend_mm_safe_error h.

(** The block was found or made: use it. *)
Definition use_block (best_fit block_size true_size : Z) (keep_rest : bool) (h : mm_heap) : option result :=
  '(h, n) ← split_block best_fit block_size true_size
    (fun b _ => if keep_rest then zend_mm_add_to_rest_list b else zend_mm_add_to_free_list b) h;
  Some (Returned (ZEND_MM_DATA_OF best_fit) (count_used (size_t (ZendAlloc.size h + n)) h)).

Definition alloc_block (true_size : Z) (h : mm_heap) : option result :=
  best_fit ← search_block true_size h;
  if best_fit =? NULL then
    let '(n, keep_rest) := segment_size true_size h in
    if (n <? true_size) || (limit h <? size_t (real_size h + n)) then
      h ← zend_mm_free_cache h; zend_mm_safe_error h
    else
      match ZEND_MM_STORAGE_ALLOC n h with
      | None => h ← zend_mm_free_cache h; out_of_memory h
      | Some (segment, h) =>
          '(best_fit, block_size, h) ← open_segment segment n h;
          use_block best_fit block_size true_size keep_rest h
      end
  else
    h ← ZEND_MM_CHECK_BLOCK_LINKAGE best_fit h;
    h ← zend_mm_remove_from_free_list best_fit h;
    block_size ← ZEND_MM_FREE_BLOCK_SIZE best_fit h;
    use_block best_fit block_size true_size false h.

Definition _zend_mm_alloc_int (size : Z) (h : mm_heap) : option result :=
  let true_size := ZEND_MM_TRUE_SIZE size in
  if ZEND_MM_SMALL_SIZE true_size then
    if true_size <? size then out_of_memory h
    else
      let index := Z.to_nat (ZEND_MM_BUCKET_INDEX true_size) in
      best_fit ← cache h !! index;
      if negb (best_fit =? NULL) then
        next ← load (f_prev_free best_fit) h;
        let h := set_cached (to_uint (cached h - true_size)) (set_cache (<[index := next]> (cache h)) h) in
        Some (Returned (ZEND_MM_DATA_OF best_fit) h)
      else alloc_block true_size h
  else alloc_block true_size h.

(** ** Resizing *)

(** [memcpy] of [n] words. *)
Fixpoint memcpy (n : nat) (dst src : Z) (h : mm_heap) : option mm_heap :=
  match n with
  | O => Some h
  | S n => x ← load src h; h ← store dst x h; memcpy n (dst + W) (src + W) h
  end.
(** What a block of [orig_size] bytes holds. *)
Definition copy_data (ptr p orig_size : Z) (h : mm_heap) : option mm_heap :=
  memcpy (Z.to_nat ((orig_size - ZEND_MM_ALIGNED_HEADER_SIZE) / W)) ptr p h.

Definition shrink_block (p mm_block orig_size true_size : Z) (h : mm_heap) : option result :=
  let remaining_size := orig_size - true_size in
  if ZEND_MM_ALIGNED_MIN_HEADER_SIZE <=? remaining_size then
    let next_block := mm_block + orig_size in
    next_free ← ZEND_MM_IS_FREE_BLOCK next_block h;
    '(remaining_size, h) ←
      (if (next_free : bool) then
         n ← ZEND_MM_FREE_BLOCK_SIZE next_block h;
         h ← zend_mm_remove_from_free_list next_block h;
         Some (size_t (remaining_size + n), h)
       else Some (remaining_size, h));
    h ← ZEND_MM_BLOCK mm_block ZEND_MM_USED_BLOCK true_size h;
    let new_free_block := mm_block + true_size in
    h ← ZEND_MM_BLOCK new_free_block ZEND_MM_FREE_BLOCK remaining_size h;
    h ← zend_mm_add_to_free_list new_free_block h;
    Some (Returned p (set_size (size_t (ZendAlloc.size h + (true_size - orig_size))) h))
  else Some (Returned p h).

(** A block of the cache takes the data, and its place is taken by the old one. *)
Definition swap_with_cached (p mm_block best_fit orig_size true_size : Z) (h : mm_heap) : option result :=
  let index := Z.to_nat (ZEND_MM_BUCKET_INDEX true_size) in
  next ← load (f_prev_free best_fit) h;
  let h := set_cache (<[index := next]> (cache h)) h in
  let ptr := ZEND_MM_DATA_OF best_fit in
  h ← copy_data ptr p orig_size h;
  let h := set_cached (to_uint (cached h - (true_size - orig_size))) h in
  let index := Z.to_nat (ZEND_MM_BUCKET_INDEX orig_size) in
  c ← cache h !! index;
  h ← store (f_prev_free mm_block) c h;
  Some (Returned ptr (set_cache (<[index := mm_block]> (cache h)) h)).

(** The free block behind is large enough. *)
Definition grow_in_place (p mm_block next_block orig_size true_size : Z) (h : mm_heap) : option result :=
  next_size ← ZEND_MM_FREE_BLOCK_SIZE next_block h;
  let block_size := size_t (orig_size + next_size) in
  h ← zend_mm_remove_from_free_list next_block h;
  '(h, n) ← split_block mm_block block_size true_size
    (fun new_free_block remaining_size h =>
       first ← ZEND_MM_IS_FIRST_BLOCK mm_block h;
       guard ← ZEND_MM_IS_GUARD_BLOCK (new_free_block + remaining_size) h;
       if (first : bool) && (guard : bool) then zend_mm_add_to_rest_list new_free_block h
       else zend_mm_add_to_free_list new_free_block h) h;
  Some (Returned p (count_used (size_t (ZendAlloc.size h + n - orig_size)) h)).

(** The segment that moved takes the place of the old one in the list. *)
Definition relink_segment (segment segment_copy mm_block : Z) (h : mm_heap) : option (Z * mm_heap) :=
  if segment =? segment_copy then Some (mm_block, h)
  else
    seg ← find_segment (base.size (regions h)) segment_copy None h;
    h ← set_segment_link seg segment h;
    let mm_block := segment + ZEND_MM_ALIGNED_SEGMENT_SIZE in
    h ← ZEND_MM_MARK_FIRST_BLOCK mm_block h;
    Some (mm_block, h).

(** The segment has [n] bytes now. *)
Definition reopen_segment (segment segment_copy n mm_block : Z) (h : mm_heap) : option (Z * mm_heap) :=
  old ← load (seg_size segment) h;
  let h := count_real (size_t (real_size h + (n - old))) h in
  h ← store (seg_size segment) n h;
  '(mm_block, h) ← relink_segment segment segment_copy mm_block h;
  h ← ZEND_MM_LAST_BLOCK (mm_block + segment_room n) h;
  Some (mm_block, h).

(** [realloc_segment]: the block is alone in its segment. *)
Definition grow_segment (mm_block next_block orig_size true_size : Z) (h : mm_heap) : option result :=
  let '(n, _) := segment_size true_size h in
  let segment_copy := mm_block - ZEND_MM_ALIGNED_SEGMENT_SIZE in
  old ← load (seg_size segment_copy) h;
  if (n <? true_size) || (limit h <? size_t (real_size h + n - old)) then
    next_free ← ZEND_MM_IS_FREE_BLOCK next_block h;
    h ← (if (next_free : bool) then zend_mm_add_to_free_list next_block h else Some h);
    h ← zend_mm_free_cache h;
    zend_mm_safe_error h
  else
    r ← ZEND_MM_STORAGE_REALLOC segment_copy n h;
    match r with
    | None => h ← zend_mm_free_cache h; out_of_memory h
    | Some (segment, h) =>
        '(mm_block, h) ← reopen_segment segment segment_copy n mm_block h;
        '(h, used) ← split_block mm_block (segment_room n) true_size (fun b _ => zend_mm_add_to_rest_list b) h;
        Some (Returned (ZEND_MM_DATA_OF mm_block) (count_used (size_t (ZendAlloc.size h + used - orig_size)) h))
    end.

Definition move_block (p orig_size size : Z) (h : mm_heap) : option result :=
  r ← _zend_mm_alloc_int size h;
  match r with
  | Returned ptr h =>
      h ← copy_data ptr p orig_size h;
      h ← _zend_mm_free_int p h;
      Some (Returned ptr h)
  | Bailout h => Some (Bailout h)
  end.

(** A larger block is needed and the cache has none. *)
Definition grow_block (p mm_block orig_size true_size size : Z) (h : mm_heap) : option result :=
  let next_block := mm_block + orig_size in
  next_free ← ZEND_MM_IS_FREE_BLOCK next_block h;
  first ← ZEND_MM_IS_FIRST_BLOCK mm_block h;
  if (next_free : bool) then
    h ← ZEND_MM_CHECK_BLOCK_LINKAGE next_block h;
    next_size ← ZEND_MM_FREE_BLOCK_SIZE next_block h;
    if true_size <=? size_t (orig_size + next_size) then grow_in_place p mm_block next_block orig_size true_size h
    else
      guard ← ZEND_MM_IS_GUARD_BLOCK (next_block + next_size) h;
      if (first : bool) && (guard : bool) then
        h ← zend_mm_remove_from_free_list next_block h;
        grow_segment mm_block next_block orig_size true_size h
      else move_block p orig_size size h
  else
    guard ← ZEND_MM_IS_GUARD_BLOCK next_block h;
    if (first : bool) && (guard : bool) then grow_segment mm_block next_block orig_size true_size h
    else move_block p orig_size size h.

Definition _zend_mm_realloc_int (p size : Z) (h : mm_heap) : option result :=
  if p =? NULL then _zend_mm_alloc_int size h
  else
    let mm_block := ZEND_MM_HEADER_OF p in
    let true_size := ZEND_MM_TRUE_SIZE size in
    orig_size ← ZEND_MM_BLOCK_SIZE mm_block h;
    if true_size <? size then out_of_memory h
    else if true_size <=? orig_size then shrink_block p mm_block orig_size true_size h
    else
      let c := if ZEND_MM_SMALL_SIZE true_size then cache h !! Z.to_nat (ZEND_MM_BUCKET_INDEX true_size) else Some NULL in
      best_fit ← c;
      if negb (best_fit =? NULL) then swap_with_cached p mm_block best_fit orig_size true_size h
      else grow_block p mm_block orig_size true_size size h.

Definition _zend_mm_block_size (p : Z) (h : mm_heap) : option Z :=
  if p =? NULL then Some 0 else ZEND_MM_BLOCK_SIZE (ZEND_MM_HEADER_OF p) h.

(** ** Start and end *)

(** [malloc] of the heap structure gave the address [b] for its arrays, which
    hold what the memory held. *)
Definition zend_mm_startup_ex (b bsize reserve_size : Z) (junk : Z -> Z) : option (option result) :=
  low ← zend_mm_low_bit bsize;
  high ← zend_mm_high_bit bsize;
  if negb (low =? high) then Some None
  else
    let arrays := region b ((3 * ZEND_MM_NUM_BUCKETS + 2) * W) junk in
    h ← zend_mm_init
      (MmHeap arrays ∅ b 0 0 bsize 0 NULL 0 0 (Z.shiftl 1 (ZEND_MM_NUM_BUCKETS - 2)) 0 0 reserve_size NULL 0 0 [] 0);
    if 0 <? reserve_size then
      r ← _zend_mm_alloc_int reserve_size h;
      Some (Some match r with Returned p h => Returned b (set_reserve p h) | Bailout h => Bailout h end)
    else Some (Some (Returned b h)).

(** The segments from [segment] on, or all of them but the last, are freed; the
    one that is left, or 0. *)
Fixpoint free_segments (fuel : nat) (keep : bool) (segment : Z) (h : mm_heap) : option (Z * mm_heap) :=
  if segment =? NULL then Some (NULL, h)
  else
    match fuel with
    | O => None
    | S fuel =>
        next ← load (seg_next segment) h;
        if keep && (next =? NULL) then Some (segment, h)
        else h ← ZEND_MM_STORAGE_FREE segment h; free_segments fuel keep next h
    end.

(** [zend_mm_shutdown] between requests: all blocks are given up, and one
    segment is kept when there is a reserve. *)
Definition zend_mm_shutdown (h : mm_heap) : option result :=
  let h := set_reserve NULL h in
  '(segment, h) ← free_segments (base.size (regions h)) (negb (reserve_size h =? 0)) (segments_list h) h;
  let h := set_segments_list segment h in
  h ← zend_mm_init h;
  '(n : Z) ← (if segment =? NULL then Some 0 else load (seg_size segment) h);
  let h := set_peak 0 (set_size 0 (set_real_peak n (set_real_size n h))) in
  h ← (if segment =? NULL then Some h
       else
         let b := segment + ZEND_MM_ALIGNED_SEGMENT_SIZE in
         h ← ZEND_MM_MARK_FIRST_BLOCK b h;
         h ← ZEND_MM_LAST_BLOCK (b + segment_room n) h;
         h ← ZEND_MM_BLOCK b ZEND_MM_FREE_BLOCK (segment_room n) h;
         zend_mm_add_to_free_list b h);
  if reserve_size h =? 0 then Some (Returned NULL (set_overflow 0 h))
  else
    r ← _zend_mm_alloc_int (reserve_size h) h;
    Some match r with
         | Returned p h => Returned NULL (set_overflow 0 (set_reserve p h))
         | Bailout h => Bailout h
         end.

(** ** Sizes that are computed, and the memory limit *)

(** The version for x86-64: [mul], [add], [adc]; [None] is the error
    "Possible integer overflow in memory allocation". *)
Definition safe_address (nmemb size offset : Z) : option Z :=
  let low := size_t (nmemb * size) in
  let high := nmemb * size / 2 ^ ZEND_MM_NUM_BUCKETS in
  let res := size_t (low + offset) in
  let carry := (low + offset) / 2 ^ ZEND_MM_NUM_BUCKETS in
  let overflow := size_t (high + carry) in
  if overflow =? 0 then Some res else None.

Definition zend_set_memory_limit (memory_limit : Z) (h : mm_heap) : mm_heap :=
  set_limit (if block_size h <=? memory_limit then memory_limit else block_size h) h.
Definition zend_memory_usage (real_usage : bool) (h : mm_heap) : Z :=
  if real_usage then real_size h else size_t (ZendAlloc.size h - cached h).
Definition zend_memory_peak_usage (real_usage : bool) (h : mm_heap) : Z :=
  if real_usage then real_peak h else peak h.
End Ops.
