(* ===== verification/AllocBits.v ===== *)
(** * AllocBits: sizes, types and bits in zend_alloc.c *)
From S2P Require Import Prelude ZendAlloc.

Section Bits.
Context `{SizeT}.
Abbreviation N := ZEND_MM_NUM_BUCKETS.
Abbreviation HDR := ZEND_MM_ALIGNED_HEADER_SIZE.
Abbreviation SEG := ZEND_MM_ALIGNED_SEGMENT_SIZE.
Abbreviation MIN := ZEND_MM_ALIGNED_MIN_HEADER_SIZE.
Abbreviation MAXS := ZEND_MM_MAX_SMALL_SIZE.

(** Everything that depends on the word size, as numbers of words. *)
Lemma consts : (W = 4 \/ W = 8) /\ N = 8 * W /\ HDR = 2 * W /\ SEG = 2 * W /\ MIN = 4 * W /\ MAXS = 68 * W
  /\ ZEND_MM_MIN_SIZE = 2 * W.
Proof. destruct H as [[]]; vm_compute; auto 10. Qed.

Lemma N_pos : 32 <= N <= 64.
Proof. pose proof consts. lia. Qed.
Lemma word_pow : 2 ^ 32 <= 2 ^ N <= 2 ^ 64.
Proof. pose proof N_pos. split; apply Z.pow_le_mono_r; lia. Qed.

Lemma size_t_small x : 0 <= x < 2 ^ N -> size_t x = x.
Proof. intros Hx. by apply Z.mod_small. Qed.
Lemma size_t_range x : 0 <= size_t x < 2 ^ N.
Proof. apply Z.mod_pos_bound. pose proof word_pow. lia. Qed.

(** ** Bits *)
Lemma high_bit_loop_ok fuel : forall s n, 0 <= s < 2 ^ Z.of_nat fuel ->
  high_bit_loop fuel s n = Some (if s =? 0 then n else n + Z.log2 s + 1).
Proof.
  induction fuel as [|fuel IH]; intros s n Hs; cbn [high_bit_loop].
  - rewrite (proj2 (Z.eqb_eq s 0)) by (simpl in Hs; lia). done.
  - destruct (Z.eqb_spec s 0) as [->|Hne]; [done|].
    pose proof (Z.log2_shiftr s 1 ltac:(lia)) as Hl. pose proof (Z.log2_nonneg s).
    assert (Hh : Z.shiftr s 1 = s / 2) by (by rewrite Z.shiftr_div_pow2).
    rewrite IH.
    + f_equal. destruct (Z.eqb_spec (Z.shiftr s 1) 0) as [E|E].
      * assert (s = 1) as -> by (rewrite Hh in E; apply Z.div_small_iff in E; lia). simpl. lia.
      * assert (2 <= s) by (rewrite Hh in E; destruct (Z.le_gt_cases 2 s); [done|]; destruct E; apply Z.div_small; lia).
        assert (1 <= Z.log2 s) by (by apply (Z.log2_le_mono 2)). lia.
    + rewrite Hh. replace (Z.of_nat (S fuel)) with (Z.of_nat fuel + 1) in Hs by lia. rewrite Z.pow_add_r in Hs by lia.
      split; [apply Z.div_pos; lia|apply Z.div_lt_upper_bound; lia].
Qed.
Lemma high_bit_ok s : 0 < s < 2 ^ N -> zend_mm_high_bit s = Some (Z.log2 s) /\ 0 <= Z.log2 s < N.
Proof.
  intros Hs. pose proof N_pos. assert (Hl : 0 <= Z.log2 s < N) by (split; [apply Z.log2_nonneg|apply Z.log2_lt_pow2; lia]).
  split; [|done]. unfold zend_mm_high_bit. rewrite high_bit_loop_ok by (rewrite Z2Nat.id by lia; lia).
  rewrite (proj2 (Z.eqb_neq s 0)) by lia. cbn [mbind option_bind]. f_equal. rewrite to_uint_small; lia.
Qed.

(** The lowest bit that is set. *)
Definition lowest (s i : Z) : Prop := 0 <= i /\ Z.testbit s i = true /\ forall j, 0 <= j < i -> Z.testbit s j = false.

Lemma nibble m : 0 <= m < 16 -> exists n, offset !! Z.to_nat m = Some n /\ (n = 4 /\ m = 0 \/ 0 <= n < 4 /\ lowest m n).
Proof.
  intros Hm. assert (m = 0 \/ m = 1 \/ m = 2 \/ m = 3 \/ m = 4 \/ m = 5 \/ m = 6 \/ m = 7 \/ m = 8 \/ m = 9 \/ m = 10
    \/ m = 11 \/ m = 12 \/ m = 13 \/ m = 14 \/ m = 15) as Hc by lia.
  assert (Hlow : forall m n, 0 <= n < 4 -> Z.testbit m n = true -> (forall j, (j < Z.to_nat n)%nat -> Z.testbit m (Z.of_nat j) = false)
    -> lowest m n).
  { intros m' n Hn Hb Hj. split; [lia|]. split; [done|]. intros j Hj'. specialize (Hj (Z.to_nat j) ltac:(lia)).
    by rewrite Z2Nat.id in Hj by lia. }
  repeat (destruct Hc as [->|Hc]); try subst m; (eexists; split; [reflexivity|]); [by left|right..];
    (split; [lia|]; apply Hlow; [lia|reflexivity|]; intros j Hj; simpl in Hj; destruct j as [|[|[|j]]]; try lia; reflexivity).
Qed.
Lemma low_nibble s j : 0 <= j < 4 -> Z.testbit (Z.land s 15) j = Z.testbit s j.
Proof. intros Hj. change 15 with (Z.ones 4). by rewrite Z.land_ones, Z.mod_pow2_bits_low by lia. Qed.

Lemma low_bit_loop_ok fuel : forall s n index, 0 < s < 2 ^ (4 * (Z.of_nat fuel + 1)) ->
  offset !! Z.to_nat (Z.land s 15) = Some n ->
  exists i, low_bit_loop fuel s n index = Some (index + i) /\ lowest s i.
Proof.
  induction fuel as [|fuel IH]; intros s n index Hs Hn;
    assert (Hm : 0 <= Z.land s 15 < 16) by (change 15 with (Z.ones 4); rewrite Z.land_ones by lia; apply Z.mod_pos_bound; lia);
    destruct (nibble _ Hm) as (n' & Hn' & Hcase); rewrite Hn in Hn'; injection Hn' as <-; cbn [low_bit_loop].
  - destruct Hcase as [[-> E]|[Hn4 Hl]].
    + exfalso. change 15 with (Z.ones 4) in E. rewrite Z.land_ones, Z.mod_small in E by (simpl in *; lia). lia.
    + rewrite (proj2 (Z.eqb_neq n 4)) by lia. exists n. split; [done|]. split; [lia|]. destruct Hl as (_ & Hb & Hj).
      rewrite low_nibble in Hb by lia. split; [done|]. intros j Hj'. rewrite <- low_nibble by lia. auto.
  - destruct Hcase as [[-> E]|[Hn4 Hl]].
    + simpl Z.eqb. cbv iota.
      assert (Hbits : forall j, 0 <= j < 4 -> Z.testbit s j = false) by (intros j Hj; rewrite <- low_nibble, E by lia; apply Z.bits_0).
      assert (Hsh : 0 < Z.shiftr s 4 < 2 ^ (4 * (Z.of_nat fuel + 1))).
      { rewrite Z.shiftr_div_pow2 by lia. change 15 with (Z.ones 4) in E. rewrite Z.land_ones in E by lia.
        assert (s = 16 * (s / 2 ^ 4)) by (pose proof (Z.div_mod s (2 ^ 4)); lia).
        replace (4 * (Z.of_nat (S fuel) + 1)) with (4 + 4 * (Z.of_nat fuel + 1)) in Hs by lia.
        rewrite Z.pow_add_r in Hs by lia. lia. }
      destruct (nibble (Z.land (Z.shiftr s 4) 15)) as (n' & Hn' & _).
      { change 15 with (Z.ones 4). rewrite Z.land_ones by lia. apply Z.mod_pos_bound. lia. }
      rewrite Hn'. cbn [mbind option_bind]. destruct (IH _ n' (index + 4) Hsh Hn') as (i & -> & Hi0 & Hb & Hj).
      exists (i + 4). split; [f_equal; lia|]. rewrite Z.shiftr_spec in Hb by done. split; [lia|]. split; [done|].
      intros j Hj'. destruct (Z.lt_ge_cases j 4) as [Hj4|Hj4]; [by apply Hbits; lia|].
      specialize (Hj (j - 4) ltac:(lia)). rewrite Z.shiftr_spec in Hj by lia. by replace (j - 4 + 4) with j in Hj by lia.
    + rewrite (proj2 (Z.eqb_neq n 4)) by lia. exists n. split; [done|]. split; [lia|]. destruct Hl as (_ & Hb & Hj).
      rewrite low_nibble in Hb by lia. split; [done|]. intros j Hj'. rewrite <- low_nibble by lia. auto.
Qed.
Lemma low_bit_ok s : 0 < s < 2 ^ N -> exists i, zend_mm_low_bit s = Some i /\ lowest s i /\ i < N.
Proof.
  intros Hs. pose proof N_pos. unfold zend_mm_low_bit.
  destruct (nibble (Z.land s 15)) as (n & Hn & _).
  { change 15 with (Z.ones 4). rewrite Z.land_ones by lia. apply Z.mod_pos_bound. lia. }
  rewrite Hn. cbn [mbind option_bind].
  destruct (low_bit_loop_ok (Z.to_nat N) s n 0) as (i & -> & Hi); [|done|].
  - split; [lia|]. eapply Z.lt_le_trans; [apply Hs|]. apply Z.pow_le_mono_r; lia.
  - exists i. split; [done|]. split; [done|]. destruct Hi as (Hi & Hb & _).
    destruct (Z.lt_ge_cases i N); [done|]. rewrite Z.bits_above_log2 in Hb; [done|lia|].
    assert (Z.log2 s < N) by (apply Z.log2_lt_pow2; lia). lia.
Qed.

(** ** Sizes *)
Lemma min_aligned : MIN mod 8 = 0 /\ MIN = 8 * (MIN / 8).
Proof. pose proof consts. assert (MIN = 16 \/ MIN = 32) as [-> | ->] by lia; done. Qed.
Lemma land_mask x : Z.land x (Z.lnot (ZEND_MM_ALIGNMENT - 1)) = 8 * (x / 8).
Proof.
  change (ZEND_MM_ALIGNMENT - 1) with (Z.ones 3). rewrite <- Z.ldiff_land, Z.ldiff_ones_r, Z.shiftl_mul_pow2, Z.shiftr_div_pow2 by lia.
  change (2 ^ 3) with 8. lia.
Qed.
Lemma aligned_size x : 0 <= x -> x + 7 < 2 ^ N ->
  ZEND_MM_ALIGNED_SIZE x mod 8 = 0 /\ x <= ZEND_MM_ALIGNED_SIZE x <= x + 7.
Proof.
  intros Hx Hn. unfold ZEND_MM_ALIGNED_SIZE. rewrite land_mask, size_t_small by (unfold ZEND_MM_ALIGNMENT; lia).
  unfold ZEND_MM_ALIGNMENT. rewrite Z.mul_comm. split; [by apply Z.mod_mul|].
  pose proof (Z.div_mod (x + 8 - 1) 8). pose proof (Z.mod_pos_bound (x + 8 - 1) 8). lia.
Qed.

(** The size of a block for [size] bytes: large enough, or, when the sum
    overflows, recognisably too small. *)
Lemma true_size_ok size : 0 <= size < 2 ^ N -> let t := ZEND_MM_TRUE_SIZE size in
  t mod 8 = 0 /\ 0 <= t < 2 ^ N /\ (size + HDR + 7 < 2 ^ N -> MIN <= t /\ size + HDR <= t <= size + MIN + 7)
  /\ (2 ^ N <= size + HDR + 7 -> t < size).
Proof.
  intros Hs. pose proof consts as C. pose proof word_pow as Hp. cbv zeta. unfold ZEND_MM_TRUE_SIZE.
  destruct (Z.ltb_spec size ZEND_MM_MIN_SIZE).
  - split; [apply min_aligned|].
    split_and!; lia.
  - replace (size + HDR + END_MAGIC_SIZE) with (size + HDR) by (unfold END_MAGIC_SIZE; lia).
    destruct (Z.lt_ge_cases (size + HDR + 7) (2 ^ N)) as [Hl|Hl].
    + destruct (aligned_size (size + HDR)) as [Hm Hb]; [lia|lia|]. split; [done|]. split_and!; lia.
    + unfold ZEND_MM_ALIGNED_SIZE. rewrite land_mask. unfold ZEND_MM_ALIGNMENT.
      set (y := size_t (size + HDR + 8 - 1)). assert (Hy : y = size + HDR + 7 - 2 ^ N).
      { unfold y, size_t. symmetry. apply (Z.mod_unique_pos _ _ 1); lia. }
      pose proof (Z.div_mod y 8). pose proof (Z.mod_pos_bound y 8).
      split; [rewrite Z.mul_comm; by apply Z.mod_mul|]. split_and!; lia.
Qed.

Lemma small_size_spec s : ZEND_MM_SMALL_SIZE s = true <-> s < MAXS.
Proof. apply Z.ltb_lt. Qed.
Lemma bucket_index s : s mod 8 = 0 -> MIN <= s < MAXS ->
  0 <= ZEND_MM_BUCKET_INDEX s < N /\ s = 8 * ZEND_MM_BUCKET_INDEX s + MIN.
Proof.
  intros Hm Hs. pose proof consts as C. pose proof word_pow as Hp. unfold ZEND_MM_BUCKET_INDEX, ZEND_MM_ALIGNMENT_LOG2.
  rewrite !Z.shiftr_div_pow2 by lia. change (2 ^ 3) with 8.
  pose proof (proj2 min_aligned) as E.
  assert (s = 8 * (s / 8)) by (pose proof (Z.div_mod s 8); lia).
  rewrite size_t_small by lia. lia.
Qed.

(** ** Types in the lower bits of sizes *)
Lemma lor_type s ty : s mod 8 = 0 -> 0 <= ty < 8 -> Z.lor ty s = s + ty.
Proof.
  intros Hs Ht. assert (Hd : Z.land ty s = 0).
  { apply Z.bits_inj'. intros j Hj. rewrite Z.land_spec, Z.bits_0.
    destruct (Z.lt_ge_cases j 3) as [H3|H3].
    - rewrite <- (Z.mod_pow2_bits_low s 3 j) by lia. change (2 ^ 3) with 8. rewrite Hs, Z.bits_0. apply andb_false_r.
    - rewrite <- (Z.mod_small ty (2 ^ 3)) by lia. by rewrite Z.mod_pow2_bits_high by lia. }
  pose proof (Z.add_lor_land ty s) as E. rewrite Hd in E. lia.
Qed.
Lemma land_types s ty : s mod 8 = 0 -> 0 <= ty < 4 ->
  Z.land (s + ty) (Z.lnot ZEND_MM_TYPE_MASK) = s /\ Z.land (s + ty) ZEND_MM_TYPE_MASK = ty
  /\ Z.land (s + ty) ZEND_MM_USED_BLOCK = ty mod 2.
Proof.
  intros Hs Ht. assert (s = 8 * (s / 8)) by (pose proof (Z.div_mod s 8); lia). set (k := s / 8) in *.
  change ZEND_MM_TYPE_MASK with (Z.ones 2). change ZEND_MM_USED_BLOCK with (Z.ones 1).
  rewrite <- Z.ldiff_land, Z.ldiff_ones_r, Z.shiftl_mul_pow2, Z.shiftr_div_pow2, !Z.land_ones by lia.
  change (2 ^ 2) with 4. change (2 ^ 1) with 2. replace (s + ty) with (ty + (2 * k) * 4) by lia.
  rewrite Z.div_add, Z.mod_add, (Z.div_small ty 4), (Z.mod_small ty 4) by lia.
  replace (ty + 2 * k * 4) with (ty + (4 * k) * 2) by lia. rewrite Z.mod_add by lia. lia.
Qed.

(** ** The bits of a size on the way down a trie *)

(** What the loops shift into [m] at depth [d] of the trie number [index]. *)
Definition shifted (s index d : Z) : Z := size_t (Z.shiftl s (N - index + d)).
Lemma shifted_next s index d : 0 <= d -> index <= N -> size_t (Z.shiftl (shifted s index d) 1) = shifted s index (d + 1).
Proof.
  intros Hd Hi. unfold shifted, size_t. rewrite !Z.shiftl_mul_pow2 by lia.
  rewrite Z.mul_mod_idemp_l by (pose proof word_pow; lia). rewrite <- Z.mul_assoc, <- Z.pow_add_r by lia. by do 3 f_equal; lia.
Qed.
Lemma top_bit_spec m : top_bit m = Z.b2z (Z.testbit m (N - 1)).
Proof.
  pose proof N_pos. unfold top_bit. set (x := Z.shiftr m (N - 1)). change (Z.land x 1) with (Z.land x (Z.ones 1)).
  rewrite Z.land_ones by lia. change (2 ^ 1) with 2. unfold x. by rewrite <- Z.bit0_mod, Z.shiftr_spec by lia.
Qed.
Lemma top_bit_shifted s index d : 0 <= d < index -> index <= N -> top_bit (shifted s index d) = Z.b2z (Z.testbit s (index - 1 - d)).
Proof.
  intros Hd Hi. pose proof N_pos. rewrite top_bit_spec. unfold shifted, size_t.
  rewrite Z.mod_pow2_bits_low, Z.shiftl_spec by lia. do 2 f_equal. lia.
Qed.
Lemma top_bit_zero m : 0 <= m < 2 ^ N -> Z.land m (Z.shiftl 1 (N - 1)) =? 0 = negb (top_bit m =? 1).
Proof.
  intros Hm. pose proof N_pos. rewrite top_bit_spec.
  rewrite Z.shiftl_mul_pow2, Z.mul_1_l by lia. destruct (Z.testbit m (N - 1)) eqn:E; simpl.
  - apply Z.eqb_neq. intros Hz. assert (Z.testbit (Z.land m (2 ^ (N - 1))) (N - 1) = false) as Hb by (rewrite Hz; apply Z.bits_0).
    rewrite Z.land_spec, E, Z.pow2_bits_true in Hb by lia. done.
  - apply Z.eqb_eq, Z.bits_inj'. intros j Hj. rewrite Z.land_spec, Z.bits_0, Z.pow2_bits_eqb by lia.
    destruct (Z.eqb_spec (N - 1) j) as [<-|]; [by rewrite E|by rewrite andb_false_r].
Qed.

(** The prefix of a size below depth [d]. *)
Lemma shiftr_bit s k : 0 < k -> Z.shiftr s (k - 1) = 2 * Z.shiftr s k + Z.b2z (Z.testbit s (k - 1)).
Proof.
  intros Hk. rewrite (Z.div_mod (Z.shiftr s (k - 1)) 2) by lia. rewrite <- Z.bit0_mod, Z.shiftr_spec by lia.
  rewrite <- (Z.shiftr_div_pow2 _ 1), Z.shiftr_shiftr by lia.
  replace (k - 1 + 1) with k by lia. by replace (0 + (k - 1)) with (k - 1) by lia.
Qed.
Lemma log2_shiftr s : 0 < s -> Z.shiftr s (Z.log2 s) = 1.
Proof.
  intros Hs. rewrite Z.shiftr_div_pow2 by apply Z.log2_nonneg. pose proof (Z.log2_spec s Hs) as [H1 H2].
  rewrite Z.pow_succ_r in H2 by apply Z.log2_nonneg.
  assert (0 < 2 ^ Z.log2 s) by (apply Z.pow_pos_nonneg; [lia|apply Z.log2_nonneg]).
  symmetry. apply (Z.div_unique_pos _ _ _ (s - 2 ^ Z.log2 s)); lia.
Qed.

(** ** The bitmaps *)
Lemma eqb_decide (i j : Z) : (i =? j) = bool_decide (i = j).
Proof. by destruct (Z.eqb_spec i j); [rewrite bool_decide_eq_true_2|rewrite bool_decide_eq_false_2]. Qed.
Lemma set_bit_spec i b j : 0 <= i -> Z.testbit (set_bit i b) j = bool_decide (i = j) || Z.testbit b j.
Proof.
  intros Hi. unfold set_bit. rewrite Z.lor_spec, Z.shiftl_mul_pow2, Z.mul_1_l, Z.pow2_bits_eqb, orb_comm by lia.
  f_equal. apply eqb_decide.
Qed.
Lemma clear_bit_spec i b j : 0 <= i -> Z.testbit (clear_bit i b) j = negb (bool_decide (i = j)) && Z.testbit b j.
Proof.
  intros Hi. unfold clear_bit. rewrite Z.ldiff_spec, Z.shiftl_mul_pow2, Z.mul_1_l, Z.pow2_bits_eqb, andb_comm by lia.
  f_equal. f_equal. apply eqb_decide.
Qed.
End Bits.
