(* ===== verification/AllocRing.v ===== *)
(** * AllocRing: memory by fields, and the circular lists of free blocks

    A word of the memory is looked at as a field of a block ([at_]).  Over a
    set of fields that do not overlap a write to one leaves the others alone,
    so that lists and tries can be described by functions from blocks and
    fields to values ([fields]) and updated pointwise. *)
From S2P Require Import Prelude ZendAlloc AllocBits.

(** ** Fields *)
Inductive fld := Sz | Pv | Pf | Nf | Par | C0 | C1.
#[export] Instance fld_eq_dec : EqDecision fld.
Proof. solve_decision. Defined.

Abbreviation fields := (Z -> fld -> option Z).

Definition upd (g : fields) (x : Z) (f : fld) (v : Z) : fields :=
  fun y e => if decide (x = y /\ f = e) then Some v else g y e.
Lemma upd_eq g x f v : upd g x f v x f = Some v.
Proof. unfold upd. by rewrite decide_True. Qed.
Lemma upd_ne g x f v y e : x <> y \/ f <> e -> upd g x f v y e = g y e.
Proof. intros Hne. unfold upd. rewrite decide_False; [done|]. tauto. Qed.

(** Two sequences of writes that differ by a last [Some]. *)
Ltac same_stores := repeat (apply option_bind_ext_fun; intros ?); first [reflexivity | match goal with |- ?a = _ => by destruct a end].

Section Fields.
Context `{SizeT}.

Definition off (f : fld) : Z :=
  match f with Sz => 0 | Pv => W | Pf => 2 * W | Nf => 3 * W | Par => 4 * W | C0 => 5 * W | C1 => 6 * W end.
Definition at_ (x : Z) (f : fld) : Z := x + off f.
Definition view (h : mm_heap) : fields := fun x f => mem h !! at_ x f.

Lemma field_addresses x :
  f_size x = at_ x Sz /\ f_prev x = at_ x Pv /\ f_prev_free x = at_ x Pf /\ f_next_free x = at_ x Nf
  /\ f_parent x = at_ x Par /\ f_child x 0 = at_ x C0 /\ f_child x 1 = at_ x C1.
Proof.
  unfold f_size, f_prev, f_prev_free, f_next_free, f_parent, f_child, at_, off. split_and!; lia.
Qed.

(** ** A set of fields *)
Section Valid.
Variable V : Z -> fld -> Prop.
Definition separate : Prop := forall x f y e, V x f -> V y e -> at_ x f = at_ y e -> x = y /\ f = e.
Definition allocated (h : mm_heap) : Prop := forall x f, V x f -> is_Some (mem h !! at_ x f).
Definition agree (g g' : fields) : Prop := forall x f, V x f -> g x f = g' x f.

Lemma agree_refl g : agree g g.
Proof. done. Qed.
Lemma agree_trans g1 g2 g3 : agree g1 g2 -> agree g2 g3 -> agree g1 g3.
Proof. intros H1 H2 x f Hx. by rewrite H1, H2. Qed.
Lemma agree_upd g g' x f v : agree g g' -> agree (upd g x f v) (upd g' x f v).
Proof. intros Hg y e Hy. unfold upd. case_decide; [done|by apply Hg]. Qed.
End Valid.

(** What a function leaves as it was, apart from the memory: everything but the
    bitmaps and the number of rests. *)
Definition others (h : mm_heap) :=
  (regions h, buckets h, block_size h, compact_size h, segments_list h, real_size h, real_peak h, limit h, size h,
   (peak h, reserve_size h, reserve h, overflow h, cached h, cache h)).

(** [h'] comes from [h] by writing to fields in [T]. *)
Record wrote (T : Z -> fld -> Prop) (h h' : mm_heap) : Prop := {
  wr_dom : forall a, is_Some (mem h' !! a) <-> is_Some (mem h !! a);
  wr_mem : forall a, (forall x f, T x f -> a <> at_ x f) -> mem h' !! a = mem h !! a;
  wr_others : others h' = others h
}.

Lemma wrote_refl T h : wrote T h h.
Proof. done. Qed.
Lemma wrote_trans T h1 h2 h3 : wrote T h1 h2 -> wrote T h2 h3 -> wrote T h1 h3.
Proof.
  intros [D1 M1 O1] [D2 M2 O2]. split; [intros a; by rewrite D2, D1|intros a Ha; by rewrite M2, M1|congruence].
Qed.
Lemma wrote_weaken (T T' : Z -> fld -> Prop) h h' : wrote T h h' -> (forall x f, T x f -> T' x f) -> wrote T' h h'.
Proof. intros [D M O] HT. split; [done| |done]. intros a Ha. apply M. intros x f Hx. by apply Ha, HT. Qed.
Lemma wrote_allocated (T : Z -> fld -> Prop) V h h' : wrote T h h' -> allocated V h -> allocated V h'.
Proof. intros Hw Ha x f Hx. by apply (wr_dom _ _ _ Hw), Ha. Qed.
(** Fields that were not written to. *)
Lemma wrote_view (T V : Z -> fld -> Prop) h h' x f : wrote T h h' -> separate V -> (forall y e, T y e -> V y e) ->
  V x f -> ~ T x f -> view h' x f = view h x f.
Proof.
  intros Hw Hs HT Hx Hn. apply (wr_mem _ _ _ Hw). intros y e Hy Heq.
  destruct (Hs x f y e Hx (HT y e Hy) Heq) as [-> ->]. done.
Qed.

Lemma load_field h x f v : view h x f = Some v -> load (at_ x f) h = Some v.
Proof. done. Qed.
Lemma store_field (V : Z -> fld -> Prop) h x f v : separate V -> allocated V h -> V x f ->
  exists h', store (at_ x f) v h = Some h' /\ wrote (fun y e => y = x /\ e = f) h h' /\ agree V (view h') (upd (view h) x f v)
    /\ (free_bitmap h', large_free_bitmap h', rest_count h') = (free_bitmap h, large_free_bitmap h, rest_count h).
Proof.
  intros Hs Ha Hx. unfold store. destruct (Ha x f Hx) as [w Hw]. rewrite Hw. cbn [mbind option_bind].
  eexists. split; [reflexivity|]. split; [split; simpl|split; [|done]].
  - intros a. destruct (decide (at_ x f = a)) as [<-|Hne]; [|by rewrite lookup_insert_ne].
    rewrite lookup_insert_eq, Hw. split; eauto.
  - intros a Hn. rewrite lookup_insert_ne; [done|]. intros <-. by apply (Hn x f).
  - done.
  - intros y e Hy. unfold view, upd. simpl. case_decide as Hd.
    + destruct Hd as [<- <-]. apply lookup_insert_eq.
    + rewrite lookup_insert_ne; [done|]. intros E. apply Hd. by apply Hs.
Qed.

(** ** Several writes *)
Definition bits (h : mm_heap) := (free_bitmap h, large_free_bitmap h, rest_count h).
Fixpoint stores (l : list (Z * fld * Z)) (h : mm_heap) : option mm_heap :=
  match l with
  | [] => Some h
  | (x, f, v) :: l => h ← store (at_ x f) v h; stores l h
  end.
Fixpoint upds (l : list (Z * fld * Z)) (g : fields) : fields :=
  match l with
  | [] => g
  | (x, f, v) :: l => upds l (upd g x f v)
  end.
Definition written (l : list (Z * fld * Z)) (x : Z) (f : fld) : Prop := (x, f) ∈ l.*1.

Lemma written_nil x f : written [] x f <-> False.
Proof. unfold written. by rewrite elem_of_nil. Qed.
Lemma written_cons y e v l x f : written ((y, e, v) :: l) x f <-> (x = y /\ f = e) \/ written l x f.
Proof. unfold written. simpl. rewrite elem_of_cons. split; (intros [?|?]; [left; naive_solver|by right]). Qed.

Lemma agree_upds V l : forall g g', agree V g g' -> agree V (upds l g) (upds l g').
Proof. induction l as [|[[x f] v] l IH]; intros g g' Hg; [done|]. apply IH, agree_upd, Hg. Qed.
Lemma stores_ok (V : Z -> fld -> Prop) l : forall h, separate V -> allocated V h -> (forall x f, written l x f -> V x f) ->
  exists h', stores l h = Some h' /\ wrote (written l) h h' /\ agree V (view h') (upds l (view h)) /\ bits h' = bits h.
Proof.
  induction l as [|[[x f] v] l IH]; intros h Hs Ha Hl.
  - exists h. split_and!; [done|apply wrote_refl|done|done].
  - destruct (store_field V h x f v Hs Ha) as (h1 & E1 & W1 & A1 & B1); [apply Hl; by left|].
    destruct (IH h1 Hs) as (h2 & E2 & W2 & A2 & B2); [by eapply wrote_allocated|intros y e Hy; apply Hl; by right|].
    exists h2. simpl. rewrite E1. split_and!; [done| | |unfold bits in *; congruence].
    + eapply wrote_trans; [apply (wrote_weaken _ _ _ _ W1); intros y e [-> ->]; by left|].
      apply (wrote_weaken _ _ _ _ W2). intros y e Hy. by right.
    + eapply agree_trans; [exact A2|]. by apply agree_upds.
Qed.

Lemma upds_out l : forall g x f, ~ written l x f -> upds l g x f = g x f.
Proof.
  induction l as [|[[y e] v] l IH]; intros g x f Hn; [done|]. rewrite written_cons in Hn. simpl.
  rewrite IH by tauto. apply upd_ne. destruct (decide (y = x)) as [->|]; [|by left]. right. intros ->. tauto.
Qed.
Lemma upds_in l : forall g x f v, NoDup (l.*1) -> (x, f, v) ∈ l -> upds l g x f = Some v.
Proof.
  induction l as [|[[y e] w] l IH]; intros g x f v Hnd Hin; [by apply not_elem_of_nil in Hin|].
  simpl in *. apply NoDup_cons in Hnd as [Hn Hnd]. apply elem_of_cons in Hin as [[= <- <- <-]|Hin]; [|by apply IH].
  rewrite upds_out by done. apply upd_eq.
Qed.
Lemma stores_app l1 l2 h : stores (l1 ++ l2) h = (h ← stores l1 h; stores l2 h).
Proof.
  revert h. induction l1 as [|[[x f] v] l1 IH]; intros h; [done|]. simpl. destruct (store _ _ _); [apply IH|done].
Qed.
Lemma written_app l1 l2 x f : written (l1 ++ l2) x f <-> written l1 x f \/ written l2 x f.
Proof. unfold written. by rewrite fmap_app, elem_of_app. Qed.

Lemma link_between_stores p b n h :
  link_between p b n h = stores [(b, Pf, p); (b, Nf, n); (n, Pf, b); (p, Nf, b)] h.
Proof.
  destruct (field_addresses b) as (_ & _ & E1 & E2 & _). destruct (field_addresses n) as (_ & _ & E3 & _).
  destruct (field_addresses p) as (_ & _ & _ & E4 & _).
  unfold link_between. rewrite E1, E2, E3, E4. simpl. same_stores.
Qed.
Lemma single_node_stores x f b h :
  single_node (at_ x f) b h = stores [(x, f, b); (b, Par, at_ x f); (b, Nf, b); (b, Pf, b)] h.
Proof.
  destruct (field_addresses b) as (_ & _ & E1 & E2 & E3 & _).
  unfold single_node. rewrite E1, E2, E3. simpl. same_stores.
Qed.
End Fields.

(** The fields a list of writes names. *)
Ltac written_cases Hx :=
  rewrite ?written_cons, ?written_nil in Hx;
  repeat match type of Hx with
  | _ \/ _ => destruct Hx as [[-> ->]|Hx]
  | False => destruct Hx
  end.

(** Read a field after some writes: [H] says which. *)
Ltac read_upd :=
  repeat first [ rewrite upd_eq | rewrite upd_ne by first [ by right | by left; congruence | by left; auto | by left; intros -> ] ].

(** ** Circular lists *)

(** The neighbours in [l] are linked both ways. *)
Fixpoint path (g : fields) (l : list Z) : Prop :=
  match l with
  | x :: ((y :: _) as l') => g x Nf = Some y /\ g y Pf = Some x /\ path g l'
  | _ => True
  end.
(** [x] and then [l], closed. *)
Definition ring (g : fields) (x : Z) (l : list Z) : Prop := path g (x :: l ++ [x]).

Lemma path_cons2 g x y l : path g (x :: y :: l) <-> g x Nf = Some y /\ g y Pf = Some x /\ path g (y :: l).
Proof. done. Qed.
Lemma path_app g l1 x l2 : path g (l1 ++ x :: l2) <-> path g (l1 ++ [x]) /\ path g (x :: l2).
Proof.
  induction l1 as [|y l1 IH]; [simpl; tauto|]. destruct l1 as [|z l1].
  - simpl app. rewrite !path_cons2. simpl. tauto.
  - simpl app in *. rewrite !path_cons2, IH. tauto.
Qed.
Lemma path_frame g g' l : path g l -> (forall x, x ∈ l -> g' x Nf = g x Nf /\ g' x Pf = g x Pf) -> path g' l.
Proof.
  induction l as [|x [|y l] IH]; intros Hp Hf; [done|done|]. apply path_cons2 in Hp as (H1 & H2 & H3).
  apply path_cons2. destruct (Hf x) as [E _]; [set_solver +|]. destruct (Hf y) as [_ E']; [set_solver +|].
  rewrite E, E'. split_and!; [done..|]. apply IH; [done|]. intros z Hz. apply Hf. by right.
Qed.
(** The first element's back link and the last one's forward link do not matter. *)
Lemma path_frame_ends g g' x l y : path g (x :: l ++ [y]) ->
  (forall z, z ∈ x :: l -> g' z Nf = g z Nf) -> (forall z, z ∈ l ++ [y] -> g' z Pf = g z Pf) -> path g' (x :: l ++ [y]).
Proof.
  revert x. induction l as [|z l IH]; intros x Hp HN HP; simpl in *.
  - rewrite HN, HP by set_solver +. done.
  - destruct Hp as (H1 & H2 & H3). rewrite HN, HP by set_solver +. split_and!; [done..|].
    apply IH; [done|intros; apply HN; by right|intros; apply HP; by right].
Qed.

Lemma ring_frame g g' x l : ring g x l -> (forall y, y ∈ x :: l -> g' y Nf = g y Nf /\ g' y Pf = g y Pf) -> ring g' x l.
Proof. intros Hr Hf. eapply path_frame; [exact Hr|]. intros y Hy. apply Hf. set_solver +Hy. Qed.

Definition next_of (l : list Z) (x : Z) : Z := match l with y :: _ => y | [] => x end.
Definition prev_of (x : Z) (l : list Z) : Z := match last l with Some y => y | None => x end.

Lemma next_of_app l x : exists l', l ++ [x] = next_of l x :: l'.
Proof. destruct l; simpl; eauto. Qed.
Lemma prev_of_app x l : exists l', x :: l = l' ++ [prev_of x l].
Proof.
  unfold prev_of. induction l as [|y l _] using rev_ind; [by exists []|]. rewrite last_snoc. by exists (x :: l).
Qed.
Lemma next_of_elem l x : next_of l x ∈ x :: l.
Proof. destruct l; set_solver +. Qed.
Lemma prev_of_elem x l : prev_of x l ∈ x :: l.
Proof. destruct (prev_of_app x l) as [l' ->]. set_solver +. Qed.

Lemma ring_split g x l1 y l2 : ring g x (l1 ++ y :: l2) <-> path g (x :: l1 ++ [y]) /\ path g (y :: l2 ++ [x]).
Proof. unfold ring. rewrite <- app_assoc. simpl. apply (path_app g (x :: l1)). Qed.
Lemma ring_rotate g x l1 y l2 : ring g x (l1 ++ y :: l2) -> ring g y (l2 ++ x :: l1).
Proof. rewrite !ring_split. tauto. Qed.

(** The neighbours of an element. *)
Lemma path_first g x l y : path g (x :: l ++ [y]) -> g x Nf = Some (next_of l y) /\ g (next_of l y) Pf = Some x.
Proof. destruct l; simpl; tauto. Qed.
Lemma path_last g x l y : path g (x :: l ++ [y]) -> g y Pf = Some (prev_of x l) /\ g (prev_of x l) Nf = Some y.
Proof.
  intros Hp. destruct (prev_of_app x l) as [l' E]. change (x :: l ++ [y]) with ((x :: l) ++ [y]) in Hp.
  rewrite E, <- app_assoc in Hp. apply path_app in Hp as [_ Hp]. simpl in Hp. tauto.
Qed.
Lemma ring_neighbours g x l1 y l2 : ring g x (l1 ++ y :: l2) ->
  g y Pf = Some (prev_of x l1) /\ g (prev_of x l1) Nf = Some y /\ g y Nf = Some (next_of l2 x) /\ g (next_of l2 x) Pf = Some y.
Proof. intros [H1 H2]%ring_split. apply path_last in H1. apply path_first in H2. tauto. Qed.
Lemma ring_first g x l : ring g x l -> g x Nf = Some (next_of l x) /\ g (next_of l x) Pf = Some x.
Proof. apply path_first. Qed.
Lemma ring_last g x l : ring g x l -> g x Pf = Some (prev_of x l) /\ g (prev_of x l) Nf = Some x.
Proof. apply path_last. Qed.

#[global] Arguments path : simpl never.

(** [y] is put behind [x]. *)
Lemma ring_insert g g' x l y : ring g x l -> NoDup (x :: l) -> y ∉ x :: l ->
  g' y Pf = Some x -> g' y Nf = Some (next_of l x) -> g' (next_of l x) Pf = Some y -> g' x Nf = Some y ->
  (forall z, z ∈ x :: l -> z <> x -> g' z Nf = g z Nf) ->
  (forall z, z ∈ x :: l -> z <> next_of l x -> g' z Pf = g z Pf) ->
  ring g' x (y :: l).
Proof.
  intros Hr Hnd Hy H1 H2 H3 H4 HN HP. unfold ring in *. change ((y :: l) ++ [x]) with (y :: l ++ [x]).
  apply path_cons2. split_and!; [done..|]. destruct l as [|n l]; [done|].
  change ((n :: l) ++ [x]) with (n :: l ++ [x]) in *. apply path_cons2. split_and!; [done..|].
  apply path_cons2 in Hr as (_ & _ & Hr). apply NoDup_cons in Hnd as [Hx Hnd].
  eapply path_frame_ends; [exact Hr| |].
  - intros z Hz. apply HN; [by right|]. intros ->. done.
  - intros z Hz. apply NoDup_cons in Hnd as [Hn Hnd]. apply elem_of_app in Hz as [Hz|Hz%list_elem_of_singleton].
    + apply HP; [by right; right|]. simpl. by intros ->.
    + subst z. apply HP; [by left|]. simpl. intros ->. apply Hx. by left.
Qed.

(** [y] is taken out. *)
Lemma ring_delete g g' x l1 y l2 : ring g x (l1 ++ y :: l2) -> NoDup (x :: l1 ++ l2) ->
  g' (prev_of x l1) Nf = Some (next_of l2 x) -> g' (next_of l2 x) Pf = Some (prev_of x l1) ->
  (forall z, z ∈ x :: l1 ++ l2 -> z <> prev_of x l1 -> g' z Nf = g z Nf) ->
  (forall z, z ∈ x :: l1 ++ l2 -> z <> next_of l2 x -> g' z Pf = g z Pf) ->
  ring g' x (l1 ++ l2).
Proof.
  intros [Hp1 Hp2]%ring_split Hnd H1 H2 HN HP.
  assert (Hsub1 : forall z, z ∈ x :: l1 -> z ∈ x :: l1 ++ l2) by (intros z; rewrite !elem_of_cons, elem_of_app; tauto).
  assert (Hsub2 : forall z, z ∈ l2 -> z ∈ x :: l1 ++ l2) by (intros z; rewrite !elem_of_cons, elem_of_app; tauto).
  assert (Hdis : forall z, z ∈ x :: l1 -> z ∉ l2).
  { change (x :: l1 ++ l2) with ((x :: l1) ++ l2) in Hnd. apply NoDup_app in Hnd as (_ & Hd & _). done. }
  assert (Hx1 : x ∉ l1 ++ l2 /\ NoDup (x :: l1) /\ NoDup l2).
  { pose proof Hnd as [Hx _]%NoDup_cons. change (x :: l1 ++ l2) with ((x :: l1) ++ l2) in Hnd. by apply NoDup_app in Hnd as (? & _ & ?). }
  destruct Hx1 as (Hx & Hnd1 & Hnd2). rewrite not_elem_of_app in Hx. destruct Hx as [Hx1 Hx2].
  unfold ring. rewrite <- app_assoc. change (x :: l1 ++ l2 ++ [x]) with ((x :: l1) ++ l2 ++ [x]).
  destruct (prev_of_app x l1) as [l1' E1]. destruct (next_of_app l2 x) as [l2' E2].
  rewrite E1, E2, <- app_assoc. simpl. apply path_app. split.
  - destruct l1' as [|z l1']; [done|]. injection E1 as <- E1. simpl. rewrite E1 in Hnd1, Hp1.
    change (x :: l1' ++ [prev_of x l1]) with ((x :: l1') ++ [prev_of x l1]) in Hnd1.
    pose proof Hnd1 as (_ & Hd1 & _)%NoDup_app.
    assert (Hp : path g (x :: l1' ++ [prev_of x l1])).
    { rewrite <- app_assoc in Hp1. simpl in Hp1. change (x :: l1' ++ prev_of x l1 :: [y]) with ((x :: l1') ++ prev_of x l1 :: [y]) in Hp1.
      by apply path_app in Hp1 as [? _]. }
    eapply path_frame_ends; [exact Hp| |]; intros w Hw.
    + apply HN; [apply Hsub1; rewrite E1; set_solver +Hw|].
      intros ->. apply (Hd1 _ Hw). by left.
    + apply HP; [apply Hsub1; rewrite E1; by right|]. intros ->.
      destruct l2 as [|n l2]; simpl in Hw.
      * rewrite <- E1 in Hw. done.
      * apply (Hdis n); [rewrite E1; by right|by left].
  - apply path_cons2. split_and!; [done..|]. rewrite <- E2.
    destruct l2 as [|n l2]; [done|]. simpl. apply NoDup_cons in Hnd2 as [Hn _].
    apply path_cons2 in Hp2 as (_ & _ & Hp2). eapply path_frame_ends; [exact Hp2| |]; intros w Hw.
    + apply HN; [by apply Hsub2|]. intros ->. apply (Hdis (prev_of x l1)); [apply prev_of_elem|done].
    + apply elem_of_app in Hw as [Hw|Hw%list_elem_of_singleton].
      * apply HP; [apply Hsub2; by right|]. simpl. by intros ->.
      * subst w. apply HP; [by left|]. simpl. intros ->. apply Hx2. by left.
Qed.

(** ** The operations on circular lists *)
Section RingOps.
Context `{SizeT}.
Variable V : Z -> fld -> Prop.
Hypothesis V_separate : separate V.

Definition linked (l : list Z) : Prop := forall x, x ∈ l -> V x Pf /\ V x Nf.

Lemma unlink_ok h x l1 y l2 : allocated V h -> ring (view h) x (l1 ++ y :: l2) -> NoDup (x :: l1 ++ y :: l2) ->
  linked (x :: l1 ++ l2) ->
  exists h', stores [(prev_of x l1, Nf, next_of l2 x); (next_of l2 x, Pf, prev_of x l1)] h = Some h'
    /\ ring (view h') x (l1 ++ l2)
    /\ wrote (fun z f => z ∈ x :: l1 ++ l2 /\ (f = Pf \/ f = Nf)) h h' /\ bits h' = bits h.
Proof.
  intros Ha Hr Hnd HV. set (p := prev_of x l1). set (n := next_of l2 x).
  assert (Hp : p ∈ x :: l1 ++ l2).
  { pose proof (prev_of_elem x l1) as Hp. fold p in Hp. rewrite elem_of_cons, elem_of_app in *. tauto. }
  assert (Hn : n ∈ x :: l1 ++ l2).
  { pose proof (next_of_elem l2 x) as Hn. fold n in Hn. rewrite elem_of_cons, elem_of_app in *. tauto. }
  destruct (stores_ok V [(p, Nf, n); (n, Pf, p)] h) as (h' & E & Wr & Ag & Bt); [done|done| |].
  { intros z f Hz. by written_cases Hz; apply HV. }
  exists h'. split; [done|]. split; [|split; [|done]].
  - assert (Hnd' : NoDup (x :: l1 ++ l2)).
    { rewrite <- Permutation_middle in Hnd. rewrite perm_swap in Hnd. by apply NoDup_cons in Hnd as [_ Hnd]. }
    eapply (ring_delete (view h)); [exact Hr|done| | | |]; fold p; fold n.
    + rewrite Ag by (by apply HV). simpl. by read_upd.
    + rewrite Ag by (by apply HV). simpl. by read_upd.
    + intros z Hz Hzp. rewrite Ag by (by apply HV). simpl. by read_upd.
    + intros z Hz Hzn. rewrite Ag by (by apply HV). simpl. by read_upd.
  - eapply wrote_weaken; [exact Wr|]. intros z f Hz. by written_cases Hz; auto.
Qed.

Lemma link_ok h x l y : allocated V h -> ring (view h) x l -> NoDup (x :: l) -> y ∉ x :: l -> linked (y :: x :: l) ->
  exists h', link_between x y (next_of l x) h = Some h' /\ ring (view h') x (y :: l)
    /\ wrote (fun z f => z ∈ y :: x :: l /\ (f = Pf \/ f = Nf)) h h' /\ bits h' = bits h.
Proof.
  intros Ha Hr Hnd Hy HV. rewrite link_between_stores. set (n := next_of l x).
  assert (Hn : n ∈ x :: l) by apply next_of_elem.
  assert (Hyx : y <> x) by (intros ->; apply Hy; by left). assert (Hyn : y <> n) by congruence.
  destruct (stores_ok V [(y, Pf, x); (y, Nf, n); (n, Pf, y); (x, Nf, y)] h) as (h' & E & Wr & Ag & Bt); [done|done| |].
  { intros z f Hz. written_cases Hz; apply HV; try (by left); right; [done|by left]. }
  exists h'. split; [done|]. split; [|split; [|done]].
  - apply (ring_insert (view h)); try done; fold n.
    + rewrite Ag by (apply HV; by left). simpl. by read_upd.
    + rewrite Ag by (apply HV; by left). simpl. by read_upd.
    + rewrite Ag by (apply HV; by right). simpl. by read_upd.
    + rewrite Ag by (apply HV; right; by left). simpl. by read_upd.
    + intros z Hz Hzx. assert (y <> z) by congruence. rewrite Ag by (apply HV; by right). simpl. by read_upd.
    + intros z Hz Hzn. assert (y <> z) by congruence. rewrite Ag by (apply HV; by right). simpl. by read_upd.
  - eapply wrote_weaken; [exact Wr|]. intros z f Hz. written_cases Hz; (split; [|auto]); try (by left); right; [done|by left].
Qed.

(** [y] is put in front of [x]. *)
Lemma link_last_ok h x l y : allocated V h -> ring (view h) x l -> NoDup (x :: l) -> y ∉ x :: l -> linked (y :: x :: l) ->
  exists h', link_between (prev_of x l) y x h = Some h' /\ ring (view h') x (l ++ [y])
    /\ wrote (fun z f => z ∈ y :: x :: l /\ (f = Pf \/ f = Nf)) h h' /\ bits h' = bits h.
Proof.
  intros Ha Hr Hnd Hy HV. destruct l as [|p l _] using rev_ind; [by apply (link_ok h x [] y)|].
  unfold prev_of. rewrite last_snoc. apply ring_rotate in Hr. simpl in Hr.
  assert (Hp : p :: x :: l ≡ₚ x :: l ++ [p]) by (rewrite perm_swap; apply perm_skip; by rewrite <- Permutation_cons_append).
  destruct (link_ok h p (x :: l) y) as (h' & E & Hr' & Wr & Bt); try done; [by rewrite Hp..| |].
  { intros z Hz. apply HV. apply elem_of_cons in Hz as [->|Hz]; [by left|right]. by rewrite <- Hp. }
  exists h'. split; [done|]. split; [|split; [|done]].
  - change (y :: x :: l) with ([y] ++ x :: l) in Hr'. apply ring_rotate in Hr'. rewrite <- app_assoc. exact Hr'.
  - eapply wrote_weaken; [exact Wr|]. intros z f [Hz Hf]. split; [|done]. apply elem_of_cons in Hz as [->|Hz]; [by left|right]. by rewrite <- Hp.
Qed.
End RingOps.
