(* ===== verification/AllocTrie.v ===== *)
(** * AllocTrie: the tries of large free blocks

    A node of a trie is a block, with the other blocks of the same size in a
    circular list around it; its two children have, below the bits that lead to
    it, a 0 and a 1. *)
From S2P Require Import Prelude ZendAlloc AllocBits AllocRing.

Inductive tree := Leaf | Node (b : Z) (same : list Z) (l r : tree).

Fixpoint nodes (t : tree) : list Z :=
  match t with
  | Leaf => []
  | Node b same l r => b :: same ++ nodes l ++ nodes r
  end.

(** The fields of a free block that the lists and tries use. *)
Definition link (f : fld) : Prop := f <> Sz /\ f <> Pv.

Section Trie.
Context `{SizeT}.
Abbreviation N := ZEND_MM_NUM_BUCKETS.

Abbreviation slot := (Z * fld)%type.
Definition saddr (s : slot) : Z := at_ s.1 s.2.

(** The place [s] points to the trie [t]. *)
Fixpoint at_tree (g : fields) (s : slot) (t : tree) : Prop :=
  match t with
  | Leaf => g s.1 s.2 = Some NULL
  | Node b same l r =>
      g s.1 s.2 = Some b /\ g b Par = Some (saddr s) /\ ring g b same /\ (forall x, x ∈ same -> g x Par = Some NULL)
      /\ at_tree g (b, C0) l /\ at_tree g (b, C1) r
  end.

Definition root (t : tree) : Z := match t with Leaf => NULL | Node b _ _ _ => b end.
Lemma at_tree_root g s t : at_tree g s t -> g s.1 s.2 = Some (root t).
Proof. destruct t; simpl; tauto. Qed.

Lemma load_slot h (s : slot) v : view h s.1 s.2 = Some v -> load (saddr s) h = Some v.
Proof. done. Qed.

Lemma at_tree_frame g g' t : forall s, at_tree g s t -> g' s.1 s.2 = g s.1 s.2 ->
  (forall x f, x ∈ nodes t -> link f -> g' x f = g x f) -> at_tree g' s t.
Proof.
  assert (L : forall f, f = Pf \/ f = Nf \/ f = Par \/ f = C0 \/ f = C1 -> link f) by (intros f; unfold link; intuition congruence).
  induction t as [|b same l IHl r IHr]; intros s Ht Hs Hf; simpl in *; [by rewrite Hs|].
  destruct Ht as (H1 & H2 & H3 & H4 & H5 & H6).
  assert (Hin : forall x, x ∈ same \/ x ∈ nodes l \/ x ∈ nodes r -> x ∈ b :: same ++ nodes l ++ nodes r).
  { intros x Hx. rewrite elem_of_cons, !elem_of_app. tauto. }
  rewrite Hs. rewrite !(Hf b) by (first [by left|auto 10]). split_and!; [done|done| | | |].
  - eapply ring_frame; [exact H3|]. intros x Hx. rewrite !Hf; auto 10; (apply elem_of_cons in Hx as [->|Hx]; [by left|auto]).
  - intros x Hx. rewrite Hf; auto 10.
  - apply IHl; [done|apply Hf; [by left|auto 10]|auto 10].
  - apply IHr; [done|apply Hf; [by left|auto 10]|auto 10].
Qed.

(** ** Sizes in the right places *)
Section Sizes.
Variable sz : Z -> Z.

(** [t] hangs at depth [d] in the trie number [index], below the bits [pfx]. *)
Fixpoint trie (index d pfx : Z) (t : tree) : Prop :=
  match t with
  | Leaf => True
  | Node b same l r =>
      d <= index /\ Z.shiftr (sz b) (index - d) = pfx /\ (forall x, x ∈ same -> sz x = sz b)
      /\ trie index (d + 1) (2 * pfx) l /\ trie index (d + 1) (2 * pfx + 1) r
  end.

Lemma shiftr_prefix s index d pfx : d < index -> Z.shiftr s (index - (d + 1)) = 2 * pfx + Z.b2z (Z.testbit s (index - 1 - d)) <->
  Z.shiftr s (index - d) = pfx.
Proof.
  intros Hd. pose proof (shiftr_bit s (index - d) ltac:(lia)) as E. replace (index - (d + 1)) with (index - d - 1) by lia.
  replace (index - 1 - d) with (index - d - 1) by lia. rewrite E. lia.
Qed.

Lemma prefix_up s index d pfx (c : bool) : d + 1 <= index -> Z.shiftr s (index - (d + 1)) = 2 * pfx + Z.b2z c -> Z.shiftr s (index - d) = pfx.
Proof.
  intros Hi E. replace (index - (d + 1)) with (index - d - 1) in E by lia.
  rewrite (shiftr_bit s (index - d)) in E by lia. destruct (Z.testbit _ _), c; simpl in E; lia.
Qed.

(** Everything in a subtree has its bits. *)
Lemma trie_prefix index t : forall d pfx x, trie index d pfx t -> x ∈ nodes t ->
  d <= index /\ Z.shiftr (sz x) (index - d) = pfx.
Proof.
  induction t as [|b same l IHl r IHr]; intros d pfx x Ht Hx; simpl in *; [by apply not_elem_of_nil in Hx|].
  destruct Ht as (Hd & Hp & Hs & Hl & Hr).
  rewrite elem_of_cons, !elem_of_app in Hx. destruct Hx as [->|[Hx|[Hx|Hx]]]; [done|by rewrite Hs| |].
  - destruct (IHl _ _ _ Hl Hx) as [? E]. split; [done|]. apply (prefix_up (sz x) index d pfx false); simpl; lia.
  - destruct (IHr _ _ _ Hr Hx) as [? E]. split; [done|]. apply (prefix_up (sz x) index d pfx true); simpl; lia.
Qed.
End Sizes.

(** ** Putting a block in *)
Fixpoint t_insert (sz : Z -> Z) (index d b : Z) (t : tree) : tree :=
  match t with
  | Leaf => Node b [] Leaf Leaf
  | Node x same l r =>
      if sz x =? sz b then Node x (b :: same) l r
      else if Z.testbit (sz b) (index - 1 - d) then Node x same l (t_insert sz index (d + 1) b r)
      else Node x same (t_insert sz index (d + 1) b l) r
  end.

Lemma t_insert_nodes sz index b t : forall d, nodes (t_insert sz index d b t) ≡ₚ b :: nodes t.
Proof.
  induction t as [|x same l IHl r IHr]; intros d; simpl; [done|].
  destruct (_ =? _); simpl.
  - apply perm_swap.
  - destruct (Z.testbit _ _); simpl.
    + rewrite IHr. rewrite (Permutation_app_comm (nodes l)). simpl.
      rewrite <- Permutation_middle. rewrite (Permutation_app_comm (nodes r)). apply perm_swap.
    + rewrite IHl. simpl. rewrite <- Permutation_middle. apply perm_swap.
Qed.
Lemma t_insert_trie sz index b t : forall d pfx, trie sz index d pfx t -> d <= index -> Z.shiftr (sz b) (index - d) = pfx ->
  trie sz index d pfx (t_insert sz index d b t).
Proof.
  induction t as [|x same l IHl r IHr]; intros d pfx Ht Hd Hb; simpl in *; [split_and!; [done..| |done|done]; by intros ? ?%not_elem_of_nil|].
  destruct Ht as (_ & Hp & Hs & Hl & Hr). destruct (Z.eqb_spec (sz x) (sz b)) as [E|E].
  - split_and!; try done. intros y [->|Hy]%elem_of_cons; auto.
  - assert (Hdi : d < index).
    { destruct (decide (d = index)) as [->|]; [|lia]. rewrite Z.sub_diag, !Z.shiftr_0_r in *. congruence. }
    pose proof (proj2 (shiftr_prefix (sz b) index d pfx Hdi) Hb) as Hb'.
    destruct (Z.testbit _ _); simpl in Hb'; (split_and!; [done..| |]); try done.
    + apply IHr; [done|lia|lia].
    + apply IHl; [done|lia|lia].
Qed.

(** ** The loops of the source *)
Section Loops.
Variable V : Z -> fld -> Prop.
Hypothesis V_separate : separate V.
Definition links_of (l : list Z) (x : Z) (f : fld) : Prop := x ∈ l /\ link f.

Lemma link_fields f : f = Pf \/ f = Nf \/ f = Par \/ f = C0 \/ f = C1 <-> link f.
Proof. unfold link. destruct f; intuition congruence. Qed.


Definition child_slot (x : Z) (bit : bool) : slot := (x, if bit then C1 else C0).
Lemma child_slot_addr x bit : f_child x (Z.b2z bit) = saddr (child_slot x bit).
Proof. destruct (field_addresses x) as (_ & _ & _ & _ & _ & E0 & E1). by destruct bit. Qed.

(** A new node under an empty place. *)
Lemma single_node_ok s b h : allocated V h -> V s.1 s.2 -> link s.2 -> (forall f, V b f) -> s.1 <> b ->
  view h b C0 = Some NULL -> view h b C1 = Some NULL ->
  exists h', single_node (saddr s) b h = Some h' /\ at_tree (view h') s (Node b [] Leaf Leaf)
    /\ wrote (fun x f => (x, f) = s \/ links_of [b] x f) h h' /\ bits h' = bits h.
Proof.
  destruct s as [y e]. unfold saddr. simpl. intros Ha Hy He Hb Hne H0 H1. rewrite single_node_stores.
  destruct (stores_ok V [(y, e, b); (b, Par, at_ y e); (b, Nf, b); (b, Pf, b)] h) as (h' & E & Wr & Ag & Bt); [done|done| |].
  { intros x f Hx. by written_cases Hx. }
  exists h'. split; [exact E|]. split; [|split; [|done]].
  - simpl. rewrite !Ag by done. simpl. split_and!; try (by read_upd).
    + unfold ring. simpl. apply path_cons2. rewrite !Ag by done. simpl. split_and!; [by read_upd..|done].
    + by intros ? ?%not_elem_of_nil.
  - eapply wrote_weaken; [exact Wr|]. intros x f Hx. unfold links_of. rewrite list_elem_of_singleton, <- link_fields. written_cases Hx; auto 10.
Qed.

(** A block of the same size goes into the circular list. *)
Lemma same_size_ok s b x same l r h : allocated V h -> at_tree (view h) s (Node x same l r) ->
  b ∉ nodes (Node x same l r) -> s.1 <> b -> (link s.2 -> forall y, y ∈ x :: same -> s <> (y, Pf) /\ s <> (y, Nf)) ->
  (forall y, y ∈ b :: nodes (Node x same l r) -> forall f, V y f) -> NoDup (nodes (Node x same l r)) -> V s.1 s.2 ->
  s.2 = C0 \/ s.2 = C1 ->
  exists h', (next ← load (f_next_free x) h;
        h ← store (f_prev_free next) b h;
        h ← store (f_next_free x) b h;
        h ← store (f_next_free b) next h;
        h ← store (f_prev_free b) x h;
        store (f_parent b) NULL h) = Some h'
    /\ at_tree (view h') s (Node x (b :: same) l r)
    /\ wrote (links_of (b :: nodes (Node x same l r))) h h' /\ bits h' = bits h.
Proof.
  intros Ha Ht Hb Hsb Hs HV Hnd HVs Hs2. simpl in Ht. destruct Ht as (H1 & H2 & H3 & H4 & H5 & H6).
  simpl in Hb, Hnd. pose proof (ring_first _ _ _ H3) as [Hn1 Hn2]. set (n := next_of same x) in *.
  destruct (field_addresses x) as (_ & _ & _ & E1 & _). destruct (field_addresses n) as (_ & _ & E2 & _).
  destruct (field_addresses b) as (_ & _ & E3 & E4 & E5 & _).
  assert (Hn : n ∈ x :: same) by apply next_of_elem.
  assert (Hnin : forall y, y ∈ x :: same -> y ∈ x :: same ++ nodes l ++ nodes r) by (intros y; rewrite !elem_of_cons, elem_of_app; tauto).
  assert (Hbx : b ∉ x :: same) by auto.
  assert (Hbn : n <> b) by congruence. assert (Hbx' : x <> b) by (intros ->; apply Hbx; by left).
  rewrite E1, (load_field _ _ _ _ Hn1). cbn [mbind option_bind]. rewrite E2, E3, E4, E5.
  destruct (stores_ok V [(n, Pf, b); (x, Nf, b); (b, Nf, n); (b, Pf, x); (b, Par, NULL)] h) as (h' & E & Wr & Ag & Bt); [done|done| |].
  { intros y f Hy. apply HV. written_cases Hy; try (by left); right; apply Hnin; [done|by left]. }
  exists h'. simpl in E. rewrite <- E. split.
  { same_stores. }
  assert (Hother : forall y f, V y f -> y <> b -> ~ ((y = n /\ f = Pf) \/ (y = x /\ f = Nf)) -> view h' y f = view h y f).
  { intros y f Hy Hyb Hno. rewrite Ag by done. simpl.
    rewrite !(upd_ne _ b) by (left; congruence).
    rewrite (upd_ne _ x) by (destruct (decide (x = y)) as [<-|]; [right; intros <-; apply Hno; auto|by left]).
    rewrite (upd_ne _ n) by (destruct (decide (n = y)) as [<-|]; [right; intros <-; apply Hno; auto|by left]).
    done. }
  split; [|split; [|done]].
  - assert (HVy : forall y, y ∈ x :: same ++ nodes l ++ nodes r -> forall f, V y f) by (intros y Hy; apply HV; by right).
    apply NoDup_cons in Hnd as [Hx Hnd]. rewrite not_elem_of_app in Hx. destruct Hx as [Hxs Hxlr].
    apply NoDup_app in Hnd as (Hnds & Hdis & _).
    assert (Hnlr : n ∉ nodes l ++ nodes r).
    { apply elem_of_cons in Hn as [->|Hn]; [done|]. by apply Hdis. }
    simpl. split_and!.
    + rewrite Hother; [done|done|done|]. destruct Hs2 as [-> | ->]; intuition congruence.
    + rewrite Hother; [done|apply HVy; by left|done|intuition congruence].
    + apply (ring_insert (view h)); [done|by apply NoDup_cons|done| | | | | |]; fold n.
      * rewrite Ag by (apply HV; by left). simpl. by read_upd.
      * rewrite Ag by (apply HV; by left). simpl. by read_upd.
      * rewrite Ag by (apply HVy; auto). simpl. by read_upd.
      * rewrite Ag by (apply HVy; by left). simpl. by read_upd.
      * intros z Hz Hzx. apply Hother; [by apply HVy, Hnin|congruence|intuition congruence].
      * intros z Hz Hzn. apply Hother; [by apply HVy, Hnin|congruence|intuition congruence].
    + intros y [->|Hy]%elem_of_cons.
      * rewrite Ag by (apply HV; by left). simpl. by read_upd.
      * rewrite Hother; [by apply H4|apply HVy, Hnin; by right| |intuition congruence]. intros ->. apply Hbx. by right.
    + eapply at_tree_frame; [exact H5| |].
      * apply Hother; [apply HVy; by left|done|simpl; intuition congruence].
      * intros y f Hy _. apply Hother; [apply HVy; right; rewrite !elem_of_app; auto| |].
        -- intros ->. apply Hb. right. rewrite !elem_of_app. auto.
        -- intros [[-> _]|[-> _]]; [apply Hnlr|apply Hxlr]; apply elem_of_app; by left.
    + eapply at_tree_frame; [exact H6| |].
      * apply Hother; [apply HVy; by left|done|simpl; intuition congruence].
      * intros y f Hy _. apply Hother; [apply HVy; right; rewrite !elem_of_app; auto| |].
        -- intros ->. apply Hb. right. rewrite !elem_of_app. auto.
        -- intros [[-> _]|[-> _]]; [apply Hnlr|apply Hxlr]; apply elem_of_app; by right.
  - eapply wrote_weaken; [exact Wr|]. intros y f Hy. unfold links_of. rewrite <- link_fields. simpl.
    written_cases Hy; (split; [|tauto]); try (by left); right; [by apply Hnin|by left].
Qed.

Lemma links_wrote l h h' x f : wrote (links_of l) h h' -> (forall y, y ∈ l -> forall e, V y e) -> V x f -> ~ links_of l x f ->
  view h' x f = view h x f.
Proof. intros Hw Hl Hx Hn. eapply wrote_view; [exact Hw|done| |done|done]. intros y e [Hy _]. by apply Hl. Qed.
Lemma links_mono l l' x f : (forall y, y ∈ l -> y ∈ l') -> links_of l x f -> links_of l' x f.
Proof. intros Hl [Hx Hf]. split; auto. Qed.

(** The root of a trie changes in one of its subtrees. *)
Lemma subtree_changed s b same l r bit h h' c lk :
  at_tree (view h) s (Node b same l r) -> NoDup (nodes (Node b same l r)) -> s.1 ∉ nodes (Node b same l r) -> V s.1 s.2 ->
  (forall y, y ∈ nodes (Node b same l r) -> forall f, V y f) ->
  wrote (fun x f => (x, f) = child_slot b bit \/ links_of lk x f) h h' -> (forall y, y ∈ lk -> forall f, V y f) ->
  (forall y, y ∈ lk -> y ∉ b :: same ++ nodes (if bit then l else r) /\ y <> s.1) ->
  at_tree (view h') (child_slot b bit) c ->
  at_tree (view h') s (if bit then Node b same l c else Node b same c r).
Proof.
  intros Ht Hnd Hs HVs HV Hw Hlk Hdis Hc. simpl in Ht, Hnd, Hs, HV. destruct Ht as (H1 & H2 & H3 & H4 & H5 & H6).
  assert (Hkeep : forall x f, V x f -> (x, f) <> child_slot b bit -> x ∉ lk -> view h' x f = view h x f).
  { intros x f Hx Hne Hn. eapply wrote_view; [exact Hw|done| |done|].
    - intros y e [E|[Hy _]]; [injection E as -> ->; apply HV; by left|by apply Hlk].
    - intros [?|[? _]]; done. }
  apply NoDup_cons in Hnd as [Hb Hnd]. rewrite !not_elem_of_app in Hb. destruct Hb as (Hb1 & Hb2 & Hb3).
  assert (Hne : forall x f, x <> b -> (x, f) <> child_slot b bit) by (intros x f Hx [= -> ->]; done).
  assert (Hnlk : forall x, x ∈ b :: same ++ nodes (if bit then l else r) -> x ∉ lk) by (intros x Hx Hl; exact (proj1 (Hdis x Hl) Hx)).
  assert (Hring : view h' s.1 s.2 = Some b /\ view h' b Par = Some (saddr s) /\ ring (view h') b same
    /\ forall x, x ∈ same -> view h' x Par = Some NULL).
  { split_and!.
    - rewrite Hkeep; [done|done| |].
      + apply Hne. intros E. apply Hs. rewrite E. by left.
      + intros Hl. by destruct (Hdis _ Hl).
    - rewrite Hkeep; [done|apply HV; by left|by destruct bit|apply Hnlk; by left].
    - eapply ring_frame; [exact H3|]. intros y Hy.
      assert (Hy' : y ∈ b :: same ++ nodes l ++ nodes r) by (rewrite elem_of_cons, elem_of_app; apply elem_of_cons in Hy; tauto).
      assert (Hyl : y ∉ lk) by (apply Hnlk; rewrite elem_of_cons, elem_of_app; apply elem_of_cons in Hy; tauto).
      split; (rewrite Hkeep; [done|by apply HV| |done]); by destruct bit.
    - intros x Hx. rewrite Hkeep; [by apply H4|apply HV; rewrite elem_of_cons, elem_of_app; auto| |].
      + apply Hne. by intros ->.
      + apply Hnlk. rewrite elem_of_cons, elem_of_app. auto. }
  assert (Hrest : forall c', (c' = l \/ c' = r) -> nodes c' = nodes (if bit then l else r) -> forall f, (b, f) <> child_slot b bit ->
    at_tree (view h) (b, f) c' -> at_tree (view h') (b, f) c').
  { intros c' Hc' En f Hf Hat. eapply at_tree_frame; [exact Hat| |].
    - apply Hkeep; [apply HV; by left|done|apply Hnlk; by left].
    - intros x e Hx _. apply Hkeep.
      + apply HV. rewrite elem_of_cons, !elem_of_app. destruct Hc' as [-> | ->]; auto.
      + apply Hne. intros ->. destruct Hc' as [-> | ->]; done.
      + apply Hnlk. rewrite <- En, elem_of_cons, elem_of_app. auto. }
  destruct Hring as (R1 & R2 & R3 & R4). destruct bit; simpl; split_and!; try done.
  - apply Hrest; auto; done.
  - apply Hrest; auto; done.
Qed.

Variable sz : Z -> Z.

(** Blocks that are large and free, or about to be. *)
Definition whole (g : fields) (x : Z) : Prop := x <> NULL /\ g x Sz = Some (sz x) /\ forall f, V x f.
Lemma whole_wrote l h h' x : wrote (links_of l) h h' -> (forall y, y ∈ l -> forall e, V y e) -> whole (view h) x -> whole (view h') x.
Proof.
  intros Hw Hl (H1 & H2 & H3). split; [done|]. split; [|done]. rewrite (links_wrote l h h'); try done. by intros [_ [? _]].
Qed.

Lemma trie_insert_ok index b t : index <= N -> forall fuel h s d pfx,
  allocated V h -> at_tree (view h) s t -> t <> Leaf -> trie sz index d pfx t -> NoDup (nodes t) -> b ∉ nodes t ->
  (forall x, x ∈ b :: nodes t -> whole (view h) x) -> view h b C0 = Some NULL -> view h b C1 = Some NULL ->
  V s.1 s.2 -> s.2 = C0 \/ s.2 = C1 -> s.1 ∉ b :: nodes t ->
  0 <= d <= index -> Z.shiftr (sz b) (index - d) = pfx -> index - d < Z.of_nat fuel ->
  exists h', trie_insert fuel b (sz b) (shifted (sz b) index d) (saddr s) h = Some h'
    /\ at_tree (view h') s (t_insert sz index d b t) /\ wrote (links_of (b :: nodes t)) h h' /\ bits h' = bits h.
Proof.
  intros HN. induction t as [|x same l IHl r IHr]; intros fuel h s d pfx Ha Ht Hne Htr Hnd Hb Hwh Hc0 Hc1 HVs Hs2 Hs Hd Hp Hf; [done|].
  destruct fuel as [|fuel]; [simpl in Hf; lia|]. cbn [trie_insert t_insert].
  assert (HV : forall y, y ∈ b :: nodes (Node x same l r) -> forall f, V y f) by (intros y Hy; apply (Hwh y Hy)).
  destruct (Hwh x) as (Hx0 & Hxs & _); [right; by left|].
  pose proof (at_tree_root _ _ _ Ht) as Hroot. rewrite (load_slot _ _ _ Hroot). cbn [mbind option_bind root].
  unfold ZEND_MM_FREE_BLOCK_SIZE. rewrite (proj1 (field_addresses x)), (load_field _ _ _ _ Hxs). cbn [mbind option_bind].
  destruct (Z.eqb_spec (sz x) (sz b)) as [E|E]; simpl negb; cbv iota.
  - apply same_size_ok; try done.
    + intros Heq. apply Hs. rewrite Heq. by left.
    + intros _ y Hy. split; intros ->; by destruct Hs2.
  - simpl in Htr. destruct Htr as (_ & Hpx & Hsame & Htl & Htr).
    assert (Hdi : d < index).
    { destruct (decide (d = index)) as [->|]; [|lia]. rewrite Z.sub_diag, !Z.shiftr_0_r in *. congruence. }
    rewrite top_bit_shifted by lia. rewrite child_slot_addr, shifted_next by lia.
    pose proof (proj2 (shiftr_prefix (sz b) index d pfx Hdi) Hp) as Hp'.
    set (bit := Z.testbit (sz b) (index - 1 - d)) in *. set (c := if bit then r else l).
    assert (Hat : at_tree (view h) (child_slot x bit) c).
    { simpl in Ht. unfold c, child_slot. destruct bit; tauto. }
    assert (Hcn : forall y, y ∈ nodes c -> y ∈ nodes l ++ nodes r).
    { intros y. rewrite elem_of_app. unfold c. destruct bit; auto. }
    pose proof Hnd as Hnd'. simpl in Hnd'. apply NoDup_cons in Hnd' as [Hx Hnd']. apply NoDup_app in Hnd' as (_ & Hds & Hnd').
    pose proof Hnd' as (Hndl & Hdis & Hndr)%NoDup_app.
    assert (Hxc : x ∉ nodes c) by (intros Hin%Hcn; apply Hx, elem_of_app; by right).
    assert (Hbc : b ∉ nodes c) by (intros Hin%Hcn; apply Hb; right; apply elem_of_app; by right).
    assert (Hbx : b <> x) by (intros ->; apply Hb; by left).
    assert (Hother : forall y, y ∈ b :: nodes c -> y ∉ x :: same ++ nodes (if bit then l else r) /\ y <> s.1).
    { intros y Hy. split.
      - apply elem_of_cons in Hy as [->|Hy].
        + intros Hin. apply Hb. simpl. rewrite elem_of_cons, !elem_of_app in *. destruct bit; tauto.
        + rewrite elem_of_cons, elem_of_app. intros [->|[Hin|Hin]]; [done|by apply (Hds y Hin), Hcn|].
          unfold c in Hy. destruct bit; [by apply (Hdis y)|by apply (Hdis y)].
      - intros ->. apply Hs. apply elem_of_cons in Hy as [Hy|Hy]; [rewrite Hy; by left|].
        right. right. apply elem_of_app. right. by apply Hcn. }
    assert (HVc : forall y, y ∈ b :: nodes c -> forall f, V y f).
    { intros y Hy. apply HV. apply elem_of_cons in Hy as [->|Hy]; [by left|]. right. right. apply elem_of_app. right. by apply Hcn. }
    assert (HVx : forall f, V x f) by (apply HV; right; by left).
    assert (Hs1 : s.1 ∉ nodes (Node x same l r)) by (intros Hin; apply Hs; by right).
    pose proof (at_tree_root _ _ _ Hat) as Hcr. rewrite (load_slot _ _ _ Hcr). cbn [mbind option_bind]. unfold root in Hcr |- *.
    assert (Hgoal : forall h' c', wrote (fun y f => (y, f) = child_slot x bit \/ links_of (b :: nodes c) y f) h h' ->
      at_tree (view h') (child_slot x bit) c' ->
      at_tree (view h') s (if bit then Node x same l c' else Node x same c' r)
      /\ wrote (links_of (b :: nodes (Node x same l r))) h h').
    { intros h' c' Hw Hc'. split.
      - eapply (subtree_changed s x same l r bit h h' c' (b :: nodes c)); try done. intros y Hy. apply HV. by right.
      - apply (wrote_weaken _ _ _ _ Hw). intros y f [[= -> ->]|Hl].
        + split; [right; by left|]. by destruct bit.
        + eapply links_mono; [|exact Hl]. intros z [->|Hz]%elem_of_cons; [by left|]. right. right. apply elem_of_app. right. by apply Hcn. }
    assert (Hct : trie sz index (d + 1) (2 * pfx + Z.b2z bit) c) by (unfold c; destruct bit; simpl; [done|by rewrite Z.add_0_r]).
    assert (Hcnd : NoDup (nodes c)) by (unfold c; by destruct bit).
    assert (IH : c <> Leaf -> exists h', trie_insert fuel b (sz b) (shifted (sz b) index (d + 1)) (saddr (child_slot x bit)) h = Some h'
      /\ at_tree (view h') (child_slot x bit) (t_insert sz index (d + 1) b c) /\ wrote (links_of (b :: nodes c)) h h' /\ bits h' = bits h).
    { intros Hc. assert (Hw' : forall z, z ∈ b :: nodes c -> whole (view h) z).
      { intros z Hz. apply Hwh. apply elem_of_cons in Hz as [->|Hz]; [by left|]. right. right. apply elem_of_app. right. by apply Hcn. }
      assert (Hsl : (child_slot x bit).1 ∉ b :: nodes c) by (simpl; intros [->|Hin]%elem_of_cons; done).
      assert (Hsc : (child_slot x bit).2 = C0 \/ (child_slot x bit).2 = C1) by (destruct bit; [by right|by left]).
      assert (Hf' : index - (d + 1) < Z.of_nat fuel) by lia.
      clearbody bit. unfold c in *. destruct bit.
      - apply (IHr fuel h (child_slot x true) (d + 1) (2 * pfx + 1)); try done; try apply HVx; try lia.
      - apply (IHl fuel h (child_slot x false) (d + 1) (2 * pfx)); try done; try apply HVx; try lia; rewrite Hp'; simpl; lia. }
    destruct c as [|y same' l' r'] eqn:Ec in Hcr |- *.
    + simpl Z.eqb. cbv iota. rewrite Ec in Hgoal.
      destruct (single_node_ok (child_slot x bit) b h) as (h' & E1 & Hat' & Hw' & Hb');
        [done|apply HVx|by destruct bit|apply HV; by left|simpl; congruence|done|done|].
      exists h'. split; [exact E1|]. destruct (Hgoal h' _ Hw' Hat') as [G1 G2]. split_and!; [|done|done].
      unfold c in Ec. destruct bit; rewrite Ec; exact G1.
    + assert (Hy0 : y <> NULL).
      { apply (Hwh y). right. right. apply elem_of_app. right. apply Hcn. rewrite Ec. by left. }
      rewrite (proj2 (Z.eqb_neq y NULL)) by done. destruct IH as (h' & E1 & Hat' & Hwr & Hbt); [by rewrite Ec|].
      exists h'. split; [exact E1|]. destruct (Hgoal h' (t_insert sz index (d + 1) b c)) as [G1 G2]; [|done|].
      { apply (wrote_weaken _ _ _ _ Hwr). intros z f Hz. by right. }
      split_and!; [|done|done]. unfold c in G1. destruct bit; exact G1.
Qed.
End Loops.
End Trie.
