(* ===== verification/AllocCut.v ===== *)
(** * AllocCut: taking blocks out of the tries

    A block that shares its node gives it to its neighbour in the list; a block
    that is alone gives it to a leaf below it. *)
From S2P Require Import Prelude ZendAlloc AllocBits AllocRing AllocTrie.

Section Cut.
Context `{SizeT}.
Abbreviation N := ZEND_MM_NUM_BUCKETS.
Abbreviation slot := (Z * fld)%type.
Variable V : Z -> fld -> Prop.
Hypothesis V_separate : separate V.

Lemma cons_skip (x y : Z) l l' : x ∈ y :: l' -> x ∈ y :: l ++ l'.
Proof. rewrite !elem_of_cons, elem_of_app. tauto. Qed.
Lemma cons_keep (x y : Z) l l' : x ∈ y :: l -> x ∈ y :: l ++ l'.
Proof. rewrite !elem_of_cons, elem_of_app. tauto. Qed.

(** ** A subtree moves *)
Lemma at_tree_move g g' t s s' : at_tree g s t -> g' s'.1 s'.2 = Some (root t) -> (t <> Leaf -> g' (root t) Par = Some (saddr s')) ->
  (forall x f, x ∈ nodes t -> link f -> (x, f) <> (root t, Par) -> g' x f = g x f) -> NoDup (nodes t) -> at_tree g' s' t.
Proof.
  intros Ht Hs Hp Hf Hnd. destruct t as [|b same l r]; [done|]. simpl in *. destruct Ht as (H1 & H2 & H3 & H4 & H5 & H6).
  assert (Hin : forall x, x ∈ same \/ x ∈ nodes l \/ x ∈ nodes r -> x ∈ b :: same ++ nodes l ++ nodes r).
  { intros x Hx. rewrite elem_of_cons, !elem_of_app. tauto. }
  apply NoDup_cons in Hnd as [Hb Hnd]. rewrite !not_elem_of_app in Hb. destruct Hb as (Hb1 & Hb2 & Hb3).
  split_and!; [done|by apply Hp| | | |].
  - eapply ring_frame; [exact H3|]. intros x Hx.
    assert (Hx' : x ∈ b :: same ++ nodes l ++ nodes r) by (apply elem_of_cons in Hx as [->|Hx]; [by left|auto]).
    split; (apply Hf; [done|by apply link_fields; auto|congruence]).
  - intros x Hx. rewrite Hf; [by apply H4|auto|by apply link_fields; auto|intros [= ->]; done].
  - eapply at_tree_frame; [exact H5|apply Hf; [by left|by apply link_fields; auto|done]|].
    intros x f Hx Hl. apply Hf; [auto|done|intros [= -> ->]; done].
  - eapply at_tree_frame; [exact H6|apply Hf; [by left|apply link_fields; auto 10|done]|].
    intros x f Hx Hl. apply Hf; [auto|done|intros [= -> ->]; done].
Qed.

(** ** [prev] takes the place of [mm_block] *)
Definition adopted (prev : Z) (f : fld) (c : tree) : list (Z * fld * Z) :=
  (prev, f, root c) :: match c with Leaf => [] | Node y _ _ _ => [(y, Par, at_ prev f)] end.

Lemma adopt_child_ok prev b i f c h : f_child prev i = at_ prev f -> f_child b i = at_ b f -> allocated V h ->
  at_tree (view h) (b, f) c -> f = C0 \/ f = C1 ->
  V prev f -> V b f -> prev <> b -> (forall x e, x ∈ nodes c -> V x e) -> (c <> Leaf -> root c <> NULL) ->
  adopt_child prev b i h = stores (adopted prev f c) h.
Proof.
  intros Ep Eb Ha Hc Hf Hp Hb Hne HV Hnz. unfold adopt_child, adopted. rewrite Ep, Eb.
  rewrite (load_field _ b f _ (at_tree_root _ _ _ Hc)). cbn [mbind option_bind fst snd stores].
  destruct c as [|y same l r]; simpl; [by destruct (store _ _ _)|].
  destruct (store_field V h prev f y) as (h1 & E1 & W1 & A1 & _); [done..|]. rewrite E1. cbn [mbind option_bind].
  simpl in Hc. destruct Hc as (H1 & H2 & _).
  rewrite (proj2 (Z.eqb_neq y NULL)) by (by apply Hnz). unfold ZEND_MM_CHECK_TREE.
  destruct (field_addresses y) as (_ & _ & _ & _ & Ey & _). rewrite Ey.
  assert (Vy : V y Par) by (apply HV; by left).
  assert (L1 : view h1 y Par = Some (at_ b f)).
  { rewrite A1 by done. rewrite upd_ne by (right; destruct Hf as [-> | ->]; done). exact H2. }
  rewrite (load_field _ _ _ _ L1). cbn [mbind option_bind].
  assert (L2 : view h1 b f = Some y) by (rewrite A1, upd_ne by (done || by left); exact H1).
  rewrite (load_field _ _ _ _ L2). cbn [mbind option_bind]. unfold ZEND_MM_CHECK. rewrite Z.eqb_refl. cbn [mbind option_bind].
  destruct (store (at_ y Par) (at_ prev f) h1); reflexivity.
Qed.

Definition subst_writes (s : slot) (prev : Z) (l r : tree) : list (Z * fld * Z) :=
  [(s.1, s.2, prev); (prev, Par, saddr s)] ++ adopted prev C0 l ++ adopted prev C1 r.

Lemma adopted_written prev e c x f : written (adopted prev e c) x f <-> (x = prev /\ f = e) \/ (c <> Leaf /\ x = root c /\ f = Par).
Proof.
  unfold adopted. destruct c; rewrite !written_cons, ?written_nil; simpl; intuition congruence.
Qed.
Lemma subst_written s prev l r x f : written (subst_writes s prev l r) x f <->
  (x, f) = s \/ (x = prev /\ (f = Par \/ f = C0 \/ f = C1)) \/ (l <> Leaf /\ x = root l /\ f = Par) \/ (r <> Leaf /\ x = root r /\ f = Par).
Proof.
  unfold subst_writes. rewrite !written_app, !adopted_written, !written_cons, written_nil. destruct s; simpl.
  intuition congruence.
Qed.

Lemma leaf_or_not t : t = Leaf \/ t <> Leaf.
Proof. destruct t; [by left|by right]. Qed.
Lemma root_in t : t <> Leaf -> root t ∈ nodes t.
Proof. destruct t; [done|]. intros _. by left. Qed.

(** What [subst_block] needs: [b] has left its list, [prev] is alone or at the
    front of its own. *)
Record substitutable (h : mm_heap) (s : slot) (b prev : Z) (zs : list Z) (l r : tree) : Prop := {
  su_slot : view h s.1 s.2 = Some b;
  su_parent : view h b Par = Some (saddr s);
  su_left : at_tree (view h) (b, C0) l;
  su_right : at_tree (view h) (b, C1) r;
  su_ring : ring (view h) prev zs;
  su_same : forall x, x ∈ zs -> view h x Par = Some NULL;
  su_nodup : NoDup (b :: prev :: zs ++ nodes l ++ nodes r);
  su_fresh : s.1 ∉ b :: prev :: zs ++ nodes l ++ nodes r;
  su_dir : s.2 = C0 \/ s.2 = C1;
  su_valid : V s.1 s.2 /\ forall x, x ∈ b :: prev :: zs ++ nodes l ++ nodes r -> forall f, V x f;
  su_nonnull : forall x, x ∈ nodes l ++ nodes r -> x <> NULL
}.

Lemma subst_stores h s b prev zs l r : allocated V h -> substitutable h s b prev zs l r ->
  subst_block prev b h = stores (subst_writes s prev l r) h.
Proof.
  intros Ha [S1 S2 S3 S4 S5 S6 S7 S8 S9 [HVs HV] S11].
  assert (Hpb : prev <> b) by (intros ->; apply NoDup_cons in S7 as [S7 _]; apply S7; by left).
  assert (Hb : forall x, x ∈ nodes l ++ nodes r -> x <> b /\ x <> prev).
  { intros x Hx. split; intros ->; apply NoDup_cons in S7 as [S7 S7'].
    - apply S7. right. apply elem_of_app. by right.
    - apply NoDup_cons in S7' as [S7' _]. apply S7', elem_of_app. by right. }
  assert (Hs : forall x, x ∈ b :: prev :: nodes l ++ nodes r -> s.1 <> x).
  { intros x Hx E. apply S8. rewrite E. rewrite !elem_of_cons, !elem_of_app in *. tauto. }
  assert (Vb : forall f, V b f) by (apply HV; by left). assert (Vp : forall f, V prev f) by (apply HV; right; by left).
  assert (Hin : forall x, x ∈ nodes l ++ nodes r -> x ∈ b :: prev :: zs ++ nodes l ++ nodes r) by (intros x; rewrite !elem_of_cons, !elem_of_app; tauto).
  destruct (field_addresses b) as (_ & _ & _ & _ & E1 & E2 & E3). destruct (field_addresses prev) as (_ & _ & _ & _ & E4 & E5 & E6).
  unfold subst_block, ZEND_MM_CHECK_TREE, subst_writes. rewrite E1, E4, (load_field _ _ _ _ S2). cbn [mbind option_bind].
  rewrite (load_slot _ _ _ S1). cbn [mbind option_bind]. unfold ZEND_MM_CHECK. rewrite Z.eqb_refl. cbn [mbind option_bind].
  rewrite (load_field _ _ _ _ S2). cbn [mbind option_bind]. rewrite !stores_app. cbn [stores].
  destruct (stores_ok V [(s.1, s.2, prev); (prev, Par, saddr s)] h) as (h2 & X2 & W2 & A2 & _); [done|done| |].
  { intros x f Hx. written_cases Hx; [done|apply Vp]. }
  cbn [stores] in X2 |- *. change (at_ s.1 s.2) with (saddr s) in X2 |- *.
  destruct (store (saddr s) prev h) as [h1|]; [|done]. cbn [mbind option_bind] in X2 |- *.
  destruct (store (at_ prev Par) (saddr s) h1) as [h2'|]; [|done]. cbn [mbind option_bind] in X2 |- *. injection X2 as ->.
  assert (Hw2 : forall x f, V x f -> x <> prev -> x <> s.1 -> view h2 x f = view h x f).
  { intros x f Hx Hxp Hxs. rewrite A2 by done. simpl. by read_upd. }
  assert (Hframe : forall c f, c = l \/ c = r -> at_tree (view h) (b, f) c -> at_tree (view h2) (b, f) c).
  { intros c f Hc Ht. eapply at_tree_frame; [exact Ht|apply Hw2; simpl; [apply Vb|done|intros E; apply (Hs b); [by left|done]]|].
    intros x e Hx _. assert (Hx' : x ∈ nodes l ++ nodes r) by (rewrite elem_of_app; destruct Hc as [-> | ->]; auto).
    apply Hw2; [by apply HV, Hin|by apply Hb|]. intros E. apply (Hs x); [by do 2 right|done]. }
  assert (HVn : forall x, x ∈ nodes l ++ nodes r -> forall e, V x e) by (intros x Hx; by apply HV, Hin).
  assert (Hnz : forall c, c = l \/ c = r -> c <> Leaf -> root c <> NULL).
  { intros c Hc Hn. apply S11, elem_of_app. destruct Hc as [-> | ->]; [left|right]; by apply root_in. }
  assert (Ha2 : allocated V h2) by (by eapply wrote_allocated).
  rewrite (adopt_child_ok prev b 0 C0 l); try done; [|auto|auto|intros x e Hx; apply HVn, elem_of_app; by left|auto].
  destruct (stores_ok V (adopted prev C0 l) h2) as (h3 & X3 & W3 & A3 & _); [done|done| |].
  { intros x f [[-> ->]|(Hl & -> & ->)]%adopted_written; [apply Vp|]. apply HVn, elem_of_app. left. by apply root_in. }
  rewrite stores_app, X3. cbn [mbind option_bind].
  apply (adopt_child_ok prev b 1 C1 r); try done; [by eapply wrote_allocated| |auto|intros x e Hx; apply HVn, elem_of_app; by right|auto].
  assert (Hw3 : forall x f, V x f -> x <> prev -> x ∉ nodes l -> view h3 x f = view h2 x f).
  { intros x f Hx Hxp Hxl. rewrite A3, upds_out; [done| |done]. rewrite adopted_written. intros [[-> _]|(Hl & -> & _)]; [done|].
    by apply Hxl, root_in. }
  apply NoDup_cons in S7 as [S7 S7']. apply NoDup_cons in S7' as [_ S7']. apply NoDup_app in S7' as (_ & _ & S7').
  apply NoDup_app in S7' as (_ & Hlr & _).
  eapply at_tree_frame; [apply (Hframe r); [by right|exact S4]| |].
  - simpl. apply Hw3; [done|done|]. intros Hn. apply (proj1 (Hb b ltac:(apply elem_of_app; by left))). done.
  - intros x e Hx _. apply Hw3; [apply HVn, elem_of_app; by right|apply Hb, elem_of_app; by right|]. intros Hl. by apply (Hlr x).
Qed.

Lemma subst_nodup s prev l r : s.1 ∉ prev :: nodes l ++ nodes r -> prev ∉ nodes l ++ nodes r ->
  (forall x, x ∈ nodes l -> x ∉ nodes r) -> NoDup ((subst_writes s prev l r).*1).
Proof.
  intros Hs Hp Hlr. destruct s as [a e]. simpl in Hs.
  assert (Ha : a <> prev) by (intros ->; apply Hs; by left).
  assert (Hr : forall c, c = l \/ c = r -> c <> Leaf -> root c <> a /\ root c <> prev).
  { intros c Hc Hn. assert (root c ∈ nodes l ++ nodes r) as Hin.
    { apply elem_of_app. destruct Hc as [-> | ->]; [left|right]; by apply root_in. }
    split; intros E; rewrite E in Hin; [apply Hs; by right|done]. }
  assert (Hrr : l <> Leaf -> r <> Leaf -> root l <> root r).
  { intros Hl Hr' E. apply (Hlr (root l)); [by apply root_in|]. rewrite E. by apply root_in. }
  pose proof (Hr l (or_introl eq_refl)) as Hl1. pose proof (Hr r (or_intror eq_refl)) as Hr1.
  destruct l as [|y ys l1 l2], r as [|z zs r1 r2]; unfold subst_writes, adopted; simpl in *;
    rewrite ?NoDup_cons, ?elem_of_cons, ?elem_of_nil; repeat split; try apply NoDup_nil_2; intuition congruence.
Qed.

Lemma subst_ok h s b prev zs l r : allocated V h -> substitutable h s b prev zs l r ->
  exists h', subst_block prev b h = Some h' /\ at_tree (view h') s (Node prev zs l r)
    /\ wrote (fun x f => (x, f) = s \/ links_of (prev :: nodes l ++ nodes r) x f) h h' /\ bits h' = bits h.
Proof.
  intros Ha Hsu. pose proof Hsu as [S1 S2 S3 S4 S5 S6 S7 S8 S9 [HVs HV] S11].
  assert (Hin : forall x, x ∈ prev :: nodes l ++ nodes r -> x ∈ b :: prev :: zs ++ nodes l ++ nodes r).
  { intros x. rewrite !elem_of_cons, !elem_of_app. tauto. }
  assert (Hroot : forall x f, written (subst_writes s prev l r) x f ->
    (x, f) = s \/ links_of (prev :: nodes l ++ nodes r) x f /\ (f = Par \/ x = prev /\ (f = C0 \/ f = C1))).
  { intros x f [?|[[-> Hf]|[(Hl & -> & ->)|(Hr & -> & ->)]]]%subst_written; [by left|right..]; (split; [split|]).
    - by left.
    - by destruct Hf as [->|[->| ->]].
    - tauto.
    - right. apply elem_of_app. left. by apply root_in.
    - done.
    - by left.
    - right. apply elem_of_app. right. by apply root_in.
    - done.
    - by left. }
  destruct (stores_ok V (subst_writes s prev l r) h) as (h' & E & Wr & Ag & Bt); [done|done| |].
  { intros x f [Hx|[[Hx _] _]]%Hroot; [by destruct s; injection Hx as -> ->|]. by apply HV, Hin. }
  exists h'. rewrite (subst_stores h s b prev zs l r) by done. split; [done|]. split; [|split; [|done]].
  2: { eapply wrote_weaken; [exact Wr|]. intros x f Hx%Hroot. tauto. }
  apply NoDup_cons in S7 as [S7 Hnd]. apply NoDup_cons in Hnd as [Hp Hnd]. apply NoDup_app in Hnd as (Hz & Hzd & Hnd).
  apply NoDup_app in Hnd as (Hndl & Hlr & Hndr).
  assert (Hin' : forall x, x ∈ prev :: zs \/ x ∈ nodes l \/ x ∈ nodes r -> x ∈ b :: prev :: zs ++ nodes l ++ nodes r).
  { intros x. rewrite !elem_of_cons, !elem_of_app. tauto. }
  assert (Hkeep : forall x f, V x f -> ~ written (subst_writes s prev l r) x f -> view h' x f = view h x f).
  { intros x f Hx Hn. rewrite Ag by done. by apply upds_out. }
  assert (Hs : forall x f, x ∈ b :: prev :: zs ++ nodes l ++ nodes r -> (x, f) <> s) by (intros x f Hx <-; done).
  assert (Hwr : forall x f v, (x, f, v) ∈ subst_writes s prev l r -> V x f -> view h' x f = Some v).
  { intros x f v Hx HVx. rewrite Ag by done. apply upds_in; [|done]. apply subst_nodup; [|by rewrite elem_of_app in *; set_solver +Hp|done].
    intros Hn. apply S8. right. rewrite elem_of_cons, !elem_of_app in *. tauto. }
  assert (HVp : forall f, V prev f) by (apply HV; right; by left).
  assert (Hsub : forall c f, (c = l /\ f = C0 \/ c = r /\ f = C1) -> at_tree (view h) (b, f) c -> NoDup (nodes c) -> at_tree (view h') (prev, f) c).
  { intros c f Hc Ht Hndc. eapply at_tree_move; [exact Ht| | | |done].
    - apply Hwr; [|apply HVp]. unfold subst_writes, adopted. simpl. set_solver +Hc.
    - intros Hn. apply Hwr; [|apply HV, Hin'; right; destruct Hc as [[-> _]|[-> _]]; [left|right]; by apply root_in].
      unfold subst_writes, adopted. destruct Hc as [[-> ->]|[-> ->]]; destruct l, r; simpl; set_solver +Hn.
    - intros x f' Hx Hf Hne. assert (Hx' : x ∈ nodes l \/ x ∈ nodes r) by (destruct Hc as [[-> _]|[-> _]]; auto).
      assert (Hps : x <> prev) by (intros ->; apply Hp; rewrite !elem_of_app; tauto).
      apply Hkeep; [by apply HV, Hin'; right|]. rewrite subst_written. intros [E'|[[E' _]|[(Hl & E' & ->)|(Hr & E' & ->)]]]; [|done|..].
      + apply (Hs x f'); [apply Hin'; by right|done].
      + destruct Hc as [[-> _]|[-> _]]; [by rewrite E' in Hne|]. apply (Hlr x); [rewrite E'; by apply root_in|done].
      + destruct Hc as [[-> _]|[-> _]]; [|by rewrite E' in Hne]. apply (Hlr x); [done|rewrite E'; by apply root_in]. }
  assert (Hzr : forall x f, x ∈ prev :: zs -> f = Pf \/ f = Nf \/ f = Par /\ x <> prev -> view h' x f = view h x f).
  { intros x f Hx Hf. apply Hkeep; [by apply HV, Hin'; left|]. rewrite subst_written.
    intros [E'|[[E' Hf']|[(Hl & E' & ->)|(Hr & E' & ->)]]].
    - apply (Hs x f); [apply Hin'; by left|done].
    - intuition congruence.
    - destruct Hf as [?|[?|[_ Hx']]]; [done|done|]. apply elem_of_cons in Hx as [->|Hx]; [done|].
      apply (Hzd x Hx). apply elem_of_app. left. rewrite E'. by apply root_in.
    - destruct Hf as [?|[?|[_ Hx']]]; [done|done|]. apply elem_of_cons in Hx as [->|Hx]; [done|].
      apply (Hzd x Hx). apply elem_of_app. right. rewrite E'. by apply root_in. }
  simpl. split_and!.
  - apply Hwr; [unfold subst_writes; simpl; by left|done].
  - apply Hwr; [unfold subst_writes; simpl; right; by left|apply HVp].
  - eapply ring_frame; [exact S5|]. intros x Hx. split; apply Hzr; auto.
  - intros x Hx. rewrite Hzr; [by apply S6|by right|]. right. right. split; [done|]. intros ->. apply Hp, elem_of_app. by left.
  - apply Hsub; auto.
  - apply Hsub; auto.
Qed.

(** ** The leaf that is taken *)
Fixpoint height (t : tree) : nat := match t with Leaf => 0 | Node _ _ l r => S (Nat.max (height l) (height r)) end.

Lemma trie_height sz index t : forall d pfx, trie sz index d pfx t -> d <= index + 1 -> Z.of_nat (height t) <= index - d + 1.
Proof.
  induction t as [|b same l IHl r IHr]; intros d pfx Ht Hd; simpl in *; [lia|].
  destruct Ht as (Hdi & _ & _ & Hl & Hr). specialize (IHl _ _ Hl ltac:(lia)). specialize (IHr _ _ Hr ltac:(lia)). lia.
Qed.

(** [t] without its leaf [z], with [zs] in its list, is [t']; [s'] pointed to it. *)
Record leaf_cut (g : fields) (s : slot) (t : tree) (z : Z) (zs : list Z) (t' : tree) (s' : slot) : Prop := {
  lc_nodes : nodes t ≡ₚ z :: zs ++ nodes t';
  lc_slot : s' = s /\ t' = Leaf \/ s'.1 ∈ nodes t' /\ (s'.2 = C0 \/ s'.2 = C1);
  lc_trie : forall sz index d pfx, trie sz index d pfx t -> trie sz index d pfx t' /\ forall x, x ∈ zs -> sz x = sz z;
  lc_ring : ring g z zs;
  lc_same : forall x, x ∈ zs -> g x Par = Some NULL;
  lc_tree : forall g', g' s'.1 s'.2 = Some NULL ->
    (forall x f, (x, f) <> s' -> (x, f) = s \/ x ∈ nodes t' /\ link f -> g' x f = g x f) -> at_tree g' s t'
}.

Lemma leaf_cut_child g s y same l r bit z zs c' s' : at_tree g s (Node y same l r) -> NoDup (nodes (Node y same l r)) ->
  s.1 ∉ nodes (Node y same l r) -> leaf_cut g (child_slot y bit) (if bit then r else l) z zs c' s' ->
  leaf_cut g s (Node y same l r) z zs (if bit then Node y same l c' else Node y same c' r) s'.
Proof.
  intros Ht Hnd Hs [L1 L2 L3 L4 L5 L6]. simpl in Ht, Hnd, Hs. destruct Ht as (H1 & H2 & H3 & H4 & H5 & H6).
  set (t' := if bit then Node y same l c' else Node y same c' r).
  assert (Hn : forall x, x ∈ nodes t' <-> x ∈ y :: same \/ x ∈ nodes (if bit then l else r) \/ x ∈ nodes c').
  { intros x. unfold t'. destruct bit; simpl; rewrite !elem_of_cons, !elem_of_app; tauto. }
  assert (Hc : forall x, x ∈ nodes c' -> x ∈ nodes (if bit then r else l)).
  { intros x Hx. rewrite L1. right. apply elem_of_app. by right. }
  apply NoDup_cons in Hnd as [Hy Hnd]. apply NoDup_app in Hnd as (Hns & Hsd & Hnd). apply NoDup_app in Hnd as (Hnl & Hlr & Hnr).
  assert (Hs1 : s'.1 = y \/ s'.1 ∈ nodes c') by (destruct L2 as [[-> _]|[? _]]; [by left|by right]).
  assert (Hs2 : s'.2 = C0 \/ s'.2 = C1) by (destruct L2 as [[-> _]|[_ ?]]; [destruct bit; [by right|by left]|done]).
  split; try done.
  - unfold t'. destruct bit; simpl.
    + rewrite L1. pose proof (Permutation_app_swap_app (y :: same ++ nodes l) (z :: zs) (nodes c')) as P.
      simpl in P. by rewrite <- !app_assoc in P.
    + rewrite L1. simpl. pose proof (Permutation_app_swap_app (y :: same) (z :: zs) (nodes c' ++ nodes r)) as P.
      simpl in P. by rewrite <- !app_assoc.
  - right. rewrite Hn. split; [|done]. destruct Hs1 as [-> |?]; [left; by left|auto].
  - intros sz index d pfx (T1 & T2 & T3 & T4 & T5). unfold t'. destruct bit; simpl.
    + destruct (L3 _ _ _ _ T5) as [? ?]. tauto.
    + destruct (L3 _ _ _ _ T4) as [? ?]. tauto.
  - intros g' Hnull Hg. 
    assert (Hk : forall x f, x ∈ nodes t' -> link f -> (x, f) <> s' -> g' x f = g x f) by (intros; apply Hg; auto).
    assert (Hk' : forall f, link f -> (y, f) <> s' -> g' y f = g y f) by (intros; apply Hk; [apply Hn; left; by left|done..]).
    assert (Hss : s <> s').
    { intros ->. destruct Hs1 as [E|Hin]; apply Hs; [rewrite E; by left|right].
      apply elem_of_app. right. apply elem_of_app. destruct bit; auto. }
    assert (Hrest : forall f, f = Pf \/ f = Nf \/ f = Par -> f <> s'.2) by (intuition congruence).
    assert (Hring : ring g' y same /\ g' y Par = Some (saddr s) /\ forall x, x ∈ same -> g' x Par = Some NULL).
    { split_and!.
      - eapply ring_frame; [exact H3|]. intros x Hx.
        split; (apply Hk; [apply Hn; by left|by apply link_fields; auto|]); intros <-; by destruct Hs2.
      - rewrite Hk'; [done|by apply link_fields; auto|]. intros <-. by destruct Hs2.
      - intros x Hx. rewrite Hk; [by apply H4|apply Hn; left; by right|by apply link_fields; auto|].
        intros <-. by destruct Hs2. }
    assert (Hkept : forall c f, (y, f) <> s' -> f = C0 \/ f = C1 -> c = (if bit then l else r) -> at_tree g (y, f) c -> at_tree g' (y, f) c).
    { intros c f Hf Hf' Ec Hat. eapply at_tree_frame; [exact Hat|apply Hk'; [by apply link_fields; auto|done]|].
      intros x e Hx He. apply Hk; [apply Hn; right; left; by rewrite <- Ec|done|]. intros E. rewrite <- E in Hs1. simpl in Hs1.
      destruct Hs1 as [->|Hin%Hc].
      + apply Hy. rewrite Ec in Hx. rewrite !elem_of_app. destruct bit; auto.
      + rewrite Ec in Hx. destruct bit; by apply (Hlr x). }
    assert (Hcut : at_tree g' (child_slot y bit) c').
    { apply L6; [done|]. intros x f Hne [E|[Hx Hf]].
      - injection E as -> ->. apply Hk'; [destruct bit; by apply link_fields; auto 10|done].
      - apply Hk; [apply Hn; auto|done|done]. }
    assert (Hother : (y, if bit then C0 else C1) <> s').
    { destruct L2 as [[-> _]|[Hin _]]; [by destruct bit|]. intros <-. simpl in Hin. apply Hy, elem_of_app. right. apply elem_of_app.
      apply Hc in Hin. destruct bit; auto. }
    assert (Hroot : g' s.1 s.2 = Some y) by (rewrite Hg; [done|by destruct s|left; by destruct s]).
    destruct Hring as (R1 & R2 & R3). unfold t'. destruct bit; simpl; split_and!; try done; apply Hkept; auto.
Qed.

Lemma find_leaf_ok h t : forall s fuel, t <> Leaf -> at_tree (view h) s t -> NoDup (nodes t) -> s.1 ∉ nodes t ->
  (forall x, x ∈ nodes t -> x <> NULL) -> (height t <= fuel)%nat ->
  exists z zs t' s', find_leaf fuel (root t) (saddr s) h = Some (z, saddr s') /\ leaf_cut (view h) s t z zs t' s'.
Proof.
  induction t as [|y same l IHl r IHr]; intros s fuel Hne Ht Hnd Hs Hnz Hf; [done|]. destruct fuel as [|fuel]; [simpl in Hf; lia|].
  pose proof Ht as (H1 & H2 & H3 & H4 & H5 & H6). simpl in Hf. cbn [find_leaf root].
  destruct (field_addresses y) as (_ & _ & _ & _ & _ & E0 & E1). rewrite E1, (load_field _ y C1 _ (at_tree_root _ _ _ H6)).
  cbn [mbind option_bind]. pose proof Hnd as Hnd'. simpl in Hnd'. apply NoDup_cons in Hnd' as [Hy Hnd'].
  apply NoDup_app in Hnd' as (_ & _ & Hnd'). apply NoDup_app in Hnd' as (Hnl & _ & Hnr).
  rewrite !not_elem_of_app in Hy. destruct Hy as (_ & Hyl & Hyr).
  assert (Hnz' : forall x, x ∈ nodes l \/ x ∈ nodes r -> x <> NULL).
  { intros x Hx. apply Hnz. simpl. rewrite elem_of_cons, !elem_of_app. tauto. }
  assert (Hstep : forall (bit : bool) (c : tree), c = (if bit then r else l) -> c <> Leaf ->
    (exists z zs t' s', find_leaf fuel (root c) (saddr (child_slot y bit)) h = Some (z, saddr s') /\ leaf_cut (view h) (child_slot y bit) c z zs t' s') ->
    exists z zs t' s', (if root c =? NULL then Some (y, saddr s) else find_leaf fuel (root c) (saddr (child_slot y bit)) h) = Some (z, saddr s')
      /\ leaf_cut (view h) s (Node y same l r) z zs t' s').
  { intros bit c Ec Hc (z & zs & c' & s' & E & L). rewrite (proj2 (Z.eqb_neq _ _)).
    - do 4 eexists. split; [exact E|]. apply leaf_cut_child; try done. by rewrite <- Ec.
    - apply Hnz'. rewrite Ec. destruct bit; [right|left]; apply root_in; by rewrite Ec in Hc. }
  destruct (leaf_or_not r) as [->|Hr].
  - simpl Z.eqb. cbv iota. rewrite E0, (load_field _ y C0 _ (at_tree_root _ _ _ H5)). cbn [mbind option_bind].
    destruct (leaf_or_not l) as [->|Hl].
    + exists y, same, Leaf, s. split; [done|]. split; try done; simpl.
      * by left.
      * intros sz index d pfx Htr. simpl in Htr. tauto.
    + apply (Hstep false); [done|done|]. apply IHl; try done; [intros x Hx; apply Hnz'; by left|lia].
  - assert (root r <> NULL) as Hrn by (apply Hnz'; right; by apply root_in).
    rewrite (proj2 (Z.eqb_neq (root r) NULL)) by done. rewrite E1, (load_field _ y C1 _ (at_tree_root _ _ _ H6)). cbn [mbind option_bind].
    apply (Hstep true); [done|done|]. apply IHr; try done; [intros x Hx; apply Hnz'; by right|lia].
Qed.

(** ** [zend_mm_remove_from_free_list] *)

(** What follows when the block has left its list. *)
Definition after_unlink (mm_block prev next : Z) (h : mm_heap) : option mm_heap :=
  size ← ZEND_MM_FREE_BLOCK_SIZE mm_block h;
  if ZEND_MM_SMALL_SIZE size then
    if prev =? next then
      let index := ZEND_MM_BUCKET_INDEX size in
      x ← load (free_buckets h (index * 2)) h;
      y ← load (free_buckets h (index * 2 + 1)) h;
      if x =? y then Some (set_free_bitmap (clear_bit index (free_bitmap h)) h) else Some h
    else Some h
  else
    parent ← load (f_parent mm_block) h;
    if parent =? ZEND_MM_REST_BLOCK then Some (set_rest_count (rest_count h - 1) h)
    else if negb (parent =? NULL) then subst_block prev mm_block h
    else Some h.

Lemma remove_linked h x l1 b l2 : ring (view h) x (l1 ++ b :: l2) -> NoDup (x :: l1 ++ b :: l2) ->
  zend_mm_remove_from_free_list b h =
    (h' ← stores [(prev_of x l1, Nf, next_of l2 x); (next_of l2 x, Pf, prev_of x l1)] h;
     after_unlink b (prev_of x l1) (next_of l2 x) h').
Proof.
  intros Hr Hnd. destruct (ring_neighbours _ _ _ _ _ Hr) as (N1 & N2 & N3 & N4).
  pose proof (prev_of_elem x l1) as Hpe. set (p := prev_of x l1) in *. set (n := next_of l2 x) in *.
  assert (Hpb : p <> b).
  { intros ->. change (x :: l1 ++ b :: l2) with ((x :: l1) ++ b :: l2) in Hnd. apply NoDup_app in Hnd as (_ & Hd & _).
    apply (Hd b Hpe). by left. }
  destruct (field_addresses b) as (_ & _ & E1 & E2 & _). destruct (field_addresses p) as (_ & _ & _ & E3 & _).
  destruct (field_addresses n) as (_ & _ & E4 & _).
  unfold zend_mm_remove_from_free_list. rewrite E1, E2, (load_field _ _ _ _ N1), (load_field _ _ _ _ N3). cbn [mbind option_bind].
  rewrite (proj2 (Z.eqb_neq p b)) by done. rewrite E3, (load_field _ _ _ _ N2). cbn [mbind option_bind].
  unfold ZEND_MM_CHECK. rewrite Z.eqb_refl. cbn [mbind option_bind]. rewrite E4, (load_field _ _ _ _ N4). cbn [mbind option_bind].
  rewrite Z.eqb_refl. cbn [mbind option_bind stores]. destruct (store (at_ p Nf) n h) as [h1|]; [|done]. cbn [mbind option_bind].
  destruct (store (at_ n Pf) p h1) as [h2|]; done.
Qed.

Section Removal.
Variable sz : Z -> Z.

(** A trie in its place, its blocks large. *)
Record placed (h : mm_heap) (s : slot) (t : tree) : Prop := {
  pl_alloc : allocated V h;
  pl_tree : at_tree (view h) s t;
  pl_nodup : NoDup (nodes t);
  pl_fresh : s.1 ∉ nodes t;
  pl_slot : V s.1 s.2 /\ (s.2 = C0 \/ s.2 = C1);
  pl_whole : forall x, x ∈ nodes t -> whole V sz (view h) x;
  pl_large : forall x, x ∈ nodes t -> 0 < x /\ 0 < sz x < 2 ^ N /\ ZEND_MM_SMALL_SIZE (sz x) = false;
  pl_addr : 1 < saddr s;
  pl_height : (height t <= Z.to_nat N)%nat
}.

Definition is_leaf (t : tree) : bool := match t with Leaf => true | _ => false end.

(** [b] has left [t]; the bit of the bitmap goes with the last block. *)
Record taken (h h' : mm_heap) (s : slot) (t : tree) (b : Z) (t' : tree) : Prop := {
  tk_tree : at_tree (view h') s t';
  tk_nodes : nodes t ≡ₚ b :: nodes t';
  tk_trie : forall index d pfx, trie sz index d pfx t -> trie sz index d pfx t';
  tk_wrote : wrote (fun x f => (x, f) = s \/ links_of (nodes t) x f) h h';
  tk_bits : bits h' = (free_bitmap h,
    (if is_leaf t' && (saddr s =? large_free_buckets h (Z.log2 (sz b))) then clear_bit (Z.log2 (sz b)) (large_free_bitmap h)
     else large_free_bitmap h), rest_count h)
}.

Lemma placed_size h s t x : placed h s t -> x ∈ nodes t -> ZEND_MM_FREE_BLOCK_SIZE x h = Some (sz x).
Proof.
  intros Hp Hx. unfold ZEND_MM_FREE_BLOCK_SIZE. rewrite (proj1 (field_addresses x)).
  apply load_field, (pl_whole _ _ _ Hp x Hx).
Qed.

(** A block that is not the first of its list. *)
Lemma remove_same_ok h s x same l r b : placed h s (Node x same l r) -> b ∈ same ->
  exists h' t', zend_mm_remove_from_free_list b h = Some h' /\ taken h h' s (Node x same l r) b t' /\ t' <> Leaf.
Proof.
  intros Hp Hb. pose proof Hp as [P1 P2 P3 P4 P5 P6 P7 P8 P9]. simpl in P2, P3. destruct P2 as (H1 & H2 & H3 & H4 & H5 & H6).
  apply list_elem_of_split in Hb as (l1 & l2 & ->).
  assert (Hnds : NoDup (x :: l1 ++ b :: l2)).
  { apply NoDup_cons in P3 as [Hx P3]. apply NoDup_app in P3 as (P3 & _). apply NoDup_cons. split; [|done]. by apply not_elem_of_app in Hx as [Hx _]. }
  assert (Hin : forall y, y ∈ x :: l1 ++ b :: l2 \/ y ∈ nodes l \/ y ∈ nodes r -> y ∈ nodes (Node x (l1 ++ b :: l2) l r)).
  { intros y. simpl. rewrite !elem_of_cons, !elem_of_app, !elem_of_cons. tauto. }
  assert (Hin' : forall y, y ∈ x :: l1 ++ l2 -> y ∈ x :: l1 ++ b :: l2).
  { intros y. rewrite !elem_of_cons, !elem_of_app, !elem_of_cons. tauto. }
  assert (HV : forall y, y ∈ nodes (Node x (l1 ++ b :: l2) l r) -> forall f, V y f) by (intros y Hy; apply (P6 y Hy)).
  rewrite (remove_linked h x l1 b l2) by done.
  destruct (unlink_ok V V_separate h x l1 b l2) as (h1 & E & Hr & Wr & Bt); [done..| |].
  { intros y Hy. split; apply HV, Hin; left; by apply Hin'. }
  rewrite E. cbn [mbind option_bind].
  assert (Hk : forall y f, V y f -> ~ (y ∈ x :: l1 ++ l2 /\ (f = Pf \/ f = Nf)) -> view h1 y f = view h y f).
  { intros y f Hy Hn. eapply wrote_view; [exact Wr|exact V_separate| |done|done]. intros z e [Hz _]. apply HV, Hin. left. by apply Hin'. }
  assert (Hb : b ∈ x :: l1 ++ b :: l2) by set_solver +.
  assert (Vb : forall f, V b f) by (apply HV, Hin; by left).
  exists h1, (Node x (l1 ++ l2) l r). split; [|split; [|done]].
  - unfold after_unlink, ZEND_MM_FREE_BLOCK_SIZE. destruct (field_addresses b) as (E1 & _ & _ & _ & E2 & _). rewrite E1, E2.
    rewrite (load_field h1 b Sz (sz b)); [cbn [mbind option_bind]|rewrite Hk; [apply P6, Hin; by left|done|]; by intros [_ [?|?]]].
    rewrite (proj2 (proj2 (P7 b (Hin b (or_introl Hb))))).
    rewrite (load_field h1 b Par NULL); [done|]. rewrite Hk; [apply H4; set_solver +|done|by intros [_ [?|?]]].
  - assert (Hsub : forall c f, (f = C0 \/ f = C1) -> (c = l \/ c = r) -> at_tree (view h) (x, f) c -> at_tree (view h1) (x, f) c).
    { intros c f Hf Hc Hat. eapply at_tree_frame; [exact Hat|simpl; apply Hk|].
      - apply HV, Hin. left. by left.
      - intuition congruence.
      - intros y e Hy _. apply Hk; [apply HV, Hin; right; destruct Hc as [-> | ->]; auto|]. intros [Hy' _].
        simpl in P3. apply Hin' in Hy'. change (x :: (l1 ++ b :: l2) ++ nodes l ++ nodes r) with ((x :: l1 ++ b :: l2) ++ nodes l ++ nodes r) in P3.
        apply NoDup_app in P3 as (_ & Hd & _). apply (Hd y Hy'), elem_of_app. destruct Hc as [-> | ->]; auto. }
    split.
    + simpl. split_and!; try done.
      * rewrite Hk; [done|by apply P5|]. intros [_ Hf]. destruct P5 as [_ [E'|E']]; rewrite E' in Hf; by destruct Hf.
      * rewrite Hk; [done|apply HV, Hin; left; by left|]. by intros [_ [?|?]].
      * intros y Hy. rewrite Hk; [apply H4; set_solver +Hy|apply HV, Hin; left; apply Hin'; by right|]. by intros [_ [?|?]].
      * apply Hsub; auto.
      * apply Hsub; auto.
    + simpl. rewrite <- app_assoc. simpl. rewrite <- Permutation_middle, perm_swap, <- app_assoc. done.
    + simpl. intros index d pfx (T1 & T2 & T3 & T4 & T5). split_and!; try done. intros y Hy. apply T3. set_solver +Hy.
    + eapply wrote_weaken; [exact Wr|]. intros y f [Hy Hf]. right. split; [apply Hin; left; by apply Hin'|].
      apply link_fields. tauto.
    + simpl. by rewrite Bt.
Qed.

(** The first of a list gives its place to the last one. *)
Lemma remove_shared_ok h s b l1 p l r : placed h s (Node b (l1 ++ [p]) l r) ->
  exists h' t', zend_mm_remove_from_free_list b h = Some h' /\ taken h h' s (Node b (l1 ++ [p]) l r) b t' /\ t' <> Leaf.
Proof.
  intros Hp. pose proof Hp as [P1 P2 P3 P4 P5 P6 P7 P8 P9]. simpl in P2. destruct P2 as (H1 & H2 & H3 & H4 & H5 & H6).
  assert (Eperm : nodes (Node b (l1 ++ [p]) l r) ≡ₚ b :: p :: l1 ++ nodes l ++ nodes r).
  { simpl. by rewrite <- app_assoc; simpl; rewrite <- Permutation_middle. }
  rewrite Eperm in P3, P4. apply ring_rotate in H3. simpl in H3. change (ring (view h) p ([] ++ b :: l1)) in H3.
  assert (Hin : forall y, y ∈ b :: p :: l1 ++ nodes l ++ nodes r -> y ∈ nodes (Node b (l1 ++ [p]) l r)) by (intros y; by rewrite Eperm).
  assert (HV : forall y, y ∈ b :: p :: l1 ++ nodes l ++ nodes r -> forall f, V y f) by (intros y Hy; by apply P6, Hin).
  assert (Hsub : forall y, y ∈ p :: l1 -> y ∈ b :: p :: l1 ++ nodes l ++ nodes r) by (intros y; rewrite !elem_of_cons, !elem_of_app; tauto).
  assert (Hnd : NoDup (p :: [] ++ b :: l1)).
  { apply NoDup_cons in P3 as [Hb P3]. change (p :: l1 ++ nodes l ++ nodes r) with ((p :: l1) ++ nodes l ++ nodes r) in Hb, P3.
    apply NoDup_app in P3 as (P3 & _). apply not_elem_of_app in Hb as [Hb _]. simpl. rewrite perm_swap. by apply NoDup_cons. }
  rewrite (remove_linked h p [] b l1) by done.
  destruct (unlink_ok V V_separate h p [] b l1) as (h1 & E & Hr & Wr & Bt); [done..| |].
  { intros y Hy. split; by apply HV, Hsub. }
  rewrite E. cbn [mbind option_bind prev_of last default]. simpl app in *.
  assert (Hk : forall y f, V y f -> ~ (y ∈ p :: l1 /\ (f = Pf \/ f = Nf)) -> view h1 y f = view h y f).
  { intros y f Hy Hn. eapply wrote_view; [exact Wr|exact V_separate| |done|done]. intros z e [Hz _]. by apply HV, Hsub. }
  assert (Vb : forall f, V b f) by (apply HV; by left).
  assert (Hbp : b ∉ p :: l1).
  { apply NoDup_cons in P3 as [Hb _]. intros Hn. apply Hb. apply elem_of_cons in Hn as [->|Hn]; [by left|]. right. apply elem_of_app. by left. }
  assert (Hsu : substitutable h1 s b p l1 l r).
  { assert (Hc : forall c f, (f = C0 \/ f = C1) -> (c = l \/ c = r) -> at_tree (view h) (b, f) c -> at_tree (view h1) (b, f) c).
    { intros c f Hf Hc Hat. eapply at_tree_frame; [exact Hat|simpl; apply Hk; [done|by intros [? _]]|].
      intros y e Hy _. assert (Hy' : y ∈ nodes l ++ nodes r) by (rewrite elem_of_app; destruct Hc as [-> | ->]; auto).
      apply Hk; [apply HV; right; right; apply elem_of_app; by right|]. intros [Hy'' _].
      apply NoDup_cons in P3 as [_ P3]. change (p :: l1 ++ nodes l ++ nodes r) with ((p :: l1) ++ nodes l ++ nodes r) in P3.
      apply NoDup_app in P3 as (_ & Hd & _). by apply (Hd y). }
    split; try done.
    - rewrite Hk; [done|by apply P5|]. intros [_ Hf]. destruct P5 as [_ [E'|E']]; rewrite E' in Hf; by destruct Hf.
    - rewrite Hk; [done|done|]. by intros [? _].
    - apply Hc; auto.
    - apply Hc; auto.
    - intros x Hx. rewrite Hk; [apply H4; set_solver +Hx|apply HV, Hsub; by right|by intros [_ [?|?]]].
    - by apply P5.
    - split; [by apply P5|done].
    - intros x Hx. assert (0 < x); [|unfold NULL; lia]. apply P7, Hin. right. right. apply elem_of_app. by right. }
  destruct (subst_ok h1 s b p l1 l r) as (h2 & E2 & Ht2 & Wr2 & Bt2); [by eapply wrote_allocated|done|].
  exists h2, (Node p l1 l r). split; [|split; [|done]].
  - unfold after_unlink, ZEND_MM_FREE_BLOCK_SIZE. destruct (field_addresses b) as (E1 & _ & _ & _ & E3 & _). rewrite E1, E3.
    rewrite (load_field h1 b Sz (sz b)); [cbn [mbind option_bind]|rewrite Hk; [apply P6, Hin; by left|done|]; by intros [_ [?|?]]].
    rewrite (proj2 (proj2 (P7 b (Hin b ltac:(by left))))).
    rewrite (load_field h1 b Par (saddr s)); [|apply Hsu]. cbn [mbind option_bind].
    unfold ZEND_MM_REST_BLOCK, NULL. rewrite !(proj2 (Z.eqb_neq _ _)) by lia. done.
  - split.
    + done.
    + by rewrite Eperm.
    + simpl. intros index d pfx (T1 & T2 & T3 & T4 & T5). assert (Ep : sz p = sz b) by (apply T3; set_solver +). rewrite !Ep.
      split_and!; try done. intros y Hy. apply T3. set_solver +Hy.
    + eapply wrote_trans; [apply (wrote_weaken _ _ _ _ Wr)|apply (wrote_weaken _ _ _ _ Wr2)].
      * intros y f [Hy Hf]. right. split; [by apply Hin, Hsub|]. apply link_fields. tauto.
      * intros y f [?|[Hy Hf]]; [by left|right]. split; [|done]. apply Hin. right. rewrite !elem_of_cons, !elem_of_app in *. tauto.
    + simpl. by rewrite Bt2, Bt.
Qed.

(** A block that is alone, with no children. *)
Lemma remove_last_ok h s b : placed h s (Node b [] Leaf Leaf) ->
  exists h', zend_mm_remove_from_free_list b h = Some h' /\ taken h h' s (Node b [] Leaf Leaf) b Leaf.
Proof.
  intros Hp. pose proof Hp as [P1 P2 P3 P4 P5 P6 P7 P8 P9]. simpl in P2. destruct P2 as (H1 & H2 & H3 & _ & H5 & H6).
  apply ring_first in H3 as [N1 N2]. simpl in N1, N2. destruct (field_addresses b) as (E1 & _ & E2 & E3 & E4 & E5 & E6).
  destruct (P7 b) as (Hb1 & Hb2 & Hb3); [by left|]. destruct (P6 b) as (_ & Hsz & HVb); [by left|].
  unfold zend_mm_remove_from_free_list, ZEND_MM_CHECK_TREE, ZEND_MM_FREE_BLOCK_SIZE, ZEND_MM_LARGE_BUCKET_INDEX, ZEND_MM_CHECK.
  rewrite E1, E2, E3, (load_field _ _ _ _ N1), (load_field _ _ _ _ N2). cbn [mbind option_bind].
  rewrite Z.eqb_refl. cbn [mbind option_bind]. rewrite E6, (load_field _ _ _ _ H6). cbn [mbind option_bind]. rewrite Z.eqb_refl.
  rewrite E5, (load_field _ _ _ _ H5). cbn [mbind option_bind]. rewrite Z.eqb_refl.
  rewrite (load_field _ _ _ _ Hsz). cbn [mbind option_bind]. rewrite (proj1 (high_bit_ok (sz b) Hb2)). cbn [mbind option_bind].
  rewrite E4, (load_field _ _ _ _ H2). cbn [mbind option_bind].
  rewrite (load_slot _ _ _ H1). cbn [mbind option_bind]. rewrite Z.eqb_refl. cbn [mbind option_bind].
  rewrite (load_field _ _ _ _ H2). cbn [mbind option_bind].
  destruct (store_field V h s.1 s.2 NULL) as (h1 & X1 & W1 & A1 & B1); [done..|by apply P5|].
  change (at_ s.1 s.2) with (saddr s) in X1. rewrite X1. cbn [mbind option_bind].
  assert (Hd : view h1 s.1 s.2 = Some NULL) by (rewrite A1, upd_eq by apply P5; done).
  assert (Hlb : large_free_buckets h1 (Z.log2 (sz b)) = large_free_buckets h (Z.log2 (sz b))).
  { pose proof (wr_others _ _ _ W1) as Ho. unfold large_free_buckets. injection Ho. congruence. }
  assert (Hw : wrote (fun x f => (x, f) = s \/ links_of [b] x f) h h1).
  { eapply wrote_weaken; [exact W1|]. intros x f [-> ->]. left. by destruct s. }
  rewrite Hlb. injection B1 as B1 B2 B3. destruct (saddr s =? _) eqn:Ea; (eexists; split; [reflexivity|]; split; simpl; try done).
  - destruct Hw as [D M O]. by split.
  - rewrite Ea. unfold bits. simpl. by rewrite B1, B2, B3.
  - rewrite Ea. unfold bits. by rewrite B1, B2, B3.
Qed.

(** A block that is alone gives its place to a leaf. *)
Lemma remove_alone_ok h s b l r : placed h s (Node b [] l r) -> l <> Leaf \/ r <> Leaf ->
  exists h' t', zend_mm_remove_from_free_list b h = Some h' /\ taken h h' s (Node b [] l r) b t' /\ t' <> Leaf.
Proof.
  intros Hp Hlr. pose proof Hp as [P1 P2 P3 P4 P5 P6 P7 P8 P9]. simpl in P2, P3. destruct P2 as (H1 & H2 & H3 & _ & H5 & H6).
  apply ring_first in H3 as [N1 N2]. simpl in N1, N2. destruct (field_addresses b) as (_ & _ & E2 & E3 & _ & E5 & E6).
  set (bit := negb (root r =? NULL)). set (c := if bit then r else l).
  assert (Hnz : forall y, y ∈ nodes l ++ nodes r -> y <> NULL).
  { intros y Hy. assert (0 < y); [|unfold NULL; lia]. apply P7. simpl. by right. }
  assert (Hbit : bit = false <-> r = Leaf).
  { unfold bit. destruct (leaf_or_not r) as [->|Hr]; [done|]. split; [|done]. rewrite (proj2 (Z.eqb_neq _ _)); [done|].
    apply Hnz, elem_of_app. right. by apply root_in. }
  assert (Hc : c <> Leaf).
  { unfold c. destruct bit; [intros E; by apply Hbit in E|]. destruct Hlr as [?|Hr]; [done|]. by rewrite (proj1 Hbit eq_refl) in Hr. }
  assert (Hat : at_tree (view h) (child_slot b bit) c) by (unfold c; by destruct bit).
  assert (Hcn : forall y, y ∈ nodes c -> y ∈ nodes l ++ nodes r) by (intros y; rewrite elem_of_app; unfold c; destruct bit; auto).
  assert (Hb : b ∉ nodes l ++ nodes r /\ NoDup (nodes l ++ nodes r)) by (by apply NoDup_cons in P3).
  destruct Hb as [Hb Hnd]. assert (Hndc : NoDup (nodes c)) by (apply NoDup_app in Hnd as (? & _ & ?); unfold c; by destruct bit).
  destruct (find_leaf_ok h c (child_slot b bit) (Z.to_nat N)) as (z & zs & c' & s' & E & [L1 L2 L3 L4 L5 L6]); [done..| | | |].
  { simpl. by intros ?%Hcn. }
  { intros y Hy. by apply Hnz, Hcn. }
  { simpl in P9. unfold c. destruct bit; lia. }
  set (l' := if bit then l else c'). set (r' := if bit then c' else r).
  assert (Eperm : nodes l ++ nodes r ≡ₚ z :: zs ++ nodes l' ++ nodes r').
  { unfold l', r', c in *. destruct bit; rewrite L1; simpl.
    - pose proof (Permutation_app_swap_app (nodes l) (z :: zs) (nodes c')) as P. by simpl in P.
    - by rewrite <- app_assoc. }
  assert (Hs' : (s'.1 = b \/ s'.1 ∈ nodes l' ++ nodes r') /\ (s'.2 = C0 \/ s'.2 = C1)).
  { destruct L2 as [[-> _]|[Hin Hf]]; [split; [by left|simpl; destruct bit; auto]|]. split; [right|done].
    apply elem_of_app. unfold l', r'. destruct bit; auto. }
  destruct Hs' as [Hs'1 Hs'2].
  assert (Hin : forall y, y ∈ b :: z :: zs ++ nodes l' ++ nodes r' -> y ∈ nodes (Node b [] l r)).
  { intros y. simpl. by rewrite Eperm. }
  assert (HV : forall y, y ∈ b :: z :: zs ++ nodes l' ++ nodes r' -> forall f, V y f) by (intros y Hy; by apply P6, Hin).
  assert (Hs'b : s'.1 ∈ b :: z :: zs ++ nodes l' ++ nodes r').
  { destruct Hs'1 as [->|Hs']; [by left|]. do 2 right. apply elem_of_app. by right. }
  destruct (store_field V h s'.1 s'.2 NULL) as (h1 & X1 & W1 & A1 & B1); [done..|by apply HV|].
  assert (Hk : forall y f, V y f -> (y, f) <> s' -> view h1 y f = view h y f).
  { intros y f Hy Hne. rewrite A1 by done. apply upd_ne. destruct (decide (s'.1 = y)) as [<-|]; [right|by left].
    intros <-. by destruct s'. }
  assert (Hnull : view h1 s'.1 s'.2 = Some NULL) by (rewrite A1, upd_eq by (by apply HV); done).
  assert (Hss : s <> s') by (intros ->; apply P4; by apply Hin).
  assert (Hzf : forall y f, f = Pf \/ f = Nf \/ f = Par -> y ∈ b :: z :: zs ++ nodes l' ++ nodes r' -> view h1 y f = view h y f).
  { intros y f Hf Hy. apply Hk; [by apply HV|]. intros <-. simpl in Hs'2. intuition congruence. }
  pose proof P3 as P3'. simpl in P4. rewrite Eperm in P3, P4, Hb, Hnd.
  assert (Hsu : substitutable h1 s b z zs l' r').
  { assert (Hcut : at_tree (view h1) (child_slot b bit) c').
    { apply L6; [done|]. intros y f Hne [Ey|[Hy Hf]].
      - apply Hk; [|done]. injection Ey as -> ->. apply HV. by left.
      - apply Hk; [|done]. apply HV. do 2 right. rewrite !elem_of_app. unfold l', r'. destruct bit; auto. }
    assert (Hdis : forall y, y ∈ nodes (if bit then l else r) -> y ∉ nodes c').
    { intros y Hy Hy'. unfold l', r' in Hnd. apply NoDup_cons in Hnd as [_ Hnd]. apply NoDup_app in Hnd as (_ & _ & Hnd).
      destruct bit; apply NoDup_app in Hnd as (_ & Hd & _); by apply (Hd y). }
    assert (Hother : at_tree (view h) (child_slot b (negb bit)) (if bit then l else r) ->
      at_tree (view h1) (child_slot b (negb bit)) (if bit then l else r)).
    { intros Ht. eapply at_tree_frame; [exact Ht|apply Hk|].
      - apply HV. by left.
      - destruct L2 as [[-> _]|[Hn _]]; [simpl; by destruct bit|]. intros E'. rewrite <- E' in Hn. simpl in Hn.
        apply Hb. right. rewrite !elem_of_app. unfold l', r'. destruct bit; auto.
      - intros y f Hy _. apply Hk.
        + apply HV. do 2 right. rewrite !elem_of_app. unfold l', r'. destruct bit; auto.
        + intros <-. destruct L2 as [[Ey _]|[Hn _]]; [|by apply (Hdis y)]. injection Ey as -> _.
          apply Hb. right. rewrite !elem_of_app. unfold l', r'. destruct bit; auto. }
    split; try done.
    - rewrite Hk; [done|by apply P5|by destruct s].
    - rewrite Hzf; [done|auto|by left].
    - unfold l'. destruct bit; [by apply Hother|done].
    - unfold r'. destruct bit; [done|by apply Hother].
    - eapply ring_frame; [exact L4|]. intros y Hy. assert (y ∈ b :: z :: zs ++ nodes l' ++ nodes r').
      { right. by apply cons_keep. }
      split; apply Hzf; auto.
    - intros y Hy. rewrite Hzf; [by apply L5|auto|]. do 2 right. apply elem_of_app. by left.
    - by apply P5.
    - split; [by apply P5|done].
    - intros y Hy. apply Hnz. rewrite Eperm. right. apply elem_of_app. by right. }
  destruct (subst_ok h1 s b z zs l' r') as (h2 & E7 & Ht2 & Wr2 & Bt2); [by eapply wrote_allocated|done|].
  exists h2, (Node z zs l' r'). split; [|split; [|done]].
  - unfold zend_mm_remove_from_free_list, ZEND_MM_CHECK. rewrite E2, E3, (load_field _ _ _ _ N1), (load_field _ _ _ _ N2).
    cbn [mbind option_bind]. rewrite !Z.eqb_refl. cbn [mbind option_bind].
    rewrite E6, (load_field _ b C1 _ (at_tree_root _ _ _ H6)). cbn [mbind option_bind].
    assert (Erp : f_child b (if root r =? NULL then 0 else 1) = saddr (child_slot b bit)).
    { rewrite <- child_slot_addr. unfold bit. by destruct (root r =? NULL). }
    rewrite Erp, (load_slot _ _ _ (at_tree_root _ _ _ Hat)). cbn [mbind option_bind].
    rewrite (proj2 (Z.eqb_neq (root c) NULL)) by (apply Hnz, Hcn; by apply root_in).
    rewrite E. cbn [mbind option_bind]. change (at_ s'.1 s'.2) with (saddr s') in X1. rewrite X1. cbn [mbind option_bind]. done.
  - split; [done| | | |].
    + simpl. by rewrite Eperm.
    + simpl. intros index d pfx (T1 & T2 & _ & T4 & T5).
      assert (Tc : trie sz index (d + 1) (2 * pfx + Z.b2z bit) c) by (unfold c; destruct bit; simpl; [done|by rewrite Z.add_0_r]).
      destruct (L3 _ _ _ _ Tc) as [Tc' Hzs].
      destruct (trie_prefix sz index c (d + 1) (2 * pfx + Z.b2z bit) z Tc) as [Hd Hpz]; [rewrite L1; by left|].
      split_and!; [done| |done| |].
      * by apply (prefix_up _ _ _ _ bit).
      * unfold l'. destruct bit; [done|]. simpl in Tc'. by rewrite Z.add_0_r in Tc'.
      * unfold r'. destruct bit; done.
    + eapply wrote_trans; [apply (wrote_weaken _ _ _ _ W1)|apply (wrote_weaken _ _ _ _ Wr2)].
      * intros y f [-> ->]. right. split; [by apply Hin|]. apply link_fields. destruct Hs'2; auto 10.
      * intros y f [?|[Hy Hf]]; [by left|right]. split; [|done]. apply Hin. right. by apply cons_skip.
    + simpl. rewrite Bt2; exact B1.
Qed.
End Removal.
End Cut.
