(* ===== verification/AllocRemove.v ===== *)
(** * AllocRemove: any block of a trie can be taken out *)
From S2P Require Import Prelude ZendAlloc AllocBits AllocRing AllocTrie AllocCut.

Section Remove.
Context `{SizeT}.
Abbreviation N := ZEND_MM_NUM_BUCKETS.
Abbreviation slot := (Z * fld)%type.
Variable V : Z -> fld -> Prop.
Hypothesis V_separate : separate V.
Variable sz : Z -> Z.

Abbreviation placed := (placed V sz).
Abbreviation taken := (taken sz).

Lemma remove_first_ok h s b same l r : placed h s (Node b same l r) ->
  exists h' t', zend_mm_remove_from_free_list b h = Some h' /\ taken h h' s (Node b same l r) b t'.
Proof.
  intros Hp. destruct same as [|p l1 _] using rev_ind.
  - destruct (leaf_or_not l) as [->|Hl].
    + destruct (leaf_or_not r) as [->|Hr].
      * destruct (remove_last_ok V V_separate sz h s b Hp) as (h' & E & T). by exists h', Leaf.
      * destruct (remove_alone_ok V V_separate sz h s b Leaf r Hp) as (h' & t' & E & T & _); [by right|]. by exists h', t'.
    + destruct (remove_alone_ok V V_separate sz h s b l r Hp) as (h' & t' & E & T & _); [by left|]. by exists h', t'.
  - destruct (remove_shared_ok V V_separate sz h s b l1 p l r Hp) as (h' & t' & E & T & _). by exists h', t'.
Qed.

Abbreviation child bit l r := (if bit : bool then r else l : tree).

Lemma child_nodes bit l r x : x ∈ nodes (child bit l r) -> x ∈ nodes l ++ nodes r.
Proof. rewrite elem_of_app. destruct bit; auto. Qed.

Lemma placed_child h s x same l r bit : placed h s (Node x same l r) -> placed h (child_slot x bit) (child bit l r).
Proof.
  intros [P1 P2 P3 P4 P5 P6 P7 P8 P9]. simpl in P2, P3, P9. destruct P2 as (H1 & H2 & H3 & H4 & H5 & H6).
  apply NoDup_cons in P3 as [Hx P3]. apply NoDup_app in P3 as (_ & _ & P3).
  assert (Hin : forall y, y ∈ nodes (child bit l r) -> y ∈ nodes (Node x same l r)).
  { intros y Hy%child_nodes. simpl. right. apply elem_of_app. by right. }
  split; try done.
  - by destruct bit.
  - apply NoDup_app in P3 as (? & _ & ?). by destruct bit.
  - simpl. intros Hn%child_nodes. apply Hx, elem_of_app. by right.
  - split; [apply P6; by left|]. destruct bit; [by right|by left].
  - intros y Hy. by apply P6, Hin.
  - intros y Hy. by apply P7, Hin.
  - pose proof consts as C. destruct (P7 x) as (Hx0 & _); [by left|]. unfold saddr, at_, off. simpl. destruct bit; lia.
  - destruct bit; lia.
Qed.

Lemma taken_child h h' s x same l r bit b c' : placed h s (Node x same l r) -> b ∈ nodes (child bit l r) ->
  saddr (child_slot x bit) <> large_free_buckets h (Z.log2 (sz b)) ->
  taken h h' (child_slot x bit) (child bit l r) b c' ->
  taken h h' s (Node x same l r) b (if bit then Node x same l c' else Node x same c' r).
Proof.
  intros Hp Hb Hroot [T1 T2 T3 T4 T5]. pose proof Hp as [P1 P2 P3 P4 P5 P6 P7 P8 P9].
  assert (Hin : forall y, y ∈ nodes (child bit l r) -> y ∈ nodes (Node x same l r)).
  { intros y Hy%child_nodes. simpl. right. apply elem_of_app. by right. }
  assert (HV : forall y, y ∈ nodes (Node x same l r) -> forall f, V y f) by (intros y Hy; by apply P6).
  split.
  - eapply (subtree_changed V V_separate s x same l r bit h h' c' (nodes (child bit l r))); try done; [by apply P5|auto|].
    intros y Hy. split; [|intros ->; by apply P4, Hin]. simpl in P3. apply NoDup_cons in P3 as [Hx P3].
    apply NoDup_app in P3 as (_ & Hd & P3). apply NoDup_app in P3 as (_ & Hlr & _).
    rewrite elem_of_cons, elem_of_app. intros [->|[Hs|Hn]].
    + apply Hx, elem_of_app. right. by eapply child_nodes.
    + apply (Hd y Hs). by eapply child_nodes.
    + destruct bit; by apply (Hlr y).
  - destruct bit; simpl.
    + rewrite T2. pose proof (Permutation_middle (x :: same ++ nodes l) (nodes c') b) as P. simpl in P.
      rewrite <- !app_assoc in P. by rewrite P.
    + rewrite T2. simpl. pose proof (Permutation_middle (x :: same) (nodes c' ++ nodes r) b) as P. simpl in P. by rewrite P.
  - intros index d pfx (Q1 & Q2 & Q3 & Q4 & Q5). destruct bit; simpl; split_and!; try done; by apply T3.
  - eapply wrote_weaken; [exact T4|]. intros y f [E|[Hy Hf]]; right; [|split; [by apply Hin|done]].
    injection E as -> ->. split; [by left|]. apply link_fields. destruct bit; auto 10.
  - rewrite T5. rewrite (proj2 (Z.eqb_neq _ _) Hroot), andb_false_r. by destruct bit.
Qed.

(** A block is taken out of a trie. *)
Lemma trie_remove_ok h b t : forall s, placed h s t -> b ∈ nodes t ->
  (forall x bit, x ∈ nodes t -> saddr (child_slot x bit) <> large_free_buckets h (Z.log2 (sz b))) ->
  exists h' t', zend_mm_remove_from_free_list b h = Some h' /\ taken h h' s t b t'.
Proof.
  induction t as [|x same l IHl r IHr]; intros s Hp Hb Hroot; [by apply not_elem_of_nil in Hb|].
  simpl in Hb. apply elem_of_cons in Hb as [->|Hb]; [by apply remove_first_ok|].
  apply elem_of_app in Hb as [Hb|Hb].
  { destruct (remove_same_ok V V_separate sz h s x same l r b Hp Hb) as (h' & t' & E & T & _). by exists h', t'. }
  assert (Hstep : forall bit : bool, b ∈ nodes (child bit l r) ->
    (exists h' c', zend_mm_remove_from_free_list b h = Some h' /\ taken h h' (child_slot x bit) (child bit l r) b c') ->
    exists h' t', zend_mm_remove_from_free_list b h = Some h' /\ taken h h' s (Node x same l r) b t').
  { intros bit Hin (h' & c' & E & T). eexists h', _. split; [exact E|]. eapply taken_child; try done. apply Hroot. by left. }
  assert (Hsub : forall y, y ∈ nodes l ++ nodes r -> y ∈ nodes (Node x same l r)).
  { intros y Hy. simpl. right. apply elem_of_app. by right. }
  apply elem_of_app in Hb as [Hb|Hb].
  - apply (Hstep false); [done|]. apply IHl; [by apply (placed_child h s x same l r false)|done|].
    intros y bit Hy. apply Hroot, Hsub, elem_of_app. by left.
  - apply (Hstep true); [done|]. apply IHr; [by apply (placed_child h s x same l r true)|done|].
    intros y bit Hy. apply Hroot, Hsub, elem_of_app. by right.
Qed.
End Remove.
