(* ===== verification/AllocSearch.v ===== *)
(** * AllocSearch: looking for a large free block

    [zend_mm_search_large_block] finds a block that is large enough whenever
    there is one.  It need not be the smallest one. *)
From S2P Require Import Prelude ZendAlloc AllocBits AllocRing AllocTrie AllocCut.

Section Search.
Context `{SizeT}.
Abbreviation N := ZEND_MM_NUM_BUCKETS.
Abbreviation slot := (Z * fld)%type.
Variable sz : Z -> Z.
Variable h : mm_heap.
Variable true_size : Z.

(** The links and sizes of a list of blocks can be read. *)
Record readable (all : list Z) : Prop := {
  re_size : forall x, x ∈ all -> view h x Sz = Some (sz x) /\ 0 < sz x < 2 ^ N - 1;
  re_null : forall x, x ∈ all -> x <> NULL
}.
Lemma readable_sub l l' : readable l -> (forall x, x ∈ l' -> x ∈ l) -> readable l'.
Proof. intros [R1 R2] Hs. split; intros x Hx; auto. Qed.

(** The block [x] and those of its list would do. *)
Definition fits (all : list Z) (x : Z) : Prop :=
  x <> NULL /\ true_size <= sz x /\ exists y, view h x Nf = Some y /\ y ∈ all /\ sz y = sz x.
(** What has been found up to here: nothing, or something that would do. *)
Definition best_so_far (all : list Z) (best_fit best_size : Z) : Prop :=
  best_fit = NULL /\ best_size = size_t (-1) \/ fits all best_fit.
Definition found_ok (all : list Z) (r : found) : Prop :=
  match r with
  | Exactly b => b ∈ all /\ true_size <= sz b
  | Best best_fit best_size _ => best_so_far all best_fit best_size
  end.
Definition nothing (r : found) : Prop := match r with Exactly _ => False | Best best_fit _ rst => best_fit = NULL /\ rst = NULL end.

Definition rst_of (r : found) : Z := match r with Exactly _ => NULL | Best _ _ rst => rst end.

Lemma minus_one : size_t (-1) = 2 ^ N - 1.
Proof.
  unfold size_t. pose proof word_pow. symmetry. apply (Z.mod_unique _ _ (-1)); [left|]; lia.
Qed.
Lemma read_size all x : readable all -> x ∈ all -> ZEND_MM_FREE_BLOCK_SIZE x h = Some (sz x).
Proof.
  intros Hr Hx. unfold ZEND_MM_FREE_BLOCK_SIZE. rewrite (proj1 (field_addresses x)). apply load_field, (re_size _ Hr x Hx).
Qed.
Lemma read_child b same l r s (bit : bool) : at_tree (view h) s (Node b same l r) ->
  load (f_child b (Z.b2z bit)) h = Some (root (if bit then r else l)).
Proof.
  intros (_ & _ & _ & _ & H5 & H6). rewrite child_slot_addr. apply load_slot. destruct bit; by apply at_tree_root.
Qed.

(** The first of a list leads to one of the same size. *)
Lemma head_next index d pfx s b same l r : at_tree (view h) s (Node b same l r) -> trie sz index d pfx (Node b same l r) ->
  exists y, view h b Nf = Some y /\ y ∈ b :: same /\ sz y = sz b.
Proof.
  intros (_ & _ & H3 & _) (_ & _ & Hs & _). apply ring_first in H3 as [H3 _]. exists (next_of same b). split; [done|].
  pose proof (next_of_elem same b) as Hin. split; [done|]. apply elem_of_cons in Hin as [->|Hin]; auto.
Qed.

(** One block is compared with the best one up to here. *)
Lemma better_ok all x best_fit best_size : fits all x -> sz x < 2 ^ N - 1 -> best_so_far all best_fit best_size ->
  fits all (if (true_size <=? sz x) && (sz x <? best_size) then x else best_fit).
Proof.
  intros Hx Hs Hb. pose proof Hx as (_ & Hle & _). rewrite (proj2 (Z.leb_le _ _)) by done. simpl.
  destruct (Z.ltb_spec (sz x) best_size); [done|]. destruct Hb as [[_ ->]|Hb]; [|done]. rewrite minus_one in *. lia.
Qed.
Lemma not_better x best_fit best_size : sz x < true_size ->
  (if (true_size <=? sz x) && (sz x <? best_size) then x else best_fit) = best_fit
  /\ (if (true_size <=? sz x) && (sz x <? best_size) then sz x else best_size) = best_size.
Proof. intros Hlt. rewrite (proj2 (Z.leb_gt _ _)) by done. done. Qed.
Lemma compared all x best_fit best_size : (true_size <= sz x -> fits all x) -> sz x < 2 ^ N - 1 -> best_so_far all best_fit best_size ->
  best_so_far all (if (true_size <=? sz x) && (sz x <? best_size) then x else best_fit)
    (if (true_size <=? sz x) && (sz x <? best_size) then sz x else best_size)
  /\ (true_size <= sz x -> (if (true_size <=? sz x) && (sz x <? best_size) then x else best_fit) <> NULL).
Proof.
  intros Hx Hs Hb. destruct (Z.le_gt_cases true_size (sz x)) as [Hle|Hgt].
  - pose proof (better_ok all x best_fit best_size (Hx Hle) Hs Hb) as Hf. split; [by right|]. intros _. by destruct Hf.
  - destruct (not_better x best_fit best_size) as [-> ->]; [lia|]. split; [done|lia].
Qed.

(** Below [p] everything is large enough. *)
Lemma search_rst_ok all t : forall fuel s best_fit best_size index d pfx, at_tree (view h) s t -> trie sz index d pfx t ->
  readable all -> (forall x, x ∈ nodes t -> x ∈ all /\ true_size <= sz x) -> (height t <= fuel)%nat ->
  best_so_far all best_fit best_size ->
  exists r, search_rst fuel true_size (root t) best_fit best_size h = Some r /\ found_ok all r
    /\ rst_of r = NULL /\ (best_fit <> NULL \/ t <> Leaf -> ~ nothing r).
Proof.
  induction t as [|b same l IHl r IHr]; intros fuel s bf bs index d pfx Ht Htr Hre Hall Hf Hb.
  - exists (Best bf bs NULL). split; [by destruct fuel|]. split; [done|]. split; [done|]. intros [Hn|?] [? _]; done.
  - destruct (Hall b) as [Hba Hle]; [by left|]. destruct (re_size _ Hre b Hba) as [_ Hsz].
    pose proof (re_null _ Hre b Hba) as Hbn. destruct fuel as [|fuel]; [simpl in Hf; lia|]. cbn [search_rst root].
    rewrite (proj2 (Z.eqb_neq b NULL)) by done. rewrite (read_size all b) by done. cbn [mbind option_bind].
    destruct (head_next _ _ _ _ _ _ _ _ Ht Htr) as (y & Hy1 & Hy2 & Hy3).
    assert (Hya : y ∈ all) by (apply Hall; simpl; rewrite elem_of_cons, elem_of_app in *; tauto).
    destruct (Z.eqb_spec (sz b) true_size) as [E|E].
    { destruct (field_addresses b) as (_ & _ & _ & En & _). rewrite En, (load_field _ _ _ _ Hy1). cbn [mbind option_bind].
      exists (Exactly y). split; [done|]. split; [split; [done|lia]|]. split; [done|]. by intros _ ?. }
    assert (Hlt : (true_size <? sz b) = (true_size <=? sz b)).
    { rewrite (proj2 (Z.ltb_lt _ _)), (proj2 (Z.leb_le _ _)) by lia. done. }
    rewrite Hlt. destruct (compared all b bf bs) as [Hb' Hn']; [intros _; by split; [|split; [|exists y]]|lia|done|].
    specialize (Hn' Hle). pose proof (read_child b same l r s false Ht) as R0. cbn [Z.b2z] in R0. rewrite R0. cbn [mbind option_bind].
    assert (Ec : f_child b (if root l =? NULL then 0 else 1) = f_child b (Z.b2z (negb (root l =? NULL)))) by (by destruct (root l =? NULL)).
    rewrite Ec, (read_child b same l r s _ Ht). cbn [mbind option_bind].
    destruct Ht as (_ & _ & _ & _ & H5 & H6). destruct Htr as (_ & _ & _ & T4 & T5). simpl in Hf, Hall.
    destruct (negb (root l =? NULL)).
    + destruct (IHr fuel (b, C1) _ _ _ _ _ H6 T5 Hre ltac:(intros x Hx; apply Hall; rewrite elem_of_cons, !elem_of_app; tauto) ltac:(lia) Hb')
        as (r0 & E0 & F0 & Z0 & N0). exists r0. split; [exact E0|]. auto.
    + destruct (IHl fuel (b, C0) _ _ _ _ _ H5 T4 Hre ltac:(intros x Hx; apply Hall; rewrite elem_of_cons, !elem_of_app; tauto) ltac:(lia) Hb')
        as (r0 & E0 & F0 & Z0 & N0). exists r0. split; [exact E0|]. auto.
Qed.

Lemma shiftr_lt a b k : 0 <= k -> Z.shiftr a k < Z.shiftr b k -> a < b.
Proof.
  intros Hk Hlt. rewrite !Z.shiftr_div_pow2 in Hlt by lia. destruct (Z.lt_ge_cases a b) as [|Hge]; [done|].
  pose proof (Z.div_le_mono b a (2 ^ k) ltac:(lia) Hge). lia.
Qed.

(** A subtree that was passed by on the right. *)
Definition right_part (all : list Z) (index rst : Z) : Prop :=
  rst = NULL \/ exists c s d pfx, c <> Leaf /\ rst = root c /\ at_tree (view h) s c /\ trie sz index d pfx c
    /\ (forall x, x ∈ nodes c -> x ∈ all /\ true_size <= sz x) /\ (height c <= Z.to_nat N)%nat.

Lemma search_path_ok all index t : index <= N -> readable all -> forall fuel s best_fit best_size rst d pfx,
  at_tree (view h) s t -> t <> Leaf -> trie sz index d pfx t -> (forall x, x ∈ nodes t -> x ∈ all) ->
  Z.shiftr true_size (index - d) = pfx -> 0 <= d -> (height t <= fuel)%nat -> (height t <= Z.to_nat N)%nat ->
  best_so_far all best_fit best_size -> right_part all index rst ->
  exists r, search_path fuel true_size (shifted true_size index d) (root t) best_fit best_size rst h = Some r
    /\ found_ok all r /\ right_part all index (rst_of r)
    /\ (best_fit <> NULL \/ rst <> NULL \/ (exists x, x ∈ nodes t /\ true_size <= sz x) -> ~ nothing r).
Proof.
  intros Hi Hre. induction t as [|b same l IHl r IHr]; intros fuel s bf bs rst d pfx Ht Hne Htr Hall Hp Hd Hf HfN Hb Hrst; [done|].
  assert (Hba : b ∈ all) by (apply Hall; by left). destruct (re_size _ Hre b Hba) as [_ Hsz].
  destruct fuel as [|fuel]; [simpl in Hf; lia|]. cbn [search_path root]. rewrite (read_size all b) by done. cbn [mbind option_bind].
  destruct (head_next _ _ _ _ _ _ _ _ Ht Htr) as (y & Hy1 & Hy2 & Hy3).
  assert (Hya : y ∈ all) by (apply Hall; simpl; rewrite elem_of_cons, elem_of_app in *; tauto).
  destruct (Z.eqb_spec (sz b) true_size) as [E|E].
  { destruct (field_addresses b) as (_ & _ & _ & En & _). rewrite En, (load_field _ _ _ _ Hy1). cbn [mbind option_bind].
    exists (Exactly y). split; [done|]. split; [split; [done|lia]|]. split; [by left|]. by intros _ ?. }
  destruct (compared all b bf bs) as [Hb' Hn'].
  { intros Hle. split; [by apply (re_null _ Hre)|]. split; [done|]. by exists y. } { lia. } { done. }
  pose proof Htr as (Hdi & Hpb & Hsame & T4 & T5). pose proof Ht as (_ & _ & _ & _ & H5 & H6). simpl in Hf, HfN.
  assert (Hdi' : d < index).
  { destruct (decide (d = index)) as [->|]; [|lia]. rewrite Z.sub_diag, !Z.shiftr_0_r in *. congruence. }
  rewrite top_bit_zero, top_bit_shifted by (lia || apply size_t_range).
  pose proof (proj2 (shiftr_prefix true_size index d pfx Hdi') Hp) as Hp'.
  pose proof (read_child b same l r s true Ht) as R1. pose proof (read_child b same l r s false Ht) as R0. cbn [Z.b2z] in R0, R1.
  assert (Hsub : forall x, x ∈ nodes l \/ x ∈ nodes r -> x ∈ all).
  { intros x Hx. apply Hall. simpl. rewrite elem_of_cons, !elem_of_app. tauto. }
  assert (Hhere : forall bf' rst' (c : Prop), (bf' = (if (true_size <=? sz b) && (sz b <? bs) then b else bf)) ->
    (rst <> NULL -> rst' <> NULL) -> ((exists x, (x ∈ nodes l \/ x ∈ nodes r) /\ true_size <= sz x) -> c \/ rst' <> NULL) ->
    (bf <> NULL \/ rst <> NULL \/ exists x, x ∈ nodes (Node b same l r) /\ true_size <= sz x) -> bf' <> NULL \/ rst' <> NULL \/ c).
  { intros bf' rst' c -> Hr Hx [Hbf|[?|(x & Hx' & Hle)]].
    - left. destruct (_ && _); [by apply (re_null _ Hre)|done].
    - auto.
    - simpl in Hx'. rewrite elem_of_cons, !elem_of_app in Hx'. destruct Hx' as [->|[Hs|Hx']]; [auto|rewrite Hsame in Hle by done; auto|].
      destruct Hx; [by exists x|auto..]. }
  assert (Hnz : forall c, c = l \/ c = r -> root c = NULL -> c = Leaf).
  { intros c Hc Hn. destruct (leaf_or_not c) as [?|Hc']; [done|]. exfalso. apply (re_null _ Hre (root c)); [|done].
    apply Hsub. destruct Hc as [-> | ->]; [left|right]; by apply root_in. }
  destruct (Z.testbit true_size (index - 1 - d)); cbn [Z.b2z] in *.
  - assert (Hl : forall x, x ∈ nodes l -> sz x < true_size).
    { intros x Hx. destruct (trie_prefix sz index l _ _ x T4 Hx) as [Hdx Hpx]. apply (shiftr_lt _ _ (index - (d + 1))); lia. }
    simpl Z.eqb. cbv iota. simpl negb. cbv iota. rewrite R1. cbn [mbind option_bind]. destruct (Z.eqb_spec (root r) NULL) as [Er|Er].
    + apply Hnz in Er; [|auto]. subst r. eexists. split; [reflexivity|]. split; [done|]. split; [done|]. intros Hex [E1 E2].
      destruct (Hhere _ rst False eq_refl) as [?|[?|?]]; try done. intros (x & [Hx|Hx%not_elem_of_nil] & Hle); [|done]. specialize (Hl x Hx). lia.
    + rewrite shifted_next by lia.
      destruct (IHr fuel (b, C1) (if (true_size <=? sz b) && (sz b <? bs) then b else bf) (if (true_size <=? sz b) && (sz b <? bs) then sz b else bs)
        rst (d + 1) (2 * pfx + 1)) as (r0 & E0 & F0 & Q0 & N0); try done; [by intros ->|auto|lia..|].
      exists r0. split; [exact E0|]. split; [done|]. split; [done|]. intros Hex. apply N0.
      apply (Hhere _ rst _ eq_refl); [done| |done]. intros (x & [Hx|Hx] & Hle); [|left; by exists x]. specialize (Hl x Hx). lia.
  - assert (Hr : forall x, x ∈ nodes r -> true_size <= sz x).
    { intros x Hx. destruct (trie_prefix sz index r _ _ x T5 Hx) as [Hdx Hpx].
      enough (true_size < sz x) by lia. apply (shiftr_lt _ _ (index - (d + 1))); lia. }
    simpl Z.eqb. simpl negb. cbv iota. rewrite R1. cbn [mbind option_bind]. rewrite R0. cbn [mbind option_bind].
    set (rst' := if root r =? NULL then rst else root r).
    assert (Hrst' : right_part all index rst').
    { unfold rst'. destruct (Z.eqb_spec (root r) NULL) as [Er|Er]; [done|]. right.
      exists r, (b, C1), (d + 1), (2 * pfx + 1). split_and!; try done; [by intros ->| |lia]. auto. }
    assert (Hkeep : rst <> NULL -> rst' <> NULL) by (unfold rst'; by destruct (Z.eqb_spec (root r) NULL)).
    assert (Hright : (exists x, x ∈ nodes r) -> rst' <> NULL).
    { intros [x Hx]. unfold rst'. destruct (Z.eqb_spec (root r) NULL) as [Er|Er]; [|done]. apply Hnz in Er; [|auto]. subst r. by apply not_elem_of_nil in Hx. }
    destruct (Z.eqb_spec (root l) NULL) as [El|El].
    + apply Hnz in El; [|auto]. subst l. eexists. split; [reflexivity|]. split; [done|]. split; [done|]. intros Hex [E1 E2].
      destruct (Hhere _ rst' False eq_refl) as [?|[?|?]]; try done. intros (x & [Hx%not_elem_of_nil|Hx] & Hle); [done|]. right. apply Hright. by exists x.
    + rewrite shifted_next by lia.
      destruct (IHl fuel (b, C0) (if (true_size <=? sz b) && (sz b <? bs) then b else bf) (if (true_size <=? sz b) && (sz b <? bs) then sz b else bs)
        rst' (d + 1) (2 * pfx)) as (r0 & E0 & F0 & Q0 & N0); try done; [by intros ->|auto|lia..|].
      exists r0. split; [exact E0|]. split; [done|]. split; [done|]. intros Hex. apply N0.
      apply (Hhere _ rst' _ eq_refl); [done| |done]. intros (x & [Hx|Hx] & Hle); [left; by exists x|]. right. apply Hright. by exists x.
Qed.

Lemma search_smallest_ok all t : forall fuel s best_fit index d pfx, at_tree (view h) s t -> t <> Leaf -> trie sz index d pfx t ->
  readable all -> (forall x, x ∈ nodes t -> x ∈ all /\ true_size <= sz x) -> (height t <= fuel)%nat ->
  fits all best_fit -> best_fit ∈ all ->
  exists b, search_smallest fuel (root t) best_fit h = Some b /\ fits all b.
Proof.
  induction t as [|b same l IHl r IHr]; intros fuel s bf index d pfx Ht Hne Htr Hre Hall Hf Hb Hba; [done|].
  destruct fuel as [|fuel]; [simpl in Hf; lia|]. cbn [search_smallest root].
  pose proof (read_child b same l r s false Ht) as R0. cbn [Z.b2z] in R0. rewrite R0. cbn [mbind option_bind].
  assert (Ec : f_child b (if root l =? NULL then 0 else 1) = f_child b (Z.b2z (negb (root l =? NULL)))) by (by destruct (root l =? NULL)).
  rewrite Ec, (read_child b same l r s _ Ht). cbn [mbind option_bind].
  destruct Ht as (_ & _ & _ & _ & H5 & H6). destruct Htr as (_ & _ & _ & T4 & T5). simpl in Hf.
  assert (Hstep : forall c f pfx', c = l \/ c = r -> at_tree (view h) (b, f) c -> trie sz index (d + 1) pfx' c ->
    (c <> Leaf -> forall bf', fits all bf' -> bf' ∈ all -> exists b0, search_smallest fuel (root c) bf' h = Some b0 /\ fits all b0) ->
    exists b0, (if root c =? NULL then Some bf
      else n ← ZEND_MM_FREE_BLOCK_SIZE (root c) h; best ← ZEND_MM_FREE_BLOCK_SIZE bf h;
        search_smallest fuel (root c) (if n <? best then root c else bf) h) = Some b0 /\ fits all b0).
  { intros c f pfx' Hc Hat Hct IH. destruct c as [|y ys c1 c2]; [by exists bf|]. cbn [root] in *.
    assert (Hy : y ∈ all /\ true_size <= sz y).
    { apply Hall. simpl. rewrite elem_of_cons, !elem_of_app. do 2 right. destruct Hc as [<- | <-]; [left|right]; by left. }
    destruct Hy as [Hy Hle]. rewrite (proj2 (Z.eqb_neq y NULL)) by (by apply (re_null _ Hre)).
    rewrite (read_size all y), (read_size all bf) by done. cbn [mbind option_bind].
    destruct (head_next _ _ _ _ _ _ _ _ Hat Hct) as (z & Hz1 & Hz2 & Hz3).
    assert (Hyf : fits all y).
    { split; [by apply (re_null _ Hre)|]. split; [done|]. exists z. split; [done|]. split; [|done]. apply Hall.
      assert (Hz : z ∈ nodes (Node y ys c1 c2)) by (simpl; rewrite elem_of_cons, elem_of_app in *; tauto).
      simpl. rewrite elem_of_cons, !elem_of_app. do 2 right. destruct Hc as [<- | <-]; [by left|by right]. }
    destruct (_ <? _); apply IH; done. }
  destruct (negb (root l =? NULL)).
  - apply (Hstep r C1 (2 * pfx + 1)); auto. intros Hc bf' Hbf' Hin. eapply IHr; try done; [|lia].
    intros x Hx. apply Hall. simpl. rewrite elem_of_cons, !elem_of_app. tauto.
  - apply (Hstep l C0 (2 * pfx)); auto. intros Hc bf' Hbf' Hin. eapply IHl; try done; [|lia].
    intros x Hx. apply Hall. simpl. rewrite elem_of_cons, !elem_of_app. tauto.
Qed.
End Search.

Lemma shiftr_one s i : 0 < s -> 0 <= i -> Z.shiftr s i = 1 <-> Z.log2 s = i.
Proof.
  intros Hs Hi. split; [|intros <-; by apply log2_shiftr]. intros E.
  pose proof (Z.log2_shiftr s i Hs) as El. rewrite E in El. simpl in El.
  destruct (Z.lt_trichotomy (Z.log2 s) i) as [Hlt|[?|?]]; [|done|lia].
  rewrite Z.shiftr_eq_0 in E by lia. lia.
Qed.

(** ** All tries *)
Section Large.
Context `{SizeT}.
Abbreviation N := ZEND_MM_NUM_BUCKETS.
Variable sz : Z -> Z.

(** [T i] is the trie of the blocks with [i + 1] bits in their size; [L i] is
    where its root is. *)
Record tries_ok (h : mm_heap) (L : Z -> Z * fld) (T : Z -> tree) : Prop := {
  to_slot : forall i, 0 <= i < N -> saddr (L i) = large_free_buckets h i;
  to_tree : forall i, 0 <= i < N -> at_tree (view h) (L i) (T i);
  to_trie : forall i, 0 <= i < N -> trie sz i 0 1 (T i);
  to_bit : forall i, 0 <= i < N -> Z.testbit (large_free_bitmap h) i = negb (is_leaf (T i));
  to_range : 0 <= large_free_bitmap h < 2 ^ N;
  to_read : forall i, 0 <= i < N -> readable sz h (nodes (T i))
}.

Lemma trie_log2 h L T i x : tries_ok h L T -> 0 <= i < N -> x ∈ nodes (T i) -> Z.log2 (sz x) = i.
Proof.
  intros Ht Hi Hx. destruct (trie_prefix sz i (T i) 0 1 x) as [_ Hp]; [by apply (to_trie _ _ _ Ht)|done|].
  rewrite Z.sub_0_r in Hp. destruct (re_size _ _ _ (to_read _ _ _ Ht i Hi) x Hx). apply shiftr_one; lia.
Qed.
Lemma tries_height h L T i : tries_ok h L T -> 0 <= i < N -> (height (T i) <= Z.to_nat N)%nat.
Proof. intros Ht Hi. pose proof (trie_height sz i (T i) 0 1 (to_trie _ _ _ Ht i Hi) ltac:(lia)). lia. Qed.
Lemma tries_bit h L T i : tries_ok h L T -> 0 <= i < N -> Z.testbit (large_free_bitmap h) i = true -> T i <> Leaf.
Proof. intros Ht Hi Hb E. by rewrite (to_bit _ _ _ Ht i Hi), E in Hb. Qed.

(** "Search for smallest large free block", in the tries from [index] on. *)
Lemma search_above_ok h L T true_size index bitmap : tries_ok h L T -> 0 <= index -> bitmap = Z.shiftr (large_free_bitmap h) index ->
  bitmap <> 0 -> (forall i x, index <= i < N -> x ∈ nodes (T i) -> true_size <= sz x) ->
  exists i b, search_above index bitmap h = Some b /\ 0 <= i < N /\ b ∈ nodes (T i) /\ true_size <= sz b.
Proof.
  intros Ht Hi -> Hne Hbig. pose proof (to_range _ _ _ Ht) as Hr.
  assert (Hb : 0 < Z.shiftr (large_free_bitmap h) index < 2 ^ N).
  { rewrite Z.shiftr_div_pow2 in * by lia. pose proof (Z.pow_pos_nonneg 2 index ltac:(lia) ltac:(lia)).
    pose proof (Z.div_pos (large_free_bitmap h) (2 ^ index)).
    pose proof (Z.div_le_upper_bound (large_free_bitmap h) (2 ^ index) (large_free_bitmap h) ltac:(lia) ltac:(nia)). lia. }
  destruct (low_bit_ok _ Hb) as (j & Ej & (Hj0 & Hj & _) & HjN). unfold search_above. rewrite Ej. cbn [mbind option_bind].
  rewrite Z.shiftr_spec in Hj by done. set (i := index + j) in *. replace (j + index) with i in Hj by lia.
  assert (HiN : 0 <= i < N).
  { split; [lia|]. destruct (Z.lt_ge_cases i N) as [|Hge]; [done|].
    rewrite (Z.bits_above_log2 (large_free_bitmap h) i) in Hj; [done|lia|].
    destruct (Z.eq_dec (large_free_bitmap h) 0) as [->|Hnz]; [pose proof N_pos; simpl; lia|].
    enough (Z.log2 (large_free_bitmap h) < N) by lia. apply Z.log2_lt_pow2; lia. }
  pose proof (tries_bit h L T i Ht HiN Hj) as Hleaf. pose proof (to_tree _ _ _ Ht i HiN) as Hat.
  rewrite <- (to_slot _ _ _ Ht) by done. rewrite (load_slot _ _ _ (at_tree_root _ _ _ Hat)). cbn [mbind option_bind].
  assert (Hall : forall x, x ∈ nodes (T i) -> x ∈ nodes (T i) /\ true_size <= sz x) by (intros x Hx; split; [done|apply (Hbig i); [lia|done]]).
  assert (Hroot : root (T i) ∈ nodes (T i)) by (by apply root_in).
  assert (Hfits : fits sz h true_size (nodes (T i)) (root (T i))).
  { destruct (T i) as [|b same l r] eqn:ET; [done|]. pose proof (to_trie _ _ _ Ht i HiN) as Htr. rewrite ET in Htr.
    destruct (head_next sz h _ _ _ _ _ _ _ _ Hat Htr) as (y & Hy1 & Hy2 & Hy3). split.
    - apply (re_null _ _ _ (to_read _ _ _ Ht i HiN)). rewrite ET. by left.
    - split; [by apply Hall|]. exists y. split; [done|]. split; [|done].
      simpl. rewrite elem_of_cons, elem_of_app in *. tauto. }
  destruct (search_smallest_ok sz h true_size (nodes (T i)) (T i) (Z.to_nat N) (L i) (root (T i)) i 0 1)
    as (b & Eb & _ & Hle & y & Hy1 & Hy2 & Hy3); try done.
  { by apply (to_trie _ _ _ Ht). } { by apply (to_read _ _ _ Ht). } { by apply (tries_height h L T). }
  rewrite Eb. cbn [mbind option_bind]. exists i, y. destruct (field_addresses b) as (_ & _ & _ & En & _).
  rewrite En, (load_field _ _ _ _ Hy1). split; [done|]. split; [done|]. split; [done|lia].
Qed.

Lemma shiftr_testbit_zero m i j : 0 <= i <= j -> Z.shiftr m i = 0 -> Z.testbit m j = false.
Proof.
  intros Hij E. assert (Hb : Z.testbit (Z.shiftr m i) (j - i) = false) by (rewrite E; apply Z.bits_0).
  rewrite Z.shiftr_spec in Hb by lia. by replace (j - i + i) with j in Hb by lia.
Qed.

(** The search returns null just when nothing is large enough, and otherwise a
    block that is. *)
Lemma search_large_ok h L T true_size : tries_ok h L T -> 0 < true_size < 2 ^ N ->
  exists b, zend_mm_search_large_block true_size h = Some b
    /\ (b = NULL /\ (forall i x, 0 <= i < N -> x ∈ nodes (T i) -> sz x < true_size)
        \/ exists i, 0 <= i < N /\ b ∈ nodes (T i) /\ true_size <= sz b).
Proof.
  intros Ht Hts. pose proof (high_bit_ok true_size Hts) as [Eh Hi]. set (index := Z.log2 true_size) in *.
  assert (Hsmall : forall i x, 0 <= i < index -> x ∈ nodes (T i) -> sz x < true_size).
  { intros i x Hi' Hx. pose proof (trie_log2 h L T i x Ht ltac:(lia) Hx) as El. apply Z.log2_lt_cancel. fold index. lia. }
  assert (Hbig : forall i x, index < i < N -> x ∈ nodes (T i) -> true_size <= sz x).
  { intros i x Hi' Hx. pose proof (trie_log2 h L T i x Ht ltac:(lia) Hx) as El. enough (true_size < sz x) by lia.
    apply Z.log2_lt_cancel. fold index. lia. }
  assert (Hnone : forall j, index <= j -> Z.shiftr (large_free_bitmap h) j = 0 -> forall i x, j <= i < N -> x ∈ nodes (T i) -> False).
  { intros j Hj E i x Hi' Hx. pose proof (shiftr_testbit_zero _ j i ltac:(lia) E) as Hb. rewrite (to_bit _ _ _ Ht) in Hb by lia.
    destruct (T i); [by apply not_elem_of_nil in Hx|done]. }
  unfold zend_mm_search_large_block, ZEND_MM_LARGE_BUCKET_INDEX. rewrite Eh. cbn [mbind option_bind].
  destruct (Z.eqb_spec (Z.shiftr (large_free_bitmap h) index) 0) as [E0|E0].
  { exists NULL. split; [done|]. left. split; [done|]. intros i x Hi' Hx. destruct (Z.lt_ge_cases i index); [by apply (Hsmall i); [lia|]|].
    exfalso. apply (Hnone index ltac:(lia) E0 i x); [lia|done]. }
  change (Z.land (Z.shiftr (large_free_bitmap h) index) 1) with (Z.land (Z.shiftr (large_free_bitmap h) index) (Z.ones 1)).
  rewrite Z.land_ones by lia. change (2 ^ 1) with 2. rewrite <- Z.bit0_mod, Z.shiftr_spec, Z.add_0_l by lia.
  rewrite (to_bit _ _ _ Ht) by lia. destruct (is_leaf (T index)) eqn:El.
  { simpl Z.eqb. cbv iota. assert (ET : T index = Leaf) by (by destruct (T index)).
    destruct (search_above_ok h L T true_size index _ Ht ltac:(lia) eq_refl E0) as (i & b & E & Hb); [|exists b; split; [done|right; by exists i]].
    intros i x Hi' Hx. destruct (decide (i = index)) as [->|]; [rewrite ET in Hx; by apply not_elem_of_nil in Hx|]. apply (Hbig i); [lia|done]. }
  assert (ET : T index <> Leaf) by (by destruct (T index)).
  pose proof (to_tree _ _ _ Ht index Hi) as Hat. pose proof (to_trie _ _ _ Ht index Hi) as Htr. pose proof (to_read _ _ _ Ht index Hi) as Hre.
  simpl Z.eqb. simpl negb. cbv iota. rewrite <- (to_slot _ _ _ Ht), (load_slot _ _ _ (at_tree_root _ _ _ Hat)) by done. cbn [mbind option_bind].
  set (t := T index) in *. pose proof (tries_height h L T index Ht Hi) as Hh. fold t in Hh.
  assert (Hi1 : index <= N) by lia.
  destruct (search_path_ok sz h true_size (nodes t) index t Hi1 Hre (Z.to_nat N) (L index) NULL (size_t (-1)) NULL 0 1)
    as (r & Er & Fr & Rr & Nr); [done..|rewrite Z.sub_0_r; apply log2_shiftr; lia|done|done|done|by left|by left|].
  unfold shifted in Er. rewrite Z.add_0_r in Er. rewrite Er. cbn [mbind option_bind].
  assert (Hr2 : exists r2, match r with Exactly b => Some (Exactly b)
      | Best bf bs rst => search_rst (Z.to_nat N) true_size rst bf bs h end = Some r2 /\ found_ok sz h true_size (nodes t) r2
      /\ rst_of r2 = NULL /\ ((exists x, x ∈ nodes t /\ true_size <= sz x) -> ~ nothing r2)).
  { destruct r as [b|bf bs rst]; [exists (Exactly b); split; [done|]; split; [done|]; split; [done|]; by intros _ ?|].
    simpl in Rr. destruct Rr as [->|(c & s & d & pfx & Hc & -> & Hca & Hct & Hcn & Hch)].
    - exists (Best bf bs NULL). split; [by destruct (Z.to_nat N)|]. split; [done|]. split; [done|]. intros Hex [E1 _]. apply Nr; [auto|]. done.
    - destruct (search_rst_ok sz h true_size (nodes t) c (Z.to_nat N) s bf bs index d pfx) as (r2 & E2 & F2 & Z2 & N2); try done.
      exists r2. split; [done|]. split; [done|]. split; [done|]. intros _. apply N2. by right. }
  destruct Hr2 as (r2 & -> & F2 & Z2 & N2). cbn [mbind option_bind]. destruct r2 as [b|bf bs rst].
  { exists b. split; [done|]. right. exists index. split; [done|]. done. }
  destruct F2 as [[-> _]|(Hn & Hle & y & Hy1 & Hy2 & Hy3)].
  - rewrite Z.eqb_refl. simpl negb. cbv iota.
    assert (Hts' : forall x, x ∈ nodes t -> sz x < true_size).
    { intros x Hx. destruct (Z.lt_ge_cases (sz x) true_size); [done|]. exfalso. apply N2; [by exists x|]. by split. }
    rewrite Z.shiftr_shiftr by lia. destruct (Z.eqb_spec (Z.shiftr (large_free_bitmap h) (index + 1)) 0) as [E1|E1].
    + exists NULL. split; [done|]. left. split; [done|]. intros i x Hi' Hx. destruct (Z.lt_trichotomy i index) as [?|[->|?]]; [by apply (Hsmall i); [lia|]|by apply Hts'|].
      exfalso. apply (Hnone (index + 1) ltac:(lia) E1 i x); [lia|done].
    + destruct (search_above_ok h L T true_size (index + 1) _ Ht ltac:(lia) eq_refl E1) as (i & b & E & Hb); [|exists b; split; [done|right; by exists i]].
      intros i x Hi' Hx. apply (Hbig i); [lia|done].
  - rewrite (proj2 (Z.eqb_neq bf NULL)) by done. simpl negb. cbv iota. destruct (field_addresses bf) as (_ & _ & _ & En & _).
    rewrite En, (load_field _ _ _ _ Hy1). exists y. split; [done|]. right. exists index. split; [done|]. split; [done|lia].
Qed.
End Large.
