(* ===== verification/AllocFree.v ===== *)
(** * AllocFree: the free blocks

    The circular lists of small blocks, the tries of large ones and the list of
    rests, with what the bitmaps and the counter say of them.  A bit of the
    bitmap of small blocks means that there is a block; the converse does not
    hold (see [zend_mm_remove_from_free_list] in the header of the
    development). *)
From S2P Require Import Prelude ZendAlloc AllocBits AllocRing AllocTrie AllocCut AllocRemove AllocSearch.

(** The free blocks by place. *)
Record lists := Lists { small : Z -> list Z; large : Z -> tree; rests : list Z }.

Section Free.
Context `{SizeT}.
Abbreviation N := ZEND_MM_NUM_BUCKETS.
Abbreviation MIN := ZEND_MM_ALIGNED_MIN_HEADER_SIZE.
Variable base : Z.

(** The heads of the lists, as blocks, and the roots of the tries. *)
Definition head (i : Z) : Z := base + 2 * i * W - 2 * W.
Definition head_rest : Z := base + 3 * N * W - 2 * W.
Definition root_slot (i : Z) : Z * fld := (base + 2 * N * W + i * W - 5 * W, C0).
#[local] Arguments root_slot : simpl never.

Definition member (Ls : lists) (x : Z) : Prop :=
  (exists i, 0 <= i < N /\ x ∈ small Ls i) \/ (exists i, 0 <= i < N /\ x ∈ nodes (large Ls i)) \/ x ∈ rests Ls.

Variable V : Z -> fld -> Prop.
Hypothesis V_separate : separate V.
Variable sz : Z -> Z.

Definition is_large (x : Z) : bool := negb (ZEND_MM_SMALL_SIZE (sz x)).

(** What can be in the lists. *)
Record free_block (x : Z) : Prop := {
  fb_addr : 0 < x;
  fb_aligned : sz x mod 8 = 0;
  fb_size : MIN <= sz x < 2 ^ N;
  fb_valid : V x Sz /\ V x Pf /\ V x Nf;
  fb_large : is_large x = true -> forall f, V x f;
  fb_no_head : (forall i, 0 <= i < N -> x <> head i /\ x <> (root_slot i).1) /\ x <> head_rest
}.
Record heads_valid : Prop := {
  hv_small : forall i, 0 <= i < N -> V (head i) Pf /\ V (head i) Nf;
  hv_large : forall i, 0 <= i < N -> V (root_slot i).1 (root_slot i).2 /\ 1 < saddr (root_slot i);
  hv_rest : V head_rest Pf /\ V head_rest Nf
}.

Definition small_ok (h : mm_heap) (i : Z) (l : list Z) : Prop :=
  ring (view h) (head i) l /\ NoDup l /\ forall x, x ∈ l -> sz x = 8 * i + MIN.
Definition large_ok (h : mm_heap) (i : Z) (t : tree) : Prop :=
  at_tree (view h) (root_slot i) t /\ trie sz i 0 1 t /\ NoDup (nodes t) /\ forall x, x ∈ nodes t -> is_large x = true.
Definition rest_ok (h : mm_heap) (l : list Z) : Prop :=
  ring (view h) head_rest l /\ NoDup l /\ forall x, x ∈ l -> is_large x = true -> view h x Par = Some ZEND_MM_REST_BLOCK.

Record free_ok (h : mm_heap) (Ls : lists) : Prop := {
  fo_base : buckets h = base;
  fo_alloc : allocated V h;
  fo_member : forall x, member Ls x -> free_block x /\ view h x Sz = Some (sz x);
  fo_small : forall i, 0 <= i < N -> small_ok h i (small Ls i);
  fo_large : forall i, 0 <= i < N -> large_ok h i (large Ls i);
  fo_rest : rest_ok h (rests Ls);
  fo_apart : forall x, x ∈ rests Ls -> forall i, 0 <= i < N -> x ∉ small Ls i /\ x ∉ nodes (large Ls i);
  fo_bitmap : 0 <= free_bitmap h < 2 ^ N /\ forall i, 0 <= i < N -> Z.testbit (free_bitmap h) i = true -> small Ls i <> [];
  fo_large_bitmap : 0 <= large_free_bitmap h < 2 ^ N /\ forall i, 0 <= i < N -> Z.testbit (large_free_bitmap h) i = negb (is_leaf (large Ls i));
  fo_count : rest_count h = Z.of_nat (length (filter is_large (rests Ls)))
}.

Lemma member_small Ls i x : 0 <= i < N -> x ∈ small Ls i -> member Ls x.
Proof. intros Hi Hx. left. by exists i. Qed.
Lemma member_large Ls i x : 0 <= i < N -> x ∈ nodes (large Ls i) -> member Ls x.
Proof. intros Hi Hx. right. left. by exists i. Qed.
Lemma member_rest Ls x : x ∈ rests Ls -> member Ls x.
Proof. intros Hx. right. by right. Qed.

(** ** What a few writes leave as it was *)
Section Change.
Variables (h h' : mm_heap) (K : Z -> fld -> Prop).
Hypothesis K_valid : forall x f, K x f -> V x f /\ link f.
Hypothesis K_wrote : wrote K h h'.

Lemma kept_view x f : V x f -> ~ K x f -> view h' x f = view h x f.
Proof. intros Hx Hn. eapply wrote_view; [exact K_wrote|exact V_separate| |done|done]. intros y e Hy. by apply K_valid. Qed.
Lemma kept_size x : V x Sz -> view h' x Sz = view h x Sz.
Proof. intros Hx. apply kept_view; [done|]. intros Hk. apply K_valid in Hk as [_ [? _]]. done. Qed.
Lemma kept_ring x l : ring (view h) x l -> (forall y, y ∈ x :: l -> V y Pf /\ V y Nf /\ ~ K y Pf /\ ~ K y Nf) -> ring (view h') x l.
Proof. intros Hr Hl. eapply ring_frame; [exact Hr|]. intros y Hy. destruct (Hl y Hy) as (? & ? & ? & ?). split; by apply kept_view. Qed.
Lemma kept_tree s t : at_tree (view h) s t -> V s.1 s.2 -> ~ K s.1 s.2 ->
  (forall x f, x ∈ nodes t -> link f -> V x f /\ ~ K x f) -> at_tree (view h') s t.
Proof.
  intros Ht Hs Hn Hx. eapply at_tree_frame; [exact Ht|by apply kept_view|]. intros x f Hin Hf. destruct (Hx x f Hin Hf). by apply kept_view.
Qed.

Hypothesis Hheads : heads_valid.

(** Each place is as it was, or what is there now is known. *)
Lemma free_ok_change Ls Ls' : free_ok h Ls ->
  (forall x, member Ls' x -> free_block x /\ view h x Sz = Some (sz x)) ->
  (forall i, 0 <= i < N -> small_ok h' i (small Ls' i) \/
    small Ls' i = small Ls i /\ forall x, x ∈ head i :: small Ls i -> ~ K x Pf /\ ~ K x Nf) ->
  (forall i, 0 <= i < N -> large_ok h' i (large Ls' i) \/
    large Ls' i = large Ls i /\ ~ K (root_slot i).1 (root_slot i).2 /\ forall x f, x ∈ nodes (large Ls i) -> link f -> ~ K x f) ->
  (rest_ok h' (rests Ls') \/
    rests Ls' = rests Ls /\ (forall x, x ∈ head_rest :: rests Ls -> ~ K x Pf /\ ~ K x Nf) /\ forall x, x ∈ rests Ls -> ~ K x Par) ->
  (forall x, x ∈ rests Ls' -> forall i, 0 <= i < N -> x ∉ small Ls' i /\ x ∉ nodes (large Ls' i)) ->
  (0 <= free_bitmap h' < 2 ^ N /\ forall i, 0 <= i < N -> Z.testbit (free_bitmap h') i = true -> small Ls' i <> []) ->
  (0 <= large_free_bitmap h' < 2 ^ N /\ forall i, 0 <= i < N -> Z.testbit (large_free_bitmap h') i = negb (is_leaf (large Ls' i))) ->
  rest_count h' = Z.of_nat (length (filter is_large (rests Ls'))) ->
  free_ok h' Ls'.
Proof.
  intros [F1 F2 F3 F4 F5 F6 F7 F8 F9 F10] Hm Hs Hl Hr Ha Hb1 Hb2 Hc. split; try done.
  - pose proof (wr_others _ _ _ K_wrote) as Ho. injection Ho. congruence.
  - eapply wrote_allocated; [exact K_wrote|done].
  - intros x Hx. destruct (Hm x Hx) as [Hfb Hsz]. split; [done|]. rewrite kept_size; [done|]. apply (fb_valid _ Hfb).
  - intros i Hi. destruct (Hs i Hi) as [?|[E Hn]]; [done|]. rewrite E. destruct (F4 i Hi) as (R1 & R2 & R3). split; [|done].
    apply kept_ring; [done|]. intros y Hy. destruct (Hn y Hy) as [? ?]. apply elem_of_cons in Hy as [->|Hy].
    + destruct (hv_small Hheads i Hi) as [? ?]. done.
    + destruct (F3 y (member_small Ls i y Hi Hy)) as [Hfb _]. destruct (fb_valid _ Hfb) as (_ & ? & ?). done.
  - intros i Hi. destruct (Hl i Hi) as [?|(E & Hn & Hx)]; [done|]. rewrite E. destruct (F5 i Hi) as (R1 & R2 & R3 & R4). split; [|done].
    apply kept_tree; [done|by apply hv_large|done|]. intros y f Hy Hf. split; [|by apply Hx].
    destruct (F3 y (member_large Ls i y Hi Hy)) as [Hfb _]. by apply (fb_large _ Hfb), R4.
  - destruct Hr as [?|(E & Hn & Hp)]; [done|]. rewrite E. destruct F6 as (R1 & R2 & R3). split; [|split; [done|]].
    + apply kept_ring; [done|]. intros y Hy. destruct (Hn y Hy) as [? ?]. apply elem_of_cons in Hy as [->|Hy].
      * destruct (hv_rest Hheads) as [? ?]. done.
      * destruct (F3 y (member_rest Ls y Hy)) as [Hfb _]. destruct (fb_valid _ Hfb) as (_ & ? & ?). done.
    + intros y Hy Hyl. rewrite kept_view; [by apply R3| |by apply Hp]. destruct (F3 y (member_rest Ls y Hy)) as [Hfb _]. by apply (fb_large _ Hfb).
Qed.
End Change.

(** ** Addresses *)
Hypothesis Hheads : heads_valid.

Lemma set_bit_range i b : 0 <= i < N -> 0 <= b < 2 ^ N -> 0 <= set_bit i b < 2 ^ N.
Proof.
  intros Hi Hb. unfold set_bit. assert (Hnn : 0 <= Z.lor b (Z.shiftl 1 i)).
  { apply Z.lor_nonneg. split; [lia|]. apply Z.shiftl_nonneg. lia. }
  split; [done|]. destruct (Z.eq_dec (Z.lor b (Z.shiftl 1 i)) 0) as [->|Hnz]; [apply Z.pow_pos_nonneg; lia|].
  apply Z.log2_lt_pow2; [lia|]. rewrite Z.log2_lor by (try apply Z.shiftl_nonneg; lia).
  rewrite Z.log2_shiftl by lia. change (Z.log2 1) with 0. apply Z.max_lub_lt; [|lia].
  destruct (Z.eq_dec b 0) as [->|]; [simpl; lia|]. apply Z.log2_lt_pow2; lia.
Qed.
Lemma clear_bit_range i b : 0 <= b < 2 ^ N -> 0 <= clear_bit i b < 2 ^ N.
Proof.
  intros Hb. unfold clear_bit. set (c := Z.shiftl 1 i). assert (Hnn : 0 <= Z.ldiff b c) by (apply Z.ldiff_nonneg; lia).
  split; [done|]. destruct (Z.eq_dec (Z.ldiff b c) 0) as [->|Hnz]; [lia|]. pose proof N_pos.
  assert (El : Z.land b (Z.ldiff b c) = Z.ldiff b c).
  { apply Z.bits_inj'. intros j Hj. rewrite Z.land_spec, Z.ldiff_spec. by destruct (Z.testbit b j). }
  apply Z.log2_lt_pow2; [lia|]. pose proof (Z.log2_land b (Z.ldiff b c) ltac:(lia) Hnn) as Hl. rewrite El in Hl.
  destruct (Z.eq_dec b 0) as [E|]; [rewrite E, Z.ldiff_0_l in Hnz; done|].
  enough (Z.log2 b < N) by lia. apply Z.log2_lt_pow2; lia.
Qed.
Lemma word_pos : 0 < W.
Proof. pose proof consts. lia. Qed.
Lemma head_inj i j : head i = head j -> i = j.
Proof. pose proof word_pos. unfold head. nia. Qed.
Lemma head_not_rest i : 0 <= i < N -> head i <> head_rest.
Proof. pose proof word_pos. unfold head, head_rest. nia. Qed.
Lemma root_slot_inj i j : (root_slot i).1 = (root_slot j).1 -> i = j.
Proof. pose proof word_pos. unfold root_slot. cbn [fst]. nia. Qed.
Lemma head_address h i : buckets h = base -> ZEND_MM_SMALL_FREE_BUCKET h i = head i.
Proof. intros E. unfold ZEND_MM_SMALL_FREE_BUCKET, free_buckets, head. rewrite E. lia. Qed.
Lemma head_fields h i : buckets h = base -> free_buckets h (i * 2) = at_ (head i) Pf /\ free_buckets h (i * 2 + 1) = at_ (head i) Nf.
Proof. intros E. unfold free_buckets, at_, off, head. rewrite E. split; lia. Qed.
Lemma rest_address h : buckets h = base -> ZEND_MM_REST_BUCKET h = head_rest.
Proof. intros E. unfold ZEND_MM_REST_BUCKET, rest_buckets, head_rest. rewrite E. lia. Qed.
Lemma rest_fields h : buckets h = base -> rest_buckets h 0 = at_ head_rest Pf /\ rest_buckets h 1 = at_ head_rest Nf.
Proof. intros E. unfold rest_buckets, at_, off, head_rest. rewrite E. split; lia. Qed.
Lemma root_address h i : buckets h = base -> large_free_buckets h i = saddr (root_slot i).
Proof. intros E. unfold large_free_buckets, saddr, root_slot, at_, off. simpl. rewrite E. lia. Qed.

Lemma size_index x : free_block x -> is_large x = false -> 0 <= ZEND_MM_BUCKET_INDEX (sz x) < N /\ sz x = 8 * ZEND_MM_BUCKET_INDEX (sz x) + MIN.
Proof.
  intros Hx Hl. apply negb_false_iff, small_size_spec in Hl. apply bucket_index; [apply Hx|]. pose proof (fb_size _ Hx). lia.
Qed.
Lemma size_log x : free_block x -> is_large x = true -> zend_mm_high_bit (sz x) = Some (Z.log2 (sz x)) /\ 0 <= Z.log2 (sz x) < N.
Proof. intros Hx Hl. apply high_bit_ok. pose proof (fb_size _ Hx). pose proof consts. lia. Qed.
Lemma small_not_large Ls h i x : free_ok h Ls -> 0 <= i < N -> x ∈ small Ls i -> is_large x = false.
Proof.
  intros Hf Hi Hx. apply negb_false_iff, small_size_spec. destruct (fo_small _ _ Hf i Hi) as (_ & _ & Hs).
  rewrite (Hs x Hx). pose proof consts. lia.
Qed.
Lemma free_no_head x i : free_block x -> 0 <= i < N -> x <> head i /\ x <> (root_slot i).1 /\ x <> head_rest.
Proof. intros Hx Hi. destruct (fb_no_head _ Hx) as [Hn Hr]. destruct (Hn i Hi). done. Qed.
Lemma view_size x h : view h x Sz = Some (sz x) -> ZEND_MM_FREE_BLOCK_SIZE x h = Some (sz x).
Proof. intros Hv. unfold ZEND_MM_FREE_BLOCK_SIZE. rewrite (proj1 (field_addresses x)). by apply load_field. Qed.

Lemma free_tries h Ls : free_ok h Ls -> tries_ok sz h root_slot (large Ls).
Proof.
  intros [F1 F2 F3 F4 F5 F6 F7 F8 F9 F10]. split.
  - intros i Hi. by rewrite root_address.
  - intros i Hi. by apply F5.
  - intros i Hi. by apply F5.
  - by apply F9.
  - by apply F9.
  - intros i Hi. split; intros x Hx; destruct (F3 x (member_large Ls i x Hi Hx)) as [Hfb Hsz].
    + split; [done|]. pose proof (fb_size _ Hfb). pose proof (fb_aligned _ Hfb). pose proof consts. split; [lia|].
      enough (sz x <> 2 ^ N - 1) by lia. intros E. assert (E8 : 2 ^ N = 8 * 2 ^ (N - 3)) by (change 8 with (2 ^ 3); rewrite <- Z.pow_add_r by lia; f_equal; lia).
      assert (Hm : sz x mod 8 = 7); [|lia]. rewrite E, E8. replace (8 * 2 ^ (N - 3) - 1) with (7 + (2 ^ (N - 3) - 1) * 8) by lia.
      by rewrite Z.mod_add by lia.
    + pose proof (fb_addr _ Hfb). unfold NULL. lia.
Qed.

(** ** A small block becomes free *)
Definition set_small (Ls : lists) (i : Z) (l : list Z) : lists :=
  Lists (fun j => if decide (j = i) then l else small Ls j) (large Ls) (rests Ls).
Definition set_large (Ls : lists) (i : Z) (t : tree) : lists :=
  Lists (small Ls) (fun j => if decide (j = i) then t else large Ls j) (rests Ls).
Definition set_rests (Ls : lists) (l : list Z) : lists := Lists (small Ls) (large Ls) l.

(** What an operation on the lists does to the memory. *)
Definition only_links (h h' : mm_heap) : Prop := wrote (fun x f => V x f /\ link f) h h'.

Lemma add_small_ok h Ls b : free_ok h Ls -> free_block b -> view h b Sz = Some (sz b) -> ~ member Ls b -> is_large b = false ->
  let i := ZEND_MM_BUCKET_INDEX (sz b) in
  exists h', zend_mm_add_to_free_list b h = Some h' /\ free_ok h' (set_small Ls i (b :: small Ls i)) /\ only_links h h'.
Proof.
  intros Hf Hb Hsz Hnm Hsm i. destruct (size_index b Hb Hsm) as [Hi Es]. fold i in Hi, Es.
  pose proof Hf as [F1 F2 F3 F4 F5 F6 F7 F8 F9 F10]. destruct (F4 i Hi) as (R1 & R2 & R3).
  destruct (fb_valid _ Hb) as (VS & VP & VN). destruct (hv_small Hheads i Hi) as [VhP VhN].
  assert (Hin : forall x, x ∈ small Ls i -> free_block x /\ x <> b).
  { intros x Hx. pose proof (member_small Ls i x Hi Hx) as Hm. split; [by apply F3|by intros ->]. }
  assert (Hhead : forall x, x ∈ small Ls i -> x <> head i) by (intros x Hx; by apply free_no_head, Hi; apply Hin).
  assert (Hbh : b <> head i) by (by apply free_no_head).
  assert (Hbs : b ∉ small Ls i) by (intros Hx; by apply (Hin b Hx)).
  set (h0 := if prev_of (head i) (small Ls i) =? head i then set_free_bitmap (set_bit i (free_bitmap h)) h else h).
  assert (Hv0 : view h0 = view h /\ mem h0 = mem h /\ others h0 = others h) by (unfold h0; by destruct (_ =? _)).
  destruct Hv0 as (Ev & Em & Eo).
  assert (Hlink : linked V (b :: head i :: small Ls i)).
  { intros x [->|[->|Hx]%elem_of_cons]%elem_of_cons; [done..|]. destruct (Hin x Hx) as [Hx' _]. by destruct (fb_valid _ Hx') as (_ & ? & ?). }
  assert (Hnd : NoDup (head i :: small Ls i)) by (apply NoDup_cons; split; [by intros Hx%Hhead|done]).
  destruct (link_ok V V_separate h0 (head i) (small Ls i) b) as (h' & E & Hr & Wr & Bt); try done.
  { intros x f Hx. rewrite Em. by apply F2. } { by rewrite Ev. } { intros [?|?]%elem_of_cons; done. }
  assert (Wr' : wrote (fun x f => x ∈ b :: head i :: small Ls i /\ (f = Pf \/ f = Nf)) h h').
  { destruct Wr as [D M O]. split; [by rewrite <- Em|intros a Ha; rewrite <- Em; by apply M|congruence]. }
  exists h'. split; [|split].
  - unfold zend_mm_add_to_free_list. rewrite (view_size b h Hsz). cbn [mbind option_bind]. unfold is_large in Hsm.
    rewrite Hsm. cbv zeta. rewrite head_address by done. fold i.
    destruct (field_addresses (head i)) as (_ & _ & EP & EN & _). apply ring_last in R1 as L1. destruct L1 as [L1 _].
    apply ring_first in R1 as L2. destruct L2 as [L2 _]. rewrite EP, (load_field _ _ _ _ L1). cbn [mbind option_bind]. fold h0.
    rewrite EN, (load_field h0 (head i) Nf (next_of (small Ls i) (head i))) by (by rewrite Ev). done.
  - assert (Hbits : large_free_bitmap h' = large_free_bitmap h /\ rest_count h' = rest_count h /\ free_bitmap h' = free_bitmap h0).
    { unfold bits in Bt. injection Bt. intros -> -> ->. unfold h0. by destruct (_ =? _). }
    destruct Hbits as (B1 & B2 & B3).
    apply (free_ok_change h h' (fun x f => x ∈ b :: head i :: small Ls i /\ (f = Pf \/ f = Nf))) with (Ls := Ls); try done.
    + intros x f [Hx Hff]. destruct (Hlink x Hx). split; [by destruct Hff as [-> | ->]|]. apply link_fields. tauto.
    + intros x [(j & Hj & Hx)|Hx]; simpl in Hx; [|apply F3; by right]. case_decide as Hij; [subst j|by apply F3, (member_small Ls j)].
      apply elem_of_cons in Hx as [->|Hx]; [done|by apply F3, (member_small Ls i)].
    + intros j Hj. simpl. case_decide as Hij; [subst j; left|right].
      * split; [done|]. split; [by apply NoDup_cons|]. intros x [->|Hx]%elem_of_cons; [done|by apply R3].
      * split; [done|]. intros x Hx. assert (x ∉ b :: head i :: small Ls i); [|tauto]. apply elem_of_cons in Hx as [->|Hx].
        -- rewrite !not_elem_of_cons. split_and!; [intros E1; destruct (free_no_head b j Hb Hj); congruence|by intros E1%head_inj|].
           intros Hx. by destruct (free_no_head (head j) j (proj1 (Hin _ Hx)) Hj).
        -- pose proof (F3 x (member_small Ls j x Hj Hx)) as [Hfx _]. rewrite !not_elem_of_cons. split_and!.
           ++ intros ->. by apply Hnm, (member_small Ls j).
           ++ by apply (free_no_head x i).
           ++ intros Hx'. apply Hij. destruct (F4 j Hj) as (_ & _ & R3'). pose proof (R3 x Hx'). pose proof (R3' x Hx). lia.
    + intros j Hj. right. simpl. split; [done|]. split; [by intros [_ [?|?]]|]. intros x f Hx Hff [Hk _].
      destruct (F5 j Hj) as (_ & _ & _ & R4). pose proof (R4 x Hx) as Hlx. pose proof (F3 x (member_large Ls j x Hj Hx)) as [Hfx _].
      apply elem_of_cons in Hk as [->|[->|Hk]%elem_of_cons]; [congruence|by destruct (free_no_head _ i Hfx Hi)|].
      rewrite (small_not_large Ls h i x Hf Hi Hk) in Hlx. done.
    + right. simpl. split; [done|]. split.
      * intros x Hx. assert (x ∉ b :: head i :: small Ls i); [|tauto]. apply elem_of_cons in Hx as [->|Hx].
        -- rewrite !not_elem_of_cons. split_and!; [intros E1; destruct (free_no_head b i Hb Hi) as (_ & _ & ?); congruence|intros E1; by apply (head_not_rest i Hi)|].
           intros Hx. by destruct (free_no_head head_rest i (proj1 (Hin _ Hx)) Hi) as (_ & _ & ?).
        -- pose proof (F3 x (member_rest Ls x Hx)) as [Hfx _]. rewrite !not_elem_of_cons. split_and!.
           ++ intros ->. by apply Hnm, member_rest.
           ++ by apply (free_no_head x i).
           ++ by apply F7.
      * by intros x Hx [_ [?|?]].
    + intros x Hx j Hj. simpl. destruct (F7 x Hx j Hj) as [? ?]. split; [|done]. case_decide as Hij; [subst j|done].
      apply not_elem_of_cons. split; [|done]. intros ->. by apply Hnm, member_rest.
    + rewrite B3. unfold h0. destruct F8 as [F8 F8']. destruct (Z.eqb_spec (prev_of (head i) (small Ls i)) (head i)) as [Ep|Ep]; simpl.
      * split; [by apply set_bit_range|]. intros j Hj. rewrite set_bit_spec by lia. case_decide as Hij; [done|].
        rewrite bool_decide_eq_false_2 by done. by apply F8'.
      * split; [done|]. intros j Hj. case_decide; [done|by apply F8'].
    + by rewrite B1.
    + by rewrite B2.
  - eapply wrote_weaken; [exact Wr'|]. intros x f [Hx Hff]. destruct (Hlink x Hx). split; [by destruct Hff as [-> | ->]|].
    apply link_fields. tauto.
Qed.

(** ** A large block becomes free *)
Lemma insert_not_leaf i d b t : is_leaf (t_insert sz i d b t) = false.
Proof. destruct t as [|x same l r]; simpl; [done|]. destruct (_ =? _); [done|]. by destruct (Z.testbit _ _). Qed.

(** The writes to the trie, from the children of the new block on. *)
Lemma add_large_writes h Ls b : free_ok h Ls -> free_block b -> view h b Sz = Some (sz b) -> ~ member Ls b -> is_large b = true ->
  let i := Z.log2 (sz b) in
  exists h', zend_mm_add_to_free_list b h = Some h' /\ at_tree (view h') (root_slot i) (t_insert sz i 0 b (large Ls i))
    /\ wrote (fun x f => (x, f) = root_slot i \/ links_of (b :: nodes (large Ls i)) x f) h h'
    /\ bits h' = (free_bitmap h, (if is_leaf (large Ls i) then set_bit i (large_free_bitmap h) else large_free_bitmap h), rest_count h).
Proof.
  intros Hf Hb Hsz Hnm Hl i. destruct (size_log b Hb Hl) as [Eh Hi]. fold i in Eh, Hi.
  pose proof Hf as [F1 F2 F3 F4 F5 F6 F7 F8 F9 F10]. destruct (F5 i Hi) as (R1 & R2 & R3 & R4). set (t := large Ls i) in *.
  pose proof (fb_large _ Hb Hl) as Vb. destruct (hv_large Hheads i Hi) as [Vs As].
  assert (Hbn : b ∉ nodes t) by (intros Hx; by apply Hnm, (member_large Ls i)).
  assert (Hin : forall x, x ∈ nodes t -> free_block x /\ view h x Sz = Some (sz x)) by (intros x Hx; by apply F3, (member_large Ls i)).
  assert (Hsb : (root_slot i).1 <> b) by (destruct (free_no_head b i Hb Hi) as (_ & ? & _); congruence).
  assert (Hsn : (root_slot i).1 ∉ nodes t).
  { intros Hx. destruct (free_no_head _ i (proj1 (Hin _ Hx)) Hi) as (_ & ? & _). congruence. }
  destruct (stores_ok V [(b, C1, NULL); (b, C0, NULL)] h) as (h1 & E1 & W1 & A1 & B1); [done..| |].
  { intros x f Hx. written_cases Hx; apply Vb. }
  assert (Ha1 : allocated V h1) by (by eapply wrote_allocated).
  assert (Hk1 : forall x f, V x f -> (x <> b \/ f <> C0 /\ f <> C1) -> view h1 x f = view h x f).
  { intros x f Hx Hn. rewrite A1 by done. simpl. rewrite !upd_ne; [done|..]; (destruct Hn as [?|[? ?]]; [left|right]; congruence). }
  assert (Ht1 : at_tree (view h1) (root_slot i) t).
  { eapply at_tree_frame; [exact R1|apply Hk1; [done|by left; congruence]|]. intros x f Hx _. destruct (Hin x Hx) as [Hfx _].
    apply Hk1; [by apply (fb_large _ Hfx), R4|left; by intros ->]. }
  assert (H0 : view h1 b C0 = Some NULL) by (rewrite A1 by apply Vb; simpl; by read_upd).
  assert (H1 : view h1 b C1 = Some NULL) by (rewrite A1 by apply Vb; simpl; by read_upd).
  assert (W1' : wrote (fun x f => (x, f) = root_slot i \/ links_of (b :: nodes t) x f) h h1).
  { eapply wrote_weaken; [exact W1|]. intros x f Hx. right. written_cases Hx; (split; [by left|apply link_fields; auto 10]). }
  assert (Erun : forall h2, (h1' ← Some h1; x ← load (saddr (root_slot i)) h1';
      if x =? NULL then h2 ← single_node (saddr (root_slot i)) b h1'; Some (set_large_free_bitmap (set_bit i (large_free_bitmap h2)) h2)
      else trie_insert (Z.to_nat N) b (sz b) (shifted (sz b) i 0) (saddr (root_slot i)) h1') = Some h2 ->
    zend_mm_add_to_free_list b h = Some h2).
  { intros h2 E2. unfold zend_mm_add_to_free_list, ZEND_MM_LARGE_BUCKET_INDEX. rewrite (view_size b h Hsz). cbn [mbind option_bind].
    unfold is_large in Hl. rewrite Hl. cbv zeta. rewrite Eh. cbn [mbind option_bind]. rewrite root_address by done.
    destruct (field_addresses b) as (_ & _ & _ & _ & _ & X0 & X1). rewrite X0, X1. cbn [stores] in E1.
    destruct (store (at_ b C1) NULL h) as [h3|]; [|done]. cbn [mbind option_bind] in *.
    destruct (store (at_ b C0) NULL h3) as [h4|]; [|done]. cbn [mbind option_bind] in *. injection E1 as ->.
    unfold shifted in E2. rewrite Z.add_0_r in E2. exact E2. }
  cbn [mbind option_bind] in Erun. rewrite (load_slot _ _ _ (at_tree_root _ _ _ Ht1)) in Erun. cbn [mbind option_bind] in Erun.
  unfold bits in B1. injection B1 as B1 B2 B3. destruct (leaf_or_not t) as [Et|Et].
  - rewrite Et in *. destruct (single_node_ok V V_separate (root_slot i) b h1) as (h2 & E2 & T2 & W2 & Bt2); try done.
    exists (set_large_free_bitmap (set_bit i (large_free_bitmap h2)) h2). unfold bits in Bt2. injection Bt2 as Bt1 Bt2 Bt3.
    split; [apply Erun; cbn [root]; rewrite Z.eqb_refl, E2; done|]. split; [done|]. split.
    + assert (Hw : wrote (fun x f => (x, f) = root_slot i \/ links_of [b] x f) h h2) by (by eapply wrote_trans).
      destruct Hw as [D M O]. by split.
    + unfold bits. simpl. congruence.
  - assert (Hnz : root t <> NULL) by (destruct (Hin (root t) (root_in t Et)) as [Hfx _]; pose proof (fb_addr _ Hfx); unfold NULL; lia).
    destruct (trie_insert_ok V V_separate sz i b t ltac:(lia) (Z.to_nat N) h1 (root_slot i) 0 1) as (h2 & E2 & T2 & W2 & Bt2); try done.
    { intros x Hx. assert (Hx' : free_block x /\ view h x Sz = Some (sz x) /\ is_large x = true).
      { apply elem_of_cons in Hx as [->|Hx]; [done|]. destruct (Hin x Hx). auto. }
      destruct Hx' as (Hfx & Hvx & Hlx). split; [pose proof (fb_addr _ Hfx); unfold NULL; lia|]. split; [|by apply fb_large].
      rewrite Hk1; [done|by apply (fb_large _ Hfx)|by right]. }
    { by left. } { intros [?|?]%elem_of_cons; congruence. } { lia. } { rewrite Z.sub_0_r. apply log2_shiftr. pose proof (fb_size _ Hb). pose proof consts. lia. } { lia. }
    exists h2. split; [apply Erun; rewrite (proj2 (Z.eqb_neq (root t) NULL)) by done; exact E2|]. split; [done|]. split.
    + eapply wrote_trans; [exact W1'|]. eapply wrote_weaken; [exact W2|]. intros x f Hx. by right.
    + rewrite Bt2. unfold bits. destruct t; [done|]. simpl. congruence.
Qed.

Lemma add_large_ok h Ls b : free_ok h Ls -> free_block b -> view h b Sz = Some (sz b) -> ~ member Ls b -> is_large b = true ->
  let i := Z.log2 (sz b) in
  exists h', zend_mm_add_to_free_list b h = Some h' /\ free_ok h' (set_large Ls i (t_insert sz i 0 b (large Ls i))) /\ only_links h h'.
Proof.
  intros Hf Hb Hsz Hnm Hl i. destruct (size_log b Hb Hl) as [Eh Hi]. fold i in Eh, Hi.
  destruct (add_large_writes h Ls b Hf Hb Hsz Hnm Hl) as (h' & E & Ht & Wr & Bt). fold i in Ht, Wr, Bt.
  pose proof Hf as [F1 F2 F3 F4 F5 F6 F7 F8 F9 F10]. destruct (F5 i Hi) as (R1 & R2 & R3 & R4). set (t := large Ls i) in *.
  destruct (hv_large Hheads i Hi) as [Vs As]. unfold bits in Bt. injection Bt as B1 B2 B3.
  assert (HK : forall x f, (x, f) = root_slot i \/ links_of (b :: nodes t) x f -> V x f /\ link f).
  { intros x f [E'|[Hx Hff]]; [injection E' as -> ->; split; [done|by apply link_fields; auto 10]|split; [|done]].
    apply elem_of_cons in Hx as [->|Hx]; [by apply fb_large|]. destruct (F3 x (member_large Ls i x Hi Hx)) as [Hfx _]. by apply (fb_large _ Hfx), R4. }
  exists h'. split; [done|]. split; [|by eapply wrote_weaken].
  assert (Hin : forall x, x ∈ nodes (t_insert sz i 0 b t) <-> x = b \/ x ∈ nodes t) by (intros x; by rewrite t_insert_nodes, elem_of_cons).
  assert (Hbt : b ∉ nodes t) by (intros Hx; by apply Hnm, (member_large Ls i)).
  assert (Hother : forall x f, f = Pf \/ f = Nf \/ f = Par -> x <> b -> x ∉ nodes t -> ~ ((x, f) = root_slot i \/ links_of (b :: nodes t) x f)).
  { intros x f Hff Hxb Hxt [E'|[Hx _]]; [injection E' as _ ->; by destruct Hff as [?|[?|?]]|]. by apply elem_of_cons in Hx as [?|?]. }
  apply (free_ok_change h h' (fun x f => (x, f) = root_slot i \/ links_of (b :: nodes t) x f)) with (Ls := Ls); try done.
  - intros x [(j & Hj & Hx)|[(j & Hj & Hx)|Hx]]; simpl in Hx; [by apply F3, (member_small Ls j)| |by apply F3, member_rest].
    case_decide as Hij; [subst j|by apply F3, (member_large Ls j)]. apply Hin in Hx as [->|Hx]; [done|by apply F3, (member_large Ls i)].
  - intros j Hj. right. simpl. split; [done|]. intros x Hx. assert (x <> b /\ x ∉ nodes t) as [? ?]; [|split; apply Hother; auto].
    apply elem_of_cons in Hx as [->|Hx].
    + split; [destruct (free_no_head b j Hb Hj); congruence|]. intros Hx. destruct (F3 _ (member_large Ls i _ Hi Hx)) as [Hfx _].
      by destruct (free_no_head _ j Hfx Hj).
    + pose proof (small_not_large Ls h j x Hf Hj Hx) as Hxs. split; [intros ->; congruence|]. intros Hx'. rewrite R4 in Hxs; done.
  - intros j Hj. simpl. case_decide as Hij; [subst j; left|right].
    + split; [done|]. split; [|split].
      * apply t_insert_trie; [done|lia|]. rewrite Z.sub_0_r. apply log2_shiftr. pose proof (fb_size _ Hb). pose proof consts. lia.
      * rewrite t_insert_nodes. by apply NoDup_cons.
      * intros x [->|Hx]%Hin; auto.
    + destruct (F5 j Hj) as (Q1 & Q2 & Q3 & Q4). split; [done|]. split.
      * intros [E'|[Hx _]]; [apply Hij, root_slot_inj; by rewrite <- E'|].
        change (base + 2 * N * W + j * W - 5 * W) with (root_slot j).1 in Hx.
        apply elem_of_cons in Hx as [Hx|Hx]; [destruct (free_no_head b j Hb Hj) as (_ & ? & _); congruence|].
        destruct (F3 _ (member_large Ls i _ Hi Hx)) as [Hfx _]. by destruct (free_no_head _ j Hfx Hj) as (_ & ? & _).
      * intros x f Hx Hff [E'|[Hx' _]].
        -- injection E' as -> ->. destruct (F3 _ (member_large Ls j _ Hj Hx)) as [Hfx _]. by destruct (free_no_head _ i Hfx Hi) as (_ & ? & _).
        -- apply elem_of_cons in Hx' as [->|Hx']; [by apply Hnm, (member_large Ls j)|].
           apply Hij. rewrite <- (trie_log2 sz h root_slot (large Ls) j x (free_tries h Ls Hf) Hj Hx).
           by rewrite <- (trie_log2 sz h root_slot (large Ls) i x (free_tries h Ls Hf) Hi Hx').
  - right. simpl. split; [done|]. assert (Hrest : forall x, x ∈ head_rest :: rests Ls -> x <> b /\ x ∉ nodes t).
    { intros x [->|Hx]%elem_of_cons.
      - split; [destruct (free_no_head b i Hb Hi) as (_ & _ & ?); congruence|]. intros Hx. destruct (F3 _ (member_large Ls i _ Hi Hx)) as [Hfx _].
        by destruct (free_no_head _ i Hfx Hi) as (_ & _ & ?).
      - split; [intros ->; by apply Hnm, member_rest|]. by apply F7. }
    split; [|intros x Hx]; [intros x Hx; destruct (Hrest x Hx); split|destruct (Hrest x) as [? ?]; [by right|]]; apply Hother; auto.
  - intros x Hx j Hj. simpl. destruct (F7 x Hx j Hj) as [? ?]. split; [done|]. case_decide as Hij; [subst j|done].
    rewrite Hin. intros [->|?]; [by apply Hnm, member_rest|done].
  - by rewrite B1.
  - rewrite B2. destruct F9 as [F9 F9']. split; [destruct (is_leaf t); [by apply set_bit_range|done]|]. intros j Hj. simpl.
    case_decide as Hij; [subst j; rewrite insert_not_leaf; simpl|].
    + destruct (is_leaf t) eqn:El; [rewrite set_bit_spec, bool_decide_eq_true_2 by (done || lia); done|]. rewrite F9' by done. fold t. by rewrite El.
    + destruct (is_leaf t); [rewrite set_bit_spec, bool_decide_eq_false_2 by (lia || congruence); simpl|]; by apply F9'.
  - by rewrite B3.
Qed.
End Free.
