(* ===== verification/AllocTake.v ===== *)
(** * AllocTake: adding and removing free blocks

    [zend_mm_add_to_free_list], [zend_mm_remove_from_free_list] and
    [zend_mm_add_to_rest_list] keep the lists, tries and bitmaps in order and
    write nowhere but to the links of free blocks. *)
From S2P Require Import Prelude ZendAlloc AllocBits AllocRing AllocTrie AllocCut AllocRemove AllocSearch AllocFree.

Section Take.
Context `{SizeT}.
Abbreviation N := ZEND_MM_NUM_BUCKETS.
Variable base : Z.
Variable V : Z -> fld -> Prop.
Hypothesis V_separate : separate V.
Variable sz : Z -> Z.
Hypothesis Hheads : heads_valid base V.

Abbreviation free_ok := (free_ok base V sz).
Abbreviation free_block := (free_block base V sz).
Abbreviation is_large := (is_large sz).
Abbreviation only_links := (only_links V).

Lemma add_free_ok h Ls b : free_ok h Ls -> free_block b -> view h b Sz = Some (sz b) -> ~ member Ls b ->
  exists h' Ls', zend_mm_add_to_free_list b h = Some h' /\ free_ok h' Ls' /\ only_links h h'
    /\ (forall x, member Ls' x <-> x = b \/ member Ls x) /\ rests Ls' = rests Ls.
Proof.
  intros Hf Hb Hsz Hnm. destruct (is_large b) eqn:El.
  - destruct (add_large_ok base V V_separate sz Hheads h Ls b Hf Hb Hsz Hnm El) as (h' & E & Hf' & Ho).
    destruct (size_log base V sz b Hb El) as [_ Hi]. eexists h', _. split; [done|]. split; [done|]. split; [done|]. split; [|done].
    intros x. unfold member, set_large. simpl. split.
    + intros [?|[(i & Hi' & Hx)|?]]; [auto| |auto]. case_decide as Hd; [subst i|right; right; left; by exists i].
      rewrite t_insert_nodes in Hx. apply elem_of_cons in Hx as [->|Hx]; [auto|]. right. right. left. by eexists.
    + intros [->|[?|[(i & Hi' & Hx)|?]]]; [|auto| |auto].
      * right. left. exists (Z.log2 (sz b)). rewrite decide_True, t_insert_nodes by done. split; [done|by left].
      * right. left. exists i. split; [done|]. case_decide as Hd; [subst i|done]. rewrite t_insert_nodes. by right.
  - destruct (add_small_ok base V V_separate sz Hheads h Ls b Hf Hb Hsz Hnm El) as (h' & E & Hf' & Ho).
    destruct (size_index base V sz b Hb El) as [Hi _]. eexists h', _. split; [done|]. split; [done|]. split; [done|]. split; [|done].
    intros x. unfold member, set_small. simpl. split.
    + intros [(i & Hi' & Hx)|?]; [|auto]. case_decide as Hd; [subst i|right; left; by exists i].
      apply elem_of_cons in Hx as [->|Hx]; [auto|]. right. left. by eexists.
    + intros [->|[(i & Hi' & Hx)|?]]; [| |auto].
      * left. eexists. split; [exact Hi|]. rewrite decide_True by done. by left.
      * left. exists i. split; [done|]. case_decide as Hd; [subst i; by right|done].
Qed.

(** ** Removing a block *)

(** What happens to the bitmap when a block of a small size has left a list.
    The source looks at the list of this size even if the block was among the
    rests. *)
Definition bitmap_after (h : mm_heap) (i prev next p n : Z) : Z :=
  if (prev =? next) && (p =? n) then clear_bit i (free_bitmap h) else free_bitmap h.

Lemma small_exit h b prev next p n : buckets h = base -> free_block b -> is_large b = false -> view h b Sz = Some (sz b) ->
  let i := ZEND_MM_BUCKET_INDEX (sz b) in view h (head base i) Pf = Some p -> view h (head base i) Nf = Some n ->
  after_unlink b prev next h = Some (set_free_bitmap (bitmap_after h i prev next p n) h).
Proof.
  intros Hb Hfb Hsm Hsz i Hp Hn. unfold after_unlink. rewrite (view_size sz b h Hsz). cbn [mbind option_bind].
  unfold AllocFree.is_large in Hsm. apply negb_false_iff in Hsm. rewrite Hsm. cbv zeta. fold i.
  destruct (head_fields base h i Hb) as [-> ->]. unfold bitmap_after. destruct (prev =? next); [|by destruct h].
  rewrite (load_field _ _ _ _ Hp), (load_field _ _ _ _ Hn). cbn [mbind option_bind andb]. destruct (p =? n); [done|by destruct h].
Qed.
Lemma bitmap_after_ok h i prev next p n j : 0 <= i -> Z.testbit (bitmap_after h i prev next p n) j = true -> Z.testbit (free_bitmap h) j = true.
Proof. intros Hi. unfold bitmap_after. destruct (_ && _); [|done]. rewrite clear_bit_spec by done. by intros [_ ?]%andb_true_iff. Qed.
Lemma bitmap_after_range h i prev next p n : 0 <= free_bitmap h < 2 ^ N -> 0 <= bitmap_after h i prev next p n < 2 ^ N.
Proof. intros Hb. unfold bitmap_after. destruct (_ && _); [by apply clear_bit_range|done]. Qed.

(** A small block leaves its list. *)
Lemma remove_small_ok h Ls b i l1 l2 : free_ok h Ls -> 0 <= i < N -> small Ls i = l1 ++ b :: l2 ->
  exists h', zend_mm_remove_from_free_list b h = Some h' /\ free_ok h' (set_small Ls i (l1 ++ l2)) /\ only_links h h'.
Proof.
  intros Hf Hi El. pose proof Hf as [F1 F2 F3 F4 F5 F6 F7 F8 F9 F10]. destruct (F4 i Hi) as (R1 & R2 & R3).
  destruct (hv_small _ _ Hheads i Hi) as [VhP VhN].
  assert (Hin : forall x, x ∈ small Ls i -> free_block x /\ view h x Sz = Some (sz x)) by (intros x Hx; by apply F3, (member_small Ls i)).
  assert (Hsub : forall x, x ∈ l1 ++ l2 -> x ∈ small Ls i) by (intros x; rewrite El, !elem_of_app, elem_of_cons; tauto).
  assert (Hb : b ∈ small Ls i) by (rewrite El; set_solver +). destruct (Hin b Hb) as [Hfb Hvb].
  pose proof (small_not_large base V sz Ls h i b Hf Hi Hb) as Hsm. rewrite El in R1, R2.
  assert (Hhead : head base i ∉ small Ls i).
  { intros Hx. by destruct (free_no_head base V sz _ i (proj1 (Hin _ Hx)) Hi). }
  assert (Hnd : NoDup (head base i :: l1 ++ b :: l2)) by (apply NoDup_cons; rewrite <- El at 1; done).
  assert (Hlink : linked V (head base i :: l1 ++ l2)).
  { intros x [->|Hx]%elem_of_cons; [done|]. destruct (Hin x (Hsub x Hx)) as [Hx' _]. by destruct (fb_valid _ _ _ _ Hx') as (_ & ? & ?). }
  destruct (unlink_ok V V_separate h (head base i) l1 b l2) as (h1 & E & Hr & Wr & Bt); try done.
  unfold bits in Bt. injection Bt as B1 B2 B3.
  set (T := fun x f => x ∈ head base i :: l1 ++ l2 /\ (f = Pf \/ f = Nf)) in *.
  assert (HT : forall x f, T x f -> V x f /\ link f).
  { intros x f [Hx Hff]. destruct (Hlink x Hx). split; [by destruct Hff as [-> | ->]|]. apply link_fields. tauto. }
  destruct (size_index base V sz b Hfb Hsm) as [_ Es]. pose proof (R3 b Hb) as Es'.
  assert (Ei : ZEND_MM_BUCKET_INDEX (sz b) = i) by lia.
  set (fb := bitmap_after h1 i (prev_of (head base i) l1) (next_of l2 (head base i)) (prev_of (head base i) (l1 ++ l2)) (next_of (l1 ++ l2) (head base i))).
  exists (set_free_bitmap fb h1).
  assert (Hw : wrote T h (set_free_bitmap fb h1)) by (destruct Wr as [D M O]; by split).
  split; [|split; [|by eapply wrote_weaken]].
  - rewrite (remove_linked h (head base i) l1 b l2) by done. rewrite E. cbn [mbind option_bind].
    apply ring_last in Hr as L1. apply ring_first in Hr as L2.
    pose proof (small_exit h1 b (prev_of (head base i) l1) (next_of l2 (head base i)) (prev_of (head base i) (l1 ++ l2))
      (next_of (l1 ++ l2) (head base i))) as X. cbv zeta in X. rewrite Ei in X. apply X; [|done|done| |apply L1|apply L2].
    + pose proof (wr_others _ _ _ Wr) as Ho. injection Ho. congruence.
    + rewrite (kept_size V V_separate h h1 T HT Wr b); [done|]. by apply (fb_valid _ _ _ _ Hfb).
  - apply (free_ok_change base V V_separate sz h (set_free_bitmap fb h1) T) with (Ls := Ls); try done.
    + intros x [(j & Hj & Hx)|Hx]; simpl in Hx; [|apply F3; by right]. case_decide as Hij; [subst j; by apply Hin, Hsub|by apply F3, (member_small Ls j)].
    + intros j Hj. simpl. case_decide as Hij; [subst j; left|right].
      * split; [exact Hr|]. split; [|intros x Hx; by apply R3, Hsub]. rewrite <- Permutation_middle in R2. by apply NoDup_cons in R2 as [_ ?].
      * split; [done|]. intros x Hx. assert (x ∉ head base i :: l1 ++ l2); [|by split; intros [? _]]. rewrite not_elem_of_cons.
        apply elem_of_cons in Hx as [->|Hx].
        -- split; [by intros ?%head_inj|]. intros Hx%Hsub. by destruct (free_no_head base V sz _ j (proj1 (Hin _ Hx)) Hj).
        -- pose proof (F3 x (member_small Ls j x Hj Hx)) as [Hfx _]. split; [by apply (free_no_head base V sz x i)|].
           intros Hx'%Hsub. apply Hij. destruct (F4 j Hj) as (_ & _ & R3'). pose proof (R3 x Hx'). pose proof (R3' x Hx). lia.
    + intros j Hj. right. simpl. split; [done|]. split; [by intros [_ [?|?]]|]. intros x f Hx Hff [Hk _].
      destruct (F5 j Hj) as (_ & _ & _ & R4). pose proof (R4 x Hx) as Hlx. pose proof (F3 x (member_large Ls j x Hj Hx)) as [Hfx _].
      apply elem_of_cons in Hk as [->|Hk]; [by destruct (free_no_head base V sz _ i Hfx Hi)|].
      rewrite (small_not_large base V sz Ls h i x Hf Hi (Hsub x Hk)) in Hlx. done.
    + right. simpl. split; [done|]. split; [|by intros x Hx [_ [?|?]]].
      intros x Hx. assert (x ∉ head base i :: l1 ++ l2); [|by split; intros [? _]]. rewrite not_elem_of_cons. apply elem_of_cons in Hx as [->|Hx].
      * split; [intros E1; by apply (head_not_rest base i Hi)|]. intros Hx%Hsub. by destruct (free_no_head base V sz _ i (proj1 (Hin _ Hx)) Hi) as (_ & _ & ?).
      * pose proof (F3 x (member_rest Ls x Hx)) as [Hfx _]. split; [by apply (free_no_head base V sz x i)|]. intros Hx'%Hsub. by destruct (F7 x Hx i Hi).
    + intros x Hx j Hj. simpl. destruct (F7 x Hx j Hj) as [? ?]. split; [|done]. case_decide as Hij; [subst j; by intros Hx'%Hsub|done].
    + simpl. destruct F8 as [F8 F8']. split; [apply bitmap_after_range; by rewrite B1|]. intros j Hj Hbit.
      pose proof (bitmap_after_ok _ _ _ _ _ _ j (proj1 Hi) Hbit) as Hbit'. rewrite B1 in Hbit'. case_decide as Hij; [subst j|by apply F8'].
      intros [-> ->]%app_eq_nil. unfold fb, bitmap_after in Hbit. simpl in Hbit. rewrite !Z.eqb_refl in Hbit. simpl in Hbit.
      rewrite clear_bit_spec, bool_decide_eq_true_2 in Hbit by (done || lia). done.
    + simpl. by rewrite B2.
    + simpl. by rewrite B3.
Qed.

Lemma large_placed h Ls i : free_ok h Ls -> 0 <= i < N -> placed V sz h (root_slot base i) (large Ls i).
Proof.
  intros Hf Hi. pose proof Hf as [F1 F2 F3 F4 F5 F6 F7 F8 F9 F10]. destruct (F5 i Hi) as (R1 & R2 & R3 & R4).
  destruct (hv_large _ _ Hheads i Hi) as [Vs As].
  assert (Hin : forall x, x ∈ nodes (large Ls i) -> free_block x /\ view h x Sz = Some (sz x)) by (intros x Hx; by apply F3, (member_large Ls i)).
  split; try done.
  - intros Hx. by destruct (free_no_head base V sz _ i (proj1 (Hin _ Hx)) Hi) as (_ & ? & _).
  - split; [done|by left].
  - intros x Hx. destruct (Hin x Hx) as [Hfx Hvx]. pose proof (fb_addr _ _ _ _ Hfx). split; [unfold NULL; lia|]. split; [done|]. by apply (fb_large _ _ _ _ Hfx), R4.
  - intros x Hx. destruct (Hin x Hx) as [Hfx Hvx]. pose proof (fb_addr _ _ _ _ Hfx). pose proof (fb_size _ _ _ _ Hfx). pose proof consts.
    split; [done|]. split; [lia|]. apply negb_true_iff. by apply R4.
  - by apply (tries_height sz h (root_slot base) (large Ls) i (free_tries base V sz h Ls Hf)).
Qed.

(** A large block leaves its trie. *)
Lemma remove_large_ok h Ls b i : free_ok h Ls -> 0 <= i < N -> b ∈ nodes (large Ls i) ->
  exists h' t', zend_mm_remove_from_free_list b h = Some h' /\ nodes (large Ls i) ≡ₚ b :: nodes t'
    /\ free_ok h' (set_large Ls i t') /\ only_links h h'.
Proof.
  intros Hf Hi Hb. pose proof Hf as [F1 F2 F3 F4 F5 F6 F7 F8 F9 F10]. destruct (F5 i Hi) as (R1 & R2 & R3 & R4).
  set (t := large Ls i) in *. destruct (hv_large _ _ Hheads i Hi) as [Vs As].
  pose proof (large_placed h Ls i Hf Hi) as Hp. fold t in Hp.
  pose proof (free_tries base V sz h Ls Hf) as Htr.
  assert (Hlog : Z.log2 (sz b) = i) by (by apply (trie_log2 sz h (root_slot base) (large Ls) i b)).
  assert (Hin : forall x, x ∈ nodes t -> free_block x) by (intros x Hx; by apply F3, (member_large Ls i)).
  destruct (trie_remove_ok V V_separate sz h b t (root_slot base i) Hp Hb) as (h' & t' & E & [T1 T2 T3 T4 T5]).
  { intros x bit Hx. rewrite Hlog, (root_address base) by done. intros Ea. destruct (V_separate _ _ _ _ (fb_large _ _ _ _ (Hin x Hx) (R4 x Hx) _) Vs Ea) as [Ex _].
    by destruct (free_no_head base V sz x i (Hin x Hx) Hi) as (_ & ? & _). }
  rewrite Hlog, (root_address base), Z.eqb_refl, andb_true_r in T5 by done. unfold bits in T5. injection T5 as B1 B2 B3.
  set (K := fun x f => (x, f) = root_slot base i \/ links_of (nodes t) x f) in *.
  assert (HK : forall x f, K x f -> V x f /\ link f).
  { intros x f [E'|[Hx Hff]]; [injection E' as -> ->; split; [done|by apply link_fields; auto 10]|split; [|done]]. by apply (fb_large _ _ _ _ (Hin x Hx)), R4. }
  exists h', t'. split; [done|]. split; [done|]. split; [|by eapply wrote_weaken].
  assert (Hin' : forall x, x ∈ nodes t' -> x ∈ nodes t) by (intros x Hx; rewrite T2; by right).
  assert (Hother : forall x f, f = Pf \/ f = Nf \/ f = Par -> x ∉ nodes t -> ~ K x f).
  { intros x f Hff Hxt [E'|[Hx _]]; [injection E' as _ ->; by destruct Hff as [?|[?|?]]|done]. }
  apply (free_ok_change base V V_separate sz h h' K) with (Ls := Ls); try done.
  - intros x [(j & Hj & Hx)|[(j & Hj & Hx)|Hx]]; simpl in Hx; [by apply F3, (member_small Ls j)| |by apply F3, member_rest].
    case_decide as Hij; [subst j; by apply F3, (member_large Ls i), Hin'|by apply F3, (member_large Ls j)].
  - intros j Hj. right. simpl. split; [done|]. intros x Hx. assert (x ∉ nodes t) as ?; [|split; apply Hother; auto].
    apply elem_of_cons in Hx as [->|Hx].
    + intros Hx. by destruct (free_no_head base V sz _ j (Hin _ Hx) Hj).
    + pose proof (small_not_large base V sz Ls h j x Hf Hj Hx) as Hxs. intros Hx'. rewrite R4 in Hxs; done.
  - intros j Hj. simpl. case_decide as Hij; [subst j; left|right].
    + split; [done|]. split; [by apply T3|]. split; [|intros x Hx; by apply R4, Hin']. rewrite T2 in R3. by apply NoDup_cons in R3 as [_ ?].
    + destruct (F5 j Hj) as (Q1 & Q2 & Q3 & Q4). split; [done|]. split.
      * intros [E'|[Hx _]]; [apply Hij, (root_slot_inj base); by rewrite <- E'|].
        change (base + 2 * N * W + j * W - 5 * W) with (root_slot base j).1 in Hx. by destruct (free_no_head base V sz _ j (Hin _ Hx) Hj) as (_ & ? & _).
      * intros x f Hx Hff [E'|[Hx' _]].
        -- injection E' as -> ->. destruct (F3 _ (member_large Ls j _ Hj Hx)) as [Hfx _]. by destruct (free_no_head base V sz _ i Hfx Hi) as (_ & ? & _).
        -- apply Hij. rewrite <- (trie_log2 sz h (root_slot base) (large Ls) j x Htr Hj Hx).
           by rewrite <- (trie_log2 sz h (root_slot base) (large Ls) i x Htr Hi Hx').
  - right. simpl. split; [done|]. assert (Hrest : forall x, x ∈ head_rest base :: rests Ls -> x ∉ nodes t).
    { intros x [->|Hx]%elem_of_cons; [|by destruct (F7 x Hx i Hi)]. intros Hx. by destruct (free_no_head base V sz _ i (Hin _ Hx) Hi) as (_ & _ & ?). }
    split; [intros x Hx; split|intros x Hx]; apply Hother; auto. apply Hrest. by right.
  - intros x Hx j Hj. simpl. destruct (F7 x Hx j Hj) as [? ?]. split; [done|]. case_decide as Hij; [subst j|done]. by intros ?%Hin'.
  - by rewrite B1.
  - rewrite B2. destruct F9 as [F9 F9']. split; [destruct (is_leaf t'); [by apply clear_bit_range|done]|]. intros j Hj. simpl.
    assert (Et : is_leaf t = false) by (destruct t; [by apply not_elem_of_nil in Hb|done]).
    case_decide as Hij; [subst j|].
    + destruct (is_leaf t') eqn:El; [rewrite clear_bit_spec, bool_decide_eq_true_2 by (done || lia); done|]. rewrite F9' by done. fold t. by rewrite Et.
    + destruct (is_leaf t'); [rewrite clear_bit_spec, bool_decide_eq_false_2 by (lia || congruence); simpl|]; by apply F9'.
  - by rewrite B3.
Qed.

(** *** The list of rests *)
Lemma rest_links Ls h : free_ok h Ls -> linked V (head_rest base :: rests Ls).
Proof.
  intros Hf x [->|Hx]%elem_of_cons; [apply Hheads|]. destruct (fo_member _ _ _ _ _ Hf x (member_rest Ls x Hx)) as [Hx' _].
  by destruct (fb_valid _ _ _ _ Hx') as (_ & ? & ?).
Qed.
Lemma head_rest_fresh Ls h : free_ok h Ls -> head_rest base ∉ rests Ls.
Proof.
  intros Hf Hx. destruct (fo_member _ _ _ _ _ Hf _ (member_rest Ls _ Hx)) as [Hx' _]. pose proof N_pos.
  by destruct (free_no_head base V sz _ 0 Hx' ltac:(lia)) as (_ & _ & ?).
Qed.
Lemma rest_nodup Ls h : free_ok h Ls -> NoDup (head_rest base :: rests Ls).
Proof. intros Hf. apply NoDup_cons. split; [by eapply head_rest_fresh|]. apply Hf. Qed.

(** Only the list of rests changes. *)
Lemma change_rests h h' Ls l : free_ok h Ls ->
  wrote (fun x f => x ∈ head_rest base :: rests Ls ++ l /\ (f = Pf \/ f = Nf) \/ x ∈ l /\ is_large x = true /\ f = Par) h h' ->
  (forall x, x ∈ l -> free_block x /\ view h x Sz = Some (sz x) /\ (x ∈ rests Ls \/ ~ member Ls x)) ->
  rest_ok base sz h' l ->
  (0 <= free_bitmap h' < 2 ^ N /\ forall j, 0 <= j < N -> Z.testbit (free_bitmap h') j = true -> Z.testbit (free_bitmap h) j = true) ->
  large_free_bitmap h' = large_free_bitmap h -> rest_count h' = Z.of_nat (length (filter is_large l)) ->
  free_ok h' (set_rests Ls l) /\ only_links h h'.
Proof.
  intros Hf Hw Hl Hr Hb1 Hb2 Hc. pose proof Hf as [F1 F2 F3 F4 F5 F6 F7 F8 F9 F10].
  set (K := fun x f => x ∈ head_rest base :: rests Ls ++ l /\ (f = Pf \/ f = Nf) \/ x ∈ l /\ is_large x = true /\ f = Par) in *.
  assert (Hin : forall x, x ∈ rests Ls ++ l -> free_block x /\ (x ∈ rests Ls \/ ~ member Ls x)).
  { intros x [Hx|Hx]%elem_of_app; [split; [by apply F3, member_rest|by left]|]. by destruct (Hl x Hx) as (? & _ & ?). }
  assert (HK : forall x f, K x f -> V x f /\ link f).
  { intros x f [[Hx Hff]|(Hx & Hlx & ->)].
    - split; [|apply link_fields; tauto]. apply elem_of_cons in Hx as [->|Hx]; [destruct (hv_rest _ _ Hheads); by destruct Hff as [-> | ->]|].
      destruct (Hin x Hx) as [Hfx _]. destruct (fb_valid _ _ _ _ Hfx) as (_ & ? & ?). by destruct Hff as [-> | ->].
    - split; [|by apply link_fields; auto]. destruct (Hl x Hx) as (Hfx & _). by apply (fb_large _ _ _ _ Hfx). }
  assert (Hno : forall x, (x <> head_rest base) -> x ∉ rests Ls ++ l -> forall f, ~ K x f).
  { intros x Hx Hn f [[Hx' _]|(Hx' & _)]; [by apply elem_of_cons in Hx' as [?|?]|]. apply Hn, elem_of_app. by right. }
  assert (Hap : forall x i, 0 <= i < N -> x ∈ rests Ls ++ l -> x ∉ small Ls i /\ x ∉ nodes (large Ls i)).
  { intros x i Hi Hx. destruct (Hin x Hx) as [_ [Hx'|Hn]]; [by apply F7|]. split; intros Hx'; apply Hn; [by apply (member_small Ls i)|by apply (member_large Ls i)]. }
  split; [|by eapply wrote_weaken].
  apply (free_ok_change base V V_separate sz h h' K) with (Ls := Ls); try done.
  - intros x [Hx|[Hx|Hx]]; simpl in Hx; [apply F3; by left|apply F3; by right; left|]. destruct (Hl x Hx) as (? & ? & _). done.
  - intros i Hi. right. simpl. split; [done|]. intros x Hx. assert (x <> head_rest base /\ x ∉ rests Ls ++ l) as [? ?]; [|split; by apply Hno].
    apply elem_of_cons in Hx as [->|Hx].
    + split; [by apply head_not_rest|]. intros Hx. destruct (Hin _ Hx) as [Hfx _]. by destruct (free_no_head base V sz _ i Hfx Hi).
    + destruct (F3 x (member_small Ls i x Hi Hx)) as [Hfx _]. split; [by apply (free_no_head base V sz x i)|]. intros Hx'. by destruct (Hap x i Hi Hx').
  - intros i Hi. right. simpl. split; [done|]. split.
    + intros [[_ [E|E]]|(_ & _ & E)]; done.
    + intros x f Hx _. destruct (F3 x (member_large Ls i x Hi Hx)) as [Hfx _]. apply Hno; [by apply (free_no_head base V sz x i)|].
      intros Hx'. by destruct (Hap x i Hi Hx').
  - by left.
  - intros x Hx i Hi. simpl in *. apply Hap; [done|]. apply elem_of_app. by right.
  - destruct Hb1 as [Hb Hb']. split; [done|]. intros j Hj Ht. simpl. by apply F8, Hb'.
  - by rewrite Hb2.
Qed.

Lemma count_split l1 b l2 : Z.of_nat (length (filter is_large (l1 ++ b :: l2))) =
  Z.of_nat (length (filter is_large (l1 ++ l2))) + (if is_large b then 1 else 0).
Proof.
  rewrite !filter_app, filter_cons, !length_app. case_decide as Hd; destruct (is_large b); try done; simpl; lia.
Qed.

(** A rest leaves the list; the bitmap may lose bits and nothing else changes. *)
Lemma unlink_rest_ok h Ls l1 b l2 : free_ok h Ls -> rests Ls = l1 ++ b :: l2 ->
  exists h1, stores [(prev_of (head_rest base) l1, Nf, next_of l2 (head_rest base)); (next_of l2 (head_rest base), Pf, prev_of (head_rest base) l1)] h = Some h1
    /\ bits h1 = bits h /\ buckets h1 = buckets h /\ (forall x, V x Sz -> view h1 x Sz = view h x Sz)
    /\ (forall x, x ∈ rests Ls -> is_large x = true -> view h1 x Par = view h x Par)
    /\ (forall i, 0 <= i < N -> ring (view h1) (head base i) (small Ls i))
    /\ forall h2, mem h2 = mem h1 -> others h2 = others h1 -> large_free_bitmap h2 = large_free_bitmap h1 ->
      (0 <= free_bitmap h2 < 2 ^ N /\ forall j, 0 <= j < N -> Z.testbit (free_bitmap h2) j = true -> Z.testbit (free_bitmap h) j = true) ->
      rest_count h2 = rest_count h - (if is_large b then 1 else 0) ->
      free_ok h2 (set_rests Ls (l1 ++ l2)) /\ only_links h h2.
Proof.
  intros Hf El. pose proof Hf as [F1 F2 F3 F4 F5 F6 F7 F8 F9 F10]. destruct F6 as (R1 & R2 & R3). rewrite El in R1.
  pose proof (rest_nodup Ls h Hf) as Hnd. pose proof (rest_links Ls h Hf) as Hlk. rewrite El in Hnd.
  assert (Hsub : forall x, x ∈ head_rest base :: l1 ++ l2 -> x ∈ head_rest base :: rests Ls).
  { intros x. rewrite El, !elem_of_cons, !elem_of_app, elem_of_cons. tauto. }
  assert (Hsub' : forall x, x ∈ l1 ++ l2 -> x ∈ rests Ls) by (intros x; rewrite El, !elem_of_app, elem_of_cons; tauto).
  destruct (unlink_ok V V_separate h (head_rest base) l1 b l2) as (h1 & E & Hr & Wr & Bt); [done..|by intros x Hx%Hsub; apply Hlk|].
  set (T := fun x f => x ∈ head_rest base :: l1 ++ l2 /\ (f = Pf \/ f = Nf)) in *.
  assert (HT : forall x f, T x f -> V x f /\ link f).
  { intros x f [Hx Hff]. destruct (Hlk x (Hsub x Hx)). split; [by destruct Hff as [-> | ->]|]. apply link_fields. tauto. }
  exists h1. split; [done|]. split; [done|]. split; [pose proof (wr_others _ _ _ Wr) as Ho; injection Ho; congruence|]. split.
  { intros x Hx. by apply (kept_size V V_separate h h1 T HT Wr). } split.
  { intros x Hx Hlx. apply (kept_view V V_separate h h1 T HT Wr); [|by intros [_ [?|?]]].
    destruct (F3 x (member_rest Ls x Hx)) as [Hfx _]. by apply (fb_large _ _ _ _ Hfx). } split.
  { intros i Hi. destruct (F4 i Hi) as (Q1 & _). apply (kept_ring V V_separate h h1 T HT Wr); [done|]. intros y Hy.
    assert (Hn : y ∉ head_rest base :: l1 ++ l2).
    { intros Hy'%Hsub. apply elem_of_cons in Hy as [->|Hy].
      - apply elem_of_cons in Hy' as [Hy'|Hy']; [by apply (head_not_rest base i Hi)|]. destruct (F3 _ (member_rest Ls _ Hy')) as [Hfx _].
        by destruct (free_no_head base V sz _ i Hfx Hi).
      - apply elem_of_cons in Hy' as [->|Hy']; [|by destruct (F7 y Hy' i Hi)]. destruct (F3 _ (member_small Ls i _ Hi Hy)) as [Hfx _].
        by destruct (free_no_head base V sz _ i Hfx Hi) as (_ & _ & ?). }
    assert (V y Pf /\ V y Nf) as [? ?].
    { apply elem_of_cons in Hy as [->|Hy]; [by apply Hheads|]. destruct (F3 _ (member_small Ls i _ Hi Hy)) as [Hfx _].
      by destruct (fb_valid _ _ _ _ Hfx) as (_ & ? & ?). }
    split_and!; [done|done|by intros [? _]..]. }
  intros h2 Em Eo Eb Hfb Hcount. apply change_rests; try done.
  - destruct Wr as [D M O]. split; [by rewrite Em| |congruence]. intros a Ha. rewrite Em. apply M. intros x f [Hx Hff]. apply Ha. left.
    split; [|done]. apply elem_of_cons in Hx as [->|Hx]; [by left|]. right. apply elem_of_app. by right.
  - intros x Hx%Hsub'. destruct (F3 x (member_rest Ls x Hx)). auto.
  - assert (Ev : view h2 = view h1) by (unfold view; by rewrite Em). unfold rest_ok. rewrite Ev. split; [done|]. split.
    + apply NoDup_cons in Hnd as [_ Hnd]. rewrite <- Permutation_middle in Hnd. by apply NoDup_cons in Hnd as [_ ?].
    + intros x Hx%Hsub' Hlx. rewrite (kept_view V V_separate h h1 T HT Wr); [by apply R3| |by intros [_ [?|?]]].
      destruct (F3 x (member_rest Ls x Hx)) as [Hfx _]. by apply (fb_large _ _ _ _ Hfx).
  - unfold bits in Bt. rewrite Eb. congruence.
  - rewrite Hcount, F10, El, count_split. lia.
Qed.

Lemma remove_rest_ok h Ls l1 b l2 : free_ok h Ls -> rests Ls = l1 ++ b :: l2 ->
  exists h', zend_mm_remove_from_free_list b h = Some h' /\ free_ok h' (set_rests Ls (l1 ++ l2)) /\ only_links h h'.
Proof.
  intros Hf El. destruct (unlink_rest_ok h Ls l1 b l2 Hf El) as (h1 & E & Bt & Eb & Hsz & Hpar & Hrings & Hrest).
  assert (Hb : b ∈ rests Ls) by (rewrite El; set_solver +). destruct (fo_member _ _ _ _ _ Hf b (member_rest Ls b Hb)) as [Hfb Hvb].
  assert (Hvb1 : view h1 b Sz = Some (sz b)) by (rewrite Hsz; [done|apply (fb_valid _ _ _ _ Hfb)]).
  destruct (fo_rest _ _ _ _ _ Hf) as (R1 & R2 & R3). pose proof (rest_nodup Ls h Hf) as Hnd. rewrite El in R1, Hnd.
  unfold bits in Bt. injection Bt as B1 B2 B3. rewrite (remove_linked h (head_rest base) l1 b l2), E by done. cbn [mbind option_bind].
  destruct (is_large b) eqn:Hl.
  - exists (set_rest_count (rest_count h1 - 1) h1). split.
    + unfold after_unlink. rewrite (view_size sz b h1 Hvb1). cbn [mbind option_bind].
      unfold AllocFree.is_large in Hl. apply negb_true_iff in Hl. rewrite Hl. destruct (field_addresses b) as (_ & _ & _ & _ & Ep & _).
      rewrite Ep, (load_field h1 b Par ZEND_MM_REST_BLOCK); [done|]. rewrite Hpar by (unfold AllocFree.is_large; by rewrite ?Hl).
      apply R3; [done|]. unfold AllocFree.is_large. by rewrite Hl.
    + apply Hrest; try done; simpl; [|lia]. rewrite B1. split; [|done]. apply (fo_bitmap _ _ _ _ _ Hf).
  - destruct (size_index base V sz b Hfb Hl) as [Hi _]. set (i := ZEND_MM_BUCKET_INDEX (sz b)) in *.
    pose proof (Hrings i Hi) as Hr. apply ring_first in Hr as L2. destruct L2 as [L2 _]. apply ring_last in Hr as [L1 _].
    eexists. split; [apply (small_exit h1 b _ _ _ _ (eq_trans Eb (fo_base _ _ _ _ _ Hf)) Hfb Hl Hvb1 L1 L2)|]. apply Hrest; try done; simpl; [|lia]. split.
    + apply bitmap_after_range. rewrite B1. apply (fo_bitmap _ _ _ _ _ Hf).
    + intros j Hj Ht. apply bitmap_after_ok in Ht; [|lia]. by rewrite B1 in Ht.
Qed.

Lemma places h Ls i j x : free_ok h Ls -> 0 <= i < N -> 0 <= j < N ->
  (x ∈ small Ls i -> x ∈ small Ls j -> i = j) /\ (x ∈ nodes (large Ls i) -> x ∈ nodes (large Ls j) -> i = j)
  /\ (x ∈ small Ls i -> x ∈ nodes (large Ls j) -> False).
Proof.
  intros Hf Hi Hj. split_and!.
  - intros H1 H2. destruct (fo_small _ _ _ _ _ Hf i Hi) as (_ & _ & E1). destruct (fo_small _ _ _ _ _ Hf j Hj) as (_ & _ & E2).
    specialize (E1 x H1). specialize (E2 x H2). lia.
  - intros H1 H2. pose proof (free_tries base V sz h Ls Hf) as Ht.
    rewrite <- (trie_log2 sz h (root_slot base) (large Ls) i x Ht Hi H1). by apply (trie_log2 sz h (root_slot base) (large Ls) j x Ht Hj).
  - intros H1 H2. pose proof (small_not_large base V sz Ls h i x Hf Hi H1) as E. destruct (fo_large _ _ _ _ _ Hf j Hj) as (_ & _ & _ & R4).
    by rewrite R4 in E.
Qed.

Lemma remove_ok h Ls b : free_ok h Ls -> member Ls b ->
  exists h' Ls', zend_mm_remove_from_free_list b h = Some h' /\ free_ok h' Ls' /\ only_links h h'
    /\ forall x, member Ls' x <-> member Ls x /\ x <> b.
Proof.
  intros Hf [(i & Hi & Hb)|[(i & Hi & Hb)|Hb]].
  - apply list_elem_of_split in Hb as (l1 & l2 & El). destruct (remove_small_ok h Ls b i l1 l2 Hf Hi El) as (h' & E & Hf' & Ho).
    eexists h', _. split; [done|]. split; [done|]. split; [done|].
    assert (Hb : b ∈ small Ls i) by (rewrite El; set_solver +).
    assert (Hin : forall x, x ∈ l1 ++ l2 <-> x ∈ small Ls i /\ x <> b).
    { intros x. destruct (fo_small _ _ _ _ _ Hf i Hi) as (_ & Hnd & _). rewrite El in Hnd |- *. rewrite <- Permutation_middle in Hnd |- *.
      apply NoDup_cons in Hnd as [Hn _]. rewrite elem_of_cons. split; [|tauto]. intros Hx. split; [by right|by intros ->]. }
    intros x. unfold member, set_small. simpl. split.
    + intros [(j & Hj & Hx)|[(j & Hj & Hx)|Hx]].
      * case_decide as Hij; [subst j; apply Hin in Hx as [Hx ?]; split; [left; by exists i|done]|].
        split; [left; by exists j|]. intros ->. apply Hij. destruct (places h Ls j i b Hf Hj Hi) as (P1 & P2 & _). auto.
      * split; [right; left; by exists j|]. intros ->. destruct (places h Ls i j b Hf Hi Hj) as (_ & _ & P). by apply P.
      * split; [by right; right|]. intros ->. by destruct (fo_apart _ _ _ _ _ Hf b Hx i Hi).
    + intros [[(j & Hj & Hx)|[?|?]] Hxb]; [|auto..]. left. exists j. split; [done|]. case_decide as Hij; [subst j; by apply Hin|done].
  - destruct (remove_large_ok h Ls b i Hf Hi Hb) as (h' & t' & E & Hp & Hf' & Ho). eexists h', _. split; [done|]. split; [done|]. split; [done|].
    assert (Hin : forall x, x ∈ nodes t' <-> x ∈ nodes (large Ls i) /\ x <> b).
    { intros x. destruct (fo_large _ _ _ _ _ Hf i Hi) as (_ & _ & Hnd & _). rewrite Hp in Hnd |- *.
      apply NoDup_cons in Hnd as [Hn _]. rewrite elem_of_cons. split; [|tauto]. intros Hx. split; [by right|by intros ->]. }
    intros x. unfold member, set_large. simpl. split.
    + intros [(j & Hj & Hx)|[(j & Hj & Hx)|Hx]].
      * split; [left; by exists j|]. intros ->. destruct (places h Ls j i b Hf Hj Hi) as (_ & _ & P). by apply P.
      * case_decide as Hij; [subst j; apply Hin in Hx as [Hx ?]; split; [right; left; by exists i|done]|].
        split; [right; left; by exists j|]. intros ->. apply Hij. destruct (places h Ls j i b Hf Hj Hi) as (P1 & P2 & _). auto.
      * split; [by right; right|]. intros ->. by destruct (fo_apart _ _ _ _ _ Hf b Hx i Hi).
    + intros [[?|[(j & Hj & Hx)|?]] Hxb]; [auto| |auto]. right. left. exists j. split; [done|]. case_decide as Hij; [subst j; by apply Hin|done].
  - pose proof Hb as Hb'. apply list_elem_of_split in Hb as (l1 & l2 & El). destruct (remove_rest_ok h Ls l1 b l2 Hf El) as (h' & E & Hf' & Ho).
    eexists h', _. split; [done|]. split; [done|]. split; [done|].
    assert (Hin : forall x, x ∈ l1 ++ l2 <-> x ∈ rests Ls /\ x <> b).
    { intros x. destruct (fo_rest _ _ _ _ _ Hf) as (_ & Hnd & _). rewrite El in Hnd |- *. rewrite <- Permutation_middle in Hnd |- *.
      apply NoDup_cons in Hnd as [Hn _]. rewrite elem_of_cons. split; [|tauto]. intros Hx. split; [by right|by intros ->]. }
    intros x. unfold member, set_rests. simpl. rewrite Hin. split; [|tauto].
    intros [(j & Hj & Hx)|[(j & Hj & Hx)|Hx]]; [| |tauto]; split; [left; by exists j| |right; left; by exists j|]; intros ->;
      by destruct (fo_apart _ _ _ _ _ Hf b Hb' j Hj).
Qed.

(** ** The list of rests grows *)
Lemma stores_set_rest_count c l : forall h, stores l (set_rest_count c h) = set_rest_count c <$> stores l h.
Proof.
  induction l as [|[[x f] v] l IH]; intros h; [done|]. simpl. unfold store. simpl. destruct (mem h !! at_ x f); [|done].
  cbn [mbind option_bind]. rewrite <- IH. done.
Qed.

Lemma rests_length h Ls : free_ok h Ls -> (length (rests Ls) <= base.size (mem h))%nat.
Proof.
  intros Hf. destruct (fo_rest _ _ _ _ _ Hf) as (_ & Hnd & _). rewrite <- size_dom, <- (size_list_to_set (C := gset Z)) by done.
  apply subseteq_size. intros x Hx%elem_of_list_to_set. apply elem_of_dom.
  destruct (fo_member _ _ _ _ _ Hf x (member_rest Ls x Hx)) as [_ Hv]. unfold view, at_, off in Hv. rewrite Z.add_0_r in Hv. by exists (sz x).
Qed.

Lemma only_links_trans h1 h2 h3 : only_links h1 h2 -> only_links h2 h3 -> only_links h1 h3.
Proof. apply wrote_trans. Qed.
Lemma only_links_size h h' x : only_links h h' -> V x Sz -> view h' x Sz = view h x Sz.
Proof. intros Ho Hx. apply (kept_size V V_separate h h' (fun x f => V x f /\ link f)); done. Qed.

Lemma shrink_ok fuel : forall h Ls, free_ok h Ls -> (length (rests Ls) <= fuel)%nat ->
  exists h' Ls', shrink_rest_list fuel h = Some h' /\ free_ok h' Ls' /\ only_links h h' /\ (forall x, member Ls' x <-> member Ls x).
Proof.
  induction fuel as [|fuel IH]; intros h Ls Hf Hlen; cbn [shrink_rest_list]; destruct (Z.leb_spec ZEND_MM_MAX_REST_BLOCKS (rest_count h)) as [Hc|Hc];
    try (exists h, Ls; split_and!; [done|done|apply wrote_refl|done]).
  { rewrite (fo_count _ _ _ _ _ Hf) in Hc. unfold ZEND_MM_MAX_REST_BLOCKS in Hc. pose proof (length_filter is_large (rests Ls)). lia. }
  assert (Hr : exists p l, rests Ls = p :: l).
  { rewrite (fo_count _ _ _ _ _ Hf) in Hc. unfold ZEND_MM_MAX_REST_BLOCKS in Hc. destruct (rests Ls) as [|p l]; [simpl in Hc; lia|by exists p, l]. }
  destruct Hr as (p & l & El). change (p :: l) with ([] ++ p :: l) in El.
  destruct (unlink_rest_ok h Ls [] p l Hf El) as (h1 & E & Bt & Eb & Hsz & Hpar & Hrings & Hrest). simpl app in Hrest.
  assert (Hp : p ∈ rests Ls) by (rewrite El; by left). destruct (fo_member _ _ _ _ _ Hf p (member_rest Ls p Hp)) as [Hfp Hvp].
  destruct (fo_rest _ _ _ _ _ Hf) as (R1 & R2 & R3). rewrite El in R1, R2. unfold bits in Bt. injection Bt as B1 B2 B3.
  set (h2 := set_rest_count (if is_large p then rest_count h - 1 else rest_count h) h1).
  destruct (Hrest h2) as [Hf2 Ho2]; try done.
  { simpl. rewrite B1. split; [|done]. apply (fo_bitmap _ _ _ _ _ Hf). } { simpl. destruct (is_large p); lia. }
  destruct (add_free_ok h2 (set_rests Ls l) p) as (h3 & Ls3 & E3 & Hf3 & Ho3 & Hm3 & Er3); try done.
  { unfold h2. change (view (set_rest_count _ h1)) with (view h1). rewrite Hsz; [done|apply (fb_valid _ _ _ _ Hfp)]. }
  { intros [(i & Hi & Hx)|[(i & Hi & Hx)|Hx]]; simpl in Hx; [by destruct (fo_apart _ _ _ _ _ Hf p Hp i Hi)..|]. by apply NoDup_cons in R2 as [? _]. }
  destruct (IH h3 Ls3 Hf3) as (h' & Ls' & E' & Hf' & Ho' & Hm'); [rewrite Er3; simpl; rewrite El in Hlen; simpl in Hlen; lia|].
  exists h', Ls'. split; [|split; [done|split; [|]]].
  - destruct (ring_neighbours _ _ _ _ _ R1) as (N1 & N2 & N3 & N4). apply ring_first in R1 as [N5 _]. simpl in N5.
    destruct (rest_fields base h (fo_base _ _ _ _ _ Hf)) as [_ ->]. rewrite (load_field _ _ _ _ N5). cbn [mbind option_bind].
    rewrite (view_size sz p h Hvp). cbn [mbind option_bind]. change (negb (ZEND_MM_SMALL_SIZE (sz p))) with (is_large p). cbv zeta.
    assert (Eh : (if is_large p then set_rest_count (rest_count h - 1) h else h) = set_rest_count (if is_large p then rest_count h - 1 else rest_count h) h).
    { destruct (is_large p); [done|by destruct h]. }
    rewrite Eh. set (c := if is_large p then rest_count h - 1 else rest_count h) in *. destruct (field_addresses p) as (_ & _ & EP & EN & _). rewrite EP, EN.
    rewrite (load_field (set_rest_count c h) p Pf _ N1), (load_field (set_rest_count c h) p Nf _ N3). cbn [mbind option_bind].
    destruct (field_addresses (prev_of (head_rest base) [])) as (_ & _ & _ & EN' & _). destruct (field_addresses (next_of l (head_rest base))) as (_ & _ & EP' & _).
    rewrite EN', EP'. pose proof (stores_set_rest_count c [(prev_of (head_rest base) [], Nf, next_of l (head_rest base)); (next_of l (head_rest base), Pf, prev_of (head_rest base) [])] h) as Es.
    rewrite E in Es. cbn [fmap option_fmap option_map stores] in Es. destruct (store (at_ _ Nf) _ (set_rest_count c h)) as [ha|]; [|done].
    cbn [mbind option_bind] in *. destruct (store (at_ _ Pf) _ ha) as [hb|]; [|done]. cbn [mbind option_bind] in *. injection Es as ->.
    change (set_rest_count c h1) with h2. rewrite E3. cbn [mbind option_bind]. exact E'.
  - eapply only_links_trans; [exact Ho2|]. by eapply only_links_trans.
  - intros x. rewrite Hm', Hm3. unfold member, set_rests. simpl. rewrite El. simpl. rewrite elem_of_cons. tauto.
Qed.

(** A block is put at the end of the list of rests. *)
Lemma add_rest_ok h Ls b : free_ok h Ls -> free_block b -> view h b Sz = Some (sz b) -> ~ member Ls b ->
  exists h' Ls', zend_mm_add_to_rest_list b h = Some h' /\ free_ok h' Ls' /\ only_links h h'
    /\ forall x, member Ls' x <-> x = b \/ member Ls x.
Proof.
  intros Hf Hb Hsz Hnm. destruct (shrink_ok (base.size (mem h)) h Ls Hf (rests_length h Ls Hf)) as (h1 & Ls1 & E1 & Hf1 & Ho1 & Hm1).
  unfold zend_mm_add_to_rest_list. rewrite E1. cbn [mbind option_bind].
  assert (Hsz1 : view h1 b Sz = Some (sz b)) by (rewrite (only_links_size h h1); [done|done|apply (fb_valid _ _ _ _ Hb)]).
  rewrite (view_size sz b h1 Hsz1). cbn [mbind option_bind]. change (negb (ZEND_MM_SMALL_SIZE (sz b))) with (is_large b).
  assert (Hnm1 : ~ member Ls1 b) by (by rewrite Hm1).
  assert (Hnb : b ∉ head_rest base :: rests Ls1).
  { intros [->|Hx]%elem_of_cons; [|by apply Hnm1, member_rest]. pose proof N_pos.
    by destruct (free_no_head base V sz _ 0 Hb ltac:(lia)) as (_ & _ & ?). }
  assert (H2 : exists h2, (if is_large b then h' ← store (f_parent b) ZEND_MM_REST_BLOCK h1; Some (set_rest_count (rest_count h' + 1) h') else Some h1) = Some h2
    /\ wrote (fun x f => x = b /\ is_large b = true /\ f = Par) h1 h2 /\ (is_large b = true -> view h2 b Par = Some ZEND_MM_REST_BLOCK)
    /\ bits h2 = (free_bitmap h1, large_free_bitmap h1, rest_count h1 + (if is_large b then 1 else 0))).
  { destruct (is_large b) eqn:Hl.
    - destruct (store_field V h1 b Par ZEND_MM_REST_BLOCK V_separate (fo_alloc _ _ _ _ _ Hf1)) as (h2 & E2 & W2 & A2 & B2); [by apply (fb_large _ _ _ _ Hb)|].
      destruct (field_addresses b) as (_ & _ & _ & _ & Ep & _). rewrite Ep, E2. cbn [mbind option_bind]. eexists. split; [reflexivity|]. split; [|split].
      + assert (Hw : wrote (fun x f => x = b /\ true = true /\ f = Par) h1 h2) by (eapply wrote_weaken; [exact W2|]; intros x f [-> ->]; done).
        destruct Hw as [D M O]. by split.
      + intros _. change (view (set_rest_count (rest_count h2 + 1) h2)) with (view h2). rewrite A2 by (by apply (fb_large _ _ _ _ Hb)). apply upd_eq.
      + injection B2 as X1 X2 X3. unfold bits. simpl. by rewrite X1, X2, X3.
    - exists h1. split; [done|]. split; [apply wrote_refl|]. split; [done|]. unfold bits. by rewrite Z.add_0_r. }
  destruct H2 as (h2 & E2 & W2 & P2 & B2). rewrite E2. cbn [mbind option_bind].
  assert (HK2 : forall x f, x = b /\ is_large b = true /\ f = Par -> V x f /\ link f).
  { intros x f (-> & Hl & ->). split; [by apply (fb_large _ _ _ _ Hb)|by apply link_fields; auto]. }
  destruct (fo_rest _ _ _ _ _ Hf1) as (R1 & R2 & R3). pose proof (rest_links Ls1 h1 Hf1) as Hlk. pose proof (rest_nodup Ls1 h1 Hf1) as Hnd.
  assert (R1' : ring (view h2) (head_rest base) (rests Ls1)).
  { apply (kept_ring V V_separate h1 h2 _ HK2 W2); [done|]. intros y Hy. destruct (Hlk y Hy). split_and!; [done|done|by intros (_ & _ & ?)..]. }
  destruct (link_last_ok V V_separate h2 (head_rest base) (rests Ls1) b) as (h3 & E3 & Hr3 & W3 & B3); try done.
  { eapply wrote_allocated; [exact W2|]. apply Hf1. }
  { intros x [->|Hx]%elem_of_cons; [|by apply Hlk]. by destruct (fb_valid _ _ _ _ Hb) as (_ & ? & ?). }
  assert (Eb2 : buckets h2 = base) by (pose proof (wr_others _ _ _ W2) as Ho; injection Ho; intros; rewrite <- (fo_base _ _ _ _ _ Hf1); congruence).
  destruct (rest_fields base h2 Eb2) as [-> _]. apply ring_last in R1' as [L1 L2].
  rewrite (load_field _ _ _ _ L1). cbn [mbind option_bind]. destruct (field_addresses (prev_of (head_rest base) (rests Ls1))) as (_ & _ & _ & En & _).
  rewrite En, (load_field _ _ _ _ L2). cbn [mbind option_bind]. rewrite E3.
  rewrite B2 in B3. unfold bits in B3. injection B3 as B31 B32 B33.
  destruct (change_rests h1 h3 Ls1 (rests Ls1 ++ [b])) as [Hf3 Ho3]; try done.
  - eapply wrote_trans.
    + eapply wrote_weaken; [exact W2|]. intros x f (-> & Hl & ->). right. split; [|done]. apply elem_of_app. right. by left.
    + eapply wrote_weaken; [exact W3|]. intros x f [Hx Hff]. left. split; [|done]. rewrite !elem_of_cons, !elem_of_app in *. rewrite list_elem_of_singleton. tauto.
  - intros x [Hx|Hx%list_elem_of_singleton]%elem_of_app.
    + destruct (fo_member _ _ _ _ _ Hf1 x (member_rest Ls1 x Hx)). auto.
    + subst x. auto.
  - split; [done|]. split.
    + rewrite <- Permutation_cons_append. apply NoDup_cons. split; [|done]. intros Hx. apply Hnb. by right.
    + assert (HK3 : forall x f, x ∈ b :: head_rest base :: rests Ls1 /\ (f = Pf \/ f = Nf) -> V x f /\ link f).
      { intros x f [Hx Hff]. split; [|apply link_fields; tauto]. apply elem_of_cons in Hx as [->|Hx].
        - destruct (fb_valid _ _ _ _ Hb) as (_ & ? & ?). by destruct Hff as [-> | ->].
        - destruct (Hlk x Hx). by destruct Hff as [-> | ->]. }
      intros x Hx Hlx. assert (Hfx : free_block x /\ view h2 x Par = Some ZEND_MM_REST_BLOCK).
      { apply elem_of_app in Hx as [Hx|Hx%list_elem_of_singleton]; [|subst x; auto]. destruct (fo_member _ _ _ _ _ Hf1 x (member_rest Ls1 x Hx)) as [Hfx _].
        split; [done|]. rewrite (kept_view V V_separate h1 h2 _ HK2 W2); [by apply R3|by apply (fb_large _ _ _ _ Hfx)|]. intros (-> & _). apply Hnb. by right. }
      destruct Hfx as [Hfx Hpx]. rewrite (kept_view V V_separate h2 h3 _ HK3 W3); [done|by apply (fb_large _ _ _ _ Hfx)|by intros [_ [?|?]]].
  - rewrite B31. split; [|done]. apply (fo_bitmap _ _ _ _ _ Hf1).
  - rewrite B33, (fo_count _ _ _ _ _ Hf1), (count_split (rests Ls1) b []). by rewrite app_nil_r.
  - eexists h3, _. split; [done|]. split; [exact Hf3|]. split; [by eapply only_links_trans|]. intros x. rewrite <- (Hm1 x). unfold member, set_rests. simpl.
    rewrite elem_of_app, list_elem_of_singleton. tauto.
Qed.
End Take.
