(* ===== verification/AllocPick.v ===== *)
(** * AllocPick: which free block an allocation takes *)
From S2P Require Import Prelude ZendAlloc AllocBits AllocRing AllocTrie AllocCut AllocRemove AllocSearch AllocFree AllocTake.

Section Pick.
Context `{SizeT}.
Abbreviation N := ZEND_MM_NUM_BUCKETS.
Abbreviation MIN := ZEND_MM_ALIGNED_MIN_HEADER_SIZE.
Variable base : Z.
Variable V : Z -> fld -> Prop.
Hypothesis V_separate : separate V.
Variable sz : Z -> Z.
Hypothesis Hheads : heads_valid base V.

Abbreviation free_ok := (free_ok base V sz).
Abbreviation free_block := (free_block base V sz).

(** The list of rests is looked through from its end. *)
Lemma search_rest_ok h Ls true_size : free_ok h Ls -> forall l1 l2 fuel best_fit best_size, rests Ls = l1 ++ l2 -> (length l1 <= fuel)%nat ->
  (best_fit = NULL \/ best_fit ∈ rests Ls /\ true_size <= sz best_fit) ->
  exists b, search_rest fuel true_size (prev_of (head_rest base) l1) best_fit best_size h = Some b
    /\ (b = NULL \/ b ∈ rests Ls /\ true_size <= sz b).
Proof.
  intros Hf l1. pose proof (fo_base _ _ _ _ _ Hf) as Hbase. induction l1 as [|p l1 IH] using rev_ind; intros l2 fuel bf bs El Hlen Hb.
  - exists bf. split; [|done]. destruct fuel; simpl; rewrite (rest_address base) by done; by rewrite Z.eqb_refl.
  - unfold prev_of. rewrite last_snoc. rewrite length_app in Hlen. simpl in Hlen. destruct fuel as [|fuel]; [lia|].
    rewrite <- app_assoc in El. simpl in El. assert (Hp : p ∈ rests Ls) by (rewrite El; set_solver +).
    destruct (fo_member _ _ _ _ _ Hf p (member_rest Ls p Hp)) as [Hfp Hvp]. cbn [search_rest]. rewrite (rest_address base) by done.
    assert (Hph : p <> head_rest base) by (pose proof N_pos; by destruct (free_no_head base V sz p 0 Hfp ltac:(lia)) as (_ & _ & ?)).
    rewrite (proj2 (Z.eqb_neq p _)) by done. rewrite (view_size sz p h Hvp). cbn [mbind option_bind].
    destruct (Z.eqb_spec (sz p) true_size) as [Es|Es]; [exists p; split; [done|right; split; [done|lia]]|].
    destruct (fo_rest _ _ _ _ _ Hf) as (R1 & _ & _). rewrite El in R1. destruct (ring_neighbours _ _ _ _ _ R1) as (N1 & _).
    destruct (field_addresses p) as (_ & _ & EP & _). rewrite EP, (load_field _ _ _ _ N1). cbn [mbind option_bind].
    apply (IH (p :: l2)); [done|lia|]. destruct (Z.ltb_spec true_size (sz p)) as [Hlt|]; simpl; [|done].
    destruct (_ <? _); [|done]. right. split; [done|lia].
Qed.

(** The block that is found is free and large enough. *)
Lemma search_block_ok h Ls true_size : free_ok h Ls -> true_size mod 8 = 0 -> MIN <= true_size < 2 ^ N ->
  exists b, search_block true_size h = Some b /\ (b = NULL \/ member Ls b /\ true_size <= sz b).
Proof.
  intros Hf Hal Hts. pose proof Hf as [F1 F2 F3 F4 F5 F6 F7 F8 F9 F10]. pose proof consts as C. unfold search_block.
  destruct (ZEND_MM_SMALL_SIZE true_size && negb (Z.shiftr (free_bitmap h) (ZEND_MM_BUCKET_INDEX true_size) =? 0)) eqn:Ec.
  - apply andb_true_iff in Ec as [Esm Ebm]. apply negb_true_iff, Z.eqb_neq in Ebm. apply small_size_spec in Esm.
    destruct (bucket_index true_size Hal) as [Hi Es]; [lia|]. set (index := ZEND_MM_BUCKET_INDEX true_size) in *.
    destruct F8 as [F8 F8'].
    assert (Hr : 0 < Z.shiftr (free_bitmap h) index < 2 ^ N).
    { rewrite Z.shiftr_div_pow2 in * by lia. pose proof (Z.pow_pos_nonneg 2 index ltac:(lia) ltac:(lia)).
      pose proof (Z.div_pos (free_bitmap h) (2 ^ index)).
      pose proof (Z.div_le_upper_bound (free_bitmap h) (2 ^ index) (free_bitmap h) ltac:(lia) ltac:(nia)). lia. }
    destruct (low_bit_ok _ Hr) as (j & Ej & (Hj0 & Hj & _) & HjN). rewrite Ej. cbn [mbind option_bind].
    rewrite Z.shiftr_spec in Hj by done. set (i := index + j). replace (j + index) with i in Hj by lia.
    assert (HiN : 0 <= i < N).
    { split; [lia|]. destruct (Z.lt_ge_cases i N) as [|Hge]; [done|]. rewrite (Z.bits_above_log2 (free_bitmap h) i) in Hj; [done|lia|].
      destruct (Z.eq_dec (free_bitmap h) 0) as [E0|Hnz]; [rewrite E0, Z.bits_0 in Hj; done|].
      enough (Z.log2 (free_bitmap h) < N) by lia. apply Z.log2_lt_pow2; lia. }
    pose proof (F8' i HiN Hj) as Hne. destruct (F4 i HiN) as (R1 & R2 & R3). apply ring_last in R1 as [L1 _].
    destruct (head_fields base h i F1) as [-> _]. rewrite (load_field _ _ _ _ L1). eexists. split; [reflexivity|]. right.
    assert (Hin : prev_of (head base i) (small Ls i) ∈ small Ls i).
    { destruct (small Ls i) as [|y l _] using rev_ind; [done|]. unfold prev_of. rewrite last_snoc. set_solver +. }
    split; [by apply (member_small Ls i)|]. rewrite (R3 _ Hin). lia.
  - destruct (search_large_ok sz h (root_slot base) (large Ls) true_size (free_tries base V sz h Ls Hf) ltac:(lia)) as (b & Eb & Hb).
    rewrite Eb. cbn [mbind option_bind]. destruct ((b =? NULL) && _) eqn:E2.
    + destruct (rest_fields base h F1) as [-> _]. destruct F6 as (R1 & _ & _). apply ring_last in R1 as [L1 _].
      rewrite (load_field _ _ _ _ L1). cbn [mbind option_bind].
      destruct (search_rest_ok h Ls true_size Hf (rests Ls) [] (base.size (mem h)) NULL (size_t (-1))) as (c & Ec' & Hc); [by rewrite app_nil_r| |by left|].
      { by apply (rests_length base V sz h Ls). }
      exists c. split; [done|]. destruct Hc as [?|[? ?]]; [by left|right]. split; [by apply member_rest|done].
    + exists b. split; [done|]. destruct Hb as [[? _]|(i & Hi & Hb & Hle)]; [by left|right]. split; [by apply (member_large Ls i)|done].
Qed.
End Pick.
