(* ===== verification/AllocMap.v ===== *)
(** * AllocMap: free blocks as a map from addresses to sizes

    The memory a set of free blocks and the list heads take up does not
    overlap, so the results on the lists apply; they are put here in terms of
    the map. *)
From S2P Require Import Prelude ZendAlloc AllocBits AllocRing AllocTrie AllocCut AllocRemove AllocSearch AllocFree AllocTake AllocPick.

Section Map.
Context `{SizeT}.
Abbreviation N := ZEND_MM_NUM_BUCKETS.
Abbreviation MIN := ZEND_MM_ALIGNED_MIN_HEADER_SIZE.
Variable base : Z.

(** The words of [s] bytes from [x] on. *)
Definition words (m : gmap Z Z) (x s : Z) : Prop := forall k, 0 <= k -> (k + 1) * W <= s -> is_Some (m !! (x + k * W)).
Definition arrays_size : Z := (3 * N + 2) * W.
Definition apart (x s y t : Z) : Prop := x + s <= y \/ y + t <= x.

Section Of.
Variable F : gmap Z Z.
Definition size_of (x : Z) : Z := default 0 (F !! x).
Definition valid (x : Z) (f : fld) : Prop :=
  (exists i, 0 <= i < N /\ (x = head base i /\ (f = Pf \/ f = Nf) \/ (x, f) = root_slot base i))
  \/ x = head_rest base /\ (f = Pf \/ f = Nf)
  \/ (exists s, F !! x = Some s /\ off f + W <= s).
Record map_ok (m : gmap Z Z) : Prop := {
  mo_base : 1 < base;
  mo_arrays : words m base arrays_size;
  mo_block : forall x s, F !! x = Some s -> 0 < x /\ s mod 8 = 0 /\ MIN <= s < 2 ^ N /\ words m x s;
  mo_apart : forall x s y t, F !! x = Some s -> F !! y = Some t -> x <> y -> apart x s y t;
  mo_arrays_apart : forall x s, F !! x = Some s -> apart x s base arrays_size
}.

Lemma off_range f : 0 <= off f <= 6 * W.
Proof. pose proof consts. destruct f; simpl; lia. Qed.
Lemma off_inj f e : off f = off e -> f = e.
Proof. pose proof consts. destruct f, e; simpl; intros ?; (done || lia). Qed.

(** Where a field that may be written to is. *)
Lemma valid_place m x f : map_ok m -> valid x f ->
  (exists s, F !! x = Some s /\ x <= at_ x f /\ at_ x f + W <= x + s)
  \/ (exists k, 0 <= k < 3 * N + 2 /\ at_ x f = base + k * W /\
       ((exists i, 0 <= i < N /\ (x = head base i /\ (f = Pf /\ k = 2 * i \/ f = Nf /\ k = 2 * i + 1)
                                 \/ (x, f) = root_slot base i /\ k = 2 * N + i))
        \/ x = head_rest base /\ (f = Pf /\ k = 3 * N \/ f = Nf /\ k = 3 * N + 1))).
Proof.
  pose proof N_pos. intros Hm [(i & Hi & [[-> Hf]|E])|[[-> Hf]|(s & Hs & Hf)]].
  - right. unfold at_, head. destruct Hf as [-> | ->]; simpl; [exists (2 * i)|exists (2 * i + 1)]; (split; [lia|split; [lia|]]); left; exists i; auto 10.
  - right. exists (2 * N + i). injection E as -> ->. unfold at_. simpl. split; [lia|]. split; [lia|]. left. exists i. split; [done|]. right. done.
  - right. unfold at_, head_rest. destruct Hf as [-> | ->]; simpl; [exists (3 * N)|exists (3 * N + 1)]; (split; [lia|split; [lia|]]); right; auto 10.
  - left. exists s. split; [done|]. unfold at_. pose proof (off_range f). lia.
Qed.

Lemma block_not_in_arrays m x s k : map_ok m -> F !! x = Some s -> 0 <= k < 3 * N + 2 -> base + k * W + W <= x \/ x + s <= base + k * W.
Proof.
  intros Hm Hx Hk. pose proof consts as C. destruct (mo_arrays_apart _ Hm x s Hx) as [?|Hle]; unfold arrays_size in *; [right|left]; nia.
Qed.

Lemma valid_separate m : map_ok m -> separate valid.
Proof.
  intros Hm x f y e Hx Hy Ea. pose proof consts as C. pose proof N_pos.
  destruct (valid_place m x f Hm Hx) as [(s & Hs & P1 & P2)|(k & Hk & P1 & P2)];
    destruct (valid_place m y e Hm Hy) as [(t & Ht & Q1 & Q2)|(k' & Hk' & Q1 & Q2)].
  - destruct (decide (x = y)) as [->|Hne]; [split; [done|apply off_inj; unfold at_ in Ea; lia]|].
    destruct (mo_apart _ Hm x s y t Hs Ht Hne); lia.
  - exfalso. destruct (block_not_in_arrays m x s k' Hm Hs Hk'); lia.
  - exfalso. destruct (block_not_in_arrays m y t k Hm Ht Hk); lia.
  - assert (k = k') by nia. subst k'.
    destruct P2 as [(i & Hi & [[-> P2]|[P2 Ek]])|[-> P2]]; destruct Q2 as [(j & Hj & [[-> Q2]|[Q2 Ek']])|[-> Q2]];
      try (exfalso; lia).
    + assert (i = j) by lia. subst j. split; [done|]. intuition (congruence || lia).
    + assert (i = j) by lia. subst j. rewrite <- Q2 in P2. by injection P2.
    + split; [done|]. intuition (congruence || lia).
Qed.

Lemma valid_allocated h : map_ok (mem h) -> allocated valid h.
Proof.
  intros Hm x f Hx. destruct (valid_place _ x f Hm Hx) as [(s & Hs & P1 & P2)|(k & Hk & P1 & P2)].
  - destruct (mo_block _ Hm x s Hs) as (_ & _ & _ & Hw). unfold at_ in *.
    assert (Ek : exists k, 0 <= k /\ off f = k * W) by (destruct f; simpl; [exists 0|exists 1|exists 2|exists 3|exists 4|exists 5|exists 6]; lia).
    destruct Ek as (k & Hk & Ek). rewrite Ek in *. apply Hw; lia.
  - rewrite P1. apply (mo_arrays _ Hm); [lia|]. unfold arrays_size. pose proof consts. nia.
Qed.

Lemma valid_heads m : map_ok m -> heads_valid base valid.
Proof.
  intros Hm. split.
  - intros i Hi. split; left; exists i; auto.
  - intros i Hi. split; [left; exists i; split; [done|right; by destruct (root_slot base i)]|].
    pose proof (mo_base _ Hm). pose proof consts. pose proof N_pos. unfold saddr, at_, root_slot. simpl. nia.
  - split; right; left; auto.
Qed.

Lemma valid_block m x s : map_ok m -> F !! x = Some s -> free_block base valid size_of x.
Proof.
  intros Hm Hx. destruct (mo_block _ Hm x s Hx) as (H0 & H1 & H2 & _). pose proof consts as C. pose proof N_pos.
  assert (Es : size_of x = s) by (unfold size_of; by rewrite Hx).
  split; rewrite ?Es; try done.
  - split_and!; right; right; exists s; (split; [done|simpl; lia]).
  - unfold is_large. rewrite Es. intros Hl%negb_true_iff f. unfold ZEND_MM_SMALL_SIZE in Hl. apply Z.ltb_ge in Hl.
    right. right. exists s. split; [done|]. pose proof (off_range f). lia.
  - pose proof (mo_arrays_apart _ Hm x s Hx) as Ha. unfold apart, arrays_size in Ha.
    split; [intros i Hi; split|]; intros ->; unfold head, root_slot, head_rest in Ha; simpl in Ha; nia.
Qed.
End Of.

(** ** The lists over a map *)
Definition free_in (F : gmap Z Z) (h : mm_heap) (Ls : lists) : Prop :=
  map_ok F (mem h) /\ free_ok base (valid F) (size_of F) h Ls /\ forall x, member Ls x <-> is_Some (F !! x).
Definition link_writes (F : gmap Z Z) (h h' : mm_heap) : Prop := only_links (valid F) h h'.

Lemma trie_ext sz sz' index t : forall d pfx, (forall x, x ∈ nodes t -> sz' x = sz x) -> trie sz index d pfx t -> trie sz' index d pfx t.
Proof.
  induction t as [|b same l IHl r IHr]; intros d pfx He Ht; [done|]. simpl in *.
  assert (Hb : sz' b = sz b) by (apply He; by left). destruct Ht as (H1 & H2 & H3 & H4 & H5). rewrite Hb. split_and!; try done.
  - intros x Hx. rewrite He; [by apply H3|]. right. apply elem_of_app. by left.
  - apply IHl; [|done]. intros x Hx. apply He. right. rewrite !elem_of_app. auto.
  - apply IHr; [|done]. intros x Hx. apply He. right. rewrite !elem_of_app. auto.
Qed.
Lemma count_ext sz sz' l : (forall x, x ∈ l -> sz' x = sz x) -> length (filter (is_large sz') l) = length (filter (is_large sz) l).
Proof.
  induction l as [|x l IH]; intros He; [done|]. rewrite !filter_cons.
  assert (E : is_large sz' x = is_large sz x) by (unfold is_large; rewrite He; [done|by left]).
  assert (IH' : length (filter (is_large sz') l) = length (filter (is_large sz) l)) by (apply IH; intros y Hy; apply He; by right).
  repeat case_decide; simpl; try congruence; rewrite E in *; done.
Qed.

(** The lists do not depend on what else is in the map. *)
Lemma free_ok_map F F' h Ls : free_ok base (valid F) (size_of F) h Ls -> map_ok F' (mem h) ->
  (forall x, member Ls x -> F' !! x = F !! x /\ is_Some (F !! x)) -> free_ok base (valid F') (size_of F') h Ls.
Proof.
  intros [F1 F2 F3 F4 F5 F6 F7 F8 F9 F10] Hm Hin.
  assert (Hs : forall x, member Ls x -> size_of F' x = size_of F x) by (intros x Hx; unfold size_of; by rewrite (proj1 (Hin x Hx))).
  assert (Hl : forall x, member Ls x -> is_large (size_of F') x = is_large (size_of F) x) by (intros x Hx; unfold is_large; by rewrite Hs).
  split; try done.
  - by apply valid_allocated.
  - intros x Hx. destruct (F3 x Hx) as [_ Hv]. rewrite Hs by done. split; [|done]. destruct (Hin x Hx) as [E [s Es]].
    rewrite Es in E. by apply (valid_block F' (mem h) x s).
  - intros i Hi. destruct (F4 i Hi) as (R1 & R2 & R3). split; [done|]. split; [done|]. intros x Hx. rewrite Hs; [by apply R3|by apply (member_small Ls i)].
  - intros i Hi. destruct (F5 i Hi) as (R1 & R2 & R3 & R4). split; [done|]. split; [|split; [done|]].
    + eapply trie_ext; [|exact R2]. intros x Hx. by apply Hs, (member_large Ls i).
    + intros x Hx. rewrite Hl; [by apply R4|by apply (member_large Ls i)].
  - destruct F6 as (R1 & R2 & R3). split; [done|]. split; [done|]. intros x Hx Hlx. apply R3; [done|]. rewrite <- Hl; [done|by apply member_rest].
  - rewrite F10. f_equal. symmetry. apply count_ext. intros x Hx. by apply Hs, member_rest.
Qed.

(** Header words are not part of the lists, but for the sizes. *)
Lemma map_ok_mem F m m' : map_ok F m -> (forall a, is_Some (m' !! a) <-> is_Some (m !! a)) -> map_ok F m'.
Proof.
  intros [M1 M2 M3 M4 M5] Hd. split; try done.
  - intros k Hk Hk'. apply Hd. by apply M2.
  - intros x s Hx. destruct (M3 x s Hx) as (? & ? & ? & Hw). split; [done|]. split; [done|]. split; [done|]. intros k Hk Hk'; apply Hd; by apply Hw.
Qed.
Lemma free_in_frame F h h' Ls : free_in F h Ls -> map_ok F (mem h') ->
  (forall x f, valid F x f -> f <> Pv -> mem h' !! at_ x f = mem h !! at_ x f) -> buckets h' = buckets h -> bits h' = bits h -> free_in F h' Ls.
Proof.
  intros (Hm & Hf & Hin) Hm' Hv Eb Eh. pose proof Hf as [F1 F2 F3 F4 F5 F6 F7 F8 F9 F10]. unfold bits in Eh. injection Eh as E1 E2 E3.
  pose proof (valid_heads _ _ Hm) as Hh.
  assert (Hr : forall x l, ring (view h) x l -> (forall y, y ∈ x :: l -> valid F y Pf /\ valid F y Nf) -> ring (view h') x l).
  { intros x l Hr Hl. eapply ring_frame; [exact Hr|]. intros y Hy. destruct (Hl y Hy). split; by apply Hv. }
  assert (Hb : forall x, member Ls x -> valid F x Sz /\ valid F x Pf /\ valid F x Nf) by (intros x Hx; destruct (F3 x Hx) as [Hfx _]; apply Hfx).
  split; [done|]. split; [|done]. split; try done; try congruence.
  - by apply valid_allocated.
  - intros x Hx. destruct (F3 x Hx) as [Hfx Hsz]. split; [done|]. unfold view in *. rewrite Hv; [done|by apply Hb|done].
  - intros i Hi. destruct (F4 i Hi) as (R1 & R2). split; [|done]. apply Hr; [done|]. intros y [->|Hy]%elem_of_cons; [by apply Hh|]. by apply Hb, (member_small Ls i).
  - intros i Hi. destruct (F5 i Hi) as (R1 & R2 & R3 & R4). split; [|done]. eapply at_tree_frame; [exact R1|apply Hv; [by apply Hh|done]|].
    intros x f Hx [_ Hl]. apply Hv; [|done]. destruct (F3 x (member_large Ls i x Hi Hx)) as [Hfx _]. by apply (fb_large _ _ _ _ Hfx), R4.
  - destruct F6 as (R1 & R2 & R3). split; [|split; [done|]].
    + apply Hr; [done|]. intros y [->|Hy]%elem_of_cons; [by apply Hh|]. by apply Hb, member_rest.
    + intros x Hx Hl. unfold view. rewrite Hv; [by apply R3| |done]. destruct (F3 x (member_rest Ls x Hx)) as [Hfx _]. by apply (fb_large _ _ _ _ Hfx).
  - by rewrite E1.
  - by rewrite E2.
Qed.

Lemma free_in_mem F h h' Ls : free_in F h Ls -> (forall a, is_Some (mem h' !! a) <-> is_Some (mem h !! a)) ->
  (forall x f, valid F x f -> f <> Pv -> mem h' !! at_ x f = mem h !! at_ x f) -> buckets h' = buckets h -> bits h' = bits h -> free_in F h' Ls.
Proof. intros Hf Hd. apply free_in_frame; [done|]. eapply map_ok_mem; [apply Hf|done]. Qed.

Lemma map_ok_delete F m x : map_ok F m -> map_ok (delete x F) m.
Proof.
  intros [M1 M2 M3 M4 M5]. split; try done.
  - intros y s Hy. apply lookup_delete_Some in Hy as [_ Hy]. by apply M3.
  - intros y s z t Hy Hz. apply lookup_delete_Some in Hy as [_ Hy]. apply lookup_delete_Some in Hz as [_ Hz]. by apply M4.
  - intros y s Hy. apply lookup_delete_Some in Hy as [_ Hy]. by apply M5.
Qed.
Lemma link_writes_dom F h h' a : link_writes F h h' -> is_Some (mem h' !! a) <-> is_Some (mem h !! a).
Proof. intros Hw. apply (wr_dom _ _ _ Hw). Qed.

Lemma add_map_ok add F h Ls b s :
  (forall V sz, separate V -> heads_valid base V -> forall h Ls b, free_ok base V sz h Ls -> free_block base V sz b -> view h b Sz = Some (sz b) -> ~ member Ls b ->
    exists h' Ls', add b h = Some h' /\ free_ok base V sz h' Ls' /\ only_links V h h' /\ forall x, member Ls' x <-> x = b \/ member Ls x) ->
  free_in F h Ls -> F !! b = None -> map_ok (<[b := s]> F) (mem h) -> mem h !! b = Some s ->
  exists h' Ls', add b h = Some h' /\ free_in (<[b := s]> F) h' Ls' /\ link_writes (<[b := s]> F) h h'.
Proof.
  intros Hadd (Hm & Hf & Hin) Hb Hm' Hs.
  assert (Hf' : free_ok base (valid (<[b := s]> F)) (size_of (<[b := s]> F)) h Ls).
  { apply (free_ok_map F); [done|done|]. intros x Hx. apply Hin in Hx as [t Ht]. split; [|by exists t]. apply lookup_insert_ne. congruence. }
  assert (Es : size_of (<[b := s]> F) b = s) by (unfold size_of; by rewrite lookup_insert_eq).
  destruct (Hadd (valid (<[b := s]> F)) (size_of (<[b := s]> F)) (valid_separate _ _ Hm') (valid_heads _ _ Hm') h Ls b Hf') as (h' & Ls' & E & Hf2 & Ho & Hin2).
  - apply (valid_block _ (mem h) _ s); [done|]. apply lookup_insert_eq.
  - unfold view, at_. simpl. by rewrite Z.add_0_r, Es.
  - rewrite Hin, Hb. by intros [? ?].
  - exists h', Ls'. split; [done|]. split; [|done]. split; [|split; [done|]].
    + eapply map_ok_mem; [exact Hm'|]. intros a. by eapply link_writes_dom.
    + intros x. rewrite Hin2, Hin. destruct (decide (x = b)) as [->|Hne].
      * rewrite lookup_insert_eq. split; [by eauto|by left].
      * rewrite lookup_insert_ne by done. split; [by intros [?|?]|by right].
Qed.

Lemma add_map F h Ls b s : free_in F h Ls -> F !! b = None -> map_ok (<[b := s]> F) (mem h) -> mem h !! b = Some s ->
  exists h' Ls', zend_mm_add_to_free_list b h = Some h' /\ free_in (<[b := s]> F) h' Ls' /\ link_writes (<[b := s]> F) h h'.
Proof.
  apply add_map_ok. intros V sz HV Hh h0 Ls0 b0 Hf Hb Hs Hn.
  destruct (add_free_ok base V HV sz Hh h0 Ls0 b0 Hf Hb Hs Hn) as (h' & Ls' & E & Hf' & Ho & Hin & _). by exists h', Ls'.
Qed.
Lemma add_rest_map F h Ls b s : free_in F h Ls -> F !! b = None -> map_ok (<[b := s]> F) (mem h) -> mem h !! b = Some s ->
  exists h' Ls', zend_mm_add_to_rest_list b h = Some h' /\ free_in (<[b := s]> F) h' Ls' /\ link_writes (<[b := s]> F) h h'.
Proof.
  apply add_map_ok. intros V sz HV Hh h0 Ls0 b0 Hf Hb Hs Hn.
  destruct (add_rest_ok base V HV sz Hh h0 Ls0 b0 Hf Hb Hs Hn) as (h' & Ls' & E & Hf' & Ho & Hin). by exists h', Ls'.
Qed.
Lemma remove_map F h Ls b : free_in F h Ls -> is_Some (F !! b) ->
  exists h' Ls', zend_mm_remove_from_free_list b h = Some h' /\ free_in (delete b F) h' Ls' /\ link_writes F h h'.
Proof.
  intros (Hm & Hf & Hin) Hb.
  destruct (remove_ok base (valid F) (valid_separate _ _ Hm) (size_of F) (valid_heads _ _ Hm) h Ls b Hf) as (h' & Ls' & E & Hf' & Ho & Hin'); [by apply Hin|].
  assert (Hm' : map_ok (delete b F) (mem h')).
  { apply map_ok_delete. eapply map_ok_mem; [exact Hm|]. intros a. by eapply link_writes_dom. }
  exists h', Ls'. split; [done|]. split; [|done]. split; [done|]. split.
  - apply (free_ok_map F); [done|done|]. intros x [Hx Hne]%Hin'. split; [by apply lookup_delete_ne|by apply Hin].
  - intros x. rewrite Hin', Hin. destruct (decide (x = b)) as [->|Hne].
    + rewrite lookup_delete_eq. split; [by intros [_ ?]|by intros [? ?]].
    + rewrite lookup_delete_ne by done. tauto.
Qed.

(** A search finds a free block of at least that size, if it finds one. *)
Lemma search_map F h Ls true_size : free_in F h Ls -> true_size mod 8 = 0 -> MIN <= true_size < 2 ^ N ->
  exists b, search_block true_size h = Some b /\ (b = NULL \/ exists s, F !! b = Some s /\ true_size <= s).
Proof.
  intros (Hm & Hf & Hin) Hal Hts.
  destruct (search_block_ok base (valid F) (size_of F) h Ls true_size Hf Hal Hts) as (b & E & Hb). exists b. split; [done|].
  destruct Hb as [?|[Hb Hle]]; [by left|right]. apply Hin in Hb as [s Hs]. exists s. split; [done|]. unfold size_of in Hle. by rewrite Hs in Hle.
Qed.
End Map.
