(* ===== verification/AllocLayout.v ===== *)
(** * AllocLayout: segments and blocks

    A segment is its header, its blocks one after the other, and a guard.  A
    block's header holds its own size and type and those of the block before
    it. *)
From S2P Require Import Prelude ZendAlloc AllocBits AllocRing AllocTrie AllocCut AllocRemove AllocSearch AllocFree AllocTake AllocPick AllocMap.

Record blk := Blk { b_at : Z; b_size : Z; b_free : bool }.
(** Segments about whose headers nothing is known, because a free block has left
    its list and stays where it is: there are none but after a request that the
    storage manager refuses. *)
Class Torn := torn : Z -> Prop.

Section Layout.
Context `{SizeT} {TN : Torn}.
Abbreviation N := ZEND_MM_NUM_BUCKETS.
Abbreviation MIN := ZEND_MM_ALIGNED_MIN_HEADER_SIZE.
Abbreviation HDR := ZEND_MM_ALIGNED_HEADER_SIZE.
Abbreviation SEG := ZEND_MM_ALIGNED_SEGMENT_SIZE.

Definition total (l : list blk) : Z := foldr (fun b n => b_size b + n) 0 l.
Definition seg_len (l : list blk) : Z := SEG + total l + HDR.
Fixpoint tiled (a : Z) (l : list blk) : Prop :=
  match l with [] => True | b :: l => b_at b = a /\ tiled (a + b_size b) l end.
Definition sized (l : list blk) : Prop := forall b, b ∈ l -> b_size b mod 8 = 0 /\ MIN <= b_size b.
(** No two free blocks are neighbours. *)
Fixpoint coalesced (l : list blk) : Prop :=
  match l with
  | b :: ((c :: _) as l') => (b_free b = true -> b_free c = false) /\ coalesced l'
  | _ => True
  end.

(** The first word of a header. *)
Definition word (b : blk) : Z := b_size b + (if b_free b then ZEND_MM_FREE_BLOCK else ZEND_MM_USED_BLOCK).
(** [p] is the word of the block before. *)
Fixpoint headers (m : gmap Z Z) (p : Z) (l : list blk) : Prop :=
  match l with
  | [] => True
  | b :: l => m !! b_at b = Some (word b) /\ m !! (b_at b + W) = Some p /\ headers m (word b) l
  end.
Fixpoint last_word (p : Z) (l : list blk) : Z := match l with [] => p | b :: l => last_word (word b) l end.

Lemma total_app l1 l2 : total (l1 ++ l2) = total l1 + total l2.
Proof. induction l1 as [|b l1 IH]; simpl; lia. Qed.
Lemma total_cons b l : total (b :: l) = b_size b + total l.
Proof. done. Qed.
Lemma tiled_app l1 : forall a l2, tiled a (l1 ++ l2) <-> tiled a l1 /\ tiled (a + total l1) l2.
Proof.
  induction l1 as [|b l1 IH]; intros a l2; simpl; [rewrite Z.add_0_r; tauto|]. rewrite IH. rewrite Z.add_assoc. tauto.
Qed.
Lemma headers_app m l1 : forall p l2, headers m p (l1 ++ l2) <-> headers m p l1 /\ headers m (last_word p l1) l2.
Proof. induction l1 as [|b l1 IH]; intros p l2; simpl; [tauto|]. rewrite IH. tauto. Qed.
Lemma last_word_app l1 : forall p l2, last_word p (l1 ++ l2) = last_word (last_word p l1) l2.
Proof. induction l1 as [|b l1 IH]; intros p l2; simpl; [done|]. apply IH. Qed.
Lemma headers_frame m m' l : forall p, headers m p l -> (forall b, b ∈ l -> m' !! b_at b = m !! b_at b /\ m' !! (b_at b + W) = m !! (b_at b + W)) ->
  headers m' p l.
Proof.
  induction l as [|b l IH]; intros p Hh Hf; [done|]. simpl in *. destruct Hh as (H1 & H2 & H3).
  destruct (Hf b) as [-> ->]; [by left|]. split_and!; [done..|]. apply IH; [done|]. intros c Hc. apply Hf. by right.
Qed.
Lemma sized_app l1 l2 : sized (l1 ++ l2) <-> sized l1 /\ sized l2.
Proof. unfold sized. setoid_rewrite elem_of_app. split; [intros Hs; split; intros b Hb; auto|intros [H1 H2] b [Hb|Hb]; auto]. Qed.
Lemma sized_total l : sized l -> 0 <= total l /\ total l mod 8 = 0.
Proof.
  induction l as [|b l IH]; intros Hs; [done|]. destruct (Hs b) as [Hm Hb]; [by left|].
  destruct IH as [IH1 IH2]; [intros c Hc; apply Hs; by right|]. pose proof consts. simpl. split; [lia|].
  rewrite Z.add_mod, Hm, IH2 by lia. done.
Qed.
Lemma coalesced_app l1 b l2 : coalesced (l1 ++ b :: l2) <-> coalesced (l1 ++ [b]) /\ coalesced (b :: l2).
Proof.
  induction l1 as [|c l1 IH]; [simpl; tauto|]. destruct l1 as [|d l1]; [simpl; tauto|].
  change ((c :: d :: l1) ++ b :: l2) with (c :: d :: l1 ++ b :: l2). change ((c :: d :: l1) ++ [b]) with (c :: d :: l1 ++ [b]).
  simpl in IH |- *. rewrite IH. tauto.
Qed.

(** Where the blocks are. *)
Lemma tiled_in l : forall a b, tiled a l -> sized l -> b ∈ l -> a <= b_at b /\ b_at b + b_size b <= a + total l /\ (b_at b - a) mod 8 = 0.
Proof.
  induction l as [|c l IH]; intros a b Ht Hs Hb; [by apply not_elem_of_nil in Hb|].
  assert (Hs' : sized l) by (intros d Hd; apply Hs; by right). destruct Ht as [Hc Ht]. destruct (Hs c) as [Hm Hmin]; [by left|]. pose proof consts.
  pose proof (sized_total l Hs') as [Hn _]. simpl total. apply elem_of_cons in Hb as [->|Hb].
  - replace (b_at c - a) with 0 by lia. split; [lia|]. split; [lia|done].
  - destruct (IH _ b Ht Hs' Hb) as (H1 & H2 & H3). split; [lia|]. split; [lia|].
    replace (b_at b - a) with (b_at b - (a + b_size c) + b_size c) by lia. rewrite Z.add_mod, H3, Hm by lia. done.
Qed.
Lemma tiled_apart l : forall a b c, tiled a l -> sized l -> b ∈ l -> c ∈ l -> b = c \/ apart (b_at b) (b_size b) (b_at c) (b_size c).
Proof.
  induction l as [|d l IH]; intros a b c Ht Hs Hb Hc; [by apply not_elem_of_nil in Hb|].
  assert (Hs' : sized l) by (intros e He; apply Hs; by right). destruct Ht as [Hd Ht].
  apply elem_of_cons in Hb as [->|Hb]; apply elem_of_cons in Hc as [->|Hc]; [by left| | |by apply (IH _ b c Ht)]; right; unfold apart.
  - destruct (tiled_in l _ c Ht Hs' Hc). left. lia.
  - destruct (tiled_in l _ b Ht Hs' Hb). right. lia.
Qed.
Lemma tiled_unique l a b c : tiled a l -> sized l -> b ∈ l -> c ∈ l -> b_at b = b_at c -> b = c.
Proof.
  intros Ht Hs Hb Hc E. destruct (tiled_apart l a b c Ht Hs Hb Hc) as [?|Ha]; [done|]. exfalso.
  destruct (Hs b Hb) as [_ ?]. destruct (Hs c Hc) as [_ ?]. pose proof consts. unfold apart in Ha. lia.
Qed.

Lemma words_in m a n x s : words m a n -> a <= x -> x + s <= a + n -> (x - a) mod 8 = 0 -> words m x s.
Proof.
  intros Hw Ha Hn Hm k Hk Hks. pose proof consts as C.
  assert (Ej : exists j, x - a = j * W).
  { pose proof (Z.div_mod (x - a) 8 ltac:(lia)) as E. rewrite Hm in E. destruct C as [[Ew|Ew] _]; [exists (2 * ((x - a) / 8))|exists ((x - a) / 8)]; lia. }
  destruct Ej as [j Ej]. replace (x + k * W) with (a + (j + k) * W) by lia. apply Hw; nia.
Qed.

(** ** All segments *)
Variable base : Z.
Abbreviation layout := (gmap Z (list blk)).

Record space_ok (m : gmap Z Z) (G : layout) : Prop := {
  so_base : 1 < base;
  so_arrays : words m base arrays_size;
  so_seg : forall a l, G !! a = Some l -> 0 < a /\ seg_len l < 2 ^ N /\ words m a (seg_len l) /\ apart a (seg_len l) base arrays_size;
  so_blocks : forall a l, G !! a = Some l -> tiled (a + SEG) l /\ sized l /\ l <> [];
  so_apart : forall a l b k, G !! a = Some l -> G !! b = Some k -> a <> b -> apart a (seg_len l) b (seg_len k)
}.
Definition headers_ok (m : gmap Z Z) (a : Z) (l : list blk) : Prop :=
  headers m ZEND_MM_GUARD_BLOCK l /\ m !! (a + SEG + total l) = Some (ZEND_MM_GUARD_BLOCK + HDR)
  /\ m !! (a + SEG + total l + W) = Some (last_word ZEND_MM_GUARD_BLOCK l).
Definition headed (m : gmap Z Z) (a : Z) (l : list blk) : Prop := ~ torn a -> headers_ok m a l.

Definition block_in (G : layout) (b : blk) : Prop := exists a l, G !! a = Some l /\ b ∈ l.
Definition free_map (G : layout) (F : gmap Z Z) : Prop := forall x s, F !! x = Some s <-> block_in G (Blk x s true).

(** A block lies in its segment. *)
Lemma block_place m G a l b : space_ok m G -> G !! a = Some l -> b ∈ l ->
  a + SEG <= b_at b /\ b_at b + b_size b + HDR <= a + seg_len l /\ (b_at b - a) mod 8 = 0 /\ b_size b mod 8 = 0 /\ MIN <= b_size b.
Proof.
  intros Hs Ha Hb. destruct (so_blocks _ _ Hs a l Ha) as (Ht & Hz & _). destruct (tiled_in l _ b Ht Hz Hb) as (H1 & H2 & H3).
  destruct (Hz b Hb) as [H4 H5]. unfold seg_len. split; [lia|]. split; [lia|]. split; [|done].
  replace (b_at b - a) with (b_at b - (a + SEG) + SEG) by lia. rewrite Z.add_mod, H3 by lia.
  pose proof consts as C. assert (SEG mod 8 = 0) as -> by (destruct C as ([E|E] & _ & _ & E2 & _); rewrite E2, E; done). done.
Qed.
Lemma blocks_apart m G b c : space_ok m G -> block_in G b -> block_in G c -> b = c \/ apart (b_at b) (b_size b) (b_at c) (b_size c).
Proof.
  intros Hs (a & l & Ha & Hb) (a' & l' & Ha' & Hc). destruct (decide (a = a')) as [->|Hne].
  - rewrite Ha in Ha'. injection Ha' as <-. destruct (so_blocks _ _ Hs a' l Ha) as (Ht & Hz & _). by eapply tiled_apart.
  - right. pose proof (so_apart _ _ Hs a l a' l' Ha Ha' Hne) as Hap. pose proof consts.
    destruct (block_place m G a l b Hs Ha Hb) as (? & ? & _). destruct (block_place m G a' l' c Hs Ha' Hc) as (? & ? & _). unfold apart in *. lia.
Qed.
Lemma block_unique m G b c : space_ok m G -> block_in G b -> block_in G c -> b_at b = b_at c -> b = c.
Proof.
  intros Hs Hb Hc E. destruct (blocks_apart m G b c Hs Hb Hc) as [?|Ha]; [done|]. exfalso. pose proof consts.
  destruct Hb as (a & l & Hal & Hb). destruct Hc as (a' & l' & Hal' & Hc).
  destruct (block_place m G a l b Hs Hal Hb) as (_ & _ & _ & _ & ?). destruct (block_place m G a' l' c Hs Hal' Hc) as (_ & _ & _ & _ & ?). unfold apart in Ha. lia.
Qed.

(** Blocks of the layout satisfy what [AllocMap] asks for. *)
Lemma space_map m G F : space_ok m G -> (forall x s, F !! x = Some s -> exists f, block_in G (Blk x s f)) -> map_ok base F m.
Proof.
  intros Hs HF. pose proof consts as C.
  assert (Hb : forall x s, F !! x = Some s -> exists a l, G !! a = Some l /\ a + SEG <= x /\ x + s + HDR <= a + seg_len l /\ (x - a) mod 8 = 0 /\ s mod 8 = 0 /\ MIN <= s).
  { intros x s Hx. destruct (HF x s Hx) as (f & a & l & Ha & Hin). exists a, l. split; [done|]. by apply (block_place m G a l _ Hs Ha Hin). }
  split; [apply Hs|apply Hs| | |].
  - intros x s Hx. destruct (Hb x s Hx) as (a & l & Ha & H1 & H2 & H3 & H4 & H5). destruct (so_seg _ _ Hs a l Ha) as (S1 & S2 & S3 & S4).
    split; [lia|]. split; [done|]. split; [lia|]. eapply words_in; [exact S3|lia..|done].
  - intros x s y t Hx Hy Hne. destruct (HF x s Hx) as [f Hf]. destruct (HF y t Hy) as [g Hg].
    destruct (blocks_apart m G _ _ Hs Hf Hg) as [E|?]; [by injection E as ? ? ?|done].
  - intros x s Hx. destruct (Hb x s Hx) as (a & l & Ha & H1 & H2 & _). destruct (so_seg _ _ Hs a l Ha) as (_ & _ & _ & S4). unfold apart in *. lia.
Qed.

(** ** Changing the blocks of a segment *)
Lemma space_mem m m' G : space_ok m G -> (forall z, is_Some (m' !! z) <-> is_Some (m !! z)) -> space_ok m' G.
Proof.
  intros [S1 S2 S3 S4 S5] Hd. split; try done.
  - intros k Hk Hk'. apply Hd. by apply S2.
  - intros a l Ha. destruct (S3 a l Ha) as (? & ? & Hw & ?). split; [done|]. split; [done|]. split; [|done].
    intros k Hk Hk'. apply Hd. by apply Hw.
Qed.
Lemma space_retile m G a l1 m0 m1 l2 : space_ok m G -> G !! a = Some (l1 ++ m0 ++ l2) -> total m1 = total m0 ->
  tiled (a + SEG + total l1) m1 -> sized m1 -> m1 <> [] -> space_ok m (<[a := l1 ++ m1 ++ l2]> G).
Proof.
  intros [S1 S2 S3 S4 S5] Ha Et Hm1 Hs1 Hne. assert (El : seg_len (l1 ++ m1 ++ l2) = seg_len (l1 ++ m0 ++ l2)).
  { unfold seg_len. rewrite !total_app. lia. }
  assert (HS : forall b k, <[a := l1 ++ m1 ++ l2]> G !! b = Some k -> exists k', G !! b = Some k' /\ seg_len k = seg_len k').
  { intros b k Hb. apply lookup_insert_Some in Hb as [[<- <-]|[_ Hb]]; [by exists (l1 ++ m0 ++ l2)|by exists k]. }
  split; try done.
  - intros b k Hb. destruct (HS b k Hb) as (k' & Hk' & ->). by apply S3.
  - intros b k Hb. apply lookup_insert_Some in Hb as [[<- <-]|[_ Hb]]; [|by apply S4].
    destruct (S4 a _ Ha) as (Ht & Hz & _). rewrite !tiled_app in Ht |- *. rewrite !sized_app in Hz |- *. rewrite Et.
    split; [tauto|]. split; [tauto|]. intros E%app_eq_nil. destruct E as [_ E%app_eq_nil]. tauto.
  - intros b k c k2 Hb Hc Hbc. destruct (HS b k Hb) as (k' & Hk' & ->). destruct (HS c k2 Hc) as (k2' & Hk2' & ->). by apply S5.
Qed.
(** Everything but the [n] bytes between [l1] and [l2]. *)
Definition around (m : gmap Z Z) (a : Z) (l1 : list blk) (n : Z) (l2 : list blk) : Prop :=
  headers m ZEND_MM_GUARD_BLOCK l1 /\ m !! (a + SEG + total l1 + W) = Some (last_word ZEND_MM_GUARD_BLOCK l1)
  /\ match l2 with
     | [] => m !! (a + SEG + total l1 + n) = Some (ZEND_MM_GUARD_BLOCK + HDR)
     | c :: l2 => m !! b_at c = Some (word c) /\ headers m (word c) l2
         /\ m !! (a + SEG + total l1 + n + total (c :: l2)) = Some (ZEND_MM_GUARD_BLOCK + HDR)
         /\ m !! (a + SEG + total l1 + n + total (c :: l2) + W) = Some (last_word (word c) l2)
     end.
Lemma headers_around m a l1 m0 l2 : headers_ok m a (l1 ++ m0 ++ l2) -> tiled (a + SEG) (l1 ++ m0 ++ l2) -> m0 <> [] ->
  around m a l1 (total m0) l2.
Proof.
  intros (H1 & H2 & H3) Ht Hne. rewrite !headers_app in H1. destruct H1 as (H1 & H4 & H5). rewrite !tiled_app in Ht. destruct Ht as (T1 & T2 & T3).
  rewrite !total_app in H2, H3. split; [done|]. split.
  - destruct m0 as [|b m0]; [done|]. simpl in H4, T2. destruct T2 as [<- _]. tauto.
  - destruct l2 as [|c l2]; simpl in *.
    + rewrite <- H2. f_equal. lia.
    + destruct H5 as (H5 & H6 & H7). split_and!; try done.
      * rewrite <- H2. f_equal. lia.
      * replace (a + SEG + total l1 + total m0 + (b_size c + total l2) + W) with (a + SEG + (total l1 + (total m0 + (b_size c + total l2))) + W) by lia.
        rewrite H3. by rewrite !last_word_app.
Qed.
Lemma headers_retile m m' a l1 m1 l2 n : around m a l1 n l2 -> tiled (a + SEG) (l1 ++ m1 ++ l2) -> sized (l1 ++ m1 ++ l2) -> total m1 = n ->
  let x := a + SEG + total l1 in let y := x + n in
  headers m' (last_word ZEND_MM_GUARD_BLOCK l1) m1 ->
  m' !! (y + W) = Some (last_word ZEND_MM_GUARD_BLOCK (l1 ++ m1)) ->
  (forall z, z < x \/ y <= z -> z <> y + W -> m' !! z = m !! z) -> headers_ok m' a (l1 ++ m1 ++ l2).
Proof.
  intros (H1 & _ & H5) Ht Hz Et x y Hm1 Hy Hk.
  rewrite !tiled_app in Ht. rewrite !sized_app in Hz. destruct Ht as (T1 & T2 & T3), Hz as (Z1 & Z2 & Z3).
  pose proof (sized_total _ Z1) as [P1 _]. pose proof (sized_total _ Z2) as [P2 _]. pose proof (sized_total _ Z3) as [P3 _].
  pose proof consts as C. unfold headers_ok. rewrite !headers_app, !total_app. rewrite Et in *.
  assert (Hl1 : headers m' ZEND_MM_GUARD_BLOCK l1).
  { eapply headers_frame; [exact H1|]. intros b Hb. destruct (tiled_in l1 _ b T1 Z1 Hb) as (? & ? & _).
    destruct (Z1 b Hb) as [_ ?]. split; apply Hk; (left; lia) || lia. }
  destruct l2 as [|c l2]; simpl app in *; simpl headers in *; simpl total in *.
  - split_and!; try done.
    + replace (a + SEG + (total l1 + (n + 0))) with y by lia. rewrite Hk; [exact H5|right; lia|lia].
    + rewrite app_nil_r. rewrite <- Hy. f_equal. lia.
  - destruct H5 as (H5 & H7 & H2 & H3). destruct T3 as [Tc T3]. assert (Ec : b_at c = y) by (unfold y, x; lia).
    assert (Hcm : MIN <= b_size c) by (apply (Z3 c); by left).
    assert (Hz3 : sized l2) by (intros d Hd; apply Z3; by right). pose proof (sized_total _ Hz3) as [P4 _].
    replace (a + SEG + (total l1 + (n + (b_size c + total l2)))) with (a + SEG + total l1 + n + (b_size c + total l2)) by lia.
    split_and!; try done.
    + rewrite Ec in *. rewrite Hk; [done|right; lia|lia].
    + rewrite Ec, Hy. by rewrite last_word_app.
    + eapply headers_frame; [exact H7|]. intros b Hb. destruct (tiled_in l2 _ b T3 Hz3 Hb) as (? & ? & _).
      split; apply Hk; (right; lia) || lia.
    + rewrite Hk; [done|right; lia|lia].
    + rewrite Hk; [|right; lia|lia]. rewrite H3. by rewrite !last_word_app.
Qed.
Lemma headers_other m m' b k : headers_ok m b k -> tiled (b + SEG) k -> sized k ->
  (forall z, b <= z < b + seg_len k -> m' !! z = m !! z) -> headers_ok m' b k.
Proof.
  intros (H1 & H2 & H3) Ht Hz Hk. pose proof consts as C. pose proof (sized_total _ Hz) as [P _]. unfold seg_len in Hk. split; [|split].
  - eapply headers_frame; [exact H1|]. intros c Hc. destruct (tiled_in k _ c Ht Hz Hc) as (? & ? & _). destruct (Hz c Hc) as [_ ?]. split; apply Hk; lia.
  - rewrite Hk; [done|lia].
  - rewrite Hk; [done|lia].
Qed.

(** ** What writes to the links leave as it was *)
Lemma link_kept F h h' z : link_writes base F h h' -> map_ok base F (mem h) -> apart z 1 base arrays_size ->
  (forall x s, F !! x = Some s -> z < x + 2 * W \/ x + s <= z) -> mem h' !! z = mem h !! z.
Proof.
  intros Hw Hm Ha HF. apply (wr_mem _ _ _ Hw). intros x f [Hx Hf] ->. pose proof consts as C. pose proof N_pos.
  destruct (valid_place base F _ x f Hm Hx) as [(s & Hs & P1 & P2)|(k & Hk & P1 & _)].
  - assert (2 * W <= off f) by (unfold link in Hf; destruct f; simpl; intuition (congruence || lia)).
    destruct (HF x s Hs); unfold at_ in *; lia.
  - rewrite P1 in Ha. unfold apart, arrays_size in Ha. nia.
Qed.
Lemma segment_not_arrays m G a l z : space_ok m G -> G !! a = Some l -> a <= z < a + seg_len l -> apart z 1 base arrays_size.
Proof. intros Hs Ha Hz. destruct (so_seg _ _ Hs a l Ha) as (_ & _ & _ & Hap). unfold apart in *. lia. Qed.
(** An address in one block is in no other. *)
Lemma outside_block m G b c z : space_ok m G -> block_in G b -> block_in G c -> b <> c -> b_at b <= z < b_at b + b_size b ->
  z < b_at c \/ b_at c + b_size c <= z.
Proof. intros Hs Hb Hc Hne Hz. destruct (blocks_apart m G b c Hs Hb Hc) as [?|Ha]; [done|]. unfold apart in Ha. lia. Qed.
Lemma outside_segment m G a l b z : space_ok m G -> G !! a = Some l -> block_in G b -> (a <= z < a + SEG \/ a + SEG + total l <= z < a + seg_len l) ->
  z < b_at b \/ b_at b + b_size b <= z.
Proof.
  intros Hs Ha (a' & l' & Ha' & Hb) Hz. pose proof consts as C. destruct (decide (a = a')) as [->|Hne].
  - rewrite Ha in Ha'. injection Ha' as <-. destruct (so_blocks _ _ Hs a' l Ha) as (Ht & Hsz & _). destruct (tiled_in l _ b Ht Hsz Hb). lia.
  - destruct (block_place m G a' l' b Hs Ha' Hb) as (? & ? & _). pose proof (so_apart _ _ Hs a l a' l' Ha Ha' Hne) as Hap.
    destruct (so_blocks _ _ Hs a l Ha) as (Ht & Hsz & _). pose proof (sized_total _ Hsz) as [P _]. unfold apart, seg_len in *. lia.
Qed.

Lemma links_headers F h h' G : link_writes base F h h' -> space_ok (mem h) G -> (forall x s, F !! x = Some s -> block_in G (Blk x s true)) ->
  (forall a l, G !! a = Some l -> headed (mem h) a l) -> forall a l, G !! a = Some l -> headed (mem h') a l.
Proof.
  intros Hw Hs HF Hh a l Ha Hn. pose proof consts as C. assert (Hm : map_ok base F (mem h)) by (eapply space_map; [exact Hs|eauto]).
  destruct (Hh a l Ha Hn) as (H1 & H2 & H3). destruct (so_blocks _ _ Hs a l Ha) as (Ht & Hsz & _). pose proof (sized_total _ Hsz) as [P _].
  assert (Hblk : forall b z, b ∈ l -> z = b_at b \/ z = b_at b + W -> mem h' !! z = mem h !! z).
  { intros b z Hb Hz. destruct (block_place (mem h) G a l b Hs Ha Hb) as (B1 & B2 & _ & _ & B3).
    eapply link_kept; [exact Hw|done|apply (segment_not_arrays (mem h) G a l z Hs Ha); lia|].
    intros x s Hx. destruct (decide (b_at b = x)) as [<-|Hne]; [left; lia|].
    assert (Hz' : b_at b <= z < b_at b + b_size b) by lia.
    destruct (outside_block (mem h) G b (Blk x s true) z Hs) as [?|?]; simpl in *; [by exists a, l|by apply HF|by intros ->|done|left; lia|by right]. }
  assert (Hg : forall z, a + SEG + total l <= z < a + seg_len l -> mem h' !! z = mem h !! z).
  { intros z Hz. eapply link_kept; [exact Hw|done|apply (segment_not_arrays (mem h) G a l z Hs Ha); lia|].
    intros x s Hx. destruct (outside_segment (mem h) G a l (Blk x s true) z Hs Ha) as [?|?]; simpl in *; [by apply HF|by right|left; lia|by right]. }
  split; [|split].
  - eapply headers_frame; [exact H1|]. intros b Hb. split; apply (Hblk b); auto.
  - rewrite Hg; [done|]. unfold seg_len. lia.
  - rewrite Hg; [done|]. unfold seg_len. lia.
Qed.

(** The data of the used blocks, and the headers of the segments. *)
Definition data (G : layout) (z : Z) : Prop := exists c, block_in G c /\ b_free c = false /\ b_at c + 2 * W <= z < b_at c + b_size c.
Definition seg_head (G : layout) (z : Z) : Prop := exists a l, G !! a = Some l /\ a <= z < a + SEG.
Lemma links_data F h h' G z : link_writes base F h h' -> space_ok (mem h) G -> (forall x s, F !! x = Some s -> block_in G (Blk x s true)) ->
  data G z \/ seg_head G z -> mem h' !! z = mem h !! z.
Proof.
  intros Hw Hs HF Hz. pose proof consts as C. assert (Hm : map_ok base F (mem h)) by (eapply space_map; [exact Hs|eauto]).
  destruct Hz as [(c & Hc & Hu & Hz)|(a & l & Ha & Hz)].
  - pose proof Hc as (a & l & Ha & Hin). destruct (block_place (mem h) G a l c Hs Ha Hin) as (B1 & B2 & _ & _ & B3).
    eapply link_kept; [exact Hw|done|apply (segment_not_arrays (mem h) G a l z Hs Ha); lia|].
    intros x s Hx. destruct (outside_block (mem h) G c (Blk x s true) z Hs Hc) as [?|?]; simpl in *; [by apply HF|by intros ->|lia|left; lia|by right].
  - destruct (so_blocks _ _ Hs a l Ha) as (_ & Hsz & _). pose proof (sized_total _ Hsz) as [P _].
    eapply link_kept; [exact Hw|done|apply (segment_not_arrays (mem h) G a l z Hs Ha); unfold seg_len; lia|].
    intros x s Hx. destruct (outside_segment (mem h) G a l (Blk x s true) z Hs Ha) as [?|?]; simpl in *; [by apply HF|by left|left; lia|by right].
Qed.
End Layout.
