(* ===== verification/AllocHeap.v ===== *)
(** * AllocHeap: headers are read and written

    What the macros on headers return for a block in its segment, and how a
    block is cut in two or joined with its neighbours. *)
From S2P Require Import Prelude ZendAlloc AllocBits AllocRing AllocTrie AllocCut AllocRemove AllocSearch AllocFree AllocTake AllocPick AllocMap AllocLayout.

Section Heap.
Context `{SizeT} {TN : Torn}.
Abbreviation N := ZEND_MM_NUM_BUCKETS.
Abbreviation MIN := ZEND_MM_ALIGNED_MIN_HEADER_SIZE.
Abbreviation HDR := ZEND_MM_ALIGNED_HEADER_SIZE.
Abbreviation SEG := ZEND_MM_ALIGNED_SEGMENT_SIZE.
Abbreviation GUARD := ZEND_MM_GUARD_BLOCK.
Abbreviation layout := (gmap Z (list blk)).
Variable base : Z.

Definition kind (b : blk) : Z := if b_free b then ZEND_MM_FREE_BLOCK else ZEND_MM_USED_BLOCK.
Definition next_word (l : list blk) : Z := match l with [] => GUARD + HDR | c :: _ => word c end.

Lemma word_kind b : word b = b_size b + kind b.
Proof. done. Qed.
Lemma word_masks b : b_size b mod 8 = 0 -> Z.land (word b) (Z.lnot ZEND_MM_TYPE_MASK) = b_size b
  /\ (Z.land (word b) ZEND_MM_TYPE_MASK =? GUARD) = false /\ (Z.land (word b) ZEND_MM_USED_BLOCK =? 0) = b_free b.
Proof.
  intros Hm. destruct (land_types (b_size b) (kind b) Hm) as (E1 & E2 & E3); [unfold kind; destruct (b_free b); done|].
  rewrite word_kind, E1, E2, E3. unfold kind. by destruct (b_free b).
Qed.
Lemma guard_masks : Z.land (GUARD + HDR) ZEND_MM_TYPE_MASK = GUARD /\ (Z.land (GUARD + HDR) ZEND_MM_USED_BLOCK =? 0) = false.
Proof. pose proof consts as (C & _ & E & _). rewrite E. destruct C as [-> | ->]; done. Qed.
Lemma lor_kind b : b_size b mod 8 = 0 -> Z.lor (kind b) (b_size b) = word b.
Proof. intros Hm. rewrite lor_type; [done|done|]. unfold kind. destruct (b_free b); done. Qed.
Lemma guard_lor : Z.lor GUARD HDR = GUARD + HDR.
Proof. pose proof consts as (C & _ & E & _). rewrite E. destruct C as [-> | ->]; done. Qed.

(** ** Reading *)
Section Read.
Variables (h : mm_heap) (G : layout) (a : Z) (l1 l2 : list blk) (b : blk).
Hypothesis Hspace : space_ok base (mem h) G.
Hypothesis Hseg : G !! a = Some (l1 ++ b :: l2).
Hypothesis Hhdr : headers_ok (mem h) a (l1 ++ b :: l2).

Lemma read_place : b_at b = a + SEG + total l1 /\ b_size b mod 8 = 0 /\ MIN <= b_size b.
Proof.
  destruct (so_blocks _ _ _ Hspace a _ Hseg) as (Ht & Hz & _). rewrite tiled_app in Ht. destruct Ht as (_ & <- & _).
  destruct (Hz b) as [? ?]; [set_solver +|]. done.
Qed.
Lemma read_words : mem h !! b_at b = Some (word b) /\ mem h !! (b_at b + W) = Some (last_word GUARD l1)
  /\ mem h !! (b_at b + b_size b) = Some (next_word l2) /\ mem h !! (b_at b + b_size b + W) = Some (word b).
Proof.
  destruct Hhdr as (H1 & H2 & H3). rewrite headers_app in H1. destruct H1 as (_ & H4 & H5 & H6). split; [done|]. split; [done|].
  destruct (so_blocks _ _ _ Hspace a _ Hseg) as (Ht & _ & _). rewrite tiled_app in Ht. destruct Ht as (_ & Tb & Tl).
  rewrite total_app, total_cons in H2, H3. destruct l2 as [|c l2']; simpl in *.
  - rewrite Tb. split; [rewrite <- H2; f_equal; lia|].
    rewrite last_word_app in H3. simpl in H3. rewrite <- H3. f_equal. lia.
  - destruct Tl as [Tc _]. destruct H6 as (H6 & H7 & _). rewrite Tb, <- Tc. done.
Qed.

Lemma block_size_ok : ZEND_MM_BLOCK_SIZE (b_at b) h = Some (b_size b).
Proof.
  unfold ZEND_MM_BLOCK_SIZE, load, f_size. rewrite (proj1 read_words). cbn [mbind option_bind]. f_equal. apply word_masks, read_place.
Qed.
Lemma free_size_ok : b_free b = true -> ZEND_MM_FREE_BLOCK_SIZE (b_at b) h = Some (b_size b).
Proof.
  intros Hf. unfold ZEND_MM_FREE_BLOCK_SIZE, load, f_size. rewrite (proj1 read_words), word_kind. unfold kind. rewrite Hf.
  unfold ZEND_MM_FREE_BLOCK. by rewrite Z.add_0_r.
Qed.
Lemma first_ok : ZEND_MM_IS_FIRST_BLOCK (b_at b) h = Some (match l1 with [] => true | _ => false end).
Proof.
  unfold ZEND_MM_IS_FIRST_BLOCK, load, f_prev. destruct read_words as (_ & E & _). rewrite E. cbn [mbind option_bind]. f_equal.
  destruct l1 as [|c l _] using rev_ind; [done|]. rewrite last_word_app. simpl last_word.
  destruct (so_blocks _ _ _ Hspace a _ Hseg) as (_ & Hz & _). destruct (Hz c) as [_ Hc]; [set_solver +|].
  pose proof consts as C. rewrite word_kind. assert (0 <= kind c) by (unfold kind; by destruct (b_free c)).
  unfold ZEND_MM_GUARD_BLOCK. rewrite (proj2 (Z.eqb_neq _ 3)) by lia. by destruct l.
Qed.
Lemma prev_free_ok : ZEND_MM_PREV_BLOCK_IS_FREE (b_at b) h = Some (match last l1 with Some c => b_free c | None => false end).
Proof.
  unfold ZEND_MM_PREV_BLOCK_IS_FREE, load, f_prev. destruct read_words as (_ & E & _). rewrite E. cbn [mbind option_bind]. f_equal.
  destruct l1 as [|c l _] using rev_ind; [done|]. rewrite last_word_app, last_snoc. simpl last_word. apply word_masks.
  destruct (so_blocks _ _ _ Hspace a _ Hseg) as (_ & Hz & _). apply (Hz c). set_solver +.
Qed.
Lemma prev_block_ok c l : l1 = l ++ [c] -> ZEND_MM_PREV_BLOCK (b_at b) h = Some (b_at c).
Proof.
  intros El. unfold ZEND_MM_PREV_BLOCK, load, f_prev. destruct read_words as (_ & E & _). rewrite E. cbn [mbind option_bind]. f_equal.
  destruct (so_blocks _ _ _ Hspace a _ Hseg) as (Ht & Hz & _). pose proof (proj1 read_place) as Rp. rewrite El in Ht, Hz, Rp |- *.
  rewrite last_word_app. simpl last_word. destruct (Hz c) as [Hc _]; [set_solver +|]. rewrite (proj1 (word_masks c Hc)).
  rewrite !tiled_app in Ht. destruct Ht as ((_ & Tc & _) & _). rewrite total_app in Rp. simpl in Rp. lia.
Qed.
Lemma next_free_ok : ZEND_MM_IS_FREE_BLOCK (b_at b + b_size b) h = Some (match l2 with c :: _ => b_free c | [] => false end).
Proof.
  unfold ZEND_MM_IS_FREE_BLOCK, load, f_size. destruct read_words as (_ & _ & E & _). rewrite E. cbn [mbind option_bind]. f_equal.
  destruct l2 as [|c l]; [apply guard_masks|]. apply word_masks. destruct (so_blocks _ _ _ Hspace a _ Hseg) as (_ & Hz & _). apply (Hz c). set_solver +.
Qed.
Lemma next_guard_ok : ZEND_MM_IS_GUARD_BLOCK (b_at b + b_size b) h = Some (match l2 with [] => true | _ => false end).
Proof.
  unfold ZEND_MM_IS_GUARD_BLOCK, load, f_size. destruct read_words as (_ & _ & E & _). rewrite E. cbn [mbind option_bind]. f_equal.
  destruct l2 as [|c l]; simpl; [by rewrite (proj1 guard_masks)|]. apply word_masks. destruct (so_blocks _ _ _ Hspace a _ Hseg) as (_ & Hz & _). apply (Hz c). set_solver +.
Qed.
(** The heap is not found to be corrupted. *)
Lemma linkage_ok : b_free b = true -> ZEND_MM_CHECK_BLOCK_LINKAGE (b_at b) h = Some h.
Proof.
  intros Hf. unfold ZEND_MM_CHECK_BLOCK_LINKAGE. destruct read_words as (E1 & E2 & _ & E4).
  rewrite (E1 : load (f_size (b_at b)) h = _). cbn [mbind option_bind].
  rewrite free_size_ok by done. cbn [mbind option_bind]. rewrite (E4 : load (f_prev (b_at b + b_size b)) h = _). cbn [mbind option_bind].
  rewrite first_ok. cbn [mbind option_bind]. unfold ZEND_MM_CHECK. rewrite Z.eqb_refl. cbn [mbind option_bind].
  assert (Hcase : l1 = [] \/ exists l c, l1 = l ++ [c]).
  { clear. destruct l1 as [|c l _] using rev_ind; [by left|right]. by exists l, c. }
  destruct Hcase as [E|(l & c & E)]; [rewrite E; done|].
  assert (Ef : match l1 with [] => true | _ => false end = false) by (rewrite E; by destruct l). rewrite Ef.
  rewrite (prev_block_ok c l E). cbn [mbind option_bind].
  destruct Hhdr as (H1 & _). rewrite E, <- app_assoc, headers_app in H1. simpl in H1. destruct H1 as (_ & Hc & _).
  unfold load, f_size, f_prev. rewrite Hc, E2. cbn [mbind option_bind]. rewrite E, last_word_app. simpl. by rewrite Z.eqb_refl.
Qed.
End Read.

(** ** Writing *)
Lemma set_header_ok h x ty s : is_Some (mem h !! x) -> is_Some (mem h !! (x + s + W)) ->
  ZEND_MM_BLOCK x ty s h = Some (set_mem (<[x + s + W := Z.lor ty s]> (<[x := Z.lor ty s]> (mem h))) h).
Proof.
  intros [v Hv] Hw. unfold ZEND_MM_BLOCK, store, f_size, f_prev. rewrite Hv. cbn [mbind option_bind]. simpl mem.
  assert (is_Some (<[x:=Z.lor ty s]> (mem h) !! (x + s + W))) as [w Hw'].
  { destruct (decide (x = x + s + W)) as [<-|Hne]; [rewrite lookup_insert_eq; by eauto|by rewrite lookup_insert_ne]. }
  rewrite Hw'. cbn [mbind option_bind]. done.
Qed.

(** The free blocks but for those of the part [l1 _ l2] of the segment [a]. *)
Definition free_but (G : layout) (a : Z) (l1 l2 : list blk) (F : gmap Z Z) : Prop :=
  forall x s, F !! x = Some s <-> (exists b k, b <> a /\ G !! b = Some k /\ Blk x s true ∈ k) \/ Blk x s true ∈ l1 ++ l2.

Lemma block_in_retile G a l b : block_in (<[a := l]> G) b <-> (exists c k, c <> a /\ G !! c = Some k /\ b ∈ k) \/ b ∈ l.
Proof.
  split.
  - intros (c & k & Hc & Hb). apply lookup_insert_Some in Hc as [[<- <-]|[Hne Hc]]; [by right|]. left. exists c, k. split; [|done]. congruence.
  - intros [(c & k & Hne & Hc & Hb)|Hb]; [exists c, k; by rewrite lookup_insert_ne|exists a, l; by rewrite lookup_insert_eq].
Qed.
Lemma free_but_used G a l1 m l2 F : free_but G a l1 l2 F -> (forall b, b ∈ m -> b_free b = false) -> free_map (<[a := l1 ++ m ++ l2]> G) F.
Proof.
  intros HF Hm x s. rewrite (HF x s), block_in_retile, !elem_of_app. split; [tauto|]. intros [?|[?|[Hx|?]]]; [tauto..| |tauto].
  by apply Hm in Hx.
Qed.
Lemma free_but_one G m G' a l1 m1 l2 F x s : free_but G a l1 l2 F -> G' = <[a := l1 ++ m1 ++ l2]> G -> space_ok base m G' ->
  (forall b, b ∈ m1 -> b_free b = true <-> b = Blk x s true) -> Blk x s true ∈ m1 ->
  free_map G' (<[x := s]> F) /\ F !! x = None.
Proof.
  intros HF -> Hs Hm Hx.
  assert (Hin : block_in (<[a := l1 ++ m1 ++ l2]> G) (Blk x s true)) by (apply block_in_retile; right; rewrite !elem_of_app; auto).
  assert (Hnot : F !! x = None).
  { destruct (F !! x) as [t|] eqn:E; [|done]. exfalso. apply HF in E.
    assert (Hin' : block_in (<[a := l1 ++ m1 ++ l2]> G) (Blk x t true)).
    { apply block_in_retile. rewrite !elem_of_app in *. tauto. }
    pose proof (block_unique base m _ _ _ Hs Hin Hin' eq_refl) as Eq. injection Eq as <-.
    assert (Htile : exists k, (<[a := l1 ++ m1 ++ l2]> G) !! a = Some k /\ k = l1 ++ m1 ++ l2) by (eexists; rewrite lookup_insert_eq; done).
    destruct Htile as (k & Hk & ->). destruct (so_blocks _ _ _ Hs a _ Hk) as (Ht & Hz & _).
    destruct E as [(c & k & Hne & Hc & Hb)|Hb].
    - assert (Hc' : <[a := l1 ++ m1 ++ l2]> G !! c = Some k) by (by rewrite lookup_insert_ne).
      pose proof (so_apart _ _ _ Hs a _ c k Hk Hc' ltac:(done)) as Hap.
      destruct (block_place base m _ a _ (Blk x s true) Hs Hk) as (B1 & B2 & _ & _ & B3); [rewrite !elem_of_app; auto|].
      destruct (block_place base m _ c k (Blk x s true) Hs Hc' Hb) as (C1' & C2' & _). pose proof consts. unfold apart in Hap. simpl in *. lia.
    - rewrite !tiled_app in Ht. rewrite !sized_app in Hz. destruct Ht as (T1 & T2 & T3), Hz as (Z1 & Z2 & Z3).
      destruct (tiled_in m1 _ _ T2 Z2 Hx) as (B1 & B2 & _). destruct (Z2 _ Hx) as [_ B3]. pose proof consts. simpl in *.
      apply elem_of_app in Hb as [Hb|Hb].
      + destruct (tiled_in l1 _ _ T1 Z1 Hb) as (D1 & D2 & _). simpl in *. lia.
      + destruct (tiled_in l2 _ _ T3 Z3 Hb) as (D1 & D2 & _). simpl in *. lia. }
  split; [|done]. intros y t. rewrite block_in_retile, !elem_of_app. destruct (decide (x = y)) as [<-|Hne].
  - rewrite lookup_insert_eq. split; [intros [= <-]; tauto|]. intros Hb.
    assert (Hin' : block_in (<[a := l1 ++ m1 ++ l2]> G) (Blk x t true)) by (apply block_in_retile; rewrite !elem_of_app; tauto).
    pose proof (block_unique base m _ _ _ Hs Hin Hin' eq_refl) as Eq. by injection Eq as <-.
  - rewrite lookup_insert_ne by done. rewrite (HF y t), elem_of_app. split; [tauto|]. intros [?|[?|[Hy|?]]]; [tauto..| |tauto].
    pose proof (proj1 (Hm _ Hy) eq_refl) as Eq. by injection Eq as <- <-.
Qed.

Lemma header_words m G a l x : space_ok base m G -> G !! a = Some l -> a <= x -> x + 2 * W <= a + seg_len l -> (x - a) mod 8 = 0 ->
  is_Some (m !! x) /\ is_Some (m !! (x + W)).
Proof.
  intros Hs Ha H1 H2 H3. destruct (so_seg _ _ _ Hs a l Ha) as (_ & _ & Hw & _). pose proof consts as C.
  assert (Hx : words m x (2 * W)) by (eapply words_in; [exact Hw|lia..|done]). split.
  - specialize (Hx 0). rewrite Z.mul_0_l, Z.add_0_r in Hx. apply Hx; lia.
  - specialize (Hx 1). rewrite Z.mul_1_l in Hx. apply Hx; lia.
Qed.
Lemma seg_aligned : SEG mod 8 = 0 /\ HDR mod 8 = 0.
Proof. pose proof consts as ([E|E] & _ & E1 & E2 & _); rewrite E1, E2, E; done. Qed.

(** A heap whose parts fit together: the blocks, their headers and the lists
    of free blocks. *)
Record blocks_ok (h : mm_heap) (G : layout) (F : gmap Z Z) (Ls : lists) : Prop := {
  bo_space : space_ok base (mem h) G;
  bo_headers : forall a l, G !! a = Some l -> headed (mem h) a l;
  bo_free : free_in base F h Ls;
  bo_map : free_map G F
}.
(** The data of used blocks and the headers of segments are as they were. *)
Definition kept (G : layout) (h h' : mm_heap) : Prop := forall z, data G z \/ seg_head G z -> mem h' !! z = mem h !! z.
Definition same_words (h h' : mm_heap) : Prop := forall z, is_Some (mem h' !! z) <-> is_Some (mem h !! z).

Definition adds (G : layout) (add : Z -> Z -> mm_heap -> option mm_heap) : Prop := forall h F Ls b s,
  space_ok base (mem h) G -> (forall a l, G !! a = Some l -> headed (mem h) a l) ->
  free_in base F h Ls -> block_in G (Blk b s true) -> F !! b = None -> map_ok base (<[b := s]> F) (mem h) -> mem h !! b = Some s ->
  exists h' Ls', add b s h = Some h' /\ free_in base (<[b := s]> F) h' Ls' /\ link_writes base (<[b := s]> F) h h'.

(** ** Header words and the lists *)
Lemma free_in_headers F h h' Ls : free_in base F h Ls -> map_ok base F (mem h') -> buckets h' = buckets h -> bits h' = bits h ->
  (forall x s, F !! x = Some s -> forall z, x <= z < x + s -> z <> x + W -> mem h' !! z = mem h !! z) ->
  (forall z, base <= z < base + arrays_size -> mem h' !! z = mem h !! z) -> free_in base F h' Ls.
Proof.
  intros Hf Hd Eb Ebits Hb Ha. pose proof consts as C. pose proof N_pos. eapply free_in_frame; [exact Hf|done| |done|done].
  intros x f Hx Hf'. destruct Hf as (Hm & _). destruct (valid_place base F _ x f Hm Hx) as [(s & Hs & P1 & P2)|(k & Hk & P1 & _)].
  - apply (Hb x s Hs); [lia|]. unfold at_. intros E. apply Hf'. apply off_inj. simpl. lia.
  - apply Ha. rewrite P1. unfold arrays_size. nia.
Qed.

(** ** A part of a segment is laid out anew *)
Record hole (h : mm_heap) (G : layout) (a : Z) (l1 m0 l2 : list blk) (F : gmap Z Z) (Ls : lists) : Prop := {
  ho_space : space_ok base (mem h) G;
  ho_seg : G !! a = Some (l1 ++ m0 ++ l2);
  ho_others : forall b k, b <> a -> G !! b = Some k -> headed (mem h) b k;
  ho_around : around (mem h) a l1 (total m0) l2;
  ho_free : free_in base F h Ls;
  ho_map : free_but G a l1 l2 F
}.

(** The free blocks at [X] have been taken out of the lists. *)
Record loose (h : mm_heap) (G : layout) (F : gmap Z Z) (Ls : lists) (X : list Z) : Prop := {
  lo_space : space_ok base (mem h) G;
  lo_headers : forall a l, G !! a = Some l -> headed (mem h) a l;
  lo_free : free_in base F h Ls;
  lo_map : forall x s, F !! x = Some s <-> block_in G (Blk x s true) /\ x ∉ X
}.
Lemma blocks_loose h G F Ls : blocks_ok h G F Ls <-> loose h G F Ls [].
Proof.
  split; intros [B1 B2 B3 B4]; split; try done; intros x s; rewrite (B4 x s).
  - split; [intros Hx; split; [done|apply not_elem_of_nil]|tauto].
  - split; [tauto|intros Hx; split; [done|apply not_elem_of_nil]].
Qed.

(** A free block is taken. *)
Lemma take_ok h G F Ls X b : loose h G F Ls X -> block_in G b -> b_free b = true -> b_at b ∉ X ->
  exists h' F' Ls', zend_mm_remove_from_free_list (b_at b) h = Some h' /\ loose h' G F' Ls' (b_at b :: X) /\ kept G h h'
    /\ others h' = others h /\ same_words h h'.
Proof.
  intros [B1 B2 B3 B4] Hb Hfree HX.
  assert (Hin : F !! b_at b = Some (b_size b)) by (apply B4; split; [destruct b; simpl in *; by subst|done]).
  destruct (remove_map base F h Ls (b_at b) B3) as (h' & Ls' & E & Hf' & Hl); [by eexists|].
  assert (Hsub : forall x s, F !! x = Some s -> block_in G (Blk x s true)) by (intros x s Hx; by apply B4).
  assert (Hd : same_words h h') by (intros z; by eapply link_writes_dom).
  exists h', (delete (b_at b) F), Ls'. split; [done|]. split; [|split; [intros z Hz; by eapply links_data|split; [exact (wr_others _ _ _ Hl)|done]]].
  split; [by eapply space_mem|by eapply links_headers|done|]. intros x s. rewrite lookup_delete_Some, (B4 x s), not_elem_of_cons. intuition congruence.
Qed.

Lemma hole_of h G F' Ls a l1 m0 l2 X : loose h G F' Ls X -> G !! a = Some (l1 ++ m0 ++ l2) -> ~ torn a -> m0 <> [] ->
  (forall x s, Blk x s true ∈ m0 -> x ∈ X) -> (forall x, x ∈ X -> exists s, Blk x s true ∈ m0) -> hole h G a l1 m0 l2 F' Ls.
Proof.
  intros [B1 B2 Hf HF0] Ha Htorn Hne HX1 HX2.
  assert (HF : forall x s, F' !! x = Some s <-> block_in G (Blk x s true) /\ Blk x s true ∉ m0).
  { intros x s. rewrite (HF0 x s). split; intros [Hb Hn]; (split; [done|]).
    - intros Hm. by apply Hn, (HX1 x s).
    - intros Hx. destruct (HX2 x Hx) as [t Ht]. apply Hn.
      assert (Hb' : block_in G (Blk x t true)) by (exists a, (l1 ++ m0 ++ l2); split; [done|rewrite !elem_of_app; auto]).
      pose proof (block_unique base _ G _ _ B1 Hb Hb' eq_refl) as E. by injection E as ->. } destruct (so_blocks _ _ _ B1 a _ Ha) as (Ht & Hz & _). split; try done.
  - intros b k _. apply B2.
  - apply headers_around; [by apply B2|done|done].
  - intros x s. rewrite (HF x s). split.
    + intros [(b & k & Hb & Hin) Hn]. destruct (decide (b = a)) as [->|Hba]; [|left; by exists b, k]. right.
      rewrite Ha in Hb. injection Hb as <-. rewrite !elem_of_app in *. tauto.
    + intros [(b & k & Hba & Hb & Hin)|Hin].
      * split; [by exists b, k|]. intros Hm0. pose proof (so_apart _ _ _ B1 b k a _ Hb Ha Hba) as Hap.
        destruct (block_place base _ G b k _ B1 Hb Hin) as (P1 & P2 & _ & _ & P3).
        destruct (block_place base _ G a _ (Blk x s true) B1 Ha) as (Q1 & Q2 & _); [rewrite !elem_of_app; auto|].
        pose proof consts. unfold apart in Hap. simpl in *. lia.
      * split; [exists a, (l1 ++ m0 ++ l2); split; [done|]; rewrite !elem_of_app in *; tauto|]. intros Hm0.
        rewrite !tiled_app in Ht. rewrite !sized_app in Hz. destruct Ht as (T1 & T2 & T3), Hz as (Z1 & Z2 & Z3).
        destruct (tiled_in m0 _ _ T2 Z2 Hm0) as (Q1 & Q2 & _). destruct (Z2 _ Hm0) as [_ Q3]. pose proof consts. simpl in *.
        apply elem_of_app in Hin as [Hin|Hin].
        -- destruct (tiled_in l1 _ _ T1 Z1 Hin) as (D1 & D2 & _). simpl in *. lia.
        -- destruct (tiled_in l2 _ _ T3 Z3 Hin) as (D1 & D2 & _). simpl in *. lia.
Qed.

Lemma fill h h' G a l1 m0 m1 l2 F Ls : hole h G a l1 m0 l2 F Ls -> total m1 = total m0 -> let x := a + SEG + total l1 in let y := x + total m0 in
  tiled x m1 -> sized m1 -> m1 <> [] -> same_words h h' -> buckets h' = buckets h -> bits h' = bits h ->
  headers (mem h') (last_word GUARD l1) m1 -> mem h' !! (y + W) = Some (last_word GUARD (l1 ++ m1)) ->
  (forall z, z < x \/ y <= z -> z <> y + W -> mem h' !! z = mem h !! z) ->
  let G' := <[a := l1 ++ m1 ++ l2]> G in
  space_ok base (mem h') G' /\ (forall b k, G' !! b = Some k -> headed (mem h') b k) /\ free_in base F h' Ls.
Proof.
  intros [H1 H2 H3 H4 H5 H6] Et x y Ht Hz Hne Hd Eb Ebits Hm1 Hy Hk G'. pose proof consts as C.
  assert (Hs' : space_ok base (mem h') G').
  { eapply space_mem; [eapply space_retile; [exact H1|exact H2|done|exact Ht|done|done]|done]. }
  assert (Ha : G' !! a = Some (l1 ++ m1 ++ l2)) by apply lookup_insert_eq.
  destruct (so_blocks _ _ _ Hs' a _ Ha) as (Ht' & Hz' & _). destruct (so_blocks _ _ _ H1 a _ H2) as (Ht0 & Hz0 & _).
  assert (Hlen : a <= x /\ y + HDR <= a + seg_len (l1 ++ m0 ++ l2) /\ x <= y).
  { rewrite !sized_app in Hz0. destruct Hz0 as (Z1 & Z2 & Z3). pose proof (sized_total _ Z1) as [? _]. pose proof (sized_total _ Z2) as [? _].
    pose proof (sized_total _ Z3) as [? _]. unfold y, x, seg_len. rewrite !total_app. lia. }
  split; [done|]. split.
  - intros b k Hb. apply lookup_insert_Some in Hb as [[<- <-]|[Hne' Hb]].
    + intros _. eapply headers_retile; [exact H4|done|done|done|done|done|done].
    + intros Hn. destruct (so_blocks _ _ _ H1 b k Hb) as (Htb & Hzb & _). eapply (headers_other (mem h)); [by apply H3|done|done|].
      intros z Hzz. pose proof (so_apart _ _ _ H1 a _ b k H2 Hb Hne') as Hap. unfold apart in Hap. apply Hk; lia.
  - eapply free_in_headers; [exact H5|eapply map_ok_mem; [apply H5|done]|done|done| |].
    + intros w s Hw z Hzz Hne'. apply (H6 w s) in Hw as [(b & k & Hba & Hb & Hin)|Hin].
      * pose proof (so_apart _ _ _ H1 a _ b k H2 Hb ltac:(done)) as Hap. destruct (block_place base _ G b k _ H1 Hb Hin) as (P1 & P2 & _).
        simpl in *. unfold apart in Hap. apply Hk; lia.
      * rewrite !tiled_app in Ht0. rewrite !sized_app in Hz0. destruct Ht0 as (T1 & T2 & T3), Hz0 as (Z1 & Z2 & Z3).
        apply elem_of_app in Hin as [Hin|Hin].
        -- destruct (tiled_in l1 _ _ T1 Z1 Hin) as (D1 & D2 & _). simpl in *. apply Hk; unfold x, y in *; lia.
        -- destruct (tiled_in l2 _ _ T3 Z3 Hin) as (D1 & D2 & _). simpl in *. apply Hk; [unfold x, y in *; lia|]. intros ->.
           destruct l2 as [|c l2]; [by apply not_elem_of_nil in Hin|]. apply elem_of_cons in Hin as [Ec|Hin].
           ++ destruct T3 as [Tc _]. rewrite <- Ec in Tc. simpl in Tc. unfold x, y in *. lia.
           ++ destruct T3 as [Tc T3]. assert (Zc : sized l2) by (intros d Hd'; apply Z3; by right).
              destruct (tiled_in l2 _ _ T3 Zc Hin) as (D3 & _). destruct (Z3 c) as [_ Hc]; [by left|]. simpl in *. unfold x, y in *. lia.
    + intros z Hzz. destruct (so_seg _ _ _ H1 a _ H2) as (_ & _ & _ & Hap). unfold apart in Hap. apply Hk; lia.
Qed.

(** What is not in the hole stays. *)
Lemma fill_kept h h' G a l1 m0 m1 l2 F Ls : hole h G a l1 m0 l2 F Ls -> let x := a + SEG + total l1 in let y := x + total m0 in
  (forall z, z < x \/ y <= z -> z <> y + W -> mem h' !! z = mem h !! z) ->
  (forall b z, b ∈ m1 -> b_free b = false -> b_at b + 2 * W <= z < b_at b + b_size b -> mem h' !! z = mem h !! z) ->
  kept (<[a := l1 ++ m1 ++ l2]> G) h h'.
Proof.
  intros [H1 H2 H3 H4 H5 H6] x y Hk Hm z Hz. pose proof consts as C. destruct (so_blocks _ _ _ H1 a _ H2) as (Ht0 & Hz0 & _).
  rewrite !tiled_app in Ht0. rewrite !sized_app in Hz0. destruct Ht0 as (T1 & T2 & T3), Hz0 as (Z1 & Z2 & Z3).
  pose proof (sized_total _ Z1) as [? _]. pose proof (sized_total _ Z2) as [? _]. pose proof (sized_total _ Z3) as [? _].
  destruct Hz as [(c & Hc & Hu & Hz)|(b & k & Hb & Hz)].
  - apply block_in_retile in Hc as [(b & k & Hba & Hb & Hin)|Hin].
    + pose proof (so_apart _ _ _ H1 a _ b k H2 Hb ltac:(done)) as Hap. destruct (block_place base _ G b k _ H1 Hb Hin) as (P1 & P2 & _).
      unfold apart, seg_len in Hap. rewrite !total_app in Hap. unfold seg_len in P2. apply Hk; unfold x, y; lia.
    + rewrite !elem_of_app in Hin. destruct Hin as [Hin|[Hin|Hin]]; [|by apply (Hm c)|].
      * destruct (tiled_in l1 _ _ T1 Z1 Hin) as (D1 & D2 & _). apply Hk; unfold x, y; lia.
      * destruct (tiled_in l2 _ _ T3 Z3 Hin) as (D1 & D2 & _). apply Hk; unfold x, y in *; lia.
  - apply lookup_insert_Some in Hb as [[<- <-]|[Hne' Hb]].
    + apply Hk; unfold x, y; lia.
    + pose proof (so_apart _ _ _ H1 a _ b k H2 Hb Hne') as Hap. destruct (so_blocks _ _ _ H1 b k Hb) as (_ & Zb & _). pose proof (sized_total _ Zb) as [? _].
      unfold apart, seg_len in Hap. rewrite !total_app in Hap. apply Hk; unfold x, y; lia.
Qed.
End Heap.
