(* ===== verification/AllocSplit.v ===== *)
(** * AllocSplit: cutting a block in two, and joining free blocks *)
From S2P Require Import Prelude ZendAlloc AllocBits AllocRing AllocTrie AllocCut AllocRemove AllocSearch AllocFree AllocTake AllocPick AllocMap AllocLayout AllocHeap.

Section Split.
Context `{SizeT} {TN : Torn}.
Abbreviation N := ZEND_MM_NUM_BUCKETS.
Abbreviation MIN := ZEND_MM_ALIGNED_MIN_HEADER_SIZE.
Abbreviation HDR := ZEND_MM_ALIGNED_HEADER_SIZE.
Abbreviation SEG := ZEND_MM_ALIGNED_SEGMENT_SIZE.
Abbreviation GUARD := ZEND_MM_GUARD_BLOCK.
Abbreviation layout := (gmap Z (list blk)).
Variable base : Z.
Abbreviation hole := (hole base).
Abbreviation blocks_ok := (blocks_ok base).

(** The part [m1] has been laid out. *)
Definition laid (h h' : mm_heap) (G : layout) (a : Z) (l1 m1 l2 : list blk) : Prop :=
  let G' := <[a := l1 ++ m1 ++ l2]> G in
  (exists F' Ls', blocks_ok h' G' F' Ls') /\ kept G' h h' /\ others h' = others h /\ same_words h h'.

Lemma adds_free G : adds base G (fun y _ => zend_mm_add_to_free_list y).
Proof. intros h0 F0 Ls0 y s _ _ Hf0 _ Hn0 Hm0 Hw0. by apply (add_map base F0 h0 Ls0). Qed.
Lemma adds_rest G : adds base G (fun y _ => zend_mm_add_to_rest_list y).
Proof. intros h0 F0 Ls0 y s _ _ Hf0 _ Hn0 Hm0 Hw0. by apply (add_rest_map base F0 h0 Ls0). Qed.


Section Hole.
Variables (h : mm_heap) (G : layout) (a : Z) (l1 m0 l2 : list blk) (F : gmap Z Z) (Ls : lists).
Hypothesis Hhole : hole h G a l1 m0 l2 F Ls.
Abbreviation x := (a + SEG + total l1).
Abbreviation bs := (total m0).

Lemma hole_sizes : bs mod 8 = 0 /\ 0 <= bs < 2 ^ N /\ a + SEG <= x /\ x + bs + HDR <= a + seg_len (l1 ++ m0 ++ l2) /\ (x - a) mod 8 = 0.
Proof.
  destruct Hhole as [H1 H2 _ _ _ _]. destruct (so_blocks _ _ _ H1 a _ H2) as (_ & Hz & _). rewrite !sized_app in Hz. destruct Hz as (Z1 & Z2 & Z3).
  pose proof (sized_total _ Z1) as [P1 M1]. pose proof (sized_total _ Z2) as [P2 M2]. pose proof (sized_total _ Z3) as [P3 M3]. pose proof consts as C.
  destruct (so_seg _ _ _ H1 a _ H2) as (_ & Hn & _). unfold seg_len in *. rewrite !total_app in *.
  split; [done|]. split; [lia|]. split; [lia|]. split; [lia|].
  replace (a + SEG + total l1 - a) with (SEG + total l1) by lia. rewrite Z.add_mod, M1, (proj1 seg_aligned) by lia. done.
Qed.
Lemma hole_words z : x <= z -> z <= x + bs -> (z - x) mod 8 = 0 -> is_Some (mem h !! z) /\ is_Some (mem h !! (z + W)).
Proof.
  intros H1 H2 H3. destruct hole_sizes as (_ & _ & S1 & S2 & S3). pose proof consts as C.
  apply (header_words base (mem h) G a (l1 ++ m0 ++ l2)); [apply Hhole|apply Hhole|lia|lia|].
  replace (z - a) with (z - x + (x - a)) by lia. by rewrite Z.add_mod, H3, S3 by lia.
Qed.

(** One block fills the hole. *)
Lemma fill_one ty b : b = Blk x bs (ty =? ZEND_MM_FREE_BLOCK) -> ty = ZEND_MM_FREE_BLOCK \/ ty = ZEND_MM_USED_BLOCK -> MIN <= bs ->
  exists h', ZEND_MM_BLOCK x ty bs h = Some h' /\ others h' = others h /\ bits h' = bits h /\ same_words h h'
    /\ space_ok base (mem h') (<[a := l1 ++ [b] ++ l2]> G)
    /\ (forall c k, <[a := l1 ++ [b] ++ l2]> G !! c = Some k -> headed (mem h') c k)
    /\ free_in base F h' Ls /\ kept (<[a := l1 ++ [b] ++ l2]> G) h h' /\ mem h' !! x = Some (word b).
Proof.
  intros Eb Hty Hbs. destruct hole_sizes as (S1 & S2 & S3 & S4 & S5). pose proof consts as C.
  destruct (hole_words x) as [W1 W1']; [lia|lia|by rewrite Z.sub_diag|]. destruct (hole_words (x + bs)) as [W2 W2']; [lia|lia|by replace (x + bs - x) with bs by lia|].
  assert (Elor : Z.lor ty bs = word b).
  { rewrite lor_type by (destruct Hty as [-> | ->]; done). rewrite Eb. unfold word. simpl. destruct Hty as [-> | ->]; done. }
  rewrite set_header_ok, Elor by done. eexists. split; [reflexivity|]. split; [done|]. split; [done|].
  set (h' := set_mem _ h).
  assert (Hd : same_words h h').
  { intros z. simpl. destruct (decide (z = x + bs + W)) as [->|N1]; [rewrite lookup_insert_eq; split; eauto|]. rewrite lookup_insert_ne by done.
    destruct (decide (z = x)) as [->|N2]; [rewrite lookup_insert_eq; split; eauto|]. by rewrite lookup_insert_ne. }
  assert (Hk : forall z, z < x \/ x + bs <= z -> z <> x + bs + W -> mem h' !! z = mem h !! z).
  { intros z Hz Hne. simpl. rewrite !lookup_insert_ne by lia. done. }
  assert (Hx : mem h' !! x = Some (word b)) by (simpl; rewrite lookup_insert_ne by lia; apply lookup_insert_eq).
  destruct (ho_around _ _ _ _ _ _ _ _ _ Hhole) as (_ & Hp & _).
  assert (Hsz : b_size b = bs /\ b_at b = x) by (by rewrite Eb). destruct Hsz as [Hsz Hat].
  destruct (fill base h h' G a l1 m0 [b] l2 F Ls Hhole) as (R1 & R2 & R3); try done.
  - simpl. lia.
  - intros c ->%list_elem_of_singleton. by rewrite Hsz.
  - simpl. rewrite Hat. split; [done|]. split; [|done]. simpl. rewrite !lookup_insert_ne by lia. exact Hp.
  - rewrite last_word_app. simpl. apply lookup_insert_eq.
  - split; [done|]. split; [done|]. split; [done|]. split; [done|]. split; [|done].
    eapply fill_kept; [exact Hhole|done|]. intros c z ->%list_elem_of_singleton _ Hz. rewrite Hsz, Hat in Hz. simpl. by rewrite !lookup_insert_ne by lia.
Qed.

(** Two blocks fill the hole, the first one used and the second one free. *)
Lemma fill_two ts : ts mod 8 = 0 -> MIN <= ts -> ts + MIN <= bs ->
  let m1 := [Blk x ts false; Blk (x + ts) (bs - ts) true] in
  exists h1 h2, ZEND_MM_BLOCK x ZEND_MM_USED_BLOCK ts h = Some h1 /\ ZEND_MM_BLOCK (x + ts) ZEND_MM_FREE_BLOCK (bs - ts) h1 = Some h2
    /\ others h2 = others h /\ bits h2 = bits h /\ same_words h h2
    /\ space_ok base (mem h2) (<[a := l1 ++ m1 ++ l2]> G)
    /\ (forall c k, <[a := l1 ++ m1 ++ l2]> G !! c = Some k -> headed (mem h2) c k)
    /\ free_in base F h2 Ls /\ kept (<[a := l1 ++ m1 ++ l2]> G) h h2 /\ mem h2 !! (x + ts) = Some (bs - ts).
Proof.
  intros Hts Hmin Hbs m1. destruct hole_sizes as (S1 & S2 & S3 & S4 & S5). pose proof consts as C.
  assert (Hrem : (bs - ts) mod 8 = 0) by (rewrite Zminus_mod, S1, Hts; done).
  destruct (hole_words x) as [W1 W1']; [lia|lia|by rewrite Z.sub_diag|]. destruct (hole_words (x + bs)) as [W2 W2']; [lia|lia|by replace (x + bs - x) with bs by lia|].
  destruct (hole_words (x + ts)) as [W3 W3']; [lia|lia|by replace (x + ts - x) with ts by lia|].
  assert (E1 : Z.lor ZEND_MM_USED_BLOCK ts = word (Blk x ts false)) by (by rewrite lor_type).
  assert (E2 : Z.lor ZEND_MM_FREE_BLOCK (bs - ts) = bs - ts) by (by rewrite lor_type, Z.add_0_r).
  assert (Hin : forall z v m, is_Some (<[z := v]> m !! z) /\ forall z', is_Some ((m : gmap Z Z) !! z') -> is_Some (<[z := v]> m !! z')).
  { intros z v m. rewrite lookup_insert_eq. split; [eauto|]. intros z' Hz'. destruct (decide (z = z')) as [<-|]; [rewrite lookup_insert_eq; eauto|by rewrite lookup_insert_ne]. }
  rewrite set_header_ok, E1 by done. eexists _, _. split; [reflexivity|]. rewrite set_header_ok, E2; [|simpl; by do 2 apply Hin|simpl; do 2 apply Hin; by replace (x + ts + (bs - ts) + W) with (x + bs + W) by lia]. split; [reflexivity|].
  set (h2 := set_mem _ _). split; [done|]. split; [done|].
  assert (W4 : is_Some (mem h !! (x + ts + (bs - ts) + W))) by (by replace (x + ts + (bs - ts) + W) with (x + bs + W) by lia).
  assert (Hd : same_words h h2).
  { intros z. simpl. split; [|intros Hz; by do 4 apply Hin].
    repeat (rewrite lookup_insert; case_decide; [subst z; intros _; done|]). done. }
  assert (Hk : forall z, z < x \/ x + bs <= z -> z <> x + bs + W -> mem h2 !! z = mem h !! z).
  { intros z Hz Hne. simpl. by rewrite !lookup_insert_ne by lia. }
  destruct (ho_around _ _ _ _ _ _ _ _ _ Hhole) as (_ & Hp & _).
  assert (Hx : mem h2 !! (x + ts) = Some (bs - ts)) by (simpl; rewrite lookup_insert_ne by lia; apply lookup_insert_eq).
  destruct (fill base h h2 G a l1 m0 m1 l2 F Ls Hhole) as (R1 & R2 & R3); try done.
  - unfold m1. simpl. lia.
  - intros c Hc. unfold m1 in Hc. rewrite !elem_of_cons in Hc. destruct Hc as [->|[->|Hc%not_elem_of_nil]]; simpl; (done || (split; [done|lia])).
  - unfold m1. unfold word. simpl. split_and!; try done.
    + rewrite !lookup_insert_ne by lia. apply lookup_insert_eq.
    + rewrite !lookup_insert_ne by lia. exact Hp.
    + rewrite lookup_insert_ne, lookup_insert_eq by lia. f_equal. unfold word. cbn [b_size b_free]. unfold ZEND_MM_FREE_BLOCK. lia.
    + rewrite !lookup_insert_ne by lia. apply lookup_insert_eq.
  - rewrite last_word_app. unfold m1. cbn [last_word]. replace (x + bs + W) with (x + ts + (bs - ts) + W) by lia. simpl mem. rewrite lookup_insert_eq. f_equal.
    unfold word. cbn [b_size b_free]. unfold ZEND_MM_FREE_BLOCK. lia.
  - split; [done|]. split; [done|]. split; [done|]. split; [done|]. split; [|done].
    eapply fill_kept; [exact Hhole|done|]. intros c z Hc Hu Hz. unfold m1 in Hc. rewrite !elem_of_cons in Hc. destruct Hc as [->|[->|Hc%not_elem_of_nil]]; [|done|done].
    simpl in *. by rewrite !lookup_insert_ne by lia.
Qed.

Lemma hole_map G' : space_ok base (mem h) G' -> forall F', (forall y s, F' !! y = Some s -> exists f, block_in G' (Blk y s f)) -> map_ok base F' (mem h).
Proof. intros Hs F' HF. by eapply space_map. Qed.

(** A block that has its header goes into the lists of free blocks. *)
Lemma add_ok_laid add m1 y s h1 : let G' := <[a := l1 ++ m1 ++ l2]> G in
  space_ok base (mem h1) G' -> (forall c k, G' !! c = Some k -> headed (mem h1) c k) -> free_in base F h1 Ls ->
  adds base G' add -> (forall b, b ∈ m1 -> b_free b = true <-> b = Blk y s true) -> Blk y s true ∈ m1 -> mem h1 !! y = Some s ->
  exists h2, add y s h1 = Some h2 /\ (exists F' Ls', blocks_ok h2 G' F' Ls') /\ kept G' h1 h2 /\ others h2 = others h1 /\ same_words h1 h2.
Proof.
  intros G' Hs Hh Hf Hadd Hm Hy Hw. destruct (free_but_one base G (mem h1) G' a l1 m1 l2 F y s (ho_map _ _ _ _ _ _ _ _ _ Hhole) eq_refl Hs Hm Hy) as [HF' Hn].
  assert (Hmap : map_ok base (<[y := s]> F) (mem h1)) by (eapply space_map; [exact Hs|intros z t Hz; exists true; by apply HF']).
  assert (Hyin : block_in G' (Blk y s true)) by (apply block_in_retile; right; rewrite !elem_of_app; auto).
  destruct (Hadd h1 F Ls y s Hs Hh Hf Hyin Hn Hmap Hw) as (h2 & Ls' & E & Hf2 & Hl). exists h2. split; [done|].
  assert (Hsub : forall z t, <[y := s]> F !! z = Some t -> block_in G' (Blk z t true)) by (intros z t; apply HF').
  assert (Hd : same_words h1 h2) by (intros z; by eapply link_writes_dom).
  split; [|split; [|split; [exact (wr_others _ _ _ Hl)|done]]].
  - exists (<[y := s]> F), Ls'. split; [by eapply space_mem| |done|done]. by eapply links_headers.
  - intros z Hz. by eapply links_data.
Qed.

Lemma cut_block_ok ts add : ts mod 8 = 0 -> MIN <= ts <= bs ->
  adds base (<[a := l1 ++ [Blk x ts false; Blk (x + ts) (bs - ts) true] ++ l2]> G) add ->
  exists h' n m1, split_block x bs ts add h = Some (h', n) /\ ts <= n /\ laid h h' G a l1 m1 l2
    /\ (m1 = [Blk x n false] /\ n = bs \/ m1 = [Blk x n false; Blk (x + n) (bs - n) true]).
Proof.
  intros Hts Hmin Hadd. destruct hole_sizes as (S1 & S2 & S3 & S4 & S5). pose proof consts as C. unfold split_block.
  rewrite size_t_small by lia. destruct (Z.ltb_spec (bs - ts) MIN) as [Hlt|Hge].
  - destruct (fill_one ZEND_MM_USED_BLOCK (Blk x bs false)) as (h1 & E & Ho & Hb & Hd & Hs & Hh & Hf & Hk & _); [done|by right|lia|].
    rewrite E. cbn [mbind option_bind]. exists h1, bs, [Blk x bs false]. split; [done|]. split; [lia|]. split; [|by left]. split; [|done].
    exists F, Ls. split; [done|done|done|]. apply free_but_used; [apply Hhole|]. by intros b ->%list_elem_of_singleton.
  - destruct (fill_two ts Hts ltac:(lia) ltac:(lia)) as (h1 & h2 & E1 & E2 & Ho & Hb & Hd & Hs & Hh & Hf & Hk & Hw).
    rewrite E1. cbn [mbind option_bind]. cbv zeta. rewrite E2. cbn [mbind option_bind].
    destruct (add_ok_laid add [Blk x ts false; Blk (x + ts) (bs - ts) true] (x + ts) (bs - ts) h2) as (h3 & E3 & Hbo & Hk3 & Ho3 & Hd3); try done.
    { intros b Hb'. rewrite !elem_of_cons in Hb'. destruct Hb' as [->|[->|Hb'%not_elem_of_nil]]; simpl; (done || split; done). }
    { right. by left. }
    rewrite E3. cbn [mbind option_bind]. exists h3, ts, [Blk x ts false; Blk (x + ts) (bs - ts) true]. split; [done|]. split; [lia|]. split; [|by right].
    split; [done|]. split; [intros z Hz; by rewrite Hk3, Hk|]. split; [congruence|]. intros z. rewrite (Hd3 z). apply Hd.
Qed.

(** The hole becomes one free block. *)
Lemma release_ok : MIN <= bs ->
  exists h1 h', ZEND_MM_BLOCK x ZEND_MM_FREE_BLOCK bs h = Some h1 /\ zend_mm_add_to_free_list x h1 = Some h'
    /\ laid h h' G a l1 [Blk x bs true] l2.
Proof.
  intros Hmin. destruct (fill_one ZEND_MM_FREE_BLOCK (Blk x bs true)) as (h1 & E & Ho & Hb & Hd & Hs & Hh & Hf & Hk & Hw); [done|by left|done|].
  destruct (add_ok_laid (fun y _ => zend_mm_add_to_free_list y) [Blk x bs true] x bs h1) as (h2 & E2 & Hbo & Hk2 & Ho2 & Hd2); try done.
  { apply adds_free. }
  { intros b ->%list_elem_of_singleton. done. } { by left. }
  { rewrite Hw. unfold word. cbn [b_size b_free]. unfold ZEND_MM_FREE_BLOCK. by rewrite Z.add_0_r. }
  exists h1, h2. split; [done|]. split; [done|]. split; [done|]. split; [intros z Hz; by rewrite Hk2, Hk|]. split; [congruence|]. intros z. rewrite (Hd2 z). apply Hd.
Qed.
End Hole.

End Split.
