(* ===== verification/AllocState.v ===== *)
(** * AllocState: the segments and the cache

    What a heap keeps beside its free blocks: the list of segments, their sizes
    and the sum of them, and the lists of the cache. *)
From S2P Require Import Prelude ZendAlloc AllocBits AllocRing AllocTrie AllocCut AllocRemove AllocSearch AllocFree AllocTake AllocPick AllocMap AllocLayout AllocHeap.

(** ** Singly linked lists *)
Definition first (l : list Z) (q : Z) : Z := match l with [] => q | x :: _ => x end.
(** Every word [f x] points to the next member, that of the last one to [q]. *)
Fixpoint chain (f : Z -> Z) (m : gmap Z Z) (l : list Z) (q : Z) : Prop :=
  match l with [] => True | x :: l => m !! f x = Some (first l q) /\ chain f m l q end.

Lemma first_of_app l1 l2 q : first (l1 ++ l2) q = first l1 (first l2 q).
Proof. by destruct l1. Qed.
Lemma chain_app f m l1 : forall l2 q, chain f m (l1 ++ l2) q <-> chain f m l1 (first l2 q) /\ chain f m l2 q.
Proof. induction l1 as [|x l1 IH]; intros l2 q; simpl; [tauto|]. rewrite IH, first_of_app. tauto. Qed.
Lemma chain_frame f m m' l q : chain f m l q -> (forall x, x ∈ l -> m' !! f x = m !! f x) -> chain f m' l q.
Proof.
  induction l as [|x l IH]; intros Hc Hf; [done|]. destruct Hc as [H1 H2]. split; [rewrite Hf; [done|by left]|].
  apply IH; [done|]. intros y Hy. apply Hf. by right.
Qed.
Lemma nodup_length (l : list Z) {A} (m : gmap Z A) : NoDup l -> (forall x, x ∈ l -> is_Some (m !! x)) -> (length l <= base.size m)%nat.
Proof.
  intros Hl Hm. rewrite <- (size_list_to_set (C := gset Z) l Hl), <- size_dom. apply subseteq_size.
  intros x Hx%elem_of_list_to_set. apply elem_of_dom. by apply Hm.
Qed.

(** ** Sums over a map *)
Definition sum (m : gmap Z Z) : Z := map_fold (fun _ n acc => n + acc) 0 m.
Lemma sum_insert m a n : m !! a = None -> sum (<[a := n]> m) = n + sum m.
Proof. intros Ha. unfold sum. apply (map_fold_insert_L (fun (_ : Z) n acc => n + acc)); [intros; lia|done]. Qed.
Lemma sum_delete m a n : m !! a = Some n -> sum m = n + sum (delete a m).
Proof. intros Ha. unfold sum. apply (map_fold_delete_L (fun (_ : Z) n acc => n + acc)); [intros; lia|done]. Qed.
Lemma sum_nonneg m : (forall a n, m !! a = Some n -> 0 <= n) -> 0 <= sum m.
Proof.
  induction m as [|a n m Ha IH] using map_ind; intros Hm; [done|]. rewrite sum_insert by done.
  assert (0 <= n) by (apply (Hm a), lookup_insert_eq). enough (0 <= sum m) by lia. apply IH. intros b k Hb.
  apply (Hm b). rewrite lookup_insert_ne; [done|congruence].
Qed.

(** The addresses from [a] on. *)
Definition span (a n : Z) : gset Z := list_to_set (seqZ a n).
Lemma elem_of_span z a n : z ∈ span a n <-> a <= z < a + n.
Proof. unfold span. by rewrite elem_of_list_to_set, elem_of_seqZ. Qed.
Lemma size_span a n : 0 <= n -> Z.of_nat (base.size (span a n)) = n.
Proof. intros Hn. unfold span. rewrite size_list_to_set by apply NoDup_seqZ. rewrite length_seqZ. lia. Qed.

(** Intervals that do not overlap have room. *)
Lemma sum_bound m lo hi : lo <= hi -> (forall a n, m !! a = Some n -> 0 <= n /\ lo <= a /\ a + n <= hi) ->
  (forall a n b k, m !! a = Some n -> m !! b = Some k -> a <> b -> apart a n b k) -> sum m <= hi - lo.
Proof.
  intros Hle Hm Hd.
  assert (Hs : exists S : gset Z, Z.of_nat (base.size S) = sum m /\ forall z, z ∈ S <-> exists a n, m !! a = Some n /\ a <= z < a + n).
  { revert Hm Hd. induction m as [|a n m Ha IH] using map_ind; intros Hm Hd.
    - exists ∅. split; [done|]. intros z. split; [set_solver|]. intros (a & n & E & _). done.
    - destruct IH as (S & HS & Hin).
      + intros b k Hb. apply Hm. rewrite lookup_insert_ne; [done|congruence].
      + intros b k c j Hb Hc. apply Hd; (rewrite lookup_insert_ne; [done|congruence]).
      + destruct (Hm a n) as (Hn & _); [by apply lookup_insert_eq|].
        assert (Hdis : span a n ## S).
        { intros z Hz%elem_of_span (b & k & Hb & Hz')%Hin. assert (a <> b) by congruence.
          destruct (Hd a n b k) as [?|?]; [by apply lookup_insert_eq|by rewrite lookup_insert_ne|done|lia..]. }
        exists (span a n ∪ S). split; [rewrite size_union, sum_insert by done; pose proof (size_span a n Hn); lia|].
        intros z. rewrite elem_of_union, elem_of_span, Hin. split.
        * intros [Hz|(b & k & Hb & Hz)]; [exists a, n; by rewrite lookup_insert_eq|exists b, k; rewrite lookup_insert_ne; [done|congruence]].
        * intros (b & k & Hb & Hz). apply lookup_insert_Some in Hb as [[<- <-]|[_ Hb]]; [by left|right; eauto]. }
  destruct Hs as (S & <- & Hin). rewrite <- (size_span lo (hi - lo)) by lia. apply inj_le, subseteq_size.
  intros z (a & n & Ha & Hz)%Hin. apply elem_of_span. destruct (Hm a n Ha). lia.
Qed.

Section State.
Context `{SizeT} {TN : Torn}.
Abbreviation N := ZEND_MM_NUM_BUCKETS.
Abbreviation MIN := ZEND_MM_ALIGNED_MIN_HEADER_SIZE.
Abbreviation HDR := ZEND_MM_ALIGNED_HEADER_SIZE.
Abbreviation SEG := ZEND_MM_ALIGNED_SEGMENT_SIZE.
Abbreviation GUARD := ZEND_MM_GUARD_BLOCK.
Abbreviation layout := (gmap Z (list blk)).
Variable base : Z.

(** [C] holds the blocks of every list of the cache. *)
Definition in_cache (C : list (list Z)) (x : Z) : Prop := exists i l, C !! i = Some l /\ x ∈ l.
Record state_ok (h : mm_heap) (G : layout) (C : list (list Z)) : Prop := {
  st_coalesced : forall a l, G !! a = Some l -> coalesced l;
  st_room : forall a l, G !! a = Some l -> a + seg_len l <= 2 ^ N;
  st_regions : regions h = seg_len <$> G;
  st_seg_size : forall a l, G !! a = Some l -> mem h !! seg_size a = Some (seg_len l);
  st_segments : exists segs, NoDup segs /\ (forall a, a ∈ segs <-> is_Some (G !! a))
    /\ segments_list h = first segs NULL /\ chain seg_next (mem h) segs NULL;
  st_real : real_size h = sum (regions h);
  st_length : length C = Z.to_nat N;
  st_cache : forall i l, C !! i = Some l -> NoDup l /\ chain f_prev_free (mem h) l NULL
    /\ forall x, x ∈ l -> block_in G (Blk x (8 * Z.of_nat i + MIN) false);
  st_block_size : exists k, 3 <= k < N /\ block_size h = 2 ^ k
}.
Definition fixed (h : mm_heap) := (regions h, segments_list h, real_size h, block_size h).
Definition data_kept (G : layout) (h h' : mm_heap) : Prop := forall z, data G z -> mem h' !! z = mem h !! z.

Lemma kept_data G h h' : kept G h h' -> data_kept G h h'.
Proof. intros Hk z Hz. apply Hk. by left. Qed.
Lemma others_fixed h h' : others h' = others h -> fixed h' = fixed h.
Proof. intros E. unfold others in E. injection E. intros. unfold fixed. congruence. Qed.

(** The link of a block of the cache is in its data. *)
Lemma cached_data m G x s : space_ok base m G -> block_in G (Blk x s false) -> data G (f_prev_free x).
Proof.
  intros Hs (a & l & Ha & Hb). exists (Blk x s false). split; [by exists a, l|]. split; [done|].
  destruct (block_place base m G a l _ Hs Ha Hb) as (_ & _ & _ & _ & ?). pose proof consts. unfold f_prev_free. simpl in *. lia.
Qed.

Lemma state_move h h' G G' C : state_ok h G C -> space_ok base (mem h') G' -> seg_len <$> G' = seg_len <$> G ->
  (forall a l, G' !! a = Some l -> coalesced l) -> kept G' h h' -> fixed h' = fixed h ->
  (forall x s, in_cache C x -> block_in G (Blk x s false) -> block_in G' (Blk x s false)) -> state_ok h' G' C.
Proof.
  intros [S1 S2 S3 S4 S5 S6 S7 S8 S9] Hs El Hc Hk Ef Hb. unfold fixed in Ef. injection Ef as E1 E2 E3 E4. pose proof consts as Co.
  assert (HG : forall a l, G' !! a = Some l -> exists l0, G !! a = Some l0 /\ seg_len l = seg_len l0).
  { intros a l Ha. assert (E : (seg_len <$> G') !! a = (seg_len <$> G) !! a) by (by rewrite El). rewrite !lookup_fmap, Ha in E.
    destruct (G !! a) as [l0|] eqn:Ea; [|done]. exists l0. injection E as E. done. }
  assert (Hdom : forall a, is_Some (G' !! a) <-> is_Some (G !! a)).
  { intros a. rewrite <- !fmap_is_Some with (f := seg_len), <- !lookup_fmap. by rewrite El. }
  split; try done; try congruence.
  - intros a l Ha. destruct (HG a l Ha) as (l0 & Ha0 & ->). by apply S2.
  - intros a l Ha. destruct (HG a l Ha) as (l0 & Ha0 & ->). rewrite Hk; [by apply S4|]. right. exists a, l. split; [done|]. unfold seg_size. lia.
  - destruct S5 as (segs & Hn & Hin & Hh & Hch). exists segs. split; [done|]. split; [intros a; by rewrite Hin, Hdom|]. split; [congruence|].
    eapply chain_frame; [exact Hch|]. intros a Ha. apply Hk. right. apply Hin, Hdom in Ha as [l Ha]. exists a, l. split; [done|]. unfold seg_next. lia.
  - intros i l Hi. destruct (S8 i l Hi) as (Hn & Hch & Hbl). assert (Hbl' : forall x, x ∈ l -> block_in G' (Blk x (8 * Z.of_nat i + MIN) false)).
    { intros x Hx. apply Hb; [by exists i, l|by apply Hbl]. }
    split; [done|]. split; [|done]. eapply chain_frame; [exact Hch|]. intros x Hx. apply Hk. left. by eapply cached_data, Hbl'.
  - by rewrite E4.
Qed.

Lemma sum_layout m (G : layout) : space_ok base m G -> (forall a l, G !! a = Some l -> a + seg_len l <= 2 ^ N) -> 0 <= sum (seg_len <$> G) < 2 ^ N.
Proof.
  intros Hs Hroom. pose proof consts as Co. pose proof word_pow.
  assert (Hp : forall a n, (seg_len <$> G) !! a = Some n -> 0 <= n /\ 1 <= a /\ a + n <= 2 ^ N).
  { intros a n Ha. rewrite lookup_fmap in Ha. destruct (G !! a) as [l|] eqn:El; [|done]. injection Ha as <-.
    destruct (so_blocks _ _ _ Hs a l El) as (_ & Hz & _). pose proof (sized_total _ Hz) as [? _]. destruct (so_seg _ _ _ Hs a l El) as (? & _).
    split; [unfold seg_len; lia|]. split; [lia|]. by apply Hroom. }
  split; [apply sum_nonneg; intros a n Ha; by apply (Hp a n)|]. enough (sum (seg_len <$> G) <= 2 ^ N - 1) by lia.
  apply sum_bound; [lia|done|]. intros a n b k Ha Hb Hne. rewrite lookup_fmap in Ha, Hb.
  destruct (G !! a) as [l|] eqn:El; [|done]. destruct (G !! b) as [l'|] eqn:El'; [|done]. injection Ha as <-. injection Hb as <-. by apply (so_apart _ _ _ Hs).
Qed.

Lemma state_sum h G C : space_ok base (mem h) G -> state_ok h G C -> 0 <= real_size h < 2 ^ N.
Proof. intros Hs Hst. rewrite (st_real _ _ _ Hst), (st_regions _ _ _ Hst). apply (sum_layout (mem h)); [done|apply Hst]. Qed.

(** ** A segment is given back *)
Lemma find_ok h a s2 : forall s1 p fuel, segment_link p h = Some (first (s1 ++ a :: s2) NULL) -> chain seg_next (mem h) s1 a -> a ∉ s1 ->
  (length s1 <= fuel)%nat -> find_segment fuel a p h = Some (match last s1 with None => p | Some s => Some s end).
Proof.
  induction s1 as [|s s1 IH]; intros p fuel Hp Hc Ha Hl; simpl in Hp.
  - destruct fuel; simpl; rewrite Hp; cbn [mbind option_bind]; by rewrite Z.eqb_refl.
  - rewrite not_elem_of_cons in Ha. destruct Ha as [Hne Ha]. destruct Hc as [Hs Hc]. simpl in Hl. destruct fuel as [|fuel]; [lia|].
    simpl. rewrite Hp. cbn [mbind option_bind]. rewrite (proj2 (Z.eqb_neq s a)) by congruence.
    rewrite (IH (Some s) fuel); [|simpl; unfold load; rewrite Hs; by destruct s1|done|done|lia]. rewrite last_cons. by destruct (last s1).
Qed.

(** The list of segments without [a]. *)
Lemma unlink_segment_ok h segs a : NoDup segs -> segments_list h = first segs NULL -> chain seg_next (mem h) segs NULL -> a ∈ segs ->
  exists p q h' segs', find_segment (length segs) a None h = Some p /\ load (seg_next a) h = Some q /\ set_segment_link p q h = Some h'
    /\ NoDup segs' /\ (forall b, b ∈ segs' <-> b ∈ segs /\ b <> a)
    /\ segments_list h' = first segs' NULL /\ chain seg_next (mem h') segs' NULL
    /\ (forall z, (forall b, b ∈ segs -> z <> seg_next b) -> mem h' !! z = mem h !! z) /\ same_words h h'
    /\ h' = set_segments_list (segments_list h') (set_mem (mem h') h).
Proof.
  intros Hn Hh Hc Ha. apply list_elem_of_split in Ha as (s1 & s2 & ->). pose proof Hc as Hc'. rewrite chain_app in Hc. destruct Hc as (C1 & C2 & C3).
  apply NoDup_app in Hn as (N1 & N2 & N3). apply NoDup_cons in N3 as [N3 N4].
  assert (Ha : a ∉ s1) by (intros Hx; apply (N2 a Hx); by left).
  exists (match last s1 with None => None | Some s => Some s end), (first s2 NULL).
  assert (Hfind : find_segment (length (s1 ++ a :: s2)) a None h = Some (match last s1 with None => None | Some s => Some s end)).
  { rewrite (find_ok h a s2 s1 None); [by destruct (last s1)|simpl; by rewrite Hh|done|done|rewrite length_app; lia]. }
  assert (Hnd : NoDup (s1 ++ s2)).
  { apply NoDup_app. split; [done|]. split; [|done]. intros x Hx Hx'. apply (N2 x Hx). by right. }
  assert (Hin : forall b, b ∈ s1 ++ s2 <-> b ∈ s1 ++ a :: s2 /\ b <> a).
  { intros b. rewrite !elem_of_app, elem_of_cons. split; [|tauto]. intros [Hb|Hb]; (split; [tauto|]); intros ->; done. }
  destruct s1 as [|s s0 _] using rev_ind.
  - exists (set_segments_list (first s2 NULL) h), s2. by split_and!.
  - rewrite last_snoc in Hfind |- *. rewrite chain_app in C1. destruct C1 as (C0 & Cs & _). simpl in Cs.
    set (h' := set_mem (<[seg_next s := first s2 NULL]> (mem h)) h).
    exists h', ((s0 ++ [s]) ++ s2). split; [done|]. split; [done|]. split; [simpl; unfold store; by rewrite Cs|].
    assert (Hs : forall x, x ∈ s0 ++ a :: s2 -> seg_next x <> seg_next s).
    { intros x Hx E. assert (x = s) as -> by (unfold seg_next in E; lia). apply NoDup_app in N1 as (_ & N1 & _).
      rewrite elem_of_app, elem_of_cons in Hx. destruct Hx as [Hx|[->|Hx]]; [by apply (N1 s Hx), list_elem_of_singleton|apply Ha; set_solver +|].
      apply (N2 s); [set_solver +|by right]. }
    split; [done|]. split; [done|]. split; [|split; [|split; [|split; [|done]]]].
    + simpl. rewrite Hh, !first_of_app. by destruct s0.
    + rewrite <- app_assoc, chain_app. simpl. rewrite lookup_insert_eq. split; [|split; [done|]].
      * eapply chain_frame; [exact C0|]. intros x Hx. rewrite lookup_insert_ne; [done|]. symmetry. apply Hs. set_solver.
      * eapply chain_frame; [exact C3|]. intros x Hx. rewrite lookup_insert_ne; [done|]. symmetry. apply Hs. set_solver.
    + intros z Hz. simpl. rewrite lookup_insert_ne; [done|]. intros E. apply (Hz s); [set_solver +|done].
    + intros z. simpl. rewrite lookup_insert. case_decide; [subst z; by rewrite Cs|done].
Qed.

Definition user (h : mm_heap) := (limit h, size h, peak h, reserve_size h, reserve h, overflow h, cached h, cache h).
Lemma others_user h h' : others h' = others h -> user h' = user h.
Proof. intros E. unfold others in E. injection E. intros. unfold user. congruence. Qed.

Lemma lookup_drop (m : gmap Z Z) a n z : ~ (a <= z < a + n) -> filter (fun p : Z * Z => ~ (a <= p.1 < a + n)) m !! z = m !! z.
Proof.
  intros Hz. destruct (m !! z) as [v|] eqn:E; [by apply map_lookup_filter_Some|]. apply map_lookup_filter_None. by left.
Qed.
Lemma words_frame (m m' : gmap Z Z) x s : words m x s -> (forall z, x <= z < x + s -> m' !! z = m !! z) -> words m' x s.
Proof. intros Hw Hf k Hk Hk'. pose proof consts. rewrite Hf; [by apply Hw|]. nia. Qed.

(** Without a segment, and all else as it was. *)
Lemma space_delete m m' G a l : space_ok base m G -> G !! a = Some l -> (forall z, ~ (a <= z < a + seg_len l) -> is_Some (m' !! z) <-> is_Some (m !! z)) ->
  space_ok base m' (delete a G).
Proof.
  intros [S1 S2 S3 S4 S5] Ha Hm. destruct (S3 a l Ha) as (_ & _ & _ & Hap). pose proof consts as C. split; try done.
  - intros k Hk Hk'. apply Hm; [|by apply S2]. unfold apart in Hap. nia.
  - intros b k [Hne Hb]%lookup_delete_Some. destruct (S3 b k Hb) as (R1 & R2 & R3 & R4). split; [done|]. split; [done|]. split; [|done].
    intros j Hj Hj'. apply Hm; [|by apply R3]. pose proof (S5 a l b k Ha Hb Hne) as Hap'. unfold apart in Hap'. nia.
  - intros b k [Hne Hb]%lookup_delete_Some. by apply S4.
  - intros b k c j [Hb1 Hb]%lookup_delete_Some [Hc1 Hc]%lookup_delete_Some. by apply S5.
Qed.

(** An address of a segment is in no other segment, nor in the arrays. *)
Definition foreign (G : layout) (a : Z) (z : Z) : Prop :=
  base <= z < base + arrays_size \/ exists b k, b <> a /\ G !! b = Some k /\ b <= z < b + seg_len k.
Lemma foreign_outside m G a l z : space_ok base m G -> G !! a = Some l -> foreign G a z -> ~ (a <= z < a + seg_len l).
Proof.
  intros Hs Ha [Hz|(b & k & Hne & Hb & Hz)] Hz'.
  - destruct (so_seg _ _ _ Hs a l Ha) as (_ & _ & _ & Hap). unfold apart in Hap. lia.
  - pose proof (so_apart _ _ _ Hs a l b k Ha Hb) as Hap. unfold apart in Hap. destruct Hap; [done|lia..].
Qed.
Lemma block_in_delete G a b : block_in (delete a G) b -> exists c l, c <> a /\ G !! c = Some l /\ b ∈ l.
Proof. intros (c & l & [Hne Hc]%lookup_delete_Some & Hb). by exists c, l. Qed.

Lemma delete_ok h h' G F Ls X a l : loose base h G F Ls X -> G !! a = Some l -> (forall x, x ∈ X <-> exists s, Blk x s true ∈ l) ->
  (forall z, foreign G a z -> (forall b, z <> seg_next b \/ G !! b = None) -> mem h' !! z = mem h !! z) ->
  (forall z, ~ (a <= z < a + seg_len l) -> is_Some (mem h' !! z) <-> is_Some (mem h !! z)) ->
  buckets h' = buckets h -> bits h' = bits h -> blocks_ok base h' (delete a G) F Ls.
Proof.
  intros [B1 B2 B3 B4] Ha HX Hm Hd Eb Ebits. pose proof consts as Co. pose proof (space_delete _ _ _ _ _ B1 Ha Hd) as Hs'.
  assert (Hblk : forall b, block_in (delete a G) b -> forall z, b_at b <= z < b_at b + b_size b + HDR -> mem h' !! z = mem h !! z).
  { intros b (c & k & Hne & Hc & Hb)%block_in_delete z Hz. destruct (block_place base _ G c k b B1 Hc Hb) as (P1 & P2 & _). apply Hm.
    - right. exists c, k. split_and!; try done; lia.
    - intros d. destruct (G !! d) as [j|] eqn:Ed; [left|by right]. intros E. unfold seg_next in E.
      destruct (so_blocks _ _ _ B1 d j Ed) as (_ & Zj & _). pose proof (sized_total _ Zj) as [? _].
      destruct (decide (c = d)) as [->|Hcd]; [lia|]. pose proof (so_apart _ _ _ B1 c k d j Hc Ed Hcd) as Hap. unfold apart, seg_len in *. lia. }
  assert (HF : forall x s, F !! x = Some s <-> block_in (delete a G) (Blk x s true)).
  { intros x s. rewrite (B4 x s). split.
    - intros [(c & k & Hc & Hb) Hx]. exists c, k. split; [|done]. apply lookup_delete_Some. split; [|done]. intros <-.
      apply Hx, HX. exists s. congruence.
    - intros (c & k & Hne & Hc & Hb)%block_in_delete. split; [by exists c, k|]. intros [t Ht]%HX.
      pose proof (block_unique base _ G (Blk x s true) (Blk x t true) B1 ltac:(by exists c, k) ltac:(by exists a, l) eq_refl) as E. injection E as ->.
      destruct (block_place base _ G c k _ B1 Hc Hb) as (P1 & P2 & _ & _ & P3). destruct (block_place base _ G a l _ B1 Ha Ht) as (Q1 & Q2 & _).
      pose proof (so_apart _ _ _ B1 c k a l Hc Ha Hne) as Hap. unfold apart in Hap. simpl in *. lia. }
  split; [done| | |done].
  - intros c k Hc Hwh. pose proof Hc as [Hne Hc0]%lookup_delete_Some. destruct (B2 c k Hc0 Hwh) as (H1 & H2 & H3).
    destruct (so_blocks _ _ _ B1 c k Hc0) as (Ht & Hz & Hnil). destruct (sized_total _ Hz) as [Hnn _].
    assert (Hlast : exists b, b ∈ k /\ b_at b <= c + SEG + total k < b_at b + b_size b + HDR /\ c + SEG + total k + W < b_at b + b_size b + HDR).
    { destruct k as [|b k0 _] using rev_ind; [done|]. exists b. split; [set_solver +|]. rewrite tiled_app in Ht. rewrite total_app. simpl in Ht |- *.
      assert (MIN <= b_size b) by (apply (Hz b); set_solver +). lia. }
    destruct Hlast as (b & Hb & P1 & P2). assert (Hbin : block_in (delete a G) b) by (by exists c, k).
    split; [|split; [rewrite (Hblk b Hbin); [done|lia]|rewrite (Hblk b Hbin); [done|lia]]].
    eapply headers_frame; [exact H1|]. intros d Hdin. assert (MIN <= b_size d) by (by apply (Hz d)).
    split; apply (Hblk d); [by exists c, k|lia|by exists c, k|lia].
  - assert (Hmap : map_ok base F (mem h')) by (eapply space_map; [exact Hs'|intros x s Hx; exists true; by apply HF]).
    eapply free_in_headers; [exact B3|done|done|done| |].
    + intros x s Hx z Hz _. apply HF in Hx. apply (Hblk _ Hx). simpl. lia.
    + intros z Hz. apply Hm; [by left|]. intros d. destruct (G !! d) as [j|] eqn:Ed; [left|by right]. intros ->.
      destruct (so_seg _ _ _ B1 d j Ed) as (_ & _ & _ & Hap). destruct (so_blocks _ _ _ B1 d j Ed) as (_ & Zj & _). pose proof (sized_total _ Zj) as [? _].
      unfold apart, seg_next, seg_len in *. lia.
Qed.

(** Headers of segments have their own places. *)
Lemma seg_next_inj m G a l b k z : space_ok base m G -> G !! a = Some l -> G !! b = Some k -> a <= z < a + seg_len l -> z = seg_next b -> a = b.
Proof.
  intros Hs Ha Hb Hz ->. destruct (decide (a = b)) as [?|Hne]; [done|]. exfalso. pose proof (so_apart _ _ _ Hs a l b k Ha Hb Hne) as Hap.
  destruct (so_blocks _ _ _ Hs b k Hb) as (_ & Zk & _). pose proof (sized_total _ Zk) as [? _]. pose proof consts.
  unfold apart, seg_next, seg_len in *. lia.
Qed.
Lemma find_fuel fuel : forall a p h r fuel', find_segment fuel a p h = Some r -> (fuel <= fuel')%nat -> find_segment fuel' a p h = Some r.
Proof.
  induction fuel as [|fuel IH]; intros a p h r fuel' Hr Hle; destruct fuel' as [|fuel']; [done| |lia|]; simpl in *.
  - destruct (segment_link p h) as [x|]; [|done]. simpl in *. by destruct (x =? a).
  - destruct (segment_link p h) as [x|]; [|done]. simpl in *. destruct (x =? a); [done|]. apply (IH _ _ _ _ _ Hr). lia.
Qed.

Lemma del_segment_ok h G F Ls X C a l : loose base h G F Ls X -> state_ok h G C -> G !! a = Some l -> (forall x, x ∈ X <-> exists s, Blk x s true ∈ l) ->
  (forall x, in_cache C x -> forall s f, Blk x s f ∉ l) ->
  exists h', zend_mm_del_segment a h = Some h' /\ blocks_ok base h' (delete a G) F Ls /\ state_ok h' (delete a G) C
    /\ data_kept (delete a G) h h' /\ user h' = user h /\ real_size h' <= real_size h.
Proof.
  intros Hl Hst Ha HX HC. pose proof (lo_space _ _ _ _ _ _ Hl) as Hs. pose proof consts as Co.
  pose proof (state_sum _ _ _ Hs Hst) as Hsum. destruct Hst as [S1 S2 S3 S4 S5 S6 S7 S8 S9]. destruct S5 as (segs & Hn & Hin & Hh & Hch).
  destruct (unlink_segment_ok h segs a Hn Hh Hch) as (p & q & h1 & segs' & Ef & Eq & El & Hn' & Hin' & Hh' & Hch' & Hm1 & Hd1 & E1); [apply Hin; by eexists|].
  destruct (so_blocks _ _ _ Hs a l Ha) as (_ & Zl & _). pose proof (sized_total _ Zl) as [Hnn _].
  assert (Hfuel : (length segs <= base.size (regions h))%nat).
  { apply nodup_length; [done|]. intros x Hx%Hin. rewrite S3, lookup_fmap. by apply fmap_is_Some. }
  assert (Hother : forall b, b ∈ segs -> exists k, G !! b = Some k) by (intros b Hb; by apply Hin in Hb as [k Hk]; exists k).
  assert (Hsz : load (seg_size a) h1 = Some (seg_len l)).
  { unfold load. rewrite Hm1; [by apply S4|]. intros b Hb E. destruct (Hother b Hb) as [k Hk]. unfold seg_size in E.
    assert (a = b) as -> by (eapply (seg_next_inj _ _ a l b k a); [exact Hs|done|done|unfold seg_len; lia|exact E]). unfold seg_next in E. lia. }
  unfold zend_mm_del_segment. rewrite (find_fuel _ _ _ _ _ _ Ef Hfuel). cbn [mbind option_bind]. rewrite Eq. cbn [mbind option_bind]. rewrite El. cbn [mbind option_bind].
  rewrite Hsz. cbn [mbind option_bind]. unfold ZEND_MM_STORAGE_FREE, drop_region.
  assert (Er : regions h1 = regions h /\ real_size h1 = real_size h /\ buckets h1 = buckets h /\ bits h1 = bits h /\ block_size h1 = block_size h /\ user h1 = user h).
  { rewrite E1. done. }
  destruct Er as (R1 & R2 & R3 & R4 & R5 & R6). cbn [regions set_real_size]. rewrite R1. assert (Era : regions h !! a = Some (seg_len l)) by (by rewrite S3, lookup_fmap, Ha).
  rewrite Era. cbn [mbind option_bind]. eexists. split; [reflexivity|]. set (h2 := set_regions _ _).
  assert (Hm2 : forall z, ~ (a <= z < a + seg_len l) -> mem h2 !! z = mem h1 !! z) by (intros z Hz; simpl; by apply lookup_drop).
  assert (Hreal : real_size h = seg_len l + sum (delete a (regions h))) by (rewrite S6; by apply sum_delete).
  assert (Hdn : 0 <= sum (delete a (regions h))).
  { apply sum_nonneg. intros b n [_ Hb]%lookup_delete_Some. rewrite S3, lookup_fmap in Hb. destruct (G !! b) as [k|] eqn:Eb; [|done]. injection Hb as <-.
    destruct (so_blocks _ _ _ Hs b k Eb) as (_ & Zk & _). pose proof (sized_total _ Zk) as [? _]. unfold seg_len. lia. }
  assert (Hsl : 0 <= seg_len l) by (unfold seg_len; lia).
  assert (Ereal : real_size h2 = sum (delete a (regions h))) by (simpl; rewrite R2, size_t_small by lia; lia).
  assert (Hdata : forall z, data (delete a G) z -> mem h2 !! z = mem h !! z).
  { intros z (b & (c & k & Hne & Hc & Hb)%block_in_delete & Hu & Hz). destruct (block_place base _ G c k b Hs Hc Hb) as (P1 & P2 & _).
    rewrite Hm2; [|apply (foreign_outside _ _ _ _ _ Hs Ha); right; exists c, k; split_and!; (done || lia)].
    apply Hm1. intros d Hd' E. destruct (Hother d Hd') as [j Hj]. assert (c = d) as <- by (eapply (seg_next_inj _ _ c k d j z); [exact Hs|done|done|lia|exact E]).
    unfold seg_next in E. lia. }
  assert (Hnext : forall b k, b <> a -> G !! b = Some k -> mem h2 !! seg_next b = mem h1 !! seg_next b /\ mem h2 !! seg_size b = mem h !! seg_size b).
  { intros b k Hne Hb. destruct (so_blocks _ _ _ Hs b k Hb) as (_ & Zk & _). pose proof (sized_total _ Zk) as [? _].
    assert (Hb1 : forall z, b <= z < b + 2 * W -> ~ (a <= z < a + seg_len l)).
    { intros z Hz. apply (foreign_outside _ _ _ _ _ Hs Ha). right. exists b, k. split_and!; try done; unfold seg_len; lia. }
    rewrite !Hm2 by (apply Hb1; unfold seg_next, seg_size; lia). split; [done|]. apply Hm1. intros d Hd' E. destruct (Hother d Hd') as [j Hj].
    assert (b = d) as <- by (eapply (seg_next_inj _ _ b k d j (seg_size b)); [exact Hs|done|done|unfold seg_size, seg_len; lia|exact E]). unfold seg_next, seg_size in E. lia. }
  split; [|split; [|split; [done|split; [|lia]]]].
  - eapply delete_ok; [exact Hl|exact Ha|done| | |done|done].
    + intros z Hz Hne. rewrite Hm2 by (by apply (foreign_outside _ _ _ _ _ Hs Ha)). apply Hm1. intros b Hb E. destruct (Hother b Hb) as [k Hk].
      destruct (Hne b); congruence.
    + intros z Hz. rewrite Hm2 by done. apply Hd1.
  - split.
    + intros b k [_ Hb]%lookup_delete_Some. by apply (S1 b).
    + intros b k [_ Hb]%lookup_delete_Some. by apply (S2 b).
    + rewrite fmap_delete, <- S3. done.
    + intros b k [Hne Hb]%lookup_delete_Some. destruct (Hnext b k) as [_ ->]; [done|done|]. by apply S4.
    + exists segs'. split; [done|]. split; [|split; [done|]].
      * intros b. rewrite Hin', Hin, lookup_delete_is_Some. naive_solver.
      * eapply chain_frame; [exact Hch'|]. intros b [Hb Hne]%Hin'. destruct (Hother b Hb) as [k Hk]. by destruct (Hnext b k Hne Hk).
    + rewrite Ereal. done.
    + done.
    + intros i k Hi. destruct (S8 i k Hi) as (C1 & C2 & C3).
      assert (Hin2 : forall x, x ∈ k -> block_in (delete a G) (Blk x (8 * Z.of_nat i + MIN) false)).
      { intros x Hx. destruct (C3 x Hx) as (b & j & Hb & Hxb). exists b, j. split; [|done]. apply lookup_delete_Some. split; [|done]. intros <-.
        rewrite Ha in Hb. injection Hb as <-. by apply (HC x ltac:(by exists i, k) (8 * Z.of_nat i + MIN) false). }
      split; [done|]. split; [|done]. eapply chain_frame; [exact C2|]. intros x Hx. apply Hdata. eapply cached_data; [|by apply Hin2].
      eapply space_delete; [exact Hs|exact Ha|]. intros z Hz. rewrite Hm2 by done. apply Hd1.
    + simpl. rewrite R5. done.
  - rewrite <- R6. done.
Qed.
End State.
