(* ===== verification/AllocRelease.v ===== *)
(** * AllocRelease: a used block becomes free

    The block is joined with its free neighbours; a segment that has become one
    free block is given back. *)
From S2P Require Import Prelude ZendAlloc AllocBits AllocRing AllocTrie AllocCut AllocRemove AllocSearch AllocFree AllocTake AllocPick AllocMap AllocLayout AllocHeap AllocSplit AllocState.

Section Release.
Context `{SizeT} {TN : Torn}.
Abbreviation N := ZEND_MM_NUM_BUCKETS.
Abbreviation MIN := ZEND_MM_ALIGNED_MIN_HEADER_SIZE.
Abbreviation HDR := ZEND_MM_ALIGNED_HEADER_SIZE.
Abbreviation SEG := ZEND_MM_ALIGNED_SEGMENT_SIZE.
Abbreviation GUARD := ZEND_MM_GUARD_BLOCK.
Abbreviation layout := (gmap Z (list blk)).
Variable base : Z.
Abbreviation loose := (loose base).
Abbreviation blocks_ok := (blocks_ok base).
Abbreviation state_ok := (state_ok).

Definition ends_free (l : list blk) : bool := match last l with Some c => b_free c | None => false end.
Definition starts_free (l : list blk) : bool := match l with c :: _ => b_free c | [] => false end.
Definition is_nil (l : list blk) : bool := match l with [] => true | _ => false end.

Lemma coalesced_parts l1 : forall l2, coalesced (l1 ++ l2) <-> coalesced l1 /\ coalesced l2 /\ (ends_free l1 = true -> starts_free l2 = false).
Proof.
  induction l1 as [|b l1 IH]; intros l2; [simpl; split; [intros; split_and!; try done|tauto]|].
  destruct l1 as [|c l1].
  - destruct l2 as [|d l2]; simpl; unfold ends_free; simpl; [tauto|]. tauto.
  - change ((b :: c :: l1) ++ l2) with (b :: c :: l1 ++ l2). specialize (IH l2). simpl app in IH.
    change (coalesced (b :: c :: l1 ++ l2)) with ((b_free b = true -> b_free c = false) /\ coalesced (c :: l1 ++ l2)). rewrite IH.
    change (coalesced (b :: c :: l1)) with ((b_free b = true -> b_free c = false) /\ coalesced (c :: l1)).
    assert (E : ends_free (b :: c :: l1) = ends_free (c :: l1)) by done. rewrite E. tauto.
Qed.
Lemma coalesced_put l1 b l2 : coalesced l1 -> coalesced l2 -> ends_free l1 = false -> starts_free l2 = false -> coalesced (l1 ++ [b] ++ l2).
Proof.
  intros H1 H2 E1 E2. apply coalesced_parts. split; [done|]. split; [|by rewrite E1]. apply coalesced_parts. split; [done|]. split; [done|]. by intros _.
Qed.

(** What was found next to a block: nothing, or a free block. *)
Definition neighbour (m : list blk) : Prop := m = [] \/ exists c, m = [c] /\ b_free c = true.
Definition addrs (m : list blk) : list Z := b_at <$> m.

Lemma tiled_addr m G a l1 c l2 : space_ok base m G -> G !! a = Some (l1 ++ c :: l2) -> forall d, d ∈ l1 ++ l2 -> b_at d <> b_at c.
Proof.
  intros Hs Ha d Hd. destruct (so_blocks _ _ _ Hs a _ Ha) as (Ht & Hz & _). rewrite tiled_app in Ht. rewrite sized_app in Hz.
  destruct Ht as (T1 & Tc & T2), Hz as (Z1 & Z2). assert (Z3 : sized l2) by (intros e He; apply Z2; by right).
  destruct (Z2 c) as [_ Hc]; [by left|]. pose proof consts. apply elem_of_app in Hd as [Hd|Hd].
  - destruct (tiled_in l1 _ _ T1 Z1 Hd) as (? & ? & _). destruct (Z1 d Hd). lia.
  - destruct (tiled_in l2 _ _ T2 Z3 Hd) as (? & ? & _). lia.
Qed.
Lemma seg_total m G a l1 m0 l2 : space_ok base m G -> G !! a = Some (l1 ++ m0 ++ l2) -> 0 <= total l1 /\ 0 <= total m0 /\ 0 <= total l2 /\ total l1 + total m0 + total l2 < 2 ^ N.
Proof.
  intros Hs Ha. destruct (so_blocks _ _ _ Hs a _ Ha) as (_ & Hz & _). rewrite !sized_app in Hz. destruct Hz as (Z1 & Z2 & Z3).
  destruct (sized_total _ Z1), (sized_total _ Z2), (sized_total _ Z3). destruct (so_seg _ _ _ Hs a _ Ha) as (_ & ? & _). pose proof consts.
  unfold seg_len in *. rewrite !total_app in *. lia.
Qed.

(** ** The block behind *)
Lemma join_next h G F Ls X a l1 b l2 sz : loose h G F Ls X -> G !! a = Some (l1 ++ b :: l2) -> ~ torn a -> (forall c, c ∈ l2 -> b_at c ∉ X) ->
  let y := b_at b + b_size b in
  (forall m l, l2 = m ++ l -> 0 <= sz + total m < 2 ^ N) ->
  exists mn l2' nf h' F' Ls', l2 = mn ++ l2' /\ neighbour mn /\ (mn = [] -> starts_free l2 = false) /\ ZEND_MM_IS_FREE_BLOCK y h = Some nf
    /\ (if nf : bool then h ← zend_mm_remove_from_free_list y h; n ← ZEND_MM_FREE_BLOCK_SIZE y h; Some (size_t (sz + n), h) else Some (sz, h))
       = Some (sz + total mn, h')
    /\ (if nf : bool then n ← ZEND_MM_FREE_BLOCK_SIZE y h; h ← zend_mm_remove_from_free_list y h; Some (size_t (sz + n), h) else Some (sz, h))
       = Some (sz + total mn, h')
    /\ loose h' G F' Ls' (addrs mn ++ X) /\ kept G h h' /\ others h' = others h /\ same_words h h'.
Proof.
  intros Hl Ha Hwh HX y Hsz. pose proof (lo_space _ _ _ _ _ _ Hl) as Hs. pose proof (lo_headers _ _ _ _ _ _ Hl _ _ Ha Hwh) as Hh.
  pose proof (next_free_ok base h G a l1 l2 b Hs Ha Hh) as En. destruct (starts_free l2) eqn:Ef.
  - destruct l2 as [|c l2]; [done|]. simpl in Ef. rewrite Ef in En.
    assert (Ey : y = b_at c).
    { destruct (so_blocks _ _ _ Hs a _ Ha) as (Ht & _). rewrite tiled_app in Ht. destruct Ht as (_ & Tb & Tc & _). unfold y. lia. }
    assert (Hc : block_in G c) by (exists a, (l1 ++ b :: c :: l2); split; [done|set_solver +]).
    destruct (take_ok base h G F Ls X c Hl Hc Ef) as (h' & F' & Ls' & E & Hl' & Hk & Ho & Hw); [apply HX; by left|].
    exists [c], l2, true, h', F', Ls'. split; [done|]. split; [right; by exists c|]. split; [done|]. split; [done|].
    assert (Hb2 : G !! a = Some ((l1 ++ [b]) ++ c :: l2)) by (by rewrite <- app_assoc).
    pose proof (free_size_ok base h G a (l1 ++ [b]) l2 c Hs Hb2 (lo_headers _ _ _ _ _ _ Hl _ _ Hb2 Hwh) Ef) as E1.
    pose proof (free_size_ok base h' G a (l1 ++ [b]) l2 c (lo_space _ _ _ _ _ _ Hl') Hb2 (lo_headers _ _ _ _ _ _ Hl' _ _ Hb2 Hwh) Ef) as E2.
    specialize (Hsz [c] l2 eq_refl). simpl total in *. rewrite Z.add_0_r in *. rewrite Ey. split_and!; try done.
    + rewrite E. cbn [mbind option_bind]. rewrite E2. cbn [mbind option_bind]. by rewrite size_t_small.
    + rewrite E1. cbn [mbind option_bind]. rewrite E. cbn [mbind option_bind]. by rewrite size_t_small.
  - exists [], l2, false, h, F, Ls. simpl. rewrite Z.add_0_r. split_and!; try done; [by left|]. unfold y. rewrite En. f_equal. exact Ef.
Qed.

(** ** The block before *)
Lemma join_prev h G F Ls X a l1 b l2 sz : loose h G F Ls X -> G !! a = Some (l1 ++ b :: l2) -> ~ torn a -> (forall c, c ∈ l1 -> b_at c ∉ X) ->
  let y := b_at b in
  (forall l m, l1 = l ++ m -> 0 <= sz + total m < 2 ^ N) ->
  exists l1' mp pf h' F' Ls', l1 = l1' ++ mp /\ neighbour mp /\ (mp = [] -> ends_free l1 = false) /\ ZEND_MM_PREV_BLOCK_IS_FREE y h = Some pf
    /\ (if pf : bool then p ← ZEND_MM_PREV_BLOCK y h; h ← zend_mm_remove_from_free_list p h; n ← ZEND_MM_FREE_BLOCK_SIZE p h; Some (p, size_t (sz + n), h) else Some (y, sz, h))
       = Some (a + SEG + total l1', sz + total mp, h')
    /\ (if pf : bool then p ← ZEND_MM_PREV_BLOCK y h; n ← ZEND_MM_FREE_BLOCK_SIZE p h; h ← zend_mm_remove_from_free_list p h; Some (p, size_t (sz + n), h) else Some (y, sz, h))
       = Some (a + SEG + total l1', sz + total mp, h')
    /\ loose h' G F' Ls' (addrs mp ++ X) /\ kept G h h' /\ others h' = others h /\ same_words h h'.
Proof.
  intros Hl Ha Hwh HX y Hsz. pose proof (lo_space _ _ _ _ _ _ Hl) as Hs. pose proof (lo_headers _ _ _ _ _ _ Hl _ _ Ha Hwh) as Hh.
  pose proof (prev_free_ok base h G a l1 l2 b Hs Ha Hh) as En. fold (ends_free l1) in En. destruct (ends_free l1) eqn:Ef.
  - destruct l1 as [|c l1 _] using rev_ind; [done|]. unfold ends_free in Ef. rewrite last_snoc in Ef.
    assert (Hc : block_in G c) by (exists a, ((l1 ++ [c]) ++ b :: l2); split; [done|set_solver +]).
    destruct (take_ok base h G F Ls X c Hl Hc Ef) as (h' & F' & Ls' & E & Hl' & Hk & Ho & Hw); [apply HX; set_solver +|].
    exists l1, [c], true, h', F', Ls'. split; [done|]. split; [right; by exists c|]. split; [done|]. split; [done|].
    assert (Hb2 : G !! a = Some (l1 ++ c :: b :: l2)) by (by rewrite Ha, <- app_assoc).
    pose proof (free_size_ok base h G a l1 (b :: l2) c Hs Hb2 (lo_headers _ _ _ _ _ _ Hl _ _ Hb2 Hwh) Ef) as E1.
    pose proof (free_size_ok base h' G a l1 (b :: l2) c (lo_space _ _ _ _ _ _ Hl') Hb2 (lo_headers _ _ _ _ _ _ Hl' _ _ Hb2 Hwh) Ef) as E2.
    pose proof (prev_block_ok base h G a (l1 ++ [c]) l2 b Hs Ha Hh c l1 eq_refl) as Ep.
    pose proof (proj1 (read_place base h G a l1 (b :: l2) c Hs Hb2)) as Ec.
    specialize (Hsz l1 [c] eq_refl). simpl total in *. rewrite Z.add_0_r in *. unfold y. rewrite Ep. cbn [mbind option_bind]. rewrite <- Ec. split_and!; try done.
    + rewrite E. cbn [mbind option_bind]. rewrite E2. cbn [mbind option_bind]. by rewrite size_t_small.
    + rewrite E1. cbn [mbind option_bind]. rewrite E. cbn [mbind option_bind]. by rewrite size_t_small.
  - exists l1, [], false, h, F, Ls. rewrite app_nil_r. pose proof (proj1 (read_place base h G a l1 l2 b Hs Ha)) as Ec. unfold y. rewrite Ec.
    simpl. rewrite Z.add_0_r. split_and!; try done; by left || rewrite <- Ec.
Qed.

(** ** The ends of a part of a segment *)
Lemma ends_ok h G a l1 m0 l2 : space_ok base (mem h) G -> headers_ok (mem h) a (l1 ++ m0 ++ l2) -> G !! a = Some (l1 ++ m0 ++ l2) -> m0 <> [] ->
  let x := a + SEG + total l1 in
  ZEND_MM_IS_FIRST_BLOCK x h = Some (is_nil l1) /\ ZEND_MM_IS_GUARD_BLOCK (x + total m0) h = Some (is_nil l2).
Proof.
  intros Hs Hh Ha Hne x. split.
  - destruct m0 as [|b m0]; [done|]. pose proof (proj1 (read_place base h G a l1 (m0 ++ l2) b Hs Ha)) as E. unfold x. rewrite <- E.
    by apply (first_ok base h G a l1 (m0 ++ l2) b Hs Ha).
  - destruct m0 as [|b m0 _] using rev_ind; [done|].
    assert (Ea : l1 ++ (m0 ++ [b]) ++ l2 = (l1 ++ m0) ++ b :: l2) by (by rewrite <- !app_assoc). rewrite Ea in Ha, Hh.
    pose proof (proj1 (read_place base h G a (l1 ++ m0) l2 b Hs Ha)) as E. rewrite total_app in E |- *. simpl.
    replace (x + (total m0 + (b_size b + 0))) with (b_at b + b_size b) by (unfold x; lia).
    by apply (next_guard_ok base h G a (l1 ++ m0) l2 b Hs Ha).
Qed.

(** ** The part becomes a free block *)

(** No segment is left without a used block. *)
Definition occupied (G : layout) : Prop := forall a l, G !! a = Some l -> exists b, b ∈ l /\ b_free b = false.
Definition released (h h' : mm_heap) (G G' : layout) (C : list (list Z)) (x : Z) : Prop :=
  (exists F Ls, blocks_ok h' G' F Ls) /\ state_ok h' G' C /\ data_kept G' h h' /\ user h' = user h /\ real_size h' <= real_size h
  /\ (occupied G -> occupied G') /\ (forall y s, block_in G' (Blk y s false) <-> block_in G (Blk y s false) /\ y <> x)
  /\ forall c, torn c -> G' !! c = G !! c.

Lemma occupied_delete G a : occupied G -> occupied (delete a G).
Proof. intros Ho c k [_ Hc]%lookup_delete_Some. by apply (Ho c). Qed.
Lemma block_seg m G a l c k b : space_ok base m G -> G !! a = Some l -> G !! c = Some k -> b ∈ l -> b ∈ k -> a = c.
Proof.
  intros Hs Ha Hc Hb Hb'. destruct (decide (a = c)) as [?|Hne]; [done|]. exfalso. pose proof (so_apart _ _ _ Hs a l c k Ha Hc Hne) as Hap.
  destruct (block_place base m G a l b Hs Ha Hb) as (? & ? & _ & _ & ?). destruct (block_place base m G c k b Hs Hc Hb') as (? & ? & _).
  pose proof consts. unfold apart in Hap. lia.
Qed.
(** A block is in one place of its segment. *)
Lemma block_part m G a l1 m0 l2 b : space_ok base m G -> G !! a = Some (l1 ++ m0 ++ l2) -> b ∈ m0 -> b ∉ l1 /\ b ∉ l2.
Proof.
  intros Hs Ha Hb. apply list_elem_of_split in Hb as (k1 & k2 & ->).
  assert (Ha' : G !! a = Some ((l1 ++ k1) ++ b :: k2 ++ l2)) by (rewrite Ha; f_equal; rewrite <- !app_assoc; done).
  pose proof (tiled_addr _ _ _ _ _ _ Hs Ha') as Hd. split; intros Hb; by apply (Hd b); [rewrite !elem_of_app; auto|].
Qed.

Section Part.
Variables (h : mm_heap) (G : layout) (F : gmap Z Z) (Ls : lists) (X : list Z) (C : list (list Z)) (a : Z) (l1 m0 l2 : list blk) (b : blk).
Hypothesis Hloose : loose h G F Ls X.
Hypothesis Hstate : state_ok h G C.
Hypothesis Ha : G !! a = Some (l1 ++ m0 ++ l2).
Hypothesis Hwhole : ~ torn a.
Hypothesis Hb : b ∈ m0.
Hypothesis Hused : b_free b = false.
Hypothesis Honly : forall c, c ∈ m0 -> c = b \/ b_free c = true.
Hypothesis HX : forall x, x ∈ X <-> exists s, Blk x s true ∈ m0.
Hypothesis Hl1 : ends_free l1 = false.
Hypothesis Hl2 : starts_free l2 = false.
Hypothesis Hcache : ~ in_cache C (b_at b).
Abbreviation x := (a + SEG + total l1).

Lemma part_space : space_ok base (mem h) G.
Proof. apply Hloose. Qed.
Lemma part_place : block_in G b.
Proof. exists a, (l1 ++ m0 ++ l2). split; [done|]. rewrite !elem_of_app. auto. Qed.
Lemma part_total : MIN <= total m0.
Proof.
  destruct (so_blocks _ _ _ part_space a _ Ha) as (_ & Hz & _). rewrite !sized_app in Hz. destruct Hz as (_ & Z2 & _).
  pose proof Hb as Hb'. apply list_elem_of_split in Hb' as (k1 & k2 & E). destruct (Z2 b Hb) as [_ ?]. clear Honly HX. subst m0.
  rewrite total_app. simpl. rewrite sized_app in Z2. destruct Z2 as [Z3 Z4]. assert (Z5 : sized k2) by (intros c Hc; apply Z4; by right).
  destruct (sized_total _ Z3), (sized_total _ Z5). lia.
Qed.
Lemma part_hole : hole base h G a l1 m0 l2 F Ls.
Proof.
  eapply hole_of; [exact Hloose|exact Ha|exact Hwhole|intros E; rewrite E in Hb; by apply not_elem_of_nil in Hb| |].
  - intros y s Hy. apply HX. by exists s.
  - intros y Hy. by apply HX.
Qed.
(** Which used blocks are left. *)
Lemma used_left y s : (exists c k, c <> a /\ G !! c = Some k /\ Blk y s false ∈ k) \/ Blk y s false ∈ l1 ++ l2 <-> block_in G (Blk y s false) /\ y <> b_at b.
Proof.
  assert (Hu : forall c k, G !! c = Some k -> Blk y s false ∈ k -> y = b_at b -> c = a /\ Blk y s false = b).
  { intros c k Hc Hin E. assert (Eb : Blk y s false = b) by (apply (block_unique base _ G _ _ part_space); [by exists c, k|apply part_place|done]).
    split; [|done]. eapply (block_seg _ _ c k a _ b); [exact part_space|done|exact Ha|by rewrite <- Eb|rewrite !elem_of_app; auto]. }
  destruct (block_part _ _ _ _ _ _ _ part_space Ha Hb) as [Hn1 Hn2]. split.
  - intros [(c & k & Hne & Hc & Hin)|Hin].
    + split; [by exists c, k|]. intros E. destruct (Hu c k Hc Hin E). done.
    + assert (Hin' : Blk y s false ∈ l1 ++ m0 ++ l2) by (rewrite !elem_of_app in *; tauto). split; [by exists a, (l1 ++ m0 ++ l2)|]. intros E.
      destruct (Hu a _ Ha Hin' E) as [_ Eb]. rewrite Eb, elem_of_app in Hin. tauto.
  - intros [(c & k & Hc & Hin) Hne]. destruct (decide (c = a)) as [->|Hca]; [|left; by exists c, k]. right. rewrite Ha in Hc. injection Hc as <-.
    rewrite !elem_of_app in *. destruct Hin as [?|[Hin|?]]; [tauto| |tauto]. destruct (Honly _ Hin) as [E|E]; [by rewrite <- E in Hne|done].
Qed.
Lemma cache_left y s : in_cache C y -> block_in G (Blk y s false) -> block_in (<[a := l1 ++ [Blk x (total m0) true] ++ l2]> G) (Blk y s false).
Proof.
  intros Hy Hin. apply block_in_retile. assert (Hne : y <> b_at b) by congruence.
  destruct (proj2 (used_left y s) (conj Hin Hne)) as [?|Hx]; [by left|right]. rewrite !elem_of_app in *. tauto.
Qed.
Lemma part_state h1 : space_ok base (mem h1) (<[a := l1 ++ [Blk x (total m0) true] ++ l2]> G) ->
  kept (<[a := l1 ++ [Blk x (total m0) true] ++ l2]> G) h h1 -> others h1 = others h -> state_ok h1 (<[a := l1 ++ [Blk x (total m0) true] ++ l2]> G) C.
Proof.
  intros Hs Hk Ho. eapply state_move; [exact Hstate|exact Hs| | |exact Hk|by apply others_fixed|exact cache_left].
  - apply map_eq. intros c. rewrite !lookup_fmap. destruct (decide (c = a)) as [->|Hne]; [|by rewrite lookup_insert_ne].
    rewrite lookup_insert_eq, Ha. simpl. f_equal. unfold seg_len. rewrite !total_app. simpl. lia.
  - intros c k Hc. apply lookup_insert_Some in Hc as [[<- <-]|[_ Hc]]; [|by apply (st_coalesced _ _ _ Hstate c)].
    pose proof (st_coalesced _ _ _ Hstate a _ Ha) as Hco. rewrite !coalesced_parts in Hco.
    apply coalesced_put; tauto.
Qed.
Lemma part_occupied : is_nil l1 && is_nil l2 = false -> occupied G -> occupied (<[a := l1 ++ [Blk x (total m0) true] ++ l2]> G).
Proof.
  intros Hne Ho c k Hc. apply lookup_insert_Some in Hc as [[<- <-]|[_ Hc]]; [|by apply (Ho c)].
  destruct l1 as [|d k1 _] using rev_ind.
  - destruct l2 as [|d k2]; [done|]. exists d. split; [set_solver +|exact Hl2].
  - exists d. split; [set_solver +|]. unfold ends_free in Hl1. by rewrite last_snoc in Hl1.
Qed.
Lemma released_here h' : is_nil l1 && is_nil l2 = false -> laid base h h' G a l1 [Blk x (total m0) true] l2 ->
  released h h' G (<[a := l1 ++ [Blk x (total m0) true] ++ l2]> G) C (b_at b).
Proof.
  intros Hne ((F' & Ls' & Hb') & Hk & Ho & Hw). split; [by exists F', Ls'|].
  split; [apply part_state; [apply Hb'|done|done]|]. split; [by apply kept_data|]. split; [by apply others_user|].
  split; [unfold others in Ho; injection Ho; intros; lia|]. split; [by apply part_occupied|].
  split; [|intros c Hc'; rewrite lookup_insert_ne; [done|by intros <-]]. intros y s. rewrite block_in_retile, <- used_left, !elem_of_app, list_elem_of_singleton.
  split; [|tauto]. intros [?|[?|[?|?]]]; (done || tauto).
Qed.

(** The part is a whole segment. *)
Lemma released_segment : l1 = [] -> l2 = [] -> exists h' G', zend_mm_del_segment (x - SEG) h = Some h' /\ released h h' G G' C (b_at b).
Proof.
  intros E1 E2. pose proof Ha as Ha'. rewrite E1, E2, app_nil_r in Ha'. simpl in Ha'. replace (x - SEG) with a by (rewrite E1; simpl; lia).
  destruct (del_segment_ok base h G F Ls X C a m0 Hloose Hstate Ha') as (h' & E & Hb' & Hst' & Hk & Hu & Hr).
  - exact HX.
  - intros y Hy s f Hin. destruct Hy as (i & k & Hi & Hyk). destruct (st_cache _ _ _ Hstate i k Hi) as (_ & _ & Hbl).
    assert (Eb : Blk y s f = Blk y (8 * Z.of_nat i + MIN) false).
    { apply (block_unique base _ G _ _ part_space); [by exists a, m0|by apply Hbl|done]. }
    rewrite Eb in Hin. destruct (Honly _ Hin) as [E|E]; [|done]. apply Hcache. rewrite <- E. by exists i, k.
  - exists h', (delete a G). split; [done|]. split; [by exists F, Ls|]. split; [done|]. split; [done|]. split; [done|]. split; [done|]. split; [apply occupied_delete|].
    split; [|intros c Hc'; rewrite lookup_delete_ne; [done|by intros <-]]. intros y s. rewrite <- used_left, E1, E2, app_nil_r. split.
    + intros Hin. left. by apply block_in_delete in Hin.
    + intros [(c & k & Hne & Hc & Hin)|Hin]; [|by apply not_elem_of_nil in Hin]. exists c, k. split; [|done]. apply lookup_delete_Some. by split.
Qed.

(** The header is written only when the segment is kept. *)
Lemma release_checked : exists h' G',
  (if is_nil l1 && is_nil l2 then zend_mm_del_segment (x - SEG) h
   else h ← ZEND_MM_BLOCK x ZEND_MM_FREE_BLOCK (total m0) h; zend_mm_add_to_free_list x h) = Some h' /\ released h h' G G' C (b_at b).
Proof.
  destruct (is_nil l1 && is_nil l2) eqn:E.
  - apply andb_true_iff in E as [E1 E2]. apply released_segment; [by destruct l1|by destruct l2].
  - destruct (release_ok base h G a l1 m0 l2 F Ls part_hole part_total) as (h1 & h' & E1 & E2 & Hlaid). rewrite E1. cbn [mbind option_bind].
    exists h', (<[a := l1 ++ [Blk x (total m0) true] ++ l2]> G). split; [done|]. by apply released_here.
Qed.
End Part.

(** The header is written first. *)
Lemma release_written h G F Ls X C a l1 m0 l2 b : loose h G F Ls X -> state_ok h G C -> G !! a = Some (l1 ++ m0 ++ l2) ->
  ~ torn a -> b ∈ m0 -> b_free b = false -> (forall c, c ∈ m0 -> c = b \/ b_free c = true) -> (forall x, x ∈ X <-> exists s, Blk x s true ∈ m0) ->
  ends_free l1 = false -> starts_free l2 = false -> ~ in_cache C (b_at b) -> let x := a + SEG + total l1 in
  exists h1 h' G', ZEND_MM_BLOCK x ZEND_MM_FREE_BLOCK (total m0) h = Some h1
    /\ ZEND_MM_IS_FIRST_BLOCK x h1 = Some (is_nil l1) /\ ZEND_MM_NEXT_BLOCK x h1 = Some (x + total m0)
    /\ ZEND_MM_IS_GUARD_BLOCK (x + total m0) h1 = Some (is_nil l2)
    /\ (if is_nil l1 && is_nil l2 then zend_mm_del_segment (x - SEG) h1 else zend_mm_add_to_free_list x h1) = Some h'
    /\ released h h' G G' C (b_at b).
Proof.
  intros Hl Hst Ha Hwh Hb Hu Honly HX Hl1 Hl2 Hc x.
  pose proof (part_hole h G F Ls X a l1 m0 l2 b Hl Ha Hwh Hb HX) as Hhole. pose proof (part_total h G F Ls X a l1 m0 l2 b Hl Ha Hb) as Hmin.
  destruct (fill_one base h G a l1 m0 l2 F Ls Hhole ZEND_MM_FREE_BLOCK (Blk x (total m0) true)) as (h1 & E & Ho & Hbits & Hd & Hs & Hh & Hf & Hk & Hw); [done|by left|done|].
  set (G1 := <[a := l1 ++ [Blk x (total m0) true] ++ l2]> G) in *.
  assert (Ha1 : G1 !! a = Some (l1 ++ [Blk x (total m0) true] ++ l2)) by apply lookup_insert_eq.
  destruct (ends_ok h1 G1 a l1 [Blk x (total m0) true] l2 Hs (Hh _ _ Ha1 Hwh) Ha1) as [Ef Eg]; [done|]. simpl total in Eg. rewrite Z.add_0_r in Eg.
  pose proof (block_size_ok base h1 G1 a l1 l2 (Blk x (total m0) true) Hs Ha1 (Hh _ _ Ha1 Hwh)) as Ez. simpl in Ez.
  exists h1. destruct (is_nil l1 && is_nil l2) eqn:En.
  - apply andb_true_iff in En as [E1 E2]. assert (l1 = [] /\ l2 = []) as [-> ->] by (by destruct l1, l2).
    destruct (free_but_one base G (mem h1) G1 a [] [Blk x (total m0) true] [] F x (total m0)) as [HF Hn].
    { apply (ho_map _ _ _ _ _ _ _ _ _ Hhole). } { done. } { done. } { intros c ->%list_elem_of_singleton. done. } { by left. }
    assert (Hl' : loose h1 G1 F Ls [x]).
    { split; [done|done|done|]. intros y s. rewrite list_elem_of_singleton, <- (HF y s), lookup_insert_Some. split; [|naive_solver].
      intros Hy. assert (x <> y) by congruence. naive_solver. }
    assert (Hst1 : state_ok h1 G1 C) by (by apply (part_state h G F Ls X C a [] m0 [] b)).
    destruct (del_segment_ok base h1 G1 F Ls [x] C a [Blk x (total m0) true] Hl' Hst1 Ha1) as (h' & E' & Hb' & Hst' & Hk' & Hu' & Hr').
    { intros y. rewrite list_elem_of_singleton. split; [intros ->; exists (total m0); by left|]. intros [s Hy%list_elem_of_singleton]. by injection Hy. }
    { intros y (i & k & Hi & Hy) s f Hin. destruct (st_cache _ _ _ Hst1 i k Hi) as (_ & _ & Hbl).
      assert (Eb : Blk y s f = Blk y (8 * Z.of_nat i + MIN) false) by (apply (block_unique base _ G1 _ _ Hs); [by eexists _, _|by apply Hbl|done]).
      rewrite Eb in Hin. by apply list_elem_of_singleton in Hin. }
    assert (Hux : forall y s, block_in (delete a G1) (Blk y s false) <-> block_in G (Blk y s false) /\ y <> b_at b).
    { intros y s. rewrite <- (used_left h G F Ls X a [] m0 [] b Hl Ha Hb Honly). split.
      - intros (c & k & Hne & Hc' & Hin)%block_in_delete. unfold G1 in Hc'. rewrite lookup_insert_ne in Hc' by done. left. by exists c, k.
      - intros [(c & k & Hne & Hc' & Hin)|Hin]; [|by apply not_elem_of_nil in Hin]. exists c, k. split; [|done]. apply lookup_delete_Some.
        split; [done|]. unfold G1. by rewrite lookup_insert_ne. }
    exists h', (delete a G1). split; [done|]. split; [done|]. split; [unfold ZEND_MM_NEXT_BLOCK; by rewrite Ez|]. split; [done|].
    split; [by replace (x - SEG) with a by (unfold x; simpl; lia)|]. split; [by exists F, Ls|]. split; [done|].
    split; [|split; [rewrite Hu'; by apply others_user|split; [unfold others in Ho; injection Ho; intros; lia|split; [|split; [done|intros c Hc'; unfold G1; rewrite lookup_delete_ne, lookup_insert_ne by (by intros <-); done]]]]]; [|intros Hocc c k Hck; pose proof Hck as [Hne Hck']%lookup_delete_Some; unfold G1 in Hck'; rewrite lookup_insert_ne in Hck' by done; by apply (Hocc c)].
    intros z Hz. rewrite Hk' by done. apply Hk. left. destruct Hz as (c & Hc' & Hcz). exists c. split; [|done].
    apply block_in_delete in Hc' as (d & k & _ & Hd' & Hin). by exists d, k.
  - destruct (release_ok base h G a l1 m0 l2 F Ls Hhole Hmin) as (h1' & h' & E1 & E2 & Hlaid). assert (h1' = h1) as -> by (unfold x in E; congruence).
    exists h', G1. split; [done|]. split; [done|]. split; [unfold ZEND_MM_NEXT_BLOCK; by rewrite Ez|]. split; [done|]. split; [done|].
    by apply (released_here h G F Ls X C a l1 m0 l2 b).
Qed.

(** ** Both neighbours *)
Lemma elem_of_free m x : neighbour m -> x ∈ addrs m <-> exists s, Blk x s true ∈ m.
Proof.
  intros [->|(c & -> & Hc)]; unfold addrs; simpl.
  - split; [intros Hx; by apply not_elem_of_nil in Hx|intros [s Hx]; by apply not_elem_of_nil in Hx].
  - rewrite list_elem_of_singleton. split; [intros ->; exists (b_size c); apply list_elem_of_singleton; destruct c; simpl in *; by subst|].
    intros [s Hx%list_elem_of_singleton]. by subst c.
Qed.
Lemma part_facts h G C a l1' mp b mn l2' : state_ok h G C -> G !! a = Some ((l1' ++ mp) ++ b :: mn ++ l2') ->
  neighbour mp -> neighbour mn -> (mp = [] -> ends_free (l1' ++ mp) = false) -> (mn = [] -> starts_free (mn ++ l2') = false) -> b_free b = false ->
  let m0 := mp ++ b :: mn in
  G !! a = Some (l1' ++ m0 ++ l2') /\ b ∈ m0 /\ (forall c, c ∈ m0 -> c = b \/ b_free c = true)
  /\ (forall x, x ∈ addrs mp \/ x ∈ addrs mn <-> exists s, Blk x s true ∈ m0) /\ ends_free l1' = false /\ starts_free l2' = false
  /\ total m0 = b_size b + total mn + total mp.
Proof.
  intros Hst Ha Hmp Hmn Ep En Hu m0.
  assert (E : (l1' ++ mp) ++ b :: mn ++ l2' = l1' ++ m0 ++ l2') by (unfold m0; rewrite <- !app_assoc; done).
  pose proof (st_coalesced _ _ _ Hst a _ Ha) as Hc. split; [by rewrite <- E|]. split; [unfold m0; set_solver +|]. split; [|split; [|split; [|split]]].
  - intros c Hc'. unfold m0 in Hc'. rewrite elem_of_app, elem_of_cons in Hc'. destruct Hc' as [Hc'|[->|Hc']]; [right|by left|right].
    + destruct Hmp as [->|(d & -> & Hd)]; [by apply not_elem_of_nil in Hc'|]. apply list_elem_of_singleton in Hc' as ->. done.
    + destruct Hmn as [->|(d & -> & Hd)]; [by apply not_elem_of_nil in Hc'|]. apply list_elem_of_singleton in Hc' as ->. done.
  - intros x. rewrite (elem_of_free mp), (elem_of_free mn) by done. unfold m0. setoid_rewrite elem_of_app. setoid_rewrite elem_of_cons.
    split; [intros [[s Hs]|[s Hs]]; exists s; auto|]. intros (s & [Hs|[Eb|Hs]]); [eauto| |eauto]. by subst b.
  - destruct Hmp as [->|(d & -> & Hd)]; [rewrite app_nil_r in Ep; by apply Ep|]. rewrite !coalesced_parts in Hc. destruct Hc as ((_ & _ & Hc) & _).
    simpl in Hc. rewrite Hd in Hc. by destruct (ends_free l1'); [by discriminate Hc|].
  - destruct Hmn as [->|(d & -> & Hd)]; [by apply En|].
    replace ((l1' ++ mp) ++ b :: [d] ++ l2') with ((l1' ++ mp ++ [b; d]) ++ l2') in Hc by (by rewrite <- !app_assoc).
    apply coalesced_parts in Hc as (_ & _ & Hc). apply Hc. unfold ends_free. replace (l1' ++ mp ++ [b; d]) with ((l1' ++ mp ++ [b]) ++ [d]) by (by rewrite <- !app_assoc).
    by rewrite last_snoc.
  - unfold m0. rewrite total_app. simpl. lia.
Qed.
(** The blocks on the two sides of a block. *)
Lemma sides_apart m G a l1 b l2 c d : space_ok base m G -> G !! a = Some (l1 ++ b :: l2) -> c ∈ l1 -> d ∈ l2 -> b_at c <> b_at d.
Proof.
  intros Hs Ha Hc Hd E.
  assert (c = d) as -> by (apply (block_unique base m G); [done|exists a, (l1 ++ b :: l2); set_solver|exists a, (l1 ++ b :: l2); set_solver|done]).
  assert (Ha' : G !! a = Some (l1 ++ (b :: l2) ++ [])) by (by rewrite app_nil_r).
  destruct (block_part _ _ _ _ _ _ d Hs Ha'); [by right|done].
Qed.
Lemma addrs_in m c : b_at c ∈ addrs m -> exists d, d ∈ m /\ b_at d = b_at c.
Proof. intros (d & E & Hd)%list_elem_of_fmap. by exists d. Qed.
Lemma size_bound m G a l1 b l2 k1 k2 k3 k4 : space_ok base m G -> G !! a = Some (l1 ++ b :: l2) -> l1 = k1 ++ k2 -> l2 = k3 ++ k4 ->
  0 <= b_size b + total k3 + total k2 < 2 ^ N /\ 0 <= b_size b + total k3 < 2 ^ N /\ 0 <= b_size b + total k2 < 2 ^ N.
Proof.
  intros Hs Ha -> ->. assert (Ha' : G !! a = Some (k1 ++ (k2 ++ b :: k3) ++ k4)) by (rewrite Ha, <- !app_assoc; done).
  destruct (so_blocks _ _ _ Hs a _ Ha') as (_ & Hz & _). rewrite !sized_app in Hz. destruct Hz as (_ & (Z2 & Z3) & _).
  assert (Z4 : sized k3) by (intros e He; apply Z3; by right). destruct (Z3 b) as [_ ?]; [by left|].
  destruct (sized_total _ Z2), (sized_total _ Z4), (seg_total _ _ _ _ _ _ Hs Ha') as (_ & _ & _ & Hlt). pose proof consts.
  rewrite total_app in Hlt. destruct (seg_total _ _ _ _ _ _ Hs Ha') as (? & _ & ? & _). simpl in Hlt. lia.
Qed.
End Release.
