(* ===== verification/AllocEfree.v ===== *)
(** * AllocEfree: [_zend_mm_free_int] and the cache *)
From S2P Require Import Prelude ZendAlloc AllocBits AllocRing AllocTrie AllocCut AllocRemove AllocSearch AllocFree AllocTake AllocPick AllocMap AllocLayout AllocHeap AllocSplit AllocState AllocRelease.

Section Efree.
Context `{SizeT} {TN : Torn}.
Abbreviation N := ZEND_MM_NUM_BUCKETS.
Abbreviation MIN := ZEND_MM_ALIGNED_MIN_HEADER_SIZE.
Abbreviation HDR := ZEND_MM_ALIGNED_HEADER_SIZE.
Abbreviation SEG := ZEND_MM_ALIGNED_SEGMENT_SIZE.
Abbreviation layout := (gmap Z (list blk)).
Variable base : Z.
Abbreviation blocks_ok := (blocks_ok base).
Abbreviation loose := (loose base).
Abbreviation released := (released base).

(** Writes to the other fields of the heap. *)
Lemma blocks_ok_eq h h' G F Ls : blocks_ok h G F Ls -> mem h' = mem h -> buckets h' = buckets h -> bits h' = bits h -> blocks_ok h' G F Ls.
Proof.
  intros [B1 B2 B3 B4] Em Eb Ebits. split; [by rewrite Em|by rewrite Em| |done]. eapply free_in_mem; [exact B3|intros; by rewrite Em|intros; by rewrite Em|done|done].
Qed.
Lemma state_ok_eq h h' G C : state_ok h G C -> mem h' = mem h -> fixed h' = fixed h -> state_ok h' G C.
Proof.
  intros [S1 S2 S3 S4 S5 S6 S7 S8 S9] Em Ef. unfold fixed in Ef. injection Ef as E1 E2 E3 E4.
  split; try done; try congruence; try (by rewrite Em).
  - rewrite Em, E2. done.
  - rewrite E4. done.
Qed.

(** ** A block becomes free, as [efree] does it *)
Definition release (mm_block size : Z) (h : mm_heap) : option mm_heap :=
  let next_block := mm_block + size in
  next_free ← ZEND_MM_IS_FREE_BLOCK next_block h;
  '(size, h) ←
    (if (next_free : bool) then
       h ← zend_mm_remove_from_free_list next_block h;
       n ← ZEND_MM_FREE_BLOCK_SIZE next_block h;
       Some (size_t (size + n), h)
     else Some (size, h));
  prev_free ← ZEND_MM_PREV_BLOCK_IS_FREE mm_block h;
  '(mm_block, size, h) ←
    (if (prev_free : bool) then
       mm_block ← ZEND_MM_PREV_BLOCK mm_block h;
       h ← zend_mm_remove_from_free_list mm_block h;
       n ← ZEND_MM_FREE_BLOCK_SIZE mm_block h;
       Some (mm_block, size_t (size + n), h)
     else Some (mm_block, size, h));
  first ← ZEND_MM_IS_FIRST_BLOCK mm_block h;
  guard ← ZEND_MM_IS_GUARD_BLOCK (mm_block + size) h;
  if (first : bool) && (guard : bool) then zend_mm_del_segment (mm_block - ZEND_MM_ALIGNED_SEGMENT_SIZE) h
  else
    h ← ZEND_MM_BLOCK mm_block ZEND_MM_FREE_BLOCK size h;
    zend_mm_add_to_free_list mm_block h.

Lemma not_cached_eq G C b m : space_ok base m G -> ~ in_cache C (b_at b) -> forall c, block_in G c -> block_in G b -> in_cache C (b_at c) -> c <> b.
Proof. by intros _ Hn c _ _ Hc ->. Qed.

(** The segment of a block is not torn. *)
Definition whole (G : layout) (b : blk) : Prop := forall a l, G !! a = Some l -> b ∈ l -> ~ torn a.

Lemma released_trans h h1 h2 h' G G' C x : released h2 h' G G' C x -> kept G h h1 -> kept G h1 h2 -> others h1 = others h -> others h2 = others h1 ->
  (forall z, data G' z -> data G z) -> released h h' G G' C x.
Proof.
  intros (Hb & Hst & Hk & Hu & Hr & Hx) K1 K2 O1 O2 Hd. split; [done|]. split; [done|].
  split; [intros z Hz; rewrite Hk, K2, K1 by (try left; by try apply Hd); done|].
  assert (O3 : others h2 = others h) by congruence. split; [rewrite Hu; by apply others_user|]. split; [|done].
  unfold others in O3. injection O3. intros. lia.
Qed.
(** Used blocks, and their data, only become less. *)
Lemma data_less G G' x : (forall y s, block_in G' (Blk y s false) <-> block_in G (Blk y s false) /\ y <> x) -> forall z, data G' z -> data G z.
Proof. intros Hx z ([y s f] & Hc & Hu & Hz). simpl in *. subst f. exists (Blk y s false). apply Hx in Hc as [Hc _]. done. Qed.

Lemma release_spec h G F Ls C b : blocks_ok h G F Ls -> state_ok h G C -> block_in G b -> whole G b -> b_free b = false -> ~ in_cache C (b_at b) ->
  exists h' G', release (b_at b) (b_size b) h = Some h' /\ released h h' G G' C (b_at b).
Proof.
  intros Hbo Hst (a & l & Ha & Hin) Hwh Hu Hc. specialize (Hwh a l Ha Hin). apply blocks_loose in Hbo. apply list_elem_of_split in Hin as (l1 & l2 & ->).
  pose proof (lo_space _ _ _ _ _ _ Hbo) as Hs.
  destruct (join_next base h G F Ls [] a l1 b l2 (b_size b) Hbo Ha Hwh) as (mn & l2' & nf & h1 & F1 & Ls1 & E2 & Hmn & En & R1 & R2 & _ & Hl1 & K1 & O1 & W1).
  { intros c _. apply not_elem_of_nil. } { intros m k Em. by apply (size_bound base _ G a l1 b l2 l1 [] m k Hs Ha (eq_sym (app_nil_r _)) Em). }
  unfold release. cbv zeta. rewrite R1. cbn [mbind option_bind]. rewrite R2. cbn [mbind option_bind].
  destruct (join_prev base h1 G F1 Ls1 (addrs mn ++ []) a l1 b l2 (b_size b + total mn) Hl1 Ha Hwh) as (l1' & mp & pf & h2 & F2 & Ls2 & E1 & Hmp & Ep & R3 & R4 & _ & Hl2 & K2 & O2 & W2).
  { intros c Hc' Hx. rewrite app_nil_r in Hx. apply addrs_in in Hx as (d & Hd & E). apply (sides_apart base _ G a l1 b l2 c d Hs Ha Hc'); [rewrite E2; set_solver|done]. }
  { intros k m Em. by apply (size_bound base _ G a l1 b l2 k m mn l2' Hs Ha Em E2). }
  rewrite R3. cbn [mbind option_bind]. rewrite R4. cbn [mbind option_bind].
  rewrite E1, E2 in Ha. rewrite E1 in Ep. rewrite E2 in En.
  destruct (part_facts h G C a l1' mp b mn l2' Hst Ha Hmp Hmn Ep En Hu) as (Ha' & Hb & Honly & HX & Hl1' & Hl2' & Et).
  set (m0 := mp ++ b :: mn) in *. assert (Hne : m0 <> []) by (intros E; rewrite E in Hb; by apply not_elem_of_nil in Hb).
  assert (Hst2 : state_ok h2 G C).
  { eapply state_move; [exact Hst|apply Hl2|done|apply (st_coalesced _ _ _ Hst)| |apply others_fixed; congruence|done]. intros z Hz. by rewrite K2, K1. }
  destruct (ends_ok base h2 G a l1' m0 l2' (lo_space _ _ _ _ _ _ Hl2) (lo_headers _ _ _ _ _ _ Hl2 _ _ Ha' Hwh) Ha' Hne) as [Ef Eg].
  rewrite Ef. cbn [mbind option_bind]. rewrite <- Et, Eg. cbn [mbind option_bind].
  destruct (release_checked base h2 G F2 Ls2 (addrs mp ++ addrs mn ++ []) C a l1' m0 l2' b Hl2 Hst2 Ha' Hwh Hb Honly) as (h' & G' & E & Hrel).
  { intros y. rewrite app_nil_r, elem_of_app. apply HX. } { done. } { done. } { done. }
  exists h', G'. split; [done|]. eapply released_trans; [exact Hrel|done|done|done|done|]. destruct Hrel as (_ & _ & _ & _ & _ & _ & Hx & _). by eapply data_less.
Qed.

(** ** The heap *)

(** [C] is what the cache holds, [G] the blocks of every segment. *)
Record heap_ok (h : mm_heap) (G : layout) (C : list (list Z)) : Prop := {
  hk_blocks : exists F Ls, blocks_ok h G F Ls;
  hk_state : state_ok h G C;
  hk_occupied : occupied G;
  hk_heads : cache h = (fun l => first l NULL) <$> C
}.
(** The blocks the program has. *)
Definition live (G : layout) (C : list (list Z)) (b : blk) : Prop := block_in G b /\ b_free b = false /\ ~ in_cache C (b_at b).
Definition live_data (G : layout) (C : list (list Z)) (z : Z) : Prop :=
  exists b, live G C b /\ b_at b + 2 * W <= z < b_at b + b_size b.

Lemma hk_space h G C : heap_ok h G C -> space_ok base (mem h) G.
Proof. intros [(F & Ls & Hb) _ _ _]. apply Hb. Qed.

(** ** Writing to the data of a used block *)
Lemma header_not_data m G a l z : space_ok base m G -> data G z -> G !! a = Some l ->
  (forall d, d ∈ l -> z <> b_at d /\ z <> b_at d + W) /\ z <> a + SEG + total l /\ z <> a + SEG + total l + W /\ ~ (a <= z < a + SEG).
Proof.
  intros Hs (c & Hc & _ & Hz) Ha. pose proof consts as C. destruct (so_blocks _ _ _ Hs a l Ha) as (Ht & Hz' & _). pose proof (sized_total _ Hz') as [? _].
  split.
  - intros d Hd. destruct (block_place base m G a l d Hs Ha Hd) as (_ & _ & _ & _ & ?).
    destruct (blocks_apart base m G c d Hs Hc) as [->|Hap]; [by exists a, l|lia|unfold apart in Hap; lia].
  - assert (Hout : (a <= z < a + SEG \/ a + SEG + total l <= z < a + seg_len l) -> False); [|unfold seg_len in Hout; split_and!; lia].
    intros Ho. destruct (outside_segment base m G a l c z Hs Ha Hc Ho); lia.
Qed.
Lemma block_word h G b z : space_ok base (mem h) G -> block_in G b -> b_at b <= z -> z + W <= b_at b + b_size b -> (z - b_at b) mod 8 = 0 -> is_Some (mem h !! z).
Proof.
  intros Hs (a & l & Ha & Hb) H1 H2 H3. destruct (block_place base _ G a l b Hs Ha Hb) as (P1 & P2 & P3 & _).
  destruct (so_seg _ _ _ Hs a l Ha) as (_ & _ & Hw & _). pose proof consts.
  assert (Hx : words (mem h) z W) by (eapply words_in; [exact Hw|lia|lia|replace (z - a) with (z - b_at b + (b_at b - a)) by lia; by rewrite Z.add_mod, H3, P3]).
  specialize (Hx 0). rewrite Z.mul_0_l, Z.add_0_r in Hx. apply Hx; lia.
Qed.
Lemma data_write h G F Ls z v : blocks_ok h G F Ls -> data G z -> is_Some (mem h !! z) -> blocks_ok (set_mem (<[z := v]> (mem h)) h) G F Ls.
Proof.
  intros [B1 B2 B3 B4] Hd Hz. set (h' := set_mem _ h). assert (Hdom : same_words h h').
  { intros y. simpl. rewrite lookup_insert. case_decide; [subst y; by split|done]. }
  split; [by eapply space_mem| | |done].
  - intros a l Ha Hwh. destruct (B2 a l Ha Hwh) as (H1 & H2 & H3). destruct (header_not_data _ _ a l z B1 Hd Ha) as (N1 & N2 & N3 & _). simpl.
    split; [|by rewrite !lookup_insert_ne].
    eapply headers_frame; [exact H1|]. intros d Hdl. destruct (N1 d Hdl). by rewrite !lookup_insert_ne.
  - assert (Hm : map_ok base F (mem h')) by (eapply map_ok_mem; [apply B3|done]).
    eapply free_in_headers; [exact B3|done|done|done| |].
    + intros x s Hx y Hy _. simpl. rewrite lookup_insert_ne; [done|]. intros ->. apply B4 in Hx. destruct Hd as (c & Hc & Hu & Hz').
      destruct (blocks_apart base _ G c _ B1 Hc Hx) as [->|Hap]; [done|]. pose proof consts. unfold apart in Hap. simpl in *. lia.
    + intros y Hy. simpl. rewrite lookup_insert_ne; [done|]. intros ->. destruct Hd as (c & (a & l & Ha & Hc) & _ & Hz').
      destruct (block_place base _ G a l c B1 Ha Hc) as (P1 & P2 & _). destruct (so_seg _ _ _ B1 a l Ha) as (_ & _ & _ & Hap).
      pose proof consts. unfold apart in Hap. lia.
Qed.

(** The program writes to its memory. *)
Lemma program_write h G C b z v : heap_ok h G C -> live G C b -> b_at b + 2 * W <= z < b_at b + b_size b -> is_Some (mem h !! z) ->
  heap_ok (set_mem (<[z := v]> (mem h)) h) G C.
Proof.
  intros Hok (Hb & Hu & Hnc) Hz Hw. pose proof (hk_space _ _ _ Hok) as Hs. destruct Hok as [(F & Ls & Hbo) Hst Hocc Hh].
  assert (Hd : data G z) by (by exists b). set (h' := set_mem _ h). split; [exists F, Ls; by apply data_write| |done|done].
  pose proof Hst as [S1 S2 S3 S4 S5 S6 S7 S8 S9]. pose proof consts as Co.
  assert (Hseg : forall a k, G !! a = Some k -> mem h' !! seg_size a = mem h !! seg_size a /\ mem h' !! seg_next a = mem h !! seg_next a).
  { intros a k Ha. destruct (header_not_data _ _ a k _ Hs Hd Ha) as (_ & _ & _ & Hn). simpl. unfold seg_size, seg_next. rewrite !lookup_insert_ne by lia. done. }
  split; try done.
  - intros a k Ha. rewrite (proj1 (Hseg a k Ha)). by apply S4.
  - destruct S5 as (segs & Q1 & Q2 & Q3 & Q4). exists segs. split; [done|]. split; [done|]. split; [done|]. eapply chain_frame; [exact Q4|].
    intros a Ha. apply Q2 in Ha as [k Ha]. by apply (Hseg a k).
  - intros i l Hi. destruct (S8 i l Hi) as (N1 & N2 & N3). split; [done|]. split; [|done]. eapply chain_frame; [exact N2|]. intros x Hx. simpl.
    rewrite lookup_insert_ne; [done|]. intros ->. assert (Hne : b <> Blk x (8 * Z.of_nat i + MIN) false) by (intros ->; apply Hnc; by exists i, l).
    destruct (blocks_apart base (mem h) G b _ Hs Hb (N3 x Hx)) as [?|Hap]; [done|]. unfold apart, f_prev_free in *. simpl in Hap. lia.
Qed.

(** ** The cache *)
Lemma cached_used h G C x : state_ok h G C -> in_cache C x -> exists s, block_in G (Blk x s false).
Proof. intros Hst (i & l & Hi & Hx). destruct (st_cache _ _ _ Hst i l Hi) as (_ & _ & Hb). eexists. by apply Hb. Qed.
(** A block has one place in the cache. *)
Lemma cached_once h G C i j l k x : space_ok base (mem h) G -> state_ok h G C -> C !! i = Some l -> C !! j = Some k -> x ∈ l -> x ∈ k -> i = j.
Proof.
  intros Hs Hst Hi Hj Hl Hk. destruct (st_cache _ _ _ Hst i l Hi) as (_ & _ & Hb). destruct (st_cache _ _ _ Hst j k Hj) as (_ & _ & Hb').
  pose proof (block_unique base _ G _ _ Hs (Hb x Hl) (Hb' x Hk) eq_refl) as E. injection E as E. lia.
Qed.
Lemma in_cache_insert C i l k x : C !! i = Some l -> in_cache (<[i := k]> C) x <-> x ∈ k \/ exists j m, j <> i /\ C !! j = Some m /\ x ∈ m.
Proof.
  intros Hi. pose proof (lookup_lt_Some _ _ _ Hi) as Hlt. split.
  - intros (j & m & Hj & Hx). apply list_lookup_insert_Some in Hj as [(<- & <- & _)|[Hne Hj]]; [by left|right]. exists j, m. split_and!; congruence || done.
  - intros [Hx|(j & m & Hne & Hj & Hx)]; [exists i, k; by rewrite list_lookup_insert_eq|exists j, m; by rewrite list_lookup_insert_ne].
Qed.

Lemma cache_index s : s mod 8 = 0 -> MIN <= s -> ZEND_MM_SMALL_SIZE s = true ->
  (Z.to_nat (ZEND_MM_BUCKET_INDEX s) < Z.to_nat N)%nat /\ 8 * Z.of_nat (Z.to_nat (ZEND_MM_BUCKET_INDEX s)) + MIN = s.
Proof. intros Hm Hmin Hs%small_size_spec. destruct (bucket_index s Hm) as [Hi E]; [done|]. lia. Qed.
Lemma block_sizes m G b : space_ok base m G -> block_in G b -> b_size b mod 8 = 0 /\ MIN <= b_size b /\ 0 < b_at b.
Proof.
  intros Hs (a & l & Ha & Hb). destruct (block_place base m G a l b Hs Ha Hb) as (P1 & P2 & P3 & P4 & P5). destruct (so_seg _ _ _ Hs a l Ha) as (? & _).
  pose proof consts. split_and!; (done || lia).
Qed.
Lemma link_aligned : (2 * W) mod 8 = 0.
Proof. pose proof consts as ([E|E] & _); by rewrite E. Qed.

(** A small block goes into the cache. *)
Lemma cache_put_ok h G C b : heap_ok h G C -> live G C b -> ZEND_MM_SMALL_SIZE (b_size b) = true ->
  let i := Z.to_nat (ZEND_MM_BUCKET_INDEX (b_size b)) in
  exists l, C !! i = Some l /\ cache h !! i = Some (first l NULL) /\ is_Some (mem h !! f_prev_free (b_at b)) /\
    let m := <[f_prev_free (b_at b) := first l NULL]> (mem h) in
    let C' := <[i := b_at b :: l]> C in
    (forall n, heap_ok (set_cached n (set_cache (<[i := b_at b]> (cache h)) (set_mem m h))) G C')
    /\ (forall c, live G C' c <-> live G C c /\ c <> b)
    /\ (forall z, live_data G C' z -> m !! z = mem h !! z).
Proof.
  intros Hok (Hb & Hu & Hnc) Hsm i. pose proof (hk_space _ _ _ Hok) as Hs. destruct Hok as [(F & Ls & Hbo) Hst Hocc Hh]. pose proof consts as Co.
  destruct (block_sizes _ _ _ Hs Hb) as (Hm & Hmin & Hpos). destruct (cache_index _ Hm Hmin Hsm) as [Hi Ei]. fold i in Hi, Ei.
  destruct (lookup_lt_is_Some_2 C i) as [l Hl]; [by rewrite (st_length _ _ _ Hst)|]. exists l. split; [done|].
  assert (Hc : cache h !! i = Some (first l NULL)) by (by rewrite Hh, list_lookup_fmap, Hl). split; [done|].
  assert (Hw : is_Some (mem h !! f_prev_free (b_at b))).
  { apply (block_word h G b); [done|done|unfold f_prev_free; lia|unfold f_prev_free; lia|]. unfold f_prev_free. replace (b_at b + 2 * W - b_at b) with (2 * W) by lia. apply link_aligned. }
  split; [done|]. intros m C'.
  assert (Hbb : Blk (b_at b) (b_size b) false = b) by (rewrite <- Hu; by destruct b).
  assert (Hd : data G (f_prev_free (b_at b))) by (apply (cached_data base (mem h) G _ (b_size b) Hs); by rewrite Hbb).
  assert (Hcb : forall y, y ∈ b_at b :: l <-> y = b_at b \/ y ∈ l) by (intros y; apply elem_of_cons).
  assert (Hin : forall y, in_cache C' y <-> y = b_at b \/ in_cache C y).
  { intros y. unfold C'. rewrite (in_cache_insert C i l) by done. rewrite Hcb. split.
    - intros [[?|?]|(j & k & _ & Hj & Hy)]; [by left|right; by exists i, l|right; by exists j, k].
    - intros [?|(j & k & Hj & Hy)]; [tauto|]. destruct (decide (j = i)) as [->|Hne]; [left; right; congruence|right; by exists j, k]. }
  assert (Hlive : forall c, live G C' c <-> live G C c /\ c <> b).
  { intros c. unfold live. rewrite Hin. split; [intros (H1 & H2 & H3); split; [tauto|]; intros ->; tauto|]. intros ((H1 & H2 & H3) & H4). split_and!; try done.
    intros [E|?]; [|done]. by apply H4, (block_unique base (mem h) G). }
  split; [|split; [done|]].
  - intros n. split.
    + exists F, Ls. eapply blocks_ok_eq; [by apply (data_write h G F Ls (f_prev_free (b_at b)) (first l NULL))|done..].
    + apply state_ok_eq with (h := set_mem m h); [|done|done]. pose proof Hst as [S1 S2 S3 S4 S5 S6 S7 S8 S9].
      assert (Hseg : forall a k, G !! a = Some k -> m !! seg_size a = mem h !! seg_size a /\ m !! seg_next a = mem h !! seg_next a).
      { intros a k Ha. destruct (header_not_data _ _ a k _ Hs Hd Ha) as (_ & _ & _ & Hn). unfold m, seg_size, seg_next.
        rewrite !lookup_insert_ne by lia. done. }
      split; try done.
      * intros a k Ha. simpl. rewrite (proj1 (Hseg a k Ha)). by apply S4.
      * destruct S5 as (segs & Q1 & Q2 & Q3 & Q4). exists segs. split; [done|]. split; [done|]. split; [done|]. eapply chain_frame; [exact Q4|].
        intros a Ha. apply Q2 in Ha as [k Ha]. by apply (Hseg a k).
      * unfold C'. by rewrite length_insert.
      * assert (Hold : forall j k, C !! j = Some k -> chain f_prev_free m k NULL).
        { intros j k Hj. destruct (S8 j k Hj) as (_ & Hch & _). eapply chain_frame; [exact Hch|]. intros y Hy. unfold m. rewrite lookup_insert_ne; [done|].
          intros E. apply Hnc. exists j, k. split; [done|]. unfold f_prev_free in E. by replace (b_at b) with y by lia. }
        intros j k Hj. unfold C' in Hj. apply list_lookup_insert_Some in Hj as [(<- & <- & _)|[Hne Hj]].
        -- destruct (S8 i l Hl) as (N1 & _ & N3). split; [constructor; [|done]; intros Hx; apply Hnc; by exists i, l|]. split.
           { split; [unfold m; apply lookup_insert_eq|]. by apply (Hold i). }
           intros y [->|Hy]%elem_of_cons; [|by apply N3]. by rewrite Ei, Hbb.
        -- destruct (S8 j k Hj) as (N1 & _ & N3). split; [done|]. split; [by apply (Hold j)|done].
    + done.
    + simpl. unfold C'. rewrite list_fmap_insert. by rewrite Hh.
  - intros z (c & Hc' & Hz). apply Hlive in Hc' as [(Hc1 & Hc2 & _) Hne]. unfold m. rewrite lookup_insert_ne; [done|]. intros <-.
    destruct (blocks_apart base (mem h) G c b Hs Hc1 Hb) as [?|Hap]; [done|]. unfold apart, f_prev_free in *. lia.
Qed.

(** ** [_zend_mm_free_int] *)
Lemma blk_eta b : b_free b = false -> Blk (b_at b) (b_size b) false = b.
Proof. intros E. rewrite <- E. by destruct b. Qed.
Lemma released_heap h h' G G' C b : heap_ok h G C -> block_in G b -> b_free b = false -> released h h' G G' C (b_at b) -> heap_ok h' G' C
  /\ (forall c, live G' C c <-> live G C c /\ c <> b) /\ (forall z, live_data G' C z -> mem h' !! z = mem h !! z).
Proof.
  intros Hok Hb Hu (Hbo & Hst & Hk & Hus & Hr & Hocc & Hx & _). pose proof (hk_space _ _ _ Hok) as Hs. split; [|split].
  - split; [done|done|apply Hocc, Hok|]. unfold user in Hus. injection Hus as _ _ _ _ _ _ _ ->. apply Hok.
  - intros c. unfold live. split.
    + intros (H1 & H2 & H3). rewrite <- (blk_eta c H2) in H1. apply Hx in H1 as [H1 Hne]. rewrite (blk_eta c H2) in H1. split_and!; try done. by intros ->.
    + intros ((H1 & H2 & H3) & H4). split_and!; try done. rewrite <- (blk_eta c H2). apply Hx. rewrite (blk_eta c H2). split; [done|].
      intros E. by apply H4, (block_unique base (mem h) G).
  - intros z (c & (H1 & H2 & _) & Hz). apply Hk. by exists c.
Qed.

Definition freed (h h' : mm_heap) (G G' : layout) (C C' : list (list Z)) : Prop :=
  heap_ok h' G' C' /\ (forall z, live_data G' C' z -> mem h' !! z = mem h !! z)
  /\ reserve h' = reserve h /\ limit h' = limit h /\ real_size h' <= real_size h.

Lemma live_header_whole h G C b : heap_ok h G C -> live G C b -> whole G b -> ZEND_MM_BLOCK_SIZE (b_at b) h = Some (b_size b).
Proof.
  intros Hok ((a & l & Ha & Hb) & _ & _) Hwh. specialize (Hwh a l Ha Hb). pose proof (hk_space _ _ _ Hok) as Hs. destruct Hok as [(F & Ls & Hbo) _ _ _].
  apply list_elem_of_split in Hb as (l1 & l2 & ->). apply (block_size_ok base h G a l1 l2 b Hs Ha). by apply (bo_headers _ _ _ _ _ Hbo a).
Qed.
Lemma heap_ok_eq h h' G C : heap_ok h G C -> mem h' = mem h -> buckets h' = buckets h -> bits h' = bits h -> fixed h' = fixed h -> cache h' = cache h -> heap_ok h' G C.
Proof.
  intros [(F & Ls & H1) H2 H3 H4] Em Eb Ebits Ef Ec. split; [exists F, Ls; by eapply blocks_ok_eq|by eapply state_ok_eq|done|by rewrite Ec].
Qed.

Lemma free_int_whole h G C b : heap_ok h G C -> live G C b -> whole G b ->
  exists h' G' C', _zend_mm_free_int (ZEND_MM_DATA_OF (b_at b)) h = Some h' /\ freed h h' G G' C C' /\ forall c, live G' C' c <-> live G C c /\ c <> b.
Proof.
  intros Hok Hl Hwh. pose proof Hl as (Hb & Hu & Hnc). pose proof (hk_space _ _ _ Hok) as Hs. destruct (block_sizes _ _ _ Hs Hb) as (_ & _ & Hpos). pose proof consts as Co.
  unfold _zend_mm_free_int, ZEND_MM_DATA_OF, ZEND_MM_HEADER_OF, NULL. rewrite (proj2 (Z.eqb_neq _ 0)) by lia.
  replace (b_at b + HDR - HDR) with (b_at b) by lia. cbv zeta. rewrite (live_header_whole h G C b Hok Hl Hwh). cbn [mbind option_bind].
  destruct (ZEND_MM_SMALL_SIZE (b_size b) && (cached h <? ZEND_MM_CACHE_SIZE)) eqn:Ec.
  - apply andb_true_iff in Ec as [Ec _]. destruct (cache_put_ok h G C b Hok Hl Ec) as (l & Hl' & Hc & [v Hv] & Hok' & Hlive & Hk). cbv zeta in *.
    rewrite Hc. cbn [mbind option_bind]. unfold store at 1. rewrite Hv. cbn [mbind option_bind]. cbv zeta. eexists _, G, _.
    split; [reflexivity|]. split; [|exact Hlive]. split; [apply Hok'|]. split; [exact Hk|]. done.
  - set (h0 := set_size _ h). assert (Hok0 : heap_ok h0 G C) by (by eapply heap_ok_eq). destruct Hok0 as [(F & Ls & Hbo) Hst Hocc Hh].
    destruct (release_spec h0 G F Ls C b Hbo Hst Hb Hwh Hu Hnc) as (h' & G' & E & Hrel). change (exists h'' G'' C', release (b_at b) (b_size b) h0 = Some h'' /\ freed h h'' G G'' C C' /\ forall c, live G'' C' c <-> live G C c /\ c <> b).
    exists h', G', C. split; [done|]. destruct (released_heap h0 h' G G' C b) as (R1 & R2 & R3); try done; [by split; [by exists F, Ls| | |]|].
    destruct Hrel as (_ & _ & _ & Hus & Hr & _ & _ & _). unfold user in Hus. injection Hus. intros. split; [|done]. split_and!; done.
Qed.

(** ** [zend_mm_free_cache] *)
Lemma uncache_ok h G F Ls C b : blocks_ok h G F Ls -> state_ok h G C -> block_in G b -> whole G b -> b_free b = false -> ~ in_cache C (b_at b) ->
  exists h' G', uncache (b_at b) h = Some h' /\ released (set_cached (to_uint (cached h - b_size b)) h) h' G G' C (b_at b).
Proof.
  intros Hbo Hst (a & l & Ha & Hin) Hwh Hu Hc. specialize (Hwh a l Ha Hin). apply list_elem_of_split in Hin as (l1 & l2 & ->).
  set (h0 := set_cached (to_uint (cached h - b_size b)) h).
  assert (Hl0 : loose h0 G F Ls []) by (apply blocks_loose; by eapply blocks_ok_eq). assert (Hst0 : state_ok h0 G C) by (by eapply state_ok_eq).
  pose proof (lo_space _ _ _ _ _ _ Hl0) as Hs. pose proof (lo_headers _ _ _ _ _ _ Hl0 _ _ Ha Hwh) as Hh.
  pose proof (block_size_ok base h0 G a l1 l2 b Hs Ha Hh) as Ez. unfold uncache.
  change (ZEND_MM_BLOCK_SIZE (b_at b) h) with (ZEND_MM_BLOCK_SIZE (b_at b) h0). rewrite Ez. cbn [mbind option_bind].
  assert (Enx : ZEND_MM_NEXT_BLOCK (b_at b) h = Some (b_at b + b_size b)) by (unfold ZEND_MM_NEXT_BLOCK; change (ZEND_MM_BLOCK_SIZE (b_at b) h) with (ZEND_MM_BLOCK_SIZE (b_at b) h0); by rewrite Ez).
  rewrite Enx. cbn [mbind option_bind]. cbv zeta. fold h0.
  destruct (join_prev base h0 G F Ls [] a l1 b l2 (b_size b) Hl0 Ha Hwh) as (l1' & mp & pf & h1 & F1 & Ls1 & E1 & Hmp & Ep & R1 & _ & R2 & Hl1 & K1 & O1 & W1).
  { intros c _. apply not_elem_of_nil. } { intros k m Em. by apply (size_bound base _ G a l1 b l2 k m [] l2 Hs Ha Em eq_refl). }
  rewrite R1. cbn [mbind option_bind]. rewrite R2. cbn [mbind option_bind].
  destruct (join_next base h1 G F1 Ls1 (addrs mp ++ []) a l1 b l2 (b_size b + total mp) Hl1 Ha Hwh) as (mn & l2' & nf & h2 & F2 & Ls2 & E2 & Hmn & En & R3 & _ & R4 & Hl2 & K2 & O2 & W2).
  { intros c Hc' Hx. rewrite app_nil_r in Hx. apply addrs_in in Hx as (d & Hd & E). apply (sides_apart base _ G a l1 b l2 d c Hs Ha); [rewrite E1; set_solver|done|done]. }
  { intros m k Em. pose proof (size_bound base _ G a l1 b l2 l1' mp m k Hs Ha E1 Em). lia. }
  rewrite R3. cbn [mbind option_bind]. rewrite R4. cbn [mbind option_bind].
  rewrite E1, E2 in Ha. rewrite E1 in Ep. rewrite E2 in En.
  destruct (part_facts h0 G C a l1' mp b mn l2' Hst0 Ha Hmp Hmn Ep En Hu) as (Ha' & Hb & Honly & HX & Hl1' & Hl2' & Et).
  set (m0 := mp ++ b :: mn) in *.
  assert (Hst2 : state_ok h2 G C).
  { eapply state_move; [exact Hst0|apply Hl2|done|apply (st_coalesced _ _ _ Hst0)| |apply others_fixed; congruence|done]. intros z Hz. by rewrite K2, K1. }
  destruct (release_written base h2 G F2 Ls2 (addrs mn ++ addrs mp ++ []) C a l1' m0 l2' b Hl2 Hst2 Ha' Hwh Hb Hu Honly) as (h3 & h' & G' & Q1 & Q2 & Q3 & Q4 & Q5 & Hrel).
  { intros y. rewrite app_nil_r, elem_of_app, <- HX. tauto. } { done. } { done. } { done. }
  replace (b_size b + total mp + total mn) with (total m0) by lia. cbv zeta in *. rewrite Q1. cbn [mbind option_bind]. rewrite Q2. cbn [mbind option_bind].
  rewrite Q3. cbn [mbind option_bind]. rewrite Q4. cbn [mbind option_bind]. exists h', G'. split; [done|].
  eapply released_trans; [exact Hrel|done|done|done|done|]. destruct Hrel as (_ & _ & _ & _ & _ & _ & Hx & _). by eapply data_less.
Qed.

(** The first block of a list of the cache is taken out. *)
Lemma state_pop h G C i x l : space_ok base (mem h) G -> state_ok h G C -> C !! i = Some (x :: l) ->
  state_ok h G (<[i := l]> C) /\ ~ in_cache (<[i := l]> C) x /\ (forall y, in_cache C y <-> y = x \/ in_cache (<[i := l]> C) y)
  /\ (exists s, block_in G (Blk x s false)) /\ mem h !! f_prev_free x = Some (first l NULL).
Proof.
  intros Hs Hst Hi. pose proof Hst as [S1 S2 S3 S4 S5 S6 S7 S8 S9]. destruct (S8 i _ Hi) as (Hn & Hch & Hbl). apply NoDup_cons in Hn as [Hx Hn].
  split; [|split; [|split; [|split]]].
  - split; try done; [by rewrite length_insert|]. intros j k Hj. apply list_lookup_insert_Some in Hj as [(<- & <- & _)|[_ Hj]]; [|by apply S8].
    split; [done|]. split; [apply Hch|]. intros y Hy. apply Hbl. by right.
  - rewrite (in_cache_insert C i (x :: l)) by done. intros [?|(j & k & Hne & Hj & Hxk)]; [done|]. apply Hne.
    eapply cached_once; [exact Hs|exact Hst|exact Hj|exact Hi|exact Hxk|by left].
  - intros y. rewrite (in_cache_insert C i (x :: l)) by done. split.
    + intros (j & k & Hj & Hy). destruct (decide (j = i)) as [->|Hne]; [|right; right; by exists j, k]. rewrite Hi in Hj. injection Hj as <-.
      apply elem_of_cons in Hy as [?|?]; [by left|right; by left].
    + intros [->|[Hy|(j & k & _ & Hj & Hy)]]; [exists i, (x :: l); split; [done|by left]|exists i, (x :: l); split; [done|by right]|by exists j, k].
  - eexists. apply Hbl. by left.
  - apply Hch.
Qed.

(** What freeing blocks of the cache leaves to the program. *)
Definition drained (h h' : mm_heap) (G G' : layout) (C C' : list (list Z)) : Prop :=
  (exists F Ls, blocks_ok h' G' F Ls) /\ state_ok h' G' C' /\ (forall c, live G' C' c <-> live G C c)
  /\ (forall z, live_data G C z -> mem h' !! z = mem h !! z)
  /\ reserve h' = reserve h /\ limit h' = limit h /\ real_size h' <= real_size h /\ (occupied G -> occupied G')
  /\ forall c, torn c -> G' !! c = G !! c.
(** No block of a torn segment is in the cache. *)
Definition cache_whole (G : layout) (C : list (list Z)) : Prop := forall b, block_in G b -> in_cache C (b_at b) -> whole G b.
Lemma cache_whole_less G G' C C' : cache_whole G C -> (forall c, torn c -> G' !! c = G !! c) -> (forall x, in_cache C' x -> in_cache C x) -> cache_whole G' C'.
Proof.
  intros Hw HG HC b _ Hb a l Ha Hin Ht. rewrite HG in Ha by done. apply (Hw b ltac:(by exists a, l) (HC _ Hb) a l Ha Hin Ht).
Qed.
Lemma uncache_list_ok i : forall l fuel h G C, (exists F Ls, blocks_ok h G F Ls) -> state_ok h G C -> cache_whole G C -> C !! i = Some l -> (length l <= fuel)%nat ->
  exists h' G', uncache_list fuel (first l NULL) h = Some h' /\ drained h h' G G' C (<[i := []]> C) /\ cache h' = cache h.
Proof.
  induction l as [|x l IH]; intros fuel h G C [F (Ls & Hbo)] Hst Hcw Hi Hfuel.
  - exists h, G. split; [by destruct fuel|]. rewrite list_insert_id by done. split; [split_and!; try done; [by exists F, Ls]|done].
  - pose proof (bo_space _ _ _ _ _ Hbo) as Hs. destruct (state_pop h G C i x l Hs Hst Hi) as (Hst1 & Hnx & Hin & (s & Hb) & Hq).
    destruct (block_sizes _ _ _ Hs Hb) as (_ & _ & Hpos). simpl in Hpos, Hfuel. destruct fuel as [|fuel]; [lia|]. simpl first. cbn [uncache_list].
    unfold NULL at 1. rewrite (proj2 (Z.eqb_neq x 0)) by lia. unfold load. rewrite Hq. cbn [mbind option_bind].
    destruct (uncache_ok h G F Ls _ (Blk x s false) Hbo Hst1 Hb (Hcw _ Hb (proj2 (Hin x) (or_introl eq_refl))) eq_refl Hnx) as (h1 & G1 & E & Hrel). simpl in E. rewrite E. cbn [mbind option_bind].
    destruct Hrel as (Hbo1 & Hst2 & Hk1 & Hu1 & Hr1 & Hocc1 & Hx1 & Ht1). simpl in Hx1. pose proof (lookup_lt_Some _ _ _ Hi) as Hlt.
    destruct (IH fuel h1 G1 (<[i := l]> C) Hbo1 Hst2) as (h' & G' & E' & (Hbo' & Hst' & Hlive & Hk & Hres & Hlim & Hr & Hocc' & Ht') & Hc); [by eapply cache_whole_less; [exact Hcw|done|intros y Hy; apply Hin; right]|by rewrite list_lookup_insert_eq|lia|].
    rewrite list_insert_insert_eq in Hst', Hlive. exists h', G'. split; [done|].
    assert (Hlive1 : forall c, live G1 (<[i := l]> C) c <-> live G C c).
    { intros c. unfold live. rewrite (Hin (b_at c)). split.
      - intros (H1 & H2 & H3). rewrite <- (blk_eta c H2) in H1. apply Hx1 in H1 as [H1 Hne]. rewrite (blk_eta c H2) in H1. split_and!; [done|done|tauto].
      - intros (H1 & H2 & H3). split_and!; [|done|tauto]. rewrite <- (blk_eta c H2). apply Hx1. rewrite (blk_eta c H2). tauto. }
    unfold user in Hu1. injection Hu1 as U1 U2 U3 U4 U5 U6 U7 U8. simpl in Hr1. split; [|simpl in *; congruence]. split; [done|]. split; [done|].
    split; [intros c; by rewrite Hlive, Hlive1|]. split; [|split_and!; simpl in *; (congruence || lia || auto || (intros c Hc'; by rewrite Ht', Ht1))].
    intros z (c & Hc' & Hz). apply Hlive1 in Hc'. rewrite Hk by (by exists c). apply Hk1. exists c. destruct Hc' as (? & ? & _). done.
Qed.

Lemma drained_trans h1 h2 h3 G1 G2 G3 C1 C2 C3 : drained h1 h2 G1 G2 C1 C2 -> drained h2 h3 G2 G3 C2 C3 -> drained h1 h3 G1 G3 C1 C3.
Proof.
  intros (_ & _ & L1 & K1 & D1 & E1 & R1 & O1 & T1) (B2 & S2 & L2 & K2 & D2 & E2 & R2 & O2 & T2). split; [done|]. split; [done|].
  split; [intros c; by rewrite L2, L1|]. split; [|split_and!; (congruence || lia || auto || (intros c Hc'; by rewrite T2, T1))].
  intros z Hz. rewrite K2; [by apply K1|]. destruct Hz as (c & Hc & Hz). exists c. by rewrite L1.
Qed.
Lemma drained_cache h h' x G G' C C' : drained h h' G G' C C' -> drained h (set_cache x h') G G' C C'.
Proof.
  intros ((F & Ls & B1) & S1 & R). split; [exists F, Ls; by eapply blocks_ok_eq|]. split; [by eapply state_ok_eq|]. exact R.
Qed.
Lemma cache_allocated m l q : chain f_prev_free m l q -> forall x, x ∈ l -> is_Some (m !! f_prev_free x).
Proof.
  induction l as [|y l IH]; intros Hc x Hx; [by apply not_elem_of_nil in Hx|]. destruct Hc as [Hy Hc].
  apply elem_of_cons in Hx as [->|Hx]; [by eexists|by apply IH].
Qed.
Lemma cache_fuel h G C i l : state_ok h G C -> C !! i = Some l -> (length l <= base.size (mem h))%nat.
Proof.
  intros Hst Hl. destruct (st_cache _ _ _ Hst i _ Hl) as (Hnd & Hch & _). rewrite <- (length_fmap f_prev_free). apply nodup_length.
  - apply NoDup_fmap_2; [intros y z; unfold f_prev_free; lia|done].
  - intros y (z & -> & Hz)%list_elem_of_fmap. by eapply cache_allocated.
Qed.
Lemma free_cache_loop_ok : forall n i h G C, heap_ok h G C -> cache_whole G C -> (i + n = length C)%nat ->
  exists h' G' C', free_cache_loop n i h = Some h' /\ heap_ok h' G' C' /\ drained h h' G G' C C'
    /\ (forall j, (j < i)%nat -> C' !! j = C !! j) /\ (forall j l, (i <= j)%nat -> C' !! j = Some l -> l = []).
Proof.
  induction n as [|n IH]; intros i h G C Hok Hcw Hn.
  - exists h, G, C. split; [done|]. split; [done|]. destruct Hok. split; [by split_and!|]. split; [done|]. intros j l Hj Hl. apply lookup_lt_Some in Hl. lia.
  - pose proof (hk_space _ _ _ Hok) as Hs. pose proof Hok as [Hbo Hst Hocc Hh]. destruct (lookup_lt_is_Some_2 C i) as [l Hl]; [lia|].
    cbn [free_cache_loop]. rewrite Hh, list_lookup_fmap, Hl. cbn [fmap option_fmap option_map mbind option_bind]. cbv beta.
    assert (Hstep : exists h1 G1, (if first l NULL =? NULL then Some h else h ← uncache_list (base.size (mem h)) (first l NULL) h; Some (set_cache (<[i := NULL]> (cache h)) h)) = Some h1
      /\ heap_ok h1 G1 (<[i := []]> C) /\ drained h h1 G G1 C (<[i := []]> C)).
    { destruct l as [|x l].
      - exists h, G. split; [done|]. rewrite list_insert_id by done. split; [done|]. by split_and!.
      - destruct (state_pop h G C i x l Hs Hst Hl) as (_ & _ & _ & (s & Hb) & _). destruct (block_sizes _ _ _ Hs Hb) as (_ & _ & Hpos). simpl in Hpos.
        simpl first. unfold NULL at 1. rewrite (proj2 (Z.eqb_neq x 0)) by lia.
        destruct (uncache_list_ok i (x :: l) (base.size (mem h)) h G C Hbo Hst Hcw Hl) as (h1 & G1 & E & Hd & Hc1); [by eapply cache_fuel|].
        simpl first in E. rewrite E. cbn [mbind option_bind]. pose proof (drained_cache _ _ (<[i := NULL]> (cache h1)) _ _ _ _ Hd) as Hd'.
        eexists _, G1. split; [reflexivity|]. split; [|done]. split; [apply Hd'|apply Hd'|by apply Hd'|]. simpl. by rewrite Hc1, Hh, list_fmap_insert. }
    destruct Hstep as (h1 & G1 & E1 & Hok1 & Hd1). rewrite E1. cbn [mbind option_bind].
    destruct (IH (S i) h1 G1 _ Hok1) as (h' & G' & C' & E' & Hok' & Hd' & Hlo & Hhi); [|rewrite length_insert; lia|].
    { eapply cache_whole_less; [exact Hcw|apply Hd1|]. intros y (j & k & Hj & Hy). apply list_lookup_insert_Some in Hj as [(_ & <- & _)|[_ Hj]]; [by apply not_elem_of_nil in Hy|by exists j, k]. }
    exists h', G', C'. split; [done|]. split; [done|]. split; [by eapply drained_trans|].
    assert (Hlt : (i < length C)%nat) by lia. split.
    + intros j Hj. rewrite Hlo by lia. by rewrite list_lookup_insert_ne by lia.
    + intros j k Hj Hk. destruct (decide (j = i)) as [->|Hne]; [|apply (Hhi j); [lia|done]]. rewrite Hlo in Hk by lia. rewrite list_lookup_insert_eq in Hk by done. congruence.
Qed.
Lemma free_cache_whole h G C : heap_ok h G C -> cache_whole G C ->
  exists h' G' C', zend_mm_free_cache h = Some h' /\ heap_ok h' G' C' /\ drained h h' G G' C C' /\ forall x, ~ in_cache C' x.
Proof.
  intros Hok Hcw. destruct (free_cache_loop_ok (Z.to_nat N) 0 h G C Hok Hcw) as (h' & G' & C' & E & Hok' & Hd & _ & Hhi).
  { rewrite (st_length _ _ _ (hk_state _ _ _ Hok)). lia. }
  exists h', G', C'. split; [done|]. split; [done|]. split; [done|]. intros x (j & l & Hj & Hx). rewrite (Hhi j l ltac:(lia) Hj) in Hx. by apply not_elem_of_nil in Hx.
Qed.
End Efree.

(** ** No segment is torn *)
#[export] Instance nothing_torn : Torn := fun _ => False.
Lemma all_whole G b : whole G b.
Proof. by intros ? ? _ _ []. Qed.
Lemma all_headed `{SizeT} m a l : headed m a l -> headers_ok m a l.
Proof. intros Hh. apply Hh; intros []. Qed.

Section Whole.
Context `{SizeT}.
Variable base : Z.
Lemma live_header h G C b : heap_ok base h G C -> live G C b -> ZEND_MM_BLOCK_SIZE (b_at b) h = Some (b_size b).
Proof. intros Hok Hl. eapply live_header_whole; [exact Hok|exact Hl|apply all_whole]. Qed.
Lemma free_int_ok h G C b : heap_ok base h G C -> live G C b ->
  exists h' G' C', _zend_mm_free_int (ZEND_MM_DATA_OF (b_at b)) h = Some h' /\ freed base h h' G G' C C' /\ forall c, live G' C' c <-> live G C c /\ c <> b.
Proof. intros Hok Hl. by apply free_int_whole; [|..|apply all_whole]. Qed.
Lemma zend_mm_free_cache_ok h G C : heap_ok base h G C ->
  exists h' G' C', zend_mm_free_cache h = Some h' /\ heap_ok base h' G' C' /\ drained base h h' G G' C C' /\ forall x, ~ in_cache C' x.
Proof. intros Hok. apply free_cache_whole; [done|]. intros b _ _. apply all_whole. Qed.
End Whole.
