(* ===== verification/AllocEmalloc.v ===== *)
(** * AllocEmalloc: [_zend_mm_alloc_int] *)
From S2P Require Import Prelude ZendAlloc AllocBits AllocRing AllocTrie AllocCut AllocRemove AllocSearch AllocFree AllocTake AllocPick AllocMap AllocLayout AllocHeap AllocSplit AllocState AllocRelease AllocEfree.

(** What the memory manager relies on: fresh memory lies apart from all it has,
    memory that is made larger stays, or goes, apart from all else, and the handler of fatal errors comes back to the manager's code. *)
Class StorageOk `{SizeT} `{Storage} : Prop := {
  storage_fresh n h a f : storage_alloc n h = Some (a, f) -> 0 < n -> 0 < a /\ a + n <= 2 ^ ZEND_MM_NUM_BUCKETS
    /\ apart a n (buckets h) arrays_size /\ forall b k, regions h !! b = Some k -> apart a n b k;
  storage_regrown n h a b f : storage_realloc a n h = Some (b, f) -> is_Some (regions h !! a) -> 0 < n -> 0 < b /\ b + n <= 2 ^ ZEND_MM_NUM_BUCKETS
    /\ apart b n (buckets h) arrays_size /\ forall c k, regions h !! c = Some k -> c <> a -> apart b n c k;
  error_returns h : is_Some (zend_error_noreturn h)
}.

(** ** Giving up *)
Section GiveUp.
Context `{SizeT} {ST : Storage} {STO : StorageOk} {TN : Torn}.
Abbreviation HDR := ZEND_MM_ALIGNED_HEADER_SIZE.
Abbreviation layout := (gmap Z (list blk)).
Variable base : Z.
Abbreviation heap_ok := (heap_ok base).

Definition reserve_ok (h : mm_heap) (G : layout) (C : list (list Z)) : Prop :=
  reserve h = NULL \/ exists b, live G C b /\ reserve h = ZEND_MM_DATA_OF (b_at b).
(** The reserve has been given up, and the error reported. *)
Definition gave_up (h : mm_heap) (G : layout) (C : list (list Z)) (h' : mm_heap) : Prop :=
  exists h1 G1 C1, heap_ok h1 G1 C1 /\ reserve h1 = NULL
    /\ (forall c, live G1 C1 c <-> live G C c /\ reserve h <> ZEND_MM_DATA_OF (b_at c))
    /\ (forall z, live_data G1 C1 z -> mem h1 !! z = mem h !! z) /\ limit h1 = limit h /\ real_size h1 <= real_size h
    /\ (zend_error_noreturn (set_overflow 1 h1) = Some h' \/ h' = set_overflow 2 h1).
(** The reserve is not in a torn segment. *)
Definition reserve_whole (h : mm_heap) (G : layout) (C : list (list Z)) : Prop :=
  forall b, live G C b -> reserve h = ZEND_MM_DATA_OF (b_at b) -> whole G b.

Lemma live_pos h G C b : heap_ok h G C -> live G C b -> 0 < b_at b.
Proof. intros Hok (Hb & _). apply (block_sizes base _ _ _ (hk_space _ _ _ _ Hok) Hb). Qed.
Lemma safe_error_whole h G C : heap_ok h G C -> reserve_ok h G C -> reserve_whole h G C -> exists h', zend_mm_safe_error h = Some (Bailout h') /\ gave_up h G C h'.
Proof.
  intros Hok Hr Hw. pose proof consts as Co.
  assert (Hstep : exists h1 G1 C1, (if reserve h =? NULL then Some h else h' ← _zend_mm_free_int (reserve h) h; Some (set_reserve NULL h')) = Some h1
    /\ heap_ok h1 G1 C1 /\ reserve h1 = NULL /\ (forall c, live G1 C1 c <-> live G C c /\ reserve h <> ZEND_MM_DATA_OF (b_at c))
    /\ (forall z, live_data G1 C1 z -> mem h1 !! z = mem h !! z) /\ limit h1 = limit h /\ real_size h1 <= real_size h).
  { destruct Hr as [Er|(b & Hb & Er)]; rewrite Er.
    - exists h, G, C. rewrite Z.eqb_refl. split_and!; try done. intros c. split; [|tauto]. intros Hc. split; [done|].
      pose proof (live_pos _ _ _ _ Hok Hc). unfold ZEND_MM_DATA_OF, NULL. lia.
    - pose proof (live_pos _ _ _ _ Hok Hb) as Hpos. unfold NULL at 1. rewrite (proj2 (Z.eqb_neq _ 0)) by (unfold ZEND_MM_DATA_OF; lia).
      destruct (free_int_whole base h G C b Hok Hb (Hw b Hb Er)) as (h1 & G1 & C1 & E & (Hok1 & Hd & Hres & Hlim & Hre) & Hl). rewrite E. cbn [mbind option_bind].
      exists (set_reserve NULL h1), G1, C1. split; [done|]. split; [by eapply heap_ok_eq|]. split; [done|]. split; [|done].
      intros c. rewrite Hl. split; intros [Hc Hne]; (split; [done|]).
      + unfold ZEND_MM_DATA_OF. intros E'. apply Hne. destruct Hc as (Hc & _), Hb as (Hb & _). apply (block_unique base (mem h) G); [by eapply hk_space|done|done|lia].
      + intros ->. done. }
  destruct Hstep as (h1 & G1 & C1 & E & Hok1 & Hrest). unfold zend_mm_safe_error. rewrite E. cbn [mbind option_bind].
  destruct (overflow h1 =? 0).
  - destruct (error_returns (set_overflow 1 h1)) as [h2 E2]. rewrite E2. cbn [mbind option_bind]. exists h2. split; [done|].
    exists h1, G1, C1. tauto.
  - eexists. split; [reflexivity|]. exists h1, G1, C1. tauto.
Qed.
(** The cache is emptied first. *)
Lemma give_up_whole h G C : heap_ok h G C -> reserve_ok h G C -> reserve_whole h G C -> cache_whole G C ->
  exists h', (h ← zend_mm_free_cache h; zend_mm_safe_error h) = Some (Bailout h') /\ gave_up h G C h'.
Proof.
  intros Hok Hr Hw Hcw. destruct (free_cache_whole base h G C Hok Hcw) as (h1 & G1 & C1 & E & Hok1 & (_ & _ & Hl & Hd & Hres & Hlim & Hre & _ & Ht) & _).
  rewrite E. cbn [mbind option_bind]. destruct (safe_error_whole h1 G1 C1 Hok1) as (h2 & E2 & h3 & G3 & C3 & R1 & R2 & R3 & R4 & R5 & R6 & R7).
  { unfold reserve_ok. rewrite Hres. destruct Hr as [?|(b & Hb & Er)]; [by left|right]. exists b. by rewrite Hl. }
  { intros b Hb Er a l Ha Hin Hta. apply Hl in Hb. rewrite Hres in Er. rewrite Ht in Ha by done. by apply (Hw b Hb Er a l Ha Hin). }
  exists h2. split; [done|]. exists h3, G3, C3. split; [done|]. split; [done|].
  split; [intros c; by rewrite R3, Hl, Hres|]. split; [|split_and!; (done || congruence || lia)].
  intros z Hz. rewrite R4 by done. apply Hd. destruct Hz as (c & Hc & Hz). exists c. apply R3 in Hc as [Hc _]. by rewrite <- Hl.
Qed.

End GiveUp.

Section Emalloc.
Context `{SizeT}.
Abbreviation N := ZEND_MM_NUM_BUCKETS.
Abbreviation MIN := ZEND_MM_ALIGNED_MIN_HEADER_SIZE.
Abbreviation HDR := ZEND_MM_ALIGNED_HEADER_SIZE.
Abbreviation SEG := ZEND_MM_ALIGNED_SEGMENT_SIZE.
Abbreviation MAXS := ZEND_MM_MAX_SMALL_SIZE.
Abbreviation GUARD := ZEND_MM_GUARD_BLOCK.
Abbreviation layout := (gmap Z (list blk)).

(** ** Sizes *)
Lemma true_size_overflow n : 0 <= n < 2 ^ N -> 2 ^ N <= n + HDR + 7 -> ZEND_MM_TRUE_SIZE n < MAXS.
Proof.
  intros Hn Ho. pose proof consts as C. pose proof word_pow as Hp. unfold ZEND_MM_TRUE_SIZE. rewrite (proj2 (Z.ltb_ge n _)) by lia.
  replace (n + HDR + END_MAGIC_SIZE) with (n + HDR) by (unfold END_MAGIC_SIZE; lia). unfold ZEND_MM_ALIGNED_SIZE. rewrite land_mask. unfold ZEND_MM_ALIGNMENT.
  assert (E : size_t (n + HDR + 8 - 1) = n + HDR + 7 - 2 ^ N) by (unfold size_t; symmetry; apply (Z.mod_unique_pos _ _ 1); lia).
  rewrite E. pose proof (Z.div_mod (n + HDR + 7 - 2 ^ N) 8). pose proof (Z.mod_pos_bound (n + HDR + 7 - 2 ^ N) 8). lia.
Qed.

(** Rounding up to a multiple of [2 ^ k] wraps around to less than that. *)
Lemma round_up k x : 0 <= k < N -> 0 <= x < 2 ^ N -> let r := Z.land (size_t (x + (2 ^ k - 1))) (size_t (Z.lnot (2 ^ k - 1))) in
  r mod 2 ^ k = 0 /\ 0 <= r < 2 ^ N /\ r <= x + (2 ^ k - 1) /\ (x <= r \/ r = 0).
Proof.
  intros Hk Hx. cbv zeta. pose proof (Z.pow_pos_nonneg 2 k ltac:(lia) ltac:(lia)) as Hpk.
  assert (Hle : 2 ^ k <= 2 ^ N) by (apply Z.pow_le_mono_r; lia).
  pose proof (size_t_range (x + (2 ^ k - 1))) as Hr. set (y := size_t (x + (2 ^ k - 1))) in *.
  assert (Em : size_t (Z.lnot (2 ^ k - 1)) = 2 ^ N - 2 ^ k).
  { unfold size_t, Z.lnot. symmetry. apply (Z.mod_unique_pos _ _ (-1)); lia. }
  assert (El : Z.land y (size_t (Z.lnot (2 ^ k - 1))) = 2 ^ k * (y / 2 ^ k)).
  { rewrite Em. rewrite <- Z.shiftr_div_pow2, Z.mul_comm, <- Z.shiftl_mul_pow2 by lia. apply Z.bits_inj'. intros i Hi.
    rewrite Z.land_spec, Z.shiftl_spec by done. destruct (Z.lt_ge_cases i k) as [Hik|Hik].
    - rewrite (Z.testbit_neg_r _ (i - k)) by lia. apply andb_false_iff. right.
      replace (2 ^ N - 2 ^ k) with ((2 ^ (N - k) - 1) * 2 ^ k) by (rewrite Z.mul_sub_distr_r, <- Z.pow_add_r by lia; replace (N - k + k) with N by lia; lia).
      rewrite <- Z.shiftl_mul_pow2, Z.shiftl_spec, Z.testbit_neg_r by lia. done.
    - rewrite Z.shiftr_spec by lia. replace (i - k + k) with i by lia.
      replace (2 ^ N - 2 ^ k) with (Z.ones (N - k) * 2 ^ k) by (rewrite Z.ones_equiv; rewrite <- Z.sub_1_r, Z.mul_sub_distr_r, <- Z.pow_add_r by lia; replace (N - k + k) with N by lia; lia).
      rewrite <- Z.shiftl_mul_pow2, Z.shiftl_spec by lia. destruct (Z.lt_ge_cases i N) as [HiN|HiN].
      + rewrite Z.ones_spec_low by lia. apply andb_true_r.
      + rewrite Z.ones_spec_high by lia. rewrite andb_false_r. symmetry. destruct (Z.eq_dec y 0) as [->|Hy0]; [apply Z.bits_0|].
        apply Z.bits_above_log2; [lia|]. enough (Z.log2 y < N) by lia. apply Z.log2_lt_pow2; lia. }
  rewrite El. rewrite Z.mul_comm, Z.mod_mul by lia. split; [done|]. pose proof (Z.div_mod y (2 ^ k) ltac:(lia)) as Ed. pose proof (Z.mod_pos_bound y (2 ^ k) Hpk) as Eb.
  pose proof (Z.div_pos y (2 ^ k) ltac:(lia) ltac:(lia)). rewrite (Z.mul_comm (y / _)). split; [nia|].
  split; [assert (y <= x + (2 ^ k - 1)) by (unfold y, size_t; apply Z.mod_le; lia); nia|].
  destruct (Z.lt_ge_cases (x + (2 ^ k - 1)) (2 ^ N)) as [Hlt|Hge].
  - left. unfold y in *. rewrite size_t_small in * by lia. lia.
  - right. assert (Ey : y = x + (2 ^ k - 1) - 2 ^ N) by (unfold y, size_t; symmetry; apply (Z.mod_unique_pos _ _ 1); lia).
    rewrite (Z.div_small y) by lia. lia.
Qed.

(** The size of a segment is rounded up; when that overflows, it is too small
    and the segment is not made. *)
Lemma segment_size_ok h k ts : block_size h = 2 ^ k -> 3 <= k < N -> MIN <= ts < 2 ^ N ->
  let n := (segment_size ts h).1 in 0 <= n < 2 ^ N /\ n mod 8 = 0 /\ (ts <= n -> SEG + HDR + ts <= n).
Proof.
  intros Eb Hk Hts. pose proof consts as C. pose proof word_pow as Hp. unfold segment_size. rewrite Eb.
  assert (Hpk : 2 ^ k < 2 ^ N) by (apply Z.pow_lt_mono_r; lia). assert (Hp3 : 2 ^ 3 <= 2 ^ k) by (apply Z.pow_le_mono_r; lia).
  assert (Hmod : forall r, r mod 2 ^ k = 0 -> r mod 8 = 0).
  { intros r Hr. apply Z.mod_divide; [done|]. apply Z.mod_divide in Hr; [|lia]. eapply Z.divide_trans; [|exact Hr]. exists (2 ^ (k - 3)).
    change 8 with (2 ^ 3). rewrite <- Z.pow_add_r by lia. f_equal. lia. }
  destruct (Z.ltb_spec (size_t (2 ^ k - (SEG + HDR))) ts) as [Hlt|Hge]; simpl.
  - pose proof (size_t_range (ts + SEG + HDR)) as Hr. destruct (round_up k (size_t (ts + SEG + HDR))) as (R1 & R2 & R4 & R3); [lia|done|].
    split; [done|]. split; [by apply Hmod|]. intros Hle. destruct (Z.lt_ge_cases (ts + SEG + HDR) (2 ^ N)) as [Hs|Hs].
    + rewrite (size_t_small (ts + SEG + HDR)) in * by lia. destruct R3; lia.
    + exfalso. assert (Ex : size_t (ts + SEG + HDR) = ts + SEG + HDR - 2 ^ N) by (unfold size_t; symmetry; apply (Z.mod_unique_pos _ _ 1); lia).
      set (x := size_t (ts + SEG + HDR)) in *. set (r := Z.land _ _) in *.
      assert (2 ^ k <= 2 ^ (N - 1)) by (apply Z.pow_le_mono_r; lia). assert (2 ^ N = 2 * 2 ^ (N - 1)) by (rewrite <- Z.pow_succ_r by lia; f_equal; lia). lia.
  - split; [lia|]. split; [apply Hmod, Z.mod_same; lia|]. intros Hle. destruct (Z.lt_ge_cases (2 ^ k) (SEG + HDR)) as [Hs|Hs].
    + exfalso. assert (size_t (2 ^ k - (SEG + HDR)) = 2 ^ k - (SEG + HDR) + 2 ^ N) by (unfold size_t; symmetry; apply (Z.mod_unique_pos _ _ (-1)); lia).
      assert (8 <= 2 ^ k) by lia. lia.
    + rewrite size_t_small in Hge by lia. lia.
Qed.

(** ** The memory of a new segment *)
Lemma region_in a n f k : 0 <= k -> (k + 1) * W <= n -> is_Some (region a n f !! (a + k * W)).
Proof.
  intros Hk Hn. pose proof consts as C. destruct (region a n f !! (a + k * W)) eqn:E; [by eexists|exfalso].
  apply not_elem_of_list_to_map in E. apply E. rewrite <- list_fmap_compose. apply list_elem_of_fmap. exists (Z.to_nat k). simpl. split; [lia|].
  apply elem_of_seq. assert (k + 1 <= n / W) by (apply Z.div_le_lower_bound; lia). lia.
Qed.
Lemma region_out a n f z : ~ (a <= z < a + n) -> region a n f !! z = None.
Proof.
  intros Hz. pose proof consts as C. apply not_elem_of_list_to_map. rewrite <- list_fmap_compose. intros (i & -> & Hi)%list_elem_of_fmap. simpl in Hz.
  apply elem_of_seq in Hi. apply Hz. assert (HW : 0 < W) by lia. assert (Hi' : Z.of_nat i + 1 <= n / W) by lia. pose proof (Z.mul_div_le n W HW).
  assert (W * (Z.of_nat i + 1) <= W * (n / W)) by (apply Z.mul_le_mono_nonneg_l; lia). lia.
Qed.

Variable base : Z.
Abbreviation heap_ok := (heap_ok base).
Abbreviation blocks_ok := (blocks_ok base).

Lemma space_insert m m' G a room b : space_ok base m G -> G !! a = None -> 0 < a -> a + (SEG + room + HDR) <= 2 ^ N ->
  apart a (SEG + room + HDR) base arrays_size -> (forall c k, G !! c = Some k -> apart a (SEG + room + HDR) c (seg_len k)) ->
  room mod 8 = 0 -> MIN <= room -> b = Blk (a + SEG) room false ->
  words m' a (SEG + room + HDR) -> (forall z, is_Some (m !! z) -> is_Some (m' !! z)) -> space_ok base m' (<[a := [b]]> G).
Proof.
  intros [S1 S2 S3 S4 S5] Ha Hpos Hend Hap Hdis Hm Hmin Eb Hw Hmono. subst b.
  assert (El : seg_len [Blk (a + SEG) room false] = SEG + room + HDR) by (unfold seg_len; simpl; lia).
  assert (HG : forall c k, <[a := [Blk (a + SEG) room false]]> G !! c = Some k -> c = a /\ k = [Blk (a + SEG) room false] \/ c <> a /\ G !! c = Some k).
  { intros c k Hc. apply lookup_insert_Some in Hc as [[<- <-]|[Hne Hc]]; [by left|right]. split; [congruence|done]. }
  split.
  - done.
  - intros k Hk Hk'. apply Hmono. by apply S2.
  - intros c k Hc. apply HG in Hc as [[-> ->]|[_ Hc]]; [rewrite El; split; [done|split; [lia|done]]|].
    destruct (S3 c k Hc) as (R1 & R2 & R3 & R4). split; [done|]. split; [done|]. split; [|done]. intros j Hj Hj'. apply Hmono. by apply R3.
  - intros c k Hc. apply HG in Hc as [[-> ->]|[_ Hc]]; [|by apply S4]. split; [done|]. split; [|done]. intros d ->%list_elem_of_singleton. done.
  - intros c k d j Hc Hd Hne. apply HG in Hc as [[-> ->]|[Hca Hc]]; apply HG in Hd as [[-> ->]|[Hda Hd]]; [done| | |by apply S5].
    + rewrite El. by apply Hdis.
    + rewrite El. pose proof (Hdis c k Hc) as Hx. unfold apart in *. lia.
Qed.

(** The new segment, its headers written around the place for its blocks. *)
Lemma insert_hole h h' G F Ls a room b : blocks_ok h G F Ls -> b = Blk (a + SEG) room false -> let G' := <[a := [b]]> G in
  space_ok base (mem h') G' -> G !! a = None -> buckets h' = buckets h -> bits h' = bits h ->
  (forall z, ~ (a <= z < a + (SEG + room + HDR)) -> mem h' !! z = mem h !! z) ->
  mem h' !! (a + SEG + W) = Some GUARD -> mem h' !! (a + SEG + room) = Some (GUARD + HDR) ->
  hole base h' G' a [] [b] [] F Ls.
Proof.
  intros [B1 B2 B3 B4] Eb G' Hs Ha Ebk Ebits Hm Hg1 Hg2. pose proof consts as C.
  assert (Ha' : G' !! a = Some [b]) by apply lookup_insert_eq.
  assert (El : seg_len [b] = SEG + room + HDR) by (rewrite Eb; unfold seg_len; simpl; lia).
  assert (Hother : forall c k, c <> a -> G !! c = Some k -> forall z, c <= z < c + seg_len k -> mem h' !! z = mem h !! z).
  { intros c k Hne Hc z Hz. apply Hm. assert (Hc' : G' !! c = Some k) by (unfold G'; by rewrite lookup_insert_ne).
    pose proof (so_apart _ _ _ Hs a _ c k Ha' Hc' ltac:(done)) as Hap. unfold apart in Hap. lia. }
  split; [done|by rewrite app_nil_r| | | |].
  - intros c k Hne Hc. unfold G' in Hc. rewrite lookup_insert_ne in Hc by done. destruct (so_blocks _ _ _ B1 c k Hc) as (Ht & Hz & _).
    intros Hwh. eapply headers_other; [by apply B2|done|done|]. by apply Hother.
  - split; [done|]. simpl. rewrite Z.add_0_r. split; [done|]. rewrite Eb. simpl. rewrite Z.add_0_r. done.
  - assert (Hmap : map_ok base F (mem h')).
    { eapply space_map; [exact Hs|]. intros x s Hx. apply B4 in Hx as (c & k & Hc & Hx). exists true, c, k. split; [|done].
      unfold G'. rewrite lookup_insert_ne; [done|congruence]. }
    eapply free_in_headers; [exact B3|done|done|done| |].
    + intros x s Hx z Hz _. apply B4 in Hx as (c & k & Hc & Hx). destruct (block_place base _ G c k _ B1 Hc Hx) as (P1 & P2 & _). simpl in *.
      apply (Hother c k); [congruence|done|lia].
    + intros z Hz. apply Hm. destruct (so_seg _ _ _ Hs a _ Ha') as (_ & _ & _ & Hap). unfold apart in Hap. lia.
  - intros x s. rewrite (B4 x s). split.
    + intros (c & k & Hc & Hx). left. exists c, k. assert (c <> a) by congruence. unfold G'. by rewrite lookup_insert_ne.
    + intros [(c & k & Hne & Hc & Hx)|Hx]; [|by apply not_elem_of_nil in Hx]. unfold G' in Hc. rewrite lookup_insert_ne in Hc by done. by exists c, k.
Qed.

(** A new segment in the list of segments. *)
Lemma state_insert h h' (G : layout) C a b : space_ok base (mem h) G -> state_ok h G C -> G !! a = None -> let G' := <[a := [b]]> G in
  space_ok base (mem h') G' -> a + seg_len [b] <= 2 ^ N -> regions h' = <[a := seg_len [b]]> (regions h) ->
  real_size h' = size_t (real_size h + seg_len [b]) -> segments_list h' = a -> block_size h' = block_size h ->
  (forall z, ~ (a <= z < a + seg_len [b]) -> mem h' !! z = mem h !! z) ->
  mem h' !! seg_size a = Some (seg_len [b]) -> mem h' !! seg_next a = Some (segments_list h) -> state_ok h' G' C /\ real_size h' = real_size h + seg_len [b].
Proof.
  intros Hs0 Hst Ha G' Hs Hend Er Ereal Eseg Ebs Hm Hsz Hnx. pose proof Hst as [S1 S2 S3 S4 S5 S6 S7 S8 S9]. pose proof consts as Co.
  assert (HG : forall c k, G' !! c = Some k -> c = a /\ k = [b] \/ c <> a /\ G !! c = Some k).
  { intros c k Hc. apply lookup_insert_Some in Hc as [[<- <-]|[Hne Hc]]; [by left|right]. split; [congruence|done]. }
  assert (Ha' : G' !! a = Some [b]) by apply lookup_insert_eq.
  assert (Hroom : forall c k, G' !! c = Some k -> c + seg_len k <= 2 ^ N) by (intros c k [[-> ->]|[_ Hc]]%HG; [done|by apply S2]).
  assert (Hold : forall c k z, c <> a -> G !! c = Some k -> c <= z < c + seg_len k -> mem h' !! z = mem h !! z).
  { intros c k z Hne Hc Hz. apply Hm. assert (Hc' : G' !! c = Some k) by (unfold G'; by rewrite lookup_insert_ne).
    pose proof (so_apart _ _ _ Hs a _ c k Ha' Hc' ltac:(done)) as Hap. unfold apart in Hap. lia. }
  assert (Hlen : forall c k, G !! c = Some k -> c <> a /\ 2 * W <= seg_len k).
  { intros c k Hc. split; [congruence|]. destruct (so_blocks _ _ _ Hs0 c k Hc) as (_ & Hz & _). pose proof (sized_total _ Hz) as [? _]. unfold seg_len. lia. }
  assert (Efm : regions h' = seg_len <$> G') by (unfold G'; by rewrite fmap_insert, Er, S3).
  assert (Esum : sum (regions h') = seg_len [b] + real_size h) by (rewrite Er, sum_insert, S6; [done|by rewrite S3, lookup_fmap, Ha]).
  pose proof (sum_layout base _ _ Hs Hroom) as Hsum. rewrite <- Efm, Esum in Hsum.
  assert (Er2 : real_size h' = real_size h + seg_len [b]) by (rewrite Ereal; apply size_t_small; lia). split; [|done].
  split; try done.
  - intros c k [[-> ->]|[_ Hc]]%HG; [done|by apply (S1 c)].
  - intros c k [[-> ->]|[Hne Hc]]%HG; [done|]. destruct (Hlen c k Hc) as [_ ?]. rewrite (Hold c k) by (done || unfold seg_size; lia). by apply S4.
  - destruct S5 as (segs & Q1 & Q2 & Q3 & Q4). exists (a :: segs). split; [|split; [|split; [done|split; [by rewrite Hnx, Q3|]]]].
    + constructor; [|done]. rewrite Q2, Ha. by intros [? ?].
    + intros c. rewrite elem_of_cons, Q2. unfold G'. rewrite lookup_insert_is_Some. destruct (decide (a = c)); naive_solver.
    + eapply chain_frame; [exact Q4|]. intros c Hc. apply Q2 in Hc as [k Hc]. destruct (Hlen c k Hc). apply (Hold c k); [done|done|unfold seg_next; lia].
  - rewrite Er2, Esum. lia.
  - intros i l Hi. destruct (S8 i l Hi) as (N1 & N2 & N3). split; [done|].
    assert (Hin : forall x, x ∈ l -> exists c k, c <> a /\ G !! c = Some k /\ Blk x (8 * Z.of_nat i + MIN) false ∈ k).
    { intros x Hx. destruct (N3 x Hx) as (c & k & Hc & Hk). exists c, k. split; [|done]. by destruct (Hlen c k Hc). }
    split.
    + eapply chain_frame; [exact N2|]. intros x Hx. destruct (Hin x Hx) as (c & k & Hne & Hc & Hk). apply (Hold c k); [done|done|].
      destruct (block_place base _ G c k _ Hs0 Hc Hk) as (P1 & P2 & _ & _ & P3). unfold f_prev_free. simpl in *. lia.
    + intros x Hx. destruct (Hin x Hx) as (c & k & Hne & Hc & Hk). exists c, k. split; [|done]. unfold G'. by rewrite lookup_insert_ne.
  - by rewrite Ebs.
Qed.

Context {ST : Storage} {STO : StorageOk}.

Lemma open_segment_ok h G F Ls C n a h1 : blocks_ok h G F Ls -> state_ok h G C -> n mod 8 = 0 -> SEG + HDR + MIN <= n -> n < 2 ^ N ->
  ZEND_MM_STORAGE_ALLOC n h = Some (a, h1) ->
  let room := n - SEG - HDR in let b := Blk (a + SEG) room false in let G' := <[a := [b]]> G in
  exists h', open_segment a n h1 = Some (a + SEG, room, h') /\ hole base h' G' a [] [b] [] F Ls /\ state_ok h' G' C /\ G !! a = None
    /\ (forall z, data G z -> mem h' !! z = mem h !! z) /\ user h' = user h
    /\ real_size h' = real_size h + n /\ size_t (real_size h + n) = real_size h + n.
Proof.
  intros Hbo Hst Hm Hmin Hlt E room b G'. pose proof consts as Co. pose proof seg_aligned as [As Ah].
  unfold ZEND_MM_STORAGE_ALLOC in E. destruct (storage_alloc n h) as [[a' f]|] eqn:Ea; [|done]. cbn [mbind option_bind] in E. injection E as -> <-.
  destruct (storage_fresh n h a f Ea) as (Hpos & Hend & Hap & Hdis); [lia|].
  destruct Hbo as [B1 B2 B3 B4]. assert (Ebase : buckets h = base) by (destruct B3 as (_ & B3 & _); apply (fo_base _ _ _ _ _ B3)). rewrite Ebase in Hap.
  assert (Hdis' : forall c k, G !! c = Some k -> apart a n c (seg_len k)) by (intros c k Hc; apply Hdis; by rewrite (st_regions _ _ _ Hst), lookup_fmap, Hc).
  assert (HaG : G !! a = None).
  { destruct (G !! a) as [k|] eqn:Ek; [|done]. pose proof (Hdis' a k Ek) as Hx. destruct (so_blocks _ _ _ B1 a k Ek) as (_ & Hz & _).
    destruct (sized_total _ Hz). unfold apart, seg_len in Hx. lia. }
  assert (Er : room = n - SEG - HDR) by done. assert (En : n = SEG + room + HDR) by lia.
  assert (Hroom : segment_room n = room) by (unfold segment_room; rewrite size_t_small; lia).
  assert (Hrm : room mod 8 = 0).
  { replace room with (n + (-2) * (SEG + HDR) + (SEG + HDR)) by lia. assert (E8 : (SEG + HDR) mod 8 = 0) by (rewrite Z.add_mod, As, Ah; done).
    rewrite Z.add_mod, (Z.add_mod n), Hm, Z.mul_mod, E8 by lia. done. }
  assert (Hwords : words (region a n f ∪ mem h) a n).
  { intros k Hk Hk'. rewrite lookup_union. destruct (region_in a n f k Hk Hk') as [v ->]. by destruct (mem h !! _); eexists. }
  assert (Hin : forall x, a <= x -> x + W <= a + n -> (x - a) mod 8 = 0 -> is_Some ((region a n f ∪ mem h) !! x)).
  { intros x H1 H2 H3. assert (Hx : words (region a n f ∪ mem h) x W) by (eapply words_in; [exact Hwords|lia..|done]).
    specialize (Hx 0). rewrite Z.mul_0_l, Z.add_0_r in Hx. apply Hx; lia. }
  assert (Hw2 : forall x, a <= x -> x + 2 * W <= a + n -> (x - a) mod 8 = 0 -> is_Some ((region a n f ∪ mem h) !! (x + W))).
  { intros x H1 H2 H3. assert (Hx : words (region a n f ∪ mem h) x (2 * W)) by (eapply words_in; [exact Hwords|lia..|done]).
    specialize (Hx 1). rewrite Z.mul_1_l in Hx. apply Hx; lia. }
  destruct (Hin a) as [v1 V1]; [lia|lia|by rewrite Z.sub_diag|]. destruct (Hw2 a) as [v2 V2]; [lia|lia|by rewrite Z.sub_diag|].
  destruct (Hw2 (a + SEG)) as [v3 V3]; [lia|lia|by replace (a + SEG - a) with SEG by lia|].
  destruct (Hin (a + SEG + room)) as [v4 V4]; [lia|lia|replace (a + SEG + room - a) with (SEG + room) by lia; by rewrite Z.add_mod, As, Hrm|].
  set (m0 := region a n f ∪ mem h) in *.
  set (m' := <[a + SEG + room := GUARD + HDR]> (<[a + SEG + W := GUARD]> (<[a + W := segments_list h]> (<[a := n]> m0)))).
  unfold open_segment, store, ZEND_MM_MARK_FIRST_BLOCK, ZEND_MM_LAST_BLOCK, store, seg_size, seg_next, f_prev, f_size. rewrite Hroom.
  assert (Emem : forall x, mem (count_real x (add_region a n f h)) = m0) by (intros x; unfold count_real; by case_match).
  assert (Esl : forall x, segments_list (count_real x (add_region a n f h)) = segments_list h) by (intros x; unfold count_real; by case_match).
  rewrite Emem, V1. cbn [mbind option_bind]. cbn [mem set_mem]. rewrite lookup_insert_ne, V2 by lia. cbn [mbind option_bind].
  cbn [mem set_mem set_segments_list segments_list]. rewrite !lookup_insert_ne, V3 by lia. cbn [mbind option_bind].
  cbn [mem set_mem set_segments_list]. rewrite !lookup_insert_ne, V4 by lia. cbn [mbind option_bind].
  cbn [mem set_mem set_segments_list]. rewrite Esl, guard_lor. eexists. split; [reflexivity|]. set (h' := set_mem _ _).
  assert (Em' : mem h' = m') by done.
  assert (Hm' : forall z, ~ (a <= z < a + n) -> mem h' !! z = mem h !! z).
  { intros z Hz. rewrite Em'. unfold m'. rewrite !lookup_insert_ne by lia. unfold m0. rewrite lookup_union, region_out by done. by destruct (mem h !! z). }
  assert (Hmono : forall z, is_Some (m0 !! z) -> is_Some (m' !! z)).
  { intros z Hz. unfold m'. repeat (rewrite lookup_insert; case_decide; [by eexists|]). done. }
  assert (Hfields : regions h' = <[a := n]> (regions h) /\ real_size h' = size_t (real_size h + n) /\ block_size h' = block_size h /\ buckets h' = buckets h /\ bits h' = bits h /\ user h' = user h).
  { unfold h'. unfold count_real. case_match; done. }
  destruct Hfields as (Q1 & Q2 & Q3 & Q4 & Q5 & Q6).
  assert (El : seg_len [b] = n) by (unfold seg_len; simpl; lia).
  assert (Hs' : space_ok base (mem h') G').
  { rewrite Em'. eapply (space_insert (mem h) m' G a room b); rewrite <- ?En; try done; [lia|intros k Hk Hk'; by apply Hmono, Hwords|].
    intros z Hz. apply Hmono. unfold m0. rewrite lookup_union. destruct Hz as [w ->]. by destruct (region a n f !! z); eexists. }
  assert (Hst' : state_ok h' G' C /\ real_size h' = real_size h + seg_len [b]).
  { apply (state_insert h h' G C a b); try done; rewrite ?El; try done; [rewrite Em'; unfold m', seg_size; rewrite !lookup_insert_ne by lia; apply lookup_insert_eq|].
    rewrite Em'. unfold m', seg_next. rewrite !(lookup_insert_ne _ _ (a + W)) by lia. apply lookup_insert_eq. }
  destruct Hst' as [Hst' Hr']. rewrite El in Hr'.
  split; [|split; [done|split; [done|split; [|split; [done|split; [done|congruence]]]]]].
  - apply (insert_hole h h' G F Ls a room b); try done; [by rewrite <- En| |].
    + rewrite Em'. unfold m'. rewrite lookup_insert_ne by lia. apply lookup_insert_eq.
    + rewrite Em'. unfold m'. apply lookup_insert_eq.
  - intros z (c & (d & k & Hd & Hc) & _ & Hz). apply Hm'. destruct (block_place base _ G d k c B1 Hd Hc) as (P1 & P2 & _).
    pose proof (Hdis' d k Hd) as Hx. unfold apart in Hx. lia.
Qed.

(** ** Using a block *)
Lemma count_used_fields x h : mem (count_used x h) = mem h /\ buckets (count_used x h) = buckets h /\ bits (count_used x h) = bits h
  /\ fixed (count_used x h) = fixed h /\ cache (count_used x h) = cache h /\ reserve (count_used x h) = reserve h /\ limit (count_used x h) = limit h.
Proof. unfold count_used. by case_match. Qed.

Definition used_block (h h' : mm_heap) (G G' : layout) (C : list (list Z)) (x n : Z) : Prop :=
  (exists F Ls, blocks_ok h' G' F Ls) /\ state_ok h' G' C /\ kept G' h h' /\ cache h' = cache h /\ reserve h' = reserve h
  /\ limit h' = limit h /\ real_size h' = real_size h /\ (occupied G -> occupied G')
  /\ forall y s, block_in G' (Blk y s false) <-> (block_in G (Blk y s false) /\ y <> x) \/ (y = x /\ s = n).

(** A part of a segment has been laid out with one used block at its start. *)
Lemma split_used h h1 G a l1 m0 m1 l2 F Ls C n : hole base h G a l1 m0 l2 F Ls -> state_ok h G C -> m0 <> [] -> let x := a + SEG + total l1 in
  (forall c, c ∈ m0 -> b_free c = false -> b_at c = x) -> starts_free l2 = false -> ~ in_cache C x ->
  laid base h h1 G a l1 m1 l2 -> m1 = [Blk x n false] /\ n = total m0 \/ m1 = [Blk x n false; Blk (x + n) (total m0 - n) true] ->
  used_block h h1 G (<[a := l1 ++ m1 ++ l2]> G) C x n.
Proof.
  intros Hh Hst Hne x Honly Hl2 Hnc ((F' & Ls' & Hbo) & Hk & Ho & Hw) Hm1. set (G' := <[a := l1 ++ m1 ++ l2]> G) in *.
  pose proof (ho_space _ _ _ _ _ _ _ _ _ Hh) as Hs. pose proof (ho_seg _ _ _ _ _ _ _ _ _ Hh) as Ha.
  assert (Hhd : exists c, c ∈ m0 /\ b_at c = x).
  { destruct m0 as [|c m0]; [done|]. exists c. split; [by left|]. by apply (read_place base h G a l1 (m0 ++ l2) c). }
  destruct Hhd as (c & Hc & Ec). destruct (block_part base _ _ _ _ _ _ c Hs Ha Hc) as [Hc1 Hc2].
  assert (Hcin : block_in G c) by (exists a, (l1 ++ m0 ++ l2); split; [done|]; rewrite !elem_of_app; auto).
  assert (Hat : forall y s, block_in G (Blk y s false) -> y = x -> Blk y s false = c) by (intros y s Hy E; apply (block_unique base (mem h) G); [done|done|done|simpl; congruence]).
  assert (Hm1' : forall y s, Blk y s false ∈ m1 <-> y = x /\ s = n) by (intros y s; destruct Hm1 as [[-> _]| ->]; rewrite !elem_of_cons, elem_of_nil; naive_solver).
  assert (Huse : forall y s, block_in G' (Blk y s false) <-> (block_in G (Blk y s false) /\ y <> x) \/ (y = x /\ s = n)).
  { intros y s. unfold G'. rewrite block_in_retile, !elem_of_app, Hm1'. split.
    - intros [(d & k & Hnd & Hd & Hy)|[Hy|[Hy|Hy]]]; [|left|by right|left].
      + left. split; [by exists d, k|]. intros E. pose proof (Hat y s ltac:(by exists d, k) E) as Eb. rewrite Eb in Hy.
        apply Hnd. eapply (block_seg base _ _ d k a _ c); [exact Hs|done|exact Ha|done|rewrite !elem_of_app; auto].
      + assert (Hin : block_in G (Blk y s false)) by (exists a, (l1 ++ m0 ++ l2); split; [done|rewrite !elem_of_app; auto]).
        split; [done|]. intros E. by rewrite (Hat y s Hin E) in Hy.
      + assert (Hin : block_in G (Blk y s false)) by (exists a, (l1 ++ m0 ++ l2); split; [done|rewrite !elem_of_app; auto]).
        split; [done|]. intros E. by rewrite (Hat y s Hin E) in Hy.
    - intros [[(d & k & Hd & Hy) Hnx]|Hy]; [|by right; right; left]. destruct (decide (d = a)) as [->|Hda]; [|left; by exists d, k]. right.
      rewrite Ha in Hd. injection Hd as <-. rewrite !elem_of_app in Hy. destruct Hy as [?|[Hy|?]]; [by left| |by right; right].
      exfalso. by apply Hnx, (Honly _ Hy). }
  split; [by exists F', Ls'|]. split; [|split; [done|]].
  - eapply state_move; [exact Hst|apply Hbo| | |exact Hk|by apply others_fixed|].
    + apply map_eq. intros d. rewrite !lookup_fmap. destruct (decide (d = a)) as [->|Hnd]; [|unfold G'; by rewrite lookup_insert_ne].
      unfold G'. rewrite lookup_insert_eq, Ha. simpl. f_equal. unfold seg_len. rewrite !total_app. destruct Hm1 as [[-> ->]| ->]; simpl; lia.
    + intros d k Hd. apply lookup_insert_Some in Hd as [[<- <-]|[_ Hd]]; [|by apply (st_coalesced _ _ _ Hst d)].
      pose proof (st_coalesced _ _ _ Hst a _ Ha) as Hco. rewrite !coalesced_parts in Hco. destruct Hco as (Co1 & (_ & Co2 & _) & _).
      apply coalesced_parts. split; [done|]. split; [|by destruct Hm1 as [[-> _]| ->]].
      destruct Hm1 as [[-> _]| ->]; [by apply (coalesced_put []); [| | |]|]. apply (coalesced_parts [_; _]). split; [done|]. split; [done|]. by intros _.
    + intros y s Hy Hb. apply Huse. left. split; [done|]. intros ->. done.
  - unfold others in Ho. injection Ho as O1 O2 O3 O4 O5 O6 O7 O8 O9 O10 O11 O12 O13 O14 O15. split_and!; try done.
    intros Hocc d k Hd. apply lookup_insert_Some in Hd as [[<- <-]|[_ Hd]]; [|by apply (Hocc d)].
    destruct Hm1 as [[-> _]| ->]; (exists (Blk x n false); split; [set_solver +|done]).
Qed.
(** Counters do not matter. *)
Lemma used_block_eq h h1 h' G G' C x n : used_block h h1 G G' C x n -> mem h' = mem h1 -> buckets h' = buckets h1 -> bits h' = bits h1 -> fixed h' = fixed h1 ->
  cache h' = cache h1 -> reserve h' = reserve h1 -> limit h' = limit h1 -> used_block h h' G G' C x n.
Proof.
  intros ((F & Ls & Hbo) & Hst & Hk & Hc & Hr & Hl & Hre & Hu) M1 M2 M3 M4 M5 M6 M7. unfold used_block. rewrite M5, M6, M7.
  assert (Er : real_size h' = real_size h1) by (unfold fixed in M4; by injection M4). rewrite Er.
  split; [exists F, Ls; by eapply blocks_ok_eq|]. split; [by eapply state_ok_eq|]. split; [intros z Hz; rewrite M1; by apply Hk|done].
Qed.

Lemma use_block_ok h G a l1 c l2 F Ls C ts keep_rest : hole base h G a l1 [c] l2 F Ls -> state_ok h G C -> b_at c = a + SEG + total l1 ->
  starts_free l2 = false -> ~ in_cache C (b_at c) -> ts mod 8 = 0 -> MIN <= ts <= b_size c ->
  exists h' G' n, use_block (b_at c) (b_size c) ts keep_rest h = Some (Returned (ZEND_MM_DATA_OF (b_at c)) h') /\ ts <= n
    /\ used_block h h' G G' C (b_at c) n.
Proof.
  intros Hh Hst Eat Hl2 Hnc Hm Hmin. unfold use_block. assert (Etot : total [c] = b_size c) by (simpl; lia).
  destruct (cut_block_ok base h G a l1 [c] l2 F Ls Hh ts (fun b _ => if keep_rest then zend_mm_add_to_rest_list b else zend_mm_add_to_free_list b))
    as (h1 & n & m1 & E & Hn & Hlaid & Hm1); [done|lia|destruct keep_rest; [apply adds_rest|apply adds_free]|].
  assert (Hub : used_block h h1 G (<[a := l1 ++ m1 ++ l2]> G) C (b_at c) n).
  { rewrite Eat. eapply split_used; [exact Hh|exact Hst|done| |done|by rewrite <- Eat|exact Hlaid|].
    - by intros d ->%list_elem_of_singleton _.
    - destruct Hm1 as [[-> ->]| ->]; [by left|by right]. }
  rewrite <- Eat, Etot in E. rewrite E. cbn [mbind option_bind].
  destruct (count_used_fields (size_t (size h1 + n)) h1) as (M1 & M2 & M3 & M4 & M5 & M6 & M7).
  eexists _, _, n. split; [reflexivity|]. split; [done|]. by eapply used_block_eq.
Qed.

Abbreviation gave_up := (gave_up base).
Lemma safe_error_ok h G C : heap_ok h G C -> reserve_ok h G C -> exists h', zend_mm_safe_error h = Some (Bailout h') /\ gave_up h G C h'.
Proof. intros Hok Hr. apply safe_error_whole; [done|done|]. intros b _ _. apply all_whole. Qed.
Lemma give_up_ok h G C : heap_ok h G C -> reserve_ok h G C -> exists h', (h ← zend_mm_free_cache h; zend_mm_safe_error h) = Some (Bailout h') /\ gave_up h G C h'.
Proof. intros Hok Hr. apply give_up_whole; [done|done|intros b _ _; apply all_whole|intros b _ _; apply all_whole]. Qed.

(** ** The outcome of an allocation *)

(** [p] points to a fresh block with room for [n] bytes. *)
Definition allocated (h : mm_heap) (G : layout) (C : list (list Z)) (n p : Z) (h' : mm_heap) : Prop :=
  exists G' C' b, heap_ok h' G' C' /\ p = ZEND_MM_DATA_OF (b_at b) /\ n + HDR <= b_size b /\ ~ live G C b
    /\ (forall c, live G' C' c <-> live G C c \/ c = b)
    /\ (forall z, live_data G C z -> mem h' !! z = mem h !! z)
    /\ reserve h' = reserve h /\ limit h' = limit h /\ real_size h' <= Z.max (real_size h) (limit h).
Definition alloc_result (h : mm_heap) (G : layout) (C : list (list Z)) (n : Z) (r : result) : Prop :=
  match r with Returned p h' => allocated h G C n p h' | Bailout h' => gave_up h G C h' end.

(** A block has been used: what that means for the program. *)
Lemma used_allocated h h1 h' G G1 G' C x m n : heap_ok h G C -> (occupied G -> occupied G1) -> used_block h1 h' G1 G' C x m ->
  (forall y s, block_in G (Blk y s false) <-> block_in G1 (Blk y s false) /\ y <> x) -> ~ in_cache C x ->
  (forall z, data G z -> mem h1 !! z = mem h !! z) -> cache h1 = cache h -> reserve h1 = reserve h -> limit h1 = limit h ->
  real_size h1 <= Z.max (real_size h) (limit h) -> n + HDR <= m -> allocated h G C n (ZEND_MM_DATA_OF x) h'.
Proof.
  intros Hok Hocc1 (Hbo & Hst & Hk & Hc & Hres & Hlim & Hre & Hocc & Hu) HG Hnc Hd Ec Eres Elim Ere Hn.
  assert (HG' : forall y s, block_in G' (Blk y s false) <-> block_in G (Blk y s false) \/ (y = x /\ s = m)) by (intros y s; rewrite Hu, HG; tauto).
  exists G', C, (Blk x m false). split; [split; [done|done|apply Hocc, Hocc1, Hok|]|].
  { rewrite Hc, Ec. apply Hok. }
  split; [done|]. split; [done|]. split; [|split; [|split; [|split_and!; (congruence || lia)]]].
  - intros (Hx & _). by apply HG in Hx as [_ ?].
  - intros c. unfold live. split.
    + intros (H1 & H2 & H3). rewrite <- (blk_eta c H2) in H1 |- *. apply HG' in H1 as [H1|[-> ->]]; [left|by right]. split_and!; done.
    + intros [(H1 & H2 & H3)| ->]; [split_and!; try done; rewrite <- (blk_eta c H2) in H1 |- *; apply HG'; by left|].
      split_and!; try done. apply HG'. by right.
  - intros z (c & (H1 & H2 & H3) & Hz). rewrite Hk; [apply Hd; by exists c|]. left. exists c. split; [|done].
    rewrite <- (blk_eta c H2) in H1 |- *. apply HG'. by left.
Qed.

(** ** [_zend_mm_alloc_int] *)
Lemma take_free_ok h G C ts n b s : heap_ok h G C -> block_in G (Blk b s true) -> ts mod 8 = 0 -> MIN <= ts <= s -> n + HDR <= ts ->
  exists h' p, (h ← ZEND_MM_CHECK_BLOCK_LINKAGE b h; h ← zend_mm_remove_from_free_list b h; bs ← ZEND_MM_FREE_BLOCK_SIZE b h; use_block b bs ts false h)
    = Some (Returned p h') /\ allocated h G C n p h'.
Proof.
  intros Hok Hb Hm Hmin Hn. pose proof (hk_space _ _ _ _ Hok) as Hs. pose proof Hok as [(F & Ls & Hbo) Hst _ Hc].
  pose proof Hb as (a & l & Ha & Hin). apply list_elem_of_split in Hin as (l1 & l2 & ->). set (c := Blk b s true) in *.
  rewrite (linkage_ok base h G a l1 l2 c Hs Ha (all_headed _ _ _ (bo_headers _ _ _ _ _ Hbo _ _ Ha)) eq_refl : ZEND_MM_CHECK_BLOCK_LINKAGE b h = Some h). cbn [mbind option_bind].
  pose proof (proj1 (blocks_loose _ _ _ _ _) Hbo) as Hl.
  destruct (take_ok base h G F Ls [] c Hl Hb eq_refl) as (h1 & F1 & Ls1 & E1 & Hl1 & K1 & O1 & W1); [apply not_elem_of_nil|]. change (b_at c) with b in E1.
  rewrite E1. cbn [mbind option_bind].
  rewrite (free_size_ok base h1 G a l1 l2 c (lo_space _ _ _ _ _ _ Hl1) Ha (all_headed _ _ _ (lo_headers _ _ _ _ _ _ Hl1 _ _ Ha)) eq_refl : ZEND_MM_FREE_BLOCK_SIZE b h1 = Some s). cbn [mbind option_bind].
  assert (Ha' : G !! a = Some (l1 ++ [c] ++ l2)) by done.
  assert (Hh : hole base h1 G a l1 [c] l2 F1 Ls1).
  { eapply hole_of; [exact Hl1|done|by intros []|done| |].
    - intros x t Hx%list_elem_of_singleton. injection Hx as -> ->. by left.
    - intros x Hx%list_elem_of_singleton. exists s. subst x. by left. }
  assert (Hst1 : state_ok h1 G C).
  { eapply state_move; [exact Hst|apply Hl1|done|apply Hst|exact K1|by apply others_fixed|done]. }
  assert (Hnc : ~ in_cache C (b_at c)).
  { intros Hx. destruct (cached_used _ _ _ _ Hst Hx) as [t Ht]. pose proof (block_unique base _ G _ _ Hs Ht Hb eq_refl) as E. by injection E. }
  destruct (use_block_ok h1 G a l1 c l2 F1 Ls1 C ts false Hh Hst1) as (h' & G' & m & E & Hmn & Hu); [by apply (read_place base h1 G a l1 l2 c); [apply Hl1|]| |done|done|done|].
  { pose proof (st_coalesced _ _ _ Hst a _ Ha) as Hco'. apply coalesced_app in Hco' as [_ Hco']. destruct l2 as [|d l2]; [done|]. simpl in Hco'. by apply Hco'. }
  exists h', (ZEND_MM_DATA_OF b). split; [exact E|]. unfold others in O1. injection O1 as O1' O2 O3 O4 O5 O6 O7 O8 O9 O10 O11 O12 O13 O14 O15.
  eapply (used_allocated h h1 h' G G G' C b m n); try done; [| |lia|lia].
  - intros y t. split; [|tauto]. intros Hy. split; [done|]. intros ->. pose proof (block_unique base _ G _ _ Hs Hy Hb eq_refl) as E'. by injection E'.
  - intros z Hz. apply K1. by left.
Qed.

Lemma alloc_block_ok h G C ts n : heap_ok h G C -> reserve_ok h G C -> ts mod 8 = 0 -> MIN <= ts < 2 ^ N -> n + HDR <= ts ->
  exists r, alloc_block ts h = Some r /\ alloc_result h G C n r.
Proof.
  intros Hok Hr Hm Hts Hn. pose proof Hok as [(F & Ls & Hbo) Hst _ Hc]. pose proof consts as Co. unfold alloc_block.
  destruct (search_map base F h Ls ts (bo_free _ _ _ _ _ Hbo) Hm Hts) as (b & E & Hb). rewrite E. cbn [mbind option_bind].
  destruct Hb as [->|(s & Hb & Hs)].
  - rewrite Z.eqb_refl. destruct (segment_size ts h) as [sz keep_rest] eqn:Es. destruct (st_block_size _ _ _ Hst) as (k & Hk & Ek).
    destruct (segment_size_ok h k ts Ek Hk Hts) as (S1 & S2 & S3). rewrite Es in S1, S2, S3. simpl in S1, S2, S3.
    destruct ((sz <? ts) || (limit h <? size_t (real_size h + sz))) eqn:Eg.
    + destruct (give_up_ok h G C Hok Hr) as (h' & E' & Hg). rewrite E'. by eexists.
    + apply orb_false_iff in Eg as [G1 G2]. apply Z.ltb_ge in G1, G2. destruct (ZEND_MM_STORAGE_ALLOC sz h) as [[a h1]|] eqn:Ea.
      * destruct (open_segment_ok h G F Ls C sz a h1 Hbo Hst S2 ltac:(lia) ltac:(lia) Ea) as (h2 & E2 & Hh & Hst2 & HaG & Hd & Hu & Hre & Hsz).
        rewrite E2. cbn [mbind option_bind]. set (b := Blk (a + SEG) (sz - SEG - HDR) false) in *.
        pose proof (hk_space _ _ _ _ Hok) as Hsp.
        assert (Hnc : ~ in_cache C (b_at b) /\ forall y s, block_in G (Blk y s false) -> y <> b_at b).
        { assert (Hx : forall y s, block_in G (Blk y s false) -> y <> b_at b).
          { intros y t (c & k' & Hcc & Hy) ->. pose proof (ho_space _ _ _ _ _ _ _ _ _ Hh) as Hs2. set (G2' := <[a := [b]]> G) in *.
            assert (Hca : a <> c) by congruence. assert (Hc' : G2' !! c = Some k') by (unfold G2'; by rewrite lookup_insert_ne).
            assert (Ha' : G2' !! a = Some [b]) by apply lookup_insert_eq.
            pose proof (so_apart _ _ _ Hs2 a _ c k' Ha' Hc' Hca) as Hap. destruct (block_place base _ G c k' _ Hsp Hcc Hy) as (P1 & P2 & _ & _ & P3).
            assert (Eb1 : b_at b = a + SEG) by done. assert (Eb2 : b_size b = sz - SEG - HDR) by done. unfold apart, seg_len in Hap, P2. simpl in Hap, P1, P2, P3. lia. }
          split; [|done]. intros Hy. destruct (cached_used _ _ _ _ Hst Hy) as [t Ht]. by apply (Hx _ _ Ht). }
        destruct Hnc as [Hnc Hfresh].
        destruct (use_block_ok h2 (<[a := [b]]> G) a [] b [] F Ls C ts keep_rest Hh Hst2) as (h' & G' & m & E' & Hmn & Hub); [simpl; lia|done|done|done|simpl; lia|].
        change (a + SEG) with (b_at b). change (sz - SEG - HDR) with (b_size b). rewrite E'. eexists. split; [reflexivity|].
        unfold user in Hu. injection Hu as U1 U2 U3 U4 U5 U6 U7 U8.
        eapply (used_allocated h h2 h' G (<[a := [b]]> G) G' C (b_at b) m n); try done; [| |lia|lia].
        { intros Hocc c k' Hcc. apply lookup_insert_Some in Hcc as [[<- <-]|[_ Hcc]]; [|by apply (Hocc c)]. exists b. split; [by left|done]. }
        intros y t. split.
        -- intros Hy. split; [|by eapply Hfresh]. destruct Hy as (c & k' & Hcc & Hy). exists c, k'. rewrite lookup_insert_ne by congruence. done.
        -- intros [(c & k' & Hcc & Hy) Hne]. apply lookup_insert_Some in Hcc as [[<- <-]|[_ Hcc]]; [|by exists c, k'].
           apply list_elem_of_singleton in Hy. by rewrite <- Hy in Hne.
      * destruct (give_up_ok h G C Hok Hr) as (h' & E' & Hg). unfold out_of_memory. rewrite E'. by eexists.
  - apply (bo_map _ _ _ _ _ Hbo) in Hb. destruct (block_sizes base _ _ _ (hk_space _ _ _ _ Hok) Hb) as (_ & _ & Hpos). simpl in Hpos.
    unfold NULL. rewrite (proj2 (Z.eqb_neq b 0)) by lia.
    destruct (take_free_ok h G C ts n b s Hok Hb Hm ltac:(lia) Hn) as (h' & p & E' & Hal). rewrite E'. by eexists.
Qed.

(** The cache has a block of that size. *)
Lemma cache_take_ok h G C i x l n : heap_ok h G C -> C !! i = Some (x :: l) -> n + HDR <= 8 * Z.of_nat i + MIN ->
  cache h !! i = Some x /\ x <> NULL /\ exists next, load (f_prev_free x) h = Some next /\
    forall c, allocated h G C n (ZEND_MM_DATA_OF x) (set_cached c (set_cache (<[i := next]> (cache h)) h)).
Proof.
  intros Hok Hi Hn. pose proof (hk_space _ _ _ _ Hok) as Hs. pose proof Hok as [Hbo Hst Hocc Hc].
  destruct (state_pop base h G C i x l Hs Hst Hi) as (Hst' & Hnx & Hin & _ & Hq).
  destruct (st_cache _ _ _ Hst i _ Hi) as (_ & _ & Hbl). assert (Hb : block_in G (Blk x (8 * Z.of_nat i + MIN) false)) by (apply Hbl; by left).
  destruct (block_sizes base _ _ _ Hs Hb) as (_ & _ & Hpos). simpl in Hpos.
  split; [by rewrite Hc, list_lookup_fmap, Hi|]. split; [unfold NULL; lia|]. exists (first l NULL). split; [done|]. intros c.
  set (b := Blk x (8 * Z.of_nat i + MIN) false) in *.
  assert (Hlive : forall d, live G (<[i := l]> C) d <-> live G C d \/ d = b).
  { intros d. unfold live. rewrite (Hin (b_at d)). split.
    - intros (H1 & H2 & H3). destruct (decide (b_at d = x)) as [E|E]; [right|left; tauto]. by apply (block_unique base (mem h) G).
    - intros [(H1 & H2 & H3)| ->]; [tauto|]. split; [done|]. split; [done|]. exact Hnx. }
  exists G, (<[i := l]> C), b. split; [|split; [done|split; [done|split; [|split; [done|split; [done|split_and!; [done|done|simpl; lia]]]]]]].
  - destruct Hbo as (F & Ls & Hbo). split; [exists F, Ls; by eapply blocks_ok_eq|by eapply state_ok_eq|done|]. simpl. by rewrite Hc, list_fmap_insert.
  - intros (_ & _ & Hx). apply Hx. exists i, (x :: l). split; [done|]. by left.
Qed.

Lemma alloc_int_ok h G C n : heap_ok h G C -> reserve_ok h G C -> 0 <= n < 2 ^ N ->
  exists r, _zend_mm_alloc_int n h = Some r /\ alloc_result h G C n r.
Proof.
  intros Hok Hr Hn. pose proof consts as Co. pose proof word_pow as Hp. unfold _zend_mm_alloc_int.
  destruct (true_size_ok n Hn) as (Hm & Hrange & Hfit & Hover). set (ts := ZEND_MM_TRUE_SIZE n) in *. cbv zeta.
  destruct (ZEND_MM_SMALL_SIZE ts) eqn:Esm.
  - destruct (Z.ltb_spec ts n) as [Hlt|Hge].
    + destruct (safe_error_ok h G C Hok Hr) as (h' & E & Hg). unfold out_of_memory. rewrite E. by eexists.
    + destruct Hfit as [Hmin Hb]; [destruct (Z.lt_ge_cases (n + HDR + 7) (2 ^ N)); [done|lia]|].
      destruct (cache_index ts Hm Hmin Esm) as [Hi Ei]. set (i := Z.to_nat (ZEND_MM_BUCKET_INDEX ts)) in *.
      pose proof Hok as [_ Hst _ Hc]. destruct (lookup_lt_is_Some_2 C i) as [l Hl]; [by rewrite (st_length _ _ _ Hst)|].
      destruct l as [|x l].
      * assert (Ec : cache h !! i = Some NULL) by (by rewrite Hc, list_lookup_fmap, Hl). rewrite Ec. cbn [mbind option_bind].
        rewrite Z.eqb_refl. simpl negb. cbv iota. apply alloc_block_ok; (done || lia).
      * destruct (cache_take_ok h G C i x l n Hok Hl) as (Ec & Hx & next & En & Hal); [lia|]. rewrite Ec. cbn [mbind option_bind].
        rewrite (proj2 (Z.eqb_neq x NULL)) by done. simpl negb. cbv iota. rewrite En. cbn [mbind option_bind]. eexists. split; [reflexivity|]. apply Hal.
  - assert (Hno : n + HDR + 7 < 2 ^ N).
    { destruct (Z.lt_ge_cases (n + HDR + 7) (2 ^ N)) as [?|Hge]; [done|]. pose proof (true_size_overflow n Hn Hge) as Hx. apply small_size_spec in Hx.
      unfold ts in Esm. congruence. }
    destruct (Hfit Hno) as [Hmin Hb]. apply alloc_block_ok; (done || lia).
Qed.
End Emalloc.
