(* ===== verification/AllocRealloc.v ===== *)
(** * AllocRealloc: blocks are made smaller and larger

    All ways of [_zend_mm_realloc_int] but the one that makes a segment larger. *)
From S2P Require Import Prelude ZendAlloc AllocBits AllocRing AllocTrie AllocCut AllocRemove AllocSearch AllocFree AllocTake AllocPick AllocMap AllocLayout AllocHeap AllocSplit AllocState AllocRelease AllocEfree AllocEmalloc.

Section Realloc.
Context `{SizeT} {ST : Storage} {STO : StorageOk}.
Abbreviation N := ZEND_MM_NUM_BUCKETS.
Abbreviation MIN := ZEND_MM_ALIGNED_MIN_HEADER_SIZE.
Abbreviation HDR := ZEND_MM_ALIGNED_HEADER_SIZE.
Abbreviation SEG := ZEND_MM_ALIGNED_SEGMENT_SIZE.
Abbreviation GUARD := ZEND_MM_GUARD_BLOCK.
Abbreviation layout := (gmap Z (list blk)).
Variable base : Z.
Abbreviation heap_ok := (heap_ok base).
Abbreviation blocks_ok := (blocks_ok base).
Abbreviation used_block := (used_block base).

(** The first words of the data of [b'] are those of [b]. *)
Definition same_contents (h h' : mm_heap) (b b' : blk) : Prop := forall k, 0 <= k -> (k + 1) * W <= Z.min (b_size b) (b_size b') - HDR ->
  mem h' !! (b_at b' + HDR + k * W) = mem h !! (b_at b + HDR + k * W).
(** [b] has been replaced by a block with room for [n] bytes. *)
Definition resized (h : mm_heap) (G : layout) (C : list (list Z)) (b : blk) (n p : Z) (h' : mm_heap) : Prop :=
  exists G' C' b', heap_ok h' G' C' /\ p = ZEND_MM_DATA_OF (b_at b') /\ n + HDR <= b_size b'
    /\ (forall c, live G C c -> c <> b -> c <> b')
    /\ (forall c, live G' C' c <-> (live G C c /\ c <> b) \/ c = b')
    /\ (forall c z, live G C c -> c <> b -> b_at c + 2 * W <= z < b_at c + b_size c -> mem h' !! z = mem h !! z)
    /\ same_contents h h' b b'
    /\ reserve h' = reserve h /\ limit h' = limit h /\ real_size h' <= Z.max (real_size h) (limit h).

(** ** In place *)
Lemma used_resized h h1 h' G G' C b m n : heap_ok h G C -> live G C b -> used_block h1 h' G G' C (b_at b) m -> kept G h h1 -> others h1 = others h ->
  n + HDR <= m -> resized h G C b n (ZEND_MM_DATA_OF (b_at b)) h'.
Proof.
  intros Hok (Hb & Hu & Hnc) (Hbo & Hst & Hk & Hc & Hres & Hlim & Hre & Hocc & Hus) Hk1 Ho1 Hn. pose proof (hk_space _ _ _ _ Hok) as Hs. pose proof consts as Co.
  unfold others in Ho1. injection Ho1 as O1 O2 O3 O4 O5 O6 O7 O8 O9 O10 O11 O12 O13 O14 O15.
  assert (Hne : forall c, live G C c -> c <> b -> b_at c <> b_at b) by (intros c (Hc' & _) Hcb E; apply Hcb; by apply (block_unique base (mem h) G)).
  assert (Hdat : forall c z, live G C c -> c <> b -> b_at c + 2 * W <= z < b_at c + b_size c -> data G' z).
  { intros c z Hc' Hcb Hz. exists c. pose proof (Hne c Hc' Hcb). destruct Hc' as (Hc1 & Hc2 & _). rewrite <- (blk_eta c Hc2) in Hc1 |- *. split; [|done].
    apply Hus. left. done. }
  exists G', C, (Blk (b_at b) m false). split; [split; [done|done|apply Hocc, Hok|]|].
  { rewrite Hc, O15. apply Hok. }
  split; [done|]. split; [done|]. split; [intros c Hc' Hcb ->; by apply (Hne _ Hc' Hcb)|]. split; [|split; [|split; [|split_and!; (congruence || lia)]]].
  - intros c. split.
    + intros (H1 & H2 & H3). rewrite <- (blk_eta c H2) in H1. apply Hus in H1 as [[H1 Hx]|[E1 E2]].
      * left. rewrite (blk_eta c H2) in H1. split; [done|]. by intros ->.
      * right. rewrite <- (blk_eta c H2), E1, E2. done.
    + intros [[Hc' Hcb]| ->].
      * pose proof (Hne c Hc' Hcb). destruct Hc' as (H1 & H2 & H3). split; [|done]. rewrite <- (blk_eta c H2) in H1 |- *. apply Hus. left. done.
      * split; [apply Hus; by right|]. done.
  - intros c z Hc' Hcb Hz. rewrite Hk by (left; by eapply Hdat). apply Hk1. left. exists c. destruct Hc' as (? & ? & _). done.
  - intros k Hk0 Hk2. simpl in *. rewrite Hk; [apply Hk1|]; left.
    + exists b. split; [done|]. split; [done|]. nia.
    + exists (Blk (b_at b) m false). split; [apply Hus; by right|]. split; [done|]. simpl. nia.
Qed.

(** A block and the free block behind it are cut anew. *)
Lemma recut_ok h h1 G C a l1 b mn l2 F1 Ls1 ts add : heap_ok h G C -> live G C b -> G !! a = Some (l1 ++ (b :: mn) ++ l2) ->
  neighbour mn -> starts_free l2 = false -> loose base h1 G F1 Ls1 (addrs mn) -> kept G h h1 -> others h1 = others h ->
  ts mod 8 = 0 -> MIN <= ts <= total (b :: mn) ->
  adds base (<[a := l1 ++ [Blk (a + SEG + total l1) ts false; Blk (a + SEG + total l1 + ts) (total (b :: mn) - ts) true] ++ l2]> G) add ->
  exists h2 G' m, split_block (b_at b) (total (b :: mn)) ts add h1 = Some (h2, m) /\ ts <= m /\ used_block h1 h2 G G' C (b_at b) m.
Proof.
  intros Hok Hl Ha Hmn Hl2 Hlo Hk Ho Hm Hts Hadd. pose proof Hl as (Hb & Hu & Hnc). pose proof (hk_space _ _ _ _ Hok) as Hs.
  pose proof (proj1 (read_place base h1 G a l1 (mn ++ l2) b (lo_space _ _ _ _ _ _ Hlo) Ha)) as Eat.
  assert (Hh : hole base h1 G a l1 (b :: mn) l2 F1 Ls1).
  { eapply hole_of; [exact Hlo|exact Ha|by intros []|done| |].
    - intros x s Hx. apply elem_of_cons in Hx as [Hx|Hx]; [by subst b|]. apply elem_of_free; [done|]. by exists s.
    - intros x Hx. apply elem_of_free in Hx as [s Hx]; [|done]. exists s. by right. }
  assert (Hst1 : state_ok h1 G C).
  { eapply state_move; [apply Hok|apply Hlo|done|apply Hok|exact Hk|by apply others_fixed|done]. }
  destruct (cut_block_ok base h1 G a l1 (b :: mn) l2 F1 Ls1 Hh ts add Hm Hts Hadd) as (h2 & m & m1 & E & Hmn' & Hlaid & Hm1).
  exists h2, (<[a := l1 ++ m1 ++ l2]> G), m. rewrite Eat. split; [done|]. split; [done|]. eapply split_used; [exact Hh|exact Hst1|done| |done|by rewrite <- Eat|exact Hlaid|].
  - intros c Hc Hcu. apply elem_of_cons in Hc as [->|Hc]; [done|]. destruct Hmn as [->|(d & -> & Hd)]; [by apply not_elem_of_nil in Hc|].
    apply list_elem_of_singleton in Hc as ->. congruence.
  - destruct Hm1 as [[-> ->]| ->]; [by left|by right].
Qed.
Lemma split_block_large b bs ts add h : MIN <= size_t (bs - ts) -> split_block b bs ts add h =
  (h ← ZEND_MM_BLOCK b ZEND_MM_USED_BLOCK ts h; h ← ZEND_MM_BLOCK (b + ts) ZEND_MM_FREE_BLOCK (size_t (bs - ts)) h; h ← add (b + ts) (size_t (bs - ts)) h; Some (h, ts)).
Proof. intros Hge. unfold split_block. by rewrite (proj2 (Z.ltb_ge _ _)). Qed.

Lemma after_neighbour l1 b mn l2 : coalesced (l1 ++ b :: mn ++ l2) -> neighbour mn -> (mn = [] -> starts_free (mn ++ l2) = false) -> starts_free l2 = false.
Proof.
  intros Hc [->|(d & -> & Hd)] Hn; [by apply Hn|].
  replace (l1 ++ b :: [d] ++ l2) with ((l1 ++ [b; d]) ++ l2) in Hc by (by rewrite <- app_assoc).
  apply coalesced_parts in Hc as (_ & _ & Hc). apply Hc. unfold ends_free. replace (l1 ++ [b; d]) with ((l1 ++ [b]) ++ [d]) by (by rewrite <- app_assoc).
  by rewrite last_snoc.
Qed.
(** What is behind a block of the program. *)
Lemma behind_ok h G C b sz : heap_ok h G C -> live G C b -> 0 <= sz <= b_size b ->
  exists a l1 mn l2 nf h1 F1 Ls1, G !! a = Some (l1 ++ (b :: mn) ++ l2) /\ neighbour mn /\ starts_free l2 = false
    /\ ZEND_MM_IS_FREE_BLOCK (b_at b + b_size b) h = Some nf /\ (nf = true <-> mn <> [])
    /\ (if nf : bool then n ← ZEND_MM_FREE_BLOCK_SIZE (b_at b + b_size b) h; h ← zend_mm_remove_from_free_list (b_at b + b_size b) h; Some (size_t (sz + n), h) else Some (sz, h))
       = Some (sz + total mn, h1)
    /\ loose base h1 G F1 Ls1 (addrs mn) /\ kept G h h1 /\ others h1 = others h /\ b_size b + total mn < 2 ^ N.
Proof.
  intros Hok Hl Hsz. pose proof Hl as ((a & l & Ha & Hin) & Hu & Hnc). apply list_elem_of_split in Hin as (l1 & l2 & ->).
  pose proof (hk_space _ _ _ _ Hok) as Hs. pose proof Hok as [(F & Ls & Hbo) Hst _ _]. apply blocks_loose in Hbo.
  destruct (join_next base h G F Ls [] a l1 b l2 sz Hbo Ha (fun x => x)) as (mn & l2' & nf & h1 & F1 & Ls1 & E2 & Hmn & En & R1 & _ & R2 & Hl1 & K1 & O1 & W1).
  { intros c _. apply not_elem_of_nil. }
  { intros m k Em. pose proof (size_bound base _ G a l1 b l2 l1 [] m k Hs Ha (eq_sym (app_nil_r _)) Em) as Hb. simpl in Hb.
    assert (Ha' : G !! a = Some ((l1 ++ [b]) ++ m ++ k)) by (rewrite Ha, Em, <- app_assoc; done). destruct (seg_total base _ _ _ _ _ _ Hs Ha') as (_ & ? & _). lia. }
  rewrite E2 in Ha, En. exists a, l1, mn, l2', nf, h1, F1, Ls1. split; [done|]. split; [done|].
  split; [eapply after_neighbour; [apply (st_coalesced _ _ _ Hst a _ Ha)|done|done]|]. split; [done|].
  split; [|split; [done|rewrite app_nil_r in Hl1; split; [done|split; [done|split; [done|]]]]].
  - pose proof (next_free_ok base h G a l1 (mn ++ l2') b Hs Ha (all_headed _ _ _ (lo_headers _ _ _ _ _ _ Hbo _ _ Ha))) as R3. rewrite R1 in R3. injection R3 as ->.
    destruct Hmn as [->|(d & -> & Hd)]; [|simpl; by rewrite Hd]. simpl in *. unfold starts_free in En. rewrite En by done. done.
  - pose proof (size_bound base _ G a l1 b (mn ++ l2') l1 [] mn l2' Hs Ha (eq_sym (app_nil_r _)) eq_refl) as Hb. lia.
Qed.

Lemma shrink_block_ok h G C b ts n : heap_ok h G C -> live G C b -> ts mod 8 = 0 -> MIN <= ts <= b_size b -> n + HDR <= ts ->
  exists h', shrink_block (ZEND_MM_DATA_OF (b_at b)) (b_at b) (b_size b) ts h = Some (Returned (ZEND_MM_DATA_OF (b_at b)) h') /\ resized h G C b n (ZEND_MM_DATA_OF (b_at b)) h'.
Proof.
  intros Hok Hl Hm Hts Hn. pose proof consts as Co. unfold shrink_block. destruct (Z.leb_spec MIN (b_size b - ts)) as [Hge|Hlt].
  - destruct (behind_ok h G C b (b_size b - ts) Hok Hl ltac:(lia)) as (a & l1 & mn & l2 & nf & h1 & F1 & Ls1 & Ha & Hmn & Hl2 & R1 & _ & R2 & Hlo & K & O & Hlt).
    cbv zeta. rewrite R1. cbn [mbind option_bind]. rewrite R2. cbn [mbind option_bind].
    assert (Htn : 0 <= total mn). { destruct (seg_total base _ G a (l1 ++ [b]) mn l2 (hk_space _ _ _ _ Hok)) as (_ & ? & _); [by rewrite Ha, <- app_assoc|done]. }
    destruct (recut_ok h h1 G C a l1 b mn l2 F1 Ls1 ts (fun y _ => zend_mm_add_to_free_list y) Hok Hl Ha Hmn Hl2 Hlo K O Hm) as (h2 & G' & m & E & Hmm & Hub); [simpl; lia|apply adds_free|].
    assert (Er : size_t (total (b :: mn) - ts) = b_size b - ts + total mn) by (rewrite size_t_small; simpl; lia).
    rewrite split_block_large, Er in E by (rewrite Er; lia). apply bind_Some in E as (h3 & E1 & E). apply bind_Some in E as (h4 & E2 & E). apply bind_Some in E as (h5 & E3 & E).
    injection E as -> ->. rewrite E1. cbn [mbind option_bind]. rewrite E2. cbn [mbind option_bind]. rewrite E3. cbn [mbind option_bind].
    eexists. split; [reflexivity|]. eapply (used_resized h h1); [done|done| |done|done|]; [by eapply used_block_eq|lia].
  - exists h. split; [done|]. pose proof Hl as (Hb & Hu & Hnc). exists G, C, b. split; [done|]. split; [done|]. split; [lia|]. split; [done|].
    split; [intros c; split; [intros Hc; destruct (decide (b_at c = b_at b)); [right|left; split; [done|congruence]]; by apply (block_unique base (mem h) G); [by eapply hk_space|apply Hc| |]|intros [[? _]| ->]; done]|].
    split; [done|]. split; [by intros k _ _|]. split_and!; (done || lia).
Qed.

(** ** Copying *)
Lemma block_words m G b : space_ok base m G -> block_in G b -> words m (b_at b) (b_size b).
Proof.
  intros Hs (a & l & Ha & Hb). destruct (block_place base m G a l b Hs Ha Hb) as (P1 & P2 & P3 & _). destruct (so_seg _ _ _ Hs a l Ha) as (_ & _ & Hw & _).
  pose proof consts. eapply words_in; [exact Hw|lia|lia|done].
Qed.
Lemma data_word m G b k : space_ok base m G -> block_in G b -> 0 <= k -> (k + 1) * W <= b_size b - HDR -> is_Some (m !! (b_at b + HDR + k * W)).
Proof.
  intros Hs Hb Hk Hk'. pose proof consts as Co. pose proof (block_words m G b Hs Hb (k + 2)) as Hw. replace (b_at b + (k + 2) * W) with (b_at b + HDR + k * W) in Hw by lia.
  apply Hw; lia.
Qed.
Lemma memcpy_ok G C b b' : forall n j h, heap_ok h G C -> block_in G b -> live G C b' -> b <> b' -> 0 <= j ->
  (j + Z.of_nat n) * W <= Z.min (b_size b) (b_size b') - HDR ->
  exists h', memcpy n (b_at b' + HDR + j * W) (b_at b + HDR + j * W) h = Some h' /\ heap_ok h' G C /\ h' = set_mem (mem h') h
    /\ (forall k, j <= k < j + Z.of_nat n -> mem h' !! (b_at b' + HDR + k * W) = mem h !! (b_at b + HDR + k * W))
    /\ (forall z, ~ (b_at b' + HDR <= z < b_at b' + b_size b') -> mem h' !! z = mem h !! z)
    /\ (forall k, 0 <= k < j -> mem h' !! (b_at b' + HDR + k * W) = mem h !! (b_at b' + HDR + k * W)).
Proof.
  induction n as [|n IH]; intros j h Hok Hb Hl Hne Hj Hn.
  - exists h. split; [done|]. split; [done|]. split; [by destruct h|]. split; [lia|done].
  - pose proof consts as Co. pose proof (hk_space _ _ _ _ Hok) as Hs. pose proof Hl as (Hb' & _). cbn [memcpy].
    assert (Hjn : (j + 1) * W <= (j + Z.of_nat (S n)) * W) by (apply Z.mul_le_mono_nonneg_r; lia). assert (HjW : 0 <= j * W) by (apply Z.mul_nonneg_nonneg; lia).
    destruct (data_word (mem h) G b j Hs Hb Hj) as [v Hv]; [lia|]. destruct (data_word (mem h) G b' j Hs Hb' Hj) as [w Hw]; [lia|].
    unfold load, store. rewrite Hv. cbn [mbind option_bind]. rewrite Hw. cbn [mbind option_bind].
    set (h1 := set_mem _ h). assert (Hok1 : heap_ok h1 G C) by (apply (program_write base h G C b'); [done|done|lia|by eexists]).
    destruct (IH (j + 1) h1 Hok1 Hb Hl Hne ltac:(lia)) as (h' & E & Hok' & Eh & Hc & Hk & Hlo); [replace (j + 1 + Z.of_nat n) with (j + Z.of_nat (S n)) by lia; lia|].
    exists h'. replace (b_at b' + HDR + j * W + W) with (b_at b' + HDR + (j + 1) * W) by lia. replace (b_at b + HDR + j * W + W) with (b_at b + HDR + (j + 1) * W) by lia.
    split; [done|]. split; [done|]. split; [by rewrite Eh|].
    assert (Hsrc : forall k, 0 <= k -> (k + 1) * W <= b_size b - HDR -> b_at b + HDR + k * W <> b_at b' + HDR + j * W).
    { intros k Hk0 Hk1 Ez. assert (0 <= k * W) by (apply Z.mul_nonneg_nonneg; lia).
      destruct (blocks_apart base (mem h) G b b' Hs Hb Hb') as [?|Hap]; [done|]. unfold apart in Hap. lia. }
    split; [|split].
    + intros k Hk0. assert ((k + 1) * W <= (j + Z.of_nat (S n)) * W) by (apply Z.mul_le_mono_nonneg_r; lia).
      destruct (decide (k = j)) as [->|Hkj].
      * rewrite Hlo by lia. simpl. by rewrite lookup_insert_eq.
      * rewrite Hc by lia. simpl. apply lookup_insert_ne. intros Ez. apply (Hsrc k); [lia|lia|done].
    + intros z Hz. rewrite Hk by done. simpl. apply lookup_insert_ne. lia.
    + intros k Hk0. rewrite Hlo by lia. simpl. apply lookup_insert_ne. assert ((k + 1) * W <= j * W) by (apply Z.mul_le_mono_nonneg_r; lia). lia.
Qed.

(** [copy_data] copies all that the old block held. *)
Lemma copy_data_ok h G C b b' : heap_ok h G C -> block_in G b -> live G C b' -> b <> b' -> b_size b <= b_size b' ->
  exists h', copy_data (ZEND_MM_DATA_OF (b_at b')) (ZEND_MM_DATA_OF (b_at b)) (b_size b) h = Some h' /\ heap_ok h' G C /\ h' = set_mem (mem h') h
    /\ (forall k, 0 <= k -> (k + 1) * W <= b_size b - HDR -> mem h' !! (b_at b' + HDR + k * W) = mem h !! (b_at b + HDR + k * W))
    /\ (forall z, ~ (b_at b' + HDR <= z < b_at b' + b_size b') -> mem h' !! z = mem h !! z).
Proof.
  intros Hok Hb Hl Hne Hle. pose proof consts as Co. destruct (block_sizes base _ _ _ (hk_space _ _ _ _ Hok) Hb) as (_ & Hmin & _).
  assert (HW : 0 < W) by lia. assert (Hnn : 0 <= b_size b - HDR) by lia. pose proof (Z.mul_div_le (b_size b - HDR) W HW) as Hd. pose proof (Z.div_pos (b_size b - HDR) W Hnn HW) as Hp.
  destruct (memcpy_ok G C b b' (Z.to_nat ((b_size b - HDR) / W)) 0 h Hok Hb Hl Hne ltac:(lia)) as (h' & E & Hok' & Eh & Hc & Hk & _); [rewrite Z2Nat.id by done; lia|].
  exists h'. unfold copy_data, ZEND_MM_DATA_OF. rewrite !Z.mul_0_l, !Z.add_0_r in E. split; [done|]. split; [done|]. split; [done|]. split; [|done].
  intros k Hk0 Hk1. apply Hc. split; [done|]. rewrite Z2Nat.id by done. assert (k + 1 <= (b_size b - HDR) / W) by (apply Z.div_le_lower_bound; lia). lia.
Qed.

(** ** To another block *)
Lemma replaced h h1 h2 h3 G C G1 C1 G3 C3 b b' n : heap_ok h G C -> live G C b ->
  ~ live G C b' -> (forall c, live G1 C1 c <-> live G C c \/ c = b') -> (forall z, live_data G C z -> mem h1 !! z = mem h !! z) -> heap_ok h1 G1 C1 ->
  (forall k, 0 <= k -> (k + 1) * W <= b_size b - HDR -> mem h2 !! (b_at b' + HDR + k * W) = mem h1 !! (b_at b + HDR + k * W)) ->
  (forall z, ~ (b_at b' + HDR <= z < b_at b' + b_size b') -> mem h2 !! z = mem h1 !! z) ->
  heap_ok h3 G3 C3 -> (forall c, live G3 C3 c <-> live G1 C1 c /\ c <> b) -> (forall z, live_data G3 C3 z -> mem h3 !! z = mem h2 !! z) ->
  n + HDR <= b_size b' -> reserve h3 = reserve h -> limit h3 = limit h -> real_size h3 <= Z.max (real_size h) (limit h) ->
  resized h G C b n (ZEND_MM_DATA_OF (b_at b')) h3.
Proof.
  intros Hok Hl Hnl Hl1 Hd1 Hok1 Hc2 Hk2 Hok3 Hl3 Hd3 Hn R1 R2 R3. pose proof consts as Co.
  assert (Hbb : b' <> b) by (by intros ->).
  assert (Hb' : live G1 C1 b') by (apply Hl1; by right). assert (Hb'3 : live G3 C3 b') by (by apply Hl3).
  exists G3, C3, b'. split; [done|]. split; [done|]. split; [done|]. split; [intros c Hc _ ->; done|].
  split; [intros c; rewrite Hl3, Hl1; split; [intros [[?|?] ?]; [by left|by right]|intros [[? ?]| ->]; [split; [by left|done]|split; [by right|done]]]|].
  split; [|split; [|done]].
  - intros c z Hc Hne Hz. assert (Hc1 : live G1 C1 c) by (apply Hl1; by left).
    rewrite Hd3 by (exists c; split; [by apply Hl3|done]). rewrite Hk2; [apply Hd1; by exists c|]. intros Hz'.
    destruct (blocks_apart base (mem h1) G1 c b' (hk_space _ _ _ _ Hok1)) as [->|Hap]; [apply Hc1|apply Hb'|done|]. unfold apart in Hap. lia.
  - intros k Hk Hk'. assert (0 <= k * W) by (apply Z.mul_nonneg_nonneg; lia).
    rewrite Hd3 by (exists b'; split; [done|lia]). rewrite Hc2 by lia. apply Hd1. exists b. split; [done|]. lia.
Qed.

Lemma swap_ok h G C b ts n i x l : heap_ok h G C -> live G C b -> ts mod 8 = 0 -> MIN <= ts -> ZEND_MM_SMALL_SIZE ts = true -> b_size b < ts -> n + HDR <= ts ->
  i = Z.to_nat (ZEND_MM_BUCKET_INDEX ts) -> C !! i = Some (x :: l) ->
  exists p' h', swap_with_cached (ZEND_MM_DATA_OF (b_at b)) (b_at b) x (b_size b) ts h = Some (Returned p' h') /\ resized h G C b n p' h'.
Proof.
  intros Hok Hl Hm Hmin Hsm Hlt Hn Ei Hi. pose proof consts as Co. destruct (cache_index ts Hm Hmin Hsm) as [_ Ets]. rewrite <- Ei in Ets.
  destruct (cache_take_ok base h G C i x l (ts - HDR) Hok Hi) as (_ & _ & next & En & Hal); [lia|].
  set (h1 := set_cache (<[i := next]> (cache h)) h). specialize (Hal (cached h)). change (set_cached (cached h) (set_cache (<[i := next]> (cache h)) h)) with h1 in Hal.
  destruct Hal as (G1 & C1 & b' & Hok1 & Ep & Hsz & Hnl & Hl1 & Hd1 & R1 & R2 & R3).
  assert (Ex : x = b_at b') by (unfold ZEND_MM_DATA_OF in Ep; lia). assert (Hb1 : live G1 C1 b) by (apply Hl1; by left). assert (Hb' : live G1 C1 b') by (apply Hl1; by right).
  assert (Hne : b <> b') by (by intros ->).
  unfold swap_with_cached. rewrite <- Ei, En. cbn [mbind option_bind]. fold h1. rewrite Ex.
  destruct (copy_data_ok h1 G1 C1 b b' Hok1 ltac:(apply Hb1) Hb' Hne ltac:(lia)) as (h2 & E2 & Hok2 & Eh2 & Hc2 & Hk2). rewrite E2. cbn [mbind option_bind].
  set (h3 := set_cached _ h2). assert (Hok3 : heap_ok h3 G1 C1) by (by eapply heap_ok_eq).
  assert (Hsm' : ZEND_MM_SMALL_SIZE (b_size b) = true) by (apply small_size_spec; apply small_size_spec in Hsm; lia).
  destruct (cache_put_ok base h3 G1 C1 b Hok3 Hb1 Hsm') as (k & Hk & Ec & [v Hv] & Hok4 & Hl4 & Hd4). cbv zeta in Ec, Hok4, Hl4, Hd4.
  rewrite Ec. cbn [mbind option_bind]. unfold store. rewrite Hv. cbn [mbind option_bind]. eexists _, _. split; [reflexivity|].
  eapply (replaced h h1 h2 _ G C G1 C1); [done|done|done|done|exact Hd1|done|exact Hc2|exact Hk2|exact (Hok4 (cached h3))|exact Hl4|exact Hd4|lia| | |]; simpl; rewrite Eh2; simpl; done || lia.
Qed.

(** [ZEND_MM_TRUE_SIZE] is the least size of a block that is enough. *)
Lemma true_size_least n s : 0 <= n -> n + HDR + 7 < 2 ^ N -> s mod 8 = 0 -> MIN <= s -> n + HDR <= s -> ZEND_MM_TRUE_SIZE n <= s.
Proof.
  intros Hn Hlt Hm Hmin Hs. pose proof consts as Co. unfold ZEND_MM_TRUE_SIZE. destruct (n <? ZEND_MM_MIN_SIZE); [done|].
  replace (n + HDR + END_MAGIC_SIZE) with (n + HDR) by (unfold END_MAGIC_SIZE; lia). destruct (aligned_size (n + HDR)) as [Hm' Hb]; [lia|lia|].
  pose proof (Z.div_mod s 8 ltac:(lia)). pose proof (Z.div_mod (ZEND_MM_ALIGNED_SIZE (n + HDR)) 8 ltac:(lia)). lia.
Qed.
Definition realloc_result (h : mm_heap) (G : layout) (C : list (list Z)) (b : blk) (n : Z) (r : result) : Prop :=
  match r with Returned p h' => resized h G C b n p h' | Bailout h' => gave_up base h G C h' end.

Lemma move_block_ok h G C b n : heap_ok h G C -> reserve_ok h G C -> live G C b -> 0 <= n -> n + HDR + 7 < 2 ^ N -> b_size b < ZEND_MM_TRUE_SIZE n ->
  exists r, move_block (ZEND_MM_DATA_OF (b_at b)) (b_size b) n h = Some r /\ realloc_result h G C b n r.
Proof.
  intros Hok Hr Hl Hn Hlt Hbs. pose proof consts as Co. unfold move_block. destruct (alloc_int_ok base h G C n Hok Hr) as (r & E & Ho); [lia|]. rewrite E. cbn [mbind option_bind].
  destruct r as [p h1|h1]; [|by eexists]. destruct Ho as (G1 & C1 & b' & Hok1 & -> & Hsz & Hnl & Hl1 & Hd1 & R1 & R2 & R3).
  assert (Hb1 : live G1 C1 b) by (apply Hl1; by left). assert (Hb' : live G1 C1 b') by (apply Hl1; by right). assert (Hne : b <> b') by (by intros ->).
  destruct (block_sizes base _ _ _ (hk_space _ _ _ _ Hok1) (proj1 Hb')) as (Hm' & Hmin' & _).
  pose proof (true_size_least n (b_size b') Hn Hlt Hm' Hmin' Hsz) as Hle.
  destruct (copy_data_ok h1 G1 C1 b b' Hok1 (proj1 Hb1) Hb' Hne ltac:(lia)) as (h2 & E2 & Hok2 & Eh2 & Hc2 & Hk2). rewrite E2. cbn [mbind option_bind].
  destruct (free_int_ok base h2 G1 C1 b Hok2 Hb1) as (h3 & G3 & C3 & E3 & (Hok3 & Hd3 & R4 & R5 & R6) & Hl3). rewrite E3. cbn [mbind option_bind].
  eexists. split; [reflexivity|]. rewrite Eh2 in R4, R5, R6. simpl in R4, R5, R6.
  eapply (replaced h h1 h2 h3 G C G1 C1 G3 C3 b b' n); done || (congruence || lia).
Qed.

(** The free block behind is used, too. *)
Lemma grow_in_place_ok h G C b ts n a l1 c l2 : heap_ok h G C -> live G C b -> G !! a = Some (l1 ++ (b :: [c]) ++ l2) -> b_free c = true ->
  ts mod 8 = 0 -> MIN <= ts <= b_size b + b_size c -> n + HDR <= ts ->
  exists h', grow_in_place (ZEND_MM_DATA_OF (b_at b)) (b_at b) (b_at b + b_size b) (b_size b) ts h = Some (Returned (ZEND_MM_DATA_OF (b_at b)) h')
    /\ resized h G C b n (ZEND_MM_DATA_OF (b_at b)) h'.
Proof.
  intros Hok Hl Ha Hcf Hm Hts Hn. pose proof consts as Co. pose proof (hk_space _ _ _ _ Hok) as Hs. pose proof Hok as [(F & Ls & Hbo) Hst _ _].
  assert (Ha2 : G !! a = Some ((l1 ++ [b]) ++ c :: l2)) by (by rewrite Ha, <- app_assoc).
  assert (Ec : b_at b + b_size b = b_at c).
  { destruct (so_blocks _ _ _ Hs a _ Ha) as (Ht & _). rewrite tiled_app in Ht. destruct Ht as (_ & Tb & Tc & _). lia. }
  assert (Hl2 : starts_free l2 = false).
  { pose proof (st_coalesced _ _ _ Hst a _ Ha) as Hc. apply (after_neighbour l1 b [c] l2); [exact Hc|right; by exists c|done]. }
  apply blocks_loose in Hbo. assert (Hcin : block_in G c) by (exists a, (l1 ++ (b :: [c]) ++ l2); split; [done|set_solver +]).
  destruct (take_ok base h G F Ls [] c Hbo Hcin Hcf) as (h1 & F1 & Ls1 & E1 & Hlo & K & O & _); [apply not_elem_of_nil|].
  unfold grow_in_place. rewrite Ec. rewrite (free_size_ok base h G a (l1 ++ [b]) l2 c Hs Ha2 (all_headed _ _ _ (lo_headers _ _ _ _ _ _ Hbo _ _ Ha2)) Hcf). cbn [mbind option_bind].
  rewrite E1. cbn [mbind option_bind]. destruct (seg_total base _ G a l1 (b :: [c]) l2 Hs Ha) as (S1 & S2 & S3 & S4). simpl in S2, S4.
  destruct (block_sizes base _ _ _ Hs (proj1 Hl)) as (_ & Hbm & _).
  rewrite size_t_small by lia. replace (b_size b + b_size c) with (total (b :: [c])) by (simpl; lia).
  pose proof (proj1 (read_place base h G a l1 (c :: l2) b Hs Ha)) as Eat.
  set (add := fun new_free_block remaining_size h => _).
  destruct (recut_ok h h1 G C a l1 b [c] l2 F1 Ls1 ts add Hok Hl Ha) as (h2 & G' & m & E & Hmm & Hub); [right; by exists c|done|done|done|done|done|simpl; lia| |].
  { set (x := a + SEG + total l1) in *. set (G2 := <[a := _]> G). intros h0 F0 Ls0 y s Hs0 Hh0 Hf0 Hy Hn0 Hm0 Hw0. unfold add.
    assert (Ha3 : G2 !! a = Some (l1 ++ [Blk x ts false; Blk (x + ts) (total [b; c] - ts) true] ++ l2)) by apply lookup_insert_eq.
    pose proof (first_ok base h0 G2 a l1 ([Blk (x + ts) (total [b; c] - ts) true] ++ l2) (Blk x ts false) Hs0 Ha3 (all_headed _ _ _ (Hh0 _ _ Ha3))) as Ef.
    simpl b_at in Ef. rewrite Eat, Ef. cbn [mbind option_bind].
    destruct Hy as (d & k & Hd & Hy). apply list_elem_of_split in Hy as (k1 & k2 & ->).
    pose proof (next_guard_ok base h0 G2 d k1 k2 (Blk y s true) Hs0 Hd (all_headed _ _ _ (Hh0 _ _ Hd))) as Eg. simpl b_at in Eg. simpl b_size in Eg. rewrite Eg. cbn [mbind option_bind].
    destruct (_ && _); [by apply (add_rest_map base F0 h0 Ls0)|by apply (add_map base F0 h0 Ls0)]. }
  rewrite E. cbn [mbind option_bind]. eexists. split; [reflexivity|].
  destruct (count_used_fields (size_t (size h2 + m - b_size b)) h2) as (M1 & M2 & M3 & M4 & M5 & M6 & M7).
  eapply (used_resized h h1); [done|done| |done|done|]; [by eapply used_block_eq|lia].
Qed.

End Realloc.
