(* ===== verification/AllocGrow.v ===== *)
(** * AllocGrow: a block that fills its segment, and [_zend_mm_realloc_int] *)
From S2P Require Import Prelude ZendAlloc AllocBits AllocRing AllocTrie AllocCut AllocRemove AllocSearch AllocFree AllocTake AllocPick AllocMap AllocLayout AllocHeap AllocSplit AllocState AllocRelease AllocEfree AllocEmalloc AllocRealloc.

Section Grow.
Context `{SizeT} {ST : Storage} {STO : StorageOk}.
Abbreviation N := ZEND_MM_NUM_BUCKETS.
Abbreviation MIN := ZEND_MM_ALIGNED_MIN_HEADER_SIZE.
Abbreviation HDR := ZEND_MM_ALIGNED_HEADER_SIZE.
Abbreviation SEG := ZEND_MM_ALIGNED_SEGMENT_SIZE.
Abbreviation GUARD := ZEND_MM_GUARD_BLOCK.
Abbreviation layout := (gmap Z (list blk)).
Variable base : Z.
Abbreviation heap_ok := (heap_ok base).
Abbreviation blocks_ok := (blocks_ok base).
Abbreviation realloc_result := (realloc_result base).
Abbreviation reserve_ok := AllocEmalloc.reserve_ok.

(** ** A segment in the place of another one *)
Lemma segment_ne (G : layout) a l c k : G !! a = Some l -> delete a G !! c = Some k -> c <> a /\ G !! c = Some k.
Proof. intros _ [Hne Hc]%lookup_delete_Some. done. Qed.

Lemma state_replace h h' (G : layout) C a l a' b s1 s2 : space_ok base (mem h) G -> state_ok h G C -> G !! a = Some l ->
  (forall x, in_cache C x -> forall s f, Blk x s f ∉ l) -> let G1 := delete a G in let G' := <[a' := [b]]> G1 in
  G1 !! a' = None -> space_ok base (mem h') G' -> a' + seg_len [b] <= 2 ^ N -> regions h' = <[a' := seg_len [b]]> (delete a (regions h)) ->
  real_size h' = size_t (real_size h + (seg_len [b] - seg_len l)) -> block_size h' = block_size h ->
  NoDup (s1 ++ a :: s2) -> (forall c, c ∈ s1 ++ a :: s2 <-> is_Some (G !! c)) ->
  segments_list h' = first (s1 ++ a' :: s2) NULL -> chain seg_next (mem h') (s1 ++ a' :: s2) NULL ->
  (forall z, data G1 z -> mem h' !! z = mem h !! z) -> (forall c k, G1 !! c = Some k -> mem h' !! seg_size c = mem h !! seg_size c) ->
  mem h' !! seg_size a' = Some (seg_len [b]) -> state_ok h' G' C /\ real_size h' = real_size h + (seg_len [b] - seg_len l).
Proof.
  intros Hs0 Hst Ha HC G1 G' Ha1 Hs Hend Er Ereal Ebs Hn Hin Hhead Hch Hd Hsz Hsz'. pose proof Hst as [S1 S2 S3 S4 S5 S6 S7 S8 S9]. pose proof consts as Co.
  assert (HG : forall c k, G' !! c = Some k -> c = a' /\ k = [b] \/ c <> a' /\ G1 !! c = Some k).
  { intros c k Hc. apply lookup_insert_Some in Hc as [[<- <-]|[Hne Hc]]; [by left|right]. split; [congruence|done]. }
  assert (Hroom : forall c k, G' !! c = Some k -> c + seg_len k <= 2 ^ N).
  { intros c k [[-> ->]|[_ [_ Hc]%lookup_delete_Some]]%HG; [done|by apply S2]. }
  assert (Efm : regions h' = seg_len <$> G') by (unfold G', G1; by rewrite fmap_insert, fmap_delete, Er, S3).
  assert (Hreal : real_size h = seg_len l + sum (delete a (regions h))) by (rewrite S6; apply sum_delete; by rewrite S3, lookup_fmap, Ha).
  assert (Esum : sum (regions h') = real_size h + (seg_len [b] - seg_len l)).
  { rewrite Er, sum_insert; [lia|]. rewrite S3, <- fmap_delete, lookup_fmap. by fold G1; rewrite Ha1. }
  pose proof (sum_layout base _ _ Hs Hroom) as Hsum. rewrite <- Efm, Esum in Hsum.
  assert (Er2 : real_size h' = real_size h + (seg_len [b] - seg_len l)) by (rewrite Ereal; by apply size_t_small). split; [|done].
  assert (Hcach : forall i k x, C !! i = Some k -> x ∈ k -> block_in G1 (Blk x (8 * Z.of_nat i + MIN) false)).
  { intros i k x Hi Hx. destruct (S8 i k Hi) as (_ & _ & N3). destruct (N3 x Hx) as (c & j & Hc & Hj). exists c, j. split; [|done].
    apply lookup_delete_Some. split; [|done]. intros <-. rewrite Ha in Hc. injection Hc as <-. by apply (HC x ltac:(by exists i, k) (8 * Z.of_nat i + MIN) false). }
  split; try done.
  - intros c k [[-> ->]|[_ [_ Hc]%lookup_delete_Some]]%HG; [done|by apply (S1 c)].
  - intros c k [[-> ->]|[Hne Hc]]%HG; [done|]. rewrite (Hsz c k Hc). apply lookup_delete_Some in Hc as [_ Hc]. by apply S4.
  - exists (s1 ++ a' :: s2). apply NoDup_app in Hn as (N1 & N2 & [N3 N4]%NoDup_cons).
    assert (Hin' : forall c, c ∈ s1 \/ c ∈ s2 <-> is_Some (G1 !! c)).
    { intros c. unfold G1. rewrite lookup_delete_is_Some, <- Hin, elem_of_app, elem_of_cons. split; [|naive_solver].
      intros [Hc|Hc]; (split; [intros <-|tauto]); [apply (N2 a Hc); by left|done]. }
    assert (Hnot : a' ∉ s1 /\ a' ∉ s2) by (split; intros Hx; (destruct (proj1 (Hin' a') ltac:(tauto)) as [? E]; by rewrite E in Ha1)).
    split; [|split; [|done]].
    + apply NoDup_app. split; [done|]. split; [|constructor; tauto]. intros x Hx [->|Hx']%elem_of_cons; [tauto|]. apply (N2 x Hx). by right.
    + intros c. rewrite elem_of_app, elem_of_cons. unfold G'. rewrite lookup_insert_is_Some. rewrite <- Hin'. destruct (decide (a' = c)); naive_solver.
  - lia.
  - intros i k Hi. destruct (S8 i k Hi) as (N1 & N2 & N3). split; [done|].
    assert (Hb : forall x, x ∈ k -> block_in G' (Blk x (8 * Z.of_nat i + MIN) false)).
    { intros x Hx. destruct (Hcach i k x Hi Hx) as (c & j & Hc & Hj). exists c, j. split; [|done]. unfold G'. rewrite lookup_insert_ne; [done|congruence]. }
    split; [|done]. eapply chain_frame; [exact N2|]. intros x Hx. apply Hd. destruct (Hcach i k x Hi Hx) as (c & j & Hc & Hj).
    pose proof Hc as [_ Hc']%lookup_delete_Some. destruct (block_place base _ G c j _ Hs0 Hc' Hj) as (_ & _ & _ & _ & P).
    exists (Blk x (8 * Z.of_nat i + MIN) false). split; [by exists c, j|]. split; [done|]. unfold f_prev_free. simpl in *. lia.
  - by rewrite Ebs.
Qed.

(** [relink_segment] makes the link that went to the old place go to the new one. *)
Lemma relink_ok h a a' s1 s2 : segments_list h = first (s1 ++ a :: s2) NULL -> chain seg_next (mem h) s1 a -> a ∉ s1 -> NoDup s1 ->
  (length s1 <= base.size (regions h))%nat -> is_Some (mem h !! f_prev (a' + SEG)) -> (a' = a -> mem h !! f_prev (a + SEG) = Some GUARD) ->
  (forall s, s ∈ s1 -> seg_next s <> f_prev (a' + SEG)) ->
  exists h', relink_segment a' a (a + SEG) h = Some (a' + SEG, h') /\ segments_list h' = first (s1 ++ a' :: s2) NULL /\ chain seg_next (mem h') s1 a'
    /\ mem h' !! f_prev (a' + SEG) = Some GUARD /\ (forall z, z <> f_prev (a' + SEG) -> (forall s, s ∈ s1 -> z <> seg_next s) -> mem h' !! z = mem h !! z)
    /\ same_words h h' /\ h' = set_segments_list (segments_list h') (set_mem (mem h') h).
Proof.
  intros Hh Hc Ha Hn Hfuel [v Hv] Hg Hne. unfold relink_segment. destruct (Z.eqb_spec a' a) as [->|Hd].
  - exists h. split_and!; try done; [by apply Hg|by destruct h].
  - rewrite (find_ok h a s2 s1 None (base.size (regions h))); [|simpl; by rewrite Hh|done|done|done]. cbn [mbind option_bind].
    destruct s1 as [|s s0 _] using rev_ind.
    + simpl. unfold ZEND_MM_MARK_FIRST_BLOCK, store. simpl mem. rewrite Hv. cbn [mbind option_bind].
      eexists. split; [reflexivity|]. simpl. split; [done|]. split; [done|]. split; [apply lookup_insert_eq|]. split; [|split; [|done]].
      * intros z Hz _. by rewrite lookup_insert_ne.
      * intros z. simpl. rewrite lookup_insert. case_decide; [subst z; by rewrite Hv|done].
    + rewrite last_snoc. simpl. rewrite chain_app in Hc. destruct Hc as (C0 & Cs & _). simpl in Cs. unfold store at 1. rewrite Cs. cbn [mbind option_bind].
      assert (Hs : seg_next s <> f_prev (a' + SEG)) by (apply Hne; set_solver +).
      unfold ZEND_MM_MARK_FIRST_BLOCK, store. simpl mem. rewrite lookup_insert_ne, Hv by done. cbn [mbind option_bind].
      eexists. split; [reflexivity|]. simpl. split; [rewrite Hh; by destruct s0|]. split; [|split; [apply lookup_insert_eq|split; [|split; [|done]]]].
      * rewrite chain_app. simpl. rewrite lookup_insert_ne, lookup_insert_eq by done. split; [|done]. eapply chain_frame; [exact C0|].
        intros x Hx. rewrite !lookup_insert_ne; [done| |symmetry; apply Hne; set_solver]. apply NoDup_app in Hn as (_ & Hn & _).
        unfold seg_next. intros E. apply (Hn x Hx). assert (x = s) as -> by lia. by left.
      * intros z Hz Hz'. rewrite !lookup_insert_ne; [done|intros <-; apply (Hz' s); [set_solver +|done]|done].
      * intros z. simpl. rewrite !lookup_insert. repeat case_decide; subst; rewrite ?Hv, ?Cs; done.
Qed.

(** ** The memory of the larger segment *)
Lemma region_at a n f k : 0 <= k -> (k + 1) * W <= n -> region a n f !! (a + k * W) = Some (f (a + k * W)).
Proof.
  intros Hk Hn. pose proof consts as C. unfold region. apply elem_of_list_to_map_1.
  - rewrite <- list_fmap_compose. apply NoDup_fmap_2_strong; [|apply NoDup_seq]. intros i j _ _ E. simpl in E. lia.
  - apply list_elem_of_fmap. exists (Z.to_nat k). split; [f_equal; f_equal; lia|]. apply elem_of_seq.
    assert (k + 1 <= n / W) by (apply Z.div_le_lower_bound; lia). lia.
Qed.
(** The words that were there are there again. *)
Lemma realloc_memory h a old n a' h1 : ZEND_MM_STORAGE_REALLOC a n h = Some (Some (a', h1)) -> regions h !! a = Some old -> words (mem h) a old -> old <= n ->
  (forall z, ~ (a' <= z < a' + n) -> mem h1 !! z = if decide (a <= z < a + old) then None else mem h !! z)
  /\ (forall z, is_Some (mem h !! z) -> ~ (a <= z < a + old) -> is_Some (mem h1 !! z))
  /\ words (mem h1) a' n /\ (forall k, 0 <= k -> (k + 1) * W <= old -> mem h1 !! (a' + k * W) = mem h !! (a + k * W))
  /\ h1 = set_regions (<[a' := n]> (delete a (regions h))) (set_mem (mem h1) h) /\ exists f, storage_realloc a n h = Some (a', f).
Proof.
  intros E Ha Hw Hle. pose proof consts as C. unfold ZEND_MM_STORAGE_REALLOC in E. rewrite Ha in E. cbn [mbind option_bind] in E.
  destruct (storage_realloc a n h) as [[b f]|] eqn:Es; [|done]. unfold drop_region in E. rewrite Ha in E. cbn [mbind option_bind] in E. injection E as -> <-.
  set (md := filter (fun p : Z * Z => ~ (a <= p.1 < a + old)) (mem h)).
  assert (Hd : forall z, md !! z = if decide (a <= z < a + old) then None else mem h !! z).
  { intros z. case_decide as Hz; [|by apply lookup_drop]. apply map_lookup_filter_None. right. intros v _. simpl. tauto. }
  split; [|split; [|split; [|split; [|split; [done|by exists f]]]]].
  - intros z Hz. simpl. rewrite lookup_union, region_out by done. fold md. rewrite Hd. case_decide; [done|]. by destruct (mem h !! z).
  - intros z [v Hv] Hz. simpl. rewrite lookup_union. fold md. rewrite Hd, decide_False, Hv by done. by destruct (region a' n _ !! z); eexists.
  - intros k Hk Hk'. simpl. fold md. rewrite lookup_union, region_at by done. by destruct (md !! _); eexists.
  - intros k Hk Hk'. simpl. fold md. rewrite lookup_union, region_at by (lia || done). unfold moved.
    replace (a' + k * W - a') with (k * W) by lia. rewrite (proj2 (Z.ltb_lt _ _)) by lia. replace (k * W + a) with (a + k * W) by lia.
    destruct (Hw k Hk ltac:(lia)) as [v ->]. by destruct (md !! _).
Qed.

Section Reopen.
Variables (h : mm_heap) (G : layout) (F : gmap Z Z) (Ls : lists) (X : list Z) (C : list (list Z)) (a : Z) (l : list blk) (n a' : Z) (h1 : mm_heap).
Hypothesis Hloose : loose base h G F Ls X.
Hypothesis Hstate : state_ok h G C.
Hypothesis Ha : G !! a = Some l.
Hypothesis HX : forall x, x ∈ X <-> exists s, Blk x s true ∈ l.
Hypothesis HC : forall x, in_cache C x -> forall s f, Blk x s f ∉ l.
Hypothesis Hmod : n mod 8 = 0.
Hypothesis Hn : SEG + HDR + MIN <= n < 2 ^ N.
Hypothesis Hlen : seg_len l <= n.
Hypothesis Hre : ZEND_MM_STORAGE_REALLOC a n h = Some (Some (a', h1)).
Abbreviation room := (n - SEG - HDR).
Abbreviation b' := (Blk (a' + SEG) room false).
Abbreviation G1 := (delete a G).
Abbreviation G' := (<[a' := [b']]> G1).

Lemma reopen_place : 0 < a' /\ a' + n <= 2 ^ N /\ apart a' n base arrays_size /\ (forall c k, G1 !! c = Some k -> apart a' n c (seg_len k)) /\ G1 !! a' = None
  /\ regions h !! a = Some (seg_len l) /\ words (mem h) a (seg_len l).
Proof.
  pose proof consts as Co. destruct Hloose as [B1 B2 B3 B4]. assert (Ebase : buckets h = base) by (destruct B3 as (_ & B3 & _); apply (fo_base _ _ _ _ _ B3)).
  assert (Er : regions h !! a = Some (seg_len l)) by (by rewrite (st_regions _ _ _ Hstate), lookup_fmap, Ha). destruct (so_seg _ _ _ B1 a l Ha) as (_ & _ & Hw & _).
  destruct (realloc_memory h a (seg_len l) n a' h1 Hre Er Hw Hlen) as (_ & _ & _ & _ & _ & f & Es).
  destruct (storage_regrown n h a a' f Es) as (P1 & P2 & P3 & P4); [by eexists|lia|]. rewrite Ebase in P3.
  assert (Hdis : forall c k, G1 !! c = Some k -> apart a' n c (seg_len k)).
  { intros c k [Hne Hc]%lookup_delete_Some. apply P4; [by rewrite (st_regions _ _ _ Hstate), lookup_fmap, Hc|done]. }
  split_and!; try done. destruct (G1 !! a') as [k|] eqn:Ek; [|done]. pose proof (Hdis a' k Ek) as Hx. apply lookup_delete_Some in Ek as [_ Ek].
  destruct (so_blocks _ _ _ B1 a' k Ek) as (_ & Hz & _). destruct (sized_total _ Hz). unfold apart, seg_len in Hx. lia.
Qed.

(** What [reopen_segment] leaves in memory. *)
Record reopened (h2 : mm_heap) (s1 s2 : list Z) : Prop := {
  ro_segs : NoDup (s1 ++ a :: s2) /\ forall c, c ∈ s1 ++ a :: s2 <-> is_Some (G !! c);
  ro_head : segments_list h2 = first (s1 ++ a' :: s2) NULL;
  ro_chain : chain seg_next (mem h2) (s1 ++ a' :: s2) NULL;
  ro_size : mem h2 !! seg_size a' = Some n;
  ro_first : mem h2 !! (a' + SEG + W) = Some GUARD;
  ro_last : mem h2 !! (a' + SEG + room) = Some (GUARD + HDR);
  ro_copied : forall k, 0 <= k -> SEG + 2 * W <= k * W -> (k + 1) * W <= seg_len l - HDR -> mem h2 !! (a' + k * W) = mem h !! (a + k * W);
  ro_outside : forall z, ~ (a' <= z < a' + n) -> (forall s, s ∈ s1 -> z <> seg_next s) -> mem h2 !! z = mem h1 !! z;
  ro_words : same_words h1 h2;
  ro_fields : regions h2 = <[a' := n]> (delete a (regions h)) /\ real_size h2 = size_t (real_size h + (n - seg_len l)) /\ block_size h2 = block_size h
    /\ buckets h2 = buckets h /\ bits h2 = bits h /\ user h2 = user h
}.
Lemma reopen_memory : exists h2 s1 s2, reopen_segment a' a n (a + SEG) h1 = Some (a' + SEG, h2) /\ reopened h2 s1 s2.
Proof.
  pose proof consts as Co. pose proof seg_aligned as [As Ah]. destruct reopen_place as (P1 & P2 & P3 & Hdis & Hnone & Er & Hw). pose proof (lo_space _ _ _ _ _ _ Hloose) as Hs.
  destruct (realloc_memory h a (seg_len l) n a' h1 Hre Er Hw Hlen) as (M1 & M2 & M3 & M4 & M5 & _).
  destruct (st_segments _ _ _ Hstate) as (segs & Hnd & Hin & Hhead & Hch).
  destruct (list_elem_of_split segs a) as (s1 & s2 & ->); [apply Hin; by eexists|]. pose proof Hch as (C1 & C2 & C3)%chain_app.
  pose proof Hnd as (N1 & N2 & [N3 N4]%NoDup_cons)%NoDup_app. assert (Ha1 : a ∉ s1) by (intros Hx; apply (N2 a Hx); by left).
  destruct (so_blocks _ _ _ Hs a l Ha) as (Ht & Hz & Hnil). destruct (sized_total _ Hz) as [Hnn _].
  assert (Elen : seg_len l = SEG + total l + HDR) by done.
  assert (Hother : forall s, s ∈ s1 \/ s ∈ s2 -> exists k, G1 !! s = Some k /\ 2 * W <= seg_len k).
  { intros s Hx. assert (Hsin : s ∈ s1 ++ a :: s2) by (rewrite elem_of_app, elem_of_cons; tauto). apply Hin in Hsin as [k Hk]. exists k.
    split; [apply lookup_delete_Some; split; [intros <-; tauto|done]|]. destruct (so_blocks _ _ _ Hs s k Hk) as (_ & Zk & _). destruct (sized_total _ Zk). unfold seg_len. lia. }
  assert (Hlink : forall s, s ∈ s1 \/ s ∈ s2 -> ~ (a' <= seg_next s < a' + n) /\ mem h1 !! seg_next s = mem h !! seg_next s).
  { intros s Hx. destruct (Hother s Hx) as (k & Hk & Hkl). pose proof (Hdis s k Hk) as Hap. apply lookup_delete_Some in Hk as [Hne Hk].
    pose proof (so_apart _ _ _ Hs a l s k Ha Hk ltac:(done)) as Hap'. unfold apart, seg_next in *. split; [lia|]. rewrite M1 by lia. rewrite decide_False by lia. done. }
  set (h1c := count_real (size_t (real_size h1 + (n - seg_len l))) h1).
  assert (Ec : mem h1c = mem h1 /\ segments_list h1c = segments_list h /\ regions h1c = <[a' := n]> (delete a (regions h)) /\ real_size h1c = size_t (real_size h + (n - seg_len l))
    /\ block_size h1c = block_size h /\ buckets h1c = buckets h /\ bits h1c = bits h /\ user h1c = user h).
  { unfold h1c, count_real. rewrite M5. case_match; done. }
  destruct Ec as (E1 & E2 & E3 & E4 & E5 & E6 & E7 & E8).
  set (h2 := set_mem (<[a' := n]> (mem h1)) h1c).
  assert (Hm2 : forall z, z <> a' -> mem h2 !! z = mem h1 !! z) by (intros z Hne; unfold h2; simpl; by rewrite lookup_insert_ne).
  assert (Hold : mem h1 !! a' = Some (seg_len l)).
  { pose proof (M4 0 ltac:(lia) ltac:(lia)) as E. rewrite Z.mul_0_l, !Z.add_0_r in E. rewrite E. by apply (st_seg_size _ _ _ Hstate a). }
  assert (Hword : forall x, a' <= x -> x + W <= a' + n -> (x - a') mod 8 = 0 -> is_Some (mem h1 !! x) /\ (x + 2 * W <= a' + n -> is_Some (mem h1 !! (x + W)))).
  { intros x X1 X2 X3. assert (Hx : words (mem h1) x W) by (eapply words_in; [exact M3|lia..|done]). split.
    - specialize (Hx 0). rewrite Z.mul_0_l, Z.add_0_r in Hx. apply Hx; lia.
    - intros X4. assert (Hx2 : words (mem h1) x (2 * W)) by (eapply words_in; [exact M3|lia..|done]). specialize (Hx2 1). rewrite Z.mul_1_l in Hx2. apply Hx2; lia. }
  destruct (Hword (a' + SEG)) as [_ Wf]; [lia|lia|by replace (a' + SEG - a') with SEG by lia|]. specialize (Wf ltac:(lia)).
  destruct (relink_ok h2 a a' s1 s2) as (h3 & R1 & R2 & R3 & R4 & R5 & R6 & R7); try done.
  { unfold h2. simpl. by rewrite E2. }
  { eapply chain_frame; [exact C1|]. intros s Hx. destruct (Hlink s ltac:(by left)) as [L1 L2]. rewrite Hm2, L2; [done|lia]. }
  { apply nodup_length; [done|]. intros s Hx. destruct (Hother s ltac:(by left)) as (k & Hk & _). unfold h2. simpl. rewrite E3.
    rewrite lookup_insert_ne by congruence. apply lookup_delete_Some in Hk as [Hne Hk]. rewrite lookup_delete_ne by done.
    rewrite (st_regions _ _ _ Hstate), lookup_fmap, Hk. by eexists. }
  { unfold f_prev. rewrite Hm2 by lia. done. }
  { intros ->. unfold f_prev. rewrite Hm2 by lia. destruct l as [|b l']; [done|]. destruct Ht as [Hb _]. destruct (all_headed _ _ _ (lo_headers _ _ _ _ _ _ Hloose _ _ Ha)) as ((_ & Hp & _) & _).
    assert (Ek : exists k, 0 <= k /\ SEG + W = k * W) by (exists 3; lia). destruct Ek as (k & Hk & Ek). rewrite <- Z.add_assoc, Ek, M4 by lia.
    rewrite <- Ek, Z.add_assoc, <- Hb. exact Hp. }
  { intros s Hx E. destruct (Hlink s ltac:(by left)) as [L1 _]. apply L1. rewrite E. unfold f_prev. lia. }
  assert (W4 : is_Some (mem h3 !! (a' + SEG + room))).
  { apply R6. unfold h2. simpl. rewrite lookup_insert_ne by lia. apply Hword; [lia|lia|]. replace (a' + SEG + room - a') with (n + (-1) * HDR) by lia.
    rewrite Z.add_mod, Hmod, Z.mul_mod, Ah by lia. done. }
  destruct W4 as [v4 V4].
  set (h4 := set_mem (<[a' + SEG + room := GUARD + HDR]> (mem h3)) h3). exists h4, s1, s2. split.
  { unfold reopen_segment, load, store at 1, seg_size. rewrite Hold. cbn [mbind option_bind]. fold h1c. rewrite E1, Hold. cbn [mbind option_bind]. fold h2. rewrite R1. cbn [mbind option_bind].
    unfold ZEND_MM_LAST_BLOCK, store, f_size, segment_room. rewrite size_t_small by lia. rewrite V4. cbn [mbind option_bind]. by rewrite guard_lor. }
  assert (Hm4 : forall z, z <> a' + SEG + room -> mem h4 !! z = mem h3 !! z) by (intros z Hne; unfold h4; simpl; by rewrite lookup_insert_ne).
  assert (Hin4 : forall s, s ∈ s1 \/ s ∈ s2 -> seg_next s <> a' + SEG + room) by (intros s Hx E; destruct (Hlink s Hx) as [L1 _]; apply L1; rewrite E; lia).
  assert (Hnl : forall z, a' <= z < a' + n -> forall s, s ∈ s1 -> z <> seg_next s) by (intros z Hzz s Hx ->; by destruct (Hlink s ltac:(by left))).
  split.
  - done.
  - exact R2.
  - rewrite chain_app. split; [eapply chain_frame; [exact R3|]; intros s Hx; apply Hm4; auto|]. simpl. split.
    + unfold seg_next. rewrite Hm4, R5 by (unfold f_prev; lia || (apply Hnl; lia)). rewrite Hm2 by lia. pose proof (M4 1 ltac:(lia) ltac:(lia)) as E. rewrite !Z.mul_1_l in E. by rewrite E.
    + eapply chain_frame; [exact C3|]. intros s Hx. destruct (Hlink s ltac:(by right)) as [L1 L2]. rewrite Hm4 by auto. rewrite R5, Hm2, L2; [done|lia|unfold f_prev; lia|].
      intros t Hx' E. apply (N2 t Hx'). right. unfold seg_next in E. by assert (s = t) as <- by lia.
  - unfold seg_size. rewrite Hm4, R5 by (unfold f_prev; lia || (apply Hnl; lia)). unfold h2. simpl. apply lookup_insert_eq.
  - rewrite Hm4 by lia. exact R4.
  - apply lookup_insert_eq.
  - intros k Hk Hk1 Hk2. rewrite Hm4, R5, Hm2 by (unfold f_prev; lia || (apply Hnl; lia)). apply M4; lia.
  - intros z Hz1 Hz2. rewrite Hm4 by lia. rewrite R5 by (done || unfold f_prev; lia). apply Hm2. lia.
  - intros z. unfold h4. simpl. transitivity (is_Some (mem h3 !! z)); [rewrite lookup_insert; case_decide; [subst z; by rewrite V4|done]|].
    rewrite (R6 z). unfold h2. simpl. rewrite lookup_insert. case_decide; [subst z; by rewrite Hold|done].
  - assert (Ef : regions h3 = regions h1c /\ real_size h3 = real_size h1c /\ block_size h3 = block_size h1c /\ buckets h3 = buckets h1c /\ bits h3 = bits h1c /\ user h3 = user h1c).
    { split_and!; rewrite R7; done. }
    destruct Ef as (Q1 & Q2 & Q3 & Q4 & Q5 & Q6). rewrite <- E3, <- E4, <- E5, <- E6, <- E7, <- E8, <- Q1, <- Q2, <- Q3, <- Q4, <- Q5, <- Q6. done.
Qed.

Section Reopened.
Variables (h2 : mm_heap) (s1 s2 : list Z).
Hypothesis Hro : reopened h2 s1 s2.

Lemma reopened_out z : ~ (a' <= z < a' + n) -> ~ (a <= z < a + seg_len l) -> (forall s, s ∈ s1 -> z <> seg_next s) -> mem h2 !! z = mem h !! z.
Proof.
  intros Hz1 Hz2 Hz3. destruct reopen_place as (_ & _ & _ & _ & _ & Er & Hw). destruct (realloc_memory h a (seg_len l) n a' h1 Hre Er Hw Hlen) as (M1 & _).
  rewrite (ro_outside _ _ _ Hro) by done. rewrite M1 by done. by rewrite decide_False.
Qed.
Lemma reopened_kept c k z : G1 !! c = Some k -> c <= z < c + seg_len k -> z <> seg_next c -> mem h2 !! z = mem h !! z.
Proof.
  intros Hc Hz Hne. destruct reopen_place as (_ & _ & _ & Hdis & _). pose proof (Hdis c k Hc) as Hap. apply lookup_delete_Some in Hc as [Hca Hc].
  pose proof (lo_space _ _ _ _ _ _ Hloose) as Hs. pose proof (so_apart _ _ _ Hs a l c k Ha Hc Hca) as Hap'. unfold apart in *.
  apply reopened_out; [lia|lia|]. intros s Hsin ->. destruct (ro_segs _ _ _ Hro) as [_ Hin].
  destruct (proj1 (Hin s)) as [j Hj]; [set_solver|]. apply Hne. f_equal. symmetry. by apply (seg_next_inj base (mem h) G c k s j (seg_next s)).
Qed.
Lemma reopened_words z : is_Some (mem h !! z) -> ~ (a <= z < a + seg_len l) -> is_Some (mem h2 !! z).
Proof.
  intros Hz Hz'. destruct reopen_place as (_ & _ & _ & _ & _ & Er & Hw). destruct (realloc_memory h a (seg_len l) n a' h1 Hre Er Hw Hlen) as (_ & M2 & _).
  apply (ro_words _ _ _ Hro). by apply M2.
Qed.

(** The heap without either of the two segments. *)
Definition between : mm_heap :=
  set_mem (filter (fun p : Z * Z => ~ (a' <= p.1 < a' + n)) (mem h2) ∪ filter (fun p : Z * Z => ~ (a <= p.1 < a + seg_len l)) (mem h)) h2.
Lemma between_lookup z : mem between !! z = if decide (a' <= z < a' + n) then if decide (a <= z < a + seg_len l) then None else mem h !! z else mem h2 !! z.
Proof.
  unfold between. simpl. rewrite lookup_union. case_decide as Hn'.
  - assert (filter (fun p : Z * Z => ~ (a' <= p.1 < a' + n)) (mem h2) !! z = None) as ->.
    { apply map_lookup_filter_None. right. intros v _. simpl. tauto. }
    rewrite (left_id None _). case_decide; [|by apply lookup_drop]. apply map_lookup_filter_None. right. intros v _. simpl. tauto.
  - rewrite lookup_drop by done. destruct (mem h2 !! z) eqn:E; [by destruct (filter _ (mem h) !! z)|]. rewrite (left_id None _).
    apply map_lookup_filter_None. destruct (mem h !! z) eqn:E2; [right|by left]. intros v _ Hv. simpl in Hv.
    destruct (reopened_words z) as [w Hw]; [by eexists|done|congruence].
Qed.
Lemma between_ok : blocks_ok between G1 F Ls.
Proof.
  destruct reopen_place as (_ & _ & P3 & Hdis & _ & Er & Hw). destruct (ro_fields _ _ _ Hro) as (_ & _ & _ & E1 & E2 & _). pose proof (lo_space _ _ _ _ _ _ Hloose) as Hs.
  eapply delete_ok; [exact Hloose|exact Ha|exact HX| | |done|done].
  - intros z Hz Hne. pose proof (foreign_outside _ _ _ _ _ _ Hs Ha Hz) as Ho.
    assert (Hnew : ~ (a' <= z < a' + n)).
    { unfold apart in *. destruct Hz as [Hz|(c & k & Hca & Hc & Hz)]; [lia|]. pose proof (Hdis c k ltac:(by apply lookup_delete_Some)) as Hap. unfold apart in Hap. lia. }
    rewrite between_lookup, decide_False by done. apply reopened_out; [done|done|]. intros s Hsin. destruct (ro_segs _ _ _ Hro) as [_ Hin].
    destruct (proj1 (Hin s)) as [j Hj]; [set_solver|]. destruct (Hne s); [done|congruence].
  - intros z Hz. rewrite between_lookup. case_decide as Hn'; [by rewrite decide_False|].
    destruct (realloc_memory h a (seg_len l) n a' h1 Hre Er Hw Hlen) as (M1 & _). rewrite (ro_words _ _ _ Hro z), M1 by done. by rewrite decide_False.
Qed.

Lemma reopened_ok : hole base h2 G' a' [] [b'] [] F Ls /\ state_ok h2 G' C /\ data_kept G1 h h2 /\ real_size h2 = real_size h + (n - seg_len l).
Proof.
  pose proof consts as Co. pose proof seg_aligned as [As Ah]. destruct reopen_place as (P1 & P2 & P3 & Hdis & Hnone & Er & Hw). pose proof (lo_space _ _ _ _ _ _ Hloose) as Hs.
  destruct (ro_fields _ _ _ Hro) as (R1 & R2 & R3 & E1 & E2 & _). pose proof between_ok as Hbo.
  assert (El : seg_len [b'] = n) by (unfold seg_len; simpl; lia). assert (En : SEG + room + HDR = n) by lia.
  assert (Hrm : room mod 8 = 0).
  { assert (E8 : (SEG + HDR) mod 8 = 0) by (by rewrite Z.add_mod, As, Ah by lia). replace room with (n + (-1) * (SEG + HDR)) by lia.
    rewrite Z.add_mod, Hmod, Z.mul_mod, E8 by lia. done. }
  assert (Hs' : space_ok base (mem h2) G').
  { eapply (space_insert base (mem between) (mem h2) G1 a' room b'); rewrite ?En; try done; [apply Hbo|lia| |].
    - destruct (realloc_memory h a (seg_len l) n a' h1 Hre Er Hw Hlen) as (_ & _ & M3 & _). intros k Hk Hk'. apply (ro_words _ _ _ Hro). by apply M3.
    - intros z. rewrite between_lookup. case_decide; [|done]. case_decide; [by intros [? ?]|]. intros Hz. by apply reopened_words. }
  assert (Hdat : data_kept G1 h h2).
  { intros z (c & (d & k & Hd & Hc) & _ & Hz). pose proof Hd as [Hda Hd']%lookup_delete_Some. destruct (block_place base _ G d k c Hs Hd' Hc) as (Q1 & Q2 & _).
    apply (reopened_kept d k); [done|lia|]. unfold seg_next. lia. }
  split; [|assert (Hst : state_ok h2 G' C /\ real_size h2 = real_size h + (seg_len [b'] - seg_len l)); [|rewrite El in Hst; tauto]].
  - eapply (insert_hole base between h2 G1 F Ls a' room b'); try done; rewrite ?En.
    + intros z Hz. by rewrite between_lookup, decide_False.
    + apply Hro.
    + apply Hro.
  - eapply (state_replace h h2 G C a l a' b' s1 s2); rewrite ?El; try done; try apply Hro; try apply (ro_segs _ _ _ Hro).
    intros c k Hc. apply (reopened_kept c k); [done| |unfold seg_next, seg_size; lia]. apply lookup_delete_Some in Hc as [_ Hc].
    destruct (so_blocks _ _ _ Hs c k Hc) as (_ & Zk & _). destruct (sized_total _ Zk). unfold seg_size, seg_len. lia.
Qed.
End Reopened.
End Reopen.

(** ** [realloc_segment] *)
Lemma gave_up_trans h h1 G C h' : gave_up base h1 G C h' -> kept G h h1 -> others h1 = others h -> gave_up base h G C h'.
Proof.
  intros (h2 & G2 & C2 & R1 & R2 & R3 & R4 & R5 & R6 & R7) Hk Ho. unfold others in Ho. injection Ho as O1 O2 O3 O4 O5 O6 O7 O8 O9 O10 O11 O12 O13 O14 O15.
  exists h2, G2, C2. split; [done|]. split; [done|]. split; [intros c; rewrite (R3 c); by replace (reserve h1) with (reserve h)|].
  split; [|split_and!; (done || congruence || lia)]. intros z Hz. rewrite R4 by done. apply Hk. left. destruct Hz as (c & Hc & Hz). exists c. apply R3 in Hc as [(Hc1 & Hc2 & _) _]. done.
Qed.
Lemma moved_heap h h1 G C : heap_ok h G C -> (exists F Ls, blocks_ok h1 G F Ls) -> kept G h h1 -> others h1 = others h -> heap_ok h1 G C.
Proof.
  intros Hok (F & Ls & Hbo) Hk Ho. pose proof Ho as Ho'. unfold others in Ho'. injection Ho' as O1 O2 O3 O4 O5 O6 O7 O8 O9 O10 O11 O12 O13 O14 O15.
  split; [by exists F, Ls| |apply Hok|rewrite O15; apply Hok]. eapply state_move; [apply Hok|apply Hbo|done|apply Hok|exact Hk|by apply others_fixed|done].
Qed.

(** The storage manager is asked to make the segment at [a] as large as a block
    of [ts] bytes needs, and does not. *)
Definition refuses (a ts : Z) (h : mm_heap) : Prop := exists old, load (seg_size a) h = Some old /\
  let n := (segment_size ts h).1 in ts <= n /\ size_t (real_size h + n - old) <= limit h /\ storage_realloc a n h = None.
(** The reserve has been given up and the error reported; of the heap only what
    the program has is known to be as it was. *)
Definition left_torn (h : mm_heap) (G : layout) (C : list (list Z)) (h' : mm_heap) : Prop := exists h1, reserve h1 = NULL
  /\ (forall c z, live G C c -> reserve h <> ZEND_MM_DATA_OF (b_at c) -> b_at c + 2 * W <= z < b_at c + b_size c -> mem h1 !! z = mem h !! z)
  /\ limit h1 = limit h /\ real_size h1 <= real_size h
  /\ (zend_error_noreturn (set_overflow 1 h1) = Some h' \/ h' = set_overflow 2 h1).
(** The only segment about whose headers nothing is known. *)
Definition only (a : Z) : Torn := fun x => x = a.

Section Segment.
Variables (h h1 : mm_heap) (G : layout) (C : list (list Z)) (b : blk) (a : Z) (mn : list blk) (F : gmap Z Z) (Ls : lists).
Hypothesis Hok : heap_ok h G C.
Hypothesis Hlive : live G C b.
Hypothesis Ha : G !! a = Some (b :: mn).
Hypothesis Hmn : neighbour mn.
Hypothesis Hloose : loose base h1 G F Ls (addrs mn).
Hypothesis Hk : kept G h h1.
Hypothesis Ho : others h1 = others h.

(** The free block behind is put back into the lists. *)
Lemma put_back_ok : exists h2, (nf ← ZEND_MM_IS_FREE_BLOCK (b_at b + b_size b) h1; if nf : bool then zend_mm_add_to_free_list (b_at b + b_size b) h1 else Some h1) = Some h2
  /\ heap_ok h2 G C /\ kept G h h2 /\ others h2 = others h.
Proof.
  pose proof (lo_space _ _ _ _ _ _ Hloose) as Hs. pose proof (all_headed _ _ _ (lo_headers _ _ _ _ _ _ Hloose _ _ Ha)) as Hh.
  rewrite (next_free_ok base h1 G a [] mn b Hs Ha Hh). cbn [mbind option_bind]. destruct Hmn as [->|(c & -> & Hc)].
  - exists h1. split; [done|]. split; [|done]. apply (moved_heap h); [done| |done|done]. exists F, Ls. by apply blocks_loose.
  - rewrite Hc. assert (Ha2 : G !! a = Some ([b] ++ [c] ++ [])) by done. assert (Hcin : Blk (b_at c) (b_size c) true = c) by (rewrite <- Hc; by destruct c).
    assert (Ec : b_at b + b_size b = b_at c).
    { destruct (so_blocks _ _ _ Hs a _ Ha) as (Ht & _). destruct Ht as (Tb & Tc & _). lia. }
    assert (Hhole : hole base h1 G a [b] [c] [] F Ls).
    { eapply hole_of; [exact Hloose|exact Ha2|by intros []|done| |].
      - intros x s Hx%list_elem_of_singleton. rewrite <- Hx. apply list_elem_of_singleton. done.
      - intros x Hx%list_elem_of_singleton. exists (b_size c). rewrite Hx, Hcin. by left. }
    assert (EG : <[a := [b] ++ [c] ++ []]> G = G) by (by apply insert_id).
    destruct (add_ok_laid base h1 G a [b] [c] [] F Ls Hhole (fun y _ => zend_mm_add_to_free_list y) [c] (b_at c) (b_size c) h1) as (h2 & E & Hbo & Hk2 & Ho2 & _).
    { by rewrite EG. } { rewrite EG. apply Hloose. } { apply Hloose. } { apply adds_free. }
    { intros d ->%list_elem_of_singleton. by rewrite Hcin. } { rewrite Hcin. by left. }
    { destruct Hh as ((_ & _ & H1 & _) & _). rewrite H1. unfold word. rewrite Hc. unfold ZEND_MM_FREE_BLOCK. by rewrite Z.add_0_r. }
    rewrite EG in Hbo, Hk2. rewrite Ec. exists h2. split; [exact E|]. assert (Hk3 : kept G h h2) by (intros z Hz; by rewrite Hk2, Hk).
    split; [|split; [done|congruence]]. apply (moved_heap h); [done|done|done|congruence].
Qed.

Lemma segment_base : b_at b = a + SEG.
Proof. destruct (so_blocks _ _ _ (lo_space _ _ _ _ _ _ Hloose) a _ Ha) as (Ht & _). apply Ht. Qed.
Lemma segment_free x : x ∈ addrs mn <-> exists s, Blk x s true ∈ b :: mn.
Proof.
  destruct Hlive as (_ & Hu & _). rewrite (elem_of_free mn x Hmn). split; intros [s Hs]; exists s; [by right|]. apply elem_of_cons in Hs as [Hs|Hs]; [|done]. by rewrite <- Hs in Hu.
Qed.
Lemma segment_uncached x : in_cache C x -> forall s f, Blk x s f ∉ b :: mn.
Proof.
  intros Hx s f Hin. pose proof (hk_space _ _ _ _ Hok) as Hs. destruct (cached_used _ _ _ _ (hk_state _ _ _ _ Hok) Hx) as [t Ht].
  assert (Hb : block_in G (Blk x s f)) by (by exists a, (b :: mn)). pose proof (block_unique base _ G _ _ Hs Ht Hb eq_refl) as E. injection E as -> <-.
  apply elem_of_cons in Hin as [E|Hin]; [destruct Hlive as (_ & _ & Hnc); apply Hnc; by rewrite <- E|].
  destruct Hmn as [->|(c & -> & Hc)]; [by apply not_elem_of_nil in Hin|]. apply list_elem_of_singleton in Hin. by rewrite <- Hin in Hc.
Qed.
(** The used blocks of the other segments are all but [b]. *)
Lemma segment_others c : b_free c = false -> block_in (delete a G) c <-> block_in G c /\ c <> b.
Proof.
  intros Hu. split.
  - intros (d & k & Hda & Hd & Hc)%block_in_delete. split; [by exists d, k|]. intros ->. apply Hda. symmetry.
    eapply (block_seg base (mem h) G a (b :: mn) d k b); [by eapply hk_space|done|done|by left|done].
  - intros [(d & k & Hd & Hc) Hne]. exists d, k. split; [|done]. apply lookup_delete_Some. split; [|done]. intros <-. rewrite Ha in Hd. injection Hd as <-.
    apply elem_of_cons in Hc as [?|Hc]; [done|]. destruct Hmn as [->|(e & -> & He)]; [by apply not_elem_of_nil in Hc|]. apply list_elem_of_singleton in Hc. congruence.
Qed.

(** The free block behind has left the lists and is not put back: as far as the
    lists know, [b] fills the segment. *)
Abbreviation B := (Blk (b_at b) (total (b :: mn)) false).
Abbreviation torn_layout := (<[a := [B]]> G).
Lemma torn_live c : live torn_layout C c <-> (live G C c /\ c <> b) \/ c = B.
Proof.
  pose proof Hlive as (_ & Hu & Hncb). unfold live. rewrite block_in_retile, list_elem_of_singleton. split.
  - intros ([(d & k & Hda & Hd & Hc)| ->] & H2 & H3); [left|by right].
    assert (Hx : block_in G c /\ c <> b); [|tauto]. apply segment_others; [done|]. exists d, k. by rewrite lookup_delete_ne.
  - intros [[(H1 & H2 & H3) Hne]| ->]; [|tauto]. split; [left|done]. destruct (proj2 (segment_others c H2) (conj H1 Hne)) as (d & k & [? ?]%lookup_delete_Some & Hc).
    by exists d, k.
Qed.
Lemma torn_heap : @AllocEfree.heap_ok _ (only a) base h1 torn_layout C.
Proof.
  pose proof (lo_space _ _ _ _ _ _ Hloose) as Hs. pose proof consts as Co. destruct (so_blocks _ _ _ Hs a _ Ha) as (Ht & Hz & _).
  destruct (sized_total _ Hz) as [_ Hm8]. assert (Hz' : sized mn) by (intros d Hd; apply Hz; by right). destruct (sized_total _ Hz') as [Hmn0 _].
  destruct (Hz b) as [_ Hbm]; [by left|].
  assert (Hhole : hole base h1 G a [] (b :: mn) [] F Ls).
  { eapply hole_of; [exact Hloose|by rewrite app_nil_r|by intros []|done| |].
    - intros x s Hx. apply segment_free. by exists s.
    - intros x Hx. by apply segment_free. }
  assert (Hs' : space_ok base (mem h1) torn_layout).
  { apply (space_retile base (mem h1) G a [] (b :: mn) [B] []); [done|by rewrite app_nil_r|simpl; lia| | |done].
    - simpl. split; [|done]. destruct Ht as [-> _]. lia.
    - intros d ->%list_elem_of_singleton. split; [done|simpl; lia]. }
  assert (El : seg_len [B] = seg_len (b :: mn)) by (unfold seg_len; simpl; lia).
  assert (Hst1 : state_ok h1 G C) by (eapply state_move; [apply Hok|apply Hloose|done|apply Hok|exact Hk|by apply others_fixed|done]).
  split.
  - exists F, Ls. split; [done| |apply Hloose|apply (free_but_used G a [] [B] [] F); [apply Hhole|by intros d ->%list_elem_of_singleton]].
    intros c k Hc Hn. apply lookup_insert_Some in Hc as [[<- _]|[_ Hc]]; [by destruct Hn|]. apply all_headed. by apply (lo_headers _ _ _ _ _ _ Hloose).
  - apply (state_move base h1 h1 G torn_layout C Hst1 Hs'); [|intros c k Hc|done|done|].
    + apply map_eq. intros c. rewrite !lookup_fmap. destruct (decide (a = c)) as [<-|Hne]; [|by rewrite lookup_insert_ne].
      rewrite lookup_insert_eq, Ha. cbn [fmap option_fmap option_map]. by rewrite El.
    + apply lookup_insert_Some in Hc as [[_ <-]|[_ Hc]]; [done|]. by apply (st_coalesced _ _ _ Hst1 c).
    + intros x s Hx (d & k & Hd & Hxk). apply block_in_retile. left. exists d, k. split; [|done]. intros ->. rewrite Ha in Hd. injection Hd as <-.
      by apply (segment_uncached x Hx s false).
  - intros c k Hc. apply lookup_insert_Some in Hc as [[_ <-]|[_ Hc]]; [exists B; split; [by left|done]|]. by apply (hk_occupied _ _ _ _ Hok c).
  - unfold others in Ho. injection Ho as O1 O2 O3 O4 O5 O6 O7 O8 O9 O10 O11 O12 O13 O14 O15. rewrite O15. apply Hok.
Qed.
Lemma torn_segment c : c <> B -> block_in torn_layout c -> @whole (only a) torn_layout c.
Proof. intros Hc _ d k Hd Hin ->. rewrite lookup_insert_eq in Hd. injection Hd as <-. by apply list_elem_of_singleton in Hin. Qed.
Lemma torn_error : reserve_ok h G C -> reserve h <> ZEND_MM_DATA_OF (b_at b) ->
  exists h', (h ← zend_mm_free_cache h1; out_of_memory h) = Some (Bailout h') /\ left_torn h G C h'.
Proof.
  intros Hr Hnr. pose proof Ho as Ho'. unfold others in Ho'. injection Ho' as O1 O2 O3 O4 O5 O6 O7 O8 O9 O10 O11 O12 O13 O14 O15.
  destruct (@give_up_whole _ _ _ (only a) base h1 torn_layout C torn_heap) as (h' & E & h2 & G2 & C2 & Hok2 & R1 & Hl & Hk2 & R2 & R3 & R4).
  - unfold AllocEmalloc.reserve_ok in *. rewrite O12. destruct Hr as [?|(c & Hc & Er)]; [by left|right]. exists c. split; [|done]. apply torn_live. left. split; [done|].
    by intros ->.
  - intros c Hc Er. apply torn_segment; [|apply Hc]. intros ->. apply Hnr. by rewrite <- O12.
  - intros c Hc Hcc. apply torn_segment; [|done]. intros ->. by apply Hlive.
  - exists h'. split; [done|]. exists h2. split; [done|]. split; [|split_and!; (done || congruence || lia)].
    intros c z Hc Hrc Hz. assert (Hcb : c = b \/ c <> b).
    { destruct (decide (b_at c = b_at b)) as [E'|Hne]; [left|right; congruence]. apply (block_unique base (mem h) G); [by eapply hk_space|apply Hc|apply Hlive|done]. }
    destruct Hcb as [->|Hne].
    + assert (HB : live G2 C2 B) by (apply Hl; split; [apply torn_live; by right|by rewrite O12]).
      destruct (so_blocks _ _ _ (lo_space _ _ _ _ _ _ Hloose) a _ Ha) as (_ & Hz' & _). destruct (sized_total mn) as [? _]; [intros d Hd; apply Hz'; by right|].
      rewrite Hk2 by (exists B; split; [done|simpl; lia]). apply Hk. left. exists b. split; [apply Hlive|]. split; [apply Hlive|done].
    + assert (Hc2 : live G2 C2 c) by (apply Hl; split; [apply torn_live; by left|by rewrite O12]).
      rewrite Hk2 by (by exists c). apply Hk. left. exists c. split; [apply Hc|]. split; [apply Hc|done].
Qed.

(** No block of the other segments is where the larger one begins. *)
Lemma place_fresh a' room m : let G1 := delete a G in space_ok base m (<[a' := [Blk (a' + SEG) room false]]> G1) -> G1 !! a' = None ->
  forall c, block_in G1 c -> b_at c <> a' + SEG.
Proof.
  intros G1 Hs' Hnone c (d & k & Hdk & Hc). pose proof consts as Co. set (G' := <[a' := _]> G1) in *.
  assert (Ha' : G' !! a' = Some [Blk (a' + SEG) room false]) by apply lookup_insert_eq.
  assert (Hda : d <> a') by congruence. assert (Hd' : G' !! d = Some k) by (unfold G'; by rewrite lookup_insert_ne).
  destruct (block_place base _ G' d k c Hs' Hd' Hc) as (P1 & P2 & _ & _ & P3). pose proof (so_apart _ _ _ Hs' d k a' _ Hd' Ha' Hda) as Hap.
  destruct (so_blocks _ _ _ Hs' a' _ Ha') as (_ & Hz & _). destruct (Hz (Blk (a' + SEG) room false)) as [_ Hr]; [by left|].
  simpl in Hr. unfold apart, seg_len in *. simpl in Hap. lia.
Qed.
Lemma place_uncached a' room m : let G1 := delete a G in space_ok base m (<[a' := [Blk (a' + SEG) room false]]> G1) -> G1 !! a' = None -> ~ in_cache C (a' + SEG).
Proof.
  intros G1 Hs' Hnone Hx. destruct (cached_used _ _ _ _ (hk_state _ _ _ _ Hok) Hx) as [s Hxs]. apply (place_fresh a' room m Hs' Hnone (Blk (a' + SEG) s false)); [|done].
  apply segment_others; [done|]. split; [done|]. intros E. destruct Hlive as (_ & _ & Hncb). apply Hncb. by rewrite <- E.
Qed.
(** The larger segment has been laid out: what that means for the program. *)
Lemma segment_resized h3 h4 a' room G2 m n : let x := a' + SEG in let G1 := delete a G in let G' := <[a' := [Blk x room false]]> G1 in
  space_ok base (mem h3) G' -> G1 !! a' = None -> used_block base h3 h4 G' G2 C x m -> data_kept G1 h1 h3 ->
  (forall k, 0 <= k -> SEG + 2 * W <= k * W -> (k + 1) * W <= SEG + total (b :: mn) -> mem h3 !! (a' + k * W) = mem h1 !! (a + k * W)) ->
  user h3 = user h1 -> real_size h3 <= Z.max (real_size h) (limit h) -> n + HDR <= m -> resized base h G C b n (ZEND_MM_DATA_OF x) h4.
Proof.
  intros x G1 G' Hs' Hnone (Hbo & Hst & Hk4 & Ec & Er & El & Ere & Hocc & Hus) Hd Hcopy Eu Hre Hn. pose proof consts as Co. pose proof (hk_space _ _ _ _ Hok) as Hs.
  unfold others in Ho. injection Ho as O1 O2 O3 O4 O5 O6 O7 O8 O9 O10 O11 O12 O13 O14 O15. unfold user in Eu. injection Eu as U1 U2 U3 U4 U5 U6 U7 U8.
  assert (Ha' : G' !! a' = Some [Blk x room false]) by apply lookup_insert_eq.
  pose proof (place_fresh a' room _ Hs' Hnone) as Hat. fold x G1 in Hat.
  assert (Huse : forall y s, block_in G2 (Blk y s false) <-> block_in G1 (Blk y s false) \/ (y = x /\ s = m)).
  { intros y s. rewrite Hus. unfold G'. rewrite block_in_retile. split; [|intros [Hy|?]; [left|by right]].
    - intros [[[(c & k & Hc & Hck & Hy)|Hy] Hne]|?]; [left; by exists c, k| |by right]. apply list_elem_of_singleton in Hy. by injection Hy.
    - split; [|by apply (Hat _ Hy)]. left. destruct Hy as (c & k & Hck & Hy). exists c, k. split; [congruence|done]. }
  assert (Hlive1 : forall c, live G C c -> c <> b -> block_in G1 c) by (intros c (Hc & Hu & _) Hne; by apply segment_others).
  pose proof (place_uncached a' room _ Hs' Hnone) as Hnc. fold x in Hnc.
  exists G2, C, (Blk x m false). split; [|split; [done|split; [done|split; [|split; [|split; [|split; [|split_and!; (congruence || lia)]]]]]]].
  - split; [done|done| |rewrite Ec, U8, O15; apply Hok]. apply Hocc. intros d k Hdk. unfold G' in Hdk. apply lookup_insert_Some in Hdk as [[<- <-]|[_ Hdk]].
    + exists (Blk x room false). split; [by left|done].
    + apply lookup_delete_Some in Hdk as [_ Hdk]. by apply (hk_occupied _ _ _ _ Hok d).
  - intros c Hc Hne ->. by apply (Hat _ (Hlive1 _ Hc Hne)).
  - intros c. split.
    + intros (H1 & H2 & H3). rewrite <- (blk_eta c H2) in H1. apply Huse in H1 as [H1|[E1 E2]].
      * left. rewrite (blk_eta c H2) in H1. apply segment_others in H1 as [H1 Hne]; [|done]. by split.
      * right. by rewrite <- (blk_eta c H2), E1, E2.
    + intros [[Hc Hne]| ->].
      * pose proof (Hlive1 c Hc Hne) as H1. destruct Hc as (_ & H2 & H3). split; [|done]. rewrite <- (blk_eta c H2) in H1 |- *. apply Huse. by left.
      * split; [apply Huse; by right|done].
  - intros c z Hc Hne Hz. pose proof (Hlive1 c Hc Hne) as H1. destruct Hc as (Hc & H2 & _).
    assert (Hdat : data G2 z /\ data G1 z /\ data G z) by (split_and!; exists c; split_and!; try done; try lia; rewrite <- (blk_eta c H2) in H1 |- *; apply Huse; by left).
    destruct Hdat as (D1 & D2 & D3). rewrite Hk4 by (by left). rewrite Hd by done. apply Hk. by left.
  - intros k Hk0 Hk1. simpl in *. assert (Hmin : 0 <= k * W) by nia. pose proof segment_base as Eb. pose proof (hk_space _ _ _ _ Hok) as _.
    assert (Htot : b_size b <= total (b :: mn)).
    { destruct (so_blocks _ _ _ Hs a _ Ha) as (_ & Hz & _). destruct (sized_total mn) as [? _]; [intros d Hd'; apply Hz; by right|]. simpl. lia. }
    rewrite Hk4 by (left; exists (Blk x m false); split; [apply Huse; by right|split; [done|simpl; lia]]).
    replace (x + HDR + k * W) with (a' + (k + 4) * W) by (unfold x; lia). rewrite Hcopy by (simpl in Htot |- *; lia).
    replace (b_at b + HDR + k * W) with (a + (k + 4) * W) by lia. apply Hk. left. exists b. split; [apply Hlive|]. split; [apply Hlive|]. lia.
Qed.

Lemma grow_ok n ts sz a' h2 : ts mod 8 = 0 -> MIN <= ts -> n + HDR <= ts -> sz mod 8 = 0 -> SEG + HDR + ts <= sz < 2 ^ N -> total (b :: mn) <= ts ->
  ZEND_MM_STORAGE_REALLOC a sz h1 = Some (Some (a', h2)) -> size_t (real_size h1 + sz - seg_len (b :: mn)) <= limit h ->
  exists h3 h4 m, reopen_segment a' a sz (b_at b) h2 = Some (a' + SEG, h3)
    /\ split_block (a' + SEG) (segment_room sz) ts (fun b _ => zend_mm_add_to_rest_list b) h3 = Some (h4, m)
    /\ forall c, resized base h G C b n (ZEND_MM_DATA_OF (a' + SEG)) (count_used c h4).
Proof.
  intros Hm Hmin Hn Hsz Hlt Htot Hre Hlim. pose proof consts as Co.
  assert (Hst1 : state_ok h1 G C) by (eapply state_move; [apply Hok|apply Hloose|done|apply Hok|exact Hk|by apply others_fixed|done]).
  assert (Hlen : seg_len (b :: mn) <= sz) by (unfold seg_len; lia).
  destruct (reopen_memory h1 G F Ls (addrs mn) C a (b :: mn) sz a' h2) as (h3 & s1 & s2 & E3 & Hro); try done; [apply segment_free|apply segment_uncached|lia|].
  destruct (reopened_ok h1 G F Ls (addrs mn) C a (b :: mn) sz a' h2) with (h2 := h3) (s1 := s1) (s2 := s2) as (Hhole & Hst3 & Hd3 & Hre3); try done; [apply segment_free|apply segment_uncached|lia|].
  set (x := a' + SEG) in *. set (room := sz - SEG - HDR) in *. set (G' := <[a' := [Blk x room false]]> (delete a G)) in *.
  assert (Hnone : delete a G !! a' = None).
  { destruct (reopen_place h1 G F Ls (addrs mn) C a (b :: mn) sz a' h2) as (_ & _ & _ & _ & Hnone & _); try done; lia. }
  destruct (cut_block_ok base h3 G' a' [] [Blk x room false] [] F Ls Hhole ts (fun b _ => zend_mm_add_to_rest_list b) Hm) as (h4 & m & m1 & E4 & Hmm & Hlaid & Hm1).
  { simpl. unfold room. lia. } { apply adds_rest. }
  simpl total in E4. rewrite !Z.add_0_r in E4. fold x in E4. exists h3, h4, m. split; [by rewrite segment_base|]. split.
  { unfold segment_room. fold room. by rewrite size_t_small by (unfold room; lia). }
  intros c. destruct (count_used_fields c h4) as (F1 & F2 & F3 & F4 & F5 & F6 & F7). pose proof (ho_space _ _ _ _ _ _ _ _ _ Hhole) as Hs3.
  assert (Hub : used_block base h3 h4 G' (<[a' := [] ++ m1 ++ []]> G') C x m).
  { pose proof (split_used base h3 h4 G' a' [] [Blk x room false] m1 [] F Ls C m Hhole Hst3) as Hsu. cbv zeta in Hsu. simpl total in Hsu. rewrite !Z.add_0_r in Hsu. fold x in Hsu.
    apply Hsu; try done; [by intros d ->%list_elem_of_singleton|by apply (place_uncached a' room (mem h3))|].
    destruct Hm1 as [[E1 E2]|E1]; [left|right]; simpl total in *; rewrite !Z.add_0_r in *; fold x in E1; [by split|done]. }
  pose proof (ro_fields _ _ _ _ _ _ _ _ _ _ Hro) as (_ & _ & _ & _ & _ & Eu).
  eapply (segment_resized h3 (count_used c h4) a' room); [exact Hs3|exact Hnone|by eapply used_block_eq|exact Hd3| |exact Eu| |lia].
  - intros k Hk0 Hk1 Hk2. apply (ro_copied _ _ _ _ _ _ _ _ _ _ Hro); [done|done|]. unfold seg_len. lia.
  - assert (Hs3r : 0 <= real_size h3 < 2 ^ N) by (by eapply state_sum). rewrite Hre3 in Hs3r |- *.
    replace (real_size h1 + sz - seg_len (b :: mn)) with (real_size h1 + (sz - seg_len (b :: mn))) in Hlim by lia. rewrite size_t_small in Hlim by done. lia.
Qed.

Lemma grow_segment_ok n ts : reserve_ok h G C -> ts mod 8 = 0 -> MIN <= ts < 2 ^ N -> n + HDR <= ts -> total (b :: mn) <= ts ->
  let r := grow_segment (b_at b) (b_at b + b_size b) (b_size b) ts h1 in
  (exists x, r = Some x /\ realloc_result h G C b n x)
  \/ mn <> [] /\ refuses a ts h1 /\ (reserve h <> ZEND_MM_DATA_OF (b_at b) -> exists h', r = Some (Bailout h') /\ left_torn h G C h').
Proof.
  intros Hr Hm Hts Hn Htot r. pose proof consts as Co. pose proof Ho as Ho'. unfold others in Ho'. injection Ho' as O1 O2 O3 O4 O5 O6 O7 O8 O9 O10 O11 O12 O13 O14 O15.
  assert (Hst1 : state_ok h1 G C) by (eapply state_move; [apply Hok|apply Hloose|done|apply Hok|exact Hk|by apply others_fixed|done]).
  assert (Hgive : forall h2, heap_ok h2 G C -> kept G h h2 -> others h2 = others h -> exists h', (h ← zend_mm_free_cache h2; zend_mm_safe_error h) = Some (Bailout h') /\ gave_up base h G C h').
  { intros h2 Hok2 Hk2 Ho2. pose proof Ho2 as Ho3. unfold others in Ho3. injection Ho3 as P1 P2 P3 P4 P5 P6 P7 P8 P9 P10 P11 P12 P13 P14 P15.
    destruct (give_up_ok base h2 G C Hok2) as (h' & E & Hg); [unfold reserve_ok, AllocEmalloc.reserve_ok in *; by rewrite P12|]. exists h'. split; [done|]. by apply (gave_up_trans h h2). }
  destruct (st_block_size _ _ _ Hst1) as (k & Hk' & Ek). destruct (segment_size_ok h1 k ts Ek Hk' Hts) as (S1 & S2 & S3).
  unfold refuses, r, grow_segment. destruct (segment_size ts h1) as [sz keep]. simpl fst in *. simpl in S1, S2, S3. cbv zeta. pose proof segment_base as Eb.
  replace (b_at b - SEG) with a by lia. rewrite (st_seg_size _ _ _ Hst1 a _ Ha : load (seg_size a) h1 = _). cbn [mbind option_bind].
  destruct ((sz <? ts) || (limit h1 <? size_t (real_size h1 + sz - seg_len (b :: mn)))) eqn:Eg.
  - destruct put_back_ok as (h2 & E & Hok2 & Hk2 & Ho2). apply bind_Some in E as (nf & E1 & E2). rewrite E1. cbn [mbind option_bind]. rewrite E2. cbn [mbind option_bind].
    destruct (Hgive h2 Hok2 Hk2 Ho2) as (h' & E & Hg). rewrite E. left. by eexists.
  - apply orb_false_iff in Eg as [G1%Z.ltb_ge G2%Z.ltb_ge]. destruct (ZEND_MM_STORAGE_REALLOC a sz h1) as [[[a' h2]|]|] eqn:Ea; cbn [mbind option_bind].
    + destruct (grow_ok n ts sz a' h2 Hm ltac:(lia) Hn S2 ltac:(lia) Htot Ea) as (h3 & h4 & m & E3 & E4 & Hres); [by rewrite <- O8|].
      rewrite E3. cbn [mbind option_bind]. rewrite E4. cbn [mbind option_bind]. left. eexists. split; [reflexivity|]. apply Hres.
    + destruct (decide (mn = [])) as [Emn|Hne].
      * left. destruct (Hgive h1) as (h' & E & Hg); [|done|done|].
        { apply (moved_heap h); [done| |done|done]. exists F, Ls. apply blocks_loose. by rewrite Emn in Hloose. }
        unfold out_of_memory. rewrite E. by eexists.
      * right. split; [done|]. split; [|intros Hnr; by apply torn_error]. exists (seg_len (b :: mn)). split; [done|]. split; [done|]. split; [done|].
        unfold ZEND_MM_STORAGE_REALLOC in Ea. destruct (regions h1 !! a) as [old|] eqn:Eo; [|done]. cbn [mbind option_bind] in Ea.
        destruct (storage_realloc a sz h1) as [[c f]|]; [|done]. unfold drop_region in Ea. by rewrite Eo in Ea.
    + exfalso. unfold ZEND_MM_STORAGE_REALLOC in Ea. assert (Eo : regions h1 !! a = Some (seg_len (b :: mn))) by (by rewrite (st_regions _ _ _ Hst1), lookup_fmap, Ha).
      rewrite Eo in Ea. cbn [mbind option_bind] in Ea. destruct (storage_realloc a sz h1) as [[c f]|]; [|done]. unfold drop_region in Ea. by rewrite Eo in Ea.
Qed.
End Segment.

(** ** [_zend_mm_realloc_int] *)

(** The block fills its segment together with the free block behind it. *)
Definition fills_with_next (mm_block : Z) (h : mm_heap) : option bool :=
  size ← ZEND_MM_BLOCK_SIZE mm_block h;
  first ← ZEND_MM_IS_FIRST_BLOCK mm_block h;
  next_free ← ZEND_MM_IS_FREE_BLOCK (mm_block + size) h;
  if next_free : bool then
    next_size ← ZEND_MM_FREE_BLOCK_SIZE (mm_block + size) h;
    guard ← ZEND_MM_IS_GUARD_BLOCK (mm_block + size + next_size) h; Some (first && guard)
  else Some false.
(** Both are too small, that free block is taken, and then the storage manager does not make the
    segment larger. *)
Definition growth_refused (mm_block n : Z) (h : mm_heap) : Prop := fills_with_next mm_block h = Some true
  /\ exists size next_size h1, ZEND_MM_BLOCK_SIZE mm_block h = Some size /\ ZEND_MM_FREE_BLOCK_SIZE (mm_block + size) h = Some next_size
    /\ size + next_size < ZEND_MM_TRUE_SIZE n /\ zend_mm_remove_from_free_list (mm_block + size) h = Some h1
    /\ refuses (mm_block - SEG) (ZEND_MM_TRUE_SIZE n) h1.
(** The result is that of resizing the block, but when making a larger segment
    of its own and the free block behind it fails. *)
Definition realloc_spec (h : mm_heap) (G : layout) (C : list (list Z)) (b : blk) (n : Z) (r : option result) : Prop :=
  (exists x, r = Some x /\ realloc_result h G C b n x)
  \/ growth_refused (b_at b) n h /\ (reserve h <> ZEND_MM_DATA_OF (b_at b) -> exists h', r = Some (Bailout h') /\ left_torn h G C h').
Lemma realloc_done h G C b n x : realloc_result h G C b n x -> realloc_spec h G C b n (Some x).
Proof. intros Hx. left. by exists x. Qed.

Lemma grow_block_ok h G C b n : heap_ok h G C -> reserve_ok h G C -> live G C b -> 0 <= n -> n + HDR + 7 < 2 ^ N ->
  b_size b < ZEND_MM_TRUE_SIZE n ->
  realloc_spec h G C b n (grow_block (ZEND_MM_DATA_OF (b_at b)) (b_at b) (b_size b) (ZEND_MM_TRUE_SIZE n) n h).
Proof.
  intros Hok Hr Hl Hn Hlt Hbs. pose proof consts as Co. pose proof (hk_space _ _ _ _ Hok) as Hs. pose proof Hok as [(F & Ls & Hbo) Hst _ _].
  destruct (true_size_ok n) as (Hm & Hrange & Hfit & _); [lia|]. destruct (Hfit Hlt) as [Hmin Hsz]. set (ts := ZEND_MM_TRUE_SIZE n) in *.
  destruct (block_sizes base _ _ _ Hs (proj1 Hl)) as (_ & Hbm & _).
  destruct (behind_ok base h G C b (b_size b) Hok Hl ltac:(lia)) as (a & l1 & mn & l2 & nf & h1 & F1 & Ls1 & Ha & Hmn & Hl2 & R1 & R2 & R3 & Hlo & K & O & Hbt).
  pose proof (all_headed _ _ _ (bo_headers _ _ _ _ _ Hbo _ _ Ha)) as Hh.
  pose proof (first_ok base h G a l1 (mn ++ l2) b Hs Ha Hh) as Ef. change (match l1 with [] => true | _ => false end) with (is_nil l1) in Ef.
  destruct (ends_ok base h G a l1 (b :: mn) l2 Hs Hh Ha) as [_ Eg]; [done|]. rewrite <- (proj1 (read_place base h G a l1 (mn ++ l2) b Hs Ha)) in Eg. simpl total in Eg.
  destruct (move_block_ok base h G C b n Hok Hr Hl Hn Hlt Hbs) as (xm & Em & Hxm). pose proof (realloc_done _ _ _ _ _ _ Hxm) as Hmove. rewrite <- Em in Hmove.
  assert (Halone : l1 = [] -> l2 = [] -> G !! a = Some (b :: mn) /\ b_at b - SEG = a).
  { intros -> ->. rewrite app_nil_r in Ha. split; [done|]. destruct (so_blocks _ _ _ Hs a _ Ha) as (Ht & _). simpl in Ht. lia. }
  assert (Hco : forall r, realloc_spec h G C b n r <-> realloc_spec h G C b n r) by done. unfold realloc_spec at 1, growth_refused, fills_with_next in Hco.
  rewrite (live_header base h G C b Hok Hl) in Hco. cbn [mbind option_bind] in Hco. rewrite Ef in Hco. cbn [mbind option_bind] in Hco.
  rewrite R1 in Hco. cbn [mbind option_bind] in Hco.
  unfold grow_block. cbv zeta. rewrite R1. cbn [mbind option_bind]. rewrite Ef. cbn [mbind option_bind]. destruct nf.
  - assert (Hne : mn <> []) by (by apply R2). pose proof Hmn as [->|(c & -> & Hcf)]; [done|].
    assert (Ha2 : G !! a = Some ((l1 ++ [b]) ++ c :: l2)) by (by rewrite Ha, <- app_assoc).
    assert (Ec : b_at b + b_size b = b_at c).
    { destruct (so_blocks _ _ _ Hs a _ Ha) as (Ht & _). rewrite tiled_app in Ht. destruct Ht as (_ & Tb & Tc & _). lia. }
    pose proof (free_size_ok base h G a (l1 ++ [b]) l2 c Hs Ha2 (all_headed _ _ _ (bo_headers _ _ _ _ _ Hbo _ _ Ha2)) Hcf) as Efs. rewrite Ec in Hco, R3 |- *.
    rewrite Efs in Hco, R3. cbn [mbind option_bind] in Hco, R3. apply bind_Some in R3 as (h1' & R3 & R4). injection R4 as _ ->.
    rewrite (linkage_ok base h G a (l1 ++ [b]) l2 c Hs Ha2 (all_headed _ _ _ (bo_headers _ _ _ _ _ Hbo _ _ Ha2)) Hcf). cbn [mbind option_bind].
    rewrite Efs. cbn [mbind option_bind]. simpl in Hbt.
    assert (Hcs : 0 <= b_size c) by (pose proof (block_sizes base _ G c Hs ltac:(exists a, (l1 ++ (b :: [c]) ++ l2); split; [done|set_solver +])) as (_ & ? & _); lia).
    rewrite size_t_small by lia. destruct (Z.leb_spec ts (b_size b + b_size c)) as [Hle|Hgt].
    + destruct (grow_in_place_ok base h G C b ts n a l1 c l2 Hok Hl Ha Hcf Hm ltac:(lia) ltac:(lia)) as (h' & E & Hres). rewrite Ec in E. rewrite E. by apply realloc_done.
    + simpl total in Eg. rewrite Z.add_0_r in Eg. replace (b_at c + b_size c) with (b_at b + (b_size b + b_size c)) in * by lia. rewrite Eg in Hco |- *.
      cbn [mbind option_bind] in Hco |- *. destruct (is_nil l1 && is_nil l2) eqn:Enil; [|exact Hmove]. rewrite R3. cbn [mbind option_bind]. rewrite <- Ec.
      apply andb_true_iff in Enil as [N1 N2]. destruct l1; [|done]. destruct l2; [|done]. destruct (Halone eq_refl eq_refl) as [Ha1 Ea]. 
      apply Hco. rewrite Ea. destruct (grow_segment_ok h h1 G C b a [c] F1 Ls1 Hok Hl Ha1 Hmn Hlo K O n ts Hr Hm) as [?|(_ & Href & Hgave)]; [lia|lia|simpl; lia|by left|right].
      split; [|done]. split; [done|]. exists (b_size b), (b_size c), h1. rewrite Ec. done.
  - assert (mn = []) as -> by (destruct mn; [done|]; assert (false = true) by (by apply R2); done). injection R3 as _ <-. simpl total in Eg. rewrite Z.add_0_r in Eg.
    rewrite Eg. cbn [mbind option_bind]. destruct (is_nil l1 && is_nil l2) eqn:Enil; [|exact Hmove].
    apply andb_true_iff in Enil as [N1 N2]. destruct l1; [|done]. destruct l2; [|done]. destruct (Halone eq_refl eq_refl) as [Ha1 Ea].
    destruct (grow_segment_ok h h G C b a [] F1 Ls1 Hok Hl Ha1 Hmn Hlo K O n ts Hr Hm) as [?|[? _]]; [lia|lia|simpl; lia|by left|done].
Qed.

Lemma realloc_int_ok h G C b n : heap_ok h G C -> reserve_ok h G C -> live G C b -> 0 <= n < 2 ^ N ->
  realloc_spec h G C b n (_zend_mm_realloc_int (ZEND_MM_DATA_OF (b_at b)) n h).
Proof.
  intros Hok Hr Hl Hn. pose proof consts as Co. pose proof word_pow as Hp. pose proof (hk_space _ _ _ _ Hok) as Hs.
  destruct (block_sizes base _ _ _ Hs (proj1 Hl)) as (Hbm & Hbmin & Hpos). unfold _zend_mm_realloc_int, NULL.
  rewrite (proj2 (Z.eqb_neq (ZEND_MM_DATA_OF (b_at b)) 0)) by (unfold ZEND_MM_DATA_OF; lia). cbv zeta.
  replace (ZEND_MM_HEADER_OF (ZEND_MM_DATA_OF (b_at b))) with (b_at b) by (unfold ZEND_MM_HEADER_OF, ZEND_MM_DATA_OF; lia).
  rewrite (live_header base h G C b Hok Hl). cbn [mbind option_bind].
  destruct (true_size_ok n Hn) as (Hm & Hrange & Hfit & Hover). destruct (Z.ltb_spec (ZEND_MM_TRUE_SIZE n) n) as [Hlt|Hge].
  - destruct (safe_error_ok base h G C Hok Hr) as (h' & E & Hg). unfold out_of_memory. rewrite E. by apply realloc_done.
  - assert (Hno : n + HDR + 7 < 2 ^ N) by (destruct (Z.lt_ge_cases (n + HDR + 7) (2 ^ N)); [done|lia]). destruct (Hfit Hno) as [Hmin Hsz].
    destruct (Z.leb_spec (ZEND_MM_TRUE_SIZE n) (b_size b)) as [Hle|Hgt].
    + destruct (shrink_block_ok base h G C b (ZEND_MM_TRUE_SIZE n) n Hok Hl Hm ltac:(lia) ltac:(lia)) as (h' & E & Hres). rewrite E. by apply realloc_done.
    + pose proof (grow_block_ok h G C b n Hok Hr Hl ltac:(lia) Hno Hgt) as Hgrow.
      destruct (ZEND_MM_SMALL_SIZE (ZEND_MM_TRUE_SIZE n)) eqn:Esm.
      * destruct (cache_index _ Hm Hmin Esm) as [Hi _]. pose proof Hok as [_ Hst _ Hc].
        destruct (lookup_lt_is_Some_2 C (Z.to_nat (ZEND_MM_BUCKET_INDEX (ZEND_MM_TRUE_SIZE n)))) as [l El]; [by rewrite (st_length _ _ _ Hst)|].
        rewrite Hc, list_lookup_fmap, El. cbn [fmap option_fmap option_map mbind option_bind]. cbv beta. destruct l as [|x l]; simpl first.
        -- unfold NULL at 1. rewrite Z.eqb_refl. exact Hgrow.
        -- destruct (cache_take_ok base h G C _ x l 0 Hok El) as (_ & Hx & _); [lia|]. rewrite (proj2 (Z.eqb_neq x 0)) by done. simpl negb. cbv iota.
           destruct (swap_ok base h G C b (ZEND_MM_TRUE_SIZE n) n _ x l Hok Hl Hm Hmin Esm Hgt ltac:(lia) eq_refl El) as (p' & h' & E & Hres). rewrite E. by apply realloc_done.
      * cbn [mbind option_bind]. rewrite Z.eqb_refl. exact Hgrow.
Qed.
End Grow.
