(* ===== verification/AllocStart.v ===== *)
(** * AllocStart: [zend_mm_startup_ex] makes a heap *)
From S2P Require Import Prelude ZendAlloc AllocBits AllocRing AllocTrie AllocCut AllocRemove AllocSearch AllocFree AllocTake AllocPick AllocMap AllocLayout AllocHeap AllocSplit AllocState AllocRelease AllocEfree AllocEmalloc.

Section Start.
Context `{SizeT}.
Abbreviation N := ZEND_MM_NUM_BUCKETS.
Abbreviation MIN := ZEND_MM_ALIGNED_MIN_HEADER_SIZE.
Abbreviation layout := (gmap Z (list blk)).
Variable base : Z.

(** The list heads [i], ..., [N - 1] are at these words. *)
Definition head_word (i z : Z) : Prop :=
  exists j, i <= j < N /\ (z = base + 2 * j * W \/ z = base + (2 * j + 1) * W \/ z = base + (2 * N + j) * W).
Definition heads_set (m : gmap Z Z) (i : Z) : Prop := forall j, i <= j < N ->
  m !! (base + 2 * j * W) = Some (head base j) /\ m !! (base + (2 * j + 1) * W) = Some (head base j) /\ m !! (base + (2 * N + j) * W) = Some NULL.

Lemma store_some a v h : is_Some (mem h !! a) -> store a v h = Some (set_mem (<[a := v]> (mem h)) h).
Proof. intros [x E]. unfold store. by rewrite E. Qed.
Lemma words_array m k : words m base arrays_size -> 0 <= k < 3 * N + 2 -> is_Some (m !! (base + k * W)).
Proof. intros Hw Hk. pose proof consts as C. apply Hw; [lia|]. unfold arrays_size. apply Z.mul_le_mono_nonneg_r; lia. Qed.
Lemma words_insert (m : gmap Z Z) a n x v : words m a n -> words (<[x := v]> m) a n.
Proof. intros Hw k Hk Hk'. destruct (Hw k Hk Hk'). rewrite lookup_insert. case_decide; by eexists. Qed.
Lemma index_inj j k : base + j * W = base + k * W -> j = k.
Proof. pose proof consts as ([E|E] & _); rewrite E; lia. Qed.

Lemma init_buckets_ok : forall n i h, buckets h = base -> 0 <= i -> i + Z.of_nat n = N -> words (mem h) base arrays_size ->
  exists h', init_buckets n i (head base i) h = Some h' /\ heads_set (mem h') i /\ (forall z, ~ head_word i z -> mem h' !! z = mem h !! z)
    /\ h' = set_mem (mem h') h /\ words (mem h') base arrays_size.
Proof.
  induction n as [|n IH]; intros i h Eb Hi Hn Hw.
  - exists h. split; [done|]. split; [intros j; lia|]. split; [done|]. split; [by destruct h|done].
  - pose proof consts as Co. cbn [init_buckets]. unfold f_next_free, f_prev_free, large_free_buckets, head.
    replace (base + 2 * i * W - 2 * W + 3 * W) with (base + (2 * i + 1) * W) by lia. replace (base + 2 * i * W - 2 * W + 2 * W) with (base + (2 * i) * W) by lia.
    rewrite store_some by (apply words_array; [done|lia]). cbn [mbind option_bind].
    rewrite store_some by (apply words_array; [by apply words_insert|lia]). cbn [mbind option_bind]. cbn [buckets set_mem].
    rewrite Eb. replace (base + 2 * N * W + i * W) with (base + (2 * N + i) * W) by lia.
    rewrite store_some by (apply words_array; [by do 2 apply words_insert|lia]). cbn [mbind option_bind]. cbn [mem set_mem].
    set (h1 := set_mem _ _). destruct (IH (i + 1) h1) as (h' & E & Hs & Hk & Eh & Hw'); [done|lia|lia|by do 3 apply words_insert|].
    replace (base + 2 * i * W - 2 * W + W * 2) with (head base (i + 1)) by (unfold head; lia). rewrite E. exists h'. split; [done|].
    assert (Hnot : forall k, 0 <= k < 3 * N -> (k = 2 * i \/ k = 2 * i + 1 \/ k = 2 * N + i) -> ~ head_word (i + 1) (base + k * W)).
    { intros k Hk1 Hk2 (j & Hj & [Ez|[Ez|Ez]]); apply index_inj in Ez; lia. }
    split; [|split; [|split; [by rewrite Eh|done]]].
    + intros j Hj. destruct (decide (j = i)) as [->|Hne]; [|apply Hs; lia].
      rewrite (Hk (base + (2 * i) * W)), (Hk (base + (2 * i + 1) * W)), (Hk (base + (2 * N + i) * W)) by (apply Hnot; lia). simpl.
      rewrite lookup_insert_eq. rewrite (lookup_insert_ne _ (base + (2 * N + i) * W)) by (intros Ez%index_inj; lia). rewrite lookup_insert_eq.
      rewrite (lookup_insert_ne _ (base + (2 * N + i) * W)) by (intros Ez%index_inj; lia). rewrite lookup_insert_ne by (intros Ez%index_inj; lia).
      rewrite lookup_insert_eq. done.
    + intros z Hz. rewrite Hk; [simpl|].
      * rewrite !lookup_insert_ne; [done|intros <-..]; apply Hz; exists i; (split; [lia|tauto]).
      * intros (j & Hj & Hzj). apply Hz. exists j. split; [lia|done].
Qed.

Definition no_lists : lists := Lists (fun _ => []) (fun _ => Leaf) [].

(** [zend_mm_init]: no block is free. *)
Lemma zend_mm_init_ok h : buckets h = base -> 1 < base -> words (mem h) base arrays_size ->
  exists h', zend_mm_init h = Some h' /\ free_in base ∅ h' no_lists /\ words (mem h') base arrays_size
    /\ (forall z, ~ (base <= z < base + arrays_size) -> mem h' !! z = mem h !! z)
    /\ h' = MmHeap (mem h') (regions h) (buckets h) 0 0 (block_size h) (compact_size h) (segments_list h) (real_size h) (real_peak h) (limit h)
        (size h) (peak h) (reserve_size h) (reserve h) (overflow h) 0 (replicate (Z.to_nat N) NULL) 0.
Proof.
  intros Eb Hbase Hw. pose proof consts as Co. unfold zend_mm_init. set (h0 := set_cache _ _).
  destruct (init_buckets_ok (Z.to_nat N) 0 h0) as (h1 & E1 & Hs1 & Hk1 & Eh1 & Hw1); [done|lia|lia|done|].
  assert (Ehead : ZEND_MM_SMALL_FREE_BUCKET h0 0 = head base 0) by (unfold ZEND_MM_SMALL_FREE_BUCKET, free_buckets, head; change (buckets h0) with (buckets h); rewrite Eb; lia).
  rewrite Ehead, E1. cbn [mbind option_bind]. assert (Eb1 : buckets h1 = base) by (by rewrite Eh1).
  assert (Er : forall h, buckets h = base -> ZEND_MM_REST_BUCKET h = head_rest base /\ rest_buckets h 1 = base + (3 * N + 1) * W /\ rest_buckets h 0 = base + (3 * N) * W).
  { intros h2 E2. unfold ZEND_MM_REST_BUCKET, rest_buckets, head_rest. rewrite E2. lia. }
  destruct (Er h1 Eb1) as (R1 & R2 & _). rewrite R1, R2. rewrite store_some by (apply words_array; [done|lia]). cbn [mbind option_bind].
  set (h2 := set_mem _ h1). destruct (Er h2 Eb1) as (Q1 & _ & Q2). rewrite Q1, Q2. rewrite store_some by (apply words_array; [by apply words_insert|lia]). cbn [mbind option_bind].
  eexists. split; [reflexivity|]. set (h' := set_rest_count _ _).
  assert (Em : mem h' = <[base + (3 * N) * W := head_rest base]> (<[base + (3 * N + 1) * W := head_rest base]> (mem h1))) by done.
  assert (Hw' : words (mem h') base arrays_size) by (rewrite Em; by do 2 apply words_insert).
  assert (Hheads : heads_set (mem h') 0).
  { intros j Hj. destruct (Hs1 j Hj) as (V1 & V2 & V3). rewrite Em.
    replace (base + 2 * j * W) with (base + (2 * j) * W) in * by lia.
    rewrite !lookup_insert_ne by (intros Ez%index_inj; lia). done. }
  assert (Hrest : mem h' !! (base + (3 * N) * W) = Some (head_rest base) /\ mem h' !! (base + (3 * N + 1) * W) = Some (head_rest base)).
  { rewrite Em. split; [apply lookup_insert_eq|]. rewrite lookup_insert_ne by (intros Ez%index_inj; lia). apply lookup_insert_eq. }
  assert (Hmap : map_ok base ∅ (mem h')) by (split; [done|done|intros x s Hx|intros x s y t Hx|intros x s Hx]; by rewrite lookup_empty in Hx).
  split; [|split; [done|split; [|by unfold h', h2; rewrite Eh1]]].
  - split; [done|]. split.
    + split.
      * done.
      * by apply valid_allocated.
      * intros x [(i & _ & Hx)|[(i & _ & Hx)|Hx]]; by apply not_elem_of_nil in Hx.
      * intros i Hi. destruct (Hheads i) as (V1 & V2 & _); [lia|]. split; [|split; [constructor|intros x Hx; by apply not_elem_of_nil in Hx]].
        unfold ring, view, at_, head in *. simpl. split_and!; try done; [rewrite <- V2|rewrite <- V1]; f_equal; unfold off; lia.
      * intros i Hi. destruct (Hheads i) as (_ & _ & V3); [lia|]. split; [|split; [done|split; [constructor|intros x Hx; by apply not_elem_of_nil in Hx]]].
        unfold view, at_, root_slot. simpl. rewrite <- V3. f_equal. unfold off. lia.
      * destruct Hrest as [V1 V2]. split; [|split; [constructor|intros x Hx; by apply not_elem_of_nil in Hx]].
        unfold ring, view, at_, head_rest in *. simpl. split_and!; try done; [rewrite <- V2|rewrite <- V1]; f_equal; unfold off; lia.
      * intros x Hx. by apply not_elem_of_nil in Hx.
      * assert (Ez : free_bitmap h' = 0) by (unfold h', h2; by rewrite Eh1). pose proof word_pow. rewrite Ez. split; [lia|]. intros i _ Hx. by rewrite Z.bits_0 in Hx.
      * assert (Ez : large_free_bitmap h' = 0) by (unfold h', h2; by rewrite Eh1). pose proof word_pow. rewrite Ez. split; [lia|]. intros i _. by rewrite Z.bits_0.
      * done.
    + intros x. rewrite lookup_empty. split; [|by intros [? ?]]. intros [(i & _ & Hx)|[(i & _ & Hx)|Hx]]; by apply not_elem_of_nil in Hx.
  - intros z Hz. rewrite Em. assert (Hz' : forall k, 0 <= k < 3 * N + 2 -> z <> base + k * W).
    { intros k Hk ->. apply Hz. unfold arrays_size. assert ((k + 1) * W <= (3 * N + 2) * W) by (apply Z.mul_le_mono_nonneg_r; lia). split; [|lia].
      assert (0 <= k * W) by (apply Z.mul_nonneg_nonneg; lia). lia. }
    rewrite !lookup_insert_ne by (intros Ez; symmetry in Ez; revert Ez; apply Hz'; lia).
    rewrite Hk1; [done|]. intros (j & Hj & [Ez|[Ez|Ez]]); [apply (Hz' (2 * j))|apply (Hz' (2 * j + 1))|apply (Hz' (2 * N + j))]; lia.
Qed.

Lemma no_segments_ok m : 1 < base -> words m base arrays_size -> space_ok base m ∅.
Proof.
  intros Hb Hw. split; try done.
Qed.
Lemma fresh_heap_ok h : 1 < base -> words (mem h) base arrays_size -> free_in base ∅ h no_lists -> regions h = ∅ -> segments_list h = NULL ->
  real_size h = 0 -> cache h = replicate (Z.to_nat N) NULL -> (exists k, 3 <= k < N /\ block_size h = 2 ^ k) ->
  heap_ok base h ∅ (replicate (Z.to_nat N) []) /\ forall c, ~ live ∅ (replicate (Z.to_nat N) []) c.
Proof.
  intros Hb Hw Hf Hr Hs Hre Hc Hk. split.
  - split.
    + exists ∅, no_lists. split; [by apply no_segments_ok|done|done|]. intros x s. rewrite lookup_empty. split; [done|]. by intros (a & l & Ha & _).
    + split; try done; try (intros a l Ha; by rewrite lookup_empty in Ha).
      * exists []. split_and!; try done; [constructor|]. intros a. rewrite lookup_empty. split; [intros Ha; by apply not_elem_of_nil in Ha|by intros [? ?]].
      * by rewrite Hre, Hr.
      * by rewrite length_replicate.
      * intros i l Hi. apply lookup_replicate_1 in Hi as [-> _]. split; [constructor|]. split; [done|]. intros x Hx. by apply not_elem_of_nil in Hx.
    + intros a l Ha. by rewrite lookup_empty in Ha.
    + by rewrite Hc, fmap_replicate.
  - intros c ((a & l & Ha & _) & _). by rewrite lookup_empty in Ha.
Qed.
End Start.

(** ** [zend_mm_startup_ex] *)
Section Startup.
Context `{SizeT} {ST : Storage} {STO : StorageOk}.
Abbreviation N := ZEND_MM_NUM_BUCKETS.
Abbreviation HDR := ZEND_MM_ALIGNED_HEADER_SIZE.
Variable base : Z.

Lemma power_of_two s : 8 <= s < 2 ^ N -> exists low high, zend_mm_low_bit s = Some low /\ zend_mm_high_bit s = Some high
  /\ (low = high <-> exists k, 3 <= k < N /\ s = 2 ^ k).
Proof.
  intros Hs. destruct (low_bit_ok s) as (low & E1 & (L1 & L2 & L3) & L4); [lia|]. destruct (high_bit_ok s) as (E2 & Hh); [lia|].
  exists low, (Z.log2 s). split; [done|]. split; [done|]. pose proof (Z.log2_spec s ltac:(lia)) as [G1 G2]. split.
  - intros ->. exists (Z.log2 s). assert (Es : s = 2 ^ Z.log2 s).
    { apply Z.bits_inj'. intros i Hi. rewrite Z.pow2_bits_eqb by lia. destruct (Z.eqb_spec (Z.log2 s) i) as [<-|Hne]; [done|].
      destruct (Z.lt_ge_cases i (Z.log2 s)); [by apply L3|]. apply Z.bits_above_log2; lia. }
    split; [|done]. split; [|lia]. change 3 with (Z.log2 8). apply Z.log2_le_mono. lia.
  - intros (k & Hk & Es). rewrite Es, Z.log2_pow2 by lia. rewrite Es in L2. rewrite Z.pow2_bits_eqb in L2 by lia. by apply Z.eqb_eq in L2.
Qed.

(** A heap in which nothing is allocated but the reserve. *)
Definition started (n : Z) (h : mm_heap) : Prop :=
  exists G C, heap_ok base h G C /\ reserve_ok h G C /\ real_size h <= limit h /\
    if 0 <? n then exists b, reserve h = ZEND_MM_DATA_OF (b_at b) /\ n + HDR <= b_size b /\ forall c, live G C c <-> c = b
    else reserve h = NULL /\ forall c, ~ live G C c.

Lemma startup_ok bsize n junk : 1 < base -> 8 <= bsize < 2 ^ N -> 0 <= n < 2 ^ N ->
  exists r, zend_mm_startup_ex base bsize n junk = Some r /\
    match r with
    | None => forall k, bsize <> 2 ^ k
    | Some (Returned p h) => p = base /\ (exists k, bsize = 2 ^ k) /\ started n h
    | Some (Bailout _) => 0 < n /\ exists k, bsize = 2 ^ k
    end.
Proof.
  intros Hb Hs Hn. pose proof consts as Co. pose proof word_pow as Hp. unfold zend_mm_startup_ex.
  destruct (power_of_two bsize Hs) as (low & high & E1 & E2 & Hpow). rewrite E1, E2. cbn [mbind option_bind].
  destruct (Z.eqb_spec low high) as [E|E]; simpl negb; cbv iota.
  2: { exists None. split; [done|]. intros k Ek. apply E, Hpow. exists k. split; [|done].
       assert (0 <= k) by (destruct (Z.lt_ge_cases k 0); [rewrite Z.pow_neg_r in Ek by done; lia|done]).
       split; [|apply (Z.pow_lt_mono_r_iff 2); lia]. apply (Z.pow_le_mono_r_iff 2); [lia|done|]. change (2 ^ 3) with 8. lia. }
  apply Hpow in E as (k & Hk & Ek). set (h0 := MmHeap _ _ _ _ _ _ _ _ _ _ _ _ _ _ _ _ _ _ _).
  assert (Hw0 : words (mem h0) base arrays_size) by (intros j Hj Hj'; apply region_in; [done|exact Hj']).
  destruct (zend_mm_init_ok base h0 eq_refl Hb Hw0) as (h1 & Ei & Hf & Hw1 & _ & Eh). rewrite Ei. cbn [mbind option_bind].
  destruct (fresh_heap_ok base h1 Hb Hw1 Hf) as [Hok Hno]; [by rewrite Eh..|rewrite Eh; by exists k|].
  assert (Hlim : limit h1 = 2 ^ (N - 2) /\ real_size h1 = 0 /\ reserve h1 = NULL) by (rewrite Eh; simpl; by rewrite Z.shiftl_1_l).
  destruct Hlim as (L1 & L2 & L3). assert (0 < 2 ^ (N - 2)) by (apply Z.pow_pos_nonneg; lia).
  destruct (Z.ltb_spec 0 n) as [Hpos|Hz].
  - destruct (alloc_int_ok base h1 _ _ n Hok (or_introl L3) Hn) as (r & Er & Hr). rewrite Er. cbn [mbind option_bind]. eexists. split; [reflexivity|].
    destruct r as [p h2|h2]; [|split; [done|by exists k]]. split; [done|]. split; [by exists k|].
    destruct Hr as (G' & C' & b & Hok' & Ep & Hsz & _ & Hl & _ & Hres & Hlim & Hre).
    assert (Hl' : forall c, live G' C' c <-> c = b) by (intros c; rewrite Hl; split; [intros [Hc|?]; [by apply Hno in Hc|done]|auto]).
    exists G', C'. split; [by eapply heap_ok_eq|]. split; [right; exists b; by rewrite Hl'|]. simpl. split; [lia|].
    rewrite (proj2 (Z.ltb_lt 0 n)) by done. exists b. by split_and!.
  - eexists. split; [reflexivity|]. split; [done|]. split; [by exists k|]. eexists _, _. split; [exact Hok|]. split; [by left|]. split; [lia|].
    rewrite (proj2 (Z.ltb_ge 0 n)) by done. done.
Qed.
End Startup.
