(* ===== verification/AllocThms.v ===== *)
(** * AllocThms: the memory manager is an allocator

    The promise of [emalloc] and [efree]: a finite map from the pointers the
    program has to the sizes of what they point to.  [holds] relates a heap to
    it; the operations of the heap are those of the map, and no operation
    changes what the program keeps in its memory. *)
From S2P Require Import Prelude ZendAlloc AllocBits AllocRing AllocTrie AllocCut AllocRemove AllocSearch AllocFree AllocTake AllocPick AllocMap AllocLayout AllocHeap AllocSplit AllocState AllocRelease AllocEfree AllocEmalloc AllocRealloc AllocGrow AllocStart.

Section Thms.
Context `{SizeT} {ST : Storage} {STO : StorageOk}.
Abbreviation N := ZEND_MM_NUM_BUCKETS.
Abbreviation MIN := ZEND_MM_ALIGNED_MIN_HEADER_SIZE.
Abbreviation HDR := ZEND_MM_ALIGNED_HEADER_SIZE.
Abbreviation SEG := ZEND_MM_ALIGNED_SEGMENT_SIZE.

(** The memory at [base] is managed, and the program has the pointers [M]. *)
Definition holds (base : Z) (h : mm_heap) (M : gmap Z Z) : Prop :=
  exists G C, heap_ok base h G C /\ forall p s, M !! p = Some s <-> live G C (Blk (p - HDR) (s + HDR) false).
(** What is behind the pointers of [M] has not changed. *)
Definition contents_kept (M : gmap Z Z) (h h' : mm_heap) : Prop :=
  forall p s z, M !! p = Some s -> p <= z < p + s -> mem h' !! z = mem h !! z.
Definition reserved (h : mm_heap) (M : gmap Z Z) : Prop := reserve h = NULL \/ is_Some (M !! reserve h).

Lemma live_pointer base h G C b : heap_ok base h G C -> live G C b -> exists p s, b = Blk (p - HDR) (s + HDR) false /\ p = ZEND_MM_DATA_OF (b_at b).
Proof.
  intros Hok (_ & Hu & _). exists (ZEND_MM_DATA_OF (b_at b)), (b_size b - HDR). split; [|done]. unfold ZEND_MM_DATA_OF.
  replace (b_at b + HDR - HDR) with (b_at b) by lia. replace (b_size b - HDR + HDR) with (b_size b) by lia. by rewrite blk_eta.
Qed.
Lemma held_size base h M p s : holds base h M -> M !! p = Some s -> HDR < p /\ HDR <= s /\ p + s < 2 ^ N.
Proof.
  intros (G & C & Hok & HM) Hp. apply HM in Hp as ((a & l & Ha & Hb) & _). pose proof (hk_space _ _ _ _ Hok) as Hs.
  destruct (block_place base _ G a l _ Hs Ha Hb) as (P1 & P2 & _ & _ & P3). destruct (so_seg _ _ _ Hs a l Ha) as (? & _).
  pose proof (st_room _ _ _ (hk_state _ _ _ _ Hok) a l Ha). pose proof consts. simpl in *. lia.
Qed.
Lemma held_apart base h M p s q t : holds base h M -> M !! p = Some s -> M !! q = Some t -> p = q \/ apart p s q t.
Proof.
  intros (G & C & Hok & HM) Hp Hq. apply HM in Hp as (Hp & _), Hq as (Hq & _).
  destruct (blocks_apart base _ G _ _ (hk_space _ _ _ _ Hok) Hp Hq) as [E|Hap]; [injection E; left; lia|right]. pose proof consts. unfold apart in *. simpl in Hap. lia.
Qed.
Lemma contents_live base h G C M h' : heap_ok base h G C -> (forall p s, M !! p = Some s -> live G C (Blk (p - HDR) (s + HDR) false)) ->
  (forall z, live_data G C z -> mem h' !! z = mem h !! z) -> contents_kept M h h'.
Proof.
  intros _ HM Hk p s z Hp Hz. apply Hk. exists (Blk (p - HDR) (s + HDR) false). split; [by apply HM|]. pose proof consts. simpl. lia.
Qed.
(** A block more, or less, is a pointer more, or less. *)
Lemma pointers_insert (L L' : blk -> Prop) (M : gmap Z Z) b : b_free b = false -> (forall p s, M !! p = Some s <-> L (Blk (p - HDR) (s + HDR) false)) -> ~ L b ->
  (forall c, L c -> b_at c = b_at b -> c = b) ->
  (forall c, L' c <-> L c \/ c = b) -> let p := ZEND_MM_DATA_OF (b_at b) in let s := b_size b - HDR in
  M !! p = None /\ forall q t, <[p := s]> M !! q = Some t <-> L' (Blk (q - HDR) (t + HDR) false).
Proof.
  intros Hu HM Hn Huniq Hl p s. assert (Ep : p - HDR = b_at b /\ s + HDR = b_size b) by (unfold p, s, ZEND_MM_DATA_OF; lia). destruct Ep as [E1 E2].
  assert (Hnone : M !! p = None).
  { destruct (M !! p) as [t|] eqn:E; [|done]. apply HM in E. rewrite E1 in E. exfalso. apply Hn. by rewrite <- (Huniq _ E eq_refl). }
  split; [done|]. intros q t. rewrite Hl, lookup_insert_Some, (HM q t). split.
  - intros [[<- <-]|[_ Hq]]; [right; rewrite E1, E2; by apply blk_eta|by left].
  - intros [Hq|Hq]; [destruct (decide (p = q)) as [->|Hne]; [|by right]|].
    + apply HM in Hq. congruence.
    + left. assert (b_at b = q - HDR /\ b_size b = t + HDR) as [? ?] by (by rewrite <- Hq). unfold p, s, ZEND_MM_DATA_OF. lia.
Qed.
Lemma pointers_delete (L L' : blk -> Prop) (M : gmap Z Z) b : b_free b = false -> (forall p s, M !! p = Some s <-> L (Blk (p - HDR) (s + HDR) false)) ->
  (forall c, L c -> b_at c = b_at b -> c = b) ->
  (forall c, L' c <-> L c /\ c <> b) -> forall q t, delete (ZEND_MM_DATA_OF (b_at b)) M !! q = Some t <-> L' (Blk (q - HDR) (t + HDR) false).
Proof.
  intros Hu HM Huniq Hl q t. rewrite Hl, lookup_delete_Some, (HM q t). unfold ZEND_MM_DATA_OF. split.
  - intros [Hne Hq]. split; [done|]. intros E. apply Hne. rewrite <- E. simpl. lia.
  - intros [Hq Hne]. split; [|done]. intros E. apply Hne, Huniq; [done|]. simpl. lia.
Qed.
Lemma live_unique base h G C b c : heap_ok base h G C -> live G C c -> live G C b -> b_at c = b_at b -> c = b.
Proof. intros Hok (Hc & _) (Hb & _) E. apply (block_unique base (mem h) G); [by eapply hk_space|done..]. Qed.

Definition alloc_outcome (base : Z) (h : mm_heap) (M : gmap Z Z) (n : Z) (r : result) : Prop :=
  match r with
  | Returned p h' => exists s, n <= s /\ M !! p = None /\ holds base h' (<[p := s]> M) /\ contents_kept M h h'
      /\ reserve h' = reserve h /\ limit h' = limit h /\ real_size h' <= Z.max (real_size h) (limit h)
  | Bailout h' => exists h1, let M1 := delete (reserve h) M in holds base h1 M1 /\ reserve h1 = NULL /\ contents_kept M1 h h1
      /\ limit h1 = limit h /\ real_size h1 <= real_size h
      /\ (zend_error_noreturn (set_overflow 1 h1) = Some h' \/ h' = set_overflow 2 h1)
  end.

Definition realloc_outcome (base : Z) (h : mm_heap) (M : gmap Z Z) (p s n : Z) (r : result) : Prop :=
  match r with
  | Returned p' h' => exists s', n <= s' /\ delete p M !! p' = None /\ holds base h' (<[p' := s']> (delete p M)) /\ contents_kept (delete p M) h h'
      /\ (forall k, 0 <= k -> (k + 1) * W <= Z.min s s' -> mem h' !! (p' + k * W) = mem h !! (p + k * W))
      /\ reserve h' = reserve h /\ limit h' = limit h /\ real_size h' <= Z.max (real_size h) (limit h)
  | Bailout h' => alloc_outcome base h M n (Bailout h')
  end.
(** The storage manager has refused to make a larger segment: the error is
    reported, the reserve given up, and the program keeps what it has. *)
Definition refused_outcome (h : mm_heap) (M : gmap Z Z) (h' : mm_heap) : Prop :=
  exists h1, reserve h1 = NULL /\ contents_kept (delete (reserve h) M) h h1 /\ limit h1 = limit h /\ real_size h1 <= real_size h
    /\ (zend_error_noreturn (set_overflow 1 h1) = Some h' \/ h' = set_overflow 2 h1).
Lemma reserve_live base h G C M : heap_ok base h G C -> (forall p s, M !! p = Some s <-> live G C (Blk (p - HDR) (s + HDR) false)) -> reserved h M -> reserve_ok h G C.
Proof.
  intros Hok HM [?|[s Hs]]; [by left|right]. apply HM in Hs. exists (Blk (reserve h - HDR) (s + HDR) false). split; [done|]. unfold ZEND_MM_DATA_OF. simpl. lia.
Qed.
Lemma gave_up_refines base h G C M n h' : (forall p s, M !! p = Some s <-> live G C (Blk (p - HDR) (s + HDR) false)) -> gave_up base h G C h' ->
  alloc_outcome base h M n (Bailout h').
Proof.
  intros HM (h1 & G1 & C1 & Hok1 & R1 & Hl & Hk & R2 & R3 & R4). pose proof consts as Co. exists h1. cbv zeta.
  assert (HM1 : forall q t, delete (reserve h) M !! q = Some t <-> live G1 C1 (Blk (q - HDR) (t + HDR) false)).
  { intros q t. rewrite Hl, lookup_delete_Some, (HM q t). unfold ZEND_MM_DATA_OF. simpl. replace (q - HDR + HDR) with q by lia. tauto. }
  split; [by exists G1, C1|]. split; [done|]. split; [|done].
  intros p s z Hp Hz. apply Hk. exists (Blk (p - HDR) (s + HDR) false). split; [by apply HM1|]. simpl. lia.
Qed.

Lemma alloc_refines base h M n : holds base h M -> reserved h M -> 0 <= n < 2 ^ N ->
  exists r, _zend_mm_alloc_int n h = Some r /\ alloc_outcome base h M n r.
Proof.
  intros (G & C & Hok & HM) Hr Hn. pose proof consts as Co.
  destruct (alloc_int_ok base h G C n Hok (reserve_live _ _ _ _ _ Hok HM Hr) Hn) as (r & E & Ho). exists r. split; [done|].
  destruct r as [p h'|h']; [|by eapply gave_up_refines].
  destruct Ho as (G' & C' & b & Hok' & -> & Hsz & Hnl & Hl & Hk & R1 & R2 & R3).
  assert (Hb : live G' C' b) by (apply Hl; by right). pose proof Hb as (_ & Hu & _).
  destruct (pointers_insert (live G C) (live G' C') M b Hu HM Hnl) as [Hnone HM'].
  { intros c Hc Ec. apply (live_unique base h' G' C'); [done|apply Hl; by left|done|done]. } { done. }
  exists (b_size b - HDR). split; [lia|]. split; [done|]. split; [by exists G', C'|]. split; [|done].
  eapply contents_live; [exact Hok|by apply HM|exact Hk].
Qed.
Lemma realloc_refines base h M p s n : holds base h M -> reserved h M -> M !! p = Some s -> 0 <= n < 2 ^ N ->
  (exists r, _zend_mm_realloc_int p n h = Some r /\ realloc_outcome base h M p s n r)
  \/ growth_refused (ZEND_MM_HEADER_OF p) n h
    /\ (p <> reserve h -> exists h', _zend_mm_realloc_int p n h = Some (Bailout h') /\ refused_outcome h M h').
Proof.
  intros (G & C & Hok & HM) Hr Hp Hn. pose proof consts as Co. pose proof Hp as Hlp. apply HM in Hlp. set (b := Blk (p - HDR) (s + HDR) false) in *.
  assert (Ep : ZEND_MM_DATA_OF (b_at b) = p) by (unfold ZEND_MM_DATA_OF, b; simpl; lia).
  destruct (realloc_int_ok base h G C b n Hok (reserve_live _ _ _ _ _ Hok HM Hr) Hlp Hn) as [(r & E & Ho)|[Hf Hg]]; rewrite Ep in *; [left; exists r; split; [done|]|right].
  2: { split; [exact Hf|]. intros Hne. destruct Hg as (h' & E & h1 & R1 & Hk & R2); [congruence|]. exists h'. split; [done|]. exists h1. split; [done|]. split; [|done].
    intros q t z [Hqr Hq]%lookup_delete_Some Hz. apply HM in Hq. apply (Hk _ z Hq); simpl; [unfold ZEND_MM_DATA_OF; simpl; lia|lia]. }
  destruct r as [p' h'|h']; [|by eapply gave_up_refines].
  destruct Ho as (G' & C' & b' & Hok' & -> & Hsz & Hnb & Hl & Hk & Hc & R1 & R2 & R3).
  assert (Hb : live G' C' b') by (apply Hl; by right). pose proof Hb as (_ & Hu & _).
  set (L := fun c => live G C c /\ c <> b).
  assert (HM1 : forall q t, delete p M !! q = Some t <-> L (Blk (q - HDR) (t + HDR) false)).
  { rewrite <- Ep. apply (pointers_delete (live G C) L M b); try done. intros c Hc'. by apply (live_unique base h G C). }
  destruct (pointers_insert L (live G' C') (delete p M) b' Hu HM1) as [Hnone HM'].
  { intros [Hx Hy]. by apply (Hnb b'). } { intros c Hc' Ec. apply (live_unique base h' G' C'); [done|apply Hl; by left|done|done]. } { done. }
  exists (b_size b' - HDR). split; [lia|]. split; [done|]. split; [by exists G', C'|]. split; [|split; [|done]].
  - intros q t z Hq Hz. apply HM1 in Hq as [Hq1 Hq2]. apply (Hk _ z Hq1 Hq2). simpl. lia.
  - intros k Hk0 Hk1. specialize (Hc k Hk0). unfold ZEND_MM_DATA_OF. rewrite Hc by (simpl; lia). unfold b. simpl. f_equal. lia.
Qed.
Lemma free_refines base h M p s : holds base h M -> M !! p = Some s ->
  exists h', _zend_mm_free_int p h = Some h' /\ holds base h' (delete p M) /\ contents_kept (delete p M) h h'
    /\ reserve h' = reserve h /\ limit h' = limit h /\ real_size h' <= real_size h.
Proof.
  intros (G & C & Hok & HM) Hp. pose proof consts as Co. apply HM in Hp. set (b := Blk (p - HDR) (s + HDR) false) in *.
  assert (Ep : p = ZEND_MM_DATA_OF (b_at b)) by (unfold ZEND_MM_DATA_OF, b; simpl; lia).
  destruct (free_int_ok base h G C b Hok Hp) as (h' & G' & C' & E & (Hok' & Hk & R) & Hl). rewrite <- Ep in E. exists h'. split; [done|].
  assert (HM' : forall q t, delete p M !! q = Some t <-> live G' C' (Blk (q - HDR) (t + HDR) false)).
  { rewrite Ep. apply (pointers_delete (live G C) (live G' C') M b); try done. intros c Hc. by apply (live_unique base h G C). }
  split; [by exists G', C'|]. split; [|done].
  intros q t z Hq Hz. apply Hk. exists (Blk (q - HDR) (t + HDR) false). split; [by apply HM'|]. simpl. lia.
Qed.

(** The cache, and the memory that nobody has. *)
Lemma drained_holds base h h' G G' C C' M : (forall p s, M !! p = Some s <-> live G C (Blk (p - HDR) (s + HDR) false)) ->
  heap_ok base h' G' C' -> drained base h h' G G' C C' -> holds base h' M /\ contents_kept M h h'.
Proof.
  intros HM Hok' (_ & _ & Hl & Hk & _). pose proof consts as Co. split.
  - exists G', C'. split; [done|]. intros p s. by rewrite HM, Hl.
  - intros q t z Hq Hz. apply Hk. exists (Blk (q - HDR) (t + HDR) false). split; [by apply HM|]. simpl. lia.
Qed.
Lemma nothing_left base h G C : heap_ok base h G C -> (forall c, ~ live G C c) -> (forall x, ~ in_cache C x) -> regions h = ∅ /\ real_size h = 0.
Proof.
  intros Hok Hl Hc. assert (EG : G = ∅).
  { apply map_eq. intros a. rewrite lookup_empty. destruct (G !! a) as [l|] eqn:Ea; [|done]. exfalso.
    destruct (hk_occupied _ _ _ _ Hok a l Ea) as (b & Hb & Hu). apply (Hl b). split; [by exists a, l|]. split; [done|]. apply Hc. }
  pose proof (hk_state _ _ _ _ Hok) as Hst. rewrite (st_real _ _ _ Hst), (st_regions _ _ _ Hst), EG. by rewrite fmap_empty.
Qed.
(** Nothing but one block is in use. *)
Lemma one_left base h G C b : heap_ok base h G C -> live G C b -> (forall c, live G C c -> c = b) -> (forall x, ~ in_cache C x) ->
  exists a n, regions h = {[a := n]} /\ real_size h = n /\ a + SEG <= b_at b /\ b_at b + b_size b + HDR <= a + n.
Proof.
  intros Hok Hb Hl Hc. pose proof (hk_space _ _ _ _ Hok) as Hs. pose proof Hb as ((a & l & Ha & Hin) & _).
  assert (EG : G = {[a := l]}).
  { apply map_eq. intros d. destruct (decide (d = a)) as [->|Hne]; [by rewrite lookup_singleton_eq|]. rewrite lookup_singleton_ne by done.
    destruct (G !! d) as [k|] eqn:Ed; [|done]. exfalso. destruct (hk_occupied _ _ _ _ Hok d k Ed) as (c & Hck & Hu).
    assert (c = b) as -> by (apply Hl; split; [by exists d, k|split; [done|apply Hc]]).
    apply Hne. symmetry. by apply (block_seg base (mem h) G a l d k b). }
  exists a, (seg_len l). pose proof (hk_state _ _ _ _ Hok) as Hst. destruct (block_place base _ G a l b Hs Ha Hin) as (P1 & P2 & _).
  rewrite (st_real _ _ _ Hst), (st_regions _ _ _ Hst), EG, map_fmap_singleton. split; [done|]. split; [|done].
  rewrite <- insert_empty, sum_insert by apply lookup_empty. unfold sum. rewrite map_fold_empty. lia.
Qed.
Lemma free_cache_refines base h M : holds base h M ->
  exists h', zend_mm_free_cache h = Some h' /\ holds base h' M /\ contents_kept M h h' /\ real_size h' <= real_size h
    /\ (forall i c, cache h' !! i = Some c -> c = NULL) /\ (M = ∅ -> regions h' = ∅ /\ real_size h' = 0)
    /\ (forall p s, M !! p = Some s -> (forall q, is_Some (M !! q) -> q = p) ->
         exists a n, regions h' = {[a := n]} /\ real_size h' = n /\ a < p /\ p + s < a + n).
Proof.
  intros (G & C & Hok & HM). destruct (zend_mm_free_cache_ok base h G C Hok) as (h' & G' & C' & E & Hok' & Hd & Hc). exists h'. split; [done|].
  destruct (drained_holds base h h' G G' C C' M HM Hok' Hd) as [Hh Hk]. split; [done|]. split; [done|]. pose proof Hd as (_ & _ & Hl & _ & _ & _ & Hr & _).
  split; [done|]. split; [|split].
  - intros i c Hi. rewrite (hk_heads _ _ _ _ Hok'), list_lookup_fmap in Hi. destruct (C' !! i) as [[|x l]|] eqn:Ei; [by injection Hi|exfalso|done].
    apply (Hc x). exists i, (x :: l). split; [done|by left].
  - intros ->. apply (nothing_left base h' G' C' Hok'); [|done]. intros c Hcl. apply Hl in Hcl.
    destruct (live_pointer base h G C c Hok Hcl) as (p & s & -> & _). by apply HM in Hcl.
  - intros p s Hp Honly. pose proof consts as Co. destruct (one_left base h' G' C' (Blk (p - HDR) (s + HDR) false) Hok') as (a & n & R1 & R2 & R3 & R4); [by apply Hl, HM| |done|].
    + intros c Hcl%Hl. destruct (live_pointer base h G C c Hok Hcl) as (q & t & -> & _). apply HM in Hcl.
      assert (q = p) as -> by (apply Honly; by eexists). rewrite Hp in Hcl. by injection Hcl as ->.
    + simpl in R3, R4. exists a, n. split; [done|]. split; [done|]. lia.
Qed.

Lemma block_size_held base h M p s : holds base h M -> M !! p = Some s -> _zend_mm_block_size p h = Some (s + HDR).
Proof.
  intros Hh Hp. destruct (held_size base h M p s Hh Hp) as (Hpos & _). destruct Hh as (G & C & Hok & HM). apply HM in Hp. pose proof consts as Co.
  unfold _zend_mm_block_size, NULL. rewrite (proj2 (Z.eqb_neq p 0)) by lia. unfold ZEND_MM_HEADER_OF.
  by rewrite (live_header base h G C _ Hok Hp : ZEND_MM_BLOCK_SIZE (p - HDR) h = _).
Qed.
Lemma write_refines base h M p s z v h' : holds base h M -> M !! p = Some s -> p <= z < p + s -> store z v h = Some h' -> holds base h' M.
Proof.
  intros (G & C & Hok & HM) Hp Hz E. exists G, C. split; [|done]. unfold store in E. destruct (mem h !! z) as [w|] eqn:Ew; [|done]. cbn [mbind option_bind] in E.
  injection E as <-. apply HM in Hp. pose proof consts as Co. apply (program_write base h G C _ z v Hok Hp); [simpl; lia|by eexists].
Qed.

(** ** Any use of the allocator *)

(** What a program can do that frees only what it has, and writes only there:
    [M] has the size [_zend_mm_block_size] reports for every pointer.  It goes on
    after an error when the handler of errors leaves the heap alone, but for the
    one error that leaves a free block behind outside of all lists. *)
Inductive used_by_program (base : Z) : mm_heap -> gmap Z Z -> Prop :=
  | u_start bsize n junk h M : 1 < base -> 8 <= bsize < 2 ^ N -> 0 <= n < 2 ^ N ->
      zend_mm_startup_ex base bsize n junk = Some (Some (Returned base h)) ->
      (forall p s, M !! p = Some s <-> 0 < n /\ p = reserve h /\ _zend_mm_block_size p h = Some (s + HDR)) -> used_by_program base h M
  | u_malloc h M n p s h' : used_by_program base h M -> 0 <= n < 2 ^ N -> _zend_mm_alloc_int n h = Some (Returned p h') ->
      _zend_mm_block_size p h' = Some (s + HDR) -> used_by_program base h' (<[p := s]> M)
  | u_free h M p h' : used_by_program base h M -> is_Some (M !! p) -> p <> reserve h -> _zend_mm_free_int p h = Some h' ->
      used_by_program base h' (delete p M)
  | u_write h M p s z v h' : used_by_program base h M -> M !! p = Some s -> p <> reserve h -> p <= z < p + s -> store z v h = Some h' ->
      used_by_program base h' M
  | u_realloc h M p n p' s h' : used_by_program base h M -> is_Some (M !! p) -> p <> reserve h -> 0 <= n < 2 ^ N ->
      _zend_mm_realloc_int p n h = Some (Returned p' h') ->
      _zend_mm_block_size p' h' = Some (s + HDR) -> used_by_program base h' (<[p' := s]> (delete p M))
  | u_malloc_refused h M n h' : used_by_program base h M -> 0 <= n < 2 ^ N -> _zend_mm_alloc_int n h = Some (Bailout h') ->
      (forall x, zend_error_noreturn x = Some x) -> used_by_program base h' (delete (reserve h) M)
  | u_realloc_refused h M p n h' : used_by_program base h M -> is_Some (M !! p) -> p <> reserve h -> 0 <= n < 2 ^ N ->
      ~ growth_refused (ZEND_MM_HEADER_OF p) n h -> _zend_mm_realloc_int p n h = Some (Bailout h') ->
      (forall x, zend_error_noreturn x = Some x) -> used_by_program base h' (delete (reserve h) M)
  | u_free_cache h M h' : used_by_program base h M -> zend_mm_free_cache h = Some h' -> used_by_program base h' M.

Lemma started_holds base n h M : 0 <= n -> started base n h -> (forall p s, M !! p = Some s <-> 0 < n /\ p = reserve h /\ _zend_mm_block_size p h = Some (s + HDR)) ->
  holds base h M /\ reserved h M /\ real_size h <= limit h.
Proof.
  intros Hn (G & C & Hok & Hr & Hlim & Hcase) HM. pose proof consts as Co. destruct (Z.ltb_spec 0 n) as [Hpos|Hz].
  - destruct Hcase as (b & Er & Hsz & Hl). assert (Hb : live G C b) by (by apply Hl). pose proof (live_pos base _ _ _ _ Hok Hb) as Hp0.
    assert (Ebs : _zend_mm_block_size (reserve h) h = Some (b_size b)).
    { unfold _zend_mm_block_size, ZEND_MM_HEADER_OF, NULL. rewrite Er. unfold ZEND_MM_DATA_OF. rewrite (proj2 (Z.eqb_neq _ 0)) by lia.
      replace (b_at b + HDR - HDR) with (b_at b) by lia. by apply (live_header base h G C). }
    assert (HM' : forall p s, M !! p = Some s <-> live G C (Blk (p - HDR) (s + HDR) false)).
    { intros p s. rewrite HM, Hl. destruct Hb as (_ & Hu & _). split.
      - intros (_ & -> & E). rewrite Ebs in E. injection E as E. rewrite <- E, Er. unfold ZEND_MM_DATA_OF. replace (b_at b + HDR - HDR) with (b_at b) by lia. by apply blk_eta.
      - intros E. assert (Eat : b_at b = p - HDR) by (by rewrite <- E). assert (Esz : b_size b = s + HDR) by (by rewrite <- E).
        assert (Ep : p = reserve h) by (rewrite Er; unfold ZEND_MM_DATA_OF; lia). split; [done|]. split; [done|]. rewrite Ep, Ebs, Esz. done. }
    split; [by exists G, C|]. split; [|done]. right. exists (b_size b - HDR). apply HM. split; [done|]. split; [done|]. rewrite Ebs. f_equal. lia.
  - destruct Hcase as [Er Hno]. split; [exists G, C; split; [done|]; intros p s; rewrite HM; split; [lia|]; intros Hx; by apply Hno in Hx|]. split; [by left|done].
Qed.

Lemma holds_eq base h h' M : holds base h M -> mem h' = mem h -> buckets h' = buckets h -> bits h' = bits h -> fixed h' = fixed h -> cache h' = cache h -> holds base h' M.
Proof. intros (G & C & Hok & HM) E1 E2 E3 E4 E5. exists G, C. split; [by eapply heap_ok_eq|done]. Qed.
(** After an error the heap holds what is left. *)
Lemma bailout_holds base h M n h' : alloc_outcome base h M n (Bailout h') -> (forall x, zend_error_noreturn x = Some x) -> real_size h <= limit h ->
  holds base h' (delete (reserve h) M) /\ reserved h' (delete (reserve h) M) /\ real_size h' <= limit h'.
Proof.
  intros (h1 & Hh & Hr & _ & Hlim & Hre & He) Hq Hle. rewrite Hq in He.
  assert (Eh : exists o, h' = set_overflow o h1) by (destruct He as [[= <-]| ->]; by eexists). destruct Eh as [o ->].
  split; [by eapply holds_eq|]. split; [by left|]. simpl. lia.
Qed.
(** The invariant of every use. *)
Lemma used_holds base h M : used_by_program base h M -> holds base h M /\ reserved h M /\ real_size h <= limit h.
Proof.
  induction 1 as [bsize n junk h M Hb Hbs Hn E HM|h M n p s h' _ (IH1 & IH2 & IH3) Hn E Es|h M p h' _ (IH1 & IH2 & IH3) [s Hp] Hne E
    |h M p s z v h' _ (IH1 & IH2 & IH3) Hp Hne Hz E|h M p n p' s h' _ (IH1 & IH2 & IH3) [t Hp] Hne Hn E Es
    |h M n h' _ (IH1 & IH2 & IH3) Hn E Hq|h M p n h' _ (IH1 & IH2 & IH3) [t Hp] Hne Hn Hng E Hq|h M h' _ (IH1 & IH2 & IH3) E].
  - destruct (startup_ok base bsize n junk Hb Hbs Hn) as (r & Er & Hr). rewrite E in Er. injection Er as <-. destruct Hr as (_ & _ & Hr).
    apply (started_holds base n); [lia|done|done].
  - destruct (alloc_refines base h M n IH1 IH2 Hn) as (r & Er & Ho). rewrite E in Er. injection Er as <-.
    destruct Ho as (s' & _ & Hnone & Hh & _ & R1 & R2 & R3). assert (Es' : s' = s).
    { pose proof (block_size_held base h' _ p s' Hh (lookup_insert_eq _ _ _)) as E'. rewrite Es in E'. injection E'. lia. }
    subst s'. split; [done|]. split; [|lia]. unfold reserved. rewrite R1. destruct IH2 as [?|[t Ht]]; [by left|right]. exists t. rewrite lookup_insert_ne; [done|]. congruence.
  - destruct (free_refines base h M p s IH1 Hp) as (h2 & E2 & Hh & _ & R1 & R2 & R3). rewrite E in E2. injection E2 as <-.
    split; [done|]. split; [|lia]. unfold reserved. rewrite R1. destruct IH2 as [?|[t Ht]]; [by left|right]. exists t. by rewrite lookup_delete_ne.
  - split; [by eapply write_refines|]. unfold store in E. destruct (mem h !! z); [|done]. injection E as <-. done.
  - destruct (realloc_refines base h M p t n IH1 IH2 Hp Hn) as [(r & Er & Ho)|[_ Hf]]; [|destruct (Hf Hne) as (? & Hx & _); congruence]. rewrite E in Er. injection Er as <-.
    destruct Ho as (s' & _ & Hnone & Hh & _ & _ & R1 & R2 & R3). assert (Es' : s' = s).
    { pose proof (block_size_held base h' _ p' s' Hh (lookup_insert_eq _ _ _)) as E'. rewrite Es in E'. injection E'. lia. }
    subst s'. split; [done|]. split; [|lia]. unfold reserved. rewrite R1. destruct IH2 as [?|[u Hu]]; [by left|right]. exists u.
    rewrite lookup_insert_ne; [rewrite lookup_delete_ne; [done|congruence]|]. intros ->. rewrite lookup_delete_ne in Hnone by congruence. congruence.
  - destruct (alloc_refines base h M n IH1 IH2 Hn) as (r & Er & Ho). rewrite E in Er. injection Er as <-. by apply (bailout_holds base h M n).
  - destruct (realloc_refines base h M p t n IH1 IH2 Hp Hn) as [(r & Er & Ho)|[Hf _]]; [|done]. rewrite E in Er. injection Er as <-. by apply (bailout_holds base h M n).
  - destruct IH1 as (G & C & Hok & HM). destruct (zend_mm_free_cache_ok base h G C Hok) as (h2 & G' & C' & E2 & Hok' & Hd & _). rewrite E in E2. injection E2 as <-.
    destruct (drained_holds base h h' G G' C C' M HM Hok' Hd) as [Hh _]. split; [done|]. destruct Hd as (_ & _ & _ & _ & R1 & R2 & R3 & _).
    split; [|lia]. unfold reserved. by rewrite R1.
Qed.
End Thms.
