(* ===== verification/AllocExample.v ===== *)
(** * AllocExample: a storage manager, and a heap in use

    A storage manager that hands out addresses one after the other, on a machine
    with 32-bit words, and the heap of a program that has allocated a few
    blocks. *)
From S2P Require Import Prelude ZendAlloc AllocBits AllocRing AllocTrie AllocCut AllocRemove AllocSearch AllocFree AllocTake AllocPick AllocMap AllocLayout AllocHeap AllocSplit AllocState AllocRelease AllocEfree AllocEmalloc AllocRealloc AllocGrow AllocStart AllocThms.

#[export] Instance w32 : SizeT := {| size_kind := LONG32 |}.

(** Past all that is in use. *)
Definition bump (h : mm_heap) : Z :=
  map_fold (fun a n acc => Z.max acc (a + n)) (Z.max 1048576 (buckets h + arrays_size)) (regions h).
Lemma bump_past h : 1048576 <= bump h /\ buckets h + arrays_size <= bump h /\ forall a n, regions h !! a = Some n -> a + n <= bump h.
Proof.
  unfold bump. generalize (buckets h + arrays_size). intros c.
  apply (map_fold_weak_ind (fun acc m => 1048576 <= acc /\ c <= acc /\ forall a n, m !! a = Some n -> a + n <= acc)).
  - split; [lia|]. split; [lia|]. intros a n Ha. by rewrite lookup_empty in Ha.
  - intros a n m acc _ (IH1 & IH2 & IH3). split; [lia|]. split; [lia|]. intros b k Hb. apply lookup_insert_Some in Hb as [[<- <-]|[_ Hb]]; [lia|].
    specialize (IH3 b k Hb). lia.
Qed.
#[export] Instance bump_storage : Storage := {|
  storage_alloc n h := if bump h + n <=? 2 ^ ZEND_MM_NUM_BUCKETS then Some (bump h, fun _ => 77) else None;
  storage_realloc a n h := if bump h + n <=? 2 ^ ZEND_MM_NUM_BUCKETS then Some (bump h, fun _ => 78) else None;
  zend_error_noreturn h := Some h
|}.
#[export] Instance bump_storage_ok : StorageOk.
Proof.
  split; [| |by intros h; eexists]; [intros n h b f E Hn|intros n h a b f E _ Hn]; simpl in E; destruct (Z.leb_spec (bump h + n) (2 ^ ZEND_MM_NUM_BUCKETS)) as [Hle|]; (done || idtac);
    injection E as <- _; destruct (bump_past h) as (H1 & H2 & H3); (split; [lia|]); (split; [done|]); (split; [by right|]).
  - intros b k Hb. right. by apply H3.
  - intros c k Hc _. right. by apply H3.
Qed.

(** ** A heap in use *)

(** The two sides are evaluated and compared. *)
Ltac evaluate := match goal with |- _ = ?r => vm_cast_no_check (eq_refl r) end.
Definition no_heap : mm_heap := MmHeap ∅ ∅ 0 0 0 0 0 0 0 0 0 0 0 0 0 0 0 [] 0.
Definition malloc_of (n : Z) (h : mm_heap) : Z * mm_heap :=
  match _zend_mm_alloc_int n h with Some (Returned p h) => (p, h) | _ => (0, no_heap) end.
Definition free_of (p : Z) (h : mm_heap) : mm_heap := default no_heap (_zend_mm_free_int p h).

(** A small block, a large one and a small one; then all are given back. *)
Definition at_start : mm_heap := Eval vm_compute in
  match zend_mm_startup_ex 4096 512 0 (fun _ => 5) with Some (Some (Returned _ h)) => h | _ => no_heap end.
Definition p1 : Z := Eval vm_compute in (malloc_of 20 at_start).1.
Definition heap1 : mm_heap := Eval vm_compute in (malloc_of 20 at_start).2.
Definition p2 : Z := Eval vm_compute in (malloc_of 300 heap1).1.
Definition heap2 : mm_heap := Eval vm_compute in (malloc_of 300 heap1).2.
Definition p3 : Z := Eval vm_compute in (malloc_of 24 heap2).1.
Definition heap3 : mm_heap := Eval vm_compute in (malloc_of 24 heap2).2.
Definition heap4 : mm_heap := Eval vm_compute in free_of p1 heap3.
Definition heap5 : mm_heap := Eval vm_compute in free_of p2 heap4.
Definition heap6 : mm_heap := Eval vm_compute in free_of p3 heap5.

Definition pointers4 : gmap Z Z := delete p1 (<[p3 := 24]> (<[p2 := 304]> {[p1 := 24]})).

Lemma start_in_use : used_by_program 4096 at_start ∅.
Proof. apply (u_start 4096 512 0 (fun _ => 5)); [done|done|done|evaluate|]. intros p s. rewrite lookup_empty. split; [done|lia]. Qed.
Lemma heap1_in_use : used_by_program 4096 heap1 {[p1 := 24]}.
Proof. apply (u_malloc 4096 at_start ∅ 20 p1 24 heap1 start_in_use); [done|evaluate..]. Qed.
Lemma heap2_in_use : used_by_program 4096 heap2 (<[p2 := 304]> {[p1 := 24]}).
Proof. apply (u_malloc 4096 heap1 _ 300 p2 304 heap2 heap1_in_use); [done|evaluate..]. Qed.
Lemma heap3_in_use : used_by_program 4096 heap3 (<[p3 := 24]> (<[p2 := 304]> {[p1 := 24]})).
Proof. apply (u_malloc 4096 heap2 _ 24 p3 24 heap3 heap2_in_use); [done|evaluate..]. Qed.
Lemma heap4_in_use : used_by_program 4096 heap4 pointers4.
Proof. apply (u_free 4096 heap3 _ p1 heap4 heap3_in_use); [by eexists|done|evaluate]. Qed.
Lemma heap5_in_use : used_by_program 4096 heap5 {[p3 := 24]}.
Proof. apply (u_free 4096 heap4 pointers4 p2 heap5 heap4_in_use); [by eexists|done|evaluate]. Qed.
Lemma heap6_in_use : used_by_program 4096 heap6 ∅.
Proof. apply (u_free 4096 heap5 {[p3 := 24]} p3 heap6 heap5_in_use); [by eexists|done|evaluate]. Qed.

(** ** A heap with a reserve *)

(** The program allocates a block; its next request is more than there is, which
    costs the reserve, and it goes on. *)
Definition ready : mm_heap := Eval vm_compute in
  match zend_mm_startup_ex 4096 512 100 (fun _ => 5) with Some (Some (Returned _ h)) => h | _ => no_heap end.
Definition held_back : Z := Eval vm_compute in reserve ready.
Definition r1 : Z := Eval vm_compute in (malloc_of 300 ready).1.
Definition busy : mm_heap := Eval vm_compute in (malloc_of 300 ready).2.
Definition idle : mm_heap := Eval vm_compute in free_of r1 busy.
Definition too_much : Z := 4294967295.
Definition poorer : mm_heap := Eval vm_compute in match _zend_mm_alloc_int too_much busy with Some (Bailout h) => h | _ => no_heap end.

Lemma ready_in_use : used_by_program 4096 ready {[held_back := 104]}.
Proof.
  apply (u_start 4096 512 100 (fun _ => 5)); [done|done|done|evaluate|]. intros p s. rewrite lookup_singleton_Some.
  assert (E : _zend_mm_block_size held_back ready = Some (104 + ZEND_MM_ALIGNED_HEADER_SIZE)) by evaluate.
  change (reserve ready) with held_back. split; [intros [<- <-]; done|]. intros (_ & -> & E'). rewrite E in E'. injection E'. intros. split; [done|lia].
Qed.
Lemma busy_in_use : used_by_program 4096 busy (<[r1 := 304]> {[held_back := 104]}).
Proof. apply (u_malloc 4096 ready _ 300 r1 304 busy ready_in_use); [done|evaluate..]. Qed.
Lemma idle_in_use : used_by_program 4096 idle {[held_back := 104]}.
Proof. apply (u_free 4096 busy _ r1 idle busy_in_use); [by eexists|done|evaluate]. Qed.
Lemma poorer_in_use : used_by_program 4096 poorer {[r1 := 304]}.
Proof. apply (u_malloc_refused 4096 busy _ too_much poorer busy_in_use); [done|evaluate|done]. Qed.

(** ** A segment is made larger *)

(** A block of 304 bytes and a small free block fill the only segment, which is
    moved when the block grows; the data goes with it. *)
Definition lone : mm_heap := Eval vm_compute in (malloc_of 300 at_start).2.
Definition q1 : Z := Eval vm_compute in (malloc_of 300 at_start).1.
Definition lone_grown : option (Z * gmap Z Z * Z) :=
  match _zend_mm_realloc_int q1 900 lone with Some (Returned p h) => Some (p, regions h, default 0 (mem h !! p)) | _ => None end.
Example lone_grows : fills_with_next (ZEND_MM_HEADER_OF q1) lone = Some true /\ lone_grown = Some (1049104, {[1049088 := 1024]}, 77).
Proof. split; evaluate. Qed.

(** When the storage manager cannot, the error is reported, and the free block
    stays out of its list: freeing the block before it unlinks it once more,
    which is found to be a corrupted heap.  This is the one error after which
    [used_by_program] does not go on. *)
Definition rigid : Storage := {| storage_alloc := storage_alloc; storage_realloc _ _ _ := None; zend_error_noreturn := Some |}.
Lemma failed_growth_unlinks_twice : exists h,
  @_zend_mm_realloc_int w32 rigid q1 900 lone = Some (Bailout h) /\ is_Some (_zend_mm_free_int q1 lone) /\ @_zend_mm_free_int w32 q1 h = None.
Proof. eexists. split; [vm_compute; reflexivity|]. split; [by eexists; vm_compute|]. vm_compute. reflexivity. Qed.

(** ** A free block that is not found *)

(** The small block behind [q1] is in the list of its size, another one of that
    size is the only rest, behind [q2].  Freeing [q2] takes the rest out of its
    list and clears the bit of the size, in which there is a block still: a
    request of just that size gets a new segment. *)
Definition q2 : Z := Eval vm_compute in (malloc_of 816 lone).1.
Definition forgetful : mm_heap := Eval vm_compute in free_of q2 (malloc_of 816 lone).2.
Example small_block_not_found :
  ZEND_MM_FREE_BLOCK_SIZE (q1 - 8 + 312) forgetful = Some 184 /\ ZEND_MM_TRUE_SIZE 176 = 184
  /\ base.size (regions forgetful) = 1%nat /\ base.size (regions (malloc_of 176 forgetful).2) = 2%nat
  /\ base.size (regions (malloc_of 176 lone).2) = 1%nat.
Proof. repeat split; evaluate. Qed.
