(* ===== verification/AllocClaims.v ===== *)
(** * AllocClaims: what the memory manager promises

    Stated for the functions of zend_alloc.c, each with a use of it on the heap
    of [AllocExample]. *)
From S2P Require Import Prelude ZendAlloc AllocBits AllocRing AllocTrie AllocCut AllocRemove AllocSearch AllocFree AllocTake AllocPick AllocMap AllocLayout AllocHeap AllocSplit AllocState AllocRelease AllocEfree AllocEmalloc AllocRealloc AllocGrow AllocStart AllocThms AllocExample.

Section Claims.
Context `{SizeT} {ST : Storage} {STO : StorageOk}.
Abbreviation N := ZEND_MM_NUM_BUCKETS.
Abbreviation MIN := ZEND_MM_ALIGNED_MIN_HEADER_SIZE.
Abbreviation HDR := ZEND_MM_ALIGNED_HEADER_SIZE.
Abbreviation SEG := ZEND_MM_ALIGNED_SEGMENT_SIZE.

(** C3: [_zend_mm_alloc_int] refines insertion into the map of pointers: on a
    heap that holds the pointers [M] it returns, and either gives a pointer that
    is not in [M] with at least the size asked for, the memory behind all other
    pointers unchanged and the memory limit kept, or reports the error after
    giving up the reserve and nothing else. *)
Theorem emalloc_refines base h M n : holds base h M -> reserved h M -> 0 <= n < 2 ^ N ->
  exists r, _zend_mm_alloc_int n h = Some r /\ alloc_outcome base h M n r.
Proof. apply alloc_refines. Qed.

(** C4: [_zend_mm_free_int] of a pointer the program has refines deletion from
    the map of pointers: it returns, whichever of the cache, the joining of
    neighbours and the freeing of a segment it takes, the other pointers keep
    what is behind them, and the size of all segments does not grow. *)
Theorem efree_refines base h M p s : holds base h M -> M !! p = Some s ->
  exists h', _zend_mm_free_int p h = Some h' /\ holds base h' (delete p M) /\ contents_kept (delete p M) h h'
    /\ reserve h' = reserve h /\ limit h' = limit h /\ real_size h' <= real_size h.
Proof. apply free_refines. Qed.

(** C5: [_zend_mm_realloc_int] refines the update of the map of pointers: it
    returns, whichever of shrinking in place, a block of the cache, the free
    block behind, a larger segment and a fresh block it takes, and either
    replaces the pointer by one with at least the size asked for, the words up
    to the smaller of the two sizes being those of before, or reports the error
    as [_zend_mm_alloc_int] does.  The one exception, [growth_refused], is that
    the block fills its segment with the free block behind it, both are too
    small, and the storage manager does not make the segment larger: the error is
    reported and all pointers but the reserve keep what is behind them, but the
    free block has left its list. *)
Theorem erealloc_refines base h M p s n : holds base h M -> reserved h M -> M !! p = Some s -> 0 <= n < 2 ^ N ->
  (exists r, _zend_mm_realloc_int p n h = Some r /\ realloc_outcome base h M p s n r)
  \/ growth_refused (ZEND_MM_HEADER_OF p) n h
    /\ (p <> reserve h -> exists h', _zend_mm_realloc_int p n h = Some (Bailout h') /\ refused_outcome h M h').
Proof. apply realloc_refines. Qed.

(** C6: However a program uses the allocator, as long as it frees, resizes and
    writes only what it has and not the reserve: no call reads or writes outside
    the memory of the heap or finds the heap corrupted, no two pointers overlap,
    and the segments together have the size that is counted, which is at most
    the limit.  The use may go on after an error has been reported, unless it is
    that of [growth_refused]: a later call may then find the heap corrupted
    ([AllocExample.failed_growth_unlinks_twice]). *)
Theorem never_corrupted base h M : used_by_program base h M ->
  (forall n, 0 <= n < 2 ^ N -> is_Some (_zend_mm_alloc_int n h))
  /\ (forall p, is_Some (M !! p) -> is_Some (_zend_mm_free_int p h))
  /\ (forall p n, is_Some (M !! p) -> p <> reserve h -> 0 <= n < 2 ^ N -> is_Some (_zend_mm_realloc_int p n h))
  /\ is_Some (zend_mm_free_cache h)
  /\ (forall p s q t, M !! p = Some s -> M !! q = Some t -> p = q \/ apart p s q t)
  /\ real_size h = sum (regions h) /\ real_size h <= limit h.
Proof.
  intros Hu. destruct (used_holds base h M Hu) as (Hh & Hr & Hl). split; [|split; [|split; [|split; [|split; [|split; [|done]]]]]].
  - intros n Hn. destruct (alloc_refines base h M n Hh Hr Hn) as (r & E & _). by eexists.
  - intros p [s Hp]. destruct (free_refines base h M p s Hh Hp) as (h' & E & _). by eexists.
  - intros p n [s Hp] Hne Hn. destruct (realloc_refines base h M p s n Hh Hr Hp Hn) as [(r & E & _)|[_ Hf]]; [by eexists|].
    destruct (Hf Hne) as (h' & E & _). by eexists.
  - destruct (free_cache_refines base h M Hh) as (h' & E & _). by eexists.
  - intros p s q t. by eapply held_apart.
  - destruct Hh as (G & C & Hok & _). apply (st_real _ _ _ (hk_state _ _ _ _ Hok)).
Qed.

(** C7: Memory comes back: when the program has freed all it had,
    [zend_mm_free_cache] empties the cache and leaves the heap without a
    segment, or, while the reserve is kept, with one segment, the one that holds
    the reserve. *)
Theorem memory_given_back base h M : used_by_program base h M -> (forall p, is_Some (M !! p) -> p = reserve h) ->
  exists h', zend_mm_free_cache h = Some h' /\ (forall i c, cache h' !! i = Some c -> c = NULL)
    /\ match M !! reserve h with
       | None => regions h' = ∅ /\ real_size h' = 0
       | Some s => exists a n, regions h' = {[a := n]} /\ real_size h' = n /\ a < reserve h /\ reserve h + s < a + n
       end.
Proof.
  intros Hu HM. destruct (used_holds base h M Hu) as (Hh & _). destruct (free_cache_refines base h M Hh) as (h' & E & _ & _ & _ & Hc & He & H1).
  exists h'. split; [done|]. split; [done|]. destruct (M !! reserve h) as [s|] eqn:Er; [by apply (H1 _ s)|].
  apply He, map_empty. intros p. destruct (M !! p) as [t|] eqn:Ep; [|done]. rewrite (HM p) in Ep by (by eexists). congruence.
Qed.

(** C8: The memory of a heap in use is well formed: every segment is its
    header, blocks of multiples of 8 bytes, each with its own size and type and
    those of the block before it in its header, and a guard; no two free blocks
    are neighbours, no segment is free as a whole, and every pointer the
    program has points behind the header of a used block. *)
Theorem heap_well_formed base h M : used_by_program base h M -> exists G, regions h = seg_len <$> G /\ occupied G
  /\ (forall a l, G !! a = Some l -> mem h !! seg_size a = Some (seg_len l) /\ tiled (a + SEG) l /\ sized l /\ coalesced l /\ headers_ok (mem h) a l)
  /\ forall p s, M !! p = Some s -> block_in G (Blk (p - HDR) (s + HDR) false).
Proof.
  intros Hu. destruct (used_holds base h M Hu) as ((G & C & Hok & HM) & _). exists G. pose proof (hk_state _ _ _ _ Hok) as Hst.
  split; [apply Hst|]. split; [apply Hok|]. split.
  - intros a l Ha. destruct (so_blocks _ _ _ (hk_space _ _ _ _ Hok) a l Ha) as (Ht & Hz & _). split; [by apply Hst|]. split; [done|]. split; [done|].
    split; [by apply (st_coalesced _ _ _ Hst a)|]. pose proof (hk_blocks _ _ _ _ Hok) as (F & Ls & Hbo). by apply all_headed, Hbo.
  - intros p s Hp. apply HM in Hp. apply Hp.
Qed.

(** C9: [zend_mm_startup_ex] refuses a segment size that is not a power of
    two, and makes a heap with nothing allocated but the reserve otherwise. *)
Theorem startup_makes_heap base bsize n junk : 1 < base -> 8 <= bsize < 2 ^ N -> 0 <= n < 2 ^ N ->
  exists r, zend_mm_startup_ex base bsize n junk = Some r /\
    match r with
    | None => forall k, bsize <> 2 ^ k
    | Some (Returned p h) => p = base /\ (exists k, bsize = 2 ^ k) /\ started base n h
    | Some (Bailout _) => 0 < n /\ exists k, bsize = 2 ^ k
    end.
Proof. apply startup_ok. Qed.

(** [safe_address], which adds with carry, gives [nmemb * size + offset]
    when that is a [size_t], and the error otherwise. *)
Theorem safe_address_exact nmemb size offset : 0 <= nmemb < 2 ^ N -> 0 <= size < 2 ^ N -> 0 <= offset < 2 ^ N ->
  safe_address nmemb size offset = if nmemb * size + offset <? 2 ^ N then Some (nmemb * size + offset) else None.
Proof.
  intros Hn Hs Ho. pose proof word_pow as Hp. unfold safe_address, size_t. set (P := 2 ^ N) in *. set (x := nmemb * size).
  assert (Hx : 0 <= x <= (P - 1) * (P - 1)) by (unfold x; split; [apply Z.mul_nonneg_nonneg; lia|apply Z.mul_le_mono_nonneg; lia]).
  pose proof (Z.div_mod x P ltac:(lia)) as Dx. pose proof (Z.mod_pos_bound x P ltac:(lia)) as Bx.
  set (high := x / P) in *. set (low := x mod P) in *. assert (Hh : 0 <= high <= P - 2) by nia.
  pose proof (Z.div_mod (low + offset) P ltac:(lia)) as Dc. pose proof (Z.mod_pos_bound (low + offset) P ltac:(lia)) as Bc.
  set (carry := (low + offset) / P) in *. set (res := (low + offset) mod P) in *. assert (Hc : 0 <= carry <= 1) by nia.
  rewrite (Z.mod_small (high + carry)) by lia. destruct (Z.eqb_spec (high + carry) 0) as [E|E].
  - assert (high = 0 /\ carry = 0) as [E1 E2] by lia. rewrite E1 in Dx. rewrite E2 in Dc. rewrite (proj2 (Z.ltb_lt _ _)) by lia. f_equal. lia.
  - rewrite (proj2 (Z.ltb_ge _ _)); [done|]. nia.
Qed.
End Claims.

(** ** On the heap of [AllocExample] *)
Lemma heap4_holds : holds 4096 heap4 pointers4 /\ reserved heap4 pointers4.
Proof. by destruct (used_holds 4096 heap4 pointers4 heap4_in_use) as (H1 & H2 & _). Qed.
Lemma small_request n : (0 <=? n) && (n <? 4294967296) = true -> 0 <= n < 2 ^ ZEND_MM_NUM_BUCKETS.
Proof. intros [H1%Z.leb_le H2%Z.ltb_lt]%andb_true_iff. split; [done|exact H2]. Qed.

(** A large block: a new segment is opened. *)
Lemma emalloc_refines_witness : exists r, _zend_mm_alloc_int 400 heap4 = Some r /\ alloc_outcome 4096 heap4 pointers4 400 r.
Proof. apply (emalloc_refines 4096 heap4 pointers4 400 (proj1 heap4_holds) (proj2 heap4_holds)). apply small_request. reflexivity. Defined.
Lemma efree_refines_witness : exists h', _zend_mm_free_int p2 heap4 = Some h' /\ holds 4096 h' (delete p2 pointers4) /\ contents_kept (delete p2 pointers4) heap4 h'
  /\ reserve h' = reserve heap4 /\ limit h' = limit heap4 /\ real_size h' <= real_size heap4.
Proof. apply (efree_refines 4096 heap4 pointers4 p2 304 (proj1 heap4_holds)). reflexivity. Defined.
Lemma erealloc_refines_witness : exists r, _zend_mm_realloc_int p3 60 heap4 = Some r /\ realloc_outcome 4096 heap4 pointers4 p3 24 60 r.
Proof.
  destruct (erealloc_refines 4096 heap4 pointers4 p3 24 60 (proj1 heap4_holds) (proj2 heap4_holds)) as [Hr|[[Hf _] _]]; [reflexivity|apply small_request; reflexivity|exact Hr|].
  vm_compute in Hf. discriminate.
Defined.
(** After a request that was refused. *)
Lemma never_corrupted_witness : is_Some (_zend_mm_realloc_int r1 5000 poorer) /\ is_Some (zend_mm_free_cache poorer) /\ real_size poorer = sum (regions poorer).
Proof.
  destruct (never_corrupted 4096 poorer _ poorer_in_use) as (_ & _ & H1 & H2 & _ & H3 & _). split; [|exact (conj H2 H3)].
  apply (H1 r1 5000); [eexists; reflexivity|discriminate|apply small_request; reflexivity].
Defined.
Lemma memory_given_back_witness : exists h', zend_mm_free_cache idle = Some h' /\ (forall i c, cache h' !! i = Some c -> c = NULL)
  /\ exists a n, regions h' = {[a := n]} /\ real_size h' = n /\ a < held_back /\ held_back + 104 < a + n.
Proof.
  assert (Hr : forall p, is_Some ({[held_back := 104]} !! p : option Z) -> p = reserve idle) by (intros p [s [<- _]%lookup_singleton_Some]; reflexivity).
  exact (memory_given_back 4096 idle _ idle_in_use Hr).
Defined.
(** Without a reserve nothing is left. *)
Example all_given_back : exists h', zend_mm_free_cache heap6 = Some h' /\ regions h' = ∅.
Proof. eexists. split; [vm_compute; reflexivity|reflexivity]. Qed.
Lemma heap_well_formed_witness : exists G, regions heap4 = seg_len <$> G /\ occupied G.
Proof. destruct (heap_well_formed 4096 heap4 pointers4 heap4_in_use) as (G & H1 & H2 & _). exact (ex_intro _ G (conj H1 H2)). Defined.
Lemma startup_makes_heap_witness : exists r, zend_mm_startup_ex 4096 12288 16 (fun _ => 5) = Some r /\
  match r with
  | None => forall k, 12288 <> 2 ^ k
  | Some (Returned p h) => p = 4096 /\ (exists k, 12288 = 2 ^ k) /\ started 4096 16 h
  | Some (Bailout _) => 0 < 16 /\ exists k, 12288 = 2 ^ k
  end.
Proof.
  apply (startup_makes_heap 4096 12288 16 (fun _ => 5)); [reflexivity|split; [discriminate|apply (small_request 12288); reflexivity]|apply (small_request 16); reflexivity].
Defined.
Lemma safe_address_exact_witness : safe_address 65536 65535 65536 = None.
Proof. rewrite (safe_address_exact 65536 65535 65536); [reflexivity|apply small_request; reflexivity..]. Defined.
