(* ===== verification/TimeLib.v ===== *)
(** * TimeLib: ext/date/lib, instants and broken-down times

    dow.c, tm2unixtime.c, unixtime2tm.c, interval.c and the part of parse_tz.c
    that looks a time zone up (reading the zone database is left out).  All of
    it computes with [timelib_sll], [long long]: a result that does not fit 64
    bits is undefined, [None], as is an index outside a table.  The fraction of
    a second, [f], which only [timelib_time_compare] looks at, is left out. *)
From Stdlib Require Import Ascii.
From S2P Require Import Prelude.

(** ** timelib_structs.h *)
Definition SLL_MAX : Z := 9223372036854775807.
Definition SLL_MIN : Z := -9223372036854775808.
Definition sll (z : Z) : option Z := if (SLL_MIN <=? z) && (z <=? SLL_MAX) then Some z else None.
(** Conversions between [timelib_sll] and [timelib_ull]. *)
Definition to_ull (z : Z) : Z := z mod 2 ^ 64.
Definition of_ull (z : Z) : Z := if z <? 2 ^ 63 then z else z - 2 ^ 64.

Definition TIMELIB_UNSET : Z := -99999.
Definition TIMELIB_SPECIAL_WEEKDAY : Z := 1.
Definition TIMELIB_SPECIAL_DAY_OF_WEEK_IN_MONTH : Z := 2.
Definition TIMELIB_SPECIAL_LAST_DAY_OF_WEEK_IN_MONTH : Z := 3.
Definition TIMELIB_SPECIAL_FIRST_DAY_OF_MONTH : Z := 1.
Definition TIMELIB_SPECIAL_LAST_DAY_OF_MONTH : Z := 2.
Definition TIMELIB_ZONETYPE_OFFSET : Z := 1.
Definition TIMELIB_ZONETYPE_ABBR : Z := 2.
Definition TIMELIB_ZONETYPE_ID : Z := 3.

Definition SECS_PER_ERA : Z := 12622780800.
Definition SECS_PER_DAY : Z := 86400.
Definition DAYS_PER_YEAR : Z := 365.
Definition DAYS_PER_LYEAR : Z := 366.
Definition DAYS_PER_LYEAR_PERIOD : Z := 146097.
Definition YEARS_PER_LYEAR_PERIOD : Z := 400.

Definition timelib_is_leap (y : Z) : bool :=
  (Z.rem y 4 =? 0) && (negb (Z.rem y 100 =? 0) || (Z.rem y 400 =? 0)).

Record ttinfo := { tt_offset : Z; tt_isdst : Z; tt_abbr_idx : Z }.
Record tlinfo := { tl_trans : Z; tl_offset : Z }.
(** [bit32] and [bit64]. *)
Record tz_counts := { cnt_ttisgmt : Z; cnt_ttisstd : Z; cnt_leap : Z; cnt_time : Z; cnt_type : Z; cnt_char : Z }.
(** Latitude and longitude as the integers of the file: degrees times 100000, from -90 and -180. *)
Record tlocinfo := { country_code : list Z; latitude : Z; longitude : Z; comments : list Z }.
(** [None] is a null pointer. *)
Record timelib_tzinfo := {
  tz_name : string; bit32 : tz_counts; bit64 : tz_counts;
  trans : option (list Z); trans_idx : list Z; type : list ttinfo;
  timezone_abbr : option (list ascii); leap_times : option (list tlinfo); bc : Z; location : tlocinfo
}.
Definition leapcnt (tz : timelib_tzinfo) : Z := cnt_leap (bit32 tz).
Definition timecnt (tz : timelib_tzinfo) : Z := cnt_time (bit32 tz).
Definition typecnt (tz : timelib_tzinfo) : Z := cnt_type (bit32 tz).
Record timelib_time_offset := {
  off_offset : Z; off_leap_secs : Z; off_is_dst : Z; off_abbr : string; transistion_time : Z
}.
Record timelib_special := { special_type : Z; amount : Z }.
Record timelib_rel_time := RelTime {
  rt_y : Z; rt_m : Z; rt_d : Z; rt_h : Z; rt_i : Z; rt_s : Z;
  weekday : Z; weekday_behavior : Z; first_last_day_of : Z; invert : Z; days : Z;
  special : timelib_special; have_weekday_relative : Z; have_special_relative : Z
}.
Record timelib_time := Time {
  tm_y : Z; tm_m : Z; tm_d : Z; tm_h : Z; tm_i : Z; tm_s : Z;
  tm_z : Z; tz_abbr : option string; tz_info : option timelib_tzinfo; tm_dst : Z;
  relative : timelib_rel_time; sse : Z;
  have_zone : Z; have_relative : Z; sse_uptodate : Z; tim_uptodate : Z; is_localtime : Z; zone_type : Z
}.
Definition no_rel : timelib_rel_time := RelTime 0 0 0 0 0 0 0 0 0 0 0 {| special_type := 0; amount := 0 |} 0 0.
Definition no_time : timelib_time := Time 0 0 0 0 0 0 0 None None 0 no_rel 0 0 0 0 0 0 0.

Definition set_date (y m d : Z) (t : timelib_time) : timelib_time :=
  let 'Time _ _ _ h i s z ab inf dst r e hz hr su tu il zt := t in Time y m d h i s z ab inf dst r e hz hr su tu il zt.
Definition set_hms (h i s : Z) (t : timelib_time) : timelib_time :=
  let 'Time y m d _ _ _ z ab inf dst r e hz hr su tu il zt := t in Time y m d h i s z ab inf dst r e hz hr su tu il zt.
Definition set_z (z : Z) (t : timelib_time) : timelib_time :=
  let 'Time y m d h i s _ ab inf dst r e hz hr su tu il zt := t in Time y m d h i s z ab inf dst r e hz hr su tu il zt.
Definition set_abbr (ab : option string) (t : timelib_time) : timelib_time :=
  let 'Time y m d h i s z _ inf dst r e hz hr su tu il zt := t in Time y m d h i s z ab inf dst r e hz hr su tu il zt.
Definition set_info (inf : option timelib_tzinfo) (t : timelib_time) : timelib_time :=
  let 'Time y m d h i s z ab _ dst r e hz hr su tu il zt := t in Time y m d h i s z ab inf dst r e hz hr su tu il zt.
Definition set_dst (dst : Z) (t : timelib_time) : timelib_time :=
  let 'Time y m d h i s z ab inf _ r e hz hr su tu il zt := t in Time y m d h i s z ab inf dst r e hz hr su tu il zt.
Definition set_relative (r : timelib_rel_time) (t : timelib_time) : timelib_time :=
  let 'Time y m d h i s z ab inf dst _ e hz hr su tu il zt := t in Time y m d h i s z ab inf dst r e hz hr su tu il zt.
Definition set_sse (e : Z) (t : timelib_time) : timelib_time :=
  let 'Time y m d h i s z ab inf dst r _ hz hr su tu il zt := t in Time y m d h i s z ab inf dst r e hz hr su tu il zt.
Definition set_have_zone (hz : Z) (t : timelib_time) : timelib_time :=
  let 'Time y m d h i s z ab inf dst r e _ hr su tu il zt := t in Time y m d h i s z ab inf dst r e hz hr su tu il zt.
Definition set_have_relative (hr : Z) (t : timelib_time) : timelib_time :=
  let 'Time y m d h i s z ab inf dst r e hz _ su tu il zt := t in Time y m d h i s z ab inf dst r e hz hr su tu il zt.
Definition set_uptodate (su tu : Z) (t : timelib_time) : timelib_time :=
  let 'Time y m d h i s z ab inf dst r e hz hr _ _ il zt := t in Time y m d h i s z ab inf dst r e hz hr su tu il zt.
Definition set_is_localtime (il : Z) (t : timelib_time) : timelib_time :=
  let 'Time y m d h i s z ab inf dst r e hz hr su tu _ zt := t in Time y m d h i s z ab inf dst r e hz hr su tu il zt.
Definition set_zone_type (zt : Z) (t : timelib_time) : timelib_time :=
  let 'Time y m d h i s z ab inf dst r e hz hr su tu il _ := t in Time y m d h i s z ab inf dst r e hz hr su tu il zt.

Definition set_rel_ymd (y m d : Z) (r : timelib_rel_time) : timelib_rel_time :=
  let 'RelTime _ _ _ h i s w wb fl inv ds sp hw hs := r in RelTime y m d h i s w wb fl inv ds sp hw hs.
Definition set_rel_hms (h i s : Z) (r : timelib_rel_time) : timelib_rel_time :=
  let 'RelTime y m d _ _ _ w wb fl inv ds sp hw hs := r in RelTime y m d h i s w wb fl inv ds sp hw hs.
Definition set_rel_weekday (w : Z) (r : timelib_rel_time) : timelib_rel_time :=
  let 'RelTime y m d h i s _ wb fl inv ds sp hw hs := r in RelTime y m d h i s w wb fl inv ds sp hw hs.
Definition set_rel_days (inv ds : Z) (r : timelib_rel_time) : timelib_rel_time :=
  let 'RelTime y m d h i s w wb fl _ _ sp hw hs := r in RelTime y m d h i s w wb fl inv ds sp hw hs.
Definition set_rel_special (sp : timelib_special) (r : timelib_rel_time) : timelib_rel_time :=
  let 'RelTime y m d h i s w wb fl inv ds _ hw hs := r in RelTime y m d h i s w wb fl inv ds sp hw hs.
Definition set_rel_have (hw hs : Z) (r : timelib_rel_time) : timelib_rel_time :=
  let 'RelTime y m d h i s w wb fl inv ds sp _ _ := r in RelTime y m d h i s w wb fl inv ds sp hw hs.

(** [tab[i]] *)
Definition elem {A} (tab : list A) (i : Z) : option A :=
  if (0 <=? i) && (i <? Z.of_nat (length tab)) then tab !! Z.to_nat i else None.

(** ** dow.c *)
Definition m_table_common : list Z := [-1; 0; 3; 3; 6; 1; 4; 6; 2; 5; 0; 3; 5].
Definition m_table_leap : list Z := [-1; 6; 2; 3; 6; 1; 4; 6; 2; 5; 0; 3; 5].

Definition positive_mod (x y : Z) : Z :=
  let tmp := Z.rem x y in if tmp <? 0 then tmp + y else tmp.
Definition century_value (j : Z) : Z := 6 - positive_mod j 4 * 2.

Definition timelib_day_of_week_ex (y m d : Z) (iso : bool) : option Z :=
  let c1 := century_value (Z.quot y 100) in
  let y1 := positive_mod y 100 in
  m1 ← elem (if timelib_is_leap y then m_table_leap else m_table_common) m;
  n ← sll (c1 + y1 + m1 + Z.quot y1 4 + d);
  let dow := positive_mod n 7 in
  Some (if iso && (dow =? 0) then 7 else dow).
Definition timelib_day_of_week (y m d : Z) : option Z := timelib_day_of_week_ex y m d false.
Definition timelib_iso_day_of_week (y m d : Z) : option Z := timelib_day_of_week_ex y m d true.

Definition d_table_common : list Z := [0; 0; 31; 59; 90; 120; 151; 181; 212; 243; 273; 304; 334].
Definition d_table_leap : list Z := [0; 0; 31; 60; 91; 121; 152; 182; 213; 244; 274; 305; 335].
Definition ml_table_common : list Z := [0; 31; 28; 31; 30; 31; 30; 31; 31; 30; 31; 30; 31].
Definition ml_table_leap : list Z := [0; 31; 29; 31; 30; 31; 30; 31; 31; 30; 31; 30; 31].

Definition timelib_day_of_year (y m d : Z) : option Z :=
  n ← elem (if timelib_is_leap y then d_table_leap else d_table_common) m;
  n ← sll (n + d); sll (n - 1).
Definition timelib_days_in_month (y m : Z) : option Z :=
  elem (if timelib_is_leap y then ml_table_leap else ml_table_common) m.

(** [*iw] and [*iy].  The local variables are [int]. *)
Definition timelib_isoweek_from_date (y m d : Z) : option (Z * Z) :=
  let y_leap := if timelib_is_leap y then 1 else 0 in
  y' ← sll (y - 1);
  let prev_y_leap := timelib_is_leap y' in
  doy ← timelib_day_of_year y m d;
  doy ← sll (doy + 1);
  let doy := to_int doy in
  doy ← int_value (if (y_leap =? 1) && (2 <? m) then doy + 1 else doy);
  jan1weekday ← timelib_day_of_week y 1 1;
  weekday ← timelib_day_of_week y m d;
  let weekday := if weekday =? 0 then 7 else weekday in
  let jan1weekday := if jan1weekday =? 0 then 7 else jan1weekday in
  if (doy <=? 8 - jan1weekday) && (4 <? jan1weekday) then
    Some (if (jan1weekday =? 5) || ((jan1weekday =? 6) && prev_y_leap) then 53 else 52, y')
  else
    left ← int_value ((if y_leap =? 1 then 366 else 365) - (doy - y_leap));
    if left <? 4 - weekday then y' ← sll (y + 1); Some (1, y')
    else
      j ← int_value (doy + (7 - weekday) + (jan1weekday - 1));
      let iw := Z.quot j 7 in
      Some (if 4 <? jan1weekday then iw - 1 else iw, y).

Definition timelib_daynr_from_weeknr (y w d : Z) : option Z :=
  dow ← timelib_day_of_week y 1 1;
  let day := 0 - (if 4 <? dow then dow - 7 else dow) in
  w ← sll (w - 1); w ← sll (w * 7); n ← sll (day + w); sll (n + d).

Definition timelib_valid_time (h i s : Z) : bool :=
  negb ((h <? 0) || (23 <? h) || (i <? 0) || (59 <? i) || (s <? 0) || (59 <? s)).
Definition timelib_valid_date (y m d : Z) : option bool :=
  if (m <? 1) || (12 <? m) || (d <? 1) then Some false
  else n ← timelib_days_in_month y m; Some (negb (n <? d)).

(** ** parse_tz.c: time zones *)

(** [while (j < timecnt && tz->type[tz->trans_idx[j]].isdst) ++j] *)
Fixpoint first_standard (fuel : nat) (tz : timelib_tzinfo) (j : Z) : option Z :=
  if j <? timecnt tz then
    idx ← elem (trans_idx tz) j; to ← elem (type tz) idx;
    if tt_isdst to =? 0 then Some j
    else match fuel with O => None | S fuel => first_standard fuel tz (j + 1) end
  else Some j.
(** The type that transition [i] leads to. *)
Definition transition_type (tz : timelib_tzinfo) (i : Z) : option ttinfo :=
  idx ← elem (trans_idx tz) i; elem (type tz) idx.
(** [for (i = 0; i < timecnt; i++)]; the transition before the first one that is later. *)
Fixpoint find_transition (fuel : nat) (tz : timelib_tzinfo) (tr : list Z) (ts i : Z) : option (ttinfo * Z) :=
  if i <? timecnt tz then
    x ← elem tr i;
    if ts <? x then t ← elem tr (i - 1); to ← transition_type tz (i - 1); Some (to, t)
    else match fuel with O => None | S fuel => find_transition fuel tz tr ts (i + 1) end
  else t ← elem tr (timecnt tz - 1); to ← transition_type tz (timecnt tz - 1); Some (to, t).

(** The type of local time, if there is one, and [*transition_time]. *)
Definition fetch_timezone_offset (tz : timelib_tzinfo) (ts : Z) : option (option ttinfo * Z) :=
  match (if timecnt tz =? 0 then None else trans tz) with
  | None => if typecnt tz =? 1 then to ← elem (type tz) 0; Some (Some to, 0) else Some (None, 0)
  | Some tr =>
      t0 ← elem tr 0;
      if ts <? t0 then
        j ← first_standard (Z.to_nat (timecnt tz)) tz 0;
        to ← transition_type tz (if j =? timecnt tz then 0 else j); Some (Some to, 0)
      else
        '(to, t) ← find_transition (Z.to_nat (timecnt tz)) tz tr ts 0; Some (Some to, t)
  end.

(** [for (i = leapcnt - 1; i > 0; i--)] *)
Fixpoint find_leap (fuel : nat) (l : list tlinfo) (ts i : Z) : option (option tlinfo) :=
  if 0 <? i then
    tl ← elem l i;
    if tl_trans tl <? ts then Some (Some tl)
    else match fuel with O => None | S fuel => find_leap fuel l ts (i - 1) end
  else Some None.
Definition fetch_leaptime_offset (tz : timelib_tzinfo) (ts : Z) : option (option tlinfo) :=
  match (if leapcnt tz =? 0 then None else leap_times tz) with
  | None => Some None
  | Some l => find_leap (Z.to_nat (leapcnt tz)) l ts (to_int (leapcnt tz - 1))
  end.

(** The string at an address: up to the first NUL. *)
Fixpoint c_string (l : list ascii) : option string :=
  match l with
  | [] => None
  | c :: l => if ascii_dec c zero then Some EmptyString else s ← c_string l; Some (String c s)
  end.

Definition timelib_timestamp_is_in_dst (ts : Z) (tz : timelib_tzinfo) : option Z :=
  '(to, _) ← fetch_timezone_offset tz ts; Some (match to with Some to => tt_isdst to | None => -1 end).

Definition timelib_get_time_zone_info (ts : Z) (tz : timelib_tzinfo) : option timelib_time_offset :=
  '(to, t) ← fetch_timezone_offset tz ts;
  tl ← fetch_leaptime_offset tz ts;
  leap_secs ← match tl with Some tl => int_value (- tl_offset tl) | None => Some 0 end;
  match to with
  | Some to =>
      abbr ← match timezone_abbr tz with
             | Some l => c_string (drop (Z.to_nat (tt_abbr_idx to)) l)
             | None => if tt_abbr_idx to =? 0 then Some "GMT"%string else None
             end;
      Some {| off_offset := tt_offset to; off_leap_secs := to_uint leap_secs; off_is_dst := to_uint (tt_isdst to); off_abbr := abbr; transistion_time := t |}
  | None =>
      abbr ← match timezone_abbr tz with Some l => c_string l | None => Some "GMT"%string end;
      Some {| off_offset := 0; off_leap_secs := to_uint leap_secs; off_is_dst := 0; off_abbr := abbr; transistion_time := 0 |}
  end.

Definition timelib_get_current_offset (t : timelib_time) : option Z :=
  if (zone_type t =? TIMELIB_ZONETYPE_ABBR) || (zone_type t =? TIMELIB_ZONETYPE_OFFSET) then
    n ← int_value (tm_z t + tm_dst t); int_value (n * -60)
  else if zone_type t =? TIMELIB_ZONETYPE_ID then
    tz ← tz_info t; o ← timelib_get_time_zone_info (sse t) tz; Some (off_offset o)
  else Some 0.

(** ** unixtime2tm.c *)
Definition month_tab_leap : list Z := [-1; 30; 59; 90; 120; 151; 181; 212; 243; 273; 304; 334].
Definition month_tab : list Z := [0; 31; 59; 90; 120; 151; 181; 212; 243; 273; 304; 334].
Definition year_days (y : Z) : Z := if timelib_is_leap y then DAYS_PER_LYEAR else DAYS_PER_YEAR.

(** The two loops over the years; [tmp_days] and [cur_year]. *)
Fixpoint later_years (fuel : nat) (tmp_days cur_year : Z) : option (Z * Z) :=
  if DAYS_PER_LYEAR <=? tmp_days then
    match fuel with
    | O => None
    | S fuel => cur_year ← sll (cur_year + 1); later_years fuel (tmp_days - year_days cur_year) cur_year
    end
  else Some (tmp_days, cur_year).
Fixpoint earlier_years (fuel : nat) (tmp_days cur_year : Z) : option (Z * Z) :=
  if tmp_days <=? 0 then
    match fuel with
    | O => None
    | S fuel =>
        if tmp_days <? -1460970 then cur_year ← sll (cur_year - 4000); earlier_years fuel (tmp_days + 1460970) cur_year
        else cur_year ← sll (cur_year - 1); earlier_years fuel (tmp_days + year_days cur_year) cur_year
    end
  else Some (tmp_days, cur_year).
(** [while (i > 0) { if (tmp_days > months[i]) break; i--; }] *)
Fixpoint find_month (months : list Z) (tmp_days : Z) (i : nat) : option nat :=
  match i with
  | O => Some O
  | S j => x ← months !! i; if x <? tmp_days then Some i else find_month months tmp_days j
  end.

Definition timelib_unixtime2gmt (tm : timelib_time) (ts : Z) : option timelib_time :=
  let days := Z.quot ts SECS_PER_DAY in
  let remainder := ts - days * SECS_PER_DAY in
  let '(days, remainder) := if (ts <? 0) && (remainder =? 0) then (days + 1, remainder - SECS_PER_DAY) else (days, remainder) in
  '(tmp_days, cur_year, remainder) ←
    (if 0 <=? ts then
       let tmp_days := days + 1 in
       let k := if (DAYS_PER_LYEAR_PERIOD <=? tmp_days) || (tmp_days <=? - DAYS_PER_LYEAR_PERIOD) then Z.quot tmp_days DAYS_PER_LYEAR_PERIOD else 0 in
       '(tmp_days, cur_year) ← later_years 400 (tmp_days - DAYS_PER_LYEAR_PERIOD * k) (1970 + YEARS_PER_LYEAR_PERIOD * k);
       Some (tmp_days, cur_year, remainder)
     else
       '(tmp_days, cur_year) ← earlier_years (Z.to_nat (Z.quot (- days) 1460970 + 4004)) days 1970;
       Some (tmp_days, cur_year, remainder + SECS_PER_DAY));
  let months := if timelib_is_leap cur_year then month_tab_leap else month_tab in
  let tmp_days := if timelib_is_leap cur_year && (cur_year <? 1970) then tmp_days - 1 else tmp_days in
  i ← find_month months tmp_days 11;
  x ← months !! i;
  let hours := Z.quot remainder 3600 in
  let minutes := Z.quot (remainder - hours * 3600) 60 in
  let seconds := Z.rem remainder 60 in
  Some (set_is_localtime 0 (set_uptodate 1 1 (set_sse ts (set_dst 0 (set_z 0
         (set_hms hours minutes seconds (set_date cur_year (Z.of_nat i + 1) (tmp_days - x) tm))))))).

(** [ts - (tm->z * 60) + (tm->dst * 3600)] *)
Definition shifted (ts : Z) (t : timelib_time) : option Z :=
  z ← int_value (tm_z t * 60); dst ← int_value (tm_dst t * 3600); n ← sll (ts - z); sll (n + dst).

Definition timelib_update_from_sse (tm : timelib_time) : option timelib_time :=
  let e := sse tm in
  let z := tm_z tm in
  let dst := tm_dst tm in
  tm ← (if (zone_type tm =? TIMELIB_ZONETYPE_ABBR) || (zone_type tm =? TIMELIB_ZONETYPE_OFFSET) then n ← shifted e tm; timelib_unixtime2gmt tm n
        else if zone_type tm =? TIMELIB_ZONETYPE_ID then
          tz ← tz_info tm; o ← timelib_get_time_zone_info e tz; n ← sll (e + off_offset o); timelib_unixtime2gmt tm n
        else timelib_unixtime2gmt tm e);
  Some (set_dst dst (set_z z (set_have_zone 1 (set_is_localtime 1 (set_sse e tm))))).

Definition upper (c : ascii) : ascii :=
  let n := nat_of_ascii c in if (97 <=? n)%nat && (n <=? 122)%nat then ascii_of_nat (n - 32) else c.
Fixpoint upper_string (s : string) : string :=
  match s with EmptyString => EmptyString | String c s => String (upper c) (upper_string s) end.
Definition timelib_time_tz_abbr_update (abbr : string) (tm : timelib_time) : timelib_time := set_abbr (Some (upper_string abbr)) tm.

Definition timelib_unixtime2local (tm : timelib_time) (ts : Z) : option timelib_time :=
  if (zone_type tm =? TIMELIB_ZONETYPE_ABBR) || (zone_type tm =? TIMELIB_ZONETYPE_OFFSET) then
    n ← shifted ts tm; r ← timelib_unixtime2gmt tm n;
    Some (set_have_zone 1 (set_is_localtime 1 (set_dst (tm_dst tm) (set_z (tm_z tm) r))))
  else if zone_type tm =? TIMELIB_ZONETYPE_ID then
    tz ← tz_info tm; o ← timelib_get_time_zone_info ts tz; n ← sll (ts + off_offset o); r ← timelib_unixtime2gmt tm n;
    Some (set_have_zone 1 (set_is_localtime 1 (timelib_time_tz_abbr_update (off_abbr o)
           (set_info (Some tz) (set_z (off_offset o) (set_dst (to_int (off_is_dst o)) (set_sse ts r)))))))
  else Some (set_have_zone 0 (set_is_localtime 0 tm)).

Definition timelib_set_timezone_from_offset (utc_offset : Z) (t : timelib_time) : timelib_time :=
  set_info None (set_dst 0 (set_zone_type TIMELIB_ZONETYPE_OFFSET (set_have_zone 1 (set_z (to_int utc_offset) (set_abbr None t))))).
Definition timelib_set_timezone_from_abbr (utc_offset : Z) (abbr : string) (dst : Z) (t : timelib_time) : timelib_time :=
  set_info None (set_dst dst (set_zone_type TIMELIB_ZONETYPE_ABBR (set_have_zone 1 (set_z (to_int utc_offset) (set_abbr (Some abbr) t))))).
Definition timelib_set_timezone (tz : timelib_tzinfo) (t : timelib_time) : option timelib_time :=
  o ← timelib_get_time_zone_info (sse t) tz;
  Some (set_zone_type TIMELIB_ZONETYPE_ID (set_have_zone 1 (set_abbr (Some (off_abbr o)) (set_info (Some tz)
         (set_dst (to_int (off_is_dst o)) (set_z (off_offset o) t)))))).

(** The time, and the return value. *)
Definition timelib_apply_localtime (t : timelib_time) (localtime : bool) : option (timelib_time * Z) :=
  if localtime then
    match tz_info t with
    | None => Some (t, -1)
    | Some _ => t ← timelib_unixtime2local t (sse t); Some (t, 0)
    end
  else t ← timelib_unixtime2gmt t (sse t); Some (t, 0).

(** ** tm2unixtime.c: ranges *)
Definition days_in_month_leap : list Z := [31; 31; 29; 31; 30; 31; 30; 31; 31; 30; 31; 30; 31].
Definition days_in_month : list Z := [31; 31; 28; 31; 30; 31; 30; 31; 31; 30; 31; 30; 31].
Definition month_days (y m : Z) : option Z := elem (if timelib_is_leap y then days_in_month_leap else days_in_month) m.

(** [*a] and [*b]. *)
Definition do_range_limit (start stop adj a b : Z) : option (Z * Z) :=
  '(a, b) ← (if a <? start then
               n ← sll (start - a);
               let n := Z.quot (n - 1) adj + 1 in
               b ← sll (b - n); k ← sll (adj * n); a ← sll (a + k); Some (a, b)
             else Some (a, b));
  if stop <=? a then b ← sll (b + Z.quot a adj); Some (a - adj * Z.quot a adj, b) else Some (a, b).

Definition inc_month (y m : Z) : option (Z * Z) :=
  m ← sll (m + 1); if 12 <? m then y ← sll (y + 1); Some (y, m - 12) else Some (y, m).
Definition dec_month (y m : Z) : option (Z * Z) :=
  m ← sll (m - 1); if m <? 1 then y ← sll (y - 1); Some (y, m + 12) else Some (y, m).

(** [while ( *d < 0)]: the month before is added, or the month itself. *)
Fixpoint borrow_days (fuel : nat) (inverted : bool) (year month m d : Z) : option (Z * Z) :=
  if d <? 0 then
    match fuel with
    | O => None
    | S fuel =>
        '(year, month) ← (if inverted then Some (year, month) else dec_month year month);
        n ← month_days year month;
        m ← sll (m - 1);
        '(year, month) ← (if inverted then inc_month year month else Some (year, month));
        borrow_days fuel inverted year month m (d + n)
    end
  else Some (m, d).
(** [*base_y], [*base_m], [*m] and [*d]. *)
Definition do_range_limit_days_relative (base_y base_m m d : Z) (invert : bool) : option (Z * Z * Z * Z) :=
  '(base_m, base_y) ← do_range_limit 1 13 12 base_m base_y;
  '(m, d) ← borrow_days (Z.to_nat (Z.quot (- d) 28 + 1)) invert base_y base_m m d;
  Some (base_y, base_m, m, d).

(** [*y], [*m], [*d], and whether to go on. *)
Definition do_range_limit_days (y m d : Z) : option (Z * Z * Z * bool) :=
  '(y, d) ← (if (DAYS_PER_LYEAR_PERIOD <=? d) || (d <=? - DAYS_PER_LYEAR_PERIOD) then
               let k := Z.quot d DAYS_PER_LYEAR_PERIOD in
               y ← sll (y + YEARS_PER_LYEAR_PERIOD * k); Some (y, d - DAYS_PER_LYEAR_PERIOD * k)
             else Some (y, d));
  '(m, y) ← do_range_limit 1 13 12 m y;
  days_this_month ← month_days y m;
  '(last_year, last_month) ← (if m - 1 <? 1 then y' ← sll (y - 1); Some (y', m - 1 + 12) else Some (y, m - 1));
  days_last_month ← month_days last_year last_month;
  if d <=? 0 then Some (y, m - 1, d + days_last_month, true)
  else if days_this_month <? d then Some (y, m + 1, d - days_this_month, true)
  else Some (y, m, d, false).
(** [do {} while (do_range_limit_days(...))] *)
Fixpoint range_limit_days (fuel : nat) (y m d : Z) : option (Z * Z * Z) :=
  '(y, m, d, again) ← do_range_limit_days y m d;
  if again : bool then match fuel with O => None | S fuel => range_limit_days fuel y m d end
  else Some (y, m, d).
(** A period of 400 years has no more than 5218 months of 28 days. *)
Definition months_in_period : nat := Z.to_nat 5220.

(** The base (its year and month) and the interval. *)
Definition timelib_do_rel_normalize (base : timelib_time) (rt : timelib_rel_time) : option (timelib_time * timelib_rel_time) :=
  '(s, i) ← do_range_limit 0 60 60 (rt_s rt) (rt_i rt);
  '(i, h) ← do_range_limit 0 60 60 i (rt_h rt);
  '(h, d) ← do_range_limit 0 24 24 h (rt_d rt);
  '(m, y) ← do_range_limit 0 12 12 (rt_m rt) (rt_y rt);
  '(base_y, base_m, m, d) ← do_range_limit_days_relative (tm_y base) (tm_m base) m d (negb (invert rt =? 0));
  '(m, y) ← do_range_limit 0 12 12 m y;
  Some (set_date base_y base_m (tm_d base) base, set_rel_ymd y m d (set_rel_hms h i s rt)).

Definition timelib_do_normalize (t : timelib_time) : option timelib_time :=
  '(s, i) ← (if tm_s t =? TIMELIB_UNSET then Some (tm_s t, tm_i t) else do_range_limit 0 60 60 (tm_s t) (tm_i t));
  '(i, h) ← (if s =? TIMELIB_UNSET then Some (i, tm_h t) else do_range_limit 0 60 60 i (tm_h t));
  '(h, d) ← (if s =? TIMELIB_UNSET then Some (h, tm_d t) else do_range_limit 0 24 24 h (tm_d t));
  '(m, y) ← do_range_limit 1 13 12 (tm_m t) (tm_y t);
  '(y, m, d) ← range_limit_days months_in_period y m d;
  '(m, y) ← do_range_limit 1 13 12 m y;
  Some (set_date y m d (set_hms h i s t)).

(** ** tm2unixtime.c: relative times *)
Definition do_adjust_for_weekday (t : timelib_time) : option timelib_time :=
  let r := relative t in
  current_dow ← timelib_day_of_week (tm_y t) (tm_m t) (tm_d t);
  if weekday_behavior r =? 2 then
    let r := if (current_dow =? 0) && negb (weekday r =? 0) then set_rel_weekday (-6) r else r in
    let r := if (weekday r =? 0) && negb (current_dow =? 0) then set_rel_weekday 7 r else r in
    d ← sll (tm_d t - current_dow); d ← sll (d + weekday r);
    Some (set_date (tm_y t) (tm_m t) d (set_relative r t))
  else
    let difference := weekday r - current_dow in
    behind ← (if (rt_d r <? 0) && (difference <? 0) then Some true
              else if 0 <=? rt_d r then n ← int_value (- weekday_behavior r); Some (difference <=? n) else Some false);
    let difference := if behind : bool then difference + 7 else difference in
    d ← (if 0 <=? weekday r then sll (tm_d t + difference)
         else w ← int_value (Z.abs (weekday r)); sll (tm_d t - (7 - (w - current_dow))));
    Some (set_date (tm_y t) (tm_m t) d (set_relative (set_rel_have 0 (have_special_relative r) r) t)).

(** [case]s of [first_last_day_of]. *)
Definition do_first_last (t : timelib_time) : option timelib_time :=
  if first_last_day_of (relative t) =? TIMELIB_SPECIAL_FIRST_DAY_OF_MONTH then Some (set_date (tm_y t) (tm_m t) 1 t)
  else if first_last_day_of (relative t) =? TIMELIB_SPECIAL_LAST_DAY_OF_MONTH then
    m ← sll (tm_m t + 1); Some (set_date (tm_y t) m 0 t)
  else Some t.

Definition do_adjust_relative (t : timelib_time) : option timelib_time :=
  t ← (if have_weekday_relative (relative t) =? 0 then Some t else do_adjust_for_weekday t);
  t ← timelib_do_normalize t;
  t ← (if have_relative t =? 0 then Some t
       else
         let r := relative t in
         s ← sll (tm_s t + rt_s r); i ← sll (tm_i t + rt_i r); h ← sll (tm_h t + rt_h r);
         d ← sll (tm_d t + rt_d r); m ← sll (tm_m t + rt_m r); y ← sll (tm_y t + rt_y r);
         Some (set_date y m d (set_hms h i s t)));
  t ← do_first_last t;
  timelib_do_normalize t.

Definition do_adjust_special_weekday (t : timelib_time) : option timelib_time :=
  let count := amount (special (relative t)) in
  dow ← timelib_day_of_week (tm_y t) (tm_m t) (tm_d t);
  d ← sll (tm_d t + Z.quot count 5 * 7);
  let rem := Z.rem count 5 in
  d ← sll (d +
    (if 0 <? count then
       if rem =? 0 then if dow =? 0 then -2 else if dow =? 6 then -1 else 0
       else if dow =? 6 then 1
       else if 5 <? dow + rem then 2 else 0
     else
       if rem =? 0 then if dow =? 6 then 2 else if dow =? 0 then 1 else 0
       else if dow =? 0 then -1
       else if dow + rem <? 1 then -2 else 0));
  d ← sll (d + rem);
  Some (set_date (tm_y t) (tm_m t) d t).

Definition do_adjust_special (t : timelib_time) : option timelib_time :=
  t ← (if negb (have_special_relative (relative t) =? 0) && (special_type (special (relative t)) =? TIMELIB_SPECIAL_WEEKDAY)
       then do_adjust_special_weekday t else Some t);
  t ← timelib_do_normalize t;
  Some (set_relative (set_rel_special {| special_type := 0; amount := 0 |} (relative t)) t).

Definition do_adjust_special_early (t : timelib_time) : option timelib_time :=
  t ← (if have_special_relative (relative t) =? 0 then Some t
       else
         let r := relative t in
         if special_type (special r) =? TIMELIB_SPECIAL_DAY_OF_WEEK_IN_MONTH then
           m ← sll (tm_m t + rt_m r);
           Some (set_relative (set_rel_ymd (rt_y r) 0 (rt_d r) r) (set_date (tm_y t) m 1 t))
         else if special_type (special r) =? TIMELIB_SPECIAL_LAST_DAY_OF_WEEK_IN_MONTH then
           n ← sll (rt_m r + 1); m ← sll (tm_m t + n);
           Some (set_relative (set_rel_ymd (rt_y r) 0 (rt_d r) r) (set_date (tm_y t) m 1 t))
         else Some t);
  t ← do_first_last t;
  timelib_do_normalize t.

(** ** tm2unixtime.c: seconds since the epoch *)
Definition year_secs (y : Z) : Z := year_days y * SECS_PER_DAY.
(** [for (i = year - 1; i >= 1970; i--)] and [for (i = 1969; i >= year; i--)] *)
Fixpoint years_since (fuel : nat) (i res : Z) : option Z :=
  if 1970 <=? i then
    match fuel with O => None | S fuel => res ← sll (res + year_secs i); years_since fuel (i - 1) res end
  else Some res.
Fixpoint years_before (fuel : nat) (year i res : Z) : option Z :=
  if year <=? i then
    match fuel with O => None | S fuel => res ← sll (res - year_secs i); years_before fuel year (i - 1) res end
  else Some res.
Definition do_years (year : Z) : option Z :=
  n ← sll (year - 1970);
  let eras := Z.quot n 40000 in
  let year := year - eras * 40000 in
  res ← (if eras =? 0 then Some 0 else n ← sll (SECS_PER_ERA * eras); sll (n * 100));
  if 1970 <=? year then years_since (Z.to_nat (year - 1970)) (year - 1) res
  else years_before (Z.to_nat (1970 - year)) year 1969 res.
(** The arguments are unsigned. *)
Definition do_months (month year : Z) : option Z :=
  let leap := timelib_is_leap (to_ull year) in
  x ← elem (if leap then month_tab_leap else month_tab) (to_ull (to_ull month - 1));
  Some ((if leap then x + 1 else x) * SECS_PER_DAY).
Definition do_days (day : Z) : Z := of_ull (to_ull ((day - 1) * SECS_PER_DAY)).
Definition do_time (hour minute second : Z) : Z := of_ull (to_ull (hour * 3600 + minute * 60 + second)).

(** The time, and what to add. *)
Definition do_adjust_timezone (tz : timelib_time) (tzi : option timelib_tzinfo) : option (timelib_time * Z) :=
  if zone_type tz =? TIMELIB_ZONETYPE_OFFSET then
    n ← int_value (tm_z tz * 60); Some (set_is_localtime 1 tz, n)
  else if zone_type tz =? TIMELIB_ZONETYPE_ABBR then
    dst ← int_value (tm_dst tz * 60); n ← sll ((tm_z tz - dst) * 60); Some (set_is_localtime 1 tz, n)
  else
    match (if zone_type tz =? TIMELIB_ZONETYPE_ID then tz_info tz else tzi) with
    | None => Some (tz, 0)
    | Some tzi =>
        let tz := set_is_localtime 1 tz in
        before ← timelib_get_time_zone_info (sse tz) tzi;
        n ← sll (sse tz - off_offset before);
        after ← timelib_get_time_zone_info n tzi;
        tz ← timelib_set_timezone tzi tz;
        since ← sll (sse tz - off_offset after);
        change ← int_value (off_offset before - off_offset after);
        start ← sll (transistion_time after + change);
        let in_transistion := (start <=? since) && (since <? transistion_time after) in
        tmp ← int_value (if negb (off_offset before =? off_offset after) && negb in_transistion then - off_offset after else - tm_z tz);
        n ← sll (sse tz + tmp);
        gmt_offset ← timelib_get_time_zone_info n tzi;
        Some (set_abbr (Some (off_abbr gmt_offset)) (set_dst (to_int (off_is_dst gmt_offset)) (set_z (off_offset gmt_offset) tz)), tmp)
    end.

Definition timelib_update_ts (t : timelib_time) (tzi : option timelib_tzinfo) : option timelib_time :=
  t ← do_adjust_special_early t;
  t ← do_adjust_relative t;
  t ← do_adjust_special t;
  res ← do_years (tm_y t);
  n ← do_months (tm_m t) (tm_y t); res ← sll (res + n);
  res ← sll (res + do_days (tm_d t));
  res ← sll (res + do_time (tm_h t) (tm_i t) (tm_s t));
  '(t, n) ← do_adjust_timezone (set_sse res t) tzi;
  res ← sll (res + n);
  let t := set_sse res t in
  Some (set_have_relative 0 (set_relative (set_rel_have 0 0 (relative t)) (set_uptodate 1 (tim_uptodate t) t))).

(** ** interval.c *)
Definition timelib_diff (one two : timelib_time) : option timelib_rel_time :=
  let inverted := sse two <? sse one in
  let '(one, two) := if inverted then (two, one) else (one, two) in
  dst_corr ← match tz_info one, tz_info two with
             | Some tz1, Some tz2 =>
                 if (zone_type one =? 3) && (zone_type two =? 3) && bool_decide (tz_name tz1 = tz_name tz2) && negb (tm_z one =? tm_z two)
                 then int_value (tm_z two - tm_z one) else Some 0
             | _, _ => if (zone_type one =? 3) && (zone_type two =? 3) then None else Some 0
             end;
  let dst_h_corr := Z.quot dst_corr 3600 in
  let dst_m_corr := Z.quot (Z.rem dst_corr 3600) 60 in
  '(g1, _) ← timelib_apply_localtime one false;
  '(g2, _) ← timelib_apply_localtime two false;
  y ← sll (tm_y g2 - tm_y g1); m ← sll (tm_m g2 - tm_m g1); d ← sll (tm_d g2 - tm_d g1);
  h ← sll (tm_h g2 - tm_h g1); i ← sll (tm_i g2 - tm_i g1); s ← sll (tm_s g2 - tm_s g1);
  a_day ← sll (sse g1 + 86400);
  '(h, i) ← (if (tm_dst one =? 0) && (tm_dst two =? 1) then
               limit ← sll (a_day - dst_corr);
               if limit <=? sse g2 then h ← sll (h + dst_h_corr); i ← sll (i + dst_m_corr); Some (h, i) else Some (h, i)
             else Some (h, i));
  n ← sll (sse g1 - sse g2); n ← sll (n - dst_h_corr * 3600); n ← sll (n - dst_m_corr * 60);
  let rt := set_rel_days (if inverted then 1 else 0) (Z.abs (Z.quot n 86400)) (set_rel_hms h i s (set_rel_ymd y m d no_rel)) in
  '(_, rt) ← timelib_do_rel_normalize (if inverted then g1 else g2) rt;
  if (tm_dst one =? 1) && (tm_dst two =? 0) && (a_day <=? sse g2) then
    limit ← sll (a_day - dst_corr);
    if sse g2 <? limit then d ← sll (rt_d rt - 1); Some (set_rel_hms 24 (rt_i rt) (rt_s rt) (set_rel_ymd (rt_y rt) (rt_m rt) d rt))
    else h ← sll (rt_h rt + dst_h_corr); i ← sll (rt_i rt + dst_m_corr); Some (set_rel_hms h i (rt_s rt) rt)
  else Some rt.

(** The fields of an interval times [bias]. *)
Definition biased (bias : Z) (r : timelib_rel_time) : option timelib_rel_time :=
  y ← sll (rt_y r * bias); m ← sll (rt_m r * bias); d ← sll (rt_d r * bias);
  h ← sll (rt_h r * bias); i ← sll (rt_i r * bias); s ← sll (rt_s r * bias);
  Some (set_rel_hms h i s (set_rel_ymd y m d no_rel)).
(** "Adjust for DST changeover": the clock is put forward or back. *)
Definition changeover (old t : timelib_time) : option timelib_time :=
  n ← sll (sse t - tm_z old); n ← sll (n + tm_z t); Some (set_sse n t).
Definition whole_days (r : timelib_rel_time) : bool := negb (rt_y r =? 0) || negb (rt_m r =? 0) || negb (rt_d r =? 0).

Definition timelib_add (old_time : timelib_time) (interval : timelib_rel_time) : option timelib_time :=
  r ← (if negb (have_weekday_relative interval =? 0) || negb (have_special_relative interval =? 0) then Some interval
       else biased (if invert interval =? 0 then 1 else -1) interval);
  t ← timelib_update_ts (set_uptodate 0 (tim_uptodate old_time) (set_have_relative 1 (set_relative r old_time))) None;
  t ← (if (tm_dst old_time =? 1) && (tm_dst t =? 0) && negb (whole_days interval) then changeover old_time t else Some t);
  t ← timelib_update_from_sse t;
  Some (set_have_relative 0 t).

Definition timelib_sub (old_time : timelib_time) (interval : timelib_rel_time) : option timelib_time :=
  r ← biased (if invert interval =? 0 then 1 else -1) interval;
  r ← biased (-1) r;
  t ← timelib_update_ts (set_uptodate 0 (tim_uptodate old_time) (set_have_relative 1 (set_relative r old_time))) None;
  t ← (if (tm_dst old_time =? 1) && (tm_dst t =? 0) && negb (whole_days interval) then changeover old_time t else Some t);
  t ← (if (tm_dst old_time =? 0) && (tm_dst t =? 1) && negb (whole_days interval) then changeover old_time t else Some t);
  t ← timelib_update_from_sse t;
  Some (set_have_relative 0 t).
