(* ===== verification/TimeSpec.v ===== *)
(** * TimeSpec: days, months and seconds since the epoch

    The proleptic Gregorian calendar by its rules: the length of a year follows
    from the leap-year rule of [CalendarSpec], the length of a month from its
    table.  Months are counted through, [12 * y + m - 1], so that a date with a
    month or a day out of range has a meaning, too. *)
From S2P Require Import Prelude Calendar CalendarSpec TimeLib.

(** Days of the years 0, ..., [y - 1]. *)
Definition year_start (y : Z) : Z := 365 * y + (y + 3) / 4 - (y + 99) / 100 + (y + 399) / 400.
Definition year_length (y : Z) : Z := if gregorian_leap y then 366 else 365.
Lemma year_start_succ y : year_start (y + 1) = year_start y + year_length y.
Proof.
  unfold year_start, year_length, gregorian_leap.
  destruct (Z.eqb_spec (y mod 4) 0), (Z.eqb_spec (y mod 100) 0), (Z.eqb_spec (y mod 400) 0); simpl; Z.to_euclidean_division_equations; lia.
Qed.
Lemma year_start_pred y : year_start (y - 1) = year_start y - year_length (y - 1).
Proof. pose proof (year_start_succ (y - 1)) as E. replace (y - 1 + 1) with y in E by lia. lia. Qed.
Lemma year_start_period y k : year_start (y + 400 * k) = year_start y + 146097 * k.
Proof. unfold year_start. Z.to_euclidean_division_equations. lia. Qed.
Lemma leap_period y k : gregorian_leap (y + 400 * k) = gregorian_leap y.
Proof.
  unfold gregorian_leap. replace ((y + 400 * k) mod 4) with (y mod 4) by (Z.to_euclidean_division_equations; lia).
  replace ((y + 400 * k) mod 100) with (y mod 100) by (Z.to_euclidean_division_equations; lia).
  by replace ((y + 400 * k) mod 400) with (y mod 400) by (Z.to_euclidean_division_equations; lia).
Qed.
Lemma year_length_bounds y : 365 <= year_length y <= 366.
Proof. unfold year_length. case_match; lia. Qed.
Lemma year_start_mono y z : y <= z -> 365 * (z - y) <= year_start z - year_start y <= 366 * (z - y).
Proof. intros Hle. unfold year_start. Z.to_euclidean_division_equations. lia. Qed.

(** ** Months *)
Definition before_month (leap : bool) (m : Z) : Z := foldr (fun k n => month_length leap k + n) 0 (seqZ 1 (m - 1)).
Definition month_start (k : Z) : Z := year_start (k / 12) - year_start 1970 + before_month (gregorian_leap (k / 12)) (k mod 12 + 1).
Definition month_len (k : Z) : Z := month_length (gregorian_leap (k / 12)) (k mod 12 + 1).
Definition month_index (y m : Z) : Z := 12 * y + m - 1.

Lemma month_cases m : 1 <= m <= 12 -> m = 1 \/ m = 2 \/ m = 3 \/ m = 4 \/ m = 5 \/ m = 6 \/ m = 7 \/ m = 8 \/ m = 9 \/ m = 10 \/ m = 11 \/ m = 12.
Proof. lia. Qed.
(** A case for each month, [H : 1 <= m <= 12]. *)
Ltac by_month H := destruct (month_cases _ H) as [->|[->|[->|[->|[->|[->|[->|[->|[->|[->|[->| ->]]]]]]]]]]].

Lemma month_len_bounds k : 28 <= month_len k <= 31.
Proof. apply month_length_bounds. Qed.
Lemma before_month_succ leap m : 1 <= m <= 11 -> before_month leap (m + 1) = before_month leap m + month_length leap m.
Proof. intros Hm. by_month (conj (proj1 Hm) (Z.le_trans _ _ _ (proj2 Hm) (ltac:(lia) : 11 <= 12))); try lia; destruct leap; reflexivity. Qed.
Lemma before_month_last leap : before_month leap 12 + month_length leap 12 = if leap then 366 else 365.
Proof. by destruct leap. Qed.
Lemma before_month_range leap m : 1 <= m <= 12 -> 0 <= before_month leap m <= 335.
Proof. intros Hm. by_month Hm; destruct leap; vm_compute; split; discriminate. Qed.

Lemma index_split y m : 1 <= m <= 12 -> month_index y m / 12 = y /\ month_index y m mod 12 + 1 = m.
Proof. intros Hm. unfold month_index. Z.to_euclidean_division_equations. lia. Qed.
Lemma month_start_index y m : 1 <= m <= 12 -> month_start (month_index y m) = year_start y - year_start 1970 + before_month (gregorian_leap y) m.
Proof. intros Hm. unfold month_start. by destruct (index_split y m Hm) as [-> ->]. Qed.
Lemma month_len_index y m : 1 <= m <= 12 -> month_len (month_index y m) = month_length (gregorian_leap y) m.
Proof. intros Hm. unfold month_len. by destruct (index_split y m Hm) as [-> ->]. Qed.
Lemma month_start_succ k : month_start (k + 1) = month_start k + month_len k.
Proof.
  pose proof (Z.div_mod k 12 ltac:(lia)) as E. pose proof (Z.mod_pos_bound k 12 ltac:(lia)) as B.
  set (y := k / 12) in *. set (m := k mod 12 + 1). assert (Ek : k = month_index y m) by (unfold month_index, m; lia). rewrite Ek.
  rewrite month_len_index by (unfold m; lia). rewrite month_start_index by (unfold m; lia). destruct (Z.eq_dec m 12) as [Em|Em].
  - replace (month_index y m + 1) with (month_index (y + 1) 1) by (unfold month_index; lia). rewrite month_start_index by lia.
    rewrite year_start_succ, Em. pose proof (before_month_last (gregorian_leap y)). unfold year_length. change (before_month (gregorian_leap (y + 1)) 1) with 0. lia.
  - replace (month_index y m + 1) with (month_index y (m + 1)) by (unfold month_index; lia). rewrite month_start_index by (unfold m in *; lia).
    rewrite before_month_succ by (unfold m in *; lia). lia.
Qed.
Lemma month_start_period k j : month_start (k + 4800 * j) = month_start k + 146097 * j.
Proof.
  unfold month_start. replace ((k + 4800 * j) / 12) with (k / 12 + 400 * j) by (Z.to_euclidean_division_equations; lia).
  replace ((k + 4800 * j) mod 12) with (k mod 12) by (Z.to_euclidean_division_equations; lia). rewrite year_start_period, leap_period. lia.
Qed.

(** ** Dates and times *)

(** Days since 1970-01-01, and seconds. *)
Definition epoch_day (y m d : Z) : Z := month_start (month_index y m) + d - 1.
Definition moment (y m d h i s : Z) : Z := epoch_day y m d * 86400 + h * 3600 + i * 60 + s.
(** Conversion unfolds them before arithmetic. *)
#[global] Strategy expand [moment epoch_day].
Definition date_ok (y m d : Z) : Prop := 1 <= m <= 12 /\ 1 <= d <= month_length (gregorian_leap y) m.
Definition time_ok (h i s : Z) : Prop := 0 <= h <= 23 /\ 0 <= i <= 59 /\ 0 <= s <= 59.

(** The epoch is a Thursday; 0 is Sunday. *)
Definition day_of_week (n : Z) : Z := (n + 4) mod 7.

Lemma is_leap_spec y : timelib_is_leap y = gregorian_leap y.
Proof.
  unfold timelib_is_leap, gregorian_leap. assert (E : forall n, 0 < n -> (Z.rem y n =? 0) = (y mod n =? 0)).
  { intros n Hn. apply eq_true_iff_eq. rewrite !Z.eqb_eq, Z.rem_divide, Z.mod_divide by lia. done. }
  by rewrite !E by lia.
Qed.
Lemma year_days_spec y : year_days y = year_length y.
Proof. unfold year_days. by rewrite is_leap_spec. Qed.
Lemma month_days_spec y m : 1 <= m <= 12 -> month_days y m = Some (month_length (gregorian_leap y) m).
Proof. intros Hm. unfold month_days. rewrite is_leap_spec. by_month Hm; by destruct (gregorian_leap y). Qed.
Lemma sll_ok z : SLL_MIN <= z <= SLL_MAX -> sll z = Some z.
Proof. intros [H1 H2]. unfold sll. apply Z.leb_le in H1, H2. by rewrite H1, H2. Qed.

(** Days order dates. *)
Lemma month_start_mono k j : k <= j -> 28 * (j - k) <= month_start j - month_start k.
Proof.
  intros Hle. replace j with (k + (j - k)) by lia. assert (Hn : 0 <= j - k) by lia. revert Hn. generalize (j - k). clear.
  intros n Hn. pattern n. apply natlike_ind; [replace (k + 0) with k by lia; lia| |done]. intros x Hx IH. replace (k + Z.succ x) with (k + x + 1) by lia.
  rewrite month_start_succ. pose proof (month_len_bounds (k + x)). lia.
Qed.
Lemma month_start_close k j n : Z.abs (month_start j - month_start k) <= n -> Z.abs (j - k) <= n.
Proof.
  intros H. destruct (Z.le_ge_cases k j) as [Hle|Hle]; [pose proof (month_start_mono k j Hle)|pose proof (month_start_mono j k Hle)]; lia.
Qed.
Lemma epoch_day_inj y m d y' m' d' : date_ok y m d -> date_ok y' m' d' -> epoch_day y m d = epoch_day y' m' d' -> y = y' /\ m = m' /\ d = d'.
Proof.
  intros [Hm Hd] [Hm' Hd'] E. unfold epoch_day in E. rewrite <- month_len_index in Hd, Hd' by done.
  assert (Hcmp : forall k j d d', d' <= month_len j -> 1 <= d -> j < k -> month_start j + d' - 1 < month_start k + d - 1).
  { clear. intros k j d d' H1 H2 H3. pose proof (month_start_mono (j + 1) k ltac:(lia)). pose proof (month_start_succ j). lia. }
  destruct (Z.lt_total (month_index y m) (month_index y' m')) as [Hlt|[Ek|Hlt]].
  - pose proof (Hcmp _ _ d' d (proj2 Hd) (proj1 Hd') Hlt). lia.
  - rewrite Ek in E. unfold month_index in Ek. lia.
  - pose proof (Hcmp _ _ d d' (proj2 Hd') (proj1 Hd) Hlt). lia.
Qed.
