(* ===== verification/TimeEpoch.v ===== *)
(** * TimeEpoch: from seconds to dates and back

    [timelib_unixtime2gmt], and the sum that [timelib_update_ts] computes. *)
From S2P Require Import Prelude Calendar CalendarSpec TimeLib TimeSpec.

(** ** Seconds to date *)
Definition leap_day (y : Z) : Z := if gregorian_leap y then 1 else 0.
Lemma year_length_leap y : year_length y = 365 + leap_day y.
Proof. unfold year_length, leap_day. case_match; lia. Qed.

(** Both loops keep the day; [tmp_days] counts from 0 in leap years on the way up. *)
Lemma later_years_ok lo fuel : lo <= 1 -> forall tmp y, tmp < 366 + 365 * Z.of_nat fuel -> lo <= tmp + leap_day y -> 0 <= y <= 2 ^ 60 - Z.of_nat fuel ->
  exists tmp' y', later_years fuel tmp y = Some (tmp', y') /\ lo <= tmp' + leap_day y' <= year_length y' /\ y <= y'
    /\ year_start y' + tmp' + leap_day y' = year_start y + tmp + leap_day y.
Proof.
  intros Hlo. induction fuel as [|fuel IH]; intros tmp y Ht H1 Hy; simpl; unfold DAYS_PER_LYEAR; destruct (Z.leb_spec 366 tmp) as [Hle|Hgt]; try lia.
  - exists tmp, y. rewrite year_length_leap. split; [done|]. lia.
  - rewrite sll_ok by (unfold SLL_MIN, SLL_MAX; lia). cbn [mbind option_bind]. rewrite year_days_spec. pose proof (year_length_leap (y + 1)) as El. pose proof (year_start_succ y) as Es.
    pose proof (year_length_leap y) as El'. assert (0 <= leap_day (y + 1) <= 1 /\ 0 <= leap_day y <= 1) by (unfold leap_day; repeat case_match; lia).
    destruct (IH (tmp - year_length (y + 1)) (y + 1)) as (tmp' & y' & E & H2 & H3 & H4); [lia..|]. exists tmp', y'. split; [done|]. split; [done|]. lia.
  - exists tmp, y. rewrite year_length_leap. split; [done|]. lia.
Qed.
Lemma earlier_years_ok fuel : forall tmp y, tmp <= year_length y -> (-1460970 <= tmp -> -365 * Z.of_nat fuel < tmp) -> (tmp < -1460970 -> -1460970 * (Z.of_nat fuel - 4003) < tmp) ->
  -(2 ^ 60) + 4000 * Z.of_nat fuel <= y <= 1970 ->
  exists tmp' y', earlier_years fuel tmp y = Some (tmp', y') /\ 1 <= tmp' <= year_length y' /\ y' <= y /\ (tmp <= 0 -> y' < y) /\ year_start y' + tmp' = year_start y + tmp.
Proof.
  induction fuel as [|fuel IH]; intros tmp y Hu Hf Ht Hy; simpl; destruct (Z.leb_spec tmp 0) as [Hle|Hgt]; try lia.
  - exists tmp, y. split; [done|]. lia.
  - destruct (Z.ltb_spec tmp (-1460970)) as [Hbig|Hsmall]; rewrite sll_ok by (unfold SLL_MIN, SLL_MAX; lia); cbn [mbind option_bind].
    + pose proof (year_start_period (y - 4000) 10) as E. replace (y - 4000 + 400 * 10) with y in E by lia. pose proof (year_length_bounds (y - 4000)).
      destruct (IH (tmp + 1460970) (y - 4000)) as (tmp' & y' & E' & H2 & H3 & H4 & H5); [lia..|]. exists tmp', y'. split; [done|]. split; [done|]. lia.
    + rewrite year_days_spec. pose proof (year_start_pred y) as E. pose proof (year_length_bounds (y - 1)).
      destruct (IH (tmp + year_length (y - 1)) (y - 1)) as (tmp' & y' & E' & H2 & H3 & H4 & H5); [lia..|]. exists tmp', y'. split; [done|]. split; [done|]. lia.
  - exists tmp, y. split; [done|]. lia.
Qed.

(** The month of day [n] of a year. *)
Ltac tables := repeat match goal with
  | |- context [before_month ?l ?m] => let v := eval vm_compute in (before_month l m) in change (before_month l m) with v
  | |- context [month_length ?l ?m] => let v := eval vm_compute in (month_length l m) in change (month_length l m) with v
  end.
Ltac found := eexists _, _; (split; [reflexivity|]); (split; [reflexivity|]); cbv zeta; tables; lia.
Ltac later n b := destruct (Z.ltb_spec b n); [found|].
Lemma find_month_ok y n : 1 <= n <= year_length y -> let leap := gregorian_leap y in let tab := if leap then month_tab_leap else month_tab in
  exists i x, find_month tab (n - leap_day y) 11 = Some i /\ tab !! i = Some x /\ let m := Z.of_nat i + 1 in let d := n - leap_day y - x in
    1 <= m <= 12 /\ 1 <= d <= month_length leap m /\ before_month leap m + d = n.
Proof.
  intros Hn leap tab. unfold year_length, leap_day in *. fold leap in Hn |- *. unfold tab. clearbody leap. clear tab.
  destruct leap; cbv beta iota; cbn [find_month lookup list_lookup month_tab month_tab_leap mbind option_bind].
  - later (n - 1) 334; later (n - 1) 304; later (n - 1) 273; later (n - 1) 243; later (n - 1) 212; later (n - 1) 181; later (n - 1) 151; later (n - 1) 120;
      later (n - 1) 90; later (n - 1) 59; later (n - 1) 30; found.
  - later (n - 0) 334; later (n - 0) 304; later (n - 0) 273; later (n - 0) 243; later (n - 0) 212; later (n - 0) 181; later (n - 0) 151; later (n - 0) 120;
      later (n - 0) 90; later (n - 0) 59; later (n - 0) 31; found.
Qed.

(** The fields that [timelib_unixtime2gmt] sets. *)
Definition gmt_of (tm : timelib_time) (ts y m d h i s : Z) : timelib_time :=
  set_is_localtime 0 (set_uptodate 1 1 (set_sse ts (set_dst 0 (set_z 0 (set_hms h i s (set_date y m d tm)))))).
(** What it does from the year, the day of the year and the second of the day. *)
Definition gmt_rest (tm : timelib_time) (ts y n r : Z) : option timelib_time :=
  let tab := if gregorian_leap y then month_tab_leap else month_tab in
  i ← find_month tab (n - leap_day y) 11; x ← tab !! i;
  Some (gmt_of tm ts y (Z.of_nat i + 1) (n - leap_day y - x) (Z.quot r 3600) (Z.quot (r - Z.quot r 3600 * 3600) 60) (Z.rem r 60)).
(** A period of 400 years after 1970 ends on this day: the code takes it for day 0 of the next. *)
Definition period_end (ts : Z) : Prop := 0 <= ts /\ (ts / 86400 + 1) mod 146097 = 0 /\ 146097 <= ts / 86400 + 1.

Definition in_year (ts y n r : Z) : Prop :=
  0 <= n <= year_length y /\ (n = 0 -> period_end ts /\ gregorian_leap y = false) /\ 0 <= r < 86400
  /\ (year_start y - year_start 1970 + n - 1) * 86400 + r = ts /\ (0 <= ts -> 1970 <= y).

Lemma unixtime2gmt_later tm ts : 0 <= ts <= SLL_MAX -> exists y n r, in_year ts y n r /\ timelib_unixtime2gmt tm ts = gmt_rest tm ts y n r.
Proof.
  intros Hts. unfold timelib_unixtime2gmt, in_year, period_end, SLL_MAX, SECS_PER_DAY in *. set (days := Z.quot ts 86400) in *. set (rem := ts - days * 86400) in *.
  assert (Hd : 0 <= days <= 2 ^ 47 /\ 0 <= rem < 86400 /\ days * 86400 + rem = ts /\ ts / 86400 = days) by (unfold rem, days; Z.to_euclidean_division_equations; lia).
  rewrite (proj2 (Z.leb_le 0 ts)), (proj2 (Z.ltb_ge ts 0)) by lia. cbn [andb]. destruct Hd as (Hd & Hr & Hsum & ->). clearbody days rem.
  unfold DAYS_PER_LYEAR_PERIOD, YEARS_PER_LYEAR_PERIOD. set (k := if _ || _ then Z.quot (days + 1) 146097 else 0).
  assert (Hk : 0 <= k <= 2 ^ 47 /\ 0 <= days + 1 - 146097 * k < 146097 /\ (days + 1 = 146097 * k -> (days + 1) mod 146097 = 0 /\ 146097 <= days + 1)).
  { unfold k. destruct (Z.leb_spec 146097 (days + 1)); cbn [orb]; [Z.to_euclidean_division_equations; lia|]. rewrite (proj2 (Z.leb_gt (days + 1) (Z.opp 146097))) by lia. lia. }
  clearbody k. assert (Hleap : leap_day (1970 + 400 * k) = 0) by (unfold leap_day; by rewrite leap_period). pose proof (year_start_period 1970 k) as Ek.
  destruct (Z.eq_dec (days + 1) (146097 * k)) as [E0|Hne].
  - replace (days + 1 - 146097 * k) with 0 by lia. cbn [later_years]. exists (1970 + 400 * k), 0, rem. pose proof (year_length_bounds (1970 + 400 * k)).
    split; [rewrite leap_period; split_and!; try lia; naive_solver lia|]. unfold gmt_rest. change (DAYS_PER_LYEAR <=? 0) with false. cbn [mbind option_bind].
    by rewrite is_leap_spec, leap_period, Hleap.
  - destruct (later_years_ok 1 400 ltac:(lia) (days + 1 - 146097 * k) (1970 + 400 * k)) as (tmp & y & E & H1 & H2 & H3); [lia..|].
    rewrite E. cbn [mbind option_bind]. exists y, (tmp + leap_day y), rem. split; [split_and!; lia|]. unfold gmt_rest.
    rewrite is_leap_spec. rewrite (proj2 (Z.ltb_ge y 1970)) by lia. rewrite andb_false_r. by replace (tmp + leap_day y - leap_day y) with tmp by lia.
Qed.
Lemma unixtime2gmt_earlier tm ts : SLL_MIN <= ts < 0 -> exists y n r, in_year ts y n r /\ timelib_unixtime2gmt tm ts = gmt_rest tm ts y n r.
Proof.
  intros Hts. unfold timelib_unixtime2gmt, in_year, SLL_MIN, SECS_PER_DAY in *. set (days := Z.quot ts 86400) in *. set (rem := ts - days * 86400) in *.
  rewrite (proj2 (Z.leb_gt 0 ts)), (proj2 (Z.ltb_lt ts 0)) by lia. cbn [andb].
  set (days' := if rem =? 0 then days + 1 else days). set (rem' := if rem =? 0 then rem - 86400 else rem).
  assert (Hd : days' <= 0 /\ - 86400 <= rem' < 0 /\ days' * 86400 + rem' = ts /\ - 2 ^ 47 <= days').
  { unfold days', rem'. destruct (Z.eqb_spec rem 0); unfold rem, days in *; Z.to_euclidean_division_equations; lia. }
  replace (if rem =? 0 then (days + 1, rem - 86400) else (days, rem)) with (days', rem') by (unfold days', rem'; by destruct (rem =? 0)).
  clearbody days' rem'. destruct (earlier_years_ok (Z.to_nat (Z.quot (- days') 1460970 + 4004)) days' 1970) as (tmp & y & E & H1 & H2 & H3 & H4).
  { pose proof (year_length_bounds 1970). lia. } { Z.to_euclidean_division_equations. lia. } { Z.to_euclidean_division_equations. lia. }
  { Z.to_euclidean_division_equations. lia. }
  rewrite E. cbn [mbind option_bind]. exists y, tmp, (rem' + 86400). split; [split_and!; lia|]. unfold gmt_rest.
  rewrite is_leap_spec. rewrite (proj2 (Z.ltb_lt y 1970)) by lia. rewrite andb_true_r. unfold leap_day.
  destruct (gregorian_leap y); [done|]. by replace (tmp - 0) with tmp by lia.
Qed.

Lemma unixtime2gmt_ok tm ts : SLL_MIN <= ts <= SLL_MAX -> exists y m d h i s, timelib_unixtime2gmt tm ts = Some (gmt_of tm ts y m d h i s)
  /\ 1 <= m <= 12 /\ 0 <= d <= month_length (gregorian_leap y) m /\ (d = 0 -> period_end ts) /\ time_ok h i s /\ moment y m d h i s = ts
  /\ (0 <= ts -> 1970 <= y) /\ - 10 ^ 12 <= y <= 10 ^ 12.
Proof.
  intros Hts. assert (exists y n r, in_year ts y n r /\ timelib_unixtime2gmt tm ts = gmt_rest tm ts y n r) as (y & n & r & Hin & ->).
  { destruct (Z_le_gt_dec 0 ts); [apply unixtime2gmt_later; lia|apply unixtime2gmt_earlier; lia]. }
  destruct Hin as (Hn & Hn0 & Hr & Hsum & Hy).
  assert (exists i x, let tab := if gregorian_leap y then month_tab_leap else month_tab in
    find_month tab (n - leap_day y) 11 = Some i /\ tab !! i = Some x /\ let m := Z.of_nat i + 1 in let d := n - leap_day y - x in
    1 <= m <= 12 /\ 0 <= d <= month_length (gregorian_leap y) m /\ (d = 0 -> n = 0) /\ before_month (gregorian_leap y) m + d = n) as (i & x & E1 & E2 & Hm & Hd & Hd0 & Hb).
  { destruct (Z.eq_dec n 0) as [->|Hpos].
    - destruct Hn0 as [_ Hl]; [done|]. exists O, 0. unfold leap_day. rewrite Hl. cbv zeta. split; [done|]. split; [done|]. vm_compute. naive_solver discriminate.
    - destruct (find_month_ok y n ltac:(lia)) as (i & x & E1 & E2 & H1 & H2 & H3). exists i, x. cbv zeta in *. split_and!; try done; lia. }
  unfold gmt_rest. cbv zeta in *. rewrite E1. cbn [mbind option_bind]. rewrite E2. cbn [mbind option_bind]. set (m := Z.of_nat i + 1) in *. set (d := n - leap_day y - x) in *.
  eexists _, _, _, _, _, _. split; [reflexivity|]. split; [done|]. split; [done|]. split; [intros E0; by apply Hn0, Hd0|].
  split; [unfold time_ok; Z.to_euclidean_division_equations; lia|]. split; [|split; [done|]].
  - unfold moment, epoch_day. rewrite month_start_index by done. Z.to_euclidean_division_equations. lia.
  - unfold SLL_MIN, SLL_MAX in Hts. pose proof (year_length_bounds y). destruct (Z.le_gt_cases 1970 y) as [Hc|Hc]; [pose proof (year_start_mono 1970 y Hc)|pose proof (year_start_mono y 1970 ltac:(lia))]; lia.
Qed.
