(* ===== verification/TimeNorm.v ===== *)
(** * TimeNorm: what [timelib_do_normalize] and the seconds of a date are

    [do_range_limit] and [do_range_limit_days] keep the day, end, and leave a
    date of the calendar; the sum that [timelib_update_ts] builds of the years,
    the months, the days and the time is the distance from the epoch. *)
From S2P Require Import Prelude Calendar CalendarSpec TimeLib TimeSpec.

(** ** Ranges *)

(** One statement of a computation. *)
Lemma bind_step {A B} (x : option A) (f : A -> option B) a : x = Some a -> (x ≫= f) = f a.
Proof. by intros ->. Qed.
Ltac step E := rewrite (bind_step _ _ _ E); cbv beta iota.
Ltac in_sll := rewrite sll_ok by (unfold SLL_MIN, SLL_MAX in *; lia); cbn [mbind option_bind].
Lemma do_range_limit_ok start adj a b : 0 <= start <= 1 -> adj = 12 \/ adj = 24 \/ adj = 60 -> Z.abs a <= 2 ^ 58 -> Z.abs b <= 2 ^ 58 ->
  exists a' b', do_range_limit start (start + adj) adj a b = Some (a', b') /\ a' + adj * b' = a + adj * b /\ 0 <= a' < start + adj /\ (a < start + adj -> start <= a').
Proof.
  intros Hs Hadj Ha Hb. unfold do_range_limit.
  assert (exists a1 b1, (if a <? start then n ← sll (start - a); b ← sll (b - (Z.quot (n - 1) adj + 1)); k ← sll (adj * (Z.quot (n - 1) adj + 1)); a ← sll (a + k); Some (a, b) else Some (a, b)) = Some (a1, b1)
    /\ a1 + adj * b1 = a + adj * b /\ start <= a1 <= 2 ^ 58 + 60 /\ Z.abs b1 <= 2 ^ 60 /\ (a < start + adj -> a1 < start + adj)) as (a1 & b1 & E & H1 & H2 & H3 & H4).
  { destruct (Z.ltb_spec a start) as [Hlt|Hge].
    - in_sll. assert (Hq : 0 <= start - a - 1 - adj * Z.quot (start - a - 1) adj < adj /\ 0 <= Z.quot (start - a - 1) adj <= 2 ^ 58 + 1).
      { destruct Hadj as [->|[->| ->]]; Z.to_euclidean_division_equations; lia. }
      set (q := Z.quot _ adj) in *. clearbody q. destruct Hadj as [->|[->| ->]]; in_sll; in_sll; in_sll; (eexists _, _; split; [done|]; lia).
    - exists a, b. split; [done|]. lia. }
  rewrite E. cbn [mbind option_bind]. clear E. destruct (Z.leb_spec (start + adj) a1) as [Hle|Hgt].
  - assert (Hq : 0 <= a1 - adj * Z.quot a1 adj < adj /\ 0 <= Z.quot a1 adj <= 2 ^ 58 + 60) by (destruct Hadj as [->|[->| ->]]; Z.to_euclidean_division_equations; lia).
    set (q := Z.quot _ adj) in *. clearbody q. in_sll. eexists _, _. split; [done|]. destruct Hadj as [->|[->| ->]]; lia.
  - eexists _, _. split; [done|]. lia.
Qed.
Lemma do_range_limit_in start adj a b : start <= a < start + adj -> do_range_limit start (start + adj) adj a b = Some (a, b).
Proof. intros Ha. unfold do_range_limit. rewrite (proj2 (Z.ltb_ge _ _)) by lia. cbn [mbind option_bind]. by rewrite (proj2 (Z.leb_gt _ _)) by lia. Qed.

Definition small (n : Z) : Prop := Z.abs n <= 2 ^ 50.
Lemma range_60 a b : Z.abs a <= 2 ^ 58 -> Z.abs b <= 2 ^ 58 -> exists a' b', do_range_limit 0 60 60 a b = Some (a', b') /\ a' + 60 * b' = a + 60 * b /\ 0 <= a' < 60.
Proof. intros Ha Hb. destruct (do_range_limit_ok 0 60 a b) as (a' & b' & E & H1 & H2 & _); [lia..|]. exists a', b'. split; [done|lia]. Qed.
Lemma range_24 a b : Z.abs a <= 2 ^ 58 -> Z.abs b <= 2 ^ 58 -> exists a' b', do_range_limit 0 24 24 a b = Some (a', b') /\ a' + 24 * b' = a + 24 * b /\ 0 <= a' < 24.
Proof. intros Ha Hb. destruct (do_range_limit_ok 0 24 a b) as (a' & b' & E & H1 & H2 & _); [lia..|]. exists a', b'. split; [done|lia]. Qed.
Lemma range_12 m y : Z.abs m <= 2 ^ 58 -> Z.abs y <= 2 ^ 58 ->
  exists m' y', do_range_limit 1 13 12 m y = Some (m', y') /\ month_index y' m' = month_index y m /\ 0 <= m' <= 12 /\ (m < 13 -> 1 <= m').
Proof. intros Hm Hy. destruct (do_range_limit_ok 1 12 m y) as (m' & y' & E & H1 & H2 & H3); [lia..|]. exists m', y'. unfold month_index. split; [done|lia]. Qed.

Lemma range_years m y : Z.abs m <= 2 ^ 58 -> Z.abs y <= 2 ^ 58 -> exists m' y', do_range_limit 0 12 12 m y = Some (m', y') /\ m' + 12 * y' = m + 12 * y /\ 0 <= m' < 12.
Proof. intros Hm Hy. destruct (do_range_limit_ok 0 12 m y) as (m' & y' & E & H1 & H2 & _); [lia..|]. exists m', y'. split; [done|lia]. Qed.
Lemma range_60_in a b : 0 <= a < 60 -> do_range_limit 0 60 60 a b = Some (a, b).
Proof. apply (do_range_limit_in 0 60). Qed.
Lemma range_24_in a b : 0 <= a < 24 -> do_range_limit 0 24 24 a b = Some (a, b).
Proof. apply (do_range_limit_in 0 24). Qed.
Lemma range_12_in m y : 1 <= m < 13 -> do_range_limit 1 13 12 m y = Some (m, y).
Proof. apply (do_range_limit_in 1 12). Qed.

(** A month 0 counts as the December before. *)
Lemma month_days_len y m : 0 <= m <= 12 -> month_days y m = Some (month_len (month_index y m)).
Proof.
  intros Hm. destruct (Z.eq_dec m 0) as [->|Hne].
  - replace (month_index y 0) with (month_index (y - 1) 12) by (unfold month_index; lia). rewrite month_len_index by lia. unfold month_days. by destruct (timelib_is_leap y).
  - rewrite month_days_spec, month_len_index by lia. done.
Qed.

(** One round: whole periods of 400 years at once, then a month back or forth. *)
Definition one_round (y m d : Z) : Z * Z * Z * bool :=
  if d <=? 0 then (y, m - 1, d + month_len (month_index y m - 1), true)
  else if month_len (month_index y m) <? d then (y, m + 1, d - month_len (month_index y m), true)
  else (y, m, d, false).
Lemma do_range_limit_days_ok y m d : Z.abs y <= 2 ^ 57 -> Z.abs m <= 2 ^ 57 -> Z.abs d <= 2 ^ 57 ->
  exists j y1 m1, do_range_limit_days y m d = Some (one_round y1 m1 (d - 146097 * j)) /\ 0 <= m1 <= 12 /\ month_index y1 m1 = month_index y m + 4800 * j
    /\ Z.abs (d - 146097 * j) < 146097 /\ (Z.abs d < 146097 -> j = 0) /\ Z.abs (4800 * j) <= Z.abs d /\ (1 <= m <= 12 -> j = 0 -> m1 = m /\ y1 = y).
Proof.
  intros Hy Hm Hd. unfold do_range_limit_days, DAYS_PER_LYEAR_PERIOD, YEARS_PER_LYEAR_PERIOD. set (k := Z.quot d 146097). set (big := (146097 <=? d) || (d <=? -146097)).
  set (j := if big then k else 0).
  assert (E : (if big then y ← sll (y + 400 * k); Some (y, d - 146097 * k) else Some (y, d)) = Some (y + 400 * j, d - 146097 * j)).
  { unfold j. destruct big; [|by rewrite Z.mul_0_r, Z.mul_0_r, Z.add_0_r, Z.sub_0_r]. rewrite sll_ok; [done|]. unfold SLL_MIN, SLL_MAX, k. Z.to_euclidean_division_equations. lia. }
  assert (Hj : Z.abs (d - 146097 * j) < 146097 /\ (Z.abs d < 146097 -> j = 0) /\ Z.abs (4800 * j) <= Z.abs d).
  { unfold j, big, k. destruct (Z.leb_spec 146097 d), (Z.leb_spec d (-146097)); cbn [orb]; Z.to_euclidean_division_equations; lia. }
  change (Z.opp 146097) with (-146097). fold big k. rewrite E. clearbody j. cbn [mbind option_bind]. clear E.
  destruct (do_range_limit_ok 1 12 m (y + 400 * j) ltac:(lia) ltac:(by left) ltac:(lia) ltac:(lia)) as (m1 & y1 & E & H1 & H2 & H3). change (1 + 12) with 13 in E. rewrite E. cbn [mbind option_bind].
  rewrite month_days_len by lia. cbn [mbind option_bind].
  assert (El : ('(ly, lm) ← (if m1 - 1 <? 1 then y' ← sll (y1 - 1); Some (y', m1 - 1 + 12) else Some (y1, m1 - 1)); month_days ly lm) = Some (month_len (month_index y1 m1 - 1))).
  { destruct (Z.ltb_spec (m1 - 1) 1); [in_sll|cbn [mbind option_bind]]; rewrite month_days_len by lia; f_equal; f_equal; unfold month_index; lia. }
  destruct (if m1 - 1 <? 1 then _ else _) as [[ly lm]|]; [|done]. cbn [mbind option_bind] in El |- *. rewrite El. cbn [mbind option_bind].
  exists j, y1, m1. split; [unfold one_round; by repeat case_match|]. split; [lia|]. split; [unfold month_index; lia|]. split_and!; try lia.
Qed.
Lemma one_round_keeps y m d y' m' d' again : one_round y m d = (y', m', d', again) -> month_start (month_index y' m') + d' = month_start (month_index y m) + d.
Proof.
  unfold one_round. pose proof (month_start_succ (month_index y m)). pose proof (month_start_succ (month_index y m - 1)) as S1. rewrite Z.sub_add in S1.
  replace (month_index y m - 1) with (month_index y (m - 1)) in * by (unfold month_index; lia).
  replace (month_index y m + 1) with (month_index y (m + 1)) in * by (unfold month_index; lia). intros E. repeat case_match; simplify_eq; lia.
Qed.

(** The rounds, from a day of no more than [fuel] months off. *)
Definition days_in_range (y m d y' m' d' : Z) : Prop :=
  0 <= m' <= 12 /\ 1 <= d' <= month_len (month_index y' m') /\ month_start (month_index y' m') + d' = month_start (month_index y m) + d.
Lemma range_limit_days_rounds fuel : forall y m d, Z.abs m <= 13 -> Z.abs d < 146097 -> 0 < d + 28 * Z.of_nat fuel ->
  d <= 28 * Z.of_nat fuel + 28 \/ d <= month_len (month_index y m) -> Z.abs (month_index y m) + Z.of_nat fuel <= 2 ^ 60 ->
  exists y' m' d', range_limit_days fuel y m d = Some (y', m', d') /\ days_in_range y m d y' m' d'.
Proof.
  induction fuel as [|fuel IH]; intros y m d Hm Hd Hlo Hhi Hk; pose proof (month_len_bounds (month_index y m)) as Hb; pose proof (month_len_bounds (month_index y m - 1)) as Hb';
    (destruct (do_range_limit_days_ok y m d) as (j & y1 & m1 & E & H1 & H2 & H3 & Hj & _ & _); [unfold month_index in Hk; lia..|]); rewrite (Hj Hd) in *;
    rewrite Z.mul_0_r, Z.add_0_r in H2; rewrite Z.mul_0_r, Z.sub_0_r in *;
    destruct (one_round y1 m1 d) as [[[y' m'] d'] again] eqn:Er; pose proof (one_round_keeps _ _ _ _ _ _ _ Er) as Hkeep; rewrite H2 in Hkeep;
    cbn [range_limit_days]; rewrite E; cbn [mbind option_bind]; unfold one_round in Er; rewrite H2 in Er; unfold days_in_range in *.
  - destruct (Z.leb_spec d 0); [lia|]. destruct (Z.ltb_spec (month_len (month_index y m)) d); [lia|]. injection Er as <- <- <- <-. exists y1, m1, d. rewrite H2. split; [done|]. lia.
  - assert (Hlast : again = false -> exists y2 m2 d2, Some (y', m', d') = Some (y2, m2, d2) /\ 0 <= m2 <= 12 /\ 1 <= d2 <= month_len (month_index y2 m2)
      /\ month_start (month_index y2 m2) + d2 = month_start (month_index y m) + d).
    { intros ->. exists y', m', d'. repeat case_match; simplify_eq. rewrite H2. split; [done|]. lia. }
    destruct again; [|by apply Hlast]. clear Hlast.
    assert (Hk' : month_index y' m' = month_index y m - 1 /\ d <= 0 /\ d' = d + month_len (month_index y' m') \/ month_index y' m' = month_index y m + 1 /\ d' = d - month_len (month_index y m) /\ 0 < d').
    { replace (month_index y m - 1) with (month_index y1 (m1 - 1)) in * by (unfold month_index in *; lia). replace (month_index y m + 1) with (month_index y1 (m1 + 1)) by (unfold month_index in *; lia).
      destruct (Z.leb_spec d 0), (Z.ltb_spec (month_len (month_index y m)) d); simplify_eq; lia. }
    assert (Z.abs m' <= 13) by (destruct (d <=? 0), (month_len (month_index y m) <? d); simplify_eq; lia). clear Er E.
    pose proof (month_len_bounds (month_index y' m')). destruct (IH y' m' d') as (y2 & m2 & d2 & E2 & H8 & H9 & H10); [lia..|]. rewrite E2. exists y2, m2, d2. split; [done|]. lia.
Qed.
Lemma months_in_period_S : exists fuel, months_in_period = S fuel /\ Z.of_nat fuel = 5219.
Proof. exists (Nat.pred months_in_period). by vm_compute. Qed.
Lemma range_limit_days_ok y m d : Z.abs y <= 2 ^ 56 -> Z.abs m <= 13 -> Z.abs d <= 2 ^ 55 ->
  exists y' m' d', range_limit_days months_in_period y m d = Some (y', m', d') /\ days_in_range y m d y' m' d'.
Proof.
  intros Hy Hm Hd. destruct (do_range_limit_days_ok y m d) as (j & y1 & m1 & E & H1 & H2 & H3 & Hj & Hj' & _); [lia..|].
  destruct (one_round y1 m1 (d - 146097 * j)) as [[[y' m'] d'] again] eqn:Er. pose proof (one_round_keeps _ _ _ _ _ _ _ Er) as Hkeep. rewrite H2, month_start_period in Hkeep.
  destruct months_in_period_S as (fuel & -> & Hf). cbn [range_limit_days]. rewrite E. cbn [mbind option_bind].
  pose proof (month_len_bounds (month_index y1 m1)). pose proof (month_len_bounds (month_index y1 m1 - 1)). unfold one_round in Er. unfold days_in_range.
  assert (Hs : 0 <= m1 <= 12 /\ Z.abs (month_index y1 m1) <= 2 ^ 60 - 10000) by (unfold month_index in *; lia). clear E Hj Hj' H2.
  destruct (Z.leb_spec (d - 146097 * j) 0); [|destruct (Z.ltb_spec (month_len (month_index y1 m1)) (d - 146097 * j))]; injection Er as <- <- <- <-.
  1, 2: match goal with |- context [range_limit_days ?f ?y ?m ?d] => destruct (range_limit_days_rounds f y m d) as (y2 & m2 & d2 & E2 & H8 & H9 & H10) end;
    [clear -Hs; lia|lia..|clear -Hs Hf; unfold month_index in *; lia|rewrite E2; exists y2, m2, d2; (split; [done|]); lia].
  exists y1, m1, (d - 146097 * j). split; [done|]. lia.
Qed.
Lemma range_limit_days_in y m d : Z.abs y <= 2 ^ 56 -> date_ok y m d -> range_limit_days months_in_period y m d = Some (y, m, d).
Proof.
  intros Hy [Hm Hd]. rewrite <- month_len_index in Hd by done. pose proof (month_len_bounds (month_index y m)) as Hb.
  destruct (do_range_limit_days_ok y m d) as (j & y1 & m1 & E & H1 & H2 & H3 & Hj & _ & Hid); [lia..|]. rewrite Hj in * by lia. destruct Hid as [-> ->]; [done..|].
  destruct months_in_period_S as (fuel & -> & Hf). cbn [range_limit_days]. rewrite E, Z.mul_0_r, Z.sub_0_r. unfold one_round.
  rewrite (proj2 (Z.leb_gt _ _)), (proj2 (Z.ltb_ge _ _)) by lia. done.
Qed.

(** ** A whole time *)
Definition time_moment (t : timelib_time) : Z := moment (tm_y t) (tm_m t) (tm_d t) (tm_h t) (tm_i t) (tm_s t).
#[global] Strategy expand [time_moment].
Definition in_calendar (t : timelib_time) : Prop := date_ok (tm_y t) (tm_m t) (tm_d t) /\ time_ok (tm_h t) (tm_i t) (tm_s t).
Definition fields_small (t : timelib_time) : Prop :=
  (small (tm_y t) /\ small (tm_m t) /\ small (tm_d t)) /\ small (tm_h t) /\ small (tm_i t) /\ small (tm_s t).
Definition with_fields (y m d h i s : Z) (t : timelib_time) : timelib_time := set_date y m d (set_hms h i s t).

Definition size (t : timelib_time) : Z := Z.abs (tm_y t) + Z.abs (tm_m t) + Z.abs (tm_d t) + Z.abs (tm_h t) + Z.abs (tm_i t) + Z.abs (tm_s t).

(** The time of day is in range, or it is left alone: the second is [TIMELIB_UNSET]. *)
Definition time_normal (t : timelib_time) : Prop := time_ok (tm_h t) (tm_i t) (tm_s t) \/ tm_s t = TIMELIB_UNSET.
(** The time of day is left alone when the second is [TIMELIB_UNSET]. *)
Lemma normalize_time_ok s i h d : small s -> small i -> small h -> small d -> exists s1 i1 h1 d1,
  ('(s, i) ← (if s =? TIMELIB_UNSET then Some (s, i) else do_range_limit 0 60 60 s i);
   '(i, h) ← (if s =? TIMELIB_UNSET then Some (i, h) else do_range_limit 0 60 60 i h);
   '(h, d) ← (if s =? TIMELIB_UNSET then Some (h, d) else do_range_limit 0 24 24 h d); Some (s, i, h, d)) = Some (s1, i1, h1, d1)
  /\ d1 * 86400 + h1 * 3600 + i1 * 60 + s1 = d * 86400 + h * 3600 + i * 60 + s /\ (time_ok h1 i1 s1 \/ s = TIMELIB_UNSET /\ s1 = s)
  /\ Z.abs h1 <= Z.abs h + 24 /\ Z.abs i1 <= Z.abs i + 60 /\ Z.abs s1 <= Z.abs s + 60 /\ Z.abs d1 <= Z.abs d + Z.abs h + Z.abs i + Z.abs s + 3.
Proof.
  unfold small, time_ok. intros Hs Hi Hh Hd. destruct (Z.eqb_spec s TIMELIB_UNSET) as [Hu|Hu].
  - cbn [mbind option_bind]. rewrite (proj2 (Z.eqb_eq _ _) Hu). cbn [mbind option_bind]. exists s, i, h, d. split; [done|]. lia.
  - destruct (range_60 s i) as (s1 & i1 & -> & S1 & S2); [lia..|]. cbn [mbind option_bind].
    assert (Hu1 : s1 <> TIMELIB_UNSET) by (unfold TIMELIB_UNSET; lia). rewrite (proj2 (Z.eqb_neq _ _) Hu1).
    destruct (range_60 i1 h) as (i2 & h1 & -> & I1 & I2); [lia..|]. cbn [mbind option_bind].
    destruct (range_24 h1 d) as (h2 & d1 & -> & D1 & D2); [lia..|]. cbn [mbind option_bind]. exists s1, i2, h2, d1. split; [done|]. lia.
Qed.
Lemma timelib_do_normalize_ok t : fields_small t ->
  exists y m d h i s, let t' := with_fields y m d h i s t in timelib_do_normalize t = Some t' /\ date_ok y m d /\ (time_normal t' /\ (tm_s t <> TIMELIB_UNSET -> time_ok h i s))
    /\ time_moment t' = time_moment t /\ Z.abs y <= size t + 10 /\ Z.abs h <= Z.abs (tm_h t) + 24 /\ Z.abs i <= Z.abs (tm_i t) + 60 /\ Z.abs s <= Z.abs (tm_s t) + 60.
Proof.
  destruct t as [y m d h i s z ab inf dst r e hz hr su tu il zt]. unfold fields_small, timelib_do_normalize, time_moment, with_fields, size. cbn. intros ((Hy & Hm & Hd) & Hh & Hi & Hs).
  destruct (normalize_time_ok s i h d Hs Hi Hh Hd) as (s1 & i1 & h1 & d1 & E & E1 & Ht & Bh & Bi & Bs & Bd).
  destruct (if s =? TIMELIB_UNSET then Some (s, i) else do_range_limit 0 60 60 s i) as [[s2 i2]|]; [|done]. cbn [mbind option_bind] in E |- *.
  destruct (if s2 =? TIMELIB_UNSET then Some (i2, h) else do_range_limit 0 60 60 i2 h) as [[i3 h3]|]; [|done]. cbn [mbind option_bind] in E |- *.
  destruct (if s2 =? TIMELIB_UNSET then Some (h3, d) else do_range_limit 0 24 24 h3 d) as [[h4 d4]|]; [|done]. cbn [mbind option_bind] in E |- *. injection E as -> -> -> ->.
  unfold small in *. destruct (range_12 m y) as (m1 & y1 & -> & M1 & M2 & _); [lia..|]. cbn [mbind option_bind].
  assert (Hb : Z.abs (month_index y m) <= 2 ^ 54) by (unfold month_index; lia).
  destruct (range_limit_days_ok y1 m1 d1) as (y2 & m2 & d2 & -> & H1 & H2 & H3); [unfold month_index in *; lia..|]. cbn [mbind option_bind].
  pose proof (month_len_bounds (month_index y2 m2)) as Hl. 
  pose proof (month_start_close (month_index y1 m1) (month_index y2 m2) (Z.abs d1 + 31) ltac:(clear -H2 H3 Hl; lia)) as Hc. rewrite M1 in Hc.
  destruct (range_12 m2 y2) as (m3 & y3 & -> & M3 & M4 & M5); [clear -H1; lia|clear -Hc Hb H1 Bd Hd Hh Hi Hs; unfold month_index in *; lia|]. cbn [mbind option_bind].
  exists y3, m3, d2, h1, i1, s1. cbn. split; [done|]. rewrite <- M3 in H2, H3, Hc. rewrite month_len_index in H2 by lia. rewrite M1 in H3.
  split; [unfold date_ok; lia|]. split; [unfold time_normal; cbn; clear -Ht; naive_solver|]. split; [unfold moment, epoch_day; clear -H3 E1; lia|]. split; [|lia]. clear -Hc Bd M4. unfold month_index in Hc. lia.
Qed.
Lemma timelib_do_normalize_in t : Z.abs (tm_y t) <= 2 ^ 56 -> date_ok (tm_y t) (tm_m t) (tm_d t) -> time_normal t -> timelib_do_normalize t = Some t.
Proof.
  destruct t as [y m d h i s z ab inf dst r e hz hr su tu il zt]. unfold timelib_do_normalize, time_normal. cbn. intros Hy Hd Ht.
  assert (E : ('(s, i) ← (if s =? TIMELIB_UNSET then Some (s, i) else do_range_limit 0 60 60 s i);
    '(i, h) ← (if s =? TIMELIB_UNSET then Some (i, h) else do_range_limit 0 60 60 i h);
    '(h, d) ← (if s =? TIMELIB_UNSET then Some (h, d) else do_range_limit 0 24 24 h d); Some (s, i, h, d)) = Some (s, i, h, d)).
  { destruct Ht as [(Hh & Hi & Hs)| ->]; [|done]. assert (Hu : s <> TIMELIB_UNSET) by (unfold TIMELIB_UNSET; lia).
    rewrite (proj2 (Z.eqb_neq _ _) Hu), range_60_in by lia. cbn [mbind option_bind].
    rewrite (proj2 (Z.eqb_neq _ _) Hu), range_60_in by lia. cbn [mbind option_bind]. by rewrite range_24_in by lia. }
  destruct (if s =? TIMELIB_UNSET then Some (s, i) else do_range_limit 0 60 60 s i) as [[s2 i2]|]; [|done]. cbn [mbind option_bind] in E |- *.
  destruct (if s2 =? TIMELIB_UNSET then Some (i2, h) else do_range_limit 0 60 60 i2 h) as [[i3 h3]|]; [|done]. cbn [mbind option_bind] in E |- *.
  destruct (if s2 =? TIMELIB_UNSET then Some (h3, d) else do_range_limit 0 24 24 h3 d) as [[h4 d4]|]; [|done]. cbn [mbind option_bind] in E |- *. injection E as -> -> -> ->.
  rewrite range_12_in by (destruct Hd; lia). cbn [mbind option_bind].
  rewrite range_limit_days_in by done. cbn [mbind option_bind]. by rewrite range_12_in by (destruct Hd; lia).
Qed.
