(* ===== verification/TimeStamp.v ===== *)
(** * TimeStamp: the seconds of a date

    [timelib_update_ts] sums the seconds of the years, months, days and of the
    time; the loops over years and the tables of months are the calendar's. *)
From S2P Require Import Prelude Calendar CalendarSpec TimeLib TimeSpec TimeEpoch TimeNorm.

(** ** Years *)
Lemma years_since_ok fuel : forall i res, 1969 <= i <= 1969 + Z.of_nat fuel -> i <= 2 ^ 40 -> Z.abs res <= 2 ^ 62 - 366 * 86400 * (i - 1969) ->
  years_since fuel i res = Some (res + (year_start (i + 1) - year_start 1970) * 86400).
Proof.
  induction fuel as [|fuel IH]; intros i res Hi Hb Hr; cbn [years_since]; destruct (Z.leb_spec 1970 i) as [Hle|Hlt]; try lia.
  - replace i with 1969 by lia. change (1969 + 1) with 1970. f_equal. lia.
  - unfold year_secs, SECS_PER_DAY. rewrite year_days_spec. pose proof (year_length_bounds i). in_sll. rewrite IH by lia. f_equal.
    rewrite Z.sub_add, year_start_succ. lia.
  - replace i with 1969 by lia. change (1969 + 1) with 1970. f_equal. lia.
Qed.
Lemma years_before_ok fuel year : forall i res, year - 1 <= i -> i - year < Z.of_nat fuel -> i <= 1969 -> Z.abs res <= 2 ^ 62 - 366 * 86400 * (i + 1 - year) -> -(2 ^ 40) <= year ->
  years_before fuel year i res = Some (res + (year_start year - year_start (i + 1)) * 86400).
Proof.
  induction fuel as [|fuel IH]; intros i res Hi Hf Hb Hr Hy; cbn [years_before]; destruct (Z.leb_spec year i) as [Hle|Hlt]; try lia.
  - replace i with (year - 1) by lia. rewrite Z.sub_add. f_equal. lia.
  - unfold year_secs, SECS_PER_DAY. rewrite year_days_spec. pose proof (year_length_bounds i). in_sll. rewrite IH by lia. f_equal.
    rewrite Z.sub_add, year_start_succ. lia.
  - replace i with (year - 1) by lia. rewrite Z.sub_add. f_equal. lia.
Qed.
Lemma do_years_ok y : Z.abs y <= 2 ^ 37 -> do_years y = Some ((year_start y - year_start 1970) * 86400).
Proof.
  intros Hy. unfold do_years, SECS_PER_ERA. in_sll. set (e := Z.quot (y - 1970) 40000).
  assert (He : Z.abs (y - 40000 * e - 1970) < 40000 /\ Z.abs e <= 2 ^ 22) by (unfold e; Z.to_euclidean_division_equations; lia). clearbody e.
  assert (E : (if e =? 0 then Some 0 else n ← sll (12622780800 * e); sll (n * 100)) = Some (1262278080000 * e)).
  { destruct (Z.eqb_spec e 0) as [->|Hne]; [done|]. in_sll. rewrite sll_ok by (unfold SLL_MIN, SLL_MAX; lia). f_equal. lia. }
  rewrite E. cbn [mbind option_bind]. pose proof (year_start_period (y - e * 40000) (100 * e)) as Ep. replace (y - e * 40000 + 400 * (100 * e)) with y in Ep by lia.
  destruct (Z.leb_spec 1970 (y - e * 40000)).
  - rewrite years_since_ok by lia. rewrite Z.sub_add. f_equal. lia.
  - rewrite years_before_ok by lia. f_equal. change (1969 + 1) with 1970. lia.
Qed.

(** ** Months *)

(** The leap year test of [do_months] is on the unsigned year. *)
Definition leap_unsigned (y : Z) : Prop := gregorian_leap (to_ull y) = gregorian_leap y.
Lemma leap_unsigned_nonneg y : 0 <= y < 2 ^ 64 -> leap_unsigned y.
Proof. intros Hy. unfold leap_unsigned, to_ull. by rewrite Z.mod_small. Qed.
Lemma do_months_ok y m : leap_unsigned y -> 1 <= m <= 12 -> do_months m y = Some (before_month (gregorian_leap y) m * 86400).
Proof.
  intros Hl Hm. unfold do_months. rewrite is_leap_spec, Hl. by_month Hm; by destruct (gregorian_leap y).
Qed.
Lemma of_to_ull n : - 2 ^ 63 <= n < 2 ^ 63 -> of_ull (to_ull n) = n.
Proof. intros Hn. unfold of_ull, to_ull. destruct (Z.ltb_spec (n mod 2 ^ 64) (2 ^ 63)); Z.to_euclidean_division_equations; lia. Qed.

(** ** The sum *)
Definition secs_of (t : timelib_time) : option Z :=
  res ← do_years (tm_y t); n ← do_months (tm_m t) (tm_y t); res ← sll (res + n); res ← sll (res + do_days (tm_d t));
  sll (res + do_time (tm_h t) (tm_i t) (tm_s t)).
Lemma secs_of_ok t : date_ok (tm_y t) (tm_m t) (tm_d t) -> Z.abs (tm_h t) + Z.abs (tm_i t) + Z.abs (tm_s t) <= 2 ^ 40 -> Z.abs (tm_y t) <= 2 ^ 37 -> leap_unsigned (tm_y t) ->
  secs_of t = Some (time_moment t).
Proof.
  intros [Hm Hd] Hs Hy Hl. unfold secs_of. rewrite do_years_ok by done. cbn [mbind option_bind]. rewrite do_months_ok by done. cbn [mbind option_bind].
  unfold do_days, do_time, SECS_PER_DAY. pose proof (month_length_bounds (gregorian_leap (tm_y t)) (tm_m t)). pose proof (before_month_range (gregorian_leap (tm_y t)) (tm_m t) Hm).
  rewrite !of_to_ull by lia. assert (Hb : Z.abs (year_start (tm_y t) - year_start 1970) <= 2 ^ 46).
  { destruct (Z.le_ge_cases 1970 (tm_y t)) as [Hc|Hc]; [pose proof (year_start_mono 1970 _ Hc)|pose proof (year_start_mono _ 1970 Hc)]; lia. }
  in_sll. in_sll. rewrite sll_ok by (unfold SLL_MIN, SLL_MAX; lia). f_equal. unfold time_moment, moment, epoch_day. rewrite month_start_index by done. lia.
Qed.

(** ** [timelib_update_ts] *)

(** No weekday, no "first/last day of" and no special relative time. *)
Definition plain_relative (t : timelib_time) : Prop :=
  have_weekday_relative (relative t) = 0 /\ have_special_relative (relative t) = 0
  /\ first_last_day_of (relative t) <> TIMELIB_SPECIAL_FIRST_DAY_OF_MONTH /\ first_last_day_of (relative t) <> TIMELIB_SPECIAL_LAST_DAY_OF_MONTH.
Definition add_relative (t : timelib_time) : timelib_time :=
  let r := relative t in
  if have_relative t =? 0 then t
  else with_fields (tm_y t + rt_y r) (tm_m t + rt_m r) (tm_d t + rt_d r) (tm_h t + rt_h r) (tm_i t + rt_i r) (tm_s t + rt_s r) t.
(** The last part: the sum, the time zone, and the flags. *)
Definition finish_ts (t : timelib_time) (tzi : option timelib_tzinfo) : option timelib_time :=
  res ← secs_of t;
  '(t, n) ← do_adjust_timezone (set_sse res t) tzi;
  res ← sll (res + n);
  let t := set_sse res t in
  Some (set_have_relative 0 (set_relative (set_rel_have 0 0 (relative t)) (set_uptodate 1 (tim_uptodate t) t))).
Definition clear_special (t : timelib_time) : timelib_time := set_relative (set_rel_special {| special_type := 0; amount := 0 |} (relative t)) t.

Lemma do_first_last_plain t : plain_relative t -> do_first_last t = Some t.
Proof. intros (_ & _ & H1 & H2). unfold do_first_last. by rewrite (proj2 (Z.eqb_neq _ _) H1), (proj2 (Z.eqb_neq _ _) H2). Qed.
Lemma with_fields_relative y m d h i s t : relative (with_fields y m d h i s t) = relative t /\ have_relative (with_fields y m d h i s t) = have_relative t.
Proof. by destruct t. Qed.
Lemma with_fields_twice y m d h i s y' m' d' h' i' s' t : with_fields y m d h i s (with_fields y' m' d' h' i' s' t) = with_fields y m d h i s t.
Proof. by destruct t. Qed.
Lemma with_fields_get y m d h i s t : let t' := with_fields y m d h i s t in
  tm_y t' = y /\ tm_m t' = m /\ tm_d t' = d /\ tm_h t' = h /\ tm_i t' = i /\ tm_s t' = s.
Proof. by destruct t. Qed.

Lemma with_fields_plain y m d h i s t : plain_relative t -> plain_relative (with_fields y m d h i s t).
Proof. by destruct t. Qed.

Lemma special_early_plain t : plain_relative t -> do_adjust_special_early t = timelib_do_normalize t.
Proof. intros Hp. unfold do_adjust_special_early. rewrite (proj1 (proj2 Hp)), Z.eqb_refl. cbn [mbind option_bind]. by rewrite do_first_last_plain. Qed.
Lemma special_plain t : plain_relative t -> do_adjust_special t = (t ← timelib_do_normalize t; Some (clear_special t)).
Proof. intros (_ & H & _). unfold do_adjust_special. by rewrite H. Qed.
Lemma sll_small a b : small a -> small b -> sll (a + b) = Some (a + b).
Proof. unfold small. intros Ha Hb. apply sll_ok. unfold SLL_MIN, SLL_MAX. lia. Qed.
Definition relative_small (r : timelib_rel_time) : Prop := (small (rt_y r) /\ small (rt_m r) /\ small (rt_d r)) /\ small (rt_h r) /\ small (rt_i r) /\ small (rt_s r).
(** The relative fields are added to a time in range, one by one. *)
Lemma adjust_relative_plain t : plain_relative t -> Z.abs (tm_y t) <= 2 ^ 48 -> date_ok (tm_y t) (tm_m t) (tm_d t) -> time_normal t -> fields_small t -> relative_small (relative t) ->
  do_adjust_relative t = timelib_do_normalize (add_relative t).
Proof.
  intros Hp Hy Hd Ht ((F1 & F2 & F3) & F4 & F5 & F6) ((R1 & R2 & R3) & R4 & R5 & R6). unfold do_adjust_relative. rewrite (proj1 Hp). cbn [Z.eqb mbind option_bind].
  rewrite timelib_do_normalize_in by (done || lia). cbn [mbind option_bind]. unfold add_relative. destruct (have_relative t =? 0).
  - cbn [mbind option_bind]. by rewrite do_first_last_plain.
  - rewrite !sll_small by done. cbn [mbind option_bind]. fold (with_fields (tm_y t + rt_y (relative t)) (tm_m t + rt_m (relative t)) (tm_d t + rt_d (relative t))
      (tm_h t + rt_h (relative t)) (tm_i t + rt_i (relative t)) (tm_s t + rt_s (relative t)) t). rewrite do_first_last_plain by by apply with_fields_plain. done.
Qed.

(** Absolute values as atoms, for [lia]. *)
Ltac hide_abs := repeat match goal with
  | |- context [Z.abs ?x] => let a := fresh "a" in pose proof (Z.abs_nonneg x); set (a := Z.abs x) in *; clearbody a
  | _ : context [Z.abs ?x] |- _ => let a := fresh "a" in pose proof (Z.abs_nonneg x); set (a := Z.abs x) in *; clearbody a
  end.
Definition within (n : Z) (t : timelib_time) : Prop :=
  (Z.abs (tm_y t) <= n /\ Z.abs (tm_m t) <= n /\ Z.abs (tm_d t) <= n) /\ Z.abs (tm_h t) <= n /\ Z.abs (tm_i t) <= n /\ Z.abs (tm_s t) <= n.
Definition relative_within (n : Z) (r : timelib_rel_time) : Prop :=
  (Z.abs (rt_y r) <= n /\ Z.abs (rt_m r) <= n /\ Z.abs (rt_d r) <= n) /\ Z.abs (rt_h r) <= n /\ Z.abs (rt_i r) <= n /\ Z.abs (rt_s r) <= n.
(** [t'] is [t] with other fields, those of a date of the calendar. *)
Definition normal_of (t t' : timelib_time) : Prop :=
  (exists y m d h i s, t' = with_fields y m d h i s t) /\ date_ok (tm_y t') (tm_m t') (tm_d t') /\ time_normal t' /\ time_moment t' = time_moment t
  /\ (tm_s t <> TIMELIB_UNSET -> time_ok (tm_h t') (tm_i t') (tm_s t')).
Lemma normalize_normal t : fields_small t -> exists t', timelib_do_normalize t = Some t' /\ normal_of t t' /\ Z.abs (tm_y t') <= size t + 10
  /\ Z.abs (tm_h t') <= Z.abs (tm_h t) + 24 /\ Z.abs (tm_i t') <= Z.abs (tm_i t) + 60 /\ Z.abs (tm_s t') <= Z.abs (tm_s t) + 60.
Proof.
  intros Hs. destruct (timelib_do_normalize_ok t Hs) as (y & m & d & h & i & s & E & H1 & [H2 H2'] & H3 & H4). exists (with_fields y m d h i s t). split; [done|].
  destruct (with_fields_get y m d h i s t) as (Ey & Em & Ed & Eh & Ei & Es). rewrite Ey, Eh, Ei, Es. split; [|done].
  split; [by repeat eexists|]. by rewrite Ey, Em, Ed, Eh, Ei, Es.
Qed.
Lemma normal_twice t t' : normal_of t t' -> Z.abs (tm_y t') <= 2 ^ 48 -> timelib_do_normalize t' = Some t'.
Proof. intros (_ & Hd & Ht & _) Hy. apply timelib_do_normalize_in; [lia|done..]. Qed.
Lemma normal_plain t t' : normal_of t t' -> plain_relative t -> plain_relative t' /\ relative t' = relative t /\ have_relative t' = have_relative t.
Proof. intros [(y & m & d & h & i & s & ->) _] Hp. split; [by apply with_fields_plain|]. apply with_fields_relative. Qed.
Lemma normal_day t t' : normal_of t t' -> 1 <= tm_m t' <= 12 /\ 1 <= tm_d t' <= 31.
Proof. intros (_ & [Hm Hd] & _). pose proof (month_length_bounds (gregorian_leap (tm_y t')) (tm_m t')). lia. Qed.
Lemma add_relative_size k t : relative_within k (relative t) -> 0 <= k -> size (add_relative t) <= size t + 6 * k.
Proof.
  unfold size, relative_within, add_relative. intros Hr Hk. destruct (have_relative t =? 0); [lia|].
  destruct (with_fields_get (tm_y t + rt_y (relative t)) (tm_m t + rt_m (relative t)) (tm_d t + rt_d (relative t)) (tm_h t + rt_h (relative t)) (tm_i t + rt_i (relative t)) (tm_s t + rt_s (relative t)) t)
    as (-> & -> & -> & -> & -> & ->).
  pose proof (Z.abs_triangle (tm_y t) (rt_y (relative t))). pose proof (Z.abs_triangle (tm_m t) (rt_m (relative t))). pose proof (Z.abs_triangle (tm_d t) (rt_d (relative t))).
  pose proof (Z.abs_triangle (tm_h t) (rt_h (relative t))). pose proof (Z.abs_triangle (tm_i t) (rt_i (relative t))). pose proof (Z.abs_triangle (tm_s t) (rt_s (relative t))).
  hide_abs. lia.
Qed.
Lemma size_small t : size t <= 2 ^ 50 -> fields_small t.
Proof. unfold size, fields_small, small. hide_abs. lia. Qed.
Lemma relative_within_small k r : k <= 2 ^ 50 -> relative_within k r -> relative_small r.
Proof. unfold relative_within, relative_small, small. lia. Qed.
Lemma add_relative_plain t : plain_relative t -> plain_relative (add_relative t).
Proof. unfold add_relative. case_match; [done|]. apply with_fields_plain. Qed.

Lemma update_ts_local t tzi : plain_relative t -> within (2 ^ 32) t -> relative_within (2 ^ 32) (relative t) ->
  exists t0 t1, normal_of t t0 /\ (date_ok (tm_y t) (tm_m t) (tm_d t) -> time_normal t -> t0 = t) /\ normal_of (add_relative t0) t1
    /\ Z.abs (tm_y t1) <= 2 ^ 37 /\ Z.abs (tm_h t1) + Z.abs (tm_i t1) + Z.abs (tm_s t1) <= 2 ^ 40 /\ timelib_update_ts t tzi = finish_ts (clear_special t1) tzi.
Proof.
  intros Hp Hw Hr. assert (Hsz : size t <= 6 * 2 ^ 32) by (clear -Hw; unfold size, within in *; hide_abs; lia).
  destruct (normalize_normal t) as (t0 & E0 & H0 & Y0 & B0); [apply size_small; clear -Hsz; lia|]. destruct (normal_plain t t0 H0 Hp) as (Hp0 & Er & Eh). rewrite <- Er in Hr.
  pose proof (add_relative_size _ t0 Hr ltac:(lia)) as Hs1. assert (Hs0 : size t0 <= 9 * 2 ^ 32 + 300).
  { assert (Hd : Z.abs (tm_m t0) <= 12 /\ Z.abs (tm_d t0) <= 31) by (pose proof (normal_day _ _ H0); lia). clear -Hd Y0 B0 Hsz Hw. unfold size, within in *. hide_abs. lia. }
  destruct (normalize_normal (add_relative t0)) as (t1 & E1 & H1 & Y1 & B1); [apply size_small; clear -Hsz Hs1 Hs0; lia|].
  destruct (normal_plain _ _ H1 (add_relative_plain _ Hp0)) as (Hp1 & _). assert (Hy0 : Z.abs (tm_y t0) <= 2 ^ 48) by (clear -Y0 Hsz; hide_abs; lia). assert (Hy1 : Z.abs (tm_y t1) <= 2 ^ 37) by (clear -Y1 Hs1 Hs0; hide_abs; lia).
  exists t0, t1. split; [done|]. split.
  { intros Hd Ht. assert (Hy : Z.abs (tm_y t) <= 2 ^ 56) by (clear -Hsz; unfold size in Hsz; hide_abs; lia). rewrite (timelib_do_normalize_in t Hy Hd Ht) in E0. by injection E0. }
  split; [done|]. split; [done|]. split; [clear -B1 Hs1 Hs0; unfold size in *; hide_abs; lia|]. unfold timelib_update_ts. rewrite special_early_plain, E0 by done. cbn [mbind option_bind].
  rewrite adjust_relative_plain, E1; [|done..|apply H0|apply H0|apply size_small; clear -Hs0; lia|by apply (relative_within_small (2 ^ 32))].
  cbn [mbind option_bind]. rewrite special_plain by done. rewrite (normal_twice _ _ H1) by (clear -Hy1; hide_abs; lia). cbn [mbind option_bind]. unfold finish_ts, secs_of. fold (clear_special t1). generalize (clear_special t1). clear. intros t.
  destruct (do_years _) as [a|]; [|done]. cbn [mbind option_bind]. destruct (do_months _ _) as [b|]; [|done]. cbn [mbind option_bind]. destruct (sll (a + b)) as [c|]; [|done].
  cbn [mbind option_bind]. by destruct (sll (c + _)).
Qed.
