(* ===== verification/TimeRound.v ===== *)
(** * TimeRound: from dates to seconds and back in a fixed time zone

    Zones that are an offset in minutes, an abbreviation with its offset and
    daylight saving, or none; then adding the difference of two times. *)
From S2P Require Import Prelude Calendar CalendarSpec TimeLib TimeSpec TimeEpoch TimeNorm TimeStamp.

(** ** Fixed zones *)

(** Seconds west of Greenwich. *)
Definition zone_secs (t : timelib_time) : Z :=
  if zone_type t =? TIMELIB_ZONETYPE_OFFSET then tm_z t * 60
  else if zone_type t =? TIMELIB_ZONETYPE_ABBR then (tm_z t - tm_dst t * 60) * 60 else 0.
Definition fixed_zone (t : timelib_time) : Prop :=
  Z.abs (tm_z t) <= 1000000 /\ Z.abs (tm_dst t) <= 10000 /\ (zone_type t = TIMELIB_ZONETYPE_OFFSET /\ tm_dst t = 0 \/ zone_type t = TIMELIB_ZONETYPE_ABBR \/ zone_type t = 0).
Lemma zone_secs_bound t : fixed_zone t -> Z.abs (zone_secs t) <= 2 ^ 27.
Proof. intros (Hz & Hd & _). unfold zone_secs. repeat case_match; lia. Qed.
Lemma fixed_zone_eq t t' : tm_z t' = tm_z t -> tm_dst t' = tm_dst t -> zone_type t' = zone_type t -> fixed_zone t -> fixed_zone t' /\ zone_secs t' = zone_secs t.
Proof. intros Ez Ed Et. unfold fixed_zone, zone_secs. by rewrite Ez, Ed, Et. Qed.

(** The fields of the date agree. *)
Definition same_date (t t' : timelib_time) : Prop :=
  (tm_y t' = tm_y t /\ tm_m t' = tm_m t /\ tm_d t' = tm_d t) /\ tm_h t' = tm_h t /\ tm_i t' = tm_i t /\ tm_s t' = tm_s t.
Definition same_zone (t t' : timelib_time) : Prop := tm_z t' = tm_z t /\ tm_dst t' = tm_dst t /\ zone_type t' = zone_type t.
Lemma same_date_moment t t' : same_date t t' -> time_moment t' = time_moment t.
Proof. unfold same_date, time_moment. intros ((-> & -> & ->) & -> & -> & ->). done. Qed.
Lemma same_zone_fixed t t' : same_zone t t' -> fixed_zone t -> fixed_zone t' /\ zone_secs t' = zone_secs t.
Proof. intros (H1 & H2 & H3). by apply fixed_zone_eq. Qed.
Lemma with_fields_zone y m d h i s t : same_zone t (with_fields y m d h i s t) /\ sse (with_fields y m d h i s t) = sse t.
Proof. by destruct t. Qed.

Lemma do_adjust_timezone_fixed t : fixed_zone t -> exists t', do_adjust_timezone t None = Some (t', zone_secs t) /\ same_date t t' /\ same_zone t t' /\ sse t' = sse t.
Proof.
  intros (Hz & Hd & Ht). unfold do_adjust_timezone, zone_secs. destruct Ht as [[Ht Ed]|[Ht|Ht]]; rewrite Ht; cbn [Z.eqb Pos.eqb orb TIMELIB_ZONETYPE_OFFSET TIMELIB_ZONETYPE_ABBR TIMELIB_ZONETYPE_ID].
  - rewrite int_value_ok by (unfold INT_MIN, INT_MAX; lia). eexists. split; [done|]. by destruct t.
  - rewrite int_value_ok by (unfold INT_MIN, INT_MAX; lia). cbn [mbind option_bind]. in_sll. eexists. split; [done|]. by destruct t.
  - exists t. by destruct t.
Qed.
Lemma update_from_sse_fixed t : fixed_zone t -> SLL_MIN + 2 ^ 27 <= sse t <= SLL_MAX - 2 ^ 27 ->
  exists y m d h i s g, timelib_unixtime2gmt t (sse t - zone_secs t) = Some (gmt_of t (sse t - zone_secs t) y m d h i s)
    /\ timelib_update_from_sse t = Some g /\ same_date (with_fields y m d h i s t) g /\ same_zone t g /\ sse g = sse t /\ relative g = relative t /\ have_relative g = have_relative t
    /\ 1 <= m <= 12 /\ 0 <= d <= month_length (gregorian_leap y) m /\ (d = 0 -> period_end (sse t - zone_secs t)) /\ time_ok h i s
    /\ moment y m d h i s = sse t - zone_secs t /\ Z.abs y <= 10 ^ 12.
Proof.
  intros Hz Hs. pose proof (zone_secs_bound t Hz) as Hb. destruct (unixtime2gmt_ok t (sse t - zone_secs t)) as (y & m & d & h & i & s & E & H1 & H2 & H3 & H4 & H5 & _ & H6); [lia|].
  assert (E' : timelib_update_from_sse t = (t' ← timelib_unixtime2gmt t (sse t - zone_secs t); Some (set_dst (tm_dst t) (set_z (tm_z t) (set_have_zone 1 (set_is_localtime 1 (set_sse (sse t) t'))))))).
  { destruct Hz as (Hz & Hd & Ht). unfold timelib_update_from_sse, zone_secs, shifted in *.
    assert (Ei : int_value (tm_z t * 60) = Some (tm_z t * 60) /\ int_value (tm_dst t * 3600) = Some (tm_dst t * 3600)) by (split; apply int_value_ok; unfold INT_MIN, INT_MAX; lia).
    destruct Ei as [Ei1 Ei2]. unfold SLL_MIN, SLL_MAX in Hs.
    destruct Ht as [[Ht Ed]|[Ht|Ht]]; rewrite Ht; cbn [Z.eqb TIMELIB_ZONETYPE_OFFSET TIMELIB_ZONETYPE_ABBR TIMELIB_ZONETYPE_ID Pos.eqb orb].
    - rewrite Ei1, Ei2. cbn [mbind option_bind]. in_sll. in_sll. rewrite Ed. by replace (sse t - tm_z t * 60 + 0 * 3600) with (sse t - tm_z t * 60) by lia.
    - rewrite Ei1, Ei2. cbn [mbind option_bind]. in_sll. in_sll. by replace (sse t - tm_z t * 60 + tm_dst t * 3600) with (sse t - (tm_z t - tm_dst t * 60) * 60) by lia.
    - by rewrite Z.sub_0_r. }
  rewrite E', E. cbn [mbind option_bind]. eexists y, m, d, h, i, s, _. split; [done|]. split; [done|]. destruct t. cbn. split_and!; try done; lia.
Qed.
Lemma time_moment_bound t : date_ok (tm_y t) (tm_m t) (tm_d t) -> Z.abs (tm_h t) + Z.abs (tm_i t) + Z.abs (tm_s t) <= 2 ^ 40 -> Z.abs (tm_y t) <= 2 ^ 37 ->
  Z.abs (time_moment t) <= 2 ^ 62.
Proof.
  intros [Hm Hd] Ht Hy. pose proof (month_length_bounds (gregorian_leap (tm_y t)) (tm_m t)). pose proof (before_month_range (gregorian_leap (tm_y t)) (tm_m t) Hm).
  unfold time_moment, moment, epoch_day. rewrite month_start_index by done.
  assert (Hb : Z.abs (year_start (tm_y t) - year_start 1970) <= 366 * (2 ^ 37 + 1970)).
  { destruct (Z.le_ge_cases 1970 (tm_y t)) as [Hc|Hc]; [pose proof (year_start_mono 1970 _ Hc)|pose proof (year_start_mono _ 1970 Hc)]; lia. }
  lia.
Qed.
Lemma same_date_trans t1 t2 t3 : same_date t1 t2 -> same_date t2 t3 -> same_date t1 t3.
Proof. unfold same_date. intros ((-> & -> & ->) & -> & -> & ->). done. Qed.
Lemma same_zone_trans t1 t2 t3 : same_zone t1 t2 -> same_zone t2 t3 -> same_zone t1 t3.
Proof. unfold same_zone. intros (-> & -> & ->). done. Qed.
Lemma same_zone_sym t1 t2 : same_zone t1 t2 -> same_zone t2 t1.
Proof. unfold same_zone. intros (-> & -> & ->). done. Qed.
(** The last assignments of [timelib_update_ts]. *)
Definition finished (n : Z) (t : timelib_time) : timelib_time :=
  let t := set_sse n t in set_have_relative 0 (set_relative (set_rel_have 0 0 (relative t)) (set_uptodate 1 (tim_uptodate t) t)).
Lemma finished_get n t : same_date t (finished n t) /\ same_zone t (finished n t) /\ sse (finished n t) = n.
Proof. by destruct t. Qed.
Lemma finish_ts_steps t tzi a t' n b : secs_of t = Some a -> do_adjust_timezone (set_sse a t) tzi = Some (t', n) -> sll (a + n) = Some b -> finish_ts t tzi = Some (finished b t').
Proof. unfold finish_ts. intros -> E. cbn [mbind option_bind]. rewrite E. cbn [mbind option_bind]. intros ->. done. Qed.
Lemma finish_ts_fixed t : fixed_zone t -> date_ok (tm_y t) (tm_m t) (tm_d t) -> Z.abs (tm_h t) + Z.abs (tm_i t) + Z.abs (tm_s t) <= 2 ^ 40 -> Z.abs (tm_y t) <= 2 ^ 37 ->
  leap_unsigned (tm_y t) -> exists t', finish_ts t None = Some t' /\ same_date t t' /\ same_zone t t' /\ sse t' = time_moment t + zone_secs t.
Proof.
  intros Hz Hd Ht Hy Hl. assert (same_zone t (set_sse (time_moment t) t) /\ same_date t (set_sse (time_moment t) t)) as [Hs Hs'] by by destruct t.
  destruct (same_zone_fixed _ _ Hs Hz) as [Hz' Es]. destruct (do_adjust_timezone_fixed _ Hz') as (t' & E & D1 & D2 & D3). rewrite Es in E.
  pose proof (time_moment_bound t Hd Ht Hy). pose proof (zone_secs_bound t Hz). assert (En : sll (time_moment t + zone_secs t) = Some (time_moment t + zone_secs t)) by (apply sll_ok; unfold SLL_MIN, SLL_MAX; lia).
  rewrite (finish_ts_steps t None _ t' _ _ (secs_of_ok t Hd Ht Hy Hl) E En).
  destruct (finished_get (time_moment t + zone_secs t) t') as (F1 & F2 & F3). eexists. split; [done|]. split; [|split; [|done]].
  - by eapply same_date_trans, F1; eapply same_date_trans, D1.
  - by eapply same_zone_trans, F2; eapply same_zone_trans, D2.
Qed.

(** ** Broken-down time to seconds *)

(** The second at which year 0 begins: before it the leap years of [do_months] are not the calendar's. *)
Definition year_zero : Z := -62167219200.
Lemma year_nonneg y m d h i s : date_ok y m d -> time_ok h i s -> year_zero <= moment y m d h i s -> 0 <= y.
Proof.
  intros [Hm Hd] (Hh & Hi & Hs) Hy. destruct (Z_le_gt_dec 0 y) as [Hc|Hc]; [done|]. unfold moment, epoch_day, year_zero in Hy. assert (Hk : month_index y m + 1 <= 0) by (unfold month_index; lia). pose proof (month_start_mono _ 0 Hk) as Hmono.
  rewrite month_start_succ, month_len_index in Hmono by done. assert (E : month_start 0 = -719528) by (vm_compute; reflexivity). lia.
Qed.
(** [timelib_update_ts]: the date is put in range, each relative field is added to its own, and the sum put in range gives the seconds. *)
Lemma update_ts_fixed t : fixed_zone t -> plain_relative t -> within (2 ^ 32) t -> relative_within (2 ^ 32) (relative t) ->
  exists t0, normal_of t t0 /\ (date_ok (tm_y t) (tm_m t) (tm_d t) -> time_normal t -> t0 = t) /\
  exists t1, date_ok (tm_y t1) (tm_m t1) (tm_d t1) /\ time_normal t1 /\ time_moment t1 = time_moment (add_relative t0) /\ (tm_s (add_relative t0) <> TIMELIB_UNSET -> in_calendar t1) /\ Z.abs (tm_y t1) <= 2 ^ 37 /\
    (leap_unsigned (tm_y t1) -> exists t', timelib_update_ts t None = Some t' /\ same_date t1 t' /\ same_zone t t' /\ sse t' = time_moment t1 + zone_secs t).
Proof.
  intros Hz Hp Hw Hr. destruct (update_ts_local t None Hp Hw Hr) as (t0 & t1 & H0 & Hid & H1 & Hy & Ht & E). exists t0. split; [done|]. split; [done|].
  exists t1. destruct H1 as ((y & m & d & h & i & s & Et1) & Hd & Hn & Hm & Htok). split; [done|]. split; [done|]. split; [done|]. split; [intros Hu; split; auto|]. split; [done|]. intros Hl. rewrite E.
  assert (Hz1 : same_zone t (clear_special t1) /\ same_date t1 (clear_special t1)).
  { destruct H0 as [(y0 & m0 & d0 & h0 & i0 & s0 & ->) _]. rewrite Et1. unfold add_relative. case_match; by destruct t. }
  destruct Hz1 as [Hz1 Hs1]. destruct (same_zone_fixed _ _ Hz1 Hz) as [Hz2 Ez]. pose proof (same_date_moment _ _ Hs1) as Em.
  pose proof Hs1 as Hsd. unfold same_date in Hs1. destruct Hs1 as ((Ey & Emo & Ed) & Eh & Ei & Es).
  destruct (finish_ts_fixed (clear_special t1)) as (t' & E' & D1 & D2 & D3); [done|by rewrite Ey, Emo, Ed|by rewrite Eh, Ei, Es|by rewrite Ey..|].
  exists t'. split; [done|]. split; [by apply (same_date_trans _ _ _ Hsd)|]. split; [by apply (same_zone_trans _ _ _ Hz1)|]. by rewrite D3, Em, Ez.
Qed.

(** ** There and back *)
Lemma year_bound y m d h i s : 1 <= m <= 12 -> 0 <= d <= 31 -> time_ok h i s -> Z.abs (moment y m d h i s) <= 2 ^ 55 -> Z.abs y <= 1200000000.
Proof.
  intros Hm Hd (Hh & Hi & Hs) Hb. pose proof (before_month_range (gregorian_leap y) m Hm). unfold moment, epoch_day in Hb. rewrite month_start_index in Hb by done.
  destruct (Z.le_ge_cases 1970 y) as [Hc|Hc]; [pose proof (year_start_mono 1970 y Hc)|pose proof (year_start_mono y 1970 Hc)]; lia.
Qed.
Lemma same_date_calendar t t' : same_date t t' -> in_calendar t -> in_calendar t'.
Proof. unfold same_date, in_calendar. intros ((-> & -> & ->) & -> & -> & ->). done. Qed.
Definition bias (r : timelib_rel_time) : Z := if invert r =? 0 then 1 else -1.
(** The fields of a date, brought up to date with its seconds. *)
Definition up_to_date (t : timelib_time) : Prop := in_calendar t /\ time_moment t = sse t - zone_secs t.
Lemma up_to_date_within t : up_to_date t -> zone_secs t = 0 -> Z.abs (sse t) <= 2 ^ 55 -> within (2 ^ 32) t.
Proof.
  intros [[[Hm Hd] Ht] Hmo] Hz Hs. rewrite Hz, Z.sub_0_r in Hmo. rewrite <- Hmo in Hs. pose proof (month_length_bounds (gregorian_leap (tm_y t)) (tm_m t)) as Hl.
  assert (Hd' : 0 <= tm_d t <= 31) by lia. pose proof (year_bound _ _ _ _ _ _ Hm Hd' Ht Hs) as Hy. unfold time_ok in Ht. unfold within. clear -Hm Hd Ht Hy Hl. lia.
Qed.

Lemma same_date_sym t t' : same_date t t' -> same_date t' t.
Proof. unfold same_date. intros ((-> & -> & ->) & -> & -> & ->). done. Qed.
Lemma add_relative_none t : have_relative t = 0 -> add_relative t = t.
Proof. unfold add_relative. by intros ->. Qed.
Definition no_relative (t : timelib_time) : Prop := have_relative t = 0 /\ plain_relative t /\ relative_within (2 ^ 32) (relative t).

Lemma calendar_inj t t' : in_calendar t -> in_calendar t' -> time_moment t = time_moment t' -> same_date t t'.
Proof.
  intros [Hd (Hh & Hi & Hs)] [Hd' (Hh' & Hi' & Hs')] Hm. unfold time_moment, moment in Hm.
  assert (E : epoch_day (tm_y t) (tm_m t) (tm_d t) = epoch_day (tm_y t') (tm_m t') (tm_d t')) by lia.
  destruct (epoch_day_inj _ _ _ _ _ _ Hd Hd' E) as (E1 & E2 & E3). unfold same_date. lia.
Qed.

(** Seconds to a date, and the date to seconds. *)
Lemma update_ts_from_sse t : fixed_zone t -> no_relative t -> Z.abs (sse t - zone_secs t) <= 2 ^ 55 -> year_zero <= sse t - zone_secs t ->
  exists g t', timelib_update_from_sse t = Some g /\ same_zone t g /\ sse g = sse t /\ timelib_update_ts g None = Some t' /\ sse t' = sse t
    /\ (~ period_end (sse t - zone_secs t) -> up_to_date g /\ same_date g t').
Proof.
  intros Hz (Hr & Hp & Hrw) Hs Hy. pose proof (zone_secs_bound t Hz) as Hzb.
  destruct (update_from_sse_fixed t Hz) as (y & m & d & h & i & s & g & _ & E & S & Zg & Eg & Erel & Eh & Hm & Hd & H0 & Ht & Hmo & _); [clear -Hs Hzb; unfold SLL_MIN, SLL_MAX; lia|].
  destruct (same_zone_fixed _ _ Zg Hz) as [Hzg Ez]. destruct (with_fields_get y m d h i s t) as (Ey & Em & Ed & Eh' & Ei & Es).
  assert (Hgm : time_moment g = sse t - zone_secs t) by (rewrite (same_date_moment _ _ S); unfold time_moment; by rewrite Ey, Em, Ed, Eh', Ei, Es).
  pose proof (month_length_bounds (gregorian_leap y) m) as Hl. assert (Hd' : 0 <= d <= 31) by (clear -Hd Hl; lia). pose proof Hs as Hyb. rewrite <- Hmo in Hyb. apply year_bound in Hyb; [|done..].
  destruct (update_ts_fixed g Hzg) as (t0 & Hn0 & Hid & t1 & D1 & N1 & M1 & Hin & Hb & Hres).
  { unfold plain_relative in *. by rewrite Erel. }
  { unfold same_date in S. unfold within. destruct S as ((-> & -> & ->) & -> & -> & ->). rewrite Ey, Em, Ed, Eh', Ei, Es. unfold time_ok in Ht. clear -Hyb Hm Hd' Ht. lia. } { by rewrite Erel. }
  assert (Hr0 : add_relative t0 = t0). { apply add_relative_none. destruct Hn0 as [(y0 & m0 & d0 & h0 & i0 & s0 & ->) _]. destruct (with_fields_relative y0 m0 d0 h0 i0 s0 g) as [_ ->]. by rewrite Eh. }
  rewrite Hr0 in *. assert (Hg0 : tm_s g <> TIMELIB_UNSET).
  { unfold same_date in S. destruct S as (_ & _ & _ & ->). rewrite Es. unfold time_ok, TIMELIB_UNSET in *. clear -Ht. lia. }
  assert (Ht0 : in_calendar t0 /\ time_moment t0 = sse t - zone_secs t) by (destruct Hn0 as (_ & H1 & _ & H2 & H3); split; [split; auto|by rewrite H2]). destruct Ht0 as [Ht0 Hm0].
  assert (Hu0 : tm_s t0 <> TIMELIB_UNSET) by (destruct Ht0 as [_ (_ & _ & Hs0)]; unfold TIMELIB_UNSET; clear -Hs0; lia). specialize (Hin Hu0).
  assert (Hy1 : 0 <= tm_y t1). { eapply year_nonneg; [apply Hin|apply Hin|]. fold (time_moment t1). by rewrite M1, Hm0. }
  destruct Hres as (t' & E' & S' & _ & Esse); [apply leap_unsigned_nonneg; clear -Hy1 Hb; lia|]. rewrite M1, Hm0, Ez in Esse.
  exists g, t'. split; [done|]. split; [done|]. split; [done|]. split; [done|]. split; [clear -Esse; lia|]. intros Hne.
  assert (Hcal : in_calendar g). { apply (same_date_calendar _ _ S). unfold in_calendar. rewrite Ey, Em, Ed, Eh', Ei, Es. split; [|done]. split; [done|]. destruct (Z.eq_dec d 0) as [E0|]; [by destruct (Hne (H0 E0))|lia]. }
  split; [split; [done|]; by rewrite Hgm, Eg, Ez|]. apply (same_date_trans _ t1); [|done].
  assert (E0 : t0 = g) by (apply Hid; [apply Hcal|left; apply Hcal]). subst t0. apply calendar_inj; [done..|]. by rewrite M1.
Qed.

(** A date to seconds, as the calendar counts them, and the seconds to that date. *)
Lemma update_from_sse_ts t : fixed_zone t -> no_relative t -> within (2 ^ 32) t -> tm_s t <> TIMELIB_UNSET -> year_zero <= time_moment t ->
  exists t' g, timelib_update_ts t None = Some t' /\ same_zone t t' /\ sse t' = time_moment t + zone_secs t /\ up_to_date t' /\ (in_calendar t -> same_date t t')
    /\ (Z.abs (time_moment t) <= 2 ^ 60 -> timelib_update_from_sse t' = Some g /\ sse g = sse t' /\ (~ period_end (time_moment t) -> same_date t' g)).
Proof.
  intros Hz (Hr & Hp & Hrw) Hw Hu Hy. destruct (update_ts_fixed t Hz Hp Hw Hrw) as (t0 & Hn0 & Hid & t1 & D1 & N1 & M1 & Hin & Hb & Hres).
  assert (Hr0 : add_relative t0 = t0). { apply add_relative_none. destruct Hn0 as [(y0 & m0 & d0 & h0 & i0 & s0 & ->) _]. by destruct (with_fields_relative y0 m0 d0 h0 i0 s0 t) as [_ ->]. }
  rewrite Hr0 in *. assert (Ht0 : in_calendar t0 /\ time_moment t0 = time_moment t) by (destruct Hn0 as (_ & H1 & _ & H2 & H3); split; [split; auto|done]). destruct Ht0 as [Ht0 Hm0].
  assert (Hu0 : tm_s t0 <> TIMELIB_UNSET) by (destruct Ht0 as [_ (_ & _ & Hs0)]; unfold TIMELIB_UNSET; clear -Hs0; lia). specialize (Hin Hu0). rewrite Hm0 in M1.
  assert (Hy1 : 0 <= tm_y t1). { eapply year_nonneg; [apply Hin|apply Hin|]. fold (time_moment t1). by rewrite M1. }
  destruct Hres as (t' & E' & S' & Z' & Esse); [apply leap_unsigned_nonneg; clear -Hy1 Hb; lia|]. rewrite M1 in Esse. destruct (same_zone_fixed _ _ Z' Hz) as [Hz' Ez'].
  assert (Hup : up_to_date t'). { split; [by apply (same_date_calendar t1)|]. rewrite (same_date_moment _ _ S'), M1, Esse, Ez'. clear. lia. }
  destruct (Z_le_gt_dec (Z.abs (time_moment t)) (2 ^ 60)) as [Hs|Hs].
  2: { exists t', t'. do 4 (split; [done|]). split; [intros Hc; apply (same_date_trans _ t1), S'; by apply calendar_inj|]. intros Hs'. clear -Hs Hs'. lia. }
  pose proof (zone_secs_bound t Hz) as Hzb. destruct (update_from_sse_fixed t' Hz') as (y & m & d & h & i & s & g & _ & E & S & Zg & Eg & _ & _ & Hm & Hd & H0 & Ht & Hmo & _).
  { rewrite Esse. clear -Hs Hzb. unfold SLL_MIN, SLL_MAX. lia. }
  exists t', g. split; [done|]. split; [done|]. split; [done|]. split; [done|]. split; [intros Hc; apply (same_date_trans _ t1), S'; by apply calendar_inj|].
  intros _. split; [done|]. split; [done|]. intros Hne. destruct (with_fields_get y m d h i s t') as (Ey & Em & Ed & Eh' & Ei & Es). rewrite Esse, Ez', Z.add_simpl_r in *.
  apply (same_date_trans _ (with_fields y m d h i s t')), S. apply calendar_inj; [apply Hup| |].
  - unfold in_calendar. rewrite Ey, Em, Ed, Eh', Ei, Es. split; [|done]. split; [done|]. destruct (Z.eq_dec d 0) as [E0|]; [by destruct (Hne (H0 E0))|lia].
  - destruct Hup as [_ ->]. rewrite Esse, Ez', Z.add_simpl_r. unfold time_moment. by rewrite Ey, Em, Ed, Eh', Ei, Es, Hmo.
Qed.
