(* ===== verification/TimeDiff.v ===== *)
(** * TimeDiff: adding the difference of two times

    [timelib_diff] subtracts field by field and borrows days of the month
    before the later time, or, for an inverted interval, of the months from the
    earlier one on; [timelib_add] undoes both. *)
From S2P Require Import Prelude Calendar CalendarSpec TimeLib TimeSpec TimeEpoch TimeNorm TimeStamp TimeRound.

(** ** Borrowing days *)
(** The days of [j] months, up to the month [k] or from it on, and the last of these months. *)
Definition borrowed (inverted : bool) (k j : Z) : Z := if inverted then month_start (k + j) - month_start k else month_start k - month_start (k - j).
Definition last_borrowed (inverted : bool) (k j : Z) : Z := if inverted then k + j - 1 else k - j.
Lemma dec_month_ok y m : Z.abs y <= 2 ^ 50 -> 1 <= m <= 12 -> exists y' m', dec_month y m = Some (y', m') /\ 1 <= m' <= 12 /\ month_index y' m' = month_index y m - 1 /\ Z.abs y' <= Z.abs y + 1.
Proof.
  intros Hy Hm. unfold dec_month, month_index. rewrite (sll_ok (m - 1)), (sll_ok (y - 1)) by (unfold SLL_MIN, SLL_MAX; lia). cbn [mbind option_bind].
  destruct (Z.ltb_spec (m - 1) 1); (eexists _, _; split; [done|]; lia).
Qed.
Lemma inc_month_ok y m : Z.abs y <= 2 ^ 50 -> 1 <= m <= 12 -> exists y' m', inc_month y m = Some (y', m') /\ 1 <= m' <= 12 /\ month_index y' m' = month_index y m + 1 /\ Z.abs y' <= Z.abs y + 1.
Proof.
  intros Hy Hm. unfold inc_month, month_index. rewrite (sll_ok (m + 1)), (sll_ok (y + 1)) by (unfold SLL_MIN, SLL_MAX; lia). cbn [mbind option_bind].
  destruct (Z.ltb_spec 12 (m + 1)); (eexists _, _; split; [done|]; lia).
Qed.
Lemma borrow_days_ok inverted fuel : forall y mo m d, 1 <= mo <= 12 -> Z.abs y + Z.of_nat fuel <= 2 ^ 50 -> Z.abs m + Z.of_nat fuel <= 2 ^ 50 -> 0 <= d + 28 * Z.of_nat fuel ->
  exists j d', borrow_days fuel inverted y mo m d = Some (m - j, d') /\ 0 <= j <= Z.of_nat fuel /\ d' = d + borrowed inverted (month_index y mo) j /\ 0 <= d' <= Z.max d 30
    /\ (0 < j -> d' < month_len (last_borrowed inverted (month_index y mo) j)).
Proof.
  induction fuel as [|fuel IH]; intros y mo m d Hmo Hy Hm Hd; cbn [borrow_days]; destruct (Z.ltb_spec d 0) as [Hn|Hp]; try lia.
  1, 3: exists 0, d; rewrite Z.sub_0_r; (split; [done|]); unfold borrowed; rewrite ?Z.add_0_r, ?Z.sub_0_r; destruct inverted; lia.
  assert (Hmid : forall k, k = (if inverted then month_index y mo else month_index y mo - 1) -> forall y' mo', month_index y' mo' = (if inverted then k + 1 else k) -> 1 <= mo' <= 12 ->
    Z.abs y' <= Z.abs y + 1 -> exists j d', borrow_days fuel inverted y' mo' (m - 1) (d + month_len k) = Some (m - j, d') /\ 0 <= j <= Z.of_nat (S fuel)
    /\ d' = d + borrowed inverted (month_index y mo) j /\ 0 <= d' <= Z.max d 30 /\ (0 < j -> d' < month_len (last_borrowed inverted (month_index y mo) j))).
  { intros k Hk y' mo' Ek Hmo' Hy'. pose proof (month_len_bounds k). destruct (IH y' mo' (m - 1) (d + month_len k)) as (j & d' & -> & Hj & Hd' & Hr & Hl); [lia..|].
    exists (j + 1), d'. split; [by replace (m - 1 - j) with (m - (j + 1)) by lia|]. split; [lia|]. split; [|split; [lia|]].
    2:{ intros _. destruct (Z.eqb_spec j 0) as [->|Hj0]; [|rewrite Ek in Hl; specialize (Hl ltac:(lia)); revert Hl]; unfold last_borrowed, borrowed in *; destruct inverted.
        - replace (month_index y mo + (0 + 1) - 1) with k by lia. rewrite Hd', Z.add_0_r. lia.
        - replace (month_index y mo - (0 + 1)) with k by lia. rewrite Hd', Z.sub_0_r. lia.
        - by replace (month_index y mo + (j + 1) - 1) with (k + 1 + j - 1) by lia.
        - by replace (month_index y mo - (j + 1)) with (k - j) by lia. }
    rewrite Hd', Ek. unfold borrowed. pose proof (month_start_succ k) as Es. destruct inverted.
    - rewrite <- Hk. replace (k + 1 + j) with (k + (j + 1)) by lia. lia.
    - replace (month_index y mo) with (k + 1) by lia. replace (k + 1 - (j + 1)) with (k - j) by lia. lia. }
  destruct inverted.
  - cbn [mbind option_bind]. rewrite month_days_len by lia. cbn [mbind option_bind]. in_sll. destruct (inc_month_ok y mo) as (y' & mo' & -> & H1 & H2 & H3); [lia..|]. cbn [mbind option_bind]. by apply (Hmid (month_index y mo)).
  - destruct (dec_month_ok y mo) as (y' & mo' & -> & H1 & H2 & H3); [lia..|]. cbn [mbind option_bind]. rewrite month_days_len by lia. cbn [mbind option_bind]. in_sll. rewrite H2.
    by apply (Hmid (month_index y mo - 1)).
Qed.

(** ** [timelib_do_rel_normalize] *)
Definition rel_secs (r : timelib_rel_time) : Z := rt_d r * 86400 + rt_h r * 3600 + rt_i r * 60 + rt_s r.
Definition rel_months (r : timelib_rel_time) : Z := 12 * rt_y r + rt_m r.
Definition with_rel (y m d h i s : Z) (r : timelib_rel_time) : timelib_rel_time := set_rel_ymd y m d (set_rel_hms h i s r).
Lemma with_rel_get y m d h i s r : let r' := with_rel y m d h i s r in rel_months r' = 12 * y + m /\ rel_secs r' = d * 86400 + h * 3600 + i * 60 + s /\ invert r' = invert r /\ days r' = days r.
Proof. by destruct r. Qed.
Definition rel_normal (r : timelib_rel_time) : Prop := 0 <= rt_m r < 12 /\ 0 <= rt_d r /\ 0 <= rt_h r < 24 /\ 0 <= rt_i r < 60 /\ 0 <= rt_s r < 60.
Lemma timelib_do_rel_normalize_ok base rt : 1 <= tm_m base <= 12 -> Z.abs (tm_y base) <= 2 ^ 40 -> relative_within (2 ^ 40) rt ->
  exists y m d h i s j, timelib_do_rel_normalize base rt = Some (base, with_rel y m d h i s rt) /\ rel_normal (with_rel y m d h i s rt) /\
    12 * y + m = rel_months rt - j /\ d * 86400 + h * 3600 + i * 60 + s = rel_secs rt + 86400 * borrowed (negb (invert rt =? 0)) (month_index (tm_y base) (tm_m base)) j
    /\ (rt_h rt < 24 -> rt_i rt < 60 -> rt_s rt < 60 -> d <= Z.max (rt_d rt) 30) /\ 0 <= j
    /\ (0 < j -> d < month_len (last_borrowed (negb (invert rt =? 0)) (month_index (tm_y base) (tm_m base)) j)).
Proof.
  intros Hm Hy ((Ry & Rm & Rd) & Rh & Ri & Rs). unfold timelib_do_rel_normalize, rel_months, rel_secs, rel_normal.
  destruct (range_60 (rt_s rt) (rt_i rt)) as (s & i1 & -> & S1 & S2); [lia..|]. cbn [mbind option_bind].
  destruct (range_60 i1 (rt_h rt)) as (i & h1 & -> & I1 & I2); [lia..|]. cbn [mbind option_bind].
  destruct (range_24 h1 (rt_d rt)) as (h & d1 & -> & H1 & H2); [lia..|]. cbn [mbind option_bind].
  destruct (range_years (rt_m rt) (rt_y rt)) as (m1 & y1 & -> & M1 & M2); [lia..|]. cbn [mbind option_bind].
  unfold do_range_limit_days_relative. rewrite range_12_in by lia. cbn [mbind option_bind]. set (inv := negb (invert rt =? 0)). set (fuel := Z.to_nat (Z.quot (- d1) 28 + 1)).
  assert (Hd1 : Z.abs d1 <= 2 ^ 44 /\ d1 <= Z.abs (rt_d rt) + Z.abs (rt_h rt) + Z.abs (rt_i rt) + Z.abs (rt_s rt) + 3) by lia.
  assert (Hf : Z.of_nat fuel <= 2 ^ 44 /\ 0 <= d1 + 28 * Z.of_nat fuel) by (clear -Hd1; unfold fuel; Z.to_euclidean_division_equations; lia). clearbody fuel.
  destruct (borrow_days_ok inv fuel (tm_y base) (tm_m base) m1 d1) as (j & d2 & -> & J1 & J2 & J3 & J4); [lia..|]. cbn [mbind option_bind].
  destruct (range_years (m1 - j) y1) as (m2 & y2 & -> & M3 & M4); [lia..|]. cbn [mbind option_bind].
  exists y2, m2, d2, h, i, s, j. destruct base, rt. cbn in *. split; [done|]. split; [lia|]. split; [lia|]. split; [lia|]. split; [lia|]. split; [lia|done].
Qed.

(** ** [timelib_diff] *)
Lemma sll_abs n z : Z.abs z <= n -> n <= 2 ^ 62 -> sll z = Some z.
Proof. intros H1 H2. apply sll_ok. unfold SLL_MIN, SLL_MAX. lia. Qed.

(** The date and time of an instant. *)
Definition gmt_date (ts : Z) (g : timelib_time) : Prop :=
  1 <= tm_m g <= 12 /\ 0 <= tm_d g <= month_length (gregorian_leap (tm_y g)) (tm_m g) /\ time_ok (tm_h g) (tm_i g) (tm_s g) /\ time_moment g = ts /\ Z.abs (tm_y g) <= 1200000000 /\ sse g = ts
  /\ (~ period_end ts -> date_ok (tm_y g) (tm_m g) (tm_d g)).
Lemma gmt_day ts g : gmt_date ts g -> 0 <= tm_d g <= 31.
Proof. intros (_ & Hd & _). pose proof (month_length_bounds (gregorian_leap (tm_y g)) (tm_m g)). lia. Qed.
Lemma to_gmt t : Z.abs (sse t) <= 2 ^ 55 -> exists g, timelib_apply_localtime t false = Some (g, 0) /\ gmt_date (sse t) g /\ Z.abs (tm_y g) <= 1200000000.
Proof.
  intros Hs. unfold timelib_apply_localtime. destruct (unixtime2gmt_ok t (sse t)) as (y & m & d & h & i & s & -> & Hm & Hd & H0 & Ht & Hmo & _); [unfold SLL_MIN, SLL_MAX; lia|].
  cbn [mbind option_bind]. eexists. split; [done|]. pose proof (month_length_bounds (gregorian_leap y) m) as Hl. rewrite <- Hmo in Hs. pose proof (year_bound y m d h i s Hm ltac:(lia) Ht Hs) as Hy.
  unfold gmt_date, time_moment. destruct t. cbn in *. split; [|done]. split; [done|]. split; [lia|]. split; [done|]. split; [done|]. split; [lia|]. split; [done|].
  intros Hp. split; [done|]. split; [|lia]. destruct (Z.eq_dec d 0) as [E|]; [by apply H0 in E|lia].
Qed.

Lemma months_in_order ts1 ts2 g1 g2 : gmt_date ts1 g1 -> gmt_date ts2 g2 -> ts1 <= ts2 -> ~ period_end ts1 ->
  month_index (tm_y g1) (tm_m g1) <= month_index (tm_y g2) (tm_m g2).
Proof.
  intros (M1 & _ & (H1 & I1 & S1) & T1 & _ & _ & P1) (M2 & D2 & (H2 & I2 & S2) & T2 & _) Hle Hp. destruct (P1 Hp) as [_ D1]. subst ts1 ts2. unfold time_moment, moment, epoch_day in Hle.
  set (k1 := month_index (tm_y g1) (tm_m g1)) in *. destruct (Z.le_gt_cases k1 (month_index (tm_y g2) (tm_m g2))) as [|Hgt]; [done|exfalso].
  pose proof (month_start_succ (month_index (tm_y g2) (tm_m g2))) as Es. rewrite month_len_index in Es by done.
  set (k2 := month_index (tm_y g2) (tm_m g2)) in *. pose proof (month_start_mono (k2 + 1) k1 ltac:(lia)). lia.
Qed.

(** What lies between two dates: whole months and the rest, [j] months of it turned to days. *)
Definition borrowing (g1 g2 : timelib_time) (inverted : bool) (rt : timelib_rel_time) (j : Z) : Prop := 0 <= j
  /\ rel_months rt = month_index (tm_y g2) (tm_m g2) - month_index (tm_y g1) (tm_m g1) - j
  /\ rel_secs rt = (tm_d g2 - tm_d g1) * 86400 + (tm_h g2 - tm_h g1) * 3600 + (tm_i g2 - tm_i g1) * 60 + (tm_s g2 - tm_s g1)
       + 86400 * borrowed inverted (if inverted then month_index (tm_y g1) (tm_m g1) else month_index (tm_y g2) (tm_m g2)) j.
Definition between (g1 g2 : timelib_time) (inverted : bool) (rt : timelib_rel_time) : Prop := exists j, borrowing g1 g2 inverted rt j.
(** No more months are borrowed than there are between two times. *)
Lemma whole_years g1 g2 inverted rt j : rel_normal rt -> time_moment g1 <= time_moment g2 -> borrowing g1 g2 inverted rt j ->
  (0 < j -> rt_d rt < month_len (last_borrowed inverted (if inverted then month_index (tm_y g1) (tm_m g1) else month_index (tm_y g2) (tm_m g2)) j)) ->
  month_index (tm_y g1) (tm_m g1) <= month_index (tm_y g2) (tm_m g2) -> 0 <= rt_y rt.
Proof.
  intros (Rm & Rd & Rh & Ri & Rs) Hle (Hj & Hm & Hs) Hlast Hk. unfold time_moment, moment, epoch_day in Hle. unfold rel_secs in Hs. unfold rel_months in Hm.
  set (k1 := month_index (tm_y g1) (tm_m g1)) in *. set (k2 := month_index (tm_y g2) (tm_m g2)) in *. clearbody k1 k2.
  enough (j <= k2 - k1) by lia. destruct (Z.le_gt_cases j (k2 - k1)) as [|Hgt]; [done|exfalso]. specialize (Hlast ltac:(lia)).
  unfold borrowed, last_borrowed in *. destruct inverted.
  - pose proof (month_start_succ (k1 + j - 1)) as Es. pose proof (month_start_mono k2 (k1 + j - 1) ltac:(lia)). replace (k1 + j - 1 + 1) with (k1 + j) in Es by lia. lia.
  - pose proof (month_start_succ (k2 - j)) as Es. pose proof (month_start_mono (k2 - j + 1) k1 ltac:(lia)). lia.
Qed.
Definition plain_interval (rt : timelib_rel_time) : Prop := have_weekday_relative rt = 0 /\ have_special_relative rt = 0 /\ first_last_day_of rt = 0.
Lemma timelib_diff_ok one two : fixed_zone one -> fixed_zone two -> tm_dst one = 0 -> tm_dst two = 0 -> Z.abs (sse one) <= 2 ^ 55 -> Z.abs (sse two) <= 2 ^ 55 ->
  let inverted := sse two <? sse one in let ts1 := if inverted then sse two else sse one in let ts2 := if inverted then sse one else sse two in
  exists rt g1 g2, timelib_diff one two = Some rt /\ gmt_date ts1 g1 /\ gmt_date ts2 g2 /\ rel_normal rt /\ plain_interval rt /\ (rt_d rt <= 31 /\ (~ period_end ts1 -> 0 <= rt_y rt /\ rt_d rt <= 30)) /\ invert rt = (if inverted then 1 else 0)
    /\ days rt = Z.quot (Z.abs (sse two - sse one)) 86400 /\ between g1 g2 inverted rt.
Proof.
  intros (Hz1 & _ & Ht1) (Hz2 & _ & Ht2) Hd1 Hd2 Hs1 Hs2 inverted ts1 ts2. unfold timelib_diff. fold inverted.
  set (p := if inverted then (two, one) else (one, two)). assert (exists a b, p = (a, b) /\ sse a = ts1 /\ sse b = ts2 /\ tm_dst a = 0 /\ tm_dst b = 0 /\ zone_type a <> 3) as (a & b & -> & Ea & Eb & Da & Db & Za).
  { unfold p, ts1, ts2. destruct inverted; eexists _, _; (split; [done|]); unfold TIMELIB_ZONETYPE_OFFSET, TIMELIB_ZONETYPE_ABBR in *; naive_solver lia. }
  assert (Ha : Z.abs ts1 <= 2 ^ 55 /\ Z.abs ts2 <= 2 ^ 55 /\ Z.abs (Z.quot (ts1 - ts2) 86400) = Z.quot (Z.abs (sse two - sse one)) 86400 /\ ts1 <= ts2).
  { unfold ts1, ts2, inverted. destruct (Z.ltb_spec (sse two) (sse one)); (split; [done|]; split; [done|]; split; [|lia]); clear; Z.to_euclidean_division_equations; lia. }
  destruct Ha as (Ha & Hb & Hdays & Hle). clearbody ts1 ts2. subst ts1 ts2. rewrite (proj2 (Z.eqb_neq _ _) Za), Da, Db. cbn [andb].
  assert (En : match tz_info a, tz_info b with Some tz1, Some tz2 => Some 0 | _, _ => Some 0 end = Some 0) by by repeat case_match.
  rewrite En. cbn [mbind option_bind]. destruct (to_gmt a Ha) as (g1 & -> & G1 & Y1). destruct (to_gmt b Hb) as (g2 & -> & G2 & Y2). cbn [mbind option_bind].
  pose proof (gmt_day _ _ G1) as D1. pose proof (gmt_day _ _ G2) as D2. pose proof G1 as (M1 & _ & (H1 & I1 & S1) & T1 & _ & E1 & _). pose proof G2 as (M2 & _ & (H2 & I2 & S2) & T2 & _ & E2 & _). rewrite E1, E2.
  assert (B1 : Z.abs (tm_y g2 - tm_y g1) <= 2 ^ 33) by (clear -Y1 Y2; lia). assert (B2 : Z.abs (tm_m g2 - tm_m g1) <= 11) by (clear -M1 M2; lia).
  assert (B3 : Z.abs (tm_d g2 - tm_d g1) <= 31) by (clear -D1 D2; lia). assert (B4 : Z.abs (tm_h g2 - tm_h g1) <= 23) by (clear -H1 H2; lia).
  assert (B5 : Z.abs (tm_i g2 - tm_i g1) <= 59) by (clear -I1 I2; lia). assert (B6 : Z.abs (tm_s g2 - tm_s g1) <= 59) by (clear -S1 S2; lia).
  assert (B7 : Z.abs (sse a + 86400) <= 2 ^ 57 /\ Z.abs (sse a - sse b) <= 2 ^ 57) by (clear -Ha Hb; lia). destruct B7 as [B7 B8].
  rewrite (sll_abs _ _ B1), (sll_abs _ _ B2), (sll_abs _ _ B3), (sll_abs _ _ B4), (sll_abs _ _ B5), (sll_abs _ _ B6), (sll_abs _ _ B7) by done. cbn [mbind option_bind].
  change ((0 =? 0) && (0 =? 1)) with false. cbn [mbind option_bind]. change (Z.quot 0 3600 * 3600) with 0. change (Z.quot (Z.rem 0 3600) 60 * 60) with 0.
  rewrite (sll_abs _ _ B8) by done. cbn [mbind option_bind]. rewrite !Z.sub_0_r, (sll_abs _ _ B8) by done. cbn [mbind option_bind]. rewrite !Z.sub_0_r, (sll_abs _ _ B8) by done. cbn [mbind option_bind].
  set (rt0 := set_rel_days _ _ _). assert (Hrt0 : rel_months rt0 = 12 * (tm_y g2 - tm_y g1) + (tm_m g2 - tm_m g1) /\ invert rt0 = (if inverted then 1 else 0) /\ relative_within (2 ^ 34) rt0
    /\ rel_secs rt0 = (tm_d g2 - tm_d g1) * 86400 + (tm_h g2 - tm_h g1) * 3600 + (tm_i g2 - tm_i g1) * 60 + (tm_s g2 - tm_s g1) /\ days rt0 = Z.quot (Z.abs (sse two - sse one)) 86400
    /\ plain_interval rt0 /\ (rt_d rt0 = tm_d g2 - tm_d g1 /\ rt_h rt0 = tm_h g2 - tm_h g1 /\ rt_i rt0 = tm_i g2 - tm_i g1 /\ rt_s rt0 = tm_s g2 - tm_s g1)).
  { unfold rt0, relative_within, plain_interval, rel_months, rel_secs. cbn. rewrite <- Hdays. clear -B1 B2 B3 B4 B5 B6. hide_abs. split_and!; lia || done. }
  destruct Hrt0 as (R1 & R2 & R3 & R4 & R5 & R6 & R7 & R8 & R9 & R10).
  assert (R11 : rt_h rt0 < 24 /\ rt_i rt0 < 60 /\ rt_s rt0 < 60) by (rewrite R8, R9, R10; clear -B4 B5 B6; lia). destruct R11 as (R11 & R12 & R13). clearbody rt0.
  set (base := if inverted then g1 else g2). assert (Hbase : 1 <= tm_m base <= 12 /\ Z.abs (tm_y base) <= 2 ^ 40) by (unfold base; destruct inverted; (split; [done|]); clear -Y1 Y2; lia).
  destruct Hbase as [Mb Yb]. assert (R3' : relative_within (2 ^ 40) rt0) by (clear -R3; unfold relative_within in *; lia).
  destruct (timelib_do_rel_normalize_ok base rt0 Mb Yb R3') as (y & m & d & h & i & s & j & -> & N1 & N2 & N3 & N4 & N5 & N6). cbn [mbind option_bind]. change ((0 =? 1) && (0 =? 0)) with false. cbn [andb].
  destruct (with_rel_get y m d h i s rt0) as (W1 & W2 & W3 & W4). eexists _, g1, g2. split; [done|]. split; [done|]. split; [done|]. split; [done|].
  assert (Hinv : negb (invert rt0 =? 0) = inverted) by (rewrite R2; by destruct inverted). rewrite Hinv in N3.
  split; [unfold plain_interval in *; by destruct rt0|]. assert (Hbt : borrowing g1 g2 inverted (with_rel y m d h i s rt0) j).
  { split; [done|]. rewrite W1, W2, N2, N3, R1, R4. split; [unfold month_index; clear; lia|]. unfold base. by destruct inverted. }
  split; [|split; [by rewrite W3|split; [by rewrite W4|by exists j]]]. specialize (N4 R11 R12 R13).
  assert (Hd31 : d <= 31) by (clear -N4 R7 D1 D2; lia). split; [by destruct rt0|]. intros Hp. pose proof G1 as (_ & _ & _ & _ & _ & _ & [_ P1]%(fun f => f Hp)).
  split; [|destruct rt0; cbn in *; clear -N4 R7 D2 P1; lia].
  apply (whole_years g1 g2 inverted (with_rel y m d h i s rt0) j); [done|by rewrite T1, T2|done| |by eapply months_in_order].
  rewrite Hinv in N6. unfold base in N6. destruct inverted; destruct rt0; exact N6.
Qed.

(** ** [timelib_add] *)
Lemma have_relative_get t : same_date t (set_have_relative 0 t) /\ same_zone t (set_have_relative 0 t) /\ sse (set_have_relative 0 t) = sse t.
Proof. by destruct t. Qed.
(** The second that adding the fields of an interval to those of a date means. *)
Definition moment_after (t : timelib_time) (r : timelib_rel_time) : Z :=
  moment (tm_y t + bias r * rt_y r) (tm_m t + bias r * rt_m r) (tm_d t + bias r * rt_d r) (tm_h t + bias r * rt_h r) (tm_i t + bias r * rt_i r) (tm_s t + bias r * rt_s r).
#[local] Strategy expand [moment_after].
Lemma biased_ok r : relative_within (2 ^ 32) r -> exists r', biased (bias r) r = Some r' /\ relative_within (2 ^ 32) r' /\ plain_interval r'
  /\ (rt_y r' = bias r * rt_y r /\ rt_m r' = bias r * rt_m r /\ rt_d r' = bias r * rt_d r) /\ rt_h r' = bias r * rt_h r /\ rt_i r' = bias r * rt_i r /\ rt_s r' = bias r * rt_s r.
Proof.
  intros ((Ry & Rm & Rd) & Rh & Ri & Rs). unfold biased. assert (Hb : bias r = 1 \/ bias r = -1) by (unfold bias; case_match; auto).
  assert (Hs : forall n, Z.abs n <= 2 ^ 32 -> sll (n * bias r) = Some (bias r * n) /\ Z.abs (bias r * n) <= 2 ^ 32).
  { intros n Hn. destruct Hb as [-> | ->]; (split; [rewrite (sll_abs (2 ^ 32)) by lia; f_equal; lia|lia]). }
  destruct (Hs _ Ry) as [Ey By], (Hs _ Rm) as [Em Bm], (Hs _ Rd) as [Ed Bd], (Hs _ Rh) as [Eh Bh], (Hs _ Ri) as [Ei Bi], (Hs _ Rs) as [Es Bs].
  step Ey. step Em. step Ed. step Eh. step Ei. step Es. clear Ey Em Ed Eh Ei Es. eexists. split; [done|]. unfold relative_within, plain_interval. by cbn.
Qed.
Lemma timelib_add_ok t r : fixed_zone t -> tm_dst t = 0 -> in_calendar t -> within (2 ^ 32) t -> relative_within (2 ^ 32) r -> plain_interval r -> year_zero <= moment_after t r ->
  Z.abs (moment_after t r) <= 2 ^ 60 -> tm_s t + bias r * rt_s r <> TIMELIB_UNSET ->
  exists t', timelib_add t r = Some t' /\ sse t' = moment_after t r + zone_secs t /\ same_zone t t' /\ time_moment t' = moment_after t r
    /\ (~ period_end (moment_after t r) -> in_calendar t').
Proof.
  intros Hz Hdst [Hd Ht] Hw Hr (P1 & P2 & P3) Hy Hmb Hu. unfold timelib_add. rewrite P1, P2. change (negb (0 =? 0) || negb (0 =? 0)) with false. cbv iota. fold (bias r).
  destruct (biased_ok r Hr) as (r' & Er0 & Hr' & (Q1 & Q2 & Q3) & (Fy & Fm & Fd) & Fh & Fi & Fs). step Er0. set (t0 := set_uptodate _ _ _).
  assert (Ht0 : same_date t t0 /\ same_zone t t0 /\ relative t0 = r' /\ have_relative t0 = 1) by (unfold t0; by destruct t). clearbody t0. destruct Ht0 as (Sd & Sz & Er & Eh).
  assert (Em : time_moment (add_relative t0) = moment_after t r /\ tm_s (add_relative t0) = tm_s t + bias r * rt_s r).
  { unfold add_relative. rewrite Eh, Er. cbn [Z.eqb]. unfold time_moment. match goal with |- context [with_fields ?y ?m ?d ?h ?i ?s t0] => destruct (with_fields_get y m d h i s t0) as (-> & -> & -> & -> & -> & ->) end.
    unfold same_date in Sd. destruct Sd as ((-> & -> & ->) & -> & -> & ->). unfold moment_after. by rewrite Fy, Fm, Fd, Fh, Fi, Fs. }
  destruct Em as [Em Es]. destruct (same_zone_fixed _ _ Sz Hz) as [Hz0 Ez]. destruct (update_ts_fixed t0) as (t0' & _ & Hid & t1 & D1 & N1 & M1 & Hin & Hyb & Hres); [done| | |by rewrite Er|].
  { unfold plain_relative. rewrite Er, Q1, Q2, Q3. done. } { unfold same_date, within in *. by destruct Sd as ((-> & -> & ->) & -> & -> & ->). }
  assert (Hcal : in_calendar t0) by (apply (same_date_calendar t); done). rewrite Hid in M1, Hin by (apply Hcal || left; apply Hcal). rewrite Em in M1. rewrite Es in Hin. specialize (Hin Hu). clear Hid.
  assert (Hy1 : 0 <= tm_y t1) by (eapply year_nonneg; [apply Hin|apply Hin|]; fold (time_moment t1); by rewrite M1).
  destruct Hres as (t2 & E2 & S2 & Z2 & Esse); [apply leap_unsigned_nonneg; clear -Hy1 Hyb; lia|]. step E2. rewrite Hdst. change (0 =? 1) with false. cbn [andb]. rewrite (bind_step _ _ _ eq_refl). cbv beta.
  destruct (same_zone_fixed _ _ (same_zone_trans _ _ _ Sz Z2) Hz) as [Hz2 Ez2]. pose proof (zone_secs_bound t Hz) as Hzb.
  destruct (update_from_sse_fixed t2 Hz2) as (y & m & d & h & i & s & g & _ & E3 & S3 & Z3 & Esse3 & _ & _ & Hm3 & Hd3 & Hp3 & Ht3 & Hmom & _).
  { rewrite Esse, M1, Ez. clear -Hmb Hzb. unfold SLL_MIN, SLL_MAX. lia. }
  step E3. rewrite Esse, M1, Ez2, Ez in *. rewrite Z.add_simpl_r in Hmom, Hp3.
  destruct (have_relative_get g) as (G1 & G2 & G3). pose proof (same_date_trans _ _ _ S3 G1) as Sf. destruct (with_fields_get y m d h i s t2) as (Ey & Em' & Ed & Eh' & Ei & Es').
  assert (Hmo : time_moment (set_have_relative 0 g) = moment_after t r) by (rewrite (same_date_moment _ _ Sf); unfold time_moment; by rewrite Ey, Em', Ed, Eh', Ei, Es').
  eexists. split; [done|]. split; [by rewrite G3, Esse3|]. split; [by apply (same_zone_trans _ t0), (same_zone_trans _ t2), (same_zone_trans _ g)|]. split; [done|].
  intros Hne. apply (same_date_calendar _ _ Sf). unfold in_calendar. rewrite Ey, Em', Ed, Eh', Ei, Es'. split; [|done]. split; [done|]. destruct (Z.eq_dec d 0) as [E0|E0]; [by destruct (Hne (Hp3 E0))|lia].
Qed.

(** ** Adding the difference *)

Lemma up_to_date_gmt t g : up_to_date t -> zone_secs t = 0 -> ~ period_end (sse t) -> gmt_date (sse t) g -> same_date g t.
Proof.
  intros [Hc Hm] Hz Hp (_ & _ & Ht' & Hmo & _ & _ & Hd'). apply calendar_inj; [by split; auto|done|]. by rewrite Hm, Hz, Z.sub_0_r.
Qed.
Lemma add_between t g1 g2 rt : same_date g1 t -> rel_normal rt -> invert rt = 0 -> between g1 g2 false rt -> moment_after t rt = time_moment g2.
Proof.
  unfold same_date. intros ((Ey & Em & Ed) & Eh & Ei & Es) _ Hi (j & _ & Hm & Hs). unfold moment_after, bias. rewrite Hi. cbn [Z.eqb]. rewrite Ey, Em, Ed, Eh, Ei, Es.
  unfold time_moment, moment, epoch_day, rel_months, rel_secs, borrowed in *. replace (month_index (tm_y g1 + 1 * rt_y rt) (tm_m g1 + 1 * rt_m rt)) with (month_index (tm_y g2) (tm_m g2) - j) by (unfold month_index in *; lia).
  lia.
Qed.
Lemma subtract_between t g1 g2 rt : same_date g2 t -> rel_normal rt -> invert rt = 1 -> between g1 g2 true rt -> moment_after t rt = time_moment g1.
Proof.
  unfold same_date. intros ((Ey & Em & Ed) & Eh & Ei & Es) _ Hi (j & _ & Hm & Hs). unfold moment_after, bias. rewrite Hi. cbn [Z.eqb]. rewrite Ey, Em, Ed, Eh, Ei, Es.
  unfold time_moment, moment, epoch_day, rel_months, rel_secs, borrowed in *. replace (month_index (tm_y g2 + -1 * rt_y rt) (tm_m g2 + -1 * rt_m rt)) with (month_index (tm_y g1) (tm_m g1) + j) by (unfold month_index in *; lia).
  lia.
Qed.

Lemma borrowed_months inverted k j : 0 <= j -> 28 * j <= borrowed inverted k j.
Proof.
  intros Hj. unfold borrowed. destruct inverted; [pose proof (month_start_mono k (k + j) ltac:(lia))|pose proof (month_start_mono (k - j) k ltac:(lia))]; lia.
Qed.
Lemma between_within ts1 ts2 g1 g2 inverted rt : gmt_date ts1 g1 -> gmt_date ts2 g2 -> rel_normal rt -> rt_d rt <= 31 -> between g1 g2 inverted rt -> relative_within (2 ^ 32) rt.
Proof.
  intros G1 G2 (Rm & Rd & Rh & Ri & Rs) Hd (j & Hj & Hm & Hs). pose proof (gmt_day _ _ G1) as D1. pose proof (gmt_day _ _ G2) as D2.
  destruct G1 as (M1 & _ & (H1 & I1 & S1) & _ & Y1 & _), G2 as (M2 & _ & (H2 & I2 & S2) & _ & Y2 & _).
  pose proof (borrowed_months inverted (if inverted then month_index (tm_y g1) (tm_m g1) else month_index (tm_y g2) (tm_m g2)) j Hj) as Hb. unfold rel_secs in Hs.
  assert (Hjb : j <= 2 ^ 21) by (clear -Hs Hb Rd Rh Ri Rs Hd D1 D2 H1 H2 I1 I2 S1 S2; lia). clear Hs Hb. unfold rel_months, month_index in Hm. unfold relative_within. lia.
Qed.
Lemma timelib_add_diff one two : fixed_zone one -> fixed_zone two -> zone_secs one = 0 -> tm_dst one = 0 -> tm_dst two = 0 -> up_to_date one -> ~ period_end (sse one) ->
  year_zero <= sse two -> Z.abs (sse one) <= 2 ^ 55 -> Z.abs (sse two) <= 2 ^ 55 ->
  exists rt t, timelib_diff one two = Some rt /\ rel_normal rt /\ rt_d rt <= 31 /\ (~ period_end (sse two) -> 0 <= rt_y rt /\ rt_d rt <= 30) /\ invert rt = (if sse two <? sse one then 1 else 0) /\ days rt = Z.quot (Z.abs (sse two - sse one)) 86400
    /\ timelib_add one rt = Some t /\ sse t = sse two /\ (~ period_end (sse two) -> up_to_date t).
Proof.
  intros Hz1 Hz2 H0 Hd1 Hd2 Hup Hp Hy Hs1 Hs2. destruct (timelib_diff_ok one two Hz1 Hz2 Hd1 Hd2 Hs1 Hs2) as (rt & g1 & g2 & E & G1 & G2 & Hn & Hpl & [Hrd Hrp] & Hinv & Hdays & Hb).
  assert (Hmo : moment_after one rt = sse two).
  { destruct (Z.ltb_spec (sse two) (sse one)) as [Hlt|Hge].
    - rewrite (subtract_between one g1 g2 rt); [apply G1|by apply up_to_date_gmt|done..].
    - rewrite (add_between one g1 g2 rt); [apply G2|by apply up_to_date_gmt|done..]. }
  destruct (timelib_add_ok one rt) as (t & E2 & Ht & Sz & Hmt & Hcal); [done|done|apply Hup|by apply up_to_date_within|exact (between_within _ _ _ _ _ _ G1 G2 Hn Hrd Hb)|done|by rewrite Hmo| | |].
  { rewrite Hmo. clear -Hs2. lia. }
  { destruct Hup as [[_ (_ & _ & Hs)] _]. destruct Hn as (_ & _ & _ & _ & Hn). unfold bias, TIMELIB_UNSET. clear -Hs Hn. case_match; lia. }
  exists rt, t. split; [done|]. split; [done|]. split; [done|]. split; [intros Hp2; apply Hrp; by destruct (sse two <? sse one)|]. split; [done|]. split; [done|]. split; [done|]. rewrite Hmo in *. destruct (same_zone_fixed _ _ Sz Hz1) as [_ Ez].
  split; [by rewrite Ht, H0, Z.add_0_r|]. intros Hp2. split; [by apply Hcal|]. rewrite Ez, Hmt, Ht, H0. clear. lia.
Qed.
