(* ===== verification/TimeWeek.v ===== *)
(** * TimeWeek: days of the week, ISO weeks, and weekdays counted on

    dow.c, and the "weekdays" of tm2unixtime.c. *)
From S2P Require Import Prelude Calendar CalendarSpec TimeLib TimeSpec TimeEpoch TimeNorm.

(** ** Days *)
(** The value of the month in a common or a leap year. *)
Definition month_value (leap : bool) (m : Z) : Z := (before_month leap m - (if leap then 1 else 0)) mod 7.
Lemma month_value_ok (leap : bool) m : 1 <= m <= 12 -> elem (if leap then m_table_leap else m_table_common) m = Some (month_value leap m).
Proof. intros Hm. by_month Hm; by destruct leap. Qed.
Lemma positive_mod_ok x n : 0 < n -> positive_mod x n = x mod n.
Proof.
  intros Hn. unfold positive_mod. pose proof (Z.quot_rem' x n) as E. pose proof (Z.rem_bound_abs x n ltac:(lia)) as Hb.
  destruct (Z.ltb_spec (Z.rem x n) 0); [apply (Z.mod_unique_pos _ _ (Z.quot x n - 1))|apply (Z.mod_unique_pos _ _ (Z.quot x n))]; lia.
Qed.
Lemma timelib_day_of_week_ok y m d : 0 <= y <= 2 ^ 60 -> 1 <= m <= 12 -> Z.abs d <= 2 ^ 60 -> timelib_day_of_week y m d = Some (day_of_week (epoch_day y m d)).
Proof.
  intros Hy Hm Hd. unfold timelib_day_of_week, timelib_day_of_week_ex. rewrite is_leap_spec, month_value_ok by done. cbn [mbind option_bind].
  assert (Hv : 0 <= month_value (gregorian_leap y) m < 7) by (apply Z.mod_pos_bound; lia).
  unfold century_value. rewrite !positive_mod_ok by lia. rewrite (Z.quot_div_nonneg y) by lia.
  set (n := _ + d). assert (Hn : Z.abs n <= 2 ^ 61) by (unfold n; clear -Hv Hd Hy; Z.to_euclidean_division_equations; lia). rewrite (sll_ok n) by (unfold SLL_MIN, SLL_MAX; lia). cbn [mbind option_bind andb].
  f_equal. unfold day_of_week, epoch_day. rewrite month_start_index by done.
  assert (E : exists k, year_start y + before_month (gregorian_leap y) m = n - d + 2 + 7 * k).
  { unfold n, month_value, year_start. clear n Hn Hv. generalize (before_month (gregorian_leap y) m). intros x. set (l := if gregorian_leap y then 1 else 0).
    assert (Hl : (y + 3) / 4 - (y + 99) / 100 + (y + 399) / 400 = y / 4 - y / 100 + y / 400 + 1 - l).
    { unfold l, gregorian_leap. destruct (Z.eqb_spec (y mod 4) 0), (Z.eqb_spec (y mod 100) 0), (Z.eqb_spec (y mod 400) 0); cbn; Z.to_euclidean_division_equations; lia. }
    clearbody l. exists (52 * y + (x - l) / 7 + 18 * (y / 100) - y / 400 - 1). rewrite Z.quot_div_nonneg by (Z.to_euclidean_division_equations; lia).
    pose proof (Z.div_mod (x - l) 7 ltac:(lia)). clear Hd. Z.to_euclidean_division_equations. lia. }
  destruct E as [k E]. change (year_start 1970) with 719528. replace (year_start y - 719528 + before_month (gregorian_leap y) m + d - 1 + 4) with (n + (k - 102789) * 7) by lia.
  by rewrite Z.mod_add, positive_mod_ok by lia.
Qed.

(** Monday is 1 and Sunday 7. *)
Definition iso_day (n : Z) : Z := (n + 3) mod 7 + 1.
Lemma iso_of_dow n : iso_day n = if day_of_week n =? 0 then 7 else day_of_week n.
Proof. unfold iso_day, day_of_week. destruct (Z.eqb_spec ((n + 4) mod 7) 0); Z.to_euclidean_division_equations; lia. Qed.
Lemma timelib_iso_day_of_week_ok y m d : 0 <= y <= 2 ^ 60 -> 1 <= m <= 12 -> Z.abs d <= 2 ^ 60 -> timelib_iso_day_of_week y m d = Some (iso_day (epoch_day y m d)).
Proof.
  intros Hy Hm Hd. rewrite iso_of_dow. pose proof (timelib_day_of_week_ok y m d Hy Hm Hd) as E. unfold timelib_day_of_week, timelib_iso_day_of_week, timelib_day_of_week_ex in *.
  destruct (elem _ m) as [a|]; [|done]. cbn [mbind option_bind] in *. destruct (sll _) as [n|]; [|done]. cbn [mbind option_bind andb] in *. injection E as ->. done.
Qed.

(** ** ISO weeks *)

(** The year that the Thursday of the week lies in, and the number of that Thursday in it. *)
Definition thursday (n : Z) : Z := n - iso_day n + 4.
Definition jan1 (y : Z) : Z := epoch_day y 1 1.
#[global] Strategy expand [jan1 thursday].
Definition iso_week_of (n : Z) (w y : Z) : Prop := jan1 y <= thursday n < jan1 (y + 1) /\ w = (thursday n - jan1 y) / 7 + 1.
Lemma jan1_succ y : jan1 (y + 1) = jan1 y + year_length y.
Proof. unfold jan1, epoch_day. rewrite !month_start_index by lia. rewrite year_start_succ. change (before_month _ 1) with 0. change (before_month _ 1) with 0. lia. Qed.
Lemma timelib_day_of_year_ok y m d : 1 <= m <= 12 -> Z.abs d <= 2 ^ 60 -> timelib_day_of_year y m d = Some (epoch_day y m d - jan1 y).
Proof.
  intros Hm Hd. unfold timelib_day_of_year. rewrite is_leap_spec. assert (E : elem (if gregorian_leap y then d_table_leap else d_table_common) m = Some (before_month (gregorian_leap y) m)) by (by_month Hm; by destruct (gregorian_leap y)).
  rewrite E. cbn [mbind option_bind]. pose proof (before_month_range (gregorian_leap y) m Hm). in_sll. rewrite sll_ok by (unfold SLL_MIN, SLL_MAX; lia). f_equal. unfold jan1, epoch_day. rewrite !month_start_index by lia.
  change (before_month _ 1) with 0. lia.
Qed.
(** Arithmetic of the weeks: [o] days after January 1, a day [J], on a day [W]; [l] and [p] for a leap year now and before. *)
Lemma week_53 J W o p : 1 <= J <= 7 -> 1 <= W <= 7 -> 0 <= o -> 0 <= p <= 1 -> (J - 1 + o - (W - 1)) mod 7 = 0 -> o + 1 <= 8 - J -> 4 < J ->
  o - W + 4 < 0 /\ 0 <= o - W + 4 + 365 + p /\ (if (J =? 5) || ((J =? 6) && (p =? 1)) then 53 else 52) = (o - W + 4 + 365 + p) / 7 + 1.
Proof.
  intros HJ HW Ho Hp Hm H1 H2. assert (E : W = J + o) by (Z.to_euclidean_division_equations; lia). subst W.
  destruct (Z.eqb_spec J 5), (Z.eqb_spec J 6), (Z.eqb_spec p 1); cbn [andb orb]; Z.to_euclidean_division_equations; lia.
Qed.
Lemma week_in_year J W o e x : 1 <= J <= 7 -> 1 <= W <= 7 -> 0 <= o -> 0 <= e <= 1 -> (J - 1 + o - (W - 1)) mod 7 = 0 -> 0 <= o - W + 4 ->
  x = o + 1 + e + (7 - W) + (J - 1) -> (if 4 <? J then Z.quot x 7 - 1 else Z.quot x 7) = (o - W + 4) / 7 + 1.
Proof.
  intros HJ HW Ho He Hm Ht ->. destruct (Z.ltb_spec 4 J); Z.to_euclidean_division_equations; lia.
Qed.
Lemma iso_day_bounds n : 1 <= iso_day n <= 7.
Proof. unfold iso_day. Z.to_euclidean_division_equations. lia. Qed.
Lemma iso_day_diff a b : (iso_day a - 1 + (b - a) - (iso_day b - 1)) mod 7 = 0.
Proof. unfold iso_day. Z.to_euclidean_division_equations. lia. Qed.

Lemma timelib_isoweek_from_date_ok y m d : 0 <= y <= 2 ^ 60 -> date_ok y m d -> exists w iy, timelib_isoweek_from_date y m d = Some (w, iy) /\ iso_week_of (epoch_day y m d) w iy.
Proof.
  intros Hy [Hm Hd]. pose proof (month_length_bounds (gregorian_leap y) m) as Hl. assert (Hd' : Z.abs d <= 2 ^ 60) by lia.
  assert (Hdoy : 0 <= epoch_day y m d - jan1 y < year_length y /\ (2 < m -> 59 <= epoch_day y m d - jan1 y) /\ (m <= 2 -> epoch_day y m d - jan1 y < 60)).
  { unfold epoch_day, jan1, epoch_day, year_length. rewrite !month_start_index by lia. change (before_month _ 1) with 0. clear Hl Hd' Hy. revert d Hd. by_month Hm; intros d Hd; destruct (gregorian_leap y); tables; cbn in *; lia. }
  unfold timelib_isoweek_from_date. rewrite !is_leap_spec. rewrite timelib_day_of_year_ok by done. pose proof (year_length_bounds y) as Hyl. pose proof (year_length_leap (y - 1)) as Hyp. pose proof (jan1_succ (y - 1)) as Hj.
  rewrite Z.sub_add in Hj. pose proof (jan1_succ y) as Hj'. rewrite (sll_ok (y - 1)), (sll_ok (y + 1)) by (unfold SLL_MIN, SLL_MAX; lia). cbn [mbind option_bind].
  rewrite !timelib_day_of_week_ok by (done || lia). fold (jan1 y). set (n := epoch_day y m d) in *. rewrite (sll_ok (n - jan1 y + 1)) by (unfold SLL_MIN, SLL_MAX; lia). cbn [mbind option_bind].
  rewrite to_int_small by (unfold INT_MIN, INT_MAX; lia). rewrite <- !iso_of_dow, is_leap_spec.
  pose proof (iso_day_bounds n) as HW. pose proof (iso_day_bounds (jan1 y)) as HJ. pose proof (iso_day_diff (jan1 y) n) as Hmod. assert (Hlen : year_length y = 365 + (if gregorian_leap y then 1 else 0)) by (unfold year_length; by case_match).
  set (l := if gregorian_leap y then 1 else 0) in *. assert (Hl01 : 0 <= l <= 1) by (unfold l; case_match; lia). set (e := if (l =? 1) && (2 <? m) then 1 else 0).
  assert (Ee : (if (l =? 1) && (2 <? m) then n - jan1 y + 1 + 1 else n - jan1 y + 1) = n - jan1 y + 1 + e) by (unfold e; case_match; lia). rewrite Ee. clear Ee.
  assert (He : 0 <= e <= 1 /\ (e = 0 -> l = 0 \/ m <= 2) /\ (e = 1 -> l = 1 /\ 2 < m)) by (unfold e; destruct (Z.eqb_spec l 1), (Z.ltb_spec 2 m); cbn; lia). clearbody e.
  rewrite int_value_ok by (unfold INT_MIN, INT_MAX; lia). cbn [mbind option_bind]. unfold iso_week_of, thursday. set (W := iso_day n) in *. set (J := iso_day (jan1 y)) in *.
  set (o := n - jan1 y) in *. assert (En : n = o + jan1 y) by (unfold o; lia). rewrite En. clearbody W J o l. clear En Hd Hd' Hl.
  match goal with |- context [int_value (?a - ?b)] => replace (a - b) with (365 + l - (o + 1 + e - l)) by (destruct (Z.eqb_spec l 1); lia) end.
  destruct ((o + 1 + e <=? 8 - J) && (4 <? J)) eqn:Hc.
  - apply andb_true_iff in Hc as [H1 H2]. apply Z.leb_le in H1. apply Z.ltb_lt in H2.
    destruct (week_53 J W o (leap_day (y - 1))) as (W1 & W2 & W3); [done|done|lia|unfold leap_day; case_match; lia|done|lia|done|].
    eexists _, _. split; [done|]. rewrite Z.sub_add. split; [lia|]. replace (o + jan1 y - W + 4 - jan1 (y - 1)) with (o - W + 4 + 365 + leap_day (y - 1)) by lia. rewrite <- W3. unfold leap_day. by destruct (gregorian_leap (y - 1)).
  - assert (Hge : 0 <= o - W + 4). { apply andb_false_iff in Hc as [H1|H1]; [apply Z.leb_gt in H1|apply Z.ltb_ge in H1]; Z.to_euclidean_division_equations; lia. }
    rewrite (int_value_ok (365 + l - (o + 1 + e - l))) by (unfold INT_MIN, INT_MAX; lia). cbn [mbind option_bind]. destruct (Z.ltb_spec (365 + l - (o + 1 + e - l)) (4 - W)) as [H1|H1].
    + eexists _, _. split; [done|]. pose proof (jan1_succ (y + 1)) as Hj2. pose proof (year_length_bounds (y + 1)). split; [lia|]. rewrite Z.div_small by lia. done.
    + rewrite int_value_ok by (unfold INT_MIN, INT_MAX; lia). cbn [mbind option_bind]. eexists _, _. split; [done|]. split; [lia|].
      replace (o + jan1 y - W + 4 - jan1 y) with (o - W + 4) by lia. apply (week_in_year J W o e); try done; lia.
Qed.
(** The day of a week and a weekday, counted from January 1. *)
Lemma timelib_daynr_from_weeknr_ok y w d : 0 <= y <= 2 ^ 60 -> Z.abs w <= 2 ^ 50 -> Z.abs d <= 2 ^ 50 ->
  exists n, timelib_daynr_from_weeknr y w d = Some n /\ (1 <= d <= 7 -> iso_day (jan1 y + n) = d /\ thursday (jan1 y + n) = thursday (jan1 y + 3) + 7 * (w - 1)).
Proof.
  intros Hy Hw Hd. unfold timelib_daynr_from_weeknr. rewrite timelib_day_of_week_ok by (done || lia). cbn [mbind option_bind]. fold (jan1 y). set (x := day_of_week (jan1 y)).
  assert (Hx : 0 <= x < 7) by (unfold x, day_of_week; apply Z.mod_pos_bound; lia). set (c := if 4 <? x then x - 7 else x). assert (Hc : -7 <= c < 7) by (unfold c; case_match; lia).
  rewrite (sll_ok (w - 1)) by (unfold SLL_MIN, SLL_MAX; lia). cbn [mbind option_bind]. in_sll. in_sll. rewrite sll_ok by (unfold SLL_MIN, SLL_MAX; lia). eexists. split; [done|]. intros Hd7.
  assert (E : iso_day (jan1 y + (0 - c + (w - 1) * 7 + d)) = d).
  { unfold iso_day, c, x, day_of_week. destruct (Z.ltb_spec 4 ((jan1 y + 4) mod 7)); Z.to_euclidean_division_equations; lia. }
  split; [done|]. unfold thursday. rewrite E. unfold iso_day, c, x, day_of_week. destruct (Z.ltb_spec 4 ((jan1 y + 4) mod 7)); Z.to_euclidean_division_equations; lia.
Qed.
Lemma thursday_week a : thursday a = 7 * ((a + 3) / 7).
Proof. unfold thursday, iso_day. Z.to_euclidean_division_equations. lia. Qed.
Lemma iso_week_daynr n w y : 0 <= y <= 2 ^ 60 -> iso_week_of n w y -> timelib_daynr_from_weeknr y w (iso_day n) = Some (n - jan1 y).
Proof.
  intros Hy [Ht ->]. pose proof (iso_day_bounds n) as Hd. pose proof (jan1_succ y) as Hj. pose proof (year_length_bounds y).
  destruct (timelib_daynr_from_weeknr_ok y ((thursday n - jan1 y) / 7 + 1) (iso_day n)) as (k & E & Hk); [done|Z.to_euclidean_division_equations; lia|lia|].
  rewrite E. f_equal. destruct (Hk Hd) as [Hk1 Hk2]. assert (Hth : thursday (jan1 y + 3) <= jan1 y + 6 /\ jan1 y <= thursday (jan1 y + 3)) by (rewrite thursday_week; Z.to_euclidean_division_equations; lia).
  assert (thursday (jan1 y + k) = thursday n). { rewrite Hk2. rewrite thursday_week in *. rewrite (thursday_week n) in *. Z.to_euclidean_division_equations; lia. }
  unfold thursday in *. lia.
Qed.

(** ** Weekdays counted on *)

(** The next and the previous day from Monday to Friday. *)
Definition next_weekday (n : Z) : Z := if iso_day n =? 5 then n + 3 else if iso_day n =? 6 then n + 2 else n + 1.
Definition previous_weekday (n : Z) : Z := if iso_day n =? 1 then n - 3 else if iso_day n =? 7 then n - 2 else n - 1.
(** What [do_adjust_special_weekday] adds for [count] weekdays from a day of the week. *)
Definition weekday_shift (count dow : Z) : Z :=
  Z.quot count 5 * 7 +
  (if 0 <? count then
     if Z.rem count 5 =? 0 then if dow =? 0 then -2 else if dow =? 6 then -1 else 0
     else if dow =? 6 then 1 else if 5 <? dow + Z.rem count 5 then 2 else 0
   else
     if Z.rem count 5 =? 0 then if dow =? 6 then 2 else if dow =? 0 then 1 else 0
     else if dow =? 0 then -1 else if dow + Z.rem count 5 <? 1 then -2 else 0) + Z.rem count 5.
Lemma dow_cases n : let w := day_of_week n in w = 0 \/ w = 1 \/ w = 2 \/ w = 3 \/ w = 4 \/ w = 5 \/ w = 6.
Proof. unfold day_of_week. Z.to_euclidean_division_equations. lia. Qed.
Lemma dow_bounds n : 0 <= day_of_week n <= 6.
Proof. unfold day_of_week. Z.to_euclidean_division_equations. lia. Qed.
Lemma dow_add n k : day_of_week (n + k) = (day_of_week n + k) mod 7.
Proof. unfold day_of_week. rewrite Z.add_mod_idemp_l by lia. f_equal. lia. Qed.
Lemma next_weekday_dow n : next_weekday n = n + (if day_of_week n =? 5 then 3 else if day_of_week n =? 6 then 2 else 1).
Proof. unfold next_weekday. rewrite iso_of_dow. destruct (dow_cases n) as [->|[->|[->|[->|[->|[->| ->]]]]]]; cbn; lia. Qed.
Lemma previous_weekday_dow n : previous_weekday n = n - (if day_of_week n =? 1 then 3 else if day_of_week n =? 0 then 2 else 1).
Proof. unfold previous_weekday. rewrite iso_of_dow. destruct (dow_cases n) as [->|[->|[->|[->|[->|[->| ->]]]]]]; cbn; lia. Qed.
(** Closed comparisons are decided. *)
Ltac decide_closed := repeat match goal with
  | |- context [?a =? ?b] => let v := eval vm_compute in (a =? b) in match v with true => change (a =? b) with true | false => change (a =? b) with false end; cbv iota
  | |- context [?a <? ?b] => let v := eval vm_compute in (a <? b) in match v with true => change (a <? b) with true | false => change (a <? b) with false end; cbv iota
  end.
Lemma shift_next count dow : 0 <= dow <= 6 -> 0 < count -> let n := weekday_shift count dow in
  weekday_shift (count + 1) dow = n + (if (dow + n) mod 7 =? 5 then 3 else if (dow + n) mod 7 =? 6 then 2 else 1).
Proof.
  intros Hd Hc. unfold weekday_shift. rewrite !(proj2 (Z.ltb_lt 0 _)) by lia. set (q := Z.quot count 5). set (r := Z.rem count 5).
  assert (Hr : (r = 0 \/ r = 1 \/ r = 2 \/ r = 3 \/ r = 4) /\ count = 5 * q + r) by (unfold q, r; Z.to_euclidean_division_equations; lia). destruct Hr as [Hr Hq].
  assert (Hs : Z.quot (count + 1) 5 = (if r =? 4 then q + 1 else q) /\ Z.rem (count + 1) 5 = (if r =? 4 then 0 else r + 1)) by (destruct (Z.eqb_spec r 4); Z.to_euclidean_division_equations; lia).
  destruct Hs as [-> ->]. clearbody q r. clear Hq. assert (Hdow : dow = 0 \/ dow = 1 \/ dow = 2 \/ dow = 3 \/ dow = 4 \/ dow = 5 \/ dow = 6) by lia.
  destruct Hr as [->|[->|[->|[->| ->]]]], Hdow as [->|[->|[->|[->|[->|[->| ->]]]]]]; decide_closed;
    match goal with |- context [Z.eqb (Z.modulo ?a 7) 5] => destruct (Z.eqb_spec (a mod 7) 5), (Z.eqb_spec (a mod 7) 6); Z.to_euclidean_division_equations; lia end.
Qed.
Lemma shift_previous count dow : 0 <= dow <= 6 -> count < 0 -> let n := weekday_shift count dow in
  weekday_shift (count - 1) dow = n - (if (dow + n) mod 7 =? 1 then 3 else if (dow + n) mod 7 =? 0 then 2 else 1).
Proof.
  intros Hd Hc. unfold weekday_shift. rewrite !(proj2 (Z.ltb_ge 0 _)) by lia. set (q := Z.quot count 5). set (r := Z.rem count 5).
  assert (Hr : (r = 0 \/ r = -1 \/ r = -2 \/ r = -3 \/ r = -4) /\ count = 5 * q + r) by (unfold q, r; Z.to_euclidean_division_equations; lia). destruct Hr as [Hr Hq].
  assert (Hs : Z.quot (count - 1) 5 = (if r =? -4 then q - 1 else q) /\ Z.rem (count - 1) 5 = (if r =? -4 then 0 else r - 1)) by (destruct (Z.eqb_spec r (-4)); Z.to_euclidean_division_equations; lia).
  destruct Hs as [-> ->]. clearbody q r. clear Hq. assert (Hdow : dow = 0 \/ dow = 1 \/ dow = 2 \/ dow = 3 \/ dow = 4 \/ dow = 5 \/ dow = 6) by lia.
  destruct Hr as [->|[->|[->|[->| ->]]]], Hdow as [->|[->|[->|[->|[->|[->| ->]]]]]]; decide_closed;
    match goal with |- context [Z.eqb (Z.modulo ?a 7) 1] => destruct (Z.eqb_spec (a mod 7) 1), (Z.eqb_spec (a mod 7) 0); Z.to_euclidean_division_equations; lia end.
Qed.
Lemma weekday_shift_next k n : n + weekday_shift (Z.of_nat (S k)) (day_of_week n) = Nat.iter (S k) next_weekday n.
Proof.
  induction k as [|k IH].
  - change (Nat.iter 1 next_weekday n) with (next_weekday n). rewrite next_weekday_dow. f_equal. destruct (dow_cases n) as [->|[->|[->|[->|[->|[->| ->]]]]]]; reflexivity.
  - rewrite Nat.iter_succ, <- IH, next_weekday_dow, dow_add. pose proof (dow_bounds n). replace (Z.of_nat (S (S k))) with (Z.of_nat (S k) + 1) by lia. rewrite shift_next by lia. by rewrite Z.add_assoc.
Qed.
Lemma weekday_shift_previous k n : n + weekday_shift (- Z.of_nat (S k)) (day_of_week n) = Nat.iter (S k) previous_weekday n.
Proof.
  induction k as [|k IH].
  - change (Nat.iter 1 previous_weekday n) with (previous_weekday n). rewrite previous_weekday_dow. unfold Z.sub. f_equal. destruct (dow_cases n) as [->|[->|[->|[->|[->|[->| ->]]]]]]; reflexivity.
  - rewrite Nat.iter_succ, <- IH, previous_weekday_dow, dow_add. pose proof (dow_bounds n). replace (- Z.of_nat (S (S k))) with (- Z.of_nat (S k) - 1) by lia. rewrite shift_previous by lia. by rewrite Z.add_sub_assoc.
Qed.
Lemma weekday_shift_bound count dow : Z.abs (weekday_shift count dow) <= 2 * Z.abs count + 10.
Proof.
  assert (H : Z.abs (Z.quot count 5 * 7 + Z.rem count 5) <= 2 * Z.abs count + 5) by (Z.to_euclidean_division_equations; lia). revert H.
  unfold weekday_shift. set (a := if 0 <? count then _ else _). assert (-2 <= a <= 2) by (unfold a; repeat case_match; lia). clearbody a. lia.
Qed.
(** The day that [count] weekdays lead to. *)
Definition weekdays_on (count n : Z) : Z :=
  if 0 <? count then Nat.iter (Z.to_nat count) next_weekday n else if count <? 0 then Nat.iter (Z.to_nat (- count)) previous_weekday n
  else if iso_day n =? 6 then n + 2 else if iso_day n =? 7 then n + 1 else n.
Lemma weekdays_on_shift count n : n + weekday_shift count (day_of_week n) = weekdays_on count n.
Proof.
  unfold weekdays_on. destruct (Z.ltb_spec 0 count) as [Hp|Hn].
  - replace (Z.to_nat count) with (S (Z.to_nat (count - 1))) by lia. rewrite <- weekday_shift_next. f_equal. f_equal. lia.
  - destruct (Z.ltb_spec count 0) as [Hlt|Hge].
    + replace (Z.to_nat (- count)) with (S (Z.to_nat (- count - 1))) by lia. rewrite <- weekday_shift_previous. f_equal. f_equal. lia.
    + replace count with 0 by lia. rewrite iso_of_dow. destruct (dow_cases n) as [->|[->|[->|[->|[->|[->| ->]]]]]];
        match goal with |- context [weekday_shift 0 ?w] => let v := eval vm_compute in (weekday_shift 0 w) in change (weekday_shift 0 w) with v end; decide_closed; lia.
Qed.
Lemma do_adjust_special_weekday_ok t : 0 <= tm_y t <= 2 ^ 60 -> 1 <= tm_m t <= 12 -> Z.abs (tm_d t) <= 2 ^ 50 -> Z.abs (amount (special (relative t))) <= 2 ^ 50 ->
  exists d, do_adjust_special_weekday t = Some (set_date (tm_y t) (tm_m t) d t)
    /\ epoch_day (tm_y t) (tm_m t) d = weekdays_on (amount (special (relative t))) (epoch_day (tm_y t) (tm_m t) (tm_d t)).
Proof.
  intros Hy Hm Hd Ha. unfold do_adjust_special_weekday. rewrite timelib_day_of_week_ok by (done || lia). cbn [mbind option_bind]. set (count := amount _) in *. set (dow := day_of_week _).
  exists (tm_d t + weekday_shift count dow). split.
  - pose proof (weekday_shift_bound count dow) as Hb. unfold weekday_shift in *. set (a := if 0 <? count then _ else _) in *. assert (Ha2 : -2 <= a <= 2) by (unfold a; repeat case_match; lia). clearbody a.
    assert (Hq : Z.abs (Z.quot count 5 * 7) <= 2 ^ 51 /\ Z.abs (Z.rem count 5) <= 4) by (clear -Ha; Z.to_euclidean_division_equations; lia).
    in_sll. in_sll. rewrite sll_ok by (unfold SLL_MIN, SLL_MAX; lia). cbn [mbind option_bind]. do 2 f_equal. lia.
  - rewrite <- weekdays_on_shift. fold dow. unfold epoch_day. lia.
Qed.
Lemma jan1_start y : jan1 y = year_start y - year_start 1970.
Proof. unfold jan1, epoch_day. rewrite month_start_index by lia. change (before_month _ 1) with 0. lia. Qed.
Lemma iso_year_close y m d w iy : date_ok y m d -> iso_week_of (epoch_day y m d) w iy -> y - 2 <= iy <= y + 2.
Proof.
  intros [Hm Hd] [Ht _]. pose proof (month_length_bounds (gregorian_leap y) m). pose proof (before_month_range (gregorian_leap y) m Hm). pose proof (iso_day_bounds (epoch_day y m d)).
  assert (E : epoch_day y m d = jan1 y + before_month (gregorian_leap y) m + d - 1) by (rewrite jan1_start; unfold epoch_day; rewrite month_start_index by done; lia).
  unfold thursday in Ht. rewrite !jan1_start in *. destruct (Z.le_ge_cases y iy) as [Hc|Hc]; [pose proof (year_start_mono y iy Hc)|pose proof (year_start_mono (iy + 1) (y + 1)) as Hx; pose proof (year_start_succ y); pose proof (year_length_bounds y)]; lia.
Qed.
