(* ===== verification/TimeZone.v ===== *)
(** * TimeZone: the offset in force, and local times

    [fetch_timezone_offset] over sorted transitions; local times of a zone away
    from its transitions. *)
From S2P Require Import Prelude Calendar CalendarSpec TimeLib TimeSpec TimeEpoch TimeNorm TimeStamp TimeRound.

(** ** The transition in force *)

(** What reading the database guarantees. *)
Record zone_ok (tz : timelib_tzinfo) (tr : list Z) : Prop := {
  zone_trans : trans tz = Some tr;
  zone_count : timecnt tz = Z.of_nat (length tr) /\ length (trans_idx tz) = length tr;
  zone_some : 0 < timecnt tz;
  zone_types : Forall (fun i => 0 <= i < Z.of_nat (length (type tz))) (trans_idx tz);
  zone_sorted : forall i j x y, (i <= j)%nat -> tr !! i = Some x -> tr !! j = Some y -> x <= y
}.
Lemma elem_lookup {A} (l : list A) i x : elem l i = Some x <-> 0 <= i /\ l !! Z.to_nat i = Some x.
Proof.
  unfold elem. destruct (Z.leb_spec 0 i) as [Hp|Hn]; cbn [andb]; [|split; [done|lia]].
  destruct (Z.ltb_spec i (Z.of_nat (length l))) as [Hlt|Hge]; [split; [by split|by intros [_ ?]]|].
  split; [done|]. intros [_ E]. apply lookup_lt_Some in E. lia.
Qed.
Lemma elem_some {A} (l : list A) i : 0 <= i < Z.of_nat (length l) -> exists x, elem l i = Some x.
Proof.
  intros Hi. destruct (lookup_lt_is_Some_2 l (Z.to_nat i)) as [x E]; [lia|]. exists x. apply elem_lookup. split; [lia|done].
Qed.
Lemma transition_type_some tz tr i : zone_ok tz tr -> 0 <= i < timecnt tz -> exists to, transition_type tz i = Some to.
Proof.
  intros [E [Ec El] _ Ht _] Hi. unfold transition_type. destruct (elem_some (trans_idx tz) i) as [idx Ei]; [lia|]. rewrite Ei. cbn [mbind option_bind].
  apply elem_lookup in Ei as [_ Ei]. apply elem_some. by apply (Forall_lookup_1 _ _ _ _ Ht Ei).
Qed.

(** The last transition that is not later. *)
Definition in_force (tz : timelib_tzinfo) (tr : list Z) (ts : Z) (to : ttinfo) (t : Z) : Prop :=
  exists i, transition_type tz i = Some to /\ elem tr i = Some t /\ t <= ts /\ (forall j x, i < j -> elem tr j = Some x -> ts < x).
Lemma find_transition_ok tz tr ts fuel : zone_ok tz tr -> forall i, timecnt tz - i <= Z.of_nat fuel -> 0 < i <= timecnt tz ->
  (forall j x, j < i -> elem tr j = Some x -> x <= ts) -> exists to t, find_transition fuel tz tr ts i = Some (to, t) /\ in_force tz tr ts to t.
Proof.
  intros Hz. pose proof Hz as [E [Ec El] Hpos Ht Hs]. induction fuel as [|fuel IH]; intros i Hf Hi Hbelow; cbn [find_transition]; destruct (Z.ltb_spec i (timecnt tz)) as [Hlt|Hge]; try lia.
  2: { destruct (elem_some tr i) as [x Ex]; [lia|]. rewrite Ex. cbn [mbind option_bind]. destruct (Z.ltb_spec ts x) as [Hx|Hx].
    - destruct (elem_some tr (i - 1)) as [t Et]; [lia|]. destruct (transition_type_some tz tr (i - 1) Hz) as [to Eto]; [lia|]. rewrite Et, Eto. cbn [mbind option_bind].
      exists to, t. split; [done|]. exists (i - 1). split; [done|]. split; [done|]. split; [apply (Hbelow (i - 1)); [lia|done]|]. intros j y Hj Ey.
      apply elem_lookup in Ex as [_ Ex]. apply elem_lookup in Ey as [Hj0 Ey]. pose proof (Hs (Z.to_nat i) (Z.to_nat j) x y ltac:(lia) Ex Ey). lia.
    - apply IH; [lia|lia|]. intros j y Hj Ey. destruct (Z.eq_dec j i) as [->|]; [simplify_eq; lia|apply (Hbelow j); [lia|done]]. }
  all: destruct (elem_some tr (timecnt tz - 1)) as [t Et]; [lia|]; destruct (transition_type_some tz tr (timecnt tz - 1) Hz) as [to Eto]; [lia|]; rewrite Et, Eto; cbn [mbind option_bind];
    exists to, t; (split; [done|]); exists (timecnt tz - 1); (split; [done|]); (split; [done|]); (split; [apply (Hbelow (timecnt tz - 1)); [lia|done]|]);
    intros j y Hj Ey; apply elem_lookup in Ey as [Hj0 Ey]; apply lookup_lt_Some in Ey; lia.
Qed.
(** Before the first transition: the first one to standard time, or else the first one. *)
Definition before_first (tz : timelib_tzinfo) (to : ttinfo) : Prop :=
  (exists i, transition_type tz i = Some to /\ tt_isdst to = 0 /\ forall j t, 0 <= j < i -> transition_type tz j = Some t -> tt_isdst t <> 0)
  \/ transition_type tz 0 = Some to /\ forall j t, transition_type tz j = Some t -> tt_isdst t <> 0.
Lemma first_standard_ok tz tr fuel : zone_ok tz tr -> forall j, timecnt tz - j <= Z.of_nat fuel -> 0 <= j <= timecnt tz ->
  exists k, first_standard fuel tz j = Some k /\ j <= k <= timecnt tz /\ (forall i t, j <= i < k -> transition_type tz i = Some t -> tt_isdst t <> 0)
    /\ (k < timecnt tz -> exists t, transition_type tz k = Some t /\ tt_isdst t = 0).
Proof.
  intros Hz. induction fuel as [|fuel IH]; intros j Hf Hj; cbn [first_standard]; destruct (Z.ltb_spec j (timecnt tz)) as [Hlt|Hge]; try lia.
  2: { destruct (transition_type_some tz tr j Hz) as [to Eto]; [lia|]. pose proof Eto as E. unfold transition_type in E. destruct (elem (trans_idx tz) j) as [idx|]; [|done]. cbn [mbind option_bind] in *. rewrite E. cbn [mbind option_bind].
    destruct (Z.eqb_spec (tt_isdst to) 0) as [H0|H0]; [exists j; split; [done|]; split; [lia|]; split; [lia|]; intros _; by exists to|].
    destruct (IH (j + 1)) as (k & -> & Hk & Hb & Hs); [lia..|]. exists k. split; [done|]. split; [lia|]. split; [|done]. intros i t Hi Et. destruct (Z.eq_dec i j) as [->|]; [by simplify_eq|apply (Hb i); [lia|done]]. }
  all: exists j; (split; [done|]); (split; [lia|]); split; intros; lia.
Qed.
Lemma transition_type_range tz tr i to : zone_ok tz tr -> transition_type tz i = Some to -> 0 <= i < timecnt tz.
Proof.
  intros [_ [Ec El] _ _ _] E. unfold transition_type in E. destruct (elem (trans_idx tz) i) as [idx|] eqn:Ei; [|done]. apply elem_lookup in Ei as [Hi Ei]. apply lookup_lt_Some in Ei. lia.
Qed.
Lemma fetch_timezone_offset_ok tz tr ts : zone_ok tz tr -> exists to t, fetch_timezone_offset tz ts = Some (Some to, t) /\
  ((exists t0, elem tr 0 = Some t0 /\ ts < t0 /\ t = 0 /\ before_first tz to) \/ in_force tz tr ts to t).
Proof.
  intros Hz. pose proof Hz as [E [Ec El] Hpos Ht Hs]. unfold fetch_timezone_offset. rewrite (proj2 (Z.eqb_neq _ _)) by lia. rewrite E. destruct (elem_some tr 0) as [t0 E0]; [lia|]. rewrite E0. cbn [mbind option_bind].
  destruct (Z.ltb_spec ts t0) as [Hlt|Hge].
  - destruct (first_standard_ok tz tr (Z.to_nat (timecnt tz)) Hz 0) as (k & -> & Hk & Hb & Hst); [lia..|]. cbn [mbind option_bind]. destruct (Z.eqb_spec k (timecnt tz)) as [->|Hne].
    + destruct (transition_type_some tz tr 0 Hz) as [to Eto]; [lia|]. rewrite Eto. exists to, 0. split; [done|]. left. exists t0. split_and!; try done. right. split; [done|].
      intros j t Et. pose proof (transition_type_range _ _ _ _ Hz Et). by apply (Hb j).
    + destruct Hst as (to & Eto & Hd); [lia|]. rewrite Eto. exists to, 0. split; [done|]. left. exists t0. split_and!; try done. left. exists k. split; [done|]. split; [done|]. intros j t Hj Et. by apply (Hb j).
  - assert (H1 : find_transition (Z.to_nat (timecnt tz)) tz tr ts 0 = find_transition (Z.to_nat (timecnt tz) - 1) tz tr ts 1).
    { destruct (Z.to_nat (timecnt tz)) as [|f] eqn:Ef; [lia|]. cbn [find_transition]. rewrite (proj2 (Z.ltb_lt 0 (timecnt tz))) by lia. rewrite E0. cbn [mbind option_bind].
      rewrite (proj2 (Z.ltb_ge ts t0)) by lia. by replace (S f - 1)%nat with f by lia. }
    rewrite H1. destruct (find_transition_ok tz tr ts (Z.to_nat (timecnt tz) - 1) Hz 1) as (to & t & -> & Hin); [lia|lia| |].
    + intros j x Hj Ex. apply elem_lookup in Ex as [Hj0 Ex]. apply elem_lookup in E0 as [_ E0]. replace j with 0 in Ex by lia. by simplify_eq.
    + exists to, t. split; [done|]. by right.
Qed.

(** ** Local times *)

(** The same type of local time for a day before and after. *)
Definition steady (tz : timelib_tzinfo) (ts : Z) (info : timelib_time_offset) : Prop :=
  Z.abs (off_offset info) <= 86400 /\ Z.abs (transistion_time info) <= 2 ^ 60
  /\ forall n, ts - 86400 <= n <= ts + 86400 -> timelib_get_time_zone_info n tz = Some info.
Definition id_zone (t : timelib_time) (tz : timelib_tzinfo) : Prop := zone_type t = TIMELIB_ZONETYPE_ID /\ tz_info t = Some tz.
Lemma do_adjust_timezone_steady t tz info : id_zone t tz -> Z.abs (sse t) <= 2 ^ 60 -> steady tz (sse t) info ->
  exists t', do_adjust_timezone t None = Some (t', - off_offset info) /\ same_date t t' /\ id_zone t' tz /\ tm_z t' = off_offset info /\ sse t' = sse t.
Proof.
  intros [Ht Hi] Hs (Ho & Htr & Hst). unfold do_adjust_timezone. rewrite Ht. change (TIMELIB_ZONETYPE_ID =? TIMELIB_ZONETYPE_OFFSET) with false. change (TIMELIB_ZONETYPE_ID =? TIMELIB_ZONETYPE_ABBR) with false.
  change (TIMELIB_ZONETYPE_ID =? TIMELIB_ZONETYPE_ID) with true. cbv iota. rewrite Hi. cbv zeta.
  set (t1 := set_is_localtime 1 t). assert (E1 : sse t1 = sse t) by (unfold t1; by destruct t). rewrite E1. step (Hst (sse t) ltac:(lia)).
  rewrite (bind_step _ _ _ (sll_ok (sse t - off_offset info) ltac:(unfold SLL_MIN, SLL_MAX; lia))). cbv beta. step (Hst (sse t - off_offset info) ltac:(lia)).
  unfold timelib_set_timezone. rewrite E1, (Hst (sse t)) by lia. cbn [mbind option_bind]. set (t2 := set_zone_type _ _).
  assert (Ht2 : sse t2 = sse t /\ tm_z t2 = off_offset info /\ same_date t t2 /\ id_zone t2 tz) by (unfold t2, t1; by destruct t). clearbody t2 t1. destruct Ht2 as (S2 & Z2 & D2 & I2). rewrite S2, Z2.
  rewrite (bind_step _ _ _ (sll_ok (sse t - off_offset info) ltac:(unfold SLL_MIN, SLL_MAX; lia))). cbv beta. rewrite Z.sub_diag.
  rewrite (bind_step (int_value 0) _ 0 eq_refl). cbv beta. rewrite Z.add_0_r. rewrite (bind_step _ _ _ (sll_ok (transistion_time info) ltac:(unfold SLL_MIN, SLL_MAX; lia))). cbv beta.
  rewrite Z.eqb_refl. cbn [negb andb]. rewrite (bind_step _ _ _ (int_value_ok (- off_offset info) ltac:(unfold INT_MIN, INT_MAX; lia))). cbv beta. rewrite Z.add_opp_r.
  rewrite (bind_step _ _ _ (sll_ok (sse t - off_offset info) ltac:(unfold SLL_MIN, SLL_MAX; lia))). cbv beta. step (Hst (sse t - off_offset info) ltac:(lia)).
  eexists. split; [done|]. clear -S2 Z2 D2 I2. unfold same_date, id_zone in *. destruct t2. cbn in *. done.
Qed.
(** A local time away from the transitions, to seconds and back. *)
Lemma update_ts_zone t tz info : id_zone t tz -> no_relative t -> within (2 ^ 32) t -> tm_s t <> TIMELIB_UNSET -> year_zero <= time_moment t -> Z.abs (time_moment t) <= 2 ^ 59 ->
  steady tz (time_moment t) info ->
  exists t' g, timelib_update_ts t None = Some t' /\ sse t' = time_moment t - off_offset info /\ in_calendar t' /\ time_moment t' = time_moment t /\ tm_z t' = off_offset info
    /\ timelib_update_from_sse t' = Some g /\ sse g = sse t' /\ (~ period_end (time_moment t) -> same_date t' g).
Proof.
  intros Hz (Hr & Hp & Hrw) Hw Hu Hy Hmb Hst. destruct (update_ts_local t None Hp Hw Hrw) as (t0 & t1 & Hn0 & _ & Hn1 & Hyb & Hhb & E).
  assert (Hr0 : add_relative t0 = t0). { apply add_relative_none. destruct Hn0 as [(y0 & m0 & d0 & h0 & i0 & s0 & ->) _]. by destruct (with_fields_relative y0 m0 d0 h0 i0 s0 t) as [_ ->]. }
  rewrite Hr0 in *. assert (Hu0 : tm_s t0 <> TIMELIB_UNSET).
  { destruct Hn0 as (_ & _ & _ & _ & H3). destruct (H3 Hu) as (_ & _ & Hs0). unfold TIMELIB_UNSET. clear -Hs0. lia. }
  assert (Hc1 : in_calendar t1) by (destruct Hn1 as (_ & Hd & _ & _ & H3); by split; [|apply H3]).
  assert (Hm1 : time_moment t1 = time_moment t) by (destruct Hn0 as (_ & _ & _ & Hm0 & _), Hn1 as (_ & _ & _ & Hm1 & _); by rewrite Hm1).
  assert (Hy1 : 0 <= tm_y t1). { eapply year_nonneg; [apply Hc1|apply Hc1|]. fold (time_moment t1). by rewrite Hm1. }
  set (t2 := clear_special t1) in *. assert (Ht2 : same_date t1 t2 /\ id_zone t2 tz).
  { unfold t2. destruct Hn1 as [(y & m & d & h & i & s & ->) _]. destruct Hn0 as [(y0 & m0 & d0 & h0 & i0 & s0 & ->) _]. by destruct t. }
  clearbody t2. destruct Ht2 as [D2 I2]. pose proof (same_date_calendar _ _ D2 Hc1) as Hc2. pose proof (same_date_moment _ _ D2) as Hm2. rewrite Hm1 in Hm2.
  assert (Hsecs : secs_of t2 = Some (time_moment t)).
  { rewrite <- Hm2. unfold same_date in D2. destruct D2 as ((Ey & Em & Ed) & Eh & Ei & Es). apply secs_of_ok; [apply Hc2|by rewrite Eh, Ei, Es|by rewrite Ey|rewrite Ey; apply leap_unsigned_nonneg; clear -Hy1 Hyb; lia]. }
  assert (Ht3 : same_date t2 (set_sse (time_moment t) t2) /\ id_zone (set_sse (time_moment t) t2) tz /\ sse (set_sse (time_moment t) t2) = time_moment t) by (clear -I2; by destruct t2).
  destruct Ht3 as (D3 & I3 & S3). destruct (do_adjust_timezone_steady _ tz info I3) as (t4 & E4 & D4 & I4 & Z4 & S4); [rewrite S3; clear -Hmb; lia|by rewrite S3|]. pose proof Hst as (Ho & _ & Hget).
  assert (Ef : timelib_update_ts t None = Some (finished (time_moment t - off_offset info) t4)).
  { rewrite E. apply (finish_ts_steps t2 None (time_moment t) t4 (- off_offset info)); [done|done|]. rewrite Z.add_opp_r. apply sll_ok. clear -Ho Hmb. unfold SLL_MIN, SLL_MAX. lia. }
  set (t5 := finished _ t4) in *. destruct (finished_get (time_moment t - off_offset info) t4) as (D5 & Z5 & S5). fold t5 in D5, Z5, S5.
  assert (I5 : id_zone t5 tz /\ tm_z t5 = off_offset info) by (split; [unfold t5; clear -I4; by destruct t4|by rewrite (proj1 Z5)]). clearbody t5. destruct I5 as [I5 Z5'].
  pose proof (same_date_trans _ _ _ (same_date_trans _ _ _ D3 D4) D5) as D25. pose proof (same_date_calendar _ _ D25 Hc2) as Hc5. pose proof (same_date_moment _ _ D25) as Hm5. rewrite Hm2 in Hm5.
  destruct (unixtime2gmt_ok t5 (time_moment t)) as (y & m & d & h & i & s & Eg & Gm & Gd & G0 & Gt & Gmo & _); [clear -Hmb; unfold SLL_MIN, SLL_MAX; lia|].
  eexists t5, _. split; [done|]. split; [done|]. split; [done|]. split; [done|]. split; [done|]. split.
  - unfold timelib_update_from_sse. destruct I5 as [Ht5 Hi5]. rewrite Ht5. change (TIMELIB_ZONETYPE_ID =? TIMELIB_ZONETYPE_ABBR) with false. change (TIMELIB_ZONETYPE_ID =? TIMELIB_ZONETYPE_OFFSET) with false.
    change (TIMELIB_ZONETYPE_ID =? TIMELIB_ZONETYPE_ID) with true. cbn [orb]. cbv zeta iota. rewrite Hi5, S5. rewrite (bind_step (Some tz) _ tz eq_refl). cbv beta. rewrite (Hget (time_moment t - off_offset info)) by (clear -Ho; lia).
    rewrite (bind_step (Some info) _ info eq_refl). cbv beta. rewrite Z.sub_add, (sll_ok (time_moment t)) by (clear -Hmb; unfold SLL_MIN, SLL_MAX; lia). rewrite (bind_step (Some (time_moment t)) _ _ eq_refl). cbv beta.
    rewrite Eg. reflexivity.
  - split; [rewrite <- S5; clear; by destruct t5|]. intros Hne. apply calendar_inj; [done| |].
    + unfold in_calendar. clear -Gm Gd G0 Gt Hne. destruct t5. cbn. split; [|done]. split; [done|]. destruct (Z.eq_dec d 0) as [E0|]; [by destruct (Hne (G0 E0))|lia].
    + rewrite Hm5, <- Gmo. clear. by destruct t5.
Qed.
