(* ===== verification/TimeThms.v ===== *)
(** * TimeThms: what the date arithmetic of ext/date/lib promises

    Instants, broken-down dates, relative times, differences, weeks and zones,
    each with the input on which the code departs from it. *)
From Stdlib Require Import Ascii.
From S2P Require Import Prelude Calendar CalendarSpec TimeLib TimeSpec TimeEpoch TimeNorm TimeStamp TimeRound TimeDiff TimeWeek TimeZone.

(** A time of a fixed zone, no relative part. *)
Definition sample_time (y m d h i s zt z e : Z) : timelib_time :=
  Time y m d h i s z None None 0 no_rel e 1 0 1 1 1 zt.
Ltac closed_bounds := vm_compute; repeat split; discriminate.

(** C31: whatever the 64-bit second, before 1970 or after, timelib_unixtime2gmt ends without overflow, keeps every field it does not set, and sets the fields of a date
    and time that lie exactly that many seconds from the epoch by the rules of the Gregorian calendar: the time of day in range, the month in range, the day one of the
    month - except that the last day of each period of 400 years after 1970 is called day 0 of the next. *)
Theorem timelib_unixtime2gmt_correct (tm : timelib_time) (ts : Z) : SLL_MIN <= ts <= SLL_MAX ->
  exists y m d h i s, timelib_unixtime2gmt tm ts = Some (gmt_of tm ts y m d h i s)
    /\ moment y m d h i s = ts /\ time_ok h i s /\ 1 <= m <= 12 /\ (~ period_end ts -> date_ok y m d) /\ (d = 0 -> period_end ts).
Proof.
  intros Hts. destruct (unixtime2gmt_ok tm ts Hts) as (y & m & d & h & i & s & E & Hm & Hd & H0 & Ht & Hmo & _). exists y, m, d, h, i, s. repeat (split; [done|]). split; [|done].
  intros Hp. split; [done|]. destruct (Z.eq_dec d 0) as [E0|]; [by destruct (Hp (H0 E0))|lia].
Qed.
Lemma timelib_unixtime2gmt_correct_witness : exists y m d h i s, timelib_unixtime2gmt no_time (-1) = Some (gmt_of no_time (-1) y m d h i s)
  /\ moment y m d h i s = -1 /\ time_ok h i s /\ 1 <= m <= 12 /\ (~ period_end (-1) -> date_ok y m d) /\ (d = 0 -> period_end (-1)).
Proof. apply (timelib_unixtime2gmt_correct no_time (-1)). closed_bounds. Defined.
Example last_second_of_1969 : timelib_unixtime2gmt no_time (-1) = Some (gmt_of no_time (-1) 1969 12 31 23 59 59).
Proof. by vm_compute. Qed.
(** 2369-12-31 comes out as 2370-01-00. *)
Example end_of_a_period : timelib_unixtime2gmt no_time 12622694400 = Some (gmt_of no_time 12622694400 2370 1 0 0 0 0).
Proof. by vm_compute. Qed.

(** C32: timelib_do_normalize ends - no more rounds of do_range_limit_days than a period has months - and turns any fields, negative or far too large, into those of a
    date of the calendar and, unless the second is TIMELIB_UNSET, a time of day, the same number of seconds from the epoch; a time already in range stays as it is. *)
Theorem timelib_do_normalize_correct (t : timelib_time) : fields_small t ->
  exists t', timelib_do_normalize t = Some t' /\ normal_of t t' /\ timelib_do_normalize t' = Some t' /\ (in_calendar t -> t' = t).
Proof.
  intros Hs. destruct (normalize_normal t Hs) as (t' & E & Hn & Hy & _). exists t'. split; [done|]. split; [done|]. split.
  - destruct Hn as (_ & Hd & Ht & _). apply timelib_do_normalize_in; [|done..]. destruct Hs as ((S1 & S2 & S3) & S4 & S5 & S6). unfold size, small in *. clear -Hy S1 S2 S3 S4 S5 S6. hide_abs. lia.
  - intros [Hd Ht]. rewrite timelib_do_normalize_in in E; [by simplify_eq| |done|by left]. destruct Hs as ((S1 & _) & _). unfold small in S1. clear -S1. lia.
Qed.
Lemma timelib_do_normalize_correct_witness : let t := sample_time 2016 14 (-400) 100 (-1) 4000 0 0 0 in
  exists t', timelib_do_normalize t = Some t' /\ normal_of t t' /\ timelib_do_normalize t' = Some t' /\ (in_calendar t -> t' = t).
Proof. apply (timelib_do_normalize_correct (sample_time 2016 14 (-400) 100 (-1) 4000 0 0 0)). closed_bounds. Defined.

(** C33: in a zone of a fixed offset (or none) seconds and dates are the same thing: timelib_update_from_sse gives an instant the date that is that many seconds from the
    epoch in the zone, and timelib_update_ts gives a date, in range or not, the second that it is, from year 0 on; each takes back what the other did. *)
Theorem seconds_and_dates (t : timelib_time) : fixed_zone t -> no_relative t ->
  (Z.abs (sse t - zone_secs t) <= 2 ^ 55 -> year_zero <= sse t - zone_secs t ->
    exists g t', timelib_update_from_sse t = Some g /\ same_zone t g /\ sse g = sse t /\ timelib_update_ts g None = Some t' /\ sse t' = sse t
      /\ (~ period_end (sse t - zone_secs t) -> up_to_date g /\ same_date g t')) /\
  (within (2 ^ 32) t -> tm_s t <> TIMELIB_UNSET -> year_zero <= time_moment t ->
    exists t' g, timelib_update_ts t None = Some t' /\ same_zone t t' /\ sse t' = time_moment t + zone_secs t /\ up_to_date t' /\ (in_calendar t -> same_date t t')
      /\ (Z.abs (time_moment t) <= 2 ^ 60 -> timelib_update_from_sse t' = Some g /\ sse g = sse t' /\ (~ period_end (time_moment t) -> same_date t' g))).
Proof. intros Hz Hr. split; [by apply update_ts_from_sse|by apply update_from_sse_ts]. Qed.
Lemma seconds_and_dates_witness : let t := sample_time 2016 2 30 12 0 0 1 (-60) 1456830000 in
  fixed_zone t /\ no_relative t /\ exists t' g, timelib_update_ts t None = Some t' /\ same_zone t t' /\ sse t' = time_moment t + zone_secs t /\ up_to_date t' /\ (in_calendar t -> same_date t t')
      /\ (Z.abs (time_moment t) <= 2 ^ 60 -> timelib_update_from_sse t' = Some g /\ sse g = sse t' /\ (~ period_end (time_moment t) -> same_date t' g)).
Proof.
  intros t. assert (Hz : fixed_zone t) by (split; [closed_bounds|split; [closed_bounds|by left]]). assert (Hr : no_relative t) by (split; [done|split; closed_bounds]).
  split; [exact Hz|]. split; [exact Hr|]. apply (proj2 (seconds_and_dates t Hz Hr)); closed_bounds.
Defined.
Example summer_time_in_1970 : timelib_update_ts (sample_time 1970 7 1 0 0 0 1 (-60) 0) None ≫= (fun t => Some (sse t)) = Some 15634800.
Proof. by vm_compute. Qed.

(** C34: a relative time is added field by field to the date brought in range first, so that one month after January 31 is March 2 or 3; the sum, brought in range again,
    is the date that timelib_update_ts leaves, and the seconds are its seconds in the zone. *)
Theorem timelib_update_ts_relative (t : timelib_time) : fixed_zone t -> plain_relative t -> within (2 ^ 32) t -> relative_within (2 ^ 32) (relative t) ->
  exists t0 t1, normal_of t t0 /\ (in_calendar t -> t0 = t) /\ date_ok (tm_y t1) (tm_m t1) (tm_d t1) /\ time_normal t1 /\ time_moment t1 = time_moment (add_relative t0)
    /\ (leap_unsigned (tm_y t1) -> exists t', timelib_update_ts t None = Some t' /\ same_date t1 t' /\ same_zone t t' /\ sse t' = time_moment t1 + zone_secs t).
Proof.
  intros Hz Hp Hw Hr. destruct (update_ts_fixed t Hz Hp Hw Hr) as (t0 & Hn & Hid & t1 & Hd & Ht & Hm & _ & _ & Hres). exists t0, t1. split; [done|].
  split; [intros [Hc1 Hc2]; apply Hid; [done|by left]|done].
Qed.
Definition next_month : timelib_time := set_have_relative 1 (set_relative (set_rel_ymd 0 1 0 no_rel) (sample_time 2016 1 31 0 0 0 1 0 0)).
Lemma timelib_update_ts_relative_witness : exists t0 t1, normal_of next_month t0 /\ (in_calendar next_month -> t0 = next_month) /\ date_ok (tm_y t1) (tm_m t1) (tm_d t1) /\ time_normal t1
    /\ time_moment t1 = time_moment (add_relative t0)
    /\ (leap_unsigned (tm_y t1) -> exists t', timelib_update_ts next_month None = Some t' /\ same_date t1 t' /\ same_zone next_month t' /\ sse t' = time_moment t1 + zone_secs next_month).
Proof.
  apply (timelib_update_ts_relative next_month); [split; [closed_bounds|split; [closed_bounds|by left]]|closed_bounds|closed_bounds|closed_bounds].
Defined.
Example one_month_after_january_31 : timelib_update_ts next_month None ≫= (fun t => Some (tm_y t, tm_m t, tm_d t)) = Some (2016, 3, 2).
Proof. by vm_compute. Qed.
(** The leap year test of [do_months] sees year -100 as 2^64 - 100, which 400 does not divide, nor 100: the day is off by one. *)
Example year_minus_100 : ~ leap_unsigned (-100) /\ timelib_update_ts (sample_time (-100) 3 1 0 0 0 0 0 0) None ≫= (fun t => Some (sse t - time_moment t)) = Some 86400.
Proof. split; [by vm_compute|by vm_compute]. Qed.

(** C35: for two times in zones of a fixed offset, without daylight saving, the first one at UTC, in step with its seconds and not on the last day of a period of 400 years from 1970 on, and
    the second from year 0 on: their difference is whole years and months and a rest of days and a time of day, months 0 to 11, hours, minutes and seconds in range, at most 31
    days (0 to 30, and no negative years, when the second is not on such a last day either), with the number of days between them, and timelib_add of it to the first time
    gives the second, be it later or earlier (in which case the days borrowed are those of other months). *)
Theorem timelib_add_diff_inverse (one two : timelib_time) : fixed_zone one -> fixed_zone two -> zone_secs one = 0 -> tm_dst one = 0 -> tm_dst two = 0 -> up_to_date one ->
  ~ period_end (sse one) -> year_zero <= sse two -> Z.abs (sse one) <= 2 ^ 55 -> Z.abs (sse two) <= 2 ^ 55 ->
  exists rt t, timelib_diff one two = Some rt /\ rel_normal rt /\ rt_d rt <= 31 /\ (~ period_end (sse two) -> 0 <= rt_y rt /\ rt_d rt <= 30)
    /\ invert rt = (if sse two <? sse one then 1 else 0) /\ days rt = Z.quot (Z.abs (sse two - sse one)) 86400
    /\ timelib_add one rt = Some t /\ sse t = sse two /\ (~ period_end (sse two) -> up_to_date t).
Proof. apply timelib_add_diff. Qed.
Definition leap_noon : timelib_time := sample_time 2016 2 29 12 0 0 1 0 1456747200.
Definition new_year : timelib_time := sample_time 2015 1 31 18 30 0 1 0 1422729000.
Lemma timelib_add_diff_inverse_witness : up_to_date leap_noon /\ exists rt t, timelib_diff leap_noon new_year = Some rt /\ rel_normal rt /\ rt_d rt <= 31
    /\ (~ period_end (sse new_year) -> 0 <= rt_y rt /\ rt_d rt <= 30) /\ invert rt = 1 /\ days rt = 393
    /\ timelib_add leap_noon rt = Some t /\ sse t = sse new_year /\ (~ period_end (sse new_year) -> up_to_date t).
Proof.
  assert (Hz : fixed_zone leap_noon /\ fixed_zone new_year) by (split; (split; [closed_bounds|split; [closed_bounds|by left]])). destruct Hz as [Hz1 Hz2].
  assert (Hup : up_to_date leap_noon) by (split; [closed_bounds|by vm_compute]). split; [done|].
  apply (timelib_add_diff_inverse leap_noon new_year Hz1 Hz2 eq_refl eq_refl eq_refl Hup); [intros (_ & Hm & _); by vm_compute in Hm|closed_bounds..].
Defined.
Example thirteen_months_back : timelib_diff leap_noon new_year ≫= (fun r => Some (rt_y r, rt_m r, rt_d r, rt_h r, rt_i r, invert r)) = Some (1, 0, 28, 17, 30, 1).
Proof. by vm_compute. Qed.

(** C36: from year 0 on timelib_day_of_week gives the day of the week, Sunday 0, timelib_iso_day_of_week Monday 1 to Sunday 7; timelib_isoweek_from_date gives the year in
    which the Thursday of the week lies and which Thursday of that year it is, and timelib_daynr_from_weeknr leads from that week and weekday back to the day;
    do_adjust_special_weekday moves by that many days from Monday to Friday, forward or back. *)
Theorem weeks_correct (y m d : Z) : 0 <= y <= 2 ^ 50 -> date_ok y m d ->
  let n := epoch_day y m d in
  timelib_day_of_week y m d = Some (day_of_week n) /\ timelib_iso_day_of_week y m d = Some (iso_day n)
  /\ (exists w iy, timelib_isoweek_from_date y m d = Some (w, iy) /\ iso_week_of n w iy /\ (0 <= iy -> timelib_daynr_from_weeknr iy w (iso_day n) = Some (n - jan1 iy)))
  /\ (forall t, tm_y t = y -> tm_m t = m -> tm_d t = d -> Z.abs (amount (special (relative t))) <= 2 ^ 50 ->
       exists d', do_adjust_special_weekday t = Some (set_date y m d' t) /\ epoch_day y m d' = weekdays_on (amount (special (relative t))) n).
Proof.
  intros Hy Hd n. pose proof Hd as [Hm Hd']. pose proof (month_length_bounds (gregorian_leap y) m). split; [apply timelib_day_of_week_ok; lia|]. split; [apply timelib_iso_day_of_week_ok; lia|]. split.
  - destruct (timelib_isoweek_from_date_ok y m d) as (w & iy & E & Hw); [lia|done|]. exists w, iy. split; [done|]. split; [done|]. intros Hiy. apply iso_week_daynr; [|done].
    pose proof (iso_year_close y m d w iy Hd Hw). lia.
  - intros t <- <- <- Ha. apply do_adjust_special_weekday_ok; lia.
Qed.
Lemma weeks_correct_witness : let n := epoch_day 2016 1 3 in
  timelib_day_of_week 2016 1 3 = Some (day_of_week n) /\ timelib_iso_day_of_week 2016 1 3 = Some (iso_day n)
  /\ (exists w iy, timelib_isoweek_from_date 2016 1 3 = Some (w, iy) /\ iso_week_of n w iy /\ (0 <= iy -> timelib_daynr_from_weeknr iy w (iso_day n) = Some (n - jan1 iy)))
  /\ (forall t, tm_y t = 2016 -> tm_m t = 1 -> tm_d t = 3 -> Z.abs (amount (special (relative t))) <= 2 ^ 50 ->
       exists d', do_adjust_special_weekday t = Some (set_date 2016 1 d' t) /\ epoch_day 2016 1 d' = weekdays_on (amount (special (relative t))) n).
Proof. apply (weeks_correct 2016 1 3); closed_bounds. Defined.
Example first_sunday_of_2016 : timelib_isoweek_from_date 2016 1 3 = Some (53, 2015) /\ weekdays_on 7 (epoch_day 2016 1 1) = epoch_day 2016 1 12.
Proof. by vm_compute. Qed.
(** Before year 0 the century is rounded towards 0 and the year in it downwards: 1 January of year -1, a Friday, is taken for a Thursday. *)
Example day_of_week_before_year_0 : timelib_day_of_week (-1) 1 1 = Some 4 /\ day_of_week (epoch_day (-1) 1 1) = 5.
Proof. by vm_compute. Qed.

(** C37: over sorted transitions fetch_timezone_offset never reads outside the tables, and gives the type that the last transition not later leads to, with its second;
    before the first transition the type of the first transition to standard time, or of the first one if none is. *)
Theorem fetch_timezone_offset_in_force (tz : timelib_tzinfo) (tr : list Z) (ts : Z) : zone_ok tz tr ->
  exists to t, fetch_timezone_offset tz ts = Some (Some to, t)
    /\ ((exists t0, elem tr 0 = Some t0 /\ ts < t0 /\ t = 0 /\ before_first tz to) \/ in_force tz tr ts to t).
Proof. apply fetch_timezone_offset_ok. Qed.
(** Central European time: the changes of 2016. *)
Definition cest_2016 : timelib_tzinfo := {|
  tz_name := "Europe/Amsterdam"; bit32 := {| cnt_ttisgmt := 0; cnt_ttisstd := 0; cnt_leap := 0; cnt_time := 2; cnt_type := 2; cnt_char := 9 |};
  bit64 := {| cnt_ttisgmt := 0; cnt_ttisstd := 0; cnt_leap := 0; cnt_time := 0; cnt_type := 0; cnt_char := 0 |}; trans := Some [1459040400; 1477789200]; trans_idx := [1; 0];
  type := [{| tt_offset := 3600; tt_isdst := 0; tt_abbr_idx := 0 |}; {| tt_offset := 7200; tt_isdst := 1; tt_abbr_idx := 4 |}];
  timezone_abbr := Some ["C"; "E"; "T"; zero; "C"; "E"; "S"; "T"; zero]%char; leap_times := None; bc := 1;
  location := {| country_code := [78; 76; 0]; latitude := 14236666; longitude := 18490000; comments := [] |} |}.
Lemma cest_2016_ok : zone_ok cest_2016 [1459040400; 1477789200].
Proof.
  split; try done; [by repeat constructor|]. intros [|[|i]] [|[|j]] x y Hle Hx Hy; simpl in Hx, Hy; simplify_eq; lia.
Qed.
Lemma fetch_timezone_offset_in_force_witness : exists to t, fetch_timezone_offset cest_2016 1467000000 = Some (Some to, t)
  /\ ((exists t0, elem [1459040400; 1477789200] 0 = Some t0 /\ 1467000000 < t0 /\ t = 0 /\ before_first cest_2016 to) \/ in_force cest_2016 [1459040400; 1477789200] 1467000000 to t).
Proof. apply (fetch_timezone_offset_in_force cest_2016 [1459040400; 1477789200] 1467000000 cest_2016_ok). Defined.

(** C39: in a zone of the database, a day or more from any change of its offset, timelib_update_ts finds the second at which the clocks of the zone show the date, puts
    the offset into the time, and timelib_update_from_sse gives the date back. *)
Theorem local_times_round_trip (t : timelib_time) (tz : timelib_tzinfo) (info : timelib_time_offset) : id_zone t tz -> no_relative t -> within (2 ^ 32) t -> tm_s t <> TIMELIB_UNSET ->
  year_zero <= time_moment t -> Z.abs (time_moment t) <= 2 ^ 59 -> steady tz (time_moment t) info ->
  exists t' g, timelib_update_ts t None = Some t' /\ sse t' = time_moment t - off_offset info /\ in_calendar t' /\ time_moment t' = time_moment t /\ tm_z t' = off_offset info
    /\ timelib_update_from_sse t' = Some g /\ sse g = sse t' /\ (~ period_end (time_moment t) -> same_date t' g).
Proof. apply update_ts_zone. Qed.
Definition july_2016 : timelib_time := Time 2016 7 1 12 0 0 0 None (Some cest_2016) 0 no_rel 0 1 0 0 1 1 TIMELIB_ZONETYPE_ID.
Definition cest : timelib_time_offset := {| off_offset := 7200; off_leap_secs := 0; off_is_dst := 1; off_abbr := "CEST"; transistion_time := 1459040400 |}.
Lemma cest_in_force n : 1459040400 <= n < 1477789200 -> fetch_timezone_offset cest_2016 n = Some (Some {| tt_offset := 7200; tt_isdst := 1; tt_abbr_idx := 4 |}, 1459040400).
Proof.
  intros Hn. destruct (fetch_timezone_offset_ok cest_2016 _ n cest_2016_ok) as (to & t & -> & [(t0 & E0 & Hlt & _)|(i & Eto & Ei & Hle & Hlater)]).
  - injection E0 as <-. lia.
  - assert (Hi : i = 0). { pose proof (transition_type_range _ _ _ _ cest_2016_ok Eto) as Hr. change (timecnt cest_2016) with 2 in Hr. destruct (Z.eq_dec i 1) as [->|]; [injection Ei as <-; lia|lia]. }
    subst i. injection Ei as <-. by injection Eto as <-.
Qed.
Lemma steady_july_2016 : steady cest_2016 (time_moment july_2016) cest.
Proof.
  split; [closed_bounds|]. split; [closed_bounds|]. replace (time_moment july_2016) with 1467374400 by by vm_compute. intros n Hn.
  unfold timelib_get_time_zone_info. rewrite cest_in_force by lia. by vm_compute.
Qed.
Lemma local_times_round_trip_witness : exists t' g, timelib_update_ts july_2016 None = Some t' /\ sse t' = time_moment july_2016 - 7200 /\ in_calendar t' /\ time_moment t' = time_moment july_2016 /\ tm_z t' = 7200
    /\ timelib_update_from_sse t' = Some g /\ sse g = sse t' /\ (~ period_end (time_moment july_2016) -> same_date t' g).
Proof. apply (local_times_round_trip july_2016 cest_2016 cest); [by split|split; [done|split; closed_bounds]|closed_bounds|closed_bounds|closed_bounds|closed_bounds|apply steady_july_2016]. Defined.
