(* ===== verification/TzFile.v ===== *)
(** * TzFile: the zone database, ext/date/lib/parse_tz.c

    Looking a zone up in the index and reading its record.  The database,
    timezonedb.h, is data and a parameter: an index and an array of bytes, less
    than 4 GB long.  [*tzf] is the list of the bytes from the pointer on; to
    read or to step past the end of the data is undefined, [None].  The latitude
    and the longitude stay the integers of the file. *)
From Stdlib Require Import Ascii.
From S2P Require Import Prelude TimeLib.

Record timelib_tzdb := { index : list (string * Z); data : list Z }.

(** ** Bytes *)

(** [memcpy(buffer, *tzf, n); *tzf += n] *)
Definition read (n : Z) (tzf : list Z) : option (list Z * list Z) :=
  if n <=? Z.of_nat (length tzf) then Some (take (Z.to_nat n) tzf, drop (Z.to_nat n) tzf) else None.
Definition skip (n : Z) (tzf : list Z) : option (list Z) := '(_, tzf) ← read n tzf; Some tzf.

(** On a machine that stores the lower byte first.  For an [int32_t] of which the
    low byte is 128 or more the first shift overflows; as compiled, it wraps around. *)
Definition timelib_conv_int (l : Z) : Z :=
  to_uint (Z.shiftl (Z.land l 0x000000ff) 24 + Z.shiftl (Z.land l 0x0000ff00) 8 + Z.shiftr (Z.land l 0x00ff0000) 8 + Z.shiftr (Z.land l 0xff000000) 24).
(** The [uint32_t]s of a buffer, converted. *)
Fixpoint conv_words (buffer : list Z) : list Z :=
  match buffer with
  | b0 :: b1 :: b2 :: b3 :: buffer => timelib_conv_int (b0 + 256 * b1 + 65536 * b2 + 16777216 * b3) :: conv_words buffer
  | _ => []
  end.
Definition chars (bytes : list Z) : list ascii := (fun b => ascii_of_nat (Z.to_nat b)) <$> bytes.

(** As [int32_t]s. *)
Definition signed (words : list Z) : list Z := to_int <$> words.

(** ** The record of a zone *)
Definition tz_ctor (name : string) : timelib_tzinfo :=
  let zeros := {| cnt_ttisgmt := 0; cnt_ttisstd := 0; cnt_leap := 0; cnt_time := 0; cnt_type := 0; cnt_char := 0 |} in
  {| tz_name := name; bit32 := zeros; bit64 := zeros; trans := None; trans_idx := []; type := []; timezone_abbr := None; leap_times := None; bc := 0;
     location := {| country_code := [0; 0; 0]; latitude := 0; longitude := 0; comments := [] |} |}.

(** The version, [bc] and the country code. *)
Definition read_preamble (tzf : list Z) : option (Z * Z * list Z * list Z) :=
  '(id, tzf) ← read 4 tzf; c ← elem id 3;
  '(b, tzf) ← read 1 tzf; b ← elem b 0;
  '(cc, tzf) ← read 2 tzf;
  tzf ← skip 13 tzf;
  Some (to_int (to_uint (c - 48)), (if b =? 1 then 1 else 0), cc ++ [0], tzf).

(** [read_header] and [read_64bit_header]. *)
Definition read_header (tzf : list Z) : option (tz_counts * list Z) :=
  '(buffer, tzf) ← read 24 tzf;
  match conv_words buffer with
  | [gmt; std; leap; time; types; chars] =>
      Some ({| cnt_ttisgmt := gmt; cnt_ttisstd := std; cnt_leap := leap; cnt_time := time; cnt_type := types; cnt_char := chars |}, tzf)
  | _ => None
  end.
Definition skip_64bit_transistions (c : tz_counts) (tzf : list Z) : option (list Z) :=
  if cnt_time c =? 0 then Some tzf else tzf ← skip (8 * cnt_time c) tzf; skip (cnt_time c) tzf.

(** [trans] and [trans_idx]. *)
Definition read_transistions (c : tz_counts) (tzf : list Z) : option (option (list Z) * list Z * list Z) :=
  if cnt_time c =? 0 then Some (None, [], tzf)
  else
    '(buffer, tzf) ← read (4 * cnt_time c) tzf;
    '(cbuffer, tzf) ← read (cnt_time c) tzf;
    Some (Some (signed (conv_words buffer)), cbuffer, tzf).

Definition skip_64bit_types (c : tz_counts) (tzf : list Z) : option (list Z) :=
  tzf ← skip (6 * cnt_type c) tzf;
  tzf ← skip (cnt_char c) tzf;
  tzf ← (if cnt_leap c =? 0 then Some tzf else skip (8 * cnt_leap c * 2) tzf);
  tzf ← (if cnt_ttisstd c =? 0 then Some tzf else skip (cnt_ttisstd c) tzf);
  if cnt_ttisgmt c =? 0 then Some tzf else skip (cnt_ttisgmt c) tzf.

(** The product overflows [int] for an offset west of Greenwich; as compiled, it wraps around. *)
Fixpoint ttinfos (buffer : list Z) : list ttinfo :=
  match buffer with
  | b0 :: b1 :: b2 :: b3 :: b4 :: b5 :: buffer =>
      {| tt_offset := to_int (b0 * 16777216 + b1 * 65536 + b2 * 256 + b3); tt_isdst := b4; tt_abbr_idx := b5 |} :: ttinfos buffer
  | _ => []
  end.
Fixpoint tlinfos (words : list Z) : list tlinfo :=
  match words with
  | t :: o :: words => {| tl_trans := to_int t; tl_offset := to_int o |} :: tlinfos words
  | _ => []
  end.
(** [isstdcnt] and [isgmtcnt] of the types, which nothing but [timelib_dump_tzinfo] reads: a count above [typecnt] writes past the array. *)
Definition read_flags (count : Z) (c : tz_counts) (tzf : list Z) : option (list Z) :=
  if count =? 0 then Some tzf
  else '(_, tzf) ← read count tzf; if cnt_type c <? count then None else Some tzf.
Definition read_leaps (c : tz_counts) (tzf : list Z) : option (option (list tlinfo) * list Z) :=
  if cnt_leap c =? 0 then Some (None, tzf)
  else '(leap_buffer, tzf) ← read (4 * (cnt_leap c * 2)) tzf; Some (Some (tlinfos (conv_words leap_buffer)), tzf).
(** [type], [timezone_abbr] and [leap_times]. *)
Definition read_types (c : tz_counts) (tzf : list Z) : option (list ttinfo * list ascii * option (list tlinfo) * list Z) :=
  '(buffer, tzf) ← read (6 * cnt_type c) tzf;
  '(abbr, tzf) ← read (cnt_char c) tzf;
  '(leap, tzf) ← read_leaps c tzf;
  tzf ← read_flags (cnt_ttisstd c) c tzf;
  tzf ← read_flags (cnt_ttisgmt c) c tzf;
  Some (ttinfos buffer, chars abbr, leap, tzf).

(** [do {} while (n_count < 2)] *)
Fixpoint skip_posix_string (n_count : Z) (tzf : list Z) : option (list Z) :=
  match tzf with
  | [] => None
  | c :: tzf => let n_count := if c =? 10 then n_count + 1 else n_count in if n_count <? 2 then skip_posix_string n_count tzf else Some tzf
  end.
Definition skip_64bit_preamble (tzf : list Z) : option (list Z) := skip 20 tzf.

Definition read_location (cc : list Z) (tzf : list Z) : option (tlocinfo * list Z) :=
  '(buffer, tzf) ← read 12 tzf;
  match conv_words buffer with
  | [lat; long; comments_len] =>
      '(text, tzf) ← read comments_len tzf;
      Some ({| country_code := cc; latitude := lat; longitude := long; comments := text ++ [0] |}, tzf)
  | _ => None
  end.

(** The 64-bit block of a version 2 record is skipped. *)
Definition skip_64bit (tzf : list Z) : option (tz_counts * list Z) :=
  tzf ← skip_64bit_preamble tzf;
  '(c, tzf) ← read_header tzf;
  tzf ← skip_64bit_transistions c tzf;
  tzf ← skip_64bit_types c tzf;
  tzf ← skip_posix_string 0 tzf;
  Some (c, tzf).
Definition read_zone (name : string) (tzf : list Z) : option timelib_tzinfo :=
  '(version, bc, cc, tzf) ← read_preamble tzf;
  '(c, tzf) ← read_header tzf;
  '(tr, idx, tzf) ← read_transistions c tzf;
  '(types, abbr, leap, tzf) ← read_types c tzf;
  '(c64, tzf) ← (if version =? 2 then skip_64bit tzf else Some (bit64 (tz_ctor name), tzf));
  '(loc, _) ← read_location cc tzf;
  Some {| tz_name := name; bit32 := c; bit64 := c64; trans := tr; trans_idx := idx; type := types; timezone_abbr := Some abbr; leap_times := leap; bc := bc; location := loc |}.

(** ** The index *)

(** [strcasecmp] in the C locale. *)
Definition tolower (c : ascii) : nat := let n := nat_of_ascii c in if (65 <=? n)%nat && (n <=? 90)%nat then (n + 32)%nat else n.
Fixpoint strcasecmp (s t : string) : comparison :=
  match s, t with
  | EmptyString, EmptyString => Eq
  | EmptyString, _ => Lt
  | _, EmptyString => Gt
  | String a s, String b t => match (tolower a ?= tolower b)%nat with Eq => strcasecmp s t | c => c end
  end.
(** [do {} while (left <= right)]: the bytes of the record, if there is one. *)
Fixpoint seek_loop (fuel : nat) (timezone : string) (db : timelib_tzdb) (left right : Z) : option (option (list Z)) :=
  match fuel with
  | O => None
  | S fuel =>
      let again left right := if left <=? right then seek_loop fuel timezone db left right else Some None in
      let mid := to_int (Z.shiftr (to_uint (left + right)) 1) in
      '(id, pos) ← elem (index db) mid;
      match strcasecmp timezone id with
      | Lt => again left (mid - 1)
      | Gt => again (mid + 1) right
      | Eq => tzf ← skip pos (data db); Some (Some tzf)
      end
  end.
Definition seek_to_tz_position (timezone : string) (db : timelib_tzdb) : option (option (list Z)) :=
  seek_loop (S (length (index db))) timezone db 0 (Z.of_nat (length (index db)) - 1).
Definition timelib_timezone_id_is_valid (timezone : string) (db : timelib_tzdb) : option bool :=
  found ← seek_to_tz_position timezone db; Some (if found is Some _ then true else false).

Definition timelib_parse_tzfile (timezone : string) (db : timelib_tzdb) : option (option timelib_tzinfo) :=
  found ← seek_to_tz_position timezone db;
  match found with
  | Some tzf => tz ← read_zone timezone tzf; Some (Some tz)
  | None => Some None
  end.
