(* ===== verification/TzFileThms.v ===== *)
(** * TzFileThms: what reading the zone database promises

    The record of a zone as bytes, [tz_record], is the reference definition: it
    is read back; an index in order is searched by halves. *)
From Stdlib Require Import Ascii.
From S2P Require Import Prelude TimeLib TimeNorm TimeZone TzFile.

(** ** Bytes *)
Lemma read_app l n rest : Z.of_nat (length l) = n -> read n (l ++ rest) = Some (l, rest).
Proof.
  intros <-. unfold read. rewrite (proj2 (Z.leb_le _ _)) by (rewrite length_app; lia). by rewrite Nat2Z.id, take_app_length, drop_app_length.
Qed.
Lemma skip_app l n rest : Z.of_nat (length l) = n -> skip n (l ++ rest) = Some rest.
Proof. intros Hn. unfold skip. by rewrite (read_app l n rest Hn). Qed.

Definition byte (b : Z) : Prop := 0 <= b < 256.
Definition be32 (n : Z) : list Z := [n / 16777216 mod 256; n / 65536 mod 256; n / 256 mod 256; n mod 256].
Lemma mask_byte l k : 0 <= k -> Z.land l (Z.shiftl (Z.ones 8) k) = (l / 2 ^ k) mod 256 * 2 ^ k.
Proof.
  intros Hk. rewrite <- Z.shiftl_mul_pow2, <- Z.shiftr_div_pow2 by done. change 256 with (2 ^ 8). rewrite <- Z.land_ones by lia. apply Z.bits_inj'. intros n Hn.
  rewrite Z.land_spec, !Z.shiftl_spec by done. destruct (Z_lt_dec n k) as [Hlt|Hge].
  - by rewrite !(Z.testbit_neg_r _ (n - k)), andb_false_r by lia.
  - rewrite Z.land_spec, Z.shiftr_spec by lia. by rewrite Z.sub_add.
Qed.
Lemma conv_int_swaps b0 b1 b2 b3 : byte b0 -> byte b1 -> byte b2 -> byte b3 ->
  timelib_conv_int (b0 + 256 * b1 + 65536 * b2 + 16777216 * b3) = 16777216 * b0 + 65536 * b1 + 256 * b2 + b3.
Proof.
  unfold byte. intros H0 H1 H2 H3. unfold timelib_conv_int.
  change 0x000000ff with (Z.shiftl (Z.ones 8) 0). change 0x0000ff00 with (Z.shiftl (Z.ones 8) 8). change 0x00ff0000 with (Z.shiftl (Z.ones 8) 16). change 0xff000000 with (Z.shiftl (Z.ones 8) 24).
  rewrite !mask_byte by lia. rewrite !Z.shiftl_mul_pow2, !Z.shiftr_div_pow2 by lia. rewrite to_uint_small; Z.to_euclidean_division_equations; lia.
Qed.
Lemma conv_words_be l rest : conv_words ((l ≫= be32) ++ rest) = ((fun n => n mod 4294967296) <$> l) ++ conv_words rest.
Proof.
  induction l as [|n l IH]; [done|]. cbn. rewrite conv_int_swaps by (unfold byte; Z.to_euclidean_division_equations; lia). f_equal; [|done].
  Z.to_euclidean_division_equations. lia.
Qed.
Lemma length_be l : Z.of_nat (length (l ≫= be32)) = 4 * Z.of_nat (length l).
Proof. induction l as [|n l IH]; [done|]. cbn. rewrite !Nat2Z.inj_succ. cbn in IH. lia. Qed.

(** ** The record of a zone *)
Definition counts_bytes (c : tz_counts) : list Z := [cnt_ttisgmt c; cnt_ttisstd c; cnt_leap c; cnt_time c; cnt_type c; cnt_char c] ≫= be32.
Definition type_bytes (t : ttinfo) : list Z := be32 (tt_offset t) ++ [tt_isdst t; tt_abbr_idx t].
Definition leap_words (l : list tlinfo) : list Z := l ≫= fun t => [tl_trans t; tl_offset t].
Definition codes (l : list ascii) : list Z := (fun c => Z.of_nat (nat_of_ascii c)) <$> l.
(** The part up to the 64-bit block, with the flags of the types. *)
Definition zone_bytes (tz : timelib_tzinfo) (std gmt : list Z) : list Z :=
  counts_bytes (bit32 tz) ++ (default [] (trans tz) ≫= be32) ++ trans_idx tz ++ (type tz ≫= type_bytes) ++ codes (default [] (timezone_abbr tz))
    ++ (leap_words (default [] (leap_times tz)) ≫= be32) ++ std ++ gmt.
(** "PHP1" or "PHP2", whether it is not only for old times, the country, and nothing. *)
Definition preamble_bytes (version : Z) (tz : timelib_tzinfo) (reserved : list Z) : list Z :=
  [80; 72; 80; 48 + version] ++ [bc tz] ++ take 2 (country_code (location tz)) ++ reserved.
Definition location_bytes (l : tlocinfo) : list Z :=
  let text := take (length (comments l) - 1) (comments l) in ([latitude l; longitude l; Z.of_nat (length text)] ≫= be32) ++ text.
(** A preamble, 64-bit transitions and types, and a rule between newlines. *)
Definition block64 (c : tz_counts) (preamble data rule : list Z) : list Z := preamble ++ counts_bytes c ++ data ++ [10] ++ rule ++ [10].

Definition word (n : Z) : Prop := 0 <= n < 4294967296.
Definition int32 (n : Z) : Prop := -2147483648 <= n < 2147483648.
Definition counts_ok (c : tz_counts) : Prop :=
  (word (cnt_ttisgmt c) /\ word (cnt_ttisstd c) /\ word (cnt_leap c)) /\ word (cnt_time c) /\ word (cnt_type c) /\ word (cnt_char c).
Definition length_is {A} (l : list A) (n : Z) : Prop := Z.of_nat (length l) = n.
(** An array that is a null pointer when it is empty. *)
Definition array {A} (a : option (list A)) (n : Z) (P : A -> Prop) : Prop := (n = 0 /\ a = None) \/ (n <> 0 /\ exists l, a = Some l /\ length_is l n /\ Forall P l).
Record tz_readable (tz : timelib_tzinfo) (std gmt : list Z) : Prop := {
  ok_counts : counts_ok (bit32 tz);
  ok_trans : array (trans tz) (timecnt tz) int32 /\ length_is (trans_idx tz) (timecnt tz);
  ok_type : length_is (type tz) (typecnt tz) /\ Forall (fun t => int32 (tt_offset t) /\ byte (tt_isdst t) /\ byte (tt_abbr_idx t)) (type tz);
  ok_abbr : exists l, timezone_abbr tz = Some l /\ length_is l (cnt_char (bit32 tz));
  ok_leap : array (leap_times tz) (leapcnt tz) (fun t => int32 (tl_trans t) /\ int32 (tl_offset t));
  ok_flags : length_is std (cnt_ttisstd (bit32 tz)) /\ length_is gmt (cnt_ttisgmt (bit32 tz)) /\ cnt_ttisstd (bit32 tz) <= typecnt tz /\ cnt_ttisgmt (bit32 tz) <= typecnt tz;
  ok_bc : bc tz = 0 \/ bc tz = 1;
  ok_location : word (latitude (location tz)) /\ word (longitude (location tz)) /\ exists a b text, country_code (location tz) = [a; b; 0] /\ comments (location tz) = text ++ [0] /\ word (Z.of_nat (length text))
}.

Lemma to_int_word n : int32 n -> to_int (n mod 4294967296) = n.
Proof. unfold int32, to_int. intros Hn. Z.to_euclidean_division_equations. lia. Qed.
Lemma word_mod n : word n -> n mod 4294967296 = n.
Proof. apply Z.mod_small. Qed.
Lemma signed_be l rest : Forall int32 l -> signed (conv_words ((l ≫= be32) ++ rest)) = l ++ signed (conv_words rest).
Proof.
  intros Hl. rewrite conv_words_be. unfold signed. rewrite fmap_app. f_equal. rewrite <- list_fmap_compose. induction Hl as [|n l Hn _ IH]; [done|]. cbn. rewrite IH. f_equal. by apply to_int_word.
Qed.
Lemma read_header_ok c rest : counts_ok c -> read_header (counts_bytes c ++ rest) = Some (c, rest).
Proof.
  intros ((H1 & H2 & H3) & H4 & H5 & H6). unfold read_header, counts_bytes. step (read_app ([cnt_ttisgmt c; cnt_ttisstd c; cnt_leap c; cnt_time c; cnt_type c; cnt_char c] ≫= be32) 24 rest ltac:(by rewrite length_be)).
  pose proof (conv_words_be [cnt_ttisgmt c; cnt_ttisstd c; cnt_leap c; cnt_time c; cnt_type c; cnt_char c] []) as E. rewrite app_nil_r in E. rewrite E. cbn. rewrite !word_mod by done. by destruct c.
Qed.
Lemma ttinfos_bytes l : Forall (fun t => int32 (tt_offset t) /\ byte (tt_isdst t) /\ byte (tt_abbr_idx t)) l -> ttinfos (l ≫= type_bytes) = l.
Proof.
  induction 1 as [|t l (Ht & _ & _) _ IH]; [done|]. cbn. rewrite IH. f_equal. destruct t as [o d a]. cbn in *. f_equal. rewrite <- (to_int_word o) at 5 by done. f_equal.
  unfold int32 in Ht. Z.to_euclidean_division_equations. lia.
Qed.
Lemma length_type_bytes l : Z.of_nat (length (l ≫= type_bytes)) = 6 * Z.of_nat (length l).
Proof. induction l as [|t l IH]; [done|]. cbn. rewrite !Nat2Z.inj_succ. cbn in IH. lia. Qed.
Lemma chars_codes l : chars (codes l) = l.
Proof.
  unfold chars, codes. rewrite <- list_fmap_compose. induction l as [|c l IH]; [done|]. cbn. rewrite IH, Nat2Z.id. by rewrite ascii_nat_embedding.
Qed.
Lemma tlinfos_words l : Forall (fun t => int32 (tl_trans t) /\ int32 (tl_offset t)) l -> tlinfos (conv_words (leap_words l ≫= be32)) = l.
Proof.
  intros Hl. pose proof (conv_words_be (leap_words l) []) as E. rewrite app_nil_r in E. rewrite E. clear E. cbn [conv_words]. rewrite app_nil_r.
  induction Hl as [|t l [H1 H2] _ IH]; [done|]. cbn. rewrite !to_int_word by done. f_equal; [by destruct t|done].
Qed.
Lemma array_words {A} (a : option (list A)) n P : array a n P -> n = 0 /\ a = None /\ default [] a = [] \/ n <> 0 /\ a = Some (default [] a) /\ length_is (default [] a) n /\ Forall P (default [] a).
Proof. intros [[H1 ->]|[H1 (l & -> & H2 & H3)]]; [by left|by right]. Qed.
Lemma read_transistions_ok tz std gmt rest : tz_readable tz std gmt ->
  read_transistions (bit32 tz) ((default [] (trans tz) ≫= be32) ++ trans_idx tz ++ rest) = Some (trans tz, trans_idx tz, rest).
Proof.
  intros [_ [Ht Hi] _ _ _ _ _ _]. unfold read_transistions. fold (timecnt tz). destruct (array_words _ _ _ Ht) as [(E & E1 & E2)|(E & E1 & Hl & Hf)].
  - rewrite E2, E1, E. unfold length_is in Hi. rewrite E in Hi. destruct (trans_idx tz); [done|cbn in Hi; lia].
  - rewrite (proj2 (Z.eqb_neq _ _) E). unfold length_is in *. step (read_app (default [] (trans tz) ≫= be32) (4 * timecnt tz) (trans_idx tz ++ rest) ltac:(rewrite length_be; lia)).
    step (read_app (trans_idx tz) (timecnt tz) rest Hi). rewrite E1. cbn [default]. do 4 f_equal. pose proof (signed_be _ [] Hf) as Es. rewrite E1 in Es. cbn in Es. by rewrite !app_nil_r in Es.
Qed.
Lemma read_flags_ok c l rest n : length_is l n -> n <= cnt_type c -> read_flags n c (l ++ rest) = Some rest.
Proof.
  unfold length_is. intros Hl Hn. unfold read_flags. destruct (Z.eqb_spec n 0) as [->|Hne]; [destruct l; [done|cbn in Hl; lia]|].
  step (read_app l n rest Hl). by rewrite (proj2 (Z.ltb_ge _ _)) by lia.
Qed.
Lemma length_leap_words l : Z.of_nat (length (leap_words l)) = Z.of_nat (length l) * 2.
Proof. unfold leap_words. induction l as [|t l IH]; [done|]. cbn. rewrite !Nat2Z.inj_succ. cbn in IH. lia. Qed.
Lemma read_leaps_ok tz std gmt rest : tz_readable tz std gmt -> read_leaps (bit32 tz) ((leap_words (default [] (leap_times tz)) ≫= be32) ++ rest) = Some (leap_times tz, rest).
Proof.
  intros [_ _ _ _ Hl _ _ _]. unfold read_leaps. fold (leapcnt tz). destruct (array_words _ _ _ Hl) as [(E & E1 & E2)|(E & E1 & Hn & Hf)].
  - rewrite E2, E1, E. done.
  - rewrite (proj2 (Z.eqb_neq _ _) E). unfold length_is in Hn.
    step (read_app (leap_words (default [] (leap_times tz)) ≫= be32) (4 * (leapcnt tz * 2)) rest ltac:(rewrite length_be, length_leap_words; lia)).
    by rewrite tlinfos_words, <- E1.
Qed.
Lemma length_codes l : length (codes l) = length l.
Proof. apply length_fmap. Qed.
Lemma read_types_ok tz std gmt rest : tz_readable tz std gmt -> exists abbr, timezone_abbr tz = Some abbr /\
  read_types (bit32 tz) ((type tz ≫= type_bytes) ++ codes (default [] (timezone_abbr tz)) ++ (leap_words (default [] (leap_times tz)) ≫= be32) ++ std ++ gmt ++ rest)
  = Some (type tz, abbr, leap_times tz, rest).
Proof.
  intros Hz. pose proof Hz as [_ _ [Ht Hf] (abbr & Ea & Hab) _ (Hstd & Hgmt & Hns & Hng) _ _]. exists abbr. split; [done|]. unfold read_types. fold (typecnt tz). unfold length_is in *.
  step (read_app (type tz ≫= type_bytes) (6 * typecnt tz) (codes (default [] (timezone_abbr tz)) ++ (leap_words (default [] (leap_times tz)) ≫= be32) ++ std ++ gmt ++ rest) ltac:(rewrite length_type_bytes; lia)).
  rewrite Ea. cbn [default]. step (read_app (codes abbr) (cnt_char (bit32 tz)) ((leap_words (default [] (leap_times tz)) ≫= be32) ++ std ++ gmt ++ rest) ltac:(by rewrite length_codes)).
  step (read_leaps_ok tz std gmt (std ++ gmt ++ rest) Hz). step (read_flags_ok (bit32 tz) std (gmt ++ rest) _ Hstd Hns). step (read_flags_ok (bit32 tz) gmt rest _ Hgmt Hng).
  by rewrite ttinfos_bytes, chars_codes.
Qed.

(** The size of the 64-bit transitions and types. *)
Definition size64 (c : tz_counts) : Z := 9 * cnt_time c + 6 * cnt_type c + cnt_char c + 16 * cnt_leap c + cnt_ttisstd c + cnt_ttisgmt c.
Lemma skip_data n k data tail : 0 <= n -> 0 <= k -> k + n <= Z.of_nat (length data) -> skip n (drop (Z.to_nat k) data ++ tail) = Some (drop (Z.to_nat (k + n)) data ++ tail).
Proof.
  intros Hn Hk Hl. unfold skip, read. rewrite (proj2 (Z.leb_le _ _)) by (rewrite length_app, length_drop; lia). cbn [mbind option_bind].
  rewrite drop_app_le by (rewrite length_drop; lia). rewrite drop_drop. do 3 f_equal. lia.
Qed.
Lemma skip_none n m l : (m = 0 -> n = 0) -> (if m =? 0 then Some l else skip n l) = skip n l.
Proof.
  intros Hm. destruct (Z.eqb_spec m 0) as [E|E]; [|done]. rewrite (Hm E). unfold skip, read. rewrite (proj2 (Z.leb_le _ _)) by lia. by rewrite drop_0.
Qed.
Lemma skip_posix_ok n rule rest : n <= 1 -> ~ 10 ∈ rule -> skip_posix_string n (rule ++ [10] ++ rest) = (if n + 1 <? 2 then skip_posix_string (n + 1) rest else Some rest).
Proof.
  intros Hn. induction rule as [|c rule IH]; intros Hr; [done|]. cbn [app skip_posix_string]. rewrite (proj2 (Z.eqb_neq c 10)) by set_solver. rewrite (proj2 (Z.ltb_lt n 2)) by lia. apply IH. set_solver.
Qed.
Lemma skip_64bit_ok c preamble data rule rest : counts_ok c -> length_is preamble 20 -> length_is data (size64 c) -> ~ 10 ∈ rule ->
  skip_64bit (block64 c preamble data rule ++ rest) = Some (c, rest).
Proof.
  intros Hc Hp Hd Hr. unfold skip_64bit, block64, skip_64bit_preamble, length_is, size64 in *. rewrite <- !app_assoc. step (skip_app preamble 20 (counts_bytes c ++ data ++ [10] ++ rule ++ [10] ++ rest) Hp).
  step (read_header_ok c (data ++ [10] ++ rule ++ [10] ++ rest) Hc). set (tail := [10] ++ rule ++ [10] ++ rest). destruct Hc as ((H1 & H2 & H3) & H4 & H5 & H6). unfold word in *.
  assert (Et : skip_64bit_transistions c (data ++ tail) = Some (drop (Z.to_nat (9 * cnt_time c)) data ++ tail)).
  { unfold skip_64bit_transistions. destruct (Z.eqb_spec (cnt_time c) 0) as [E|E]; [by rewrite E|]. rewrite <- (drop_0 data) at 1. change O with (Z.to_nat 0).
    step (skip_data (8 * cnt_time c) 0 data tail ltac:(lia) ltac:(lia) ltac:(lia)). rewrite (skip_data (cnt_time c) (0 + 8 * cnt_time c)) by lia. by replace (0 + 8 * cnt_time c + cnt_time c) with (9 * cnt_time c) by lia. }
  step Et. assert (Ey : skip_64bit_types c (drop (Z.to_nat (9 * cnt_time c)) data ++ tail) = Some tail).
  { unfold skip_64bit_types. step (skip_data (6 * cnt_type c) (9 * cnt_time c) data tail ltac:(lia) ltac:(lia) ltac:(lia)).
    step (skip_data (cnt_char c) (9 * cnt_time c + 6 * cnt_type c) data tail ltac:(lia) ltac:(lia) ltac:(lia)).
    rewrite skip_none by lia. step (skip_data (8 * cnt_leap c * 2) (9 * cnt_time c + 6 * cnt_type c + cnt_char c) data tail ltac:(lia) ltac:(lia) ltac:(lia)).
    rewrite skip_none by lia. step (skip_data (cnt_ttisstd c) (9 * cnt_time c + 6 * cnt_type c + cnt_char c + 8 * cnt_leap c * 2) data tail ltac:(lia) ltac:(lia) ltac:(lia)).
    rewrite skip_none by lia. rewrite skip_data by lia. f_equal. rewrite drop_ge by lia. done. }
  step Ey. unfold tail. change ([10] ++ rule ++ [10] ++ rest) with ([] ++ [10] ++ (rule ++ [10] ++ rest)).
  assert (Ep : skip_posix_string 0 ([] ++ [10] ++ (rule ++ [10] ++ rest)) = Some rest).
  { rewrite skip_posix_ok by (lia || set_solver). change (0 + 1 <? 2) with true. cbv iota. by rewrite skip_posix_ok by (lia || set_solver). }
  by step Ep.
Qed.

Lemma read_location_ok cc l rest : word (latitude l) -> word (longitude l) -> country_code l = cc -> (exists text, comments l = text ++ [0] /\ word (Z.of_nat (length text))) ->
  read_location cc (location_bytes l ++ rest) = Some (l, rest).
Proof.
  intros H1 H2 <- (text & Ec & H3). unfold read_location, location_bytes. rewrite Ec, length_app, Nat.add_sub. cbv zeta. rewrite take_app_length. rewrite <- app_assoc.
  step (read_app ([latitude l; longitude l; Z.of_nat (length text)] ≫= be32) 12 (text ++ rest) ltac:(by rewrite length_be)).
  pose proof (conv_words_be [latitude l; longitude l; Z.of_nat (length text)] []) as E. rewrite app_nil_r in E. rewrite E. cbn. rewrite !word_mod by done.
  rewrite (read_app text _ rest eq_refl). cbn. rewrite <- Ec. by destruct l.
Qed.

(** The bytes of a zone, of version 1 or 2, are read back. *)
Definition tz_record (tz : timelib_tzinfo) (std gmt reserved block : list Z) : list Z :=
  preamble_bytes (if block is [] then 1 else 2) tz reserved ++ zone_bytes tz std gmt ++ block ++ location_bytes (location tz).
Definition block_ok (tz : timelib_tzinfo) (block : list Z) : Prop :=
  block = [] /\ bit64 tz = bit64 (tz_ctor (tz_name tz))
  \/ counts_ok (bit64 tz) /\ exists preamble data rule, block = block64 (bit64 tz) preamble data rule /\ length_is preamble 20 /\ length_is data (size64 (bit64 tz)) /\ ~ 10 ∈ rule.
Lemma read_zone_ok tz std gmt reserved block rest : tz_readable tz std gmt -> length_is reserved 13 -> block_ok tz block ->
  read_zone (tz_name tz) (tz_record tz std gmt reserved block ++ rest) = Some tz.
Proof.
  intros Hz Hres Hb. unfold read_zone, tz_record. pose proof Hz as [Hc _ _ _ _ _ Hbc (Hlat & Hlong & a & b & text & Ecc & Ecom & Hlen)]. rewrite <- !app_assoc.
  set (version := match block with [] => 1 | _ => 2 end). set (tail := zone_bytes tz std gmt ++ _).
  assert (Ep : read_preamble (preamble_bytes version tz reserved ++ tail) = Some (version, bc tz, country_code (location tz), tail)).
  { assert (Ever : to_int (to_uint version) = version) by (unfold version; by destruct block).
    assert (Ebc : (if bc tz =? 1 then 1 else 0) = bc tz) by (by destruct Hbc as [-> | ->]).
    unfold preamble_bytes, read_preamble, length_is in *. rewrite Ecc. change (take 2 [a; b; 0]) with [a; b]. rewrite <- !app_assoc.
    step (read_app [80; 72; 80; 48 + version] 4 ([bc tz] ++ [a; b] ++ reserved ++ tail) eq_refl). change (elem [80; 72; 80; 48 + version] 3) with (Some (48 + version)). rewrite (bind_step (Some (48 + version)) _ _ eq_refl). cbv beta.
    step (read_app [bc tz] 1 ([a; b] ++ reserved ++ tail) eq_refl). change (elem [bc tz] 0) with (Some (bc tz)). rewrite (bind_step (Some (bc tz)) _ _ eq_refl). cbv beta.
    step (read_app [a; b] 2 (reserved ++ tail) eq_refl). step (skip_app reserved 13 tail Hres).
    replace (48 + version - 48) with version by lia. rewrite Ever, Ebc. done. }
  step Ep. unfold tail, zone_bytes. rewrite <- !app_assoc. set (after := block ++ location_bytes (location tz) ++ rest).
  step (read_header_ok (bit32 tz) ((default [] (trans tz) ≫= be32) ++ trans_idx tz ++ (type tz ≫= type_bytes) ++ codes (default [] (timezone_abbr tz)) ++ (leap_words (default [] (leap_times tz)) ≫= be32) ++ std ++ gmt ++ after) Hc).
  step (read_transistions_ok tz std gmt ((type tz ≫= type_bytes) ++ codes (default [] (timezone_abbr tz)) ++ (leap_words (default [] (leap_times tz)) ≫= be32) ++ std ++ gmt ++ after) Hz).
  destruct (read_types_ok tz std gmt after Hz) as (abbr & Eabbr & Ety). step Ety.
  assert (E64 : (if version =? 2 then skip_64bit after else Some (bit64 (tz_ctor (tz_name tz)), after)) = Some (bit64 tz, location_bytes (location tz) ++ rest)).
  { unfold after, version. destruct Hb as [[-> E]|(Hc64 & preamble & data & rule & Eb & H1 & H2 & H3)].
    - change (1 =? 2) with false. cbv iota. by rewrite E.
    - destruct block as [|x block']; [unfold length_is in H1; destruct preamble; [done|done]|]. change (2 =? 2) with true. cbv iota. rewrite Eb. by apply skip_64bit_ok. }
  step E64. rewrite (bind_step _ _ _ (read_location_ok (country_code (location tz)) (location tz) rest Hlat Hlong eq_refl (ex_intro _ text (conj Ecom Hlen)))). cbv beta iota.
  rewrite <- Eabbr. by destruct tz.
Qed.

(** ** The index *)
Lemma strcasecmp_antisym s : forall t, strcasecmp t s = CompOpp (strcasecmp s t).
Proof. induction s as [|a s IH]; intros [|b t]; cbn; try done. rewrite (Nat.compare_antisym (tolower a) (tolower b)). destruct (Nat.compare_spec (tolower a) (tolower b)); cbn; [apply IH|done|done]. Qed.
Lemma strcasecmp_trans s : forall t u, strcasecmp s t <> Gt -> strcasecmp t u <> Gt ->
  strcasecmp s u <> Gt /\ (strcasecmp s t = Lt \/ strcasecmp t u = Lt -> strcasecmp s u = Lt).
Proof.
  induction s as [|a s IH]; intros [|b t] [|c u]; cbn; try naive_solver.
  destruct (Nat.compare_spec (tolower a) (tolower b)), (Nat.compare_spec (tolower b) (tolower c)), (Nat.compare_spec (tolower a) (tolower c)); try lia; try done; apply IH.
Qed.
(** The ids are in order, and an [int] counts them. *)
Definition ordered (db : timelib_tzdb) : Prop := StronglySorted (fun x y => strcasecmp (fst x) (fst y) = Lt) (index db) /\ 0 < Z.of_nat (length (index db)) < 2147483648.
(** The reference: the first id that is the same. *)
Definition same_id (timezone : string) (entry : string * Z) : Prop := strcasecmp timezone (fst entry) = Eq.
#[export] Instance same_id_dec timezone entry : Decision (same_id timezone entry) := decide (strcasecmp timezone (fst entry) = Eq).
Definition record_at (timezone : string) (db : timelib_tzdb) : option (option (list Z)) :=
  match list_find (same_id timezone) (index db) with
  | Some (_, (_, pos)) => tzf ← skip pos (data db); Some (Some tzf)
  | None => Some None
  end.

Lemma sorted_lt db i j x y : ordered db -> (i < j)%nat -> index db !! i = Some x -> index db !! j = Some y -> strcasecmp (fst x) (fst y) = Lt.
Proof.
  intros [Hs _]. revert i j. induction Hs as [|z l _ IH Hz]; intros [|i] [|j] Hij; cbn; try done; try lia; [|apply IH; lia].
  intros [= ->] Hy. rewrite Forall_forall in Hz. apply Hz. by apply list_elem_of_lookup_2 in Hy.
Qed.
Lemma same_id_side db timezone i j x y : ordered db -> index db !! i = Some x -> index db !! j = Some y -> same_id timezone y ->
  match strcasecmp timezone (fst x) with Lt => (j < i)%nat | Gt => (i < j)%nat | Eq => i = j end.
Proof.
  unfold same_id. intros Ho Hx Hy Es. destruct (lt_eq_lt_dec i j) as [[Hij|<-]|Hij].
  - pose proof (sorted_lt db i j x y Ho Hij Hx Hy) as Hlt. rewrite (strcasecmp_antisym (fst x) timezone).
    assert (Es' : strcasecmp (fst y) timezone = Eq) by by rewrite strcasecmp_antisym, Es.
    rewrite (proj2 (strcasecmp_trans (fst x) (fst y) timezone ltac:(by rewrite Hlt) ltac:(by rewrite Es')) (or_introl Hlt)). done.
  - simplify_eq. by rewrite Es.
  - pose proof (sorted_lt db j i y x Ho Hij Hy Hx) as Hlt.
    by rewrite (proj2 (strcasecmp_trans timezone (fst y) (fst x) ltac:(by rewrite Es) ltac:(by rewrite Hlt)) (or_intror Hlt)).
Qed.
Lemma middle left right : 0 <= left -> left <= right < 2147483648 -> to_int (Z.shiftr (to_uint (left + right)) 1) = (left + right) / 2.
Proof. intros H1 H2. rewrite to_uint_small by lia. rewrite Z.shiftr_div_pow2 by lia. unfold to_int. Z.to_euclidean_division_equations. lia. Qed.
Lemma record_at_found timezone db i x : ordered db -> index db !! i = Some x -> same_id timezone x -> record_at timezone db = tzf ← skip (snd x) (data db); Some (Some tzf).
Proof.
  intros Ho Hi Hs. unfold record_at. destruct (list_find (same_id timezone) (index db)) as [[j [id pos]]|] eqn:E.
  - apply list_find_Some in E as (Hj & Hid & _). pose proof (same_id_side db timezone j i (id, pos) x Ho Hj Hi Hs) as E. unfold same_id in Hid. rewrite Hid in E. subst. rewrite Hj in Hi. by injection Hi as <-.
  - apply list_find_None in E. rewrite Forall_forall in E. exfalso. eapply E; [|exact Hs]. by eapply list_elem_of_lookup_2.
Qed.
Lemma record_at_absent timezone db : (forall i x, index db !! i = Some x -> ~ same_id timezone x) -> record_at timezone db = Some None.
Proof.
  intros Ha. unfold record_at. destruct (list_find (same_id timezone) (index db)) as [[j [id pos]]|] eqn:E; [|done].
  apply list_find_Some in E as (Hj & Hid & _). by destruct (Ha j _ Hj).
Qed.
(** The loop keeps the id, if it is there, between its bounds. *)
Lemma seek_loop_record timezone db : ordered db -> forall fuel left right, 0 <= left <= right -> right < Z.of_nat (length (index db)) -> right - left < Z.of_nat fuel ->
  (forall i x, index db !! i = Some x -> same_id timezone x -> left <= Z.of_nat i <= right) -> seek_loop fuel timezone db left right = record_at timezone db.
Proof.
  intros Ho. pose proof Ho as [_ Hl]. induction fuel as [|fuel IH]; intros left right Hlr Hr Hf Hin; [lia|]. cbn [seek_loop]. rewrite middle by lia.
  set (mid := (left + right) / 2). assert (Hmid : left <= mid <= right) by (subst mid; Z.to_euclidean_division_equations; lia).
  destruct (elem_some (index db) mid ltac:(lia)) as [[id pos] Em]. rewrite (bind_step _ _ _ Em). apply elem_lookup in Em as [_ Em].
  assert (Hside : forall i x, index db !! i = Some x -> same_id timezone x -> match strcasecmp timezone id with Lt => Z.of_nat i < mid | Gt => mid < Z.of_nat i | Eq => True end).
  { intros i x Hi Hs. pose proof (same_id_side db timezone _ i _ x Ho Em Hi Hs) as E. cbn [fst] in E. destruct (strcasecmp timezone id); [done|lia|lia]. }
  assert (Habs : forall l r, (forall i x, index db !! i = Some x -> same_id timezone x -> l <= Z.of_nat i <= r) -> r < l -> record_at timezone db = Some None).
  { intros l r H Hlt. apply record_at_absent. intros i x Hi Hs. pose proof (H i x Hi Hs). lia. }
  destruct (strcasecmp timezone id) eqn:Ecmp.
  - symmetry. by apply (record_at_found timezone db _ (id, pos) Ho Em).
  - assert (Hnew : forall i x, index db !! i = Some x -> same_id timezone x -> left <= Z.of_nat i <= mid - 1) by (intros i x Hi Hs; pose proof (Hin i x Hi Hs); pose proof (Hside i x Hi Hs); lia).
    destruct (Z.leb_spec left (mid - 1)); [apply IH; [lia..|done]|]. symmetry. by apply (Habs left (mid - 1)); [|lia].
  - assert (Hnew : forall i x, index db !! i = Some x -> same_id timezone x -> mid + 1 <= Z.of_nat i <= right) by (intros i x Hi Hs; pose proof (Hin i x Hi Hs); pose proof (Hside i x Hi Hs); lia).
    destruct (Z.leb_spec (mid + 1) right); [apply IH; [lia..|done]|]. symmetry. by apply (Habs (mid + 1) right); [|lia].
Qed.
Lemma seek_record timezone db : ordered db -> seek_to_tz_position timezone db = record_at timezone db.
Proof.
  intros Ho. pose proof Ho as [_ Hl]. unfold seek_to_tz_position. apply seek_loop_record; [done|lia..|]. intros i x Hi _. apply lookup_lt_Some in Hi. lia.
Qed.

(** ** The zone of a name *)

(** The data has the record of [tz] at [pos]. *)
Definition holds_zone (db : timelib_tzdb) (pos : Z) (tz : timelib_tzinfo) : Prop :=
  exists before std gmt reserved block rest, data db = before ++ tz_record tz std gmt reserved block ++ rest /\ length_is before pos
    /\ tz_readable tz std gmt /\ length_is reserved 13 /\ block_ok tz block.

(** C38: a database in order, of one zone or more and as many as an [int] counts: a search by halves
    finds the id that is equal but for case, whichever it is, and what is read
    at its place is the zone that was written there, of version 1 or 2, under
    the name asked for; of a name that is not an id there is no zone. *)
Theorem timelib_parse_tzfile_correct timezone db (Ho : ordered db) :
  (forall id pos tz, (id, pos) ∈ index db -> strcasecmp timezone id = Eq -> holds_zone db pos tz -> tz_name tz = timezone ->
    timelib_parse_tzfile timezone db = Some (Some tz) /\ timelib_timezone_id_is_valid timezone db = Some true)
  /\ ((forall id pos, (id, pos) ∈ index db -> strcasecmp timezone id <> Eq) -> timelib_parse_tzfile timezone db = Some None /\ timelib_timezone_id_is_valid timezone db = Some false).
Proof.
  unfold timelib_parse_tzfile, timelib_timezone_id_is_valid. rewrite (seek_record timezone db Ho). split.
  - intros id pos tz Hin Hs (before & std & gmt & reserved & block & rest & Ed & Hpos & Hz & Hres & Hb) <-. apply list_elem_of_lookup in Hin as [i Hi].
    rewrite (record_at_found _ _ i _ Ho Hi Hs). cbn [snd]. rewrite Ed. rewrite (skip_app before pos _ Hpos). cbn [mbind option_bind].
    by rewrite (read_zone_ok tz std gmt reserved block rest Hz Hres Hb).
  - intros Ha. rewrite record_at_absent; [done|]. intros i [id pos] Hi Hs. apply list_elem_of_lookup_2 in Hi. by destruct (Ha id pos Hi).
Qed.

(** ** A database of three zones *)
Definition some_location : tlocinfo := {| country_code := [78; 76; 0]; latitude := 14200000; longitude := 18400000; comments := [68; 117; 0] |}.
Definition counts gmt std leap time types char : tz_counts := {| cnt_ttisgmt := gmt; cnt_ttisstd := std; cnt_leap := leap; cnt_time := time; cnt_type := types; cnt_char := char |}.
(** West of Greenwich, with one leap second and a 64-bit block. *)
Definition west (name : string) : timelib_tzinfo :=
  {| tz_name := name; bit32 := counts 0 2 1 2 2 8; bit64 := counts 1 1 1 2 1 4; trans := Some [-1633280400; 1000000000]; trans_idx := [1; 0];
     type := [{| tt_offset := -18000; tt_isdst := 0; tt_abbr_idx := 0 |}; {| tt_offset := -14400; tt_isdst := 1; tt_abbr_idx := 4 |}];
     timezone_abbr := Some ["E"; "S"; "T"; "000"; "E"; "D"; "T"; "000"]%char; leap_times := Some [{| tl_trans := 78796800; tl_offset := 1 |}]; bc := 1; location := some_location |}.
(** Without transitions, of version 1. *)
Definition fixed (name : string) : timelib_tzinfo :=
  {| tz_name := name; bit32 := counts 0 0 0 0 1 4; bit64 := counts 0 0 0 0 0 0; trans := None; trans_idx := [];
     type := [{| tt_offset := 0; tt_isdst := 0; tt_abbr_idx := 0 |}]; timezone_abbr := Some ["U"; "T"; "C"; "000"]%char; leap_times := None; bc := 0; location := some_location |}.
Definition west_record (name : string) : list Z := tz_record (west name) [1; 0] [] (replicate 13 0) (block64 (bit64 (west name)) (replicate 20 7) (replicate 46 1) [69; 83; 84; 53]).
Definition fixed_record : list Z := tz_record (fixed "") [] [] (replicate 13 0) [].
Definition three_zones : timelib_tzdb :=
  {| index := [("America/New_York", 0); ("Etc/UTC", 194); ("US/Eastern", 262)]; data := west_record "" ++ fixed_record ++ west_record "" |}.
Lemma three_zones_ordered : ordered three_zones.
Proof. split; [|by cbn]. repeat constructor. Defined.
Lemma west_readable name : tz_readable (west name) [1; 0] [].
Proof.
  split; cbn; unfold counts_ok, length_is, word, int32, byte; cbn; try lia.
  - split; [|done]. right. split; [done|]. eexists. split; [done|]. split; [done|]. repeat constructor; unfold int32; lia.
  - split; [done|]. repeat constructor; unfold int32; cbn; lia.
  - by eexists.
  - right. split; [done|]. eexists. split; [done|]. split; [done|]. repeat constructor; unfold int32; cbn; lia.
  - split; [lia|]. split; [lia|]. by exists 78, 76, [68; 117].
Defined.
Lemma west_held name : holds_zone three_zones 262 (west name).
Proof.
  exists (west_record "" ++ fixed_record), [1; 0], [], (replicate 13 0), (block64 (bit64 (west name)) (replicate 20 7) (replicate 46 1) [69; 83; 84; 53]), [].
  split; [by vm_compute|]. split; [by vm_compute|]. split; [apply west_readable|]. split; [done|]. right. split; [unfold counts_ok, word; cbn; lia|].
  exists (replicate 20 7), (replicate 46 1), [69; 83; 84; 53]. repeat split. set_solver.
Defined.
(** It is found without regard to case; "Zulu" is not there. *)
Lemma timelib_parse_tzfile_correct_witness :
  (timelib_parse_tzfile "us/eastern" three_zones = Some (Some (west "us/eastern")) /\ timelib_timezone_id_is_valid "us/eastern" three_zones = Some true)
  /\ timelib_parse_tzfile "Zulu" three_zones = Some None.
Proof.
  split.
  - apply (proj1 (timelib_parse_tzfile_correct "us/eastern" three_zones three_zones_ordered) "US/Eastern" 262 (west "us/eastern")); [set_solver|done|apply west_held|done].
  - apply (proj2 (timelib_parse_tzfile_correct "Zulu" three_zones three_zones_ordered)). intros id pos Hin. cbn in Hin.
    rewrite !elem_of_cons in Hin. destruct Hin as [[= -> ->]|[[= -> ->]|[[= -> ->]|Hin]]]; [done..|by apply elem_of_nil in Hin].
Defined.
